(* ===== verification/_CoqProject ===== *)
-Q . S2P
Prelude.v
Ring.v
Journal.v
JournalProps.v
State.v
Dll.v
Mlfq.v
Kernel.v
Sched.v
SchedInv.v
SchedProps.v
SchedLoop.v
SchedCalls.v
Spinlock.v
SleepLock.v
Mem.v
Kalloc.v
Bio.v
FsRun.v
BioProps.v
Log.v
LogProps.v
LogCrash.v
Txn.v
Vm.v
VmProps.v
UvmProps.v
Console.v
ConsoleProps.v
Fs.v
FsProps.v
PathProps.v
InodeProps.v
BmapProps.v
FileData.v
DirProps.v
ItruncProps.v
NamexProps.v
File.v
PipeProps.v
Proc.v
ProcVm.v
ProcProps.v
ForkProps.v
WaitProps.v
Exec.v
ExecProps.v
Sysfile.v
SysfileProps.v
Trap.v
RoundRobin.v
User.v
Ulib.v
Tools.v
Grep.v
Programs.v
Umalloc.v
UmallocProps.v
Sh.v
ShProps.v
ShRun.v
Virtio.v
VirtioProps.v
Boot.v
Mkfs.v
MkfsProps.v
