(* ===== verification/Prelude.v ===== *)
(** * A verification of the CS352 repository

    The repository holds three programs: a metadata journaling service
    ([src/Metadata journaling service]), the xv6-riscv kernel with a
    multilevel feedback queue scheduler
    ([src/XV6 Multilevel feedback queue/xv6-riscv]) and a second copy of
    xv6 with the stock scheduler and a scheduling log
    ([src/XV6 Scheduler/xv6-riscv]).  This library models the first, the
    kernel, mkfs and the main user programs of the second, and the
    scheduler and wc of the third; names of kernel files below are relative
    to the kernel directory of the second, those of user programs to its
    user directory.

    ** How programs are modelled

    - The journaling service, the spin locks, and sleep, wakeup and the
      sleep locks are transition systems: an executable step function per
      thread, CPU or process, one shared-memory access per step, with
      reachability from this file ([runs], [reachable]).  Theorems are
      proved by induction on runs and hold for every interleaving.
    - Kernel code is written in the monad [K] of Kernel.v.  A run returns
      ([Ret]), panics ([Panic]), is switched out and never resumed
      ([Blocked]) or spins forever ([Hang]).  The state [kst] (State.v) has
      the structures and globals of the C code.  Sleeping processes give
      the CPU to an environment, a list of arbitrary state transformers
      about which theorems assume as little as they need.  Locks appear
      through their contract, which Spinlock.v proves of spinlock.c.
    - Integers are [Z] at the width of the C type, wrapped with [u8] ...
      [i64] where the code can wrap around; memory is a function from
      addresses to bytes; arrays are lists.
    - Loops that are not structural take fuel.  Bounds: a waiting loop has
      one iteration per environment action and one more ([with_fuel]);
      other loops are given the number of iterations the C loop can make
      (bytes to copy, pages of a range, blocks of the bitmap, length of a
      path).  Running out of fuel is [Hang], and the theorems about these
      functions exclude it.
    - The disk driver is the interface [Disk] with the contract [DiskOk]
      (Bio.v), and [DiskIntr] (Trap.v); a disk that completes at once
      ([sync_disk]) satisfies the contract.  The driver itself is a
      transition system of its own (Virtio.v): processes, interrupt handler
      and device, proved to be an atomic disk for every interleaving.
    - User programs are pure functions where they only compute (the parser
      and runcmd of the shell, the matcher of grep, the allocator over byte
      memory), and run in the monad [U] of User.v over a model of the file
      system calls where they read and write.  mkfs has a monad of its own
      over the sectors of the image.
    - Fuel of user code: malloc visits at most [2 * blocks + 3] blocks, free
      fewer than the blocks of the list, the parser of the shell makes at
      most [4 * length + 4] nested calls for a line, iappend one round for
      each byte; the theorems show that this is enough.

    ** Files

    - Prelude: machine integers, step relations, arrays, tactics.  Ring:
      circular buffers with free-running counters.
    - Journal, JournalProps: journal.c, block_service.c, filesystem.c.
    - State, Kernel: data of the kernel and the monad.  Dll, Mlfq: doubly
      linked lists in an array, and the run queues of proc.c (setupQueue,
      enqueue, removeFromQueue, dequeue's choice).
    - Sched: scheduler, sched, yield, sleep, wakeup, kill, sys_nice,
      log_switch and the other scheduling code of proc.c; argraw and
      argint.  SchedInv, SchedProps, SchedLoop, SchedCalls: its theorems.
    - Spinlock: spinlock.c.  SleepLock: sleep, wakeup, yield and kill of
      proc.c and acquiresleep and releasesleep of sleeplock.c, a second
      time, as lists of steps that processes interleave.  Mem: string.c.  Kalloc: kalloc.c.
    - Bio: sleeplock.c, bio.c.  FsRun: a logic for storage code ([fsr]).
      BioProps: the buffer cache.
    - Log: log.c.  LogProps: commit and recovery.  LogCrash: crashes.
      Txn: rules for code inside a transaction.
    - Vm: vm.c, either_copyin, either_copyout, proc_mapstacks.  VmProps:
      page tables and user memory.  UvmProps: address spaces that grow, are
      copied and freed.
    - Console: uart.c, printf.c, console.c, procdump.  ConsoleProps.
    - Fs: fs.c.  FsProps: the block allocator.  PathProps: skipelem.
      InodeProps: inodes on disk and in memory.  BmapProps: the block map
      of an inode, direct and indirect.  FileData: readi and writei as
      operations on byte strings.  DirProps: directories as finite maps.
      ItruncProps: freeing a file.  NamexProps: the tree of directories.
    - File: pipe.c, file.c.  PipeProps: pipes.
    - Proc: processes (allocproc, freeproc, fork, exit, wait, growproc,
      userinit).  ProcVm, ProcProps: the address space and the slot of a
      process.  ForkProps: fork.  WaitProps: wait.  Exec: exec.c and string
      arguments.  ExecProps: the stack and the new image of exec.  Sysfile:
      sysfile.c.  SysfileProps: sys_pipe.  Trap: sysproc.c, the system call
      table, trap.c, plic.c, forkret.
    - Boot: start.c, the set-up of UART, PLIC and disk, main.c.
    - RoundRobin: the scheduler, log and nice of the third program.
    - Virtio, VirtioProps: virtio_disk.c and the device.
    - User: system calls as user programs see them.  Ulib: ulib.c,
      printf.c.  Grep: grep.c.  Programs: cat.c, echo.c, wc.c.  Tools: ls.c,
      rm.c, ln.c, mkdir.c, kill.c, init.c, the random numbers of grind.c.
    - Umalloc, UmallocProps: umalloc.c.
    - Sh, ShProps: the parser of sh.c.  ShRun: runcmd and main of sh.c.
    - Mkfs, MkfsProps: mkfs/mkfs.c.

    ** What the theorems show

    - Journaling: the pipeline of bounded buffers delivers every request
      once and in order, issues writes in write-ahead order, never
      overflows, excludes mutually, and always completes; but a checkpoint
      can be issued before the commit record is reported written.
    - Scheduling: the table of links refines three FIFO queues; the
      scheduler keeps the queues equal to the RUNNABLE processes and runs
      the highest non-empty queue; sleep, wakeup, yield, kill behave as
      specified; sys_nice keeps its range but queues the running process,
      which is run again when it goes to sleep, without a wakeup.
    - Round robin: every RUNNABLE process is run once per iteration of the
      scheduler; the log is the sequence of switches without repetitions,
      cut at its size; but startlog always fails.
    - Locks and memory: mutual exclusion and interrupt discipline of spin
      locks for any number of CPUs; no wakeup is lost and no call gets stuck for
      any number of processes that acquire and release sleep locks, kill
      each other and are preempted, in every interleaving; the page
      allocator never hands out a
      page twice and returns freed pages; memmove and safestrcpy.
    - Storage: the buffer cache never holds a block twice and returns
      current contents; log_write absorbs and pins; a transaction is atomic
      under a crash at any point of its writes, and recovery can itself be
      interrupted; balloc and bfree treat the bitmap as a set of blocks;
      ilock loads what iupdate stored; readi and writei implement reading
      and writing a byte string, with the map of blocks, the bitmap and the
      inode on disk consistent (a write is bounded by the blocks it may
      log, six for each block of the range), and every other file, its
      contents and its inode on disk, is as before; dirlookup and dirlink are
      lookup and insertion in a finite map; the last iput of an unlinked
      file frees exactly its blocks and changes no other inode; namei and nameiparent follow the tree
      of directories and give back all references but the result's.
    - Virtual memory: mappages maps exactly its range and preserves the
      rest; copyin reads back what copyout wrote; uvmalloc, uvmcopy and
      uvmfree lose no page and share none.
    - Processes: fork gives a queued child with a copy of the memory and
      counted references, or fails and restores everything; wait reaps a
      zombie child, its pages and its slot, or sleeps only while a child
      can still exit; exec, once the program is loaded, switches to an
      address space with guard page, stack and arguments and frees the old
      one, or gives the new one back.
    - File descriptors: sys_pipe opens both ends of an empty pipe, or fails
      at any of its steps without leaking a file, page or descriptor.
    - Pipes: reader and writer see a bounded queue of bytes; no byte is
      lost whatever the other end does while one sleeps, and each sleeps
      only when it must.
    - Console: printed numbers read back; the interrupt handler implements
      a line editor.  Paths: skipelem agrees with splitting at slashes.
    - Disk: virtio_disk_rw and virtio_disk_intr with the device refine a
      disk that transfers a block in one step; no panic, no lost wakeup, no
      deadlock; virtio_disk_init panics for every wrong device, and else
      writes the registers in the right order.  start enters main in
      supervisor mode, with its own timer.  mkfs: the image satisfies the
      preconditions of the theorems about the kernel's file system, with
      the contents of the files it was given and a root directory that maps
      their names to their inodes (on a little-endian host).
    - User programs: malloc and free keep a sorted, joined list of free
      blocks and never hand out a unit twice; the parser of the shell
      always ends and accepts exactly its grammar, and runcmd gives every
      program the files the line means; grep's matcher decides the language
      of its expressions, and grep and wc print what they should however
      the input is cut into reads; rm stops at the first failure; the
      random numbers of grind are computed without overflow, a different
      one from every state.

    ** Not modelled

    Assembly (entry, trampoline, kernelvec, swtch): register saving, a step
    of the environment here.  Initialisations of locks.  ramdisk.c, not
    built.  The rest of the round-robin
    kernel, almost a copy.  The programs that only demonstrate or test the
    kernel (logging, zombie, schedtest, usertests, ...).  Real
    concurrency between kernel code of different CPUs outside spinlock.c,
    sleep and wakeup, sleep locks and the disk driver: between acquire and release code is atomic, and
    other processes run when this one sleeps.

    ** Left open

    Modelled, but without theorems of their own: exit, the load of the ELF
    segments in exec, the system calls of sysfile.c other than sys_pipe,
    system call dispatch and traps.  Theorems about file-system code hold inside one transaction,
    for code that no other process interrupts in the middle. *)

From stdpp Require Export base list gmap strings.
From Stdlib Require Export ZArith Lia.

#[export] Set Default Goal Selector "!".
#[global] Open Scope Z_scope.

(** ** Machine integers

    A w-bit C integer is a [Z]; the wrap-around of each width is written
    out where the code relies on it. *)

Definition u8 (z : Z) : Z := z mod 2 ^ 8.
Definition u16 (z : Z) : Z := z mod 2 ^ 16.
Definition u32 (z : Z) : Z := z mod 2 ^ 32.
Definition u64 (z : Z) : Z := z mod 2 ^ 64.
Definition i8 (z : Z) : Z := (z + 2 ^ 7) mod 2 ^ 8 - 2 ^ 7.
Definition i16 (z : Z) : Z := (z + 2 ^ 15) mod 2 ^ 16 - 2 ^ 15.
Definition i32 (z : Z) : Z := (z + 2 ^ 31) mod 2 ^ 32 - 2 ^ 31.
Definition i64 (z : Z) : Z := (z + 2 ^ 63) mod 2 ^ 64 - 2 ^ 63.

(** A C truth value. *)
Definition b2z (b : bool) : Z := if b then 1 else 0.
Definition b2n (b : bool) : nat := if b then 1%nat else 0%nat.

Lemma u8_small z : 0 <= z < 2 ^ 8 -> u8 z = z.
Proof. intros. by apply Z.mod_small. Qed.
Lemma u16_small z : 0 <= z < 2 ^ 16 -> u16 z = z.
Proof. intros. by apply Z.mod_small. Qed.
Lemma u32_small z : 0 <= z < 2 ^ 32 -> u32 z = z.
Proof. intros. by apply Z.mod_small. Qed.
Lemma u64_small z : 0 <= z < 2 ^ 64 -> u64 z = z.
Proof. intros. by apply Z.mod_small. Qed.
Lemma i32_small z : - 2 ^ 31 <= z < 2 ^ 31 -> i32 z = z.
Proof. intros. unfold i32. rewrite Z.mod_small; lia. Qed.
Lemma i16_small z : - 2 ^ 15 <= z < 2 ^ 15 -> i16 z = z.
Proof. intros. unfold i16. rewrite Z.mod_small; lia. Qed.
Lemma u8_range z : 0 <= u8 z < 2 ^ 8.
Proof. apply Z.mod_pos_bound. lia. Qed.
Lemma u32_range z : 0 <= u32 z < 2 ^ 32.
Proof. apply Z.mod_pos_bound. lia. Qed.
Lemma u64_range z : 0 <= u64 z < 2 ^ 64.
Proof. apply Z.mod_pos_bound. lia. Qed.
Lemma i32_range z : - 2 ^ 31 <= i32 z < 2 ^ 31.
Proof. unfold i32. pose proof (Z.mod_pos_bound (z + 2 ^ 31) (2 ^ 32)). lia. Qed.

(** ** Reachability of a step relation *)

Section steps.
Context {S : Type} (step : S -> S -> Prop).

(** [nsteps_ n s s']: [s'] is reached from [s] in exactly [n] steps. *)
Inductive runs : nat -> S -> S -> Prop :=
| runs_O s : runs O s s
| runs_S n s s1 s' : step s s1 -> runs n s1 s' -> runs (Datatypes.S n) s s'.

Definition reachable (s s' : S) : Prop := exists n, runs n s s'.

Lemma runs_snoc n s s1 s' : runs n s s1 -> step s1 s' -> runs (Datatypes.S n) s s'.
Proof. induction 1; eauto using runs. Qed.

Lemma runs_app n m s s1 s' : runs n s s1 -> runs m s1 s' -> runs (n + m) s s'.
Proof. induction 1; simpl; eauto using runs. Qed.

Lemma reachable_trans s s1 s' : reachable s s1 -> reachable s1 s' -> reachable s s'.
Proof. intros [n ?] [m ?]. eexists. by eapply runs_app. Qed.

(** An invariant that holds initially and is kept by every step holds in
    every reachable state. *)
Lemma runs_invariant (P : S -> Prop) :
  (forall s s', P s -> step s s' -> P s') ->
  forall n s s', P s -> runs n s s' -> P s'.
Proof. intros Hstep n s s' Hs H. induction H; eauto. Qed.

(** A measure that every step lowers bounds the length of a run. *)
Lemma runs_bounded (P : S -> Prop) (m : S -> nat) :
  (forall s s', P s -> step s s' -> P s') ->
  (forall s s', P s -> step s s' -> (m s' < m s)%nat) ->
  forall n s s', P s -> runs n s s' -> (n + m s' <= m s)%nat.
Proof.
  intros Hinv Hm n s s' Hs H. induction H as [s|n s s1 s' Hst Hr IH]; [lia|].
  specialize (IH (Hinv _ _ Hs Hst)). specialize (Hm _ _ Hs Hst). lia.
Qed.

(** If every state of the invariant is final or can step, and steps lower
    a measure, then a final state is reached. *)
Lemma runs_to_final (P Fin : S -> Prop) (m : S -> nat) :
  (forall s s', P s -> step s s' -> P s') ->
  (forall s s', P s -> step s s' -> (m s' < m s)%nat) ->
  (forall s, P s -> Fin s \/ exists s', step s s') ->
  forall s, P s -> exists s', reachable s s' /\ Fin s'.
Proof.
  intros Hinv Hm Hprog s. remember (m s) as k eqn:Hk.
  revert s Hk. induction k as [k IH] using lt_wf_ind. intros s -> Hs.
  destruct (Hprog s Hs) as [Hf|[s1 H1]].
  - exists s. split; [exists O; constructor | done].
  - destruct (IH (m s1) (Hm _ _ Hs H1) s1 eq_refl (Hinv _ _ Hs H1)) as [s' [[n Hn] Hf]].
    exists s'. split; [|done]. exists (Datatypes.S n). by econstructor.
Qed.
End steps.

(** Run an executable step function along a schedule of thread names. *)
Fixpoint run_schedule {T S : Type} (step : T -> S -> option S) (sched : list T) (s : S) : option S :=
  match sched with
  | [] => Some s
  | t :: sched' => match step t s with Some s' => run_schedule step sched' s' | None => None end
  end.

Lemma run_schedule_reachable {T S : Type} (step : T -> S -> option S) sched s s' :
  run_schedule step sched s = Some s' ->
  reachable (fun a b => exists t, step t a = Some b) s s'.
Proof.
  revert s. induction sched as [|t sched IH]; simpl; intros s H.
  - simplify_eq. exists O. constructor.
  - destruct (step t s) as [s1|] eqn:E; [|done].
    destruct (IH _ H) as [n Hn]. exists (Datatypes.S n). econstructor; eauto.
Qed.

(** ** Arrays *)

(** Element [i] of an array of known default, and its update; both are
    total, the files prove that their indices are in range. *)
Definition aget {A : Type} (d : A) (l : list A) (i : Z) : A := nth (Z.to_nat i) l d.
Definition aset {A : Type} (l : list A) (i : Z) (x : A) : list A := <[Z.to_nat i := x]> l.

(** Assignment to a field: [l[i].f = v]. *)
Definition aupd {A : Type} (f : A -> A) (l : list A) (i : Z) : list A := alter f (Z.to_nat i) l.

Lemma length_aset {A} (l : list A) i x : length (aset l i x) = length l.
Proof. apply length_insert. Qed.

Lemma aget_aset_eq {A} (d : A) l i x :
  0 <= i < Z.of_nat (length l) -> aget d (aset l i x) i = x.
Proof.
  intros H. unfold aget, aset. apply nth_lookup_Some, list_lookup_insert_eq. lia.
Qed.

Lemma aget_aset_ne {A} (d : A) l i j x :
  0 <= i -> 0 <= j -> i <> j -> aget d (aset l i x) j = aget d l j.
Proof.
  intros ? ? H. unfold aget, aset. rewrite !nth_lookup, list_lookup_insert_ne; [done | lia].
Qed.

Lemma aget_aset {A} (d : A) l i j x :
  0 <= i < Z.of_nat (length l) -> 0 <= j ->
  aget d (aset l i x) j = if decide (i = j) then x else aget d l j.
Proof.
  intros. case_decide as Hd; [subst; by apply aget_aset_eq | apply aget_aset_ne; lia].
Qed.

Lemma length_aupd {A} (f : A -> A) l i : length (aupd f l i) = length l.
Proof. apply length_alter. Qed.

Lemma aget_aupd {A} (d : A) f l i j :
  0 <= i < Z.of_nat (length l) -> 0 <= j ->
  aget d (aupd f l i) j = if decide (i = j) then f (aget d l j) else aget d l j.
Proof.
  intros Hi Hj. unfold aget, aupd. rewrite !nth_lookup. case_decide as E.
  - subst j. rewrite list_lookup_alter_eq.
    destruct (lookup_lt_is_Some_2 l (Z.to_nat i)) as [x Hx]; [lia|]. by rewrite Hx.
  - rewrite list_lookup_alter_ne by lia. done.
Qed.

Create Rewrite HintDb arr.
#[export] Hint Rewrite @length_aset @length_aupd @length_insert @length_app @length_replicate : arr.

Lemma prefix_fmap {A B} (f : A -> B) (l1 l2 : list A) :
  l1 `prefix_of` l2 -> f <$> l1 `prefix_of` f <$> l2.
Proof. intros [k ->]. exists (f <$> k). apply fmap_app. Qed.

(** ** Removing an element *)

Section remove.
Context {A : Type} `{EqDecision A}.

Lemma filter_ne_id (x : A) (l : list A) : x ∉ l -> filter (fun y => y <> x) l = l.
Proof.
  induction l as [|y l IH]; intros H; [done|].
  rewrite filter_cons_True by set_solver. f_equal. apply IH. set_solver.
Qed.

Lemma length_filter_ne (x : A) (l : list A) : NoDup l -> x ∈ l ->
  length l = Datatypes.S (length (filter (fun y => y <> x) l)).
Proof.
  induction l as [|y l IH]; intros Hnd Hx; [set_solver|].
  apply NoDup_cons in Hnd as [Hy Hnd]. destruct (decide (y = x)) as [->|Hne].
  - rewrite filter_cons_False by naive_solver. by rewrite filter_ne_id.
  - rewrite filter_cons_True by done. simpl. rewrite <- IH; [done|done|set_solver].
Qed.
End remove.

(** ** Tactics *)

(** [lia] extended with division and remainder by constants. *)
Ltac zlia := zify; Z.to_euclidean_division_equations; lia.

(** Case analysis on the scrutinee of a boolean test on [Z]. *)
Ltac zcase :=
  match goal with
  | |- context [Z.leb ?a ?b] => destruct (Z.leb_spec a b)
  | |- context [Z.ltb ?a ?b] => destruct (Z.ltb_spec a b)
  | |- context [Z.eqb ?a ?b] => destruct (Z.eqb_spec a b)
  end.
