(* ===== verification/Ring.v ===== *)
(** * Ring: circular buffers with free-running counters

    The pipe, the console and the UART keep bytes in arrays indexed by
    counters that run freely modulo [W], the size of their type, and are
    reduced modulo the size [N] of the array on every access.  This works
    because [N] divides [W]. *)

From S2P Require Import Prelude.

Section ring.
Context (N W : Z).
Hypothesis (HN : 0 < N) (HW : (N | W)).

(** The [n] bytes from counter [r] on. *)
Definition ring (data : list Z) (r : Z) (n : nat) : list Z :=
  (fun i => aget 0 data ((r + Z.of_nat i) mod N)) <$> seq 0 n.

Lemma length_ring data r n : length (ring data r n) = n.
Proof. unfold ring. by rewrite length_fmap, length_seq. Qed.

Lemma slot_wrap a : (a mod W) mod N = a mod N.
Proof. by apply Z.mod_mod_divide. Qed.
Lemma slot_wrap_add a i : (a mod W + i) mod N = (a + i) mod N.
Proof. rewrite Z.add_mod, slot_wrap, <- Z.add_mod by lia. done. Qed.
Lemma slot_bound a : 0 <= a mod N < N.
Proof. by apply Z.mod_pos_bound. Qed.

Lemma ring_wrap data r n : ring data (r mod W) n = ring data r n.
Proof. unfold ring. apply list_fmap_ext. intros k i _. by rewrite slot_wrap_add. Qed.

Lemma ring_app data r n m : ring data r (n + m) = ring data r n ++ ring data (r + Z.of_nat n) m.
Proof.
  unfold ring. rewrite seq_app, fmap_app. f_equal.
  change (0 + n)%nat with n. rewrite <- (Nat.add_0_r n) at 1. rewrite <- fmap_add_seq, <- list_fmap_compose.
  apply list_fmap_ext. intros k i _. simpl. do 2 f_equal. lia.
Qed.

Lemma ring_cons data r n : ring data r (S n) = aget 0 data (r mod N) :: ring data (r + 1) n.
Proof. change (S n) with (1 + n)%nat. rewrite ring_app. cbn. by rewrite Z.add_0_r. Qed.
Lemma ring_snoc data r n : ring data r (S n) = ring data r n ++ [aget 0 data ((r + Z.of_nat n) mod N)].
Proof. rewrite <- Nat.add_1_r, ring_app. cbn. by rewrite Z.add_0_r. Qed.

(** Different counters less than [N] apart use different slots. *)
Lemma slot_inj a i j : 0 <= i < N -> 0 <= j < N -> (a + i) mod N = (a + j) mod N -> i = j.
Proof.
  intros Hi Hj E. assert ((i - j) mod N = 0) as H.
  { replace (i - j) with ((a + i) - (a + j)) by lia. rewrite Zminus_mod, E, Z.sub_diag. apply Z.mod_0_l. lia. }
  apply Z.mod_divide in H; [|lia]. destruct H as [q Hq]. assert (q = 0) as -> by nia. lia.
Qed.

(** Writing the slot after the last byte appends. *)
Lemma ring_aset data r n b : (Z.of_nat n < N) -> length data = Z.to_nat N ->
  ring (aset data ((r + Z.of_nat n) mod N) b) r n = ring data r n /\
  ring (aset data ((r + Z.of_nat n) mod N) b) r (S n) = ring data r n ++ [b].
Proof.
  intros Hn Hl. assert (ring (aset data ((r + Z.of_nat n) mod N) b) r n = ring data r n) as E.
  { unfold ring. apply list_fmap_ext. intros k i [-> Hi]%lookup_seq. apply aget_aset_ne; [apply slot_bound..|].
    intros Es. apply slot_inj in Es; lia. }
  split; [done|]. rewrite ring_snoc, E. do 2 f_equal. apply aget_aset_eq.
  rewrite Hl, Z2Nat.id by lia. apply slot_bound.
Qed.
End ring.
