(* ===== verification/Journal.v ===== *)
(** * Journal: the metadata journaling service

    Models [src/Metadata journaling service/]: the circular buffers and the
    three worker threads of journal.c, the block service of block_service.c
    and the file-system client of filesystem.c.

    The buffers are executable functions on records.  The program is a
    transition system: each semaphore operation, each buffer operation and
    each call into the block service is one atomic step of its thread, in
    the order of the source, and any thread may run next.  The block
    service's calls are recorded in a trace. *)

From S2P Require Import Prelude.

Definition BUFFER_SIZE : Z := 8.

(** ** Data *)

(** [struct write_request] of journal.h. *)
Record write_request := WriteRequest {
  wr_bitmap : string;
  wr_inode : string;
  wr_data : string;
  wr_bitmap_idx : Z;
  wr_inode_idx : Z;
  wr_data_idx : Z
}.

(** [circ_buff_t]; the buffer holds pointers, [None] is the null pointer
    of the zero-initialised global. *)
Record circ_buff_t := CircBuff {
  buffer : list (option write_request);
  head : Z;
  tail : Z;
  size : Z
}.

Definition circ_buff_zero : circ_buff_t :=
  CircBuff (replicate 8 None) 0 0 0.

(** [enqueue]: the slot at [head] is overwritten, whatever [size] is. *)
Definition enqueue (currBuffer : circ_buff_t) (wr : write_request) : circ_buff_t :=
  let nextHead := head currBuffer + 1 in
  let nextHead := if BUFFER_SIZE <=? nextHead then 0 else nextHead in
  CircBuff (aset (buffer currBuffer) (head currBuffer) (Some wr))
           nextHead (tail currBuffer) (size currBuffer + 1).

(** [dequeue]: the pointer at [tail] is returned, whatever [size] is. *)
Definition dequeue (currBuffer : circ_buff_t) : option write_request * circ_buff_t :=
  let nextTail := tail currBuffer + 1 in
  let nextTail := if BUFFER_SIZE <=? nextTail then 0 else nextTail in
  let wr := aget None (buffer currBuffer) (tail currBuffer) in
  (wr, CircBuff (buffer currBuffer) (head currBuffer) nextTail (size currBuffer - 1)).

(** What the block service is asked to write, what it reports back, and
    the notification of the file system. *)
Inductive event :=
| IssueWriteData (data : string) (idx : Z)
| IssueJournalTxb
| IssueJournalBitmap (bitmap : string) (idx : Z)
| IssueJournalInode (inode : string) (idx : Z)
| IssueJournalTxe
| JournalTxeComplete
| IssueWriteBitmap (bitmap : string) (idx : Z)
| IssueWriteInode (inode : string) (idx : Z)
| WriteComplete.

(** Program counters: the next atomic step of each thread. *)
Inductive pc_main :=
| R_wait_space | R_lock | R_enqueue | R_unlock | R_post_notempty.
Inductive pc_meta :=
| M_wait_notempty | M_lock | M_dequeue | M_write_data | M_txb | M_bitmap | M_inode
| M_unlock | M_post_space | M_wait_next | M_lock2 | M_enqueue | M_post_next | M_unlock2.
Inductive pc_commit :=
| C_wait_notempty | C_lock | C_dequeue | C_print | C_txe | C_unlock | C_post_space
| C_wait_next | C_lock2 | C_enqueue | C_unlock2 | C_post_next.
Inductive pc_check :=
| K_wait_notempty | K_lock | K_dequeue | K_bitmap | K_inode | K_unlock | K_post_space
| K_complete.

(** The seven semaphores. *)
Record sems := Sems {
  mutex : nat;
  requestBufferHasSpaceMutex : nat;
  requestBufferNotEmptyMutex : nat;
  metaDataBufferHasSpaceMutex : nat;
  metaDataBufferNotEmptyMutex : nat;
  commitCompletedBufferHasSpaceMutex : nat;
  commitCompletedBufferNotEmptyMutex : nat
}.

Record jstate := JState {
  todo : list write_request;        (* requests [main] has still to submit *)
  requestBuffer : circ_buff_t;
  metaDataBuffer : circ_buff_t;
  commitCompletedBuffer : circ_buff_t;
  sm : sems;
  pc0 : pc_main;
  pc1 : pc_meta;
  wr1 : option write_request;       (* local [wr] of metaDataWrite *)
  pc2 : pc_commit;
  wr2 : option write_request;       (* local [wr] of journalCommit *)
  pc3 : pc_check;
  wr3 : option write_request;       (* local [wr] of journalCommitComplete *)
  hasPrintedBlock : Z;
  start : Z;                        (* block_service.c *)
  txe_threads : nat;                (* threadSleep threads still running *)
  trace : list event
}.

Inductive tid := T_main | T_meta | T_commit | T_check | T_txe.

(** ** Field updates *)

Definition set_sm (f : sems -> sems) (s : jstate) : jstate :=
  JState (todo s) (requestBuffer s) (metaDataBuffer s) (commitCompletedBuffer s) (f (sm s))
    (pc0 s) (pc1 s) (wr1 s) (pc2 s) (wr2 s) (pc3 s) (wr3 s)
    (hasPrintedBlock s) (start s) (txe_threads s) (trace s).
Definition go0 (p : pc_main) (s : jstate) : jstate :=
  JState (todo s) (requestBuffer s) (metaDataBuffer s) (commitCompletedBuffer s) (sm s)
    p (pc1 s) (wr1 s) (pc2 s) (wr2 s) (pc3 s) (wr3 s)
    (hasPrintedBlock s) (start s) (txe_threads s) (trace s).
Definition go1 (p : pc_meta) (s : jstate) : jstate :=
  JState (todo s) (requestBuffer s) (metaDataBuffer s) (commitCompletedBuffer s) (sm s)
    (pc0 s) p (wr1 s) (pc2 s) (wr2 s) (pc3 s) (wr3 s)
    (hasPrintedBlock s) (start s) (txe_threads s) (trace s).
Definition go2 (p : pc_commit) (s : jstate) : jstate :=
  JState (todo s) (requestBuffer s) (metaDataBuffer s) (commitCompletedBuffer s) (sm s)
    (pc0 s) (pc1 s) (wr1 s) p (wr2 s) (pc3 s) (wr3 s)
    (hasPrintedBlock s) (start s) (txe_threads s) (trace s).
Definition go3 (p : pc_check) (s : jstate) : jstate :=
  JState (todo s) (requestBuffer s) (metaDataBuffer s) (commitCompletedBuffer s) (sm s)
    (pc0 s) (pc1 s) (wr1 s) (pc2 s) (wr2 s) p (wr3 s)
    (hasPrintedBlock s) (start s) (txe_threads s) (trace s).
Definition set_todo (l : list write_request) (s : jstate) : jstate :=
  JState l (requestBuffer s) (metaDataBuffer s) (commitCompletedBuffer s) (sm s)
    (pc0 s) (pc1 s) (wr1 s) (pc2 s) (wr2 s) (pc3 s) (wr3 s)
    (hasPrintedBlock s) (start s) (txe_threads s) (trace s).
Definition set_request (b : circ_buff_t) (s : jstate) : jstate :=
  JState (todo s) b (metaDataBuffer s) (commitCompletedBuffer s) (sm s)
    (pc0 s) (pc1 s) (wr1 s) (pc2 s) (wr2 s) (pc3 s) (wr3 s)
    (hasPrintedBlock s) (start s) (txe_threads s) (trace s).
Definition set_meta (b : circ_buff_t) (s : jstate) : jstate :=
  JState (todo s) (requestBuffer s) b (commitCompletedBuffer s) (sm s)
    (pc0 s) (pc1 s) (wr1 s) (pc2 s) (wr2 s) (pc3 s) (wr3 s)
    (hasPrintedBlock s) (start s) (txe_threads s) (trace s).
Definition set_commit (b : circ_buff_t) (s : jstate) : jstate :=
  JState (todo s) (requestBuffer s) (metaDataBuffer s) b (sm s)
    (pc0 s) (pc1 s) (wr1 s) (pc2 s) (wr2 s) (pc3 s) (wr3 s)
    (hasPrintedBlock s) (start s) (txe_threads s) (trace s).
Definition set_wr1 (w : option write_request) (s : jstate) : jstate :=
  JState (todo s) (requestBuffer s) (metaDataBuffer s) (commitCompletedBuffer s) (sm s)
    (pc0 s) (pc1 s) w (pc2 s) (wr2 s) (pc3 s) (wr3 s)
    (hasPrintedBlock s) (start s) (txe_threads s) (trace s).
Definition set_wr2 (w : option write_request) (s : jstate) : jstate :=
  JState (todo s) (requestBuffer s) (metaDataBuffer s) (commitCompletedBuffer s) (sm s)
    (pc0 s) (pc1 s) (wr1 s) (pc2 s) w (pc3 s) (wr3 s)
    (hasPrintedBlock s) (start s) (txe_threads s) (trace s).
Definition set_wr3 (w : option write_request) (s : jstate) : jstate :=
  JState (todo s) (requestBuffer s) (metaDataBuffer s) (commitCompletedBuffer s) (sm s)
    (pc0 s) (pc1 s) (wr1 s) (pc2 s) (wr2 s) (pc3 s) w
    (hasPrintedBlock s) (start s) (txe_threads s) (trace s).
Definition set_printed (z : Z) (s : jstate) : jstate :=
  JState (todo s) (requestBuffer s) (metaDataBuffer s) (commitCompletedBuffer s) (sm s)
    (pc0 s) (pc1 s) (wr1 s) (pc2 s) (wr2 s) (pc3 s) (wr3 s)
    z (start s) (txe_threads s) (trace s).
Definition set_txe (st : Z) (n : nat) (s : jstate) : jstate :=
  JState (todo s) (requestBuffer s) (metaDataBuffer s) (commitCompletedBuffer s) (sm s)
    (pc0 s) (pc1 s) (wr1 s) (pc2 s) (wr2 s) (pc3 s) (wr3 s)
    (hasPrintedBlock s) st n (trace s).
Definition emit (e : event) (s : jstate) : jstate :=
  JState (todo s) (requestBuffer s) (metaDataBuffer s) (commitCompletedBuffer s) (sm s)
    (pc0 s) (pc1 s) (wr1 s) (pc2 s) (wr2 s) (pc3 s) (wr3 s)
    (hasPrintedBlock s) (start s) (txe_threads s) (trace s ++ [e]).

(** ** Semaphores

    A semaphore is named by its lens into [sems]. *)

Record sem := Sem { sem_get : sems -> nat; sem_set : nat -> sems -> sems }.

Definition s_mutex : sem := Sem mutex (fun v m =>
  Sems v (requestBufferHasSpaceMutex m) (requestBufferNotEmptyMutex m)
    (metaDataBufferHasSpaceMutex m) (metaDataBufferNotEmptyMutex m)
    (commitCompletedBufferHasSpaceMutex m) (commitCompletedBufferNotEmptyMutex m)).
Definition s_req_space : sem := Sem requestBufferHasSpaceMutex (fun v m =>
  Sems (mutex m) v (requestBufferNotEmptyMutex m)
    (metaDataBufferHasSpaceMutex m) (metaDataBufferNotEmptyMutex m)
    (commitCompletedBufferHasSpaceMutex m) (commitCompletedBufferNotEmptyMutex m)).
Definition s_req_notempty : sem := Sem requestBufferNotEmptyMutex (fun v m =>
  Sems (mutex m) (requestBufferHasSpaceMutex m) v
    (metaDataBufferHasSpaceMutex m) (metaDataBufferNotEmptyMutex m)
    (commitCompletedBufferHasSpaceMutex m) (commitCompletedBufferNotEmptyMutex m)).
Definition s_meta_space : sem := Sem metaDataBufferHasSpaceMutex (fun v m =>
  Sems (mutex m) (requestBufferHasSpaceMutex m) (requestBufferNotEmptyMutex m)
    v (metaDataBufferNotEmptyMutex m)
    (commitCompletedBufferHasSpaceMutex m) (commitCompletedBufferNotEmptyMutex m)).
Definition s_meta_notempty : sem := Sem metaDataBufferNotEmptyMutex (fun v m =>
  Sems (mutex m) (requestBufferHasSpaceMutex m) (requestBufferNotEmptyMutex m)
    (metaDataBufferHasSpaceMutex m) v
    (commitCompletedBufferHasSpaceMutex m) (commitCompletedBufferNotEmptyMutex m)).
Definition s_commit_space : sem := Sem commitCompletedBufferHasSpaceMutex (fun v m =>
  Sems (mutex m) (requestBufferHasSpaceMutex m) (requestBufferNotEmptyMutex m)
    (metaDataBufferHasSpaceMutex m) (metaDataBufferNotEmptyMutex m)
    v (commitCompletedBufferNotEmptyMutex m)).
Definition s_commit_notempty : sem := Sem commitCompletedBufferNotEmptyMutex (fun v m =>
  Sems (mutex m) (requestBufferHasSpaceMutex m) (requestBufferNotEmptyMutex m)
    (metaDataBufferHasSpaceMutex m) (metaDataBufferNotEmptyMutex m)
    (commitCompletedBufferHasSpaceMutex m) v).

(** [sem_wait] blocks at 0, otherwise decrements; [sem_post] increments. *)
Definition sem_wait (x : sem) (s : jstate) : option jstate :=
  match sem_get x (sm s) with
  | O => None
  | S v => Some (set_sm (sem_set x v) s)
  end.
Definition sem_post (x : sem) (s : jstate) : jstate :=
  set_sm (sem_set x (S (sem_get x (sm s)))) s.

(** ** The block service (block_service.c)

    Each call reports its completion at once, except the transaction end:
    [issue_journal_txe] starts a thread that reports it later. *)

Definition issue_write_data (data : string) (idx : Z) (s : jstate) : jstate :=
  emit (IssueWriteData data idx) s.
Definition issue_journal_txb (s : jstate) : jstate := emit IssueJournalTxb s.
Definition issue_journal_bitmap (bitmap : string) (idx : Z) (s : jstate) : jstate :=
  emit (IssueJournalBitmap bitmap idx) s.
Definition issue_journal_inode (inode : string) (idx : Z) (s : jstate) : jstate :=
  emit (IssueJournalInode inode idx) s.
Definition issue_journal_txe (s : jstate) : jstate :=
  emit IssueJournalTxe (set_txe (start s) (S (txe_threads s)) s).
Definition issue_write_bitmap (bitmap : string) (idx : Z) (s : jstate) : jstate :=
  emit (IssueWriteBitmap bitmap idx) s.
Definition issue_write_inode (inode : string) (idx : Z) (s : jstate) : jstate :=
  emit (IssueWriteInode inode idx) s.

(** One of the started threads: the first one sleeps and clears [start],
    then completion is reported. *)
Definition threadSleep (s : jstate) : option jstate :=
  match txe_threads s with
  | O => None
  | S n =>
    let st := if start s =? 1 then 0 else start s in
    Some (emit JournalTxeComplete (set_txe st n s))
  end.

(** [write_complete] of filesystem.c. *)
Definition write_complete (s : jstate) : jstate := emit WriteComplete s.

(** ** The threads (journal.c) *)

(** [main] of filesystem.c submitting its requests one after the other
    through [request_write]. *)
Definition request_write (s : jstate) : option jstate :=
  match todo s with
  | [] => None
  | wr :: rest =>
    match pc0 s with
    | R_wait_space => go0 R_lock <$> sem_wait s_req_space s
    | R_lock => go0 R_enqueue <$> sem_wait s_mutex s
    | R_enqueue => Some (go0 R_unlock (set_request (enqueue (requestBuffer s) wr) s))
    | R_unlock => Some (go0 R_post_notempty (sem_post s_mutex s))
    | R_post_notempty =>
      Some (set_todo rest (go0 R_wait_space (sem_post s_req_notempty s)))
    end
  end.

Definition metaDataWrite (s : jstate) : option jstate :=
  match pc1 s with
  | M_wait_notempty => go1 M_lock <$> sem_wait s_req_notempty s
  | M_lock => go1 M_dequeue <$> sem_wait s_mutex s
  | M_dequeue =>
    let '(wr, b) := dequeue (requestBuffer s) in
    Some (go1 M_write_data (set_wr1 wr (set_request b s)))
  | M_write_data =>
    wr ← wr1 s; Some (go1 M_txb (issue_write_data (wr_data wr) (wr_data_idx wr) s))
  | M_txb => Some (go1 M_bitmap (issue_journal_txb s))
  | M_bitmap =>
    wr ← wr1 s; Some (go1 M_inode (issue_journal_bitmap (wr_bitmap wr) (wr_bitmap_idx wr) s))
  | M_inode =>
    wr ← wr1 s; Some (go1 M_unlock (issue_journal_inode (wr_inode wr) (wr_inode_idx wr) s))
  | M_unlock => Some (go1 M_post_space (sem_post s_mutex s))
  | M_post_space => Some (go1 M_wait_next (sem_post s_req_space s))
  | M_wait_next => go1 M_lock2 <$> sem_wait s_meta_space s
  | M_lock2 => go1 M_enqueue <$> sem_wait s_mutex s
  | M_enqueue =>
    wr ← wr1 s; Some (go1 M_post_next (set_meta (enqueue (metaDataBuffer s) wr) s))
  | M_post_next => Some (go1 M_unlock2 (sem_post s_meta_notempty s))
  | M_unlock2 => Some (go1 M_wait_notempty (sem_post s_mutex s))
  end.

Definition journalCommit (s : jstate) : option jstate :=
  match pc2 s with
  | C_wait_notempty => go2 C_lock <$> sem_wait s_meta_notempty s
  | C_lock => go2 C_dequeue <$> sem_wait s_mutex s
  | C_dequeue =>
    let '(wr, b) := dequeue (metaDataBuffer s) in
    Some (go2 C_print (set_wr2 wr (set_meta b s)))
  | C_print =>
    Some (go2 C_txe
      (if hasPrintedBlock s =? 0 then set_printed (hasPrintedBlock s + 1) s else s))
  | C_txe => Some (go2 C_unlock (issue_journal_txe s))
  | C_unlock => Some (go2 C_post_space (sem_post s_mutex s))
  | C_post_space => Some (go2 C_wait_next (sem_post s_meta_space s))
  | C_wait_next => go2 C_lock2 <$> sem_wait s_commit_space s
  | C_lock2 => go2 C_enqueue <$> sem_wait s_mutex s
  | C_enqueue =>
    wr ← wr2 s; Some (go2 C_unlock2 (set_commit (enqueue (commitCompletedBuffer s) wr) s))
  | C_unlock2 => Some (go2 C_post_next (sem_post s_mutex s))
  | C_post_next => Some (go2 C_wait_notempty (sem_post s_commit_notempty s))
  end.

Definition journalCommitComplete (s : jstate) : option jstate :=
  match pc3 s with
  | K_wait_notempty => go3 K_lock <$> sem_wait s_commit_notempty s
  | K_lock => go3 K_dequeue <$> sem_wait s_mutex s
  | K_dequeue =>
    let '(wr, b) := dequeue (commitCompletedBuffer s) in
    Some (go3 K_bitmap (set_wr3 wr (set_commit b s)))
  | K_bitmap =>
    wr ← wr3 s; Some (go3 K_inode (issue_write_bitmap (wr_bitmap wr) (wr_bitmap_idx wr) s))
  | K_inode =>
    wr ← wr3 s; Some (go3 K_unlock (issue_write_inode (wr_inode wr) (wr_inode_idx wr) s))
  | K_unlock => Some (go3 K_post_space (sem_post s_mutex s))
  | K_post_space => Some (go3 K_complete (sem_post s_commit_space s))
  | K_complete => Some (go3 K_wait_notempty (write_complete s))
  end.

(** [init_journal]: semaphore values and the threads at their first
    instruction; [main] has the requests [reqs] to submit. *)
Definition init_journal (reqs : list write_request) : jstate :=
  JState reqs circ_buff_zero circ_buff_zero circ_buff_zero (Sems 1 8 0 8 0 8 0)
    R_wait_space M_wait_notempty None C_wait_notempty None K_wait_notempty None 0 1 O [].

(** The requests of [main] in filesystem.c. *)
Definition NUM_TESTS : nat := 10.
Definition test_request (i : nat) : write_request :=
  let i := Z.of_nat i in WriteRequest "x" "y" "z" (100 + i) (200 + i) (300 + i).
Definition test_requests : list write_request := test_request <$> seq 0 NUM_TESTS.

Definition jstep_of (t : tid) (s : jstate) : option jstate :=
  match t with
  | T_main => request_write s
  | T_meta => metaDataWrite s
  | T_commit => journalCommit s
  | T_check => journalCommitComplete s
  | T_txe => threadSleep s
  end.

Definition jstep (s s' : jstate) : Prop := exists t, jstep_of t s = Some s'.

(** ** Abstract specification: a bounded FIFO queue

    [brepr b l]: the circular buffer [b] holds the queue [l]. *)

Record brepr (b : circ_buff_t) (l : list write_request) : Prop := {
  br_len : length (buffer b) = 8%nat;
  br_tail : 0 <= tail b < BUFFER_SIZE;
  br_head : head b = (tail b + Z.of_nat (length l)) mod BUFFER_SIZE;
  br_size : size b = Z.of_nat (length l);
  br_cap : (length l <= 8)%nat;
  br_slot : forall i x, l !! i = Some x ->
    aget None (buffer b) ((tail b + Z.of_nat i) mod BUFFER_SIZE) = Some x
}.

Lemma next_slot i : 0 <= i < BUFFER_SIZE ->
  (if BUFFER_SIZE <=? i + 1 then 0 else i + 1) = (i + 1) mod BUFFER_SIZE.
Proof. unfold BUFFER_SIZE. intros. destruct (Z.leb_spec 8 (i + 1)); zlia. Qed.

Lemma brepr_zero : brepr circ_buff_zero [].
Proof. split; simpl; unfold BUFFER_SIZE; try done; lia. Qed.

Lemma brepr_enqueue b l x :
  brepr b l -> (length l < 8)%nat -> brepr (enqueue b x) (l ++ [x]).
Proof.
  intros [Hlen Ht Hh Hs Hc Hsl] Hlt.
  assert (0 <= head b < BUFFER_SIZE) by (unfold BUFFER_SIZE in *; zlia).
  split; unfold enqueue; simpl; autorewrite with arr; simpl; try zlia; try done.
  - rewrite next_slot by done. unfold BUFFER_SIZE in *. zlia.
  - intros i y Hi. rewrite aget_aset; unfold BUFFER_SIZE in *; [|zlia..].
    apply lookup_app_Some in Hi as [Hi|[Hge Hi]].
    + pose proof (lookup_lt_Some _ _ _ Hi). rewrite decide_False by zlia. auto.
    + apply list_lookup_singleton_Some in Hi as [? ->].
      rewrite decide_True by zlia. done.
Qed.

Lemma brepr_dequeue b x l :
  brepr b (x :: l) ->
  exists b', dequeue b = (Some x, b') /\ brepr b' l.
Proof.
  intros [Hlen Ht Hh Hs Hc Hsl]. simpl in *.
  eexists. split.
  - unfold dequeue. f_equal. specialize (Hsl 0%nat x eq_refl).
    replace ((tail b + Z.of_nat 0) mod BUFFER_SIZE) with (tail b) in Hsl; [done|].
    unfold BUFFER_SIZE in *. zlia.
  - split; simpl; try done; try zlia; rewrite ?next_slot by done; unfold BUFFER_SIZE in *; try zlia.
    intros i y Hi. rewrite <- (Hsl (S i) y Hi). f_equal. zlia.
Qed.

(** ** Where the threads are

    Which threads are inside the critical section, hold a reservation of a
    slot, owe a signal, or carry a request between two buffers. *)

Definition crit0 (p : pc_main) : bool :=
  match p with R_enqueue | R_unlock => true | _ => false end.
Definition crit1 (p : pc_meta) : bool :=
  match p with
  | M_dequeue | M_write_data | M_txb | M_bitmap | M_inode | M_unlock
  | M_enqueue | M_post_next | M_unlock2 => true
  | _ => false
  end.
Definition crit2 (p : pc_commit) : bool :=
  match p with
  | C_dequeue | C_print | C_txe | C_unlock | C_enqueue | C_unlock2 => true
  | _ => false
  end.
Definition crit3 (p : pc_check) : bool :=
  match p with K_dequeue | K_bitmap | K_inode | K_unlock => true | _ => false end.

Definition resv0 (p : pc_main) : bool := match p with R_lock | R_enqueue => true | _ => false end.
Definition sig0 (p : pc_main) : bool :=
  match p with R_unlock | R_post_notempty => true | _ => false end.
Definition got1 (p : pc_meta) : bool := match p with M_lock | M_dequeue => true | _ => false end.
Definition free1 (p : pc_meta) : bool :=
  match p with
  | M_write_data | M_txb | M_bitmap | M_inode | M_unlock | M_post_space => true
  | _ => false
  end.
Definition resv1 (p : pc_meta) : bool := match p with M_lock2 | M_enqueue => true | _ => false end.
Definition sig1 (p : pc_meta) : bool := match p with M_post_next => true | _ => false end.
Definition got2 (p : pc_commit) : bool := match p with C_lock | C_dequeue => true | _ => false end.
Definition free2 (p : pc_commit) : bool :=
  match p with C_print | C_txe | C_unlock | C_post_space => true | _ => false end.
Definition resv2 (p : pc_commit) : bool := match p with C_lock2 | C_enqueue => true | _ => false end.
Definition sig2 (p : pc_commit) : bool :=
  match p with C_unlock2 | C_post_next => true | _ => false end.
Definition got3 (p : pc_check) : bool := match p with K_lock | K_dequeue => true | _ => false end.
Definition free3 (p : pc_check) : bool :=
  match p with K_bitmap | K_inode | K_unlock | K_post_space => true | _ => false end.

(** How far a thread is with the request it carries. *)
Definition stage1 (p : pc_meta) : nat :=
  match p with
  | M_write_data => 1 | M_txb => 2 | M_bitmap => 3 | M_inode => 4
  | M_unlock | M_post_space | M_wait_next | M_lock2 | M_enqueue => 5
  | _ => 0
  end.
Definition stage2 (p : pc_commit) : nat :=
  match p with
  | C_print | C_txe => 1
  | C_unlock | C_post_space | C_wait_next | C_lock2 | C_enqueue => 2
  | _ => 0
  end.
Definition stage3 (p : pc_check) : nat :=
  match p with
  | K_bitmap => 1 | K_inode => 2 | K_unlock | K_post_space | K_complete => 3
  | _ => 0
  end.

(** The carried request, once its thread is at least at stage [k]. *)
Definition carried (n k : nat) (w : option write_request) : list write_request :=
  if Nat.leb k n then option_list w else [].

(** ** What the trace says of each request *)

Definition data_of (t : list event) : list (string * Z) :=
  omap (fun e => match e with IssueWriteData d i => Some (d, i) | _ => None end) t.
Definition journal_bitmap_of (t : list event) : list (string * Z) :=
  omap (fun e => match e with IssueJournalBitmap d i => Some (d, i) | _ => None end) t.
Definition journal_inode_of (t : list event) : list (string * Z) :=
  omap (fun e => match e with IssueJournalInode d i => Some (d, i) | _ => None end) t.
Definition write_bitmap_of (t : list event) : list (string * Z) :=
  omap (fun e => match e with IssueWriteBitmap d i => Some (d, i) | _ => None end) t.
Definition write_inode_of (t : list event) : list (string * Z) :=
  omap (fun e => match e with IssueWriteInode d i => Some (d, i) | _ => None end) t.
Definition count_txb (t : list event) : nat :=
  length (omap (fun e => match e with IssueJournalTxb => Some tt | _ => None end) t).
Definition count_txe (t : list event) : nat :=
  length (omap (fun e => match e with IssueJournalTxe => Some tt | _ => None end) t).
Definition count_txe_complete (t : list event) : nat :=
  length (omap (fun e => match e with JournalTxeComplete => Some tt | _ => None end) t).
Definition count_complete (t : list event) : nat :=
  length (omap (fun e => match e with WriteComplete => Some tt | _ => None end) t).

Definition f_data (w : write_request) : string * Z := (wr_data w, wr_data_idx w).
Definition f_bitmap (w : write_request) : string * Z := (wr_bitmap w, wr_bitmap_idx w).
Definition f_inode (w : write_request) : string * Z := (wr_inode w, wr_inode_idx w).

(** ** The invariant

    [fin] are the requests completed, [lr], [lm], [lc] the contents of the
    three buffers, in order. *)

Record jinv_at (all fin lr lm lc : list write_request) (s : jstate) : Prop := {
  ji_req : brepr (requestBuffer s) lr;
  ji_meta : brepr (metaDataBuffer s) lm;
  ji_commit : brepr (commitCompletedBuffer s) lc;
  ji_mutex : (mutex (sm s) + b2n (crit0 (pc0 s)) + b2n (crit1 (pc1 s)) + b2n (crit2 (pc2 s))
              + b2n (crit3 (pc3 s)) = 1)%nat;
  ji_req_space : (requestBufferHasSpaceMutex (sm s) + length lr + b2n (resv0 (pc0 s))
                  + b2n (free1 (pc1 s)) = 8)%nat;
  ji_req_ne : (requestBufferNotEmptyMutex (sm s) + b2n (sig0 (pc0 s)) + b2n (got1 (pc1 s))
               = length lr)%nat;
  ji_meta_space : (metaDataBufferHasSpaceMutex (sm s) + length lm + b2n (resv1 (pc1 s))
                   + b2n (free2 (pc2 s)) = 8)%nat;
  ji_meta_ne : (metaDataBufferNotEmptyMutex (sm s) + b2n (sig1 (pc1 s)) + b2n (got2 (pc2 s))
                = length lm)%nat;
  ji_com_space : (commitCompletedBufferHasSpaceMutex (sm s) + length lc + b2n (resv2 (pc2 s))
                  + b2n (free3 (pc3 s)) = 8)%nat;
  ji_com_ne : (commitCompletedBufferNotEmptyMutex (sm s) + b2n (sig2 (pc2 s))
               + b2n (got3 (pc3 s)) = length lc)%nat;
  ji_wr1 : (1 <= stage1 (pc1 s))%nat -> is_Some (wr1 s);
  ji_wr2 : (1 <= stage2 (pc2 s))%nat -> is_Some (wr2 s);
  ji_wr3 : (1 <= stage3 (pc3 s))%nat -> is_Some (wr3 s);
  ji_todo : pc0 s <> R_wait_space -> todo s <> [];
  ji_pipe : all = fin ++ carried (stage3 (pc3 s)) 1 (wr3 s) ++ lc
                  ++ carried (stage2 (pc2 s)) 1 (wr2 s) ++ lm
                  ++ carried (stage1 (pc1 s)) 1 (wr1 s) ++ lr
                  ++ (if sig0 (pc0 s) then List.tl (todo s) else todo s);
  ji_data : data_of (trace s) = f_data <$>
     fin ++ carried (stage3 (pc3 s)) 1 (wr3 s) ++ lc
      ++ carried (stage2 (pc2 s)) 1 (wr2 s) ++ lm ++ carried (stage1 (pc1 s)) 2 (wr1 s);
  ji_txb : count_txb (trace s) = length
     (fin ++ carried (stage3 (pc3 s)) 1 (wr3 s) ++ lc
      ++ carried (stage2 (pc2 s)) 1 (wr2 s) ++ lm ++ carried (stage1 (pc1 s)) 3 (wr1 s));
  ji_jbitmap : journal_bitmap_of (trace s) = f_bitmap <$>
     fin ++ carried (stage3 (pc3 s)) 1 (wr3 s) ++ lc
      ++ carried (stage2 (pc2 s)) 1 (wr2 s) ++ lm ++ carried (stage1 (pc1 s)) 4 (wr1 s);
  ji_jinode : journal_inode_of (trace s) = f_inode <$>
     fin ++ carried (stage3 (pc3 s)) 1 (wr3 s) ++ lc
      ++ carried (stage2 (pc2 s)) 1 (wr2 s) ++ lm ++ carried (stage1 (pc1 s)) 5 (wr1 s);
  ji_txe : count_txe (trace s) = length
     (fin ++ carried (stage3 (pc3 s)) 1 (wr3 s) ++ lc ++ carried (stage2 (pc2 s)) 2 (wr2 s));
  ji_txe_done : (count_txe_complete (trace s) + txe_threads s = count_txe (trace s))%nat;
  ji_wbitmap : write_bitmap_of (trace s) = f_bitmap <$> fin ++ carried (stage3 (pc3 s)) 2 (wr3 s);
  ji_winode : write_inode_of (trace s) = f_inode <$> fin ++ carried (stage3 (pc3 s)) 3 (wr3 s);
  ji_complete : count_complete (trace s) = length fin
}.

Definition jinv (all : list write_request) (s : jstate) : Prop :=
  exists fin lr lm lc, jinv_at all fin lr lm lc s.

Create Rewrite HintDb jtrace.
#[export] Hint Rewrite @omap_app @fmap_app @length_app @app_nil_r @length_fmap : jtrace.
#[export] Hint Rewrite <- @app_assoc : jtrace.

Lemma jinv_init all : jinv all (init_journal all).
Proof.
  exists [], [], [], []. split; simpl; try done; try lia; apply brepr_zero.
Qed.

(** Close the conjuncts of the invariant after a step of known shape. *)
Ltac jclose_heavy :=
  unfold data_of, journal_bitmap_of, journal_inode_of, write_bitmap_of, write_inode_of,
    count_txb, count_txe, count_txe_complete, count_complete in *;
  simpl in *; autorewrite with jtrace in *; simpl in *;
  repeat match goal with |- _ -> _ => intros ? end;
  first [ done | lia | congruence | solve [eauto]
        | match goal with
          | H : omap ?f ?t = _ |- context [omap ?f ?t] =>
            rewrite H; autorewrite with jtrace; reflexivity
          end
        | autorewrite with jtrace in *; lia
        | idtac ].
Ltac jclose := simpl; first [ assumption | lia | jclose_heavy ].

#[local] Opaque dequeue enqueue.

Lemma jinv_request_write all s s' : jinv all s -> request_write s = Some s' -> jinv all s'.
Proof.
  intros (fin & lr & lm & lc & H) Hs. destruct s as [td rb mb cb m p0 p1 w1 p2 w2 p3 w3 hp st nt tr].
  destruct m as [m0 m1 m2 m3 m4 m5 m6]. destruct H; simpl in *.
  unfold request_write in Hs; simpl in Hs.
  destruct td as [|wr rest]; [done|].
  destruct p0; simpl in *.
  - destruct m1; simplify_eq/=. exists fin, lr, lm, lc. split; jclose.
  - destruct m0; simplify_eq/=. exists fin, lr, lm, lc. split; jclose.
  - simplify_eq/=. exists fin, (lr ++ [wr]), lm, lc. split; jclose.
    apply brepr_enqueue; [done|lia].
  - simplify_eq/=. exists fin, lr, lm, lc. split; jclose.
  - simplify_eq/=. exists fin, lr, lm, lc. split; jclose.
Qed.

Lemma jinv_metaDataWrite all s s' : jinv all s -> metaDataWrite s = Some s' -> jinv all s'.
Proof.
  intros (fin & lr & lm & lc & H) Hs. destruct s as [td rb mb cb m p0 p1 w1 p2 w2 p3 w3 hp st nt tr].
  destruct m as [m0 m1 m2 m3 m4 m5 m6]. destruct H; simpl in *.
  unfold metaDataWrite in Hs; cbn -[dequeue] in Hs.
  destruct p1; simpl in *;
    try (destruct ji_wr4 as [x ->]; [lia|]).
  - destruct m2; simplify_eq/=. exists fin, lr, lm, lc. split; jclose.
  - destruct m0; simplify_eq/=. exists fin, lr, lm, lc. split; jclose.
  - destruct lr as [|x lr]; simpl in *; [lia|].
    destruct (brepr_dequeue _ _ _ ji_req0) as (b' & E & Hb).
    rewrite E in Hs. simplify_eq/=. exists fin, lr, lm, lc. split; jclose.
  - simplify_eq/=. exists fin, lr, lm, lc. split; jclose.
  - simplify_eq/=. exists fin, lr, lm, lc. split; jclose.
  - simplify_eq/=. exists fin, lr, lm, lc. split; jclose.
  - simplify_eq/=. exists fin, lr, lm, lc. split; jclose.
  - simplify_eq/=. exists fin, lr, lm, lc. split; jclose.
  - simplify_eq/=. exists fin, lr, lm, lc. split; jclose.
  - destruct m3; simplify_eq/=. exists fin, lr, lm, lc. split; jclose.
  - destruct m0; simplify_eq/=. exists fin, lr, lm, lc. split; jclose.
  - simplify_eq/=. exists fin, lr, (lm ++ [x]), lc. split; jclose.
    apply brepr_enqueue; [done|lia].
  - simplify_eq/=. exists fin, lr, lm, lc. split; jclose.
  - simplify_eq/=. exists fin, lr, lm, lc. split; jclose.
Qed.

Lemma jinv_journalCommit all s s' : jinv all s -> journalCommit s = Some s' -> jinv all s'.
Proof.
  intros (fin & lr & lm & lc & H) Hs. destruct s as [td rb mb cb m p0 p1 w1 p2 w2 p3 w3 hp st nt tr].
  destruct m as [m0 m1 m2 m3 m4 m5 m6]. destruct H; simpl in *.
  unfold journalCommit in Hs; cbn -[dequeue] in Hs.
  destruct p2; simpl in *;
    try (destruct ji_wr5 as [x ->]; [lia|]).
  - destruct m4; simplify_eq/=. exists fin, lr, lm, lc. split; jclose.
  - destruct m0; simplify_eq/=. exists fin, lr, lm, lc. split; jclose.
  - destruct lm as [|x lm]; simpl in *; [lia|].
    destruct (brepr_dequeue _ _ _ ji_meta0) as (b' & E & Hb).
    rewrite E in Hs. simplify_eq/=. exists fin, lr, lm, lc. split; jclose.
  - destruct (hp =? 0); simplify_eq/=; exists fin, lr, lm, lc; split; jclose.
  - simplify_eq/=. exists fin, lr, lm, lc. split; jclose.
  - simplify_eq/=. exists fin, lr, lm, lc. split; jclose.
  - simplify_eq/=. exists fin, lr, lm, lc. split; jclose.
  - destruct m5; simplify_eq/=. exists fin, lr, lm, lc. split; jclose.
  - destruct m0; simplify_eq/=. exists fin, lr, lm, lc. split; jclose.
  - simplify_eq/=. exists fin, lr, lm, (lc ++ [x]). split; jclose.
    apply brepr_enqueue; [done|lia].
  - simplify_eq/=. exists fin, lr, lm, lc. split; jclose.
  - simplify_eq/=. exists fin, lr, lm, lc. split; jclose.
Qed.

Lemma jinv_journalCommitComplete all s s' :
  jinv all s -> journalCommitComplete s = Some s' -> jinv all s'.
Proof.
  intros (fin & lr & lm & lc & H) Hs. destruct s as [td rb mb cb m p0 p1 w1 p2 w2 p3 w3 hp st nt tr].
  destruct m as [m0 m1 m2 m3 m4 m5 m6]. destruct H; simpl in *.
  unfold journalCommitComplete in Hs; cbn -[dequeue] in Hs.
  destruct p3; simpl in *;
    try (destruct ji_wr6 as [x ->]; [lia|]).
  - destruct m6; simplify_eq/=. exists fin, lr, lm, lc. split; jclose.
  - destruct m0; simplify_eq/=. exists fin, lr, lm, lc. split; jclose.
  - destruct lc as [|x lc]; simpl in *; [lia|].
    destruct (brepr_dequeue _ _ _ ji_commit0) as (b' & E & Hb).
    rewrite E in Hs. simplify_eq/=. exists fin, lr, lm, lc. split; jclose.
  - simplify_eq/=. exists fin, lr, lm, lc. split; jclose.
  - simplify_eq/=. exists fin, lr, lm, lc. split; jclose.
  - simplify_eq/=. exists fin, lr, lm, lc. split; jclose.
  - simplify_eq/=. exists fin, lr, lm, lc. split; jclose.
  - simplify_eq/=. exists (fin ++ [x]), lr, lm, lc. split; jclose.
Qed.

Lemma jinv_threadSleep all s s' : jinv all s -> threadSleep s = Some s' -> jinv all s'.
Proof.
  intros (fin & lr & lm & lc & H) Hs. destruct s as [td rb mb cb m p0 p1 w1 p2 w2 p3 w3 hp st nt tr].
  destruct H; simpl in *. unfold threadSleep in Hs; simpl in Hs.
  destruct nt as [|nt]; simplify_eq/=. exists fin, lr, lm, lc. split; jclose.
Qed.
#[local] Transparent dequeue enqueue.

Lemma jinv_step all s s' : jinv all s -> jstep s s' -> jinv all s'.
Proof.
  intros H [[] Hs];
    eauto using jinv_request_write, jinv_metaDataWrite, jinv_journalCommit,
      jinv_journalCommitComplete, jinv_threadSleep.
Qed.

Lemma jinv_reachable all s : reachable jstep (init_journal all) s -> jinv all s.
Proof.
  intros [n H]. eapply runs_invariant; [apply jinv_step | apply jinv_init | exact H].
Qed.
