(* ===== verification/JournalProps.v ===== *)
(** * JournalProps: termination and the claims on the journaling service

    A measure bounds every execution of the transition system of [Journal],
    stuck states are final, and the properties of the service follow from
    the invariant. *)

From S2P Require Import Prelude.
From S2P Require Import Journal.

(** ** Termination

    Every step lowers [jmeasure]: a request costs a bounded number of
    steps in each stage. *)

Definition rem0 (p : pc_main) : nat :=
  match p with
  | R_unlock => 5 | R_post_notempty => 4 | R_wait_space => 3 | R_lock => 2 | R_enqueue => 1
  end.
Definition rem1 (p : pc_meta) : nat :=
  match p with
  | M_wait_notempty => 3 | M_lock => 2 | M_dequeue => 1
  | M_write_data => 37 | M_txb => 36 | M_bitmap => 35 | M_inode => 34 | M_unlock => 33
  | M_post_space => 32 | M_wait_next => 31 | M_lock2 => 30 | M_enqueue => 29
  | M_post_next => 5 | M_unlock2 => 4
  end.
Definition rem2 (p : pc_commit) : nat :=
  match p with
  | C_wait_notempty => 3 | C_lock => 2 | C_dequeue => 1
  | C_print => 22 | C_txe => 21 | C_unlock => 18 | C_post_space => 17 | C_wait_next => 16
  | C_lock2 => 15 | C_enqueue => 14 | C_unlock2 => 5 | C_post_next => 4
  end.
Definition rem3 (p : pc_check) : nat :=
  match p with
  | K_wait_notempty => 3 | K_lock => 2 | K_dequeue => 1
  | K_bitmap => 8 | K_inode => 7 | K_unlock => 6 | K_post_space => 5 | K_complete => 4
  end.

Definition jmeasure (s : jstate) : nat :=
  (50 * length (if sig0 (pc0 s) then List.tl (todo s) else todo s) + rem0 (pc0 s)
   + 38 * Z.to_nat (size (requestBuffer s)) + rem1 (pc1 s)
   + 23 * Z.to_nat (size (metaDataBuffer s)) + rem2 (pc2 s)
   + 8 * Z.to_nat (size (commitCompletedBuffer s)) + rem3 (pc3 s)
   + txe_threads s)%nat.

Lemma jmeasure_init all : jmeasure (init_journal all) = (50 * length all + 12)%nat.
Proof. unfold jmeasure. simpl. lia. Qed.

Lemma jmeasure_step all s s' : jinv all s -> jstep s s' -> (jmeasure s' < jmeasure s)%nat.
Proof.
  intros (fin & lr & lm & lc & H) [t Hs].
  destruct H as [Hr Hm Hc _ _ Hne _ Hmne _ Hcne H1 H2 H3 _ _ _ _ _ _ _ _ _ _ _].
  destruct s as [td rb mb cb m p0 p1 w1 p2 w2 p3 w3 hp st nt tr].
  destruct m as [m0 m1 m2 m3 m4 m5 m6]. simpl in *.
  pose proof (br_size _ _ Hr) as Er. pose proof (br_size _ _ Hm) as Em.
  pose proof (br_size _ _ Hc) as Ec.
  destruct t; simpl in Hs.
  - unfold request_write in Hs; simpl in Hs. destruct td as [|wr rest]; [done|].
    destruct p0; simpl in *; unfold sem_wait in Hs; simpl in Hs; repeat case_match; simplify_eq/=;
      unfold jmeasure; simpl; lia.
  - unfold metaDataWrite in Hs; simpl in Hs.
    destruct p1; simpl in *; try (destruct H1 as [x ->]; [lia|]);
      unfold sem_wait in Hs; simpl in Hs; repeat case_match; simplify_eq/=;
      unfold jmeasure; simpl; lia.
  - unfold journalCommit in Hs; simpl in Hs.
    destruct p2; simpl in *; try (destruct H2 as [x ->]; [lia|]);
      unfold sem_wait in Hs; simpl in Hs; repeat case_match; simplify_eq/=;
      unfold jmeasure; simpl; lia.
  - unfold journalCommitComplete in Hs; simpl in Hs.
    destruct p3; simpl in *; try (destruct H3 as [x ->]; [lia|]);
      unfold sem_wait in Hs; simpl in Hs; repeat case_match; simplify_eq/=;
      unfold jmeasure; simpl; lia.
  - unfold threadSleep in Hs; simpl in Hs. destruct nt; simplify_eq/=.
    unfold jmeasure; simpl; lia.
Qed.

(** All requests are submitted, journaled, committed and checkpointed, and
    every thread waits for work. *)
Definition jfinal (all : list write_request) (s : jstate) : Prop :=
  todo s = [] /\ txe_threads s = O /\
  size (requestBuffer s) = 0 /\ size (metaDataBuffer s) = 0 /\ size (commitCompletedBuffer s) = 0 /\
  data_of (trace s) = f_data <$> all /\
  write_inode_of (trace s) = f_inode <$> all /\
  count_txe_complete (trace s) = length all /\
  count_complete (trace s) = length all.

(** A thread inside the critical section can always move. *)
Lemma crit_moves0 s : crit0 (pc0 s) = true -> todo s <> [] -> request_write s <> None.
Proof. unfold request_write. destruct (todo s); [done|]. by destruct (pc0 s). Qed.
Lemma crit_moves1 all s : jinv all s -> crit1 (pc1 s) = true -> metaDataWrite s <> None.
Proof.
  intros (fin & lr & lm & lc & H). pose proof (ji_wr1 _ _ _ _ _ _ H) as Hw.
  unfold metaDataWrite. destruct (pc1 s); simpl in *; try done;
    by (destruct Hw as [x ->]; [lia|]).
Qed.
Lemma crit_moves2 all s : jinv all s -> crit2 (pc2 s) = true -> journalCommit s <> None.
Proof.
  intros (fin & lr & lm & lc & H). pose proof (ji_wr2 _ _ _ _ _ _ H) as Hw.
  unfold journalCommit. destruct (pc2 s); simpl in *; try done;
    by (destruct Hw as [x ->]; [lia|]).
Qed.
Lemma crit_moves3 all s : jinv all s -> crit3 (pc3 s) = true -> journalCommitComplete s <> None.
Proof.
  intros (fin & lr & lm & lc & H). pose proof (ji_wr3 _ _ _ _ _ _ H) as Hw.
  unfold journalCommitComplete. destruct (pc3 s); simpl in *; try done;
    by (destruct Hw as [x ->]; [lia|]).
Qed.

(** Where each thread can be stuck when the mutex is free. *)
Lemma stuck0 s : mutex (sm s) = 1%nat -> crit0 (pc0 s) = false -> request_write s = None ->
  todo s = [] \/ (pc0 s = R_wait_space /\ requestBufferHasSpaceMutex (sm s) = O).
Proof.
  unfold request_write, sem_wait. intros Hm Hc. destruct (todo s); [by left|].
  destruct (pc0 s); simpl in *; try done; [|by rewrite Hm].
  destruct (requestBufferHasSpaceMutex (sm s)); [by right|done].
Qed.
Lemma stuck1 s : mutex (sm s) = 1%nat -> crit1 (pc1 s) = false -> metaDataWrite s = None ->
  (pc1 s = M_wait_notempty /\ requestBufferNotEmptyMutex (sm s) = O) \/
  (pc1 s = M_wait_next /\ metaDataBufferHasSpaceMutex (sm s) = O).
Proof.
  unfold metaDataWrite, sem_wait. intros Hm Hc.
  destruct (pc1 s); simpl in *; try done; rewrite ?Hm; try done.
  - destruct (requestBufferNotEmptyMutex (sm s)); [by left|done].
  - destruct (metaDataBufferHasSpaceMutex (sm s)); [by right|done].
Qed.
Lemma stuck2 s : mutex (sm s) = 1%nat -> crit2 (pc2 s) = false -> journalCommit s = None ->
  (pc2 s = C_wait_notempty /\ metaDataBufferNotEmptyMutex (sm s) = O) \/
  (pc2 s = C_wait_next /\ commitCompletedBufferHasSpaceMutex (sm s) = O).
Proof.
  unfold journalCommit, sem_wait. intros Hm Hc.
  destruct (pc2 s); simpl in *; try done; rewrite ?Hm; try done.
  - destruct (metaDataBufferNotEmptyMutex (sm s)); [by left|done].
  - destruct (commitCompletedBufferHasSpaceMutex (sm s)); [by right|done].
Qed.
Lemma stuck3 s : mutex (sm s) = 1%nat -> crit3 (pc3 s) = false -> journalCommitComplete s = None ->
  pc3 s = K_wait_notempty /\ commitCompletedBufferNotEmptyMutex (sm s) = O.
Proof.
  unfold journalCommitComplete, sem_wait. intros Hm Hc.
  destruct (pc3 s); simpl in *; try done; rewrite ?Hm; try done.
  destruct (commitCompletedBufferNotEmptyMutex (sm s)); [by split|done].
Qed.

Lemma stuck_mutex all s : jinv all s -> (forall t, jstep_of t s = None) ->
  mutex (sm s) = 1%nat /\ crit0 (pc0 s) = false /\ crit1 (pc1 s) = false /\
  crit2 (pc2 s) = false /\ crit3 (pc3 s) = false.
Proof.
  intros Hi Hst.
  assert (crit1 (pc1 s) = false) as C1.
  { destruct (crit1 (pc1 s)) eqn:E; [|done]. by destruct (crit_moves1 _ _ Hi E); apply (Hst T_meta). }
  assert (crit2 (pc2 s) = false) as C2.
  { destruct (crit2 (pc2 s)) eqn:E; [|done]. by destruct (crit_moves2 _ _ Hi E); apply (Hst T_commit). }
  assert (crit3 (pc3 s) = false) as C3.
  { destruct (crit3 (pc3 s)) eqn:E; [|done]. by destruct (crit_moves3 _ _ Hi E); apply (Hst T_check). }
  destruct Hi as (fin & lr & lm & lc & H).
  assert (crit0 (pc0 s) = false) as E0.
  { destruct (crit0 (pc0 s)) eqn:E; [|done].
    destruct (crit_moves0 _ E); [|apply (Hst T_main)].
    apply (ji_todo _ _ _ _ _ _ H). by destruct (pc0 s). }
  pose proof (ji_mutex _ _ _ _ _ _ H) as Hm.
  repeat match goal with E : _ = false |- _ => rewrite E in Hm end.
  simpl in Hm. repeat split; try done; lia.
Qed.

(** A state in which nobody can move is final: there is no deadlock. *)
Lemma jstuck_final all s : jinv all s -> (forall t, jstep_of t s = None) -> jfinal all s.
Proof.
  intros Hi Hst. destruct (stuck_mutex _ _ Hi Hst) as (Hm & E0 & E1 & E2 & E3).
  destruct Hi as (fin & lr & lm & lc & H). destruct H.
  destruct (stuck3 _ Hm E3 (Hst T_check)) as [P3 S3].
  rewrite P3 in *. simpl in *.
  assert (pc2 s = C_wait_notempty /\ metaDataBufferNotEmptyMutex (sm s) = O) as [P2 S2].
  { destruct (stuck2 _ Hm E2 (Hst T_commit)) as [?|[P2 S2]]; [done|].
    rewrite P2 in *. simpl in *. lia. }
  rewrite P2 in *. simpl in *.
  assert (pc1 s = M_wait_notempty /\ requestBufferNotEmptyMutex (sm s) = O) as [P1 S1].
  { destruct (stuck1 _ Hm E1 (Hst T_meta)) as [?|[P1 S1]]; [done|].
    rewrite P1 in *. simpl in *. lia. }
  rewrite P1 in *. simpl in *.
  assert (todo s = []) as Ht.
  { destruct (stuck0 _ Hm E0 (Hst T_main)) as [?|[P0 S0]]; [done|].
    rewrite P0 in *. simpl in *. lia. }
  assert (pc0 s = R_wait_space) as P0.
  { destruct (pc0 s); try done; by destruct ji_todo. }
  rewrite P0, Ht in *. simpl in *.
  destruct lr; [|simpl in *; lia]. destruct lm; [|simpl in *; lia]. destruct lc; [|simpl in *; lia].
  simpl in *. unfold carried in *. simpl in *. rewrite app_nil_r in *. subst fin.
  pose proof (Hst T_txe) as Hx. unfold jstep_of, threadSleep in Hx.
  destruct (txe_threads s) eqn:Ex; [|done].
  repeat split; rewrite ?br_size by eassumption; try done.
  - rewrite (br_size _ _ ji_req). done.
  - rewrite (br_size _ _ ji_meta). done.
  - rewrite (br_size _ _ ji_commit). done.
  - lia.
Qed.

(** The transition system's executable step and its relation agree. *)
Lemma jstep_reachable sched s s' :
  run_schedule jstep_of sched s = Some s' -> reachable jstep s s'.
Proof. apply run_schedule_reachable. Qed.

Lemma carried_prefix n k (w : option write_request) l1 l2 :
  (1 <= k)%nat -> l1 ++ carried n k w `prefix_of` l1 ++ carried n 1 w ++ l2.
Proof.
  intros Hk. apply prefix_app. unfold carried.
  destruct (Nat.leb_spec k n); destruct (Nat.leb_spec 1 n); try lia.
  - apply prefix_app_r. done.
  - apply prefix_nil.
  - apply prefix_nil.
Qed.

Lemma length_carried_mono n k1 k2 (w : option write_request) :
  (k1 <= k2)%nat -> (length (carried n k2 w) <= length (carried n k1 w))%nat.
Proof.
  intros. unfold carried. destruct (Nat.leb_spec k1 n), (Nat.leb_spec k2 n); simpl; lia.
Qed.

(** ** Claims *)

(** C11: the service is a lossless FIFO pipeline.  In every reachable state
    the three circular buffers hold queues of at most eight requests, and
    the requests completed, carried by a thread, buffered and not yet
    submitted are together, in this order, exactly the submitted list. *)
Theorem journal_pipeline_fifo all s :
  reachable jstep (init_journal all) s ->
  exists fin lr lm lc,
    brepr (requestBuffer s) lr /\ brepr (metaDataBuffer s) lm /\
    brepr (commitCompletedBuffer s) lc /\
    count_complete (trace s) = length fin /\
    all = fin ++ carried (stage3 (pc3 s)) 1 (wr3 s) ++ lc
              ++ carried (stage2 (pc2 s)) 1 (wr2 s) ++ lm
              ++ carried (stage1 (pc1 s)) 1 (wr1 s) ++ lr
              ++ (if sig0 (pc0 s) then List.tl (todo s) else todo s).
Proof.
  intros (fin & lr & lm & lc & H)%jinv_reachable. exists fin, lr, lm, lc. by destruct H.
Qed.

(** C12: the write-ahead order.  In every reachable state the data, journal
    and checkpoint writes issued are those of an initial segment of the
    submitted requests, in submission order; and a request's data write
    precedes its transaction begin, its journaled bitmap and inode, the
    transaction end, and its checkpointed bitmap and inode, in this order:
    the k-th write of each phase is issued only after the k-th write of
    the phase before. *)
Theorem journal_write_order all s :
  reachable jstep (init_journal all) s ->
  data_of (trace s) `prefix_of` f_data <$> all /\
  journal_bitmap_of (trace s) `prefix_of` f_bitmap <$> all /\
  journal_inode_of (trace s) `prefix_of` f_inode <$> all /\
  write_bitmap_of (trace s) `prefix_of` f_bitmap <$> all /\
  write_inode_of (trace s) `prefix_of` f_inode <$> all /\
  (count_txb (trace s) <= length (data_of (trace s)))%nat /\
  (length (journal_bitmap_of (trace s)) <= count_txb (trace s))%nat /\
  (length (journal_inode_of (trace s)) <= length (journal_bitmap_of (trace s)))%nat /\
  (count_txe (trace s) <= length (journal_inode_of (trace s)))%nat /\
  (length (write_bitmap_of (trace s)) <= count_txe (trace s))%nat /\
  (length (write_inode_of (trace s)) <= length (write_bitmap_of (trace s)))%nat /\
  (count_complete (trace s) <= length (write_inode_of (trace s)))%nat.
Proof.
  intros (fin & lr & lm & lc & H)%jinv_reachable.
  rewrite (ji_data _ _ _ _ _ _ H), (ji_jbitmap _ _ _ _ _ _ H), (ji_jinode _ _ _ _ _ _ H),
    (ji_wbitmap _ _ _ _ _ _ H), (ji_winode _ _ _ _ _ _ H), (ji_txb _ _ _ _ _ _ H),
    (ji_txe _ _ _ _ _ _ H), (ji_complete _ _ _ _ _ _ H).
  pose proof (ji_pipe _ _ _ _ _ _ H) as E.
  assert (forall k, (1 <= k)%nat -> fin ++ carried (stage3 (pc3 s)) k (wr3 s) `prefix_of` all) as P3.
  { intros k Hk. rewrite E. by apply carried_prefix. }
  assert (forall k, (1 <= k)%nat ->
    fin ++ carried (stage3 (pc3 s)) 1 (wr3 s) ++ lc ++ carried (stage2 (pc2 s)) 1 (wr2 s) ++ lm
      ++ carried (stage1 (pc1 s)) k (wr1 s) `prefix_of` all) as P1.
  { intros k Hk. rewrite E. do 5 apply prefix_app.
    rewrite <- (app_nil_l (carried _ k _)).
    rewrite <- (app_nil_l (carried (stage1 _) 1 _ ++ _)). by apply carried_prefix. }
  pose proof (length_carried_mono (stage1 (pc1 s)) 2 3 (wr1 s)).
  pose proof (length_carried_mono (stage1 (pc1 s)) 3 4 (wr1 s)).
  pose proof (length_carried_mono (stage1 (pc1 s)) 4 5 (wr1 s)).
  pose proof (length_carried_mono (stage2 (pc2 s)) 1 2 (wr2 s)).
  pose proof (length_carried_mono (stage3 (pc3 s)) 1 2 (wr3 s)).
  pose proof (length_carried_mono (stage3 (pc3 s)) 2 3 (wr3 s)).
  split_and!; try (apply prefix_fmap; first [apply P1 | apply P3]; lia);
    rewrite ?length_fmap, ?length_app; lia.
Qed.

(** No overflow, no underflow.  In every reachable state the buffer
    sizes stay between 0 and 8, a thread about to enqueue finds a free
    slot, and a thread about to dequeue finds a request. *)
Theorem journal_no_overflow all s :
  reachable jstep (init_journal all) s ->
  0 <= size (requestBuffer s) <= BUFFER_SIZE /\
  0 <= size (metaDataBuffer s) <= BUFFER_SIZE /\
  0 <= size (commitCompletedBuffer s) <= BUFFER_SIZE /\
  (pc0 s = R_enqueue -> size (requestBuffer s) < BUFFER_SIZE) /\
  (pc1 s = M_enqueue -> size (metaDataBuffer s) < BUFFER_SIZE) /\
  (pc2 s = C_enqueue -> size (commitCompletedBuffer s) < BUFFER_SIZE) /\
  (pc1 s = M_dequeue -> 0 < size (requestBuffer s)) /\
  (pc2 s = C_dequeue -> 0 < size (metaDataBuffer s)) /\
  (pc3 s = K_dequeue -> 0 < size (commitCompletedBuffer s)).
Proof.
  intros (fin & lr & lm & lc & H)%jinv_reachable. destruct H.
  rewrite (br_size _ _ ji_req), (br_size _ _ ji_meta), (br_size _ _ ji_commit).
  unfold BUFFER_SIZE.
  repeat split; try lia; intros E; rewrite E in *; simpl in *; lia.
Qed.

(** Mutual exclusion.  In every reachable state at most one of the four
    threads is between [sem_wait(&mutex)] and [sem_post(&mutex)], and the
    mutex is 0 exactly when one is. *)
Theorem journal_mutual_exclusion all s :
  reachable jstep (init_journal all) s ->
  (b2n (crit0 (pc0 s)) + b2n (crit1 (pc1 s)) + b2n (crit2 (pc2 s)) + b2n (crit3 (pc3 s))
   = 1 - mutex (sm s))%nat /\ (mutex (sm s) <= 1)%nat.
Proof.
  intros (fin & lr & lm & lc & H)%jinv_reachable. pose proof (ji_mutex _ _ _ _ _ _ H). lia.
Qed.

(** C13: every execution completes.  Whatever the scheduling, a run from the
    initial state has at most 50 steps per request plus 12, from every
    reachable state the final state can be reached, and a state in which
    no thread can move is final: every request was written, committed,
    checkpointed and reported complete. *)
Theorem journal_completes all :
  (forall n s, runs jstep n (init_journal all) s -> (n <= 50 * length all + 12)%nat) /\
  (forall s, reachable jstep (init_journal all) s ->
     exists s', reachable jstep s s' /\ jfinal all s') /\
  (forall s, reachable jstep (init_journal all) s ->
     (forall s', ~ jstep s s') -> jfinal all s).
Proof.
  assert (forall s, jinv all s -> (forall s', ~ jstep s s') -> jfinal all s) as Hfin.
  { intros s Hi Hst. apply jstuck_final; [done|]. intros t.
    destruct (jstep_of t s) as [s'|] eqn:E; [|done]. destruct (Hst s'). by exists t. }
  split_and!.
  - intros n s H. rewrite <- jmeasure_init.
    pose proof (runs_bounded jstep (jinv all) jmeasure (jinv_step all)
      (fun s s' => jmeasure_step all s s') n _ _ (jinv_init all) H). lia.
  - intros s Hs%jinv_reachable.
    eapply (runs_to_final jstep (jinv all) (jfinal all) jmeasure); eauto using jinv_step, jmeasure_step.
    intros s1 H1.
    destruct (jstep_of T_main s1) eqn:E0; [right; eexists; by exists T_main|].
    destruct (jstep_of T_meta s1) eqn:E1; [right; eexists; by exists T_meta|].
    destruct (jstep_of T_commit s1) eqn:E2; [right; eexists; by exists T_commit|].
    destruct (jstep_of T_check s1) eqn:E3; [right; eexists; by exists T_check|].
    destruct (jstep_of T_txe s1) eqn:E4; [right; eexists; by exists T_txe|].
    left. apply jstuck_final; [done|]. by intros [].
  - intros s Hs%jinv_reachable. by apply Hfin.
Qed.

(** A schedule that submits one request and takes it through all stages
    while the thread of [issue_journal_txe] still sleeps. *)
Definition early_checkpoint_schedule : list tid :=
  replicate 5 T_main ++ replicate 14 T_meta ++ replicate 12 T_commit ++ replicate 5 T_check.

(** C14: a checkpoint may precede the commit.  The service does not wait for
    [journal_txe_complete]: for every non-empty list of requests there is
    a reachable state in which the first request's bitmap and inode have
    been issued to their home locations while no transaction end has been
    reported written. *)
Theorem journal_checkpoint_before_commit wr rest :
  exists s, reachable jstep (init_journal (wr :: rest)) s /\
    write_bitmap_of (trace s) = [f_bitmap wr] /\
    write_inode_of (trace s) = [f_inode wr] /\
    count_txe (trace s) = 1%nat /\ count_txe_complete (trace s) = 0%nat.
Proof.
  exists (default (init_journal [])
    (run_schedule jstep_of early_checkpoint_schedule (init_journal (wr :: rest)))).
  split; [apply (jstep_reachable early_checkpoint_schedule); vm_compute; reflexivity|].
  vm_compute. done.
Qed.

(** ** Witnesses *)

Definition witness_state : jstate :=
  default (init_journal []) (run_schedule jstep_of
    (replicate 5 T_main ++ replicate 5 T_main ++ replicate 14 T_meta ++ replicate 6 T_commit)
    (init_journal test_requests)).

Lemma witness_state_reachable : reachable jstep (init_journal test_requests) witness_state.
Proof.
  apply (jstep_reachable
    (replicate 5 T_main ++ replicate 5 T_main ++ replicate 14 T_meta ++ replicate 6 T_commit)).
  vm_compute. reflexivity.
Qed.

Lemma journal_pipeline_fifo_witness :
  exists fin lr lm lc : list write_request,
    brepr (requestBuffer witness_state) lr /\ brepr (metaDataBuffer witness_state) lm /\
    brepr (commitCompletedBuffer witness_state) lc /\
    count_complete (trace witness_state) = length fin.
Proof.
  destruct (journal_pipeline_fifo test_requests witness_state witness_state_reachable)
    as (fin & lr & lm & lc & ? & ? & ? & ? & ?).
  by exists fin, lr, lm, lc.
Defined.

Lemma journal_write_order_witness :
  data_of (trace witness_state) = [f_data (test_request 0)] /\
  data_of (trace witness_state) `prefix_of` f_data <$> test_requests /\
  count_txe (trace witness_state) = 1%nat.
Proof.
  split; [reflexivity|]. split; [|reflexivity].
  apply (journal_write_order test_requests witness_state witness_state_reachable).
Defined.

Lemma journal_no_overflow_witness :
  size (requestBuffer witness_state) = 1 /\ 0 <= size (requestBuffer witness_state) <= BUFFER_SIZE.
Proof.
  split; [reflexivity|].
  apply (journal_no_overflow test_requests witness_state witness_state_reachable).
Defined.

Lemma journal_mutual_exclusion_witness :
  mutex (sm witness_state) = 1%nat /\ (mutex (sm witness_state) <= 1)%nat.
Proof.
  split; [reflexivity|].
  apply (journal_mutual_exclusion test_requests witness_state witness_state_reachable).
Defined.
