(* ===== verification/State.v ===== *)
(** * State: the data model of the xv6 kernel

    The structures of the kernel of [src/XV6 Multilevel feedback queue/]
    (proc.h, file.h, fs.h, buf.h, sleeplock.h and the globals of the C
    files) as records, one field per C field, with an update function
    [set_f] for each field [f]; and [kst], the state of the whole kernel.

    Pointers into a C array are indices ([option nat], [None] for the null
    pointer); physical addresses are [Z].  The bytes of physical memory are
    a function from addresses; structures that live in pages handed out by
    kalloc (pipes, trapframes) are kept in a map from the page's address. *)

From S2P Require Import Prelude.

(** ** Constants (param.h, fs.h, file.h, pipe.c, console.c, uart.c, log.h) *)

Definition NPROC : nat := 64.
Definition NOFILE : nat := 16.
Definition NFILE : nat := 100.
Definition NINODE : nat := 50.
Definition NDEV : Z := 10.
Definition ROOTDEV : Z := 1.
Definition MAXARG : nat := 32.
Definition MAXOPBLOCKS : Z := 10.
Definition LOGSIZE : Z := MAXOPBLOCKS * 3.
Definition NBUF : nat := 30.
Definition FSSIZE : Z := 2000.
Definition MAXPATH : Z := 128.
Definition LOG_SIZE : Z := 100.
Definition ROOTINO : Z := 1.
Definition BSIZE : Z := 1024.
Definition FSMAGIC : Z := 0x10203040.
Definition NDIRECT : Z := 12.
Definition NINDIRECT : Z := BSIZE / 4.
Definition MAXFILE : Z := NDIRECT + NINDIRECT.
Definition DIRSIZ : Z := 14.
Definition PIPESIZE : Z := 512.
Definition INPUT_BUF_SIZE : Z := 128.
Definition UART_TX_BUF_SIZE : Z := 32.
Definition PGSIZE : Z := 4096.
Definition T_DIR : Z := 1.
Definition T_FILE : Z := 2.
Definition T_DEVICE : Z := 3.
Definition CONSOLE : Z := 1.

(** ** Names of locks and sleep channels

    A lock or a channel is identified in C by its address; distinct
    objects have distinct addresses, so constructors name them. *)

Inductive slid := SL_buf (i : nat) | SL_inode (i : nat).
Inductive lockid :=
| L_pid | L_wait | L_proc (i : nat) | L_kmem | L_ticks | L_pr | L_cons | L_uart_tx
| L_bcache | L_itable | L_ftable | L_log | L_vdisk | L_pipe (pi : Z) | L_sleep (s : slid).
Inductive chan :=
| Ch_proc (i : nat) | Ch_ticks | Ch_log | Ch_nread (pi : Z) | Ch_nwrite (pi : Z)
| Ch_cons_r | Ch_uart_tx_r | Ch_sleep (s : slid) | Ch_buf (i : nat) | Ch_disk_free.

#[export] Instance slid_eq_dec : EqDecision slid.
Proof. solve_decision. Defined.
#[export] Instance lockid_eq_dec : EqDecision lockid.
Proof. solve_decision. Defined.
#[export] Instance chan_eq_dec : EqDecision chan.
Proof. solve_decision. Defined.

(** ** Processes (proc.h, log.h, the globals of proc.c) *)

Inductive procstate := UNUSED | USED | SLEEPING | RUNNABLE | RUNNING | ZOMBIE.
#[export] Instance procstate_eq_dec : EqDecision procstate.
Proof. solve_decision. Defined.

(** [struct context]. *)
Record context := Context_ {
  ctx_ra : Z;
  ctx_sp : Z;
  ctx_s : list Z   (* s0..s11 *)
}.

Definition context_zero : context := Context_ 0 0 (replicate 12 0).

(** [struct trapframe]. *)
Record trapframe := Trapframe {
  tf_kernel_satp : Z;
  tf_kernel_sp : Z;
  tf_kernel_trap : Z;
  tf_epc : Z;
  tf_kernel_hartid : Z;
  tf_ra : Z;
  tf_sp : Z;
  tf_gp : Z;
  tf_tp : Z;
  tf_t0 : Z;
  tf_t1 : Z;
  tf_t2 : Z;
  tf_s0 : Z;
  tf_s1 : Z;
  tf_a0 : Z;
  tf_a1 : Z;
  tf_a2 : Z;
  tf_a3 : Z;
  tf_a4 : Z;
  tf_a5 : Z;
  tf_a6 : Z;
  tf_a7 : Z;
  tf_s2 : Z;
  tf_s3 : Z;
  tf_s4 : Z;
  tf_s5 : Z;
  tf_s6 : Z;
  tf_s7 : Z;
  tf_s8 : Z;
  tf_s9 : Z;
  tf_s10 : Z;
  tf_s11 : Z;
  tf_t3 : Z;
  tf_t4 : Z;
  tf_t5 : Z;
  tf_t6 : Z
}.

Definition set_tf_kernel_satp (v : Z) (x : trapframe) : trapframe :=
  Trapframe v (tf_kernel_sp x) (tf_kernel_trap x) (tf_epc x) (tf_kernel_hartid x) (tf_ra x) (tf_sp
    x) (tf_gp x) (tf_tp x) (tf_t0 x) (tf_t1 x) (tf_t2 x) (tf_s0 x) (tf_s1 x) (tf_a0 x) (tf_a1 x)
    (tf_a2 x) (tf_a3 x) (tf_a4 x) (tf_a5 x) (tf_a6 x) (tf_a7 x) (tf_s2 x) (tf_s3 x) (tf_s4 x) (tf_s5
    x) (tf_s6 x) (tf_s7 x) (tf_s8 x) (tf_s9 x) (tf_s10 x) (tf_s11 x) (tf_t3 x) (tf_t4 x) (tf_t5 x)
    (tf_t6 x).
Definition set_tf_kernel_sp (v : Z) (x : trapframe) : trapframe :=
  Trapframe (tf_kernel_satp x) v (tf_kernel_trap x) (tf_epc x) (tf_kernel_hartid x) (tf_ra x) (tf_sp
    x) (tf_gp x) (tf_tp x) (tf_t0 x) (tf_t1 x) (tf_t2 x) (tf_s0 x) (tf_s1 x) (tf_a0 x) (tf_a1 x)
    (tf_a2 x) (tf_a3 x) (tf_a4 x) (tf_a5 x) (tf_a6 x) (tf_a7 x) (tf_s2 x) (tf_s3 x) (tf_s4 x) (tf_s5
    x) (tf_s6 x) (tf_s7 x) (tf_s8 x) (tf_s9 x) (tf_s10 x) (tf_s11 x) (tf_t3 x) (tf_t4 x) (tf_t5 x)
    (tf_t6 x).
Definition set_tf_kernel_trap (v : Z) (x : trapframe) : trapframe :=
  Trapframe (tf_kernel_satp x) (tf_kernel_sp x) v (tf_epc x) (tf_kernel_hartid x) (tf_ra x) (tf_sp
    x) (tf_gp x) (tf_tp x) (tf_t0 x) (tf_t1 x) (tf_t2 x) (tf_s0 x) (tf_s1 x) (tf_a0 x) (tf_a1 x)
    (tf_a2 x) (tf_a3 x) (tf_a4 x) (tf_a5 x) (tf_a6 x) (tf_a7 x) (tf_s2 x) (tf_s3 x) (tf_s4 x) (tf_s5
    x) (tf_s6 x) (tf_s7 x) (tf_s8 x) (tf_s9 x) (tf_s10 x) (tf_s11 x) (tf_t3 x) (tf_t4 x) (tf_t5 x)
    (tf_t6 x).
Definition set_tf_epc (v : Z) (x : trapframe) : trapframe :=
  Trapframe (tf_kernel_satp x) (tf_kernel_sp x) (tf_kernel_trap x) v (tf_kernel_hartid x) (tf_ra x)
    (tf_sp x) (tf_gp x) (tf_tp x) (tf_t0 x) (tf_t1 x) (tf_t2 x) (tf_s0 x) (tf_s1 x) (tf_a0 x) (tf_a1
    x) (tf_a2 x) (tf_a3 x) (tf_a4 x) (tf_a5 x) (tf_a6 x) (tf_a7 x) (tf_s2 x) (tf_s3 x) (tf_s4 x)
    (tf_s5 x) (tf_s6 x) (tf_s7 x) (tf_s8 x) (tf_s9 x) (tf_s10 x) (tf_s11 x) (tf_t3 x) (tf_t4 x)
    (tf_t5 x) (tf_t6 x).
Definition set_tf_kernel_hartid (v : Z) (x : trapframe) : trapframe :=
  Trapframe (tf_kernel_satp x) (tf_kernel_sp x) (tf_kernel_trap x) (tf_epc x) v (tf_ra x) (tf_sp x)
    (tf_gp x) (tf_tp x) (tf_t0 x) (tf_t1 x) (tf_t2 x) (tf_s0 x) (tf_s1 x) (tf_a0 x) (tf_a1 x) (tf_a2
    x) (tf_a3 x) (tf_a4 x) (tf_a5 x) (tf_a6 x) (tf_a7 x) (tf_s2 x) (tf_s3 x) (tf_s4 x) (tf_s5 x)
    (tf_s6 x) (tf_s7 x) (tf_s8 x) (tf_s9 x) (tf_s10 x) (tf_s11 x) (tf_t3 x) (tf_t4 x) (tf_t5 x)
    (tf_t6 x).
Definition set_tf_sp (v : Z) (x : trapframe) : trapframe :=
  Trapframe (tf_kernel_satp x) (tf_kernel_sp x) (tf_kernel_trap x) (tf_epc x) (tf_kernel_hartid x)
    (tf_ra x) v (tf_gp x) (tf_tp x) (tf_t0 x) (tf_t1 x) (tf_t2 x) (tf_s0 x) (tf_s1 x) (tf_a0 x)
    (tf_a1 x) (tf_a2 x) (tf_a3 x) (tf_a4 x) (tf_a5 x) (tf_a6 x) (tf_a7 x) (tf_s2 x) (tf_s3 x) (tf_s4
    x) (tf_s5 x) (tf_s6 x) (tf_s7 x) (tf_s8 x) (tf_s9 x) (tf_s10 x) (tf_s11 x) (tf_t3 x) (tf_t4 x)
    (tf_t5 x) (tf_t6 x).
Definition set_tf_a0 (v : Z) (x : trapframe) : trapframe :=
  Trapframe (tf_kernel_satp x) (tf_kernel_sp x) (tf_kernel_trap x) (tf_epc x) (tf_kernel_hartid x)
    (tf_ra x) (tf_sp x) (tf_gp x) (tf_tp x) (tf_t0 x) (tf_t1 x) (tf_t2 x) (tf_s0 x) (tf_s1 x) v
    (tf_a1 x) (tf_a2 x) (tf_a3 x) (tf_a4 x) (tf_a5 x) (tf_a6 x) (tf_a7 x) (tf_s2 x) (tf_s3 x) (tf_s4
    x) (tf_s5 x) (tf_s6 x) (tf_s7 x) (tf_s8 x) (tf_s9 x) (tf_s10 x) (tf_s11 x) (tf_t3 x) (tf_t4 x)
    (tf_t5 x) (tf_t6 x).
Definition set_tf_a1 (v : Z) (x : trapframe) : trapframe :=
  Trapframe (tf_kernel_satp x) (tf_kernel_sp x) (tf_kernel_trap x) (tf_epc x) (tf_kernel_hartid x)
    (tf_ra x) (tf_sp x) (tf_gp x) (tf_tp x) (tf_t0 x) (tf_t1 x) (tf_t2 x) (tf_s0 x) (tf_s1 x) (tf_a0
    x) v (tf_a2 x) (tf_a3 x) (tf_a4 x) (tf_a5 x) (tf_a6 x) (tf_a7 x) (tf_s2 x) (tf_s3 x) (tf_s4 x)
    (tf_s5 x) (tf_s6 x) (tf_s7 x) (tf_s8 x) (tf_s9 x) (tf_s10 x) (tf_s11 x) (tf_t3 x) (tf_t4 x)
    (tf_t5 x) (tf_t6 x).

(** [struct proc]; the spinlock [lock] of slot [i] is [L_proc i]. *)
Record proc := Proc {
  p_state : procstate;
  p_chan : option chan;
  p_killed : Z;
  p_xstate : Z;
  p_pid : Z;
  p_parent : option nat;
  p_kstack : Z;
  p_sz : Z;
  p_pagetable : Z;
  p_trapframe : Z;
  p_context : context;
  p_ofile : list (option nat);
  p_cwd : option nat;
  p_name : list Z;
  p_nice : Z;
  p_quanta : Z;
  p_queue : Z
}.

Definition set_p_state (v : procstate) (x : proc) : proc :=
  Proc v (p_chan x) (p_killed x) (p_xstate x) (p_pid x) (p_parent x) (p_kstack x) (p_sz x)
    (p_pagetable x) (p_trapframe x) (p_context x) (p_ofile x) (p_cwd x) (p_name x) (p_nice x)
    (p_quanta x) (p_queue x).
Definition set_p_chan (v : option chan) (x : proc) : proc :=
  Proc (p_state x) v (p_killed x) (p_xstate x) (p_pid x) (p_parent x) (p_kstack x) (p_sz x)
    (p_pagetable x) (p_trapframe x) (p_context x) (p_ofile x) (p_cwd x) (p_name x) (p_nice x)
    (p_quanta x) (p_queue x).
Definition set_p_killed (v : Z) (x : proc) : proc :=
  Proc (p_state x) (p_chan x) v (p_xstate x) (p_pid x) (p_parent x) (p_kstack x) (p_sz x)
    (p_pagetable x) (p_trapframe x) (p_context x) (p_ofile x) (p_cwd x) (p_name x) (p_nice x)
    (p_quanta x) (p_queue x).
Definition set_p_xstate (v : Z) (x : proc) : proc :=
  Proc (p_state x) (p_chan x) (p_killed x) v (p_pid x) (p_parent x) (p_kstack x) (p_sz x)
    (p_pagetable x) (p_trapframe x) (p_context x) (p_ofile x) (p_cwd x) (p_name x) (p_nice x)
    (p_quanta x) (p_queue x).
Definition set_p_pid (v : Z) (x : proc) : proc :=
  Proc (p_state x) (p_chan x) (p_killed x) (p_xstate x) v (p_parent x) (p_kstack x) (p_sz x)
    (p_pagetable x) (p_trapframe x) (p_context x) (p_ofile x) (p_cwd x) (p_name x) (p_nice x)
    (p_quanta x) (p_queue x).
Definition set_p_parent (v : option nat) (x : proc) : proc :=
  Proc (p_state x) (p_chan x) (p_killed x) (p_xstate x) (p_pid x) v (p_kstack x) (p_sz x)
    (p_pagetable x) (p_trapframe x) (p_context x) (p_ofile x) (p_cwd x) (p_name x) (p_nice x)
    (p_quanta x) (p_queue x).
Definition set_p_kstack (v : Z) (x : proc) : proc :=
  Proc (p_state x) (p_chan x) (p_killed x) (p_xstate x) (p_pid x) (p_parent x) v (p_sz x)
    (p_pagetable x) (p_trapframe x) (p_context x) (p_ofile x) (p_cwd x) (p_name x) (p_nice x)
    (p_quanta x) (p_queue x).
Definition set_p_sz (v : Z) (x : proc) : proc :=
  Proc (p_state x) (p_chan x) (p_killed x) (p_xstate x) (p_pid x) (p_parent x) (p_kstack x) v
    (p_pagetable x) (p_trapframe x) (p_context x) (p_ofile x) (p_cwd x) (p_name x) (p_nice x)
    (p_quanta x) (p_queue x).
Definition set_p_pagetable (v : Z) (x : proc) : proc :=
  Proc (p_state x) (p_chan x) (p_killed x) (p_xstate x) (p_pid x) (p_parent x) (p_kstack x) (p_sz x)
    v (p_trapframe x) (p_context x) (p_ofile x) (p_cwd x) (p_name x) (p_nice x) (p_quanta x)
    (p_queue x).
Definition set_p_trapframe (v : Z) (x : proc) : proc :=
  Proc (p_state x) (p_chan x) (p_killed x) (p_xstate x) (p_pid x) (p_parent x) (p_kstack x) (p_sz x)
    (p_pagetable x) v (p_context x) (p_ofile x) (p_cwd x) (p_name x) (p_nice x) (p_quanta x)
    (p_queue x).
Definition set_p_context (v : context) (x : proc) : proc :=
  Proc (p_state x) (p_chan x) (p_killed x) (p_xstate x) (p_pid x) (p_parent x) (p_kstack x) (p_sz x)
    (p_pagetable x) (p_trapframe x) v (p_ofile x) (p_cwd x) (p_name x) (p_nice x) (p_quanta x)
    (p_queue x).
Definition set_p_ofile (v : list (option nat)) (x : proc) : proc :=
  Proc (p_state x) (p_chan x) (p_killed x) (p_xstate x) (p_pid x) (p_parent x) (p_kstack x) (p_sz x)
    (p_pagetable x) (p_trapframe x) (p_context x) v (p_cwd x) (p_name x) (p_nice x) (p_quanta x)
    (p_queue x).
Definition set_p_cwd (v : option nat) (x : proc) : proc :=
  Proc (p_state x) (p_chan x) (p_killed x) (p_xstate x) (p_pid x) (p_parent x) (p_kstack x) (p_sz x)
    (p_pagetable x) (p_trapframe x) (p_context x) (p_ofile x) v (p_name x) (p_nice x) (p_quanta x)
    (p_queue x).
Definition set_p_name (v : list Z) (x : proc) : proc :=
  Proc (p_state x) (p_chan x) (p_killed x) (p_xstate x) (p_pid x) (p_parent x) (p_kstack x) (p_sz x)
    (p_pagetable x) (p_trapframe x) (p_context x) (p_ofile x) (p_cwd x) v (p_nice x) (p_quanta x)
    (p_queue x).
Definition set_p_nice (v : Z) (x : proc) : proc :=
  Proc (p_state x) (p_chan x) (p_killed x) (p_xstate x) (p_pid x) (p_parent x) (p_kstack x) (p_sz x)
    (p_pagetable x) (p_trapframe x) (p_context x) (p_ofile x) (p_cwd x) (p_name x) v (p_quanta x)
    (p_queue x).
Definition set_p_quanta (v : Z) (x : proc) : proc :=
  Proc (p_state x) (p_chan x) (p_killed x) (p_xstate x) (p_pid x) (p_parent x) (p_kstack x) (p_sz x)
    (p_pagetable x) (p_trapframe x) (p_context x) (p_ofile x) (p_cwd x) (p_name x) (p_nice x) v
    (p_queue x).
Definition set_p_queue (v : Z) (x : proc) : proc :=
  Proc (p_state x) (p_chan x) (p_killed x) (p_xstate x) (p_pid x) (p_parent x) (p_kstack x) (p_sz x)
    (p_pagetable x) (p_trapframe x) (p_context x) (p_ofile x) (p_cwd x) (p_name x) (p_nice x)
    (p_quanta x) v.

Definition proc_zero : proc :=
  Proc UNUSED None 0 0 0 None 0 0 0 0 context_zero (replicate NOFILE None) None
    (replicate 16 0) 0 0 0.

(** [struct logentry]. *)
Record logentry := LogEntry {
  le_pid : Z;
  le_time : Z
}.

(** [struct qentry]: a node of the run queues. *)
Record qentry := QEntry {
  q_queue : Z;
  q_prev : Z;
  q_next : Z
}.

Definition set_q_queue (v : Z) (x : qentry) : qentry :=
  QEntry v (q_prev x) (q_next x).
Definition set_q_prev (v : Z) (x : qentry) : qentry :=
  QEntry (q_queue x) v (q_next x).
Definition set_q_next (v : Z) (x : qentry) : qentry :=
  QEntry (q_queue x) (q_prev x) v.

(** The globals of proc.c. *)
Record psched := PSched {
  ps_proc : list proc;
  ps_initproc : option nat;
  ps_nextpid : Z;
  ps_schedlog : list logentry;
  ps_time : Z;
  ps_is_logging : Z;
  ps_num_logged : Z;
  ps_isQueueSetup : Z;
  ps_timeSincePriorityBoost : Z;
  ps_qtable : list qentry;
  ps_first : Z   (* static of forkret *)
}.

Definition set_ps_proc (v : list proc) (x : psched) : psched :=
  PSched v (ps_initproc x) (ps_nextpid x) (ps_schedlog x) (ps_time x) (ps_is_logging x)
    (ps_num_logged x) (ps_isQueueSetup x) (ps_timeSincePriorityBoost x) (ps_qtable x) (ps_first x).
Definition set_ps_initproc (v : option nat) (x : psched) : psched :=
  PSched (ps_proc x) v (ps_nextpid x) (ps_schedlog x) (ps_time x) (ps_is_logging x) (ps_num_logged
    x) (ps_isQueueSetup x) (ps_timeSincePriorityBoost x) (ps_qtable x) (ps_first x).
Definition set_ps_nextpid (v : Z) (x : psched) : psched :=
  PSched (ps_proc x) (ps_initproc x) v (ps_schedlog x) (ps_time x) (ps_is_logging x) (ps_num_logged
    x) (ps_isQueueSetup x) (ps_timeSincePriorityBoost x) (ps_qtable x) (ps_first x).
Definition set_ps_schedlog (v : list logentry) (x : psched) : psched :=
  PSched (ps_proc x) (ps_initproc x) (ps_nextpid x) v (ps_time x) (ps_is_logging x) (ps_num_logged
    x) (ps_isQueueSetup x) (ps_timeSincePriorityBoost x) (ps_qtable x) (ps_first x).
Definition set_ps_time (v : Z) (x : psched) : psched :=
  PSched (ps_proc x) (ps_initproc x) (ps_nextpid x) (ps_schedlog x) v (ps_is_logging x)
    (ps_num_logged x) (ps_isQueueSetup x) (ps_timeSincePriorityBoost x) (ps_qtable x) (ps_first x).
Definition set_ps_is_logging (v : Z) (x : psched) : psched :=
  PSched (ps_proc x) (ps_initproc x) (ps_nextpid x) (ps_schedlog x) (ps_time x) v (ps_num_logged x)
    (ps_isQueueSetup x) (ps_timeSincePriorityBoost x) (ps_qtable x) (ps_first x).
Definition set_ps_num_logged (v : Z) (x : psched) : psched :=
  PSched (ps_proc x) (ps_initproc x) (ps_nextpid x) (ps_schedlog x) (ps_time x) (ps_is_logging x) v
    (ps_isQueueSetup x) (ps_timeSincePriorityBoost x) (ps_qtable x) (ps_first x).
Definition set_ps_isQueueSetup (v : Z) (x : psched) : psched :=
  PSched (ps_proc x) (ps_initproc x) (ps_nextpid x) (ps_schedlog x) (ps_time x) (ps_is_logging x)
    (ps_num_logged x) v (ps_timeSincePriorityBoost x) (ps_qtable x) (ps_first x).
Definition set_ps_timeSincePriorityBoost (v : Z) (x : psched) : psched :=
  PSched (ps_proc x) (ps_initproc x) (ps_nextpid x) (ps_schedlog x) (ps_time x) (ps_is_logging x)
    (ps_num_logged x) (ps_isQueueSetup x) v (ps_qtable x) (ps_first x).
Definition set_ps_qtable (v : list qentry) (x : psched) : psched :=
  PSched (ps_proc x) (ps_initproc x) (ps_nextpid x) (ps_schedlog x) (ps_time x) (ps_is_logging x)
    (ps_num_logged x) (ps_isQueueSetup x) (ps_timeSincePriorityBoost x) v (ps_first x).
Definition set_ps_first (v : Z) (x : psched) : psched :=
  PSched (ps_proc x) (ps_initproc x) (ps_nextpid x) (ps_schedlog x) (ps_time x) (ps_is_logging x)
    (ps_num_logged x) (ps_isQueueSetup x) (ps_timeSincePriorityBoost x) (ps_qtable x) v.

(** ** Physical memory (kalloc.c) *)

(** The allocator and the memory it manages, and the globals of vm.c. *)
Record physmem := PhysMem {
  pm_freelist : Z;   (* kmem.freelist, 0 for null *)
  pm_mem : Z -> Z;   (* bytes *)
  pm_end : Z;   (* linker symbol end *)
  pm_tf : gmap Z trapframe;   (* trapframe pages *)
  pm_kernel_pagetable : Z;   (* global of vm.c *)
  pm_etext : Z;   (* linker symbol etext *)
  pm_trampoline : Z   (* linker symbol trampoline *)
}.

Definition set_pm_freelist (v : Z) (x : physmem) : physmem :=
  PhysMem v (pm_mem x) (pm_end x) (pm_tf x) (pm_kernel_pagetable x) (pm_etext x) (pm_trampoline x).
Definition set_pm_mem (v : Z -> Z) (x : physmem) : physmem :=
  PhysMem (pm_freelist x) v (pm_end x) (pm_tf x) (pm_kernel_pagetable x) (pm_etext x) (pm_trampoline
    x).
Definition set_pm_end (v : Z) (x : physmem) : physmem :=
  PhysMem (pm_freelist x) (pm_mem x) v (pm_tf x) (pm_kernel_pagetable x) (pm_etext x) (pm_trampoline
    x).
Definition set_pm_tf (v : gmap Z trapframe) (x : physmem) : physmem :=
  PhysMem (pm_freelist x) (pm_mem x) (pm_end x) v (pm_kernel_pagetable x) (pm_etext x)
    (pm_trampoline x).
Definition set_pm_kernel_pagetable (v : Z) (x : physmem) : physmem :=
  PhysMem (pm_freelist x) (pm_mem x) (pm_end x) (pm_tf x) v (pm_etext x) (pm_trampoline x).
Definition set_pm_etext (v : Z) (x : physmem) : physmem :=
  PhysMem (pm_freelist x) (pm_mem x) (pm_end x) (pm_tf x) (pm_kernel_pagetable x) v (pm_trampoline
    x).
Definition set_pm_trampoline (v : Z) (x : physmem) : physmem :=
  PhysMem (pm_freelist x) (pm_mem x) (pm_end x) (pm_tf x) (pm_kernel_pagetable x) (pm_etext x) v.

(** ** Files, pipes, buffers, log, inodes *)

(** [struct pipe]; its lock is [L_pipe]. *)
Record pipe := Pipe {
  pi_data : list Z;
  pi_nread : Z;
  pi_nwrite : Z;
  pi_readopen : Z;
  pi_writeopen : Z
}.

Definition set_pi_data (v : list Z) (x : pipe) : pipe :=
  Pipe v (pi_nread x) (pi_nwrite x) (pi_readopen x) (pi_writeopen x).
Definition set_pi_nread (v : Z) (x : pipe) : pipe :=
  Pipe (pi_data x) v (pi_nwrite x) (pi_readopen x) (pi_writeopen x).
Definition set_pi_nwrite (v : Z) (x : pipe) : pipe :=
  Pipe (pi_data x) (pi_nread x) v (pi_readopen x) (pi_writeopen x).
Definition set_pi_readopen (v : Z) (x : pipe) : pipe :=
  Pipe (pi_data x) (pi_nread x) (pi_nwrite x) v (pi_writeopen x).
Definition set_pi_writeopen (v : Z) (x : pipe) : pipe :=
  Pipe (pi_data x) (pi_nread x) (pi_nwrite x) (pi_readopen x) v.

Inductive filetype := FD_NONE | FD_PIPE | FD_INODE | FD_DEVICE.
#[export] Instance filetype_eq_dec : EqDecision filetype.
Proof. solve_decision. Defined.

(** [struct file]. *)
Record file := File {
  f_type : filetype;
  f_ref : Z;
  f_readable : Z;
  f_writable : Z;
  f_pipe : Z;
  f_ip : option nat;
  f_off : Z;
  f_major : Z
}.

Definition set_f_type (v : filetype) (x : file) : file :=
  File v (f_ref x) (f_readable x) (f_writable x) (f_pipe x) (f_ip x) (f_off x) (f_major x).
Definition set_f_ref (v : Z) (x : file) : file :=
  File (f_type x) v (f_readable x) (f_writable x) (f_pipe x) (f_ip x) (f_off x) (f_major x).
Definition set_f_readable (v : Z) (x : file) : file :=
  File (f_type x) (f_ref x) v (f_writable x) (f_pipe x) (f_ip x) (f_off x) (f_major x).
Definition set_f_writable (v : Z) (x : file) : file :=
  File (f_type x) (f_ref x) (f_readable x) v (f_pipe x) (f_ip x) (f_off x) (f_major x).
Definition set_f_pipe (v : Z) (x : file) : file :=
  File (f_type x) (f_ref x) (f_readable x) (f_writable x) v (f_ip x) (f_off x) (f_major x).
Definition set_f_ip (v : option nat) (x : file) : file :=
  File (f_type x) (f_ref x) (f_readable x) (f_writable x) (f_pipe x) v (f_off x) (f_major x).
Definition set_f_off (v : Z) (x : file) : file :=
  File (f_type x) (f_ref x) (f_readable x) (f_writable x) (f_pipe x) (f_ip x) v (f_major x).
Definition set_f_major (v : Z) (x : file) : file :=
  File (f_type x) (f_ref x) (f_readable x) (f_writable x) (f_pipe x) (f_ip x) (f_off x) v.

Definition file_zero : file := File FD_NONE 0 0 0 0 None 0 0.

(** [struct sleeplock]; its spinlock [lk] is [L_sleep]. *)
Record sleeplock := SleepLock {
  sl_locked : Z;
  sl_pid : Z
}.

(** [struct buf]; [prev] and [next] are indices into the cache, the list head is index [NBUF]. *)
Record buf := Buf {
  b_valid : Z;
  b_disk : Z;
  b_dev : Z;
  b_blockno : Z;
  b_refcnt : Z;
  b_prev : nat;
  b_next : nat;
  b_data : list Z
}.

Definition set_b_valid (v : Z) (x : buf) : buf :=
  Buf v (b_disk x) (b_dev x) (b_blockno x) (b_refcnt x) (b_prev x) (b_next x) (b_data x).
Definition set_b_disk (v : Z) (x : buf) : buf :=
  Buf (b_valid x) v (b_dev x) (b_blockno x) (b_refcnt x) (b_prev x) (b_next x) (b_data x).
Definition set_b_dev (v : Z) (x : buf) : buf :=
  Buf (b_valid x) (b_disk x) v (b_blockno x) (b_refcnt x) (b_prev x) (b_next x) (b_data x).
Definition set_b_blockno (v : Z) (x : buf) : buf :=
  Buf (b_valid x) (b_disk x) (b_dev x) v (b_refcnt x) (b_prev x) (b_next x) (b_data x).
Definition set_b_refcnt (v : Z) (x : buf) : buf :=
  Buf (b_valid x) (b_disk x) (b_dev x) (b_blockno x) v (b_prev x) (b_next x) (b_data x).
Definition set_b_prev (v : nat) (x : buf) : buf :=
  Buf (b_valid x) (b_disk x) (b_dev x) (b_blockno x) (b_refcnt x) v (b_next x) (b_data x).
Definition set_b_next (v : nat) (x : buf) : buf :=
  Buf (b_valid x) (b_disk x) (b_dev x) (b_blockno x) (b_refcnt x) (b_prev x) v (b_data x).
Definition set_b_data (v : list Z) (x : buf) : buf :=
  Buf (b_valid x) (b_disk x) (b_dev x) (b_blockno x) (b_refcnt x) (b_prev x) (b_next x) v.

Definition buf_zero : buf := Buf 0 0 0 0 0 0 0 (replicate (Z.to_nat BSIZE) 0).

(** [struct log] with its [struct logheader lh]. *)
Record log := Log {
  log_start : Z;
  log_size : Z;
  log_outstanding : Z;
  log_committing : Z;
  log_dev : Z;
  lh_n : Z;
  lh_block : list Z
}.

Definition set_log_start (v : Z) (x : log) : log :=
  Log v (log_size x) (log_outstanding x) (log_committing x) (log_dev x) (lh_n x) (lh_block x).
Definition set_log_size (v : Z) (x : log) : log :=
  Log (log_start x) v (log_outstanding x) (log_committing x) (log_dev x) (lh_n x) (lh_block x).
Definition set_log_outstanding (v : Z) (x : log) : log :=
  Log (log_start x) (log_size x) v (log_committing x) (log_dev x) (lh_n x) (lh_block x).
Definition set_log_committing (v : Z) (x : log) : log :=
  Log (log_start x) (log_size x) (log_outstanding x) v (log_dev x) (lh_n x) (lh_block x).
Definition set_log_dev (v : Z) (x : log) : log :=
  Log (log_start x) (log_size x) (log_outstanding x) (log_committing x) v (lh_n x) (lh_block x).
Definition set_lh_n (v : Z) (x : log) : log :=
  Log (log_start x) (log_size x) (log_outstanding x) (log_committing x) (log_dev x) v (lh_block x).
Definition set_lh_block (v : list Z) (x : log) : log :=
  Log (log_start x) (log_size x) (log_outstanding x) (log_committing x) (log_dev x) (lh_n x) v.

(** [struct superblock]. *)
Record superblock := SuperBlock {
  sb_magic : Z;
  sb_size : Z;
  sb_nblocks : Z;
  sb_ninodes : Z;
  sb_nlog : Z;
  sb_logstart : Z;
  sb_inodestart : Z;
  sb_bmapstart : Z
}.

(** [struct inode]; the sleep-lock of slot [i] is [SL_inode i]. *)
Record inode := Inode {
  i_dev : Z;
  i_inum : Z;
  i_ref : Z;
  i_valid : Z;
  i_type : Z;
  i_major : Z;
  i_minor : Z;
  i_nlink : Z;
  i_size : Z;
  i_addrs : list Z
}.

Definition set_i_dev (v : Z) (x : inode) : inode :=
  Inode v (i_inum x) (i_ref x) (i_valid x) (i_type x) (i_major x) (i_minor x) (i_nlink x) (i_size x)
    (i_addrs x).
Definition set_i_inum (v : Z) (x : inode) : inode :=
  Inode (i_dev x) v (i_ref x) (i_valid x) (i_type x) (i_major x) (i_minor x) (i_nlink x) (i_size x)
    (i_addrs x).
Definition set_i_ref (v : Z) (x : inode) : inode :=
  Inode (i_dev x) (i_inum x) v (i_valid x) (i_type x) (i_major x) (i_minor x) (i_nlink x) (i_size x)
    (i_addrs x).
Definition set_i_valid (v : Z) (x : inode) : inode :=
  Inode (i_dev x) (i_inum x) (i_ref x) v (i_type x) (i_major x) (i_minor x) (i_nlink x) (i_size x)
    (i_addrs x).
Definition set_i_type (v : Z) (x : inode) : inode :=
  Inode (i_dev x) (i_inum x) (i_ref x) (i_valid x) v (i_major x) (i_minor x) (i_nlink x) (i_size x)
    (i_addrs x).
Definition set_i_major (v : Z) (x : inode) : inode :=
  Inode (i_dev x) (i_inum x) (i_ref x) (i_valid x) (i_type x) v (i_minor x) (i_nlink x) (i_size x)
    (i_addrs x).
Definition set_i_minor (v : Z) (x : inode) : inode :=
  Inode (i_dev x) (i_inum x) (i_ref x) (i_valid x) (i_type x) (i_major x) v (i_nlink x) (i_size x)
    (i_addrs x).
Definition set_i_nlink (v : Z) (x : inode) : inode :=
  Inode (i_dev x) (i_inum x) (i_ref x) (i_valid x) (i_type x) (i_major x) (i_minor x) v (i_size x)
    (i_addrs x).
Definition set_i_size (v : Z) (x : inode) : inode :=
  Inode (i_dev x) (i_inum x) (i_ref x) (i_valid x) (i_type x) (i_major x) (i_minor x) (i_nlink x) v
    (i_addrs x).
Definition set_i_addrs (v : list Z) (x : inode) : inode :=
  Inode (i_dev x) (i_inum x) (i_ref x) (i_valid x) (i_type x) (i_major x) (i_minor x) (i_nlink x)
    (i_size x) v.

Definition inode_zero : inode := Inode 0 0 0 0 0 0 0 0 0 (replicate 13 0).

(** The storage stack. *)
Record fsstate := FsState {
  fs_bufs : list buf;   (* bcache.buf and, last, bcache.head *)
  fs_disk : Z -> list Z;   (* blocks on the disk *)
  fs_log : log;
  fs_sb : superblock;
  fs_itable : list inode;
  fs_sl : slid -> sleeplock;   (* sleep-locks of buffers and inodes *)
  fs_writes : list (Z * list Z)   (* blocks written to the disk, newest first; auxiliary *)
}.

Definition set_fs_bufs (v : list buf) (x : fsstate) : fsstate :=
  FsState v (fs_disk x) (fs_log x) (fs_sb x) (fs_itable x) (fs_sl x) (fs_writes x).
Definition set_fs_disk (v : Z -> list Z) (x : fsstate) : fsstate :=
  FsState (fs_bufs x) v (fs_log x) (fs_sb x) (fs_itable x) (fs_sl x) (fs_writes x).
Definition set_fs_log (v : log) (x : fsstate) : fsstate :=
  FsState (fs_bufs x) (fs_disk x) v (fs_sb x) (fs_itable x) (fs_sl x) (fs_writes x).
Definition set_fs_sb (v : superblock) (x : fsstate) : fsstate :=
  FsState (fs_bufs x) (fs_disk x) (fs_log x) v (fs_itable x) (fs_sl x) (fs_writes x).
Definition set_fs_itable (v : list inode) (x : fsstate) : fsstate :=
  FsState (fs_bufs x) (fs_disk x) (fs_log x) (fs_sb x) v (fs_sl x) (fs_writes x).
Definition set_fs_sl (v : slid -> sleeplock) (x : fsstate) : fsstate :=
  FsState (fs_bufs x) (fs_disk x) (fs_log x) (fs_sb x) (fs_itable x) v (fs_writes x).
Definition set_fs_writes (v : list (Z * list Z)) (x : fsstate) : fsstate :=
  FsState (fs_bufs x) (fs_disk x) (fs_log x) (fs_sb x) (fs_itable x) (fs_sl x) v.

(** ** Devices (console.c, uart.c, trap.c, printf.c) *)

(** The console input buffer. *)
Record cons := Cons {
  cons_buf : list Z;
  cons_r : Z;
  cons_w : Z;
  cons_e : Z
}.

Definition set_cons_buf (v : list Z) (x : cons) : cons :=
  Cons v (cons_r x) (cons_w x) (cons_e x).
Definition set_cons_r (v : Z) (x : cons) : cons :=
  Cons (cons_buf x) v (cons_w x) (cons_e x).
Definition set_cons_w (v : Z) (x : cons) : cons :=
  Cons (cons_buf x) (cons_r x) v (cons_e x).
Definition set_cons_e (v : Z) (x : cons) : cons :=
  Cons (cons_buf x) (cons_r x) (cons_w x) v.

(** The transmit buffer of uart.c. *)
Record uart := Uart {
  uart_tx_buf : list Z;
  uart_tx_w : Z;
  uart_tx_r : Z
}.

Definition set_uart_tx_buf (v : list Z) (x : uart) : uart :=
  Uart v (uart_tx_w x) (uart_tx_r x).
Definition set_uart_tx_w (v : Z) (x : uart) : uart :=
  Uart (uart_tx_buf x) v (uart_tx_r x).
Definition set_uart_tx_r (v : Z) (x : uart) : uart :=
  Uart (uart_tx_buf x) (uart_tx_w x) v.

(** Supervisor registers of the CPU used by trap.c and vm.c. *)
Record csrs := Csrs {
  csr_satp : Z;
  csr_stvec : Z;
  csr_sepc : Z;
  csr_scause : Z;
  csr_stval : Z;
  csr_sstatus : Z;
  csr_tp : Z;   (* the hart id *)
  csr_sip : Z
}.

Definition set_csr_satp (v : Z) (x : csrs) : csrs :=
  Csrs v (csr_stvec x) (csr_sepc x) (csr_scause x) (csr_stval x) (csr_sstatus x) (csr_tp x) (csr_sip
    x).
Definition set_csr_stvec (v : Z) (x : csrs) : csrs :=
  Csrs (csr_satp x) v (csr_sepc x) (csr_scause x) (csr_stval x) (csr_sstatus x) (csr_tp x) (csr_sip
    x).
Definition set_csr_sepc (v : Z) (x : csrs) : csrs :=
  Csrs (csr_satp x) (csr_stvec x) v (csr_scause x) (csr_stval x) (csr_sstatus x) (csr_tp x) (csr_sip
    x).
Definition set_csr_scause (v : Z) (x : csrs) : csrs :=
  Csrs (csr_satp x) (csr_stvec x) (csr_sepc x) v (csr_stval x) (csr_sstatus x) (csr_tp x) (csr_sip
    x).
Definition set_csr_stval (v : Z) (x : csrs) : csrs :=
  Csrs (csr_satp x) (csr_stvec x) (csr_sepc x) (csr_scause x) v (csr_sstatus x) (csr_tp x) (csr_sip
    x).
Definition set_csr_sstatus (v : Z) (x : csrs) : csrs :=
  Csrs (csr_satp x) (csr_stvec x) (csr_sepc x) (csr_scause x) (csr_stval x) v (csr_tp x) (csr_sip
    x).
Definition set_csr_tp (v : Z) (x : csrs) : csrs :=
  Csrs (csr_satp x) (csr_stvec x) (csr_sepc x) (csr_scause x) (csr_stval x) (csr_sstatus x) v
    (csr_sip x).
Definition set_csr_sip (v : Z) (x : csrs) : csrs :=
  Csrs (csr_satp x) (csr_stvec x) (csr_sepc x) (csr_scause x) (csr_stval x) (csr_sstatus x) (csr_tp
    x) v.

(** Device registers and the flags of printf.c. *)
Record devs := Devs {
  dv_rx : list Z;   (* bytes received by the UART and not yet read *)
  dv_tx_idle : Z;   (* LSR_TX_IDLE of the UART *)
  dv_plic : list Z;   (* interrupts pending at the PLIC *)
  dv_completed : list Z;   (* interrupts completed *)
  dv_pr_locking : Z;   (* pr.locking of printf.c *)
  dv_panicked : Z   (* panicked of printf.c *)
}.

Definition set_dv_rx (v : list Z) (x : devs) : devs :=
  Devs v (dv_tx_idle x) (dv_plic x) (dv_completed x) (dv_pr_locking x) (dv_panicked x).
Definition set_dv_tx_idle (v : Z) (x : devs) : devs :=
  Devs (dv_rx x) v (dv_plic x) (dv_completed x) (dv_pr_locking x) (dv_panicked x).
Definition set_dv_plic (v : list Z) (x : devs) : devs :=
  Devs (dv_rx x) (dv_tx_idle x) v (dv_completed x) (dv_pr_locking x) (dv_panicked x).
Definition set_dv_completed (v : list Z) (x : devs) : devs :=
  Devs (dv_rx x) (dv_tx_idle x) (dv_plic x) v (dv_pr_locking x) (dv_panicked x).
Definition set_dv_pr_locking (v : Z) (x : devs) : devs :=
  Devs (dv_rx x) (dv_tx_idle x) (dv_plic x) (dv_completed x) v (dv_panicked x).
Definition set_dv_panicked (v : Z) (x : devs) : devs :=
  Devs (dv_rx x) (dv_tx_idle x) (dv_plic x) (dv_completed x) (dv_pr_locking x) v.

(** ** The kernel *)

(** The state seen by a process executing in the kernel on one CPU. *)
Record kst := Kst {
  k_held : list lockid;   (* spinlocks held by this CPU *)
  k_cur : option nat;   (* mycpu()->proc *)
  k_ps : psched;
  k_pm : physmem;
  k_pipes : gmap Z pipe;
  k_files : list file;   (* ftable.file *)
  k_fs : fsstate;
  k_cons : cons;
  k_uart : uart;
  k_ticks : Z;
  k_thr : list Z;   (* bytes written to the UART THR *)
  k_csr : csrs;
  k_dev : devs
}.

Definition set_k_held (v : list lockid) (x : kst) : kst :=
  Kst v (k_cur x) (k_ps x) (k_pm x) (k_pipes x) (k_files x) (k_fs x) (k_cons x) (k_uart x) (k_ticks
    x) (k_thr x) (k_csr x) (k_dev x).
Definition set_k_cur (v : option nat) (x : kst) : kst :=
  Kst (k_held x) v (k_ps x) (k_pm x) (k_pipes x) (k_files x) (k_fs x) (k_cons x) (k_uart x) (k_ticks
    x) (k_thr x) (k_csr x) (k_dev x).
Definition set_k_ps (v : psched) (x : kst) : kst :=
  Kst (k_held x) (k_cur x) v (k_pm x) (k_pipes x) (k_files x) (k_fs x) (k_cons x) (k_uart x)
    (k_ticks x) (k_thr x) (k_csr x) (k_dev x).
Definition set_k_pm (v : physmem) (x : kst) : kst :=
  Kst (k_held x) (k_cur x) (k_ps x) v (k_pipes x) (k_files x) (k_fs x) (k_cons x) (k_uart x)
    (k_ticks x) (k_thr x) (k_csr x) (k_dev x).
Definition set_k_pipes (v : gmap Z pipe) (x : kst) : kst :=
  Kst (k_held x) (k_cur x) (k_ps x) (k_pm x) v (k_files x) (k_fs x) (k_cons x) (k_uart x) (k_ticks
    x) (k_thr x) (k_csr x) (k_dev x).
Definition set_k_files (v : list file) (x : kst) : kst :=
  Kst (k_held x) (k_cur x) (k_ps x) (k_pm x) (k_pipes x) v (k_fs x) (k_cons x) (k_uart x) (k_ticks
    x) (k_thr x) (k_csr x) (k_dev x).
Definition set_k_fs (v : fsstate) (x : kst) : kst :=
  Kst (k_held x) (k_cur x) (k_ps x) (k_pm x) (k_pipes x) (k_files x) v (k_cons x) (k_uart x)
    (k_ticks x) (k_thr x) (k_csr x) (k_dev x).
Definition set_k_cons (v : cons) (x : kst) : kst :=
  Kst (k_held x) (k_cur x) (k_ps x) (k_pm x) (k_pipes x) (k_files x) (k_fs x) v (k_uart x) (k_ticks
    x) (k_thr x) (k_csr x) (k_dev x).
Definition set_k_uart (v : uart) (x : kst) : kst :=
  Kst (k_held x) (k_cur x) (k_ps x) (k_pm x) (k_pipes x) (k_files x) (k_fs x) (k_cons x) v (k_ticks
    x) (k_thr x) (k_csr x) (k_dev x).
Definition set_k_ticks (v : Z) (x : kst) : kst :=
  Kst (k_held x) (k_cur x) (k_ps x) (k_pm x) (k_pipes x) (k_files x) (k_fs x) (k_cons x) (k_uart x)
    v (k_thr x) (k_csr x) (k_dev x).
Definition set_k_thr (v : list Z) (x : kst) : kst :=
  Kst (k_held x) (k_cur x) (k_ps x) (k_pm x) (k_pipes x) (k_files x) (k_fs x) (k_cons x) (k_uart x)
    (k_ticks x) v (k_csr x) (k_dev x).
Definition set_k_csr (v : csrs) (x : kst) : kst :=
  Kst (k_held x) (k_cur x) (k_ps x) (k_pm x) (k_pipes x) (k_files x) (k_fs x) (k_cons x) (k_uart x)
    (k_ticks x) (k_thr x) v (k_dev x).
Definition set_k_dev (v : devs) (x : kst) : kst :=
  Kst (k_held x) (k_cur x) (k_ps x) (k_pm x) (k_pipes x) (k_files x) (k_fs x) (k_cons x) (k_uart x)
    (k_ticks x) (k_thr x) (k_csr x) v.
