(* ===== verification/Dll.v ===== *)
(** * Dll: circular doubly linked lists

    Nodes linked by a successor and a predecessor function between two
    sentinels, as in the run queues (Mlfq) and in the buffer cache (Bio). *)

From S2P Require Import Prelude.

Section dll.
Context {A : Type} (nxt prv : A -> A).

(** The nodes [l] are linked in both directions between [a] and [b]. *)
Fixpoint dll (a : A) (l : list A) (b : A) : Prop :=
  match l with
  | [] => nxt a = b /\ prv b = a
  | x :: l' => (nxt a = x /\ prv x = a) /\ dll x l' b
  end.
End dll.

(** ** Lemmas on linked lists *)

Lemma dll_app {A : Type} (n p : A -> A) a l1 x l2 b :
  dll n p a (l1 ++ x :: l2) b <-> dll n p a l1 x /\ dll n p x l2 b.
Proof.
  revert a. induction l1 as [|y l1 IH]; intros a; simpl; [naive_solver|].
  rewrite IH. naive_solver.
Qed.

Lemma dll_frame {A : Type} (n p n' p' : A -> A) a l b :
  (forall y, y ∈ a :: l -> n' y = n y) -> (forall y, y ∈ l ++ [b] -> p' y = p y) ->
  dll n p a l b -> dll n' p' a l b.
Proof.
  revert a. induction l as [|y l IH]; intros a Hn Hp; simpl.
  - rewrite Hn, Hp by set_solver. done.
  - intros [[? ?] Hd]. rewrite Hn, Hp by set_solver. split; [done|].
    apply IH; [set_solver.. | done].
Qed.

(** Linking [x] in front of the end [b]. *)
Lemma dll_link {A : Type} (n p n' p' : A -> A) a l b x :
  dll n p a l b -> NoDup (a :: l ++ [b]) -> x ∉ a :: l ++ [b] ->
  n' (p b) = x -> n' x = b -> p' x = p b -> p' b = x ->
  (forall y, y ∈ a :: l -> y <> p b -> n' y = n y) ->
  (forall y, y ∈ l -> p' y = p y) ->
  dll n' p' a (l ++ [x]) b.
Proof.
  intros Hd Hnd Hx Hu Hxb Hpx Hpb Hn Hp. apply dll_app. split; [|done].
  destruct l as [|y l _] using rev_ind.
  { simpl in *. destruct Hd as [_ Hd]. by rewrite Hd in *. }
  apply dll_app in Hd as [Hd [_ Hl]]. rewrite Hl in *.
  apply dll_app. split; [|done].
  apply NoDup_cons in Hnd as [Ha Hnd]. rewrite <- app_assoc in Hnd.
  apply NoDup_app in Hnd as (_ & Hl1 & Hnd). simpl in *.
  eapply dll_frame; [| |exact Hd].
  - intros z Hz. apply Hn; set_solver.
  - intros z Hz. apply Hp. set_solver.
Qed.

(** Unlinking [x]. *)
Lemma dll_unlink {A : Type} (n p n' p' : A -> A) a l1 x l2 b :
  dll n p a (l1 ++ x :: l2) b -> NoDup (a :: l1 ++ x :: l2) -> NoDup ((l1 ++ x :: l2) ++ [b]) ->
  n' (p x) = n x -> p' (n x) = p x ->
  (forall y, y ∈ a :: l1 ++ l2 -> y <> p x -> n' y = n y) ->
  (forall y, y ∈ l1 ++ l2 ++ [b] -> y <> n x -> p' y = p y) ->
  dll n' p' a (l1 ++ l2) b.
Proof.
  intros [Hd1 Hd2]%dll_app [HaL _]%NoDup_cons Hnd Hu Hv Hn Hp.
  assert (forall c, dll n p a l1 x -> x ∉ a :: l1 -> NoDup (a :: l1) ->
            n x ∉ l1 -> c = n x -> dll n' p' a l1 c) as H1.
  { intros c Hd Hx Hnd1 Hnx ->.
    destruct l1 as [|y l1 _] using rev_ind.
    - simpl in *. destruct Hd as [_ Hd]. rewrite Hd in *. done.
    - apply dll_app in Hd as [Hd [_ Hl]]. rewrite Hl in *.
      apply dll_app. split; [|done].
      apply NoDup_cons in Hnd1 as [Ha Hnd1]. apply NoDup_app in Hnd1 as (_ & Hl1 & _).
      eapply dll_frame; [| |exact Hd]; intros z Hz; [apply Hn | apply Hp]; set_solver. }
  rewrite <- app_assoc in Hnd. simpl in Hnd.
  pose proof Hnd as Hnd'. apply NoDup_app in Hnd' as (Hndl1 & Hl1 & Hnd2).
  apply NoDup_cons in Hnd2 as [Hx2 Hnd2].
  assert (n x ∈ l2 ++ [b]) as Hnx.
  { destruct l2; simpl in *; set_solver. }
  assert (dll n' p' a l1 (n x)) as Hd1'.
  { apply H1; try done; [set_solver| |set_solver].
    apply NoDup_cons. split; [set_solver|done]. }
  destruct l2 as [|y l2].
  - simpl in *. destruct Hd2 as [Hd2 _]. rewrite Hd2 in *. by rewrite app_nil_r.
  - simpl in Hd2. destruct Hd2 as [[Hny Hpy] Hd2]. rewrite Hny in *.
    apply dll_app. split; [done|].
    assert (p x ∈ a :: l1) as Hpx.
    { clear -Hd1. destruct l1 as [|z l1 _] using rev_ind; simpl in *.
      - destruct Hd1 as [_ ->]. set_solver.
      - apply dll_app in Hd1 as [_ [_ ->]]. set_solver. }
    apply NoDup_cons in Hnd2 as [Hy2 Hnd2].
    eapply dll_frame; [| |exact Hd2]; intros z Hz; [apply Hn | apply Hp]; set_solver.
Qed.

(** The value stored before the end is a node of the list. *)
Lemma dll_prev_end {A : Type} (n p : A -> A) a l b : dll n p a l b -> p b ∈ a :: l.
Proof.
  intros Hd. destruct l as [|z l _] using rev_ind; simpl in *.
  - destruct Hd as [_ ->]. set_solver.
  - apply dll_app in Hd as [_ [_ ->]]. set_solver.
Qed.

Lemma dll_next_start {A : Type} (n p : A -> A) a l b : dll n p a l b -> n a ∈ l ++ [b].
Proof. destruct l; simpl; naive_solver set_solver. Qed.

Lemma dll_neighbours {A : Type} (n p : A -> A) a l1 x l2 b : dll n p a (l1 ++ x :: l2) b ->
  p x ∈ a :: l1 /\ n x ∈ l2 ++ [b].
Proof. intros [?%dll_prev_end ?%dll_next_start]%dll_app. done. Qed.


(** Linking [x] behind the start [a]. *)
Lemma dll_link_front {A : Type} (n p n' p' : A -> A) a l b x :
  dll n p a l b -> x ∉ a :: l ++ [b] ->
  NoDup (a :: l) -> NoDup (l ++ [b]) ->
  n' a = x -> n' x = n a -> p' x = a -> p' (n a) = x ->
  (forall y, y ∈ l -> n' y = n y) ->
  (forall y, y ∈ l ++ [b] -> y <> n a -> p' y = p y) ->
  dll n' p' a (x :: l) b.
Proof.
  intros Hd Hx Hnd1 Hnd2 Ha Hxn Hpx Hpn Hn Hp. simpl. split; [done|].
  destruct l as [|y l]; simpl in *.
  - destruct Hd as [Hd _]. rewrite Hd in *. done.
  - destruct Hd as [[Hy _] Hd]. rewrite Hy in *. split; [done|].
    apply NoDup_cons in Hnd1 as [_ Hnd1]. apply NoDup_cons in Hnd1 as [Hyl _].
    apply NoDup_cons in Hnd2 as [Hyb _].
    eapply dll_frame; [| |exact Hd].
    + intros z Hz. apply Hn. set_solver.
    + intros z Hz. apply Hp; set_solver.
Qed.

(** The nodes before the end, read backwards, and after the start. *)
Lemma dll_start {A : Type} (n p : A -> A) a l b : dll n p a l b ->
  n a = match l with [] => b | x :: _ => x end.
Proof. destruct l; simpl; naive_solver. Qed.
Lemma dll_end {A : Type} (n p : A -> A) a l b : dll n p a l b ->
  p b = match rev l with [] => a | x :: _ => x end.
Proof.
  destruct l as [|y l _] using rev_ind; simpl; [naive_solver|].
  rewrite rev_app_distr. simpl. by intros [_ [_ ?]]%dll_app.
Qed.
