(* ===== verification/Mlfq.v ===== *)
(** * Mlfq: the run queues of the multilevel feedback queue

    Models [setupQueue], [enqueue], [removeFromQueue] and the choice made by
    [dequeue] of proc.c of [src/XV6 Multilevel feedback queue/]: three
    doubly linked lists threaded through the array [qtable], whose slots 0
    to 63 belong to the processes and whose slots 64 to 69 are the heads
    and tails of the queues.

    The specification is three FIFO queues of process indices; [qrep]
    relates a table to them. *)

From S2P Require Import Prelude.
From S2P Require Import State.
From S2P Require Import Dll.

Definition EMPTY : Z := u64 (-1).
Definition NUM_QUEUES : Z := 3.
Definition HEAD_Q0 : Z := 64.
Definition TAIL_Q0 : Z := 65.
Definition HEAD_Q1 : Z := 66.
Definition TAIL_Q1 : Z := 67.
Definition HEAD_Q2 : Z := 68.
Definition TAIL_Q2 : Z := 69.

Definition qentry_zero : qentry := QEntry 0 0 0.
Definition qget (t : list qentry) (i : Z) : qentry := aget qentry_zero t i.

(** Assignments [qtable[i].f = v]. *)
Definition set_queue (t : list qentry) (i v : Z) : list qentry := aupd (set_q_queue v) t i.
Definition set_prev (t : list qentry) (i v : Z) : list qentry := aupd (set_q_prev v) t i.
Definition set_next (t : list qentry) (i v : Z) : list qentry := aupd (set_q_next v) t i.

(** ** Operations *)

Definition setupQueue (t : list qentry) : list qentry :=
  let t := fold_left (fun t i => set_queue t (Z.of_nat i) EMPTY) (seq 0 NPROC) t in
  let t := set_queue t HEAD_Q0 0 in
  let t := set_next t HEAD_Q0 65 in
  let t := set_queue t TAIL_Q0 0 in
  let t := set_prev t TAIL_Q0 64 in
  let t := set_queue t HEAD_Q1 1 in
  let t := set_next t HEAD_Q1 67 in
  let t := set_queue t TAIL_Q1 1 in
  let t := set_prev t TAIL_Q1 66 in
  let t := set_queue t HEAD_Q2 2 in
  let t := set_next t HEAD_Q2 69 in
  let t := set_queue t TAIL_Q2 2 in
  set_prev t TAIL_Q2 68.

(** The queue an [enqueue] chooses and the quanta it leaves in [p]. *)
Definition queue_choice (p : proc) : Z * Z :=
  let '(queueToInsertTo, quanta) :=
    if 10 <? p_nice p then
      (0, if 0 <? p_queue p then 0 else p_quanta p)
    else if (p_nice p <=? 10) && (-10 <? p_nice p) then
      (1, if 1 <? p_queue p then 0 else p_quanta p)
    else (2, p_quanta p) in
  let '(queueToInsertTo, quanta) :=
    if (15 <? quanta) && (queueToInsertTo =? 0) then (queueToInsertTo + 1, 0)
    else if (10 <? quanta) && (queueToInsertTo =? 1) then (queueToInsertTo + 1, 0)
    else if (1 <? quanta) && (queueToInsertTo =? 2) then (queueToInsertTo, 0)
    else (queueToInsertTo, quanta) in
  let queueToInsertTo := if 2 <? queueToInsertTo then 2 else queueToInsertTo in
  (queueToInsertTo, quanta).

(** Insert [pindex] before the tail sentinel [TAIL] of queue [level]. *)
Definition link_tail (t : list qentry) (pindex level TAIL : Z) : list qentry :=
  let t := set_queue t pindex level in
  let oldTail := i32 (q_prev (qget t TAIL)) in
  let t := set_prev t pindex (u64 oldTail) in
  let t := set_next t pindex TAIL in
  let t := set_next t oldTail pindex in
  set_prev t TAIL pindex.

Definition enqueue (pindex : nat) (p : proc) (t : list qentry) : proc * list qentry :=
  let '(queueToInsertTo, quanta) := queue_choice p in
  let p := set_p_quanta quanta p in
  if queueToInsertTo =? 0 then
    (set_p_queue 0 p, link_tail t (Z.of_nat pindex) 0 TAIL_Q0)
  else if queueToInsertTo =? 1 then
    (set_p_queue 1 p, link_tail t (Z.of_nat pindex) 1 TAIL_Q1)
  else
    (set_p_queue 2 p, link_tail t (Z.of_nat pindex) 2 TAIL_Q2).

Definition removeFromQueue (pindex : nat) (t : list qentry) : list qentry :=
  let pindex := Z.of_nat pindex in
  let t := set_queue t pindex EMPTY in
  let oldPrev := i32 (q_prev (qget t pindex)) in
  let oldNext := i32 (q_next (qget t pindex)) in
  let t := set_next t oldPrev (u64 oldNext) in
  set_prev t oldNext (u64 oldPrev).

(** The process [dequeue] runs: the first of the first non-empty queue. *)
Definition dequeue_choice (t : list qentry) : option Z :=
  if negb (q_next (qget t HEAD_Q0) =? TAIL_Q0) then Some (q_next (qget t HEAD_Q0))
  else if negb (q_next (qget t HEAD_Q1) =? TAIL_Q1) then Some (q_next (qget t HEAD_Q1))
  else if negb (q_next (qget t HEAD_Q2) =? TAIL_Q2) then Some (q_next (qget t HEAD_Q2))
  else None.

(** ** Specification: three FIFO queues *)

Definition queues := Z -> list nat.
Definition qempty : queues := fun _ => [].
Definition qpush (k : Z) (x : nat) (Q : queues) : queues :=
  fun j => if j =? k then Q j ++ [x] else Q j.
Definition qremove (x : nat) (Q : queues) : queues :=
  fun j => filter (fun y => y <> x) (Q j).
Definition qin (x : nat) (Q : queues) : Prop := exists k, 0 <= k < NUM_QUEUES /\ x ∈ Q k.
(** The process to run next: strict priority, then FIFO. *)
Definition qfirst (Q : queues) : option nat :=
  match Q 0 with
  | x :: _ => Some x
  | [] => match Q 1 with
          | x :: _ => Some x
          | [] => match Q 2 with x :: _ => Some x | [] => None end
          end
  end.

(** A table represents three queues. *)
Record qrep (t : list qentry) (Q : queues) : Prop := {
  qr_len : length t = 70%nat;
  qr_dll : forall k, 0 <= k < NUM_QUEUES ->
    dll (fun i => q_next (qget t i)) (fun i => q_prev (qget t i))
        (HEAD_Q0 + 2 * k) (Z.of_nat <$> Q k) (TAIL_Q0 + 2 * k);
  qr_range : forall k x, 0 <= k < NUM_QUEUES -> x ∈ Q k -> (x < NPROC)%nat;
  qr_nodup : forall k, 0 <= k < NUM_QUEUES -> NoDup (Q k);
  qr_disj : forall j k x, 0 <= j < NUM_QUEUES -> 0 <= k < NUM_QUEUES ->
    x ∈ Q j -> x ∈ Q k -> j = k;
  qr_level : forall k x, 0 <= k < NUM_QUEUES -> x ∈ Q k -> q_queue (qget t (Z.of_nat x)) = k;
  qr_out : forall x, (x < NPROC)%nat -> ~ qin x Q -> q_queue (qget t (Z.of_nat x)) = EMPTY
}.

(** ** Fields of the table after an assignment *)

Section fields.
Context (t : list qentry) (i v : Z).
Hypothesis Hi : 0 <= i < Z.of_nat (length t).

Lemma next_set_next j : 0 <= j ->
  q_next (qget (set_next t i v) j) = if decide (i = j) then v else q_next (qget t j).
Proof. intros. unfold qget, set_next. rewrite aget_aupd by lia. by case_decide. Qed.
Lemma prev_set_next j : 0 <= j -> q_prev (qget (set_next t i v) j) = q_prev (qget t j).
Proof. intros. unfold qget, set_next. rewrite aget_aupd by lia. by case_decide; subst. Qed.
Lemma queue_set_next j : 0 <= j -> q_queue (qget (set_next t i v) j) = q_queue (qget t j).
Proof. intros. unfold qget, set_next. rewrite aget_aupd by lia. by case_decide; subst. Qed.
Lemma prev_set_prev j : 0 <= j ->
  q_prev (qget (set_prev t i v) j) = if decide (i = j) then v else q_prev (qget t j).
Proof. intros. unfold qget, set_prev. rewrite aget_aupd by lia. by case_decide. Qed.
Lemma next_set_prev j : 0 <= j -> q_next (qget (set_prev t i v) j) = q_next (qget t j).
Proof. intros. unfold qget, set_prev. rewrite aget_aupd by lia. by case_decide; subst. Qed.
Lemma queue_set_prev j : 0 <= j -> q_queue (qget (set_prev t i v) j) = q_queue (qget t j).
Proof. intros. unfold qget, set_prev. rewrite aget_aupd by lia. by case_decide; subst. Qed.
Lemma queue_set_queue j : 0 <= j ->
  q_queue (qget (set_queue t i v) j) = if decide (i = j) then v else q_queue (qget t j).
Proof. intros. unfold qget, set_queue. rewrite aget_aupd by lia. by case_decide. Qed.
Lemma next_set_queue j : 0 <= j -> q_next (qget (set_queue t i v) j) = q_next (qget t j).
Proof. intros. unfold qget, set_queue. rewrite aget_aupd by lia. by case_decide; subst. Qed.
Lemma prev_set_queue j : 0 <= j -> q_prev (qget (set_queue t i v) j) = q_prev (qget t j).
Proof. intros. unfold qget, set_queue. rewrite aget_aupd by lia. by case_decide; subst. Qed.
End fields.

Lemma length_set_next t i v : length (set_next t i v) = length t.
Proof. apply length_aupd. Qed.
Lemma length_set_prev t i v : length (set_prev t i v) = length t.
Proof. apply length_aupd. Qed.
Lemma length_set_queue t i v : length (set_queue t i v) = length t.
Proof. apply length_aupd. Qed.

Create Rewrite HintDb qt.
#[export] Hint Rewrite length_set_next length_set_prev length_set_queue : qt.
#[export] Hint Rewrite next_set_next prev_set_next queue_set_next prev_set_prev next_set_prev
  queue_set_prev queue_set_queue next_set_queue prev_set_queue
  using (autorewrite with qt; lia) : qt.

(** ** The operations on the table *)

Lemma link_tail_fields t x k T :
  length t = 70%nat -> 0 <= x < 64 -> 64 <= T < 70 -> 0 <= q_prev (qget t T) < 70 ->
  q_prev (qget t T) <> x ->
  let u := q_prev (qget t T) in
  let t' := link_tail t x k T in
  length t' = 70%nat /\
  (forall j, 0 <= j -> q_next (qget t' j) =
     if decide (u = j) then x else if decide (x = j) then T else q_next (qget t j)) /\
  (forall j, 0 <= j -> q_prev (qget t' j) =
     if decide (T = j) then x else if decide (x = j) then u else q_prev (qget t j)) /\
  (forall j, 0 <= j -> q_queue (qget t' j) = if decide (x = j) then k else q_queue (qget t j)).
Proof.
  intros Hlen Hx HT Hu Hux u t'. subst u t'. unfold link_tail.
  assert (i32 (q_prev (qget (set_queue t x k) T)) = q_prev (qget t T)) as ->.
  { autorewrite with qt. rewrite i32_small; lia. }
  rewrite u64_small by lia.
  split_and!; [by autorewrite with qt|..]; intros j Hj; autorewrite with qt; done.
Qed.

Lemma remove_fields t (x : nat) :
  length t = 70%nat -> (x < 64)%nat ->
  0 <= q_prev (qget t (Z.of_nat x)) < 70 -> 0 <= q_next (qget t (Z.of_nat x)) < 70 ->
  let u := q_prev (qget t (Z.of_nat x)) in
  let v := q_next (qget t (Z.of_nat x)) in
  let t' := removeFromQueue x t in
  length t' = 70%nat /\
  (forall j, 0 <= j -> q_next (qget t' j) = if decide (u = j) then v else q_next (qget t j)) /\
  (forall j, 0 <= j -> q_prev (qget t' j) = if decide (v = j) then u else q_prev (qget t j)) /\
  (forall j, 0 <= j -> q_queue (qget t' j) =
     if decide (Z.of_nat x = j) then EMPTY else q_queue (qget t j)).
Proof.
  intros Hlen Hx Hu Hv u v t'. subst u v t'. unfold removeFromQueue.
  assert (i32 (q_prev (qget (set_queue t (Z.of_nat x) EMPTY) (Z.of_nat x)))
          = q_prev (qget t (Z.of_nat x))) as ->.
  { autorewrite with qt. rewrite i32_small; lia. }
  assert (i32 (q_next (qget (set_queue t (Z.of_nat x) EMPTY) (Z.of_nat x)))
          = q_next (qget t (Z.of_nat x))) as ->.
  { autorewrite with qt. rewrite i32_small; lia. }
  rewrite !u64_small by lia.
  split_and!; [by autorewrite with qt|..]; intros j Hj; autorewrite with qt; done.
Qed.

Lemma length_removeFromQueue x t : length (removeFromQueue x t) = length t.
Proof. unfold removeFromQueue. by autorewrite with qt. Qed.

(** The nodes of queue [k]: its sentinels and its processes. *)
Definition qnodes (Q : queues) (k : Z) : list Z :=
  (HEAD_Q0 + 2 * k) :: (Z.of_nat <$> Q k) ++ [TAIL_Q0 + 2 * k].

Section nodes.
Context (t : list qentry) (Q : queues) (Hr : qrep t Q).

Lemma elem_of_qnodes k y : 0 <= k < NUM_QUEUES -> y ∈ qnodes Q k ->
  y = HEAD_Q0 + 2 * k \/ y = TAIL_Q0 + 2 * k \/ exists x, y = Z.of_nat x /\ x ∈ Q k /\ (x < 64)%nat.
Proof.
  unfold qnodes. intros Hk [?|[Hy|Hy]%elem_of_app]%elem_of_cons; [by left| |].
  - apply list_elem_of_fmap in Hy as (x & -> & Hx). right; right. exists x.
    split_and!; [done..|]. by eapply qr_range.
  - right; left. set_solver.
Qed.

Lemma qnodes_range k y : 0 <= k < NUM_QUEUES -> y ∈ qnodes Q k -> 0 <= y < 70.
Proof.
  intros Hk Hy. unfold HEAD_Q0, TAIL_Q0, NUM_QUEUES in *.
  destruct (elem_of_qnodes k y Hk Hy) as [->|[->|(x & -> & _ & ?)]];
    unfold HEAD_Q0, TAIL_Q0 in *; lia.
Qed.

Lemma qnodes_nodup k : 0 <= k < NUM_QUEUES -> NoDup (qnodes Q k).
Proof.
  intros Hk. pose proof (qr_range _ _ Hr k) as Hrg. unfold NPROC in Hrg.
  unfold qnodes, HEAD_Q0, TAIL_Q0, NUM_QUEUES in *.
  apply NoDup_cons. split.
  - intros [Hy|Hy]%elem_of_app; [|set_solver by lia].
    apply list_elem_of_fmap in Hy as (x & ? & Hx). specialize (Hrg x Hk Hx). lia.
  - apply NoDup_app. split_and!.
    + apply NoDup_fmap; [apply _|]. by eapply qr_nodup.
    + intros y Hy Hy2. apply list_elem_of_fmap in Hy as (x & -> & Hx).
      apply list_elem_of_singleton in Hy2. specialize (Hrg x Hk Hx). lia.
    + apply NoDup_singleton.
Qed.

Lemma qnodes_disj j k y : 0 <= j < NUM_QUEUES -> 0 <= k < NUM_QUEUES -> j <> k ->
  y ∈ qnodes Q j -> y ∈ qnodes Q k -> False.
Proof.
  intros Hj Hk Hne H1 H2.
  destruct (elem_of_qnodes j y Hj H1) as [E1|[E1|(x1 & E1 & M1 & R1)]];
  destruct (elem_of_qnodes k y Hk H2) as [E2|[E2|(x2 & E2 & M2 & R2)]];
    unfold HEAD_Q0, TAIL_Q0, NUM_QUEUES in *; try lia.
  assert (x1 = x2) by lia. subst. apply Hne. eapply qr_disj; eauto.
Qed.

Lemma not_in_qnodes (x : nat) k : 0 <= k < NUM_QUEUES -> (x < 64)%nat -> x ∉ Q k ->
  Z.of_nat x ∉ qnodes Q k.
Proof.
  intros Hk Hx Hn Hy.
  destruct (elem_of_qnodes k _ Hk Hy) as [E1|[E1|(x1 & E1 & M1 & R1)]];
    unfold HEAD_Q0, TAIL_Q0, NUM_QUEUES in *; try lia.
  by assert (x = x1) as -> by lia.
Qed.
End nodes.

Lemma elem_of_qpush k x Q j y : y ∈ qpush k x Q j <-> y ∈ Q j \/ (j = k /\ y = x).
Proof. unfold qpush. destruct (Z.eqb_spec j k); set_solver. Qed.

Lemma elem_of_qremove x Q j y : y ∈ qremove x Q j <-> y ∈ Q j /\ y <> x.
Proof. unfold qremove. rewrite list_elem_of_filter. naive_solver. Qed.

Lemma clear_fields l t :
  length t = 70%nat -> Forall (fun i => (i < 64)%nat) l ->
  let t' := fold_left (fun t i => set_queue t (Z.of_nat i) EMPTY) l t in
  length t' = 70%nat /\
  (forall j, 0 <= j -> q_next (qget t' j) = q_next (qget t j)) /\
  (forall j, 0 <= j -> q_prev (qget t' j) = q_prev (qget t j)) /\
  (forall x : nat, q_queue (qget t' (Z.of_nat x)) =
     if decide (x ∈ l) then EMPTY else q_queue (qget t (Z.of_nat x))).
Proof.
  revert t. induction l as [|i l IH]; simpl; intros t Hlen Hl; [done|].
  apply Forall_cons in Hl as [Hi Hl].
  destruct (IH (set_queue t (Z.of_nat i) EMPTY)) as (IL & IN & IP & IQ);
    [by autorewrite with qt | done |].
  split_and!; [done|..].
  - intros j Hj. rewrite IN by done. by autorewrite with qt.
  - intros j Hj. rewrite IP by done. by autorewrite with qt.
  - intros x. rewrite IQ. autorewrite with qt.
    repeat case_decide; set_solver by lia.
Qed.

(** [setupQueue] yields three empty queues, whatever the table held. *)
Lemma setupQueue_rep t : length t = 70%nat -> qrep (setupQueue t) qempty.
Proof.
  intros Hlen. unfold setupQueue.
  destruct (clear_fields (seq 0 NPROC) t Hlen) as (IL & IN & IP & IQ).
  { apply Forall_forall. intros x Hx%elem_of_seq. unfold NPROC in *. lia. }
  set (t1 := fold_left _ _ _) in *. clearbody t1.
  unfold HEAD_Q0, TAIL_Q0, HEAD_Q1, TAIL_Q1, HEAD_Q2, TAIL_Q2.
  split.
  - by autorewrite with qt.
  - intros k Hk. unfold qempty, NUM_QUEUES, HEAD_Q0, TAIL_Q0 in *. simpl.
    assert (k = 0 \/ k = 1 \/ k = 2) as [-> | [-> | ->]] by lia;
      simpl; autorewrite with qt; done.
  - intros k x _ []%not_elem_of_nil.
  - intros. apply NoDup_nil_2.
  - intros j k x _ _ []%not_elem_of_nil.
  - intros k x _ []%not_elem_of_nil.
  - intros x Hx _. autorewrite with qt. unfold NPROC in *.
    repeat (rewrite decide_False by lia). rewrite IQ, decide_True; [done|].
    apply elem_of_seq. lia.
Qed.

(** Linking a process that is in no queue appends it to queue [k]. *)
Lemma link_tail_rep t Q x k :
  qrep t Q -> 0 <= k < NUM_QUEUES -> (x < NPROC)%nat -> ~ qin x Q ->
  qrep (link_tail t (Z.of_nat x) k (TAIL_Q0 + 2 * k)) (qpush k x Q).
Proof.
  intros Hr Hk Hx Hin. unfold NPROC in Hx.
  assert (forall j, 0 <= j < NUM_QUEUES -> Z.of_nat x ∉ qnodes Q j) as Hxn.
  { intros j Hj. eapply not_in_qnodes; eauto. intros ?. apply Hin. by exists j. }
  pose proof (qr_dll _ _ Hr k Hk) as Hd. pose proof (dll_prev_end _ _ _ _ _ Hd) as Hu.
  simpl in Hu. set (u := q_prev (qget t (TAIL_Q0 + 2 * k))) in *.
  assert (u ∈ qnodes Q k) as Hu' by (unfold qnodes; clear -Hu; set_solver).
  pose proof (qnodes_range t Q Hr k u Hk Hu') as Hur.
  destruct (link_tail_fields t (Z.of_nat x) k (TAIL_Q0 + 2 * k)) as (L & N & P & Qf);
    [apply Hr | lia | unfold TAIL_Q0, NUM_QUEUES in *; lia | done | | ].
  { intros E. apply (Hxn k Hk). by rewrite <- E. }
  fold u in N, P. split.
  - done.
  - intros j Hj. destruct (decide (j = k)) as [->|Hjk].
    + unfold qpush. rewrite Z.eqb_refl, fmap_app. simpl.
      pose proof (qnodes_nodup t Q Hr k Hk) as Hnd.
      assert (forall y, y ∈ qnodes Q k -> 0 <= y < 70) as Hrg.
      { intros y. by apply (qnodes_range t Q Hr k). }
      unfold qnodes in Hnd, Hrg, Hxn. specialize (Hxn k Hk).
      assert (u <> Z.of_nat x) as Hxu by (intros E; apply Hxn; by rewrite <- E).
      assert (TAIL_Q0 + 2 * k <> Z.of_nat x) as HxT by (unfold TAIL_Q0, NUM_QUEUES in *; lia).
      apply NoDup_cons in Hnd as Hnd'. destruct Hnd' as [_ (_ & Hnt & _)%NoDup_app].
      eapply dll_link; [exact Hd | done | done | ..]; simpl; fold u.
      * rewrite N, decide_True; lia || done.
      * rewrite N, decide_False, decide_True by (done || lia). done.
      * rewrite P, decide_False, decide_True by (done || lia). done.
      * rewrite P, decide_True by (done || (unfold TAIL_Q0, NUM_QUEUES in *; lia)). done.
      * intros y Hy Hyu. assert (y ∈ (HEAD_Q0 + 2 * k) :: (Z.of_nat <$> Q k) ++ [TAIL_Q0 + 2 * k]) as Hy'
          by (clear -Hy; set_solver).
        specialize (Hrg y Hy'). rewrite N by lia.
        rewrite !decide_False; [done | by intros <- | done].
      * intros y Hy. assert (y ∈ (HEAD_Q0 + 2 * k) :: (Z.of_nat <$> Q k) ++ [TAIL_Q0 + 2 * k]) as Hy'
          by (clear -Hy; set_solver).
        specialize (Hrg y Hy'). rewrite P by lia. specialize (Hnt y Hy).
        rewrite !decide_False; [done | by intros <- | intros <-; by apply Hnt, list_elem_of_singleton].
    + assert (qpush k x Q j = Q j) as -> by (unfold qpush; by destruct (Z.eqb_spec j k)).
      assert (forall y, y ∈ qnodes Q j -> 0 <= y < 70 /\ y <> u /\ y <> Z.of_nat x
                /\ y <> TAIL_Q0 + 2 * k) as Hfr.
      { intros y Hy. split_and!; try (by apply (qnodes_range t Q Hr j)).
        - intros ->. by apply (qnodes_disj t Q Hr j k u).
        - intros ->. by apply (Hxn j Hj).
        - intros ->. apply (qnodes_disj t Q Hr j k (TAIL_Q0 + 2 * k)); try done.
          unfold qnodes. clear. set_solver. }
      unfold qnodes in Hfr.
      eapply dll_frame; [| |exact (qr_dll _ _ Hr j Hj)]; intros y Hy; simpl.
      * destruct (Hfr y) as (? & ? & ? & ?); [clear -Hy; set_solver|].
        rewrite N by lia. by rewrite !decide_False by done.
      * destruct (Hfr y) as (? & ? & ? & ?); [clear -Hy; set_solver|].
        rewrite P by lia. by rewrite !decide_False by done.
  - intros j y Hj [Hy|[-> ->]]%elem_of_qpush; [|done]. by eapply qr_range.
  - intros j Hj. unfold qpush. destruct (Z.eqb_spec j k) as [->|]; [|by eapply qr_nodup].
    apply NoDup_app. split_and!; [by eapply qr_nodup| |apply NoDup_singleton].
    intros y Hy ->%list_elem_of_singleton. apply Hin. by exists k.
  - intros j l y Hj Hl [H1|[-> ->]]%elem_of_qpush [H2|[-> E]]%elem_of_qpush; subst; try done.
    + by eapply qr_disj.
    + destruct Hin. by exists j.
    + destruct Hin. by exists l.
  - intros j y Hj Hy. rewrite Qf by lia. apply elem_of_qpush in Hy as [Hy|[-> ->]].
    + rewrite decide_False; [by eapply qr_level|]. intros E. assert (x = y) as -> by lia.
      apply Hin. by exists j.
    + by rewrite decide_True.
  - intros y Hy Hn. rewrite Qf by lia.
    assert (y <> x) by (intros ->; apply Hn; exists k; rewrite elem_of_qpush; auto).
    rewrite decide_False by lia. eapply qr_out; [done..|].
    intros (j & Hj & Hyj). apply Hn. exists j. rewrite elem_of_qpush. auto.
Qed.

Lemma qremove_split (x : nat) Q k l1 l2 :
  NoDup (Q k) -> Q k = l1 ++ x :: l2 -> qremove x Q k = l1 ++ l2.
Proof.
  intros Hnd E. unfold qremove. rewrite E in *. apply NoDup_app in Hnd as (_ & H1 & H2).
  apply NoDup_cons in H2 as [H2 _]. rewrite filter_app, filter_cons_False by naive_solver.
  rewrite !filter_ne_id; [done|done|]. intros Hx. apply (H1 x Hx). set_solver.
Qed.

Lemma qremove_other (x : nat) Q k : x ∉ Q k -> qremove x Q k = Q k.
Proof.
  apply filter_ne_id.
Qed.

(** Removing a queued process takes it out of its queue, wherever it is. *)
Lemma removeFromQueue_rep t Q x :
  qrep t Q -> qin x Q -> qrep (removeFromQueue x t) (qremove x Q).
Proof.
  intros Hr (k & Hk & Hxk).
  pose proof (qr_range _ _ Hr k x Hk Hxk) as Hx. unfold NPROC in Hx.
  pose proof (qr_nodup _ _ Hr k Hk) as HndQ.
  destruct (list_elem_of_split _ _ Hxk) as (l1 & l2 & E).
  pose proof (qr_dll _ _ Hr k Hk) as Hd. rewrite E, fmap_app, fmap_cons in Hd.
  pose proof (dll_neighbours _ _ _ _ _ _ _ Hd) as [Hu Hv]. simpl in Hu, Hv.
  set (u := q_prev (qget t (Z.of_nat x))) in *. set (v := q_next (qget t (Z.of_nat x))) in *.
  assert (u ∈ qnodes Q k) as Hu' by (unfold qnodes; rewrite E, fmap_app; clear -Hu; set_solver).
  assert (v ∈ qnodes Q k) as Hv' by (unfold qnodes; rewrite E, fmap_app; clear -Hv; set_solver).
  destruct (remove_fields t x) as (L & N & P & Qf);
    [apply Hr | lia | by apply (qnodes_range t Q Hr k) | by apply (qnodes_range t Q Hr k) |].
  fold u v in N, P.
  split.
  - done.
  - intros j Hj. destruct (decide (j = k)) as [->|Hjk].
    + rewrite (qremove_split x Q k l1 l2 HndQ E), fmap_app.
      pose proof (qnodes_nodup t Q Hr k Hk) as Hnd.
      assert (forall y, y ∈ qnodes Q k -> 0 <= y < 70) as Hrg.
      { intros y. by apply (qnodes_range t Q Hr k). }
      unfold qnodes in Hnd, Hrg. rewrite E, fmap_app, fmap_cons in Hnd, Hrg.
      eapply (dll_unlink _ _ _ _ _ _ (Z.of_nat x)); [exact Hd | rewrite app_comm_cons in Hnd; by apply NoDup_app in Hnd as [? _]
        | by apply NoDup_cons in Hnd as [_ ?] | ..];
        simpl; fold u v.
      * rewrite N, decide_True; [done|done|]. by apply (qnodes_range t Q Hr k).
      * rewrite P, decide_True; [done|done|]. by apply (qnodes_range t Q Hr k).
      * intros y Hy Hyu. rewrite N by (apply Hrg; clear -Hy; set_solver).
        by rewrite decide_False by done.
      * intros y Hy Hyu. rewrite P by (apply Hrg; clear -Hy; set_solver).
        by rewrite decide_False by done.
    + rewrite qremove_other by (intros ?; apply Hjk; by eapply qr_disj).
      assert (forall y, y ∈ qnodes Q j -> 0 <= y < 70 /\ u <> y /\ v <> y) as Hfr.
      { intros y Hy. split_and!; try (by apply (qnodes_range t Q Hr j));
          intros <-; by eapply (qnodes_disj t Q Hr j k). }
      unfold qnodes in Hfr.
      eapply dll_frame; [| |exact (qr_dll _ _ Hr j Hj)]; intros y Hy; simpl;
        (destruct (Hfr y) as (? & ? & ?); [clear -Hy; set_solver|]).
      * rewrite N by lia. by rewrite decide_False by done.
      * rewrite P by lia. by rewrite decide_False by done.
  - intros j y Hj [Hy _]%elem_of_qremove. by eapply qr_range.
  - intros j Hj. apply NoDup_filter. by eapply qr_nodup.
  - intros j l y Hj Hl [? _]%elem_of_qremove [? _]%elem_of_qremove. by eapply qr_disj.
  - intros j y Hj [Hy Hne]%elem_of_qremove. rewrite Qf by lia.
    rewrite decide_False by lia. by eapply qr_level.
  - intros y Hy Hn. rewrite Qf by lia. case_decide as Hd'; [done|].
    eapply qr_out; [done..|]. intros (j & Hj & Hyj). apply Hn. exists j.
    rewrite elem_of_qremove. split; [done|]. split; [done|]. lia.
Qed.

(** The choice of [dequeue] is the first process of the first non-empty queue. *)
Lemma dequeue_choice_rep t Q : qrep t Q -> dequeue_choice t = Z.of_nat <$> qfirst Q.
Proof.
  intros Hr. unfold dequeue_choice, qfirst.
  assert (forall k, 0 <= k < NUM_QUEUES ->
    match Q k with
    | [] => q_next (qget t (HEAD_Q0 + 2 * k)) = TAIL_Q0 + 2 * k
    | x :: _ => q_next (qget t (HEAD_Q0 + 2 * k)) = Z.of_nat x /\ (x < 64)%nat
    end) as H.
  { intros k Hk. pose proof (qr_dll _ _ Hr k Hk) as Hd.
    pose proof (qr_range _ _ Hr k) as Hrg. unfold NPROC in Hrg.
    destruct (Q k) as [|x l]; simpl in Hd; [by destruct Hd|].
    destruct Hd as [[? _] _]. split; [done|]. apply Hrg; [done|]. set_solver. }
  assert (forall (h ta : Z) (l : list nat) (o : option nat),
    match l with
    | [] => q_next (qget t h) = ta
    | x :: _ => q_next (qget t h) = Z.of_nat x /\ (x < 64)%nat
    end -> 64 <= ta ->
    (if negb (q_next (qget t h) =? ta) then Some (q_next (qget t h)) else Z.of_nat <$> o)
    = Z.of_nat <$> match l with x :: _ => Some x | [] => o end) as Hc.
  { intros h ta [|x l] o Hl Hta; simpl.
    - by rewrite Hl, Z.eqb_refl.
    - destruct Hl as [-> ?]. by destruct (Z.eqb_spec (Z.of_nat x) ta); [lia|]. }
  rewrite <- (Hc HEAD_Q0 TAIL_Q0), <- (Hc HEAD_Q1 TAIL_Q1), <- (Hc HEAD_Q2 TAIL_Q2); try done.
  - apply (H 2). done.
  - apply (H 1). done.
  - apply (H 0). done.
Qed.

(** ** The choice of queue *)

Lemma queue_choice_range p : 0 <= fst (queue_choice p) < NUM_QUEUES.
Proof.
  unfold queue_choice, NUM_QUEUES.
  destruct (10 <? p_nice p), ((p_nice p <=? 10) && (-10 <? p_nice p)); simpl;
    repeat (case_match; simplify_eq/=); lia.
Qed.

Lemma enqueue_fst pindex p t : fst (enqueue pindex p t) =
  set_p_queue (fst (queue_choice p)) (set_p_quanta (snd (queue_choice p)) p).
Proof.
  unfold enqueue. pose proof (queue_choice_range p) as H. unfold NUM_QUEUES in H.
  destruct (queue_choice p) as [k q]. simpl in *.
  destruct (Z.eqb_spec k 0) as [->|]; [done|]. destruct (Z.eqb_spec k 1) as [->|]; [done|].
  by assert (k = 2) as -> by lia.
Qed.

Lemma enqueue_snd pindex p t : snd (enqueue pindex p t) =
  link_tail t (Z.of_nat pindex) (fst (queue_choice p)) (TAIL_Q0 + 2 * fst (queue_choice p)).
Proof.
  unfold enqueue. pose proof (queue_choice_range p) as H. unfold NUM_QUEUES in H.
  destruct (queue_choice p) as [k q]. simpl in *.
  destruct (Z.eqb_spec k 0) as [->|]; [done|]. destruct (Z.eqb_spec k 1) as [->|]; [done|].
  by assert (k = 2) as -> by lia.
Qed.

(** Enqueueing a process that is in no queue appends it to the chosen one. *)
Lemma enqueue_rep t Q x p :
  qrep t Q -> (x < NPROC)%nat -> ~ qin x Q ->
  qrep (snd (enqueue x p t)) (qpush (fst (queue_choice p)) x Q).
Proof. intros. rewrite enqueue_snd. apply link_tail_rep; auto using queue_choice_range. Qed.

(** ** Refinement *)

(** Sequences of queue operations, on the table and on FIFO queues; the
    specification is undefined on misuse (queueing a queued process or
    removing one that is not queued). *)
Inductive qop := QEnqueue (x : nat) (p : proc) | QRemove (x : nat) | QSetup.

Definition qop_table (t : list qentry) (o : qop) : list qentry :=
  match o with
  | QEnqueue x p => snd (enqueue x p t)
  | QRemove x => removeFromQueue x t
  | QSetup => setupQueue t
  end.

Definition qinb (x : nat) (Q : queues) : bool :=
  bool_decide (x ∈ Q 0) || bool_decide (x ∈ Q 1) || bool_decide (x ∈ Q 2).

Definition qop_queues (Q : option queues) (o : qop) : option queues :=
  Q ← Q;
  match o with
  | QEnqueue x p => if (x <? NPROC)%nat && negb (qinb x Q)
                    then Some (qpush (fst (queue_choice p)) x Q) else None
  | QRemove x => if qinb x Q then Some (qremove x Q) else None
  | QSetup => Some qempty
  end.

Lemma qinb_spec x Q : qinb x Q = true <-> qin x Q.
Proof.
  unfold qinb, qin, NUM_QUEUES. rewrite !orb_true_iff, !bool_decide_eq_true. split.
  - intros [[?|?]|?]; [exists 0 | exists 1 | exists 2]; (split; [lia|done]).
  - intros (k & Hk & ?). assert (k = 0 \/ k = 1 \/ k = 2) as [->|[->| ->]] by lia; auto.
Qed.

Lemma qop_refines t Q Q' o : qrep t Q -> qop_queues (Some Q) o = Some Q' ->
  qrep (qop_table t o) Q'.
Proof.
  intros Hr. destruct o as [x p|x|]; simpl.
  - destruct (Nat.ltb_spec x NPROC), (qinb x Q) eqn:E; simpl; intros; simplify_eq.
    apply enqueue_rep; [done|done|]. rewrite <- qinb_spec. by rewrite E.
  - destruct (qinb x Q) eqn:E; intros; simplify_eq. apply removeFromQueue_rep; [done|].
    by apply qinb_spec.
  - intros; simplify_eq. apply setupQueue_rep, Hr.
Qed.

Lemma qops_refine ops : forall t Q Q', qrep t Q ->
  fold_left qop_queues ops (Some Q) = Some Q' -> qrep (fold_left qop_table ops t) Q'.
Proof.
  induction ops as [|o ops IH]; intros t Q Q' Hr H; cbn [fold_left] in *; [by simplify_eq|].
  destruct (qop_queues (Some Q) o) as [Q1|] eqn:E.
  - by eapply IH; [eapply qop_refines|].
  - exfalso. clear -H. induction ops as [|o' ops IH]; cbn in H; [done|by apply IH].
Qed.

(** C4: The linked lists threaded through [qtable] implement three FIFO
    queues: after [setupQueue] on any memory and any sequence of
    [enqueue] of unqueued and [removeFromQueue] of queued processes, the
    table represents the abstract queues, and the process [dequeue] picks
    is the first of the highest non-empty queue (none when all are empty). *)
Theorem qtable_refines_queues t ops Q : length t = 70%nat ->
  fold_left qop_queues ops (Some qempty) = Some Q ->
  let t' := fold_left qop_table ops (setupQueue t) in
  qrep t' Q /\ dequeue_choice t' = Z.of_nat <$> qfirst Q.
Proof.
  intros Hl H t'. assert (qrep t' Q) as Hr by (by eapply qops_refine; [apply setupQueue_rep|]).
  split; [done|]. by apply dequeue_choice_rep.
Qed.

Definition demo_ops : list qop :=
  [QEnqueue 3 (set_p_nice (-20) proc_zero); QEnqueue 5 proc_zero; QEnqueue 7 proc_zero;
   QEnqueue 1 (set_p_nice 15 proc_zero); QRemove 5; QRemove 1].

Lemma qtable_refines_queues_witness :
  dequeue_choice (fold_left qop_table demo_ops (setupQueue (replicate 70 qentry_zero))) = Some 7.
Proof.
  destruct (qtable_refines_queues (replicate 70 qentry_zero) demo_ops
    (default qempty (fold_left qop_queues demo_ops (Some qempty)))) as [_ E].
  - reflexivity.
  - reflexivity.
  - rewrite E. reflexivity.
Defined.
