(* ===== verification/Kernel.v ===== *)
(** * Kernel: the execution context of kernel code

    A small state and error monad for code of the xv6 kernel running on one
    CPU on behalf of one process.  A run returns, panics, is switched out
    and not resumed ([Blocked]), or spins forever.  What other processes and interrupts do
    while the process sleeps is not fixed: [w_env] lists one state
    transformer for every time the process is switched out and in again,
    and theorems quantify over it.

    Spin locks appear through their contract: the list of locks this CPU
    holds.  [acquire] panics on a lock already held, [release] on one that
    is not (spinlock.c itself is modelled in [Spinlock]); the code between
    the two is atomic. *)

From S2P Require Import Prelude.
From S2P Require Import State.

Record world := World { w_env : list (kst -> kst); w_k : kst }.

Inductive res (A : Type) :=
| Ret (a : A) (w : world)
| Panic (msg : string) (w : world)
| Blocked (w : world)
| Hang (w : world).
Arguments Ret {A} a w.
Arguments Panic {A} msg w.
Arguments Blocked {A} w.
Arguments Hang {A} w.

Definition K (A : Type) : Type := world -> res A.

#[export] Instance K_ret : MRet K := fun A a w => Ret a w.
#[export] Instance K_bind : MBind K := fun A B f m w =>
  match m w with
  | Ret a w' => f a w'
  | Panic msg w' => Panic msg w'
  | Blocked w' => Blocked w'
  | Hang w' => Hang w'
  end.

Definition panic {A} (msg : string) : K A := fun w => Panic msg w.
Definition hang {A} : K A := fun w => Hang w.
Definition kget {A} (f : kst -> A) : K A := fun w => Ret (f (w_k w)) w.
Definition kmod (f : kst -> kst) : K unit := fun w => Ret tt (World (w_env w) (f (w_k w))).
Definition kwhen (b : bool) (m : K unit) : K unit := if b then m else mret tt.

(** Loops: over a range of indices, and a search that stops at the first
    index whose body returns a value. *)
Fixpoint kfor (l : list nat) (body : nat -> K unit) : K unit :=
  match l with
  | [] => mret tt
  | i :: l' => body i;; kfor l' body
  end.
Fixpoint kfind {A} (l : list nat) (body : nat -> K (option A)) : K (option A) :=
  match l with
  | [] => mret None
  | i :: l' => r ← body i; match r with Some a => mret (Some a) | None => kfind l' body end
  end.

(** A waiting loop sleeps in every iteration but the last.  Its fuel is one
    iteration per environment action and one more, in which the process is
    switched out for good, so the fuel never runs out. *)
Definition with_fuel {A} (loop : nat -> K A) : K A := fun w => loop (S (length (w_env w))) w.

(** ** Locks *)

Definition acquire (l : lockid) : K unit :=
  held ← kget k_held;
  if bool_decide (l ∈ held) then panic "acquire" else kmod (set_k_held (l :: held)).
Definition release (l : lockid) : K unit :=
  held ← kget k_held;
  if bool_decide (l ∈ held) then kmod (set_k_held (filter (fun l' => l' <> l) held))
  else panic "release".
Definition holding (l : lockid) : K bool :=
  held ← kget k_held; mret (bool_decide (l ∈ held)).

(** ** Access to parts of the state *)

Definition mod_ps (f : psched -> psched) : K unit := kmod (fun s => set_k_ps (f (k_ps s)) s).
Definition mod_pm (f : physmem -> physmem) : K unit := kmod (fun s => set_k_pm (f (k_pm s)) s).
Definition mod_fs (f : fsstate -> fsstate) : K unit := kmod (fun s => set_k_fs (f (k_fs s)) s).

Definition proc_at (ps : psched) (i : nat) : proc := nth i (ps_proc ps) proc_zero.
Definition upd_proc (i : nat) (f : proc -> proc) (ps : psched) : psched :=
  set_ps_proc (<[i := f (proc_at ps i)]> (ps_proc ps)) ps.
Definition get_proc (i : nat) : K proc := kget (fun s => proc_at (k_ps s) i).
Definition mod_proc (i : nat) (f : proc -> proc) : K unit := mod_ps (upd_proc i f).

(** [myproc]: the process of this CPU; kernel code that dereferences it
    faults when there is none. *)
Definition myproc : K (option nat) := kget k_cur.
Definition curproc : K nat :=
  me ← myproc; match me with Some i => mret i | None => panic "kerneltrap" end.

(** [printf] of a constant string, under the printing lock. *)
Definition bytes_of_string (s : string) : list Z :=
  (fun a => Z.of_N (Ascii.N_of_ascii a)) <$> String.list_ascii_of_string s.
Definition printf_ (s : string) : K unit :=
  acquire L_pr;;
  kmod (fun s0 => set_k_thr (k_thr s0 ++ bytes_of_string s) s0);;
  release L_pr.

(** ** The state at boot

    Zero-initialised memory with the non-zero initialisers of the C
    globals; [e] is the linker symbol [end]; the symbols [etext] and
    [trampoline] are given the addresses of an eight-page kernel text. *)

Definition psched_boot : psched :=
  PSched (replicate NPROC proc_zero) None 1 (replicate (Z.to_nat LOG_SIZE) (LogEntry 0 0)) 0 0 0 0 0
    (replicate 70 (QEntry 0 0 0)) 1.
Definition fsstate_boot : fsstate :=
  FsState (replicate (NBUF + 1) buf_zero) (fun _ => replicate (Z.to_nat BSIZE) 0)
    (Log 0 0 0 0 0 0 (replicate (Z.to_nat LOGSIZE) 0)) (SuperBlock 0 0 0 0 0 0 0 0)
    (replicate NINODE inode_zero) (fun _ => SleepLock 0 0) [].
Definition kst_boot (e : Z) : kst :=
  Kst [] None psched_boot (PhysMem 0 (fun _ => 0) e ∅ 0 (0x80000000 + 0x8000) (0x80000000 + 0x7000)) ∅
    (replicate NFILE file_zero) fsstate_boot
    (Cons (replicate (Z.to_nat INPUT_BUF_SIZE) 0) 0 0 0)
    (Uart (replicate (Z.to_nat UART_TX_BUF_SIZE) 0) 0 0) 0 []
    (Csrs 0 0 0 0 0 0 0 0) (Devs [] 0x20 [] [] 0 0).

(** ** Rules *)

Definition with_k (w : world) (s : kst) : world := World (w_env w) s.

Lemma bind_ret {A B} (m : K A) (f : A -> K B) w a w' :
  m w = Ret a w' -> (x ← m; f x) w = f a w'.
Proof. intros H. unfold mbind, K_bind. by rewrite H. Qed.

(** One step of the basic operations. *)
Section binds.
Context {A B : Type}.
Implicit Types (w : world).

Lemma bind_kget (g : kst -> A) (f : A -> K B) w : (x ← kget g; f x) w = f (g (w_k w)) w.
Proof. done. Qed.
Lemma bind_mret (a : A) (f : A -> K B) w : (x ← mret a; f x) w = f a w.
Proof. done. Qed.
Lemma bind_kmod g (f : unit -> K B) w : (x ← kmod g; f x) w = f tt (with_k w (g (w_k w))).
Proof. done. Qed.
Lemma bind_mod_ps g (f : unit -> K B) w :
  (x ← mod_ps g; f x) w = f tt (with_k w (set_k_ps (g (k_ps (w_k w))) (w_k w))).
Proof. done. Qed.
Lemma bind_mod_pm g (f : unit -> K B) w :
  (x ← mod_pm g; f x) w = f tt (with_k w (set_k_pm (g (k_pm (w_k w))) (w_k w))).
Proof. done. Qed.
Lemma bind_mod_fs g (f : unit -> K B) w :
  (x ← mod_fs g; f x) w = f tt (with_k w (set_k_fs (g (k_fs (w_k w))) (w_k w))).
Proof. done. Qed.
Lemma bind_assoc {C} (m : K A) (f : A -> K B) (g : B -> K C) w :
  (y ← (x ← m; f x); g y) w = (x ← m; y ← f x; g y) w.
Proof. unfold mbind, K_bind. by destruct (m w). Qed.
End binds.

(** [kstep] executes the first basic operation of a sequence. *)
Ltac kstep :=
  first [rewrite bind_kget | rewrite bind_mret | rewrite bind_kmod | rewrite bind_mod_ps
        | rewrite bind_mod_pm | rewrite bind_mod_fs | rewrite bind_assoc];
  cbn beta.

Lemma acquire_ok l w : l ∉ k_held (w_k w) ->
  acquire l w = Ret tt (with_k w (set_k_held (l :: k_held (w_k w)) (w_k w))).
Proof.
  intros H. unfold acquire, mbind, K_bind, kget. by rewrite bool_decide_eq_false_2.
Qed.

Lemma release_ok l w ls : k_held (w_k w) = l :: ls -> l ∉ ls ->
  release l w = Ret tt (with_k w (set_k_held ls (w_k w))).
Proof.
  intros H Hn. unfold release, mbind, K_bind, kget. rewrite H.
  rewrite bool_decide_eq_true_2 by set_solver.
  rewrite filter_cons_False by naive_solver. by rewrite filter_ne_id.
Qed.

Lemma world_eta w : World (w_env w) (w_k w) = w.
Proof. by destruct w. Qed.

Lemma kfor_app l1 l2 body w :
  kfor (l1 ++ l2) body w = (kfor l1 body;; kfor l2 body) w.
Proof.
  revert w. induction l1 as [|i l1 IH]; intros w; [done|].
  simpl. unfold mbind, K_bind. destruct (body i w) as [a w'| | |]; done.
Qed.

(** A loop whose body always returns is a fold over the states. *)
Lemma kfor_fold (P : kst -> Prop) (g : nat -> kst -> kst) l body w :
  (forall i w, i ∈ l -> P (w_k w) ->
     body i w = Ret tt (with_k w (g i (w_k w))) /\ P (g i (w_k w))) ->
  P (w_k w) ->
  kfor l body w = Ret tt (with_k w (fold_left (fun s i => g i s) l (w_k w))) /\
  P (fold_left (fun s i => g i s) l (w_k w)).
Proof.
  revert w. induction l as [|i l IH]; intros w Hb HP; simpl.
  - unfold mret, K_ret, with_k. by rewrite world_eta.
  - destruct (Hb i w) as [E HP']; [set_solver|done|].
    rewrite (bind_ret _ _ _ _ _ E).
    destruct (IH (with_k w (g i (w_k w)))) as [-> ?]; [set_solver|done|]. done.
Qed.
