(* ===== verification/Sched.v ===== *)
(** * Sched: scheduling, sleep and wakeup

    Models the scheduling half of proc.c of
    [src/XV6 Multilevel feedback queue/]: the run queues as used by
    [yield], [sleep], [wakeup], [kill], [sys_nice], [dequeue] and
    [scheduler], the scheduling log, and the argument access of syscall.c
    that [sys_nice] needs.

    A process that calls [swtch] gives the CPU to the scheduler; it comes
    back with its lock held, as this CPU's process and RUNNING ([resume]),
    after an arbitrary transformation of the rest of the state taken from
    [w_env].  The scheduler's side takes the process's run as the argument
    [swtch] of [dequeue]. *)

From S2P Require Import Prelude.
From S2P Require Import State.
From S2P Require Import Kernel.
From S2P Require Import Mlfq.

(** ** System-call arguments (syscall.c) *)

Definition trapframe_zero : trapframe :=
  Trapframe 0 0 0 0 0 0 0 0 0 0 0 0 0 0 0 0 0 0 0 0 0 0 0 0 0 0 0 0 0 0 0 0 0 0 0 0.
Definition trapframe_of (s : kst) (i : nat) : trapframe :=
  default trapframe_zero (pm_tf (k_pm s) !! p_trapframe (proc_at (k_ps s) i)).

Definition argraw (n : Z) : K Z :=
  p ← curproc;
  tf ← kget (fun s => trapframe_of s p);
  if n =? 0 then mret (tf_a0 tf)
  else if n =? 1 then mret (tf_a1 tf)
  else if n =? 2 then mret (tf_a2 tf)
  else if n =? 3 then mret (tf_a3 tf)
  else if n =? 4 then mret (tf_a4 tf)
  else if n =? 5 then mret (tf_a5 tf)
  else panic "argraw".
Definition argint (n : Z) : K Z := v ← argraw n; mret (i32 v).
Definition argaddr (n : Z) : K Z := argraw n.

(** ** The run queues *)

Definition k_setupQueue : K unit :=
  printf_ "SETTING UP THE QUEUE!
";;
  mod_ps (fun ps => set_ps_qtable (setupQueue (ps_qtable ps)) ps).

(** [enqueue(p)] of a process of the table. *)
Definition enqueue_ps (i : nat) (ps : psched) : psched :=
  let '(p, t) := enqueue i (proc_at ps i) (ps_qtable ps) in
  upd_proc i (fun _ => p) (set_ps_qtable t ps).
Definition remove_ps (i : nat) (ps : psched) : psched :=
  set_ps_qtable (removeFromQueue i (ps_qtable ps)) ps.

(** [if(isQueueSetup == 0){ setupQueue(); isQueueSetup = 1; }] *)
Definition ensure_queue : K unit :=
  z ← kget (fun s => ps_isQueueSetup (k_ps s));
  kwhen (z =? 0) (k_setupQueue;; mod_ps (set_ps_isQueueSetup 1)).

(** Marking a process RUNNABLE and queueing it, as in [userinit], [fork],
    [wakeup] and [kill]. *)
Definition make_runnable (i : nat) : K unit :=
  mod_proc i (set_p_state RUNNABLE);;
  ensure_queue;;
  mod_ps (enqueue_ps i).

(** ** Giving up the CPU *)

Definition resume (i : nat) (s : kst) : kst :=
  set_k_held [L_proc i]
    (set_k_cur (Some i) (set_k_ps (upd_proc i (set_p_state RUNNING) (k_ps s)) s)).

(** [swtch(&p->context, &mycpu()->context)] *)
Definition swtch_out (i : nat) : K unit := fun w =>
  match w_env w with
  | [] => Blocked w
  | f :: env => Ret tt (World env (resume i (f (w_k w))))
  end.

Definition sched : K unit :=
  p ← curproc;
  h ← holding (L_proc p);
  if negb h then panic "sched p->lock" else
  held ← kget k_held;
  if negb (Nat.eqb (length held) 1) then panic "sched locks" else
  pr ← get_proc p;
  if bool_decide (p_state pr = RUNNING) then panic "sched running" else
  swtch_out p.

Definition yield : K unit :=
  p ← curproc;
  acquire (L_proc p);;
  mod_proc p (set_p_state RUNNABLE);;
  ensure_queue;;
  mod_proc p (fun q => set_p_quanta (i32 (p_quanta q + 1)) q);;
  mod_ps (fun ps => set_ps_timeSincePriorityBoost (i32 (ps_timeSincePriorityBoost ps + 1)) ps);;
  mod_ps (enqueue_ps p);;
  sched;;
  release (L_proc p).

Definition sleep (c : chan) (lk : lockid) : K unit :=
  p ← curproc;
  acquire (L_proc p);;
  release lk;;
  mod_proc p (set_p_chan (Some c));;
  mod_proc p (set_p_state SLEEPING);;
  sched;;
  mod_proc p (set_p_chan None);;
  release (L_proc p);;
  acquire lk.

Definition wakeup (c : chan) : K unit :=
  kfor (seq 0 NPROC) (fun i =>
    me ← myproc;
    if bool_decide (me = Some i) then mret tt else
    acquire (L_proc i);;
    p ← get_proc i;
    kwhen (bool_decide (p_state p = SLEEPING) && bool_decide (p_chan p = Some c))
      (make_runnable i);;
    release (L_proc i)).

Definition kill (pid : Z) : K Z :=
  r ← kfind (seq 0 NPROC) (fun i =>
    acquire (L_proc i);;
    p ← get_proc i;
    if p_pid p =? pid then
      mod_proc i (set_p_killed 1);;
      kwhen (bool_decide (p_state p = SLEEPING)) (make_runnable i);;
      release (L_proc i);;
      mret (Some 0)
    else
      release (L_proc i);;
      mret None);
  mret (default (-1) r).

Definition setkilled (i : nat) : K unit :=
  acquire (L_proc i);;
  mod_proc i (set_p_killed 1);;
  release (L_proc i).

Definition killed (i : nat) : K Z :=
  acquire (L_proc i);;
  p ← get_proc i;
  release (L_proc i);;
  mret (p_killed p).

Definition allocpid : K Z :=
  acquire L_pid;;
  pid ← kget (fun s => ps_nextpid (k_ps s));
  mod_ps (set_ps_nextpid (i32 (pid + 1)));;
  release L_pid;;
  mret pid.

(** ** The scheduler *)

Definition logentry_zero : logentry := LogEntry 0 0.

(** The log entry [dequeue] adds after a process ran. *)
Definition log_switch (pid : Z) (ps : psched) : psched :=
  let n := ps_num_logged ps in
  if negb (ps_is_logging ps =? 0)
     && ((n =? 0) || negb (le_pid (aget logentry_zero (ps_schedlog ps) (n - 1)) =? pid))
     && (n <? LOG_SIZE)
  then set_ps_num_logged (i32 (n + 1))
         (set_ps_schedlog (aset (ps_schedlog ps) n (LogEntry pid (ps_time ps))) ps)
  else ps.

Definition dequeue (swtch : nat -> K unit) : K unit :=
  t ← kget (fun s => ps_qtable (k_ps s));
  match dequeue_choice t with
  | None => mret tt
  | Some z =>
    let p := Z.to_nat z in
    mod_ps (remove_ps p);;
    kmod (set_k_cur None);;
    acquire (L_proc p);;
    mod_proc p (set_p_state RUNNING);;
    kmod (set_k_cur (Some p));;
    swtch p;;
    pr ← get_proc p;
    mod_ps (log_switch (p_pid pr));;
    kmod (set_k_cur None);;
    release (L_proc p)
  end.

(** The priority boost: drop all queues, re-enqueue what is RUNNABLE. *)
Definition boost_ps (ps : psched) : psched :=
  fold_left (fun ps i => if bool_decide (p_state (proc_at ps i) = RUNNABLE)
                         then enqueue_ps i ps else ps) (seq 0 NPROC) ps.

(** One iteration of the loop of [scheduler]. *)
Definition scheduler_round (swtch : nat -> K unit) : K unit :=
  t ← kget (fun s => ps_timeSincePriorityBoost (k_ps s));
  kwhen (60 <? t)
    (printf_ "Priority Boost!
";;
     k_setupQueue;;
     mod_ps boost_ps;;
     mod_ps (set_ps_timeSincePriorityBoost 0));;
  dequeue swtch.

(** [n] iterations of the endless loop of [scheduler]. *)
Fixpoint scheduler (n : nat) (swtch : nat -> K unit) : K unit :=
  match n with
  | O => mret tt
  | S n' => scheduler_round swtch;; scheduler n' swtch
  end.

(** ** System calls of proc.c *)

Definition sys_startlog : K Z :=
  l ← kget (fun s => ps_is_logging (k_ps s));
  if negb (l =? 0) then mret (-1)
  else mod_ps (set_ps_is_logging 1);; mret 0.

(** [p->nice += inc] and the clamping that follows it. *)
Definition nice_new (nice inc : Z) : Z :=
  let nice := i32 (nice + inc) in
  let nice := if 19 <? nice then 19 else nice in
  if nice <? -20 then -20 else nice.

(** The queue [sys_nice] compares with [p->queue]. *)
Definition nice_queue (nice : Z) : Z :=
  if 10 <? nice then 0
  else if (nice <? -10) && (nice <=? 10) then 1
  else if nice <=? -10 then 2
  else -1.

Definition sys_nice : K Z :=
  inc ← argint 0;
  p ← curproc;
  mod_proc p (fun q => set_p_nice (nice_new (p_nice q) inc) q);;
  q ← get_proc p;
  let tempQueue := nice_queue (p_nice q) in
  kwhen (negb (tempQueue =? p_queue q))
    (mod_ps (remove_ps p);; mod_ps (enqueue_ps p));;
  mret (p_nice q).
