(* ===== verification/SchedInv.v ===== *)
(** * SchedInv: the invariant of the scheduler

    [sched_inv ps Q] says that the run queues of the kernel are the FIFO
    queues [Q] of Mlfq, that a process is queued exactly when it is
    RUNNABLE, and that the level kept in [p->queue] is the level of its
    queue.  The file proves how the operations of Sched act on it. *)

From S2P Require Import Prelude.
From S2P Require Import State.
From S2P Require Import Kernel.
From S2P Require Import Mlfq.
From S2P Require Import Sched.

Record sched_inv (ps : psched) (Q : queues) : Prop := {
  si_nproc : length (ps_proc ps) = NPROC;
  si_qtable : length (ps_qtable ps) = 70%nat;
  si_rep : ps_isQueueSetup ps <> 0 -> qrep (ps_qtable ps) Q;
  si_unset : ps_isQueueSetup ps = 0 -> Q = qempty;
  si_run : forall i, (i < NPROC)%nat -> qin i Q <-> p_state (proc_at ps i) = RUNNABLE;
  si_level : forall k i, 0 <= k < NUM_QUEUES -> i ∈ Q k -> p_queue (proc_at ps i) = k
}.

(** The level and the quanta a process is enqueued with. *)
Definition level (p : proc) : Z := fst (queue_choice p).
Definition placed (p : proc) : proc :=
  set_p_queue (level p) (set_p_quanta (snd (queue_choice p)) p).

(** State changes of the queue operations without the printing. *)
Definition setup_ps (ps : psched) : psched := set_ps_qtable (setupQueue (ps_qtable ps)) ps.
Definition ensure_ps (ps : psched) : psched :=
  if ps_isQueueSetup ps =? 0 then set_ps_isQueueSetup 1 (setup_ps ps) else ps.
Definition runnable_ps (i : nat) (f : proc -> proc) (ps : psched) : psched :=
  enqueue_ps i (ensure_ps (upd_proc i f ps)).

(** A kernel state with other scheduler data and console output. *)
Definition put_ps (ps : psched) (thr : list Z) (s : kst) : kst :=
  set_k_ps ps (set_k_thr thr s).

#[local] Opaque setupQueue enqueue removeFromQueue queue_choice.

(** ** Fields *)

Section fields.
Context (ps : psched) (i : nat) (f : proc -> proc).

Lemma proc_at_upd j : length (ps_proc ps) = NPROC -> (i < NPROC)%nat ->
  proc_at (upd_proc i f ps) j = if decide (i = j) then f (proc_at ps i) else proc_at ps j.
Proof.
  intros Hl Hi. unfold proc_at, upd_proc; simpl. case_decide as E.
  - subst j. apply nth_lookup_Some, list_lookup_insert_eq. lia.
  - by rewrite !nth_lookup, list_lookup_insert_ne.
Qed.

Lemma enqueue_ps_eq : enqueue_ps i ps =
  upd_proc i (fun _ => placed (proc_at ps i))
    (set_ps_qtable (snd (enqueue i (proc_at ps i) (ps_qtable ps))) ps).
Proof.
  unfold enqueue_ps, placed, level. rewrite <- (enqueue_fst i (proc_at ps i) (ps_qtable ps)).
  by destruct (enqueue i (proc_at ps i) (ps_qtable ps)).
Qed.

Lemma ensure_ps_proc j : proc_at (ensure_ps ps) j = proc_at ps j.
Proof. unfold ensure_ps. by destruct (_ =? _). Qed.
End fields.

Lemma proc_at_runnable ps i f j : length (ps_proc ps) = NPROC -> (i < NPROC)%nat ->
  proc_at (runnable_ps i f ps) j =
  if decide (i = j) then placed (f (proc_at ps i)) else proc_at ps j.
Proof.
  intros Hl Hi. unfold runnable_ps. rewrite enqueue_ps_eq.
  assert (proc_at (ensure_ps (upd_proc i f ps)) i = f (proc_at ps i)) as ->.
  { rewrite ensure_ps_proc, proc_at_upd by done. by rewrite decide_True. }
  rewrite proc_at_upd; [|unfold ensure_ps; destruct (_ =? _); simpl; rewrite length_insert; lia|done].
  case_decide; [done|].
  change (proc_at (ensure_ps (upd_proc i f ps)) j = proc_at ps j).
  rewrite ensure_ps_proc, proc_at_upd by done. by rewrite decide_False.
Qed.

(** ** Preservation of the invariant *)

Lemma qin_empty i : ~ qin i qempty.
Proof. intros (k & _ & H). unfold qempty in H. set_solver. Qed.

Lemma qin_qpush k x Q i : 0 <= k < NUM_QUEUES -> qin i (qpush k x Q) <-> qin i Q \/ i = x.
Proof.
  intros Hk. split.
  - intros (j & Hj & [?|[-> ->]]%elem_of_qpush); [left; by exists j | by right].
  - intros [(j & Hj & ?)| ->]; [exists j | exists k]; rewrite elem_of_qpush; auto.
Qed.

Lemma qin_qremove x Q i : qin i (qremove x Q) <-> qin i Q /\ i <> x.
Proof.
  split.
  - intros (j & Hj & [? ?]%elem_of_qremove). split; [by exists j|done].
  - intros [(j & Hj & ?) ?]. exists j. by rewrite elem_of_qremove.
Qed.

Lemma sched_inv_range ps Q i : sched_inv ps Q -> qin i Q -> (i < NPROC)%nat.
Proof.
  intros H Hi. destruct (decide (ps_isQueueSetup ps = 0)) as [E|E].
  - rewrite (si_unset _ _ H E) in Hi. by apply qin_empty in Hi.
  - destruct Hi as (k & Hk & Hi). by apply (qr_range _ _ (si_rep _ _ H E) k).
Qed.

Lemma ensure_ps_inv ps Q : sched_inv ps Q ->
  sched_inv (ensure_ps ps) Q /\ ps_isQueueSetup (ensure_ps ps) <> 0.
Proof.
  intros H. unfold ensure_ps. destruct (Z.eqb_spec (ps_isQueueSetup ps) 0) as [E|E].
  - pose proof (si_unset _ _ H E) as ->.
    pose proof (setupQueue_rep _ (si_qtable _ _ H)) as Hr. split; [|done].
    split; [exact (si_nproc _ _ H) | exact (qr_len _ _ Hr) | intros _; exact Hr | done
           | exact (si_run _ _ H) | exact (si_level _ _ H)].
  - done.
Qed.

(** Enqueueing a process that becomes RUNNABLE appends it to its level. *)
Lemma runnable_ps_inv ps Q i f : sched_inv ps Q -> (i < NPROC)%nat ->
  p_state (proc_at ps i) <> RUNNABLE -> p_state (f (proc_at ps i)) = RUNNABLE ->
  sched_inv (runnable_ps i f ps) (qpush (level (f (proc_at ps i))) i Q).
Proof.
  intros H Hi Hs Hf.
  assert (~ qin i Q) as Hn by (intros ?%(si_run _ _ H); done).
  destruct (ensure_ps_inv ps Q H) as [He Hset].
  pose proof (queue_choice_range (f (proc_at ps i))) as Hk. fold (level (f (proc_at ps i))) in Hk.
  assert (qrep (ps_qtable (runnable_ps i f ps)) (qpush (level (f (proc_at ps i))) i Q)) as Hr.
  { unfold runnable_ps. rewrite enqueue_ps_eq.
    rewrite ensure_ps_proc, proc_at_upd, decide_True; [|done|apply H|done].
    apply enqueue_rep; [|done|done].
    assert (ps_qtable (ensure_ps (upd_proc i f ps)) = ps_qtable (ensure_ps ps)) as ->.
    { unfold ensure_ps; simpl. by destruct (_ =? _). }
    by apply He. }
  split.
  - unfold runnable_ps. rewrite enqueue_ps_eq. simpl. rewrite length_insert.
    unfold ensure_ps; simpl; destruct (_ =? _); simpl; rewrite length_insert; apply H.
  - apply Hr.
  - done.
  - intros E. exfalso. revert E. unfold runnable_ps. rewrite enqueue_ps_eq. simpl.
    unfold ensure_ps; simpl. by destruct (Z.eqb_spec (ps_isQueueSetup ps) 0).
  - intros j Hj. rewrite qin_qpush, proc_at_runnable by (done || exact (si_nproc _ _ H)).
    case_decide as E; [subst; naive_solver|]. rewrite (si_run _ _ H j Hj). naive_solver.
  - intros k j Hkr Hj. rewrite proc_at_runnable by (done || exact (si_nproc _ _ H)).
    apply elem_of_qpush in Hj as [Hj|[-> ->]]; [|by rewrite decide_True].
    rewrite decide_False by (intros ->; apply Hn; by exists k). by eapply si_level.
Qed.

(** Changing a process that is not queued and stays unqueued. *)
Lemma upd_proc_inv ps Q i f : sched_inv ps Q -> (i < NPROC)%nat ->
  p_state (proc_at ps i) <> RUNNABLE -> p_state (f (proc_at ps i)) <> RUNNABLE ->
  sched_inv (upd_proc i f ps) Q.
Proof.
  intros H Hi Hs Hf.
  split; [|exact (si_qtable _ _ H) | exact (si_rep _ _ H) | exact (si_unset _ _ H) | |].
  - simpl. rewrite length_insert. exact (si_nproc _ _ H).
  - intros j Hj. rewrite proc_at_upd by (done || exact (si_nproc _ _ H)). case_decide; [subst j|apply H; done].
    rewrite (si_run _ _ H i Hi). naive_solver.
  - intros k j Hk Hj. rewrite proc_at_upd by (done || exact (si_nproc _ _ H)).
    case_decide; [subst j|by eapply si_level].
    destruct Hs. apply (si_run _ _ H i Hi). by exists k.
Qed.

(** Changing a process without touching its state and level. *)
Lemma upd_proc_same_inv ps Q i f : sched_inv ps Q -> (i < NPROC)%nat ->
  p_state (f (proc_at ps i)) = p_state (proc_at ps i) ->
  p_queue (f (proc_at ps i)) = p_queue (proc_at ps i) ->
  sched_inv (upd_proc i f ps) Q.
Proof.
  intros H Hi Hs Hf.
  split; [|exact (si_qtable _ _ H) | exact (si_rep _ _ H) | exact (si_unset _ _ H) | |].
  - simpl. rewrite length_insert. exact (si_nproc _ _ H).
  - intros j Hj. rewrite proc_at_upd by (done || exact (si_nproc _ _ H)). case_decide; [subst j|apply H; done].
    rewrite Hs. by apply H.
  - intros k j Hk Hj. rewrite proc_at_upd by (done || exact (si_nproc _ _ H)).
    case_decide; [subst j; rewrite Hf|]; by eapply si_level.
Qed.

(** Taking a queued process out of its queue to run it. *)
Lemma run_proc_inv ps Q i : sched_inv ps Q -> qin i Q ->
  sched_inv (upd_proc i (set_p_state RUNNING) (remove_ps i ps)) (qremove i Q).
Proof.
  intros H Hin. pose proof (sched_inv_range _ _ _ H Hin) as Hi.
  assert (ps_isQueueSetup ps <> 0) as Hset.
  { intros E. rewrite (si_unset _ _ H E) in Hin. by apply qin_empty in Hin. }
  pose proof (removeFromQueue_rep _ _ _ (si_rep _ _ H Hset) Hin) as Hr.
  split.
  - simpl. rewrite length_insert. apply H.
  - apply Hr.
  - done.
  - done.
  - intros j Hj. rewrite qin_qremove, proc_at_upd by (done || exact (si_nproc _ _ H)).
    case_decide as E; [subst; simpl; naive_solver|].
    change (proc_at (remove_ps i ps) j) with (proc_at ps j).
    rewrite (si_run _ _ H j Hj). naive_solver.
  - intros k j Hk [Hj Hne]%elem_of_qremove. rewrite proc_at_upd by (done || exact (si_nproc _ _ H)).
    rewrite decide_False by done. exact (si_level _ _ H k j Hk Hj).
Qed.

(** ** Kernel code *)

Lemma printf_ok s w : L_pr ∉ k_held (w_k w) ->
  printf_ s w = Ret tt (with_k w (set_k_thr (k_thr (w_k w) ++ bytes_of_string s) (w_k w))).
Proof.
  intros H. unfold printf_. rewrite (bind_ret _ _ _ _ _ (acquire_ok _ _ H)).
  unfold kmod at 1, mbind, K_bind. simpl.
  rewrite (release_ok L_pr _ (k_held (w_k w))) by done. unfold with_k. simpl.
  by destruct (w_k w).
Qed.

Lemma ensure_queue_ok w : L_pr ∉ k_held (w_k w) ->
  exists thr, ensure_queue w = Ret tt (with_k w (put_ps (ensure_ps (k_ps (w_k w))) thr (w_k w))).
Proof.
  intros H. unfold ensure_queue, kget, mbind, K_bind, ensure_ps.
  destruct (ps_isQueueSetup (k_ps (w_k w)) =? 0) eqn:E.
  - unfold kwhen, k_setupQueue, mbind, K_bind. rewrite printf_ok by done.
    eexists. unfold mod_ps, kmod, with_k, put_ps. simpl. reflexivity.
  - exists (k_thr (w_k w)). unfold kwhen, mret, K_ret, with_k, put_ps.
    destruct w as [env s]; simpl. by destruct s.
Qed.

Lemma make_runnable_ok i w : L_pr ∉ k_held (w_k w) ->
  exists thr, make_runnable i w =
    Ret tt (with_k w (put_ps (runnable_ps i (set_p_state RUNNABLE) (k_ps (w_k w))) thr (w_k w))).
Proof.
  intros H. unfold make_runnable.
  rewrite (bind_ret (mod_proc _ _) _ w tt
    (with_k w (set_k_ps (upd_proc i (set_p_state RUNNABLE) (k_ps (w_k w))) (w_k w)))) by done.
  destruct (ensure_queue_ok (with_k w (set_k_ps (upd_proc i (set_p_state RUNNABLE) (k_ps (w_k w))) (w_k w))))
    as [thr E]; [done|].
  rewrite (bind_ret _ _ _ _ _ E). exists thr. done.
Qed.

(** ** Example states: a booted machine with one process *)

Lemma boot_inv : sched_inv psched_boot qempty.
Proof.
  split; try done.
  - intros i Hi. split; [by intros ?%qin_empty|].
    unfold proc_at. rewrite nth_lookup. unfold psched_boot. cbn [ps_proc].
    rewrite lookup_replicate_2 by done. done.
  - intros k i _ Hi. unfold qempty in Hi. by apply elem_of_nil in Hi.
Qed.

Definition ps_one (s : procstate) : psched :=
  upd_proc 0 (fun p => set_p_chan (Some Ch_ticks) (set_p_pid 1 (set_p_state s p))) psched_boot.
Definition ps_ready : psched := runnable_ps 0 (set_p_state RUNNABLE) psched_boot.
Definition k_example (ps : psched) : kst := set_k_ps ps (kst_boot 0x80022000).

Lemma ps_one_inv s : s <> RUNNABLE -> sched_inv (ps_one s) qempty.
Proof. intros Hs. apply upd_proc_inv; [apply boot_inv | unfold NPROC; lia | done | done]. Qed.

Lemma ps_ready_inv : sched_inv ps_ready (qpush 1 0%nat qempty).
Proof.
  apply (runnable_ps_inv psched_boot qempty 0 (set_p_state RUNNABLE));
    [apply boot_inv | unfold NPROC; lia | done | done].
Qed.
