(* ===== verification/SchedProps.v ===== *)
(** * SchedProps: theorems about the scheduler

    What [wakeup], [kill], [yield], [sleep], [dequeue], [scheduler] and
    [sys_nice] do to the run queues. *)

From S2P Require Import Prelude.
From S2P Require Import State.
From S2P Require Import Kernel.
From S2P Require Import Mlfq.
From S2P Require Import Sched.
From S2P Require Import SchedInv.

(** No process lock and no printing lock is held. *)
Definition quiet (held : list lockid) : Prop := (L_pr ∉ held) /\ (forall i, L_proc i ∉ held).

(** The processes of [l] that [wakeup(c)] wakes. *)
Definition sleeps_on (ps : psched) (me : option nat) (c : chan) (i : nat) : Prop :=
  me <> Some i /\ p_state (proc_at ps i) = SLEEPING /\ p_chan (proc_at ps i) = Some c.
#[export] Instance sleeps_on_dec ps me c i : Decision (sleeps_on ps me c i).
Proof. unfold sleeps_on. apply _. Defined.
Definition sleepers (ps : psched) (me : option nat) (c : chan) (l : list nat) : list nat :=
  filter (sleeps_on ps me c) l.

(** Append the processes [l] to the queues of their levels. *)
Definition push_all (ps : psched) (l : list nat) (Q : queues) : queues :=
  fold_left (fun Q i => qpush (level (proc_at ps i)) i Q) l Q.

#[local] Opaque setupQueue enqueue removeFromQueue queue_choice.

Lemma level_state s p : level (set_p_state s p) = level p.
Proof. done. Qed.

Lemma quiet_proc held i : quiet held -> L_pr ∉ L_proc i :: held.
Proof. intros [H _]. set_solver. Qed.

(** ** wakeup *)

Lemma sleepers_agree ps ps' me c l :
  (forall i, i ∈ l -> proc_at ps' i = proc_at ps i) -> sleepers ps' me c l = sleepers ps me c l.
Proof.
  unfold sleepers. induction l as [|i l IH]; intros H; [done|].
  rewrite !filter_cons, IH by set_solver.
  assert (sleeps_on ps' me c i <-> sleeps_on ps me c i) as Hi.
  { unfold sleeps_on. by rewrite (H i) by set_solver. }
  destruct (decide (sleeps_on ps me c i)), (decide (sleeps_on ps' me c i)); tauto.
Qed.

Lemma push_all_agree ps ps' l Q :
  (forall i, i ∈ l -> proc_at ps' i = proc_at ps i) -> push_all ps' l Q = push_all ps l Q.
Proof.
  unfold push_all. revert Q. induction l as [|i l IH]; intros Q H; [done|].
  simpl. rewrite (H i) by set_solver. apply IH. set_solver.
Qed.

(** The body of the loop of [wakeup] on one process. *)
Lemma wakeup_body_ok c i w :
  quiet (k_held (w_k w)) ->
  exists thr,
  (me ← myproc;
    if bool_decide (me = Some i) then mret tt else
    acquire (L_proc i);;
    p ← get_proc i;
    kwhen (bool_decide (p_state p = SLEEPING) && bool_decide (p_chan p = Some c))
      (make_runnable i);;
    release (L_proc i)) w
  = Ret tt (with_k w (put_ps (if decide (sleeps_on (k_ps (w_k w)) (k_cur (w_k w)) c i)
                              then runnable_ps i (set_p_state RUNNABLE) (k_ps (w_k w))
                              else k_ps (w_k w)) thr (w_k w))).
Proof.
  intros Hq. unfold myproc, kget. rewrite (bind_ret _ _ w (k_cur (w_k w)) w) by done.
  destruct (decide (k_cur (w_k w) = Some i)) as [Hm|Hm].
  { exists (k_thr (w_k w)). rewrite bool_decide_eq_true_2, decide_False by (done || unfold sleeps_on; tauto).
    destruct w as [env s]. by destruct s. }
  rewrite bool_decide_eq_false_2 by done.
  rewrite (bind_ret _ _ _ _ _ (acquire_ok (L_proc i) w (proj2 Hq i))).
  set (w1 := with_k w (set_k_held (L_proc i :: k_held (w_k w)) (w_k w))).
  rewrite (bind_ret (get_proc i) _ w1 (proc_at (k_ps (w_k w)) i) w1) by done.
  assert (exists thr w2, kwhen (bool_decide (p_state (proc_at (k_ps (w_k w)) i) = SLEEPING)
      && bool_decide (p_chan (proc_at (k_ps (w_k w)) i) = Some c)) (make_runnable i) w1 = Ret tt w2
      /\ w2 = with_k w1 (put_ps (if decide (sleeps_on (k_ps (w_k w)) (k_cur (w_k w)) c i)
                              then runnable_ps i (set_p_state RUNNABLE) (k_ps (w_k w))
                              else k_ps (w_k w)) thr (w_k w1))) as (thr & w2 & E & Ew).
  { destruct (decide (sleeps_on (k_ps (w_k w)) (k_cur (w_k w)) c i)) as [(? & ? & ?)|Hn].
    - rewrite !bool_decide_eq_true_2 by done.
      destruct (make_runnable_ok i w1) as [thr E]; [by apply quiet_proc|]. eauto.
    - exists (k_thr (w_k w1)), w1. split; [|by destruct w as [? []]].
      unfold sleeps_on in Hn. unfold kwhen.
      repeat case_bool_decide; simpl; try done. tauto. }
  rewrite (bind_ret _ _ _ _ _ E). exists thr. subst w2.
  rewrite (release_ok (L_proc i) _ (k_held (w_k w))) by (done || apply Hq).
  by destruct w as [? []].
Qed.

Lemma wakeup_loop c l w Q :
  NoDup l -> (forall i, i ∈ l -> (i < NPROC)%nat) ->
  quiet (k_held (w_k w)) -> sched_inv (k_ps (w_k w)) Q ->
  let ps := k_ps (w_k w) in
  let woken := sleepers ps (k_cur (w_k w)) c l in
  exists ps' thr,
  kfor l (fun i =>
    me ← myproc;
    if bool_decide (me = Some i) then mret tt else
    acquire (L_proc i);;
    p ← get_proc i;
    kwhen (bool_decide (p_state p = SLEEPING) && bool_decide (p_chan p = Some c))
      (make_runnable i);;
    release (L_proc i)) w = Ret tt (with_k w (put_ps ps' thr (w_k w))) /\
  sched_inv ps' (push_all ps woken Q) /\
  forall i, (i < NPROC)%nat ->
    proc_at ps' i = if decide (i ∈ woken) then placed (set_p_state RUNNABLE (proc_at ps i))
                    else proc_at ps i.
Proof.
  revert w Q. induction l as [|i l IH]; intros w Q Hnd Hl Hq Hinv ps woken; cbn [kfor].
  { exists (k_ps (w_k w)), (k_thr (w_k w)). split; [by destruct w as [? []]|].
    split; [done|]. intros j _. case_decide as Hd; [by apply elem_of_nil in Hd | done]. }
  apply NoDup_cons in Hnd as [Hil Hnd].
  destruct (wakeup_body_ok c i w Hq) as [thr E].
  rewrite (bind_ret _ _ _ _ _ E). clear E.
  subst woken. fold ps. set (me := k_cur (w_k w)) in *.
  assert (i < NPROC)%nat as Hi by (apply Hl; set_solver).
  set (ps1 := if decide (sleeps_on ps me c i) then _ else _).
  assert (forall j, j ∈ l -> proc_at ps1 j = proc_at ps j) as Hag.
  { intros j Hj. subst ps1. case_decide; [|done].
    rewrite proc_at_runnable by (done || exact (si_nproc _ _ Hinv)).
    by rewrite decide_False by (intros ->; done). }
  destruct (IH (with_k w (put_ps ps1 thr (w_k w)))
     (if decide (sleeps_on ps me c i) then qpush (level (proc_at ps i)) i Q else Q))
    as (ps' & thr' & -> & Hinv' & Hps'); [done|set_solver|done| |].
  { simpl. subst ps1. case_decide as Hs; [|done].
    apply (runnable_ps_inv ps Q i (set_p_state RUNNABLE)); try done.
    destruct Hs as (_ & -> & _). done. }
  cbn zeta beta delta [with_k put_ps w_k k_ps k_cur set_k_ps set_k_thr] iota in Hinv', Hps'.
  fold me in Hinv', Hps'.
  rewrite (sleepers_agree ps ps1) in Hinv', Hps' by done.
  rewrite (push_all_agree ps ps1) in Hinv'
    by (intros ? [_ ?]%list_elem_of_filter; by apply Hag).
  exists ps', thr'. split; [by destruct w as [? []]|].
  unfold sleepers. rewrite filter_cons. fold (sleepers ps me c l).
  split; [by case_decide|].
  intros j Hj. rewrite (Hps' j Hj). subst ps1.
  destruct (decide (sleeps_on ps me c i)) as [Hs|Hs].
  - destruct (decide (j = i)) as [->|Hji].
    + rewrite decide_False by (intros [_ ?]%list_elem_of_filter; done).
      rewrite proc_at_runnable by (done || exact (si_nproc _ _ Hinv)).
      by rewrite !decide_True by set_solver.
    + rewrite proc_at_runnable by (done || exact (si_nproc _ _ Hinv)).
      rewrite (decide_False (P := i = j)) by done.
      destruct (decide (j ∈ sleepers ps me c l)).
      * by rewrite decide_True by set_solver.
      * by rewrite decide_False by set_solver.
  - done.
Qed.

(** [wakeup(c)] called without process locks returns; exactly the
    processes sleeping on [c], the caller excepted, become RUNNABLE, each
    appended to the tail of the queue of its level in table order, and no
    other process and no other part of the kernel state changes (but for
    console output when the queues are first set up). *)
Theorem wakeup_spec c w Q :
  quiet (k_held (w_k w)) -> sched_inv (k_ps (w_k w)) Q ->
  let ps := k_ps (w_k w) in
  let woken := sleepers ps (k_cur (w_k w)) c (seq 0 NPROC) in
  exists ps' thr,
  wakeup c w = Ret tt (with_k w (put_ps ps' thr (w_k w))) /\
  sched_inv ps' (push_all ps woken Q) /\
  forall i, (i < NPROC)%nat ->
    proc_at ps' i = if decide (i ∈ woken) then placed (set_p_state RUNNABLE (proc_at ps i))
                    else proc_at ps i.
Proof.
  intros Hq Hinv. apply wakeup_loop; [apply NoDup_seq| |done..].
  intros i Hi%elem_of_seq. lia.
Qed.

Lemma quiet_nil : quiet [].
Proof. split; [|intros i]; apply not_elem_of_nil. Qed.

(** Process 0 sleeps on the ticks and is woken. *)
Lemma wakeup_spec_witness :
  exists ps' thr,
  wakeup Ch_ticks (World [] (k_example (ps_one SLEEPING))) =
    Ret tt (World [] (put_ps ps' thr (k_example (ps_one SLEEPING)))) /\
  sched_inv ps' (push_all (ps_one SLEEPING) (sleepers (ps_one SLEEPING) None Ch_ticks (seq 0 NPROC)) qempty).
Proof.
  destruct (wakeup_spec Ch_ticks (World [] (k_example (ps_one SLEEPING))) qempty)
    as (ps' & thr & E & Hinv & _).
  - exact quiet_nil.
  - apply ps_one_inv. discriminate.
  - exists ps', thr. split; [exact E | exact Hinv].
Defined.

(** ** Giving up the CPU *)

Lemma curproc_ok w p : k_cur (w_k w) = Some p -> curproc w = Ret p w.
Proof. intros H. unfold curproc, myproc, kget, mbind, K_bind. by rewrite H. Qed.

Lemma sched_inv_ext ps ps' Q :
  ps_proc ps' = ps_proc ps -> ps_qtable ps' = ps_qtable ps ->
  ps_isQueueSetup ps' = ps_isQueueSetup ps -> sched_inv ps Q -> sched_inv ps' Q.
Proof.
  intros H1 H2 H3 H. split; unfold proc_at; rewrite ?H1, ?H2, ?H3; apply H.
Qed.

(** [sched] with only [p->lock] held and [p] not RUNNING switches. *)
Lemma sched_ok w p : k_cur (w_k w) = Some p -> k_held (w_k w) = [L_proc p] ->
  p_state (proc_at (k_ps (w_k w)) p) <> RUNNING -> sched w = swtch_out p w.
Proof.
  intros Hc Hh Hs. unfold sched. rewrite (bind_ret _ _ _ _ _ (curproc_ok _ _ Hc)).
  unfold holding, kget, get_proc, mbind, K_bind, mret, K_ret. rewrite Hh.
  rewrite bool_decide_eq_true_2 by set_solver. cbn [negb]. rewrite Hh. unfold kget. cbn.
  by rewrite bool_decide_eq_false_2.
Qed.

(** What a switched-out computation returns: it blocks in [s], or is
    resumed after the first environment action and ends in [g]. *)
Definition switched (w : world) (s : kst) (g : kst -> kst) : res unit :=
  match w_env w with
  | [] => Blocked (World [] s)
  | f :: env => Ret tt (World env (g (f s)))
  end.

(** The process a [yield] puts back on a queue. *)
Definition used_quantum (p : proc) : proc :=
  set_p_quanta (i32 (p_quanta p + 1)) (set_p_state RUNNABLE p).

Lemma ensure_upd i f ps : ensure_ps (upd_proc i f ps) = upd_proc i f (ensure_ps ps).
Proof. destruct ps. unfold ensure_ps. simpl. by destruct (_ =? _). Qed.

Lemma upd_upd i f g ps : (i < length (ps_proc ps))%nat ->
  upd_proc i g (upd_proc i f ps) = upd_proc i (fun p => g (f p)) ps.
Proof.
  intros Hi. unfold upd_proc at 1 3. unfold upd_proc. cbn [ps_proc set_ps_proc].
  rewrite list_insert_insert_eq. unfold proc_at at 1. cbn [ps_proc set_ps_proc].
  erewrite nth_lookup_Some by (by apply list_lookup_insert_eq). done.
Qed.

Lemma yield_ps_eq ps i f g v :
  (i < length (ps_proc ps))%nat ->
  enqueue_ps i (set_ps_timeSincePriorityBoost v (upd_proc i g (ensure_ps (upd_proc i f ps)))) =
  set_ps_timeSincePriorityBoost v (runnable_ps i (fun p => g (f p)) ps).
Proof.
  intros Hi. unfold runnable_ps.
  assert (upd_proc i g (ensure_ps (upd_proc i f ps)) = ensure_ps (upd_proc i (fun p => g (f p)) ps)) as ->.
  { rewrite !ensure_upd. apply upd_upd. unfold ensure_ps. by destruct (_ =? _). }
  rewrite !enqueue_ps_eq. done.
Qed.

Lemma release_after_resume p s env : release (L_proc p) (World env (resume p s)) =
  Ret tt (World env (set_k_held [] (resume p s))).
Proof. rewrite (release_ok _ _ []) by (done || set_solver). done. Qed.

Lemma yield_ok w p Q :
  k_cur (w_k w) = Some p -> k_held (w_k w) = [] -> (p < NPROC)%nat ->
  sched_inv (k_ps (w_k w)) Q -> p_state (proc_at (k_ps (w_k w)) p) = RUNNING ->
  let q := used_quantum (proc_at (k_ps (w_k w)) p) in
  exists ps' thr,
  let s' := set_k_held [L_proc p] (put_ps ps' thr (w_k w)) in
  yield w = switched w s' (fun s => set_k_held [] (resume p s)) /\
  sched_inv ps' (qpush (level q) p Q) /\
  (forall i, (i < NPROC)%nat ->
     proc_at ps' i = if decide (i = p) then placed q else proc_at (k_ps (w_k w)) i) /\
  ps_timeSincePriorityBoost ps' = i32 (ps_timeSincePriorityBoost (k_ps (w_k w)) + 1) /\
  ps_isQueueSetup ps' <> 0.
Proof.
  intros Hc Hh Hp Hinv Hs q. unfold yield.
  rewrite (bind_ret _ _ _ _ _ (curproc_ok _ _ Hc)).
  rewrite (bind_ret (acquire (L_proc p)) _ _ _ _ (acquire_ok (L_proc p) w ltac:(rewrite Hh; set_solver))).
  rewrite Hh. set (w1 := with_k w _).
  rewrite (bind_ret (mod_proc p _) _ w1 tt
    (with_k w1 (set_k_ps (upd_proc p (set_p_state RUNNABLE) (k_ps (w_k w))) (w_k w1)))) by done.
  set (w2 := with_k w1 _).
  destruct (ensure_queue_ok w2) as [thr E]; [simpl; set_solver|].
  rewrite (bind_ret _ _ _ _ _ E). clear E. set (w3 := with_k w2 _).
  set (ps := k_ps (w_k w)) in *.
  set (f := set_p_state RUNNABLE). set (g := fun q => set_p_quanta (i32 (p_quanta q + 1)) q).
  set (v := i32 (ps_timeSincePriorityBoost ps + 1)).
  set (ps' := set_ps_timeSincePriorityBoost v (runnable_ps p (fun q => g (f q)) ps)).
  assert (enqueue_ps p (set_ps_timeSincePriorityBoost v (upd_proc p g (ensure_ps (upd_proc p f ps)))) = ps')
    as Eps.
  { apply yield_ps_eq. rewrite (si_nproc _ _ Hinv). done. }
  assert (ps_timeSincePriorityBoost (upd_proc p g (ensure_ps (upd_proc p f ps)))
          = ps_timeSincePriorityBoost ps) as Et.
  { unfold ensure_ps. simpl. by destruct (_ =? _). }
  set (w4 := with_k w (set_k_held [L_proc p] (put_ps ps' thr (w_k w)))).
  rewrite (bind_ret (mod_proc p _) _ w3 tt
    (with_k w3 (set_k_ps (upd_proc p g (ensure_ps (upd_proc p f ps))) (w_k w3)))) by done.
  rewrite (bind_ret (mod_ps _) _ _ tt
    (with_k w3 (set_k_ps (set_ps_timeSincePriorityBoost v
       (upd_proc p g (ensure_ps (upd_proc p f ps)))) (w_k w3))))
    by (subst v; rewrite <- Et; done).
  rewrite (bind_ret (mod_ps _) _ _ tt w4) by (subst w4; rewrite <- Eps; by destruct w as [? []]).
  assert (proc_at ps' p = placed (g (f (proc_at ps p)))) as Hpp.
  { change (proc_at (runnable_ps p (fun q => g (f q)) ps) p = placed (g (f (proc_at ps p)))).
    rewrite proc_at_runnable by (done || exact (si_nproc _ _ Hinv)). by rewrite decide_True. }
  assert (sched w4 = swtch_out p w4) as Hsched.
  { apply sched_ok; [done|done|]. simpl. rewrite Hpp. done. }
  exists ps', thr. split.
  - unfold mbind, K_bind. rewrite Hsched. unfold swtch_out, switched. simpl.
    destruct (w_env w) as [|e env] eqn:Ee; [unfold w4, with_k; by rewrite Ee|].
    rewrite release_after_resume. done.
  - split_and!; [| |done|].
    3: { subst ps'. unfold runnable_ps. rewrite enqueue_ps_eq. simpl. unfold ensure_ps. simpl.
         by destruct (Z.eqb_spec (ps_isQueueSetup ps) 0). }
    + eapply (sched_inv_ext (runnable_ps p (fun q => g (f q)) ps)); [done..|].
      apply (runnable_ps_inv ps Q p (fun q => g (f q))); try done. by rewrite Hs.
    + intros i Hi. change (proc_at (runnable_ps p (fun q => g (f q)) ps) i =
        if decide (i = p) then placed q else proc_at ps i).
      rewrite proc_at_runnable by (done || exact (si_nproc _ _ Hinv)).
      destruct (decide (p = i)), (decide (i = p)); try done; subst; done.
Qed.

(** The scheduler data of [p] gone to sleep on [c]. *)
Definition sleep_ps (p : nat) (c : chan) (ps : psched) : psched :=
  upd_proc p (set_p_state SLEEPING) (upd_proc p (set_p_chan (Some c)) ps).

Lemma proc_at_sleep p c ps i : length (ps_proc ps) = NPROC -> (p < NPROC)%nat ->
  proc_at (sleep_ps p c ps) i =
  if decide (i = p) then set_p_state SLEEPING (set_p_chan (Some c) (proc_at ps p)) else proc_at ps i.
Proof.
  intros Hl Hp. unfold sleep_ps.
  rewrite !proc_at_upd by (done || (simpl; rewrite length_insert; done)).
  rewrite (decide_True (P := p = p)) by done.
  destruct (decide (p = i)), (decide (i = p)); subst; done.
Qed.

Lemma sleep_run c lk w p :
  k_cur (w_k w) = Some p -> k_held (w_k w) = [lk] -> lk <> L_proc p -> (p < NPROC)%nat ->
  length (ps_proc (k_ps (w_k w))) = NPROC ->
  sleep c lk w = switched w (set_k_held [L_proc p] (set_k_ps (sleep_ps p c (k_ps (w_k w))) (w_k w)))
    (fun s => set_k_held [lk] (set_k_ps (upd_proc p (set_p_chan None) (k_ps (resume p s))) (resume p s))).
Proof.
  intros Hc Hh Hlk Hp Hl. unfold sleep.
  rewrite (bind_ret _ _ _ _ _ (curproc_ok _ _ Hc)).
  rewrite (bind_ret (acquire (L_proc p)) _ _ _ _ (acquire_ok (L_proc p) w ltac:(rewrite Hh; set_solver))).
  rewrite Hh. set (w1 := with_k w _).
  set (w2 := with_k w (set_k_held [L_proc p] (w_k w))).
  assert (release lk w1 = Ret tt w2) as Er.
  { unfold release, mbind, K_bind, kget. simpl.
    rewrite bool_decide_eq_true_2 by set_solver. unfold kmod. simpl.
    rewrite filter_cons_True by done. rewrite filter_cons_False by naive_solver.
    rewrite filter_nil. by destruct w as [? []]. }
  rewrite (bind_ret _ _ _ _ _ Er).
  set (ps := k_ps (w_k w)) in *.
  set (ps1 := upd_proc p (set_p_chan (Some c)) ps).
  set (w3 := with_k w (set_k_held [L_proc p] (set_k_ps (sleep_ps p c ps) (w_k w)))).
  rewrite (bind_ret (mod_proc p _) _ w2 tt (with_k w2 (set_k_ps ps1 (w_k w2)))) by done.
  rewrite (bind_ret (mod_proc p _) _ _ tt w3) by (by destruct w as [? []]).
  assert (sched w3 = swtch_out p w3) as Hsched.
  { apply sched_ok; [done|done|]. simpl. by rewrite proc_at_sleep, decide_True by done. }
  unfold mbind at 1, K_bind at 1. rewrite Hsched. unfold swtch_out, switched. simpl.
  destruct (w_env w) as [|e env] eqn:Ee; [unfold w3, with_k; by rewrite Ee|].
  unfold mod_proc, mod_ps, kmod, mbind, K_bind. simpl.
  rewrite (release_ok (L_proc p) _ []) by (done || set_solver).
  rewrite acquire_ok by (simpl; set_solver). done.
Qed.

Lemma sleep_ps_inv p c ps Q : sched_inv ps Q -> (p < NPROC)%nat ->
  p_state (proc_at ps p) = RUNNING -> sched_inv (sleep_ps p c ps) Q.
Proof.
  intros Hinv Hp Hs.
  assert (proc_at (upd_proc p (set_p_chan (Some c)) ps) p = set_p_chan (Some c) (proc_at ps p)) as Hp1.
  { rewrite proc_at_upd, decide_True by (done || exact (si_nproc _ _ Hinv)). done. }
  apply upd_proc_inv; [by apply upd_proc_same_inv|done| |done]. rewrite Hp1. simpl. by rewrite Hs.
Qed.

Lemma sleep_ok c lk w p Q :
  k_cur (w_k w) = Some p -> k_held (w_k w) = [lk] -> lk <> L_proc p -> (p < NPROC)%nat ->
  sched_inv (k_ps (w_k w)) Q -> p_state (proc_at (k_ps (w_k w)) p) = RUNNING ->
  exists ps',
  let s' := set_k_held [L_proc p] (set_k_ps ps' (w_k w)) in
  sleep c lk w = switched w s' (fun s =>
    set_k_held [lk] (set_k_ps (upd_proc p (set_p_chan None) (k_ps (resume p s))) (resume p s))) /\
  sched_inv ps' Q /\
  (forall i, (i < NPROC)%nat -> proc_at ps' i =
     if decide (i = p) then set_p_state SLEEPING (set_p_chan (Some c) (proc_at (k_ps (w_k w)) p))
     else proc_at (k_ps (w_k w)) i).
Proof.
  intros Hc Hh Hlk Hp Hinv Hs. exists (sleep_ps p c (k_ps (w_k w))). split_and!.
  - apply sleep_run; try done. exact (si_nproc _ _ Hinv).
  - by apply sleep_ps_inv.
  - intros i _. apply proc_at_sleep; [exact (si_nproc _ _ Hinv) | done].
Qed.

(** [yield] without locks held uses up one quantum, makes the process
    RUNNABLE and appends it to the queue of its level before it switches
    away with only its own lock held, so the scheduler never loses it; when
    it is resumed it returns with no lock held. *)
Theorem yield_spec w p Q :
  k_cur (w_k w) = Some p -> k_held (w_k w) = [] -> (p < NPROC)%nat ->
  sched_inv (k_ps (w_k w)) Q -> p_state (proc_at (k_ps (w_k w)) p) = RUNNING ->
  let q := used_quantum (proc_at (k_ps (w_k w)) p) in
  exists ps' thr,
  let s' := set_k_held [L_proc p] (put_ps ps' thr (w_k w)) in
  yield w = switched w s' (fun s => set_k_held [] (resume p s)) /\
  sched_inv ps' (qpush (level q) p Q) /\
  (forall i, (i < NPROC)%nat ->
     proc_at ps' i = if decide (i = p) then placed q else proc_at (k_ps (w_k w)) i) /\
  ps_timeSincePriorityBoost ps' = i32 (ps_timeSincePriorityBoost (k_ps (w_k w)) + 1) /\
  ps_isQueueSetup ps' <> 0.
Proof. apply yield_ok. Qed.

(** No lost wakeup. A process that calls [sleep(c, lk)] holding only
    [lk] gives up the CPU in a state where [lk] is free and it is SLEEPING
    on [c]; any later [wakeup(c)] by another process, from that state,
    makes it RUNNABLE and queues it. *)
Theorem sleep_wakeup c lk w p Q me held env :
  k_cur (w_k w) = Some p -> k_held (w_k w) = [lk] -> lk <> L_proc p -> (p < NPROC)%nat ->
  sched_inv (k_ps (w_k w)) Q -> p_state (proc_at (k_ps (w_k w)) p) = RUNNING ->
  quiet held -> me <> Some p ->
  exists s', sleep c lk w = switched w s' (fun s =>
      set_k_held [lk] (set_k_ps (upd_proc p (set_p_chan None) (k_ps (resume p s))) (resume p s))) /\
    k_held s' = [L_proc p] /\ sched_inv (k_ps s') Q /\
    exists ps2 thr Q2,
      wakeup c (World env (set_k_held held (set_k_cur me s'))) =
        Ret tt (World env (put_ps ps2 thr (set_k_held held (set_k_cur me s')))) /\
      sched_inv ps2 Q2 /\ p_state (proc_at ps2 p) = RUNNABLE /\ qin p Q2.
Proof.
  intros Hc Hh Hlk Hp Hinv Hs Hq Hme.
  destruct (sleep_ok c lk w p Q) as (ps' & E & Hinv' & Hps'); try done.
  eexists. split; [exact E|]. split; [done|]. split; [exact Hinv'|].
  destruct (wakeup_loop c (seq 0 NPROC)
    (World env (set_k_held held (set_k_cur me (set_k_held [L_proc p] (set_k_ps ps' (w_k w))))) ) Q)
    as (ps2 & thr & E2 & Hinv2 & Hps2); [apply NoDup_seq| |done|done|].
  { intros i Hi%elem_of_seq. lia. }
  exists ps2, thr, (push_all ps' (sleepers ps' me c (seq 0 NPROC)) Q).
  split; [exact E2|]. split; [exact Hinv2|].
  assert (p_state (proc_at ps2 p) = RUNNABLE) as Hrun.
  { rewrite (Hps2 p Hp). rewrite decide_True; [done|].
    apply list_elem_of_filter. split; [|apply elem_of_seq; lia].
    split; [done|]. simpl. rewrite (Hps' p Hp), decide_True by done. done. }
  split; [done|]. by apply (si_run _ _ Hinv2 p Hp).
Qed.

(** The running process of a system yields; one that sleeps is woken. *)
Definition k_running (held : list lockid) : kst :=
  set_k_held held (set_k_cur (Some 0%nat) (k_example (ps_one RUNNING))).

Lemma yield_spec_witness : exists ps' thr,
  yield (World [] (k_running [])) =
    switched (World [] (k_running [])) (set_k_held [L_proc 0] (put_ps ps' thr (k_running [])))
      (fun s => set_k_held [] (resume 0 s)) /\
  sched_inv ps' (qpush (level (used_quantum (proc_at (ps_one RUNNING) 0))) 0%nat qempty).
Proof.
  destruct (yield_spec (World [] (k_running [])) 0 qempty) as (ps' & thr & E & Hinv & _).
  - reflexivity.
  - reflexivity.
  - unfold NPROC. lia.
  - apply ps_one_inv. discriminate.
  - reflexivity.
  - exists ps', thr. split; [exact E | exact Hinv].
Defined.

Lemma sleep_wakeup_witness : exists s',
  sleep Ch_ticks L_ticks (World [] (k_running [L_ticks])) = Blocked (World [] s') /\
  exists ps2 thr Q2,
      wakeup Ch_ticks (World [] (set_k_held [] (set_k_cur None s'))) =
        Ret tt (World [] (put_ps ps2 thr (set_k_held [] (set_k_cur None s')))) /\
      p_state (proc_at ps2 0) = RUNNABLE /\ qin 0 Q2.
Proof.
  destruct (sleep_wakeup Ch_ticks L_ticks (World [] (k_running [L_ticks])) 0 qempty None [] [])
    as (s' & E & _ & _ & ps2 & thr & Q2 & E2 & _ & Hs & Hq).
  - reflexivity.
  - reflexivity.
  - discriminate.
  - unfold NPROC. lia.
  - apply ps_one_inv. discriminate.
  - reflexivity.
  - exact quiet_nil.
  - discriminate.
  - exists s'. split; [exact E|]. exists ps2, thr, Q2. split; [exact E2|]. split; [exact Hs | exact Hq].
Defined.
