(* ===== verification/SchedLoop.v ===== *)
(** * SchedLoop: the scheduler loop

    [dequeue] and [scheduler] against an interface: [Process swtch] says
    what the scheduler relies on when it switches to a process.  The
    instance [yielding_process] shows that processes that run and then call
    [yield] satisfy it. *)

From S2P Require Import Prelude.
From S2P Require Import State.
From S2P Require Import Kernel.
From S2P Require Import Mlfq.
From S2P Require Import Sched.
From S2P Require Import SchedInv.
From S2P Require Import SchedProps.

#[local] Opaque setupQueue enqueue removeFromQueue queue_choice.

(** The state in which the scheduler switches to [p]: its lock is held, it
    is this CPU's process and RUNNING, and it is in no queue. *)
Definition running (p : nat) (Q : queues) (s : kst) : Prop :=
  (p < NPROC)%nat /\ k_held s = [L_proc p] /\ k_cur s = Some p /\
  p_state (proc_at (k_ps s) p) = RUNNING /\ sched_inv (k_ps s) Q /\
  ps_isQueueSetup (k_ps s) <> 0.

(** The contract of a process with the scheduler: it comes back with its
    lock held and the queues in order. *)
Class Process (swtch : nat -> K unit) : Prop :=
  process_returns : forall p w Q, running p Q (w_k w) ->
    exists w' Q', swtch p w = Ret tt w' /\ k_held (w_k w') = [L_proc p] /\
      sched_inv (k_ps (w_k w')) Q' /\ ps_isQueueSetup (k_ps (w_k w')) <> 0.

(** The scheduler's view of kernel code run by [p]: it ends when the
    process switches back. *)
Definition process_run (m : nat -> K unit) (p : nat) : K unit := fun w =>
  match (release (L_proc p);; m p) (World [] (w_k w)) with
  | Blocked w' => Ret tt (World (w_env w) (w_k w'))
  | Ret _ w' => Hang w'
  | Panic msg w' => Panic msg w'
  | Hang w' => Hang w'
  end.

#[export] Instance yielding_process : Process (process_run (fun _ => yield)).
Proof.
  intros p w Q (Hp & Hh & Hc & Hs & Hinv & Hset). unfold process_run.
  rewrite (bind_ret (release (L_proc p)) _ _ _ _ (release_ok _ (World [] (w_k w)) [] Hh ltac:(set_solver))).
  destruct (yield_ok (with_k (World [] (w_k w)) (set_k_held [] (w_k (World [] (w_k w))))) p Q)
    as (ps' & thr & E & Hinv' & _ & _ & Hset'); try done.
  cbn beta. rewrite E. simpl. eexists _, _. split; [done|]. split; [done|].
  split; [exact Hinv' | done].
Qed.

(** The state of the switch to [p]. *)
Definition dispatch (p : nat) (s : kst) : kst :=
  set_k_held [L_proc p] (set_k_cur (Some p)
    (set_k_ps (upd_proc p (set_p_state RUNNING) (remove_ps p (k_ps s))) s)).

Lemma qfirst_in Q p : qfirst Q = Some p -> qin p Q.
Proof.
  unfold qfirst, qin, NUM_QUEUES. intros H.
  destruct (Q 0) as [|x l] eqn:E0; [destruct (Q 1) as [|x l] eqn:E1;
    [destruct (Q 2) as [|x l] eqn:E2; [done|]|]|]; simplify_eq;
    [exists 2; rewrite E2 | exists 1; rewrite E1 | exists 0; rewrite E0]; (split; [lia|]); by left.
Qed.

Lemma dispatch_running p s Q : k_held s = [] -> sched_inv (k_ps s) Q ->
  ps_isQueueSetup (k_ps s) <> 0 -> qin p Q -> running p (qremove p Q) (dispatch p s).
Proof.
  intros Hh Hinv Hset Hp. pose proof (sched_inv_range _ _ _ Hinv Hp) as Hlt.
  split_and!; try done; [|by apply run_proc_inv].
  simpl. rewrite proc_at_upd by (done || exact (si_nproc _ _ Hinv)). by rewrite decide_True.
Qed.

Lemma dequeue_none swtch w Q : sched_inv (k_ps (w_k w)) Q -> ps_isQueueSetup (k_ps (w_k w)) <> 0 ->
  qfirst Q = None -> dequeue swtch w = Ret tt w.
Proof.
  intros Hinv Hset HQ. unfold dequeue, kget, mbind, K_bind.
  by rewrite (dequeue_choice_rep _ _ (si_rep _ _ Hinv Hset)), HQ.
Qed.

Lemma dequeue_some swtch w p Q : sched_inv (k_ps (w_k w)) Q -> k_held (w_k w) = [] ->
  qfirst Q = Some p ->
  dequeue swtch w =
  (swtch p;;
   pr ← get_proc p;
   mod_ps (log_switch (p_pid pr));;
   kmod (set_k_cur None);;
   release (L_proc p)) (with_k w (dispatch p (w_k w))).
Proof.
  intros Hinv Hh HQ.
  assert (ps_isQueueSetup (k_ps (w_k w)) <> 0) as Hset.
  { intros E. rewrite (si_unset _ _ Hinv E) in HQ. done. }
  unfold dequeue, kget at 1. rewrite (bind_ret _ _ w (ps_qtable (k_ps (w_k w))) w) by done.
  rewrite (dequeue_choice_rep _ _ (si_rep _ _ Hinv Hset)), HQ. simpl. rewrite Nat2Z.id.
  rewrite (bind_ret (mod_ps _) _ w tt (with_k w (set_k_ps (remove_ps p (k_ps (w_k w))) (w_k w)))) by done.
  rewrite (bind_ret (kmod _) _ _ tt
    (with_k w (set_k_cur None (set_k_ps (remove_ps p (k_ps (w_k w))) (w_k w))))) by done.
  erewrite (bind_ret (acquire (L_proc p))) by (apply acquire_ok; simpl; rewrite Hh; set_solver).
  simpl. rewrite Hh. done.
Qed.

Lemma log_switch_inv pid ps Q : sched_inv ps Q -> sched_inv (log_switch pid ps) Q.
Proof.
  intros Hi. unfold log_switch. case_match; [|done]. eapply sched_inv_ext; [..|exact Hi]; done.
Qed.

Lemma dequeue_returns swtch `{Process swtch} w Q : sched_inv (k_ps (w_k w)) Q ->
  k_held (w_k w) = [] -> ps_isQueueSetup (k_ps (w_k w)) <> 0 ->
  exists w' Q', dequeue swtch w = Ret tt w' /\ k_held (w_k w') = [] /\
    sched_inv (k_ps (w_k w')) Q' /\ ps_isQueueSetup (k_ps (w_k w')) <> 0.
Proof.
  intros Hinv Hh Hset. destruct (qfirst Q) as [p|] eqn:HQ.
  - rewrite (dequeue_some swtch w p Q Hinv Hh HQ).
    destruct (process_returns p (with_k w (dispatch p (w_k w))) (qremove p Q))
      as (w1 & Q1 & E & Hh1 & Hinv1 & Hset1); [by apply dispatch_running, qfirst_in|].
    rewrite (bind_ret _ _ _ _ _ E).
    set (ps1 := log_switch (p_pid (proc_at (k_ps (w_k w1)) p)) (k_ps (w_k w1))).
    exists (with_k w1 (set_k_held [] (set_k_cur None (set_k_ps ps1 (w_k w1))))), Q1.
    split_and!; [|done|by apply log_switch_inv|by unfold ps1, log_switch; case_match].
    unfold get_proc, mod_ps, kget, kmod, mbind, K_bind.
    rewrite (release_ok _ _ []) by (done || set_solver). done.
  - exists w, Q. by rewrite (dequeue_none swtch w Q).
Qed.

(** ** The priority boost *)

Definition runnables (ps : psched) (l : list nat) : list nat :=
  filter (fun i => p_state (proc_at ps i) = RUNNABLE) l.

Lemma elem_of_push_all ps l Q k i :
  i ∈ push_all ps l Q k <-> i ∈ Q k \/ (i ∈ l /\ k = level (proc_at ps i)).
Proof.
  unfold push_all. revert Q. induction l as [|j l IH]; intros Q; simpl; [set_solver|].
  rewrite IH, elem_of_qpush. set_solver.
Qed.

Lemma qin_push_all ps l Q i : qin i (push_all ps l Q) <-> qin i Q \/ i ∈ l.
Proof.
  unfold qin. split.
  - intros (k & Hk & [?|[? _]]%elem_of_push_all); [left; by exists k | by right].
  - intros [(k & Hk & ?)|?].
    + exists k. rewrite elem_of_push_all. auto.
    + exists (level (proc_at ps i)). rewrite elem_of_push_all.
      split; [apply queue_choice_range | auto].
Qed.

Lemma runnables_agree ps ps' l :
  (forall i, i ∈ l -> proc_at ps' i = proc_at ps i) -> runnables ps' l = runnables ps l.
Proof.
  unfold runnables. induction l as [|i l IH]; intros H; [done|].
  rewrite !filter_cons, IH by set_solver. by rewrite (H i) by set_solver.
Qed.

Lemma boost_loop l : forall ps Q,
  NoDup l -> (forall i, i ∈ l -> (i < NPROC)%nat /\ ~ qin i Q) ->
  length (ps_proc ps) = NPROC -> qrep (ps_qtable ps) Q ->
  let ps' := fold_left (fun ps i => if bool_decide (p_state (proc_at ps i) = RUNNABLE)
                                    then enqueue_ps i ps else ps) l ps in
  qrep (ps_qtable ps') (push_all ps (runnables ps l) Q) /\
  length (ps_proc ps') = NPROC /\ ps_isQueueSetup ps' = ps_isQueueSetup ps /\
  forall i, (i < NPROC)%nat -> proc_at ps' i =
    if decide (i ∈ runnables ps l) then placed (proc_at ps i) else proc_at ps i.
Proof.
  induction l as [|i l IH]; intros ps Q Hnd Hl Hlen Hr ps'.
  { done. }
  apply NoDup_cons in Hnd as [Hil Hnd]. subst ps'. cbn [fold_left].
  destruct (Hl i) as [Hi Hn]; [set_solver|].
  unfold runnables. rewrite filter_cons. fold (runnables ps l).
  case_decide as Hs.
  - rewrite bool_decide_eq_true_2 by done. rewrite enqueue_ps_eq.
    set (ps1 := upd_proc i _ _).
    assert (forall j, (j < NPROC)%nat -> proc_at ps1 j = if decide (i = j) then placed (proc_at ps i) else proc_at ps j)
      as Hps1.
    { intros j Hj. subst ps1. rewrite proc_at_upd by done. done. }
    assert (forall j, j ∈ l -> proc_at ps1 j = proc_at ps j) as Hag.
    { intros j Hj. rewrite Hps1 by (apply Hl; set_solver). rewrite decide_False; [done|]. intros ->. done. }
    destruct (IH ps1 (qpush (level (proc_at ps i)) i Q)) as (Hr' & Hl' & Hset' & Hps'); try done.
    + intros j Hj. split; [apply Hl; set_solver|].
      rewrite qin_qpush by apply queue_choice_range. intros [Hjn| ->]; [|done].
      destruct (Hl j) as [_ Hjn']; [set_solver|done].
    + subst ps1. simpl. rewrite length_insert. done.
    + apply enqueue_rep; done.
    + rewrite (runnables_agree ps ps1) in Hr', Hps' by done.
      rewrite (push_all_agree ps ps1) in Hr'
        by (intros ? [_ ?]%list_elem_of_filter; by apply Hag).
      split_and!; [exact Hr'|done|done|].
      intros j Hj. rewrite (Hps' j Hj), (Hps1 j Hj).
      destruct (decide (j ∈ runnables ps l)) as [Hjr|Hjr].
      * rewrite (decide_True (P := j ∈ i :: _)) by set_solver.
        rewrite decide_False; [done|]. intros ->. by apply list_elem_of_filter in Hjr as [_ ?].
      * destruct (decide (i = j)) as [->|Hij].
        -- by rewrite decide_True by set_solver.
        -- by rewrite decide_False by set_solver.
  - rewrite bool_decide_eq_false_2 by done.
    destruct (IH ps Q) as (Hr' & Hl' & Hset' & Hps'); try done.
    intros j Hj. apply Hl. set_solver.
Qed.

(** The boost rebuilds the queues from the RUNNABLE processes. *)
Lemma boost_inv ps Q : sched_inv ps Q -> ps_isQueueSetup ps <> 0 ->
  sched_inv (boost_ps (setup_ps ps)) (push_all ps (runnables ps (seq 0 NPROC)) qempty) /\
  ps_isQueueSetup (boost_ps (setup_ps ps)) <> 0.
Proof.
  intros H Hset. unfold boost_ps.
  pose proof (boost_loop (seq 0 NPROC) (setup_ps ps) qempty) as HB. cbv zeta in HB.
  set (ps' := fold_left _ _ _) in HB |- *. clearbody ps'.
  destruct HB as (Hr & Hl & Hset' & Hp).
  - apply NoDup_seq.
  - intros i Hi%elem_of_seq. split; [lia|apply qin_empty].
  - exact (si_nproc _ _ H).
  - apply setupQueue_rep. exact (si_qtable _ _ H).
  - change (runnables (setup_ps ps)) with (runnables ps) in *.
    change (push_all (setup_ps ps)) with (push_all ps) in *.
    split; [|by rewrite Hset'].
    assert (forall i, (i < NPROC)%nat -> i ∈ runnables ps (seq 0 NPROC) <-> p_state (proc_at ps i) = RUNNABLE)
      as Hrun.
    { intros i Hi. unfold runnables. rewrite list_elem_of_filter, elem_of_seq. intuition lia. }
    split; [done | apply Hr | done | | |].
    + intros E. rewrite Hset' in E. done.
    + intros i Hi. rewrite qin_push_all, (Hp i Hi).
      change (proc_at (setup_ps ps) i) with (proc_at ps i).
      pose proof (qin_empty i). case_decide as Hd.
      * apply Hrun in Hd as Hd'; [|done]. simpl. tauto.
      * rewrite (Hrun i Hi) in *. tauto.
    + intros k i Hk [?|[Hi ->]]%elem_of_push_all; [unfold qempty in *; set_solver|].
      assert (i < NPROC)%nat as Hlt by (apply list_elem_of_filter in Hi as [_ Hi%elem_of_seq]; lia).
      rewrite (Hp i Hlt), decide_True by done. done.
Qed.

(** ** The loop *)

Lemma scheduler_round_returns swtch `{Process swtch} w Q :
  sched_inv (k_ps (w_k w)) Q -> k_held (w_k w) = [] -> ps_isQueueSetup (k_ps (w_k w)) <> 0 ->
  exists w' Q', scheduler_round swtch w = Ret tt w' /\ k_held (w_k w') = [] /\
    sched_inv (k_ps (w_k w')) Q' /\ ps_isQueueSetup (k_ps (w_k w')) <> 0.
Proof.
  intros Hinv Hh Hset. unfold scheduler_round, kget at 1.
  rewrite (bind_ret _ _ w (ps_timeSincePriorityBoost (k_ps (w_k w))) w) by done.
  destruct (60 <? ps_timeSincePriorityBoost (k_ps (w_k w))); [|by eapply dequeue_returns].
  cbn [kwhen]. unfold k_setupQueue.
  set (w1 := with_k w (set_k_ps (set_ps_timeSincePriorityBoost 0 (boost_ps (setup_ps (k_ps (w_k w)))))
    (set_k_thr ((k_thr (w_k w) ++ bytes_of_string "Priority Boost!
") ++ bytes_of_string "SETTING UP THE QUEUE!
") (w_k w)))).
  rewrite (bind_ret _ _ w tt w1).
  - destruct (boost_inv _ _ Hinv Hset) as [Hb Hb']. subst w1.
    generalize dependent (boost_ps (setup_ps (k_ps (w_k w)))). intros ps' Hb Hb'.
    eapply (dequeue_returns swtch); [|exact Hh|exact Hb'].
    simpl. eapply sched_inv_ext; [..|exact Hb]; done.
  - erewrite bind_ret by (apply printf_ok; rewrite Hh; set_solver).
    unfold mbind at 1, K_bind at 1.
    erewrite (bind_ret (printf_ _)) by (apply printf_ok; simpl; rewrite Hh; set_solver).
    subst w1. unfold setup_ps. generalize boost_ps, setupQueue. by destruct w as [? []].
Qed.

Lemma scheduler_returns_lem n swtch `{Process swtch} w Q :
  sched_inv (k_ps (w_k w)) Q -> k_held (w_k w) = [] -> ps_isQueueSetup (k_ps (w_k w)) <> 0 ->
  exists w' Q', scheduler n swtch w = Ret tt w' /\ k_held (w_k w') = [] /\
    sched_inv (k_ps (w_k w')) Q' /\ ps_isQueueSetup (k_ps (w_k w')) <> 0.
Proof.
  revert w Q. induction n as [|n IH]; intros w Q Hinv Hh Hset; [by exists w, Q|].
  simpl. destruct (scheduler_round_returns swtch w Q) as (w1 & Q1 & E & ? & ? & ?); [done..|].
  rewrite (bind_ret _ _ _ _ _ E). by eapply IH.
Qed.

(** C5: For processes that keep their contract with the scheduler, any
    number of iterations of the scheduler loop, priority boosts included,
    runs without panic and keeps the run queues exactly the RUNNABLE
    processes. *)
Theorem scheduler_invariant n swtch w Q :
  Process swtch ->
  sched_inv (k_ps (w_k w)) Q -> k_held (w_k w) = [] -> ps_isQueueSetup (k_ps (w_k w)) <> 0 ->
  exists w' Q', scheduler n swtch w = Ret tt w' /\ k_held (w_k w') = [] /\
    sched_inv (k_ps (w_k w')) Q'.
Proof.
  intros HP Hinv Hh Hset.
  destruct (scheduler_returns_lem n swtch w Q Hinv Hh Hset) as (w' & Q' & ? & ? & ? & ?). eauto.
Qed.

(** C6: [dequeue] serves the queues by strict priority and each queue in
    FIFO order: it does nothing when all queues are empty, and otherwise
    runs the first process of the first non-empty queue, taken out of its
    queue, RUNNING, as this CPU's process and with its lock held; when the
    process comes back, the switch is logged and its lock released. *)
Theorem dequeue_strict_priority swtch w Q :
  Process swtch ->
  sched_inv (k_ps (w_k w)) Q -> k_held (w_k w) = [] -> ps_isQueueSetup (k_ps (w_k w)) <> 0 ->
  match qfirst Q with
  | None => dequeue swtch w = Ret tt w
  | Some p =>
    running p (qremove p Q) (dispatch p (w_k w)) /\
    exists w1, swtch p (with_k w (dispatch p (w_k w))) = Ret tt w1 /\
      dequeue swtch w = Ret tt (with_k w1 (set_k_held [] (set_k_cur None (set_k_ps
        (log_switch (p_pid (proc_at (k_ps (w_k w1)) p)) (k_ps (w_k w1))) (w_k w1)))))
  end.
Proof.
  intros HP Hinv Hh Hset. destruct (qfirst Q) as [p|] eqn:HQ.
  - assert (running p (qremove p Q) (dispatch p (w_k w))) as Hrun
      by (by apply dispatch_running, qfirst_in).
    split; [done|].
    destruct (process_returns p (with_k w (dispatch p (w_k w))) _ Hrun) as (w1 & Q1 & E & Hh1 & _).
    exists w1. split; [done|]. rewrite (dequeue_some swtch w p Q Hinv Hh HQ), (bind_ret _ _ _ _ _ E).
    unfold get_proc, mod_ps, kget, kmod, mbind, K_bind.
    rewrite (release_ok _ _ []) by (done || set_solver). done.
  - by apply (dequeue_none swtch w Q).
Qed.

(** The priority boost loses no process: rebuilding the queues leaves
    exactly the RUNNABLE processes queued, in table order at the level
    chosen from their nice value and used quanta. *)
Theorem priority_boost_spec ps Q : sched_inv ps Q -> ps_isQueueSetup ps <> 0 ->
  sched_inv (boost_ps (setup_ps ps)) (push_all ps (runnables ps (seq 0 NPROC)) qempty).
Proof. intros H Hset. by apply (boost_inv ps Q). Qed.

(** One RUNNABLE process that yields whenever it runs. *)
Lemma scheduler_invariant_witness : exists w' Q',
  scheduler 200 (process_run (fun _ => yield)) (World [] (k_example ps_ready)) = Ret tt w' /\
  k_held (w_k w') = [] /\ sched_inv (k_ps (w_k w')) Q'.
Proof.
  apply (scheduler_invariant 200 (process_run (fun _ => yield)) (World [] (k_example ps_ready))
    (qpush 1 0%nat qempty)).
  - exact yielding_process.
  - exact ps_ready_inv.
  - reflexivity.
  - discriminate.
Defined.

Lemma dequeue_strict_priority_witness :
  exists w1, process_run (fun _ => yield) 0 (World [] (dispatch 0 (k_example ps_ready))) = Ret tt w1.
Proof.
  destruct (dequeue_strict_priority (process_run (fun _ => yield)) (World [] (k_example ps_ready))
    (qpush 1 0%nat qempty)) as (_ & w1 & E & _).
  - exact yielding_process.
  - exact ps_ready_inv.
  - reflexivity.
  - discriminate.
  - exists w1. exact E.
Defined.

Lemma priority_boost_spec_witness :
  sched_inv (boost_ps (setup_ps ps_ready))
    (push_all ps_ready (runnables ps_ready (seq 0 NPROC)) qempty).
Proof.
  apply (priority_boost_spec ps_ready (qpush 1 0%nat qempty)); [exact ps_ready_inv | discriminate].
Defined.
