(* ===== verification/SchedCalls.v ===== *)
(** * SchedCalls: kill, nice, the scheduling log and the choice of level

    Theorems about [kill], [sys_nice], the log kept by [dequeue] and the
    rules by which [enqueue] chooses a level. *)

From S2P Require Import Prelude.
From S2P Require Import State.
From S2P Require Import Kernel.
From S2P Require Import Dll.
From S2P Require Import Mlfq.
From S2P Require Import Sched.
From S2P Require Import SchedInv.
From S2P Require Import SchedProps.
From S2P Require Import SchedLoop.

(** ** The level of a process *)

(** The level a nice value asks for. *)
Definition nice_level (nice : Z) : Z := if 10 <? nice then 0 else if -10 <? nice then 1 else 2.
(** The quanta a process may use at a level before it is demoted. *)
Definition quota (l : Z) : Z := if l =? 0 then 15 else if l =? 1 then 10 else 1.

(** [enqueue] puts a process at the level of its nice value, or one
    lower: it is demoted exactly when it stayed at or above that level
    since it was last queued and used more quanta than the level allows
    (15 at level 0, 10 at level 1), and it is never queued below level 2.
    A process that was demoted before is put back at its own level with a
    fresh allowance.  Quanta are reset on promotion and on demotion. *)
Theorem enqueue_level pindex p t :
  let l := nice_level (p_nice p) in
  let promoted := l <? p_queue p in
  let over := quota l <? p_quanta p in
  let p' := fst (enqueue pindex p t) in
  p_queue p' = (if negb promoted && over then Z.min 2 (l + 1) else l) /\
  (l < 2 -> p_quanta p' = if promoted || over then 0 else p_quanta p) /\
  (l = 2 -> p_quanta p' = if 1 <? p_quanta p then 0 else p_quanta p) /\
  0 <= p_queue p' < NUM_QUEUES /\ p_nice p' = p_nice p /\ p_state p' = p_state p.
Proof.
  cbv zeta. rewrite enqueue_fst. pose proof (queue_choice_range p) as Hr.
  split_and!; try done; try (simpl; lia).
  all: simpl; unfold queue_choice, nice_level, quota.
  all: repeat (zcase; simpl; try lia). all: try done.
Qed.

(** ** sys_nice *)

Lemma nice_new_range nice inc : -20 <= nice_new nice inc <= 19.
Proof. unfold nice_new. destruct (Z.ltb_spec 19 (i32 (nice + inc))); zcase; lia. Qed.

Lemma nice_new_clamp nice inc : - 2 ^ 31 <= nice + inc < 2 ^ 31 ->
  nice_new nice inc = Z.max (-20) (Z.min 19 (nice + inc)).
Proof.
  intros H. unfold nice_new. rewrite i32_small by done.
  destruct (Z.ltb_spec 19 (nice + inc)); zcase; lia.
Qed.

(** The scheduler data after [sys_nice] of process [p] with increment [inc]. *)
Definition nice_ps (p : nat) (inc : Z) (ps : psched) : psched :=
  let ps1 := upd_proc p (fun q => set_p_nice (nice_new (p_nice q) inc) q) ps in
  if nice_queue (nice_new (p_nice (proc_at ps p)) inc) =? p_queue (proc_at ps p)
  then ps1 else enqueue_ps p (remove_ps p ps1).

#[local] Opaque setupQueue enqueue removeFromQueue queue_choice.

Lemma sys_nice_ok w p inc :
  k_cur (w_k w) = Some p -> (p < NPROC)%nat -> length (ps_proc (k_ps (w_k w))) = NPROC ->
  i32 (tf_a0 (trapframe_of (w_k w) p)) = inc ->
  sys_nice w = Ret (nice_new (p_nice (proc_at (k_ps (w_k w)) p)) inc)
    (with_k w (set_k_ps (nice_ps p inc (k_ps (w_k w))) (w_k w))).
Proof.
  intros Hc Hp Hl Ha. unfold sys_nice, argint, argraw.
  rewrite (bind_ret _ _ w inc w).
  2: { unfold mbind at 1 2 3, K_bind. rewrite (curproc_ok _ _ Hc). unfold kget. simpl. by rewrite Ha. }
  rewrite (bind_ret _ _ _ _ _ (curproc_ok _ _ Hc)). unfold nice_ps.
  set (ps1 := upd_proc p _ (k_ps (w_k w))).
  assert (proc_at ps1 p = set_p_nice (nice_new (p_nice (proc_at (k_ps (w_k w)) p)) inc)
            (proc_at (k_ps (w_k w)) p)) as Hp1.
  { subst ps1. rewrite proc_at_upd by done. by rewrite decide_True. }
  rewrite (bind_ret (mod_proc p _) _ w tt (with_k w (set_k_ps ps1 (w_k w)))) by done.
  set (w1 := with_k w _).
  rewrite (bind_ret (get_proc p) _ w1 (proc_at ps1 p) w1) by done.
  rewrite Hp1. cbn [p_nice p_queue set_p_nice].
  destruct (nice_queue (nice_new (p_nice (proc_at (k_ps (w_k w)) p)) inc)
            =? p_queue (proc_at (k_ps (w_k w)) p)); by destruct w as [? []].
Qed.

(** [sys_nice] returns, and the nice value it stores and returns is
    between -20 and 19: the sum of the old value and the increment clamped
    to that range, as long as the 32-bit addition does not overflow. *)
Theorem sys_nice_spec w p inc :
  k_cur (w_k w) = Some p -> (p < NPROC)%nat -> length (ps_proc (k_ps (w_k w))) = NPROC ->
  i32 (tf_a0 (trapframe_of (w_k w) p)) = inc ->
  let nice := p_nice (proc_at (k_ps (w_k w)) p) in
  exists ps', sys_nice w = Ret (nice_new nice inc) (with_k w (set_k_ps ps' (w_k w))) /\
    p_nice (proc_at ps' p) = nice_new nice inc /\
    -20 <= nice_new nice inc <= 19 /\
    (- 2 ^ 31 <= nice + inc < 2 ^ 31 -> nice_new nice inc = Z.max (-20) (Z.min 19 (nice + inc))) /\
    (forall i, i <> p -> proc_at ps' i = proc_at (k_ps (w_k w)) i).
Proof.
  intros Hc Hp Hl Ha nice. eexists. split; [by apply sys_nice_ok|].
  split_and!; try apply nice_new_range; [|apply nice_new_clamp|].
  - unfold nice_ps. destruct (_ =? _).
    + rewrite proc_at_upd by done. by rewrite decide_True.
    + rewrite enqueue_ps_eq, proc_at_upd by (simpl; rewrite ?length_insert; done).
      rewrite decide_True by done. unfold placed. cbn [p_nice set_p_queue set_p_quanta].
      change (p_nice (proc_at (upd_proc p (fun q => set_p_nice (nice_new (p_nice q) inc) q)
        (k_ps (w_k w))) p) = nice_new nice inc).
      rewrite proc_at_upd by done. by rewrite decide_True.
  - intros i Hi. unfold nice_ps. destruct (_ =? _).
    + rewrite proc_at_upd by done. by rewrite decide_False.
    + rewrite enqueue_ps_eq, proc_at_upd by (simpl; rewrite ?length_insert; done).
      rewrite decide_False by done.
      change (proc_at (upd_proc p (fun q => set_p_nice (nice_new (p_nice q) inc) q)
        (k_ps (w_k w))) i = proc_at (k_ps (w_k w)) i).
      rewrite proc_at_upd by done. by rewrite decide_False.
Qed.

(** The level fields are changed only by [queue] assignments. *)
Lemma queue_aupd_other t i j f : (forall e, q_queue (f e) = q_queue e) ->
  q_queue (qget (aupd f t i) j) = q_queue (qget t j).
Proof.
  intros Hf. unfold qget, aget, aupd. rewrite !nth_lookup.
  destruct (decide (Z.to_nat i = Z.to_nat j)) as [->|Hne].
  - rewrite list_lookup_alter_eq. destruct (t !! Z.to_nat j); [apply Hf | done].
  - by rewrite list_lookup_alter_ne by done.
Qed.

Lemma queue_link_tail t x k T : length t = 70%nat -> 0 <= x < 64 ->
  q_queue (qget (link_tail t x k T) x) = k.
Proof.
  intros Hl Hx. unfold link_tail, set_next, set_prev.
  rewrite !queue_aupd_other by done.
  rewrite queue_set_queue by lia. by rewrite decide_True.
Qed.

(** A running process that calls [sys_nice] and ends with a nice value
    between -9 and 10 is always put back into a run queue although it is
    RUNNING: the queues no longer represent the RUNNABLE processes. *)
Theorem sys_nice_queues_running w p Q inc :
  k_cur (w_k w) = Some p -> (p < NPROC)%nat ->
  i32 (tf_a0 (trapframe_of (w_k w) p)) = inc ->
  sched_inv (k_ps (w_k w)) Q -> ps_isQueueSetup (k_ps (w_k w)) <> 0 ->
  p_state (proc_at (k_ps (w_k w)) p) = RUNNING ->
  0 <= p_queue (proc_at (k_ps (w_k w)) p) ->
  -10 < nice_new (p_nice (proc_at (k_ps (w_k w)) p)) inc <= 10 ->
  exists n ps', sys_nice w = Ret n (with_k w (set_k_ps ps' (w_k w))) /\
    p_state (proc_at ps' p) = RUNNING /\ 0 <= q_queue (qget (ps_qtable ps') (Z.of_nat p)) < NUM_QUEUES /\
    forall Q', ~ sched_inv ps' Q'.
Proof.
  intros Hc Hp Ha Hinv Hset Hs Hq0 Hn. pose proof (si_nproc _ _ Hinv) as Hl.
  do 2 eexists. split; [by apply sys_nice_ok|].
  unfold nice_ps. set (n := nice_new _ inc) in *.
  assert (nice_queue n = -1) as ->.
  { unfold nice_queue. repeat zcase; simpl; lia. }
  destruct (Z.eqb_spec (-1) (p_queue (proc_at (k_ps (w_k w)) p))) as [?|_]; [lia|].
  set (ps1 := remove_ps p _). set (ps2 := enqueue_ps p ps1).
  assert (length (ps_qtable ps1) = 70%nat) as Hl1.
  { subst ps1. unfold remove_ps. simpl. rewrite length_removeFromQueue. exact (si_qtable _ _ Hinv). }
  assert (p_state (proc_at ps2 p) = RUNNING) as Hs2.
  { subst ps2. rewrite enqueue_ps_eq.
    rewrite proc_at_upd by (done || (simpl; rewrite length_insert; done)). rewrite decide_True by done.
    change (p_state (proc_at (upd_proc p (fun q => set_p_nice (nice_new (p_nice q) inc) q)
      (k_ps (w_k w))) p) = RUNNING).
    rewrite proc_at_upd by done. by rewrite decide_True. }
  assert (0 <= q_queue (qget (ps_qtable ps2) (Z.of_nat p)) < NUM_QUEUES) as Hq2.
  { subst ps2. rewrite enqueue_ps_eq. cbn [ps_qtable upd_proc set_ps_proc set_ps_qtable].
    rewrite enqueue_snd, queue_link_tail by (done || unfold NPROC in Hp; lia).
    apply queue_choice_range. }
  split; [done|]. split; [done|]. intros Q' H'.
  assert (ps_isQueueSetup ps2 <> 0) as Hset2.
  { subst ps2. rewrite enqueue_ps_eq. done. }
  pose proof (qr_out _ _ (si_rep _ _ H' Hset2) p Hp) as Ho.
  rewrite Ho in Hq2.
  - unfold EMPTY, u64, NUM_QUEUES in Hq2. revert Hq2. vm_compute. intuition discriminate.
  - rewrite (si_run _ _ H' p Hp), Hs2. done.
Qed.

(** The state a computation ends in. *)
Definition after {A} (r : res A) : world :=
  match r with Ret _ w | Panic _ w | Blocked w | Hang w => w end.
Definition returns {A} (r : res A) : bool := match r with Ret _ _ => true | _ => false end.

(** One process on a booted machine. *)
Definition one_process : world := after (make_runnable 0 (World [] (kst_boot 0x80022000))).
(** *** Removing a process twice *)

Lemma qtable_ext t t' : length t = length t' ->
  (forall j, 0 <= j -> q_next (qget t j) = q_next (qget t' j) /\
     q_prev (qget t j) = q_prev (qget t' j) /\ q_queue (qget t j) = q_queue (qget t' j)) -> t = t'.
Proof.
  intros Hl H. apply (nth_ext _ _ qentry_zero qentry_zero); [done|]. intros n _.
  destruct (H (Z.of_nat n)) as (Hn & Hp & Hq); [lia|].
  unfold qget, aget in *. rewrite Nat2Z.id in *.
  destruct (nth n t qentry_zero), (nth n t' qentry_zero); simpl in *. by subst.
Qed.

(** The links of a process that left its queue still name its old
    neighbours, so that removing it again changes nothing. *)
Lemma removeFromQueue_twice t Q x : qrep t Q -> qin x Q ->
  removeFromQueue x (removeFromQueue x t) = removeFromQueue x t.
Proof.
  intros Hr (k & Hk & Hxk). pose proof (qr_range _ _ Hr k x Hk Hxk) as Hx. unfold NPROC in Hx.
  destruct (list_elem_of_split _ _ Hxk) as (l1 & l2 & E).
  pose proof (qr_dll _ _ Hr k Hk) as Hd. rewrite E, fmap_app, fmap_cons in Hd.
  pose proof (dll_neighbours _ _ _ _ _ _ _ Hd) as [Hu Hv]. simpl in Hu, Hv.
  pose proof (qnodes_nodup t Q Hr k Hk) as Hnd.
  pose proof (fun y => qnodes_range t Q Hr k y Hk) as Hrg.
  unfold qnodes in Hnd, Hrg. rewrite E, fmap_app, fmap_cons in Hnd, Hrg.
  set (u := q_prev (qget t (Z.of_nat x))) in *. set (v := q_next (qget t (Z.of_nat x))) in *.
  assert (u <> Z.of_nat x /\ v <> Z.of_nat x) as [Hux Hvx].
  { clear -Hnd Hu Hv. rewrite <- app_assoc, app_comm_cons in Hnd. simpl in Hnd.
    rewrite app_comm_cons in Hnd. apply NoDup_app in Hnd as (_ & H1 & H2).
    apply NoDup_cons in H2 as [H2 _].
    split; [intros Eu; apply (H1 u Hu); rewrite Eu; by left | intros Ev; by rewrite Ev in Hv]. }
  assert (0 <= u < 70 /\ 0 <= v < 70) as [Hu' Hv'].
  { split; apply Hrg; clear -Hu Hv; set_solver. }
  destruct (remove_fields t x) as (L & N & P & Qf); [apply Hr|lia|done|done|].
  fold u v in N, P. set (t1 := removeFromQueue x t) in *.
  assert (q_prev (qget t1 (Z.of_nat x)) = u) as Eu by (rewrite P, decide_False by (done || lia); done).
  assert (q_next (qget t1 (Z.of_nat x)) = v) as Ev by (rewrite N, decide_False by (done || lia); done).
  destruct (remove_fields t1 x) as (L1 & N1 & P1 & Qf1); [done|lia|by rewrite Eu|by rewrite Ev|].
  rewrite Eu, Ev in *. apply qtable_ext; [by rewrite L1|]. intros j Hj.
  rewrite N1, P1, Qf1, N, P, Qf by done. repeat case_decide; done.
Qed.

Lemma qremove_alone ps Q p : sched_inv ps Q ->
  (forall i, (i < NPROC)%nat -> p_state (proc_at ps i) = RUNNABLE -> i = p) ->
  forall k, 0 <= k < NUM_QUEUES -> qremove p Q k = [].
Proof.
  intros Hinv Honly k Hk. destruct (qremove p Q k) as [|i l] eqn:E; [done|].
  assert (i ∈ qremove p Q k) as [Hi Hne]%elem_of_qremove by (rewrite E; by left).
  assert (qin i Q) as Hin by (by exists k).
  pose proof (sched_inv_range _ _ _ Hinv Hin) as Hlt.
  apply (si_run _ _ Hinv i Hlt), (Honly i Hlt) in Hin. done.
Qed.

Lemma qfirst_empty Q : (forall k, 0 <= k < NUM_QUEUES -> Q k = []) -> qfirst Q = None.
Proof. intros H. unfold qfirst, NUM_QUEUES in *. by rewrite !H by lia. Qed.

Lemma qfirst_qpush_empty Q k p : (forall k, 0 <= k < NUM_QUEUES -> Q k = []) -> 0 <= k < NUM_QUEUES ->
  qfirst (qpush k p Q) = Some p.
Proof.
  intros H Hk. unfold qfirst, qpush. rewrite !H by (unfold NUM_QUEUES; lia).
  unfold NUM_QUEUES in *. assert (k = 0 \/ k = 1 \/ k = 2) as [->|[->| ->]] by lia; done.
Qed.

(** *** A process that goes to sleep after [sys_nice] *)

Definition sleeping_process (c : chan) (lk : lockid) : nat -> K unit :=
  process_run (fun _ => acquire lk;; sleep c lk).
Definition nice_then_sleep (c : chan) (lk : lockid) : nat -> K unit :=
  process_run (fun _ => sys_nice;; acquire lk;; sleep c lk).

Lemma acquire_sleep_run c lk p s :
  k_cur s = Some p -> k_held s = [] -> lk <> L_proc p -> (p < NPROC)%nat ->
  length (ps_proc (k_ps s)) = NPROC ->
  (acquire lk;; sleep c lk) (World [] s) =
    Blocked (World [] (set_k_held [L_proc p] (set_k_ps (sleep_ps p c (k_ps s)) s))).
Proof.
  intros Hc Hh Hlk Hp Hl.
  rewrite (bind_ret (acquire lk) _ _ _ _ (acquire_ok lk (World [] s) ltac:(simpl; rewrite Hh; set_solver))).
  simpl. rewrite Hh. rewrite (sleep_run c lk _ p) by done. reflexivity.
Qed.

(** [dequeue] with a process that ends by switching back in state [s]. *)
Lemma dequeue_run_blocked (m : nat -> K unit) w p Q s :
  sched_inv (k_ps (w_k w)) Q -> k_held (w_k w) = [] -> qfirst Q = Some p ->
  m p (World [] (set_k_held [] (dispatch p (w_k w)))) = Blocked (World [] s) -> k_held s = [L_proc p] ->
  dequeue (process_run m) w = Ret tt (World (w_env w)
    (set_k_held [] (set_k_cur None (set_k_ps (log_switch (p_pid (proc_at (k_ps s) p)) (k_ps s)) s)))).
Proof.
  intros Hinv Hh HQ Hm Hs. rewrite (dequeue_some _ w p Q Hinv Hh HQ).
  set (w1 := with_k w (dispatch p (w_k w))).
  assert (process_run m p w1 = Ret tt (World (w_env w) s)) as E.
  { unfold process_run.
    rewrite (bind_ret (release (L_proc p)) _ _ tt (World [] (set_k_held [] (dispatch p (w_k w)))))
      by (rewrite (release_ok _ _ []); [done|done|set_solver]).
    by rewrite Hm. }
  rewrite (bind_ret _ _ _ _ _ E).
  unfold get_proc, mod_ps, kget, kmod, mbind, K_bind.
  by rewrite (release_ok _ _ []) by (done || set_solver).
Qed.

Lemma log_switch_proc pid ps i : proc_at (log_switch pid ps) i = proc_at ps i.
Proof. unfold log_switch. by case_match. Qed.
Lemma log_switch_qtable pid ps : ps_qtable (log_switch pid ps) = ps_qtable ps.
Proof. unfold log_switch. by case_match. Qed.

(** [dequeue] switches to the process it chooses, whatever its state. *)
Lemma dequeue_switch z w : k_held (w_k w) = [] -> dequeue_choice (ps_qtable (k_ps (w_k w))) = Some z ->
  dequeue (fun _ w => Hang w) w = Hang (with_k w (dispatch (Z.to_nat z) (w_k w))).
Proof.
  intros Hh Hz. unfold dequeue, kget at 1. rewrite (bind_ret _ _ w (ps_qtable (k_ps (w_k w))) w) by done.
  rewrite Hz. cbv zeta. set (p := Z.to_nat z).
  rewrite (bind_ret (mod_ps _) _ w tt (with_k w (set_k_ps (remove_ps p (k_ps (w_k w))) (w_k w)))) by done.
  rewrite (bind_ret (kmod _) _ _ tt
    (with_k w (set_k_cur None (set_k_ps (remove_ps p (k_ps (w_k w))) (w_k w))))) by done.
  erewrite (bind_ret (acquire (L_proc p))) by (apply acquire_ok; simpl; rewrite Hh; set_solver).
  simpl. rewrite Hh. done.
Qed.

(** [sys_nice] of a process just dispatched queues it again. *)
Lemma nice_ps_requeued p inc ps Q : sched_inv ps Q -> qin p Q ->
  -10 < nice_new (p_nice (proc_at ps p)) inc <= 10 ->
  let ps' := nice_ps p inc (upd_proc p (set_p_state RUNNING) (remove_ps p ps)) in
  length (ps_proc ps') = NPROC /\
  exists l, 0 <= l < NUM_QUEUES /\ qrep (ps_qtable ps') (qpush l p (qremove p Q)).
Proof.
  intros Hinv Hin Hn. pose proof (sched_inv_range _ _ _ Hinv Hin) as Hp.
  pose proof (si_nproc _ _ Hinv) as Hl.
  assert (ps_isQueueSetup ps <> 0) as Hset.
  { intros E. rewrite (si_unset _ _ Hinv E) in Hin. by apply qin_empty in Hin. }
  pose proof (si_rep _ _ Hinv Hset) as Hr.
  cbv zeta. set (ps0 := upd_proc p _ (remove_ps p ps)).
  assert (proc_at ps0 p = set_p_state RUNNING (proc_at ps p)) as Hp0.
  { subst ps0. rewrite proc_at_upd by done. by rewrite decide_True. }
  assert (0 <= p_queue (proc_at ps p)) as Hk.
  { destruct Hin as (k & Hk & Hk'). rewrite (si_level _ _ Hinv k p Hk Hk'). lia. }
  unfold nice_ps. rewrite Hp0. cbn [p_nice p_queue set_p_state].
  assert (nice_queue (nice_new (p_nice (proc_at ps p)) inc) = -1) as ->.
  { unfold nice_queue. repeat zcase; simpl; lia. }
  destruct (Z.eqb_spec (-1) (p_queue (proc_at ps p))) as [?|_]; [lia|].
  set (ps1 := upd_proc p _ ps0). rewrite enqueue_ps_eq. split.
  { cbn [ps_proc upd_proc set_ps_proc set_ps_qtable remove_ps]. subst ps1 ps0. simpl. by rewrite !length_insert. }
  eexists. split; [apply queue_choice_range|].
  cbn [ps_qtable upd_proc set_ps_proc set_ps_qtable].
  apply enqueue_rep; [|done|by intros [_ ?]%qin_qremove].
  change (qrep (removeFromQueue p (removeFromQueue p (ps_qtable ps))) (qremove p Q)).
  rewrite (removeFromQueue_twice _ Q) by done. by apply removeFromQueue_rep.
Qed.

(** C8: A process that goes to sleep after [sys_nice] is run again without
    a wakeup.  For every state of the scheduler and the process [p] it
    dispatches next: when [p] calls [sys_nice] and ends with a nice value
    from -9 to 10 and then sleeps on [c], its node is back at the tail of a
    run queue although [p] is SLEEPING; if no other process is RUNNABLE the
    scheduler then switches to [p], RUNNING and still on channel [c].
    Without the call the sleeping process is in no queue, the invariant of
    the run queues holds, and in that case the scheduler stays idle. *)
Theorem nice_dispatches_sleeping_process w Q p inc c lk :
  sched_inv (k_ps (w_k w)) Q -> k_held (w_k w) = [] -> qfirst Q = Some p ->
  i32 (tf_a0 (trapframe_of (w_k w) p)) = inc -> lk <> L_proc p ->
  -10 < nice_new (p_nice (proc_at (k_ps (w_k w)) p)) inc <= 10 ->
  let alone := forall i, (i < NPROC)%nat -> p_state (proc_at (k_ps (w_k w)) i) = RUNNABLE -> i = p in
  (exists w1 l, dequeue (nice_then_sleep c lk) w = Ret tt w1 /\
     p_state (proc_at (k_ps (w_k w1)) p) = SLEEPING /\ p_chan (proc_at (k_ps (w_k w1)) p) = Some c /\
     0 <= l < NUM_QUEUES /\ qrep (ps_qtable (k_ps (w_k w1))) (qpush l p (qremove p Q)) /\
     (alone -> exists w2, dequeue (fun _ w => Hang w) w1 = Hang w2 /\
        k_cur (w_k w2) = Some p /\ p_state (proc_at (k_ps (w_k w2)) p) = RUNNING /\
        p_chan (proc_at (k_ps (w_k w2)) p) = Some c)) /\
  (exists v1, dequeue (sleeping_process c lk) w = Ret tt v1 /\
     p_state (proc_at (k_ps (w_k v1)) p) = SLEEPING /\ sched_inv (k_ps (w_k v1)) (qremove p Q) /\
     (alone -> forall swtch, dequeue swtch v1 = Ret tt v1)).
Proof.
  intros Hinv Hh HQ Ha Hlk Hn alone.
  pose proof (qfirst_in _ _ HQ) as Hin. pose proof (sched_inv_range _ _ _ Hinv Hin) as Hp.
  assert (ps_isQueueSetup (k_ps (w_k w)) <> 0) as Hset.
  { intros E. rewrite (si_unset _ _ Hinv E) in HQ. done. }
  destruct (dispatch_running p (w_k w) Q Hh Hinv Hset Hin) as (_ & _ & Hc & Hs & Hrun & _).
  set (s0 := set_k_held [] (dispatch p (w_k w))).
  pose proof (si_nproc _ _ Hrun) as Hl.
  set (q := proc_at (k_ps (w_k w)) p) in *.
  assert (proc_at (k_ps s0) p = set_p_state RUNNING q) as Hp0.
  { subst s0 q. simpl. rewrite proc_at_upd by (done || exact (si_nproc _ _ Hinv)).
    by rewrite decide_True. }
  split.
  - set (s1 := set_k_ps (nice_ps p inc (k_ps s0)) s0).
    assert (sys_nice (World [] s0) = Ret (nice_new (p_nice q) inc) (World [] s1)) as En.
    { rewrite (sys_nice_ok (World [] s0) p inc); [by cbn [w_k]; rewrite Hp0|done..|].
      rewrite <- Ha. unfold trapframe_of. cbn [w_k]. by rewrite Hp0. }
    destruct (nice_ps_requeued p inc (k_ps (w_k w)) Q Hinv Hin Hn) as (Hl1 & l & Hlr & Hrep).
    change (nice_ps p inc (upd_proc p (set_p_state RUNNING) (remove_ps p (k_ps (w_k w)))))
      with (k_ps s1) in Hl1, Hrep.
    set (s2 := set_k_held [L_proc p] (set_k_ps (sleep_ps p c (k_ps s1)) s1)).
    assert ((sys_nice;; acquire lk;; sleep c lk) (World [] s0) = Blocked (World [] s2)) as Es.
    { rewrite (bind_ret _ _ _ _ _ En). by apply acquire_sleep_run. }
    assert (proc_at (k_ps s2) p = set_p_state SLEEPING (set_p_chan (Some c) (proc_at (k_ps s1) p))) as Hp2.
    { unfold s2. cbn [k_ps set_k_held set_k_ps]. by rewrite proc_at_sleep, decide_True by done. }
    eexists _, l. split; [by apply (dequeue_run_blocked _ w p Q s2)|].
    cbn [w_k k_ps set_k_held set_k_cur set_k_ps].
    rewrite log_switch_proc, log_switch_qtable, Hp2. split_and!; try done; [apply Hlr..|].
    intros Halone. eexists. split; [apply (dequeue_switch (Z.of_nat p)); [done|]|].
    { cbn [w_k k_ps set_k_held set_k_cur set_k_ps]. rewrite log_switch_qtable.
      etransitivity; [exact (dequeue_choice_rep _ _ Hrep)|].
      rewrite (qfirst_qpush_empty _ _ _ (qremove_alone _ _ _ Hinv Halone)) by done.
      done. }
    rewrite Nat2Z.id. cbn [w_k with_k k_ps k_cur set_k_held set_k_cur set_k_ps dispatch].
    set (ps3 := remove_ps p _).
    assert (proc_at ps3 p = proc_at (k_ps s2) p) as Hp3 by apply log_switch_proc.
    rewrite proc_at_upd, decide_True, Hp3, Hp2; try done.
    subst ps3. unfold log_switch. unfold s2. case_match; simpl; by rewrite !length_insert.
  - set (s2 := set_k_held [L_proc p] (set_k_ps (sleep_ps p c (k_ps s0)) s0)).
    assert ((acquire lk;; sleep c lk) (World [] s0) = Blocked (World [] s2)) as Es
      by (by apply acquire_sleep_run).
    assert (sched_inv (k_ps s2) (qremove p Q)) as H2 by (by apply sleep_ps_inv).
    eexists. split; [by apply (dequeue_run_blocked _ w p Q s2)|].
    cbn [w_k k_ps set_k_held set_k_cur set_k_ps].
    split_and!; [|by apply log_switch_inv|].
    + rewrite log_switch_proc. unfold s2. cbn [k_ps set_k_held set_k_ps].
      by rewrite proc_at_sleep, decide_True by done.
    + intros Halone swtch. apply (dequeue_none swtch _ (qremove p Q)).
      * by apply log_switch_inv.
      * cbn [w_k k_ps set_k_held set_k_cur set_k_ps]. unfold log_switch. by case_match.
      * apply qfirst_empty. by apply (qremove_alone (k_ps (w_k w))).
Qed.

(** With a [yield] in between the node of the process is even linked to
    itself, so that taking it out of the queue does not take it out. *)
Definition nice_then_yield : nat -> K unit := process_run (fun _ => sys_nice;; yield).

Example nice_yield_self_link :
  let w1 := after (dequeue nice_then_yield one_process) in
  let w2 := after (dequeue (sleeping_process Ch_ticks L_ticks) w1) in
  returns (dequeue nice_then_yield one_process)
    && returns (dequeue (sleeping_process Ch_ticks L_ticks) w1) = true /\
  q_next (qget (ps_qtable (k_ps (w_k w1))) 0) = 0 /\
  p_state (proc_at (k_ps (w_k w2)) 0) = SLEEPING /\
  dequeue_choice (ps_qtable (k_ps (w_k w2))) = Some 0.
Proof. vm_compute. auto. Qed.

(** ** kill *)

#[local] Opaque setupQueue enqueue removeFromQueue queue_choice.

(** The first process of [l] with id [pid]. *)
Definition find_pid (ps : psched) (pid : Z) (l : list nat) : option nat :=
  snd <$> list_find (fun i => p_pid (proc_at ps i) = pid) l.

Definition kill_ps (i : nat) (ps : psched) : psched :=
  let ps1 := upd_proc i (set_p_killed 1) ps in
  if decide (p_state (proc_at ps i) = SLEEPING)
  then runnable_ps i (set_p_state RUNNABLE) ps1 else ps1.

Lemma kill_loop pid l w : quiet (k_held (w_k w)) ->
  exists thr,
  (r ← kfind l (fun i =>
    acquire (L_proc i);;
    p ← get_proc i;
    if p_pid p =? pid then
      mod_proc i (set_p_killed 1);;
      kwhen (bool_decide (p_state p = SLEEPING)) (make_runnable i);;
      release (L_proc i);;
      mret (Some 0)
    else
      release (L_proc i);;
      mret None);
   mret (default (-1) r)) w =
  match find_pid (k_ps (w_k w)) pid l with
  | Some i => Ret 0 (with_k w (put_ps (kill_ps i (k_ps (w_k w))) thr (w_k w)))
  | None => Ret (-1) w
  end.
Proof.
  intros Hq. unfold find_pid. induction l as [|i l [thr IH]].
  { exists []. done. }
  cbn [kfind list_find].
  unfold mbind at 1, K_bind at 1. unfold mbind at 1, K_bind at 1.
  erewrite (bind_ret (acquire _)) by (apply acquire_ok; apply Hq).
  set (w1 := with_k w _).
  rewrite (bind_ret (get_proc i) _ w1 (proc_at (k_ps (w_k w)) i) w1) by done.
  destruct (decide (p_pid (proc_at (k_ps (w_k w)) i) = pid)) as [E|E].
  - rewrite E, Z.eqb_refl. simpl.
    rewrite (bind_ret (mod_proc i _) _ w1 tt
      (with_k w1 (set_k_ps (upd_proc i (set_p_killed 1) (k_ps (w_k w))) (w_k w1)))) by done.
    unfold kill_ps. case_decide as Hs.
    + rewrite bool_decide_eq_true_2 by done. cbn [kwhen].
      destruct (make_runnable_ok i
        (with_k w1 (set_k_ps (upd_proc i (set_p_killed 1) (k_ps (w_k w))) (w_k w1)))) as [thr' E'];
        [by apply quiet_proc|].
      exists thr'. rewrite (bind_ret _ _ _ _ _ E').
      erewrite (bind_ret (release _)) by (apply release_ok; [done|apply Hq]).
      by destruct w as [? []].
    + rewrite bool_decide_eq_false_2 by done. cbn [kwhen]. exists (k_thr (w_k w)).
      unfold mbind at 1, K_bind at 1. unfold mret at 1, K_ret at 1.
      erewrite (bind_ret (release _)) by (apply release_ok; [done|apply Hq]).
      by destruct w as [? []].
  - rewrite (proj2 (Z.eqb_neq _ _)) by done.
    exists thr. erewrite (bind_ret (release _)) by (apply release_ok; [done|apply Hq]).
    replace (with_k w1 _) with w by (by destruct w as [? []]).
    etransitivity; [exact IH|].
    by destruct (list_find _ l) as [[]|].
Qed.

(** [kill(pid)] called without process locks: if some process has that
    id, the first one in the table is marked killed, and, if it was
    SLEEPING, becomes RUNNABLE and is queued; the call returns 0.  If there
    is none it returns -1 and changes nothing. *)
Theorem kill_spec pid w Q : quiet (k_held (w_k w)) -> sched_inv (k_ps (w_k w)) Q ->
  let ps := k_ps (w_k w) in
  match find_pid ps pid (seq 0 NPROC) with
  | None => kill pid w = Ret (-1) w
  | Some i => exists ps' thr Q',
      kill pid w = Ret 0 (with_k w (put_ps ps' thr (w_k w))) /\
      sched_inv ps' Q' /\ p_killed (proc_at ps' i) = 1 /\
      p_state (proc_at ps' i) =
        (if decide (p_state (proc_at ps i) = SLEEPING) then RUNNABLE else p_state (proc_at ps i)) /\
      forall j, j <> i -> proc_at ps' j = proc_at ps j
  end.
Proof.
  intros Hq Hinv ps. destruct (kill_loop pid (seq 0 NPROC) w Hq) as [thr E].
  fold (kill pid) in E. fold ps in E.
  destruct (find_pid ps pid (seq 0 NPROC)) as [i|] eqn:Hf; [|done].
  assert (i < NPROC)%nat as Hi.
  { unfold find_pid in Hf. apply fmap_Some in Hf as ([k i'] & Hf & ->).
    apply list_find_Some in Hf as (Hf & _). apply list_elem_of_lookup_2, elem_of_seq in Hf. simpl. lia. }
  assert (sched_inv (upd_proc i (set_p_killed 1) ps) Q) as H1 by (by apply upd_proc_same_inv).
  assert (forall j, proc_at (upd_proc i (set_p_killed 1) ps) j =
            if decide (i = j) then set_p_killed 1 (proc_at ps i) else proc_at ps j) as Hat.
  { intros j. apply proc_at_upd; [exact (si_nproc _ _ Hinv) | done]. }
  exists (kill_ps i ps), thr.
  unfold kill_ps in *. destruct (decide (p_state (proc_at ps i) = SLEEPING)) as [Hs|Hs].
  - eexists. split; [exact E|].
    split.
    { apply runnable_ps_inv; [exact H1|done| |done]. rewrite Hat, decide_True by done. simpl.
      by rewrite Hs. }
    rewrite proc_at_runnable by (done || exact (si_nproc _ _ H1)). rewrite decide_True by done.
    rewrite Hat, decide_True by done.
    split_and!; try done. intros j Hj.
    rewrite proc_at_runnable by (done || exact (si_nproc _ _ H1)).
    by rewrite decide_False, Hat, decide_False by done.
  - exists Q. split; [exact E|]. split; [done|]. rewrite Hat, decide_True by done.
    split_and!; try done. intros j Hj. by rewrite Hat, decide_False by done.
Qed.

(** ** The scheduling log *)

(** The log holds at most [LOG_SIZE] entries and no two neighbours are of
    the same process. *)
Definition log_ok (ps : psched) : Prop :=
  length (ps_schedlog ps) = Z.to_nat LOG_SIZE /\ 0 <= ps_num_logged ps <= LOG_SIZE /\
  forall i, 0 <= i -> i + 1 < ps_num_logged ps ->
    le_pid (aget logentry_zero (ps_schedlog ps) i) <> le_pid (aget logentry_zero (ps_schedlog ps) (i + 1)).

(** The scheduling log never overflows its array, consecutive entries
    are of different processes, and while logging is on and there is room
    every switch to a process other than the last logged one is recorded,
    after the entries already there. *)
Theorem log_switch_spec pid ps : log_ok ps ->
  let ps' := log_switch pid ps in
  let n := ps_num_logged ps in
  log_ok ps' /\
  (forall i, 0 <= i < n ->
     aget logentry_zero (ps_schedlog ps') i = aget logentry_zero (ps_schedlog ps) i) /\
  (ps_is_logging ps <> 0 -> n < LOG_SIZE ->
     (n = 0 \/ le_pid (aget logentry_zero (ps_schedlog ps) (n - 1)) <> pid) ->
     ps_num_logged ps' = n + 1 /\
     aget logentry_zero (ps_schedlog ps') n = LogEntry pid (ps_time ps)) /\
  (ps_is_logging ps = 0 -> ps' = ps).
Proof.
  intros (Hl & Hn & Hd) ps' n. subst ps'. unfold log_switch. fold n in Hn, Hd |- *.
  unfold LOG_SIZE in *.
  set (e := aget logentry_zero (ps_schedlog ps) (n - 1)) in *.
  destruct (Z.eqb_spec (ps_is_logging ps) 0) as [E0|E0]; simpl.
  { by split_and!. }
  destruct ((n =? 0) || negb (le_pid e =? pid)) eqn:Eb; simpl.
  2: { split_and!; try done. intros _ _ H.
       apply orb_false_iff in Eb as [?%Z.eqb_neq Eb].
       apply negb_false_iff, Z.eqb_eq in Eb. tauto. }
  destruct (Z.ltb_spec n 100) as [Hlt|Hge]; [|split_and!; try done; lia].
  assert (n = 0 \/ le_pid e <> pid) as Hne.
  { apply orb_true_iff in Eb as [?%Z.eqb_eq|Eb%negb_true_iff%Z.eqb_neq]; auto. }
  rewrite i32_small by lia.
  split_and!; simpl.
  - split; [simpl; by rewrite length_aset|]. split; [simpl; unfold LOG_SIZE; lia|]. simpl. intros i Hi Hi1.
    rewrite !aget_aset by (rewrite ?Hl; lia).
    rewrite (decide_False (P := n = i)) by lia. case_decide as Hd'.
    + simpl. subst e. replace i with (n - 1) by lia. destruct Hne; [lia|done].
    + apply Hd; lia.
  - intros i Hi. rewrite aget_aset by (rewrite ?Hl; lia). by rewrite decide_False by lia.
  - intros _ _ _. split; [done|]. rewrite aget_aset by (rewrite ?Hl; lia). by rewrite decide_True.
  - done.
Qed.

(** ** Examples *)

Lemma sys_nice_spec_witness : exists ps',
  sys_nice (World [] (k_running [])) = Ret 0 (World [] (set_k_ps ps' (k_running []))).
Proof.
  destruct (sys_nice_spec (World [] (k_running [])) 0 0) as (ps' & E & _).
  - reflexivity.
  - unfold NPROC. lia.
  - reflexivity.
  - reflexivity.
  - exists ps'. exact E.
Defined.

Lemma sys_nice_queues_running_witness : exists n ps',
  sys_nice (World [] (dispatch 0 (k_example ps_ready))) =
    Ret n (World [] (set_k_ps ps' (dispatch 0 (k_example ps_ready)))) /\
  p_state (proc_at ps' 0) = RUNNING /\ forall Q', ~ sched_inv ps' Q'.
Proof.
  destruct (sys_nice_queues_running (World [] (dispatch 0 (k_example ps_ready))) 0
    (qremove 0 (qpush 1 0%nat qempty)) 0) as (n & ps' & E & Hs & _ & Hn).
  - reflexivity.
  - unfold NPROC. lia.
  - reflexivity.
  - apply run_proc_inv; [exact ps_ready_inv|]. exists 1. split; [unfold NUM_QUEUES; lia|].
    apply elem_of_qpush. right. split; reflexivity.
  - discriminate.
  - reflexivity.
  - vm_compute. discriminate.
  - split; reflexivity || (vm_compute; discriminate).
  - exists n, ps'. split; [exact E|]. split; [exact Hs | exact Hn].
Defined.

Lemma nice_dispatches_sleeping_process_witness :
  exists w1 w2, dequeue (nice_then_sleep Ch_ticks L_ticks) (World [] (k_example ps_ready)) = Ret tt w1 /\
    p_state (proc_at (k_ps (w_k w1)) 0) = SLEEPING /\
    dequeue (fun _ w => Hang w) w1 = Hang w2 /\ p_state (proc_at (k_ps (w_k w2)) 0) = RUNNING.
Proof.
  destruct (nice_dispatches_sleeping_process (World [] (k_example ps_ready)) (qpush 1 0%nat qempty) 0 0
    Ch_ticks L_ticks) as [(w1 & l & E & Hs & _ & _ & _ & Hd) _].
  - exact ps_ready_inv.
  - reflexivity.
  - reflexivity.
  - reflexivity.
  - discriminate.
  - split; reflexivity || (vm_compute; discriminate).
  - destruct Hd as (w2 & E2 & _ & Hr & _).
    + intros i Hi Hr. apply (si_run _ _ ps_ready_inv i Hi) in Hr.
      apply qin_qpush in Hr; [|split; reflexivity || discriminate].
      destruct Hr as [Hr|Hr]; [by apply qin_empty in Hr | exact Hr].
    + exists w1, w2. split; [exact E|]. split; [exact Hs|]. split; [exact E2 | exact Hr].
Defined.

Lemma kill_spec_witness : exists ps' thr Q',
  kill 1 (World [] (k_example (ps_one SLEEPING))) =
    Ret 0 (World [] (put_ps ps' thr (k_example (ps_one SLEEPING)))) /\
  sched_inv ps' Q' /\ p_state (proc_at ps' 0) = RUNNABLE.
Proof.
  destruct (kill_spec 1 (World [] (k_example (ps_one SLEEPING))) qempty)
    as (ps' & thr & Q' & E & Hinv & _ & Hs & _).
  - exact quiet_nil.
  - apply ps_one_inv. discriminate.
  - exists ps', thr, Q'. split; [exact E|]. split; [exact Hinv | exact Hs].
Defined.

Lemma log_switch_spec_witness : log_ok (log_switch 3 (set_ps_is_logging 1 psched_boot)).
Proof.
  apply (log_switch_spec 3 (set_ps_is_logging 1 psched_boot)).
  split; [reflexivity|]. split; [split; discriminate|].
  intros i Hi Hi1. vm_compute in Hi1. exfalso.
  destruct i; simpl in *; [discriminate Hi1 | discriminate Hi1 | apply Hi; reflexivity].
Defined.
