(* ===== verification/Spinlock.v ===== *)
(** * Spinlock: mutual exclusion between CPUs

    Models kernel/spinlock.c as a transition system: several CPUs run
    [acquire] and [release] concurrently, one memory access at a time, on
    locks shared between them; [push_off] and [pop_off] act on the CPU's own
    interrupt state.  The theorems justify the contract the rest of the
    development uses for locks (Kernel): a lock is held by at most one CPU,
    [holding] tells whether this CPU holds it, and [acquire] and [release]
    panic exactly on a lock already held or not held. *)

From stdpp Require Import functions.
From S2P Require Import Prelude.

(** [struct spinlock] without its debugging name. *)
Record spinlock := SpinLock { lk_locked : Z; lk_cpu : option nat }.

(** What a CPU executes next.  [Acq*] and [Rel*] are the points of
    [acquire(l)] and [release(l)] between two memory accesses. *)
Inductive lockpc :=
| Idle
| Acq_check (l : nat) | Acq_spin (l : nat) | Acq_cpu (l : nat)
| Rel_cpu (l : nat) | Rel_locked (l : nat) | Rel_pop
| Panicked (msg : string).

(** The parts of [struct cpu] and of the hart used here.  [c_held] and
    [c_base] are auxiliary: the locks acquired and not yet released, and
    the interrupt state outside all locks. *)
Record cpu := Cpu {
  c_noff : Z; c_intena : bool; c_intr : bool; c_pc : lockpc;
  c_held : list nat; c_base : bool
}.

Record lstate := LState { locks : nat -> spinlock; cpus : nat -> cpu }.

Definition initlock : spinlock := SpinLock 0 None.
Definition cpu_boot (intr : bool) : cpu := Cpu 0 false intr Idle [] intr.

Definition holding (s : lstate) (l c : nat) : bool :=
  negb (lk_locked (locks s l) =? 0) && bool_decide (lk_cpu (locks s l) = Some c).

Definition push_off (c : cpu) : cpu :=
  let old := c_intr c in
  Cpu (i32 (c_noff c + 1)) (if c_noff c =? 0 then old else c_intena c) false
      (c_pc c) (c_held c) (c_base c).

Definition pop_off (c : cpu) : cpu + string :=
  if c_intr c then inr "pop_off - interruptible"%string
  else if c_noff c <? 1 then inr "pop_off"%string
  else
    let n := i32 (c_noff c - 1) in
    inl (Cpu n (c_intena c) (if (n =? 0) && c_intena c then true else c_intr c)
             (c_pc c) (c_held c) (c_base c)).

Definition set_pc (pc : lockpc) (c : cpu) : cpu :=
  Cpu (c_noff c) (c_intena c) (c_intr c) pc (c_held c) (c_base c).
Definition set_held (h : list nat) (c : cpu) : cpu :=
  Cpu (c_noff c) (c_intena c) (c_intr c) (c_pc c) h (c_base c).
Definition put_cpu (i : nat) (c : cpu) (s : lstate) : lstate := LState (locks s) (<[i := c]> (cpus s)).
Definition put_lock (l : nat) (k : spinlock) (s : lstate) : lstate := LState (<[l := k]> (locks s)) (cpus s).

(** What an idle CPU may start: an [acquire], a [release], or code that
    switches interrupts on or off outside all locks. *)
Inductive lcall := CAcquire (l : nat) | CRelease (l : nat) | CIntr (b : bool).

Section locks.
Context (nlocks : nat).

(** [release]: the check, then the two writes, then [pop_off]. *)
Definition start (i : nat) (call : lcall) (s : lstate) : option lstate :=
  let c := cpus s i in
  match call with
  | CAcquire l =>
    if (l <? nlocks)%nat then Some (put_cpu i (set_pc (Acq_check l) (push_off c)) s) else None
  | CRelease l =>
    if holding s l i
    then Some (put_cpu i (set_pc (Rel_cpu l) (set_held (filter (fun l' => l' <> l) (c_held c)) c)) s)
    else Some (put_cpu i (set_pc (Panicked "release") c) s)
  | CIntr b =>
    if c_noff c =? 0
    then Some (put_cpu i (Cpu (c_noff c) (c_intena c) b Idle (c_held c) b) s) else None
  end.

(** One step of CPU [i]; [call] is used when it is idle. *)
Definition lstep (i : nat) (call : lcall) (s : lstate) : option lstate :=
  let c := cpus s i in
  match c_pc c with
  | Idle => start i call s
  | Acq_check l =>
    if holding s l i then Some (put_cpu i (set_pc (Panicked "acquire") c) s)
    else Some (put_cpu i (set_pc (Acq_spin l) c) s)
  | Acq_spin l =>
    (* while(__sync_lock_test_and_set(&lk->locked, 1) != 0) ; *)
    let s' := put_lock l (SpinLock 1 (lk_cpu (locks s l))) s in
    if lk_locked (locks s l) =? 0 then Some (put_cpu i (set_pc (Acq_cpu l) c) s') else Some s'
  | Acq_cpu l =>
    Some (put_cpu i (set_pc Idle (set_held (l :: c_held c) c))
           (put_lock l (SpinLock (lk_locked (locks s l)) (Some i)) s))
  | Rel_cpu l =>
    Some (put_cpu i (set_pc (Rel_locked l) c)
           (put_lock l (SpinLock (lk_locked (locks s l)) None) s))
  | Rel_locked l =>
    Some (put_cpu i (set_pc Rel_pop c) (put_lock l (SpinLock 0 (lk_cpu (locks s l))) s))
  | Rel_pop =>
    match pop_off c with
    | inl c' => Some (put_cpu i (set_pc Idle c') s)
    | inr msg => Some (put_cpu i (set_pc (Panicked msg) c) s)
    end
  | Panicked _ => None
  end.

Definition lsteps (s s' : lstate) : Prop := exists i call, lstep i call s = Some s'.
Definition lock_boot (intr : nat -> bool) : lstate :=
  LState (fun _ => initlock) (fun i => cpu_boot (intr i)).

(** ** The invariant *)

(** The locks CPU [c] is acquiring or releasing beyond the points where
    the lock word is taken or still taken. *)
Definition owns (c : cpu) (l : nat) : Prop :=
  l ∈ c_held c \/ c_pc c = Acq_cpu l \/ c_pc c = Rel_cpu l \/ c_pc c = Rel_locked l.
(** The locks whose [cpu] field names [c]. *)
Definition named (c : cpu) (l : nat) : Prop := l ∈ c_held c \/ c_pc c = Rel_cpu l.

(** The calls of [push_off] not yet matched, beyond one per held lock. *)
Definition pending (pc : lockpc) : Z :=
  match pc with
  | Acq_check _ | Acq_spin _ | Acq_cpu _ | Rel_cpu _ | Rel_locked _ | Rel_pop => 1
  | _ => 0
  end.
Definition busy_lock (pc : lockpc) : option nat :=
  match pc with Acq_spin l | Acq_cpu l | Rel_cpu l | Rel_locked l => Some l | _ => None end.

(** What holds of each CPU by itself. *)
Record cpu_ok (c : cpu) : Prop := {
  co_nodup : NoDup (c_held c);
  co_range : forall l, l ∈ c_held c -> (l < nlocks)%nat;
  co_pc : forall l, c_pc c = Acq_check l \/ c_pc c = Acq_spin l \/ c_pc c = Acq_cpu l -> (l < nlocks)%nat;
  co_busy : forall l, busy_lock (c_pc c) = Some l -> l ∉ c_held c;
  co_noff : (forall msg, c_pc c <> Panicked msg) ->
    c_noff c = Z.of_nat (length (c_held c)) + pending (c_pc c);
  co_off : (forall msg, c_pc c <> Panicked msg) -> 0 < c_noff c -> c_intr c = false;
  co_ena : (forall msg, c_pc c <> Panicked msg) -> 0 < c_noff c -> c_intena c = c_base c;
  co_on : (forall msg, c_pc c <> Panicked msg) -> c_noff c = 0 -> c_intr c = c_base c;
  co_panic : forall msg, c_pc c = Panicked msg -> msg = "acquire"%string \/ msg = "release"%string
}.

Record linv (s : lstate) : Prop := {
  li_cpu : forall i, cpu_ok (cpus s i);
  li_locked : forall l, lk_locked (locks s l) <> 0 <-> exists i, owns (cpus s i) l;
  li_excl : forall i j l, owns (cpus s i) l -> owns (cpus s j) l -> i = j;
  li_named : forall i l, lk_cpu (locks s l) = Some i <-> named (cpus s i) l
}.

Lemma named_owns c l : named c l -> owns c l.
Proof. unfold named, owns. tauto. Qed.

(** Replacing one CPU and some locks keeps the invariant if the ownership
    of the CPU changes consistently with the lock words. *)
Lemma linv_put s i c' locks' :
  linv s -> cpu_ok c' ->
  (forall l, owns c' l -> owns (cpus s i) l \/ lk_locked (locks s l) = 0) ->
  (forall l, lk_locked (locks' l) <> 0 <->
     owns c' l \/ (lk_locked (locks s l) <> 0 /\ ~ owns (cpus s i) l)) ->
  (forall l, lk_cpu (locks' l) = Some i <-> named c' l) ->
  (forall l j, j <> i -> lk_cpu (locks' l) = Some j <-> lk_cpu (locks s l) = Some j) ->
  linv (LState locks' (<[i := c']> (cpus s))).
Proof.
  intros H Hok Hown Hlk Hn Hn'.
  assert (forall j, j <> i -> <[i := c']> (cpus s) j = cpus s j) as Hj.
  { intros j Hj. by rewrite fn_lookup_insert_ne. }
  assert (forall j l, j <> i -> owns c' l -> owns (cpus s j) l -> False) as Hex.
  { intros j l Hji H1 H2. destruct (Hown l H1) as [H3|H3].
    - by apply Hji, (li_excl _ H j i l).
    - assert (exists k, owns (cpus s k) l) as Hk by eauto. by apply (li_locked _ H) in Hk. }
  split; simpl.
  - intros j. destruct (decide (j = i)) as [->|Hji]; [by rewrite fn_lookup_insert|].
    rewrite Hj by done. apply H.
  - intros l. rewrite Hlk, (li_locked _ H). split.
    + intros [H1|[[j H1] H2]]; [exists i; by rewrite fn_lookup_insert|].
      exists j. rewrite Hj; [done|]. by intros ->.
    + intros [j H1]. destruct (decide (j = i)) as [->|Hji].
      * rewrite fn_lookup_insert in H1. by left.
      * rewrite Hj in H1 by done. right. split; [by exists j|].
        intros H2. by apply Hji, (li_excl _ H j i l).
  - intros j k l H1 H2. destruct (decide (j = i)) as [->|Hji], (decide (k = i)) as [->|Hki]; try done.
    + rewrite fn_lookup_insert in H1. rewrite Hj in H2 by done. exfalso. eauto.
    + rewrite fn_lookup_insert in H2. rewrite Hj in H1 by done. exfalso. eauto.
    + rewrite Hj in H1, H2 by done. by apply (li_excl _ H j k l).
  - intros j l. destruct (decide (j = i)) as [->|Hji]; [by rewrite fn_lookup_insert|].
    rewrite Hj by done. rewrite Hn' by done. apply H.
Qed.

(** The same when no lock changes. *)
Lemma linv_cpu s i c' :
  linv s -> cpu_ok c' -> (forall l, owns c' l <-> owns (cpus s i) l) ->
  (forall l, named c' l <-> named (cpus s i) l) -> linv (put_cpu i c' s).
Proof.
  intros H Hok Ho Hn. apply linv_put; try done.
  - intros l Hl. left. by apply Ho.
  - intros l. rewrite Ho. split.
    + intros Hl. apply (li_locked _ H) in Hl as Hl'. destruct Hl' as [j Hj].
      destruct (decide (j = i)) as [->|Hji]; [by left|]. right. split; [done|].
      intros Hi. by apply Hji, (li_excl _ H j i l).
    + intros [Hl|[Hl _]]; [|done]. apply (li_locked _ H). by exists i.
  - intros l. rewrite Hn. apply H.
Qed.

Lemma holding_spec s i l : linv s -> holding s l i = true <-> named (cpus s i) l.
Proof.
  intros H. unfold holding. rewrite andb_true_iff, negb_true_iff, Z.eqb_neq, bool_decide_eq_true.
  rewrite (li_named _ H). split; [tauto|]. intros Hn. split; [|done].
  apply (li_locked _ H). exists i. by apply named_owns.
Qed.

Hypothesis Hnlocks : Z.of_nat nlocks < 2 ^ 30.

Lemma held_bound c : cpu_ok c -> Z.of_nat (length (c_held c)) <= Z.of_nat nlocks.
Proof.
  intros H. assert (c_held c ⊆+ seq 0 nlocks) as Hs.
  { apply NoDup_submseteq; [apply H|]. intros l Hl%(co_range _ H). apply elem_of_seq. lia. }
  apply submseteq_length in Hs. rewrite length_seq in Hs. lia.
Qed.

(** What can be said of a CPU that has not panicked. *)
Lemma cpu_live c : cpu_ok c -> (forall msg, c_pc c <> Panicked msg) ->
  c_noff c = Z.of_nat (length (c_held c)) + pending (c_pc c) /\ 0 <= c_noff c <= 2 ^ 30 /\
  (0 < c_noff c -> c_intr c = false /\ c_intena c = c_base c) /\ (c_noff c = 0 -> c_intr c = c_base c).
Proof.
  intros H Hp. pose proof (held_bound c H). pose proof (co_noff _ H Hp) as Hn.
  pose proof (co_off _ H Hp). pose proof (co_ena _ H Hp). pose proof (co_on _ H Hp).
  destruct (c_pc c); simpl in *; auto 10 with lia.
Qed.

Lemma push_off_ok c l : cpu_ok c -> c_pc c = Idle -> (l < nlocks)%nat ->
  cpu_ok (set_pc (Acq_check l) (push_off c)).
Proof.
  intros H Hpc Hl. destruct (cpu_live c H) as (Hn & Hb & Hpos & Hz); [by rewrite Hpc|].
  rewrite Hpc in Hn. simpl in Hn.
  split; simpl; try done; try apply H.
  - naive_solver.
  - intros _. rewrite i32_small by lia. lia.
  - intros _ _. destruct (Z.eqb_spec (c_noff c) 0) as [E|E]; [auto|]. apply Hpos. lia.
  - intros _. rewrite i32_small by lia. lia.
Qed.

Lemma pop_off_ok c : cpu_ok c -> c_pc c = Rel_pop ->
  exists c', pop_off c = inl c' /\ cpu_ok (set_pc Idle c') /\ c_held c' = c_held c.
Proof.
  intros H Hpc. destruct (cpu_live c H) as (Hn & Hb & Hpos & Hz); [by rewrite Hpc|].
  rewrite Hpc in Hn. simpl in Hn. destruct Hpos as [Hi He]; [lia|].
  unfold pop_off. rewrite Hi. destruct (Z.ltb_spec (c_noff c) 1); [lia|].
  rewrite i32_small by lia. eexists. split; [done|]. split; [|done].
  split; simpl; try done; try apply H.
  - naive_solver.
  - lia.
  - intros _ Hp. destruct (Z.eqb_spec (c_noff c - 1) 0); [lia|done].
  - intros _ E. rewrite E. simpl. rewrite He. by destruct (c_base c).
Qed.

(** Changing only the program counter between points of the same call. *)
Lemma set_pc_ok c pc : cpu_ok c -> (forall msg, c_pc c <> Panicked msg) ->
  (forall msg, pc <> Panicked msg) -> pending pc = pending (c_pc c) ->
  (forall l, pc = Acq_check l \/ pc = Acq_spin l \/ pc = Acq_cpu l -> (l < nlocks)%nat) ->
  (forall l, busy_lock pc = Some l -> l ∉ c_held c) -> cpu_ok (set_pc pc c).
Proof.
  intros H Hpc Hp He Hr Hb. split; simpl; try done; try apply H; try done.
  - intros _. rewrite He. by apply H.
  - intros _. by apply H.
  - intros _. by apply H.
  - intros _. by apply H.
  - intros msg ->. by destruct (Hp msg).
Qed.

Lemma panic_ok c msg : cpu_ok c -> msg = "acquire"%string \/ msg = "release"%string ->
  cpu_ok (set_pc (Panicked msg) c).
Proof.
  intros H Hm. split; simpl; try done; try apply H.
  - naive_solver.
  - intros Hc. by destruct (Hc msg).
  - intros Hc. by destruct (Hc msg).
  - intros Hc. by destruct (Hc msg).
  - intros Hc. by destruct (Hc msg).
  - naive_solver.
Qed.

Ltac own H := intros l'; unfold owns, named; simpl; rewrite ?H; naive_solver.

Lemma start_inv i call s s' : linv s -> c_pc (cpus s i) = Idle ->
  start i call s = Some s' -> linv s'.
Proof.
  intros H Hpc. pose proof (li_cpu _ H i) as Hok. destruct call as [l|l|b]; simpl.
  - destruct (Nat.ltb_spec l nlocks); intros [= <-].
    apply linv_cpu; [done|by apply push_off_ok|..]; own Hpc.
  - destruct (holding s l i) eqn:Eh; intros [= <-].
    + apply holding_spec in Eh; [|done]. destruct Eh as [Eh|Eh]; [|congruence].
      destruct (cpu_live _ Hok) as (Hn & Hb & Hpos & Hz); [by rewrite Hpc|].
      rewrite Hpc in Hn. simpl in Hn.
      apply linv_cpu; [done| | |].
      * split; simpl; try done.
        -- by apply NoDup_filter, Hok.
        -- intros l' [_ ?]%list_elem_of_filter. by apply Hok.
        -- naive_solver.
        -- intros l' [= <-]. rewrite list_elem_of_filter. tauto.
        -- intros _. rewrite Hn.
           rewrite (length_filter_ne l) by (done || apply Hok). lia.
        -- intros _. apply Hpos.
        -- intros _. apply Hpos.
      * intros l'. unfold owns. simpl. rewrite list_elem_of_filter, Hpc.
        destruct (decide (l' = l)); naive_solver.
      * intros l'. unfold named. simpl. rewrite list_elem_of_filter, Hpc.
        destruct (decide (l' = l)); naive_solver.
    + apply linv_cpu; [done|apply panic_ok; auto|..]; own Hpc.
  - destruct (Z.eqb_spec (c_noff (cpus s i)) 0) as [E|E]; intros [= <-].
    destruct (cpu_live _ Hok) as (Hn & Hb & Hpos & Hz); [by rewrite Hpc|].
    rewrite Hpc in Hn. simpl in Hn.
    apply linv_cpu; [done| |own Hpc|own Hpc].
    split; simpl; try done; try apply Hok; naive_solver lia.
Qed.

(** A step that rewrites lock [l] and moves CPU [i] on. *)
Lemma linv_lock s i c' l k :
  linv s -> cpu_ok c' ->
  (forall l', l' <> l -> (owns c' l' <-> owns (cpus s i) l') /\ (named c' l' <-> named (cpus s i) l')) ->
  (owns c' l -> owns (cpus s i) l \/ lk_locked (locks s l) = 0) ->
  (lk_locked k <> 0 <-> owns c' l \/ (lk_locked (locks s l) <> 0 /\ ~ owns (cpus s i) l)) ->
  (lk_cpu k = Some i <-> named c' l) ->
  (forall j, j <> i -> lk_cpu k = Some j <-> lk_cpu (locks s l) = Some j) ->
  linv (put_cpu i c' (put_lock l k s)).
Proof.
  intros H Hok Hl' Ho Hlk Hn Hn'.
  apply (linv_put s i c' (<[l := k]> (locks s))); [done|done|..].
  - intros l' Hl. destruct (decide (l' = l)) as [->|Hne]; [auto|]. left. by apply (Hl' l' Hne).
  - intros l'. destruct (decide (l' = l)) as [->|Hne]; [by rewrite fn_lookup_insert|].
    rewrite fn_lookup_insert_ne by done. rewrite (proj1 (Hl' l' Hne)). split.
    + intros Hx. apply (li_locked _ H) in Hx as Hx'. destruct Hx' as [j Hj].
      destruct (decide (j = i)) as [->|Hji]; [by left|]. right. split; [done|].
      intros Hi. by apply Hji, (li_excl _ H j i l').
    + intros [Hx|[Hx _]]; [|done]. apply (li_locked _ H). by exists i.
  - intros l'. destruct (decide (l' = l)) as [->|Hne]; [by rewrite fn_lookup_insert|].
    rewrite fn_lookup_insert_ne by done. rewrite (proj2 (Hl' l' Hne)). apply H.
  - intros l' j Hji. destruct (decide (l' = l)) as [->|Hne]; [rewrite fn_lookup_insert; auto|].
    by rewrite fn_lookup_insert_ne.
Qed.

(** No other CPU is named by a lock that CPU [i] owns. *)
Lemma named_other s i j l : linv s -> owns (cpus s i) l -> j <> i ->
  lk_cpu (locks s l) <> Some j.
Proof.
  intros H Ho Hji Hn. apply (li_named _ H), named_owns in Hn.
  by apply Hji, (li_excl _ H j i l).
Qed.

Lemma acq_spin_inv i l s s' : linv s -> c_pc (cpus s i) = Acq_spin l ->
  lstep i (CIntr false) s = Some s' -> linv s'.
Proof.
  intros H Hpc. pose proof (li_cpu _ H i) as Hok. unfold lstep. rewrite Hpc.
  pose proof (co_busy _ Hok l) as Hbusy. rewrite Hpc in Hbusy. specialize (Hbusy eq_refl).
  destruct (Z.eqb_spec (lk_locked (locks s l)) 0) as [E|E]; intros [= <-].
  - apply linv_lock; [done| | | | | |].
    + apply set_pc_ok; rewrite ?Hpc; try done.
      * intros l' Hl'. apply (co_pc _ Hok). rewrite Hpc. naive_solver.
      * by intros l' [= <-].
    + intros l' Hne. split; unfold owns, named; simpl; rewrite Hpc; naive_solver.
    + auto.
    + simpl. split; [intros _; left; unfold owns; auto|done].
    + simpl. rewrite (li_named _ H). unfold named. simpl. rewrite Hpc. naive_solver.
    + done.
  - assert (put_lock l (SpinLock 1 (lk_cpu (locks s l))) s =
      LState (<[l := SpinLock 1 (lk_cpu (locks s l))]> (locks s)) (cpus s)) as -> by done.
    split; simpl; try apply H.
    + intros l'. rewrite <- (li_locked _ H). destruct (decide (l' = l)) as [->|Hne].
      * by rewrite fn_lookup_insert.
      * by rewrite fn_lookup_insert_ne.
    + intros j l'. rewrite <- (li_named _ H). destruct (decide (l' = l)) as [->|Hne].
      * by rewrite fn_lookup_insert.
      * by rewrite fn_lookup_insert_ne.
Qed.

Lemma acq_cpu_inv i l s s' : linv s -> c_pc (cpus s i) = Acq_cpu l ->
  lstep i (CIntr false) s = Some s' -> linv s'.
Proof.
  intros H Hpc. pose proof (li_cpu _ H i) as Hok. unfold lstep. rewrite Hpc. intros [= <-].
  pose proof (co_busy _ Hok l) as Hbusy. rewrite Hpc in Hbusy. specialize (Hbusy eq_refl).
  destruct (cpu_live _ Hok) as (Hn & Hb & Hpos & Hz); [by rewrite Hpc|].
  rewrite Hpc in Hn. simpl in Hn.
  assert (owns (cpus s i) l) as Ho by (unfold owns; auto).
  assert (lk_locked (locks s l) <> 0) as Hl by (apply (li_locked _ H); eauto).
  apply linv_lock; [done| | | | | |].
  - split; simpl; try done.
    + apply NoDup_cons. split; [done|apply Hok].
    + intros l' [->|?]%elem_of_cons; [|by apply Hok]. apply (co_pc _ Hok). auto.
    + naive_solver.
    + intros _. lia.
    + intros _. apply Hpos.
    + intros _. apply Hpos.
  - intros l' Hne. split; unfold owns, named; simpl; rewrite Hpc, elem_of_cons; naive_solver.
  - intros _. by left.
  - simpl. split; [intros _; left; unfold owns; simpl; set_solver|done].
  - simpl. unfold named. simpl. split; [set_solver|done].
  - intros j Hji. simpl. split; [naive_solver|]. intros Hj. by destruct (named_other s i j l).
Qed.

Lemma rel_inv i l s s' : linv s -> c_pc (cpus s i) = Rel_cpu l \/ c_pc (cpus s i) = Rel_locked l ->
  lstep i (CIntr false) s = Some s' -> linv s'.
Proof.
  intros H Hpc. pose proof (li_cpu _ H i) as Hok. unfold lstep.
  assert (owns (cpus s i) l) as Ho by (unfold owns; tauto).
  assert (lk_locked (locks s l) <> 0) as Hl by (apply (li_locked _ H); eauto).
  pose proof (co_busy _ Hok l) as Hbusy.
  destruct Hpc as [Hpc|Hpc]; rewrite Hpc in Hbusy |- *; specialize (Hbusy eq_refl); intros [= <-].
  - apply linv_lock; [done| | | | | |].
    + apply set_pc_ok; rewrite ?Hpc; try done; naive_solver.
    + intros l' Hne. split; unfold owns, named; simpl; rewrite Hpc; naive_solver.
    + auto.
    + simpl. split; [intros _; left; unfold owns; auto|done].
    + simpl. unfold named. simpl. naive_solver.
    + intros j Hji. simpl. split; [done|]. intros Hj. by destruct (named_other s i j l).
  - apply linv_lock; [done| | | | | |].
    + apply set_pc_ok; rewrite ?Hpc; try done; naive_solver.
    + intros l' Hne. split; unfold owns, named; simpl; rewrite Hpc; naive_solver.
    + auto.
    + simpl. unfold owns at 1. simpl. split; [done|]. intros [?|[_ ?]]; [naive_solver|done].
    + simpl. rewrite (li_named _ H). unfold named. simpl. rewrite Hpc. naive_solver.
    + done.
Qed.

Lemma linv_step s s' : linv s -> lsteps s s' -> linv s'.
Proof.
  intros H (i & call & E). pose proof (li_cpu _ H i) as Hok. unfold lstep in E.
  destruct (c_pc (cpus s i)) as [|l|l|l|l|l| |msg] eqn:Hpc.
  - by eapply start_inv.
  - destruct (holding s l i) eqn:Eh; simplify_eq.
    + apply linv_cpu; [done|apply panic_ok; auto|..]; own Hpc.
    + apply linv_cpu; [done| |own Hpc|own Hpc]. apply set_pc_ok; rewrite ?Hpc; try done.
      * intros l' Hl'. apply (co_pc _ Hok). rewrite Hpc. naive_solver.
      * intros l' [= <-] Hl'. assert (holding s l i = true) as Eh' by (apply holding_spec; [done|by left]).
        congruence.
  - eapply acq_spin_inv; [done|done|]. unfold lstep. by rewrite Hpc.
  - eapply acq_cpu_inv; [done|done|]. unfold lstep. by rewrite Hpc.
  - eapply rel_inv; [done|by left|]. unfold lstep. by rewrite Hpc.
  - eapply rel_inv; [done|by right|]. unfold lstep. by rewrite Hpc.
  - destruct (pop_off_ok _ Hok Hpc) as (c' & Ep & Hc' & Hheld). rewrite Ep in E. simplify_eq.
    apply linv_cpu; [done|done|..]; intros l'; unfold owns, named; simpl;
      rewrite Hpc, Hheld; naive_solver.
  - done.
Qed.

Lemma linv_boot intr : linv (lock_boot intr).
Proof.
  split; simpl.
  - intros i. split; simpl; try done; try (by constructor); try (intros; set_solver).
  - intros l. split; [done|]. intros [i Hi]. unfold owns in Hi. simpl in Hi. set_solver.
  - intros i j l Hi. unfold owns in Hi. simpl in Hi. set_solver.
  - intros i l. unfold named. simpl. set_solver.
Qed.

Lemma linv_reachable intr s : reachable lsteps (lock_boot intr) s -> linv s.
Proof. intros [n Hr]. eapply runs_invariant; [apply linv_step|apply linv_boot|done]. Qed.
End locks.

(** ** Theorems *)

(** C33: Mutual exclusion and [holding]: however the CPUs interleave, a
    lock is held by at most one CPU, and for a CPU outside [acquire] and
    [release] the test [holding] is true exactly for the locks it holds. *)
Theorem spinlock_mutual_exclusion nlocks intr s :
  Z.of_nat nlocks < 2 ^ 30 -> reachable (lsteps nlocks) (lock_boot intr) s ->
  (forall i j l, l ∈ c_held (cpus s i) -> l ∈ c_held (cpus s j) -> i = j) /\
  (forall i l, c_pc (cpus s i) = Idle -> holding s l i = true <-> l ∈ c_held (cpus s i)).
Proof.
  intros Hn Hr. pose proof (linv_reachable nlocks Hn intr s Hr) as H. split.
  - intros i j l Hi Hj. apply (li_excl _ _ H i j l); by left.
  - intros i l Hpc. rewrite (holding_spec nlocks s i l H). unfold named. rewrite Hpc. naive_solver.
Qed.

(** Interrupts and panics: a CPU that holds a lock has interrupts off;
    one that holds none and is outside [acquire] and [release] has its own
    interrupt state back; and the only panics are those of [acquire] on a
    lock held by this CPU and of [release] on one it does not hold, never
    those of [pop_off]. *)
Theorem spinlock_interrupts nlocks intr s i :
  Z.of_nat nlocks < 2 ^ 30 -> reachable (lsteps nlocks) (lock_boot intr) s ->
  match c_pc (cpus s i) with
  | Panicked msg => msg = "acquire"%string \/ msg = "release"%string
  | Idle => c_noff (cpus s i) = Z.of_nat (length (c_held (cpus s i))) /\
            c_intr (cpus s i) = if decide (c_held (cpus s i) = []) then c_base (cpus s i) else false
  | _ => c_intr (cpus s i) = false
  end.
Proof.
  intros Hn Hr. pose proof (linv_reachable nlocks Hn intr s Hr) as H.
  pose proof (li_cpu _ _ H i) as Hok.
  destruct (c_pc (cpus s i)) as [| | | | | | |msg] eqn:Hpc;
    [|(destruct (cpu_live nlocks Hn _ Hok) as (Hno & _ & Hpos & _);
        [by rewrite Hpc | rewrite Hpc in Hno; simpl in Hno; apply Hpos; lia])..|].
  - destruct (cpu_live nlocks Hn _ Hok) as (Hno & _ & Hpos & Hz); [by rewrite Hpc|].
    rewrite Hpc in Hno. simpl in Hno. split; [lia|].
    case_decide as E; [apply Hz; rewrite E in Hno; done|].
    apply Hpos. destruct (c_held (cpus s i)); [done|simpl in *; lia].
  - by apply Hok.
Qed.

(** Two CPUs compete for lock 0; CPU 1 spins while CPU 0 holds it. *)
Definition lock_demo : list (nat * lcall) :=
  [(0, CAcquire 0); (1, CAcquire 0); (0, CIntr true); (1, CIntr true); (0, CIntr true);
   (1, CIntr true); (0, CIntr true); (1, CIntr true)]%nat.
Definition lock_demo_state : lstate :=
  default (lock_boot (fun _ => true))
    (run_schedule (fun a => lstep 10 (fst a) (snd a)) lock_demo (lock_boot (fun _ => true))).

Lemma lock_demo_reachable : reachable (lsteps 10) (lock_boot (fun _ => true)) lock_demo_state.
Proof.
  destruct (run_schedule_reachable (fun a => lstep 10 (fst a) (snd a)) lock_demo
    (lock_boot (fun _ => true)) lock_demo_state) as [n Hr]; [reflexivity|].
  exists n. clear -Hr. induction Hr; [constructor|].
  destruct H as [[i c] H]. econstructor; [|done]. by exists i, c.
Qed.

Lemma spinlock_mutual_exclusion_witness :
  holding lock_demo_state 0 0 = true /\ holding lock_demo_state 0 1 = false /\
  (forall i j l, l ∈ c_held (cpus lock_demo_state i) -> l ∈ c_held (cpus lock_demo_state j) -> i = j).
Proof.
  split; [reflexivity|]. split; [reflexivity|].
  apply (spinlock_mutual_exclusion 10 (fun _ => true)); [reflexivity | exact lock_demo_reachable].
Defined.

Lemma spinlock_interrupts_witness : c_intr (cpus lock_demo_state 0) = false.
Proof.
  pose proof (spinlock_interrupts 10 (fun _ => true) lock_demo_state 0 eq_refl lock_demo_reachable) as H.
  exact (proj2 H).
Defined.
