(* ===== verification/SleepLock.v ===== *)
(** * SleepLock: sleep, wakeup and sleep locks under concurrency

    Models [sleep], [wakeup], [yield], [sched] (kernel/proc.c), the part of
    [dequeue] that switches to a process, and kernel/sleeplock.c as a
    transition system: any number of processes interleave at every access
    to a lock or to a shared variable, and interrupts preempt a process
    wherever it holds no spinlock.  Sched models the same functions as one
    computation; here the order of [acquire(&p->lock)] and [release(lk)] in
    [sleep] matters, because a [wakeup] can run between any two steps.

    A function is the list of its steps, and what a process still has to do
    is the list of its remaining steps.  Spinlocks are atomic here (Spinlock
    justifies it).  The run queues are left out: a scheduler takes a process
    that is RUNNABLE, and one scheduler takes it. *)

From stdpp Require Import functions.
From S2P Require Import Prelude.
From S2P Require Import State.

(** The spinlocks: [lk->lk] of sleep lock [l], and [p->lock] of process [i]. *)
Inductive slock := SL (l : nat) | PL (i : nat).
#[export] Instance slock_eq_dec : EqDecision slock.
Proof. solve_decision. Defined.

(** The steps.  A channel is the address of a sleep lock. *)
Inductive instr :=
| Acquire (x : slock) | Release (x : slock)
| SetChan (c : option nat)             (* p->chan = c *)
| SetState (s : procstate)             (* p->state = s *)
| Sched                                (* the checks of sched() *)
| Pick                                 (* a scheduler takes p, which is RUNNABLE, out of its queue *)
| WhileLocked (l : nat)                (* while(lk->locked) sleep(lk, &lk->lk) *)
| Lock (l : nat) | Unlock (l : nat)    (* lk->locked = 1; lk->pid = p->pid and lk->locked = 0; lk->pid = 0 *)
| WakeIf (i c : nat)                   (* if(p->state == SLEEPING && p->chan == chan) p->state = RUNNABLE *)
| WakeAny (i : nat).                   (* if(p->state == SLEEPING) p->state = RUNNABLE *)
#[export] Instance instr_eq_dec : EqDecision instr.
Proof. solve_decision. Defined.

Record sstate := SState {
  s_owner : slock -> option nat;
  s_locked : nat -> bool; s_pid : nat -> option nat;
  s_state : nat -> procstate; s_chan : nat -> option nat;
  s_code : nat -> list instr;
  s_owned : nat -> list nat;   (* auxiliary: the sleep locks a process has acquired *)
  s_panic : bool
}.

Section sleeplocks.
Context (nproc nlocks : nat).

(** ** The code *)

(** [sched] of process [p], and what the schedulers do until [p] runs again:
    the [release] that ends [dequeue], and later the choice of [p], the
    [acquire] and the assignment before the switch. *)
Definition sched (p : nat) : list instr :=
  [Sched; Release (PL p); Pick; Acquire (PL p); SetState RUNNING].

Definition yield (p : nat) : list instr :=
  [Acquire (PL p); SetState RUNNABLE] ++ sched p ++ [Release (PL p)].

Definition sleep (p c : nat) (lk : slock) : list instr :=
  [Acquire (PL p); Release lk; SetChan (Some c); SetState SLEEPING] ++ sched p ++
  [SetChan None; Release (PL p); Acquire lk].

Definition wakeup_one (me c i : nat) : list instr :=
  if (i =? me)%nat then [] else [Acquire (PL i); WakeIf i c; Release (PL i)].
Definition wakeup (me c : nat) : list instr := flat_map (wakeup_one me c) (seq 0 nproc).

(** [kill] of the process [i]: it looks at the processes up to [i]. *)
Definition kill (i : nat) : list instr :=
  flat_map (fun j => [Acquire (PL j); Release (PL j)]) (seq 0 i) ++ [Acquire (PL i); WakeAny i; Release (PL i)].

Definition acquiresleep (l : nat) : list instr := [Acquire (SL l); WhileLocked l; Lock l; Release (SL l)].
Definition releasesleep (me l : nat) : list instr := [Acquire (SL l); Unlock l] ++ wakeup me l ++ [Release (SL l)].

(** ** Steps *)

Definition all_locks : list slock := (SL <$> seq 0 nlocks) ++ (PL <$> seq 0 nproc).
(** The locks a process holds; their number is [mycpu()->noff]. *)
Definition held (s : sstate) (t : nat) : list slock := filter (fun x => s_owner s x = Some t) all_locks.

Definition goto (t : nat) (k : list instr) (s : sstate) : sstate :=
  SState (s_owner s) (s_locked s) (s_pid s) (s_state s) (s_chan s) (<[t := k]> (s_code s)) (s_owned s) (s_panic s).
Definition set_owner (x : slock) (o : option nat) (s : sstate) : sstate :=
  SState (<[x := o]> (s_owner s)) (s_locked s) (s_pid s) (s_state s) (s_chan s) (s_code s) (s_owned s) (s_panic s).
Definition set_sleeplock (l : nat) (b : bool) (pid : option nat) (s : sstate) : sstate :=
  SState (s_owner s) (<[l := b]> (s_locked s)) (<[l := pid]> (s_pid s)) (s_state s) (s_chan s) (s_code s) (s_owned s) (s_panic s).
Definition set_state (t : nat) (st : procstate) (s : sstate) : sstate :=
  SState (s_owner s) (s_locked s) (s_pid s) (<[t := st]> (s_state s)) (s_chan s) (s_code s) (s_owned s) (s_panic s).
Definition set_chan (t : nat) (c : option nat) (s : sstate) : sstate :=
  SState (s_owner s) (s_locked s) (s_pid s) (s_state s) (<[t := c]> (s_chan s)) (s_code s) (s_owned s) (s_panic s).
Definition set_owned (t : nat) (o : list nat) (s : sstate) : sstate :=
  SState (s_owner s) (s_locked s) (s_pid s) (s_state s) (s_chan s) (s_code s) (<[t := o]> (s_owned s)) (s_panic s).
Definition panicked (s : sstate) : sstate :=
  SState (s_owner s) (s_locked s) (s_pid s) (s_state s) (s_chan s) (s_code s) (s_owned s) true.

(** Step [i] of process [t], with [k] to follow; [None] while it has to wait. *)
Definition exec (t : nat) (i : instr) (k : list instr) (s : sstate) : option sstate :=
  match i with
  | Acquire x =>
    match s_owner s x with
    | None => Some (goto t k (set_owner x (Some t) s))
    | Some u => if (u =? t)%nat then Some (panicked s) else None
    end
  | Release x =>
    if bool_decide (s_owner s x = Some t) then Some (goto t k (set_owner x None s)) else Some (panicked s)
  | SetChan c => Some (goto t k (set_chan t c s))
  | SetState st => Some (goto t k (set_state t st s))
  | Sched =>
    if bool_decide (s_owner s (PL t) = Some t) && (length (held s t) =? 1)%nat
       && negb (bool_decide (s_state s t = RUNNING))
    then Some (goto t k s) else Some (panicked s)
  | Pick => if decide (s_state s t = RUNNABLE) then Some (goto t k s) else None
  | WhileLocked l =>
    if s_locked s l then Some (goto t (sleep t l (SL l) ++ WhileLocked l :: k) s) else Some (goto t k s)
  | Lock l => Some (goto t k (set_owned t (l :: s_owned s t) (set_sleeplock l true (Some t) s)))
  | Unlock l =>
    Some (goto t k (set_owned t (filter (fun x => x <> l) (s_owned s t)) (set_sleeplock l false None s)))
  | WakeIf i c =>
    Some (goto t k (if bool_decide (s_state s i = SLEEPING) && bool_decide (s_chan s i = Some c)
                    then set_state i RUNNABLE s else s))
  | WakeAny i =>
    Some (goto t k (if bool_decide (s_state s i = SLEEPING) then set_state i RUNNABLE s else s))
  end.

Definition step (t : nat) (s : sstate) : option sstate :=
  match s_code s t with [] => None | i :: k => exec t i k s end.

(** What a process outside these functions may call: it releases only sleep
    locks it has acquired.  A timer interrupt preempts a running process
    that holds no spinlock, wherever it is. *)
Definition running_code (k : list instr) : bool :=
  match k with Pick :: _ | Acquire _ :: SetState RUNNING :: _ => false | _ => true end.
Inductive scall := C_acquire (l : nat) | C_release (l : nat) | C_kill (i : nat) | C_timer.
Definition start (t : nat) (c : scall) (s : sstate) : option sstate :=
  match c, s_code s t with
  | C_acquire l, [] => if (l <? nlocks)%nat then Some (goto t (acquiresleep l) s) else None
  | C_release l, [] => if bool_decide (l ∈ s_owned s t) then Some (goto t (releasesleep t l) s) else None
  | C_kill i, [] => if (i <? nproc)%nat then Some (goto t (kill i) s) else None
  | C_timer, k =>
    if running_code k && bool_decide (held s t = []) then Some (goto t (yield t ++ k) s) else None
  | _, _ => None
  end.

(** Steps inside calls, and all steps. *)
Definition inner (s s' : sstate) : Prop := exists t, step t s = Some s'.
Definition sstep (s s' : sstate) : Prop :=
  inner s s' \/ exists t c, (t < nproc)%nat /\ start t c s = Some s'.

(** All sleep locks free, all processes running outside the kernel. *)
Definition sboot : sstate :=
  SState (fun _ => None) (fun _ => false) (fun _ => None) (fun _ => RUNNING) (fun _ => None)
    (fun _ => []) (fun _ => []) false.

(** ** What the remaining steps say about a process *)

(** The process has acquired [x] and will release it. *)
Fixpoint holds (x : slock) (k : list instr) : bool :=
  match k with
  | [] => false
  | Acquire y :: k' => if decide (x = y) then false else holds x k'
  | Release y :: k' => if decide (x = y) then true else holds x k'
  | _ :: k' => holds x k'
  end.

(** The states it can be in. *)
Definition allowed (k : list instr) : list procstate :=
  match k with
  | Sched :: _ | Release _ :: Pick :: _ | Pick :: _ => [SLEEPING; RUNNABLE]
  | Acquire _ :: SetState RUNNING :: _ | SetState RUNNING :: _ => [RUNNABLE]
  | _ => [RUNNING]
  end.

(** It has found sleep lock [l] locked and is about to sleep on it. *)
Fixpoint first_sl (k : list instr) : option nat :=
  match k with [] => None | Acquire (SL l) :: _ => Some l | _ :: k' => first_sl k' end.
Fixpoint will_sleep (k : list instr) : option nat :=
  match k with [] => None | SetState SLEEPING :: k' => first_sl k' | _ :: k' => will_sleep k' end.

(** The rest of [acquiresleep] after [sched] returns in [sleep]. *)
Definition acquiresleep_loop (l : nat) : list instr := [WhileLocked l; Lock l; Release (SL l)].
Definition sleep_tail (t l : nat) : list instr :=
  [SetChan None; Release (PL t); Acquire (SL l)] ++ acquiresleep_loop l.

(** What each step relies on. *)
Definition local (t : nat) (i : instr) (k : list instr) : Prop :=
  match i with
  | Acquire x => holds x k = true /\
      forall y, y <> x -> holds y k = true -> exists l j, y = SL l /\ x = PL j
  | Release x => holds x k = false
  | SetChan (Some l) => k = SetState SLEEPING :: sched t ++ sleep_tail t l
  | SetChan None => True
  | SetState SLEEPING => exists l, k = sched t ++ sleep_tail t l
  | SetState RUNNABLE => exists k', k = sched t ++ k'
  | SetState RUNNING => holds (PL t) k = true
  | SetState _ => False
  | Sched => holds (PL t) k = true /\ forall x, holds x k = true -> x = PL t
  | Pick => forall x, holds x k = false
  | WhileLocked l => k = [Lock l; Release (SL l)]
  | Lock l => holds (SL l) k = true
  | Unlock l => k = wakeup t l ++ [Release (SL l)]
  | WakeIf i l => holds (PL i) k = true /\ holds (SL l) k = true /\ i <> t
  | WakeAny i => holds (PL i) k = true
  end.

(** How the state of the process and the pending decisions flow. *)
Definition next_state (i : instr) (s : procstate) : procstate :=
  match i with SetState s' => s' | _ => s end.
Record flow (t : nat) (i : instr) (k : list instr) : Prop := {
  fl_state : forall s, s ∈ allowed (i :: k) -> (i = Pick -> s = RUNNABLE) -> next_state i s ∈ allowed k;
  fl_lock : forall l k', k = Lock l :: k' -> i = WhileLocked l;
  fl_chan : forall k', k = SetState SLEEPING :: k' -> exists l, i = SetChan (Some l) /\ k' = sched t ++ sleep_tail t l;
  fl_sleep : forall l, will_sleep (i :: k) = Some l -> holds (SL l) (i :: k) = true \/ holds (PL t) (i :: k) = true
}.

Fixpoint ok (t : nat) (k : list instr) : Prop :=
  match k with [] => True | i :: k' => local t i k' /\ flow t i k' /\ ok t k' end.

(** ** The code of the functions is in order *)

Ltac evl := simpl in *; repeat (case_decide; simpl in *; try congruence).
Ltac flow_tac := split;
  [intros; simpl in *; set_solver | intros; simpl in *; congruence
  | intros; simpl in *; eauto; congruence
  | let H := fresh in intros ? H; simpl in H; repeat (case_decide; simpl in *; try congruence); solve [congruence | auto]].

Lemma ok_sleep_tail t l : ok t (sleep_tail t l).
Proof.
  unfold sleep_tail. simpl. split_and!; try done; evl; try flow_tac.
  all: try (intros; evl; naive_solver).
Qed.

Lemma holds_app x k k' : holds x k = true -> holds x (k ++ k') = true.
Proof. induction k as [|[] k IH]; simpl; try done; by case_decide. Qed.

(** Code behind which a call of [sched] may come. *)
Record after_sched (t : nat) (k : list instr) : Prop := {
  as_ok : ok t k;
  as_holds : forall x, holds x k = true <-> x = PL t;
  as_run : RUNNING ∈ allowed k;
  as_lock : forall l k', k <> Lock l :: k';
  as_state : forall k', k <> SetState SLEEPING :: k';
  as_sleep : will_sleep k = None
}.

Lemma ok_sched t k : after_sched t k -> ok t (sched t ++ k).
Proof.
  intros [Hk Hh Ha Hl Hc Hw]. pose proof (proj2 (Hh (PL t)) eq_refl) as Hp.
  unfold sched. simpl. split_and!; try done; evl; try done; try flow_tac.
  - intros x. repeat case_decide; naive_solver.
  - intros x. case_decide; [done|]. destruct (holds x k) eqn:E; [by apply Hh in E|done].
  - intros y Hy Hy'. by apply Hh in Hy'.
Qed.

Lemma after_sleep_tail t l : after_sched t (sleep_tail t l).
Proof.
  split; try done; [apply ok_sleep_tail | | set_solver].
  intros x. unfold sleep_tail. simpl. repeat case_decide; naive_solver.
Qed.

Lemma ok_sleep t l : ok t (sleep t l (SL l) ++ acquiresleep_loop l).
Proof.
  unfold sleep. rewrite <- !app_assoc.
  change (ok t ([Acquire (PL t); Release (SL l); SetChan (Some l); SetState SLEEPING] ++ sched t ++ sleep_tail t l)).
  assert (holds (PL t) (sched t ++ sleep_tail t l) = true) as Hp by (simpl; by rewrite decide_True).
  assert (forall x, holds x (sched t ++ sleep_tail t l) = true -> x = PL t) as Hx.
  { intros x. simpl. repeat case_decide; naive_solver. }
  assert (first_sl (sched t ++ sleep_tail t l) = Some l) as Hf by done.
  assert (allowed (sched t ++ sleep_tail t l) = [SLEEPING; RUNNABLE]) as Ha by done.
  pose proof (ok_sched t _ (after_sleep_tail t l)) as H.
  remember (sched t ++ sleep_tail t l) as k eqn:Ek. clear -Hp Hx Hf Ha H Ek.
  simpl. split_and!; try done; try (by eauto); try flow_tac.
  - intros y Hy. case_decide; [by eauto|]. by intros ?%Hx.
  - split; [intros; simpl in *; set_solver|naive_solver..|].
    intros l' Hl. simpl in *. left. assert (l' = l) as -> by congruence. by repeat case_decide.
  - destruct (holds (SL l) k) eqn:E; [by apply Hx in E|done].
  - by subst k.
  - split; [intros; simpl in *; set_solver|naive_solver|subst k; naive_solver|].
    intros l' _. right. done.
  - exists l. by subst k.
Qed.

(** Code of a process that runs and is not in [sleep]. *)
Record calm (k : list instr) : Prop := {
  ca_run : allowed k = [RUNNING];
  ca_lock : forall l k', k <> Lock l :: k';
  ca_state : forall k', k <> SetState SLEEPING :: k';
  ca_sleep : will_sleep k = None
}.

Definition simple (i : instr) : bool :=
  match i with Acquire _ | Release _ | WakeIf _ _ | WakeAny _ | Unlock _ => true | _ => false end.

Lemma calm_cons i k : simple i = true -> calm k -> calm (i :: k).
Proof.
  intros Hi [Ha Hl Hs Hw]. split; [|by destruct i..].
  destruct i; try done; destruct k as [|[] k]; try done; by destruct s.
Qed.

Lemma flow_calm t i k : simple i = true -> calm k -> flow t i k.
Proof.
  intros Hi Hk. pose proof (calm_cons i k Hi Hk) as [Ha' _ _ Hw']. destruct Hk as [Ha Hl Hs Hw]. split.
  - intros s. rewrite Ha, Ha'. by destruct i.
  - intros l k' ->. by destruct (Hl l k').
  - intros k' ->. by destruct (Hs k').
  - intros l. by rewrite Hw'.
Qed.

Lemma calm_nil : calm [].
Proof. by split. Qed.
#[local] Hint Resolve calm_nil : core.

(** A spinlock taken and released around one access. *)
Lemma calm_acquire x i k : simple i = true -> calm k -> calm (Acquire x :: i :: Release x :: k).
Proof. intros. by repeat apply calm_cons. Qed.

Lemma ok_access t j i k : ok t k -> calm k -> i = WakeAny j \/ (exists l, i = WakeIf j l /\ holds (SL l) k = true /\ j <> t) ->
  (forall y, holds y k = true -> exists l, y = SL l) -> ok t (Acquire (PL j) :: i :: Release (PL j) :: k).
Proof.
  intros Hk Hc Hi Hh.
  assert (simple i = true) as Hsi by (destruct Hi as [->|(l & -> & _)]; done).
  assert (forall y, holds y (i :: Release (PL j) :: k) = holds y (Release (PL j) :: k)) as Ei
    by (intros y; destruct Hi as [->|(l & -> & _)]; done).
  assert (holds (PL j) k = false) as Hj.
  { destruct (holds (PL j) k) eqn:E; [|done]. by destruct (Hh _ E). }
  assert (local t i (Release (PL j) :: k)) as Hli.
  { destruct Hi as [->|(l & -> & Hl & Hj')]; simpl; rewrite decide_True by done; [done|by split]. }
  assert (forall x, calm (Release x :: k)) as Hc1 by (intros; by apply calm_cons).
  assert (forall x, calm (i :: Release x :: k)) as Hc2 by (intros; by apply calm_cons).
  cbn [ok]. split; [|split; [by apply flow_calm|]].
  - split; [rewrite Ei; simpl; by rewrite decide_True|].
    intros y Hy. rewrite Ei. simpl. rewrite decide_False by done. intros [l ->]%Hh. by exists l, j.
  - split; [done|]. split; [by apply flow_calm|]. split; [done|]. split; [by apply flow_calm|done].
Qed.

(** What [wakeup] leaves to do. *)
Lemma wakeup_rest t l js : let k := flat_map (wakeup_one t l) js ++ [Release (SL l)] in
  ok t k /\ calm k /\ (forall x, holds x k = true <-> x = SL l).
Proof.
  induction js as [|i js (IHo & IHc & IHh)]; cbv zeta in *; cbn [flat_map].
  - split_and!; [|by apply calm_cons|].
    + split; [done|]. split; [by apply flow_calm|done].
    + intros x. simpl. case_decide; naive_solver.
  - unfold wakeup_one at 1 3 5. destruct (Nat.eqb_spec i t) as [->|Hit]; [done|].
    rewrite <- app_assoc. set (k := flat_map _ _ ++ _) in *. cbn [app]. split_and!.
    + apply ok_access; try done; [right; exists l; split; [done|split; [by apply IHh|done]]|].
      intros y ->%IHh. by exists l.
    + by apply calm_acquire.
    + intros x. simpl. rewrite <- IHh. repeat case_decide; subst; try done.
      split; [done|]. by intros ?%IHh.
Qed.

Lemma ok_acquiresleep t l : ok t (acquiresleep l).
Proof.
  unfold acquiresleep. simpl. split_and!; try done; try flow_tac.
  - case_decide; done.
  - intros y Hy. rewrite decide_False by done. done.
  - by rewrite decide_True.
Qed.

Lemma ok_releasesleep t l : ok t (releasesleep t l).
Proof.
  destruct (wakeup_rest t l (seq 0 nproc)) as (Ho & Hc & Hh). fold (wakeup t l) in *.
  unfold releasesleep. cbn [app]. set (k := wakeup t l ++ [Release (SL l)]) in *.
  assert (calm (Unlock l :: k)) by (by apply calm_cons).
  cbn [ok]. split; [|split; [by apply flow_calm|]].
  - unfold local. split; [by apply Hh|]. intros y Hy. simpl. by intros ?%Hh.
  - split; [done|]. split; [by apply flow_calm|done].
Qed.

Lemma kill_scan t js k : ok t k -> calm k -> (forall y, holds y k = false) ->
  let k' := flat_map (fun j => [Acquire (PL j); Release (PL j)]) js ++ k in
  ok t k' /\ calm k' /\ forall y, holds y k' = false.
Proof.
  intros Hk Hc Hh k'. subst k'.
  induction js as [|j js (IHo & IHc & IHh)]; cbn [flat_map app]; [done|].
  set (k' := flat_map _ js ++ k) in *.
  assert (calm (Release (PL j) :: k')) as Hc1 by (by apply calm_cons).
  split_and!; [|by apply calm_cons|].
  - cbn [ok]. split; [|split; [by apply flow_calm|]].
    + split; [simpl; by rewrite decide_True|]. intros y Hy. simpl. rewrite decide_False by done. by rewrite IHh.
    + split; [by apply IHh|]. split; [by apply flow_calm|done].
  - intros x. simpl. repeat case_decide; done.
Qed.

Lemma kill_ok t i : ok t (kill i) /\ calm (kill i) /\ forall y, holds y (kill i) = false.
Proof.
  apply kill_scan.
  - apply ok_access; try done. by left.
  - by apply calm_acquire.
  - intros y. simpl. repeat case_decide; done.
Qed.

(** A preempted process goes on where it was. *)
Lemma ok_yield t k : ok t k -> calm k -> (forall x, holds x k = false) -> ok t (yield t ++ k).
Proof.
  intros Hk Hc Hh. unfold yield. rewrite <- !app_assoc.
  assert (calm (Release (PL t) :: k)) as Hc1 by (by apply calm_cons).
  assert (after_sched t ([Release (PL t)] ++ k)) as H.
  { split; try apply Hc1; cbn [app].
    - cbn [ok]. split; [by apply Hh|]. split; [by apply flow_calm|done].
    - intros x. simpl. case_decide; [done|]. by rewrite Hh.
    - rewrite (ca_run _ Hc1). set_solver. }
  pose proof (ok_sched _ _ H) as Ho.
  assert (will_sleep (sched t ++ [Release (PL t)] ++ k) = None) as Hw by apply Hc.
  assert (allowed (sched t ++ [Release (PL t)] ++ k) = [SLEEPING; RUNNABLE]) as Ha by done.
  assert (forall x, holds x (sched t ++ [Release (PL t)] ++ k) = true <-> x = PL t) as Hx.
  { intros x. simpl. rewrite Hh. repeat case_decide; done. }
  assert (forall k', sched t ++ [Release (PL t)] ++ k <> SetState SLEEPING :: k') as Hn by done.
  assert (forall l k', sched t ++ [Release (PL t)] ++ k <> Lock l :: k') as Hn' by done.
  remember (sched t ++ [Release (PL t)] ++ k) as k1 eqn:E. cbn [app ok]. split_and!; try done.
  - split; [by apply Hx|]. intros y Hy. simpl. by intros ?%Hx.
  - split; [intros; simpl in *; set_solver|naive_solver..|]. intros l. simpl. by rewrite Hw.
  - by exists ([Release (PL t)] ++ k).
  - split; [intros; simpl in *; set_solver|naive_solver..|]. intros l. simpl. by rewrite Hw.
Qed.

(** ** The invariant *)

(** Process [t] has decided to sleep on [l], or sleeps on it. *)
Definition committed (s : sstate) (t l : nat) : Prop :=
  will_sleep (s_code s t) = Some l \/ (s_state s t = SLEEPING /\ s_chan s t = Some l).

Record inv (s : sstate) : Prop := {
  iv_ok : forall t, ok t (s_code s t);
  iv_range : forall t, (nproc <= t)%nat -> s_code s t = [];
  iv_acquire : forall t x, Acquire x ∈ s_code s t -> x ∈ all_locks;
  iv_bound : forall t x, s_owner s x = Some t -> x ∈ all_locks;
  iv_own : forall x t, s_owner s x = Some t <-> holds x (s_code s t) = true;
  iv_state : forall t, s_state s t ∈ allowed (s_code s t);
  iv_pid : forall l t, s_pid s l = Some t <-> l ∈ s_owned s t;
  iv_locked : forall l, s_locked s l = true <-> is_Some (s_pid s l);
  iv_owned : forall l t, l ∈ s_owned s t -> (l < nlocks)%nat;
  iv_lock : forall t l k, s_code s t = Lock l :: k -> s_locked s l = false;
  iv_unlock : forall t l, Unlock l ∈ s_code s t -> l ∈ s_owned s t;
  iv_sleep : forall t, s_state s t = SLEEPING -> exists l n, s_chan s t = Some l /\ (n <= 2)%nat /\
    s_code s t = drop n (sched t) ++ sleep_tail t l;
  iv_chan : forall t l, s_code s t = SetState SLEEPING :: sched t ++ sleep_tail t l -> s_chan s t = Some l;
  iv_wait : forall t l, committed s t l -> s_locked s l = true \/ exists u, WakeIf t l ∈ s_code s u;
  iv_panic : s_panic s = false
}.

(** What step [i] of [t] does; [k'] is what remains. *)
Record effect (t : nat) (i : instr) (k' : list instr) (s s' : sstate) : Prop := {
  ef_code : s_code s' = <[t := k']> (s_code s);
  ef_panic : s_panic s' = s_panic s;
  ef_acq : forall x, i = Acquire x -> s_owner s x = None;
  ef_pick : i = Pick -> s_state s t = RUNNABLE;
  ef_owner : forall x, s_owner s' x =
    match i with
    | Acquire y => if decide (x = y) then Some t else s_owner s x
    | Release y => if decide (x = y) then None else s_owner s x
    | _ => s_owner s x
    end;
  ef_locked : forall l, s_locked s' l =
    match i with
    | Lock j => if decide (l = j) then true else s_locked s l
    | Unlock j => if decide (l = j) then false else s_locked s l
    | _ => s_locked s l
    end;
  ef_pid : forall l, s_pid s' l =
    match i with
    | Lock j => if decide (l = j) then Some t else s_pid s l
    | Unlock j => if decide (l = j) then None else s_pid s l
    | _ => s_pid s l
    end;
  ef_owned : forall u, s_owned s' u = if decide (u = t) then
    match i with
    | Lock j => j :: s_owned s t
    | Unlock j => filter (fun x => x <> j) (s_owned s t)
    | _ => s_owned s t
    end else s_owned s u;
  ef_chan : forall u, s_chan s' u = if decide (u = t) then match i with SetChan c => c | _ => s_chan s t end else s_chan s u;
  ef_state : forall u, s_state s' u =
    match i with
    | SetState st => if decide (u = t) then st else s_state s u
    | WakeIf j c => if decide (u = j /\ s_state s u = SLEEPING /\ s_chan s u = Some c) then RUNNABLE else s_state s u
    | WakeAny j => if decide (u = j /\ s_state s u = SLEEPING) then RUNNABLE else s_state s u
    | _ => s_state s u
    end
}.

Lemma insert_if {B} (f : nat -> B) (i j : nat) v : <[i := v]> f j = if decide (j = i) then v else f j.
Proof.
  destruct (decide (j = i)) as [->|H]; [by rewrite fn_lookup_insert|by rewrite fn_lookup_insert_ne].
Qed.
Lemma insert_if_lock {B} (f : slock -> B) (i j : slock) v : <[i := v]> f j = if decide (j = i) then v else f j.
Proof.
  destruct (decide (j = i)) as [->|H]; [by rewrite fn_lookup_insert|by rewrite fn_lookup_insert_ne].
Qed.

(** The remaining steps of the process after step [i]. *)
Definition after (t : nat) (i : instr) (k : list instr) (s : sstate) : list instr :=
  match i with
  | WhileLocked l => if s_locked s l then sleep t l (SL l) ++ WhileLocked l :: k else k
  | _ => k
  end.

Lemma held_one s t : inv s -> (t < nproc)%nat -> (forall x, holds x (s_code s t) = true <-> x = PL t) ->
  length (held s t) = 1%nat.
Proof.
  intros H Ht Hx. assert (held s t ≡ₚ [PL t]) as ->; [|done].
  apply NoDup_Permutation; [|apply NoDup_singleton|].
  - apply NoDup_filter. unfold all_locks. apply NoDup_app. split_and!.
    + apply NoDup_fmap; [by intros ?? [=]|apply NoDup_seq].
    + intros x (? & -> & _)%list_elem_of_fmap (? & [=] & _)%list_elem_of_fmap.
    + apply NoDup_fmap; [by intros ?? [=]|apply NoDup_seq].
  - intros x. unfold held. rewrite list_elem_of_filter, list_elem_of_singleton, (iv_own _ H), Hx.
    split; [tauto|]. intros ->. split; [done|]. apply elem_of_app. right.
    apply list_elem_of_fmap. exists t. split; [done|]. apply elem_of_seq. lia.
Qed.

Ltac eff := split; simpl; intros; rewrite ?insert_if, ?insert_if_lock; try done;
  repeat case_decide; naive_solver.

Lemma exec_effect t i k s s' : inv s -> s_code s t = i :: k -> exec t i k s = Some s' ->
  effect t i (after t i k s) s s'.
Proof.
  intros H E He. pose proof (iv_own _ H) as Ho. pose proof (iv_ok _ H t) as Hok. rewrite E in Hok.
  destruct Hok as (Hl & Hf & _).
  destruct i as [x|x|c|st| | |l|l|l|j c|j]; simpl in He.
  - destruct (s_owner s x) as [u|] eqn:Eo.
    + destruct (Nat.eqb_spec u t) as [->|]; [|done]. apply Ho in Eo. rewrite E in Eo. simpl in Eo.
      by rewrite decide_True in Eo.
    + simplify_eq. eff.
  - rewrite bool_decide_eq_true_2 in He by (apply Ho; rewrite E; simpl; by rewrite decide_True).
    simplify_eq. eff.
  - simplify_eq. eff.
  - simplify_eq. eff.
  - destruct Hl as [Hp Hl].
    assert (t < nproc)%nat as Ht.
    { destruct (decide (nproc <= t)%nat) as [Ht|]; [|lia]. by rewrite (iv_range _ H t Ht) in E. }
    rewrite bool_decide_eq_true_2 in He by (apply Ho; by rewrite E).
    assert (length (held s t) = 1%nat) as Eh.
    { apply held_one; [done|done|]. rewrite E. intros x. split; [apply Hl|by intros ->]. }
    rewrite Eh in He.
    pose proof (iv_state _ H t) as Hs. rewrite E in Hs.
    rewrite bool_decide_eq_false_2 in He by (intros Hs'; rewrite Hs' in Hs; set_solver).
    simpl in He. simplify_eq. eff.
  - case_decide; simplify_eq. eff.
  - simpl. destruct (s_locked s l); simplify_eq; eff.
  - simplify_eq. eff.
  - simplify_eq. eff.
  - simplify_eq. repeat (case_bool_decide; simpl in * ); eff.
  - simplify_eq. repeat (case_bool_decide; simpl in * ); eff.
Qed.

Section one_step.
Context (t : nat) (i : instr) (k : list instr) (s : sstate).
Hypothesis H : inv s.
Hypothesis E : s_code s t = i :: k.

Lemma code_local : local t i k /\ flow t i k /\ ok t k.
Proof. pose proof (iv_ok _ H t) as Hok. by rewrite E in Hok. Qed.

(** Either the rest of the code remains, or [sleep] is entered. *)
Lemma after_cases : after t i k s = k \/ exists l, i = WhileLocked l /\ s_locked s l = true /\
  k = [Lock l; Release (SL l)] /\ after t i k s = sleep t l (SL l) ++ acquiresleep_loop l.
Proof.
  destruct code_local as (Hl & _ & _). destruct i; try by left. simpl. simpl in Hl.
  destruct (s_locked s l) eqn:El; [|by left]. right. exists l. by subst k.
Qed.

Lemma after_ok : ok t (after t i k s).
Proof.
  destruct after_cases as [->|(l & -> & _ & _ & ->)]; [apply code_local|apply ok_sleep].
Qed.

Lemma after_holds x : holds x (after t i k s) =
  match i with
  | Acquire y => if decide (x = y) then true else holds x (s_code s t)
  | Release y => if decide (x = y) then false else holds x (s_code s t)
  | _ => holds x (s_code s t)
  end.
Proof.
  rewrite E. destruct code_local as (Hl & _ & _).
  destruct after_cases as [->|(l & -> & _ & -> & ->)].
  - destruct i; try done; simpl in *; case_decide; subst; try done. tauto.
  - simpl. repeat case_decide; congruence.
Qed.

Lemma after_state : (i = Pick -> s_state s t = RUNNABLE) -> next_state i (s_state s t) ∈ allowed (after t i k s).
Proof.
  intros Hp. pose proof (iv_state _ H t) as Hs. rewrite E in Hs. destruct code_local as (_ & Hf & _).
  destruct after_cases as [->|(l & -> & _ & -> & ->)]; [by apply (fl_state _ _ _ Hf)|exact Hs].
Qed.

Lemma in_range : (t < nproc)%nat.
Proof.
  destruct (decide (nproc <= t)%nat) as [Ht|]; [|lia]. by rewrite (iv_range _ H t Ht) in E.
Qed.

Lemma after_acquire x : Acquire x ∈ after t i k s -> x ∈ all_locks.
Proof.
  intros Hx. pose proof in_range as Ht. pose proof (iv_acquire _ H t) as Ha. pose proof (iv_own _ H) as Ho.
  destruct after_cases as [Ek|(l & -> & _ & -> & Ek)]; rewrite Ek in Hx.
  - apply Ha. rewrite E. by right.
  - assert (SL l ∈ all_locks) as Hl by (apply (iv_bound _ H t), Ho; rewrite E; simpl; by rewrite decide_True).
    assert (PL t ∈ all_locks) as Hp.
    { apply elem_of_app. right. apply list_elem_of_fmap. exists t. split; [done|]. apply elem_of_seq. lia. }
    simpl in Hx. repeat (apply elem_of_cons in Hx as [[=]|Hx]; [by subst|]).
    clear -Hx Hl Hp. set_solver.
Qed.

Lemma after_will_sleep l : will_sleep (after t i k s) = Some l ->
  will_sleep (s_code s t) = Some l \/ (i = WhileLocked l /\ s_locked s l = true).
Proof.
  rewrite E. destruct code_local as (Hl & _ & _).
  destruct after_cases as [->|(l' & -> & Hl' & -> & ->)].
  - intros Hw. left. destruct i; try done. destruct s0; try done. simpl in Hl. destruct Hl as [l0 ->]. done.
  - simpl. intros [= ->]. by right.
Qed.

Lemma after_wake j c : WakeIf j c ∈ s_code s t -> i = WakeIf j c \/ WakeIf j c ∈ after t i k s.
Proof.
  rewrite E. intros [->|Hj]%elem_of_cons; [by left|]. right.
  destruct after_cases as [->|(l' & -> & _ & -> & _)]; [done|]. set_solver.
Qed.

Lemma after_unlock l : Unlock l ∈ after t i k s -> Unlock l ∈ k.
Proof.
  destruct after_cases as [->|(l' & -> & _ & -> & ->)]; [done|].
  simpl. intros Hu. exfalso. clear -Hu. set_solver.
Qed.

(** *** Preservation *)

Context (s' : sstate).
Hypothesis F : effect t i (after t i k s) s s'.

Lemma code_after u : s_code s' u = if decide (u = t) then after t i k s else s_code s u.
Proof. by rewrite (ef_code _ _ _ _ _ F), insert_if. Qed.

(** Whoever holds a lock is the only one. *)
Lemma holds_excl x u v : holds x (s_code s u) = true -> holds x (s_code s v) = true -> u = v.
Proof. intros Hu%(iv_own _ H) Hv%(iv_own _ H). congruence. Qed.

Lemma step_own x u : s_owner s' x = Some u <-> holds x (s_code s' u) = true.
Proof.
  rewrite code_after, (ef_owner _ _ _ _ _ F). pose proof (iv_own _ H x u) as Ho.
  destruct (decide (u = t)) as [->|Hu]; [ rewrite (after_holds)|].
  - destruct i; try apply Ho; case_decide; subst; try apply Ho; done.
  - destruct i as [y|y| | | | | | | | |]; try apply Ho; case_decide as Hxy; try apply Ho; subst y.
    + rewrite (ef_acq _ _ _ _ _ F x eq_refl) in Ho. naive_solver.
    + split; [done|]. intros Hx. exfalso. apply Hu, (holds_excl x u t Hx). rewrite E. simpl.
      by rewrite decide_True.
Qed.

Lemma step_state u : s_state s' u ∈ allowed (s_code s' u).
Proof.
  rewrite code_after, (ef_state _ _ _ _ _ F). pose proof (iv_state _ H u) as Hs.
  case_decide as Hu.
  - subst u. pose proof (after_state (ef_pick _ _ _ _ _ F)) as Ha.
    destruct i; try exact Ha; simpl in Ha;
      rewrite E in Hs; apply list_elem_of_singleton in Hs; (case_decide as Hd; [|done]); exfalso;
      destruct_and? Hd; congruence.
  - assert (forall P : Prop, s_state s u = SLEEPING -> RUNNABLE ∈ allowed (s_code s u)) as Hr.
    { intros _ Hr. destruct (iv_sleep _ H u Hr) as (l & n & _ & Hn & ->).
      destruct n as [|[|[|]]]; [..|lia]; simpl; set_solver. }
    destruct i; try done; case_decide; try done; try (apply (Hr True); tauto); by subst.
Qed.

Lemma step_pid l u : s_pid s' l = Some u <-> l ∈ s_owned s' u.
Proof.
  rewrite (ef_pid _ _ _ _ _ F), (ef_owned _ _ _ _ _ F). pose proof (iv_pid _ H l u) as Hp.
  destruct i; try (case_decide; subst; exact Hp).
  - assert (s_locked s l0 = false) as Hl by (eapply (iv_lock _ H); exact E).
    destruct (decide (u = t)) as [->|Hu].
    + rewrite elem_of_cons, <- Hp. case_decide; naive_solver.
    + case_decide; [subst l0|done]. split; [congruence|]. intros Hx%Hp.
      assert (s_locked s l = true) as Hx' by (apply (iv_locked _ H); eauto). congruence.
  - assert (l0 ∈ s_owned s t) as Hl by (apply (iv_unlock _ H); rewrite E; by left).
    destruct (decide (u = t)) as [->|Hu].
    + rewrite list_elem_of_filter, <- Hp. case_decide; naive_solver.
    + case_decide; [subst l0|done]. split; [done|]. intros Hx%Hp. apply (iv_pid _ H) in Hl. congruence.
Qed.

Lemma step_locked l : s_locked s' l = true <-> is_Some (s_pid s' l).
Proof.
  rewrite (ef_locked _ _ _ _ _ F), (ef_pid _ _ _ _ _ F). pose proof (iv_locked _ H l) as Hp.
  destruct i; try exact Hp; case_decide; try exact Hp; (split; [|by intros [? ?]]; try done; by eexists).
Qed.

Lemma step_owned l u : l ∈ s_owned s' u -> (l < nlocks)%nat.
Proof.
  rewrite (ef_owned _ _ _ _ _ F). pose proof (iv_owned _ H l) as Ho. destruct code_local as (Hc & _ & _).
  case_decide as Hu; [subst u|apply Ho]. destruct i; try apply Ho.
  - intros [->|Hl]%elem_of_cons; [|by eapply Ho].
    assert (SL l0 ∈ all_locks) as Hl.
    { apply (iv_bound _ H t), (iv_own _ H). by rewrite E. }
    apply elem_of_app in Hl as [(? & [= <-] & Hl%elem_of_seq)%list_elem_of_fmap|(? & [=] & _)%list_elem_of_fmap]. lia.
  - intros [_ Hl]%list_elem_of_filter. by eapply Ho.
Qed.

(** The lock word changes only by the process that holds the spinlock. *)
Lemma locked_change l : s_locked s' l <> s_locked s l -> holds (SL l) (s_code s t) = true.
Proof.
  rewrite (ef_locked _ _ _ _ _ F), E. destruct code_local as (Hl & _ & _).
  destruct i; try done; case_decide; subst; simpl in *; try done.
  intros _. subst k. by apply (wakeup_rest t l0 (seq 0 nproc)).
Qed.

Lemma step_lock_free u l k1 : s_code s' u = Lock l :: k1 -> s_locked s' l = false.
Proof.
  rewrite code_after. case_decide as Hu.
  - subst u. intros Ek. destruct after_cases as [Ha|(l' & -> & _ & _ & Ha)]; [|by rewrite Ha in Ek].
    rewrite Ha in Ek. destruct code_local as (Hl & Hf & _).
    pose proof (fl_lock _ _ _ Hf l k1 Ek) as ->. simpl in *. rewrite (ef_locked _ _ _ _ _ F).
    destruct (s_locked s l); [|done]. by subst k.
  - intros Ek. pose proof (iv_lock _ H _ _ _ Ek) as Hl.
    destruct (decide (s_locked s' l = s_locked s l)) as [->|Hc]; [done|].
    exfalso. apply Hu. apply (holds_excl (SL l)); [|by apply locked_change].
    pose proof (iv_ok _ H u) as Hok. rewrite Ek in Hok |- *. apply Hok.
Qed.

Lemma step_unlock u l : Unlock l ∈ s_code s' u -> l ∈ s_owned s' u.
Proof.
  rewrite code_after, (ef_owned _ _ _ _ _ F). case_decide as Hu; [|apply (iv_unlock _ H)].
  destruct code_local as (Hl & _ & _).
  intros Hx%(after_unlock l).
  assert (l ∈ s_owned s t) as Ho by (apply (iv_unlock _ H); rewrite E; by right).
  destruct i; try done; [by right|]. apply list_elem_of_filter. split; [|done]. intros ->.
  simpl in Hl. subst k.
  apply elem_of_app in Hx as [Hx|Hx]; [|set_solver].
  apply list_elem_of_In, in_flat_map in Hx as (j & _ & Hx). unfold wakeup_one in Hx.
  destruct (j =? t)%nat; simpl in Hx; naive_solver.
Qed.

Lemma step_sleep u : s_state s' u = SLEEPING -> exists l n, s_chan s' u = Some l /\ (n <= 2)%nat /\
  s_code s' u = drop n (sched u) ++ sleep_tail u l.
Proof.
  rewrite code_after, (ef_chan _ _ _ _ _ F), (ef_state _ _ _ _ _ F). destruct code_local as (Hl & _ & _).
  intros Hs. destruct (decide (u = t)) as [->|Hu].
  - assert ((exists st, i = SetState st) \/ forall st, i <> SetState st) as Hi by (destruct i; eauto; by right).
    destruct Hi as [[st ->]|Hi].
    + simpl in Hs. subst st. simpl in Hl. destruct Hl as [l ->]. exists l, 0%nat.
      split_and!; [|lia|done]. apply (iv_chan _ H). by rewrite E.
    + assert (s_state s t = SLEEPING) as Hst by (destruct i; try done; [naive_solver|by case_decide..]).
      destruct (iv_sleep _ H t Hst) as (l & n & Hc & Hn & Hk). rewrite E in Hk.
      destruct n as [|[|[|]]]; [..|lia]; injection Hk as -> ->.
      * exists l, 1%nat. split_and!; [done|lia|done].
      * exists l, 2%nat. split_and!; [done|lia|done].
      * rewrite (ef_pick _ _ _ _ _ F eq_refl) in Hst. done.
  - assert (s_state s u = SLEEPING) as Hst by (destruct i; try done; by case_decide).
    by apply (iv_sleep _ H).
Qed.

Lemma step_chan u l : s_code s' u = SetState SLEEPING :: sched u ++ sleep_tail u l -> s_chan s' u = Some l.
Proof.
  rewrite code_after, (ef_chan _ _ _ _ _ F). destruct code_local as (_ & Hf & _).
  case_decide as Hu; [subst u|apply (iv_chan _ H)].
  destruct after_cases as [->|(l' & _ & _ & _ & ->)]; [|done].
  intros Ek. destruct (fl_chan _ _ _ Hf _ Ek) as (l' & -> & Ek'). by injection Ek' as ->.
Qed.

(** A process commits itself only after it found the lock taken. *)
Lemma committed_before u l : committed s' u l ->
  committed s u l \/ (i = WhileLocked l /\ s_locked s l = true).
Proof.
  unfold committed. rewrite code_after, (ef_chan _ _ _ _ _ F), (ef_state _ _ _ _ _ F).
  destruct code_local as (Hl & _ & _). pose proof (iv_state _ H t) as Hst. rewrite E in Hst.
  destruct (decide (u = t)) as [->|Hu].
  - intros [Hw%after_will_sleep|[Hs Hc]]; [tauto|]. left.
    destruct i; try (right; split; [done|exact Hc]); try (right; by case_decide).
    + exfalso. apply list_elem_of_singleton in Hst. congruence.
    + simpl in Hs. subst. simpl in Hl. destruct Hl as [l' ->]. left. rewrite E.
      pose proof (iv_chan _ H t l') as Hc'. rewrite E in Hc'. specialize (Hc' eq_refl). simpl. congruence.
  - intros [Hw|[Hs Hc]]; [auto|]. left. right. split; [|done]. destruct i; try done; by case_decide.
Qed.

Lemma in_wakeup u l : u <> t -> (u < nproc)%nat -> WakeIf u l ∈ wakeup t l.
Proof.
  intros Hu Hn. apply list_elem_of_In, in_flat_map. exists u. split; [apply in_seq; lia|].
  unfold wakeup_one. destruct (Nat.eqb_spec u t); [done|]. simpl. auto.
Qed.

Lemma committed_range u l : committed s u l -> (u < nproc)%nat.
Proof.
  intros Hc. destruct (decide (nproc <= u)%nat) as [Hn|]; [|lia]. pose proof (iv_range _ H u Hn) as Ek.
  destruct Hc as [Hw|[Hs _]]; [by rewrite Ek in Hw|].
  destruct (iv_sleep _ H u Hs) as (l' & n & _ & Hn' & Hk). rewrite Ek in Hk.
  destruct n as [|[|[|]]]; [done..|lia].
Qed.

Lemma step_no_lost u l : committed s' u l -> s_locked s' l = true \/ exists v, WakeIf u l ∈ s_code s' v.
Proof.
  intros Hc'. destruct code_local as (Hl & _ & _).
  destruct (committed_before u l Hc') as [Hc|[-> Hlk]]; [|left; by rewrite (ef_locked _ _ _ _ _ F)].
  destruct (iv_wait _ H u l Hc) as [Hlk|[v Hv]].
  - destruct (decide (i = Unlock l)) as [Ei|Hi].
    + right. exists t. rewrite code_after, decide_True by done. rewrite Ei in *. simpl in Hl |- *. subst k.
      apply elem_of_app. left. apply in_wakeup; [|by eapply committed_range]. intros ->.
      destruct Hc as [Hw|[Hs _]].
      * pose proof (ca_sleep _ (proj1 (proj2 (wakeup_rest t l (seq 0 nproc))))) as Hw'. rewrite E in Hw.
        by assert (None = Some l) as ? by (etransitivity; [symmetry; exact Hw'|exact Hw]).
      * pose proof (iv_state _ H t) as Hst. rewrite E in Hst. apply list_elem_of_singleton in Hst. congruence.
    + left. rewrite (ef_locked _ _ _ _ _ F). destruct i; try done; case_decide; congruence.
  - right. destruct (decide (v = t)) as [->|Hvt].
    + destruct (after_wake u l Hv) as [Ei|Ha]; [|exists t; by rewrite code_after, decide_True].
      exfalso. rewrite Ei in Hl. simpl in Hl. destruct Hl as (Hp & Hsl & Hut).
      destruct Hc' as [Hw|[Hs Hch]].
      * rewrite code_after, decide_False in Hw by done.
        assert (holds (SL l) (s_code s u) = true \/ holds (PL u) (s_code s u) = true) as Hh.
        { pose proof (iv_ok _ H u) as Hok. destruct (s_code s u) as [|i' k']; [done|].
          destruct Hok as (_ & Hf & _). by apply (fl_sleep _ _ _ Hf). }
        apply Hut. destruct Hh as [Hh|Hh]; (eapply holds_excl; [exact Hh|]; by rewrite E, Ei).
      * rewrite (ef_chan _ _ _ _ _ F), decide_False in Hch by done.
        rewrite (ef_state _ _ _ _ _ F), Ei in Hs. case_decide as Hd; [done|]. tauto.
    + exists v. by rewrite code_after, decide_False.
Qed.

Lemma step_inv : inv s'.
Proof.
  split.
  - intros u. rewrite code_after. case_decide; [subst; apply after_ok|apply (iv_ok _ H)].
  - intros u Hu. pose proof in_range. rewrite code_after, decide_False by lia. by apply (iv_range _ H).
  - intros u x. rewrite code_after. case_decide; [apply after_acquire|apply (iv_acquire _ H)].
  - intros u x. rewrite (ef_owner _ _ _ _ _ F). intros Hx.
    destruct i; try exact (iv_bound _ H u x Hx); case_decide; try exact (iv_bound _ H u x Hx); try done.
    subst. apply (iv_acquire _ H t). rewrite E. by left.
  - apply step_own.
  - apply step_state.
  - apply step_pid.
  - apply step_locked.
  - apply step_owned.
  - apply step_lock_free.
  - apply step_unlock.
  - apply step_sleep.
  - apply step_chan.
  - apply step_no_lost.
  - rewrite (ef_panic _ _ _ _ _ F). apply H.
Qed.
End one_step.

(** ** Calls and interrupts *)

Lemma goto_inv t k s : inv s -> (t < nproc)%nat -> s_state s t = RUNNING -> ok t k -> calm k ->
  (forall x, Acquire x ∈ k -> x ∈ all_locks) -> (forall x, holds x k = holds x (s_code s t)) ->
  (forall l, Unlock l ∈ k -> l ∈ s_owned s t) ->
  (forall j c, WakeIf j c ∈ s_code s t -> WakeIf j c ∈ k) -> inv (goto t k s).
Proof.
  intros H Ht Hs Hk [Ha Hl Hss Hw] Hb Hh Hu Hwk.
  assert (forall u, s_code (goto t k s) u = if decide (u = t) then k else s_code s u) as Hc
    by (intros u; apply insert_if).
  split; try apply H.
  - intros u. rewrite Hc. case_decide; [by subst|apply H].
  - intros u Hun. rewrite Hc, decide_False by lia. by apply H.
  - intros u x. rewrite Hc. case_decide; [apply Hb|apply H].
  - intros x u. rewrite Hc. case_decide; [subst u; rewrite Hh|]; apply H.
  - intros u. rewrite Hc. case_decide; [subst u; rewrite Ha; cbn; rewrite Hs; by left|apply H].
  - intros u l k1. rewrite Hc. case_decide; [by intros ?%Hl|apply H].
  - intros u l. rewrite Hc. case_decide; [subst u; apply Hu|apply H].
  - intros u Hsu. rewrite Hc. rewrite decide_False; [by apply H|]. intros ->. cbn in Hsu. congruence.
  - intros u l. rewrite Hc. case_decide; [by intros ?%Hss|apply H].
  - intros u l Hcm.
    assert (committed s u l) as Hcm'.
    { destruct Hcm as [Hx|Hx]; [|by right]. rewrite Hc in Hx. case_decide; [congruence|by left]. }
    destruct (iv_wait _ H u l Hcm') as [|[v Hv]]; [by left|]. right. exists v. rewrite Hc.
    case_decide; [subst; by apply Hwk|done].
Qed.

Lemma held_nil s t : inv s -> held s t = [] -> forall x, holds x (s_code s t) = false.
Proof.
  intros H Hh x. destruct (holds x (s_code s t)) eqn:Ex; [|done]. apply (iv_own _ H) in Ex.
  assert (x ∈ held s t) as Hx; [|rewrite Hh in Hx; by apply not_elem_of_nil in Hx].
  apply list_elem_of_filter. split; [done|by apply (iv_bound _ H t)].
Qed.

(** A process that holds no spinlock and runs is in no critical part. *)
Lemma running_calm t k : ok t k -> running_code k = true -> (forall x, holds x k = false) -> calm k.
Proof.
  intros Hk Hr Hh. destruct k as [|i k]; [done|]. destruct Hk as (Hl & Hf & _).
  assert (forall x, ~ holds x (i :: k) = true) as Hn by (intros x; by rewrite Hh).
  split.
  - destruct i as [x|x|c|[]| | |l|l|l|j c|j]; simpl in *; try done.
    + by destruct k as [|[| | |[]| | | | | | |] k].
    + destruct (Hn x). by rewrite decide_True.
    + by destruct (Hn (PL t)).
    + destruct Hl as [Hl _]. by destruct (Hn (PL t)).
  - intros l k' [= -> ->]. simpl in Hl. by destruct (Hn (SL l)).
  - intros k' [= -> ->]. simpl in Hl. destruct Hl as [l ->]. destruct (Hn (PL t)). simpl. by rewrite decide_True.
  - destruct (will_sleep (i :: k)) as [l|] eqn:E; [|done].
    destruct (fl_sleep _ _ _ Hf l E) as [Hx|Hx]; by destruct (Hn _ Hx).
Qed.

Lemma all_locks_pl i : (i < nproc)%nat -> PL i ∈ all_locks.
Proof. intros Hi. apply elem_of_app. right. apply list_elem_of_fmap. exists i. split; [done|]. apply elem_of_seq. lia. Qed.
Lemma all_locks_sl l : (l < nlocks)%nat -> SL l ∈ all_locks.
Proof. intros Hi. apply elem_of_app. left. apply list_elem_of_fmap. exists l. split; [done|]. apply elem_of_seq. lia. Qed.

Lemma flat_map_elem {A B} (f : A -> list B) l y : y ∈ flat_map f l -> exists x, x ∈ l /\ y ∈ f x.
Proof.
  intros Hy. apply list_elem_of_In, in_flat_map in Hy as (x & Hx & Hy). exists x.
  split; by apply list_elem_of_In.
Qed.

Lemma releasesleep_elem t l i : i ∈ releasesleep t l ->
  (forall x, i = Acquire x -> x = SL l \/ exists j, x = PL j /\ (j < nproc)%nat) /\ (forall l', i = Unlock l' -> l' = l).
Proof.
  unfold releasesleep. simpl. rewrite !elem_of_cons, elem_of_app, list_elem_of_singleton.
  intros [->|[->|[Hi| ->]]]; [naive_solver..| |naive_solver].
  apply flat_map_elem in Hi as (j & Hj%elem_of_seq & Hi). unfold wakeup_one in Hi.
  destruct (j =? t)%nat; [by apply not_elem_of_nil in Hi|].
  rewrite !elem_of_cons in Hi. destruct Hi as [->|[->|[->|Hi%not_elem_of_nil]]]; try done; (split; [|done]); try done.
  intros x [= <-]. right. exists j. split; [done|lia].
Qed.

Lemma kill_elem n i : i ∈ kill n -> (n < nproc)%nat ->
  (forall x, i = Acquire x -> exists j, x = PL j /\ (j < nproc)%nat) /\ (forall l', i <> Unlock l').
Proof.
  unfold kill. intros Hi Hn. apply elem_of_app in Hi as [Hi|Hi].
  - apply flat_map_elem in Hi as (j & Hj%elem_of_seq & Hi). rewrite !elem_of_cons in Hi.
    destruct Hi as [->|[->|Hi%not_elem_of_nil]]; try done; (split; [|done]); try done.
    intros x [= <-]. exists j. split; [done|lia].
  - rewrite !elem_of_cons in Hi. destruct Hi as [->|[->|[->|Hi%not_elem_of_nil]]]; try done; (split; [|done]); try done.
    intros x [= <-]. by exists n.
Qed.

Lemma scall_inv t c s s' : inv s -> (t < nproc)%nat -> start t c s = Some s' -> inv s'.
Proof.
  intros H Ht Es. pose proof (iv_ok _ H t) as Hok. pose proof (iv_state _ H t) as Hst.
  assert (s_code s t = [] -> s_state s t = RUNNING) as Hrun.
  { intros E. rewrite E in Hst. by apply list_elem_of_singleton in Hst. }
  assert (forall k, calm k -> (forall x, holds x k = false) -> s_code s t = [] -> ok t k ->
    (forall x, Acquire x ∈ k -> x ∈ all_locks) -> (forall l, Unlock l ∈ k -> l ∈ s_owned s t) -> inv (goto t k s)) as Hcall.
  { intros k Hc Hh E Hk Hb Hu. apply goto_inv; try done; [by apply Hrun| |].
    - intros x. by rewrite Hh, E.
    - intros j c' Hj. rewrite E in Hj. by apply not_elem_of_nil in Hj. }
  assert (C_timer = c -> inv s') as Htimer.
  { intros <-. unfold start in Es. destruct (running_code (s_code s t)) eqn:Er; [|done].
    case_bool_decide as Eh; [|done]. simpl in Es. simplify_eq.
    pose proof (held_nil s t H Eh) as Hh. pose proof (running_calm t _ Hok Er Hh) as Hc.
    rewrite (ca_run _ Hc) in Hst. apply list_elem_of_singleton in Hst.
    apply goto_inv; try done; [by apply ok_yield|..].
    - split; try done. simpl. apply Hc.
    - intros x Hx. change (Acquire x ∈ yield t ++ s_code s t) in Hx.
      apply elem_of_app in Hx as [Hx|Hx]; [|by apply (iv_acquire _ H t)].
      simpl in Hx. repeat (apply elem_of_cons in Hx as [Hx|Hx]; [by simplify_eq; apply all_locks_pl|]).
      by apply not_elem_of_nil in Hx.
    - intros x. rewrite Hh. simpl. rewrite Hh. repeat case_decide; done.
    - intros l Hl. change (Unlock l ∈ yield t ++ s_code s t) in Hl.
      apply elem_of_app in Hl as [Hl|Hl]; [|by apply (iv_unlock _ H)].
      clear -Hl. simpl in Hl. set_solver.
    - intros j c Hj. by do 8 right. }
  destruct c as [l|l|i|]; [..|by apply Htimer]; simpl in Es;
    destruct (s_code s t) as [|? ?] eqn:E; try done.
  - destruct (Nat.ltb_spec l nlocks); [|done]. simplify_eq. apply Hcall; try done; [|apply ok_acquiresleep| |].
    + intros x. simpl. repeat case_decide; done.
    + intros x Hx. simpl in Hx. repeat (apply elem_of_cons in Hx as [Hx|Hx]; [by simplify_eq; apply all_locks_sl|]).
      by apply not_elem_of_nil in Hx.
    + intros l' Hx. clear -Hx. simpl in Hx. set_solver.
  - case_bool_decide as Hl; [|done]. simplify_eq.
    destruct (wakeup_rest t l (seq 0 nproc)) as (_ & Hc & Hh).
    apply Hcall; try done; [| |apply ok_releasesleep| |].
    + by apply calm_cons, calm_cons.
    + intros x. simpl. case_decide; [done|]. destruct (holds x _) eqn:Ex; [|done]. by apply Hh in Ex.
    + intros x Hx. destruct (releasesleep_elem _ _ _ Hx) as [Hx' _].
      destruct (Hx' x eq_refl) as [->|(j & -> & ?)]; [apply all_locks_sl; by apply (iv_owned _ H l t)|by apply all_locks_pl].
    + intros l' Hx. destruct (releasesleep_elem _ _ _ Hx) as [_ Hx']. by rewrite (Hx' l' eq_refl).
  - destruct (Nat.ltb_spec i nproc) as [Hi|]; [|done]. simplify_eq. destruct (kill_ok t i) as (Hk & Hc & Hh).
    apply Hcall; try done.
    + intros x Hx. destruct (kill_elem _ _ Hx Hi) as [Hx' _].
      destruct (Hx' x eq_refl) as (j & -> & ?). by apply all_locks_pl.
    + intros l' Hx. destruct (kill_elem _ _ Hx Hi) as [_ Hx']. by destruct (Hx' l').
Qed.

Lemma sboot_inv : inv sboot.
Proof.
  split; simpl; try done; try (by intros ? ? ?%not_elem_of_nil).
  - intros _. by apply list_elem_of_singleton.
  - intros l t. split; [done|]. by intros ?%not_elem_of_nil.
  - intros t l [?|[? _]]; done.
Qed.

Lemma inner_inv s s' : inv s -> inner s s' -> inv s'.
Proof.
  intros H (t & Es). unfold step in Es. destruct (s_code s t) as [|i k] eqn:E; [done|].
  by eapply step_inv, exec_effect.
Qed.

Lemma reachable_inv s : reachable sstep sboot s -> inv s.
Proof.
  intros [n Hr]. eapply (runs_invariant sstep inv); [|apply sboot_inv|exact Hr].
  intros s1 s2 H [Hi|(t & c & Ht & Es)]; [by eapply inner_inv|by eapply scall_inv].
Qed.

(** ** Progress *)

Lemma step_blocked t i k s : inv s -> s_code s t = i :: k -> step t s = None ->
  (exists x u, i = Acquire x /\ s_owner s x = Some u) \/ (i = Pick /\ s_state s t <> RUNNABLE).
Proof.
  intros H E. unfold step. rewrite E. intros Es. destruct i; simpl in Es; try done.
  - left. destruct (s_owner s x) as [u|] eqn:Eo; [|done]. eauto.
  - by case_bool_decide.
  - by destruct (_ && _).
  - right. by case_decide.
  - by destruct (s_locked s l).
Qed.

(** A process that holds a spinlock and waits, waits for a process lock
    and holds that of a sleep lock. *)
Lemma waits_holding t i k s x : inv s -> s_code s t = i :: k -> step t s = None ->
  holds x (i :: k) = true -> exists l j u, x = SL l /\ i = Acquire (PL j) /\ s_owner s (PL j) = Some u.
Proof.
  intros H E Es Hx. pose proof (iv_ok _ H t) as Hok. rewrite E in Hok. destruct Hok as (Hl & _ & _).
  destruct (step_blocked t i k s H E Es) as [(y & u & -> & Hu)|[-> _]]; simpl in *.
  - case_decide as Hxy; [done|]. destruct Hl as [_ Hl]. destruct (Hl x Hxy Hx) as (l & j & -> & ->). eauto 10.
  - by rewrite Hl in Hx.
Qed.

(** When no process can go on, nobody waits for a spinlock. *)
Lemma stuck_pick s t : inv s -> (forall t, step t s = None) -> s_code s t <> [] ->
  exists k, s_code s t = Pick :: k /\ s_state s t = SLEEPING.
Proof.
  intros H Hst Hne.
  assert (forall x u, s_owner s x = Some u -> exists l j v, x = SL l /\ s_owner s (PL j) = Some v) as Hw.
  { intros x u Hu. apply (iv_own _ H) in Hu. destruct (s_code s u) as [|i k] eqn:E; [done|].
    destruct (waits_holding u i k s x H E (Hst u) Hu) as (l & j & v & -> & _ & Hv). eauto. }
  destruct (s_code s t) as [|i k] eqn:E; [done|].
  destruct (step_blocked t i k s H E (Hst t)) as [(x & u & -> & Hu)|[-> Hr]].
  - exfalso. destruct (Hw x u Hu) as (l & j & v & _ & Hv). by destruct (Hw _ _ Hv) as (? & ? & ? & [=] & _).
  - exists k. split; [done|]. pose proof (iv_state _ H t) as Hs. rewrite E in Hs.
    change (s_state s t ∈ [SLEEPING; RUNNABLE]) in Hs. rewrite !elem_of_cons in Hs. destruct Hs as [?|[?|?%not_elem_of_nil]]; done.
Qed.

(** Then it sleeps on a sleep lock that is taken. *)
Lemma stuck_sleeping s t : inv s -> (forall t, step t s = None) -> s_code s t <> [] ->
  s_state s t = SLEEPING /\ exists l u, s_chan s t = Some l /\ s_locked s l = true /\ l ∈ s_owned s u.
Proof.
  intros H Hst Hne. destruct (stuck_pick s t H Hst Hne) as (k & E & Hs). split; [done|].
  destruct (iv_sleep _ H t Hs) as (l & n & Hc & _).
  assert (s_locked s l = true) as Hl.
  { destruct (iv_wait _ H t l) as [|[u Hu]]; [by right|done|]. exfalso.
    assert (s_code s u <> []) as Hu' by (intros E'; rewrite E' in Hu; by apply not_elem_of_nil in Hu).
    destruct (stuck_pick s u H Hst Hu') as (k' & E' & Hs').
    destruct (iv_sleep _ H u Hs') as (l' & n' & _ & Hn' & Hk). rewrite Hk in Hu.
    clear -Hu Hn'. destruct n' as [|[|[|]]]; [..|lia]; simpl in Hu; set_solver. }
  pose proof Hl as [u Hu]%(iv_locked _ H). apply (iv_pid _ H) in Hu. eauto.
Qed.

(** *** Termination *)

Definition weight (i : instr) : nat := match i with WakeIf _ _ | WakeAny _ => 15 | _ => 1 end.
Definition cost (k : list instr) : nat := sum_list (weight <$> k).
(** A process about to sleep, or asleep, needs a wakeup before it can
    test the lock again. *)
Definition credit (s : sstate) (t : nat) : nat :=
  if decide (s_state s t = SLEEPING \/ SetState SLEEPING ∈ s_code s t) then 0 else 13.
Definition work (s : sstate) : nat := sum_list ((fun t => cost (s_code s t) + credit s t)%nat <$> seq 0 nproc).

Lemma sum_list_le {A} (f g a b : A -> nat) l : (forall x, (f x + a x <= g x + b x)%nat) ->
  (sum_list (f <$> l) + sum_list (a <$> l) <= sum_list (g <$> l) + sum_list (b <$> l))%nat.
Proof. intros Hx. induction l as [|x l IH]; csimpl; [lia|]. specialize (Hx x). lia. Qed.

Lemma sum_list_at (t c n m : nat) :
  sum_list ((fun u => if decide (u = t) then c else 0%nat) <$> seq m n) =
  if decide (m <= t < m + n)%nat then c else 0%nat.
Proof.
  revert m. induction n as [|n IH]; intros m; csimpl; [by rewrite decide_False by lia|].
  rewrite IH. repeat case_decide; lia.
Qed.

Lemma credit_le s t : (credit s t <= 13)%nat.
Proof. unfold credit. case_decide; lia. Qed.

(** The process a step may wake. *)
Definition wakes (i : instr) : option nat := match i with WakeIf j _ | WakeAny j => Some j | _ => None end.

Lemma credit_mono t i k s s' u : inv s -> s_code s t = i :: k -> effect t i (after t i k s) s s' ->
  wakes i <> Some u -> (credit s' u <= credit s u)%nat.
Proof.
  intros H E F Hu. unfold credit. case_decide as H1; [lia|]. case_decide as H2; [|lia]. exfalso. apply H1.
  pose proof (code_after t i k s s' F u) as Ec. pose proof (ef_state _ _ _ _ _ F u) as Es. rewrite Ec.
  destruct (decide (u = t)) as [->|Hut].
  - pose proof (iv_state _ H t) as Hst. rewrite E in Hst. destruct H2 as [H2|H2].
    + left. rewrite Es. destruct i; try done; simpl in Hst; try (by case_decide).
      * exfalso. destruct s0; apply list_elem_of_singleton in Hst; congruence.
      * rewrite decide_False; [done|]. intros [<- _]. by apply Hu.
      * rewrite decide_False; [done|]. intros [<- _]. by apply Hu.
    + rewrite E in H2. apply elem_of_cons in H2 as [<-|H2]; [left; by rewrite Es|]. right.
      destruct (after_cases t i k s H E) as [->|(l & _ & _ & -> & ->)]; [done|]. set_solver.
  - destruct H2 as [H2|H2]; [left|by right]. rewrite Es. destruct i; try done; case_decide; naive_solver.
Qed.

Definition bonus (i : instr) : nat := match wakes i with Some _ => 13 | None => 0 end.

Lemma work_point t i k s s' u : inv s -> s_code s t = i :: k -> effect t i (after t i k s) s s' ->
  (cost (s_code s' u) + credit s' u + (if decide (u = t) then S (bonus i) else 0) <=
   cost (s_code s u) + credit s u + (if decide (u = default nproc (wakes i)) then bonus i else 0))%nat.
Proof.
  intros H E F. pose proof (credit_le s' u) as Hle. pose proof (credit_mono t i k s s' u H E F) as Hm.
  rewrite (code_after t i k s s' F u). destruct (decide (u = t)) as [->|Hu].
  - destruct (after_cases t i k s H E) as [->|(l & -> & Hl & -> & Ea)].
    + rewrite E. change (cost (i :: k)) with (weight i + cost k)%nat.
      destruct i as [| | | | | | | | |j c|j]; simpl in *; try (specialize (Hm ltac:(done))); unfold bonus; simpl; try lia;
        (destruct (decide (t = j)) as [->|Hj]; [lia|]; lapply Hm; [lia|congruence]).
    + assert (credit s t = 13%nat) as Hc.
      { unfold credit. rewrite decide_False; [done|]. pose proof (iv_state _ H t) as Hst. rewrite E in Hst |- *.
        apply list_elem_of_singleton in Hst. intros [Hs|Hs]; [congruence|]. clear -Hs. set_solver. }
      assert (credit s' t = 0%nat) as Hc'.
      { unfold credit. rewrite decide_True; [done|]. right.
        rewrite (code_after t _ _ s s' F t), decide_True, Ea by done. clear. set_solver. }
      rewrite Ea, Hc, Hc', E. change (cost (sleep t l (SL l) ++ acquiresleep_loop l)) with 15%nat.
      change (cost [WhileLocked l; Lock l; Release (SL l)]) with 3%nat. unfold bonus. simpl. lia.
  - destruct (decide (wakes i = Some u)) as [Hw|Hw].
    + unfold bonus. rewrite Hw. simpl. rewrite decide_True by done. lia.
    + specialize (Hm Hw). lia.
Qed.

Lemma work_step s s' : inv s -> inner s s' -> (work s' < work s)%nat.
Proof.
  intros H (t & Es). unfold step in Es. destruct (s_code s t) as [|i k] eqn:E; [done|].
  pose proof (exec_effect t i k s s' H E Es) as F. pose proof (in_range t i k s H E) as Ht.
  pose proof (sum_list_le _ _ _ _ (seq 0 nproc) (fun u => work_point t i k s s' u H E F)) as Hle.
  fold (work s) in Hle. fold (work s') in Hle. rewrite !sum_list_at, decide_True in Hle by lia.
  case_decide; lia.
Qed.
End sleeplocks.

(** ** Theorems *)

(** C7: No lost wakeup.  Any number of processes call [acquiresleep],
    [releasesleep] and [kill] and are preempted, in any interleaving of
    their steps.  Then no check of [acquire], [release] and [sched] fails;
    a sleep lock is owned by at most one process; a process that is
    SLEEPING sleeps on a sleep lock that is taken, or some process is in
    [wakeup] on that lock and has yet to look at it; and the calls in
    progress come to an end, after a bounded number of steps in whatever
    order: when no step is possible any more, each of them has returned or
    sleeps on a sleep lock that a process owns, never on a free one. *)
Theorem sleep_no_lost_wakeup nproc nlocks s : reachable (sstep nproc nlocks) sboot s ->
  s_panic s = false /\
  (forall l t u, l ∈ s_owned s t -> l ∈ s_owned s u -> t = u) /\
  (forall p, s_state s p = SLEEPING -> exists l, s_chan s p = Some l /\
     (s_locked s l = true \/ exists u, WakeIf p l ∈ s_code s u)) /\
  exists N, forall n s', runs (inner nproc nlocks) n s s' -> (n <= N)%nat /\
    ((forall t, step nproc nlocks t s' = None) -> forall t, s_code s' t <> [] ->
       s_state s' t = SLEEPING /\
       exists l u, s_chan s' t = Some l /\ s_locked s' l = true /\ l ∈ s_owned s' u).
Proof.
  intros Hr. pose proof (reachable_inv nproc nlocks s Hr) as H. split_and!.
  - apply H.
  - intros l t u Ht%(iv_pid _ _ _ H) Hu%(iv_pid _ _ _ H). congruence.
  - intros p Hp. destruct (iv_sleep _ _ _ H p Hp) as (l & n & Hc & _). exists l. split; [done|].
    apply (iv_wait _ _ _ H). by right.
  - exists (work nproc s). intros n s' Hn. split.
    + pose proof (runs_bounded (inner nproc nlocks) (inv nproc nlocks) (work nproc)) as Hb.
      specialize (Hb (inner_inv nproc nlocks) (work_step nproc nlocks) n s s' H Hn). lia.
    + intros Hst t Ht. apply (stuck_sleeping nproc nlocks s' t); [|done|done].
      eapply (runs_invariant (inner nproc nlocks) (inv nproc nlocks)); [apply inner_inv|exact H|exact Hn].
Qed.

(** Mutual exclusion as the code sees it: the word [locked] of a sleep lock
    is set exactly while a process owns it, and [pid] is that process. *)
Theorem sleeplock_owner nproc nlocks s l : reachable (sstep nproc nlocks) sboot s ->
  match s_pid s l with
  | Some t => s_locked s l = true /\ l ∈ s_owned s t /\ forall u, l ∈ s_owned s u -> u = t
  | None => s_locked s l = false /\ forall u, l ∉ s_owned s u
  end.
Proof.
  intros Hr. pose proof (reachable_inv nproc nlocks s Hr) as H.
  pose proof (iv_locked _ _ _ H l) as Hl. destruct (s_pid s l) as [t|] eqn:Ep.
  - split; [by apply Hl|]. split; [by apply (iv_pid _ _ _ H)|]. intros u Hu%(iv_pid _ _ _ H). congruence.
  - split; [|intros u Hu%(iv_pid _ _ _ H); congruence].
    destruct (s_locked s l); [|done]. by destruct (proj1 Hl eq_refl).
Qed.

(** ** A run

    Process 0 takes the lock; process 1 finds it taken, and process 0
    releases it while process 1 is between [acquire(&p->lock)] and the
    switch. *)

Inductive sact := Do (t : nat) | Call (t : nat) (c : scall).
Definition sact_step (a : sact) (s : sstate) : option sstate :=
  match a with Do t => step 2 1 t s | Call t c => if (t <? 2)%nat then start 2 1 t c s else None end.

Lemma sact_reachable sched s s' : run_schedule sact_step sched s = Some s' -> reachable (sstep 2 1) s s'.
Proof.
  intros E%run_schedule_reachable. destruct E as [n Hr]. exists n. induction Hr as [|n s s1 s' [a Ha] Hr IH]; [constructor|].
  econstructor; [|exact IH]. destruct a as [t|t c]; simpl in Ha; [left; by exists t|].
  destruct (Nat.ltb_spec t 2); [|done]. right. by exists t, c.
Qed.

Definition sleep_demo : list sact :=
  [Call 0 (C_acquire 0)] ++ repeat (Do 0) 4 ++ [Call 1 (C_acquire 0); Do 1; Do 1; Do 1; Do 1] ++
  [Call 0 (C_release 0); Do 0; Do 0] ++ repeat (Do 1) 4.
Definition sleep_demo_state : sstate := default sboot (run_schedule sact_step sleep_demo sboot).
Definition sleep_demo_end : sstate :=
  default sboot (run_schedule sact_step (repeat (Do 0) 4 ++ repeat (Do 1) 9) sleep_demo_state).

(** The wakeup is not lost: process 1 gets the lock. *)
Example sleep_demo_handover :
  s_owned sleep_demo_end 0 = [] /\ s_owned sleep_demo_end 1 = [0%nat] /\
  s_code sleep_demo_end 0 = [] /\ s_code sleep_demo_end 1 = [].
Proof. vm_compute. auto. Qed.

Lemma sleep_no_lost_wakeup_witness :
  s_state sleep_demo_state 1 = SLEEPING /\ s_locked sleep_demo_state 0 = false /\
  exists u, WakeIf 1 0 ∈ s_code sleep_demo_state u.
Proof.
  destruct (sleep_no_lost_wakeup 2 1 sleep_demo_state) as (_ & _ & Hs & _).
  - apply (sact_reachable sleep_demo). vm_compute. reflexivity.
  - assert (s_state sleep_demo_state 1 = SLEEPING) as E by reflexivity. split; [exact E|].
    assert (s_locked sleep_demo_state 0 = false) as El by reflexivity. split; [exact El|].
    destruct (Hs 1%nat E) as (l & Hc & Hl).
    assert (s_chan sleep_demo_state 1 = Some 0%nat) as E0 by reflexivity.
    rewrite E0 in Hc. injection Hc as <-. destruct Hl as [Hl|Hl]; [congruence|exact Hl].
Defined.

Lemma sleeplock_owner_witness : s_pid sleep_demo_state 0 = None /\ forall u, 0%nat ∉ s_owned sleep_demo_state u.
Proof.
  pose proof (sleeplock_owner 2 1 sleep_demo_state 0) as H. split; [reflexivity|].
  apply H. apply (sact_reachable sleep_demo). vm_compute. reflexivity.
Defined.
