(* ===== verification/Mem.v ===== *)
(** * Mem: byte memory and string.c

    Memory is a function from addresses to bytes.  Models kernel/string.c
    (the same routines are in user/ulib.c); plain [char] is unsigned on
    RISC-V.  A loop that counts [n] down is a structural recursion on the
    number of iterations left; [strlen], whose loop is not bounded, takes
    fuel and returns [None] when it runs out. *)

From S2P Require Import Prelude.

Definition mem := Z -> Z.
Definition mstore (m : mem) (a v : Z) : mem := fun b => if b =? a then u8 v else m b.

(** ** string.c *)

Fixpoint memset_loop (k : nat) (a c : Z) (m : mem) : mem :=
  match k with
  | O => m
  | S k' => memset_loop k' (a + 1) c (mstore m a c)
  end.
Definition memset (dst c n : Z) (m : mem) : mem := memset_loop (Z.to_nat n) dst c m.

Fixpoint memcmp_loop (k : nat) (s1 s2 : Z) (m : mem) : Z :=
  match k with
  | O => 0
  | S k' => if negb (m s1 =? m s2) then m s1 - m s2 else memcmp_loop k' (s1 + 1) (s2 + 1) m
  end.
Definition memcmp (v1 v2 n : Z) (m : mem) : Z := memcmp_loop (Z.to_nat n) v1 v2 m.

Fixpoint copy_down (k : nat) (d s : Z) (m : mem) : mem :=
  match k with
  | O => m
  | S k' => copy_down k' (d - 1) (s - 1) (mstore m (d - 1) (m (s - 1)))
  end.
Fixpoint copy_up (k : nat) (d s : Z) (m : mem) : mem :=
  match k with
  | O => m
  | S k' => copy_up k' (d + 1) (s + 1) (mstore m d (m s))
  end.
Definition memmove (dst src n : Z) (m : mem) : mem :=
  if n =? 0 then m
  else if (src <? dst) && (dst <? src + n) then copy_down (Z.to_nat n) (dst + n) (src + n) m
  else copy_up (Z.to_nat n) dst src m.
Definition memcpy (dst src n : Z) (m : mem) : mem := memmove dst src n m.

Fixpoint strncmp_loop (k : nat) (p q : Z) (m : mem) : Z :=
  match k with
  | O => 0
  | S k' => if negb (m p =? 0) && (m p =? m q) then strncmp_loop k' (p + 1) (q + 1) m
            else m p - m q
  end.
Definition strncmp (p q n : Z) (m : mem) : Z := strncmp_loop (Z.to_nat n) p q m.

Fixpoint strncpy_loop (k : nat) (s t : Z) (m : mem) : mem :=
  match k with
  | O => m
  | S k' =>
    let c := m t in
    let m' := mstore m s c in
    if c =? 0 then memset_loop k' (s + 1) 0 m' else strncpy_loop k' (s + 1) (t + 1) m'
  end.
Definition strncpy (s t n : Z) (m : mem) : mem := strncpy_loop (Z.to_nat n) s t m.

(** [while(--n > 0 && ( *s++ = *t++ ) != 0); *s = 0;] with [k = n - 1]. *)
Fixpoint safestrcpy_loop (k : nat) (s t : Z) (m : mem) : mem :=
  match k with
  | O => mstore m s 0
  | S k' =>
    let c := m t in
    let m' := mstore m s c in
    if c =? 0 then mstore m' (s + 1) 0 else safestrcpy_loop k' (s + 1) (t + 1) m'
  end.
Definition safestrcpy (s t n : Z) (m : mem) : mem :=
  if n <=? 0 then m else safestrcpy_loop (Z.to_nat (n - 1)) s t m.

Fixpoint strlen_loop (fuel : nat) (s n : Z) (m : mem) : option Z :=
  match fuel with
  | O => None
  | S f => if m (s + n) =? 0 then Some n else strlen_loop f s (n + 1) m
  end.
Definition strlen (fuel : nat) (s : Z) (m : mem) : option Z := strlen_loop fuel s 0 m.

(** ** Little-endian words *)

Fixpoint load_le (k : nat) (m : mem) (a : Z) : Z :=
  match k with O => 0 | S k' => m a + 256 * load_le k' m (a + 1) end.
Fixpoint store_le (k : nat) (m : mem) (a v : Z) : mem :=
  match k with O => m | S k' => store_le k' (mstore m a (v mod 256)) (a + 1) (v / 256) end.
Definition load32 := load_le 4.
Definition store32 := store_le 4.
Definition load64 := load_le 8.
Definition store64 := store_le 8.

(** The [n] bytes from [a]. *)
Definition bytes (m : mem) (a : Z) (n : nat) : list Z := (fun i => m (a + Z.of_nat i)) <$> seq 0 n.
(** Copy a list of bytes to [a]. *)
Fixpoint store_bytes (l : list Z) (a : Z) (m : mem) : mem :=
  match l with [] => m | b :: l' => store_bytes l' (a + 1) (mstore m a b) end.

(** ** Lemmas *)

Definition is_bytes (m : mem) : Prop := forall a, 0 <= m a < 256.

Lemma mstore_spec m a v b : mstore m a v b = if decide (b = a) then u8 v else m b.
Proof. unfold mstore. destruct (Z.eqb_spec b a); by case_decide. Qed.

Lemma mstore_bytes m a v : is_bytes m -> is_bytes (mstore m a v).
Proof. intros H b. rewrite mstore_spec. case_decide; [apply (u8_range v)|apply H]. Qed.

Lemma store_bytes_spec l : forall a m b, Forall (fun x => 0 <= x < 256) l ->
  store_bytes l a m b = if decide (a <= b < a + Z.of_nat (length l)) then aget 0 l (b - a) else m b.
Proof.
  induction l as [|x l IH]; intros a m b Hl; cbn [store_bytes].
  { simpl. by rewrite decide_False by lia. }
  apply Forall_cons in Hl as [Hx Hl]. rewrite IH, mstore_spec by done. cbn [length].
  unfold aget. repeat case_decide; try lia.
  - replace (Z.to_nat (b - a)) with (S (Z.to_nat (b - (a + 1)))) by lia. done.
  - subst b. rewrite Z.sub_diag. by apply u8_small.
Qed.

Lemma store_bytes_bytes l a m : Forall (fun x => 0 <= x < 256) l -> is_bytes m -> is_bytes (store_bytes l a m).
Proof.
  revert a m. induction l as [|x l IH]; intros a m Hl Hm; [done|]. cbn [store_bytes].
  apply Forall_cons in Hl as [Hx Hl]. apply IH; [done|]. by apply mstore_bytes.
Qed.

Lemma memset_loop_spec k : forall a c m b,
  memset_loop k a c m b = if decide (a <= b < a + Z.of_nat k) then u8 c else m b.
Proof.
  induction k as [|k IH]; intros a c m b; simpl.
  - by rewrite decide_False by lia.
  - rewrite IH, mstore_spec. repeat case_decide; lia.
Qed.

Lemma memset_spec dst c n m b : 0 <= n ->
  memset dst c n m b = if decide (dst <= b < dst + n) then u8 c else m b.
Proof. intros. unfold memset. rewrite memset_loop_spec, Z2Nat.id by lia. done. Qed.

Lemma copy_up_spec k : forall d s m b, is_bytes m ->
  ~ (s < d < s + Z.of_nat k) ->
  copy_up k d s m b = if decide (d <= b < d + Z.of_nat k) then m (s + (b - d)) else m b.
Proof.
  induction k as [|k IH]; intros d s m b Hm Hd; simpl.
  - by rewrite decide_False by lia.
  - rewrite IH by (try apply mstore_bytes; done || lia). rewrite !mstore_spec.
    rewrite u8_small by (apply Hm).
    repeat case_decide; subst; try lia; f_equal; lia.
Qed.

Lemma copy_down_spec k : forall d s m b, is_bytes m -> s <= d ->
  copy_down k d s m b =
  if decide (d - Z.of_nat k <= b < d) then m (s - (d - b)) else m b.
Proof.
  induction k as [|k IH]; intros d s m b Hm Hd; simpl.
  - by rewrite decide_False by lia.
  - rewrite IH by (try apply mstore_bytes; done || lia). rewrite !mstore_spec.
    rewrite u8_small by (apply Hm).
    repeat case_decide; subst; try lia; f_equal; lia.
Qed.

Lemma memmove_spec dst src n m b : is_bytes m -> 0 <= n ->
  memmove dst src n m b = if decide (dst <= b < dst + n) then m (src + (b - dst)) else m b.
Proof.
  intros Hm Hn. unfold memmove. destruct (Z.eqb_spec n 0) as [->|Hn0].
  { by rewrite decide_False by lia. }
  destruct (Z.ltb_spec src dst), (Z.ltb_spec dst (src + n)); simpl.
  - rewrite copy_down_spec, Z2Nat.id by (done || lia).
    repeat case_decide; try lia; f_equal; lia.
  - rewrite copy_up_spec, Z2Nat.id by (rewrite ?Z2Nat.id; done || lia). done.
  - rewrite copy_up_spec, Z2Nat.id by (rewrite ?Z2Nat.id; done || lia). done.
  - rewrite copy_up_spec, Z2Nat.id by (rewrite ?Z2Nat.id; done || lia). done.
Qed.

Lemma store_le_other k : forall m a v b, ~ (a <= b < a + Z.of_nat k) -> store_le k m a v b = m b.
Proof.
  induction k as [|k IH]; intros m a v b Hb; simpl; [done|].
  rewrite IH by lia. rewrite mstore_spec. by rewrite decide_False by lia.
Qed.

Lemma load_le_ext k : forall m m' a, (forall b, a <= b < a + Z.of_nat k -> m b = m' b) ->
  load_le k m a = load_le k m' a.
Proof.
  induction k as [|k IH]; intros m m' a H; simpl; [done|].
  rewrite H by lia. f_equal. f_equal. apply IH. intros b Hb. apply H. lia.
Qed.

(** A stored word is read back. *)
Lemma load_store_le k : forall m a v, 0 <= v < 256 ^ Z.of_nat k ->
  load_le k (store_le k m a v) a = v.
Proof.
  induction k as [|k IH]; intros m a v Hv; cbn [load_le store_le].
  - change (256 ^ Z.of_nat 0) with 1 in Hv. lia.
  - rewrite Nat2Z.inj_succ, Z.pow_succ_r in Hv by lia.
    rewrite store_le_other by lia. rewrite mstore_spec, decide_True by done.
    rewrite u8_small by (apply Z.mod_pos_bound; lia).
    rewrite IH by (split; [apply Z.div_pos; lia | apply Z.div_lt_upper_bound; lia]).
    pose proof (Z.div_mod v 256). lia.
Qed.

Lemma load_le_range k : forall m a, is_bytes m -> 0 <= load_le k m a < 256 ^ Z.of_nat k.
Proof.
  induction k as [|k IH]; intros m a Hm; cbn [load_le].
  - change (256 ^ Z.of_nat 0) with 1. lia.
  - rewrite Nat2Z.inj_succ, Z.pow_succ_r by lia. specialize (IH m (a + 1) Hm). specialize (Hm a). lia.
Qed.

Lemma store_le_bytes k : forall m a v, is_bytes m -> is_bytes (store_le k m a v).
Proof.
  induction k as [|k IH]; intros m a v Hm; simpl; [done|]. by apply IH, mstore_bytes.
Qed.

Lemma memset_bytes dst c n m : is_bytes m -> is_bytes (memset dst c n m).
Proof.
  intros Hm b. unfold memset. rewrite memset_loop_spec. case_decide; [apply (u8_range c)|apply Hm].
Qed.

(** ** Strings *)

Lemma safestrcpy_loop_spec k : forall s t m,
  is_bytes m -> s + Z.of_nat k < t \/ t + Z.of_nat k <= s ->
  let m' := safestrcpy_loop k s t m in
  (exists i, 0 <= i <= Z.of_nat k /\ m' (s + i) = 0 /\
     (forall j, 0 <= j < i -> m' (s + j) = m (t + j) /\ m (t + j) <> 0) /\
     (i = Z.of_nat k \/ m (t + i) = 0)) /\
  (forall b, ~ (s <= b <= s + Z.of_nat k) -> m' b = m b).
Proof.
  induction k as [|k IH]; intros s t m Hm Hd; cbn [safestrcpy_loop].
  - split.
    + exists 0. rewrite mstore_spec, decide_True by lia. split_and!; try done; try lia.
    + intros b Hb. rewrite mstore_spec, decide_False by lia. done.
  - destruct (Z.eqb_spec (m t) 0) as [E|E].
    + split.
      * exists 0. rewrite !mstore_spec, (decide_False (P := s + 0 = s + 1)), decide_True by lia.
        rewrite E. split_and!; try done; try lia. right. by rewrite Z.add_0_r.
      * intros b Hb. rewrite !mstore_spec, !decide_False by lia. done.
    + destruct (IH (s + 1) (t + 1) (mstore m s (m t))) as [(i & Hi & H0 & Hj & He) Ho];
        [by apply mstore_bytes | lia |].
      split.
      * exists (i + 1). split; [lia|]. split; [rewrite <- H0; f_equal; lia|]. split.
        -- intros j Hj'. destruct (decide (j = 0)) as [->|Hj0].
           ++ rewrite Ho by lia. rewrite mstore_spec, decide_True by lia.
              rewrite u8_small by apply Hm. by rewrite Z.add_0_r.
           ++ destruct (Hj (j - 1)) as [H1 H2]; [lia|].
              replace (s + 1 + (j - 1)) with (s + j) in H1 by lia.
              replace (t + 1 + (j - 1)) with (t + j) in H1, H2 by lia.
              rewrite mstore_spec, decide_False in H1, H2 by lia. done.
        -- destruct (decide (i = Z.of_nat k)) as [->|Hik]; [left; lia|]. destruct He as [?|He]; [done|right].
           rewrite mstore_spec, decide_False in He by lia. rewrite <- He. f_equal. lia.
      * intros b Hb. rewrite Ho by lia. by rewrite mstore_spec, decide_False by lia.
Qed.

(** [memmove] copies correctly for any overlap of source and
    destination: afterwards every destination byte is the source byte as it
    was before the call, and nothing else has changed. *)
Theorem memmove_correct dst src n m b : is_bytes m -> 0 <= n ->
  memmove dst src n m b = if decide (dst <= b < dst + n) then m (src + (b - dst)) else m b.
Proof. apply memmove_spec. Qed.

Lemma memmove_correct_witness :
  bytes (memmove 3 1 4 (fun a => u8 a)) 0 9 = [0; 1; 2; 1; 2; 3; 4; 7; 8].
Proof.
  unfold bytes. cbn [fmap list_fmap seq].
  repeat (rewrite memmove_correct; [|intros a; apply (u8_range a)|lia]).
  reflexivity.
Defined.

(** [safestrcpy] into a buffer of [n > 0] bytes that does not overlap
    the source writes only the buffer and always leaves a NUL-terminated
    string there: the source up to its NUL, or its first [n - 1] bytes. *)
Theorem safestrcpy_correct s t n m :
  is_bytes m -> 0 < n -> s + n <= t \/ t + n <= s ->
  let m' := safestrcpy s t n m in
  (exists i, 0 <= i < n /\ m' (s + i) = 0 /\
     (forall j, 0 <= j < i -> m' (s + j) = m (t + j) /\ m (t + j) <> 0) /\
     (i = n - 1 \/ m (t + i) = 0)) /\
  (forall b, ~ (s <= b < s + n) -> m' b = m b).
Proof.
  intros Hm Hn Hd. unfold safestrcpy. destruct (Z.leb_spec n 0); [lia|].
  destruct (safestrcpy_loop_spec (Z.to_nat (n - 1)) s t m Hm) as [(i & ? & ? & ? & Hi) Ho]; [lia|].
  split.
  - exists i. split_and!; try done; try lia.
  - intros b Hb. apply Ho. lia.
Qed.

Lemma safestrcpy_correct_witness :
  let m := fun a => if a =? 103 then 0 else 65 in
  exists i, 0 <= i < 16 /\ safestrcpy 0 100 16 m (0 + i) = 0.
Proof.
  cbv zeta.
  destruct (safestrcpy_correct 0 100 16 (fun a => if a =? 103 then 0 else 65)) as [(i & Hi & H0 & _) _].
  - intros a. destruct (a =? 103); lia.
  - lia.
  - lia.
  - exists i. split; [exact Hi | exact H0].
Defined.

(** [strlen] returns the position of the first NUL, given that much fuel. *)
Lemma strlen_loop_spec k : forall fuel s n m,
  (forall j, 0 <= j < Z.of_nat k -> m (s + n + j) <> 0) -> m (s + n + Z.of_nat k) = 0 ->
  (k < fuel)%nat -> strlen_loop fuel s n m = Some (n + Z.of_nat k).
Proof.
  induction k as [|k IH]; intros [|fuel] s n m Hj H0 Hf; try lia; simpl.
  - replace (s + n) with (s + n + Z.of_nat 0) by lia. rewrite H0. simpl. f_equal. lia.
  - destruct (Z.eqb_spec (m (s + n)) 0) as [E|E].
    + destruct (Hj 0); [lia|]. by rewrite Z.add_0_r.
    + rewrite IH; [f_equal; lia| | |lia].
      * intros j Hj'. replace (s + (n + 1) + j) with (s + n + (j + 1)) by lia. apply Hj. lia.
      * rewrite <- H0. f_equal. lia.
Qed.

Lemma strlen_spec fuel s m k :
  0 <= k -> (forall j, 0 <= j < k -> m (s + j) <> 0) -> m (s + k) = 0 ->
  (Z.to_nat k < fuel)%nat -> strlen fuel s m = Some k.
Proof.
  intros Hk Hj H0 Hf. unfold strlen.
  rewrite (strlen_loop_spec (Z.to_nat k)); [f_equal; lia| | |done].
  - intros j ?. replace (s + 0 + j) with (s + j) by lia. apply Hj. lia.
  - rewrite <- H0. f_equal. lia.
Qed.

(** [strncmp] is 0 exactly when the strings agree up to a common NUL or
    for [n] bytes. *)
Lemma strncmp_loop_spec k : forall p q m,
  strncmp_loop k p q m = 0 <->
  forall i, 0 <= i < Z.of_nat k ->
    (forall j, 0 <= j < i -> m (p + j) <> 0) -> m (p + i) = m (q + i).
Proof.
  induction k as [|k IH]; intros p q m; cbn [strncmp_loop].
  { split; [intros _ i; lia|done]. }
  destruct (Z.eqb_spec (m p) 0) as [E0|E0], (Z.eqb_spec (m p) (m q)) as [E|E]; simpl.
  - split; [|lia]. intros _ i Hi Hj. destruct (decide (i = 0)) as [->|]; [by rewrite !Z.add_0_r|].
    destruct (Hj 0); [lia|]. by rewrite Z.add_0_r.
  - split; [lia|]. intros H. destruct E. specialize (H 0). rewrite !Z.add_0_r in H. apply H; lia.
  - rewrite IH. split.
    + intros H i Hi Hj. destruct (decide (i = 0)) as [->|]; [by rewrite !Z.add_0_r|].
      replace (p + i) with (p + 1 + (i - 1)) by lia. replace (q + i) with (q + 1 + (i - 1)) by lia.
      apply H; [lia|]. intros j ?. replace (p + 1 + j) with (p + (j + 1)) by lia. apply Hj. lia.
    + intros H i Hi Hj. replace (p + 1 + i) with (p + (i + 1)) by lia.
      replace (q + 1 + i) with (q + (i + 1)) by lia. apply H; [lia|].
      intros j ?. destruct (decide (j = 0)) as [->|]; [by rewrite Z.add_0_r|].
      replace (p + j) with (p + 1 + (j - 1)) by lia. apply Hj. lia.
  - split; [lia|]. intros H. destruct E. specialize (H 0). rewrite !Z.add_0_r in H. apply H; lia.
Qed.
