(* ===== verification/Kalloc.v ===== *)
(** * Kalloc: the physical page allocator

    Models kernel/kalloc.c: a free list threaded through the free pages
    themselves ([r->next] is the first word of a free page).  The theorems
    relate it to a list of free pages. *)

From S2P Require Import Prelude.
From S2P Require Import State.
From S2P Require Import Kernel.
From S2P Require Import Mem.

Definition KERNBASE : Z := 0x80000000.
Definition PHYSTOP : Z := KERNBASE + 128 * 1024 * 1024.
Definition PGROUNDUP (sz : Z) : Z := Z.land (u64 (sz + PGSIZE - 1)) (u64 (Z.lnot (PGSIZE - 1))).
Definition PGROUNDDOWN (a : Z) : Z := Z.land a (u64 (Z.lnot (PGSIZE - 1))).

Definition set_mem (f : mem -> mem) (pm : physmem) : physmem := set_pm_mem (f (pm_mem pm)) pm.

Definition kfree (pa : Z) : K unit :=
  e ← kget (fun s => pm_end (k_pm s));
  if negb (pa mod PGSIZE =? 0) || (pa <? e) || (PHYSTOP <=? pa) then panic "kfree" else
  mod_pm (set_mem (memset pa 1 PGSIZE));;
  acquire L_kmem;;
  fl ← kget (fun s => pm_freelist (k_pm s));
  mod_pm (set_mem (fun m => store64 m pa fl));;
  mod_pm (set_pm_freelist pa);;
  release L_kmem.

Definition kalloc : K Z :=
  acquire L_kmem;;
  r ← kget (fun s => pm_freelist (k_pm s));
  kwhen (negb (r =? 0)) (mod_pm (fun pm => set_pm_freelist (load64 (pm_mem pm) r) pm));;
  release L_kmem;;
  kwhen (negb (r =? 0)) (mod_pm (set_mem (memset r 5 PGSIZE)));;
  mret r.

(** [for(; p + PGSIZE <= pa_end; p += PGSIZE) kfree(p);] *)
Fixpoint freerange_loop (fuel : nat) (p pa_end : Z) : K unit :=
  if p + PGSIZE <=? pa_end then
    match fuel with
    | O => hang
    | S f => kfree p;; freerange_loop f (p + PGSIZE) pa_end
    end
  else mret tt.
Definition freerange (pa_start pa_end : Z) : K unit :=
  freerange_loop (Z.to_nat pa_end) (PGROUNDUP pa_start) pa_end.

Definition kinit : K unit :=
  e ← kget (fun s => pm_end (k_pm s));
  freerange e PHYSTOP.

(** ** Free lists *)

Fixpoint flist (m : mem) (h : Z) (l : list Z) : Prop :=
  match l with
  | [] => h = 0
  | a :: l' => h = a /\ flist m (load64 m a) l'
  end.

Definition valid_page (e a : Z) : Prop := a mod PGSIZE = 0 /\ e <= a < PHYSTOP.

(** The allocator's memory with the free pages [F], first to last. *)
Record alloc_inv (pm : physmem) (F : list Z) : Prop := {
  ai_bytes : is_bytes (pm_mem pm);
  ai_end : 0 < pm_end pm;
  ai_list : flist (pm_mem pm) (pm_freelist pm) F;
  ai_nodup : NoDup F;
  ai_valid : forall a, a ∈ F -> valid_page (pm_end pm) a
}.

#[local] Opaque memset store64 load64.

Lemma flist_ext m m' h l :
  (forall a, a ∈ l -> forall b, a <= b < a + 8 -> m' b = m b) -> flist m h l -> flist m' h l.
Proof.
  revert h. induction l as [|a l IH]; intros h Hm; simpl; [done|]. intros [-> Hl]. split; [done|].
  assert (load64 m' a = load64 m a) as ->.
  { apply (load_le_ext 8). intros b Hb. apply (Hm a); [set_solver|lia]. }
  apply IH; [|done]. set_solver.
Qed.

Lemma page_disjoint e a a' b : valid_page e a -> valid_page e a' -> a <> a' ->
  a <= b < a + PGSIZE -> ~ (a' <= b < a' + PGSIZE).
Proof. unfold valid_page, PGSIZE. intros [? _] [? _] Hne Hb Hb'. zlia. Qed.

(** The state change of a [kfree] that does not panic. *)
Definition kfree_pm (pa : Z) (pm : physmem) : physmem :=
  set_pm_freelist pa (set_pm_mem (store64 (memset pa 1 PGSIZE (pm_mem pm)) pa (pm_freelist pm)) pm).

Lemma kfree_run pa w : L_kmem ∉ k_held (w_k w) -> valid_page (pm_end (k_pm (w_k w))) pa ->
  kfree pa w = Ret tt (with_k w (set_k_pm (kfree_pm pa (k_pm (w_k w))) (w_k w))).
Proof.
  intros Hl [Hal Hr]. unfold kfree, kfree_pm.
  rewrite (bind_ret (kget _) _ w (pm_end (k_pm (w_k w))) w) by done.
  rewrite Hal, Z.eqb_refl. destruct (Z.ltb_spec pa (pm_end (k_pm (w_k w)))); [lia|].
  destruct (Z.leb_spec PHYSTOP pa); [lia|]. cbn [negb orb].
  generalize store64, (memset pa 1 PGSIZE). intros f2 f1.
  kstep. erewrite (bind_ret (acquire _)) by (by apply acquire_ok).
  repeat kstep. rewrite (release_ok L_kmem _ (k_held (w_k w))) by done.
  by destruct w as [? []].
Qed.

Lemma kfree_ok pa w F : alloc_inv (k_pm (w_k w)) F -> L_kmem ∉ k_held (w_k w) ->
  valid_page (pm_end (k_pm (w_k w))) pa -> pa ∉ F ->
  exists pm', kfree pa w = Ret tt (with_k w (set_k_pm pm' (w_k w))) /\
    alloc_inv pm' (pa :: F) /\ pm_end pm' = pm_end (k_pm (w_k w)) /\
    pm_tf pm' = pm_tf (k_pm (w_k w)) /\
    forall b, ~ (pa <= b < pa + PGSIZE) -> pm_mem pm' b = pm_mem (k_pm (w_k w)) b.
Proof.
  intros H Hl Hv Hn. set (pm := k_pm (w_k w)) in *. exists (kfree_pm pa pm).
  set (m2 := store64 (memset pa 1 PGSIZE (pm_mem pm)) pa (pm_freelist pm)).
  assert (forall b, ~ (pa <= b < pa + PGSIZE) -> m2 b = pm_mem pm b) as Hfr.
  { intros b Hb. subst m2. unfold PGSIZE in *. rewrite (store_le_other 8) by lia.
    rewrite memset_spec by lia. by rewrite decide_False by lia. }
  split; [by apply kfree_run|]. split_and!; [|done|done|exact Hfr].
  assert (0 <= pm_freelist pm < 2 ^ 64) as Hfl.
  { pose proof (ai_list _ _ H) as Hf. pose proof (ai_end _ _ H). destruct F as [|a F]; simpl in Hf; [lia|].
      destruct Hf as [-> _]. destruct (ai_valid _ _ H a) as [_ Ha]; [set_solver|].
      unfold PHYSTOP, KERNBASE in Ha. lia. }
  split; simpl.
  - by apply (store_le_bytes 8), memset_bytes, H.
  - apply H.
  - split; [done|]. subst m2.
      rewrite (load_store_le 8) by (change (256 ^ Z.of_nat 8) with (2 ^ 64); lia).
      eapply flist_ext; [|exact (ai_list _ _ H)]. intros a Ha b Hb. apply Hfr.
      apply (page_disjoint (pm_end pm) a); [by apply (ai_valid _ _ H)|done| |unfold PGSIZE; lia].
      intros ->. done.
  - apply NoDup_cons. split; [done|apply H].
  - intros a [->|Ha]%elem_of_cons; [done|]. by apply (ai_valid _ _ H).
Qed.

Lemma kfree_panic pa w :
  ~ valid_page (pm_end (k_pm (w_k w))) pa -> kfree pa w = Panic "kfree" w.
Proof.
  intros Hv. unfold kfree. rewrite (bind_ret (kget _) _ w (pm_end (k_pm (w_k w))) w) by done.
  unfold valid_page in Hv. destruct (Z.eqb_spec (pa mod PGSIZE) 0); [|done].
  destruct (Z.ltb_spec pa (pm_end (k_pm (w_k w)))); [done|].
  destruct (Z.leb_spec PHYSTOP pa); [done|]. lia.
Qed.

Lemma pm_shape pm m f :
  set_pm_mem m (set_pm_freelist f pm) =
  set_pm_freelist (pm_freelist (set_pm_mem m (set_pm_freelist f pm)))
    (set_pm_mem (pm_mem (set_pm_mem m (set_pm_freelist f pm))) pm).
Proof. done. Qed.

Lemma kalloc_ok w F : alloc_inv (k_pm (w_k w)) F -> L_kmem ∉ k_held (w_k w) ->
  match F with
  | [] => kalloc w = Ret 0 w
  | p :: F' => exists pm', kalloc w = Ret p (with_k w (set_k_pm pm' (w_k w))) /\
      p <> 0 /\ alloc_inv pm' F' /\ pm_end pm' = pm_end (k_pm (w_k w)) /\
      pm_tf pm' = pm_tf (k_pm (w_k w)) /\
      (forall b, pm_mem pm' b = if decide (p <= b < p + PGSIZE) then 5 else pm_mem (k_pm (w_k w)) b) /\
      pm' = set_pm_freelist (pm_freelist pm') (set_pm_mem (pm_mem pm') (k_pm (w_k w)))
  end.
Proof.
  intros H Hl. set (pm := k_pm (w_k w)) in *. pose proof (ai_list _ _ H) as Hf.
  unfold kalloc. erewrite (bind_ret (acquire _)) by (by apply acquire_ok).
  rewrite (bind_ret (kget _) _ _ (pm_freelist pm)
    (with_k w (set_k_held (L_kmem :: k_held (w_k w)) (w_k w)))) by done.
  destruct F as [|p F'].
  - simpl in Hf. rewrite Hf. simpl.
    unfold mbind at 1, K_bind at 1. unfold mret at 1, K_ret at 1.
    erewrite (bind_ret (release _)) by (by apply release_ok). by destruct w as [? []].
  - destruct Hf as [Hp Hf]. rewrite Hp.
    destruct (ai_valid _ _ H p) as [Hal Hr]; [set_solver|].
    pose proof (ai_end _ _ H).
    destruct (Z.eqb_spec p 0) as [?|Hp0]; [unfold pm in *; lia|]. cbn [negb kwhen].
    set (pm' := set_pm_mem (memset p 5 PGSIZE (pm_mem pm))
      (set_pm_freelist (load64 (pm_mem pm) p) pm)).
    exists pm'. split.
    { subst pm'. generalize load64, (memset p 5 PGSIZE). intros f1 f2.
      kstep. erewrite (bind_ret (release _)) by (by apply release_ok). by destruct w as [? []]. }
    split; [done|].
    assert (forall b, pm_mem pm' b = if decide (p <= b < p + PGSIZE) then 5 else pm_mem pm b) as Hm.
    { intros b. simpl. unfold PGSIZE. rewrite memset_spec by lia. done. }
    pose proof (ai_nodup _ _ H) as Hnd. apply NoDup_cons in Hnd as [Hnp Hnd].
    split_and!; [|reflexivity|reflexivity|exact Hm|].
    2: { apply pm_shape. }
    split; [by apply memset_bytes, H|exact (ai_end _ _ H)| |exact Hnd|].
    + eapply flist_ext; [|exact Hf]. intros a Ha b Hb. rewrite Hm, decide_False; [done|].
      apply (page_disjoint (pm_end pm) a); [apply (ai_valid _ _ H); set_solver|done| |unfold PGSIZE; lia].
      intros ->. done.
    + intros a Ha. apply (ai_valid _ _ H). set_solver.
Qed.

(** ** Initialisation *)

Lemma PGROUNDUP_spec a : 0 <= a < 2 ^ 63 ->
  PGROUNDUP a = (a + PGSIZE - 1) / PGSIZE * PGSIZE.
Proof.
  intros Ha. unfold PGROUNDUP, PGSIZE.
  rewrite u64_small by lia.
  change (u64 (Z.lnot (4096 - 1))) with (Z.lnot 4095 mod 2 ^ 64).
  rewrite <- (Z.mod_small (a + 4096 - 1) (2 ^ 64)) at 1 by lia.
  rewrite <- !Z.land_ones by lia.
  assert (Z.land (Z.land (a + 4096 - 1) (Z.ones 64)) (Z.land (Z.lnot 4095) (Z.ones 64))
          = Z.land (Z.ldiff (a + 4096 - 1) (Z.ones 12)) (Z.ones 64)) as ->.
  { rewrite Z.ldiff_land. change (Z.ones 12) with 4095.
    by rewrite <- !Z.land_assoc. }
  rewrite Z.ldiff_ones_r by lia. rewrite Z.land_ones by lia.
  rewrite Z.shiftr_div_pow2, Z.shiftl_mul_pow2 by lia. change (2 ^ 12) with 4096.
  rewrite Z.mod_small; [done|]. zlia.
Qed.

(** The pages a loop from [p] to [pa_end] frees, last freed first. *)
Definition pages (p : Z) (n : nat) : list Z := (fun i => p + PGSIZE * Z.of_nat i) <$> rev (seq 0 n).

Lemma pages_S p n : pages p (S n) = pages (p + PGSIZE) n ++ [p].
Proof.
  unfold pages. cbn [seq rev]. rewrite fmap_app. cbn [fmap list_fmap].
  f_equal; [|f_equal; lia]. rewrite <- seq_shift, <- map_rev.
  change (map S (rev (seq 0 n))) with (S <$> rev (seq 0 n)).
  rewrite <- list_fmap_compose. apply list_fmap_ext. intros i x _. simpl. lia.
Qed.

Lemma freerange_loop_ok n : forall fuel p pa_end w F,
  alloc_inv (k_pm (w_k w)) F -> L_kmem ∉ k_held (w_k w) ->
  p mod PGSIZE = 0 -> pm_end (k_pm (w_k w)) <= p -> pa_end <= PHYSTOP ->
  p + PGSIZE * Z.of_nat n <= pa_end < p + PGSIZE * Z.of_nat n + PGSIZE ->
  (forall a, a ∈ F -> a < p) -> (n <= fuel)%nat ->
  exists pm', freerange_loop fuel p pa_end w = Ret tt (with_k w (set_k_pm pm' (w_k w))) /\
    alloc_inv pm' (pages p n ++ F) /\ pm_end pm' = pm_end (k_pm (w_k w)).
Proof.
  induction n as [|n IH]; intros fuel p pa_end w F H Hl Hal Hp He Hn HF Hf.
  - exists (k_pm (w_k w)). destruct fuel; cbn [freerange_loop];
      (destruct (Z.leb_spec (p + PGSIZE) pa_end); [lia|]);
      (split; [by destruct w as [? []]|done]).
  - destruct fuel as [|fuel]; [lia|]. cbn [freerange_loop].
    destruct (Z.leb_spec (p + PGSIZE) pa_end); [|unfold PGSIZE in *; lia].
    destruct (kfree_ok p w F) as (pm1 & E & H1 & He1 & _ & _); [done|done| | |].
    { split; [done|]. unfold PGSIZE in *; lia. }
    { intros Hx%HF. lia. }
    rewrite (bind_ret _ _ _ _ _ E).
    destruct (IH fuel (p + PGSIZE) pa_end (with_k w (set_k_pm pm1 (w_k w))) (p :: F))
      as (pm' & E' & H' & He').
    + exact H1.
    + exact Hl.
    + unfold PGSIZE in *. zlia.
    + simpl. rewrite He1. unfold PGSIZE in *. lia.
    + done.
    + lia.
    + intros a [->|Ha]%elem_of_cons; [unfold PGSIZE; lia|]. apply HF in Ha. unfold PGSIZE. lia.
    + lia.
    + exists pm'. rewrite E'. split; [by destruct w as [? []]|]. split.
      * rewrite pages_S, <- app_assoc. exact H'.
      * rewrite He'. exact He1.
Qed.

(** The free pages after [kinit]: all pages of physical memory above the
    kernel, the last one first. *)
Definition all_pages (e : Z) : list Z :=
  pages (PGROUNDUP e) (Z.to_nat ((PHYSTOP - PGROUNDUP e) / PGSIZE)).

(** [kinit] returns with a free list of exactly the whole pages
    between the end of the kernel and PHYSTOP. *)
Theorem kinit_correct w :
  let pm := k_pm (w_k w) in
  is_bytes (pm_mem pm) -> 0 < pm_end pm < PHYSTOP - PGSIZE -> pm_freelist pm = 0 ->
  L_kmem ∉ k_held (w_k w) ->
  exists pm', kinit w = Ret tt (with_k w (set_k_pm pm' (w_k w))) /\
    alloc_inv pm' (all_pages (pm_end pm)) /\ pm_end pm' = pm_end pm.
Proof.
  intros pm Hb He Hf Hl. unfold kinit. rewrite bind_kget. unfold freerange. fold pm.
  pose proof (PGROUNDUP_spec (pm_end pm)) as Hr. unfold PHYSTOP, KERNBASE, PGSIZE in He, Hr.
  specialize (Hr ltac:(lia)). unfold all_pages.
  assert (pm_end pm <= PGROUNDUP (pm_end pm) < pm_end pm + 4096 /\ PGROUNDUP (pm_end pm) mod 4096 = 0) as [Hr1 Hr2]
    by (rewrite Hr; zlia).
  destruct (freerange_loop_ok (Z.to_nat ((PHYSTOP - PGROUNDUP (pm_end pm)) / PGSIZE))
    (Z.to_nat PHYSTOP) (PGROUNDUP (pm_end pm)) PHYSTOP w []) as (pm' & E & H' & He').
  - split; [done|exact (proj1 He)|done|apply NoDup_nil_2|set_solver].
  - done.
  - exact Hr2.
  - exact (proj1 Hr1).
  - lia.
  - unfold PGSIZE, PHYSTOP, KERNBASE in *. rewrite Z2Nat.id by zlia. zlia.
  - set_solver.
  - unfold PGSIZE, PHYSTOP, KERNBASE in *. zlia.
  - exists pm'. rewrite app_nil_r in H'. split; [exact E|]. split; [exact H' | exact He'].
Qed.

(** [kalloc] takes the first free page off the list, fills it with
    junk and touches no other byte; it returns 0 and changes nothing when
    no page is free. *)
Theorem kalloc_correct w F : alloc_inv (k_pm (w_k w)) F -> L_kmem ∉ k_held (w_k w) ->
  match F with
  | [] => kalloc w = Ret 0 w
  | p :: F' => exists pm', kalloc w = Ret p (with_k w (set_k_pm pm' (w_k w))) /\
      p <> 0 /\ alloc_inv pm' F' /\ pm_end pm' = pm_end (k_pm (w_k w)) /\
      pm_tf pm' = pm_tf (k_pm (w_k w)) /\
      forall b, pm_mem pm' b = if decide (p <= b < p + PGSIZE) then 5 else pm_mem (k_pm (w_k w)) b
  end.
Proof.
  intros H Hl. pose proof (kalloc_ok w F H Hl) as Hk. destruct F as [|p F']; [done|].
  destruct Hk as (pm' & ? & ? & ? & ? & ? & ? & _). by exists pm'.
Qed.

(** [kfree] of an allocated page puts it back on the free list,
    changing only bytes of that page, so that the next [kalloc] returns
    it; on an address that is not a page of free memory it panics. *)
Theorem kfree_correct pa w F : alloc_inv (k_pm (w_k w)) F -> L_kmem ∉ k_held (w_k w) -> pa ∉ F ->
  if decide (pa mod PGSIZE = 0 /\ pm_end (k_pm (w_k w)) <= pa < PHYSTOP)
  then exists pm' pm'', kfree pa w = Ret tt (with_k w (set_k_pm pm' (w_k w))) /\
    alloc_inv pm' (pa :: F) /\
    (forall b, ~ (pa <= b < pa + PGSIZE) -> pm_mem pm' b = pm_mem (k_pm (w_k w)) b) /\
    kalloc (with_k w (set_k_pm pm' (w_k w))) = Ret pa (with_k w (set_k_pm pm'' (w_k w))) /\
    alloc_inv pm'' F
  else kfree pa w = Panic "kfree" w.
Proof.
  intros H Hl Hn. case_decide as Hv; [|by apply kfree_panic].
  destruct (kfree_ok pa w F H Hl Hv Hn) as (pm' & E & H' & _ & _ & Hfr).
  destruct (kalloc_ok (with_k w (set_k_pm pm' (w_k w))) (pa :: F) H' Hl)
    as (pm'' & E2 & _ & H2 & _ & _).
  exists pm', pm''. split; [exact E|]. split; [exact H'|]. split; [exact Hfr|].
  split; [|exact H2]. exact E2.
Qed.

(** ** Examples *)

Definition pm_example : physmem := PhysMem 0 (fun _ => 0) 0x87ffe000 ∅ 0 0x80008000 0x80007000.
Definition w_example : world := World [] (set_k_pm pm_example (kst_boot 0)).

Lemma kinit_correct_witness :
  exists pm', kinit w_example = Ret tt (with_k w_example (set_k_pm pm' (w_k w_example))) /\
    alloc_inv pm' [0x87fff000; 0x87ffe000].
Proof.
  destruct (kinit_correct (World [] (set_k_pm (set_pm_end 0x87ffe000 pm_example) (kst_boot 0))))
    as (pm' & E & H & _).
  - intros a. simpl. lia.
  - unfold PHYSTOP, KERNBASE, PGSIZE. simpl. lia.
  - reflexivity.
  - apply not_elem_of_nil.
  - exists pm'. split; [exact E | exact H].
Defined.

Definition pm_one : physmem := set_pm_freelist 0x87fff000 pm_example.
Definition w_one : world := World [] (set_k_pm pm_one (kst_boot 0)).

Lemma pm_one_inv : alloc_inv pm_one [0x87fff000].
Proof.
  split.
  - intros a. simpl. lia.
  - reflexivity.
  - done.
  - apply NoDup_singleton.
  - intros a ->%list_elem_of_singleton. unfold valid_page. split; [reflexivity|].
    unfold PHYSTOP, KERNBASE. simpl. lia.
Qed.

Lemma kalloc_correct_witness :
  exists pm', kalloc w_one = Ret 0x87fff000 (with_k w_one (set_k_pm pm' (w_k w_one))).
Proof.
  destruct (kalloc_correct w_one [0x87fff000]) as (pm' & E & _).
  - exact pm_one_inv.
  - apply not_elem_of_nil.
  - exists pm'. exact E.
Defined.

Lemma kfree_correct_witness : kfree 0x87fff001 w_one = Panic "kfree" w_one.
Proof.
  apply (kfree_correct 0x87fff001 w_one [0x87fff000]).
  - exact pm_one_inv.
  - apply not_elem_of_nil.
  - intros H%list_elem_of_singleton. discriminate H.
Defined.
