(* ===== verification/Bio.v ===== *)
(** * Bio: sleep-locks and the buffer cache

    Models kernel/sleeplock.c and kernel/bio.c.  The buffers are the array
    [fs_bufs], the last entry being the list head; the LRU list runs
    through the indices [b_prev] and [b_next].

    The disk driver is an interface: [Disk] is its entry point
    [virtio_disk_rw(b, write)] and [DiskOk] what its callers rely on (the
    block is transferred before it returns). *)

From S2P Require Import Prelude.
From S2P Require Import State.
From S2P Require Import Kernel.
From S2P Require Import Sched.

(** ** Sleep-locks (sleeplock.c) *)

Definition get_sl (s : slid) : K sleeplock := kget (fun k => fs_sl (k_fs k) s).
Definition upd_sl (s : slid) (v : sleeplock) (fs : fsstate) : fsstate :=
  set_fs_sl (fun s' => if decide (s' = s) then v else fs_sl fs s') fs.
Definition put_sl (s : slid) (v : sleeplock) : K unit := mod_fs (upd_sl s v).

Definition initsleeplock (s : slid) : K unit := put_sl s (SleepLock 0 0).

(** [while (lk->locked) sleep(lk, &lk->lk);] *)
Fixpoint acquiresleep_loop (fuel : nat) (s : slid) : K unit :=
  lk ← get_sl s;
  if sl_locked lk =? 0 then mret tt
  else match fuel with
       | O => hang
       | S f => sleep (Ch_sleep s) (L_sleep s);; acquiresleep_loop f s
       end.

Definition acquiresleep (s : slid) : K unit :=
  acquire (L_sleep s);;
  with_fuel (fun fuel => acquiresleep_loop fuel s);;
  p ← curproc;
  pr ← get_proc p;
  put_sl s (SleepLock 1 (p_pid pr));;
  release (L_sleep s).

Definition releasesleep (s : slid) : K unit :=
  acquire (L_sleep s);;
  put_sl s (SleepLock 0 0);;
  wakeup (Ch_sleep s);;
  release (L_sleep s).

Definition holdingsleep (s : slid) : K bool :=
  acquire (L_sleep s);;
  lk ← get_sl s;
  p ← curproc;
  pr ← get_proc p;
  release (L_sleep s);;
  mret (negb (sl_locked lk =? 0) && (sl_pid lk =? p_pid pr)).

(** ** The disk *)

Class Disk := virtio_disk_rw : nat -> Z -> K unit.

Definition buf_at (fs : fsstate) (i : nat) : buf := nth i (fs_bufs fs) buf_zero.
Definition upd_buf (i : nat) (f : buf -> buf) (fs : fsstate) : fsstate :=
  set_fs_bufs (alter f i (fs_bufs fs)) fs.
Definition get_buf (i : nat) : K buf := kget (fun k => buf_at (k_fs k) i).
Definition mod_buf (i : nat) (f : buf -> buf) : K unit := mod_fs (upd_buf i f).

Definition dset (d : Z -> list Z) (b : Z) (v : list Z) : Z -> list Z :=
  fun b' => if b' =? b then v else d b'.

(** Transfer of a buffer's block from and to the disk. *)
Definition disk_read_fs (i : nat) (fs : fsstate) : fsstate :=
  upd_buf i (set_b_data (fs_disk fs (b_blockno (buf_at fs i)))) fs.
Definition disk_write_fs (i : nat) (fs : fsstate) : fsstate :=
  let b := b_blockno (buf_at fs i) in
  let v := b_data (buf_at fs i) in
  set_fs_writes ((b, v) :: fs_writes fs) (set_fs_disk (dset (fs_disk fs) b v) fs).

Class DiskOk (D : Disk) : Prop := {
  disk_read : forall i w, (i < NBUF)%nat ->
    virtio_disk_rw i 0 w = Ret tt (with_k w (set_k_fs (disk_read_fs i (k_fs (w_k w))) (w_k w)));
  disk_write : forall i w, (i < NBUF)%nat ->
    virtio_disk_rw i 1 w = Ret tt (with_k w (set_k_fs (disk_write_fs i (k_fs (w_k w))) (w_k w)))
}.

(** A disk that completes at once. *)
Definition sync_disk : Disk := fun i write =>
  mod_fs (if write =? 0 then disk_read_fs i else disk_write_fs i).
#[export] Instance sync_disk_ok : DiskOk sync_disk.
Proof. split; done. Qed.

(** ** The buffer cache (bio.c) *)

Definition head : nat := NBUF.

Section bio.
Context `{D : Disk}.

Definition binit : K unit :=
  mod_buf head (set_b_prev head);;
  mod_buf head (set_b_next head);;
  kfor (seq 0 NBUF) (fun b =>
    h ← get_buf head;
    mod_buf b (set_b_next (b_next h));;
    mod_buf b (set_b_prev head);;
    initsleeplock (SL_buf b);;
    mod_buf (b_next h) (set_b_prev b);;
    mod_buf head (set_b_next b)).

(** [for(b = bcache.head.next; b != &bcache.head; b = b->next)] looking for
    a block, and the same loop along [prev] looking for an unused buffer. *)
Fixpoint bget_cached (fuel : nat) (dev blockno : Z) (b : nat) : K (option nat) :=
  if Nat.eqb b head then mret None
  else match fuel with
       | O => hang
       | S f =>
         x ← get_buf b;
         if (b_dev x =? dev) && (b_blockno x =? blockno) then mret (Some b)
         else bget_cached f dev blockno (b_next x)
       end.
Fixpoint bget_unused (fuel : nat) (b : nat) : K (option nat) :=
  if Nat.eqb b head then mret None
  else match fuel with
       | O => hang
       | S f =>
         x ← get_buf b;
         if b_refcnt x =? 0 then mret (Some b) else bget_unused f (b_prev x)
       end.

Definition bget (dev blockno : Z) : K nat :=
  acquire L_bcache;;
  h ← get_buf head;
  r ← bget_cached NBUF dev blockno (b_next h);
  match r with
  | Some b =>
    mod_buf b (fun x => set_b_refcnt (u32 (b_refcnt x + 1)) x);;
    release L_bcache;;
    acquiresleep (SL_buf b);;
    mret b
  | None =>
    r ← bget_unused NBUF (b_prev h);
    match r with
    | Some b =>
      mod_buf b (set_b_dev dev);;
      mod_buf b (set_b_blockno blockno);;
      mod_buf b (set_b_valid 0);;
      mod_buf b (set_b_refcnt 1);;
      release L_bcache;;
      acquiresleep (SL_buf b);;
      mret b
    | None => panic "bget: no buffers"
    end
  end.

Definition bread (dev blockno : Z) : K nat :=
  b ← bget dev blockno;
  x ← get_buf b;
  kwhen (b_valid x =? 0) (virtio_disk_rw b 0;; mod_buf b (set_b_valid 1));;
  mret b.

Definition bwrite (b : nat) : K unit :=
  h ← holdingsleep (SL_buf b);
  if negb h then panic "bwrite" else
  virtio_disk_rw b 1.

Definition brelse (b : nat) : K unit :=
  h ← holdingsleep (SL_buf b);
  if negb h then panic "brelse" else
  releasesleep (SL_buf b);;
  acquire L_bcache;;
  mod_buf b (fun x => set_b_refcnt (u32 (b_refcnt x - 1)) x);;
  x ← get_buf b;
  kwhen (b_refcnt x =? 0)
    (mod_buf (b_next x) (set_b_prev (b_prev x));;
     x ← get_buf b;
     mod_buf (b_prev x) (set_b_next (b_next x));;
     h ← get_buf head;
     mod_buf b (set_b_next (b_next h));;
     mod_buf b (set_b_prev head);;
     h ← get_buf head;
     mod_buf (b_next h) (set_b_prev b);;
     mod_buf head (set_b_next b));;
  release L_bcache.

Definition bpin (b : nat) : K unit :=
  acquire L_bcache;;
  mod_buf b (fun x => set_b_refcnt (u32 (b_refcnt x + 1)) x);;
  release L_bcache.

Definition bunpin (b : nat) : K unit :=
  acquire L_bcache;;
  mod_buf b (fun x => set_b_refcnt (u32 (b_refcnt x - 1)) x);;
  release L_bcache.
End bio.
