(* ===== verification/FsRun.v ===== *)
(** * FsRun: a logic for file-system code

    Code of the storage stack run by one process while no other process
    interferes.  [fsr h m fs a h' fs'] says that [m], started with the
    locks [h] held and storage state [fs], returns [a] with the locks [h']
    and storage state [fs'], whatever the rest of the kernel state is; the
    run queues stay in order and only they, the console output and the
    storage state may change. *)

From S2P Require Import Prelude.
From S2P Require Import State.
From S2P Require Import Kernel.
From S2P Require Import Mlfq.
From S2P Require Import Sched.
From S2P Require Import SchedInv.
From S2P Require Import SchedProps.
From S2P Require Import Bio.

Section run.
Context (p : nat) (pid : Z).

(** The context of process [p] with id [pid]. *)
Record ctx (h : list lockid) (s : kst) : Prop := {
  cx_held : k_held s = h;
  cx_cur : k_cur s = Some p;
  cx_lt : (p < NPROC)%nat;
  cx_pid : p_pid (proc_at (k_ps s) p) = pid;
  cx_sched : exists Q, sched_inv (k_ps s) Q
}.

(** What a run may change; the process itself stays as it is. *)
Definition frame (s s' : kst) : Prop :=
  exists ps thr fs h, s' = set_k_held h (set_k_fs fs (put_ps ps thr s)) /\ proc_at ps p = proc_at (k_ps s) p.

Lemma frame_refl s : frame s s.
Proof. exists (k_ps s), (k_thr s), (k_fs s), (k_held s). split; [by destruct s|done]. Qed.

Lemma frame_proc s s' : frame s s' -> proc_at (k_ps s') p = proc_at (k_ps s) p.
Proof. by intros (ps & thr & fs & h & -> & E). Qed.

Lemma frame_trans s1 s2 s3 : frame s1 s2 -> frame s2 s3 -> frame s1 s3.
Proof.
  intros (ps & thr & fs & h & -> & E) (ps' & thr' & fs' & h' & -> & E'). exists ps', thr', fs', h'.
  split; [by destruct s1|]. by rewrite E'.
Qed.

Definition fsr {A} (h : list lockid) (m : K A) (fs : fsstate) (a : A)
    (h' : list lockid) (fs' : fsstate) : Prop :=
  forall w, ctx h (w_k w) -> k_fs (w_k w) = fs ->
  exists w', m w = Ret a w' /\ w_env w' = w_env w /\ ctx h' (w_k w') /\
    frame (w_k w) (w_k w') /\ k_fs (w_k w') = fs'.

Lemma fsr_ret {A} h fs (a : A) : fsr h (mret a) fs a h fs.
Proof. intros w Hc Hf. exists w. split_and!; try done. apply frame_refl. Qed.

Lemma fsr_bind {A B} h (m : K A) (f : A -> K B) fs a h1 fs1 b h2 fs2 :
  fsr h m fs a h1 fs1 -> fsr h1 (f a) fs1 b h2 fs2 -> fsr h (x ← m; f x) fs b h2 fs2.
Proof.
  intros Hm Hf w Hc Hfs. destruct (Hm w Hc Hfs) as (w1 & E1 & Hv1 & Hc1 & Hfr1 & Hfs1).
  destruct (Hf w1 Hc1 Hfs1) as (w2 & E2 & Hv2 & Hc2 & Hfr2 & Hfs2).
  exists w2. rewrite (bind_ret _ _ _ _ _ E1). split_and!; try done; [congruence|].
  by eapply frame_trans.
Qed.

Lemma fsr_get {A} h (g : fsstate -> A) fs : fsr h (kget (fun k => g (k_fs k))) fs (g fs) h fs.
Proof. intros w Hc Hf. exists w. rewrite <- Hf. split_and!; try done. apply frame_refl. Qed.

Lemma fsr_mod h f fs : fsr h (mod_fs f) fs tt h (f fs).
Proof.
  intros w Hc Hf. eexists. split; [done|]. split; [done|]. simpl.
  destruct Hc as [H1 H2 H3 H4 H5]. split; [by split|]. split; [|by rewrite Hf].
  exists (k_ps (w_k w)), (k_thr (w_k w)), (f (k_fs (w_k w))), (k_held (w_k w)). split; [by destruct (w_k w)|done].
Qed.

Lemma fsr_acquire h l fs : l ∉ h -> fsr h (acquire l) fs tt (l :: h) fs.
Proof.
  intros Hl w Hc Hf. destruct Hc as [H1 H2 H3 H4 H5].
  rewrite acquire_ok by (by rewrite H1). eexists. split; [done|]. split; [done|]. simpl.
  rewrite H1. split; [by split|]. split; [|done].
  exists (k_ps (w_k w)), (k_thr (w_k w)), (k_fs (w_k w)), (l :: h). split; [by destruct (w_k w)|done].
Qed.

Lemma fsr_release h l fs : l ∉ h -> fsr (l :: h) (release l) fs tt h fs.
Proof.
  intros Hl w Hc Hf. destruct Hc as [H1 H2 H3 H4 H5].
  rewrite (release_ok l w h) by done. eexists. split; [done|]. split; [done|]. simpl.
  split; [by split|]. split; [|done].
  exists (k_ps (w_k w)), (k_thr (w_k w)), (k_fs (w_k w)), h. split; [by destruct (w_k w)|done].
Qed.

Lemma fsr_wakeup h c fs : quiet h -> fsr h (wakeup c) fs tt h fs.
Proof.
  intros Hq w Hc Hf. destruct Hc as [H1 H2 H3 H4 [Q H5]].
  destruct (wakeup_loop c (seq 0 NPROC) w Q) as (ps' & thr & E & Hinv & Hps);
    [apply NoDup_seq| |by rewrite H1|done|].
  { intros i Hi%elem_of_seq. lia. }
  eexists. split; [exact E|]. split; [done|]. simpl. split.
  - split; try done; [|by eexists].
    simpl. rewrite (Hps p H3). rewrite decide_False; [done|].
    rewrite H2. intros [[Hne _] _]%list_elem_of_filter. done.
  - split; [|done]. exists ps', thr, (k_fs (w_k w)), (k_held (w_k w)). split; [by destruct (w_k w)|].
    rewrite (Hps p H3), decide_False; [done|]. rewrite H2. intros [[Hne _] _]%list_elem_of_filter. done.
Qed.

(** The current process and its id. *)
Lemma fsr_curproc h fs : fsr h curproc fs p h fs.
Proof.
  intros w Hc Hf. exists w. rewrite (curproc_ok w p) by apply Hc.
  split_and!; try done. apply frame_refl.
Qed.
Lemma fsr_pid {B} h (f : Z -> K B) fs b h' fs' :
  fsr h (f pid) fs b h' fs' ->
  fsr h (p0 ← curproc; pr ← get_proc p0; f (p_pid pr)) fs b h' fs'.
Proof.
  intros Hf w Hc Hfs. rewrite (bind_ret _ _ _ _ _ (curproc_ok w p (cx_cur _ _ Hc))).
  unfold get_proc. rewrite bind_kget. rewrite (cx_pid _ _ Hc). by apply Hf.
Qed.

Lemma fsr_when h (b : bool) m fs h' fs' fs1 :
  (b = true -> fsr h m fs tt h' fs1) -> (b = false -> h' = h) ->
  fs' = (if b then fs1 else fs) -> fsr h (kwhen b m) fs tt h' fs'.
Proof.
  intros H1 H2 ->. destruct b; [by apply H1|]. rewrite H2 by done. apply fsr_ret.
Qed.

Lemma fsr_assoc {A B C} h (m : K A) (f : A -> K B) (g : B -> K C) fs c h' fs' :
  fsr h (x ← m; y ← f x; g y) fs c h' fs' -> fsr h (y ← (x ← m; f x); g y) fs c h' fs'.
Proof. intros Hm w. rewrite bind_assoc. apply Hm. Qed.

Lemma fsr_eq {A} h (m : K A) fs a h' fs' fs'' :
  fsr h m fs a h' fs' -> fs' = fs'' -> fsr h m fs a h' fs''.
Proof. intros ? <-. done. Qed.

(** ** Sleep-locks *)

Lemma fsr_get_buf h i fs : fsr h (get_buf i) fs (buf_at fs i) h fs.
Proof. apply (fsr_get h (fun fs => buf_at fs i)). Qed.
Lemma fsr_mod_buf h i f fs : fsr h (mod_buf i f) fs tt h (upd_buf i f fs).
Proof. apply fsr_mod. Qed.

Lemma fsr_acquiresleep h s fs : L_sleep s ∉ h -> sl_locked (fs_sl fs s) = 0 ->
  fsr h (acquiresleep s) fs tt h (upd_sl s (SleepLock 1 pid) fs).
Proof.
  intros Hh Hl. unfold acquiresleep.
  eapply fsr_bind; [by apply fsr_acquire|]. eapply fsr_bind.
  - intros w Hc Hf. exists w. split_and!; try done; [|apply frame_refl].
    unfold with_fuel. assert (forall n, acquiresleep_loop n s w = Ret tt w) as ->; [|done].
    intros n. destruct n; simpl; unfold get_sl; rewrite bind_kget, Hf, Hl; done.
  - apply (fsr_pid _ (fun q => put_sl s (SleepLock 1 q);; release (L_sleep s))).
    eapply fsr_bind; [apply fsr_mod|by apply fsr_release].
Qed.

Lemma fsr_holdingsleep h s fs : L_sleep s ∉ h ->
  fsr h (holdingsleep s) fs (negb (sl_locked (fs_sl fs s) =? 0) && (sl_pid (fs_sl fs s) =? pid)) h fs.
Proof.
  intros Hh. unfold holdingsleep.
  eapply fsr_bind; [by apply fsr_acquire|].
  eapply fsr_bind; [apply (fsr_get _ (fun fs => fs_sl fs s))|].
  apply (fsr_pid _ (fun q => release (L_sleep s);;
    mret (negb (sl_locked (fs_sl fs s) =? 0) && (sl_pid (fs_sl fs s) =? q)))).
  eapply fsr_bind; [by apply fsr_release|apply fsr_ret].
Qed.

Lemma fsr_releasesleep h s fs : L_sleep s ∉ h -> quiet h ->
  fsr h (releasesleep s) fs tt h (upd_sl s (SleepLock 0 0) fs).
Proof.
  intros Hh Hq. unfold releasesleep.
  eapply fsr_bind; [by apply fsr_acquire|].
  eapply fsr_bind; [apply fsr_mod|].
  eapply fsr_bind; [apply fsr_wakeup|by apply fsr_release].
  destruct Hq as [? ?]. split; [set_solver|]. intros i. set_solver.
Qed.
End run.
