(* ===== verification/BioProps.v ===== *)
(** * BioProps: the buffer cache as a map from blocks to contents

    [bio_inv fs L V P H] abstracts the cache: [V b] is the current content
    of block [b] (cached or on disk), [P b] the number of references to it,
    [H] the blocks whose buffers are locked; [L] is the LRU order.  Each
    operation of bio.c has a specification in these terms. *)

From S2P Require Import Prelude.
From S2P Require Import State.
From S2P Require Import Dll.
From S2P Require Import Kernel.
From S2P Require Import Sched.
From S2P Require Import SchedInv.
From S2P Require Import SchedProps.
From S2P Require Import Bio.
From S2P Require Import FsRun.

(** Buffer [i] holds block [b] of the root device. *)
Definition is_buf (fs : fsstate) (i : nat) (b : Z) : Prop :=
  (i < NBUF)%nat /\ b_dev (buf_at fs i) = ROOTDEV /\ b_blockno (buf_at fs i) = b.

Definition pset (P : Z -> Z) (b v : Z) : Z -> Z := fun b' => if decide (b' = b) then v else P b'.

Definition lru (fs : fsstate) (L : list nat) : Prop :=
  dll (fun i => b_next (buf_at fs i)) (fun i => b_prev (buf_at fs i)) head L head /\ L ≡ₚ seq 0 NBUF.

Section inv.
Context (pid : Z).

Record bio_inv (fs : fsstate) (L : list nat) (V : Z -> list Z) (P : Z -> Z) (H : gset Z) : Prop := {
  bi_len : length (fs_bufs fs) = S NBUF;
  bi_lru : lru fs L;
  bi_uniq : forall i j b, is_buf fs i b -> is_buf fs j b -> i = j;
  bi_ref : forall i, (i < NBUF)%nat -> b_refcnt (buf_at fs i) =
    if decide (b_dev (buf_at fs i) = ROOTDEV) then P (b_blockno (buf_at fs i)) else 0;
  bi_cached : forall b, P b <> 0 -> exists i, is_buf fs i b /\ b_valid (buf_at fs i) <> 0;
  bi_range : forall b, 0 <= P b <= 2 ^ 30;
  bi_data : forall i b, is_buf fs i b -> b_valid (buf_at fs i) <> 0 -> b_data (buf_at fs i) = V b;
  bi_clean : forall b, P b = 0 -> V b = fs_disk fs b;
  bi_lock : forall i, (i < NBUF)%nat ->
    if decide (b_dev (buf_at fs i) = ROOTDEV /\ b_blockno (buf_at fs i) ∈ H)
    then fs_sl fs (SL_buf i) = SleepLock 1 pid else sl_locked (fs_sl fs (SL_buf i)) = 0;
  bi_held : forall b, b ∈ H -> 0 < P b
}.
End inv.

(** The parts of the storage state the cache operations do not touch. *)
Record fs_same (fs fs' : fsstate) : Prop := {
  fs_log_same : fs_log fs' = fs_log fs;
  fs_sb_same : fs_sb fs' = fs_sb fs;
  fs_itable_same : fs_itable fs' = fs_itable fs;
  fs_isl_same : forall i, fs_sl fs' (SL_inode i) = fs_sl fs (SL_inode i)
}.
Definition same_disk (fs fs' : fsstate) : Prop :=
  fs_disk fs' = fs_disk fs /\ fs_writes fs' = fs_writes fs.

Lemma fs_same_refl fs : fs_same fs fs.
Proof. by split. Qed.
Lemma fs_same_trans a b c : fs_same a b -> fs_same b c -> fs_same a c.
Proof. intros [] []. split; congruence. Qed.

Lemma buf_at_upd fs i f j : (i < length (fs_bufs fs))%nat ->
  buf_at (upd_buf i f fs) j = if decide (i = j) then f (buf_at fs i) else buf_at fs j.
Proof.
  intros Hi. unfold buf_at, upd_buf. simpl. rewrite !nth_lookup. case_decide as E.
  - subst j. rewrite list_lookup_alter_eq.
    destruct (lookup_lt_is_Some_2 (fs_bufs fs) i Hi) as [x Hx]. by rewrite Hx.
  - by rewrite list_lookup_alter_ne.
Qed.

Lemma length_upd_buf i f fs : length (fs_bufs (upd_buf i f fs)) = length (fs_bufs fs).
Proof. apply length_alter. Qed.

Lemma upd_buf_compose i f g fs : upd_buf i g (upd_buf i f fs) = upd_buf i (fun x => g (f x)) fs.
Proof.
  unfold upd_buf. simpl. by rewrite list_alter_alter_eq.
Qed.

(** ** The loops of bget *)

Section ops.
Context (p : nat) (pid : Z).

Lemma bget_cached_ok dev b fs h L : forall x fuel,
  dll (fun i => b_next (buf_at fs i)) (fun i => b_prev (buf_at fs i)) x L head ->
  head ∉ L -> (length L <= fuel)%nat ->
  exists r, fsr p pid h (bget_cached fuel dev b (b_next (buf_at fs x))) fs r h fs /\
    match r with
    | Some i => i ∈ L /\ b_dev (buf_at fs i) = dev /\ b_blockno (buf_at fs i) = b
    | None => forall i, i ∈ L -> ~ (b_dev (buf_at fs i) = dev /\ b_blockno (buf_at fs i) = b)
    end.
Proof.
  induction L as [|y L IH]; intros x fuel Hd Hh Hf; simpl in Hd.
  - destruct Hd as [-> _]. exists None. split; [|set_solver].
    destruct fuel; exact (fsr_ret p pid h fs None).
  - destruct Hd as [[-> _] Hd]. destruct fuel as [|fuel]; [simpl in Hf; lia|]. cbn [bget_cached].
    destruct (Nat.eqb_spec y head) as [->|Hy]; [set_solver|].
    destruct (Z.eqb_spec (b_dev (buf_at fs y)) dev) as [E1|E1],
      (Z.eqb_spec (b_blockno (buf_at fs y)) b) as [E2|E2].
    1: { exists (Some y). split; [|set_solver]. eapply fsr_bind; [apply fsr_get_buf|].
         rewrite E1, E2, !Z.eqb_refl. apply fsr_ret. }
    all: destruct (IH y fuel) as (r & Hr & Hm); [done|set_solver|simpl in Hf; lia|];
      exists r; (split; [|destruct r; set_solver]);
      (eapply fsr_bind; [apply fsr_get_buf|]);
      rewrite ?(proj2 (Z.eqb_neq _ _) E1), ?(proj2 (Z.eqb_neq _ _) E2), ?andb_false_r; exact Hr.
Qed.

Lemma bget_unused_ok fs h L : forall x fuel,
  dll (fun i => b_next (buf_at fs i)) (fun i => b_prev (buf_at fs i)) head L x ->
  head ∉ L -> (length L <= fuel)%nat ->
  exists r, fsr p pid h (bget_unused fuel (b_prev (buf_at fs x))) fs r h fs /\
    match r with
    | Some i => i ∈ L /\ b_refcnt (buf_at fs i) = 0
    | None => forall i, i ∈ L -> b_refcnt (buf_at fs i) <> 0
    end.
Proof.
  induction L as [|y L IH] using rev_ind; intros x fuel Hd Hh Hf.
  - destruct Hd as [_ ->]. exists None. split; [|set_solver].
    destruct fuel; exact (fsr_ret p pid h fs None).
  - apply dll_app in Hd as [Hd [_ ->]]. rewrite length_app in Hf. simpl in Hf.
    destruct fuel as [|fuel]; [lia|]. cbn [bget_unused].
    destruct (Nat.eqb_spec y head) as [->|Hy]; [set_solver|].
    destruct (Z.eqb_spec (b_refcnt (buf_at fs y)) 0) as [E|E].
    + exists (Some y). split; [|set_solver]. eapply fsr_bind; [apply fsr_get_buf|].
      rewrite E. apply fsr_ret.
    + destruct (IH y fuel) as (r & Hr & Hm); [done|set_solver|lia|].
      exists r. split; [|destruct r; set_solver].
      eapply fsr_bind; [apply fsr_get_buf|]. by rewrite (proj2 (Z.eqb_neq _ _) E).
Qed.

(** ** Taking a reference *)

Lemma lru_ext fs fs' L :
  (forall j, b_next (buf_at fs' j) = b_next (buf_at fs j)) ->
  (forall j, b_prev (buf_at fs' j) = b_prev (buf_at fs j)) -> lru fs L -> lru fs' L.
Proof.
  intros Hn Hp [Hd HL]. split; [|done]. eapply dll_frame; [| |exact Hd]; intros; simpl; auto.
Qed.

(** Buffer [i] is given to block [b], referenced once more and locked. *)
Lemma bio_inv_get fs fs' L V P H i b :
  bio_inv pid fs L V P H -> (i < NBUF)%nat -> b ∉ H -> P b < 2 ^ 30 ->
  is_buf fs i b \/ ((forall j, ~ is_buf fs j b) /\ b_refcnt (buf_at fs i) = 0) ->
  length (fs_bufs fs') = length (fs_bufs fs) ->
  (forall j, j <> i -> buf_at fs' j = buf_at fs j) ->
  b_next (buf_at fs' i) = b_next (buf_at fs i) -> b_prev (buf_at fs' i) = b_prev (buf_at fs i) ->
  is_buf fs' i b -> b_valid (buf_at fs' i) <> 0 -> b_refcnt (buf_at fs' i) = P b + 1 ->
  b_data (buf_at fs' i) = V b ->
  fs_sl fs' (SL_buf i) = SleepLock 1 pid ->
  (forall j, j <> i -> fs_sl fs' (SL_buf j) = fs_sl fs (SL_buf j)) ->
  fs_disk fs' = fs_disk fs ->
  bio_inv pid fs' L V (pset P b (P b + 1)) ({[b]} ∪ H) /\
  (forall j b', P b' <> 0 -> is_buf fs j b' -> is_buf fs' j b').
Proof.
  intros Hi Hlt HbH HP Hold Hlen Hj Hn Hp Hib Hv Hr Hda Hsl Hslj Hdk.
  pose proof (bi_range _ _ _ _ _ _ Hi b) as Hrg.
  assert (forall j b', j <> i -> is_buf fs' j b' <-> is_buf fs j b') as Hjb.
  { intros j b' Hne. unfold is_buf. by rewrite (Hj j Hne). }
  assert (forall j, j <> i -> ~ is_buf fs j b) as Hnob.
  { intros j Hne Hjb'. destruct Hold as [Ho|[Ho _]]; [|by apply (Ho j)].
    by apply Hne, (bi_uniq _ _ _ _ _ _ Hi j i b). }
  assert (forall b', P b' <> 0 -> is_buf fs i b' -> b' = b) as Hib'.
  { intros b' HP' (_ & Hd' & Hb'). destruct Hold as [(_ & _ & <-)|[_ Ho]]; [done|].
    rewrite (bi_ref _ _ _ _ _ _ Hi i Hlt), decide_True, Hb' in Ho by done. lia. }
  split.
  2: { intros j b' HP' Hjb'. destruct (decide (j = i)) as [->|Hne]; [|by apply Hjb].
       by rewrite (Hib' b') by done. }
  split.
  - rewrite Hlen. apply Hi.
  - eapply lru_ext; [| |apply Hi]; intros j; (destruct (decide (j = i)) as [->|Hne]; [done|by rewrite Hj]).
  - intros j k b' H1 H2. destruct (decide (j = i)) as [->|Hji], (decide (k = i)) as [->|Hki]; try done.
    + assert (b' = b) as -> by (destruct H1 as (_ & _ & <-); apply Hib).
      apply Hjb in H2; [|done]. by apply Hnob in H2.
    + assert (b' = b) as -> by (destruct H2 as (_ & _ & <-); apply Hib).
      apply Hjb in H1; [|done]. by apply Hnob in H1.
    + apply (bi_uniq _ _ _ _ _ _ Hi j k b'); by apply Hjb.
  - intros j Hjlt. destruct (decide (j = i)) as [->|Hne].
    + destruct Hib as (_ & Hd & Hb). rewrite decide_True, Hr, Hb by done. unfold pset. by rewrite decide_True.
    + rewrite Hj, (bi_ref _ _ _ _ _ _ Hi j Hjlt) by done. case_decide as Hd; [|done].
      unfold pset. rewrite decide_False; [done|]. intros Hb. by apply (Hnob j).
  - intros b' HP'. unfold pset in HP'. case_decide as Hb; [subst b'; by exists i|].
    destruct (bi_cached _ _ _ _ _ _ Hi b' HP') as (j & Hjb' & Hjv).
    destruct (decide (j = i)) as [->|Hne]; [by apply Hib' in Hjb'|].
    exists j. rewrite Hjb, Hj by done. done.
  - intros b'. unfold pset. case_decide; [lia|apply Hi].
  - intros j b' Hjb' Hjv. destruct (decide (j = i)) as [->|Hne].
    + destruct Hjb' as (_ & _ & <-). destruct Hib as (_ & _ & ->). done.
    + rewrite Hj in Hjv |- * by done. apply (bi_data _ _ _ _ _ _ Hi); [by apply Hjb|done].
  - intros b'. unfold pset. rewrite Hdk. case_decide; [lia|apply Hi].
  - intros j Hjlt. destruct (decide (j = i)) as [->|Hne].
    + destruct Hib as (_ & Hd & Hb). rewrite decide_True; [done|]. rewrite Hb. set_solver.
    + rewrite Hj, Hslj by done. pose proof (bi_lock _ _ _ _ _ _ Hi j Hjlt) as Hlk.
      destruct (decide (b_dev (buf_at fs j) = ROOTDEV /\ b_blockno (buf_at fs j) ∈ {[b]} ∪ H)) as [[Hd Hb]|Hno].
      * rewrite decide_True in Hlk; [done|]. split; [done|].
        apply elem_of_union in Hb as [Hb%elem_of_singleton|Hb]; [|done]. by destruct (Hnob j Hne).
      * rewrite decide_False in Hlk; [done|]. set_solver.
  - intros b' Hb'. unfold pset. case_decide; [lia|]. apply (bi_held _ _ _ _ _ _ Hi). set_solver.
Qed.

End ops.

(** ** The disk *)

Section disk_ops.
Context (p : nat) (pid : Z) `{D : Disk} `{!DiskOk D}.

Lemma fsr_disk_read h i fs : (i < NBUF)%nat ->
  fsr p pid h (virtio_disk_rw i 0) fs tt h (disk_read_fs i fs).
Proof. intros Hi w. rewrite disk_read by done. apply (fsr_mod p pid h (disk_read_fs i) fs w). Qed.
Lemma fsr_disk_write h i fs : (i < NBUF)%nat ->
  fsr p pid h (virtio_disk_rw i 1) fs tt h (disk_write_fs i fs).
Proof. intros Hi w. rewrite disk_write by done. apply (fsr_mod p pid h (disk_write_fs i) fs w). Qed.

(** ** bread *)

Lemma unlocked fs L V P H i : bio_inv pid fs L V P H -> (i < NBUF)%nat ->
  (b_dev (buf_at fs i) = ROOTDEV -> b_blockno (buf_at fs i) ∉ H) -> sl_locked (fs_sl fs (SL_buf i)) = 0.
Proof.
  intros Hi Hlt Hn. pose proof (bi_lock _ _ _ _ _ _ Hi i Hlt) as Hlk.
  rewrite decide_False in Hlk; [done|]. naive_solver.
Qed.

Lemma lru_in fs L i : lru fs L -> i ∈ L <-> (i < NBUF)%nat.
Proof. intros [_ HL]. rewrite HL, elem_of_seq. lia. Qed.

(** The end of [bget] and the rest of [bread] on buffer [i], already
    claimed for block [b] by [f]. *)
Lemma bread_finish fs i b V (f : buf -> buf) :
  (i < NBUF)%nat -> length (fs_bufs fs) = S NBUF ->
  let fs1 := upd_buf i f fs in
  sl_locked (fs_sl fs (SL_buf i)) = 0 -> is_buf fs1 i b ->
  b_next (f (buf_at fs i)) = b_next (buf_at fs i) -> b_prev (f (buf_at fs i)) = b_prev (buf_at fs i) ->
  (b_valid (f (buf_at fs i)) = 0 -> V = fs_disk fs b) ->
  (b_valid (f (buf_at fs i)) <> 0 -> V = b_data (f (buf_at fs i))) ->
  exists fs', fsr p pid [L_bcache]
      (b0 ← (release L_bcache;; acquiresleep (SL_buf i);; mret i); x ← get_buf b0;
       kwhen (b_valid x =? 0) (virtio_disk_rw b0 0;; mod_buf b0 (set_b_valid 1));; mret b0)
      fs1 i [] fs' /\
    length (fs_bufs fs') = length (fs_bufs fs) /\
    (forall j, j <> i -> buf_at fs' j = buf_at fs j) /\
    b_next (buf_at fs' i) = b_next (buf_at fs i) /\ b_prev (buf_at fs' i) = b_prev (buf_at fs i) /\
    is_buf fs' i b /\ b_valid (buf_at fs' i) <> 0 /\ b_refcnt (buf_at fs' i) = b_refcnt (f (buf_at fs i)) /\
    b_data (buf_at fs' i) = V /\ fs_sl fs' (SL_buf i) = SleepLock 1 pid /\
    (forall j, j <> i -> fs_sl fs' (SL_buf j) = fs_sl fs (SL_buf j)) /\
    fs_same fs fs' /\ same_disk fs fs'.
Proof.
  intros Hlt Hlen fs1 Hsl Hb Hn Hp Hv0 Hv1.
  set (fs2 := upd_sl (SL_buf i) (SleepLock 1 pid) fs1).
  assert (forall j, buf_at fs2 j = if decide (i = j) then f (buf_at fs i) else buf_at fs j) as Hat.
  { intros j. change (buf_at fs2 j) with (buf_at fs1 j). apply buf_at_upd. lia. }
  assert (length (fs_bufs fs2) = S NBUF) as Hlen2 by (simpl; by rewrite length_alter).
  assert (forall j, fs_sl fs2 (SL_buf j) = if decide (j = i) then SleepLock 1 pid else fs_sl fs (SL_buf j)) as Hsl2.
  { intros j. simpl. destruct (decide (SL_buf j = SL_buf i)), (decide (j = i)); congruence. }
  assert (forall j, fs_sl fs2 (SL_inode j) = fs_sl fs (SL_inode j)) as Hsli.
  { done. }
  set (fs3 := upd_buf i (set_b_valid 1) (disk_read_fs i fs2)).
  exists (if b_valid (buf_at fs2 i) =? 0 then fs3 else fs2). split.
  { apply fsr_assoc. eapply fsr_bind; [apply fsr_release; set_solver|].
    apply fsr_assoc. eapply fsr_bind; [apply fsr_acquiresleep; [set_solver|done]|]. fold fs2.
    eapply fsr_bind; [apply fsr_ret|]. cbn beta.
    eapply fsr_bind; [apply fsr_get_buf|].
    eapply fsr_bind; [|apply fsr_ret].
    eapply (fsr_when _ _ _ _ _ _ _ _ fs3); [|done|done].
    intros _. eapply fsr_bind; [by apply fsr_disk_read|apply fsr_mod_buf]. }
  assert (buf_at fs2 i = f (buf_at fs i)) as Hi2 by (rewrite Hat; by rewrite decide_True).
  assert (buf_at fs1 i = f (buf_at fs i)) as Hi1 by exact Hi2.
  rewrite Hi2. unfold is_buf in Hb |- *. rewrite Hi1 in Hb. destruct Hb as (_ & Hbd & Hbb).
  destruct (Z.eqb_spec (b_valid (f (buf_at fs i))) 0) as [E|E].
  - assert (forall j, buf_at fs3 j = if decide (i = j)
      then set_b_valid 1 (set_b_data (fs_disk fs b) (f (buf_at fs i))) else buf_at fs j) as Hat3.
    { intros j. unfold fs3, disk_read_fs. rewrite Hi2, Hbb.
      rewrite buf_at_upd by (rewrite length_upd_buf; lia).
      rewrite !buf_at_upd by lia. rewrite Hi2, (Hat j), (decide_True (P := i = i)) by done.
      by destruct (decide (i = j)). }
    assert (buf_at fs3 i = set_b_valid 1 (set_b_data (fs_disk fs b) (f (buf_at fs i)))) as Hi3
      by (rewrite Hat3; by rewrite decide_True).
    rewrite Hi3. simpl. split_and!; try done.
    + by rewrite !length_alter.
    + intros j Hj. rewrite Hat3. by rewrite decide_False.
    + by rewrite Hv0.
    + specialize (Hsl2 i). rewrite decide_True in Hsl2 by done. exact Hsl2.
    + intros j Hj. specialize (Hsl2 j). rewrite decide_False in Hsl2 by done. exact Hsl2.
  - rewrite Hi2. split_and!; try done.
    + simpl. by rewrite !length_alter.
    + intros j Hj. rewrite Hat. by rewrite decide_False.
    + by rewrite Hv1.
    + rewrite Hsl2. by rewrite decide_True.
    + intros j Hj. rewrite Hsl2. by rewrite decide_False.
Qed.

(** Some buffer is unused. *)
Definition free_buf (fs : fsstate) : Prop := exists i, (i < NBUF)%nat /\ b_refcnt (buf_at fs i) = 0.

Lemma bread_ok fs L V P H b :
  bio_inv pid fs L V P H -> b ∉ H -> P b < 2 ^ 30 -> P b <> 0 \/ free_buf fs ->
  exists i fs', fsr p pid [] (bread ROOTDEV b) fs i [] fs' /\
    bio_inv pid fs' L V (pset P b (P b + 1)) ({[b]} ∪ H) /\ is_buf fs' i b /\
    b_data (buf_at fs' i) = V b /\
    (forall j b', P b' <> 0 -> is_buf fs j b' -> is_buf fs' j b') /\
    fs_same fs fs' /\ same_disk fs fs'.
Proof.
  intros Hi HbH HP Hfree. pose proof (bi_lru _ _ _ _ _ _ Hi) as HL.
  pose proof (bi_len _ _ _ _ _ _ Hi) as Hlen. pose proof (bi_range _ _ _ _ _ _ Hi b) as Hrg.
  assert (head ∉ L) as HhL by (rewrite (lru_in fs L head HL); unfold head; lia).
  assert (length L = NBUF) as HlL by (destruct HL as [_ ->]; apply length_seq).
  destruct (bget_cached_ok p pid ROOTDEV b fs [L_bcache] L head NBUF (proj1 HL) HhL ltac:(lia))
    as (r & Hr & Hm).
  destruct r as [i|].
  - destruct Hm as (HiL & Hdev & Hbn). apply (lru_in fs L i HL) in HiL as Hlt.
    assert (is_buf fs i b) as Hib by done.
    assert (b_refcnt (buf_at fs i) = P b) as Href.
    { rewrite (bi_ref _ _ _ _ _ _ Hi i Hlt), decide_True, Hbn by done. done. }
    set (f := fun x => set_b_refcnt (u32 (b_refcnt x + 1)) x).
    destruct (bread_finish fs i b (V b) f) as (fs' & Hrun & Hlen' & Hj & Hn & Hp & Hib' & Hv' & Hr' & Hda' &
      Hsl' & Hslj & Hsame & Hdisk); try done.
    + apply (unlocked fs L V P H i Hi Hlt). rewrite Hbn. done.
    + unfold is_buf. rewrite buf_at_upd by lia. rewrite decide_True by done. done.
    + intros Hv0. apply (bi_clean _ _ _ _ _ _ Hi). destruct (decide (P b = 0)) as [|HP0]; [done|].
      destruct (bi_cached _ _ _ _ _ _ Hi b HP0) as (j & Hjb & Hjv).
      rewrite (bi_uniq _ _ _ _ _ _ Hi j i b Hjb Hib) in Hjv. done.
    + intros Hv1. symmetry. by apply (bi_data _ _ _ _ _ _ Hi i b).
    + exists i, fs'.
      destruct (bio_inv_get pid fs fs' L V P H i b) as [Hinv Hst]; try done.
      { by left. }
      { rewrite Hr'. unfold f. simpl. rewrite Href, u32_small by lia. done. }
      { apply Hdisk. }
      split; [|done].
      apply fsr_assoc. eapply fsr_bind; [apply fsr_acquire; set_solver|].
      apply fsr_assoc. eapply fsr_bind; [apply fsr_get_buf|].
      apply fsr_assoc. eapply fsr_bind; [exact Hr|].
      apply fsr_assoc. eapply fsr_bind; [apply fsr_mod_buf|]. exact Hrun.
  - destruct (bget_unused_ok p pid fs [L_bcache] L head NBUF (proj1 HL) HhL ltac:(lia)) as (r & Hr2 & Hm2).
    assert (forall j, ~ is_buf fs j b) as Hno.
    { intros j (Hj & Hd & Hb). apply (Hm j); [by apply (lru_in fs L j HL)|done]. }
    assert (P b = 0) as HP0.
    { destruct (decide (P b = 0)) as [|HP0]; [done|].
      destruct (bi_cached _ _ _ _ _ _ Hi b HP0) as (j & Hjb & _). by destruct (Hno j). }
    destruct r as [i|].
    2: { destruct Hfree as [?|(j & Hj & Hj0)]; [done|].
         exfalso. apply (Hm2 j); [by apply (lru_in fs L j HL)|done]. }
    destruct Hm2 as (HiL & Hi0). apply (lru_in fs L i HL) in HiL as Hlt.
    set (f := fun x => set_b_refcnt 1 (set_b_valid 0 (set_b_blockno b (set_b_dev ROOTDEV x)))).
    destruct (bread_finish fs i b (V b) f) as (fs' & Hrun & Hlen' & Hj & Hn & Hp & Hib' & Hv' & Hr' & Hda' &
      Hsl' & Hslj & Hsame & Hdisk); try done.
    + apply (unlocked fs L V P H i Hi Hlt). intros Hd Hin.
      apply (bi_held _ _ _ _ _ _ Hi) in Hin. rewrite (bi_ref _ _ _ _ _ _ Hi i Hlt), decide_True in Hi0 by done.
      lia.
    + unfold is_buf. rewrite buf_at_upd by lia. rewrite decide_True by done. done.
    + intros _. by apply (bi_clean _ _ _ _ _ _ Hi).
    + exists i, fs'.
      destruct (bio_inv_get pid fs fs' L V P H i b) as [Hinv Hst]; try done.
      { by right. }
      { rewrite Hr', HP0. done. }
      { apply Hdisk. }
      split; [|done].
      apply fsr_assoc. eapply fsr_bind; [apply fsr_acquire; set_solver|].
      apply fsr_assoc. eapply fsr_bind; [apply fsr_get_buf|].
      apply fsr_assoc. eapply fsr_bind; [exact Hr|].
      apply fsr_assoc. eapply fsr_bind; [exact Hr2|].
      apply fsr_assoc. eapply fsr_bind; [apply fsr_mod_buf|].
      apply fsr_assoc. eapply fsr_bind; [apply fsr_mod_buf|].
      apply fsr_assoc. eapply fsr_bind; [apply fsr_mod_buf|].
      apply fsr_assoc. eapply fsr_bind; [apply fsr_mod_buf|].
      rewrite !upd_buf_compose. exact Hrun.
Qed.

End disk_ops.

(** ** Moving a buffer to the front of the LRU list *)

Section more_ops.
Context (p : nat) (pid : Z).

Definition unlink_fs (i : nat) (fs : fsstate) : fsstate :=
  let x := buf_at fs i in
  let fs := upd_buf (b_next x) (set_b_prev (b_prev x)) fs in
  let x := buf_at fs i in
  upd_buf (b_prev x) (set_b_next (b_next x)) fs.
Definition push_front_fs (i : nat) (fs : fsstate) : fsstate :=
  let h := buf_at fs head in
  let fs := upd_buf i (set_b_next (b_next h)) fs in
  let fs := upd_buf i (set_b_prev head) fs in
  let h := buf_at fs head in
  let fs := upd_buf (b_next h) (set_b_prev i) fs in
  upd_buf head (set_b_next i) fs.

(** Two buffers that differ at most in their links. *)
Definition same_core (x y : buf) : Prop :=
  b_valid x = b_valid y /\ b_dev x = b_dev y /\ b_blockno x = b_blockno y /\
  b_refcnt x = b_refcnt y /\ b_data x = b_data y.

Section links.
Context (fs : fsstate) (i : nat) (v : nat).
Hypothesis Hi : (i < length (fs_bufs fs))%nat.

Lemma next_upd_next j : b_next (buf_at (upd_buf i (set_b_next v) fs) j) =
  if decide (i = j) then v else b_next (buf_at fs j).
Proof. rewrite buf_at_upd by done. by case_decide. Qed.
Lemma prev_upd_next j : b_prev (buf_at (upd_buf i (set_b_next v) fs) j) = b_prev (buf_at fs j).
Proof. rewrite buf_at_upd by done. by case_decide; subst. Qed.
Lemma next_upd_prev j : b_next (buf_at (upd_buf i (set_b_prev v) fs) j) = b_next (buf_at fs j).
Proof. rewrite buf_at_upd by done. by case_decide; subst. Qed.
Lemma prev_upd_prev j : b_prev (buf_at (upd_buf i (set_b_prev v) fs) j) =
  if decide (i = j) then v else b_prev (buf_at fs j).
Proof. rewrite buf_at_upd by done. by case_decide. Qed.
Lemma core_upd_next j : same_core (buf_at (upd_buf i (set_b_next v) fs) j) (buf_at fs j).
Proof. rewrite buf_at_upd by done. by case_decide; subst. Qed.
Lemma core_upd_prev j : same_core (buf_at (upd_buf i (set_b_prev v) fs) j) (buf_at fs j).
Proof. rewrite buf_at_upd by done. by case_decide; subst. Qed.
End links.

Lemma core_trans x y z : same_core x y -> same_core y z -> same_core x z.
Proof. unfold same_core. intuition congruence. Qed.

Lemma unlink_ok fs i L1 L2 : length (fs_bufs fs) = S NBUF ->
  dll (fun j => b_next (buf_at fs j)) (fun j => b_prev (buf_at fs j)) head (L1 ++ i :: L2) head ->
  NoDup (head :: L1 ++ i :: L2) -> (forall j, j ∈ L1 ++ i :: L2 -> (j < NBUF)%nat) ->
  let fs' := unlink_fs i fs in
  dll (fun j => b_next (buf_at fs' j)) (fun j => b_prev (buf_at fs' j)) head (L1 ++ L2) head /\
  length (fs_bufs fs') = S NBUF /\ (forall j, same_core (buf_at fs' j) (buf_at fs j)).
Proof.
  intros Hlen Hd Hnd Hlt fs'.
  destruct (dll_neighbours _ _ _ _ _ _ _ Hd) as [Hq Hn].
  set (q := b_prev (buf_at fs i)) in *. set (n := b_next (buf_at fs i)) in *.
  apply NoDup_cons in Hnd as [Hh Hnd]. pose proof Hnd as (Hnd1 & Hdj & Hnd2)%NoDup_app.
  apply NoDup_cons in Hnd2 as [Hi2 Hnd2].
  assert (forall j, j ∈ L1 ++ i :: L2 \/ j = head -> (j < S NBUF)%nat) as Hlt'.
  { intros j [Hj%Hlt| ->]; unfold head; lia. }
  assert (n < S NBUF)%nat as Hnlt by (apply Hlt'; clear -Hn; set_solver).
  assert (q < S NBUF)%nat as Hqlt by (apply Hlt'; clear -Hq; set_solver).
  assert (n <> i) as Hni.
  { intros Hx. rewrite Hx in Hn. apply elem_of_app in Hn as [?|E%list_elem_of_singleton]; [done|].
    assert (i < NBUF)%nat by (apply Hlt; clear; set_solver). unfold head in E. lia. }
  subst fs'. unfold unlink_fs. fold q n.
  assert (b_prev (buf_at (upd_buf n (set_b_prev q) fs) i) = q) as ->.
  { rewrite prev_upd_prev by lia. by rewrite decide_False. }
  rewrite next_upd_prev by lia. fold n.
  split_and!.
  - eapply (dll_unlink _ _ _ _ _ _ i); [exact Hd| | | | |..].
    + by apply NoDup_cons.
    + apply NoDup_app. split_and!; [done| |apply NoDup_singleton]. clear -Hh. set_solver.
    + simpl. fold q n. rewrite next_upd_next by (rewrite length_upd_buf; lia). by rewrite decide_True.
    + simpl. fold q n. rewrite prev_upd_next by (rewrite length_upd_buf; lia).
      rewrite prev_upd_prev by lia. by rewrite decide_True.
    + simpl. fold q n. intros y _ Hy. rewrite next_upd_next by (rewrite length_upd_buf; lia).
      rewrite decide_False by done. by rewrite next_upd_prev by lia.
    + simpl. fold q n. intros y _ Hy. rewrite prev_upd_next by (rewrite length_upd_buf; lia).
      rewrite prev_upd_prev by lia. by rewrite decide_False.
  - by rewrite !length_upd_buf.
  - intros j. eapply core_trans; [apply core_upd_next; rewrite length_upd_buf; lia|].
    apply core_upd_prev. lia.
Qed.

Lemma push_front_ok fs i L : length (fs_bufs fs) = S NBUF -> (i < NBUF)%nat ->
  dll (fun j => b_next (buf_at fs j)) (fun j => b_prev (buf_at fs j)) head L head ->
  NoDup (head :: i :: L) -> (forall j, j ∈ L -> (j < NBUF)%nat) ->
  let fs' := push_front_fs i fs in
  dll (fun j => b_next (buf_at fs' j)) (fun j => b_prev (buf_at fs' j)) head (i :: L) head /\
  length (fs_bufs fs') = S NBUF /\ (forall j, same_core (buf_at fs' j) (buf_at fs j)).
Proof.
  intros Hlen Hi Hd Hnd Hlt fs'.
  pose proof (dll_next_start _ _ _ _ _ Hd) as Hn. simpl in Hn.
  set (n := b_next (buf_at fs head)) in *.
  apply NoDup_cons in Hnd as [Hh Hnd]. apply NoDup_cons in Hnd as [HiL Hnd].
  assert (n < S NBUF)%nat as Hnlt.
  { apply elem_of_app in Hn as [Hn%Hlt|Hn%list_elem_of_singleton]; [lia|]. rewrite Hn. unfold head. lia. }
  assert (n <> i) as Hni.
  { intros ->. apply elem_of_app in Hn as [Hn|Hn%list_elem_of_singleton]; [done|].
    unfold head in Hn. lia. }
  assert (i <> head) as Hih by (unfold head; lia).
  assert (head < S NBUF)%nat as Hhlt by (unfold head; lia).
  subst fs'. unfold push_front_fs. fold n.
  set (fs1 := upd_buf i (set_b_prev head) (upd_buf i (set_b_next n) fs)).
  assert (length (fs_bufs fs1) = S NBUF) as Hlen1 by (unfold fs1; by rewrite !length_upd_buf).
  assert (forall j, b_next (buf_at fs1 j) = if decide (i = j) then n else b_next (buf_at fs j)) as Hn1.
  { intros j. unfold fs1. rewrite next_upd_prev by (rewrite length_upd_buf; lia).
    rewrite next_upd_next by lia. done. }
  assert (forall j, b_prev (buf_at fs1 j) = if decide (i = j) then head else b_prev (buf_at fs j)) as Hp1.
  { intros j. unfold fs1. rewrite prev_upd_prev by (rewrite length_upd_buf; lia).
    rewrite prev_upd_next by lia. done. }
  assert (b_next (buf_at fs1 head) = n) as -> by (rewrite Hn1; by rewrite decide_False).
  split_and!.
  - eapply (dll_link_front _ _ _ _ head L head i); [exact Hd|..].
    + clear -HiL Hih. set_solver.
    + apply NoDup_cons. split; [|done]. clear -Hh. set_solver.
    + apply NoDup_app. split_and!; [done|clear -Hh; set_solver|apply NoDup_singleton].
    + simpl. rewrite next_upd_next by (rewrite length_upd_buf; lia). by rewrite decide_True.
    + simpl. rewrite next_upd_next by (rewrite length_upd_buf; lia). rewrite decide_False by done.
      rewrite next_upd_prev, Hn1 by lia. by rewrite decide_True.
    + simpl. rewrite prev_upd_next by (rewrite length_upd_buf; lia). rewrite prev_upd_prev by lia.
      rewrite decide_False by done. rewrite Hp1. by rewrite decide_True.
    + simpl. fold n. rewrite prev_upd_next by (rewrite length_upd_buf; lia). rewrite prev_upd_prev by lia.
      by rewrite decide_True.
    + simpl. intros y Hy. rewrite next_upd_next by (rewrite length_upd_buf; lia).
      rewrite decide_False by (intros <-; apply Hh; clear -Hy; set_solver). rewrite next_upd_prev, Hn1 by lia.
      rewrite decide_False; [done|]. intros ->. done.
    + simpl. fold n. intros y Hy Hyn. rewrite prev_upd_next by (rewrite length_upd_buf; lia).
      rewrite prev_upd_prev by lia. rewrite decide_False by done. rewrite Hp1.
      rewrite decide_False; [done|]. intros ->. clear -Hy HiL Hih. set_solver.
  - by rewrite !length_upd_buf.
  - intros j. eapply core_trans; [apply core_upd_next; rewrite length_upd_buf; lia|].
    eapply core_trans; [apply core_upd_prev; lia|].
    eapply core_trans; [apply core_upd_prev; rewrite length_upd_buf; lia|]. apply core_upd_next. lia.
Qed.

Definition relink (i : nat) (fs : fsstate) : fsstate := push_front_fs i (unlink_fs i fs).

Lemma relink_ok fs L i : length (fs_bufs fs) = S NBUF -> lru fs L -> (i < NBUF)%nat ->
  lru (relink i fs) (i :: filter (fun j => j <> i) L) /\
  length (fs_bufs (relink i fs)) = S NBUF /\
  (forall j, same_core (buf_at (relink i fs) j) (buf_at fs j)).
Proof.
  intros Hlen HL Hi. destruct HL as [Hd HL].
  assert (i ∈ L) as HiL by (rewrite HL, elem_of_seq; lia).
  assert (NoDup L) as HndL by (rewrite HL; apply NoDup_seq).
  assert (forall j, j ∈ L -> (j < NBUF)%nat) as HltL.
  { intros j. rewrite HL, elem_of_seq. lia. }
  destruct (list_elem_of_split _ _ HiL) as (L1 & L2 & ->).
  assert (filter (fun j => j <> i) (L1 ++ i :: L2) = L1 ++ L2) as ->.
  { apply NoDup_app in HndL as (_ & H1 & H2). apply NoDup_cons in H2 as [H2 _].
    rewrite filter_app, filter_cons_False by naive_solver.
    rewrite !filter_ne_id; [done|done|]. intros Hx. apply (H1 i Hx). set_solver. }
  assert (NoDup (head :: L1 ++ i :: L2)) as Hnd.
  { apply NoDup_cons. split; [|done]. intros Hx%HltL. unfold head in Hx. lia. }
  destruct (unlink_ok fs i L1 L2 Hlen Hd Hnd HltL) as (Hd1 & Hlen1 & Hc1).
  assert (i :: L1 ++ L2 ≡ₚ L1 ++ i :: L2) as Hperm by solve_Permutation.
  destruct (push_front_ok (unlink_fs i fs) i (L1 ++ L2) Hlen1 Hi Hd1) as (Hd2 & Hlen2 & Hc2).
  - apply NoDup_cons in Hnd as [Hh _]. apply NoDup_cons. split; [clear -Hh; set_solver|].
    by rewrite Hperm.
  - intros j Hj. apply HltL. set_solver.
  - split_and!; [|done|].
    + split; [exact Hd2|]. by rewrite Hperm.
    + intros j. eapply core_trans; [apply Hc2|apply Hc1].
Qed.

(** ** The other operations *)

Lemma is_buf_core fs fs' i b : same_core (buf_at fs' i) (buf_at fs i) -> is_buf fs' i b <-> is_buf fs i b.
Proof. intros (_ & Hd & Hb & _). unfold is_buf. by rewrite Hd, Hb. Qed.

(** Changing the number of references to [b], and possibly the LRU order
    and the lock of its buffer. *)
Lemma bio_inv_ref fs fs' L L' V P H H' i b v :
  bio_inv pid fs L V P H -> is_buf fs i b -> b_valid (buf_at fs i) <> 0 ->
  0 <= v <= 2 ^ 30 -> (v = 0 -> V b = fs_disk fs b) ->
  length (fs_bufs fs') = S NBUF -> lru fs' L' ->
  (forall j, b_valid (buf_at fs' j) = b_valid (buf_at fs j) /\ b_dev (buf_at fs' j) = b_dev (buf_at fs j) /\
     b_blockno (buf_at fs' j) = b_blockno (buf_at fs j) /\ b_data (buf_at fs' j) = b_data (buf_at fs j) /\
     b_refcnt (buf_at fs' j) = if decide (j = i) then v else b_refcnt (buf_at fs j)) ->
  fs_disk fs' = fs_disk fs ->
  (forall j, j <> i -> fs_sl fs' (SL_buf j) = fs_sl fs (SL_buf j)) ->
  (forall b', b' <> b -> b' ∈ H' <-> b' ∈ H) ->
  (if decide (b ∈ H') then fs_sl fs' (SL_buf i) = SleepLock 1 pid /\ 0 < v
   else sl_locked (fs_sl fs' (SL_buf i)) = 0) ->
  bio_inv pid fs' L' V (pset P b v) H' /\ (forall j b', is_buf fs' j b' <-> is_buf fs j b').
Proof.
  intros Hi Hib Hv Hrv Hcl Hlen HL' Hc Hdk Hsl HH HHb.
  assert (forall j b', is_buf fs' j b' <-> is_buf fs j b') as Hbuf.
  { intros j b'. destruct (Hc j) as (_ & Hd & Hb & _). unfold is_buf. by rewrite Hd, Hb. }
  split; [|done]. destruct Hib as (Hlt & Hdev & Hbn).
  assert (forall j, is_buf fs j b -> j = i) as Hu.
  { intros j Hj. by apply (bi_uniq _ _ _ _ _ _ Hi j i b). }
  split.
  - done.
  - done.
  - intros j k b'. rewrite !Hbuf. apply (bi_uniq _ _ _ _ _ _ Hi).
  - intros j Hj. destruct (Hc j) as (_ & -> & -> & _ & ->). unfold pset.
    destruct (decide (j = i)) as [->|Hne].
    + rewrite !decide_True by done. done.
    + rewrite (bi_ref _ _ _ _ _ _ Hi j Hj). destruct (decide (b_dev (buf_at fs j) = ROOTDEV)) as [Hd|Hd]; [|done].
      rewrite decide_False; [done|]. intros Hb. by apply Hne, Hu.
  - intros b'. unfold pset. destruct (decide (b' = b)) as [->|E].
    + intros _. exists i. rewrite Hbuf. destruct (Hc i) as (-> & _). done.
    + intros HP. destruct (bi_cached _ _ _ _ _ _ Hi b' HP) as (j & Hj & Hjv).
      exists j. rewrite Hbuf. destruct (Hc j) as (-> & _). done.
  - intros b'. unfold pset. destruct (decide (b' = b)); [done|apply Hi].
  - intros j b' Hj%Hbuf. destruct (Hc j) as (-> & _ & _ & -> & _). by apply Hi.
  - intros b'. unfold pset. rewrite Hdk. destruct (decide (b' = b)) as [->|]; [auto|apply Hi].
  - intros j Hj. destruct (Hc j) as (_ & -> & -> & _).
    destruct (decide (j = i)) as [->|Hne].
    + rewrite Hdev, Hbn. destruct (decide (b ∈ H')) as [Hin|Hin].
      * rewrite decide_True by done. apply HHb.
      * rewrite decide_False by tauto. done.
    + rewrite (Hsl j Hne). pose proof (bi_lock _ _ _ _ _ _ Hi j Hj) as Hlk.
      destruct (decide (b_dev (buf_at fs j) = ROOTDEV)) as [Hd|Hd].
      * assert (b_blockno (buf_at fs j) <> b) as Hb by (intros Hb; by apply Hne, Hu).
        destruct (decide (b_blockno (buf_at fs j) ∈ H)) as [Hin|Hin].
        -- rewrite decide_True in Hlk by done. rewrite decide_True; [done|].
           split; [done|]. by apply HH.
        -- rewrite decide_False in Hlk by tauto. rewrite decide_False; [done|].
           intros [_ Hx]. by apply Hin, HH.
      * rewrite decide_False in Hlk by tauto. rewrite decide_False by tauto. done.
  - intros b' Hb'. unfold pset. destruct (decide (b' = b)) as [->|E].
    + rewrite decide_True in HHb by done. apply HHb.
    + apply (bi_held _ _ _ _ _ _ Hi). by apply HH.
Qed.

(** The buffer of a referenced block. *)
Lemma ref_buf fs L V P H i b : bio_inv pid fs L V P H -> is_buf fs i b -> P b <> 0 ->
  b_valid (buf_at fs i) <> 0 /\ b_refcnt (buf_at fs i) = P b /\ b_data (buf_at fs i) = V b.
Proof.
  intros Hi Hib HP. destruct (bi_cached _ _ _ _ _ _ Hi b HP) as (j & Hj & Hjv).
  rewrite (bi_uniq _ _ _ _ _ _ Hi j i b Hj Hib) in Hjv.
  split; [done|]. split; [|by apply Hi]. destruct Hib as (Hlt & Hd & Hb).
  by rewrite (bi_ref _ _ _ _ _ _ Hi i Hlt), decide_True, Hb.
Qed.

Lemma held_lock fs L V P H i b : bio_inv pid fs L V P H -> is_buf fs i b -> b ∈ H ->
  fs_sl fs (SL_buf i) = SleepLock 1 pid.
Proof.
  intros Hi (Hlt & Hd & Hb) Hin. pose proof (bi_lock _ _ _ _ _ _ Hi i Hlt) as Hlk.
  rewrite decide_True in Hlk; [done|]. by rewrite Hb.
Qed.

Lemma bwrite_ok `{D : Disk} `{!DiskOk D} fs L V P H i b : bio_inv pid fs L V P H -> is_buf fs i b -> b ∈ H ->
  exists fs', fsr p pid [] (bwrite i) fs tt [] fs' /\
    bio_inv pid fs' L V P H /\ (forall j, buf_at fs' j = buf_at fs j) /\
    fs_same fs fs' /\ fs_disk fs' = dset (fs_disk fs) b (V b) /\
    fs_writes fs' = (b, V b) :: fs_writes fs.
Proof.
  intros Hi Hib Hin. pose proof (bi_held _ _ _ _ _ _ Hi b Hin) as HP.
  destruct (ref_buf fs L V P H i b Hi Hib ltac:(lia)) as (Hv & _ & Hda).
  exists (disk_write_fs i fs).
  assert (fs_disk (disk_write_fs i fs) = dset (fs_disk fs) b (V b)) as Hdk.
  { unfold disk_write_fs. simpl. rewrite Hda. by destruct Hib as (_ & _ & ->). }
  split_and!; try done.
  - unfold bwrite. eapply fsr_bind; [apply fsr_holdingsleep; set_solver|].
    rewrite (held_lock fs L V P H i b Hi Hib Hin). simpl. rewrite Z.eqb_refl. simpl.
    apply fsr_disk_write; [done|apply Hib].
  - destruct Hi as [H1 H2 H3 H4 H5 H6 H7 H8 H9 H10]. split; try done.
    intros b' Hb'. rewrite Hdk. unfold dset. destruct (Z.eqb_spec b' b) as [->|]; [done|]. by apply H8.
  - unfold disk_write_fs. simpl. rewrite Hda. by destruct Hib as (_ & _ & ->).
Qed.

(** The caller of [bread] writes into the buffer. *)
Lemma set_data_ok fs L V P H i b v : bio_inv pid fs L V P H -> is_buf fs i b -> b ∈ H ->
  bio_inv pid (upd_buf i (set_b_data v) fs) L (dset V b v) P H /\
  (forall j b', is_buf (upd_buf i (set_b_data v) fs) j b' <-> is_buf fs j b') /\
  b_data (buf_at (upd_buf i (set_b_data v) fs) i) = v.
Proof.
  intros Hi Hib Hin. pose proof (bi_held _ _ _ _ _ _ Hi b Hin) as HP.
  pose proof (bi_len _ _ _ _ _ _ Hi) as Hlen. pose proof Hib as (Hlt & Hdev & Hbn).
  assert (forall j, buf_at (upd_buf i (set_b_data v) fs) j =
            if decide (i = j) then set_b_data v (buf_at fs i) else buf_at fs j) as Hat.
  { intros j. apply buf_at_upd. lia. }
  assert (forall j b', is_buf (upd_buf i (set_b_data v) fs) j b' <-> is_buf fs j b') as Hbuf.
  { intros j b'. unfold is_buf. rewrite Hat. by case_decide; subst. }
  split; [|split; [done|rewrite Hat; by rewrite decide_True]].
  split.
  - by rewrite length_upd_buf.
  - eapply lru_ext; [| |apply Hi]; intros j; rewrite Hat; by case_decide; subst.
  - intros j k b'. rewrite !Hbuf. apply Hi.
  - intros j Hj. rewrite Hat. destruct (decide (i = j)) as [->|]; apply Hi; done.
  - intros b' HP'. destruct (bi_cached _ _ _ _ _ _ Hi b' HP') as (j & Hj & Hjv).
    exists j. rewrite Hbuf, Hat. by case_decide; subst.
  - apply Hi.
  - intros j b' Hj%Hbuf. rewrite Hat. unfold dset. case_decide as E.
    + subst j. intros _. destruct Hj as (_ & _ & <-). rewrite Hbn. by rewrite Z.eqb_refl.
    + intros Hjv. destruct (Z.eqb_spec b' b) as [->|]; [|by apply Hi].
      destruct E. by apply (bi_uniq _ _ _ _ _ _ Hi i j b).
  - intros b' HP'. unfold dset. destruct (Z.eqb_spec b' b) as [->|]; [lia|]. by apply Hi.
  - intros j Hj. rewrite Hat. destruct (decide (i = j)) as [->|]; apply Hi; done.
  - apply Hi.
Qed.

(** [bpin] and [bunpin]: a reference more or less. *)
Lemma ref_upd_ok fs L V P H i b v : bio_inv pid fs L V P H -> is_buf fs i b -> P b <> 0 ->
  0 <= v <= 2 ^ 30 -> (v = 0 -> V b = fs_disk fs b) -> (b ∈ H -> 0 < v) ->
  let fs' := upd_buf i (set_b_refcnt v) fs in
  bio_inv pid fs' L V (pset P b v) H /\ (forall j b', is_buf fs' j b' <-> is_buf fs j b').
Proof.
  intros Hi Hib HP Hv Hcl Hh fs'. pose proof (bi_len _ _ _ _ _ _ Hi) as Hlen.
  destruct (ref_buf fs L V P H i b Hi Hib HP) as (Hval & _).
  assert (forall j, buf_at fs' j = if decide (i = j) then set_b_refcnt v (buf_at fs i) else buf_at fs j) as Hat.
  { intros j. apply buf_at_upd. destruct Hib. lia. }
  apply (bio_inv_ref fs fs' L L V P H H i b v); try done.
  - subst fs'. by rewrite length_upd_buf.
  - eapply lru_ext; [| |apply Hi]; intros j; rewrite Hat; by case_decide; subst.
  - intros j. rewrite Hat. destruct (decide (i = j)) as [->|Hne].
    + rewrite decide_True by done. done.
    + rewrite decide_False by done. done.
  - destruct (decide (b ∈ H)) as [Hin|Hin].
    + split; [by apply (held_lock fs L V P H i b)|auto].
    + apply (unlocked pid fs L V P H i Hi); [apply Hib|]. by destruct Hib as (_ & _ & ->).
Qed.

Lemma bpin_ok h fs L V P H i b : L_bcache ∉ h ->
  bio_inv pid fs L V P H -> is_buf fs i b -> 0 < P b < 2 ^ 30 ->
  exists fs', fsr p pid h (bpin i) fs tt h fs' /\
    bio_inv pid fs' L V (pset P b (P b + 1)) H /\ (forall j b', is_buf fs' j b' <-> is_buf fs j b') /\
    fs_same fs fs' /\ same_disk fs fs'.
Proof.
  intros Hh Hi Hib HP. destruct (ref_buf fs L V P H i b Hi Hib ltac:(lia)) as (_ & Hr & _).
  destruct (ref_upd_ok fs L V P H i b (P b + 1)) as [H1 H2]; try done; try lia.
  exists (upd_buf i (set_b_refcnt (P b + 1)) fs). split_and!; try done.
  unfold bpin. eapply fsr_bind; [by apply fsr_acquire|].
  eapply fsr_bind; [|by apply fsr_release].
  eapply fsr_eq; [apply fsr_mod_buf|]. unfold upd_buf. f_equal. apply list_alter_ext; [|done].
  intros x Hx. unfold buf_at in Hr. rewrite nth_lookup, Hx in Hr. simpl in Hr.
  by rewrite Hr, u32_small by lia.
Qed.

Lemma bunpin_ok fs L V P H i b : bio_inv pid fs L V P H -> is_buf fs i b -> 1 < P b ->
  exists fs', fsr p pid [] (bunpin i) fs tt [] fs' /\
    bio_inv pid fs' L V (pset P b (P b - 1)) H /\ (forall j b', is_buf fs' j b' <-> is_buf fs j b') /\
    fs_same fs fs' /\ same_disk fs fs'.
Proof.
  intros Hi Hib HP. destruct (ref_buf fs L V P H i b Hi Hib ltac:(lia)) as (_ & Hr & _).
  pose proof (bi_range _ _ _ _ _ _ Hi b).
  destruct (ref_upd_ok fs L V P H i b (P b - 1)) as [H1 H2]; try done; try lia.
  exists (upd_buf i (set_b_refcnt (P b - 1)) fs). split_and!; try done.
  unfold bunpin. eapply fsr_bind; [apply fsr_acquire; set_solver|].
  eapply fsr_bind; [|apply fsr_release; set_solver].
  eapply fsr_eq; [apply fsr_mod_buf|]. unfold upd_buf. f_equal. apply list_alter_ext; [|done].
  intros x Hx. unfold buf_at in Hr. rewrite nth_lookup, Hx in Hr. simpl in Hr.
  by rewrite Hr, u32_small by lia.
Qed.

Lemma brelse_ok fs L V P H i b : bio_inv pid fs L V P H -> is_buf fs i b -> b ∈ H ->
  (P b = 1 -> V b = fs_disk fs b) ->
  exists L' fs', fsr p pid [] (brelse i) fs tt [] fs' /\
    bio_inv pid fs' L' V (pset P b (P b - 1)) (H ∖ {[b]}) /\
    (forall j b', is_buf fs' j b' <-> is_buf fs j b') /\
    fs_same fs fs' /\ same_disk fs fs'.
Proof.
  intros Hi Hib Hin Hcl. pose proof (bi_held _ _ _ _ _ _ Hi b Hin) as HP.
  pose proof (bi_range _ _ _ _ _ _ Hi b) as Hrg. pose proof (bi_len _ _ _ _ _ _ Hi) as Hlen.
  destruct (ref_buf fs L V P H i b Hi Hib ltac:(lia)) as (Hv & Hr & _).
  pose proof Hib as (Hlt & Hdev & Hbn).
  set (fs1 := upd_sl (SL_buf i) (SleepLock 0 0) fs).
  set (fs2 := upd_buf i (fun x => set_b_refcnt (u32 (b_refcnt x - 1)) x) fs1).
  set (fs3 := if b_refcnt (buf_at fs2 i) =? 0 then relink i fs2 else fs2).
  assert (forall j, buf_at fs2 j = if decide (i = j)
     then set_b_refcnt (P b - 1) (buf_at fs i) else buf_at fs j) as Hat2.
  { intros j. unfold fs2. rewrite buf_at_upd by (simpl; lia). change (buf_at fs1) with (buf_at fs).
    rewrite Hr, u32_small by lia. done. }
  assert (length (fs_bufs fs2) = S NBUF) as Hlen2 by (unfold fs2; by rewrite length_upd_buf).
  assert (lru fs2 L) as HL2.
  { eapply lru_ext; [| |apply Hi]; intros j; rewrite Hat2; by case_decide; subst. }
  assert (exists L', lru fs3 L' /\ length (fs_bufs fs3) = S NBUF /\
    forall j, same_core (buf_at fs3 j) (buf_at fs2 j)) as (L' & HL3 & Hlen3 & Hc3).
  { unfold fs3. destruct (_ =? 0); [|exists L; split_and!; done].
    destruct (relink_ok fs2 L i Hlen2 HL2 Hlt) as (? & ? & ?). eauto. }
  assert (fs_disk fs3 = fs_disk fs /\ fs_writes fs3 = fs_writes fs /\ fs_log fs3 = fs_log fs /\
    fs_sb fs3 = fs_sb fs /\ fs_itable fs3 = fs_itable fs /\ fs_sl fs3 = fs_sl fs1) as (Hdk & Hwr & Hlog & Hsb & Hit & Hsl).
  { unfold fs3. destruct (_ =? 0); done. }
  exists L', fs3.
  destruct (bio_inv_ref fs fs3 L L' V P H (H ∖ {[b]}) i b (P b - 1)) as [Hinv Hbuf]; try done.
  - lia.
  - intros E. apply Hcl. lia.
  - intros j. destruct (Hc3 j) as (-> & -> & -> & -> & ->). rewrite Hat2.
    destruct (decide (i = j)) as [->|Hne]; [by rewrite decide_True|by rewrite decide_False].
  - intros j Hj. rewrite Hsl. simpl. rewrite decide_False; [done|]. congruence.
  - intros b' Hb'. set_solver.
  - rewrite decide_False by set_solver. rewrite Hsl. simpl. by rewrite decide_True.
  - split_and!; try done.
    + unfold brelse. eapply fsr_bind; [apply fsr_holdingsleep; set_solver|].
      rewrite (held_lock fs L V P H i b Hi Hib Hin). simpl. rewrite Z.eqb_refl. simpl.
      eapply fsr_bind; [apply fsr_releasesleep; [set_solver|apply quiet_nil]|].
      eapply fsr_bind; [apply fsr_acquire; set_solver|].
      eapply fsr_bind; [apply fsr_mod_buf|]. fold fs1. fold fs2.
      eapply fsr_bind; [apply fsr_get_buf|].
      eapply fsr_bind; [|apply fsr_release; set_solver].
      eapply (fsr_when _ _ _ _ _ _ _ _ (relink i fs2)); [|done|done].
      intros _.
      eapply fsr_bind; [apply fsr_mod_buf|].
      eapply fsr_bind; [apply fsr_get_buf|].
      eapply fsr_bind; [apply fsr_mod_buf|].
      eapply fsr_bind; [apply fsr_get_buf|].
      eapply fsr_bind; [apply fsr_mod_buf|].
      eapply fsr_bind; [apply fsr_mod_buf|].
      eapply fsr_bind; [apply fsr_get_buf|].
      eapply fsr_bind; [apply fsr_mod_buf|].
      apply fsr_mod_buf.
    + split; try done. intros j. rewrite Hsl. done.
Qed.

(** ** binit *)

(** One iteration of [binit]. *)
Lemma binit_step fs i L :
  length (fs_bufs fs) = S NBUF -> (i < NBUF)%nat ->
  dll (fun j => b_next (buf_at fs j)) (fun j => b_prev (buf_at fs j)) head L head ->
  NoDup (head :: i :: L) -> (forall j, j ∈ L -> (j < NBUF)%nat) ->
  fsr p pid []
    (h ← get_buf head;
     mod_buf i (set_b_next (b_next h));;
     mod_buf i (set_b_prev head);;
     initsleeplock (SL_buf i);;
     mod_buf (b_next h) (set_b_prev i);;
     mod_buf head (set_b_next i)) fs tt []
    (push_front_fs i (upd_sl (SL_buf i) (SleepLock 0 0) fs)).
Proof.
  intros Hlen Hi Hd Hnd Hlt.
  eapply fsr_eq.
  { eapply fsr_bind; [apply fsr_get_buf|].
    eapply fsr_bind; [apply fsr_mod_buf|].
    eapply fsr_bind; [apply fsr_mod_buf|].
    eapply fsr_bind; [apply fsr_mod|].
    eapply fsr_bind; [apply fsr_mod_buf|]. apply fsr_mod_buf. }
  unfold push_front_fs. change (buf_at (upd_sl (SL_buf i) (SleepLock 0 0) fs)) with (buf_at fs).
  set (n := b_next (buf_at fs head)).
  assert (b_next (buf_at (upd_buf i (set_b_prev head) (upd_buf i (set_b_next n)
    (upd_sl (SL_buf i) (SleepLock 0 0) fs))) head) = n) as ->.
  { rewrite next_upd_prev by (rewrite length_upd_buf; simpl; lia).
    rewrite next_upd_next by (simpl; lia).
    rewrite decide_False by (unfold head; lia). done. }
  by destruct fs.
Qed.

Lemma binit_loop n : forall fs k L,
  (k + n = NBUF)%nat -> length (fs_bufs fs) = S NBUF ->
  dll (fun j => b_next (buf_at fs j)) (fun j => b_prev (buf_at fs j)) head L head ->
  NoDup L -> (forall j, j ∈ L <-> (j < k)%nat) ->
  exists fs' L', fsr p pid [] (kfor (seq k n) (fun b =>
    h ← get_buf head;
    mod_buf b (set_b_next (b_next h));;
    mod_buf b (set_b_prev head);;
    initsleeplock (SL_buf b);;
    mod_buf (b_next h) (set_b_prev b);;
    mod_buf head (set_b_next b))) fs tt [] fs' /\
  length (fs_bufs fs') = S NBUF /\
  dll (fun j => b_next (buf_at fs' j)) (fun j => b_prev (buf_at fs' j)) head L' head /\
  NoDup L' /\ (forall j, j ∈ L' <-> (j < NBUF)%nat) /\
  (forall j, same_core (buf_at fs' j) (buf_at fs j)) /\
  (forall j, fs_sl fs' (SL_buf j) = if decide (k <= j < NBUF)%nat then SleepLock 0 0 else fs_sl fs (SL_buf j)) /\
  fs_same fs fs' /\ same_disk fs fs'.
Proof.
  induction n as [|n IH]; intros fs k L Hkn Hlen Hd Hnd HL.
  { exists fs, L. split; [apply fsr_ret|]. split_and!; try done.
    - intros j. rewrite HL. lia.
    - intros j. by rewrite decide_False by lia. }
  cbn [seq kfor].
  assert (NoDup (head :: k :: L)) as Hnd'.
  { apply NoDup_cons. split; [|apply NoDup_cons; split; [|done]].
    - intros [E|Hx]%elem_of_cons; [|apply HL in Hx]; unfold head in *; lia.
    - intros Hx%HL. lia. }
  assert (forall j, j ∈ L -> (j < NBUF)%nat) as Hlt by (intros j Hj%HL; lia).
  set (fs1 := push_front_fs k (upd_sl (SL_buf k) (SleepLock 0 0) fs)).
  destruct (push_front_ok (upd_sl (SL_buf k) (SleepLock 0 0) fs) k L) as (Hd1 & Hlen1 & Hc1);
    [done|lia|done|done|done|]. fold fs1 in Hd1, Hlen1, Hc1.
  destruct (IH fs1 (S k) (k :: L)) as (fs' & L' & Hrun & Hlen' & Hd' & Hnd2 & HL' & Hc' & Hsl' & Hsame & Hdisk).
  - lia.
  - done.
  - done.
  - by apply NoDup_cons in Hnd' as [_ ?].
  - intros j. rewrite elem_of_cons, HL. lia.
  - exists fs', L'. split.
    + eapply fsr_bind; [|exact Hrun]. apply (binit_step fs k L); try done. lia.
    + split_and!; try done.
      * intros j. eapply core_trans; [apply Hc'|apply Hc1].
      * intros j. rewrite Hsl'. simpl. destruct (decide (SL_buf j = SL_buf k)) as [E|E].
        -- injection E as ->. rewrite decide_False, decide_True by lia. done.
        -- assert (j <> k) by congruence.
           destruct (decide (S k <= j < NBUF)%nat); [by rewrite decide_True by lia|].
           by rewrite decide_False by lia.
      * eapply fs_same_trans; [|exact Hsame]. done.
Qed.

(** After [binit] nothing is cached. *)
Lemma binit_ok fs :
  length (fs_bufs fs) = S NBUF ->
  (forall i, (i < NBUF)%nat -> b_dev (buf_at fs i) <> ROOTDEV /\ b_refcnt (buf_at fs i) = 0) ->
  exists L fs', fsr p pid [] binit fs tt [] fs' /\
    bio_inv pid fs' L (fs_disk fs) (fun _ => 0) ∅ /\ fs_same fs fs' /\ same_disk fs fs'.
Proof.
  intros Hlen H0. unfold binit.
  set (fs1 := upd_buf head (set_b_next head) (upd_buf head (set_b_prev head) fs)).
  assert (head < S NBUF)%nat as Hh by (unfold head; lia).
  destruct (binit_loop NBUF fs1 0 []) as (fs' & L & Hrun & Hlen' & Hd & Hnd & HL & Hc & Hsl & Hsame & Hdisk).
  - done.
  - unfold fs1. by rewrite !length_upd_buf.
  - simpl. unfold fs1. rewrite next_upd_next by (rewrite length_upd_buf; lia).
    rewrite prev_upd_next by (rewrite length_upd_buf; lia). rewrite prev_upd_prev by lia.
    by rewrite !decide_True.
  - apply NoDup_nil_2.
  - intros j. split; [set_solver|lia].
  - exists L, fs'. split.
    { eapply fsr_bind; [apply fsr_mod_buf|]. eapply fsr_bind; [apply fsr_mod_buf|]. exact Hrun. }
    assert (forall i, (i < NBUF)%nat -> b_dev (buf_at fs' i) <> ROOTDEV /\ b_refcnt (buf_at fs' i) = 0) as H1.
    { intros i Hi. destruct (Hc i) as (_ & -> & _ & -> & _).
      assert (same_core (buf_at fs1 i) (buf_at fs i)) as (_ & -> & _ & -> & _).
      { unfold fs1. eapply core_trans; [apply core_upd_next; rewrite length_upd_buf; lia|].
        apply core_upd_prev. lia. }
      by apply H0. }
    assert (forall i b, ~ is_buf fs' i b) as Hno.
    { intros i b (Hi & Hdv & _). by apply (H1 i Hi). }
    destruct Hdisk as [Hdk Hwr].
    split; [|split; [|done]].
    + split; try done.
      * split; [done|]. apply NoDup_Permutation; [done|apply NoDup_seq|].
        intros j. rewrite HL, elem_of_seq. lia.
      * intros i j b Hi. by apply Hno in Hi.
      * intros i Hi. rewrite decide_False by apply (H1 i Hi). apply (H1 i Hi).
      * intros i b Hi. by apply Hno in Hi.
      * intros b _. rewrite Hdk. done.
      * intros i Hi. rewrite decide_False by (intros [? _]; by apply (H1 i Hi)).
        rewrite Hsl, decide_True by lia. done.
    + eapply fs_same_trans; [|exact Hsame]. done.
Qed.
End more_ops.

(** ** Capacity *)

(** If the referenced blocks are among fewer than NBUF, a buffer is free. *)
Lemma free_buf_exists pid fs L V P H (S : list Z) :
  bio_inv pid fs L V P H -> (forall b, P b <> 0 -> b ∈ S) -> (length S < NBUF)%nat -> free_buf fs.
Proof.
  intros Hi HS Hlen.
  destruct (decide (Exists (fun i => b_refcnt (buf_at fs i) = 0) (seq 0 NBUF))) as [He|Hn].
  { apply Exists_exists in He as (i & Hin%elem_of_seq & E). exists i. split; [lia|done]. }
  exfalso. assert (forall i, (i < NBUF)%nat -> exists b, is_buf fs i b /\ b ∈ S) as Hb.
  { intros i Hlt. assert (b_refcnt (buf_at fs i) <> 0) as Hr.
    { intros E. apply Hn, Exists_exists. exists i. split; [apply elem_of_seq; lia|done]. }
    rewrite (bi_ref _ _ _ _ _ _ Hi i Hlt) in Hr. case_decide as Hd; [|done].
    exists (b_blockno (buf_at fs i)). split; [done|by apply HS]. }
  assert ((fun i => b_blockno (buf_at fs i)) <$> seq 0 NBUF ⊆+ S) as Hsub.
  { apply NoDup_submseteq.
    - apply NoDup_fmap_2_strong; [|apply NoDup_seq].
      intros i j Hx%elem_of_seq Hy%elem_of_seq E.
      destruct (Hb i ltac:(lia)) as (b & Hib & _), (Hb j ltac:(lia)) as (b' & Hjb & _).
      apply (bi_uniq _ _ _ _ _ _ Hi i j b); [done|]. destruct Hib as (_ & _ & <-).
      destruct Hjb as (? & ? & ?). done.
    - intros b (i & -> & Hin%elem_of_seq)%list_elem_of_fmap.
      destruct (Hb i ltac:(lia)) as (b & (_ & _ & ->) & ?). done. }
  apply submseteq_length in Hsub. rewrite length_fmap, length_seq in Hsub. lia.
Qed.

(** ** Theorems *)

(** [bread] of a block that is not locked by the caller, while a buffer
    is free or the block is referenced, returns a locked buffer with the
    current content of the block (its cached content if it is cached, the
    disk's otherwise); no block is cached twice, the content of every block
    and every referenced buffer are kept, and the disk is not written. *)
Theorem bread_correct (D : Disk) p pid fs L V P H b : DiskOk D ->
  bio_inv pid fs L V P H -> b ∉ H -> P b < 2 ^ 30 -> P b <> 0 \/ free_buf fs ->
  exists i fs', fsr p pid [] (bread ROOTDEV b) fs i [] fs' /\
    bio_inv pid fs' L V (pset P b (P b + 1)) ({[b]} ∪ H) /\ is_buf fs' i b /\
    b_data (buf_at fs' i) = V b /\
    (forall j b', P b' <> 0 -> is_buf fs j b' -> is_buf fs' j b') /\
    fs_same fs fs' /\ same_disk fs fs'.
Proof. intros HD. by apply bread_ok. Qed.

(** [brelse] of a locked buffer releases it: one reference less, the
    lock free, the buffer first in the LRU list when no reference is left,
    and no content lost as long as the last reference to a block is dropped
    only when the disk has its content. *)
Theorem brelse_correct p pid fs L V P H i b :
  bio_inv pid fs L V P H -> is_buf fs i b -> b ∈ H -> (P b = 1 -> V b = fs_disk fs b) ->
  exists L' fs', fsr p pid [] (brelse i) fs tt [] fs' /\
    bio_inv pid fs' L' V (pset P b (P b - 1)) (H ∖ {[b]}) /\
    (forall j b', is_buf fs' j b' <-> is_buf fs j b') /\
    fs_same fs fs' /\ same_disk fs fs'.
Proof. apply brelse_ok. Qed.

Lemma boot_cache pid : exists L fs, fsr 0 pid [] binit fsstate_boot tt [] fs /\
  bio_inv pid fs L (fs_disk fsstate_boot) (fun _ => 0) ∅.
Proof.
  destruct (binit_ok 0 pid fsstate_boot) as (L & fs & Hrun & Hinv & _).
  - reflexivity.
  - intros i Hi. unfold buf_at, fsstate_boot. cbn [fs_bufs]. rewrite nth_lookup, lookup_replicate_2 by lia.
    split; [discriminate|reflexivity].
  - exists L, fs. done.
Qed.

(** After [binit], [bread] of block 3 fetches it from the disk. *)
Lemma bread_correct_witness : exists fs i fs',
  fsr 0 1 [] (bread (D := sync_disk) ROOTDEV 3) fs i [] fs' /\
  b_data (buf_at fs' i) = replicate (Z.to_nat BSIZE) 0.
Proof.
  destruct (boot_cache 1) as (L & fs & _ & Hinv).
  destruct (bread_correct sync_disk 0 1 fs L (fs_disk fsstate_boot) (fun _ => 0) ∅ 3)
    as (i & fs' & Hrun & _ & _ & Hd & _).
  - exact sync_disk_ok.
  - exact Hinv.
  - apply not_elem_of_empty.
  - reflexivity.
  - right. apply (free_buf_exists 1 fs L (fs_disk fsstate_boot) (fun _ => 0) ∅ []); [exact Hinv| |unfold NBUF; simpl; lia].
    intros b Hb. destruct (Hb eq_refl).
  - exists fs, i, fs'. split; [exact Hrun | exact Hd].
Defined.

(** [bread] and [brelse] of the same block. *)
Lemma brelse_correct_witness : exists fs i fs',
  fsr 0 1 [] (brelse i) fs tt [] fs' /\ fs_disk fs' = fs_disk fs.
Proof.
  destruct (boot_cache 1) as (L & fs & _ & Hinv).
  destruct (bread_ok 0 1 (D := sync_disk) fs L (fs_disk fsstate_boot) (fun _ => 0) ∅ 3)
    as (i & fs' & _ & Hinv' & Hib & _ & _ & _ & Hd & _).
  - exact Hinv.
  - apply not_elem_of_empty.
  - reflexivity.
  - right. apply (free_buf_exists 1 fs L (fs_disk fsstate_boot) (fun _ => 0) ∅ []); [exact Hinv| |unfold NBUF; simpl; lia].
    intros b Hb. destruct (Hb eq_refl).
  - destruct (brelse_correct 0 1 fs' L (fs_disk fsstate_boot)
      (pset (fun _ => 0) 3 (0 + 1)) ({[3]} ∪ ∅) i 3) as (L' & fs'' & Hrun & _ & _ & _ & Hdisk & _).
    + exact Hinv'.
    + exact Hib.
    + apply elem_of_union_l, elem_of_singleton. reflexivity.
    + intros _. rewrite Hd. apply (bi_clean _ _ _ _ _ _ Hinv 3). reflexivity.
    + exists fs', i, fs''. split; [exact Hrun | exact Hdisk].
Defined.
