(* ===== verification/Log.v ===== *)
(** * Log: the file system's redo log

    Models kernel/log.c.  A block is a list of BSIZE bytes; the header
    block is read and written through the layout of [struct logheader]:
    [n] in bytes 0..3 and [block[i]] in bytes 4+4i..7+4i. *)

From S2P Require Import Prelude.
From S2P Require Import State.
From S2P Require Import Kernel.
From S2P Require Import Sched.
From S2P Require Import Bio.

(** ** 32-bit words in a block *)

Definition ld32 (l : list Z) (o : Z) : Z :=
  aget 0 l o + 256 * (aget 0 l (o + 1) + 256 * (aget 0 l (o + 2) + 256 * aget 0 l (o + 3))).
Definition st32 (l : list Z) (o v : Z) : list Z :=
  let l := aset l o (v mod 256) in
  let l := aset l (o + 1) (v / 256 mod 256) in
  let l := aset l (o + 2) (v / 65536 mod 256) in
  aset l (o + 3) (v / 16777216 mod 256).

(** [lh->n], [lh->block[i]] of a header block, and assignments to them. *)
Definition hb_n (l : list Z) : Z := i32 (ld32 l 0).
Definition hb_block (l : list Z) (i : nat) : Z := i32 (ld32 l (4 + 4 * Z.of_nat i)).
Definition set_hb_n (v : Z) (l : list Z) : list Z := st32 l 0 v.
Definition set_hb_block (i : nat) (v : Z) (l : list Z) : list Z := st32 l (4 + 4 * Z.of_nat i) v.

Definition get_log : K log := kget (fun k => fs_log (k_fs k)).
Definition mod_log (f : log -> log) : K unit := mod_fs (fun fs => set_fs_log (f (fs_log fs)) fs).

Section log.
Context `{D : Disk}.

(** [for (tail = 0; tail < log.lh.n; tail++)] *)
Definition for_log (body : nat -> K unit) : K unit :=
  lg ← get_log;
  kfor (seq 0 (Z.to_nat (lh_n lg))) body.

Definition install_trans (recovering : Z) : K unit :=
  for_log (fun tail =>
    lg ← get_log;
    lbuf ← bread (log_dev lg) (log_start lg + Z.of_nat tail + 1);
    dbuf ← bread (log_dev lg) (aget 0 (lh_block lg) (Z.of_nat tail));
    l ← get_buf lbuf;
    mod_buf dbuf (set_b_data (b_data l));;
    bwrite dbuf;;
    kwhen (recovering =? 0) (bunpin dbuf);;
    brelse lbuf;;
    brelse dbuf).

Definition read_head : K unit :=
  lg ← get_log;
  buf ← bread (log_dev lg) (log_start lg);
  lh ← get_buf buf;
  mod_log (set_lh_n (hb_n (b_data lh)));;
  for_log (fun i =>
    lh ← get_buf buf;
    mod_log (fun lg => set_lh_block (aset (lh_block lg) (Z.of_nat i) (hb_block (b_data lh) i)) lg));;
  brelse buf.

Definition write_head : K unit :=
  lg ← get_log;
  buf ← bread (log_dev lg) (log_start lg);
  mod_buf buf (fun hb => set_b_data (set_hb_n (lh_n lg) (b_data hb)) hb);;
  for_log (fun i =>
    mod_buf buf (fun hb =>
      set_b_data (set_hb_block i (aget 0 (lh_block lg) (Z.of_nat i)) (b_data hb)) hb));;
  bwrite buf;;
  brelse buf.

Definition recover_from_log : K unit :=
  read_head;;
  install_trans 1;;
  mod_log (set_lh_n 0);;
  write_head.

(** [sizeof(struct logheader)] is 4 + 4 * LOGSIZE. *)
Definition initlog (dev : Z) : K unit :=
  if BSIZE <=? 4 + 4 * LOGSIZE then panic "initlog: too big logheader" else
  sb ← kget (fun k => fs_sb (k_fs k));
  mod_log (set_log_start (sb_logstart sb));;
  mod_log (set_log_size (sb_nlog sb));;
  mod_log (set_log_dev dev);;
  recover_from_log.

(** The waiting loop of [begin_op]; every sleep uses one environment action. *)
Fixpoint begin_op_loop (fuel : nat) : K unit :=
  lg ← get_log;
  if negb (log_committing lg =? 0) || (LOGSIZE <? lh_n lg + (log_outstanding lg + 1) * MAXOPBLOCKS)
  then match fuel with
       | O => hang
       | S f => sleep Ch_log L_log;; begin_op_loop f
       end
  else
    mod_log (fun lg => set_log_outstanding (i32 (log_outstanding lg + 1)) lg);;
    release L_log.
Definition begin_op : K unit :=
  acquire L_log;;
  with_fuel begin_op_loop.

Definition write_log : K unit :=
  for_log (fun tail =>
    lg ← get_log;
    to ← bread (log_dev lg) (log_start lg + Z.of_nat tail + 1);
    from ← bread (log_dev lg) (aget 0 (lh_block lg) (Z.of_nat tail));
    f ← get_buf from;
    mod_buf to (set_b_data (b_data f));;
    bwrite to;;
    brelse from;;
    brelse to).

Definition commit : K unit :=
  lg ← get_log;
  kwhen (0 <? lh_n lg)
    (write_log;;
     write_head;;
     install_trans 0;;
     mod_log (set_lh_n 0);;
     write_head).

Definition end_op : K unit :=
  acquire L_log;;
  mod_log (fun lg => set_log_outstanding (i32 (log_outstanding lg - 1)) lg);;
  lg ← get_log;
  if negb (log_committing lg =? 0) then panic "log.committing" else
  let do_commit := log_outstanding lg =? 0 in
  (if do_commit then mod_log (set_log_committing 1) else wakeup Ch_log);;
  release L_log;;
  kwhen do_commit
    (commit;;
     acquire L_log;;
     mod_log (set_log_committing 0);;
     wakeup Ch_log;;
     release L_log).

(** The slot of block [bno] in the header: where it is, or the first free one. *)
Fixpoint log_slot (l : list Z) (n : nat) (bno : Z) : nat :=
  match n, l with
  | S n', x :: l' => if x =? bno then O else S (log_slot l' n' bno)
  | _, _ => O
  end.

Definition log_write (b : nat) : K unit :=
  acquire L_log;;
  lg ← get_log;
  if (LOGSIZE <=? lh_n lg) || (log_size lg - 1 <=? lh_n lg) then panic "too big a transaction" else
  if log_outstanding lg <? 1 then panic "log_write outside of trans" else
  x ← get_buf b;
  let i := log_slot (lh_block lg) (Z.to_nat (lh_n lg)) (b_blockno x) in
  mod_log (fun lg => set_lh_block (aset (lh_block lg) (Z.of_nat i) (b_blockno x)) lg);;
  kwhen (Z.of_nat i =? lh_n lg)
    (bpin b;;
     mod_log (fun lg => set_lh_n (i32 (lh_n lg + 1)) lg));;
  release L_log.
End log.
