(* ===== verification/LogProps.v ===== *)
(** * LogProps: commit and crash recovery

    Specifications of the operations of log.c over the abstract buffer
    cache of BioProps, and the crash-safety of a transaction: whatever
    prefix of the disk writes of [commit] reaches the disk, recovery
    restores either all or none of the transaction's blocks. *)

From S2P Require Import Prelude.
From S2P Require Import State.
From S2P Require Import Kernel.
From S2P Require Import Sched.
From S2P Require Import SchedProps.
From S2P Require Import Bio.
From S2P Require Import FsRun.
From S2P Require Import BioProps.
From S2P Require Import Log.

(** ** Words *)

Section words.
Context (l : list Z) (o v : Z).
Hypothesis Ho : 0 <= o /\ o + 4 <= Z.of_nat (length l).

Lemma length_st32 : length (st32 l o v) = length l.
Proof. unfold st32. by rewrite !length_aset. Qed.

Lemma ld32_st32 : 0 <= v < 2 ^ 32 -> ld32 (st32 l o v) o = v.
Proof.
  intros Hv. unfold ld32, st32.
  rewrite !aget_aset by (rewrite ?length_aset; lia).
  repeat (case_decide; try lia). zlia.
Qed.

Lemma ld32_st32_other o' : 0 <= o' -> o' + 4 <= o \/ o + 4 <= o' -> ld32 (st32 l o v) o' = ld32 l o'.
Proof.
  intros Ho' Hd. unfold ld32, st32.
  rewrite !aget_aset by (rewrite ?length_aset; lia).
  repeat (case_decide; try lia).
Qed.
End words.

(** ** Header blocks *)

(** Slots [k], [k+1], ... of a header set to [B], and a whole header. *)
Fixpoint set_blocks (k : nat) (B : list Z) (l : list Z) : list Z :=
  match B with [] => l | b :: B' => set_blocks (S k) B' (set_hb_block k b l) end.
Definition header (B : list Z) (l : list Z) : list Z :=
  set_blocks 0 B (set_hb_n (Z.of_nat (length B)) l).

Lemma length_set_blocks B : forall k l, length (set_blocks k B l) = length l.
Proof. induction B as [|b B IH]; intros k l; simpl; [done|]. rewrite IH. apply length_st32. Qed.

Lemma set_blocks_low B : forall k l o, 0 <= o -> o + 4 <= 4 + 4 * Z.of_nat k ->
  4 + 4 * Z.of_nat (k + length B) <= Z.of_nat (length l) ->
  ld32 (set_blocks k B l) o = ld32 l o.
Proof.
  induction B as [|b B IH]; intros k l o Ho Hk Hl; simpl in *; [done|].
  rewrite IH by (unfold set_hb_block; rewrite ?length_st32; lia). unfold set_hb_block.
  rewrite ld32_st32_other by lia. done.
Qed.

Lemma set_blocks_get B : forall k l i b, B !! i = Some b -> 0 <= b < 2 ^ 31 ->
  4 + 4 * Z.of_nat (k + length B) <= Z.of_nat (length l) ->
  hb_block (set_blocks k B l) (k + i) = b.
Proof.
  induction B as [|b0 B IH]; intros k l i b Hi Hb Hl; [done|]. simpl in Hl. cbn [set_blocks].
  destruct i as [|i]; simpl in Hi.
  - simplify_eq. unfold hb_block. rewrite set_blocks_low by (unfold set_hb_block; rewrite ?length_st32; lia).
    unfold set_hb_block. rewrite Nat.add_0_r, ld32_st32 by lia. apply i32_small. lia.
  - replace (k + S i)%nat with (S k + i)%nat by lia. apply IH; [done|done|].
    unfold set_hb_block. rewrite length_st32. lia.
Qed.

Lemma header_n B l : 4 + 4 * Z.of_nat (length B) <= Z.of_nat (length l) -> (length B <= 30)%nat ->
  hb_n (header B l) = Z.of_nat (length B).
Proof.
  intros Hl HB. unfold hb_n, header. rewrite set_blocks_low by (unfold set_hb_n; rewrite ?length_st32; lia).
  unfold set_hb_n. rewrite ld32_st32 by lia. apply i32_small. lia.
Qed.

Lemma header_block B l i b : B !! i = Some b -> 0 <= b < 2 ^ 31 ->
  4 + 4 * Z.of_nat (length B) <= Z.of_nat (length l) -> hb_block (header B l) i = b.
Proof.
  intros Hi Hb Hl. unfold header.
  apply (set_blocks_get B 0 _ i b Hi Hb). unfold set_hb_n. rewrite length_st32. done.
Qed.

Lemma length_header B l : length (header B l) = length l.
Proof. unfold header, set_hb_n. by rewrite length_set_blocks, length_st32. Qed.

(** ** The in-memory header *)

Definition lh_is (lg : log) (B : list Z) : Prop :=
  lh_n lg = Z.of_nat (length B) /\ take (length B) (lh_block lg) = B.

Lemma lh_is_get lg B i b : lh_is lg B -> B !! i = Some b -> aget 0 (lh_block lg) (Z.of_nat i) = b.
Proof.
  intros [_ HB] Hi. unfold aget. rewrite Nat2Z.id. apply nth_lookup_Some.
  assert (take (length B) (lh_block lg) !! i = Some b) as Ht by (by rewrite HB).
  by apply lookup_take_Some in Ht as [? _].
Qed.

Lemma fsr_for_log p pid h fs B body h' fs' : lh_is (fs_log fs) B ->
  fsr p pid h (kfor (seq 0 (length B)) body) fs tt h' fs' -> fsr p pid h (for_log body) fs tt h' fs'.
Proof.
  intros [Hn _] Hr. unfold for_log. eapply fsr_bind; [apply (fsr_get p pid h fs_log)|].
  rewrite Hn, Nat2Z.id. done.
Qed.

(** ** The abstract cache up to extensional equality *)

Lemma bio_inv_ext pid fs L V V' P P' H H' :
  (forall b, V b = V' b) -> (forall b, P b = P' b) -> (forall b, b ∈ H <-> b ∈ H') ->
  bio_inv pid fs L V P H -> bio_inv pid fs L V' P' H'.
Proof.
  intros HV HP HH Hi. assert (H' = H) as -> by (apply set_eq; intros b; by rewrite HH).
  split; try apply Hi.
  - intros i Hlt. rewrite (bi_ref _ _ _ _ _ _ Hi i Hlt). by case_decide; rewrite ?HP.
  - intros b. rewrite <- HP. apply Hi.
  - intros b. rewrite <- HP. apply Hi.
  - intros i b Hib. rewrite <- HV. by apply Hi.
  - intros b. rewrite <- HP, <- HV. apply Hi.
  - intros b. rewrite <- HP. apply Hi.
Qed.

Definition apply_writes (d : Z -> list Z) (ws : list (Z * list Z)) : Z -> list Z :=
  fold_left (fun d w => dset d (fst w) (snd w)) ws d.

Lemma dset_eq d b v : dset d b v b = v.
Proof. unfold dset. by rewrite Z.eqb_refl. Qed.
Lemma dset_ne d b v b' : b' <> b -> dset d b v b' = d b'.
Proof. intros. unfold dset. by destruct (Z.eqb_spec b' b). Qed.

(** The blocks in use are among few enough for another [bread]. *)
Definition room (P : Z -> Z) (k : nat) : Prop :=
  exists S : list Z, (forall b, P b <> 0 -> b ∈ S) /\ (length S + k <= NBUF)%nat.

Lemma room_free pid fs L V P H : bio_inv pid fs L V P H -> room P 1 -> free_buf fs.
Proof. intros Hi (S & HS & Hl). apply (free_buf_exists pid fs L V P H S); [done|done|lia]. Qed.

Lemma room_pset P k b v : room P (S k) -> room (pset P b v) k.
Proof.
  intros (S & HS & Hl). exists (b :: S). split; [|simpl; lia].
  intros b' Hb'. unfold pset in Hb'. case_decide; [subst; set_solver|]. apply HS in Hb'. set_solver.
Qed.

(** ** Sequences of disk writes *)

(** Blocks outside the header block and the log blocks. *)
Definition outside (start b : Z) : Prop := b < start \/ start + 1 + LOGSIZE <= b.

(** The writes of [write_log] and of [install_trans] from index [k] on. *)
Fixpoint log_ws (V : Z -> list Z) (start : Z) (k : nat) (Bs : list Z) : list (Z * list Z) :=
  match Bs with
  | [] => []
  | b :: Bs' => (start + Z.of_nat k + 1, V b) :: log_ws V start (S k) Bs'
  end.
Fixpoint home_ws (V : Z -> list Z) (start : Z) (k : nat) (Bs : list Z) : list (Z * list Z) :=
  match Bs with
  | [] => []
  | b :: Bs' => (b, V (start + Z.of_nat k + 1)) :: home_ws V start (S k) Bs'
  end.

Lemma log_ws_ext V V' start Bs : forall k, (forall b, b ∈ Bs -> V' b = V b) ->
  log_ws V' start k Bs = log_ws V start k Bs.
Proof.
  induction Bs as [|b Bs IH]; intros k H; simpl; [done|].
  rewrite (H b) by set_solver. f_equal. apply IH. set_solver.
Qed.

Lemma home_ws_ext V V' start Bs : forall k,
  (forall i, (k <= i < k + length Bs)%nat -> V' (start + Z.of_nat i + 1) = V (start + Z.of_nat i + 1)) ->
  home_ws V' start k Bs = home_ws V start k Bs.
Proof.
  induction Bs as [|b Bs IH]; intros k H; simpl in *; [done|].
  rewrite (H k) by lia. f_equal. apply IH. intros i Hi. apply H. lia.
Qed.

(** The disk writes of a commit of blocks [B] with contents [V], where [h]
    is the header block before it. *)
Definition commit_ws (V : Z -> list Z) (start : Z) (B : list Z) (h : list Z) : list (Z * list Z) :=
  log_ws V start 0 B ++ [(start, header B h)] ++ ((fun b => (b, V b)) <$> B)
  ++ [(start, header [] (header B h))].

Lemma apply_log_ws_other V d start Bs : forall k b, 
  (forall i, (k <= i < k + length Bs)%nat -> b <> start + Z.of_nat i + 1) ->
  apply_writes d (log_ws V start k Bs) b = d b.
Proof.
  revert d. induction Bs as [|b0 Bs IH]; intros d k b H; simpl in *; [done|].
  rewrite IH by (intros i Hi; apply H; lia). apply dset_ne. apply H. lia.
Qed.

Lemma apply_log_ws_get V Bs start : forall d k i b, Bs !! i = Some b ->
  apply_writes d (log_ws V start k Bs) (start + Z.of_nat (k + i) + 1) = V b.
Proof.
  induction Bs as [|b0 Bs IH]; intros d k i b Hi; [done|]. cbn [log_ws].
  change (apply_writes (dset d (start + Z.of_nat k + 1) (V b0)) (log_ws V start (S k) Bs)
    (start + Z.of_nat (k + i) + 1) = V b).
  destruct i as [|i]; simpl in Hi.
  - simplify_eq. rewrite apply_log_ws_other by (intros; lia). rewrite Nat.add_0_r. apply dset_eq.
  - replace (k + S i)%nat with (S k + i)%nat by lia. by apply IH.
Qed.

(** Once the log blocks hold [V], the writes to the home blocks are those
    of [V]. *)
Lemma home_ws_eq V' V start Bs : forall k,
  (forall i b, Bs !! i = Some b -> V' (start + Z.of_nat (k + i) + 1) = V b) ->
  home_ws V' start k Bs = (fun b => (b, V b)) <$> Bs.
Proof.
  induction Bs as [|b Bs IH]; intros k H; [done|]. simpl.
  rewrite <- (Nat.add_0_r k) at 1. rewrite (H 0%nat b) by done. f_equal. apply IH.
  intros i b' Hi. replace (S k + i)%nat with (k + S i)%nat by lia. by apply H.
Qed.

(** The writes of a recovery that finds the header [h] listing [B]. *)
Definition recover_ws (d : Z -> list Z) (start : Z) (B : list Z) : list (Z * list Z) :=
  home_ws d start 0 B ++ [(start, header [] (d start))].

Lemma apply_home_ws_other V d start Bs : forall k b, b ∉ Bs -> apply_writes d (home_ws V start k Bs) b = d b.
Proof.
  revert d. induction Bs as [|b0 Bs IH]; intros d k b H; simpl; [done|].
  rewrite IH by set_solver. apply dset_ne. set_solver.
Qed.

Lemma apply_home_ws_get V start Bs : forall d k i b, NoDup Bs -> Bs !! i = Some b ->
  apply_writes d (home_ws V start k Bs) b = V (start + Z.of_nat (k + i) + 1).
Proof.
  induction Bs as [|b0 Bs IH]; intros d k i b Hnd Hi; [done|].
  apply NoDup_cons in Hnd as [Hb0 Hnd]. cbn [home_ws].
  change (apply_writes (dset d b0 (V (start + Z.of_nat k + 1))) (home_ws V start (S k) Bs) b
    = V (start + Z.of_nat (k + i) + 1)).
  destruct i as [|i]; simpl in Hi.
  - simplify_eq. rewrite apply_home_ws_other by done. rewrite Nat.add_0_r. apply dset_eq.
  - replace (k + S i)%nat with (S k + i)%nat by lia. by apply IH.
Qed.

(** No references to the blocks [Bs] any more. *)
Definition unpinned (P : Z -> Z) (Bs : list Z) : Z -> Z := fold_left (fun P b => pset P b 0) Bs P.

Lemma unpinned_spec Bs : forall P b, unpinned P Bs b = if decide (b ∈ Bs) then 0 else P b.
Proof.
  unfold unpinned. induction Bs as [|b0 Bs IH]; intros P b; cbn [fold_left].
  - case_decide as E; [by apply elem_of_nil in E|done].
  - rewrite IH. unfold pset. repeat case_decide; set_solver.
Qed.

(** Transitivity of [fs_same] along the hypotheses. *)
Ltac same_chain := first [eassumption | eapply fs_same_trans; [eassumption|same_chain]].

Section steps.
Context (p : nat) (pid : Z) `{D : Disk} `{!DiskOk D}.

(** Outcome of an operation of the log: the cache has content [V'] and
    references [P'], the disk has seen the writes [ws]. *)
Definition outcome (fs fs' : fsstate) (L' : list nat) (V' : Z -> list Z) (P' : Z -> Z)
    (ws : list (Z * list Z)) : Prop :=
  bio_inv pid fs' L' V' P' ∅ /\ fs_same fs fs' /\
  fs_disk fs' = apply_writes (fs_disk fs) ws /\ fs_writes fs' = rev ws ++ fs_writes fs.

Lemma outcome_trans fs fs1 fs2 L1 L2 V1 V2 P1 P2 ws1 ws2 :
  outcome fs fs1 L1 V1 P1 ws1 -> outcome fs1 fs2 L2 V2 P2 ws2 -> outcome fs fs2 L2 V2 P2 (ws1 ++ ws2).
Proof.
  intros (_ & Hs1 & Hd1 & Hw1) (H2 & Hs2 & Hd2 & Hw2). split_and!; [done|by eapply fs_same_trans|..].
  - rewrite Hd2, Hd1. unfold apply_writes. by rewrite fold_left_app.
  - rewrite Hw2, Hw1, rev_app_distr. by rewrite app_assoc.
Qed.

(** Copying block [b] to log block [a]. *)
Lemma write_log_step fs L V P a b :
  bio_inv pid fs L V P ∅ -> a <> b -> P a = 0 -> 0 < P b < 100 -> room P 1 ->
  exists L' fs', fsr p pid []
    (to ← bread ROOTDEV a;
     from ← bread ROOTDEV b;
     f ← get_buf from;
     mod_buf to (set_b_data (b_data f));;
     bwrite to;;
     brelse from;;
     brelse to) fs tt [] fs' /\
    outcome fs fs' L' (dset V a (V b)) P [(a, V b)].
Proof.
  intros Hi Hab Ha Hb Hroom.
  destruct (bread_ok p pid fs L V P ∅ a Hi) as (i & fs1 & R1 & I1 & B1 & D1 & S1 & F1 & K1);
    [set_solver|lia|right; by eapply room_free|].
  rewrite Ha in I1. change (0 + 1) with 1 in I1.
  destruct (bread_ok p pid fs1 L V (pset P a 1) ({[a]} ∪ ∅) b I1) as (j & fs2 & R2 & I2 & B2 & D2 & S2 & F2 & K2).
  { set_solver. }
  { unfold pset. rewrite decide_False by done. lia. }
  { left. unfold pset. rewrite decide_False by done. lia. }
  assert (is_buf fs2 i a) as B1'.
  { apply S2; [|done]. unfold pset. by rewrite decide_True. }
  set (P2 := pset (pset P a 1) b (pset P a 1 b + 1)) in *.
  set (H2 := {[b]} ∪ ({[a]} ∪ (∅ : gset Z))) in *.
  destruct (set_data_ok pid fs2 L V P2 H2 i a (V b) I2 B1') as (I3 & S3 & D3); [set_solver|].
  set (fs3 := upd_buf i (set_b_data (V b)) fs2) in *.
  destruct (bwrite_ok p pid fs3 L (dset V a (V b)) P2 H2 i a I3) as (fs4 & R4 & I4 & S4 & F4 & W4 & T4);
    [by apply S3|set_solver|].
  rewrite dset_eq in W4, T4.
  assert (forall x y, is_buf fs4 x y <-> is_buf fs2 x y) as S4'.
  { intros x y. unfold is_buf. rewrite S4. apply S3. }
  destruct (brelse_ok p pid fs4 L (dset V a (V b)) P2 H2 j b I4) as (L5 & fs5 & R5 & I5 & S5 & F5 & K5);
    [by apply S4'|set_solver| |].
  { unfold P2, pset. rewrite decide_True by done. rewrite decide_False by done. lia. }
  destruct (brelse_ok p pid fs5 L5 (dset V a (V b)) (pset P2 b (P2 b - 1)) (H2 ∖ {[b]}) i a I5)
    as (L6 & fs6 & R6 & I6 & S6 & F6 & K6); [by apply S5, S4'|set_solver| |].
  { intros _. destruct K5 as [-> _]. rewrite W4, !dset_eq. done. }
  exists L6, fs6. split.
  - eapply fsr_bind; [exact R1|]. eapply fsr_bind; [exact R2|].
    eapply fsr_bind; [apply fsr_get_buf|]. rewrite D2.
    eapply fsr_bind; [apply fsr_mod_buf|]. fold fs3.
    eapply fsr_bind; [exact R4|]. eapply fsr_bind; [exact R5|]. exact R6.
  - assert (fs_same fs2 fs3) as F3 by done.
    destruct K1 as [K1 T1], K2 as [K2 T2], K5 as [K5 T5], K6 as [K6 T6].
    split_and!.
    + eapply bio_inv_ext; [done| | |exact I6].
      * intros b'. unfold P2, pset. repeat case_decide; subst; lia.
      * intros b'. unfold H2. set_solver.
    + same_chain.
    + rewrite K6, K5, W4. change (fs_disk fs3) with (fs_disk fs2). by rewrite K2, K1.
    + rewrite T6, T5, T4. change (fs_writes fs3) with (fs_writes fs2). by rewrite T2, T1.
Qed.

(** Copying log block [a] to its home block [b]; [r] tells whether this is
    a recovery, in which case [b] is not pinned. *)
Lemma install_step fs L V P a b r :
  bio_inv pid fs L V P ∅ -> a <> b -> P a = 0 -> P b = (if r =? 0 then 1 else 0) ->
  room P (if r =? 0 then 1 else 2) ->
  exists L' fs', fsr p pid []
    (lbuf ← bread ROOTDEV a;
     dbuf ← bread ROOTDEV b;
     l ← get_buf lbuf;
     mod_buf dbuf (set_b_data (b_data l));;
     bwrite dbuf;;
     kwhen (r =? 0) (bunpin dbuf);;
     brelse lbuf;;
     brelse dbuf) fs tt [] fs' /\
    outcome fs fs' L' (dset V b (V a)) (pset P b 0) [(b, V a)].
Proof.
  intros Hi Hab Ha Hb Hroom.
  assert (room P 1) as Hroom1
    by (destruct Hroom as (S & ? & ?); exists S; split; [done|]; destruct (r =? 0); lia).
  assert (0 <= P b <= 1) as HPb by (rewrite Hb; destruct (r =? 0); lia).
  destruct (bread_ok p pid fs L V P ∅ a Hi) as (i & fs1 & R1 & I1 & B1 & D1 & S1 & F1 & K1);
    [set_solver|lia|right; by eapply room_free|].
  rewrite Ha in I1. change (0 + 1) with 1 in I1.
  destruct (bread_ok p pid fs1 L V (pset P a 1) ({[a]} ∪ ∅) b I1) as (j & fs2 & R2 & I2 & B2 & D2 & S2 & F2 & K2).
  { set_solver. }
  { unfold pset. rewrite decide_False by done. lia. }
  { destruct (r =? 0).
    - left. unfold pset. rewrite decide_False by done. lia.
    - right. eapply room_free; [exact I1|]. by apply room_pset. }
  assert (is_buf fs2 i a) as B1'.
  { apply S2; [|done]. unfold pset. by rewrite decide_True. }
  assert (pset P a 1 b + 1 = P b + 1) as EPb by (unfold pset; by rewrite decide_False).
  rewrite EPb in I2.
  set (P2 := pset (pset P a 1) b (P b + 1)) in *.
  set (H2 := {[b]} ∪ ({[a]} ∪ (∅ : gset Z))) in *.
  assert (b_data (buf_at fs2 i) = V a) as D1'.
  { apply (bi_data _ _ _ _ _ _ I2 i a B1').
    destruct (ref_buf pid fs2 L V P2 H2 i a I2 B1') as [? _]; [|done].
    unfold P2, pset. rewrite decide_False, decide_True by done. lia. }
  destruct (set_data_ok pid fs2 L V P2 H2 j b (V a) I2 B2) as (I3 & S3 & D3); [set_solver|].
  set (fs3 := upd_buf j (set_b_data (V a)) fs2) in *.
  destruct (bwrite_ok p pid fs3 L (dset V b (V a)) P2 H2 j b I3) as (fs4 & R4 & I4 & S4 & F4 & W4 & T4);
    [by apply S3|set_solver|].
  rewrite dset_eq in W4, T4.
  assert (forall x y, is_buf fs4 x y <-> is_buf fs2 x y) as S4'.
  { intros x y. unfold is_buf. rewrite S4. apply S3. }
  assert (P2 b = P b + 1) as EP2 by (unfold P2, pset; by rewrite decide_True).
  assert (exists fs5, fsr p pid [] (kwhen (r =? 0) (bunpin j)) fs4 tt [] fs5 /\
    bio_inv pid fs5 L (dset V b (V a)) (pset P2 b 1) H2 /\
    (forall x y, is_buf fs5 x y <-> is_buf fs4 x y) /\ fs_same fs4 fs5 /\ same_disk fs4 fs5)
    as (fs5 & R5 & I5 & S5 & F5 & K5).
  { destruct (r =? 0) eqn:Er.
    - destruct (bunpin_ok p pid fs4 L (dset V b (V a)) P2 H2 j b I4) as (fs5 & R5 & I5 & S5 & F5 & K5);
        [by apply S4'|lia|].
      exists fs5. split_and!; try done. rewrite EP2, Hb in I5. exact I5.
    - exists fs4. split; [apply fsr_ret|]. split_and!; try done.
      eapply bio_inv_ext; [done| |done|exact I4]. intros b'. unfold pset.
      case_decide; [subst; lia|done]. }
  destruct (brelse_ok p pid fs5 L (dset V b (V a)) (pset P2 b 1) H2 i a I5)
    as (L6 & fs6 & R6 & I6 & S6 & F6 & K6); [by apply S5, S4'|set_solver| |].
  { intros _. destruct K5 as [-> _]. rewrite W4, !dset_ne by done.
    change (fs_disk fs3) with (fs_disk fs2). destruct K1 as [K1 _], K2 as [K2 _]. rewrite K2, K1.
    by apply (bi_clean _ _ _ _ _ _ Hi). }
  destruct (brelse_ok p pid fs6 L6 (dset V b (V a)) (pset (pset P2 b 1) a (pset P2 b 1 a - 1)) (H2 ∖ {[a]}) j b I6)
    as (L7 & fs7 & R7 & I7 & S7 & F7 & K7); [by apply S6, S5, S4'|set_solver| |].
  { intros _. destruct K6 as [-> _], K5 as [-> _]. rewrite W4, !dset_eq. done. }
  exists L7, fs7. split.
  - eapply fsr_bind; [exact R1|]. eapply fsr_bind; [exact R2|].
    eapply fsr_bind; [apply fsr_get_buf|]. rewrite D1'.
    eapply fsr_bind; [apply fsr_mod_buf|]. fold fs3.
    eapply fsr_bind; [exact R4|]. eapply fsr_bind; [exact R5|]. eapply fsr_bind; [exact R6|]. exact R7.
  - assert (fs_same fs2 fs3) as F3 by done.
    destruct K1 as [K1 T1], K2 as [K2 T2], K5 as [K5 T5], K6 as [K6 T6], K7 as [K7 T7].
    split_and!.
    + eapply bio_inv_ext; [done| | |exact I7].
      * intros b'. unfold P2, pset. repeat case_decide; subst; try lia; done.
      * intros b'. unfold H2. set_solver.
    + same_chain.
    + rewrite K7, K6, K5, W4. change (fs_disk fs3) with (fs_disk fs2). by rewrite K2, K1.
    + rewrite T7, T6, T5, T4. change (fs_writes fs3) with (fs_writes fs2). by rewrite T2, T1.
Qed.

(** ** The loops *)

(** The log as [initlog] leaves it, with the blocks [B] in its header. *)
Definition log_is (lg : log) (start : Z) (B : list Z) : Prop :=
  log_dev lg = ROOTDEV /\ log_start lg = start /\ lh_is lg B.

Lemma write_log_loop start B P Bs : forall k fs L V,
  log_is (fs_log fs) start B -> drop k B = Bs -> (length B <= 30)%nat ->
  bio_inv pid fs L V P ∅ -> room P 1 ->
  (forall b, b ∈ Bs -> outside start b /\ 0 < P b < 100) ->
  (forall b, ~ outside start b -> P b = 0) ->
  exists L' fs', fsr p pid [] (kfor (seq k (length Bs)) (fun tail =>
    lg ← get_log;
    to ← bread (log_dev lg) (log_start lg + Z.of_nat tail + 1);
    from ← bread (log_dev lg) (aget 0 (lh_block lg) (Z.of_nat tail));
    f ← get_buf from;
    mod_buf to (set_b_data (b_data f));;
    bwrite to;;
    brelse from;;
    brelse to)) fs tt [] fs' /\
  outcome fs fs' L' (apply_writes V (log_ws V start k Bs)) P (log_ws V start k Bs).
Proof.
  induction Bs as [|b Bs IH]; intros k fs L V Hlg HB Hlen Hi Hroom Hout HP.
  { exists L, fs. split; [apply fsr_ret|]. split_and!; try done. }
  assert (B !! k = Some b) as Hbk.
  { rewrite <- (Nat.add_0_r k), <- lookup_drop, HB. done. }
  assert (k < length B)%nat as Hk by (by apply lookup_lt_Some in Hbk).
  destruct (Hout b) as [Hob HPb]; [set_solver|].
  set (a := start + Z.of_nat k + 1).
  assert (~ outside start a) as Ha by (unfold outside, a, LOGSIZE, MAXOPBLOCKS; lia).
  destruct (write_log_step fs L V P a b) as (L1 & fs1 & R1 & O1); try done.
  { intros ->. done. }
  { by apply HP. }
  pose proof O1 as (I1 & F1 & _ & _).
  assert (fs_log fs1 = fs_log fs) as Elog by apply F1.
  assert (log_ws (dset V a (V b)) start (S k) Bs = log_ws V start (S k) Bs) as Ews.
  { apply log_ws_ext. intros b' Hb'. apply dset_ne. intros E. apply Ha. rewrite <- E. apply Hout. set_solver. }
  destruct (IH (S k) fs1 L1 (dset V a (V b))) as (L' & fs' & R2 & O2).
  - by rewrite Elog.
  - replace (S k) with (k + 1)%nat by lia. rewrite <- drop_drop, HB. done.
  - done.
  - done.
  - done.
  - intros b' Hb'. apply Hout. set_solver.
  - done.
  - exists L', fs'. cbn [length seq kfor log_ws]. split.
    + eapply fsr_bind; [|exact R2]. eapply fsr_bind; [apply (fsr_get p pid [] fs_log)|].
      destruct Hlg as (-> & -> & Hlh). rewrite (lh_is_get _ _ _ _ Hlh Hbk). exact R1.
    + rewrite Ews in O2. exact (outcome_trans _ _ _ _ _ _ _ _ _ _ _ O1 O2).
Qed.

Lemma room_pset0 P k b : room P k -> room (pset P b 0) k.
Proof.
  intros (S & HS & Hl). exists S. split; [|done]. intros b'. unfold pset. case_decide; [done|apply HS].
Qed.

Lemma install_loop start B r Bs : forall k fs L V P,
  log_is (fs_log fs) start B -> drop k B = Bs -> (length B <= 30)%nat -> NoDup Bs ->
  bio_inv pid fs L V P ∅ -> room P (if r =? 0 then 1 else 2) ->
  (forall b, b ∈ Bs -> outside start b /\ P b = if r =? 0 then 1 else 0) ->
  (forall b, ~ outside start b -> P b = 0) ->
  exists L' fs', fsr p pid [] (kfor (seq k (length Bs)) (fun tail =>
    lg ← get_log;
    lbuf ← bread (log_dev lg) (log_start lg + Z.of_nat tail + 1);
    dbuf ← bread (log_dev lg) (aget 0 (lh_block lg) (Z.of_nat tail));
    l ← get_buf lbuf;
    mod_buf dbuf (set_b_data (b_data l));;
    bwrite dbuf;;
    kwhen (r =? 0) (bunpin dbuf);;
    brelse lbuf;;
    brelse dbuf)) fs tt [] fs' /\
  outcome fs fs' L' (apply_writes V (home_ws V start k Bs)) (unpinned P Bs) (home_ws V start k Bs).
Proof.
  induction Bs as [|b Bs IH]; intros k fs L V P Hlg HB Hlen Hnd Hi Hroom Hout HP.
  { exists L, fs. split; [apply fsr_ret|]. split_and!; try done. }
  apply NoDup_cons in Hnd as [Hbn Hnd].
  assert (B !! k = Some b) as Hbk.
  { rewrite <- (Nat.add_0_r k), <- lookup_drop, HB. done. }
  assert (length B = k + S (length Bs))%nat as Hk.
  { apply (f_equal length) in HB. rewrite length_drop in HB. simpl in HB.
    apply lookup_lt_Some in Hbk. lia. }
  destruct (Hout b) as [Hob HPb]; [set_solver|].
  set (a := start + Z.of_nat k + 1).
  assert (~ outside start a) as Ha by (unfold outside, a, LOGSIZE, MAXOPBLOCKS; lia).
  destruct (install_step fs L V P a b r) as (L1 & fs1 & R1 & O1); try done.
  { intros ->. done. }
  { by apply HP. }
  pose proof O1 as (I1 & F1 & _ & _).
  assert (fs_log fs1 = fs_log fs) as Elog by apply F1.
  assert (home_ws (dset V b (V a)) start (S k) Bs = home_ws V start (S k) Bs) as Ews.
  { apply home_ws_ext. intros i Hik. apply dset_ne. intros E.
    rewrite <- E in Hob. unfold outside, LOGSIZE, MAXOPBLOCKS in Hob. lia. }
  destruct (IH (S k) fs1 L1 (dset V b (V a)) (pset P b 0)) as (L' & fs' & R2 & O2).
  - by rewrite Elog.
  - replace (S k) with (k + 1)%nat by lia. rewrite <- drop_drop, HB. done.
  - done.
  - done.
  - done.
  - by apply room_pset0.
  - intros b' Hb'. unfold pset. rewrite decide_False by (intros ->; done). apply Hout. set_solver.
  - intros b' Hb'. unfold pset. case_decide; [done|]. by apply HP.
  - exists L', fs'. cbn [length seq kfor home_ws]. split.
    + eapply fsr_bind; [|exact R2]. eapply fsr_bind; [apply (fsr_get p pid [] fs_log)|].
      destruct Hlg as (-> & -> & Hlh). rewrite (lh_is_get _ _ _ _ Hlh Hbk). exact R1.
    + rewrite Ews in O2. exact (outcome_trans _ _ _ _ _ _ _ _ _ _ _ O1 O2).
Qed.

(** ** The header block *)

Lemma upd_buf_id i fs : upd_buf i (fun x => set_b_data (b_data x) x) fs = fs.
Proof. unfold upd_buf. rewrite list_alter_id by (by intros []). by destruct fs. Qed.

Lemma write_head_loop buf lg Bs : forall k fs,
  (forall i b, Bs !! i = Some b -> aget 0 (lh_block lg) (Z.of_nat (k + i)) = b) ->
  fsr p pid [] (kfor (seq k (length Bs)) (fun i =>
    mod_buf buf (fun hb =>
      set_b_data (set_hb_block i (aget 0 (lh_block lg) (Z.of_nat i)) (b_data hb)) hb))) fs tt []
    (upd_buf buf (fun hb => set_b_data (set_blocks k Bs (b_data hb)) hb) fs).
Proof.
  induction Bs as [|b Bs IH]; intros k fs HB; cbn [length seq kfor set_blocks].
  - eapply fsr_eq; [apply fsr_ret|]. by rewrite upd_buf_id.
  - assert (aget 0 (lh_block lg) (Z.of_nat k) = b) as ->.
    { specialize (HB 0%nat b eq_refl). by rewrite Nat.add_0_r in HB. }
    eapply fsr_bind; [apply fsr_mod_buf|].
    eapply fsr_eq; [apply IH|].
    + intros i b' Hi. replace (S k + i)%nat with (k + S i)%nat by lia. by apply HB.
    + by rewrite upd_buf_compose.
Qed.

(** [set_b_data] by a function of the data of the buffer of [b]. *)
Lemma upd_data_const fs i v g : buf_at fs i = v -> (i < length (fs_bufs fs))%nat ->
  upd_buf i (fun x => set_b_data (g (b_data x)) x) fs = upd_buf i (set_b_data (g (b_data v))) fs.
Proof.
  intros Hv Hi. unfold upd_buf. f_equal. apply list_alter_ext; [|done].
  intros x Hx. unfold buf_at in Hv. rewrite nth_lookup, Hx in Hv. simpl in Hv. by rewrite Hv.
Qed.

Lemma write_head_ok start B fs L V P :
  log_is (fs_log fs) start B -> bio_inv pid fs L V P ∅ -> P start = 0 -> room P 1 ->
  exists L' fs', fsr p pid [] write_head fs tt [] fs' /\
    outcome fs fs' L' (dset V start (header B (V start))) P [(start, header B (V start))].
Proof.
  intros Hlg Hi HP Hroom. pose proof Hlg as (Hdev & Hst & Hlh).
  destruct (bread_ok p pid fs L V P ∅ start Hi) as (i & fs1 & R1 & I1 & B1 & D1 & S1 & F1 & K1);
    [set_solver|lia|right; by eapply room_free|].
  rewrite HP in I1. change (0 + 1) with 1 in I1.
  set (P1 := pset P start 1) in *. set (H1 := {[start]} ∪ (∅ : gset Z)) in *.
  pose proof (bi_len _ _ _ _ _ _ I1) as Hlen1.
  set (v := header B (V start)).
  destruct (set_data_ok pid fs1 L V P1 H1 i start v I1 B1) as (I2 & S2 & D2); [set_solver|].
  set (fs2 := upd_buf i (set_b_data v) fs1) in *.
  destruct (bwrite_ok p pid fs2 L (dset V start v) P1 H1 i start I2) as (fs3 & R3 & I3 & S3 & F3 & W3 & T3);
    [by apply S2|set_solver|].
  rewrite dset_eq in W3, T3.
  destruct (brelse_ok p pid fs3 L (dset V start v) P1 H1 i start I3) as (L4 & fs4 & R4 & I4 & S4 & F4 & K4);
    [unfold is_buf; rewrite S3; by apply S2|set_solver| |].
  { intros _. by rewrite W3, !dset_eq. }
  exists L4, fs4. split.
  - unfold write_head. eapply fsr_bind; [apply (fsr_get p pid [] fs_log)|].
    rewrite Hdev, Hst. eapply fsr_bind; [exact R1|].
    eapply fsr_bind; [apply fsr_mod_buf|].
    eapply fsr_bind.
    { eapply (fsr_for_log p pid [] _ B); [|apply (write_head_loop i (fs_log fs) B 0)].
      - change (lh_is (fs_log fs1) B). by rewrite (fs_log_same _ _ F1).
      - intros j b Hj. by apply (lh_is_get _ B). }
    assert (upd_buf i (fun hb => set_b_data (set_blocks 0 B (b_data hb)) hb)
      (upd_buf i (fun hb => set_b_data (set_hb_n (lh_n (fs_log fs)) (b_data hb)) hb) fs1) = fs2) as ->.
    { rewrite upd_buf_compose.
      transitivity (upd_buf i (fun x =>
        set_b_data (set_blocks 0 B (set_hb_n (lh_n (fs_log fs)) (b_data x))) x) fs1).
      { done. }
      rewrite (upd_data_const fs1 i (buf_at fs1 i)
        (fun l => set_blocks 0 B (set_hb_n (lh_n (fs_log fs)) l))); [|done|destruct B1; lia].
      unfold fs2, v, header. rewrite D1. by destruct Hlh as [-> _]. }
    eapply fsr_bind; [exact R3|exact R4].
  - assert (fs_same fs1 fs2) as F2 by done.
    destruct K1 as [K1 T1], K4 as [K4 T4].
    split_and!.
    + eapply bio_inv_ext; [done| | |exact I4].
      * intros b'. unfold P1, pset. repeat case_decide; subst; lia.
      * intros b'. unfold H1. set_solver.
    + same_chain.
    + rewrite K4, W3. change (fs_disk fs2) with (fs_disk fs1). by rewrite K1.
    + rewrite T4, T3. change (fs_writes fs2) with (fs_writes fs1). by rewrite T1.
Qed.

(** ** Changing only the in-memory log *)

Lemma bio_inv_log fs lg L V P H : bio_inv pid fs L V P H -> bio_inv pid (set_fs_log lg fs) L V P H.
Proof. intros []. by split. Qed.

(** [outcome] up to the in-memory log. *)
Definition outcome_log (fs fs' : fsstate) (L' : list nat) (V' : Z -> list Z) (P' : Z -> Z)
    (ws : list (Z * list Z)) : Prop :=
  bio_inv pid fs' L' V' P' ∅ /\ fs_sb fs' = fs_sb fs /\ fs_itable fs' = fs_itable fs /\
  fs_disk fs' = apply_writes (fs_disk fs) ws /\ fs_writes fs' = rev ws ++ fs_writes fs.

Lemma outcome_to_log fs fs' L' V' P' ws : outcome fs fs' L' V' P' ws -> outcome_log fs fs' L' V' P' ws.
Proof. intros (? & [] & ? & ?). by split_and!. Qed.

Lemma outcome_log_trans fs fs1 fs2 L1 L2 V1 V2 P1 P2 ws1 ws2 :
  outcome_log fs fs1 L1 V1 P1 ws1 -> outcome_log fs1 fs2 L2 V2 P2 ws2 ->
  outcome_log fs fs2 L2 V2 P2 (ws1 ++ ws2).
Proof.
  intros (_ & Hs1 & Hi1 & Hd1 & Hw1) (H2 & Hs2 & Hi2 & Hd2 & Hw2). split_and!; [done|congruence..| |].
  - rewrite Hd2, Hd1. unfold apply_writes. by rewrite fold_left_app.
  - rewrite Hw2, Hw1, rev_app_distr. by rewrite app_assoc.
Qed.

Lemma fsr_mod_log h f fs : fsr p pid h (mod_log f) fs tt h (set_fs_log (f (fs_log fs)) fs).
Proof. exact (fsr_mod p pid h (fun fs => set_fs_log (f (fs_log fs)) fs) fs). Qed.

(** ** commit *)

Lemma commit_ok start B fs L V P :
  log_is (fs_log fs) start B -> (0 < length B <= 29)%nat -> NoDup B ->
  (forall b, b ∈ B -> outside start b) ->
  bio_inv pid fs L V P ∅ -> (forall b, P b = if decide (b ∈ B) then 1 else 0) ->
  exists L' fs', fsr p pid [] commit fs tt [] fs' /\
    fs_log fs' = set_lh_n 0 (fs_log fs) /\
    outcome_log fs fs' L' (apply_writes V (commit_ws V start B (V start))) (fun _ => 0)
      (commit_ws V start B (V start)).
Proof.
  intros Hlg Hn Hnd Hout Hi HP.
  assert (room P 1) as Hroom.
  { exists B. split; [|unfold NBUF; lia]. intros b. rewrite HP. by case_decide. }
  assert (forall b, ~ outside start b -> P b = 0) as HP0.
  { intros b Hb. rewrite HP, decide_False; [done|]. intros Hx. by apply Hb, Hout. }
  assert (~ outside start start) as Hso by (unfold outside, LOGSIZE, MAXOPBLOCKS; lia).
  destruct (write_log_loop start B P B 0 fs L V Hlg eq_refl ltac:(lia) Hi Hroom)
    as (L1 & fs1 & R1 & O1); [|done|].
  { intros b Hb. split; [by apply Hout|]. rewrite HP, decide_True by done. lia. }
  set (ws1 := log_ws V start 0 B) in *. set (V1 := apply_writes V ws1) in *.
  pose proof O1 as (I1 & F1 & _ & _). pose proof (fs_log_same _ _ F1) as E1.
  destruct (write_head_ok start B fs1 L1 V1 P) as (L2 & fs2 & R2 & O2);
    [by rewrite E1|done|by apply HP0|done|].
  assert (V1 start = V start) as EV1 by (apply apply_log_ws_other; intros; lia).
  rewrite EV1 in O2. set (h1 := header B (V start)) in *.
  pose proof O2 as (I2 & F2 & _ & _). pose proof (fs_log_same _ _ F2) as E2.
  set (V2 := dset V1 start h1) in *.
  assert (V2 start = h1) as EV2s by apply dset_eq.
  assert (home_ws V2 start 0 B = (fun b => (b, V b)) <$> B) as Ehome.
  { apply home_ws_eq. intros i b Hb. unfold V2. rewrite dset_ne by lia.
    by apply apply_log_ws_get. }
  destruct (install_loop start B 0 B 0 fs2 L2 V2 P) as (L3 & fs3 & R3 & O3); try done.
  { by rewrite E2, E1. }
  { lia. }
  { intros b Hb. split; [by apply Hout|]. rewrite HP, decide_True by done. done. }
  rewrite Ehome in O3. set (ws3 := (fun b => (b, V b)) <$> B) in *.
  pose proof O3 as (I3 & F3 & _ & _). pose proof (fs_log_same _ _ F3) as E3.
  set (V3 := apply_writes V2 ws3) in *.
  set (fs3' := set_fs_log (set_lh_n 0 (fs_log fs3)) fs3).
  assert (forall b, unpinned P B b = 0) as HU.
  { intros b. rewrite unpinned_spec, HP. by case_decide. }
  destruct (write_head_ok start [] fs3' L3 V3 (unpinned P B)) as (L4 & fs4 & R4 & O4).
  { destruct Hlg as (? & ? & _). split_and!; [..|split; done]; simpl; congruence. }
  { by apply bio_inv_log. }
  { apply HU. }
  { exists []. split; [|unfold NBUF; simpl; lia]. intros b. by rewrite HU. }
  assert (V3 start = h1) as EV3.
  { unfold V3, ws3. rewrite <- EV2s. clear -Hout Hso. generalize V2. 
    induction B as [|b B IH]; intros V'; [done|]. simpl.
    rewrite IH by set_solver. apply dset_ne. intros <-. apply Hso, Hout. set_solver. }
  rewrite EV3 in O4.
  exists L4, fs4. split_and!.
  - unfold commit. eapply fsr_bind; [apply (fsr_get p pid [] fs_log)|].
    eapply (fsr_when _ _ _ _ _ _ _ _ fs4); [|done|].
    2: { destruct Hlg as (_ & _ & -> & _). by rewrite (proj2 (Z.ltb_lt _ _)) by lia. }
    intros _. eapply fsr_bind; [eapply fsr_for_log; [apply Hlg|exact R1]|].
    eapply fsr_bind; [exact R2|].
    eapply fsr_bind; [eapply fsr_for_log; [rewrite E2, E1; apply Hlg|exact R3]|].
    eapply fsr_bind; [apply fsr_mod_log|]. exact R4.
  - destruct O4 as (_ & F4 & _). rewrite (fs_log_same _ _ F4). simpl. by rewrite E3, E2, E1.
  - assert (outcome_log fs fs3' L3 V3 (unpinned P B) ((ws1 ++ [(start, h1)]) ++ ws3)) as O13.
    { pose proof (outcome_to_log _ _ _ _ _ _ (outcome_trans _ _ _ _ _ _ _ _ _ _ _
        (outcome_trans _ _ _ _ _ _ _ _ _ _ _ O1 O2) O3)) as (X1 & X2 & X3 & X4 & X5).
      split_and!; try done. by apply bio_inv_log. }
    pose proof (outcome_log_trans _ _ _ _ _ _ _ _ _ _ _ O13 (outcome_to_log _ _ _ _ _ _ O4))
      as (X1 & X2 & X3 & X4 & X5).
    assert (commit_ws V start B (V start) = ((ws1 ++ [(start, h1)]) ++ ws3) ++ [(start, header [] h1)]) as ->.
    { unfold commit_ws. rewrite !app_assoc. done. }
    split_and!; try done.
    eapply bio_inv_ext; [|exact HU|done|exact X1].
    intros b. unfold V3, V2, V1, apply_writes. rewrite !fold_left_app. done.
Qed.

(** ** Recovery *)

(** A header block that lists the blocks [B]. *)
Definition header_is (l : list Z) (B : list Z) : Prop :=
  hb_n l = Z.of_nat (length B) /\ forall i b, B !! i = Some b -> hb_block l i = b.

Lemma read_head_loop buf l Bs : forall k fs,
  b_data (buf_at fs buf) = l -> (forall i b, Bs !! i = Some b -> hb_block l (k + i) = b) ->
  (k + length Bs <= length (lh_block (fs_log fs)))%nat ->
  exists blk, fsr p pid [] (kfor (seq k (length Bs)) (fun i =>
    lh ← get_buf buf;
    mod_log (fun lg => set_lh_block (aset (lh_block lg) (Z.of_nat i) (hb_block (b_data lh) i)) lg)))
    fs tt [] (set_fs_log (set_lh_block blk (fs_log fs)) fs) /\
  take (k + length Bs) blk = take k (lh_block (fs_log fs)) ++ Bs /\
  length blk = length (lh_block (fs_log fs)).
Proof.
  induction Bs as [|b Bs IH]; intros k fs Hl HB Hlen; cbn [length seq kfor].
  { exists (lh_block (fs_log fs)). rewrite Nat.add_0_r, app_nil_r. split_and!; [|done|done].
    eapply fsr_eq; [apply fsr_ret|]. destruct fs as [? ? []]. done. }
  simpl in Hlen.
  assert (hb_block l k = b) as Hk.
  { specialize (HB 0%nat b eq_refl). by rewrite Nat.add_0_r in HB. }
  set (blk1 := aset (lh_block (fs_log fs)) (Z.of_nat k) b).
  set (fs1 := set_fs_log (set_lh_block blk1 (fs_log fs)) fs).
  destruct (IH (S k) fs1) as (blk & R & Ht & Hlb).
  - done.
  - intros i b' Hi. replace (S k + i)%nat with (k + S i)%nat by lia. by apply HB.
  - simpl. unfold blk1. rewrite length_aset. lia.
  - exists blk. split_and!.
    + eapply fsr_bind; [|exact R].
      eapply fsr_bind; [apply fsr_get_buf|]. rewrite Hl, Hk. apply fsr_mod_log.
    + replace (k + S (length Bs))%nat with (S k + length Bs)%nat by lia. rewrite Ht. simpl.
      unfold blk1, aset. rewrite Nat2Z.id.
      erewrite take_S_r by (apply list_lookup_insert_eq; lia).
      rewrite take_insert_ge by lia. by rewrite <- app_assoc.
    + rewrite Hlb. simpl. unfold blk1. by rewrite length_aset.
Qed.

Lemma read_head_ok start B fs L V :
  log_dev (fs_log fs) = ROOTDEV -> log_start (fs_log fs) = start ->
  length (lh_block (fs_log fs)) = 30%nat -> (length B <= 30)%nat ->
  header_is (V start) B -> bio_inv pid fs L V (fun _ => 0) ∅ ->
  exists L' fs', fsr p pid [] read_head fs tt [] fs' /\ log_is (fs_log fs') start B /\
    log_size (fs_log fs') = log_size (fs_log fs) /\
    outcome_log fs fs' L' V (fun _ => 0) [].
Proof.
  intros Hdev Hst Hlen HB [Hn Hb] Hi.
  assert (room (fun _ => 0) 1) as Hroom by (exists []; split; [done|unfold NBUF; simpl; lia]).
  destruct (bread_ok p pid fs L V (fun _ => 0) ∅ start Hi) as (i & fs1 & R1 & I1 & B1 & D1 & S1 & F1 & K1);
    [set_solver|lia|right; by eapply room_free|].
  set (P1 := pset (fun _ => 0) start (0 + 1)) in *. set (H1 := {[start]} ∪ (∅ : gset Z)) in *.
  set (fs2 := set_fs_log (set_lh_n (Z.of_nat (length B)) (fs_log fs1)) fs1).
  assert (fs_log fs1 = fs_log fs) as E1 by apply F1.
  destruct (read_head_loop i (V start) B 0 fs2) as (blk & R2 & Ht & Hlb).
  { exact D1. }
  { exact Hb. }
  { simpl. rewrite E1, Hlen. lia. }
  set (fs3 := set_fs_log (set_lh_block blk (fs_log fs2)) fs2) in *.
  assert (bio_inv pid fs3 L V P1 H1) as I3 by (by do 2 apply bio_inv_log).
  destruct (brelse_ok p pid fs3 L V P1 H1 i start I3) as (L4 & fs4 & R4 & I4 & S4 & F4 & K4);
    [exact B1|set_solver| |].
  { intros _. change (fs_disk fs3) with (fs_disk fs1). destruct K1 as [-> _]. by apply (bi_clean _ _ _ _ _ _ Hi). }
  exists L4, fs4. split_and!.
  - unfold read_head. eapply fsr_bind; [apply (fsr_get p pid [] fs_log)|].
    rewrite Hdev, Hst. eapply fsr_bind; [exact R1|].
    eapply fsr_bind; [apply fsr_get_buf|]. rewrite D1, Hn.
    eapply fsr_bind; [apply fsr_mod_log|]. fold fs2.
    eapply fsr_bind; [|exact R4].
    unfold for_log. eapply fsr_bind; [apply (fsr_get p pid [] fs_log)|].
    change (lh_n (fs_log fs2)) with (Z.of_nat (length B)). rewrite Nat2Z.id. exact R2.
  - rewrite (fs_log_same _ _ F4). unfold log_is, lh_is. simpl. rewrite E1. split_and!; done.
  - rewrite (fs_log_same _ _ F4). simpl. by rewrite E1.
  - destruct K1 as [K1 T1], K4 as [K4 T4]. split_and!.
    + eapply bio_inv_ext; [done| | |exact I4].
      * intros b'. unfold P1, pset. repeat case_decide; subst; lia.
      * intros b'. unfold H1. set_solver.
    + rewrite (fs_sb_same _ _ F4). apply F1.
    + rewrite (fs_itable_same _ _ F4). apply F1.
    + rewrite K4. exact K1.
    + rewrite T4. exact T1.
Qed.

Lemma recover_ok start B fs L :
  log_dev (fs_log fs) = ROOTDEV -> log_start (fs_log fs) = start ->
  length (lh_block (fs_log fs)) = 30%nat -> (length B <= 30)%nat -> NoDup B ->
  (forall b, b ∈ B -> outside start b) -> header_is (fs_disk fs start) B ->
  bio_inv pid fs L (fs_disk fs) (fun _ => 0) ∅ ->
  exists L' fs', fsr p pid [] recover_from_log fs tt [] fs' /\ log_is (fs_log fs') start [] /\
    log_size (fs_log fs') = log_size (fs_log fs) /\
    outcome_log fs fs' L' (apply_writes (fs_disk fs) (recover_ws (fs_disk fs) start B)) (fun _ => 0)
      (recover_ws (fs_disk fs) start B).
Proof.
  intros Hdev Hst Hlen HB Hnd Hout Hh Hi.
  set (V := fs_disk fs) in *.
  destruct (read_head_ok start B fs L V) as (L1 & fs1 & R1 & Hlg & Hsz & O1); try done.
  assert (room (fun _ => 0) 2) as Hroom by (exists []; split; [done|unfold NBUF; simpl; lia]).
  pose proof O1 as (I1 & _).
  destruct (install_loop start B 1 B 0 fs1 L1 V (fun _ => 0)) as (L2 & fs2 & R2 & O2); try done.
  { intros b Hb. split; [by apply Hout|done]. }
  set (ws2 := home_ws V start 0 B) in *. set (V2 := apply_writes V ws2) in *.
  pose proof O2 as (I2 & F2 & _ & _). pose proof (fs_log_same _ _ F2) as E2.
  set (fs2' := set_fs_log (set_lh_n 0 (fs_log fs2)) fs2).
  assert (forall b, unpinned (fun _ => 0) B b = 0) as HU.
  { intros b. rewrite unpinned_spec. by case_decide. }
  destruct (write_head_ok start [] fs2' L2 V2 (unpinned (fun _ => 0) B)) as (L3 & fs3 & R3 & O3).
  { destruct Hlg as (? & ? & _). split_and!; [..|split; done]; simpl; congruence. }
  { by apply bio_inv_log. }
  { apply HU. }
  { exists []. split; [|unfold NBUF; simpl; lia]. intros b. by rewrite HU. }
  assert (V2 start = V start) as EV2.
  { apply apply_home_ws_other. intros Hx%Hout. unfold outside, LOGSIZE, MAXOPBLOCKS in Hx. lia. }
  rewrite EV2 in O3.
  exists L3, fs3. split_and!.
  - unfold recover_from_log. eapply fsr_bind; [exact R1|].
    eapply fsr_bind; [eapply fsr_for_log; [apply Hlg|exact R2]|].
    eapply fsr_bind; [apply fsr_mod_log|]. exact R3.
  - destruct O3 as (_ & F3 & _). rewrite (fs_log_same _ _ F3). destruct Hlg as (Hd & Hs & _).
    split_and!; simpl; [by rewrite E2..|split; done].
  - destruct O3 as (_ & F3 & _). rewrite (fs_log_same _ _ F3). simpl. by rewrite E2.
  - assert (outcome_log fs1 fs2' L2 V2 (unpinned (fun _ => 0) B) ws2) as O2'.
    { pose proof (outcome_to_log _ _ _ _ _ _ O2) as (X1 & X2 & X3 & X4 & X5).
      split_and!; try done. by apply bio_inv_log. }
    pose proof (outcome_log_trans _ _ _ _ _ _ _ _ _ _ _ O1
      (outcome_log_trans _ _ _ _ _ _ _ _ _ _ _ O2' (outcome_to_log _ _ _ _ _ _ O3)))
      as (X1 & X2 & X3 & X4 & X5).
    split_and!; try done.
    eapply bio_inv_ext; [|exact HU|done|exact X1].
    intros b. unfold V2, recover_ws, apply_writes. rewrite !fold_left_app. done.
Qed.
End steps.
