(* ===== verification/LogCrash.v ===== *)
(** * LogCrash: atomicity of transactions

    [commit] installs a transaction, and whatever prefix of its disk writes
    reaches the disk before a crash, the recovery of [initlog] restores
    either every block of the transaction or none; a crash during recovery
    does not matter either. *)

From S2P Require Import Prelude.
From S2P Require Import State.
From S2P Require Import Kernel.
From S2P Require Import Sched.
From S2P Require Import SchedInv.
From S2P Require Import Bio.
From S2P Require Import FsRun.
From S2P Require Import BioProps.
From S2P Require Import Log.
From S2P Require Import LogProps.

(** ** Writes *)

Lemma apply_writes_app d ws1 ws2 : apply_writes d (ws1 ++ ws2) = apply_writes (apply_writes d ws1) ws2.
Proof. unfold apply_writes. by rewrite fold_left_app. Qed.

Lemma apply_writes_notin d ws b : b ∉ ws.*1 -> apply_writes d ws b = d b.
Proof.
  revert d. induction ws as [|[c v] ws IH]; intros d Hb; [done|]. simpl in Hb.
  change (apply_writes (dset d c v) ws b = d b). rewrite IH by set_solver. apply dset_ne. set_solver.
Qed.

(** Writes of the content [V] only: a written block has content [V]. *)
Lemma apply_writes_val d ws V b : (forall c v, (c, v) ∈ ws -> v = V c) -> b ∈ ws.*1 ->
  apply_writes d ws b = V b.
Proof.
  revert d. induction ws as [|[c v] ws IH]; intros d Hv Hb; [by apply elem_of_nil in Hb|].
  change (apply_writes (dset d c v) ws b = V b).
  destruct (decide (b ∈ ws.*1)) as [Hin|Hn].
  - apply IH; [|done]. intros c' v' H'. apply Hv. set_solver.
  - rewrite apply_writes_notin by done.
    assert (b = c) as -> by (simpl in Hb; set_solver). rewrite dset_eq. apply Hv. set_solver.
Qed.

(** Blocks of the log area written by [write_log]. *)
Lemma log_ws_blocks V start Bs : forall k c, c ∈ (log_ws V start k Bs).*1 ->
  start < c <= start + Z.of_nat (k + length Bs).
Proof.
  induction Bs as [|b Bs IH]; intros k c; simpl; [by intros ?%elem_of_nil|].
  intros [->|Hc]%elem_of_cons; [lia|]. apply IH in Hc. simpl in Hc. lia.
Qed.

Lemma home_ws_blocks V start Bs : forall k, (home_ws V start k Bs).*1 = Bs.
Proof. induction Bs as [|b Bs IH]; intros k; simpl; [done|]. by rewrite IH. Qed.

(** What a recovery from a header listing [B] makes of a block. *)
Section recovered.
Context (d : Z -> list Z) (start : Z) (B : list Z).
Hypothesis (Hnd : NoDup B) (Hout : forall b, b ∈ B -> outside start b).

Lemma start_inside : ~ outside start start.
Proof. unfold outside, LOGSIZE, MAXOPBLOCKS. lia. Qed.

Lemma recover_ws_in i b : B !! i = Some b ->
  apply_writes d (recover_ws d start B) b = d (start + Z.of_nat i + 1).
Proof.
  intros Hi. unfold recover_ws. rewrite apply_writes_app, (apply_writes_notin _ [_]).
  - by rewrite (apply_home_ws_get d start B d 0 i b).
  - simpl. intros ->%list_elem_of_singleton. apply start_inside, Hout. by eapply list_elem_of_lookup_2.
Qed.

Lemma recover_ws_notin b : outside start b -> b ∉ B -> apply_writes d (recover_ws d start B) b = d b.
Proof.
  intros Ho Hb. unfold recover_ws. rewrite apply_writes_app, (apply_writes_notin _ [_]).
  - by apply apply_home_ws_other.
  - simpl. intros ->%list_elem_of_singleton. by apply start_inside.
Qed.

Lemma recover_ws_start : apply_writes d (recover_ws d start B) start = header [] (d start).
Proof. unfold recover_ws. rewrite apply_writes_app. apply dset_eq. Qed.
End recovered.

(** Writes of home blocks leave the log area alone. *)
Lemma home_writes_log d ws start i : (forall b, b ∈ ws.*1 -> outside start b) ->
  0 <= i <= LOGSIZE -> apply_writes d ws (start + i) = d (start + i).
Proof.
  intros Ho Hi. apply apply_writes_notin. intros Hb%Ho. unfold outside in Hb. lia.
Qed.

(** A whole commit leaves the transaction's contents on disk. *)
Lemma commit_disk V start B d h b :
  (forall b, b ∈ B -> outside start b) -> (length B <= 29)%nat -> (forall b, b ∉ B -> V b = d b) ->
  outside start b -> apply_writes d (commit_ws V start B h) b = V b.
Proof.
  intros Hout Hlen HV Hb. pose proof (start_inside start) as Hs.
  unfold commit_ws. rewrite !apply_writes_app.
  rewrite (apply_writes_notin _ [(start, header [] _)])
    by (simpl; intros ->%list_elem_of_singleton; done).
  destruct (decide (b ∈ B)) as [HbB|HbB].
  - apply apply_writes_val.
    + intros c v (x & E & _)%list_elem_of_fmap. by simplify_eq.
    + rewrite <- list_fmap_compose. by rewrite list_fmap_id.
  - rewrite apply_writes_notin by (rewrite <- list_fmap_compose; by rewrite list_fmap_id).
    rewrite apply_writes_notin by (simpl; intros ->%list_elem_of_singleton; done).
    rewrite apply_log_ws_other; [symmetry; by apply HV|].
    intros i Hi. unfold outside, LOGSIZE, MAXOPBLOCKS in Hb. lia.
Qed.

(** ** Recovery from a header that lists [B] *)

Section crash.
Context (p : nat) (pid : Z) `{D : Disk} `{!DiskOk D}.

(** The state in which [fsinit] calls [initlog]: nothing cached, and the
    super block read. *)
Record boot_state (start : Z) (fs : fsstate) : Prop := {
  bs_cache : exists L, bio_inv pid fs L (fs_disk fs) (fun _ => 0) ∅;
  bs_start : sb_logstart (fs_sb fs) = start;
  bs_blocks : length (lh_block (fs_log fs)) = 30%nat
}.

Lemma initlog_ok start B fs : boot_state start fs -> (length B <= 30)%nat -> NoDup B ->
  (forall b, b ∈ B -> outside start b) -> header_is (fs_disk fs start) B ->
  exists L' fs', fsr p pid [] (initlog ROOTDEV) fs tt [] fs' /\ log_is (fs_log fs') start [] /\
    log_size (fs_log fs') = sb_nlog (fs_sb fs) /\
    bio_inv pid fs' L' (fs_disk fs') (fun _ => 0) ∅ /\
    fs_disk fs' = apply_writes (fs_disk fs) (recover_ws (fs_disk fs) start B) /\
    fs_writes fs' = rev (recover_ws (fs_disk fs) start B) ++ fs_writes fs.
Proof.
  intros [(L & Hi) Hst Hlen] HB Hnd Hout Hh.
  set (lg := set_log_dev ROOTDEV (set_log_size (sb_nlog (fs_sb fs)) (set_log_start start (fs_log fs)))).
  set (fs1 := set_fs_log lg fs).
  destruct (recover_ok p pid start B fs1 L) as (L' & fs' & R & Hlg & Hsz & O); try done.
  { by apply bio_inv_log. }
  destruct O as (I & _ & _ & Hd & Hw). exists L', fs'. split_and!; try done.
  - unfold initlog. change (BSIZE <=? 4 + 4 * LOGSIZE) with false.
    eapply fsr_bind; [apply (fsr_get p pid [] fs_sb)|]. rewrite Hst.
    eapply fsr_bind; [apply fsr_mod_log|]. eapply fsr_bind; [apply fsr_mod_log|].
    eapply fsr_bind; [apply fsr_mod_log|]. exact R.
  - eapply bio_inv_ext; [|done|done|exact I]. intros b. by rewrite Hd.
Qed.

(** The three stages of a commit at which a crash can happen. *)
Lemma commit_ws_split V start B h ws1 ws2 : commit_ws V start B h = ws1 ++ ws2 ->
  (exists A, log_ws V start 0 B = ws1 ++ A) \/
  (exists C1 C2, ws1 = log_ws V start 0 B ++ [(start, header B h)] ++ C1 /\
     (fun b => (b, V b)) <$> B = C1 ++ C2) \/
  ws1 = commit_ws V start B h.
Proof.
  unfold commit_ws. intros H. apply app_eq_inv in H as [(k & E1 & _)|(k & -> & E2)]; [left; by exists k|].
  destruct k as [|w k]; [left; exists []; by rewrite !app_nil_r|]. right.
  simpl in E2. injection E2 as <- E2. apply app_eq_inv in E2 as [(C2 & E1 & _)|(C2 & -> & E2)].
  - left. by exists k, C2.
  - destruct C2 as [|w C2]; simpl in E2.
    + left. exists ((fun b => (b, V b)) <$> B), []. by rewrite !app_nil_r.
    + right. injection E2 as <- E2. symmetry in E2. apply app_eq_nil in E2 as [-> _]. done.
Qed.

Lemma length_log_ws V start Bs : forall k, length (log_ws V start k Bs) = length Bs.
Proof. induction Bs as [|b Bs IH]; intros k; simpl; [done|]. by rewrite IH. Qed.

Lemma header_empty l : length l = Z.to_nat BSIZE -> hb_n (header [] l) = 0.
Proof. intros Hl. unfold BSIZE in Hl. apply (header_n [] l); cbn [length]; lia. Qed.

(** Recovery with an empty header, and with one that lists [B]. *)
Lemma recover_full start B fs0 : boot_state start fs0 -> (length B <= 30)%nat -> NoDup B ->
  (forall b, b ∈ B -> outside start b) -> length (fs_disk fs0 start) = Z.to_nat BSIZE ->
  header_is (fs_disk fs0 start) B ->
  exists fs1, fsr p pid [] (initlog ROOTDEV) fs0 tt [] fs1 /\ hb_n (fs_disk fs1 start) = 0 /\
    (forall b, outside start b -> b ∉ B -> fs_disk fs1 b = fs_disk fs0 b) /\
    (forall i b, B !! i = Some b -> fs_disk fs1 b = fs_disk fs0 (start + Z.of_nat i + 1)) /\
    fs_writes fs1 = rev (recover_ws (fs_disk fs0) start B) ++ fs_writes fs0 /\
    fs_disk fs1 = apply_writes (fs_disk fs0) (recover_ws (fs_disk fs0) start B).
Proof.
  intros Hb Hn Hnd Hout Hlen Hh.
  destruct (initlog_ok start B fs0 Hb Hn Hnd Hout Hh) as (L' & fs1 & R & _ & _ & _ & Hd & Hw).
  exists fs1. split_and!; try done; rewrite Hd.
  - rewrite recover_ws_start. by apply header_empty.
  - intros b Ho Hb'. by apply recover_ws_notin.
  - intros i b Hi. by apply recover_ws_in.
Qed.

Lemma recover_empty start fs0 : boot_state start fs0 -> 
  length (fs_disk fs0 start) = Z.to_nat BSIZE -> hb_n (fs_disk fs0 start) = 0 ->
  exists fs1, fsr p pid [] (initlog ROOTDEV) fs0 tt [] fs1 /\ hb_n (fs_disk fs1 start) = 0 /\
    (forall b, outside start b -> fs_disk fs1 b = fs_disk fs0 b).
Proof.
  intros Hb Hlen Hn.
  destruct (recover_full start [] fs0 Hb) as (fs1 & R & Hh & Ho & _); try done.
  - simpl. lia.
  - apply NoDup_nil_2.
  - by intros b ?%elem_of_nil.
  - exists fs1. split_and!; try done. intros b Hb'. apply Ho; [done|]. apply not_elem_of_nil.
Qed.

(** Recovery after a crash between two writes of a commit: the transaction
    is lost before the header is written, and complete from then on. *)
Lemma crash_outcome start B d V ws1 ws2 fs0 :
  (length B <= 29)%nat -> NoDup B -> (forall b, b ∈ B -> outside start b /\ 0 <= b < 2 ^ 31) ->
  length (d start) = Z.to_nat BSIZE -> hb_n (d start) = 0 -> (forall b, b ∉ B -> V b = d b) ->
  commit_ws V start B (d start) = ws1 ++ ws2 ->
  boot_state start fs0 -> fs_disk fs0 = apply_writes d ws1 ->
  exists fs1, fsr p pid [] (initlog ROOTDEV) fs0 tt [] fs1 /\ hb_n (fs_disk fs1 start) = 0 /\
    forall b, outside start b ->
      fs_disk fs1 b = if decide (length ws1 <= length B)%nat then d b else V b.
Proof.
  intros Hn Hnd HB Hlen Hh0 HV Hws Hboot Hd.
  assert (forall b, b ∈ B -> outside start b) as Hout by (intros b Hb; by apply HB).
  pose proof (start_inside start) as Hs.
  assert (forall ws, (forall b, b ∈ ws.*1 -> ~ outside start b /\ b <> start) ->
    (forall b, outside start b -> apply_writes d ws b = d b) /\ apply_writes d ws start = d start) as Hin.
  { intros ws H. split; [intros b Hb|]; apply apply_writes_notin; intros [??]%H; done. }
  assert (forall b, b ∈ (log_ws V start 0 B).*1 -> ~ outside start b /\ b <> start) as Hlog.
  { intros b Hb%log_ws_blocks. unfold outside, LOGSIZE, MAXOPBLOCKS. lia. }
  apply commit_ws_split in Hws as [(A & HA)|[(C1 & C2 & -> & HC)| ->]].
  - assert (length ws1 <= length B)%nat as Hle.
    { rewrite <- (length_log_ws V start B 0), HA, length_app. lia. }
    destruct (Hin ws1) as [Hd1 Hd2].
    { intros b Hb. apply Hlog. rewrite HA, fmap_app. set_solver. }
    destruct (recover_empty start fs0) as (fs1 & R & Hh & Ho); rewrite ?Hd, ?Hd2; try done.
    exists fs1. split_and!; try done. intros b Hb. rewrite decide_True by done.
    by rewrite Ho, Hd, Hd1.
  - rewrite !length_app, length_log_ws in *. simpl. 
    set (d1 := apply_writes d (log_ws V start 0 B)) in *.
    assert (C1.*1 ⊆ B) as HC1.
    { intros b Hb. assert (b ∈ ((fun b => (b, V b)) <$> B).*1) as H by (rewrite HC, fmap_app; set_solver).
      rewrite <- list_fmap_compose in H. by rewrite list_fmap_id in H. }
    assert (forall i, 0 <= i <= LOGSIZE -> apply_writes (dset d1 start (header B (d start))) C1 (start + i)
      = dset d1 start (header B (d start)) (start + i)) as HC1'.
    { intros i Hi. apply home_writes_log; [|done]. intros b Hb. by apply Hout, HC1. }
    assert (fs_disk fs0 = apply_writes (dset d1 start (header B (d start))) C1) as Hd0.
    { rewrite Hd, !apply_writes_app. done. }
    assert (fs_disk fs0 start = header B (d start)) as Hst.
    { rewrite Hd0. pose proof (HC1' 0 ltac:(done)) as H0. rewrite Z.add_0_r in H0. rewrite H0.
      apply dset_eq. }
    destruct (recover_full start B fs0) as (fs1 & R & Hh & Hno & Hyes & _ & _); try done.
    { lia. }
    { by rewrite Hst, length_header. }
    { unfold BSIZE in Hlen. rewrite Hst. split; [apply header_n; lia|].
      intros i b Hi. apply header_block; [done| |lia]. apply HB. by eapply list_elem_of_lookup_2. }
    exists fs1. split_and!; try done. intros b Hb. rewrite decide_False by lia.
    destruct (decide (b ∈ B)) as [HbB|HbB].
    + apply list_elem_of_lookup in HbB as [i Hi]. rewrite (Hyes i b Hi), Hd0.
      pose proof (lookup_lt_Some _ _ _ Hi).
      rewrite <- Z.add_assoc, HC1' by (unfold LOGSIZE, MAXOPBLOCKS; lia).
      rewrite dset_ne by lia. rewrite Z.add_assoc. by apply (apply_log_ws_get V B start d 0 i b).
    + rewrite (Hno b Hb HbB), Hd0, apply_writes_notin by (intros ?%HC1; done).
      rewrite dset_ne by (intros ->; done). rewrite (proj1 (Hin _ Hlog)) by done. symmetry. by apply HV.
  - assert (fs_disk fs0 start = header [] (header B (d start))) as Hst.
    { rewrite Hd. unfold commit_ws. rewrite !apply_writes_app. apply dset_eq. }
    destruct (recover_empty start fs0) as (fs1 & R & Hh & Ho); try done.
    { by rewrite Hst, !length_header. }
    { rewrite Hst. apply header_empty. by rewrite length_header. }
    exists fs1. split_and!; try done. intros b Hb. rewrite decide_False.
    2: { unfold commit_ws. rewrite !length_app, length_log_ws. simpl. lia. }
    rewrite (Ho b Hb), Hd. by apply commit_disk.
Qed.
End crash.

(** ** Theorems *)

(** Crash atomicity of a transaction.  [commit] of the blocks [B], whose
    buffers are pinned in the cache with contents [V], returns with the
    contents installed at their home blocks.  If the machine stops after
    any prefix [ws1] of its disk writes, then [initlog], run on the disk
    left behind with an empty cache, returns with an empty log, and every
    block outside the log area is as before the transaction if the header
    was not yet written, and as [V] says from the write of the header on. *)
Theorem commit_crash_atomic (D : Disk) p pid start B fs L V P : DiskOk D ->
  log_is (fs_log fs) start B -> (0 < length B <= 29)%nat -> NoDup B ->
  (forall b, b ∈ B -> outside start b /\ 0 <= b < 2 ^ 31) ->
  bio_inv pid fs L V P ∅ -> (forall b, P b = if decide (b ∈ B) then 1 else 0) ->
  length (fs_disk fs start) = Z.to_nat BSIZE -> hb_n (fs_disk fs start) = 0 ->
  exists fs' ws, fsr p pid [] commit fs tt [] fs' /\
    fs_writes fs' = rev ws ++ fs_writes fs /\ fs_disk fs' = apply_writes (fs_disk fs) ws /\
    (forall b, outside start b -> fs_disk fs' b = V b) /\
    forall ws1 ws2 fs0, ws = ws1 ++ ws2 ->
      boot_state pid start fs0 -> fs_disk fs0 = apply_writes (fs_disk fs) ws1 ->
      exists fs1, fsr p pid [] (initlog ROOTDEV) fs0 tt [] fs1 /\ hb_n (fs_disk fs1 start) = 0 /\
        forall b, outside start b ->
          fs_disk fs1 b = if decide (length ws1 <= length B)%nat then fs_disk fs b else V b.
Proof.
  intros HD Hlg Hn Hnd HB Hi HP Hlen Hh0.
  destruct (commit_ok p pid start B fs L V P) as (L' & fs' & R & Elg & O); try done.
  { intros b Hb. by apply HB. }
  assert (forall b, b ∉ B -> V b = fs_disk fs b) as HV.
  { intros b Hb. apply (bi_clean _ _ _ _ _ _ Hi). rewrite HP. by rewrite decide_False. }
  assert (V start = fs_disk fs start) as Es.
  { apply HV. intros [Ho _]%HB. by apply (start_inside start). }
  destruct O as (_ & _ & _ & Hd & Hw). rewrite Es in Hd, Hw.
  exists fs', (commit_ws V start B (fs_disk fs start)). split_and!; try done.
  - intros b Hb. rewrite Hd. apply commit_disk; try done; [|lia]. intros b' Hb'. by apply HB.
  - intros ws1 ws2 fs0 Hws Hboot Hd0. apply (crash_outcome p pid start B (fs_disk fs) V ws1 ws2 fs0); try done. lia.
Qed.

(** A prefix of the writes of a recovery does not change what a later
    recovery restores. *)
Lemma recover_ws_split d start B ws1 ws2 : recover_ws d start B = ws1 ++ ws2 ->
  (exists C, home_ws d start 0 B = ws1 ++ C) \/ ws1 = recover_ws d start B.
Proof.
  unfold recover_ws. intros H. apply app_eq_inv in H as [(k & E1 & _)|(k & -> & E2)]; [left; by exists k|].
  destruct k as [|w k]; [left; exists []; by rewrite !app_nil_r|]. right.
  simpl in E2. injection E2 as <- E2. symmetry in E2. apply app_eq_nil in E2 as [-> _]. done.
Qed.

(** C2: recovery can itself be interrupted.  [initlog] on a disk whose
    header lists the blocks [B] returns with every listed block restored
    from the log, every other block outside the log kept and the log
    empty; if the machine stops after any prefix of its writes, running
    [initlog] again on what is on the disk gives the same blocks. *)
Theorem recovery_idempotent (D : Disk) p pid start B fs : DiskOk D ->
  boot_state pid start fs -> (length B <= 30)%nat -> NoDup B ->
  (forall b, b ∈ B -> outside start b) ->
  length (fs_disk fs start) = Z.to_nat BSIZE -> header_is (fs_disk fs start) B ->
  exists fs' ws, fsr p pid [] (initlog ROOTDEV) fs tt [] fs' /\
    fs_writes fs' = rev ws ++ fs_writes fs /\ hb_n (fs_disk fs' start) = 0 /\
    (forall i b, B !! i = Some b -> fs_disk fs' b = fs_disk fs (start + Z.of_nat i + 1)) /\
    (forall b, outside start b -> b ∉ B -> fs_disk fs' b = fs_disk fs b) /\
    forall ws1 ws2 fs0, ws = ws1 ++ ws2 ->
      boot_state pid start fs0 -> fs_disk fs0 = apply_writes (fs_disk fs) ws1 ->
      exists fs1, fsr p pid [] (initlog ROOTDEV) fs0 tt [] fs1 /\
        forall b, outside start b -> fs_disk fs1 b = fs_disk fs' b.
Proof.
  intros HD Hboot Hn Hnd Hout Hlen Hh. pose proof (start_inside start) as Hs.
  destruct (recover_full p pid start B fs) as (fs' & R & Hz & Hno & Hyes & Hw & Hd); try done.
  exists fs', (recover_ws (fs_disk fs) start B). split_and!; try done.
  intros ws1 ws2 fs0 [(C & HC)| ->]%recover_ws_split Hb0 Hd0.
  - assert (forall b, b ∈ ws1.*1 -> outside start b) as Ho.
    { intros b Hb. apply Hout. rewrite <- (home_ws_blocks (fs_disk fs) start B 0), HC, fmap_app.
      by apply elem_of_app; left. }
    assert (forall b, b ∈ ws1.*1 -> b ∈ B) as HinB.
    { intros b Hb. rewrite <- (home_ws_blocks (fs_disk fs) start B 0), HC, fmap_app.
      by apply elem_of_app; left. }
    assert (fs_disk fs0 start = fs_disk fs start) as Es.
    { rewrite Hd0. apply apply_writes_notin. by intros ?%Ho. }
    destruct (recover_full p pid start B fs0) as (fs1 & R1 & _ & Hno1 & Hyes1 & _); rewrite ?Es; try done.
    exists fs1. split; [done|]. intros b Hb. destruct (decide (b ∈ B)) as [Hin|Hin].
    + apply list_elem_of_lookup in Hin as [i Hi]. rewrite (Hyes1 i b Hi), (Hyes i b Hi), Hd0.
      apply lookup_lt_Some in Hi. rewrite <- Z.add_assoc. apply home_writes_log; [done|].
      unfold LOGSIZE, MAXOPBLOCKS. lia.
    + rewrite Hno1, Hno, Hd0 by done. apply apply_writes_notin. by intros ?%HinB.
  - destruct (recover_empty p pid start fs0) as (fs1 & R1 & _ & Ho); try done.
    + rewrite Hd0, <- Hd, Hd. rewrite recover_ws_start. by rewrite length_header.
    + rewrite Hd0, recover_ws_start. by apply header_empty.
    + exists fs1. split; [done|]. intros b Hb. by rewrite Ho, Hd0, Hd.
Qed.

(** ** Examples *)

(** An empty cache over a given disk and log. *)
Lemma boot_with pid d lg : exists L fs, bio_inv pid fs L d (fun _ => 0) ∅ /\
  fs_log fs = lg /\ fs_sb fs = fs_sb fsstate_boot /\ fs_disk fs = d.
Proof.
  destruct (binit_ok 0 pid (set_fs_log lg (set_fs_disk d fsstate_boot))) as (L & fs & _ & I & F & K & _).
  - done.
  - intros i Hi. unfold buf_at. cbn [fs_bufs set_fs_log set_fs_disk fsstate_boot].
    rewrite nth_lookup, lookup_replicate_2 by lia. split; [discriminate|reflexivity].
  - exists L, fs. split_and!; [exact I|apply F|apply F|exact K].
Qed.

Definition zero_block : list Z := replicate (Z.to_nat BSIZE) 0.
Definition log_example (n : Z) : log := Log 0 30 1 0 ROOTDEV n (aset (replicate 30 0) 0 40).

(** Block 40 modified and pinned, and listed in the log. *)
Lemma pinned_example v : exists L fs,
  bio_inv 1 fs L (dset (fun _ => zero_block) 40 v) (fun b => if decide (b ∈ [40]) then 1 else 0) ∅ /\
  fs_log fs = log_example 1 /\ fs_disk fs = fun _ => zero_block.
Proof.
  destruct (boot_with 1 (fun _ => zero_block) (log_example 1)) as (L & fs & I & El & _ & Ed).
  destruct (bread_ok (D := sync_disk) 0 1 fs L _ _ ∅ 40 I) as (i & fs1 & _ & I1 & B1 & _ & _ & F1 & K1);
    [set_solver|lia|right; eapply room_free; [exact I|exists []; split; [done|unfold NBUF; simpl; lia]]|].
  destruct (set_data_ok 1 fs1 L _ _ _ i 40 v I1 B1) as (I2 & B2 & _); [set_solver|].
  destruct (bpin_ok 0 1 [] _ L _ _ _ i 40 ltac:(set_solver) I2) as (fs3 & _ & I3 & B3 & F3 & K3).
  { by apply B2. }
  { unfold pset. rewrite decide_True by done. lia. }
  destruct (brelse_ok 0 1 fs3 L _ _ _ i 40 I3) as (L4 & fs4 & _ & I4 & _ & F4 & K4).
  { by apply B3, B2. }
  { set_solver. }
  { unfold pset. repeat rewrite decide_True by done. lia. }
  exists L4, fs4. split_and!.
  - eapply bio_inv_ext; [done| | |exact I4].
    + intros b. unfold pset. destruct (decide (b ∈ [40])) as [->%list_elem_of_singleton|Hn].
      * by repeat rewrite decide_True by done.
      * repeat rewrite decide_False by set_solver. done.
    + set_solver.
  - rewrite (fs_log_same _ _ F4), (fs_log_same _ _ F3). change (fs_log fs1 = log_example 1).
    by rewrite (fs_log_same _ _ F1).
  - destruct K4 as [-> _], K3 as [-> _]. change (fs_disk fs1 = fun _ => zero_block).
    destruct K1 as [-> _]. done.
Qed.

Lemma commit_crash_atomic_witness : exists fs fs' ws,
  fsr 0 1 [] (commit (D := sync_disk)) fs tt [] fs' /\
  fs_disk fs' = apply_writes (fs_disk fs) ws /\ fs_disk fs' 40 = replicate (Z.to_nat BSIZE) 7 /\
  fs_disk fs 40 = zero_block.
Proof.
  destruct (pinned_example (replicate (Z.to_nat BSIZE) 7)) as (L & fs & I & El & Ed).
  destruct (commit_crash_atomic sync_disk 0 1 0 [40] fs L
    (dset (fun _ => zero_block) 40 (replicate (Z.to_nat BSIZE) 7))
    (fun b => if decide (b ∈ [40]) then 1 else 0) sync_disk_ok)
    as (fs' & ws & R & _ & Hd & Hv & _).
  - rewrite El. split; [reflexivity|]. split; [reflexivity|]. split; reflexivity.
  - simpl. lia.
  - apply NoDup_singleton.
  - intros b ->%list_elem_of_singleton. unfold outside, LOGSIZE, MAXOPBLOCKS. lia.
  - exact I.
  - intros b. reflexivity.
  - rewrite Ed. apply length_replicate.
  - rewrite Ed. vm_compute. reflexivity.
  - exists fs, fs', ws. split; [exact R|]. split; [exact Hd|]. split; [|by rewrite Ed].
    rewrite Hv; [reflexivity|]. unfold outside, LOGSIZE, MAXOPBLOCKS. lia.
Defined.

Lemma recovery_idempotent_witness : exists fs fs',
  fsr 0 1 [] (initlog (D := sync_disk) ROOTDEV) fs tt [] fs' /\ fs_disk fs' 40 = fs_disk fs 1.
Proof.
  destruct (boot_with 1 (dset (fun _ => zero_block) 0 (header [40] zero_block)) (log_example 0))
    as (L & fs & I & El & Es & Ed).
  destruct (recovery_idempotent sync_disk 0 1 0 [40] fs sync_disk_ok) as (fs' & ws & R & _ & _ & Hy & _).
  - split; [exists L; by rewrite Ed|by rewrite Es|by rewrite El].
  - simpl. lia.
  - apply NoDup_singleton.
  - intros b ->%list_elem_of_singleton. unfold outside, LOGSIZE, MAXOPBLOCKS. lia.
  - rewrite Ed. vm_compute. reflexivity.
  - rewrite Ed. split; [vm_compute; reflexivity|]. intros i b Hi.
    destruct i as [|i]; [|done]. simpl in Hi. simplify_eq. vm_compute. reflexivity.
  - exists fs, fs'. split; [exact R|]. apply (Hy 0%nat 40). reflexivity.
Defined.
