(* ===== verification/Txn.v ===== *)
(** * Txn: file-system code inside a transaction

    Between [begin_op] and [end_op] the blocks have contents [V]; the
    blocks [B] are in the log, their buffers pinned; [Hs] are the blocks
    whose buffers the caller holds.  The rules below give [bread],
    modification with [log_write], and [brelse] in these terms; fs.c is
    verified with them. *)

From S2P Require Import Prelude.
From S2P Require Import State.
From S2P Require Import Kernel.
From S2P Require Import Sched.
From S2P Require Import SchedProps.
From S2P Require Import Bio.
From S2P Require Import FsRun.
From S2P Require Import BioProps.
From S2P Require Import Log.
From S2P Require Import LogProps.
From S2P Require Import LogCrash.

(** References to a block: one for the log, one for its holder. *)
Definition refs (B : list Z) (Hs : gset Z) (b : Z) : Z :=
  (if decide (b ∈ B) then 1 else 0) + (if decide (b ∈ Hs) then 1 else 0).

(** The log after [log_write] of block [b]. *)
Definition logged (B : list Z) (b : Z) : list Z := if decide (b ∈ B) then B else B ++ [b].

Lemma logged_in B b x : x ∈ logged B b <-> x ∈ B \/ x = b.
Proof. unfold logged. case_decide; set_solver. Qed.
Lemma logged_nodup B b : NoDup B -> NoDup (logged B b).
Proof.
  intros H. unfold logged. case_decide; [done|]. apply NoDup_app. split_and!; [done| |apply NoDup_singleton].
  set_solver.
Qed.
Lemma length_logged B b : (length B <= length (logged B b) <= S (length B))%nat.
Proof. unfold logged. case_decide; rewrite ?length_app; simpl; lia. Qed.

(** The part of the log header that a transaction does not change. *)
Record log_ready (lg : log) (start : Z) : Prop := {
  lr_dev : log_dev lg = ROOTDEV;
  lr_start : log_start lg = start;
  lr_size : log_size lg = LOGSIZE;
  lr_blocks : length (lh_block lg) = 30%nat;
  lr_outstanding : 1 <= log_outstanding lg
}.

Record txn (pid start : Z) (fs : fsstate) (V : Z -> list Z) (B : list Z) (Hs : gset Z) : Prop := {
  tx_bio : exists L, bio_inv pid fs L V (refs B Hs) Hs;
  tx_log : lh_is (fs_log fs) B;
  tx_ready : log_ready (fs_log fs) start;
  tx_nodup : NoDup B;
  tx_clean : forall b, b ∉ B -> V b = fs_disk fs b
}.

(** What no step inside a transaction changes. *)
Record tx_same (fs fs' : fsstate) : Prop := {
  ts_sb : fs_sb fs' = fs_sb fs;
  ts_itable : fs_itable fs' = fs_itable fs;
  ts_isl : forall i, fs_sl fs' (SL_inode i) = fs_sl fs (SL_inode i);
  ts_disk : same_disk fs fs'
}.
Lemma tx_same_refl fs : tx_same fs fs.
Proof. by split. Qed.
Lemma tx_same_trans a b c : tx_same a b -> tx_same b c -> tx_same a c.
Proof. intros [? ? ? [? ?]] [? ? ? [? ?]]. split; try congruence. split; congruence. Qed.

(** Buffers of held blocks stay where they are. *)
Definition bufs_kept (Hs : gset Z) (fs fs' : fsstate) : Prop :=
  forall i b, b ∈ Hs -> is_buf fs i b -> is_buf fs' i b.

Lemma bufs_kept_trans Hs Hs' a b c : Hs ⊆ Hs' -> bufs_kept Hs a b -> bufs_kept Hs' b c -> bufs_kept Hs a c.
Proof. intros Hsub H1 H2 i x Hx Hi. apply H2; [set_solver|]. by apply H1. Qed.

Lemma hold_release (b : Z) (Hs : gset Z) : b ∉ Hs -> ({[b]} ∪ Hs) ∖ {[b]} = Hs.
Proof. set_solver. Qed.

Lemma refs_bound B Hs b : 0 <= refs B Hs b <= 2.
Proof. unfold refs. repeat case_decide; lia. Qed.

Section txn.
Context (p : nat) (pid start : Z).
Implicit Types (V : Z -> list Z) (B : list Z) (Hs : gset Z).

(** [bread] of a block not held. *)
Lemma tx_bread `{D : Disk} `{!DiskOk D} fs V B Hs b : txn pid start fs V B Hs -> b ∉ Hs ->
  (length B + size Hs < NBUF)%nat ->
  exists i fs', fsr p pid [] (bread ROOTDEV b) fs i [] fs' /\
    txn pid start fs' V B ({[b]} ∪ Hs) /\ is_buf fs' i b /\ b_data (buf_at fs' i) = V b /\
    bufs_kept Hs fs fs' /\ tx_same fs fs' /\ fs_log fs' = fs_log fs.
Proof.
  intros [(L & Hi) Hlg Hr Hnd Hcl] HbH Hsz.
  destruct (bread_ok p pid fs L V (refs B Hs) Hs b Hi HbH) as (i & fs' & R & I & Bu & Da & Ke & F & [K1 K2]).
  { pose proof (refs_bound B Hs b). lia. }
  { right. apply (free_buf_exists pid fs L V (refs B Hs) Hs (B ++ elements Hs)); [done| |].
    - intros x Hx. unfold refs in Hx. apply elem_of_app. rewrite elem_of_elements.
      repeat case_decide; naive_solver.
    - rewrite length_app. unfold size, set_size in Hsz. simpl in Hsz. lia. }
  exists i, fs'. split_and!; try done.
  - split.
    + exists L. eapply bio_inv_ext; [done| |done|exact I].
      intros x. unfold pset, refs. destruct (decide (x = b)) as [->|Hx].
      * rewrite (decide_False (P := b ∈ Hs)), (decide_True (P := b ∈ {[b]} ∪ Hs)) by set_solver. lia.
      * f_equal. destruct (decide (x ∈ Hs)), (decide (x ∈ {[b]} ∪ Hs)); set_solver.
    + by rewrite (fs_log_same _ _ F).
    + by rewrite (fs_log_same _ _ F).
    + done.
    + intros x Hx. rewrite K1. by apply Hcl.
  - intros j x Hx Hj. apply Ke; [|done]. unfold refs. rewrite (decide_True (P := x ∈ Hs)) by done.
    case_decide; lia.
  - by split; try apply F.
  - apply F.
Qed.

(** [brelse] of a held block. *)
Lemma tx_brelse fs V B Hs i b : txn pid start fs V B Hs -> b ∈ Hs -> is_buf fs i b ->
  exists fs', fsr p pid [] (brelse i) fs tt [] fs' /\
    txn pid start fs' V B (Hs ∖ {[b]}) /\
    (forall j x, is_buf fs' j x <-> is_buf fs j x) /\ tx_same fs fs' /\ fs_log fs' = fs_log fs.
Proof.
  intros [(L & Hi) Hlg Hr Hnd Hcl] HbH Hib.
  destruct (brelse_ok p pid fs L V (refs B Hs) Hs i b Hi Hib HbH) as (L' & fs' & R & I & Ke & F & [K1 K2]).
  { unfold refs. rewrite (decide_True (P := b ∈ Hs)) by done. case_decide as HB; [lia|].
    intros _. by apply Hcl. }
  exists fs'. split_and!; try done.
  - split.
    + exists L'. eapply bio_inv_ext; [done| |done|exact I].
      intros x. unfold pset, refs. destruct (decide (x = b)) as [->|Hx].
      * rewrite (decide_True (P := b ∈ Hs)), (decide_False (P := b ∈ Hs ∖ {[b]})) by set_solver. lia.
      * f_equal. destruct (decide (x ∈ Hs)), (decide (x ∈ Hs ∖ {[b]})); set_solver.
    + by rewrite (fs_log_same _ _ F).
    + by rewrite (fs_log_same _ _ F).
    + done.
    + intros x Hx. rewrite K1. by apply Hcl.
  - by split; try apply F.
  - apply F.
Qed.

(** The header slot of a block. *)
Lemma log_slot_spec (l : list Z) b : forall n, (n <= length l)%nat ->
  (log_slot l n b <= n)%nat /\
  (log_slot l n b = n -> b ∉ take n l) /\
  ((log_slot l n b < n)%nat -> l !! log_slot l n b = Some b).
Proof.
  induction l as [|x l IH]; intros n Hn.
  { simpl in Hn. assert (n = 0%nat) as -> by lia. simpl. split; [lia|]. split; [set_solver|lia]. }
  destruct n as [|n]; [simpl; split; [lia|]; split; [set_solver|lia]|]. simpl in Hn. cbn [log_slot take].
  destruct (Z.eqb_spec x b) as [->|Hx].
  - split; [lia|]. split; [lia|]. done.
  - destruct (IH n) as (H1 & H2 & H3); [lia|]. split; [lia|]. split.
    + intros E. apply not_elem_of_cons. split; [done|]. apply H2. lia.
    + intros E. apply H3. lia.
Qed.

Lemma log_slot_in lg B b : lh_is lg B -> (length B <= length (lh_block lg))%nat -> b ∈ B ->
  lh_block lg !! log_slot (lh_block lg) (length B) b = Some b /\
  (log_slot (lh_block lg) (length B) b < length B)%nat.
Proof.
  intros [_ HB] Hl Hb. destruct (log_slot_spec (lh_block lg) b (length B) Hl) as (H1 & H2 & H3).
  rewrite HB in H2. destruct (decide (log_slot (lh_block lg) (length B) b = length B)) as [E|E].
  - by apply H2 in E.
  - split; [apply H3; lia|lia].
Qed.

Lemma log_slot_notin lg B b : lh_is lg B -> (length B <= length (lh_block lg))%nat -> b ∉ B ->
  log_slot (lh_block lg) (length B) b = length B.
Proof.
  intros [_ HB] Hl Hb. destruct (log_slot_spec (lh_block lg) b (length B) Hl) as (H1 & H2 & H3).
  destruct (decide (log_slot (lh_block lg) (length B) b = length B)) as [E|E]; [done|].
  destruct Hb. rewrite <- HB. apply list_elem_of_lookup. exists (log_slot (lh_block lg) (length B) b).
  rewrite lookup_take_lt by lia. apply H3. lia.
Qed.

(** The in-memory log after [log_write]. *)
Definition log_after (lg : log) (B : list Z) (b : Z) : log :=
  if decide (b ∈ B) then lg
  else set_lh_n (Z.of_nat (S (length B))) (set_lh_block (aset (lh_block lg) (Z.of_nat (length B)) b) lg).

Lemma log_after_is lg B b : lh_is lg B -> (length B < length (lh_block lg))%nat ->
  lh_is (log_after lg B b) (logged B b).
Proof.
  intros [Hn HB] Hl. unfold log_after, logged. case_decide as Hb; [done|]. split; simpl.
  - rewrite length_app. simpl. lia.
  - rewrite length_app. simpl. rewrite Nat.add_1_r. unfold aset. rewrite Nat2Z.id.
    erewrite take_S_r by (apply list_lookup_insert_eq; lia). rewrite take_insert_ge by lia. by rewrite HB.
Qed.

Lemma log_after_ready lg B b : log_ready lg start -> log_ready (log_after lg B b) start.
Proof.
  intros [? ? ? ? ?]. unfold log_after. case_decide; [done|]. split; try done. simpl. by rewrite length_aset.
Qed.

(** [log_write] of a held buffer whose content was replaced by [v]. *)
Lemma tx_log_write fs V B Hs i b v : txn pid start fs V B Hs -> b ∈ Hs -> is_buf fs i b ->
  (length B < 29)%nat ->
  exists fs', fsr p pid [] (log_write i) (upd_buf i (set_b_data v) fs) tt [] fs' /\
    txn pid start fs' (dset V b v) (logged B b) Hs /\
    (forall j x, is_buf fs' j x <-> is_buf fs j x) /\ tx_same fs fs' /\
    fs_log fs' = log_after (fs_log fs) B b.
Proof.
  intros Htx HbH Hib HB. pose proof Htx as [(L & Hi) Hlg Hr Hnd Hcl].
  destruct (set_data_ok pid fs L V (refs B Hs) Hs i b v Hi Hib HbH) as (I1 & B1 & _).
  set (fs1 := upd_buf i (set_b_data v) fs) in *.
  pose proof (lr_blocks _ _ Hr) as Hbl. pose proof Hlg as [Hn HBt].
  assert (b_blockno (buf_at fs1 i) = b) as Eb by (apply B1 in Hib; apply Hib).
  assert (forall fs2 lg, fs_log fs2 = lg -> lh_is lg (logged B b) -> log_ready lg start ->
    bio_inv pid fs2 L (dset V b v) (refs (logged B b) Hs) Hs -> fs_disk fs2 = fs_disk fs ->
    txn pid start fs2 (dset V b v) (logged B b) Hs) as Hfin.
  { intros fs2 lg <- H1 H2 H3 H4. split; try done; [by exists L|by apply logged_nodup|].
    intros x Hx. rewrite logged_in in Hx. rewrite dset_ne by tauto. rewrite H4. apply Hcl. tauto. }
  pose proof (log_after_is (fs_log fs) B b Hlg ltac:(lia)) as Hla.
  pose proof (log_after_ready (fs_log fs) B b Hr) as Hlr.
  assert (forall fs2 h, fsr p pid [L_log] (
      mod_log (fun lg => set_lh_block (aset (lh_block lg) (Z.of_nat (log_slot (lh_block (fs_log fs)) (length B) b)) b) lg);;
      kwhen (Z.of_nat (log_slot (lh_block (fs_log fs)) (length B) b) =? lh_n (fs_log fs))
        (bpin i;; mod_log (fun lg => set_lh_n (i32 (lh_n lg + 1)) lg));;
      release L_log) fs1 tt h fs2 -> fsr p pid [] (log_write i) fs1 tt h fs2) as Hrun.
  { intros fs2 h R. unfold log_write. eapply fsr_bind; [apply fsr_acquire; set_solver|].
    eapply fsr_bind; [apply (fsr_get p pid _ fs_log)|].
    change (fs_log fs1) with (fs_log fs). rewrite Hn, (lr_size _ _ Hr).
    unfold LOGSIZE, MAXOPBLOCKS in *.
    rewrite (proj2 (Z.leb_gt (10 * 3) _)), (proj2 (Z.leb_gt (10 * 3 - 1) _)) by lia. cbn [orb].
    pose proof (lr_outstanding _ _ Hr). rewrite (proj2 (Z.ltb_ge _ 1)) by lia.
    eapply fsr_bind; [apply fsr_get_buf|]. cbv zeta. rewrite Eb, Nat2Z.id. rewrite Hn in R. exact R. }
  destruct (decide (b ∈ B)) as [Hb|Hb].
  - destruct (log_slot_in (fs_log fs) B b Hlg ltac:(lia) Hb) as [Hsl Hlt].
    assert (log_after (fs_log fs) B b = fs_log fs) as Ela by (unfold log_after; by rewrite decide_True).
    assert (logged B b = B) as ElB by (unfold logged; by rewrite decide_True).
    exists fs1. split_and!; try done.
    + apply Hrun. eapply fsr_bind; [apply fsr_mod_log|]. cbn beta.
      assert (set_fs_log (set_lh_block (aset (lh_block (fs_log fs1))
        (Z.of_nat (log_slot (lh_block (fs_log fs)) (length B) b)) b) (fs_log fs1)) fs1 = fs1) as Hid.
      { unfold aset. rewrite Nat2Z.id. change (fs_log fs1) with (fs_log fs).
        rewrite list_insert_id by done. unfold fs1. by destruct fs as [? ? []]. }
      rewrite Hid.
      rewrite Hn. rewrite (proj2 (Z.eqb_neq _ _)) by lia. eapply fsr_bind; [apply fsr_ret|]. apply fsr_release. set_solver.
    + eapply (Hfin fs1 (fs_log fs)); try done; by rewrite ElB.
  - pose proof (log_slot_notin (fs_log fs) B b Hlg ltac:(lia) Hb) as Esl.
    assert (refs B Hs b = 1) as Er by (unfold refs; by rewrite decide_False, decide_True).
    set (lg2 := set_lh_block (aset (lh_block (fs_log fs)) (Z.of_nat (length B)) b) (fs_log fs)).
    set (fs2 := set_fs_log lg2 fs1).
    destruct (bpin_ok p pid [L_log] fs2 L (dset V b v) (refs B Hs) Hs i b) as (fs3 & R3 & I3 & B3 & F3 & [K3 K4]).
    { set_solver. }
    { by apply bio_inv_log. }
    { by apply B1. }
    { lia. }
    set (fs4 := set_fs_log (log_after (fs_log fs) B b) fs3).
    exists fs4. split_and!.
    + apply Hrun. eapply fsr_bind; [apply fsr_mod_log|]. rewrite Esl. change (fs_log fs1) with (fs_log fs).
      fold lg2 fs2. rewrite Hn, Z.eqb_refl. cbn [kwhen].
      apply fsr_assoc. eapply fsr_bind; [exact R3|]. eapply fsr_bind; [apply fsr_mod_log|].
      eapply fsr_eq; [apply fsr_release; set_solver|]. unfold fs4. f_equal.
      rewrite (fs_log_same _ _ F3). unfold log_after. rewrite decide_False by done.
      change (fs_log fs2) with lg2. change (lh_n lg2) with (lh_n (fs_log fs)).
      rewrite Hn, i32_small by lia. unfold lg2. do 2 f_equal. lia.
    + apply (Hfin fs4 (log_after (fs_log fs) B b)); try done.
      apply bio_inv_log. eapply bio_inv_ext; [done| |done|exact I3].
      intros x. unfold pset, refs. destruct (decide (x = b)) as [->|Hx].
      * rewrite (decide_True (P := b ∈ Hs)), (decide_False (P := b ∈ B)) by done.
        rewrite decide_True by (apply logged_in; tauto). lia.
      * f_equal. destruct (decide (x ∈ B)), (decide (x ∈ logged B b)) as [H|H]; rewrite logged_in in H; tauto.
    + intros j x. unfold is_buf. change (buf_at fs4 j) with (buf_at fs3 j).
      change (is_buf fs3 j x <-> is_buf fs j x). rewrite B3. apply B1.
    + split; try done; try apply F3.
    + done.
Qed.

(** ** begin_op and end_op *)

(** No operation in progress: nothing referenced, an empty log in memory
    and on disk. *)
Record idle (fs : fsstate) : Prop := {
  id_bio : exists L, bio_inv pid fs L (fs_disk fs) (fun _ => 0) ∅;
  id_log : log_is (fs_log fs) start [];
  id_size : log_size (fs_log fs) = LOGSIZE;
  id_blocks : length (lh_block (fs_log fs)) = 30%nat;
  id_outstanding : log_outstanding (fs_log fs) = 0;
  id_committing : log_committing (fs_log fs) = 0;
  id_header : hb_n (fs_disk fs start) = 0;
  id_header_len : length (fs_disk fs start) = Z.to_nat BSIZE
}.

(** The state after [begin_op]. *)
Definition begun (fs : fsstate) : fsstate := set_fs_log (set_log_outstanding 1 (fs_log fs)) fs.

Lemma begin_op_idle fs : idle fs ->
  fsr p pid [] begin_op fs tt [] (begun fs) /\ txn pid start (begun fs) (fs_disk fs) [] ∅.
Proof.
  intros [(L & Hi) (Hd & Hs & Hn & Ht) Hsz Hbl Ho Hc _ _]. split.
  - unfold begin_op. eapply fsr_bind; [apply fsr_acquire; set_solver|].
    intros w Hcx Hf.
    assert (forall n, begin_op_loop n w =
      (mod_log (fun lg => set_log_outstanding (i32 (log_outstanding lg + 1)) lg);; release L_log) w) as Hl.
    { intros n. destruct n; cbn [begin_op_loop]; unfold get_log; rewrite bind_kget, Hf, Hc, Hn, Ho; done. }
    unfold with_fuel. rewrite Hl. revert w Hcx Hf Hl.
    assert (fsr p pid [L_log] (mod_log (fun lg => set_log_outstanding (i32 (log_outstanding lg + 1)) lg);;
      release L_log) fs tt [] (begun fs)) as R.
    { eapply fsr_bind; [apply fsr_mod_log|]. cbn beta. rewrite Ho. apply fsr_release. set_solver. }
    intros w Hcx Hf _. by apply R.
  - split.
    + exists L. apply bio_inv_log. eapply bio_inv_ext; [done| |done|exact Hi].
      intros b. unfold refs. rewrite !decide_False by set_solver. done.
    + done.
    + split; try done.
    + apply NoDup_nil_2.
    + done.
Qed.

(** [end_op] of the only operation commits and leaves the file system idle. *)
Lemma end_op_ok `{D : Disk} `{!DiskOk D} fs V B : txn pid start fs V B ∅ -> (length B <= 29)%nat ->
  (forall b, b ∈ B -> outside start b /\ 0 <= b < 2 ^ 31) ->
  log_outstanding (fs_log fs) = 1 -> log_committing (fs_log fs) = 0 ->
  hb_n (fs_disk fs start) = 0 -> length (fs_disk fs start) = Z.to_nat BSIZE ->
  exists fs' ws, fsr p pid [] end_op fs tt [] fs' /\ idle fs' /\
    fs_sb fs' = fs_sb fs /\ fs_itable fs' = fs_itable fs /\
    fs_disk fs' = apply_writes (fs_disk fs) ws /\ fs_writes fs' = rev ws ++ fs_writes fs /\
    (ws = [] /\ B = [] \/ ws = commit_ws V start B (fs_disk fs start)).
Proof.
  intros [(L & Hi) Hlg Hr Hnd Hcl] HB Hout Ho Hc Hh Hhl.
  pose proof Hr as [Hd Hs Hsz Hbl _].
  assert (forall b, refs B ∅ b = if decide (b ∈ B) then 1 else 0) as Hrf.
  { intros b. unfold refs. rewrite (decide_False (P := b ∈ ∅)) by set_solver. lia. }
  set (lg1 := set_log_committing 1 (set_log_outstanding 0 (fs_log fs))).
  set (fs1 := set_fs_log lg1 fs).
  assert (quiet []) as Hq by apply quiet_nil.
  assert (exists L2 fs2 ws, fsr p pid [] commit fs1 tt [] fs2 /\ fs_log fs2 = set_lh_n 0 lg1 /\
    outcome_log pid fs1 fs2 L2 (apply_writes V ws) (fun _ => 0) ws /\
    (ws = [] /\ B = [] \/ ws = commit_ws V start B (fs_disk fs start))) as (L2 & fs2 & ws & R2 & E2 & O2 & Hws).
  { destruct (decide (B = [])) as [->|Hne].
    - exists L, fs1, []. destruct Hlg as [Hn _]. split_and!; [|destruct fs as [? ? []]; simpl in *; by subst| |by left].
      + unfold commit. eapply fsr_bind; [apply (fsr_get p pid [] fs_log)|].
        change (lh_n (fs_log fs1)) with (lh_n (fs_log fs)). rewrite Hn. apply fsr_ret.
      + split_and!; try done. apply bio_inv_log. eapply bio_inv_ext; [done| |done|exact Hi].
        intros b. rewrite Hrf. by rewrite decide_False by set_solver.
    - destruct (commit_ok p pid start B fs1 L V (refs B ∅)) as (L2 & fs2 & R2 & E2 & O2); try done.
      { destruct B; [done|]. simpl in *. lia. }
      { intros b Hb. by apply Hout. }
      { by apply bio_inv_log. }
      exists L2, fs2, (commit_ws V start B (V start)). split_and!; try done. right. f_equal. apply Hcl.
      intros [Hx _]%Hout. by apply (start_inside start). }
  destruct O2 as (I2 & Hsb & Hit & Hdk & Hwr).
  set (fs3 := set_fs_log (set_log_committing 0 (fs_log fs2)) fs2).
  exists fs3, ws. split_and!; try done.
  - unfold end_op. eapply fsr_bind; [apply fsr_acquire; set_solver|].
    eapply fsr_bind; [apply fsr_mod_log|]. cbn beta.
    eapply fsr_bind; [apply (fsr_get p pid _ fs_log)|]. cbn [fs_log set_fs_log].
    change (log_committing (set_log_outstanding (i32 (log_outstanding (fs_log fs) - 1)) (fs_log fs)))
      with (log_committing (fs_log fs)). rewrite Hc, Ho. cbn [negb Z.eqb].
    change (i32 (1 - 1)) with 0. change (log_outstanding (set_log_outstanding 0 (fs_log fs)) =? 0) with true.
    cbv zeta iota. eapply fsr_bind; [apply fsr_mod_log|]. cbn beta.
    eapply fsr_bind; [apply fsr_release; set_solver|]. cbn [kwhen].
    eapply fsr_bind; [exact R2|]. eapply fsr_bind; [apply fsr_acquire; set_solver|].
    eapply fsr_bind; [apply fsr_mod_log|]. cbn beta.
    eapply fsr_bind; [apply fsr_wakeup|apply fsr_release; set_solver].
    split; [set_solver|]. intros j. set_solver.
  - assert (length (fs_disk fs2 start) = Z.to_nat BSIZE /\ hb_n (fs_disk fs2 start) = 0) as [Hl2 Hh2].
    { rewrite Hdk. change (fs_disk fs1) with (fs_disk fs). destruct Hws as [[-> ->]| ->]; [done|].
      unfold commit_ws. rewrite !apply_writes_app. cbn [apply_writes fold_left fst snd].
      rewrite dset_eq, !length_header. split; [done|]. apply header_empty. by rewrite length_header. }
    split; try done.
    + exists L2. apply bio_inv_log. eapply bio_inv_ext; [|done|done|exact I2].
      intros b. symmetry. symmetry. apply (bi_clean _ _ _ _ _ _ I2). done.
    + simpl. rewrite E2. split_and!; [done|done|]. split; done.
    + simpl. by rewrite E2.
    + simpl. by rewrite E2.
    + simpl. by rewrite E2.
Qed.
End txn.

(** ** Theorems *)

(** C1: a file-system operation is atomic.  If, between [begin_op] and
    [end_op], a body [m] that starts with the contents of the disk turns
    them into [V], logging the blocks [B], then the whole operation returns
    with the file system idle again and [V] on the disk, and a crash after
    any prefix of its disk writes, followed by [initlog], leaves either all
    blocks outside the log as they were or all of them as in [V]. *)
Theorem transaction_atomic (D : Disk) p pid start fs (m : K unit) fs1 V B : DiskOk D ->
  idle pid start fs ->
  fsr p pid [] m (begun fs) tt [] fs1 -> txn pid start fs1 V B ∅ ->
  log_outstanding (fs_log fs1) = 1 -> log_committing (fs_log fs1) = 0 -> same_disk fs fs1 ->
  (length B <= 29)%nat -> (forall b, b ∈ B -> outside start b /\ 0 <= b < 2 ^ 31) ->
  exists fs' ws, fsr p pid [] (begin_op;; m;; end_op) fs tt [] fs' /\ idle pid start fs' /\
    fs_disk fs' = apply_writes (fs_disk fs) ws /\ fs_writes fs' = rev ws ++ fs_writes fs /\
    (forall b, outside start b -> fs_disk fs' b = V b) /\
    forall ws1 ws2 fs0, ws = ws1 ++ ws2 ->
      boot_state pid start fs0 -> fs_disk fs0 = apply_writes (fs_disk fs) ws1 ->
      exists fs2, fsr p pid [] (initlog ROOTDEV) fs0 tt [] fs2 /\
        ((forall b, outside start b -> fs_disk fs2 b = fs_disk fs b) \/
         (forall b, outside start b -> fs_disk fs2 b = V b)).
Proof.
  intros HD Hid Hm Htx Ho Hc [Hd Hw] HB Hout. pose proof Hid as [_ _ _ _ _ _ Hh Hhl].
  destruct (begin_op_idle p pid start fs Hid) as [Rb _].
  destruct (end_op_ok p pid start fs1 V B Htx HB Hout Ho Hc) as (fs' & ws & Re & Hid' & _ & _ & Hd' & Hw' & Hws);
    [by rewrite Hd..|].
  assert (forall b, b ∉ B -> V b = fs_disk fs b) as HV.
  { intros b Hb. rewrite (tx_clean _ _ _ _ _ _ Htx b Hb). by rewrite Hd. }
  assert (forall b, outside start b -> apply_writes (fs_disk fs) ws b = V b) as Hall.
  { intros b Hb. destruct Hws as [[-> ->]| ->]; [symmetry; by apply HV, not_elem_of_nil|].
    apply commit_disk; try done. intros x Hx. by apply Hout. }
  rewrite Hd in Hd', Hws. rewrite Hw in Hw'.
  exists fs', ws. split_and!; try done.
  - eapply fsr_bind; [exact Rb|]. eapply fsr_bind; [exact Hm|exact Re].
  - intros b Hb. rewrite Hd'. by apply Hall.
  - intros ws1 ws2 fs0 E Hboot Hd0. destruct Hws as [[-> ->]| ->].
    + symmetry in E. apply app_eq_nil in E as [-> ->].
      destruct (recover_empty p pid start fs0) as (fs2 & R2 & _ & H2); [done|by rewrite Hd0..|].
      exists fs2. split; [done|]. left. intros b Hb. by rewrite (H2 b Hb), Hd0.
    + destruct (crash_outcome p pid start B (fs_disk fs) V ws1 ws2 fs0) as (fs2 & R2 & _ & H2); try done.
      { apply Htx. }
      exists fs2. split; [done|]. destruct (decide (length ws1 <= length B)%nat); [by left|by right].
Qed.

(** C3: [log_write] of a buffer the caller holds, whose content it replaced
    by [v], makes [v] the content of the block in this transaction: the
    block is in the log exactly once (a block already logged is absorbed),
    its buffer is pinned, and neither the disk nor any other block
    changes. *)
Theorem log_write_correct p pid start fs V B Hs i b v :
  txn pid start fs V B Hs -> b ∈ Hs -> is_buf fs i b -> (length B < 29)%nat ->
  exists fs', fsr p pid [] (log_write i) (upd_buf i (set_b_data v) fs) tt [] fs' /\
    txn pid start fs' (dset V b v) (logged B b) Hs /\
    (forall j x, is_buf fs' j x <-> is_buf fs j x) /\ tx_same fs fs'.
Proof.
  intros Htx Hb Hib HB. destruct (tx_log_write p pid start fs V B Hs i b v Htx Hb Hib HB)
    as (fs' & R & T & Hk & Hs' & _). by exists fs'.
Qed.

(** [log_write] refuses what would corrupt the log: it panics when the
    header or the log area is full (also if the block is already logged),
    and outside of a transaction. *)
Theorem log_write_panics i w : L_log ∉ k_held (w_k w) ->
  let lg := fs_log (k_fs (w_k w)) in
  (LOGSIZE <= lh_n lg \/ log_size lg - 1 <= lh_n lg ->
     exists w', log_write i w = Panic "too big a transaction" w') /\
  (lh_n lg < LOGSIZE -> lh_n lg < log_size lg - 1 -> log_outstanding lg < 1 ->
     exists w', log_write i w = Panic "log_write outside of trans" w').
Proof.
  intros Hh. cbv zeta. unfold log_write.
  rewrite (bind_ret _ _ _ _ _ (acquire_ok L_log w Hh)). unfold get_log. rewrite bind_kget.
  cbn [w_k with_k set_k_held k_fs]. split.
  - intros Hf. destruct (Z.leb_spec LOGSIZE (lh_n (fs_log (k_fs (w_k w))))) as [H1|H1]; [by eexists|].
    destruct (Z.leb_spec (log_size (fs_log (k_fs (w_k w))) - 1) (lh_n (fs_log (k_fs (w_k w))))); [by eexists|lia].
  - intros H1 H2 H3. rewrite (proj2 (Z.leb_gt _ _) H1), (proj2 (Z.leb_gt _ _) H2), (proj2 (Z.ltb_lt _ _) H3).
    by eexists.
Qed.

(** ** Examples *)

Definition log_idle : log := Log 0 30 0 0 ROOTDEV 0 (replicate 30 0).

Lemma idle_example : exists fs, idle 1 0 fs /\ fs_disk fs = fun _ => zero_block.
Proof.
  destruct (boot_with 1 (fun _ => zero_block) log_idle) as (L & fs & I & El & _ & Ed).
  exists fs. split; [|done]. split; rewrite ?El, ?Ed; try done.
  - by exists L.

Qed.

(** The update of a block, the pattern of fs.c. *)
Definition fill (b v : Z) : K unit :=
  i ← bread (D := sync_disk) ROOTDEV b;
  mod_buf i (set_b_data (replicate (Z.to_nat BSIZE) v));;
  log_write i;;
  brelse i.

Lemma fill_ok fs b v V B : txn 1 0 fs V B ∅ -> (length B < 29)%nat ->
  exists fs', fsr 0 1 [] (fill b v) fs tt [] fs' /\
    txn 1 0 fs' (dset V b (replicate (Z.to_nat BSIZE) v)) (logged B b) ∅ /\
    tx_same fs fs' /\ fs_log fs' = log_after (fs_log fs) B b.
Proof.
  intros Htx HB.
  destruct (tx_bread (D := sync_disk) 0 1 0 fs V B ∅ b Htx) as (i & fs1 & R1 & T1 & B1 & _ & _ & S1 & E1).
  { set_solver. }
  { rewrite size_empty. unfold NBUF. lia. }
  destruct (tx_log_write 0 1 0 fs1 V B _ i b (replicate (Z.to_nat BSIZE) v) T1) as (fs2 & R2 & T2 & B2 & S2 & E2);
    [set_solver|done|done|].
  destruct (tx_brelse 0 1 0 fs2 _ _ _ i b T2) as (fs3 & R3 & T3 & _ & S3 & E3);
    [by apply elem_of_union_l, elem_of_singleton|by apply B2|].
  exists fs3. split_and!.
  - eapply fsr_bind; [exact R1|]. eapply fsr_bind; [apply fsr_mod_buf|]. eapply fsr_bind; [exact R2|exact R3].
  - by rewrite hold_release in T3 by apply not_elem_of_empty.
  - eapply tx_same_trans; [exact S1|]. eapply tx_same_trans; [exact S2|exact S3].
  - by rewrite E3, E2, E1.
Qed.

(** An operation that fills block 40 with 7s. *)
Lemma transaction_atomic_witness : exists fs fs',
  fsr 0 1 [] (begin_op;; fill 40 7;; end_op (D := sync_disk)) fs tt [] fs' /\
  fs_disk fs' 40 = replicate (Z.to_nat BSIZE) 7.
Proof.
  destruct idle_example as (fs & Hid & Hd).
  destruct (begin_op_idle 0 1 0 fs Hid) as [_ Htx].
  destruct (fill_ok (begun fs) 40 7 (fs_disk fs) [] Htx) as (fs1 & R & T & S & E); [simpl; lia|].
  pose proof (ts_disk _ _ S) as [Hd1 Hd2].
  destruct (transaction_atomic sync_disk 0 1 0 fs (fill 40 7) fs1
    (dset (fs_disk fs) 40 (replicate (Z.to_nat BSIZE) 7)) [40] sync_disk_ok Hid R)
    as (fs' & ws & R' & _ & _ & _ & H & _).
  - exact T.
  - rewrite E. reflexivity.
  - rewrite E. exact (id_committing _ _ _ Hid).
  - split; [exact Hd1|exact Hd2].
  - simpl. lia.
  - intros b ->%list_elem_of_singleton. unfold outside, LOGSIZE, MAXOPBLOCKS. lia.
  - exists fs, fs'. split; [exact R'|]. rewrite H; [reflexivity|]. unfold outside, LOGSIZE, MAXOPBLOCKS. lia.
Defined.

Lemma log_write_correct_witness : exists fs i fs',
  fsr 0 1 [] (log_write i) fs tt [] fs' /\ txn 1 0 fs' (dset (fun _ => zero_block) 40 zero_block) [40] {[40]}.
Proof.
  destruct idle_example as (fs & Hid & Hd).
  destruct (begin_op_idle 0 1 0 fs Hid) as [_ Htx].
  destruct (tx_bread (D := sync_disk) 0 1 0 (begun fs) (fs_disk fs) [] ∅ 40 Htx) as (i & fs1 & _ & T1 & B1 & _).
  { set_solver. }
  { rewrite size_empty. unfold NBUF. simpl. lia. }
  destruct (log_write_correct 0 1 0 fs1 (fs_disk fs) [] ({[40]} ∪ ∅) i 40 zero_block) as (fs2 & R & T & _).
  - exact T1.
  - set_solver.
  - exact B1.
  - simpl. lia.
  - exists (upd_buf i (set_b_data zero_block) fs1), i, fs2. split; [exact R|].
    rewrite Hd in T. rewrite union_empty_r_L in T. exact T.
Defined.

Lemma log_write_panics_witness : exists w w',
  log_write 0 w = Panic "log_write outside of trans" w'.
Proof.
  destruct (log_write_panics 0 (World [] (set_k_fs (set_fs_log log_idle fsstate_boot) (kst_boot 0))))
    as [_ H].
  - apply not_elem_of_nil.
  - destruct H as [w' H]; [reflexivity|reflexivity|reflexivity|].
    exists (World [] (set_k_fs (set_fs_log log_idle fsstate_boot) (kst_boot 0))), w'. exact H.
Defined.
