(* ===== verification/Vm.v ===== *)
(** * Vm: page tables

    Models kernel/vm.c.  A page table is the physical address of its root
    page; page-table pages are ordinary pages of the byte memory, read and
    written as 64-bit words.  Kernel objects that are not in the byte memory
    (buffers, pipe data, fields of structures) are copied by value:
    [copyout] takes the bytes to copy, [copyin] and [copyinstr] return what
    they stored in the destination, also when they fail half-way. *)

From S2P Require Import Prelude.
From S2P Require Import State.
From S2P Require Import Kernel.
From S2P Require Import Mem.
From S2P Require Import Kalloc.

(** ** Page table entries (riscv.h) *)

Definition PTE_V : Z := 1.
Definition PTE_R : Z := 2.
Definition PTE_W : Z := 4.
Definition PTE_X : Z := 8.
Definition PTE_U : Z := 16.
Definition PA2PTE (pa : Z) : Z := u64 (Z.shiftl (Z.shiftr pa 12) 10).
Definition PTE2PA (pte : Z) : Z := u64 (Z.shiftl (Z.shiftr pte 10) 12).
Definition PTE_FLAGS (pte : Z) : Z := Z.land pte 0x3FF.
Definition PXSHIFT (level : Z) : Z := 12 + 9 * level.
Definition PX (level va : Z) : Z := Z.land (Z.shiftr va (PXSHIFT level)) 0x1FF.
Definition MAXVA : Z := Z.shiftl 1 (9 + 9 + 9 + 12 - 1).
Definition has (pte flag : Z) : bool := negb (Z.land pte flag =? 0).

(** memlayout.h *)
Definition UART0 : Z := 0x10000000.
Definition VIRTIO0 : Z := 0x10001000.
Definition PLIC : Z := 0x0c000000.
Definition TRAMPOLINE : Z := MAXVA - PGSIZE.
Definition TRAPFRAME : Z := TRAMPOLINE - PGSIZE.
Definition KSTACK (p : nat) : Z := TRAMPOLINE - (Z.of_nat p + 1) * 2 * PGSIZE.

(** ** Memory access *)

Definition ld64 (a : Z) : K Z := kget (fun s => load64 (pm_mem (k_pm s)) a).
Definition st64 (a v : Z) : K unit := mod_pm (set_mem (fun m => store64 m a v)).
Definition kmemset (a c n : Z) : K unit := mod_pm (set_mem (memset a c n)).
Definition kmemmove (dst src n : Z) : K unit := mod_pm (set_mem (memmove dst src n)).
(** [memmove] from a kernel object holding the bytes [l]. *)
Definition kstore_bytes (dst : Z) (l : list Z) : K unit := mod_pm (set_mem (store_bytes l dst)).

(** ** Walking *)

(** The loop of [walk] over the levels still to descend; [None] is the
    null pointer. *)
Fixpoint walk_loop (levels : list Z) (pagetable va : Z) (alloc : bool) : K (option Z) :=
  match levels with
  | [] => mret (Some (pagetable + 8 * PX 0 va))
  | level :: levels' =>
    let ptea := pagetable + 8 * PX level va in
    pte ← ld64 ptea;
    if has pte PTE_V then walk_loop levels' (PTE2PA pte) va alloc
    else if negb alloc then mret None
    else
      page ← kalloc;
      if page =? 0 then mret None else
      kmemset page 0 PGSIZE;;
      st64 ptea (Z.lor (PA2PTE page) PTE_V);;
      walk_loop levels' page va alloc
  end.
Definition walk (pagetable va : Z) (alloc : bool) : K (option Z) :=
  if MAXVA <=? va then panic "walk" else walk_loop [2; 1] pagetable va alloc.

Definition walkaddr (pagetable va : Z) : K Z :=
  if MAXVA <=? va then mret 0 else
  pte ← walk pagetable va false;
  match pte with
  | None => mret 0
  | Some a =>
    v ← ld64 a;
    if negb (has v PTE_V) then mret 0
    else if negb (has v PTE_U) then mret 0
    else mret (PTE2PA v)
  end.

(** ** Mapping *)

(** The endless loop of [mappages], which ends at [last]. *)
Fixpoint mappages_loop (fuel : nat) (pagetable a last pa perm : Z) : K Z :=
  pte ← walk pagetable a true;
  match pte with
  | None => mret (-1)
  | Some ptea =>
    v ← ld64 ptea;
    if has v PTE_V then panic "mappages: remap" else
    st64 ptea (Z.lor (Z.lor (PA2PTE pa) perm) PTE_V);;
    if a =? last then mret 0
    else match fuel with
         | O => hang
         | S f => mappages_loop f pagetable (u64 (a + PGSIZE)) last (u64 (pa + PGSIZE)) perm
         end
  end.
Definition mappages (pagetable va size pa perm : Z) : K Z :=
  if size =? 0 then panic "mappages: size" else
  let a := PGROUNDDOWN va in
  let last := PGROUNDDOWN (u64 (va + size - 1)) in
  mappages_loop (Z.to_nat ((last - a) / PGSIZE)) pagetable a last pa perm.

Definition kvmmap (kpgtbl va pa sz perm : Z) : K unit :=
  r ← mappages kpgtbl va sz pa perm;
  if negb (r =? 0) then panic "kvmmap" else mret tt.

Fixpoint uvmunmap_loop (fuel : nat) (pagetable a stop : Z) (do_free : bool) : K unit :=
  if a <? stop then
    match fuel with
    | O => hang
    | S f =>
      pte ← walk pagetable a false;
      match pte with
      | None => panic "uvmunmap: walk"
      | Some ptea =>
        v ← ld64 ptea;
        if negb (has v PTE_V) then panic "uvmunmap: not mapped" else
        if PTE_FLAGS v =? PTE_V then panic "uvmunmap: not a leaf" else
        kwhen do_free (kfree (PTE2PA v));;
        st64 ptea 0;;
        uvmunmap_loop f pagetable (u64 (a + PGSIZE)) stop do_free
      end
    end
  else mret tt.
Definition uvmunmap (pagetable va npages : Z) (do_free : bool) : K unit :=
  if negb (va mod PGSIZE =? 0) then panic "uvmunmap: not aligned" else
  uvmunmap_loop (Z.to_nat npages) pagetable va (u64 (va + npages * PGSIZE)) do_free.

(** ** Address spaces *)

(** Like [kvmmake], [proc_mapstacks] runs once at boot. *)
Definition proc_mapstacks (kpgtbl : Z) : K unit :=
  kfor (seq 0 NPROC) (fun p =>
    pa ← kalloc;
    if pa =? 0 then panic "kalloc" else
    kvmmap kpgtbl (KSTACK p) pa PGSIZE (Z.lor PTE_R PTE_W)).

Definition kvmmake : K Z :=
  kpgtbl ← kalloc;
  kmemset kpgtbl 0 PGSIZE;;
  kvmmap kpgtbl UART0 UART0 PGSIZE (Z.lor PTE_R PTE_W);;
  kvmmap kpgtbl VIRTIO0 VIRTIO0 PGSIZE (Z.lor PTE_R PTE_W);;
  kvmmap kpgtbl PLIC PLIC 0x400000 (Z.lor PTE_R PTE_W);;
  etext ← kget (fun s => pm_etext (k_pm s));
  kvmmap kpgtbl KERNBASE KERNBASE (u64 (etext - KERNBASE)) (Z.lor PTE_R PTE_X);;
  kvmmap kpgtbl etext etext (u64 (PHYSTOP - etext)) (Z.lor PTE_R PTE_W);;
  trampoline ← kget (fun s => pm_trampoline (k_pm s));
  kvmmap kpgtbl TRAMPOLINE trampoline PGSIZE (Z.lor PTE_R PTE_X);;
  proc_mapstacks kpgtbl;;
  mret kpgtbl.

Definition kvminit : K unit :=
  p ← kvmmake;
  mod_pm (set_pm_kernel_pagetable p).

(** [MAKE_SATP]: the Sv39 mode and the page number. *)
Definition MAKE_SATP (pagetable : Z) : Z := Z.lor (Z.shiftl 8 60) (Z.shiftr pagetable 12).
Definition mod_csr (f : csrs -> csrs) : K unit := kmod (fun s => set_k_csr (f (k_csr s)) s).
Definition kvminithart : K unit :=
  p ← kget (fun s => pm_kernel_pagetable (k_pm s));
  mod_csr (set_csr_satp (MAKE_SATP p)).

Definition uvmcreate : K Z :=
  pagetable ← kalloc;
  if pagetable =? 0 then mret 0 else
  kmemset pagetable 0 PGSIZE;;
  mret pagetable.

(** [src] is the content of the kernel array [initcode]. *)
Definition uvmfirst (pagetable : Z) (src : list Z) : K unit :=
  if PGSIZE <=? Z.of_nat (length src) then panic "uvmfirst: more than a page" else
  mem ← kalloc;
  kmemset mem 0 PGSIZE;;
  mappages pagetable 0 PGSIZE mem (Z.lor (Z.lor PTE_W PTE_R) (Z.lor PTE_X PTE_U));;
  kstore_bytes mem src.

Definition uvmdealloc (pagetable oldsz newsz : Z) : K Z :=
  if oldsz <=? newsz then mret oldsz else
  kwhen (PGROUNDUP newsz <? PGROUNDUP oldsz)
    (let npages := i32 ((PGROUNDUP oldsz - PGROUNDUP newsz) / PGSIZE) in
     uvmunmap pagetable (PGROUNDUP newsz) (u64 npages) true);;
  mret newsz.

Fixpoint uvmalloc_loop (fuel : nat) (pagetable a oldsz newsz xperm : Z) : K Z :=
  if a <? newsz then
    match fuel with
    | O => hang
    | S f =>
      mem ← kalloc;
      if mem =? 0 then uvmdealloc pagetable a oldsz;; mret 0 else
      kmemset mem 0 PGSIZE;;
      r ← mappages pagetable a PGSIZE mem (Z.lor (Z.lor PTE_R PTE_U) xperm);
      if negb (r =? 0) then kfree mem;; uvmdealloc pagetable a oldsz;; mret 0 else
      uvmalloc_loop f pagetable (u64 (a + PGSIZE)) oldsz newsz xperm
    end
  else mret newsz.
Definition uvmalloc (pagetable oldsz newsz xperm : Z) : K Z :=
  if newsz <? oldsz then mret oldsz else
  let oldsz := PGROUNDUP oldsz in
  uvmalloc_loop (Z.to_nat ((newsz - oldsz + PGSIZE - 1) / PGSIZE)) pagetable oldsz oldsz newsz xperm.

(** [freewalk] descends at most the levels of a page table; the fuel is
    the depth. *)
Fixpoint freewalk (depth : nat) (pagetable : Z) : K unit :=
  match depth with
  | O => hang
  | S d =>
    kfor (seq 0 512) (fun i =>
      let ptea := pagetable + 8 * Z.of_nat i in
      pte ← ld64 ptea;
      if has pte PTE_V && (Z.land pte (Z.lor PTE_R (Z.lor PTE_W PTE_X)) =? 0) then
        freewalk d (PTE2PA pte);;
        st64 ptea 0
      else if has pte PTE_V then panic "freewalk: leaf"
      else mret tt);;
    kfree pagetable
  end.

Definition uvmfree (pagetable sz : Z) : K unit :=
  kwhen (0 <? sz) (uvmunmap pagetable 0 (PGROUNDUP sz / PGSIZE) true);;
  freewalk 3 pagetable.

Fixpoint uvmcopy_loop (fuel : nat) (old new i sz : Z) : K Z :=
  if i <? sz then
    match fuel with
    | O => hang
    | S f =>
      pte ← walk old i false;
      match pte with
      | None => panic "uvmcopy: pte should exist"
      | Some ptea =>
        v ← ld64 ptea;
        if negb (has v PTE_V) then panic "uvmcopy: page not present" else
        let pa := PTE2PA v in
        let flags := PTE_FLAGS v in
        mem ← kalloc;
        if mem =? 0 then uvmunmap new 0 (i / PGSIZE) true;; mret (-1) else
        kmemmove mem pa PGSIZE;;
        r ← mappages new i PGSIZE mem flags;
        if negb (r =? 0) then kfree mem;; uvmunmap new 0 (i / PGSIZE) true;; mret (-1) else
        uvmcopy_loop f old new (u64 (i + PGSIZE)) sz
      end
    end
  else mret 0.
Definition uvmcopy (old new sz : Z) : K Z :=
  uvmcopy_loop (Z.to_nat ((sz + PGSIZE - 1) / PGSIZE)) old new 0 sz.

Definition uvmclear (pagetable va : Z) : K unit :=
  pte ← walk pagetable va false;
  match pte with
  | None => panic "uvmclear"
  | Some ptea => v ← ld64 ptea; st64 ptea (Z.land v (u64 (Z.lnot PTE_U)))
  end.

(** ** Copying between kernel and user memory *)

(** Every iteration copies at least one byte, so [length src] is enough fuel. *)
Fixpoint copyout_loop (fuel : nat) (pagetable dstva : Z) (src : list Z) : K Z :=
  match src with
  | [] => mret 0
  | _ =>
    match fuel with
    | O => hang
    | S f =>
      let va0 := PGROUNDDOWN dstva in
      pa0 ← walkaddr pagetable va0;
      if pa0 =? 0 then mret (-1) else
      let n := Z.to_nat (PGSIZE - (dstva - va0)) in
      kstore_bytes (pa0 + (dstva - va0)) (take n src);;
      copyout_loop f pagetable (u64 (va0 + PGSIZE)) (drop n src)
    end
  end.
Definition copyout (pagetable dstva : Z) (src : list Z) : K Z :=
  copyout_loop (length src) pagetable dstva src.

(** The status, and the bytes stored at the destination. *)
Fixpoint copyin_loop (fuel : nat) (pagetable srcva len : Z) : K (Z * list Z) :=
  if len <=? 0 then mret (0, []) else
  match fuel with
  | O => hang
  | S f =>
    let va0 := PGROUNDDOWN srcva in
    pa0 ← walkaddr pagetable va0;
    if pa0 =? 0 then mret (-1, []) else
    let n := PGSIZE - (srcva - va0) in
    let n := if len <? n then len else n in
    l ← kget (fun s => bytes (pm_mem (k_pm s)) (pa0 + (srcva - va0)) (Z.to_nat n));
    r ← copyin_loop f pagetable (u64 (va0 + PGSIZE)) (len - n);
    mret (fst r, l ++ snd r)
  end.
Definition copyin (pagetable srcva len : Z) : K (Z * list Z) :=
  copyin_loop (Z.to_nat len) pagetable srcva len.

(** The inner loop of [copyinstr] over at most [n] bytes of a page: the
    bytes stored, and whether the terminator was found. *)
Fixpoint copyinstr_page (n : nat) (m : mem) (p : Z) : list Z * bool :=
  match n with
  | O => ([], false)
  | S n' => if m p =? 0 then ([0], true)
            else let r := copyinstr_page n' m (p + 1) in (m p :: fst r, snd r)
  end.
Fixpoint copyinstr_loop (fuel : nat) (pagetable srcva max : Z) : K (Z * list Z) :=
  if max <=? 0 then mret (-1, []) else
  match fuel with
  | O => hang
  | S f =>
    let va0 := PGROUNDDOWN srcva in
    pa0 ← walkaddr pagetable va0;
    if pa0 =? 0 then mret (-1, []) else
    let n := PGSIZE - (srcva - va0) in
    let n := if max <? n then max else n in
    r ← kget (A := list Z * bool) (fun s => copyinstr_page (Z.to_nat n) (pm_mem (k_pm s)) (pa0 + (srcva - va0)));
    let '(l, got_null) := (r : list Z * bool) in
    if got_null then mret (0, l) else
    r' ← copyinstr_loop f pagetable (u64 (va0 + PGSIZE)) (max - n);
    mret (fst r', l ++ snd r')
  end.
Definition copyinstr (pagetable srcva max : Z) : K (Z * list Z) :=
  copyinstr_loop (Z.to_nat max) pagetable srcva max.

(** ** proc.c: copies to and from either address space *)

Definition either_copyout (user_dst : bool) (dst : Z) (src : list Z) : K Z :=
  if user_dst then p ← curproc; pr ← get_proc p; copyout (p_pagetable pr) dst src
  else kstore_bytes dst src;; mret 0.

Definition either_copyin (user_src : bool) (src len : Z) : K (Z * list Z) :=
  if user_src then p ← curproc; pr ← get_proc p; copyin (p_pagetable pr) src len
  else l ← kget (fun s => bytes (pm_mem (k_pm s)) src (Z.to_nat len)); mret (0, l).
