(* ===== verification/VmProps.v ===== *)
(** * VmProps: page tables as maps

    [vm_inv pm F pt T] says that the tree of page-table pages [T] (a page
    for each path of at most two indices) is rooted at [pt] in memory and
    disjoint from the free pages [F]; [leaf pm T va] is the entry of the
    table for [va].  [walk], [mappages] and the copying functions are
    specified in these terms. *)

From S2P Require Import Prelude.
From S2P Require Import State.
From S2P Require Import Kernel.
From S2P Require Import Mem.
From S2P Require Import Kalloc.
From S2P Require Import Vm.

#[local] Opaque memset store64 load64.

(** ** Arithmetic of entries and addresses *)

Lemma PX_spec level va : 0 <= level -> PX level va = va / 2 ^ (12 + 9 * level) mod 512.
Proof.
  intros Hl. unfold PX, PXSHIFT. rewrite Z.shiftr_div_pow2 by lia.
  change 0x1FF with (Z.ones 9). by rewrite Z.land_ones by lia.
Qed.
Lemma PX_range level va : 0 <= level -> 0 <= PX level va < 512.
Proof. intros Hl. rewrite PX_spec by done. apply Z.mod_pos_bound. lia. Qed.

Lemma lor_add x f : 0 <= x -> 0 <= f < 1024 -> Z.lor (x * 1024) f = x * 1024 + f.
Proof.
  intros Hx Hf. change 1024 with (2 ^ 10) at 1 2. rewrite <- Z.shiftl_mul_pow2 by lia.
  rewrite <- Z.add_lor_land. enough (Z.land (Z.shiftl x 10) f = 0) by lia.
  apply Z.bits_inj'. intros n Hn.
  rewrite Z.land_spec, Z.bits_0, Z.shiftl_spec by lia.
  destruct (Z.ltb_spec n 10).
  - rewrite (Z.testbit_neg_r x) by lia. done.
  - assert (Z.testbit f n = false) as ->; [|apply andb_false_r].
    destruct (decide (f = 0)) as [->|]; [apply Z.testbit_0_l|].
    apply Z.bits_above_log2; [lia|]. apply Z.log2_lt_pow2; [lia|].
    eapply Z.lt_le_trans; [apply Hf|]. change 1024 with (2 ^ 10). apply Z.pow_le_mono_r; lia.
Qed.

Lemma PA2PTE_spec p : 0 <= p < 2 ^ 56 -> PA2PTE p = p / 4096 * 1024.
Proof.
  intros Hp. unfold PA2PTE. rewrite Z.shiftr_div_pow2, Z.shiftl_mul_pow2 by lia.
  change (2 ^ 12) with 4096. change (2 ^ 10) with 1024. rewrite u64_small; [done|].
  change (2 ^ 56) with 72057594037927936 in Hp. change (2 ^ 64) with 18446744073709551616. zlia.
Qed.

Lemma PTE2PA_spec x : 0 <= x < 2 ^ 54 -> PTE2PA x = x / 1024 * 4096.
Proof.
  intros Hx. unfold PTE2PA. rewrite Z.shiftr_div_pow2, Z.shiftl_mul_pow2 by lia.
  change (2 ^ 12) with 4096. change (2 ^ 10) with 1024. rewrite u64_small; [done|].
  change (2 ^ 54) with 18014398509481984 in Hx. change (2 ^ 64) with 18446744073709551616. zlia.
Qed.

(** An entry for page [p] with flags [f]. *)
Lemma pte_pa p f : 0 <= p < 2 ^ 56 -> 0 <= f < 1024 -> p mod 4096 = 0 -> PTE2PA (Z.lor (PA2PTE p) f) = p.
Proof.
  intros Hp Hf Hal. rewrite PA2PTE_spec by done.
  change (2 ^ 56) with 72057594037927936 in Hp.
  rewrite lor_add by (done || (apply Z.div_pos; lia)).
  rewrite PTE2PA_spec; [zlia|]. change (2 ^ 54) with 18014398509481984. zlia.
Qed.
Lemma pte_range p f : 0 <= p < 2 ^ 56 -> 0 <= f < 1024 -> 0 <= Z.lor (PA2PTE p) f < 2 ^ 64.
Proof.
  intros Hp Hf. rewrite PA2PTE_spec by done. change (2 ^ 56) with 72057594037927936 in Hp.
  rewrite lor_add by (done || (apply Z.div_pos; lia)). change (2 ^ 64) with 18446744073709551616. zlia.
Qed.
(** The entry of a table has no permissions. *)
Lemma table_flags p : 0 <= p < 2 ^ 56 -> Z.land (Z.lor (PA2PTE p) PTE_V) (Z.lor PTE_R (Z.lor PTE_W PTE_X)) = 0.
Proof.
  intros Hp. rewrite PA2PTE_spec by done. change (2 ^ 56) with 72057594037927936 in Hp. rewrite lor_add by (unfold PTE_V; (lia || zlia)).
  change (Z.lor PTE_R (Z.lor PTE_W PTE_X)) with (Z.land 14 (Z.ones 10)). rewrite (Z.land_comm 14), Z.land_assoc, Z.land_ones by lia.
  change (2 ^ 10) with 1024. rewrite Z.add_comm, Z.mod_add by lia. reflexivity.
Qed.
Lemma PX_low va : 0 <= va < MAXVA -> PX 2 va < 256.
Proof. rewrite PX_spec by lia. change MAXVA with 274877906944. change (2 ^ (12 + 9 * 2)) with 1073741824. intros. zlia. Qed.
Lemma has_lor p f g : has (Z.lor p f) g = has p g || has f g.
Proof.
  unfold has. rewrite Z.land_lor_distr_l.
  destruct (Z.eqb_spec (Z.land p g) 0) as [E|E], (Z.eqb_spec (Z.land f g) 0) as [E'|E'];
    destruct (Z.eqb_spec (Z.lor (Z.land p g) (Z.land f g)) 0) as [E2|E2]; try done.
  - by rewrite E, E' in E2.
  - by apply Z.lor_eq_0_iff in E2 as [_ ?].
  - by apply Z.lor_eq_0_iff in E2 as [? _].
  - by apply Z.lor_eq_0_iff in E2 as [? _].
Qed.

(** ** The tree of tables *)

Definition tree := list Z -> option Z.

Record vm_inv (pm : physmem) (F : list Z) (pt : Z) (T : tree) : Prop := {
  vi_alloc : alloc_inv pm F;
  vi_root : T [] = Some pt;
  vi_page : forall n p, T n = Some p -> valid_page (pm_end pm) p /\ p ∉ F;
  vi_inj : forall n n' p, T n = Some p -> T n' = Some p -> n = n';
  vi_tree : forall n i q, T (n ++ [i]) = Some q -> 0 <= i < 512 /\ (length n < 2)%nat /\ is_Some (T n);
  vi_low : forall i, is_Some (T [i]) -> i < 256;
  vi_entry : forall n p i, T n = Some p -> (length n < 2)%nat -> 0 <= i < 512 ->
    match T (n ++ [i]) with
    | Some q => has (load64 (pm_mem pm) (p + 8 * i)) PTE_V = true /\
                PTE2PA (load64 (pm_mem pm) (p + 8 * i)) = q /\
                Z.land (load64 (pm_mem pm) (p + 8 * i)) (Z.lor PTE_R (Z.lor PTE_W PTE_X)) = 0
    | None => has (load64 (pm_mem pm) (p + 8 * i)) PTE_V = false
    end
}.

(** The address of the entry for [va], and the entry. *)
Definition leaf_addr (T : tree) (va : Z) : option Z :=
  (fun p => p + 8 * PX 0 va) <$> T [PX 2 va; PX 1 va].
Definition leaf (pm : physmem) (T : tree) (va : Z) : Z :=
  match leaf_addr T va with Some a => load64 (pm_mem pm) a | None => 0 end.

Definition tset (T : tree) (n : list Z) (p : Z) : tree := fun n' => if decide (n' = n) then Some p else T n'.

(** Byte [b] is in a page of the tree. *)
Definition in_tree (T : tree) (b : Z) : Prop := exists n p, T n = Some p /\ p <= b < p + PGSIZE.

(** What an operation on a page table may change. *)
Record vm_frame (pm pm' : physmem) (T' : tree) : Prop := {
  vf_end : pm_end pm' = pm_end pm;
  vf_tf : pm_tf pm' = pm_tf pm;
  vf_globals : pm_kernel_pagetable pm' = pm_kernel_pagetable pm /\ pm_etext pm' = pm_etext pm /\
               pm_trampoline pm' = pm_trampoline pm;
  vf_mem : forall b, ~ in_tree T' b -> pm_mem pm' b = pm_mem pm b
}.

Lemma words_disjoint e p p' i j : valid_page e p -> valid_page e p' -> 0 <= i < 512 -> 0 <= j < 512 ->
  p <> p' \/ i <> j -> p + 8 * i + 8 <= p' + 8 * j \/ p' + 8 * j + 8 <= p + 8 * i.
Proof. unfold valid_page, PGSIZE. intros [? _] [? _] ? ? ?. zlia. Qed.

Lemma load64_ext m m' a : (forall b, a <= b < a + 8 -> m' b = m b) -> load64 m' a = load64 m a.
Proof. intros H. apply (load_le_ext 8). intros b Hb. apply H. lia. Qed.

Lemma load64_store64 m a v : 0 <= v < 2 ^ 64 -> load64 (store64 m a v) a = v.
Proof. intros Hv. apply (load_store_le 8). exact Hv. Qed.
Lemma load64_store64_ne m a b v : a + 8 <= b \/ b + 8 <= a -> load64 (store64 m a v) b = load64 m b.
Proof. intros H. apply load64_ext. intros c Hc. apply (store_le_other 8). lia. Qed.

Lemma load64_zero m a : (forall b, a <= b < a + 8 -> m b = 0) -> load64 m a = 0.
Proof. intros H. transitivity (load64 (fun _ => 0) a); [|done]. apply load64_ext. done. Qed.

(** ** Writing a leaf entry *)

Lemma alloc_inv_ext pm F m' : alloc_inv pm F -> is_bytes m' ->
  (forall a, a ∈ F -> forall b, a <= b < a + PGSIZE -> m' b = pm_mem pm b) ->
  alloc_inv (set_pm_mem m' pm) F.
Proof.
  intros [H1 H2 H3 H4 H5] Hb Hm. split; try done. eapply flist_ext; [|exact H3].
  intros a Ha b Hb'. apply (Hm a Ha). unfold PGSIZE. lia.
Qed.

(** A page of the tree and a free page are disjoint. *)
Lemma tree_free_disjoint pm F pt T n p a b : vm_inv pm F pt T -> T n = Some p -> a ∈ F ->
  a <= b < a + PGSIZE -> ~ (p <= b < p + PGSIZE).
Proof.
  intros H Hn Ha Hb. destruct (vi_page _ _ _ _ H n p Hn) as [Hp HpF].
  apply (page_disjoint (pm_end pm) a p b); [|done| |done].
  - by apply (ai_valid _ _ (vi_alloc _ _ _ _ H)).
  - intros ->. done.
Qed.

Lemma node_split (n : list Z) : (length n <= 2)%nat -> n = [] \/ (exists n' i, n = n' ++ [i] /\ (length n' < 2)%nat).
Proof.
  intros Hn. destruct n as [|x n] using rev_ind; [by left|right].
  exists n, x. rewrite length_app in Hn. simpl in Hn. split; [done|lia].
Qed.

Lemma tree_depth pm F pt T n p : vm_inv pm F pt T -> T n = Some p -> (length n <= 2)%nat.
Proof.
  intros H Hn. destruct n as [|x n] using rev_ind; [simpl; lia|].
  destruct (vi_tree _ _ _ _ H n x p Hn) as (_ & ? & _). rewrite length_app. simpl. lia.
Qed.

Lemma va_page va va' : 0 <= va < MAXVA -> 0 <= va' < MAXVA ->
  PX 2 va = PX 2 va' -> PX 1 va = PX 1 va' -> PX 0 va = PX 0 va' -> va / PGSIZE = va' / PGSIZE.
Proof.
  rewrite !PX_spec by lia. change MAXVA with 274877906944. unfold PGSIZE.
  change (2 ^ (12 + 9 * 2)) with 1073741824. change (2 ^ (12 + 9 * 1)) with 2097152.
  change (2 ^ (12 + 9 * 0)) with 4096. intros. zlia.
Qed.

Lemma vm_set_leaf pm F pt T va a v : vm_inv pm F pt T -> 0 <= va < MAXVA ->
  leaf_addr T va = Some a -> 0 <= v < 2 ^ 64 ->
  let pm' := set_mem (fun m => store64 m a v) pm in
  vm_inv pm' F pt T /\ leaf pm' T va = v /\
  (forall va', 0 <= va' < MAXVA -> va' / PGSIZE <> va / PGSIZE -> leaf pm' T va' = leaf pm T va') /\
  vm_frame pm pm' T.
Proof.
  intros H Hva Ha Hv. unfold leaf_addr in Ha.
  destruct (T [PX 2 va; PX 1 va]) as [p|] eqn:Ep; [|done]. simpl in Ha. simplify_eq. intros pm'.
  pose proof (PX_range 0 va ltac:(lia)) as Hi.
  destruct (vi_page _ _ _ _ H _ _ Ep) as [Hvp HpF].
  assert (forall b, ~ (p <= b < p + PGSIZE) -> pm_mem pm' b = pm_mem pm b) as Hfr.
  { intros b Hb. subst pm'. unfold PGSIZE in Hb. simpl. apply (store_le_other 8). lia. }
  assert (forall n q i, T n = Some q -> 0 <= i < 512 -> n <> [PX 2 va; PX 1 va] \/ i <> PX 0 va ->
    load64 (pm_mem pm') (q + 8 * i) = load64 (pm_mem pm) (q + 8 * i)) as Hld.
  { intros n q i Hn Hi' Hne. apply load64_store64_ne.
    apply (words_disjoint (pm_end pm)); [done|by apply (vi_page _ _ _ _ H n)|done|done|].
    destruct (decide (n = [PX 2 va; PX 1 va])) as [->|Hne'].
    - right. destruct Hne as [?|?]; [done|]. lia.
    - left. intros ->. by apply Hne', (vi_inj _ _ _ _ H _ _ q). }
  split_and!.
  - split; try apply H.
    + apply alloc_inv_ext; [apply H| |].
      * by apply (store_le_bytes 8), H.
      * intros x Hx b Hb. apply Hfr. by eapply tree_free_disjoint.
    + intros n q i Hn Hlen Hi'. rewrite (Hld n q i) by (try done; left; intros ->; simpl in Hlen; lia).
      by apply (vi_entry _ _ _ _ H n q i).
  - unfold leaf, leaf_addr. rewrite Ep. cbn [fmap option_fmap option_map]. by apply load64_store64.
  - intros va' Hva' Hne. unfold leaf, leaf_addr.
    destruct (T [PX 2 va'; PX 1 va']) as [q|] eqn:Eq; [|done]. cbn [fmap option_fmap option_map].
    apply (Hld [PX 2 va'; PX 1 va']); [done|apply PX_range; lia|].
    destruct (decide ([PX 2 va'; PX 1 va'] = [PX 2 va; PX 1 va])) as [E|]; [|by left]. right.
    simplify_eq. intros E0. by apply Hne, va_page.
  - split; try done. intros b Hb. apply Hfr. intros Hb'. apply Hb. by exists [PX 2 va; PX 1 va], p.
Qed.

(** ** Adding a table *)

(** A free page [q], zeroed and entered at index [i] of the table [n]. *)
Lemma vm_grow pm F pt T n p i q F' m1 : vm_inv pm F pt T -> F = q :: F' ->
  T n = Some p -> (length n < 2)%nat -> 0 <= i < 512 -> (n = [] -> i < 256) -> T (n ++ [i]) = None ->
  alloc_inv (set_pm_freelist (pm_freelist m1) (set_pm_mem (pm_mem m1) pm)) F' ->
  (forall b, pm_mem m1 b = if decide (q <= b < q + PGSIZE) then 5 else pm_mem pm b) ->
  let pm' := set_mem (fun m => store64 (memset q 0 PGSIZE m) (p + 8 * i) (Z.lor (PA2PTE q) PTE_V))
               (set_pm_freelist (pm_freelist m1) (set_pm_mem (pm_mem m1) pm)) in
  vm_inv pm' F' pt (tset T (n ++ [i]) q) /\
  (forall va, leaf pm' (tset T (n ++ [i]) q) va = leaf pm T va) /\
  vm_frame pm pm' (tset T (n ++ [i]) q).
Proof.
  intros H -> Hn Hlen Hi Hlow Hnone Hal Hm1 pm'.
  pose proof (vi_alloc _ _ _ _ H) as Ha.
  assert (valid_page (pm_end pm) q) as Hq by (apply (ai_valid _ _ Ha); set_solver).
  pose proof (ai_nodup _ _ Ha) as Hnd. apply NoDup_cons in Hnd as [HqF Hnd].
  assert (forall n' p', T n' = Some p' -> p' <> q) as HTq.
  { intros n' p' Hn' ->. destruct (vi_page _ _ _ _ H n' q Hn') as [_ Hx]. set_solver. }
  assert (0 <= q < 2 ^ 56 /\ q mod 4096 = 0) as [Hq1 Hq2].
  { destruct Hq as [? [? ?]]. pose proof (ai_end _ _ Ha). unfold PHYSTOP, KERNBASE, PGSIZE in *. lia. }
  destruct (vi_page _ _ _ _ H n p Hn) as [Hp HpF].
  set (v := Z.lor (PA2PTE q) PTE_V) in *.
  assert (0 <= v < 2 ^ 64) as Hv by (apply pte_range; [done|unfold PTE_V; lia]).
  assert (forall b, pm_mem pm' b = if decide (p + 8 * i <= b < p + 8 * i + 8) then store64 (pm_mem pm) (p + 8 * i) v b
                     else if decide (q <= b < q + PGSIZE) then 0 else pm_mem pm b) as Hmem.
  { intros b. subst pm'. cbn [set_mem pm_mem set_pm_mem].
    assert (~ (q <= p + 8 * i < q + PGSIZE)) as Hd.
    { apply (page_disjoint (pm_end pm) p); [done|done|by apply (HTq n)|unfold PGSIZE; lia]. }
    destruct (decide (p + 8 * i <= b < p + 8 * i + 8)) as [Hb|Hb].
    - assert (forall k mm a vv bb, a <= bb < a + Z.of_nat k ->
        forall mm', store_le k mm a vv bb = store_le k mm' a vv bb) as Hst.
      { clear. induction k as [|k IH]; intros mm a vv bb Hb mm'; [lia|]. cbn [store_le].
        destruct (decide (a = bb)) as [->|].
        - rewrite !store_le_other by lia. unfold mstore. by rewrite Z.eqb_refl.
        - apply IH. lia. }
      apply (Hst 8%nat). lia.
    - rewrite (store_le_other 8) by lia. rewrite memset_spec by (unfold PGSIZE; lia).
      destruct (decide (q <= b < q + PGSIZE)) as [Hb'|Hb']; [done|].
      simpl. rewrite Hm1. by rewrite decide_False. }
  assert (forall b, q <= b < q + PGSIZE -> pm_mem pm' b = 0) as Hzero.
  { intros b Hb. rewrite Hmem. rewrite decide_False, decide_True; [done|done|].
    intros Hb'. apply (page_disjoint (pm_end pm) q p b) in Hb; [|done|done|symmetry; by apply (HTq n)].
    unfold PGSIZE in *. lia. }
  assert (forall n' q' j, T n' = Some q' -> 0 <= j < 512 -> n' <> n \/ j <> i ->
    load64 (pm_mem pm') (q' + 8 * j) = load64 (pm_mem pm) (q' + 8 * j)) as Hld.
  { intros n' q' j Hn' Hj Hne. destruct (vi_page _ _ _ _ H n' q' Hn') as [Hvq' _].
    apply load64_ext. intros b Hb. rewrite Hmem.
    rewrite decide_False.
    - rewrite decide_False; [done|]. apply (page_disjoint (pm_end pm) q'); [done|done|by apply (HTq n')|].
      unfold PGSIZE. lia.
    - destruct (words_disjoint (pm_end pm) p q' i j Hp Hvq' Hi Hj); [|lia|lia].
      destruct (decide (n' = n)) as [->|Hne'].
      + right. destruct Hne; [done|lia].
      + left. intros ->. by apply Hne', (vi_inj _ _ _ _ H _ _ q'). }
  assert (load64 (pm_mem pm') (p + 8 * i) = v) as Hldv.
  { rewrite <- (load64_store64 (pm_mem pm) (p + 8 * i) v) by done. apply load64_ext.
    intros b Hb. rewrite Hmem. by rewrite decide_True. }
  assert (forall j, 0 <= j < 512 -> load64 (pm_mem pm') (q + 8 * j) = 0) as Hldq.
  { intros j Hj. apply load64_zero. intros b Hb. apply Hzero. unfold PGSIZE. lia. }
  assert (forall j, T ((n ++ [i]) ++ [j]) = None) as Hnokid.
  { intros j. destruct (T ((n ++ [i]) ++ [j])) as [r|] eqn:E; [|done].
    destruct (vi_tree _ _ _ _ H _ _ _ E) as (_ & _ & [r' Hr']). congruence. }
  assert (forall n', n' ++ [i] <> n') as Hself.
  { intros n' E. apply (f_equal length) in E. rewrite length_app in E. simpl in E. lia. }
  split_and!.
  - split.
    + subst pm'. unfold set_mem.
      apply (alloc_inv_ext _ F' _ Hal).
      * apply (store_le_bytes 8), memset_bytes. apply Hal.
      * intros a HaF b Hb. change (store64 (memset q 0 PGSIZE (pm_mem m1)) (p + 8 * i) v b = pm_mem m1 b).
        assert (~ (p <= b < p + PGSIZE)) by (apply (tree_free_disjoint pm (q :: F') pt T n p a b); [done|done|set_solver|done]).
        rewrite (store_le_other 8) by (unfold PGSIZE in *; lia).
        rewrite memset_spec by (unfold PGSIZE; lia). rewrite decide_False; [done|].
        apply (page_disjoint (pm_end pm) a q b); [|done|by intros ->|done].
        apply (ai_valid _ _ Ha). set_solver.
    + unfold tset. rewrite decide_False by (intros E; symmetry in E; apply app_eq_nil in E as [_ ?]; done). apply H.
    + intros n' p' Hn'. unfold tset in Hn'. case_decide; simplify_eq; [done|].
      destruct (vi_page _ _ _ _ H n' p' Hn'). split; [done|set_solver].
    + intros n1 n2 r. unfold tset.
      destruct (decide (n1 = n ++ [i])) as [->|], (decide (n2 = n ++ [i])) as [->|]; [done|..]; intros E1 E2.
      * simplify_eq. by destruct (HTq _ _ E2).
      * simplify_eq. by destruct (HTq _ _ E1).
      * by apply (vi_inj _ _ _ _ H n1 n2 r).
    + intros n' j r Hr. unfold tset in Hr. case_decide as E; simplify_eq.
      * apply app_inj_2 in E as [-> ?]; [|done]. simplify_eq. split; [done|]. split; [done|].
        unfold tset. rewrite decide_False; [by exists p|]. intros E. by apply (Hself n).
      * destruct (vi_tree _ _ _ _ H n' j r Hr) as (? & ? & [r' Hr']). split_and!; [lia..|].
        unfold tset. case_decide; eauto.
    + intros j [r Hr]. unfold tset in Hr. case_decide as E; [|by apply (vi_low _ _ _ _ H); eexists].
      destruct n as [|x n]; [injection E as ->; by apply Hlow|]. apply (f_equal length) in E. rewrite length_app in E. cbn in E. lia.
    + intros n' p' j Hn' Hlen' Hj. unfold tset in Hn'.
      destruct (decide (n' = n ++ [i])) as [->|E]; [injection Hn' as <-|].
      * unfold tset. rewrite decide_False by (intros E; apply app_inj_2 in E as [E _]; [by apply (Hself n)|done]).
        rewrite Hnokid, Hldq by done. done.
      * pose proof (vi_entry _ _ _ _ H n' p' j Hn' Hlen' Hj) as He. unfold tset.
        destruct (decide (n' ++ [j] = n ++ [i])) as [E2|E2].
        -- apply app_inj_2 in E2 as [-> [= ->]]; [|done]. rewrite Hn in Hn'. injection Hn' as <-.
           rewrite Hldv. split_and!.
           ++ unfold v. rewrite has_lor. apply orb_true_r.
           ++ apply pte_pa; [done|unfold PTE_V; lia|done].
           ++ by apply table_flags.
        -- rewrite (Hld n' p' j); [done|done|done|]. destruct (decide (n' = n)) as [->|]; [|by left].
           right. intros ->. done.
  - intros va. unfold leaf, leaf_addr, tset. pose proof (PX_range 0 va ltac:(lia)).
    destruct (decide ([PX 2 va; PX 1 va] = n ++ [i])) as [E|E].
    + cbn [fmap option_fmap option_map]. rewrite Hldq by done. by rewrite E, Hnone.
    + destruct (T [PX 2 va; PX 1 va]) as [r|] eqn:Er; [|done]. cbn [fmap option_fmap option_map].
      apply (Hld [PX 2 va; PX 1 va]); [done|done|]. left. intros <-. simpl in Hlen. lia.
  - split; try done. intros b Hb. rewrite Hmem. rewrite !decide_False; [done| |].
    + intros Hb'. apply Hb. exists (n ++ [i]), q. unfold tset. by rewrite decide_True.
    + intros Hb'. apply Hb. exists n, p. unfold tset. rewrite decide_False by (intros E; by apply (Hself n)).
      split; [done|]. unfold PGSIZE. lia.
Qed.

(** ** walk *)

(** The outcome of an operation that may add tables. *)
Record vm_ext (pm : physmem) (F : list Z) (T : tree) (pm' : physmem) (F' : list Z) (T' : tree) : Prop := {
  ve_free : F' `suffix_of` F;
  ve_old : forall n p, T n = Some p -> T' n = Some p;
  ve_new : forall n p, T' n = Some p -> T n = Some p \/ p ∈ F;
  ve_used : forall p, p ∈ F -> p ∈ F' \/ exists n, T' n = Some p;
  ve_frame : vm_frame pm pm' T'
}.

Lemma vm_ext_refl pm F T : vm_ext pm F T pm F T.
Proof. split; [done|done|by left|by left|]. by split. Qed.

Lemma vm_ext_trans pm F T pm1 F1 T1 pm2 F2 T2 :
  vm_ext pm F T pm1 F1 T1 -> vm_ext pm1 F1 T1 pm2 F2 T2 -> vm_ext pm F T pm2 F2 T2.
Proof.
  intros [H1 H2 H3 H4 [A1 A2 (A3 & A4 & A5) A6]] [H1' H2' H3' H4' [B1 B2 (B3 & B4 & B5) B6]].
  split; [by etrans|eauto| | |].
  - intros n p Hp. apply H3' in Hp as [Hp|Hp]; [by apply H3|right].
    destruct H1 as [k ->]. apply elem_of_app. by right.
  - intros p [Hp|[n Hn]]%H4; [by apply H4'|right]. exists n. by apply H2'.
  - split; [congruence|congruence|split_and!; congruence|]. intros b Hb. rewrite B6 by done. apply A6.
    intros (n & p & Hn & Hp). apply Hb. exists n, p. split; [by apply H2'|done].
Qed.

(** Descending one level from the table [n]. *)
Lemma walk_step w F pt T n p level levels va : vm_inv (k_pm (w_k w)) F pt T -> L_kmem ∉ k_held (w_k w) ->
  T n = Some p -> (length n < 2)%nat -> 0 <= level -> (n = [] -> PX level va < 256) ->
  exists pm' F' T', vm_inv pm' F' pt T' /\ vm_ext (k_pm (w_k w)) F T pm' F' T' /\
    (length F <= S (length F'))%nat /\ (forall va, leaf pm' T' va = leaf (k_pm (w_k w)) T va) /\
    match T' (n ++ [PX level va]) with
    | Some q => walk_loop (level :: levels) p va true w =
                walk_loop levels q va true (with_k w (set_k_pm pm' (w_k w)))
    | None => F = [] /\ F' = [] /\ walk_loop (level :: levels) p va true w = Ret None (with_k w (set_k_pm pm' (w_k w)))
    end.
Proof.
  intros H Hl Hn Hlen Hlv Hlow. set (i := PX level va). pose proof (PX_range level va Hlv) as Hi. fold i in Hi.
  pose proof (vi_entry _ _ _ _ H n p i Hn Hlen Hi) as He.
  assert (with_k w (set_k_pm (k_pm (w_k w)) (w_k w)) = w) as Hid by (by destruct w as [? []]).
  destruct (T (n ++ [i])) as [q|] eqn:Eq.
  - exists (k_pm (w_k w)), F, T. split_and!; [done|apply vm_ext_refl|lia|done|].
    rewrite Eq. cbn [walk_loop]. unfold ld64. rewrite bind_kget. fold i. destruct He as (-> & -> & _).
    by rewrite Hid.
  - pose proof (kalloc_ok w F (vi_alloc _ _ _ _ H) Hl) as Hk. destruct F as [|q F'].
    + exists (k_pm (w_k w)), [], T. split_and!; [done|apply vm_ext_refl|simpl; lia|done|].
      rewrite Eq. split; [done|]. split; [done|]. cbn [walk_loop]. unfold ld64. rewrite bind_kget. fold i.
      rewrite He. cbn [negb]. rewrite (bind_ret _ _ _ _ _ Hk), Hid. done.
    + destruct Hk as (pm1 & Ek & Hq0 & Ha1 & _ & _ & Hm1 & Hsh).
      set (pm := k_pm (w_k w)) in *. rewrite Hsh in Ha1.
      destruct (vm_grow pm (q :: F') pt T n p i q F' pm1 H eq_refl Hn Hlen Hi Hlow Eq Ha1 Hm1) as (H' & Hleaf & Hfr).
      set (pm' := set_mem _ _) in H', Hleaf, Hfr. set (T' := tset T (n ++ [i]) q) in *.
      assert (T' (n ++ [i]) = Some q) as Eq' by (unfold T', tset; by rewrite decide_True).
      exists pm', F', T'. split_and!; [done| |simpl; lia|done|].
      * split; [by exists [q]| | | |done].
        -- intros n' p' Hn'. unfold T', tset. case_decide as E; [|done]. subst n'. congruence.
        -- intros n' p' Hn'. unfold T', tset in Hn'. case_decide; [right; set_solver|by left].
        -- intros a [->|Ha]%elem_of_cons; [right; by exists (n ++ [i])|by left].
      * rewrite Eq'. cbn [walk_loop]. unfold ld64. rewrite bind_kget. fold i pm. rewrite He. cbn [negb].
        rewrite (bind_ret _ _ _ _ _ Ek). rewrite (proj2 (Z.eqb_neq q 0)) by done.
        unfold kmemset, st64. rewrite !bind_mod_pm. f_equal. subst pm'. rewrite Hsh.
        generalize (memset q 0 PGSIZE), store64. intros f1 f2. by destruct w as [? []].
Qed.

Section walks.
Context (pt va : Z).
Hypothesis Hva : 0 <= va < MAXVA.

Lemma walk_lookup w F T : vm_inv (k_pm (w_k w)) F pt T -> walk pt va false w = Ret (leaf_addr T va) w.
Proof.
  intros H. unfold walk. rewrite (proj2 (Z.leb_gt MAXVA va)) by lia.
  pose proof (PX_range 2 va ltac:(lia)) as H2. pose proof (PX_range 1 va ltac:(lia)) as H1.
  cbn [walk_loop]. unfold ld64. rewrite bind_kget.
  pose proof (vi_entry _ _ _ _ H [] pt (PX 2 va) (vi_root _ _ _ _ H) ltac:(simpl; lia) H2) as E2.
  cbn [app] in E2. unfold leaf_addr.
  destruct (T [PX 2 va]) as [p1|] eqn:T1.
  - destruct E2 as (-> & -> & _). cbn [walk_loop]. unfold ld64. rewrite bind_kget.
    pose proof (vi_entry _ _ _ _ H [PX 2 va] p1 (PX 1 va) T1 ltac:(simpl; lia) H1) as E1. cbn [app] in E1.
    destruct (T [PX 2 va; PX 1 va]) as [p0|] eqn:T0.
    + destruct E1 as (-> & -> & _). done.
    + by rewrite E1.
  - rewrite E2. cbn [negb].
    destruct (T [PX 2 va; PX 1 va]) as [p0|] eqn:T0; [|done].
    destruct (vi_tree _ _ _ _ H [PX 2 va] (PX 1 va) p0 T0) as (_ & _ & [x Hx]). congruence.
Qed.

Lemma walk_alloc w F T : vm_inv (k_pm (w_k w)) F pt T -> L_kmem ∉ k_held (w_k w) ->
  exists r pm' F' T', walk pt va true w = Ret r (with_k w (set_k_pm pm' (w_k w))) /\
    vm_inv pm' F' pt T' /\ vm_ext (k_pm (w_k w)) F T pm' F' T' /\ (length F <= length F' + 2)%nat /\
    (forall va, leaf pm' T' va = leaf (k_pm (w_k w)) T va) /\
    match r with Some a => leaf_addr T' va = Some a | None => F' = [] /\ (length F < 2)%nat end.
Proof.
  intros H Hl. unfold walk. rewrite (proj2 (Z.leb_gt MAXVA va)) by lia.
  destruct (walk_step w F pt T [] pt 2 [1] va H Hl (vi_root _ _ _ _ H)) as (pm1 & F1 & T1 & H1 & X1 & L1 & Lf1 & E1);
    [simpl; lia|lia|intros _; by apply PX_low|]. cbn [app] in E1.
  destruct (T1 [PX 2 va]) as [p1|] eqn:Tp1.
  2: { destruct E1 as (-> & -> & E1). exists None, pm1, [], T1. split_and!; try done; simpl in *; lia. }
  set (w1 := with_k w (set_k_pm pm1 (w_k w))) in *.
  destruct (walk_step w1 F1 pt T1 [PX 2 va] p1 1 [] va H1 Hl Tp1) as (pm2 & F2 & T2 & H2 & X2 & L2 & Lf2 & E2);
    [simpl; lia|lia|done|]. cbn [app] in E2. change (k_pm (w_k w1)) with pm1 in *.
  assert (with_k w1 (set_k_pm pm2 (w_k w1)) = with_k w (set_k_pm pm2 (w_k w))) as Ew by done.
  assert (vm_ext (k_pm (w_k w)) F T pm2 F2 T2) as X by (by eapply vm_ext_trans).
  assert (forall va, leaf pm2 T2 va = leaf (k_pm (w_k w)) T va) as Lf by (intros v; by rewrite Lf2).
  destruct (T2 [PX 2 va; PX 1 va]) as [p0|] eqn:Tp0.
  - exists (Some (p0 + 8 * PX 0 va)), pm2, F2, T2. rewrite E1, E2. split_and!; try done; [lia|].
    unfold leaf_addr. by rewrite Tp0.
  - destruct E2 as (-> & -> & E2). exists None, pm2, [], T2. rewrite E1, E2. split_and!; try done; simpl in *; lia.
Qed.
End walks.

(** ** mappages *)

Definition pte_of (pa perm : Z) : Z := Z.lor (Z.lor (PA2PTE pa) perm) PTE_V.

Lemma pte_of_lor pa perm : pte_of pa perm = Z.lor (PA2PTE pa) (Z.lor perm PTE_V).
Proof. unfold pte_of. by rewrite Z.lor_assoc. Qed.

Lemma lor_1024 a b : 0 <= a < 1024 -> 0 <= b < 1024 -> 0 <= Z.lor a b < 1024.
Proof.
  intros Ha Hb. split; [apply Z.lor_nonneg; lia|].
  destruct (decide (Z.lor a b = 0)) as [->|]; [lia|].
  change 1024 with (2 ^ 10). apply Z.log2_lt_pow2; [pose proof (proj2 (Z.lor_nonneg a b)); lia|].
  rewrite Z.log2_lor by lia. apply Z.max_lub_lt.
  - destruct (decide (a = 0)) as [->|]; [done|]. apply Z.log2_lt_pow2; lia.
  - destruct (decide (b = 0)) as [->|]; [done|]. apply Z.log2_lt_pow2; lia.
Qed.

(** The mapping of [n] pages from [va] to [pa] as a change of the leaves. *)
Definition mapped (leaf0 leaf1 : Z -> Z) (va pa perm : Z) (n : nat) : Prop :=
  (forall i, 0 <= i < Z.of_nat n -> leaf1 (va + PGSIZE * i) = pte_of (pa + PGSIZE * i) perm) /\
  (forall va', 0 <= va' < MAXVA -> (forall i, 0 <= i < Z.of_nat n -> va' / PGSIZE <> va / PGSIZE + i) ->
     leaf1 va' = leaf0 va').

(** One iteration: the entry is made, or memory has run out. *)
Lemma map_one pt perm a pa w F T :
  vm_inv (k_pm (w_k w)) F pt T -> L_kmem ∉ k_held (w_k w) ->
  0 <= a < MAXVA -> 0 <= pa < 2 ^ 56 -> 0 <= perm < 1024 ->
  has (leaf (k_pm (w_k w)) T a) PTE_V = false ->
  exists r pm' F' T', walk pt a true w = Ret r (with_k w (set_k_pm pm' (w_k w))) /\
    match r with
    | None => vm_inv pm' F' pt T' /\ vm_ext (k_pm (w_k w)) F T pm' F' T' /\
        (forall va, leaf pm' T' va = leaf (k_pm (w_k w)) T va) /\ F' = [] /\ (length F < 2)%nat
    | Some ptea => has (load64 (pm_mem pm') ptea) PTE_V = false /\
      let pm'' := set_mem (fun m => store64 m ptea (pte_of pa perm)) pm' in
      vm_inv pm'' F' pt T' /\ vm_ext (k_pm (w_k w)) F T pm'' F' T' /\ (length F <= length F' + 2)%nat /\
      leaf pm'' T' a = pte_of pa perm /\
      (forall va, 0 <= va < MAXVA -> va / PGSIZE <> a / PGSIZE -> leaf pm'' T' va = leaf (k_pm (w_k w)) T va)
    end.
Proof.
  intros H Hl Ha Hpa Hperm Hno.
  destruct (walk_alloc pt a Ha w F T H Hl) as (r & pm1 & F1 & T1 & Ew & H1 & X1 & L1 & Lf1 & Hr).
  exists r, pm1, F1, T1. split; [done|]. destruct r as [ptea|].
  - rewrite <- (Lf1 a) in Hno. unfold leaf in Hno. rewrite Hr in Hno. split; [done|].
    destruct (vm_set_leaf pm1 F1 pt T1 a ptea (pte_of pa perm) H1 Ha Hr) as (H2 & Hl2 & Ho2 & Hf2).
    { rewrite pte_of_lor. apply pte_range; [done|]. apply lor_1024; [done|unfold PTE_V; lia]. }
    cbv zeta. set (pm2 := set_mem _ pm1) in *. split_and!; try done.
    + eapply vm_ext_trans; [exact X1|]. split; [done|done|by left|by left|done].
    + intros va Hva Hne. by rewrite Ho2, Lf1.
  - destruct Hr as [-> Hr]. by split_and!.
Qed.

Lemma u64_page a n : 0 <= a -> a + PGSIZE * Z.of_nat (S n) < 2 ^ 60 -> u64 (a + PGSIZE) = a + PGSIZE.
Proof. intros. apply u64_small. unfold PGSIZE in *. lia. Qed.

Lemma mappages_loop_ok pt perm n : forall fuel a pa w F T,
  vm_inv (k_pm (w_k w)) F pt T -> L_kmem ∉ k_held (w_k w) -> (n <= fuel)%nat ->
  0 <= a -> a mod PGSIZE = 0 -> a + PGSIZE * Z.of_nat n < MAXVA ->
  0 <= pa -> pa + PGSIZE * Z.of_nat n < 2 ^ 56 -> 0 <= perm < 1024 ->
  (forall i, 0 <= i <= Z.of_nat n -> has (leaf (k_pm (w_k w)) T (a + PGSIZE * i)) PTE_V = false) ->
  exists r k pm' F' T',
    mappages_loop fuel pt a (a + PGSIZE * Z.of_nat n) pa perm w = Ret r (with_k w (set_k_pm pm' (w_k w))) /\
    vm_inv pm' F' pt T' /\ vm_ext (k_pm (w_k w)) F T pm' F' T' /\
    mapped (leaf (k_pm (w_k w)) T) (leaf pm' T') a pa perm k /\
    (r = 0 /\ k = S n /\ (length F <= length F' + 2 * S n)%nat \/
     r = -1 /\ (k <= n)%nat /\ F' = [] /\ (length F < 2 * S n)%nat).
Proof.
  induction n as [|n IH]; intros fuel a pa w F T H Hl Hf Ha Hal Hmax Hpa Hpb Hperm Hno.
  all: assert (0 <= a < MAXVA /\ 0 <= pa < 2 ^ 56) as [Ha' Hpa'] by (unfold PGSIZE in *; lia).
  all: assert (has (leaf (k_pm (w_k w)) T a) PTE_V = false) as Hno0
    by (specialize (Hno 0); rewrite Z.mul_0_r, Z.add_0_r in Hno; apply Hno; lia).
  all: destruct (map_one pt perm a pa w F T H Hl Ha' Hpa' Hperm Hno0) as (r & pm1 & F1 & T1 & Ew & Hr).
  all: destruct r as [ptea|];
    [|destruct Hr as (H1 & X1 & Lf1 & -> & HF); exists (-1), 0%nat, pm1, [], T1;
      (split; [destruct fuel; cbn [mappages_loop]; by rewrite (bind_ret _ _ _ _ _ Ew)|]);
      split_and!; [done|done|split; [lia|by intros; rewrite Lf1]|right; split_and!; try done; lia]].
  all: destruct Hr as (Hnov & Hr); cbv zeta in Hr; set (pm2 := set_mem _ pm1) in *;
    destruct Hr as (H2 & X2 & L2 & Hla & Hlo).
  all: set (w2 := with_k w (set_k_pm pm2 (w_k w))).
  all: assert (forall A (f : Z -> K A) (g : K A), 
    (pte ← walk pt a true; match pte with None => g | Some ptea =>
       v ← ld64 ptea; if has v PTE_V then panic "mappages: remap" else
       st64 ptea (Z.lor (Z.lor (PA2PTE pa) perm) PTE_V);; f 0 end) w = f 0 w2) as Hstep
    by (intros A f g; rewrite (bind_ret _ _ _ _ _ Ew); unfold ld64; rewrite bind_kget;
        cbn [w_k with_k set_k_pm k_pm]; rewrite Hnov; unfold st64; rewrite bind_mod_pm; done).
  - exists 0, 1%nat, pm2, F1, T1. split.
    + rewrite Z.mul_0_r, Z.add_0_r.
      destruct fuel; cbn [mappages_loop]; rewrite Z.eqb_refl; apply (Hstep Z (fun _ => mret 0)).
    + split_and!; [done|done| |left; split_and!; try done; lia]. split.
      * intros i Hi. assert (i = 0) as -> by lia. by rewrite Z.mul_0_r, !Z.add_0_r.
      * intros va Hva Hne. apply Hlo; [done|]. specialize (Hne 0). rewrite Z.add_0_r in Hne. apply Hne. lia.
  - destruct fuel as [|fuel]; [lia|].
    assert (forall i, (a + PGSIZE * i) / PGSIZE = a / PGSIZE + i) as Hdiv
      by (intros i; unfold PGSIZE; rewrite Z.mul_comm, Z.div_add by lia; lia).
    destruct (IH fuel (a + PGSIZE) (pa + PGSIZE) w2 F1 T1) as (r & k & pm3 & F3 & T3 & E3 & H3 & X3 & M3 & Hres);
      try done; try (unfold PGSIZE in *; lia).
    + unfold PGSIZE in *. zlia.
    + intros i Hi. change (k_pm (w_k w2)) with pm2.
      replace (a + PGSIZE + PGSIZE * i) with (a + PGSIZE * (i + 1)) by lia.
      rewrite Hlo; [apply Hno; lia|unfold PGSIZE in *; lia|rewrite Hdiv; lia].
    + exists r, (S k), pm3, F3, T3. split.
      * cbn [mappages_loop].
        rewrite (proj2 (Z.eqb_neq a (a + PGSIZE * Z.of_nat (S n)))) by (unfold PGSIZE; lia).
        etransitivity; [apply (Hstep Z (fun _ => mappages_loop fuel pt (u64 (a + PGSIZE)) (a + PGSIZE * Z.of_nat (S n)) (u64 (pa + PGSIZE)) perm))|].
        rewrite (u64_page a n), (u64_page pa n) by (change MAXVA with 274877906944 in *; lia).
        replace (a + PGSIZE * Z.of_nat (S n)) with (a + PGSIZE + PGSIZE * Z.of_nat n) by lia.
        rewrite E3. done.
      * split_and!; [done|by eapply vm_ext_trans| |].
        -- destruct M3 as [M3a M3b]. change (k_pm (w_k w2)) with pm2 in *.
           assert ((a + PGSIZE) / PGSIZE = a / PGSIZE + 1) as Hd1 by (rewrite <- (Hdiv 1); f_equal; lia).
           split.
           ++ intros i Hi. destruct (decide (i = 0)) as [->|Hi0].
              ** rewrite Z.mul_0_r, !Z.add_0_r. rewrite M3b; [done|done|]. intros j Hj. lia.
              ** replace (a + PGSIZE * i) with (a + PGSIZE + PGSIZE * (i - 1)) by lia.
                 replace (pa + PGSIZE * i) with (pa + PGSIZE + PGSIZE * (i - 1)) by lia. apply M3a. lia.
           ++ intros va Hva Hne. rewrite M3b; [|done|].
              ** apply Hlo; [done|]. specialize (Hne 0). rewrite Z.add_0_r in Hne. apply Hne. lia.
              ** intros i Hi. rewrite Hd1. specialize (Hne (i + 1)). lia.
        -- destruct Hres as [(-> & -> & ?)|(-> & ? & -> & ?)]; [left|right]; split_and!; try done; lia.
Qed.

(** ** Rounding *)

Lemma PGROUNDDOWN_spec a : 0 <= a < 2 ^ 64 -> PGROUNDDOWN a = a / PGSIZE * PGSIZE.
Proof.
  intros Ha. unfold PGROUNDDOWN, PGSIZE.
  change (u64 (Z.lnot (4096 - 1))) with (Z.lnot 4095 mod 2 ^ 64).
  rewrite <- (Z.mod_small a (2 ^ 64)) at 1 by lia.
  rewrite <- !Z.land_ones by lia.
  assert (Z.land (Z.land a (Z.ones 64)) (Z.land (Z.lnot 4095) (Z.ones 64))
          = Z.land (Z.ldiff a (Z.ones 12)) (Z.ones 64)) as ->.
  { rewrite Z.ldiff_land. change (Z.ones 12) with 4095. by rewrite <- !Z.land_assoc. }
  rewrite Z.ldiff_ones_r by lia. rewrite Z.land_ones by lia.
  rewrite Z.shiftr_div_pow2, Z.shiftl_mul_pow2 by lia. change (2 ^ 12) with 4096.
  apply Z.mod_small. zlia.
Qed.

Lemma page_count va size : 0 <= va -> 0 < size ->
  0 <= va / PGSIZE <= (va + size - 1) / PGSIZE /\ va / PGSIZE * PGSIZE <= va /\
  (va + size - 1) / PGSIZE * PGSIZE <= va + size - 1 /\
  PGSIZE * ((va + size - 1) / PGSIZE - va / PGSIZE) < size + PGSIZE.
Proof.
  intros Hva Hs. unfold PGSIZE. pose proof (Z.div_mod va 4096). pose proof (Z.mod_pos_bound va 4096).
  pose proof (Z.div_mod (va + size - 1) 4096). pose proof (Z.mod_pos_bound (va + size - 1) 4096).
  assert (0 <= va / 4096) by (apply Z.div_pos; lia). lia.
Qed.

Lemma mappages_ok pt va size pa perm w F T :
  vm_inv (k_pm (w_k w)) F pt T -> L_kmem ∉ k_held (w_k w) ->
  0 <= va -> 0 < size -> va + size <= MAXVA -> 0 <= pa -> pa + size + PGSIZE < 2 ^ 56 -> 0 <= perm < 1024 ->
  (forall v, va / PGSIZE * PGSIZE <= v < va + size -> has (leaf (k_pm (w_k w)) T v) PTE_V = false) ->
  let n := Z.to_nat ((va + size - 1) / PGSIZE - va / PGSIZE + 1) in
  exists r k pm' F' T',
    mappages pt va size pa perm w = Ret r (with_k w (set_k_pm pm' (w_k w))) /\
    vm_inv pm' F' pt T' /\ vm_ext (k_pm (w_k w)) F T pm' F' T' /\
    mapped (leaf (k_pm (w_k w)) T) (leaf pm' T') (va / PGSIZE * PGSIZE) pa perm k /\
    (r = 0 /\ k = n /\ (length F <= length F' + 2 * n)%nat \/ r = -1 /\ (k < n)%nat /\ F' = [] /\ (length F < 2 * n)%nat).
Proof.
  intros H Hl Hva Hsz Hmax Hpa Hpb Hperm Hno n.
  change MAXVA with 274877906944 in Hmax.
  destruct (page_count va size Hva Hsz) as (Hq & Hq0 & Hq1 & Hqn).
  set (q0 := va / PGSIZE) in *. set (q1 := (va + size - 1) / PGSIZE) in *.
  set (a := q0 * PGSIZE) in *. set (m := (q1 - q0)) in *.
  assert (0 <= m) as Hm by lia.
  assert (PGROUNDDOWN va = a) as E1 by (apply PGROUNDDOWN_spec; lia).
  assert (PGROUNDDOWN (u64 (va + size - 1)) = a + PGSIZE * Z.of_nat (Z.to_nat m)) as E2.
  { rewrite u64_small, PGROUNDDOWN_spec by lia. rewrite Z2Nat.id by done. fold q1. unfold a, m, PGSIZE. lia. }
  assert (0 <= a) as Ha0 by (unfold a, PGSIZE; lia).
  assert (a mod PGSIZE = 0) as Hal by (unfold a; by apply Z.mod_mul).
  assert (a + PGSIZE * m <= va + size - 1) as Hlast by (unfold a, m, PGSIZE in *; lia).
  destruct (mappages_loop_ok pt perm (Z.to_nat m) (Z.to_nat ((a + PGSIZE * Z.of_nat (Z.to_nat m) - a) / PGSIZE))
    a pa w F T) as (r & k & pm' & F' & T' & Er & H' & X' & M' & Hres); try done.
  - replace (a + PGSIZE * Z.of_nat (Z.to_nat m) - a) with (Z.of_nat (Z.to_nat m) * PGSIZE) by lia.
    rewrite Z.div_mul by done. lia.
  - rewrite Z2Nat.id by done. change MAXVA with 274877906944. lia.
  - rewrite Z2Nat.id by done. lia.
  - intros i Hi. apply Hno. rewrite Z2Nat.id in Hi by done. unfold PGSIZE in *. lia.
  - assert (n = S (Z.to_nat m)) as -> by (unfold n, m; lia).
    exists r, k, pm', F', T'. split_and!; try done.
    + unfold mappages. rewrite (proj2 (Z.eqb_neq size 0)) by lia. cbv zeta. rewrite E1, E2. exact Er.
    + destruct Hres as [(-> & -> & ?)|(-> & ? & -> & ?)]; [left|right]; split_and!; try done; lia.
Qed.

Lemma walkaddr_ok pt va w F T : vm_inv (k_pm (w_k w)) F pt T -> 0 <= va < MAXVA ->
  walkaddr pt va w =
  Ret (let v := leaf (k_pm (w_k w)) T va in if has v PTE_V && has v PTE_U then PTE2PA v else 0) w.
Proof.
  intros H Hva. unfold walkaddr. rewrite (proj2 (Z.leb_gt MAXVA va)) by lia.
  rewrite (bind_ret _ _ _ _ _ (walk_lookup pt va Hva w F T H)). unfold leaf.
  destruct (leaf_addr T va) as [a|]; [|done]. unfold ld64. rewrite bind_kget. cbv zeta.
  destruct (has _ PTE_V); [|done]. by destruct (has _ PTE_U).
Qed.

(** ** Copying *)

(** The physical address of [va]. *)
Definition phys (pm : physmem) (T : tree) (va : Z) : Z := PTE2PA (leaf pm T va) + va mod PGSIZE.

(** The addresses from [va] to [va + n] are mapped for the user, to
    allocated pages that are not part of the page table, different
    virtual pages to different physical ones. *)
Record user_range (pm : physmem) (F : list Z) (T : tree) (va n : Z) : Prop := {
  ur_va : 0 <= va /\ va + n <= MAXVA;
  ur_pte : forall v, va <= v < va + n -> has (leaf pm T v) PTE_V = true /\ has (leaf pm T v) PTE_U = true;
  ur_page : forall v, va <= v < va + n -> valid_page (pm_end pm) (PTE2PA (leaf pm T v)) /\
    (PTE2PA (leaf pm T v) ∉ F) /\ (forall m p, T m = Some p -> p <> PTE2PA (leaf pm T v));
  ur_inj : forall v v', va <= v < va + n -> va <= v' < va + n ->
    PTE2PA (leaf pm T v) = PTE2PA (leaf pm T v') -> v / PGSIZE = v' / PGSIZE
}.

Lemma leaf_page pm T va va' : va / PGSIZE = va' / PGSIZE -> leaf pm T va = leaf pm T va'.
Proof.
  unfold PGSIZE. intros E. assert (forall l, 0 <= l -> PX l va = PX l va') as Hp.
  { intros l Hl. rewrite !PX_spec by done. rewrite !Z.pow_add_r by lia. change (2 ^ 12) with 4096.
    rewrite <- !Z.div_div by (try lia; apply Z.pow_pos_nonneg; lia). by rewrite E. }
  unfold leaf, leaf_addr. by rewrite !Hp.
Qed.

Lemma user_range_sub pm F T va n va' n' : user_range pm F T va n ->
  va <= va' -> 0 <= n' -> va' + n' <= va + n -> user_range pm F T va' n'.
Proof.
  intros [H1 H2 H3 H4] Hl Hn Hr. split; [lia|..].
  - intros v Hv. apply H2. lia.
  - intros v Hv. apply H3. lia.
  - intros v v' Hv Hv'. apply H4; lia.
Qed.

(** Different addresses of the range have different physical addresses. *)
Lemma phys_inj pm F T va n v v' : user_range pm F T va n ->
  va <= v < va + n -> va <= v' < va + n -> phys pm T v = phys pm T v' -> v = v'.
Proof.
  intros H Hv Hv' E. unfold phys in E.
  destruct (ur_page _ _ _ _ _ H v Hv) as ([Ha _] & _), (ur_page _ _ _ _ _ H v' Hv') as ([Ha' _] & _).
  assert (PTE2PA (leaf pm T v) = PTE2PA (leaf pm T v')) as Ep by (unfold PGSIZE in *; zlia).
  pose proof (ur_inj _ _ _ _ _ H v v' Hv Hv' Ep). unfold PGSIZE in *. zlia.
Qed.

(** Writing bytes into a user page changes no table and no free page. *)
Lemma vm_store_user pm F pt T m' p : vm_inv pm F pt T -> is_bytes m' -> valid_page (pm_end pm) p -> p ∉ F ->
  (forall n q, T n = Some q -> q <> p) -> (forall b, ~ (p <= b < p + PGSIZE) -> m' b = pm_mem pm b) ->
  vm_inv (set_pm_mem m' pm) F pt T /\ (forall va, 0 <= va -> leaf (set_pm_mem m' pm) T va = leaf pm T va).
Proof.
  intros H Hb Hp HpF HT Hm.
  assert (forall n q i, T n = Some q -> 0 <= i < 512 -> load64 m' (q + 8 * i) = load64 (pm_mem pm) (q + 8 * i)) as Hld.
  { intros n q i Hn Hi. apply load64_ext. intros b Hb'. apply Hm.
    apply (page_disjoint (pm_end pm) q); [by apply (vi_page _ _ _ _ H n)|done|by apply (HT n)|unfold PGSIZE; lia]. }
  split.
  - split; try apply H.
    + apply alloc_inv_ext; [apply H|done|]. intros a Ha b Hb'. apply Hm.
      apply (page_disjoint (pm_end pm) a); [by apply (ai_valid _ _ (vi_alloc _ _ _ _ H))|done| |done].
      intros ->. done.
    + intros n q i Hn Hlen Hi. change (pm_mem (set_pm_mem m' pm)) with m'. rewrite (Hld n q i Hn Hi).
      by apply (vi_entry _ _ _ _ H n q i).
  - intros va Hva. unfold leaf, leaf_addr. destruct (T [PX 2 va; PX 1 va]) as [q|] eqn:Eq; [|done].
    cbn [fmap option_fmap option_map]. apply (Hld _ _ _ Eq). apply PX_range. lia.
Qed.

Lemma user_range_mem pm F T m' va n : (forall va, 0 <= va -> leaf (set_pm_mem m' pm) T va = leaf pm T va) ->
  user_range pm F T va n -> user_range (set_pm_mem m' pm) F T va n.
Proof.
  intros Hl [H1 H2 H3 H4]. split; [done|..].
  - intros v Hv. rewrite Hl by lia. by apply H2.
  - intros v Hv. rewrite Hl by lia. by apply H3.
  - intros v v' Hv Hv'. rewrite !Hl by lia. by apply H4.
Qed.

(** The next page boundary after [va], with [n] bytes to copy. *)
Lemma next_page va : 0 <= va < MAXVA ->
  PGROUNDDOWN va = va / PGSIZE * PGSIZE /\ va - PGROUNDDOWN va = va mod PGSIZE /\
  u64 (PGROUNDDOWN va + PGSIZE) = va + (PGSIZE - va mod PGSIZE) /\ 0 <= va mod PGSIZE < PGSIZE /\
  PGROUNDDOWN va / PGSIZE = va / PGSIZE /\ 0 <= PGROUNDDOWN va < MAXVA.
Proof.
  change MAXVA with 274877906944. intros Hva. rewrite PGROUNDDOWN_spec by lia. unfold PGSIZE.
  pose proof (Z.div_mod va 4096). pose proof (Z.mod_pos_bound va 4096). assert (0 <= va / 4096) by (apply Z.div_pos; lia).
  rewrite u64_small by lia. rewrite Z.div_mul by lia. lia.
Qed.

(** The chunk of a copy that lies in the page of [va]. *)
Lemma chunk_phys pm T va k : 0 <= va -> 0 <= k -> k < PGSIZE - va mod PGSIZE ->
  phys pm T (va + k) = phys pm T va + k /\ (va + k) / PGSIZE = va / PGSIZE.
Proof.
  unfold PGSIZE. intros Hva Hk Hc.
  assert ((va + k) / 4096 = va / 4096) as E by zlia.
  split; [|done]. unfold phys, PGSIZE. rewrite (leaf_page pm T (va + k) va) by (unfold PGSIZE; done). zlia.
Qed.

Lemma walkaddr_user pt va w F T n : vm_inv (k_pm (w_k w)) F pt T -> user_range (k_pm (w_k w)) F T va n -> 0 < n ->
  walkaddr pt (PGROUNDDOWN va) w = Ret (PTE2PA (leaf (k_pm (w_k w)) T va)) w /\
  PTE2PA (leaf (k_pm (w_k w)) T va) <> 0.
Proof.
  intros H Hu Hn. pose proof (ur_va _ _ _ _ _ Hu).
  destruct (next_page va) as (_ & _ & _ & _ & Ed & Hr); [lia|].
  rewrite (walkaddr_ok pt _ w F T H Hr). rewrite (leaf_page _ T (PGROUNDDOWN va) va) by done. cbv zeta.
  destruct (ur_pte _ _ _ _ _ Hu va) as [-> ->]; [lia|]. split; [done|].
  destruct (ur_page _ _ _ _ _ Hu va) as ([_ [Hp _]] & _); [lia|].
  pose proof (ai_end _ _ (vi_alloc _ _ _ _ H)). lia.
Qed.

Lemma copyout_loop_ok pt F T : forall fuel src va w,
  vm_inv (k_pm (w_k w)) F pt T -> user_range (k_pm (w_k w)) F T va (Z.of_nat (length src)) ->
  Forall (fun x => 0 <= x < 256) src -> (length src <= fuel)%nat ->
  exists m', copyout_loop fuel pt va src w = Ret 0 (with_k w (set_k_pm (set_pm_mem m' (k_pm (w_k w))) (w_k w))) /\
    vm_inv (set_pm_mem m' (k_pm (w_k w))) F pt T /\
    (forall v, 0 <= v -> leaf (set_pm_mem m' (k_pm (w_k w))) T v = leaf (k_pm (w_k w)) T v) /\
    (forall k, 0 <= k < Z.of_nat (length src) -> m' (phys (k_pm (w_k w)) T (va + k)) = aget 0 src k) /\
    (forall b, (forall k, 0 <= k < Z.of_nat (length src) -> b <> phys (k_pm (w_k w)) T (va + k)) ->
       m' b = pm_mem (k_pm (w_k w)) b).
Proof.
  induction fuel as [|fuel IH]; intros src va w H Hu Hb Hf.
  all: destruct src as [|x src'] eqn:Esrc.
  1,3: exists (pm_mem (k_pm (w_k w)));
    assert (set_pm_mem (pm_mem (k_pm (w_k w))) (k_pm (w_k w)) = k_pm (w_k w)) as -> by (by destruct (k_pm (w_k w)));
    split_and!; [by destruct w as [? []]|done|done|simpl; lia|done].
  { simpl in Hf. lia. }
  rewrite <- Esrc in *. set (pm := k_pm (w_k w)) in *.
  assert (0 < Z.of_nat (length src)) as Hlen by (rewrite Esrc; simpl; lia).
  assert (exists tl, src = x :: tl) as Hcons by eauto. clear Esrc.
  destruct (walkaddr_user pt va w F T _ H Hu Hlen) as [Ew Hw0].
  pose proof (ur_va _ _ _ _ _ Hu) as Hva.
  destruct (next_page va) as (_ & Eoff & Enext & Hmod & _ & _); [lia|].
  destruct (ur_page _ _ _ _ _ Hu va) as (Hvp & HpF & HpT); [lia|].
  set (n := Z.to_nat (PGSIZE - va mod PGSIZE)).
  assert (Forall (fun x => 0 <= x < 256) (take n src)) as Hbt by (by apply Forall_take).
  assert (Z.of_nat (length (take n src)) <= PGSIZE - va mod PGSIZE) as Hlt by (rewrite length_take; lia).
  set (m1 := store_bytes (take n src) (phys pm T va) (pm_mem pm)).
  assert (forall b, ~ (PTE2PA (leaf pm T va) <= b < PTE2PA (leaf pm T va) + PGSIZE) -> m1 b = pm_mem pm b) as Hm1.
  { intros b Hn. unfold m1. rewrite store_bytes_spec by done. rewrite decide_False; [done|].
    unfold phys. lia. }
  destruct (vm_store_user pm F pt T m1 (PTE2PA (leaf pm T va)) H) as [H1 Hl1]; try done.
  { by apply store_bytes_bytes, (ai_bytes _ _ (vi_alloc _ _ _ _ H)). }
  set (w1 := with_k w (set_k_pm (set_pm_mem m1 pm) (w_k w))).
  assert (Z.of_nat (length (drop n src)) = Z.max 0 (Z.of_nat (length src) - (PGSIZE - va mod PGSIZE))) as Hld
    by (rewrite length_drop; lia).
  assert (copyout_loop (S fuel) pt va src w = copyout_loop fuel pt (va + (PGSIZE - va mod PGSIZE)) (drop n src) w1) as Estep.
  { destruct Hcons as [tl Etl]. rewrite Etl. cbn [copyout_loop]. rewrite <- Etl.
    rewrite (bind_ret _ _ _ _ _ Ew). rewrite (proj2 (Z.eqb_neq _ 0)) by done.
    rewrite Eoff, Enext. fold n. unfold kstore_bytes. rewrite bind_mod_pm. done. }
  destruct (decide (drop n src = [])) as [Ed|Ed].
  - exists m1. rewrite Estep, Ed.
    assert (length src <= n)%nat as Hsn by (apply (f_equal length) in Ed; rewrite length_drop in Ed; simpl in Ed; lia).
    assert (take n src = src) as Et by (apply take_ge; lia).
    split_and!; [by destruct fuel|done|done|..].
    + intros k Hk. destruct (chunk_phys pm T va k) as [-> _]; [lia|lia|lia|].
      unfold m1. rewrite Et, store_bytes_spec, decide_True by (done || lia). f_equal. lia.
    + intros b Hb'. unfold m1. rewrite Et, store_bytes_spec by done. rewrite decide_False; [done|].
      intros Hr. apply (Hb' (b - phys pm T va)); [lia|].
      destruct (chunk_phys pm T va (b - phys pm T va)) as [-> _]; lia.
  - assert (0 < Z.of_nat (length (drop n src))) as Hdp by (destruct (drop n src); [done|simpl; lia]).
    destruct (IH (drop n src) (va + (PGSIZE - va mod PGSIZE)) w1) as (m2 & E2 & H2 & Hl2 & Hin & Hout).
    + exact H1.
    + apply user_range_mem; [done|]. eapply user_range_sub; [exact Hu|lia|lia|lia].
    + by apply Forall_drop.
    + rewrite length_drop. unfold n. lia.
    + change (k_pm (w_k w1)) with (set_pm_mem m1 pm) in *.
      assert (forall v, 0 <= v -> phys (set_pm_mem m1 pm) T v = phys pm T v) as Hph
        by (intros v Hv; unfold phys; by rewrite Hl1).
      exists m2. rewrite Estep, E2. split_and!.
      * by destruct w as [? []].
      * exact H2.
      * intros v Hv. rewrite <- (Hl1 v Hv). by apply Hl2.
      * intros k Hk. destruct (decide (k < PGSIZE - va mod PGSIZE)) as [Hc|Hc].
        -- rewrite Hout.
           ++ destruct (chunk_phys pm T va k) as [-> _]; [lia..|]. cbn [pm_mem set_pm_mem]. unfold m1.
              rewrite store_bytes_spec by done. rewrite decide_True by (rewrite length_take; lia).
              replace (phys pm T va + k - phys pm T va) with k by lia. unfold aget.
              rewrite !nth_lookup, lookup_take_lt by lia. done.
           ++ intros j Hj. rewrite Hph by lia. intros E.
              apply (phys_inj pm F T va _ _ _ Hu) in E; lia.
        -- replace (va + k) with (va + (PGSIZE - va mod PGSIZE) + (k - (PGSIZE - va mod PGSIZE))) by lia.
           rewrite <- Hph by lia. rewrite Hin by lia. unfold aget. rewrite !nth_lookup, lookup_drop. f_equal. f_equal. lia.
      * intros b Hb'. rewrite Hout.
        -- cbn [pm_mem set_pm_mem]. unfold m1. rewrite store_bytes_spec by done. rewrite decide_False; [done|].
           intros Hr. rewrite length_take in Hr. apply (Hb' (b - phys pm T va)); [lia|].
           destruct (chunk_phys pm T va (b - phys pm T va)) as [-> _]; lia.
        -- intros j Hj. rewrite Hph by lia. rewrite <- Z.add_assoc. apply Hb'. lia.
Qed.

Lemma bytes_app m a n k : bytes m a (n + k) = bytes m a n ++ bytes m (a + Z.of_nat n) k.
Proof.
  unfold bytes. rewrite seq_app, fmap_app. f_equal.
  change (0 + n)%nat with n. rewrite <- (Nat.add_0_r n) at 1. rewrite <- fmap_add_seq, <- list_fmap_compose.
  apply list_fmap_ext. intros i x _. simpl. f_equal. lia.
Qed.

(** The user's bytes from [va] on. *)
Definition user_bytes (pm : physmem) (T : tree) (va : Z) (n : nat) : list Z :=
  (fun k => pm_mem pm (phys pm T (va + Z.of_nat k))) <$> seq 0 n.

Lemma user_bytes_app pm T va n k :
  user_bytes pm T va (n + k) = user_bytes pm T va n ++ user_bytes pm T (va + Z.of_nat n) k.
Proof.
  unfold user_bytes. rewrite seq_app, fmap_app. f_equal.
  change (0 + n)%nat with n. rewrite <- (Nat.add_0_r n) at 1. rewrite <- fmap_add_seq, <- list_fmap_compose.
  apply list_fmap_ext. intros i x _. simpl. do 2 f_equal. lia.
Qed.

Lemma copyin_loop_ok pt F T w : vm_inv (k_pm (w_k w)) F pt T -> forall fuel va n,
  user_range (k_pm (w_k w)) F T va n -> 0 <= n -> (Z.to_nat n <= fuel)%nat ->
  copyin_loop fuel pt va n w = Ret (0, user_bytes (k_pm (w_k w)) T va (Z.to_nat n)) w.
Proof.
  intros H. set (pm := k_pm (w_k w)) in *. induction fuel as [|fuel IH]; intros va n Hu Hn Hf.
  { assert (n = 0) as -> by lia. done. }
  cbn [copyin_loop]. destruct (Z.leb_spec n 0) as [Hle|Hgt].
  { assert (n = 0) as -> by lia. done. }
  destruct (walkaddr_user pt va w F T n H Hu Hgt) as [Ew Hw0]. fold pm in Ew, Hw0.
  pose proof (ur_va _ _ _ _ _ Hu) as Hva.
  destruct (next_page va) as (_ & Eoff & Enext & Hmod & _ & _); [lia|].
  rewrite (bind_ret _ _ _ _ _ Ew). rewrite (proj2 (Z.eqb_neq _ 0)) by done. rewrite Eoff, Enext.
  cbv zeta. set (c := if n <? PGSIZE - va mod PGSIZE then n else PGSIZE - va mod PGSIZE).
  assert (0 < c <= n /\ c <= PGSIZE - va mod PGSIZE /\ (c = n \/ c = PGSIZE - va mod PGSIZE)) as (Hc & Hc2 & Hc3).
  { unfold c. destruct (Z.ltb_spec n (PGSIZE - va mod PGSIZE)); lia. }
  rewrite bind_kget. fold pm. change (PTE2PA (leaf pm T va) + va mod PGSIZE) with (phys pm T va).
  assert (bytes (pm_mem pm) (phys pm T va) (Z.to_nat c) = user_bytes pm T va (Z.to_nat c)) as Eb.
  { unfold bytes, user_bytes. apply list_fmap_ext. intros i k Hk.
    apply lookup_seq in Hk as [-> Hk]. rewrite Nat.add_0_l.
    by destruct (chunk_phys pm T va (Z.of_nat i)) as [-> _]; [lia..|]. }
  assert (copyin_loop fuel pt (va + (PGSIZE - va mod PGSIZE)) (n - c) w
    = Ret (0, user_bytes pm T (va + c) (Z.to_nat (n - c))) w) as Er.
  { destruct (decide (n - c = 0)) as [E0|E0].
    - rewrite E0. by destruct fuel.
    - destruct Hc3 as [?|Hc3]; [lia|]. rewrite <- Hc3. apply IH; [|lia|lia].
      eapply user_range_sub; [exact Hu|lia|lia|lia]. }
  rewrite (bind_ret _ _ _ _ _ Er). rewrite Eb.
  replace (Z.to_nat n) with (Z.to_nat c + Z.to_nat (n - c))%nat by lia.
  rewrite user_bytes_app, Z2Nat.id by lia. done.
Qed.

(** ** Theorems *)

(** [mappages] on a well-formed page table, for a range of unmapped
    pages, either returns 0 with exactly the pages of the range mapped to
    consecutive physical pages with the given permissions, or runs out of
    memory and returns -1 with only an initial part of the range mapped.
    In both cases the table stays well formed, every other mapping is
    kept, the table pages added come from the free list, and no memory
    outside the table is changed; with two free pages per page to map it
    does not fail.  Afterwards [walkaddr] finds the user pages mapped. *)
Theorem mappages_correct pt va size pa perm w F T :
  vm_inv (k_pm (w_k w)) F pt T -> L_kmem ∉ k_held (w_k w) ->
  0 <= va -> 0 < size -> va + size <= MAXVA -> 0 <= pa -> pa mod PGSIZE = 0 -> pa + size + PGSIZE < 2 ^ 56 ->
  0 <= perm < 1024 ->
  (forall v, va / PGSIZE * PGSIZE <= v < va + size -> has (leaf (k_pm (w_k w)) T v) PTE_V = false) ->
  let n := Z.to_nat ((va + size - 1) / PGSIZE - va / PGSIZE + 1) in
  exists r k pm' F' T' w', mappages pt va size pa perm w = Ret r w' /\ w' = with_k w (set_k_pm pm' (w_k w)) /\
    vm_inv pm' F' pt T' /\ vm_ext (k_pm (w_k w)) F T pm' F' T' /\
    mapped (leaf (k_pm (w_k w)) T) (leaf pm' T') (va / PGSIZE * PGSIZE) pa perm k /\
    (r = 0 /\ k = n \/ r = -1 /\ (k < n)%nat) /\ ((2 * n <= length F)%nat -> r = 0) /\
    (has perm PTE_U = true -> forall i, 0 <= i < Z.of_nat k ->
       walkaddr pt (va / PGSIZE * PGSIZE + PGSIZE * i) w' = Ret (pa + PGSIZE * i) w').
Proof.
  intros H Hl Hva Hsz Hmax Hpa Hpal Hpb Hperm Hno n.
  destruct (mappages_ok pt va size pa perm w F T) as (r & k & pm' & F' & T' & E & H' & X & M & Hr); try done.
  exists r, k, pm', F', T', (with_k w (set_k_pm pm' (w_k w))). split_and!; try done.
  - destruct Hr as [(? & ? & _)|(? & ? & _)]; [by left|by right].
  - intros HF. destruct Hr as [[? _]|(_ & _ & _ & ?)]; [done|]. fold n in H0. lia.
  - intros HU i Hi. destruct (page_count va size Hva Hsz) as (Hq & Hq0 & Hq1 & Hqn).
    assert (Z.of_nat k <= (va + size - 1) / PGSIZE - va / PGSIZE + 1) as Hk.
    { destruct Hr as [(_ & -> & _)|(_ & ? & _)]; lia. }
    rewrite (walkaddr_ok pt _ (with_k w (set_k_pm pm' (w_k w))) F' T' H').
    + cbv zeta. change (k_pm (w_k (with_k w (set_k_pm pm' (w_k w))))) with pm'.
      rewrite (proj1 M i Hi). rewrite pte_of_lor, !has_lor. change (has PTE_V PTE_V) with true. rewrite HU.
      rewrite !orb_true_r. cbn [orb andb]. f_equal.
      apply pte_pa; [unfold PGSIZE in *; lia|apply lor_1024; [done|unfold PTE_V; lia]|unfold PGSIZE in *; zlia].
    + change MAXVA with 274877906944 in *. unfold PGSIZE in *. lia.
Qed.

(** C20: what [copyout] writes is what [copyin] reads.  For a range of user
    addresses that is mapped, [copyout] returns 0, changes only the bytes
    the range is mapped to and neither page tables nor free pages, and
    [copyin] of the range then returns 0 and the bytes copied. *)
Theorem copyout_copyin pt F T va src w :
  vm_inv (k_pm (w_k w)) F pt T -> user_range (k_pm (w_k w)) F T va (Z.of_nat (length src)) ->
  Forall (fun x => 0 <= x < 256) src ->
  exists m' w', copyout pt va src w = Ret 0 w' /\
    w' = with_k w (set_k_pm (set_pm_mem m' (k_pm (w_k w))) (w_k w)) /\
    vm_inv (set_pm_mem m' (k_pm (w_k w))) F pt T /\
    (forall b, (forall k, 0 <= k < Z.of_nat (length src) -> b <> phys (k_pm (w_k w)) T (va + k)) ->
       m' b = pm_mem (k_pm (w_k w)) b) /\
    copyin pt va (Z.of_nat (length src)) w' = Ret (0, src) w'.
Proof.
  intros H Hu Hb. destruct (copyout_loop_ok pt F T (length src) src va w H Hu Hb) as (m' & E & H' & Hlf & Hin & Hout); [lia|].
  set (pm := k_pm (w_k w)) in *. set (w' := with_k w (set_k_pm (set_pm_mem m' pm) (w_k w))).
  exists m', w'. split_and!; try done. unfold copyin.
  rewrite (copyin_loop_ok pt F T w' H' _ va (Z.of_nat (length src))); [|by apply user_range_mem|lia|lia].
  do 2 f_equal. rewrite Nat2Z.id. unfold user_bytes. change (k_pm (w_k w')) with (set_pm_mem m' pm).
  pose proof (ur_va _ _ _ _ _ Hu). apply list_eq. intros i. rewrite list_lookup_fmap.
  destruct (decide (i < length src)%nat) as [Hi|Hi].
  - rewrite lookup_seq_lt by done. cbn [fmap option_fmap option_map]. cbn [pm_mem set_pm_mem].
    assert (phys (set_pm_mem m' pm) T (va + Z.of_nat (0 + i)) = phys pm T (va + Z.of_nat i)) as ->
      by (unfold phys; rewrite Hlf by lia; done).
    rewrite Hin by lia. unfold aget. rewrite Nat2Z.id, nth_lookup.
    destruct (lookup_lt_is_Some_2 src i Hi) as [x Hx]. by rewrite Hx.
  - rewrite lookup_seq_ge by lia. symmetry. apply lookup_ge_None. lia.
Qed.


(** ** Witnesses *)

(** A process image with one user page at 0: its three page-table pages,
    the page itself, and two free pages. *)
Definition ex_mem : mem :=
  store64 (store64 (store64 (store64 (fun _ => 0)
    0x87fff000 0x87ffe000) 0x87ffd000 (Z.lor (PA2PTE 0x87ffc000) PTE_V))
    0x87ffc000 (Z.lor (PA2PTE 0x87ffb000) PTE_V))
    0x87ffb000 (pte_of 0x87ffa000 (Z.lor PTE_R (Z.lor PTE_W PTE_U))).
Definition ex_pm : physmem := PhysMem 0x87fff000 ex_mem 0x87ff0000 ∅ 0 0x80008000 0x80007000.
Definition ex_world : world := World [] (set_k_pm ex_pm (kst_boot 0)).
Definition ex_tree : tree := fun n =>
  if decide (n = []) then Some 0x87ffd000 else if decide (n = [0]) then Some 0x87ffc000
  else if decide (n = [0; 0]) then Some 0x87ffb000 else None.

Lemma ex_load a : a mod 8 = 0 -> load64 ex_mem a =
  if a =? 0x87ffb000 then pte_of 0x87ffa000 (Z.lor PTE_R (Z.lor PTE_W PTE_U))
  else if a =? 0x87ffc000 then Z.lor (PA2PTE 0x87ffb000) PTE_V
  else if a =? 0x87ffd000 then Z.lor (PA2PTE 0x87ffc000) PTE_V
  else if a =? 0x87fff000 then 0x87ffe000 else 0.
Proof.
  intros Ha. unfold ex_mem.
  repeat match goal with
  | |- context [?x =? ?y] => destruct (Z.eqb_spec x y) as [->|?];
      [by rewrite ?load64_store64_ne by lia; rewrite load64_store64 by (vm_compute; split; congruence)
      |rewrite load64_store64_ne by zlia]
  end.
  by apply load64_zero.
Qed.

Lemma ex_pages n p : ex_tree n = Some p ->
  n = [] /\ p = 0x87ffd000 \/ n = [0] /\ p = 0x87ffc000 \/ n = [0; 0] /\ p = 0x87ffb000.
Proof. unfold ex_tree. repeat case_decide; intros; simplify_eq; tauto. Qed.

Lemma ex_bytes : is_bytes ex_mem.
Proof. unfold ex_mem. repeat apply (store_le_bytes 8). intros a. simpl. lia. Qed.

Lemma ex_alloc : alloc_inv ex_pm [0x87fff000; 0x87ffe000].
Proof.
  split; [exact ex_bytes|reflexivity|..].
  - cbn [flist pm_mem pm_freelist ex_pm]. rewrite !ex_load by reflexivity. done.
  - apply NoDup_cons; split; [rewrite list_elem_of_singleton; lia|apply NoDup_singleton].
  - intros a Ha. unfold valid_page, PHYSTOP, KERNBASE, PGSIZE. cbn [pm_end ex_pm].
    rewrite elem_of_cons, list_elem_of_singleton in Ha. destruct Ha as [->| ->]; (split; [reflexivity|lia]).
Qed.

Lemma ex_inv : vm_inv ex_pm [0x87fff000; 0x87ffe000] 0x87ffd000 ex_tree.
Proof.
  split; [exact ex_alloc|reflexivity|..].
  - intros n p Hp. unfold valid_page, PHYSTOP, KERNBASE, PGSIZE. cbn [pm_end ex_pm].
    rewrite elem_of_cons, list_elem_of_singleton.
    destruct (ex_pages _ _ Hp) as [[_ ->]|[[_ ->]|[_ ->]]]; (split; [split; [reflexivity|lia]|lia]).
  - intros n n' p Hp Hp'. apply ex_pages in Hp, Hp'. destruct_or!; destruct_and!; subst; (done || lia).
  - intros n i q Hq. apply ex_pages in Hq as [[E _]|[[E _]|[E _]]].
    + by destruct n.
    + apply (app_inj_tail n []) in E as [-> ->]. split_and!; [lia|lia|cbn; lia|by eexists].
    + apply (app_inj_tail n [0]) in E as [-> ->]. split_and!; [lia|lia|cbn; lia|by eexists].
  - intros i [q Hq]. apply ex_pages in Hq as [[E _]|[[E _]|[E _]]]; simplify_eq. lia.
  - intros n p i Hp Hn Hi. cbn [pm_mem ex_pm].
    apply ex_pages in Hp as [[-> ->]|[[-> ->]|[-> ->]]]; [| |cbn in Hn; lia];
      (rewrite ex_load by zlia); cbn [app]; unfold ex_tree;
      (destruct (Z.eq_dec i 0) as [->|Hne]; [done|]);
      repeat (rewrite decide_False by congruence);
      repeat match goal with |- context [?x =? ?y] => destruct (Z.eqb_spec x y); [lia|] end; done.
Qed.

Lemma ex_leaf v : 0 <= v < 2 * PGSIZE -> leaf ex_pm ex_tree v =
  if v <? PGSIZE then pte_of 0x87ffa000 (Z.lor PTE_R (Z.lor PTE_W PTE_U)) else 0.
Proof.
  intros Hv. rewrite (leaf_page _ _ v (v / PGSIZE * PGSIZE)) by (unfold PGSIZE; zlia).
  destruct (Z.ltb_spec v PGSIZE).
  - replace (v / PGSIZE) with 0 by (unfold PGSIZE in *; zlia).
    change (leaf ex_pm ex_tree (0 * PGSIZE)) with (load64 ex_mem 0x87ffb000). by rewrite ex_load by reflexivity.
  - replace (v / PGSIZE) with 1 by (unfold PGSIZE in *; zlia).
    change (leaf ex_pm ex_tree (1 * PGSIZE)) with (load64 ex_mem 0x87ffb008). by rewrite ex_load by reflexivity.
Qed.

Lemma mappages_correct_witness : exists w',
  mappages 0x87ffd000 0x1000 0x1000 0x87ff9000 (Z.lor PTE_R PTE_U) ex_world = Ret 0 w' /\
  walkaddr 0x87ffd000 0x1000 w' = Ret 0x87ff9000 w'.
Proof.
  destruct (mappages_correct 0x87ffd000 0x1000 0x1000 0x87ff9000 (Z.lor PTE_R PTE_U) ex_world
    [0x87fff000; 0x87ffe000] ex_tree ex_inv) as (r & k & pm' & F' & T' & w' & E & _ & _ & _ & _ & Hr & H0 & Hw).
  - apply not_elem_of_nil.
  - lia.
  - lia.
  - vm_compute. congruence.
  - lia.
  - reflexivity.
  - unfold PGSIZE. lia.
  - vm_compute. split; congruence.
  - intros v Hv. change (k_pm (w_k ex_world)) with ex_pm.
    change (0x1000 / PGSIZE * PGSIZE) with 0x1000 in Hv. rewrite ex_leaf by (unfold PGSIZE; lia).
    by destruct (Z.ltb_spec v PGSIZE); [unfold PGSIZE in *; lia|].
  - assert (r = 0) as -> by (apply H0; apply Nat.leb_le; reflexivity). exists w'. split; [exact E|].
    destruct Hr as [[_ Hk]|[? _]]; [|lia]. apply (Hw eq_refl 0). rewrite Hk. vm_compute. split; congruence.
Defined.

Lemma ex_range : user_range ex_pm [0x87fff000; 0x87ffe000] ex_tree 100 3.
Proof.
  split; [vm_compute; split; congruence|..].
  - intros v Hv. rewrite ex_leaf by (unfold PGSIZE; lia). by destruct (Z.ltb_spec v PGSIZE); [|unfold PGSIZE in *; lia].
  - intros v Hv. rewrite ex_leaf by (unfold PGSIZE; lia).
    destruct (Z.ltb_spec v PGSIZE); [|unfold PGSIZE in *; lia].
    change (PTE2PA _) with 0x87ffa000. rewrite elem_of_cons, list_elem_of_singleton. split_and!; [|lia|].
    + split; [reflexivity|vm_compute; split; congruence].
    + intros m p Hp. apply ex_pages in Hp. lia.
  - intros v v' Hv Hv' _. unfold PGSIZE. zlia.
Qed.

Lemma copyout_copyin_witness : exists w',
  copyout 0x87ffd000 100 [1; 2; 255] ex_world = Ret 0 w' /\ copyin 0x87ffd000 100 3 w' = Ret (0, [1; 2; 255]) w'.
Proof.
  destruct (copyout_copyin 0x87ffd000 [0x87fff000; 0x87ffe000] ex_tree 100 [1; 2; 255] ex_world ex_inv ex_range)
    as (m' & w' & E & _ & _ & _ & E').
  - repeat constructor; lia.
  - exists w'. split; [exact E|exact E'].
Defined.
