(* ===== verification/UvmProps.v ===== *)
(** * UvmProps: address spaces

    Growing, copying and freeing a user address space.  Every page of the
    allocator is free, a table of the page table, or mapped for the user
    ([uses]); the operations move pages between these and lose none, also
    when memory runs out half-way.

    [uvmalloc] and [uvmcopy] run the same loop over the pages of a range,
    [alloc_map] being its body; [Section fill_loop] proves both at once, for
    any way to fill the new page. *)

From S2P Require Import Prelude.
From S2P Require Import State.
From S2P Require Import Kernel.
From S2P Require Import Mem.
From S2P Require Import Kalloc.
From S2P Require Import Vm.
From S2P Require Import VmProps.

#[local] Opaque memset memmove store64 load64.

(** ** Frames *)

(** The fields that no operation on an address space changes. *)
Record same_fields (pm pm' : physmem) : Prop := {
  sf_end : pm_end pm' = pm_end pm;
  sf_tf : pm_tf pm' = pm_tf pm;
  sf_kpt : pm_kernel_pagetable pm' = pm_kernel_pagetable pm;
  sf_etext : pm_etext pm' = pm_etext pm;
  sf_trampoline : pm_trampoline pm' = pm_trampoline pm
}.
#[global] Instance same_fields_po : PreOrder same_fields.
Proof. split; [by split|]. intros a b c [] []. split; congruence. Qed.
Lemma vm_frame_fields pm pm' T : vm_frame pm pm' T -> same_fields pm pm'.
Proof. intros [? ? (? & ? & ?) _]. by split. Qed.

Definition in_page (a b : Z) : Prop := a <= b < a + PGSIZE.

(** An operation that leaves the tables alone. *)
Lemma vm_inv_ext pm pm' F F' pt T : vm_inv pm F pt T -> alloc_inv pm' F' -> pm_end pm' = pm_end pm ->
  (forall n p, T n = Some p -> p ∉ F') -> (forall b, in_tree T b -> pm_mem pm' b = pm_mem pm b) ->
  vm_inv pm' F' pt T /\ (forall va, leaf pm' T va = leaf pm T va).
Proof.
  intros H HA He HF Hm.
  assert (forall n q i, T n = Some q -> 0 <= i < 512 -> load64 (pm_mem pm') (q + 8 * i) = load64 (pm_mem pm) (q + 8 * i)) as Hld.
  { intros n q i Hn Hi. apply load64_ext. intros b Hb. apply Hm. exists n, q. split; [done|]. unfold PGSIZE. lia. }
  split.
  - split; try apply H; try done.
    + intros n p Hn. rewrite He. split; [by apply (vi_page _ _ _ _ H n)|by apply (HF n)].
    + intros n p i Hn Hlen Hi. rewrite (Hld n p i Hn Hi). by apply (vi_entry _ _ _ _ H n p i).
  - intros va. unfold leaf, leaf_addr. destruct (T [PX 2 va; PX 1 va]) as [q|] eqn:Eq; [|done].
    cbn [fmap option_fmap option_map]. apply (Hld _ _ _ Eq). apply PX_range. lia.
Qed.

(** The place of a page. *)
Definition uses (F : list Z) (T : tree) (U : Z -> Prop) (a : Z) : Prop := a ∈ F \/ (exists n, T n = Some a) \/ U a.

(** ** Freeing a page *)

Lemma kfree_same pa w pm' : L_kmem ∉ k_held (w_k w) -> valid_page (pm_end (k_pm (w_k w))) pa ->
  kfree pa w = Ret tt (with_k w (set_k_pm pm' (w_k w))) -> same_fields (k_pm (w_k w)) pm'.
Proof.
  intros Hl Hv E. rewrite kfree_run in E by done.
  assert (kfree_pm pa (k_pm (w_k w)) = pm') as <-; [|by split].
  assert (forall k k' : kst, Ret tt (with_k w k) = Ret tt (with_k w k') -> k = k') as Hinj by (intros k k' [=]; done).
  apply Hinj in E. by apply (f_equal k_pm) in E.
Qed.

Lemma vm_kfree pa w F pt T : vm_inv (k_pm (w_k w)) F pt T -> L_kmem ∉ k_held (w_k w) ->
  valid_page (pm_end (k_pm (w_k w))) pa -> pa ∉ F -> (forall n p, T n = Some p -> p <> pa) ->
  exists pm', kfree pa w = Ret tt (with_k w (set_k_pm pm' (w_k w))) /\ vm_inv pm' (pa :: F) pt T /\
    (forall va, leaf pm' T va = leaf (k_pm (w_k w)) T va) /\ same_fields (k_pm (w_k w)) pm' /\
    (forall b, ~ in_page pa b -> pm_mem pm' b = pm_mem (k_pm (w_k w)) b).
Proof.
  intros H Hl Hv HF HT. destruct (kfree_ok pa w F (vi_alloc _ _ _ _ H) Hl Hv HF) as (pm' & E & HA & He & _ & Hm).
  exists pm'. split; [done|]. destruct (vm_inv_ext (k_pm (w_k w)) pm' F (pa :: F) pt T H HA He) as [H' Hlf].
  - intros n p Hn. rewrite not_elem_of_cons. split; [by apply (HT n)|by apply (vi_page _ _ _ _ H n)].
  - intros b (n & p & Hn & Hb). apply Hm. apply (page_disjoint (pm_end (k_pm (w_k w))) p); [by apply (vi_page _ _ _ _ H n)|done|by apply (HT n)|done].
  - split_and!; try done. by apply (kfree_same pa w).
Qed.

(** ** Unmapping *)

(** The physical page of page [i] of the address space. *)
Definition upage (pm : physmem) (T : tree) (i : Z) : Z := PTE2PA (leaf pm T (PGSIZE * i)).
(** Pages [lo] to [hi - 1] are mapped, to allocated pages of their own. *)
Record umapped (pm : physmem) (F : list Z) (T : tree) (lo hi : Z) : Prop := {
  um_lo : 0 <= lo;
  um_hi : PGSIZE * hi <= MAXVA;
  um_leaf : forall i, lo <= i < hi -> has (leaf pm T (PGSIZE * i)) PTE_V = true /\ PTE_FLAGS (leaf pm T (PGSIZE * i)) <> PTE_V;
  um_page : forall i, lo <= i < hi -> valid_page (pm_end pm) (upage pm T i) /\ upage pm T i ∉ F /\ forall n p, T n = Some p -> p <> upage pm T i;
  um_inj : forall i j, lo <= i < hi -> lo <= j < hi -> upage pm T i = upage pm T j -> i = j
}.
Definition in_upages (pm : physmem) (T : tree) (lo hi : Z) (a : Z) : Prop := exists i, lo <= i < hi /\ a = upage pm T i.

(** A change that keeps the leaves of the range. *)
Lemma umapped_ext pm pm' F F' T T' lo hi : umapped pm F T lo hi -> pm_end pm' = pm_end pm ->
  (forall i, lo <= i < hi -> leaf pm' T' (PGSIZE * i) = leaf pm T (PGSIZE * i)) ->
  (forall i, lo <= i < hi -> upage pm T i ∉ F') -> (forall i n p, lo <= i < hi -> T' n = Some p -> p <> upage pm T i) ->
  umapped pm' F' T' lo hi.
Proof.
  intros [H1 H2 H3 H4 H5] He Hlf HF HT. split; try done; unfold upage in *.
  - intros i Hi. rewrite Hlf by done. by apply H3.
  - intros i Hi. rewrite Hlf, He by done. split_and!; [by apply H4|by apply HF|]. intros n p Hn. by apply (HT i n).
  - intros i j Hi Hj. rewrite !Hlf by done. by apply H5.
Qed.

Lemma page_index i : 0 <= i -> (PGSIZE * i) / PGSIZE = i.
Proof. intros _. rewrite Z.mul_comm. by apply Z.div_mul. Qed.

Lemma uvmunmap_loop_ok pt T : forall fuel lo hi w F, vm_inv (k_pm (w_k w)) F pt T -> L_kmem ∉ k_held (w_k w) ->
  umapped (k_pm (w_k w)) F T lo hi -> hi - lo <= Z.of_nat fuel ->
  exists pm' F', uvmunmap_loop fuel pt (PGSIZE * lo) (PGSIZE * hi) true w = Ret tt (with_k w (set_k_pm pm' (w_k w))) /\
    vm_inv pm' F' pt T /\ same_fields (k_pm (w_k w)) pm' /\
    (forall i, lo <= i < hi -> leaf pm' T (PGSIZE * i) = 0) /\
    (forall va, 0 <= va < MAXVA -> va / PGSIZE < lo \/ hi <= va / PGSIZE -> leaf pm' T va = leaf (k_pm (w_k w)) T va) /\
    (forall a, a ∈ F' <-> a ∈ F \/ in_upages (k_pm (w_k w)) T lo hi a) /\
    (forall b, ~ in_tree T b -> (forall a, in_upages (k_pm (w_k w)) T lo hi a -> ~ in_page a b) -> pm_mem pm' b = pm_mem (k_pm (w_k w)) b).
Proof.
  induction fuel as [|fuel IH]; intros lo hi w F H Hl Hu Hf; set (pm := k_pm (w_k w)) in *.
  all: destruct (decide (lo < hi)) as [Hlt|Hge]; [try lia|].
  1,3: exists pm, F; split_and!; try done; try (intros; lia);
    [try destruct fuel; cbn [uvmunmap_loop]; unfold PGSIZE; (rewrite (proj2 (Z.ltb_ge _ _)) by lia); by destruct w as [? []]|].
  1,2: intros a; split; [by left|intros [?|(i & ? & _)]; [done|lia]].
  pose proof Hu as [U1 U2 U3 U4 U5]. destruct (U3 lo) as [Hv Hfl]; [lia|]. destruct (U4 lo) as (Hvp & HpF & HpT); [lia|].
  set (a := PGSIZE * lo) in *. assert (0 <= a < MAXVA /\ a + PGSIZE <= MAXVA) as [Ha Ha'] by (unfold a, PGSIZE in *; lia).
  assert (exists ptea, leaf_addr T a = Some ptea /\ load64 (pm_mem pm) ptea = leaf pm T a) as (ptea & Ea & El).
  { unfold leaf in *. destruct (leaf_addr T a) as [x|]; [by exists x|]. vm_compute in Hv. done. }
  destruct (vm_kfree (upage pm T lo) w F pt T H Hl Hvp HpF) as (pm1 & E1 & H1 & Lf1 & S1 & M1); [done|]. fold pm in M1, Lf1, S1.
  set (w1 := with_k w (set_k_pm pm1 (w_k w))).
  destruct (vm_set_leaf pm1 (upage pm T lo :: F) pt T a ptea 0 H1 Ha Ea) as (H2 & Lf2 & Lf2' & Fr2); [lia|]. cbv zeta in *. set (pm2 := set_mem _ pm1) in *.
  set (w2 := with_k w (set_k_pm pm2 (w_k w))).
  assert (forall i, lo + 1 <= i < hi -> leaf pm2 T (PGSIZE * i) = leaf pm T (PGSIZE * i)) as Hrest.
  { intros i Hi. rewrite Lf2'; [apply Lf1|unfold PGSIZE in *; lia|]. unfold a. rewrite !page_index by lia. lia. }
  assert (pm_end pm2 = pm_end pm) as He by apply S1.
  destruct (IH (lo + 1) hi w2 (upage pm T lo :: F)) as (pm' & F' & E' & H' & S' & Z' & L' & F1' & M'); [exact H2|exact Hl| |lia|].
  { apply (umapped_ext pm _ F _ T); [split; try done; try lia; intros; [apply U3|apply U4|apply U5]; try done; lia|done|done| |].
    - intros i Hi. rewrite not_elem_of_cons. split; [|apply U4; lia]. intros E. apply U5 in E; lia.
    - intros i n p Hi. apply U4. lia. }
  change (k_pm (w_k w2)) with pm2 in *.
  assert (forall i, lo + 1 <= i < hi -> upage pm2 T i = upage pm T i) as Hup by (intros i Hi; unfold upage; by rewrite Hrest).
  exists pm', F'. split_and!.
  - cbn [uvmunmap_loop]. rewrite (proj2 (Z.ltb_lt _ _)) by (unfold a, PGSIZE; lia).
    rewrite (bind_ret _ _ _ _ _ (walk_lookup pt a Ha w F T H)). rewrite Ea. unfold ld64. rewrite bind_kget. fold pm. rewrite El, Hv. cbn [negb].
    rewrite (proj2 (Z.eqb_neq _ _)) by done. cbn [kwhen]. change (PTE2PA (leaf pm T a)) with (upage pm T lo). rewrite (bind_ret _ _ _ _ _ E1).
    unfold st64. rewrite bind_mod_pm. rewrite u64_small by (change MAXVA with 274877906944 in *; unfold PGSIZE in *; lia).
    replace (a + PGSIZE) with (PGSIZE * (lo + 1)) by (unfold a; lia). exact E'.
  - exact H'.
  - etransitivity; [exact S1|]. etransitivity; [exact (vm_frame_fields _ _ _ Fr2)|exact S'].
  - intros i Hi. destruct (decide (i = lo)) as [->|]; [|apply Z'; lia]. rewrite L'; [exact Lf2|done|left; unfold a; rewrite page_index; lia].
  - intros va Hva Hout. rewrite L' by (done || lia). rewrite Lf2'; [apply Lf1|done|unfold a; rewrite page_index; lia].
  - intros x. rewrite F1', elem_of_cons. unfold in_upages. split.
    + intros [[->|Hx]|(i & Hi & ->)]; [right; exists lo; split; [lia|done]|by left|right; exists i; split; [lia|by apply Hup]].
    + intros [Hx|(i & Hi & ->)]; [left; by right|]. destruct (decide (i = lo)) as [->|]; [left; by left|right; exists i; split; [lia|by rewrite Hup by lia]].
  - intros b Hb Hnu. rewrite M'; [|done|].
    + rewrite (vf_mem _ _ _ Fr2) by done. apply M1. apply Hnu. exists lo. split; [lia|done].
    + intros x (i & Hi & ->). rewrite Hup by done. apply Hnu. exists i. split; [lia|done].
Qed.

(** ** Freeing the tables *)

Section freewalk.
Context (T : tree) (e : Z).
Hypothesis (T_page : forall n p, T n = Some p -> valid_page e p).
Hypothesis (T_inj : forall n n' p, T n = Some p -> T n' = Some p -> n = n').
Hypothesis (T_tree : forall n i q, T (n ++ [i]) = Some q -> 0 <= i < 512 /\ (length n < 2)%nat /\ is_Some (T n)).

(** The tables from node [n] down. *)
Definition below (n : list Z) (a : Z) : Prop := exists k, T (n ++ k) = Some a.
(** The entries of these tables, without leaves. *)
Definition entries_ok (m : mem) (n : list Z) : Prop := forall k p i, T (n ++ k) = Some p -> 0 <= i < 512 ->
  let v := load64 m (p + 8 * i) in
  match T ((n ++ k) ++ [i]) with
  | Some q => has v PTE_V = true /\ PTE2PA v = q /\ Z.land v (Z.lor PTE_R (Z.lor PTE_W PTE_X)) = 0
  | None => has v PTE_V = false
  end.

Lemma below_child n i a : below (n ++ [i]) a -> below n a.
Proof. intros [k Hk]. exists (i :: k). by rewrite (cons_middle i n k), app_assoc. Qed.
Lemma below_cases n a : below n a -> T n = Some a \/ exists i, 0 <= i < 512 /\ below (n ++ [i]) a.
Proof.
  intros [k Hk]. destruct k as [|i k]; [left; by rewrite app_nil_r in Hk|right]. exists i. split; [|exists k; by rewrite <- app_assoc].
  assert (forall k' x, T ((n ++ [i]) ++ k') = Some x -> 0 <= i < 512) as Hgen; [|apply (Hgen k a); by rewrite <- app_assoc].
  induction k' as [|j k' IH] using rev_ind; intros x Hx; [rewrite app_nil_r in Hx; by apply (T_tree n i x)|].
  rewrite app_assoc in Hx. destruct (T_tree _ _ _ Hx) as (_ & _ & [y Hy]). by apply (IH y).
Qed.
Lemma below_disjoint n i j a : i <> j -> below (n ++ [i]) a -> below (n ++ [j]) a -> False.
Proof. intros Hne [k Hk] [k' Hk']. pose proof (T_inj _ _ _ Hk Hk') as E. rewrite <- !app_assoc in E. apply app_inv_head in E. by simplify_eq. Qed.
Lemma below_self n i p : T n = Some p -> ~ below (n ++ [i]) p.
Proof. intros Hn [k Hk]. pose proof (T_inj _ _ _ Hn Hk) as E. rewrite <- app_assoc in E. rewrite <- (app_nil_r n) in E at 1. by apply app_inv_head in E. Qed.
Lemma entries_child m n i : entries_ok m n -> entries_ok m (n ++ [i]).
Proof. intros H k p j Hk Hj. specialize (H ([i] ++ k) p j). rewrite app_assoc in H. by apply H. Qed.
Lemma entries_ext m m' n : entries_ok m n -> (forall a b, below n a -> in_page a b -> m' b = m b) -> entries_ok m' n.
Proof.
  intros H Hm k p i Hk Hi. rewrite (load64_ext m m'); [by apply (H k p i)|]. intros b Hb. apply (Hm p); [by exists k|]. unfold in_page, PGSIZE. lia.
Qed.

(** The free pages and the memory after the tables [X] were freed. *)
Record freed (pm : physmem) (F : list Z) (X : Z -> Prop) (pm' : physmem) (F' : list Z) : Prop := {
  fr_alloc : alloc_inv pm' F';
  fr_fields : same_fields pm pm';
  fr_free : forall a, a ∈ F' <-> a ∈ F \/ X a;
  fr_mem : forall b, (forall a, X a -> ~ in_page a b) -> pm_mem pm' b = pm_mem pm b
}.

(** The loop over the entries from index [i], for a table whose subtrees
    can be freed. *)
Lemma freewalk_entries d n p : T n = Some p ->
  (forall i q w F, T (n ++ [i]) = Some q -> alloc_inv (k_pm (w_k w)) F -> pm_end (k_pm (w_k w)) = e -> L_kmem ∉ k_held (w_k w) ->
     (forall a, below (n ++ [i]) a -> a ∉ F) -> entries_ok (pm_mem (k_pm (w_k w))) (n ++ [i]) ->
     exists pm' F', freewalk d q w = Ret tt (with_k w (set_k_pm pm' (w_k w))) /\ freed (k_pm (w_k w)) F (below (n ++ [i])) pm' F') ->
  forall len i w F, Z.of_nat i + Z.of_nat len = 512 -> alloc_inv (k_pm (w_k w)) F -> pm_end (k_pm (w_k w)) = e -> L_kmem ∉ k_held (w_k w) ->
    (forall j a, Z.of_nat i <= j < 512 -> below (n ++ [j]) a -> a ∉ F) -> p ∉ F ->
    (forall j, Z.of_nat i <= j < 512 -> entries_ok (pm_mem (k_pm (w_k w))) (n ++ [j])) ->
    (forall j, Z.of_nat i <= j < 512 -> let v := load64 (pm_mem (k_pm (w_k w))) (p + 8 * j) in
       match T (n ++ [j]) with
       | Some q => has v PTE_V = true /\ PTE2PA v = q /\ Z.land v (Z.lor PTE_R (Z.lor PTE_W PTE_X)) = 0
       | None => has v PTE_V = false
       end) ->
    exists pm' F', kfor (seq i len) (fun i =>
        let ptea := p + 8 * Z.of_nat i in
        pte ← ld64 ptea;
        if has pte PTE_V && (Z.land pte (Z.lor PTE_R (Z.lor PTE_W PTE_X)) =? 0) then freewalk d (PTE2PA pte);; st64 ptea 0
        else if has pte PTE_V then panic "freewalk: leaf"
        else mret tt) w = Ret tt (with_k w (set_k_pm pm' (w_k w))) /\
      alloc_inv pm' F' /\ same_fields (k_pm (w_k w)) pm' /\
      (forall a, a ∈ F' <-> a ∈ F \/ exists j, Z.of_nat i <= j < 512 /\ below (n ++ [j]) a) /\
      (forall b, ~ in_page p b -> (forall j a, Z.of_nat i <= j < 512 -> below (n ++ [j]) a -> ~ in_page a b) -> pm_mem pm' b = pm_mem (k_pm (w_k w)) b).
Proof.
  intros Hp Hsub. induction len as [|len IH]; intros i w F Hi HA He Hl HF HpF Hent Hown; set (pm := k_pm (w_k w)) in *.
  { exists pm, F. split_and!; try done; [by destruct w as [? []]|]. intros a. split; [by left|]. intros [?|(j & ? & _)]; [done|lia]. }
  cbn [seq kfor]. assert (Z.of_nat i <= Z.of_nat i < 512) as Hr by lia. pose proof (Hown (Z.of_nat i) Hr) as Hv. cbv zeta in Hv.
  set (ptea := p + 8 * Z.of_nat i) in *. set (v := load64 (pm_mem pm) ptea) in *.
  assert (forall (g : Z -> K unit), (pte ← ld64 ptea; g pte) w = g v w) as Hld by (intros g; unfold ld64; by rewrite bind_kget).
  destruct (T (n ++ [Z.of_nat i])) as [q|] eqn:Eq.
  - destruct Hv as (Hv1 & Hv2 & Hv3). pose proof (T_page _ _ Hp) as Hpp.
    destruct (Hsub (Z.of_nat i) q w F Eq HA He Hl) as (pm1 & F1 & E1 & [A1 S1 G1 M1]); [intros a; by apply (HF (Z.of_nat i))|by apply Hent|]. fold pm in S1, M1.
    assert (forall a, below n a -> valid_page e a) as Hbv by (intros a [k Hk]; by eapply T_page).
    assert (forall j a, below (n ++ [j]) a -> a <> p) as Hnep by (intros j a Hb E; rewrite E in Hb; exact (below_self n j p Hp Hb)).
    assert (forall b, in_page p b -> pm_mem pm1 b = pm_mem pm b) as Mp.
    { intros b Hb. apply M1. intros a Ha Hab. apply (page_disjoint e p a b); try done; [by eapply Hbv, below_child|]. symmetry. by eapply Hnep. }
    set (pm2 := set_mem (fun m => store64 m ptea 0) pm1).
    assert (forall b, ~ in_page p b -> pm_mem pm2 b = pm_mem pm1 b) as M2.
    { intros b Hb. cbn. apply (store_le_other 8). unfold in_page, ptea, PGSIZE in *. lia. }
    assert (p ∉ F1) as HpF1 by (rewrite G1; intros [?|Hb]; [done|exact (below_self n _ p Hp Hb)]).
    assert (forall j a, Z.of_nat i < j < 512 -> below (n ++ [j]) a -> a ∉ F1) as HF1.
    { intros j a Hj Hb. rewrite G1. intros [?|Hb']; [by apply (HF j a); [lia|..]|]. by apply (below_disjoint n j (Z.of_nat i) a); [lia|..]. }
    assert (alloc_inv pm2 F1) as A2.
    { apply (alloc_inv_ext pm1 F1 (pm_mem pm2) A1); [by apply (store_le_bytes 8), A1|]. intros a Ha b Hb. apply M2.
      apply (page_disjoint e a p b); [|done|by intros ->|done]. rewrite <- He, <- (sf_end _ _ S1). by apply (ai_valid _ _ A1). }
    assert (forall j a b, Z.of_nat i < j < 512 -> below (n ++ [j]) a -> in_page a b -> pm_mem pm2 b = pm_mem pm b) as Mj.
    { intros j a b Hj Ha Hb. rewrite M2.
      - apply M1. intros a' Ha' Hb'. apply (page_disjoint e a a' b); try done; [by eapply Hbv, below_child..|].
        intros ->. by apply (below_disjoint n j (Z.of_nat i) a'); [lia|..].
      - apply (page_disjoint e a p b); try done; [by eapply Hbv, below_child|by eapply Hnep]. }
    destruct (IH (S i) (with_k w (set_k_pm pm2 (w_k w))) F1) as (pm' & F' & E' & A' & S' & G' & M'); try done.
    + lia.
    + cbn [w_k with_k k_pm set_k_pm]. change (pm_end pm2) with (pm_end pm1). by rewrite (sf_end _ _ S1).
    + intros j a Hj. apply HF1. lia.
    + intros j Hj. apply (entries_ext (pm_mem pm)); [apply Hent; lia|]. intros a b. apply (Mj j). lia.
    + intros j Hj. cbv zeta. rewrite (load64_ext (pm_mem pm)); [apply Hown; lia|]. intros b Hb. cbn [w_k with_k k_pm set_k_pm pm2 pm_mem set_mem set_pm_mem].
      rewrite (store_le_other 8) by (unfold ptea; lia). apply Mp. unfold in_page, PGSIZE. lia.
    + exists pm', F'. split_and!.
      * rewrite (bind_ret _ _ _ tt (with_k w (set_k_pm pm2 (w_k w)))); [exact E'|]. cbv zeta. fold ptea. rewrite Hld, Hv1, Hv3. cbn [andb]. change (0 =? 0) with true. cbv iota.
        rewrite Hv2. rewrite (bind_ret _ _ _ _ _ E1). done.
      * done.
      * etransitivity; [exact S1|]. etransitivity; [|exact S']. by split.
      * intros a. rewrite G', G1. split.
        -- intros [[?|Hb]|(j & Hj & Hb)]; [by left|right; by exists (Z.of_nat i)|right; exists j; split; [lia|done]].
        -- intros [?|(j & Hj & Hb)]; [by do 2 left|]. destruct (decide (j = Z.of_nat i)) as [->|]; [left; by right|right; exists j; split; [lia|done]].
      * intros b Hb Hnb. rewrite M'; [|done|intros j a Hj; apply Hnb; lia]. cbn [w_k with_k k_pm set_k_pm]. rewrite M2 by done. apply M1. intros a. by apply Hnb.
  - destruct (IH (S i) w F) as (pm' & F' & E' & A' & S' & G' & M'); try done; try (intros; (apply HF || apply Hent || apply Hown); lia); [lia|intros j a Hj; apply HF; lia|].
    assert (forall a, ~ below (n ++ [Z.of_nat i]) a) as Hnone.
    { intros a [k Hk]. assert (forall k' x, T ((n ++ [Z.of_nat i]) ++ k') = Some x -> False) as Hgen; [|by apply (Hgen k a)].
      induction k' as [|j k' IH'] using rev_ind; intros x Hx; [rewrite app_nil_r in Hx; congruence|].
      rewrite app_assoc in Hx. destruct (T_tree _ _ _ Hx) as (_ & _ & [y Hy]). by apply (IH' y). }
    exists pm', F'. split_and!; try done.
    + rewrite (bind_ret _ _ w tt w); [exact E'|]. cbv zeta. fold ptea. by rewrite Hld, Hv.
    + intros a. rewrite G'. split; (intros [?|(j & Hj & Hb)]; [by left|right]).
      * exists j. split; [lia|done].
      * destruct (decide (j = Z.of_nat i)) as [->|]; [by apply Hnone in Hb|exists j; split; [lia|done]].
    + intros b Hb Hnb. apply M'; [done|]. intros j a Hj. apply Hnb. lia.
Qed.

(** [freewalk] frees the table and all tables below it. *)
Lemma freewalk_ok d : forall n p w F, T n = Some p -> (2 < length n + d)%nat -> alloc_inv (k_pm (w_k w)) F -> pm_end (k_pm (w_k w)) = e ->
  L_kmem ∉ k_held (w_k w) -> (forall a, below n a -> a ∉ F) -> entries_ok (pm_mem (k_pm (w_k w))) n ->
  exists pm' F', freewalk d p w = Ret tt (with_k w (set_k_pm pm' (w_k w))) /\ freed (k_pm (w_k w)) F (below n) pm' F'.
Proof.
  assert (forall n p, T n = Some p -> (length n <= 2)%nat) as Hdepth.
  { intros n p Hn. destruct n as [|x n] using rev_ind; [cbn; lia|]. destruct (T_tree n x p Hn) as (_ & ? & _). rewrite length_app. cbn. lia. }
  induction d as [|d IH]; intros n p w F Hn Hd HA He Hl HF Hent; [apply Hdepth in Hn; lia|]. set (pm := k_pm (w_k w)) in *.
  assert (below n p) as Hbp by (exists []; by rewrite app_nil_r).
  destruct (freewalk_entries d n p Hn) with (len := 512%nat) (i := 0%nat) (w := w) (F := F) as (pm1 & F1 & E1 & A1 & S1 & G1 & M1); try done.
  - intros i q w' F' Hq HA' He' Hl' HF' Hent'. apply (IH (n ++ [i]) q w' F'); try done. rewrite length_app. cbn. lia.
  - intros j a _ Hb. by eapply HF, below_child.
  - by apply HF.
  - intros j _. by apply entries_child.
  - intros j Hj. specialize (Hent [] p j). rewrite app_nil_r in Hent. apply Hent; [done|lia].
  - set (w1 := with_k w (set_k_pm pm1 (w_k w))). assert (pm_end pm1 = e) as He1 by (by rewrite (sf_end _ _ S1)).
    assert (valid_page (pm_end pm1) p) as Hvp by (rewrite He1; by eapply T_page).
    assert (p ∉ F1) as HpF. { rewrite G1. intros [Hp|(j & _ & Hb)]; [by apply (HF p)|by apply (below_self n j p)]. }
    destruct (kfree_ok p w1 F1 A1 Hl Hvp HpF) as (pm' & E' & A' & _ & _ & M'). pose proof (kfree_same p w1 pm' Hl Hvp E') as S'.
    exists pm', (p :: F1). split; [cbn [freewalk]; rewrite (bind_ret _ _ _ _ _ E1); exact E'|]. split; [done|by etransitivity| |].
    + intros a. rewrite elem_of_cons, G1. split.
      * intros [->|[?|(j & _ & Hb)]]; [by right|by left|right; by eapply below_child].
      * intros [?|Hb]; [right; by left|]. destruct (below_cases n a Hb) as [Ha|(j & Hj & Hb')]; [left; congruence|]. right; right. by exists j.
    + intros b Hb. rewrite M' by (by apply Hb). apply M1; [by apply Hb|]. intros j a _ Ha. by eapply Hb, below_child.
Qed.
End freewalk.

(** *** Freeing an address space *)

Lemma uvmfree_ok pt sz w F T : let pm := k_pm (w_k w) in let n := (sz + PGSIZE - 1) / PGSIZE in
  vm_inv pm F pt T -> L_kmem ∉ k_held (w_k w) -> 0 <= sz < MAXVA -> umapped pm F T 0 n ->
  (forall va, 0 <= va < MAXVA -> n <= va / PGSIZE -> has (leaf pm T va) PTE_V = false) ->
  exists pm' F', uvmfree pt sz w = Ret tt (with_k w (set_k_pm pm' (w_k w))) /\
    freed pm F (fun a => (exists n, T n = Some a) \/ in_upages pm T 0 n a) pm' F'.
Proof.
  intros pm n H Hl Hsz Hu Hno. change MAXVA with 274877906944 in Hsz.
  assert (PGROUNDUP sz / PGSIZE = n) as En by (rewrite PGROUNDUP_spec by lia; by apply Z.div_mul).
  assert (0 <= n) as Hn by (unfold n, PGSIZE; zlia).
  assert (exists pm1 F1, kwhen (0 <? sz) (uvmunmap pt 0 (PGROUNDUP sz / PGSIZE) true) w = Ret tt (with_k w (set_k_pm pm1 (w_k w))) /\
    vm_inv pm1 F1 pt T /\ same_fields pm pm1 /\ (forall va, 0 <= va < MAXVA -> has (leaf pm1 T va) PTE_V = false) /\
    (forall a, a ∈ F1 <-> a ∈ F \/ in_upages pm T 0 n a) /\
    (forall b, ~ in_tree T b -> (forall a, in_upages pm T 0 n a -> ~ in_page a b) -> pm_mem pm1 b = pm_mem pm b)) as (pm1 & F1 & E1 & H1 & S1 & L1 & G1 & M1).
  { destruct (Z.ltb_spec 0 sz) as [Hp|Hz]; cbn [kwhen].
    - destruct (uvmunmap_loop_ok pt T (Z.to_nat n) 0 n w F H Hl Hu) as (pm1 & F1 & E1 & H1 & S1 & Z1 & L1 & G1 & M1); [lia|]. fold pm in S1, L1, G1, M1.
      exists pm1, F1. split_and!; try done.
      + rewrite En. unfold uvmunmap. change (0 mod PGSIZE =? 0) with true. cbn [negb]. rewrite u64_small by (unfold n, PGSIZE; zlia).
        replace (0 + n * PGSIZE) with (PGSIZE * n) by lia. exact E1.
      + intros va Hva. destruct (decide (n <= va / PGSIZE)) as [Hge|Hlt]; [rewrite L1 by (done || lia); by apply Hno|].
        rewrite (leaf_page _ T va (PGSIZE * (va / PGSIZE))) by (rewrite page_index; [done|unfold PGSIZE; zlia]). rewrite Z1; [done|unfold PGSIZE in *; zlia].
    - assert (n = 0) as E0 by (unfold n, PGSIZE; zlia). exists pm, F. split_and!; try done; [by destruct w as [? []]| |].
      + intros va Hva. apply Hno; [done|]. unfold PGSIZE. zlia.
      + intros a. split; [by left|]. intros [?|(i & ? & _)]; [done|lia]. }
  set (w1 := with_k w (set_k_pm pm1 (w_k w))).
  assert (forall a, below T [] a <-> exists n, T n = Some a) as Hbel by (intros a; split; intros [k Hk]; by exists k).
  destruct (freewalk_ok T (pm_end pm1)) with (d := 3%nat) (n := @nil Z) (p := pt) (w := w1) (F := F1) as (pm' & F' & E' & [A' S' G' M']).
  - intros m p Hm. by apply (vi_page _ _ _ _ H1 m).
  - apply (vi_inj _ _ _ _ H1).
  - apply (vi_tree _ _ _ _ H1).
  - apply (vi_root _ _ _ _ H1).
  - cbn. lia.
  - apply H1.
  - done.
  - exact Hl.
  - intros a [k Hk]. by apply (vi_page _ _ _ _ H1 k).
  - intros k p i Hk Hi. cbn [app] in *. cbv zeta. destruct (decide (length k < 2)%nat) as [Hlt|Hge]; [by apply (vi_entry _ _ _ _ H1 k p i)|].
    destruct (T (k ++ [i])) as [q|] eqn:Eq; [destruct (vi_tree _ _ _ _ H1 _ _ _ Eq); lia|].
    pose proof (tree_depth _ _ _ _ _ _ H1 Hk) as Hd. destruct k as [|i2 [|i1 [|]]]; cbn in *; try lia.
    destruct (vi_tree _ _ _ _ H1 [i2] i1 p Hk) as (Hi1 & _ & [r Hr]). destruct (vi_tree _ _ _ _ H1 [] i2 r Hr) as (Hi2 & _ & _).
    pose proof (vi_low _ _ _ _ H1 i2 ltac:(by exists r)) as Hlow.
    set (va := i2 * 1073741824 + i1 * 2097152 + i * 4096). change MAXVA with 274877906944 in L1. specialize (L1 va ltac:(unfold va; lia)).
    unfold leaf, leaf_addr in L1. rewrite !PX_spec in L1 by lia. change (2 ^ (12 + 9 * 2)) with 1073741824 in L1. change (2 ^ (12 + 9 * 1)) with 2097152 in L1. change (2 ^ (12 + 9 * 0)) with 4096 in L1.
    assert (va / 1073741824 mod 512 = i2 /\ va / 2097152 mod 512 = i1 /\ va / 4096 mod 512 = i) as (Ei2 & Ei1 & Ei0) by (unfold va; zlia). rewrite Ei2, Ei1, Ei0, Hk in L1. exact L1.
  - exists pm', F'. split.
    + unfold uvmfree. rewrite (bind_ret _ _ _ _ _ E1). exact E'.
    + split; [done|by etransitivity| |].
      * intros a. rewrite G', Hbel. change (k_pm (w_k w1)) with pm1. rewrite G1. tauto.
      * intros b Hb. rewrite M' by (intros a Ha; apply Hb; left; by apply Hbel). apply M1; [|intros a Ha; apply Hb; by right].
        intros (k & p & Hk & Hbp). apply (Hb p); [left; by exists k|done].
Qed.

(** ** Allocating and mapping one page *)

#[global] Instance in_page_dec a b : Decision (in_page a b).
Proof. unfold in_page. apply _. Defined.

(** The body of the loops of [uvmalloc] and [uvmcopy]. *)
Definition alloc_map (fill : Z -> K unit) (pt a perm : Z) (fail cont : K Z) : K Z :=
  mem ← kalloc;
  if mem =? 0 then fail else
  fill mem;;
  r ← mappages pt a PGSIZE mem perm;
  if negb (r =? 0) then kfree mem;; fail else cont.

(** [fill] puts [c] into a page and reads only the bytes of [P]. *)
Definition fill_spec (fill : Z -> K unit) (c : Z -> Z) (P : Z -> Prop) (pm : physmem) : Prop :=
  forall q w, valid_page (pm_end pm) q -> (forall b, P b -> ~ in_page q b) ->
    (forall b, P b -> pm_mem (k_pm (w_k w)) b = pm_mem pm b) -> is_bytes (pm_mem (k_pm (w_k w))) ->
    exists m', fill q w = Ret tt (with_k w (set_k_pm (set_pm_mem m' (k_pm (w_k w))) (w_k w))) /\ is_bytes m' /\
      forall b, m' b = if decide (in_page q b) then c (b - q) else pm_mem (k_pm (w_k w)) b.

(** The table may grow by pages that were free, which are the only memory
    that changes besides the table. *)
Record grown (pm : physmem) (F : list Z) (T : tree) (pm' : physmem) (F' : list Z) (T' : tree) : Prop := {
  gw_fields : same_fields pm pm';
  gw_free : forall a, a ∈ F' -> a ∈ F;
  gw_old : forall n p, T n = Some p -> T' n = Some p;
  gw_new : forall n p, T' n = Some p -> T n = Some p \/ p ∈ F
}.
Definition mem_kept (F : list Z) (T : tree) (pm pm' : physmem) : Prop :=
  forall b, ~ in_tree T b -> (forall a, a ∈ F -> ~ in_page a b) -> pm_mem pm' b = pm_mem pm b.
Lemma grown_refl pm F T : grown pm F T pm F T.
Proof. by split; [| |..|left]. Qed.
Lemma grown_trans pm F T pm1 F1 T1 pm2 F2 T2 : grown pm F T pm1 F1 T1 -> grown pm1 F1 T1 pm2 F2 T2 -> grown pm F T pm2 F2 T2.
Proof.
  intros [A1 A2 A3 A4] [B1 B2 B3 B4]. split; [by etransitivity|eauto..|].
  intros n p [Hp|Hp]%B4; [by apply A4|right; by apply A2].
Qed.
(** What is neither in a page of [F] nor in the old table is not in the new. *)
Lemma grown_outside pm F T pm' F' T' b : grown pm F T pm' F' T' -> ~ in_tree T b -> (forall a, a ∈ F -> ~ in_page a b) ->
  ~ in_tree T' b /\ forall a, a ∈ F' -> ~ in_page a b.
Proof.
  intros G Hb HF. split; [|intros a Ha; by apply HF, (gw_free _ _ _ _ _ _ G)].
  intros (n & p & Hn & Hp). apply (gw_new _ _ _ _ _ _ G) in Hn as [Hn|Hn]; [apply Hb; by exists n, p|by apply (HF p)].
Qed.

Section alloc_map.
Context (pt a i perm : Z) (fill : Z -> K unit) (c : Z -> Z) (P : Z -> Prop) (fail cont : K Z).
Context (w : world) (F : list Z) (T : tree).
Let pm := k_pm (w_k w).
Hypothesis (H : vm_inv pm F pt T) (Hl : L_kmem ∉ k_held (w_k w)) (Ea : a = PGSIZE * i) (Ha : 0 <= a) (Ha' : a + PGSIZE <= MAXVA).
Hypothesis (Hno : has (leaf pm T a) PTE_V = false) (Hperm : 0 <= perm < 1024).
Hypothesis (HP : forall x b, x ∈ F -> P b -> ~ in_page x b) (Hfill : fill_spec fill c P pm).

(** A page was taken from the free list and filled. *)
Lemma page_filled q F1 : F = q :: F1 -> exists pm2, (mem ← kalloc; fill mem) w = Ret tt (with_k w (set_k_pm pm2 (w_k w))) /\
  (forall B (f : K B) (g : Z -> K B), (mem ← kalloc; if mem =? 0 then f else fill mem;; g mem) w = g q (with_k w (set_k_pm pm2 (w_k w)))) /\
  vm_inv pm2 F1 pt T /\ (forall va, leaf pm2 T va = leaf pm T va) /\ same_fields pm pm2 /\ valid_page (pm_end pm) q /\ q ∉ F1 /\
  (forall n p, T n = Some p -> p <> q) /\ forall b, pm_mem pm2 b = if decide (in_page q b) then c (b - q) else pm_mem pm b.
Proof.
  intros EF. pose proof (vi_alloc _ _ _ _ H) as HA. pose proof (kalloc_ok w F HA Hl) as Hk. rewrite EF in Hk.
  destruct Hk as (pm1 & Ek & Hq0 & A1 & He1 & Ht1 & M1 & Sh1). fold pm in He1, Ht1, M1, Sh1.
  assert (valid_page (pm_end pm) q) as Hq by (apply (ai_valid _ _ HA); rewrite EF; set_solver).
  pose proof (ai_nodup _ _ HA) as Hnd. rewrite EF in Hnd. apply NoDup_cons in Hnd as [HqF Hnd].
  assert (forall n p, T n = Some p -> p <> q) as HTq by (intros n p Hn ->; apply (vi_page _ _ _ _ H) in Hn as [_ Hx]; apply Hx; rewrite EF; set_solver).
  assert (forall b, ~ in_page q b -> pm_mem pm1 b = pm_mem pm b) as M1' by (intros b Hb; rewrite M1; by rewrite decide_False).
  set (w1 := with_k w (set_k_pm pm1 (w_k w))).
  destruct (Hfill q w1) as (m' & Ef & Hb & Hm); [done| | |apply A1|].
  { intros b. apply HP. rewrite EF. set_solver. }
  { intros b Hb. apply M1'. apply HP; [rewrite EF; set_solver|done]. }
  change (k_pm (w_k w1)) with pm1 in *. set (pm2 := set_pm_mem m' pm1) in *.
  assert (forall b, m' b = if decide (in_page q b) then c (b - q) else pm_mem pm b) as Hm'.
  { intros b. rewrite Hm. case_decide; [done|]. by apply M1'. }
  assert (alloc_inv pm2 F1) as A2.
  { apply (alloc_inv_ext pm1 F1 m' A1 Hb). intros x Hx b Hxb. rewrite Hm. rewrite decide_False; [done|].
    apply (page_disjoint (pm_end pm) x); [|done|by intros ->|done]. rewrite <- He1. by apply (ai_valid _ _ A1). }
  destruct (vm_inv_ext pm pm2 F F1 pt T H A2 He1) as [H2 L2].
  { intros n p Hn. apply (vi_page _ _ _ _ H) in Hn as [_ Hx]. rewrite EF in Hx. set_solver. }
  { intros b (n & p & Hn & Hp). cbn. rewrite Hm'. rewrite decide_False; [done|].
    apply (page_disjoint (pm_end pm) p); [by apply (vi_page _ _ _ _ H n)|done|by apply (HTq n)|done]. }
  exists pm2. split_and!; try done.
  - rewrite (bind_ret _ _ _ _ _ Ek). exact Ef.
  - intros B f g. rewrite (bind_ret _ _ _ _ _ Ek). rewrite (proj2 (Z.eqb_neq q 0)) by done. rewrite (bind_ret _ _ _ _ _ Ef). done.
  - assert (same_fields pm pm1) as [] by (rewrite Sh1; by split). by split.
Qed.

Lemma alloc_map_ok : exists pm' F' T', vm_inv pm' F' pt T' /\ grown pm F T pm' F' T' /\ mem_kept F T pm pm' /\
  ((alloc_map fill pt a perm fail cont w = fail (with_k w (set_k_pm pm' (w_k w))) /\
    (forall va, 0 <= va < MAXVA -> leaf pm' T' va = leaf pm T va) /\ (forall x, uses F T (fun _ => False) x <-> uses F' T' (fun _ => False) x) /\ (length F < 3)%nat) \/
   exists q, alloc_map fill pt a perm fail cont w = cont (with_k w (set_k_pm pm' (w_k w))) /\ leaf pm' T' a = pte_of q perm /\
    (forall va, 0 <= va < MAXVA -> va / PGSIZE <> i -> leaf pm' T' va = leaf pm T va) /\
    valid_page (pm_end pm) q /\ q ∈ F /\ q ∉ F' /\ (forall n p, T' n = Some p -> p <> q) /\ (forall k, 0 <= k < PGSIZE -> pm_mem pm' (q + k) = c k) /\
    (forall x, uses F T (fun _ => False) x <-> uses F' T' (fun y => y = q) x) /\ (length F <= length F' + 3)%nat).
Proof.
  assert (F = [] \/ exists q F1, F = q :: F1) as [EF|(q & F1 & EF)] by (destruct F; eauto).
  { exists pm, F, T. split; [done|]. split; [apply grown_refl|]. split; [done|]. left. split_and!; try done; [|rewrite EF; cbn; lia].
    pose proof (kalloc_ok w F (vi_alloc _ _ _ _ H) Hl) as Hk. rewrite EF in Hk.
    unfold alloc_map. rewrite (bind_ret _ _ _ _ _ Hk). cbn. unfold pm. by destruct w as [? []]. }
  destruct (page_filled q F1 EF) as (pm2 & _ & Er & H2 & L2 & S2 & Hq & HqF & HqT & M2).
  set (w2 := with_k w (set_k_pm pm2 (w_k w))) in *. assert (0 <= q /\ q + PGSIZE + PGSIZE < 2 ^ 56 /\ q mod PGSIZE = 0) as (Hq1 & Hq2 & Hq3).
  { destruct Hq as [? [? ?]]. pose proof (ai_end _ _ (vi_alloc _ _ _ _ H)). unfold PHYSTOP, KERNBASE, PGSIZE in *. fold pm in H0, H1. change (2 ^ 56) with 72057594037927936. lia. }
  assert (a / PGSIZE * PGSIZE = a) as Eal by (rewrite Ea, page_index by (unfold PGSIZE in *; lia); lia).
  destruct (mappages_ok pt a PGSIZE q perm w2 F1 T H2 Hl Ha) as (r & k & pm3 & F3 & T3 & E3 & H3 & X3 & Mp & Hr); [done|done|done|done|done| |].
  { intros v Hv. change (k_pm (w_k w2)) with pm2. rewrite L2, (leaf_page pm T v a); [done|]. unfold PGSIZE in *. zlia. }
  change (k_pm (w_k w2)) with pm2 in *. rewrite Eal in Mp.
  replace (Z.to_nat ((a + PGSIZE - 1) / PGSIZE - a / PGSIZE + 1)) with 1%nat in Hr by (unfold PGSIZE in *; zlia).
  destruct X3 as [Xs Xo Xn Xu Xf]. pose proof (vm_frame_fields _ _ _ Xf) as S3.
  assert (forall n p, T3 n = Some p -> p <> q) as HqT3 by (intros n p Hn ->; apply Xn in Hn as [Hn|Hn]; [by apply (HqT n q)|done]).
  assert (forall x, x ∈ F3 -> x ∈ F1) as Hsub by (intros x Hx; destruct Xs as [l ->]; apply elem_of_app; by right).
  assert (pm_end pm3 = pm_end pm) as He3 by (transitivity (pm_end pm2); [apply S3|apply S2]).
  assert (forall b, ~ in_tree T b -> (forall x, x ∈ F -> ~ in_page x b) -> ~ in_tree T3 b /\ ~ in_page q b) as Hout.
  { intros b Hb HF. split; [|apply HF; rewrite EF; set_solver]. intros (n & p & Hn & Hp). apply Xn in Hn as [Hn|Hn]; [apply Hb; by exists n, p|].
    apply (HF p); [rewrite EF; set_solver|done]. }
  assert (mem_kept F T pm pm3) as K3. { intros b Hb HF. destruct (Hout b Hb HF) as [O1 O2]. rewrite (vf_mem _ _ _ Xf) by done. rewrite M2. by rewrite decide_False. }
  assert (forall n p, T3 n = Some p -> T n = Some p \/ p ∈ F) as Hnew by (intros n p [?|?]%Xn; [by left|right; rewrite EF; set_solver]).
  assert (forall x, x ∈ F <-> x = q \/ x ∈ F1) as HFx by (intros x; rewrite EF; apply elem_of_cons).
  destruct Hr as [(-> & -> & Hlen)|(-> & Hk & -> & Hlen)].
  - exists pm3, F3, T3. split; [done|]. split; [split; [by etransitivity|intros x Hx%Hsub; apply HFx; by right|done|done]|]. split; [done|]. right. exists q. destruct Mp as [Mp1 Mp2].
    split_and!; try done.
    + unfold alloc_map. etransitivity; [apply (Er Z fail (fun mem => _))|]. cbv beta. rewrite (bind_ret _ _ _ _ _ E3). done.
    + specialize (Mp1 0). rewrite Z.mul_0_r, !Z.add_0_r in Mp1. apply Mp1. lia.
    + intros va Hva Hne. rewrite Mp2, L2; [done|done|]. intros j Hj. rewrite Ea, page_index by (unfold PGSIZE in *; lia). lia.
    + apply HFx. by left.
    + intros Hx. by apply HqF, Hsub.
    + intros k Hk. rewrite (vf_mem _ _ _ Xf).
      * rewrite M2, decide_True by (unfold in_page; lia). f_equal. lia.
      * intros (n & p & Hn & Hp). pose proof (HqT3 n p Hn). apply (page_disjoint (pm_end pm) p q (q + k)) in Hp; [unfold PGSIZE in *; lia|rewrite <- He3; by apply (vi_page _ _ _ _ H3 n)|done|done].
    + intros x. unfold uses. rewrite HFx. split.
      * intros [[->|Hx]|[[n Hn]|[]]]; [by do 2 right|apply Xu in Hx as [?|?]; [by left|right; by left]|right; left; exists n; by apply Xo].
      * intros [Hx|[[n Hn]| ->]]; [left; right; by apply Hsub|apply Xn in Hn as [Hn|Hn]; [right; left; by exists n|left; by right]|by do 2 left].
    + rewrite EF. cbn [length]. lia.
  - assert (k = 0%nat) as -> by lia. destruct Mp as [_ Mp2].
    destruct (vm_kfree q (with_k w (set_k_pm pm3 (w_k w))) [] pt T3) as (pm4 & E4 & H4 & L4 & S4 & M4); try done; [cbn; by rewrite He3|by apply not_elem_of_nil|]. cbn [w_k with_k k_pm set_k_pm] in S4, M4, L4.
    exists pm4, [q], T3. split; [done|]. split; [split; [etransitivity; [exact S2|by etransitivity]|intros x ->%list_elem_of_singleton; apply HFx; by left|done|done]|]. split.
    { intros b Hb HF. destruct (Hout b Hb HF) as [_ O2]. rewrite M4 by done. by apply K3. }
    left. split_and!.
    + unfold alloc_map. etransitivity; [apply (Er Z fail (fun mem => _))|]. cbv beta. rewrite (bind_ret _ _ _ _ _ E3). change (negb (-1 =? 0)) with true. cbv iota. by rewrite (bind_ret _ _ _ _ _ E4).
    + intros va Hva. rewrite L4, Mp2, L2; [done|done|]. intros j Hj. lia.
    + intros x. unfold uses. rewrite HFx, list_elem_of_singleton. split.
      * intros [[->|Hx]|[[n Hn]|[]]]; [by left|apply Xu in Hx as [Hx|?]; [by apply not_elem_of_nil in Hx|right; by left]|right; left; exists n; by apply Xo].
      * intros [->|[[n Hn]|[]]]; [by do 2 left|]. apply Xn in Hn as [Hn|Hn]; [right; left; by exists n|left; by right].
    + rewrite EF. cbn [length]. lia.
Qed.
End alloc_map.

(** ** The loop over a range of pages *)

(** What unmapping pages [lo] to [hi - 1] does. *)
Record unmap_post (pt : Z) (T : tree) (lo hi : Z) (pm : physmem) (F : list Z) (pm' : physmem) (F' : list Z) : Prop := {
  up_inv : vm_inv pm' F' pt T;
  up_fields : same_fields pm pm';
  up_zero : forall i, lo <= i < hi -> leaf pm' T (PGSIZE * i) = 0;
  up_leaf : forall va, 0 <= va < MAXVA -> va / PGSIZE < lo \/ hi <= va / PGSIZE -> leaf pm' T va = leaf pm T va;
  up_free : forall a, a ∈ F' <-> a ∈ F \/ in_upages pm T lo hi a;
  up_mem : forall b, ~ in_tree T b -> (forall a, in_upages pm T lo hi a -> ~ in_page a b) -> pm_mem pm' b = pm_mem pm b
}.
Lemma uvmunmap_post pt T lo hi w F : vm_inv (k_pm (w_k w)) F pt T -> L_kmem ∉ k_held (w_k w) -> umapped (k_pm (w_k w)) F T lo hi -> lo <= hi ->
  exists pm' F', uvmunmap pt (PGSIZE * lo) (hi - lo) true w = Ret tt (with_k w (set_k_pm pm' (w_k w))) /\ unmap_post pt T lo hi (k_pm (w_k w)) F pm' F'.
Proof.
  intros H Hl Hu Hle. destruct (uvmunmap_loop_ok pt T (Z.to_nat (hi - lo)) lo hi w F H Hl Hu) as (pm' & F' & E & P); [lia|].
  exists pm', F'. split; [|by destruct P as (? & ? & ? & ? & ? & ?)]. pose proof (um_lo _ _ _ _ _ Hu). pose proof (um_hi _ _ _ _ _ Hu) as Hhi. change MAXVA with 274877906944 in Hhi.
  unfold uvmunmap. assert (PGSIZE * lo mod PGSIZE = 0) as -> by (rewrite Z.mul_comm; by apply Z.mod_mul). change (0 =? 0) with true. cbn [negb].
  rewrite u64_small by (unfold PGSIZE in *; lia). replace (PGSIZE * lo + (hi - lo) * PGSIZE) with (PGSIZE * hi) by lia. exact E.
Qed.
Lemma unmap_none pt T lo pm F : vm_inv pm F pt T -> unmap_post pt T lo lo pm F pm F.
Proof. intros H. split; try done; [intros; lia|]. intros a. split; [by left|intros [?|(i & ? & _)]; [done|lia]]. Qed.

(** Bookkeeping of pages. *)
Lemma or_freed (f t f1 t1 f2 u : Prop) : (f \/ t \/ False <-> f1 \/ t1 \/ False) -> (f2 <-> f1 \/ u) -> (f \/ t \/ u <-> f2 \/ t1 \/ False).
Proof. tauto. Qed.
Lemma or_used (f t f1 t1 f2 t2 u q : Prop) : (f \/ t \/ False <-> f1 \/ t1 \/ q) -> (f1 \/ t1 \/ False <-> f2 \/ t2 \/ u) -> (f \/ t \/ False <-> f2 \/ t2 \/ q \/ u).
Proof.
  intros A [B B']. rewrite A. clear A. split.
  - intros [X|[X|X]]; [destruct B as [?|[?|?]]..|]; auto.
  - intros [X|[X|[X|X]]]; [destruct B' as [?|[?|[]]]..| |destruct B' as [?|[?|[]]]]; auto.
Qed.
Lemma or_moved (f t f1 t1 u q : Prop) : (f \/ t \/ False <-> f1 \/ t1 \/ q) -> (f \/ t \/ u <-> f1 \/ t1 \/ u \/ q).
Proof.
  intros [A A']. split.
  - intros [X|[X|X]]; [destruct A as [?|[?|?]]..|]; auto.
  - intros [X|[X|[X|X]]]; [destruct A' as [?|[?|[]]]..| |destruct A' as [?|[?|[]]]]; auto.
Qed.

Section fill_loop.
Context (pt lo hi : Z) (P : Z -> Prop) (pm0 : physmem) (fill : Z -> Z -> K unit) (perm : Z -> Z) (content : Z -> Z -> Z).
Context (loop : nat -> Z -> K Z) (fail : Z -> K Z) (ok err : Z).
(** The bytes of [P] are still those of [pm0], and out of reach. *)
Definition intact (pm : physmem) (F : list Z) (T : tree) : Prop :=
  pm_end pm = pm_end pm0 /\ (forall b, P b -> pm_mem pm b = pm_mem pm0 b) /\ (forall b, P b -> ~ in_tree T b) /\ (forall a b, a ∈ F -> P b -> ~ in_page a b).
Hypothesis (Hlo : 0 <= lo) (Hhi : PGSIZE * hi <= MAXVA).
Hypothesis (Hperm : forall i, lo <= i < hi -> 0 <= perm i < 1024 /\ Z.lor (perm i) PTE_V <> PTE_V).
Hypothesis (Hfill : forall i pm F T, lo <= i < hi -> intact pm F T -> fill_spec (fill i) (content i) P pm).
Hypothesis (Hstep : forall f i w F T, lo <= i < hi -> vm_inv (k_pm (w_k w)) F pt T -> L_kmem ∉ k_held (w_k w) -> intact (k_pm (w_k w)) F T ->
  loop (S f) i w = alloc_map (fill i) pt (PGSIZE * i) (perm i) (fail i) (loop f (i + 1)) w).
Hypothesis (Hstop : forall f w, loop f hi w = Ret ok w).
Hypothesis (Hfail : forall i w F T, lo <= i < hi -> vm_inv (k_pm (w_k w)) F pt T -> L_kmem ∉ k_held (w_k w) -> umapped (k_pm (w_k w)) F T lo i ->
  exists pm' F', fail i w = Ret err (with_k w (set_k_pm pm' (w_k w))) /\ unmap_post pt T lo i (k_pm (w_k w)) F pm' F').

Lemma intact_grown pm F T pm' F' T' : intact pm F T -> grown pm F T pm' F' T' -> mem_kept F T pm pm' -> intact pm' F' T'.
Proof.
  intros (I1 & I2 & I3 & I4) G M. split_and!.
  - by rewrite (sf_end _ _ (gw_fields _ _ _ _ _ _ G)).
  - intros b Hb. rewrite M; [by apply I2|by apply I3|]. intros a Ha. by apply I4.
  - intros b Hb. eapply grown_outside; [exact G|by apply I3|]. intros a Ha. by apply I4.
  - intros a b Ha Hb. apply I4; [by apply (gw_free _ _ _ _ _ _ G)|done].
Qed.

(** Pages [i] to [hi - 1] were filled and mapped. *)
Record filled (i : Z) (pm : physmem) (F : list Z) (T : tree) (pm' : physmem) (F' : list Z) (T' : tree) : Prop := {
  fl_grown : grown pm F T pm' F' T';
  fl_mem : mem_kept F T pm pm';
  fl_mapped : umapped pm' F' T' lo hi;
  fl_page : forall j, i <= j < hi -> exists q, q ∈ F /\ leaf pm' T' (PGSIZE * j) = pte_of q (perm j) /\ upage pm' T' j = q /\
    forall k, 0 <= k < PGSIZE -> pm_mem pm' (q + k) = content j k;
  fl_leaf : forall va, 0 <= va < MAXVA -> va / PGSIZE < i \/ hi <= va / PGSIZE -> leaf pm' T' va = leaf pm T va;
  fl_uses : forall x, uses F T (fun _ => False) x <-> uses F' T' (in_upages pm' T' i hi) x
}.
(** Memory ran out, and pages [lo] to [i - 1] were freed as well. *)
Record given_up (i : Z) (pm : physmem) (F : list Z) (T : tree) (pm' : physmem) (F' : list Z) (T' : tree) : Prop := {
  gu_fields : same_fields pm pm';
  gu_old : forall n p, T n = Some p -> T' n = Some p;
  gu_new : forall n p, T' n = Some p -> T n = Some p \/ p ∈ F;
  gu_none : forall j, lo <= j < hi -> has (leaf pm' T' (PGSIZE * j)) PTE_V = false;
  gu_leaf : forall va, 0 <= va < MAXVA -> va / PGSIZE < lo \/ hi <= va / PGSIZE -> leaf pm' T' va = leaf pm T va;
  gu_uses : forall x, uses F T (in_upages pm T lo i) x <-> uses F' T' (fun _ => False) x;
  gu_mem : forall b, ~ in_tree T b -> (forall a, a ∈ F \/ in_upages pm T lo i a -> ~ in_page a b) -> pm_mem pm' b = pm_mem pm b;
  gu_short : Z.of_nat (length F) < 3 * (hi - i)
}.

Lemma pte_of_flags q f : 0 <= q < 2 ^ 56 -> q mod 4096 = 0 -> 0 <= f < 1024 -> PTE_FLAGS (pte_of q f) = Z.lor f PTE_V /\ PTE2PA (pte_of q f) = q /\ has (pte_of q f) PTE_V = true.
Proof.
  intros Hq Hal Hf. assert (0 <= Z.lor f PTE_V < 1024) as Hg by (apply lor_1024; [done|unfold PTE_V; lia]). rewrite pte_of_lor. split_and!.
  - rewrite PA2PTE_spec, lor_add by (done || (apply Z.div_pos; lia)). unfold PTE_FLAGS. change 0x3FF with (Z.ones 10). rewrite Z.land_ones by lia. change (2 ^ 10) with 1024.
    rewrite Z.add_comm, Z.mod_add by lia. by apply Z.mod_small.
  - by apply pte_pa.
  - rewrite !has_lor. change (has PTE_V PTE_V) with true. by rewrite !orb_true_r.
Qed.

Lemma fill_loop_ok f : forall i w F T, let pm := k_pm (w_k w) in
  vm_inv pm F pt T -> L_kmem ∉ k_held (w_k w) -> lo <= i <= hi -> hi - i <= Z.of_nat f -> intact pm F T -> umapped pm F T lo i ->
  (forall j, i <= j < hi -> has (leaf pm T (PGSIZE * j)) PTE_V = false) ->
  exists r pm' F' T', loop f i w = Ret r (with_k w (set_k_pm pm' (w_k w))) /\ vm_inv pm' F' pt T' /\
    (r = ok /\ filled i pm F T pm' F' T' \/ r = err /\ given_up i pm F T pm' F' T').
Proof.
  induction f as [|f IH]; intros i w F T pm H Hl Hi Hf Hint Hu Hno.
  all: destruct (decide (i = hi)) as [->|Hne]; [|try lia].
  1,2: exists ok, pm, F, T; split; [rewrite Hstop; unfold pm; by destruct w as [? []]|]; split; [done|left; split; [done|]];
    split; try done; [apply grown_refl|intros; lia|intros x; unfold uses, in_upages; split; [tauto|intros [?|[?|(j & ? & _)]]; [tauto|tauto|lia]]].
  assert (lo <= i < hi) as Hi' by lia. set (a := PGSIZE * i). assert (0 <= a /\ a + PGSIZE <= MAXVA) as [Ha Ha'] by (unfold a, PGSIZE in *; lia).
  destruct (Hperm i Hi') as [Hp1 Hp2]. pose proof Hint as (I1 & I2 & I3 & I4).
  destruct (alloc_map_ok pt a i (perm i) (fill i) (content i) P (fail i) (loop f (i + 1)) w F T) as (pm1 & F1 & T1 & H1 & G1 & K1 & Hcase); try done.
  { apply Hno. lia. } { by apply (Hfill i pm F T). }
  set (w1 := with_k w (set_k_pm pm1 (w_k w))) in *. fold pm in G1, K1, Hcase. pose proof (gw_fields _ _ _ _ _ _ G1) as S1.
  assert (forall j, lo <= j < i -> PGSIZE * j / PGSIZE = j /\ 0 <= PGSIZE * j < MAXVA) as Hj by (intros j Hj; split; [apply page_index; lia|unfold PGSIZE in *; lia]).
  assert ((forall j, lo <= j < i -> leaf pm1 T1 (PGSIZE * j) = leaf pm T (PGSIZE * j)) -> umapped pm1 F1 T1 lo i) as Hu1.
  { intros Hlf. apply (umapped_ext pm _ F _ T); try done; [by rewrite (sf_end _ _ S1)| |].
    - intros j Hjr Hx. apply (gw_free _ _ _ _ _ _ G1) in Hx. by destruct (um_page _ _ _ _ _ Hu j Hjr) as (_ & ? & _).
    - intros j n p Hjr Hn. destruct (um_page _ _ _ _ _ Hu j Hjr) as (_ & Hf1 & Hf2).
      apply (gw_new _ _ _ _ _ _ G1) in Hn as [Hn|Hn]; [by apply (Hf2 n)|by intros ->]. }
  assert ((forall j, lo <= j < i -> leaf pm1 T1 (PGSIZE * j) = leaf pm T (PGSIZE * j)) -> forall x, in_upages pm1 T1 lo i x <-> in_upages pm T lo i x) as Hup.
  { intros Hlf x. unfold in_upages, upage. split; intros (j & Hjr & ->); exists j; (split; [done|]); by rewrite Hlf. }
  rewrite (Hstep f i w F T) by done. fold a.
  destruct Hcase as [(E & L1 & C1 & Hlen)|(q & E & Lq & L1 & Hvq & HqF & HqF1 & HqT & Hc & C1 & Hlen)].
  - assert (forall j, lo <= j < i -> leaf pm1 T1 (PGSIZE * j) = leaf pm T (PGSIZE * j)) as Hlf by (intros j Hjr; apply L1; by apply Hj).
    destruct (Hfail i w1 F1 T1 Hi' H1 Hl (Hu1 Hlf)) as (pm2 & F2 & E2 & [U1 U2 U3 U4 U5 U6]). change (k_pm (w_k w1)) with pm1 in *.
    exists err, pm2, F2, T1. split; [rewrite E; exact E2|]. split; [done|right; split; [done|]]. split; try apply G1; try done.
    + by etransitivity.
    + intros j Hjr. destruct (decide (j < i)); [rewrite U3 by lia; done|]. rewrite U4; [|unfold PGSIZE in *; lia|right; rewrite page_index; lia].
      rewrite L1 by (unfold PGSIZE in *; lia). apply Hno. lia.
    + intros va Hva Hout. rewrite U4 by (done || lia). by apply L1.
    + intros x. specialize (C1 x). specialize (U5 x). rewrite (Hup Hlf) in U5. exact (or_freed _ _ _ _ _ _ C1 U5).
    + intros b Hb HF. rewrite U6.
      * apply K1; [done|]. intros x Hx. apply HF. by left.
      * eapply grown_outside; [exact G1|done|]. intros x Hx. apply HF. by left.
      * intros x Hx%(Hup Hlf). apply HF. by right.
    + lia.
  - assert (forall j, lo <= j < i -> leaf pm1 T1 (PGSIZE * j) = leaf pm T (PGSIZE * j)) as Hlf by (intros j Hjr; destruct (Hj j Hjr); apply L1; [done|lia]).
    assert (0 <= q < 2 ^ 56 /\ q mod 4096 = 0) as [Hq Hqa].
    { destruct Hvq as [? [? ?]]. pose proof (ai_end _ _ (vi_alloc _ _ _ _ H)). unfold PHYSTOP, KERNBASE, PGSIZE in *. change (2 ^ 56) with 72057594037927936. lia. }
    destruct (pte_of_flags q (perm i) Hq Hqa Hp1) as (Pf & Pa & Pv).
    assert (upage pm1 T1 i = q) as Eq by (unfold upage; fold a; by rewrite Lq).
    pose proof (Hu1 Hlf) as [V1 V2 V3 V4 V5].
    assert (umapped pm1 F1 T1 lo (i + 1)) as Hu2.
    { split; [done|unfold a in *; lia|..].
      - intros j Hjr. destruct (decide (j = i)) as [->|]; [fold a; rewrite Lq, Pf; done|apply V3; lia].
      - intros j Hjr. destruct (decide (j = i)) as [->|]; [rewrite Eq; rewrite (sf_end _ _ S1); done|apply V4; lia].
      - intros j j' Hjr Hjr' Ej. assert (forall x, lo <= x < i -> upage pm1 T1 x <> q) as Hnq.
        { intros x Hx Ex. unfold upage in Ex. rewrite Hlf in Ex by done. destruct (um_page _ _ _ _ _ Hu x Hx) as (_ & Hxf & _). apply Hxf. unfold upage. by rewrite Ex. }
        destruct (decide (j = i)) as [->|], (decide (j' = i)) as [->|]; try done; [..|apply V5; lia].
        + rewrite Eq in Ej. symmetry in Ej. destruct (Hnq j'); [lia|done].
        + rewrite Eq in Ej. destruct (Hnq j); [lia|done]. }
    destruct (IH (i + 1) w1 F1 T1 H1 Hl) as (r & pm2 & F2 & T2 & E2 & H2 & Hres); [lia|lia|by eapply intact_grown|done| |].
    { intros j Hjr. change (k_pm (w_k w1)) with pm1. rewrite L1; [apply Hno; lia|unfold PGSIZE in *; lia|rewrite page_index; lia]. }
    change (k_pm (w_k w1)) with pm1 in *. exists r, pm2, F2, T2. split; [rewrite E; exact E2|]. split; [done|].
    destruct Hres as [(-> & [D1 D2 D3 D4 D5 D6])|(-> & [D1 D2 D2' D3 D4 D5 D6 D7])]; [left|right]; (split; [done|]).
    + assert (leaf pm2 T2 a = leaf pm1 T1 a) as Lq2 by (apply D5; [unfold a, PGSIZE in *; lia|left; unfold a; rewrite page_index; lia]).
      split; try done.
      * by eapply grown_trans.
      * intros b Hb HF. destruct (grown_outside _ _ _ _ _ _ b G1 Hb HF) as [O1 O2]. rewrite D2 by done. by apply K1.
      * intros j Hjr. destruct (decide (j = i)) as [->|].
        -- exists q. fold a. split; [done|]. split; [by rewrite Lq2|]. split; [unfold upage; fold a; by rewrite Lq2, Lq|].
           intros k Hk. rewrite D2; [by apply Hc| |].
           ++ intros (n & p & Hn & Hp). apply (page_disjoint (pm_end pm1) p q (q + k)) in Hp; [unfold PGSIZE in *; lia|by apply (vi_page _ _ _ _ H1 n)|by rewrite (sf_end _ _ S1)|by apply (HqT n)].
           ++ intros x Hx Hxk. apply (page_disjoint (pm_end pm1) x q (q + k)) in Hxk; [unfold PGSIZE in *; lia|by apply (ai_valid _ _ (vi_alloc _ _ _ _ H1))|by rewrite (sf_end _ _ S1)|by intros ->].
        -- destruct (D4 j) as (q' & Hq' & R); [lia|]. exists q'. split; [by apply (gw_free _ _ _ _ _ _ G1)|done].
      * intros va Hva Hout. rewrite D5 by (done || lia). apply L1; [done|lia].
      * intros x. pose proof (or_used _ _ _ _ _ _ _ _ (C1 x) (D6 x)) as Hx. unfold uses.
        assert (in_upages pm2 T2 i hi x <-> x = q \/ in_upages pm2 T2 (i + 1) hi x) as ->; [|exact Hx]. unfold in_upages. split.
        -- intros (j & Hjr & ->). destruct (decide (j = i)) as [->|]; [left; unfold upage; fold a; by rewrite Lq2, Lq|right; exists j; split; [lia|done]].
        -- intros [->|(j & Hjr & ->)]; [exists i; split; [lia|unfold upage; fold a; by rewrite Lq2, Lq]|exists j; split; [lia|done]].
    + split; try done.
      * by etransitivity.
      * intros n p Hn. by apply D2, (gw_old _ _ _ _ _ _ G1).
      * intros n p [Hn|Hn]%D2'; [by apply (gw_new _ _ _ _ _ _ G1)|right; by apply (gw_free _ _ _ _ _ _ G1)].
      * intros va Hva Hout. rewrite D4 by done. apply L1; [done|lia].
      * intros x. rewrite <- D5. unfold uses.
        assert (in_upages pm1 T1 lo (i + 1) x <-> in_upages pm T lo i x \/ x = q) as ->; [|exact (or_moved _ _ _ _ _ _ (C1 x))].
        rewrite <- (Hup Hlf x). unfold in_upages. split.
        -- intros (j & Hjr & ->). destruct (decide (j = i)) as [->|]; [by right|left; exists j; split; [lia|done]].
        -- intros [(j & Hjr & ->)| ->]; [exists j; split; [lia|done]|exists i; split; [lia|done]].
      * intros b Hb HF. rewrite D6.
        -- apply K1; [done|]. intros x Hx. apply HF. by left.
        -- eapply grown_outside; [exact G1|done|]. intros x Hx. apply HF. by left.
        -- intros x [Hx|(j & Hjr & ->)]; [apply HF; left; by apply (gw_free _ _ _ _ _ _ G1)|].
           destruct (decide (j = i)) as [->|]; [rewrite Eq; apply HF; by left|]. apply HF. right. apply (Hup Hlf). exists j. split; [lia|done].
      * lia.
Qed.
End fill_loop.

(** ** uvmalloc *)

Definition npages (sz : Z) : Z := (sz + PGSIZE - 1) / PGSIZE.
Lemma npages_bound sz : 0 <= sz <= MAXVA -> 0 <= npages sz /\ PGSIZE * npages sz <= MAXVA /\ sz <= PGSIZE * npages sz < sz + PGSIZE.
Proof. unfold npages, PGSIZE. change MAXVA with 274877906944. intros. zlia. Qed.
Lemma PGROUNDUP_npages sz : 0 <= sz <= MAXVA -> PGROUNDUP sz = PGSIZE * npages sz.
Proof. intros H. rewrite PGROUNDUP_spec by (change MAXVA with 274877906944 in H; lia). unfold npages. lia. Qed.
Lemma page_below i sz : 0 <= sz -> (PGSIZE * i <? sz) = (i <? npages sz).
Proof. unfold npages, PGSIZE. intros H. destruct (Z.ltb_spec (4096 * i) sz), (Z.ltb_spec i ((sz + 4096 - 1) / 4096)); zlia. Qed.

Lemma umapped_empty pm F T lo : 0 <= lo -> PGSIZE * lo <= MAXVA -> umapped pm F T lo lo.
Proof. intros. split; try done; intros; lia. Qed.

Lemma uvmdealloc_post pt T lo i w F : vm_inv (k_pm (w_k w)) F pt T -> L_kmem ∉ k_held (w_k w) -> lo <= i -> umapped (k_pm (w_k w)) F T lo i ->
  exists pm' F', uvmdealloc pt (PGSIZE * i) (PGSIZE * lo) w = Ret (PGSIZE * lo) (with_k w (set_k_pm pm' (w_k w))) /\ unmap_post pt T lo i (k_pm (w_k w)) F pm' F'.
Proof.
  intros H Hl Hle Hu. pose proof (um_lo _ _ _ _ _ Hu) as U1. pose proof (um_hi _ _ _ _ _ Hu) as U2. unfold uvmdealloc.
  destruct (Z.leb_spec (PGSIZE * i) (PGSIZE * lo)) as [Hz|Hz].
  { assert (i = lo) as -> by (unfold PGSIZE in *; lia). exists (k_pm (w_k w)), F. split; [by destruct w as [? []]|by apply unmap_none]. }
  assert (forall k, 0 <= k <= i -> PGROUNDUP (PGSIZE * k) = PGSIZE * k) as Hr.
  { intros k Hk. rewrite PGROUNDUP_npages by (unfold PGSIZE in *; lia). unfold npages. f_equal. unfold PGSIZE. zlia. }
  rewrite !Hr by lia. rewrite (proj2 (Z.ltb_lt _ _)) by done. cbn [kwhen].
  assert ((PGSIZE * i - PGSIZE * lo) / PGSIZE = i - lo) as -> by (unfold PGSIZE; zlia).
  change MAXVA with 274877906944 in U2. rewrite i32_small by (unfold PGSIZE in *; change (2 ^ 31) with 2147483648; lia). rewrite u64_small by (unfold PGSIZE in *; change (2 ^ 64) with 18446744073709551616; lia).
  destruct (uvmunmap_post pt T lo i w F H Hl Hu Hle) as (pm' & F' & E & Hp). exists pm', F'. split; [|done]. by rewrite (bind_ret _ _ _ _ _ E).
Qed.

Lemma fill_zero P pm : fill_spec (fun mem => kmemset mem 0 PGSIZE) (fun _ => 0) P pm.
Proof.
  intros q w _ _ _ Hb. exists (memset q 0 PGSIZE (pm_mem (k_pm (w_k w)))). split; [|split; [by apply memset_bytes|]].
  - unfold kmemset, mod_pm, kmod, set_mem. by destruct w as [? []].
  - intros b. rewrite memset_spec by (unfold PGSIZE; lia). unfold in_page. by repeat case_decide.
Qed.

(** The permissions of [uvmalloc]. *)
Lemma user_perm xperm : 0 <= xperm < 1024 -> 0 <= Z.lor (Z.lor PTE_R PTE_U) xperm < 1024 /\ Z.lor (Z.lor (Z.lor PTE_R PTE_U) xperm) PTE_V <> PTE_V.
Proof.
  intros H. split; [apply lor_1024; [by vm_compute|done]|]. intros E. apply (f_equal (fun z => Z.testbit z 1)) in E.
  rewrite !Z.lor_spec in E. change (Z.testbit PTE_R 1) with true in E. done.
Qed.

(** The addresses below the end of the last page of [lo, hi). *)
Lemma filled_phys lo hi perm content i pm F T pm' F' T' va : filled lo hi perm content i pm F T pm' F' T' -> PGSIZE * i <= va < PGSIZE * hi -> 0 <= i ->
  pm_mem pm' (phys pm' T' va) = content (va / PGSIZE) (va mod PGSIZE) /\ exists q, q ∈ F /\ leaf pm' T' va = pte_of q (perm (va / PGSIZE)).
Proof.
  intros Hf Hva Hi. assert (i <= va / PGSIZE < hi) as Hj by (unfold PGSIZE in *; zlia).
  destruct (fl_page _ _ _ _ _ _ _ _ _ _ _ Hf (va / PGSIZE) Hj) as (q & Hq & Hl & Hu & Hm).
  assert (leaf pm' T' va = leaf pm' T' (PGSIZE * (va / PGSIZE))) as E by (apply leaf_page; rewrite page_index by lia; done). split.
  - unfold phys. rewrite E. change (PTE2PA (leaf pm' T' (PGSIZE * (va / PGSIZE)))) with (upage pm' T' (va / PGSIZE)). rewrite Hu. apply Hm. by apply Z.mod_pos_bound.
  - exists q. by rewrite E.
Qed.

(** [uvmalloc] grows an address space: it returns [newsz], with all new
    pages mapped with the given permissions to pages from the free list,
    filled with zeros; or 0, with no page of the range mapped and all user
    pages back on the free list.  Other mappings, other memory and the
    globals are kept, new tables were free pages, no page is lost, and with three free pages for each new page it
    succeeds. *)
Theorem uvmalloc_correct pt oldsz newsz xperm w F T : let pm := k_pm (w_k w) in let lo := npages oldsz in let hi := npages newsz in
  let perm := Z.lor (Z.lor PTE_R PTE_U) xperm in
  vm_inv pm F pt T -> L_kmem ∉ k_held (w_k w) -> 0 <= oldsz <= newsz -> newsz <= MAXVA -> 0 <= xperm < 1024 ->
  (forall va, PGSIZE * lo <= va < PGSIZE * hi -> has (leaf pm T va) PTE_V = false) ->
  exists r pm' F' T', uvmalloc pt oldsz newsz xperm w = Ret r (with_k w (set_k_pm pm' (w_k w))) /\ vm_inv pm' F' pt T' /\
    (forall va, 0 <= va < MAXVA -> ~ PGSIZE * lo <= va < PGSIZE * hi -> leaf pm' T' va = leaf pm T va) /\
    mem_kept F T pm pm' /\ same_fields pm pm' /\ (forall n p, T' n = Some p -> T n = Some p \/ p ∈ F) /\
    (r = newsz /\ umapped pm' F' T' lo hi /\ (forall x, uses F T (fun _ => False) x <-> uses F' T' (in_upages pm' T' lo hi) x) /\
       (forall va, PGSIZE * lo <= va < PGSIZE * hi -> pm_mem pm' (phys pm' T' va) = 0 /\ exists q, q ∈ F /\ leaf pm' T' va = pte_of q perm) \/
     r = 0 /\ (Z.of_nat (length F) < 3 * (hi - lo)) /\ (forall x, uses F T (fun _ => False) x <-> uses F' T' (fun _ => False) x) /\
       (forall va, PGSIZE * lo <= va < PGSIZE * hi -> has (leaf pm' T' va) PTE_V = false)).
Proof.
  intros pm lo hi perm H Hl Hsz Hmax Hx Hno.
  destruct (npages_bound oldsz ltac:(lia)) as (L1 & L2 & L3). destruct (npages_bound newsz ltac:(lia)) as (N1 & N2 & N3). fold lo in L1, L2, L3. fold hi in N1, N2, N3.
  assert (lo <= hi) as Hle by (unfold lo, hi, npages, PGSIZE; zlia).
  set (loop := fun f i => uvmalloc_loop f pt (PGSIZE * i) (PGSIZE * lo) newsz xperm).
  set (fail := fun i => uvmdealloc pt (PGSIZE * i) (PGSIZE * lo);; mret (M := K) 0).
  destruct (fill_loop_ok pt lo hi (fun _ => False) pm (fun _ mem => kmemset mem 0 PGSIZE) (fun _ => perm) (fun _ _ => 0) loop fail newsz 0)
    with (f := Z.to_nat (hi - lo)) (i := lo) (w := w) (F := F) (T := T) as (r & pm' & F' & T' & E & H' & Hr); try done; try lia.
  - intros i Hi. by apply user_perm.
  - intros i pm1 F1 T1 Hi _. apply fill_zero.
  - intros f i w1 F1 T1 Hi H1 Hl1 _. unfold loop. cbn [uvmalloc_loop]. rewrite page_below by lia. fold hi. rewrite (proj2 (Z.ltb_lt _ _)) by lia.
    change MAXVA with 274877906944 in N2. rewrite u64_small by (unfold PGSIZE in *; change (2 ^ 64) with 18446744073709551616; lia). by replace (PGSIZE * i + PGSIZE) with (PGSIZE * (i + 1)) by lia.
  - intros f w1. unfold loop. destruct f; cbn [uvmalloc_loop]; rewrite page_below by lia; fold hi; by rewrite Z.ltb_irrefl.
  - intros i w1 F1 T1 Hi H1 Hl1 Hu1. destruct (uvmdealloc_post pt T1 lo i w1 F1) as (pm2 & F2 & E2 & P2); try done; [lia|]. exists pm2, F2. split; [|done]. unfold fail. by rewrite (bind_ret _ _ _ _ _ E2).
  - by apply umapped_empty.
  - intros j Hj. apply Hno. unfold PGSIZE in *; lia.
  - assert (uvmalloc pt oldsz newsz xperm w = Ret r (with_k w (set_k_pm pm' (w_k w)))) as E'.
    { unfold uvmalloc. rewrite (proj2 (Z.ltb_ge _ _)) by lia. rewrite PGROUNDUP_npages by lia. fold lo. cbv zeta.
      assert ((newsz - PGSIZE * lo + PGSIZE - 1) / PGSIZE = hi - lo) as -> by (unfold hi, npages, PGSIZE; zlia). exact E. }
    assert (forall va, 0 <= va -> ~ PGSIZE * lo <= va < PGSIZE * hi -> va / PGSIZE < lo \/ hi <= va / PGSIZE) as Hout by (intros va Hva Hn; unfold PGSIZE in *; zlia).
    exists r, pm', F', T'. split; [done|]. split; [done|]. destruct Hr as [[-> Hf]|[-> Hg]].
    + pose proof Hf as [D1 D2 D3 D4 D5 D6]. split_and!; [intros va Hva Hn; apply D5; [done|apply Hout; lia]|done|apply D1|apply D1|left]. split_and!; try done.
      intros va Hva. by apply (filled_phys _ _ _ _ _ _ _ _ _ _ _ va Hf).
    + pose proof Hg as [D1 D2 D2' D3 D4 D5 D6 D7].
      assert (forall x, uses F T (in_upages pm T lo lo) x <-> uses F T (fun _ => False) x) as Hn0.
      { intros x. unfold uses, in_upages. split; [intros [?|[?|(j & ? & _)]]; [by left|by right; left|lia]|intros [?|[?|[]]]; [by left|by right; left]]. }
      split_and!; [intros va Hva Hn; apply D4; [done|apply Hout; lia]| |done|done|right].
      * intros b Hb HF. apply D6; [done|]. intros a [Ha|(j & ? & _)]; [by apply HF|lia].
      * split_and!; [done|done|intros x; by rewrite <- Hn0|].
        intros va Hva. rewrite (leaf_page pm' T' va (PGSIZE * (va / PGSIZE))) by (rewrite page_index; [done|unfold PGSIZE in *; zlia]). apply D3. unfold PGSIZE in *. zlia.
Qed.

(** ** uvmcopy *)

Section uvmcopy.
Context (old new sz : Z) (T0 : tree) (pm0 : physmem) (F0 : list Z).
Let n := npages sz.
Hypothesis (H0 : vm_inv pm0 F0 old T0) (Hu0 : umapped pm0 F0 T0 0 n) (Hsz : 0 <= sz <= MAXVA).

(** The tables and the pages of the parent. *)
Definition parent (b : Z) : Prop := in_tree T0 b \/ exists a, in_upages pm0 T0 0 n a /\ in_page a b.

Lemma parent_vm pm F T : vm_inv pm F new T -> intact parent pm0 pm F T -> vm_inv pm F old T0 /\ forall va, leaf pm T0 va = leaf pm0 T0 va.
Proof.
  intros H (I1 & I2 & I3 & I4). apply (vm_inv_ext pm0 pm F0 F old T0 H0); [apply H|done| |].
  - intros m p Hm HF. apply (I4 p p HF); [left; exists m, p; split; [done|unfold PGSIZE; lia]|unfold in_page, PGSIZE; lia].
  - intros b Hb. apply I2. by left.
Qed.

Lemma fill_copy i pm F T : 0 <= i < n -> intact parent pm0 pm F T ->
  fill_spec (fun mem => kmemmove mem (upage pm0 T0 i) PGSIZE) (fun k => pm_mem pm0 (upage pm0 T0 i + k)) parent pm.
Proof.
  intros Hi (_ & I2 & _) q w Hq HP Hm Hb. exists (memmove q (upage pm0 T0 i) PGSIZE (pm_mem (k_pm (w_k w)))). split_and!.
  - unfold kmemmove, mod_pm, kmod, set_mem. by destruct w as [? []].
  - intros b. rewrite memmove_spec by (done || unfold PGSIZE; lia). case_decide; apply Hb.
  - intros b. rewrite memmove_spec by (done || unfold PGSIZE; lia). unfold in_page. repeat case_decide; try lia.
    assert (parent (upage pm0 T0 i + (b - q))) as Hp by (right; exists (upage pm0 T0 i); split; [by exists i|unfold in_page; lia]). by rewrite Hm, I2.
Qed.

Lemma copy_perm i : 0 <= i < n -> let v := leaf pm0 T0 (PGSIZE * i) in 0 <= PTE_FLAGS v < 1024 /\ Z.lor (PTE_FLAGS v) PTE_V <> PTE_V.
Proof.
  intros Hi v. destruct (um_leaf _ _ _ _ _ Hu0 i Hi) as [Hv Hf]. fold v in Hv, Hf. split.
  - unfold PTE_FLAGS. change 0x3FF with (Z.ones 10). rewrite Z.land_ones by lia. by apply Z.mod_pos_bound.
  - intros E. apply Hf. rewrite <- E. apply Z.bits_inj'. intros k Hk. rewrite Z.lor_spec. destruct (Z.eq_dec k 0) as [->|Hne].
    + unfold PTE_FLAGS, has in *. rewrite Z.land_spec. change (Z.testbit 1023 0) with true. change (Z.testbit PTE_V 0) with true. rewrite orb_true_r, andb_true_r.
      change PTE_V with (Z.ones 1) in Hv. rewrite Z.land_ones in Hv by lia. apply negb_true_iff, Z.eqb_neq in Hv. rewrite Z.bit0_odd, Zodd_mod. change (2 ^ 1) with 2 in Hv. destruct (Z.eqb_spec (v mod 2) 1); [done|zlia].
    + assert (Z.testbit PTE_V k = false) as ->; [|by rewrite orb_false_r]. apply (Z.bits_above_log2 1 k); cbn; lia.
Qed.

Lemma uvmcopy_run w T : k_pm (w_k w) = pm0 -> vm_inv pm0 F0 new T -> L_kmem ∉ k_held (w_k w) ->
  (forall m m' p, T0 m = Some p -> T m' <> Some p) -> (forall i m p, 0 <= i < n -> T m = Some p -> p <> upage pm0 T0 i) ->
  (forall i, 0 <= i < n -> has (leaf pm0 T (PGSIZE * i)) PTE_V = false) ->
  let perm i := PTE_FLAGS (leaf pm0 T0 (PGSIZE * i)) in let content i k := pm_mem pm0 (upage pm0 T0 i + k) in
  exists r pm' F' T', uvmcopy old new sz w = Ret r (with_k w (set_k_pm pm' (w_k w))) /\ vm_inv pm' F' new T' /\
    (r = 0 /\ filled 0 n perm content 0 pm0 F0 T pm' F' T' \/ r = -1 /\ given_up 0 n 0 pm0 F0 T pm' F' T').
Proof.
  intros Epm H Hl Hd1 Hd2 Hno perm content. destruct (npages_bound sz Hsz) as (N1 & N2 & N3). fold n in N1, N2, N3. rewrite <- Epm in H, Hno.
  set (loop := fun f i => uvmcopy_loop f old new (PGSIZE * i) sz).
  set (fail := fun i => uvmunmap new 0 i true;; mret (M := K) (-1)).
  assert (intact parent pm0 pm0 F0 T) as Hint.
  { split_and!; [done|done| |].
    - intros b [(m & p & Hm & Hb)|(a & (i & Hi & ->) & Hb)] (m' & p' & Hm' & Hb'); rewrite Epm in H.
      + apply (page_disjoint (pm_end pm0) p p' b); [by apply (vi_page _ _ _ _ H0 m)|by apply (vi_page _ _ _ _ H m')|intros ->; by apply (Hd1 m m' p')|done|done].
      + apply (page_disjoint (pm_end pm0) p' (upage pm0 T0 i) b); [by apply (vi_page _ _ _ _ H m')|by apply (um_page _ _ _ _ _ Hu0 i)|by apply (Hd2 i m')|done|done].
    - intros a b Ha [(m & p & Hm & Hb)|(x & (i & Hi & ->) & Hb)] Hab; pose proof (ai_valid _ _ (vi_alloc _ _ _ _ H0) a Ha) as Hva.
      + apply (page_disjoint (pm_end pm0) a p b); [done|by apply (vi_page _ _ _ _ H0 m)|intros ->; by destruct (vi_page _ _ _ _ H0 m _ Hm)|done|done].
      + destruct (um_page _ _ _ _ _ Hu0 i Hi) as (Hv & Hf & _). apply (page_disjoint (pm_end pm0) a (upage pm0 T0 i) b); try done. by intros ->. }
  destruct (fill_loop_ok new 0 n parent pm0 (fun i mem => kmemmove mem (upage pm0 T0 i) PGSIZE) perm content loop fail 0 (-1))
    with (f := Z.to_nat n) (i := 0) (w := w) (F := F0) (T := T) as (r & pm' & F' & T' & E & H' & Hr); try done; try lia.
  - intros i Hi. by apply copy_perm.
  - intros i pm1 F1 T1 Hi. by apply fill_copy.
  - intros f i w1 F1 T1 Hi H1 Hl1 Hi1. destruct (parent_vm _ _ _ H1 Hi1) as [Hp Hlf]. unfold loop. cbn [uvmcopy_loop]. rewrite page_below by lia. fold n. rewrite (proj2 (Z.ltb_lt _ _)) by lia.
    assert (0 <= PGSIZE * i < MAXVA) as Hva by (unfold PGSIZE in *; lia).
    rewrite (bind_ret _ _ _ _ _ (walk_lookup old _ Hva w1 F1 T0 Hp)). specialize (Hlf (PGSIZE * i)). destruct (um_leaf _ _ _ _ _ Hu0 i Hi) as [Hv _].
    unfold leaf at 1 in Hlf. destruct (leaf_addr T0 (PGSIZE * i)) as [ptea|] eqn:El; [|unfold leaf in Hv; rewrite El in Hv; by vm_compute in Hv].
    unfold ld64. rewrite bind_kget, Hlf, Hv. cbn [negb]. change MAXVA with 274877906944 in N2. rewrite u64_small by (unfold PGSIZE in *; change (2 ^ 64) with 18446744073709551616; lia).
    rewrite page_index by lia. unfold fail, alloc_map. by replace (PGSIZE * i + PGSIZE) with (PGSIZE * (i + 1)) by lia.
  - intros f w1. unfold loop. destruct f; cbn [uvmcopy_loop]; rewrite page_below by lia; fold n; by rewrite Z.ltb_irrefl.
  - intros i w1 F1 T1 Hi H1 Hl1 Hu1. destruct (uvmunmap_post new T1 0 i w1 F1) as (pm2 & F2 & E2 & P2); try done; [lia|]. exists pm2, F2. split; [|done].
    unfold fail. rewrite Z.sub_0_r in E2. change (PGSIZE * 0) with 0 in E2. by rewrite (bind_ret _ _ _ _ _ E2).
  - by rewrite Epm.
  - apply umapped_empty; [lia|by vm_compute].
  - rewrite Epm in Hr. exists r, pm', F', T'. split; [|done]. unfold uvmcopy. fold (npages sz). fold n. exact E.
Qed.
End uvmcopy.

(** [uvmcopy] copies an address space, as fork does.  It returns 0, and
    then the child has the same bytes as the parent at every address below
    the size, with the same permissions, in pages of its own; or -1, and
    then the child has no page there, and no page is lost.  The parent
    keeps its table and its memory, and with three free pages for each page
    the copy succeeds. *)
Theorem uvmcopy_correct old new sz w F T0 T : let pm := k_pm (w_k w) in let n := npages sz in
  vm_inv pm F old T0 -> vm_inv pm F new T -> umapped pm F T0 0 n -> L_kmem ∉ k_held (w_k w) -> 0 <= sz <= MAXVA ->
  (forall m m' p, T0 m = Some p -> T m' <> Some p) -> (forall i m p, 0 <= i < n -> T m = Some p -> p <> upage pm T0 i) ->
  (forall i, 0 <= i < n -> has (leaf pm T (PGSIZE * i)) PTE_V = false) ->
  exists r pm' F' T', uvmcopy old new sz w = Ret r (with_k w (set_k_pm pm' (w_k w))) /\ vm_inv pm' F' new T' /\
    (forall va, leaf pm' T0 va = leaf pm T0 va) /\ (forall va, 0 <= va < PGSIZE * n -> pm_mem pm' (phys pm T0 va) = pm_mem pm (phys pm T0 va)) /\
    (r = 0 /\ umapped pm' F' T' 0 n /\ (forall x, uses F T (fun _ => False) x <-> uses F' T' (in_upages pm' T' 0 n) x) /\
       (forall va, 0 <= va < PGSIZE * n -> pm_mem pm' (phys pm' T' va) = pm_mem pm (phys pm T0 va) /\
          exists q, q ∈ F /\ leaf pm' T' va = pte_of q (PTE_FLAGS (leaf pm T0 va))) \/
     r = -1 /\ (Z.of_nat (length F) < 3 * n) /\ (forall x, uses F T (fun _ => False) x <-> uses F' T' (fun _ => False) x) /\
       (forall va, 0 <= va < PGSIZE * n -> has (leaf pm' T' va) PTE_V = false)).
Proof.
  intros pm n H0 H Hu0 Hl Hsz Hd1 Hd2 Hno. destruct (uvmcopy_run old new sz T0 pm F H0 Hu0 Hsz w T) as (r & pm' & F' & T' & E & H' & Hr); try done.
  exists r, pm', F', T'. split; [done|]. split; [done|].
  assert (forall va, 0 <= va < PGSIZE * n -> 0 <= va / PGSIZE < n /\ leaf pm T0 va = leaf pm T0 (PGSIZE * (va / PGSIZE)) /\ leaf pm' T' va = leaf pm' T' (PGSIZE * (va / PGSIZE))) as Hpg.
  { intros va Hva. assert (0 <= va / PGSIZE < n) as Hj by (unfold PGSIZE in *; zlia). split; [done|]. split; apply leaf_page; by rewrite page_index by lia. }
  assert (forall va, 0 <= va < PGSIZE * n -> phys pm T0 va = upage pm T0 (va / PGSIZE) + va mod PGSIZE) as Hph.
  { intros va Hva. destruct (Hpg va Hva) as (_ & E1 & _). unfold phys, upage. by rewrite E1. }
  assert (forall b, parent sz T0 pm b -> pm_mem pm' b = pm_mem pm b) as Hkeep.
  { assert (forall b, parent sz T0 pm b -> ~ in_tree T b /\ forall a, a ∈ F -> ~ in_page a b) as Hp.
    { intros b [(m & p & Hm & Hb)|(a & (i & Hi & ->) & Hb)]; (split; [intros (m' & p' & Hm' & Hb')|intros a' Ha Hab; pose proof (ai_valid _ _ (vi_alloc _ _ _ _ H0) a' Ha) as Hva]).
      - apply (page_disjoint (pm_end pm) p p' b); [by apply (vi_page _ _ _ _ H0 m)|by apply (vi_page _ _ _ _ H m')|intros ->; by apply (Hd1 m m' p')|done|done].
      - apply (page_disjoint (pm_end pm) a' p b); [done|by apply (vi_page _ _ _ _ H0 m)|intros ->; by destruct (vi_page _ _ _ _ H0 m _ Hm)|done|done].
      - apply (page_disjoint (pm_end pm) p' (upage pm T0 i) b); [by apply (vi_page _ _ _ _ H m')|by apply (um_page _ _ _ _ _ Hu0 i)|by apply (Hd2 i m')|done|done].
      - destruct (um_page _ _ _ _ _ Hu0 i Hi) as (Hv & Hf & _). apply (page_disjoint (pm_end pm) a' (upage pm T0 i) b); try done. by intros ->. }
    intros b Hb. destruct (Hp b Hb) as [P1 P2]. destruct Hr as [[_ Hf]|[_ Hg]]; [by apply (fl_mem _ _ _ _ _ _ _ _ _ _ _ Hf)|].
    apply (gu_mem _ _ _ _ _ _ _ _ _ Hg); [done|]. intros a [Ha|(i & Hi & _)]; [by apply P2|lia]. }
  split_and!.
  - intros va. unfold leaf. destruct (leaf_addr T0 va) as [x|] eqn:Ex; [|done]. apply load64_ext. intros b Hb. apply Hkeep. left.
    unfold leaf_addr in Ex. destruct (T0 [PX 2 va; PX 1 va]) as [p|] eqn:Ep; [|done]. cbn in Ex. simplify_eq. exists [PX 2 va; PX 1 va], p. split; [done|].
    pose proof (PX_range 0 va ltac:(lia)). unfold PGSIZE. lia.
  - intros va Hva. apply Hkeep. right. exists (upage pm T0 (va / PGSIZE)). split; [exists (va / PGSIZE); split; [by apply Hpg|done]|]. rewrite Hph by done.
    pose proof (Z.mod_pos_bound va PGSIZE eq_refl). unfold in_page. lia.
  - destruct Hr as [[-> Hf]|[-> Hg]]; [left|right].
    + pose proof Hf as [D1 D2 D3 D4 D5 D6]. split_and!; try done. intros va Hva. destruct (Hpg va Hva) as (_ & E1 & _).
      destruct (filled_phys _ _ _ _ _ _ _ _ _ _ _ va Hf) as [M1 (q & Hq & Lq)]; [change (PGSIZE * 0) with 0; done|lia|]. rewrite Hph by done. split; [exact M1|]. exists q. by rewrite E1.
    + pose proof Hg as [D1 D2 D2' D3 D4 D5 D6 D7]. split_and!; [done|lia| |].
      * intros x. rewrite <- D5. unfold uses, in_upages. split; [intros [?|[?|[]]]; [by left|by right; left]|intros [?|[?|(j & ? & _)]]; [by left|by right; left|lia]].
      * intros va Hva. destruct (Hpg va Hva) as (Hj & _ & ->). by apply D3.
Qed.

(** C19: [uvmfree] of an address space whose only mappings are its first
    pages gives all its pages and all tables back to the free list, and
    changes no other memory; it does not panic. *)
Theorem uvmfree_correct pt sz w F T : let pm := k_pm (w_k w) in let n := npages sz in
  vm_inv pm F pt T -> L_kmem ∉ k_held (w_k w) -> 0 <= sz < MAXVA -> umapped pm F T 0 n ->
  (forall va, 0 <= va < MAXVA -> n <= va / PGSIZE -> has (leaf pm T va) PTE_V = false) ->
  exists pm' F', uvmfree pt sz w = Ret tt (with_k w (set_k_pm pm' (w_k w))) /\ alloc_inv pm' F' /\ same_fields pm pm' /\
    (forall a, a ∈ F' <-> uses F T (in_upages pm T 0 n) a) /\
    (forall b, (forall a, (exists m, T m = Some a) \/ in_upages pm T 0 n a -> ~ in_page a b) -> pm_mem pm' b = pm_mem pm b).
Proof.
  intros pm n H Hl Hsz Hu Hno. destruct (uvmfree_ok pt sz w F T H Hl Hsz Hu Hno) as (pm' & F' & E & [A S G M]). by exists pm', F'.
Qed.

(** ** Witnesses *)

(** The process image of VmProps with a third free page, and an empty page
    table for a child. *)
Definition uvm_mem : mem := store64 ex_mem 0x87ffe000 0x87ff9000.
Definition uvm_pm : physmem := set_pm_mem uvm_mem ex_pm.
Definition uvm_free : list Z := [0x87fff000; 0x87ffe000; 0x87ff9000].
Definition uvm_world : world := World [] (set_k_pm uvm_pm (kst_boot 0)).
Definition child_tree : tree := fun n => if decide (n = []) then Some 0x87ff8000 else None.

Lemma uvm_mem_other b : ~ in_page 0x87ffe000 b -> uvm_mem b = ex_mem b.
Proof. intros Hb. apply (store_le_other 8). unfold in_page, PGSIZE in Hb. lia. Qed.
Lemma uvm_alloc : alloc_inv uvm_pm uvm_free.
Proof.
  assert (load64 uvm_mem 0x87fff000 = 0x87ffe000) as E1 by (unfold uvm_mem; rewrite load64_store64_ne by lia; by rewrite ex_load).
  assert (load64 uvm_mem 0x87ffe000 = 0x87ff9000) as E2 by (apply load64_store64; vm_compute; split; congruence).
  assert (load64 uvm_mem 0x87ff9000 = 0) as E3 by (unfold uvm_mem; rewrite load64_store64_ne by lia; by rewrite ex_load).
  split; [apply (store_le_bytes 8), ex_bytes|reflexivity|..].
  - unfold uvm_free. cbn [flist pm_mem pm_freelist uvm_pm set_pm_mem]. change (pm_freelist ex_pm) with 0x87fff000. by rewrite E1, E2, E3.
  - by apply (bool_decide_unpack _); vm_compute.
  - intros a Ha. unfold valid_page, PHYSTOP, KERNBASE, PGSIZE. change (pm_end uvm_pm) with 0x87ff0000.
    unfold uvm_free in Ha. rewrite !elem_of_cons in Ha. destruct Ha as [->|[->|[->|Ha%not_elem_of_nil]]]; [(split; [reflexivity|lia])..|done].
Qed.
Lemma uvm_free_elem a : a ∈ uvm_free -> a = 0x87fff000 \/ a = 0x87ffe000 \/ a = 0x87ff9000.
Proof. unfold uvm_free. rewrite !elem_of_cons. intros [?|[?|[?|?%not_elem_of_nil]]]; tauto. Qed.
Lemma uvm_parent : vm_inv uvm_pm uvm_free 0x87ffd000 ex_tree /\ forall va, leaf uvm_pm ex_tree va = leaf ex_pm ex_tree va.
Proof.
  apply (vm_inv_ext ex_pm uvm_pm [0x87fff000; 0x87ffe000]); [exact ex_inv|exact uvm_alloc|reflexivity|..].
  - intros n p Hn Hp%uvm_free_elem. apply ex_pages in Hn. lia.
  - intros b (n & p & Hn & Hb). apply uvm_mem_other. apply ex_pages in Hn. unfold in_page, PGSIZE in *. lia.
Qed.
Lemma uvm_child : vm_inv uvm_pm uvm_free 0x87ff8000 child_tree.
Proof.
  split; [exact uvm_alloc|reflexivity|..]; unfold child_tree.
  - intros n p Hn. case_decide; simplify_eq. split; [split; [reflexivity|vm_compute; split; congruence]|]. intros Hp%uvm_free_elem. lia.
  - intros n n' p. repeat case_decide; congruence.
  - intros n i q Hq. case_decide as E; [by apply app_eq_nil in E as [_ ?]|done].
  - intros i [q Hq]. case_decide; congruence.
  - intros n p i Hn _ Hi. case_decide; simplify_eq. cbn [app]. rewrite decide_False by done.
    cbn [pm_mem uvm_pm set_pm_mem]. unfold uvm_mem. rewrite load64_store64_ne by lia. rewrite ex_load by zlia.
    repeat match goal with |- context [?x =? ?y] => destruct (Z.eqb_spec x y); [lia|] end; done.
Qed.
Lemma uvm_umapped : umapped uvm_pm uvm_free ex_tree 0 1.
Proof.
  destruct uvm_parent as [_ Hlf].
  assert (forall i, 0 <= i < 1 -> leaf uvm_pm ex_tree (PGSIZE * i) = pte_of 0x87ffa000 (Z.lor PTE_R (Z.lor PTE_W PTE_U))) as Hl.
  { intros i Hi. assert (i = 0) as -> by lia. rewrite Hlf, ex_leaf by (unfold PGSIZE; lia). done. }
  split; [done|by vm_compute|..].
  - intros i Hi. rewrite Hl by done. by vm_compute.
  - intros i Hi. unfold upage. rewrite Hl by done. change (PTE2PA _) with 0x87ffa000. split_and!; [split; [reflexivity|vm_compute; split; congruence]|intros Hp%uvm_free_elem; lia|].
    intros n p Hn. apply ex_pages in Hn. lia.
  - intros i j Hi Hj _. lia.
Qed.

Lemma uvmalloc_correct_witness : exists w', uvmalloc 0x87ffd000 4096 5000 PTE_W uvm_world = Ret 5000 w'.
Proof.
  destruct uvm_parent as [Hp Hlf].
  destruct (uvmalloc_correct 0x87ffd000 4096 5000 PTE_W uvm_world uvm_free ex_tree Hp) as (r & pm' & F' & T' & E & _ & _ & _ & _ & _ & [[-> _]|(_ & Hlen & _)]).
  - apply not_elem_of_nil.
  - lia.
  - by vm_compute.
  - by vm_compute.
  - intros va Hva. change (k_pm (w_k uvm_world)) with uvm_pm. change (PGSIZE * npages 4096 <= va < PGSIZE * npages 5000) with (4096 <= va < 8192) in Hva.
    rewrite Hlf, ex_leaf by (unfold PGSIZE; lia). by rewrite (proj2 (Z.ltb_ge _ _)) by (unfold PGSIZE; lia).
  - by eexists.
  - change (npages 5000) with 2 in Hlen. change (npages 4096) with 1 in Hlen. cbn in Hlen. lia.
Defined.

Lemma uvmcopy_correct_witness : exists w', uvmcopy 0x87ffd000 0x87ff8000 4096 uvm_world = Ret 0 w'.
Proof.
  destruct uvm_parent as [Hp Hlf].
  destruct (uvmcopy_correct 0x87ffd000 0x87ff8000 4096 uvm_world uvm_free ex_tree child_tree Hp uvm_child uvm_umapped) as (r & pm' & F' & T' & E & _ & _ & _ & [[-> _]|(_ & Hlen & _)]).
  - apply not_elem_of_nil.
  - by vm_compute.
  - intros m m' p Hm. unfold child_tree. case_decide; [|done]. apply ex_pages in Hm. intros [=]. lia.
  - intros i m p Hi Hm. unfold child_tree in Hm. case_decide; simplify_eq. change (k_pm (w_k uvm_world)) with uvm_pm. assert (i = 0) as -> by (change (npages 4096) with 1 in Hi; lia).
    unfold upage. rewrite Hlf, ex_leaf by (unfold PGSIZE; lia). change (PTE2PA _) with 0x87ffa000. lia.
  - intros i Hi. change (npages 4096) with 1 in Hi. assert (i = 0) as -> by lia. reflexivity.
  - by eexists.
  - change (npages 4096) with 1 in Hlen. cbn in Hlen. lia.
Defined.

Lemma uvmfree_correct_witness : exists w' F', uvmfree 0x87ffd000 4096 uvm_world = Ret tt w' /\ alloc_inv (k_pm (w_k w')) F' /\ 0x87ffa000 ∈ F'.
Proof.
  destruct uvm_parent as [Hp Hlf].
  destruct (uvmfree_correct 0x87ffd000 4096 uvm_world uvm_free ex_tree Hp) as (pm' & F' & E & A & _ & G & _).
  - apply not_elem_of_nil.
  - by vm_compute.
  - exact uvm_umapped.
  - intros va Hva Hge. change (npages 4096) with 1 in Hge. change (k_pm (w_k uvm_world)) with uvm_pm. rewrite Hlf. unfold leaf, leaf_addr.
    destruct (ex_tree [PX 2 va; PX 1 va]) as [p|] eqn:Ep; [|done]. apply ex_pages in Ep as [[? _]|[[? _]|[E ->]]]; [done|done|]. cbn [fmap option_fmap option_map pm_mem ex_pm].
    pose proof (PX_range 0 va ltac:(lia)). rewrite ex_load by zlia. rewrite !PX_spec in * by lia. change (2 ^ (12 + 9 * 0)) with 4096 in *.
    injection E as E2 E1. change (2 ^ (12 + 9 * 1)) with 2097152 in E1. change (2 ^ (12 + 9 * 2)) with 1073741824 in E2. change MAXVA with 274877906944 in Hva. unfold PGSIZE in Hge.
    repeat match goal with |- context [?x =? ?y] => destruct (Z.eqb_spec x y); [zlia|] end; done.
  - exists (with_k uvm_world (set_k_pm pm' (w_k uvm_world))), F'. split; [exact E|]. split; [exact A|]. apply G. right; right. exists 0. split; [change (npages 4096) with 1; lia|].
    change (k_pm (w_k uvm_world)) with uvm_pm. unfold upage. rewrite Hlf, ex_leaf by (unfold PGSIZE; lia). reflexivity.
Defined.
