(* ===== verification/Console.v ===== *)
(** * Console: UART driver, printf and console

    Models kernel/uart.c, kernel/printf.c, kernel/console.c and procdump of
    kernel/proc.c.  Bytes written to the transmit register are appended to
    [k_thr].  The UART is read through [dv_rx], the bytes that have arrived,
    and [dv_tx_idle], how many more bytes it accepts before it reports
    that it is busy; interrupts change both from outside. *)

From S2P Require Import Prelude.
From S2P Require Import State.
From S2P Require Import Kernel.
From S2P Require Import Sched.
From S2P Require Import Vm.

Definition mod_uart (f : uart -> uart) : K unit := kmod (fun s => set_k_uart (f (k_uart s)) s).
Definition mod_dev (f : devs -> devs) : K unit := kmod (fun s => set_k_dev (f (k_dev s)) s).
Definition mod_cons (f : cons -> cons) : K unit := kmod (fun s => set_k_cons (f (k_cons s)) s).

(** ** uart.c *)

(** [WriteReg(THR, c)] *)
Definition write_thr (c : Z) : K unit :=
  kmod (fun s => set_k_thr (k_thr s ++ [u8 c]) s);;
  mod_dev (fun d => set_dv_tx_idle (Z.max 0 (dv_tx_idle d - 1)) d).

(** The transmit register is empty again after a while, so the waiting
    loop of [uartputc_sync] ends. *)
Definition uartputc_sync (c : Z) : K unit :=
  d ← kget k_dev;
  if negb (dv_panicked d =? 0) then hang else
  write_thr c.

(** Every iteration takes a byte from the transmit buffer, so the number of
    bytes in it bounds the loop. *)
Fixpoint uartstart_loop (fuel : nat) : K unit :=
  u ← kget k_uart;
  if uart_tx_w u =? uart_tx_r u then mret tt else
  d ← kget k_dev;
  if dv_tx_idle d <=? 0 then mret tt else
  match fuel with
  | O => hang
  | S f =>
    let c := aget 0 (uart_tx_buf u) (uart_tx_r u mod UART_TX_BUF_SIZE) in
    mod_uart (fun u => set_uart_tx_r (u64 (uart_tx_r u + 1)) u);;
    wakeup Ch_uart_tx_r;;
    write_thr c;;
    uartstart_loop f
  end.
Definition uartstart : K unit :=
  u ← kget k_uart;
  uartstart_loop (Z.to_nat (u64 (uart_tx_w u - uart_tx_r u))).

Fixpoint uartputc_wait (fuel : nat) : K unit :=
  u ← kget k_uart;
  if uart_tx_w u =? u64 (uart_tx_r u + UART_TX_BUF_SIZE) then
    match fuel with
    | O => hang
    | S f => sleep Ch_uart_tx_r L_uart_tx;; uartputc_wait f
    end
  else mret tt.
Definition uartputc (c : Z) : K unit :=
  acquire L_uart_tx;;
  d ← kget k_dev;
  if negb (dv_panicked d =? 0) then hang else
  with_fuel uartputc_wait;;
  mod_uart (fun u => set_uart_tx_buf
    (aset (uart_tx_buf u) (uart_tx_w u mod UART_TX_BUF_SIZE) (u8 c)) u);;
  mod_uart (fun u => set_uart_tx_w (u64 (uart_tx_w u + 1)) u);;
  uartstart;;
  release L_uart_tx.

Definition uartgetc : K Z :=
  d ← kget k_dev;
  match dv_rx d with
  | c :: rx => mod_dev (set_dv_rx rx);; mret c
  | [] => mret (-1)
  end.

(** ** printf.c *)

Definition BACKSPACE : Z := 0x100.
Definition consputc (c : Z) : K unit :=
  if c =? BACKSPACE then uartputc_sync 8;; uartputc_sync 32;; uartputc_sync 8
  else uartputc_sync c.

Fixpoint consputs (l : list Z) : K unit :=
  match l with [] => mret tt | c :: l' => consputc c;; consputs l' end.

Definition digits : list Z := [48; 49; 50; 51; 52; 53; 54; 55; 56; 57; 97; 98; 99; 100; 101; 102].

(** The digits of [x], least significant first; a 32-bit number has at most
    32 digits. *)
Fixpoint digits_rev (fuel : nat) (x base : Z) : list Z :=
  match fuel with
  | O => []
  | S f => aget 0 digits (x mod base) ::
           (if x / base =? 0 then [] else digits_rev f (x / base) base)
  end.
Definition printint_bytes (xx base : Z) (sign : bool) : list Z :=
  let neg := sign && (xx <? 0) in
  let x := if neg then u32 (- xx) else u32 xx in
  rev (digits_rev 32 x base ++ (if neg then [45] else [])).
Definition printint (xx base : Z) (sign : bool) : K unit := consputs (printint_bytes xx base sign).

Definition printptr_bytes (x : Z) : list Z :=
  48 :: 120 :: ((fun i => aget 0 digits (Z.land (Z.shiftr x (60 - 4 * Z.of_nat i)) 15)) <$> seq 0 16).
Definition printptr (x : Z) : K unit := consputs (printptr_bytes x).

(** Arguments of [printf]; [A_str None] is the null pointer. *)
Inductive parg := A_int (z : Z) | A_ptr (z : Z) | A_str (s : option (list Z)).
Definition null_string : list Z := bytes_of_string "(null)".

(** What the format string [fmt] prints with [args].  A conversion without
    a matching argument has no defined meaning ([None]). *)
Fixpoint printf_bytes (fmt : list Z) (args : list parg) : option (list Z) :=
  match fmt with
  | [] => Some []
  | c :: fmt' =>
    if c =? 0 then Some []
    else if negb (c =? 37) then (fun l => c :: l) <$> printf_bytes fmt' args
    else match fmt' with
         | [] => Some []
         | d :: fmt'' =>
           if d =? 0 then Some []
           else if d =? 100 then
             match args with A_int z :: args' => app (printint_bytes (i32 z) 10 true) <$> printf_bytes fmt'' args' | _ => None end
           else if d =? 120 then
             match args with A_int z :: args' => app (printint_bytes (i32 z) 16 true) <$> printf_bytes fmt'' args' | _ => None end
           else if d =? 112 then
             match args with A_ptr z :: args' => app (printptr_bytes z) <$> printf_bytes fmt'' args' | _ => None end
           else if d =? 115 then
             match args with A_str s :: args' => app (default null_string s) <$> printf_bytes fmt'' args' | _ => None end
           else if d =? 37 then (fun l => 37 :: l) <$> printf_bytes fmt'' args
           else app [37; d] <$> printf_bytes fmt'' args
         end
  end.
Definition printf (fmt : list Z) (args : list parg) : K unit :=
  d ← kget k_dev;
  let locking := negb (dv_pr_locking d =? 0) in
  kwhen locking (acquire L_pr);;
  match printf_bytes fmt args with
  | None => hang
  | Some l => consputs l
  end;;
  kwhen locking (release L_pr).
Definition printfinit : K unit := mod_dev (set_dv_pr_locking 1).

(** ** proc.c: procdump *)

Definition state_name (s : procstate) : list Z :=
  bytes_of_string (match s with
  | UNUSED => "unused" | USED => "used" | SLEEPING => "sleep " | RUNNABLE => "runble"
  | RUNNING => "run   " | ZOMBIE => "zombie"
  end).
(** A C string in an array: the bytes before the first NUL. *)
Fixpoint cstr (l : list Z) : list Z :=
  match l with [] => [] | c :: l' => if c =? 0 then [] else c :: cstr l' end.
Definition procdump : K unit :=
  printf (bytes_of_string "
") [];;
  kfor (seq 0 NPROC) (fun i =>
    p ← get_proc i;
    if bool_decide (p_state p = UNUSED) then mret tt else
    printf (bytes_of_string "%d %s %s") [A_int (p_pid p); A_str (Some (state_name (p_state p))); A_str (Some (cstr (p_name p)))];;
    printf (bytes_of_string "
") []).

(** ** console.c *)

Definition C_ (x : Z) : Z := x - 64.

Fixpoint consolewrite_loop (n : nat) (user_src : bool) (src i : Z) : K Z :=
  match n with
  | O => mret i
  | S n' =>
    r ← either_copyin user_src (u64 (src + i)) 1;
    if fst r =? -1 then mret i else
    uartputc (hd 0 (snd r));;
    consolewrite_loop n' user_src src (i + 1)
  end.
Definition consolewrite (user_src : bool) (src n : Z) : K Z :=
  consolewrite_loop (Z.to_nat n) user_src src 0.

(** The loops of [consoleread]: one unit of fuel per sleep or byte. *)
Fixpoint consoleread_loop (fuel : nat) (user_dst : bool) (dst n target : Z) : K Z :=
  if n <=? 0 then release L_cons;; mret (i32 (target - n)) else
  match fuel with
  | O => hang
  | S f =>
    c ← kget k_cons;
    if cons_r c =? cons_w c then
      p ← curproc;
      kl ← killed p;
      if negb (kl =? 0) then release L_cons;; mret (-1) else
      sleep Ch_cons_r L_cons;;
      consoleread_loop f user_dst dst n target
    else
      let ch := aget 0 (cons_buf c) (cons_r c mod INPUT_BUF_SIZE) in
      mod_cons (fun c => set_cons_r (u32 (cons_r c + 1)) c);;
      if ch =? C_ 68 then
        kwhen (n <? target) (mod_cons (fun c => set_cons_r (u32 (cons_r c - 1)) c));;
        release L_cons;; mret (i32 (target - n))
      else
        r ← either_copyout user_dst dst [ch];
        if r =? -1 then release L_cons;; mret (i32 (target - n)) else
        if ch =? 10 then release L_cons;; mret (i32 (target - (n - 1))) else
        consoleread_loop f user_dst (u64 (dst + 1)) (n - 1) target
  end.
Definition consoleread (user_dst : bool) (dst n : Z) : K Z :=
  acquire L_cons;;
  with_fuel (fun e => consoleread_loop (e + Z.to_nat n) user_dst dst n n).

(** The loop of Control-U: at most as many iterations as bytes being
    edited. *)
Fixpoint kill_line (fuel : nat) : K unit :=
  c ← kget k_cons;
  if negb (cons_e c =? cons_w c)
     && negb (aget 0 (cons_buf c) (u32 (cons_e c - 1) mod INPUT_BUF_SIZE) =? 10) then
    match fuel with
    | O => hang
    | S f =>
      mod_cons (fun c => set_cons_e (u32 (cons_e c - 1)) c);;
      consputc BACKSPACE;;
      kill_line f
    end
  else mret tt.

Definition consoleintr (c : Z) : K unit :=
  acquire L_cons;;
  (if c =? C_ 80 then procdump
   else if c =? C_ 85 then
     x ← kget k_cons;
     kill_line (Z.to_nat (u32 (cons_e x - cons_w x)))
   else if (c =? C_ 72) || (c =? 0x7f) then
     x ← kget k_cons;
     kwhen (negb (cons_e x =? cons_w x))
       (mod_cons (fun c => set_cons_e (u32 (cons_e c - 1)) c);; consputc BACKSPACE)
   else
     x ← kget k_cons;
     kwhen (negb (c =? 0) && (u32 (cons_e x - cons_r x) <? INPUT_BUF_SIZE))
       (let c := if c =? 13 then 10 else c in
        consputc c;;
        mod_cons (fun x => set_cons_buf (aset (cons_buf x) (cons_e x mod INPUT_BUF_SIZE) (u8 c)) x);;
        mod_cons (fun x => set_cons_e (u32 (cons_e x + 1)) x);;
        x ← kget k_cons;
        kwhen ((c =? 10) || (c =? C_ 68) || (u32 (cons_e x - cons_r x) =? INPUT_BUF_SIZE))
          (mod_cons (fun x => set_cons_w (cons_e x) x);;
           wakeup Ch_cons_r)));;
  release L_cons.

(** uart.c: the interrupt handler; it reads what has arrived. *)
Fixpoint uartintr_loop (fuel : nat) : K unit :=
  c ← uartgetc;
  if c =? -1 then mret tt else
  match fuel with
  | O => hang
  | S f => consoleintr c;; uartintr_loop f
  end.
Definition uartintr : K unit :=
  d ← kget k_dev;
  uartintr_loop (length (dv_rx d));;
  acquire L_uart_tx;;
  uartstart;;
  release L_uart_tx.
