(* ===== verification/ConsoleProps.v ===== *)
(** * ConsoleProps: printed numbers and the console's line editor

    [printint] is compared with reading the printed text back; the input
    side of console.c, with its three counters into a circular buffer, is
    shown to implement a line editor on two byte strings. *)

From S2P Require Import Prelude.
From S2P Require Import Ring.
From S2P Require Import State.
From S2P Require Import Kernel.
From S2P Require Import Mlfq.
From S2P Require Import Sched.
From S2P Require Import SchedInv.
From S2P Require Import SchedProps.
From S2P Require Import Console.

(** ** Numbers *)

(** The value of a digit, of a string of digits, and of a signed number. *)
Definition digit_val (c : Z) : Z := if c <? 58 then c - 48 else c - 87.
Definition read_uint (base : Z) (l : list Z) : Z := fold_left (fun acc c => acc * base + digit_val c) l 0.
Definition read_int (base : Z) (l : list Z) : Z :=
  match l with
  | c :: l' => if c =? 45 then - read_uint base l' else read_uint base l
  | [] => 0
  end.

Lemma digit_val_digits d : 0 <= d < 16 -> digit_val (aget 0 digits d) = d /\ aget 0 digits d <> 45.
Proof.
  intros H. assert (forall k, (k < 16)%nat -> digit_val (nth k digits 0) = Z.of_nat k /\ nth k digits 0 <> 45) as Hk.
  { intros k Hk. do 16 (destruct k as [|k]; [by vm_compute|]). lia. }
  unfold aget. rewrite <- (Z2Nat.id d) at 2 by lia. apply Hk. lia.
Qed.

Section digits.
Context (base : Z).
Hypothesis Hbase : 2 <= base <= 16.

Lemma digits_rev_ok : forall fuel x, 0 <= x < base ^ Z.of_nat fuel -> (0 < fuel)%nat ->
  read_uint base (rev (digits_rev fuel x base)) = x /\
  Forall (fun c => c <> 45) (digits_rev fuel x base) /\ digits_rev fuel x base <> [].
Proof.
  induction fuel as [|fuel IH]; intros x Hx Hf; [lia|]. cbn [digits_rev rev].
  assert (0 <= x mod base < base) as Hm by (apply Z.mod_pos_bound; lia).
  destruct (digit_val_digits (x mod base)) as [Ed Hd]; [lia|].
  unfold read_uint. rewrite fold_left_app. cbn [fold_left]. rewrite Ed.
  destruct (Z.eqb_spec (x / base) 0) as [E|E].
  - cbn [rev fold_left]. split; [|by repeat constructor]. rewrite Z.mul_0_l, Z.add_0_l.
    rewrite (Z.div_mod x base) at 2 by lia. rewrite E. lia.
  - assert (0 <= x / base) by (apply Z.div_pos; lia).
    assert (x / base < base ^ Z.of_nat fuel).
    { apply Z.div_lt_upper_bound; [lia|]. rewrite <- Z.pow_succ_r by lia. rewrite <- Nat2Z.inj_succ. apply Hx. }
    destruct fuel as [|fuel]; [simpl in *; lia|].
    destruct (IH (x / base)) as (Ev & Hn & _); [lia|lia|]. unfold read_uint in Ev. rewrite Ev.
    split; [|split; [by constructor|done]]. rewrite (Z.div_mod x base) at 3 by lia. lia.
Qed.

Lemma digits_rev_length : forall k fuel x, 0 <= x < base ^ Z.of_nat k -> (0 < k)%nat ->
  (length (digits_rev fuel x base) <= k)%nat.
Proof.
  induction k as [|k IH]; intros fuel x Hx Hk; [lia|]. destruct fuel as [|fuel]; cbn [digits_rev length]; [lia|].
  destruct (Z.eqb_spec (x / base) 0) as [E|E]; cbn [length]; [lia|].
  assert (0 <= x / base) by (apply Z.div_pos; lia).
  assert (x / base < base ^ Z.of_nat k).
  { apply Z.div_lt_upper_bound; [lia|]. rewrite <- Z.pow_succ_r by lia. rewrite <- Nat2Z.inj_succ. apply Hx. }
  destruct k as [|k]; [simpl in *; lia|]. specialize (IH fuel (x / base)). lia.
Qed.
End digits.

Lemma read_int_uint base l : Forall (fun c => c <> 45) l -> read_int base l = read_uint base l.
Proof.
  intros H. destruct l as [|c l]; [done|]. apply Forall_cons in H as [Hc _]. cbn [read_int].
  by rewrite (proj2 (Z.eqb_neq c 45)).
Qed.

(** The digits of a 32-bit number, with the bound of [buf]. *)
Lemma digits_u32 base x : base = 10 \/ base = 16 -> 0 <= x < 2 ^ 32 ->
  read_uint base (rev (digits_rev 32 x base)) = x /\ Forall (fun c => c <> 45) (rev (digits_rev 32 x base)) /\
  (length (digits_rev 32 x base) <= 10)%nat.
Proof.
  intros Hb Hx. assert (2 <= base <= 16) as Hr by lia.
  assert (2 ^ 32 <= base ^ Z.of_nat 32 /\ 2 ^ 32 <= base ^ Z.of_nat 10) as [H1 H2]
    by (destruct Hb as [-> | ->]; vm_compute; split; congruence).
  destruct (digits_rev_ok base Hr 32 x) as (E & Hn & _); [lia|lia|].
  split; [exact E|]. split; [by apply Forall_rev|]. apply (digits_rev_length base Hr 10); lia.
Qed.

(** [printint] prints a number that reads back as the argument, in base
    10 and 16, as an unsigned number when [sign] is 0 and as a signed one
    otherwise, the smallest [int] included; the digits and the sign never
    overflow the 16-byte buffer. *)
Theorem printint_correct xx base sign : - 2 ^ 31 <= xx < 2 ^ 31 -> base = 10 \/ base = 16 ->
  read_int base (printint_bytes xx base sign) = (if sign then xx else u32 xx) /\
  (length (printint_bytes xx base sign) <= 11)%nat.
Proof.
  intros Hx Hb. unfold printint_bytes. destruct (sign && (xx <? 0)) eqn:Es.
  - apply andb_true_iff in Es as [-> Hneg%Z.ltb_lt]. rewrite u32_small by lia.
    destruct (digits_u32 base (- xx) Hb) as (E & Hn & Hl); [lia|].
    rewrite rev_app_distr. cbn [rev app read_int length]. rewrite E, length_rev. change (45 =? 45) with true. cbv iota. lia.
  - rewrite app_nil_r, length_rev. destruct (digits_u32 base (u32 xx) Hb (u32_range xx)) as (E & Hn & Hl).
    rewrite read_int_uint, E by done. split; [|lia]. destruct sign; [|done].
    cbn [andb] in Es. apply Z.ltb_ge in Es. apply u32_small. lia.
Qed.

Lemma printint_correct_witness : read_int 10 (printint_bytes (- 2 ^ 31) 10 true) = - 2 ^ 31.
Proof. apply (printint_correct (- 2 ^ 31) 10 true); [split; vm_compute; congruence|left; reflexivity]. Defined.

(** ** The line editor *)

(** The bytes ready for [consoleread], and those of the line being edited. *)
Record line := Line { l_ready : list Z; l_edit : list Z }.

(** The effect of one input character. *)
Definition line_step (c : Z) (l : line) : line :=
  let n := Z.of_nat (length (l_ready l) + length (l_edit l)) in
  if c =? 16 then l                                         (* Control-P *)
  else if c =? 21 then Line (l_ready l) []                  (* Control-U *)
  else if (c =? 8) || (c =? 127) then Line (l_ready l) (removelast (l_edit l))
  else if (c =? 0) || (INPUT_BUF_SIZE <=? n) then l
  else
    let c := if c =? 13 then 10 else c in
    if (c =? 10) || (c =? 4) || (n + 1 =? INPUT_BUF_SIZE)
    then Line (l_ready l ++ l_edit l ++ [c]) []
    else Line (l_ready l) (l_edit l ++ [c]).

(** The buffer and the counters of [cons] hold a line. *)
Record cons_rep (x : cons) (l : line) : Prop := {
  cr_len : length (cons_buf x) = Z.to_nat INPUT_BUF_SIZE;
  cr_r : 0 <= cons_r x < 2 ^ 32;
  cr_w : cons_w x = u32 (cons_r x + Z.of_nat (length (l_ready l)));
  cr_e : cons_e x = u32 (cons_w x + Z.of_nat (length (l_edit l)));
  cr_ready : ring INPUT_BUF_SIZE (cons_buf x) (cons_r x) (length (l_ready l)) = l_ready l;
  cr_edit : ring INPUT_BUF_SIZE (cons_buf x) (cons_w x) (length (l_edit l)) = l_edit l;
  cr_size : Z.of_nat (length (l_ready l) + length (l_edit l)) <= INPUT_BUF_SIZE;
  cr_line : 10 ∉ l_edit l
}.

Lemma cons_divides : (INPUT_BUF_SIZE | 2 ^ 32).
Proof. by apply Z.mod_divide. Qed.

(** The counters determine the sizes. *)
Lemma u32_add_sub a n : 0 <= n <= INPUT_BUF_SIZE -> u32 (u32 (a + n) - a) = n.
Proof.
  unfold u32, INPUT_BUF_SIZE. intros H. change (2 ^ 32) with 4294967296. zlia.
Qed.
Lemma u32_add_add a n m : u32 (u32 (a + n) + m) = u32 (a + (n + m)).
Proof. unfold u32. rewrite Zplus_mod_idemp_l. f_equal. lia. Qed.
Lemma u32_pred a n : 0 < n -> u32 (u32 (a + n) - 1) = u32 (a + (n - 1)).
Proof. intros _. unfold u32. rewrite Zminus_mod_idemp_l. f_equal. lia. Qed.

Section rep.
Context (x : cons) (l : line) (H : cons_rep x l).

Lemma rep_e : cons_e x = u32 (cons_r x + Z.of_nat (length (l_ready l) + length (l_edit l))).
Proof. rewrite (cr_e _ _ H), (cr_w _ _ H), u32_add_add. do 2 f_equal. lia. Qed.

Lemma rep_size : u32 (cons_e x - cons_r x) = Z.of_nat (length (l_ready l) + length (l_edit l)).
Proof. rewrite rep_e. apply u32_add_sub. pose proof (cr_size _ _ H). lia. Qed.

Lemma rep_editing : u32 (cons_e x - cons_w x) = Z.of_nat (length (l_edit l)).
Proof. rewrite (cr_e _ _ H). apply u32_add_sub. pose proof (cr_size _ _ H). lia. Qed.

Lemma rep_empty : (cons_e x =? cons_w x) = bool_decide (l_edit l = []).
Proof.
  pose proof rep_editing as E. destruct (Z.eqb_spec (cons_e x) (cons_w x)) as [Ee|Ee]; symmetry.
  - apply bool_decide_eq_true_2. rewrite Ee, Z.sub_diag in E. apply length_zero_iff_nil.
    change (u32 0) with 0 in E. lia.
  - apply bool_decide_eq_false_2. intros El. rewrite El in E. cbn [length] in E. destruct Ee.
    pose proof (cr_w _ _ H) as Ew. rewrite (cr_e _ _ H), El, Z.add_0_r. apply u32_small. rewrite Ew. apply u32_range.
Qed.

(** The whole contents of the buffer. *)
Lemma rep_all : ring INPUT_BUF_SIZE (cons_buf x) (cons_r x) (length (l_ready l) + length (l_edit l)) =
  l_ready l ++ l_edit l.
Proof.
  rewrite ring_app, (cr_ready _ _ H). f_equal. rewrite <- (cr_edit _ _ H) at 2. rewrite (cr_w _ _ H). unfold u32.
  by rewrite (ring_wrap INPUT_BUF_SIZE (2 ^ 32)) by (done || apply cons_divides).
Qed.

(** The slot at [e] follows the last byte. *)
Lemma rep_slot : cons_e x mod INPUT_BUF_SIZE =
  (cons_r x + Z.of_nat (length (l_ready l) + length (l_edit l))) mod INPUT_BUF_SIZE.
Proof. rewrite rep_e. unfold u32. apply (slot_wrap INPUT_BUF_SIZE (2 ^ 32)), cons_divides. Qed.

(** Taking back the last byte of the line. *)
Lemma rep_pred c E : l_edit l = E ++ [c] ->
  aget 0 (cons_buf x) (u32 (cons_e x - 1) mod INPUT_BUF_SIZE) = c /\
  cons_rep (set_cons_e (u32 (cons_e x - 1)) x) (Line (l_ready l) E).
Proof.
  intros El. pose proof (cr_edit _ _ H) as He. pose proof (cr_e _ _ H) as Ee. rewrite El, length_app in He, Ee.
  cbn [length] in He, Ee. rewrite Nat.add_1_r, ring_snoc in He. apply app_inj_tail in He as [He1 He2].
  assert (u32 (cons_e x - 1) = u32 (cons_w x + Z.of_nat (length E))) as Ep.
  { rewrite Ee, u32_pred by lia. do 2 f_equal. lia. }
  split.
  - rewrite Ep. unfold u32. by rewrite (slot_wrap INPUT_BUF_SIZE (2 ^ 32)) by (done || apply cons_divides).
  - pose proof (cr_size _ _ H) as Hs. rewrite El, length_app in Hs. cbn [length] in Hs.
    destruct H as [? ? ? _ ? _ _ Hnl]. split; cbn; try done; [lia|]. rewrite El in Hnl. set_solver.
Qed.

(** Adding a byte, and making the line ready. *)
Definition add_byte (c : Z) (x : cons) : cons :=
  set_cons_e (u32 (cons_e x + 1)) (set_cons_buf (aset (cons_buf x) (cons_e x mod INPUT_BUF_SIZE) (u8 c)) x).

Lemma rep_add c : 0 <= c < 256 -> Z.of_nat (length (l_ready l) + length (l_edit l)) < INPUT_BUF_SIZE ->
  (c <> 10 -> cons_rep (add_byte c x) (Line (l_ready l) (l_edit l ++ [c]))) /\
  cons_rep (set_cons_w (cons_e (add_byte c x)) (add_byte c x)) (Line (l_ready l ++ l_edit l ++ [c]) []).
Proof.
  intros Hc Hn. pose proof rep_slot as Hsl. pose proof rep_all as Hal. pose proof rep_e as Hre.
  set (n := (length (l_ready l) + length (l_edit l))%nat) in *.
  destruct (ring_aset INPUT_BUF_SIZE ltac:(done) (cons_buf x) (cons_r x) n (u8 c) Hn (cr_len _ _ H)) as [_ Hadd].
  rewrite <- Hsl in Hadd. rewrite u8_small in Hadd by done. set (b := aset _ _ _) in Hadd.
  rewrite Hal in Hadd. rewrite <- app_assoc in Hadd.
  assert (length b = Z.to_nat INPUT_BUF_SIZE) as Hb by (unfold b; rewrite length_aset; apply H).
  assert (cons_e (add_byte c x) = u32 (cons_r x + Z.of_nat (S n))) as Ee.
  { cbn [add_byte cons_e set_cons_e]. rewrite Hre, u32_add_add. do 2 f_equal. lia. }
  assert (cons_buf (add_byte c x) = b) as Eb by (cbn [add_byte set_cons_e set_cons_buf cons_buf]; by rewrite u8_small).
  split.
  - intros Hnl. replace (S n) with (length (l_ready l) + length (l_edit l ++ [c]))%nat in Hadd, Ee
      by (rewrite length_app; cbn [length]; lia).
    rewrite ring_app in Hadd. apply app_inj_1 in Hadd as [Hr He]; [|apply length_ring].
    split; cbn [l_ready l_edit]; rewrite ?Eb.
    + done.
    + apply H.
    + apply H.
    + rewrite Ee. change (cons_w (add_byte c x)) with (cons_w x). rewrite (cr_w _ _ H), u32_add_add.
      do 2 f_equal. lia.
    + exact Hr.
    + change (cons_w (add_byte c x)) with (cons_w x). rewrite (cr_w _ _ H). unfold u32.
      by rewrite (ring_wrap INPUT_BUF_SIZE (2 ^ 32)) by (done || apply cons_divides).
    + rewrite length_app. cbn [length]. lia.
    + pose proof (cr_line _ _ H). set_solver.
  - replace (S n) with (length (l_ready l ++ l_edit l ++ [c])) in Hadd, Ee by (rewrite !length_app; cbn [length]; lia).
    split; cbn [l_ready l_edit set_cons_w cons_buf cons_r cons_w cons_e length]; rewrite ?Eb.
    + done.
    + apply H.
    + exact Ee.
    + rewrite Z.add_0_r, Ee. symmetry. apply u32_small. apply u32_range.
    + exact Hadd.
    + done.
    + rewrite !length_app. cbn [length]. lia.
    + apply not_elem_of_nil.
Qed.
End rep.

(** ** Output *)

(** Only the output and the state of the transmitter change. *)
Definition out (s s' : kst) : Prop := exists d t, s' = set_k_dev d (set_k_thr t s) /\
  dv_panicked d = dv_panicked (k_dev s) /\ dv_pr_locking d = dv_pr_locking (k_dev s).
Lemma out_refl s : out s s.
Proof. exists (k_dev s), (k_thr s). by destruct s. Qed.
Lemma out_trans s1 s2 s3 : out s1 s2 -> out s2 s3 -> out s1 s3.
Proof.
  intros (d & t & -> & H1 & H2) (d' & t' & -> & H3 & H4). exists d', t'. split; [by destruct s1|].
  simpl in *. by rewrite H3, H4.
Qed.
Lemma out_held s s' l : out s s' -> out (set_k_held l s) (set_k_held l s').
Proof. intros (d & t & -> & H). exists d, t. split; [by destruct s|done]. Qed.

(** [m] returns, having only produced output, when the locks held satisfy [P]. *)
Definition prints (P : list lockid -> Prop) (m : K unit) : Prop :=
  forall w, P (k_held (w_k w)) -> dv_panicked (k_dev (w_k w)) = 0 ->
  exists s', m w = Ret tt (with_k w s') /\ out (w_k w) s'.

Section prints.
Context (P : list lockid -> Prop).

Lemma prints_bind m1 m2 : prints P m1 -> prints P m2 -> prints P (m1;; m2).
Proof.
  intros H1 H2 w Hh Hp. destruct (H1 w Hh Hp) as (s1 & E1 & O1). rewrite (bind_ret _ _ _ _ _ E1).
  destruct (H2 (with_k w s1)) as (s2 & E2 & O2).
  - by destruct O1 as (d & t & -> & _).
  - destruct O1 as (d & t & -> & Hd & _). simpl in *. by rewrite Hd.
  - exists s2. split; [by rewrite E2|]. by eapply out_trans.
Qed.
Lemma prints_ret : prints P (mret tt).
Proof. intros w _ _. exists (w_k w). split; [by destruct w|apply out_refl]. Qed.

Lemma prints_putc_sync c : prints P (uartputc_sync c).
Proof.
  intros w _ Hp. unfold uartputc_sync. kstep. rewrite Hp. cbn [negb Z.eqb]. eexists. split; [done|].
  exists (set_dv_tx_idle (Z.max 0 (dv_tx_idle (k_dev (w_k w)) - 1)) (k_dev (w_k w))), (k_thr (w_k w) ++ [u8 c]).
  by destruct (w_k w).
Qed.
Lemma prints_putc c : prints P (consputc c).
Proof. unfold consputc. destruct (_ =? _); [do 2 (apply prints_bind; [apply prints_putc_sync|])|]; apply prints_putc_sync. Qed.
Lemma prints_puts l : prints P (consputs l).
Proof. induction l; [apply prints_ret|]. apply prints_bind; [apply prints_putc|done]. Qed.
End prints.

Definition no_pr (h : list lockid) : Prop := L_pr ∉ h.

Lemma prints_printf fmt args l : printf_bytes fmt args = Some l -> prints no_pr (printf fmt args).
Proof.
  intros Hl w Hh Hp. unfold printf. kstep. rewrite Hl. destruct (dv_pr_locking (k_dev (w_k w)) =? 0); cbn [negb kwhen].
  - apply (prints_bind no_pr (mret tt) (consputs l;; mret tt)); [apply prints_ret| |done|done].
    apply prints_bind; [apply prints_puts|apply prints_ret].
  - rewrite (bind_ret _ _ _ _ _ (acquire_ok _ _ Hh)). set (w1 := with_k w _).
    destruct (prints_puts (fun _ => True) l w1 I Hp) as (s1 & E1 & O1). rewrite (bind_ret _ _ _ _ _ E1).
    rewrite (release_ok L_pr _ (k_held (w_k w))); [|by destruct O1 as (d & t & -> & _)|done].
    eexists. split; [done|]. apply (out_held _ _ (k_held (w_k w))) in O1. cbn in O1.
    by replace (set_k_held (k_held (w_k w)) (set_k_held (L_pr :: k_held (w_k w)) (w_k w))) with (w_k w) in O1
      by (by destruct (w_k w)).
Qed.

Lemma prints_procdump : prints no_pr procdump.
Proof.
  unfold procdump. apply prints_bind; [by eapply prints_printf|].
  generalize (seq 0 NPROC). intros l. induction l as [|i l IH]; cbn [kfor]; [apply prints_ret|].
  apply prints_bind; [|exact IH]. intros w. unfold get_proc. kstep. case_bool_decide; [apply (prints_ret no_pr w)|].
  generalize (proc_at (k_ps (w_k w)) i). intros q. revert w H.
  assert (prints no_pr (printf (bytes_of_string "%d %s %s")
    [A_int (p_pid q); A_str (Some (state_name (p_state q))); A_str (Some (cstr (p_name q)))];;
    printf (bytes_of_string "
") [])) as Hq; [|intros w _; apply Hq].
  apply prints_bind; by eapply prints_printf.
Qed.

(** ** Input *)

Lemma out_cons s s' : out s s' -> k_cons s' = k_cons s /\ k_ps s' = k_ps s /\ k_held s' = k_held s /\
  k_cur s' = k_cur s /\ dv_panicked (k_dev s') = dv_panicked (k_dev s).
Proof. intros (d & t & -> & Hd & _). by split_and!. Qed.
Lemma out_set_cons s s' x : out s s' -> out (set_k_cons x s) (set_k_cons x s').
Proof. intros (d & t & -> & Hd & Hl). exists d, t. by split_and!; [destruct s|..]. Qed.

Lemma kill_line_ok : forall fuel w l, cons_rep (k_cons (w_k w)) l -> (length (l_edit l) <= fuel)%nat ->
  dv_panicked (k_dev (w_k w)) = 0 -> exists x' s', kill_line fuel w = Ret tt (with_k w s') /\
    out (set_k_cons x' (w_k w)) s' /\ cons_rep x' (Line (l_ready l) []).
Proof.
  induction fuel as [|fuel IH]; intros w l Hr Hf Hp; cbn [kill_line]; kstep; rewrite (rep_empty _ _ Hr).
  all: case_bool_decide as He; cbn [negb andb].
  1,3: exists (k_cons (w_k w)), (w_k w); split; [by destruct w|]; split;
    [replace (set_k_cons (k_cons (w_k w)) (w_k w)) with (w_k w) by (by destruct (w_k w)); apply out_refl
    |rewrite <- He; by destruct l].
  { destruct (l_edit l); cbn in *; [done|lia]. }
  destruct (exists_last He) as (E & c & Ec).
  destruct (rep_pred _ _ Hr c E Ec) as [Hc Hr']. rewrite Hc.
  destruct (Z.eqb_spec c 10) as [->|_]; cbn [negb].
  { destruct (cr_line _ _ Hr). rewrite Ec. set_solver. }
  unfold mod_cons. kstep. set (w1 := with_k w _).
  destruct (prints_putc (fun _ => True) BACKSPACE w1 I Hp) as (s2 & E2 & O2). rewrite (bind_ret _ _ _ _ _ E2).
  destruct (out_cons _ _ O2) as (Ec2 & _ & _ & _ & Ep2).
  destruct (IH (with_k w1 s2) (Line (l_ready l) E)) as (x' & s' & E3 & O3 & H3).
  - cbn [with_k w_k]. rewrite Ec2. exact Hr'.
  - rewrite Ec, length_app in Hf. cbn in *. lia.
  - cbn [with_k w_k]. by rewrite Ep2.
  - exists x', s'. split; [exact E3|]. split; [|exact H3]. eapply out_trans, O3.
    apply (out_set_cons _ _ x') in O2. cbn in O2. 
    by replace (set_k_cons x' (set_k_cons _ (w_k w))) with (set_k_cons x' (w_k w)) in O2 by (by destruct (w_k w)).
Qed.

(** What an input character does besides the output: the line changes, and
    the readers wake up when bytes became ready. *)
Record intr_post (c : Z) (l : line) (s s' : kst) : Prop := {
  ip_rep : cons_rep (k_cons s') (line_step c l);
  ip_held : k_held s' = k_held s;
  ip_sched : exists Q, sched_inv (k_ps s') Q;
  ip_wake : l_ready (line_step c l) <> l_ready l -> forall i, (i < NPROC)%nat ->
    sleeps_on (k_ps s) (k_cur s) Ch_cons_r i -> p_state (proc_at (k_ps s') i) = RUNNABLE
}.

Lemma intr_silent c l s x s' : out (set_k_cons x s) s' -> cons_rep x (line_step c l) ->
  l_ready (line_step c l) = l_ready l -> (exists Q, sched_inv (k_ps s) Q) -> intr_post c l s s'.
Proof.
  intros O Hr He HQ. destruct (out_cons _ _ O) as (Ec & Ep & Eh & _ & _). cbn in Ec, Ep, Eh.
  split; [by rewrite Ec|done|by rewrite Ep|done].
Qed.

(** The branch for an ordinary character. *)
Lemma intr_char c l w : 0 <= c < 256 -> cons_rep (k_cons (w_k w)) l -> quiet (k_held (w_k w)) ->
  dv_panicked (k_dev (w_k w)) = 0 -> (exists Q, sched_inv (k_ps (w_k w)) Q) ->
  (c =? 16) = false -> (c =? 21) = false -> (c =? 8) || (c =? 127) = false -> exists s',
  (x ← kget k_cons;
   kwhen (negb (c =? 0) && (u32 (cons_e x - cons_r x) <? INPUT_BUF_SIZE))
     (let c := if c =? 13 then 10 else c in
      consputc c;;
      mod_cons (fun x => set_cons_buf (aset (cons_buf x) (cons_e x mod INPUT_BUF_SIZE) (u8 c)) x);;
      mod_cons (fun x => set_cons_e (u32 (cons_e x + 1)) x);;
      x ← kget k_cons;
      kwhen ((c =? 10) || (c =? C_ 68) || (u32 (cons_e x - cons_r x) =? INPUT_BUF_SIZE))
        (mod_cons (fun x => set_cons_w (cons_e x) x);;
         wakeup Ch_cons_r))) w = Ret tt (with_k w s') /\ intr_post c l (w_k w) s'.
Proof.
  intros Hc Hr Hq Hp HQ E1 E2 E3. kstep. rewrite (rep_size _ _ Hr).
  assert (line_step c l = if (c =? 0) || (INPUT_BUF_SIZE <=? Z.of_nat (length (l_ready l) + length (l_edit l))) then l else
    let c := if c =? 13 then 10 else c in
    if (c =? 10) || (c =? 4) || (Z.of_nat (length (l_ready l) + length (l_edit l)) + 1 =? INPUT_BUF_SIZE)
    then Line (l_ready l ++ l_edit l ++ [c]) [] else Line (l_ready l) (l_edit l ++ [c])) as Es
    by (unfold line_step; by rewrite E1, E2, E3).
  assert (negb (c =? 0) && (Z.of_nat (length (l_ready l) + length (l_edit l)) <? INPUT_BUF_SIZE) =
    negb ((c =? 0) || (INPUT_BUF_SIZE <=? Z.of_nat (length (l_ready l) + length (l_edit l))))) as ->
    by (by rewrite negb_orb, Z.ltb_antisym).
  destruct ((c =? 0) || _) eqn:Eg; cbn [negb kwhen].
  { exists (w_k w). split; [by destruct w|]. split; rewrite ?Es; done. }
  apply orb_false_iff in Eg as [_ Hlt%Z.leb_gt]. cbv zeta. set (c' := if c =? 13 then 10 else c) in *.
  assert (0 <= c' < 256) as Hc' by (unfold c'; destruct (c =? 13); lia).
  destruct (prints_putc (fun _ => True) c' w I Hp) as (s1 & Ep & O1). rewrite (bind_ret _ _ _ _ _ Ep).
  destruct (out_cons _ _ O1) as (Ec1 & Eps1 & Eh1 & Ecu1 & _).
  set (x0 := set_cons_buf (aset (cons_buf (k_cons (w_k w))) (cons_e (k_cons (w_k w)) mod INPUT_BUF_SIZE) (u8 c'))
    (k_cons (w_k w))).
  set (x1 := add_byte c' (k_cons (w_k w))). set (w2 := with_k w (set_k_cons x1 s1)).
  rewrite (bind_ret (mod_cons _) _ _ tt (with_k w (set_k_cons x0 s1)))
    by (unfold mod_cons, kmod; cbn; by rewrite Ec1).
  rewrite (bind_ret (mod_cons _) _ _ tt w2) by (by destruct s1).
  kstep. change (k_cons (w_k w2)) with x1.
  destruct (rep_add _ _ Hr c' Hc' Hlt) as [Hadd Hready]. fold x1 in Hadd, Hready.
  set (n := Z.of_nat (length (l_ready l) + length (l_edit l))) in *.
  assert ((c' =? 10) || (c' =? C_ 68) || (u32 (cons_e x1 - cons_r x1) =? INPUT_BUF_SIZE) =
    (c' =? 10) || (c' =? 4) || (n + 1 =? INPUT_BUF_SIZE)) as ->.
  { destruct (Z.eqb_spec c' 10) as [E|E]; [done|]. rewrite (rep_size _ _ (Hadd E)). cbn [l_ready l_edit].
    do 2 f_equal. rewrite length_app. cbn [length]. lia. }
  destruct ((c' =? 10) || _ || _) eqn:Ed; cbv zeta in Es; fold c' in Es; rewrite Ed in Es; cbn [kwhen].
  - set (w3 := with_k w (set_k_cons (set_cons_w (cons_e x1) x1) s1)).
    rewrite (bind_ret (mod_cons _) _ _ tt w3) by (by destruct s1). destruct HQ as [Q HQ].
    destruct (wakeup_loop Ch_cons_r (seq 0 NPROC) w3 Q) as (ps' & thr & E & HQ' & Hps);
      [apply NoDup_seq| |cbn; by rewrite Eh1|cbn; by rewrite Eps1|].
    { intros i Hi%elem_of_seq. lia. }
    eexists. split; [exact E|]. split; rewrite ?Es; cbn [put_ps k_cons k_held k_ps set_k_ps set_k_thr w3 with_k w_k set_k_cons].
    + exact Hready.
    + exact Eh1.
    + by eexists.
    + intros _ i Hi Hs. rewrite (Hps i Hi). rewrite decide_True; [done|]. apply list_elem_of_filter.
      change (k_ps (w_k w3)) with (k_ps s1). change (k_cur (w_k w3)) with (k_cur s1).
      rewrite Eps1, Ecu1. split; [done|]. apply elem_of_seq. lia.
  - eexists. split; [done|]. apply (intr_silent _ _ _ x1).
    + exact (out_set_cons _ _ x1 O1).
    + rewrite Es. apply Hadd. apply orb_false_iff in Ed as [[?%Z.eqb_neq _]%orb_false_iff _]. done.
    + by rewrite Es.
    + done.
Qed.

(** C30: the interrupt handler of the console implements a line editor.
    With the buffer holding the bytes ready to be read and the line being
    edited, each input character has the effect of [line_step]: ordinary
    characters are appended while there is room, erase and kill take back
    bytes of the current line only, and the line becomes readable on
    newline, end of file or a full buffer, in which case every process
    sleeping in [consoleread] is made RUNNABLE.  The handler neither panics
    nor runs out of fuel, and leaves the locks as they were. *)
Theorem consoleintr_refines c w l : 0 <= c < 256 -> cons_rep (k_cons (w_k w)) l ->
  quiet (k_held (w_k w)) -> L_cons ∉ k_held (w_k w) -> dv_panicked (k_dev (w_k w)) = 0 ->
  (exists Q, sched_inv (k_ps (w_k w)) Q) ->
  exists s', consoleintr c w = Ret tt (with_k w s') /\ intr_post c l (w_k w) s'.
Proof.
  intros Hc Hr Hq Hl Hp HQ. unfold consoleintr. rewrite (bind_ret _ _ _ _ _ (acquire_ok _ _ Hl)).
  set (w1 := with_k w _).
  assert (forall body, (exists s', body w1 = Ret tt (with_k w1 s') /\ intr_post c l (w_k w1) s') ->
    exists s', (body;; release L_cons : K unit) w1 = Ret tt (with_k w s') /\ intr_post c l (w_k w) s') as Hrel.
  { intros body (s' & E & [Hrep Hh Hs Hw]). rewrite (bind_ret _ _ _ _ _ E).
    rewrite (release_ok L_cons _ (k_held (w_k w))) by done. eexists. split; [done|]. by split. }
  apply Hrel. clear Hrel. assert (quiet (k_held (w_k w1))) as Hq1.
  { destruct Hq as [? ?]. split; [set_solver|]. intros i. set_solver. }
  change (C_ 80) with 16. change (C_ 85) with 21. change (C_ 72) with 8. change 0x7f with 127.
  assert (forall s, set_k_cons (k_cons s) s = s) as Hid by (by intros []).
  destruct (c =? 16) eqn:E1.
  { destruct (prints_procdump w1) as (s' & E & O); [apply Hq1|done|]. exists s'. split; [done|].
    apply (intr_silent _ _ _ (k_cons (w_k w1))); [by rewrite (Hid (w_k w1))| | |done];
      unfold line_step; by rewrite E1. }
  destruct (c =? 21) eqn:E2.
  { kstep. change (k_cons (w_k w1)) with (k_cons (w_k w)). rewrite (rep_editing _ _ Hr), Nat2Z.id.
    destruct (kill_line_ok (length (l_edit l)) w1 l Hr) as (x' & s' & E & O & H'); [lia|done|].
    exists s'. split; [exact E|]. apply (intr_silent _ _ _ x'); [done| | |done]; unfold line_step; by rewrite E1, E2. }
  destruct ((c =? 8) || (c =? 127)) eqn:E3; [|by apply intr_char].
  assert (line_step c l = Line (l_ready l) (removelast (l_edit l))) as Es by (unfold line_step; by rewrite E1, E2, E3).
  kstep. change (k_cons (w_k w1)) with (k_cons (w_k w)).
  rewrite (rep_empty _ _ Hr). case_bool_decide as He; cbn [negb kwhen].
  - exists (w_k w1). split; [done|]. apply (intr_silent _ _ _ (k_cons (w_k w1))); rewrite ?Es; try done.
    + rewrite Hid. apply out_refl.
    + rewrite He. cbn. rewrite <- He. by destruct l.
  - destruct (exists_last He) as (E & b & Eb). destruct (rep_pred _ _ Hr b E Eb) as [_ Hr'].
    unfold mod_cons. kstep. set (w2 := with_k _ _).
    destruct (prints_putc (fun _ => True) BACKSPACE w2 I Hp) as (s' & Ep & O). exists s'. split; [exact Ep|].
    eapply intr_silent; [exact O| | |done]; rewrite Es; [|done]. by rewrite Eb, removelast_last.
Qed.

Definition cons_world : world := World [] (k_example (ps_one SLEEPING)).

Lemma consoleintr_refines_witness : exists s', consoleintr 97 cons_world = Ret tt (with_k cons_world s') /\
  cons_rep (k_cons s') (Line [] [97]).
Proof.
  destruct (consoleintr_refines 97 cons_world (Line [] [])) as (s' & E & H).
  - lia.
  - split; cbn [l_ready l_edit length]; try reflexivity; [split; vm_compute; congruence|vm_compute; congruence|apply not_elem_of_nil].
  - exact quiet_nil.
  - apply not_elem_of_nil.
  - reflexivity.
  - exists qempty. apply ps_one_inv. discriminate.
  - exists s'. split; [exact E|exact (ip_rep _ _ _ _ H)].
Defined.
