(* ===== verification/Fs.v ===== *)
(** * Fs: blocks, inodes, directories and paths

    Models kernel/fs.c over the buffer cache and the log.  On-disk
    structures are read and written through their layout in a block:
    [struct dinode] is 64 bytes (four shorts, the size and 13 block
    addresses), [struct dirent] 16 (an inode number and a name of DIRSIZ
    bytes).  In-memory inodes are slots of [fs_itable].  Paths and names
    are lists of bytes, the end of a list being the terminating NUL; the
    local [struct dirent] of [dirlookup] and [dirlink] is in the kernel
    stack of the process. *)

From S2P Require Import Prelude.
From S2P Require Import State.
From S2P Require Import Kernel.
From S2P Require Import Sched.
From S2P Require Import Mem.
From S2P Require Import Bio.
From S2P Require Import Log.
From S2P Require Import Vm.

(** ** Layout *)

Definition ld16 (l : list Z) (o : Z) : Z := aget 0 l o + 256 * aget 0 l (o + 1).
Definition st16 (l : list Z) (o v : Z) : list Z := aset (aset l o (v mod 256)) (o + 1) (v / 256 mod 256).

(** Replace the bytes of [l] from offset [o] by [d]. *)
Fixpoint splice (l : list Z) (o : Z) (d : list Z) : list Z :=
  match d with [] => l | x :: d' => splice (aset l o x) (o + 1) d' end.
Definition slice (l : list Z) (o n : Z) : list Z := take (Z.to_nat n) (drop (Z.to_nat o) l).

Definition DINODE_SIZE : Z := 64.
Definition IPB : Z := BSIZE / DINODE_SIZE.
Definition IBLOCK (i : Z) (sb : superblock) : Z := u32 (i / IPB + sb_inodestart sb).
Definition BPB : Z := BSIZE * 8.
Definition BBLOCK (b : Z) (sb : superblock) : Z := u32 (b / BPB + sb_bmapstart sb).
Definition DIRENT_SIZE : Z := 16.

(** The [dinode] at byte offset [o] of a block: its fields. *)
Record dinode := Dinode { d_type : Z; d_major : Z; d_minor : Z; d_nlink : Z; d_size : Z; d_addrs : list Z }.
Definition get_dinode (l : list Z) (o : Z) : dinode :=
  Dinode (i16 (ld16 l o)) (i16 (ld16 l (o + 2))) (i16 (ld16 l (o + 4))) (i16 (ld16 l (o + 6)))
    (ld32 l (o + 8)) ((fun i => ld32 l (o + 12 + 4 * Z.of_nat i)) <$> seq 0 13).
Fixpoint put_addrs (l : list Z) (o : Z) (addrs : list Z) : list Z :=
  match addrs with [] => l | a :: addrs' => put_addrs (st32 l o a) (o + 4) addrs' end.
Definition put_dinode (d : dinode) (o : Z) (l : list Z) : list Z :=
  let l := st16 l o (d_type d) in
  let l := st16 l (o + 2) (d_major d) in
  let l := st16 l (o + 4) (d_minor d) in
  let l := st16 l (o + 6) (d_nlink d) in
  let l := st32 l (o + 8) (d_size d) in
  put_addrs l (o + 12) (d_addrs d).
Definition dinode_off (inum : Z) : Z := inum mod IPB * DINODE_SIZE.

(** ** Access to the super block and the inode table *)

Definition get_sb : K superblock := kget (fun k => fs_sb (k_fs k)).
Definition inode_at (fs : fsstate) (i : nat) : inode := nth i (fs_itable fs) inode_zero.
Definition get_inode (i : nat) : K inode := kget (fun k => inode_at (k_fs k) i).
Definition upd_inode (i : nat) (f : inode -> inode) (fs : fsstate) : fsstate :=
  set_fs_itable (alter f i (fs_itable fs)) fs.
Definition mod_inode (i : nat) (f : inode -> inode) : K unit := mod_fs (upd_inode i f).
Definition mod_data (b : nat) (g : list Z -> list Z) : K unit :=
  mod_buf b (fun x => set_b_data (g (b_data x)) x).

Section fs.
Context `{D : Disk}.

(** ** Super block *)

Definition sb_of (l : list Z) : superblock :=
  SuperBlock (ld32 l 0) (ld32 l 4) (ld32 l 8) (ld32 l 12) (ld32 l 16) (ld32 l 20) (ld32 l 24) (ld32 l 28).
Definition readsb (dev : Z) : K unit :=
  bp ← bread dev 1;
  x ← get_buf bp;
  mod_fs (set_fs_sb (sb_of (b_data x)));;
  brelse bp.

Definition fsinit (dev : Z) : K unit :=
  readsb dev;;
  sb ← get_sb;
  if negb (sb_magic sb =? FSMAGIC) then panic "invalid file system" else
  initlog dev.

(** ** Blocks *)

Definition bzero (dev bno : Z) : K unit :=
  bp ← bread dev bno;
  mod_buf bp (set_b_data (replicate (Z.to_nat BSIZE) 0));;
  log_write bp;;
  brelse bp.

(** The first clear bit of a bitmap block from bit [bi] on, the block
    standing for the disk blocks from [b]; [n] bits are left to look at. *)
Definition bit_at (data : list Z) (bi : Z) : Z := Z.land (aget 0 data (bi / 8)) (Z.shiftl 1 (bi mod 8)).
Fixpoint balloc_scan (n : nat) (data : list Z) (bi b size : Z) : option Z :=
  match n with
  | O => None
  | S n' => if b + bi <? size
            then if bit_at data bi =? 0 then Some bi else balloc_scan n' data (bi + 1) b size
            else None
  end.
Definition set_bit (bi : Z) (data : list Z) : list Z :=
  aset data (bi / 8) (u8 (Z.lor (aget 0 data (bi / 8)) (Z.shiftl 1 (bi mod 8)))).
Definition clear_bit (bi : Z) (data : list Z) : list Z :=
  aset data (bi / 8) (u8 (Z.land (aget 0 data (bi / 8)) (Z.lnot (Z.shiftl 1 (bi mod 8))))).

Fixpoint balloc_loop (fuel : nat) (dev b : Z) : K Z :=
  sb ← get_sb;
  if b <? sb_size sb then
    match fuel with
    | O => hang
    | S f =>
      bp ← bread dev (BBLOCK b sb);
      x ← get_buf bp;
      match balloc_scan (Z.to_nat BPB) (b_data x) 0 b (sb_size sb) with
      | Some bi =>
        mod_data bp (set_bit bi);;
        log_write bp;;
        brelse bp;;
        bzero dev (b + bi);;
        mret (b + bi)
      | None =>
        brelse bp;;
        balloc_loop f dev (b + BPB)
      end
    end
  else
    printf_ "balloc: out of blocks
";;
    mret 0.
Definition balloc (dev : Z) : K Z :=
  sb ← get_sb;
  balloc_loop (Z.to_nat (sb_size sb / BPB + 1)) dev 0.

Definition bfree (dev b : Z) : K unit :=
  sb ← get_sb;
  bp ← bread dev (BBLOCK b sb);
  let bi := b mod BPB in
  x ← get_buf bp;
  if bit_at (b_data x) bi =? 0 then panic "freeing free block" else
  mod_data bp (clear_bit bi);;
  log_write bp;;
  brelse bp.

(** ** Inodes *)

Definition iinit : K unit := kfor (seq 0 NINODE) (fun i => initsleeplock (SL_inode i)).

(** The scan of [iget]: the slot of the inode, or the first empty slot. *)
Fixpoint iget_scan (l : list inode) (i : nat) (dev inum : Z) (empty : option nat) : option nat * option nat :=
  match l with
  | [] => (None, empty)
  | ip :: l' =>
    if (0 <? i_ref ip) && (i_dev ip =? dev) && (i_inum ip =? inum) then (Some i, empty)
    else iget_scan l' (S i) dev inum
           (match empty with
            | Some e => Some e
            | None => if i_ref ip =? 0 then Some i else None
            end)
  end.
Definition iget (dev inum : Z) : K nat :=
  acquire L_itable;;
  t ← kget (fun k => fs_itable (k_fs k));
  match iget_scan t 0 dev inum None with
  | (Some i, _) =>
    mod_inode i (fun ip => set_i_ref (i32 (i_ref ip + 1)) ip);;
    release L_itable;;
    mret i
  | (None, None) => panic "iget: no inodes"
  | (None, Some i) =>
    mod_inode i (set_i_dev dev);;
    mod_inode i (set_i_inum inum);;
    mod_inode i (set_i_ref 1);;
    mod_inode i (set_i_valid 0);;
    release L_itable;;
    mret i
  end.

Fixpoint ialloc_loop (fuel : nat) (dev type inum : Z) : K (option nat) :=
  sb ← get_sb;
  if inum <? sb_ninodes sb then
    match fuel with
    | O => hang
    | S f =>
      bp ← bread dev (IBLOCK inum sb);
      x ← get_buf bp;
      if d_type (get_dinode (b_data x) (dinode_off inum)) =? 0 then
        mod_data bp (fun l => splice l (dinode_off inum) (replicate (Z.to_nat DINODE_SIZE) 0));;
        mod_data bp (fun l => st16 l (dinode_off inum) type);;
        log_write bp;;
        brelse bp;;
        i ← iget dev inum;
        mret (Some i)
      else
        brelse bp;;
        ialloc_loop f dev type (inum + 1)
    end
  else
    printf_ "ialloc: no inodes
";;
    mret None.
Definition ialloc (dev type : Z) : K (option nat) :=
  sb ← get_sb;
  ialloc_loop (Z.to_nat (sb_ninodes sb)) dev type 1.

Definition dinode_of (ip : inode) : dinode :=
  Dinode (i_type ip) (i_major ip) (i_minor ip) (i_nlink ip) (i_size ip) (i_addrs ip).
Definition iupdate (i : nat) : K unit :=
  ip ← get_inode i;
  sb ← get_sb;
  bp ← bread (i_dev ip) (IBLOCK (i_inum ip) sb);
  ip ← get_inode i;
  mod_data bp (put_dinode (dinode_of ip) (dinode_off (i_inum ip)));;
  log_write bp;;
  brelse bp.

Definition idup (i : nat) : K nat :=
  acquire L_itable;;
  mod_inode i (fun ip => set_i_ref (i32 (i_ref ip + 1)) ip);;
  release L_itable;;
  mret i.

Definition ilock (oi : option nat) : K unit :=
  match oi with
  | None => panic "ilock"
  | Some i =>
    ip ← get_inode i;
    if i_ref ip <? 1 then panic "ilock" else
    acquiresleep (SL_inode i);;
    ip ← get_inode i;
    if i_valid ip =? 0 then
      sb ← get_sb;
      bp ← bread (i_dev ip) (IBLOCK (i_inum ip) sb);
      x ← get_buf bp;
      let d := get_dinode (b_data x) (dinode_off (i_inum ip)) in
      mod_inode i (set_i_type (d_type d));;
      mod_inode i (set_i_major (d_major d));;
      mod_inode i (set_i_minor (d_minor d));;
      mod_inode i (set_i_nlink (d_nlink d));;
      mod_inode i (set_i_size (d_size d));;
      mod_inode i (set_i_addrs (d_addrs d));;
      brelse bp;;
      mod_inode i (set_i_valid 1);;
      if d_type d =? 0 then panic "ilock: no type" else mret tt
    else mret tt
  end.

Definition iunlock (oi : option nat) : K unit :=
  match oi with
  | None => panic "iunlock"
  | Some i =>
    h ← holdingsleep (SL_inode i);
    ip ← get_inode i;
    if negb h || (i_ref ip <? 1) then panic "iunlock" else
    releasesleep (SL_inode i)
  end.

(** ** Inode content *)

Definition bmap (i : nat) (bn : Z) : K Z :=
  ip ← get_inode i;
  if bn <? NDIRECT then
    let addr := aget 0 (i_addrs ip) bn in
    if addr =? 0 then
      addr ← balloc (i_dev ip);
      if addr =? 0 then mret 0 else
      mod_inode i (fun ip => set_i_addrs (aset (i_addrs ip) bn addr) ip);;
      mret addr
    else mret addr
  else
    let bn := bn - NDIRECT in
    if bn <? NINDIRECT then
      addr ← (let addr := aget 0 (i_addrs ip) NDIRECT in
              if addr =? 0 then
                addr ← balloc (i_dev ip);
                kwhen (negb (addr =? 0))
                  (mod_inode i (fun ip => set_i_addrs (aset (i_addrs ip) NDIRECT addr) ip));;
                mret addr
              else mret addr);
      if addr =? 0 then mret 0 else
      bp ← bread (i_dev ip) addr;
      x ← get_buf bp;
      let addr := ld32 (b_data x) (4 * bn) in
      addr ← (if addr =? 0 then
                addr ← balloc (i_dev ip);
                kwhen (negb (addr =? 0))
                  (mod_data bp (fun l => st32 l (4 * bn) addr);; log_write bp);;
                mret addr
              else mret addr);
      brelse bp;;
      mret addr
    else panic "bmap: out of range".

Definition itrunc (i : nat) : K unit :=
  kfor (seq 0 (Z.to_nat NDIRECT)) (fun n =>
    ip ← get_inode i;
    kwhen (negb (aget 0 (i_addrs ip) (Z.of_nat n) =? 0))
      (bfree (i_dev ip) (aget 0 (i_addrs ip) (Z.of_nat n));;
       mod_inode i (fun ip => set_i_addrs (aset (i_addrs ip) (Z.of_nat n) 0) ip)));;
  ip ← get_inode i;
  kwhen (negb (aget 0 (i_addrs ip) NDIRECT =? 0))
    (bp ← bread (i_dev ip) (aget 0 (i_addrs ip) NDIRECT);
     kfor (seq 0 (Z.to_nat NINDIRECT)) (fun j =>
       x ← get_buf bp;
       let a := ld32 (b_data x) (4 * Z.of_nat j) in
       kwhen (negb (a =? 0)) (bfree (i_dev ip) a));;
     brelse bp;;
     bfree (i_dev ip) (aget 0 (i_addrs ip) NDIRECT);;
     mod_inode i (fun ip => set_i_addrs (aset (i_addrs ip) NDIRECT 0) ip));;
  mod_inode i (set_i_size 0);;
  iupdate i.

Definition iput (i : nat) : K unit :=
  acquire L_itable;;
  ip ← get_inode i;
  kwhen ((i_ref ip =? 1) && negb (i_valid ip =? 0) && (i_nlink ip =? 0))
    (acquiresleep (SL_inode i);;
     release L_itable;;
     itrunc i;;
     mod_inode i (set_i_type 0);;
     iupdate i;;
     mod_inode i (set_i_valid 0);;
     releasesleep (SL_inode i);;
     acquire L_itable);;
  mod_inode i (fun ip => set_i_ref (i32 (i_ref ip - 1)) ip);;
  release L_itable.

Definition iunlockput (i : nat) : K unit :=
  iunlock (Some i);;
  iput i.

(** [struct stat]. *)
Record stat := Stat { st_dev : Z; st_ino : Z; st_type : Z; st_nlink : Z; st_size : Z }.
Definition stati (ip : inode) : stat :=
  Stat (i_dev ip) (i_inum ip) (i_type ip) (i_nlink ip) (i_size ip).

(** Every iteration of the loops of [readi] and [writei] moves at least one
    byte. *)
Fixpoint readi_loop (fuel : nat) (i : nat) (user_dst : bool) (dst off n tot : Z) : K Z :=
  if tot <? n then
    match fuel with
    | O => hang
    | S f =>
      addr ← bmap i (off / BSIZE);
      if addr =? 0 then mret tot else
      ip ← get_inode i;
      bp ← bread (i_dev ip) addr;
      let m := Z.min (n - tot) (BSIZE - off mod BSIZE) in
      x ← get_buf bp;
      r ← either_copyout user_dst dst (slice (b_data x) (off mod BSIZE) m);
      if r =? -1 then brelse bp;; mret (-1) else
      brelse bp;;
      readi_loop f i user_dst (u64 (dst + m)) (u32 (off + m)) n (tot + m)
    end
  else mret tot.
Definition readi (i : nat) (user_dst : bool) (dst off n : Z) : K Z :=
  ip ← get_inode i;
  if (i_size ip <? off) || (u32 (off + n) <? off) then mret 0 else
  let n := if i_size ip <? u32 (off + n) then i_size ip - off else n in
  r ← readi_loop (Z.to_nat n) i user_dst dst off n 0;
  mret (i32 r).

(** The loop returns [tot] and [off]. *)
Fixpoint writei_loop (fuel : nat) (i : nat) (user_src : bool) (src off n tot : Z) : K (Z * Z) :=
  if tot <? n then
    match fuel with
    | O => hang
    | S f =>
      addr ← bmap i (off / BSIZE);
      if addr =? 0 then mret (tot, off) else
      ip ← get_inode i;
      bp ← bread (i_dev ip) addr;
      let m := Z.min (n - tot) (BSIZE - off mod BSIZE) in
      r ← either_copyin user_src src m;
      mod_data bp (fun l => splice l (off mod BSIZE) (snd r));;
      if fst r =? -1 then brelse bp;; mret (tot, off) else
      log_write bp;;
      brelse bp;;
      writei_loop f i user_src (u64 (src + m)) (u32 (off + m)) n (tot + m)
    end
  else mret (tot, off).
Definition writei (i : nat) (user_src : bool) (src off n : Z) : K Z :=
  ip ← get_inode i;
  if (i_size ip <? off) || (u32 (off + n) <? off) then mret (-1) else
  if MAXFILE * BSIZE <? u32 (off + n) then mret (-1) else
  r ← writei_loop (Z.to_nat n) i user_src src off n 0;
  kwhen (i_size ip <? snd r) (mod_inode i (set_i_size (snd r)));;
  iupdate i;;
  mret (i32 (fst r)).

(** ** Directories *)

(** [strncmp] and [strncpy] on lists of bytes. *)
Fixpoint strncmp_list (n : nat) (p q : list Z) : Z :=
  match n with
  | O => 0
  | S n' => let a := hd 0 p in
            let b := hd 0 q in
            if negb (a =? 0) && (a =? b) then strncmp_list n' (tl p) (tl q) else a - b
  end.
Fixpoint strncpy_list (n : nat) (t : list Z) : list Z :=
  match n with
  | O => []
  | S n' => let c := hd 0 t in
            if c =? 0 then replicate n 0 else c :: strncpy_list n' (tl t)
  end.
Definition namecmp (s t : list Z) : Z := strncmp_list (Z.to_nat DIRSIZ) s t.

(** The address of the local variable [de]. *)
Definition de_addr : K Z := p ← curproc; pr ← get_proc p; mret (p_kstack pr + PGSIZE - 64).
Definition de_bytes (de : Z) : K (list Z) := kget (fun k => bytes (pm_mem (k_pm k)) de 16).
Definition de_inum (l : list Z) : Z := ld16 l 0.
Definition de_name (l : list Z) : list Z := drop 2 l.

(** The entry found: its inode and the offset stored in [*poff]. *)
Fixpoint dirlookup_loop (fuel : nat) (dp : nat) (name : list Z) (de off : Z) : K (option (nat * Z)) :=
  ip ← get_inode dp;
  if off <? i_size ip then
    match fuel with
    | O => hang
    | S f =>
      r ← readi dp false de off DIRENT_SIZE;
      if negb (r =? DIRENT_SIZE) then panic "dirlookup read" else
      l ← de_bytes de;
      if de_inum l =? 0 then dirlookup_loop f dp name de (u32 (off + DIRENT_SIZE))
      else if namecmp name (de_name l) =? 0 then
        i ← iget (i_dev ip) (de_inum l);
        mret (Some (i, off))
      else dirlookup_loop f dp name de (u32 (off + DIRENT_SIZE))
    end
  else mret None.
Definition dirlookup (dp : nat) (name : list Z) : K (option (nat * Z)) :=
  ip ← get_inode dp;
  if negb (i_type ip =? T_DIR) then panic "dirlookup not DIR" else
  de ← de_addr;
  dirlookup_loop (Z.to_nat (i_size ip)) dp name de 0.

(** The offset of the first empty entry, or the size. *)
Fixpoint dirlink_loop (fuel : nat) (dp : nat) (de off : Z) : K Z :=
  ip ← get_inode dp;
  if off <? i_size ip then
    match fuel with
    | O => hang
    | S f =>
      r ← readi dp false de off DIRENT_SIZE;
      if negb (r =? DIRENT_SIZE) then panic "dirlink read" else
      l ← de_bytes de;
      if de_inum l =? 0 then mret off else dirlink_loop f dp de (off + DIRENT_SIZE)
    end
  else mret off.
Definition dirlink (dp : nat) (name : list Z) (inum : Z) : K Z :=
  r ← dirlookup dp name;
  match r with
  | Some (i, _) => iput i;; mret (-1)
  | None =>
    ip ← get_inode dp;
    de ← de_addr;
    off ← dirlink_loop (Z.to_nat (i_size ip)) dp de 0;
    kstore_bytes (de + 2) (strncpy_list (Z.to_nat DIRSIZ) name);;
    kstore_bytes de [inum mod 256; inum / 256 mod 256];;
    r ← writei dp false de off DIRENT_SIZE;
    if negb (r =? DIRENT_SIZE) then mret (-1) else mret 0
  end.

(** ** Paths *)

Definition SLASH : Z := 47.

Fixpoint skip_slashes (path : list Z) : list Z :=
  match path with
  | c :: path' => if c =? SLASH then skip_slashes path' else path
  | [] => []
  end.
(** The element up to the next slash or the end, and the rest. *)
Fixpoint take_elem (path : list Z) : list Z * list Z :=
  match path with
  | c :: path' => if (c =? SLASH) || (c =? 0) then ([], path)
                  else let r := take_elem path' in (c :: fst r, snd r)
  | [] => ([], [])
  end.
(** The rest of the path and the new content of [name]; [None] is the null
    pointer. *)
Definition skipelem (path name : list Z) : option (list Z * list Z) :=
  let path := skip_slashes path in
  if hd 0 path =? 0 then None else
  let '(s, path) := take_elem path in
  let len := Z.of_nat (length s) in
  let name := if DIRSIZ <=? len then splice name 0 (take (Z.to_nat DIRSIZ) s)
              else aset (splice name 0 s) len 0 in
  Some (skip_slashes path, name).

Fixpoint namex_loop (fuel : nat) (ip : nat) (path name : list Z) (nameiparent : bool) :
    K (option nat * list Z) :=
  match skipelem path name with
  | None =>
    if nameiparent then iput ip;; mret (None, name) else mret (Some ip, name)
  | Some (path, name) =>
    match fuel with
    | O => hang
    | S f =>
      ilock (Some ip);;
      x ← get_inode ip;
      if negb (i_type x =? T_DIR) then iunlockput ip;; mret (None, name) else
      if nameiparent && (hd 0 path =? 0) then iunlock (Some ip);; mret (Some ip, name) else
      next ← dirlookup ip name;
      match next with
      | None => iunlockput ip;; mret (None, name)
      | Some (next, _) => iunlockput ip;; namex_loop f next path name nameiparent
      end
    end
  end.
(** The inode, and the content of the caller's [name] afterwards. *)
Definition namex (path : list Z) (nameiparent : bool) (name : list Z) : K (option nat * list Z) :=
  ip ← (if hd 0 path =? SLASH then iget ROOTDEV ROOTINO
        else p ← curproc;
             pr ← get_proc p;
             match p_cwd pr with Some i => idup i | None => panic "kerneltrap" end);
  namex_loop (length path) ip path name nameiparent.

Definition name_zero : list Z := replicate (Z.to_nat DIRSIZ) 0.
Definition namei (path : list Z) : K (option nat) :=
  r ← namex path false name_zero;
  mret (fst r).
Definition nameiparent (path name : list Z) : K (option nat * list Z) := namex path true name.
End fs.
