(* ===== verification/FsProps.v ===== *)
(** * FsProps: blocks of the file system

    Theorems about the block layer of fs.c ([bzero], [balloc], [bfree])
    inside a transaction.  The free bitmap on disk is read as the set of
    blocks in use: [in_use V sb b] is the bit of block [b] when the blocks
    have the contents [V]. *)

From S2P Require Import Prelude.
From S2P Require Import State.
From S2P Require Import Kernel.
From S2P Require Import Sched.
From S2P Require Import SchedInv.
From S2P Require Import SchedProps.
From S2P Require Import Bio.
From S2P Require Import FsRun.
From S2P Require Import BioProps.
From S2P Require Import Log.
From S2P Require Import LogProps.
From S2P Require Import LogCrash.
From S2P Require Import Txn.
From S2P Require Import Fs.

(** ** Bits of a bitmap block *)

Definition used (data : list Z) (bi : Z) : bool := Z.testbit (aget 0 data (bi / 8)) (bi mod 8).

Lemma bit_range bi : 0 <= bi mod 8 < 8.
Proof. apply Z.mod_pos_bound. lia. Qed.

Lemma bit_at_used data bi : (bit_at data bi =? 0) = negb (used data bi).
Proof.
  unfold bit_at, used. pose proof (bit_range bi) as Hr. set (a := aget 0 data (bi / 8)). set (k := bi mod 8) in *.
  rewrite Z.shiftl_1_l. destruct (Z.testbit a k) eqn:E; cbn [negb].
  - apply Z.eqb_neq. intros E0. assert (Z.testbit (Z.land a (2 ^ k)) k = true) as H.
    { rewrite Z.land_spec, E, Z.pow2_bits_true by lia. done. }
    by rewrite E0, Z.bits_0 in H.
  - apply Z.eqb_eq, Z.bits_inj_0. intros n. rewrite Z.land_spec, Z.pow2_bits_eqb by lia.
    destruct (Z.eqb_spec k n) as [<-|]; [by rewrite E|apply andb_false_r].
Qed.

Lemma u8_testbit x n : 0 <= n < 8 -> Z.testbit (u8 x) n = Z.testbit x n.
Proof. intros H. apply Z.mod_pow2_bits_low. lia. Qed.

Section bit.
Context (data : list Z) (bi bj : Z).
Hypothesis (Hi : 0 <= bi < 8 * Z.of_nat (length data)) (Hj : 0 <= bj).

(** A bit of the byte of [bi] after it was replaced. *)
Lemma used_aset v : used (aset data (bi / 8) v) bj =
  if decide (bi / 8 = bj / 8) then Z.testbit v (bj mod 8) else used data bj.
Proof.
  unfold used. rewrite aget_aset; [by case_decide|split; [apply Z.div_pos; lia|apply Z.div_lt_upper_bound; lia]|].
  apply Z.div_pos; lia.
Qed.

Lemma same_bit : bi / 8 = bj / 8 -> (bi mod 8 =? bj mod 8) = (bi =? bj).
Proof. intros E. destruct (Z.eqb_spec (bi mod 8) (bj mod 8)), (Z.eqb_spec bi bj); zlia. Qed.

Lemma used_set_bit : used (set_bit bi data) bj = used data bj || (bi =? bj).
Proof.
  pose proof (bit_range bi). pose proof (bit_range bj). unfold set_bit. rewrite used_aset.
  destruct (decide (bi / 8 = bj / 8)) as [E|E].
  - rewrite u8_testbit by done. rewrite Z.lor_spec, Z.shiftl_1_l, Z.pow2_bits_eqb by lia.
    rewrite same_bit by done. unfold used. by rewrite E.
  - destruct (Z.eqb_spec bi bj) as [->|_]; [done|]. by rewrite orb_false_r.
Qed.

Lemma used_clear_bit : used (clear_bit bi data) bj = used data bj && negb (bi =? bj).
Proof.
  pose proof (bit_range bi). pose proof (bit_range bj). unfold clear_bit. rewrite used_aset.
  destruct (decide (bi / 8 = bj / 8)) as [E|E].
  - rewrite u8_testbit by done. rewrite Z.land_spec, Z.lnot_spec, Z.shiftl_1_l, Z.pow2_bits_eqb by lia.
    rewrite same_bit by done. unfold used. by rewrite E.
  - destruct (Z.eqb_spec bi bj) as [->|_]; [done|]. by rewrite andb_true_r.
Qed.
End bit.

(** The scan of a bitmap block finds the first clear bit. *)
Lemma balloc_scan_spec data b size : forall n bi,
  match balloc_scan n data bi b size with
  | Some bj => bi <= bj < bi + Z.of_nat n /\ b + bj < size /\ used data bj = false /\
               forall k, bi <= k < bj -> used data k = true
  | None => forall k, bi <= k < bi + Z.of_nat n -> b + k < size -> used data k = true
  end.
Proof.
  induction n as [|n IH]; intros bi; cbn [balloc_scan]; [intros; lia|].
  destruct (Z.ltb_spec (b + bi) size) as [Hlt|Hge]; [|intros; lia].
  rewrite bit_at_used. destruct (used data bi) eqn:E; cbn [negb].
  - specialize (IH (bi + 1)). destruct (balloc_scan n data (bi + 1) b size) as [bj|].
    + destruct IH as (? & ? & ? & Hk). split_and!; try lia; [done|].
      intros k Hk'. destruct (decide (k = bi)) as [->|]; [done|]. apply Hk. lia.
    + intros k Hk Hs. destruct (decide (k = bi)) as [->|]; [done|]. apply IH; lia.
  - split_and!; try lia; done.
Qed.

(** ** Blocks in a transaction *)

Lemma fsr_printf p pid h s fs : L_pr ∉ h -> fsr p pid h (printf_ s) fs tt h fs.
Proof.
  intros Hh w Hc Hf. pose proof (cx_held _ _ _ _ Hc) as Eh.
  rewrite printf_ok by (by rewrite Eh). eexists. split; [done|]. split; [done|]. cbn [with_k w_k].
  destruct Hc as [H1 H2 H3 H4 H5]. split; [by split|]. split; [|done].
  exists (k_ps (w_k w)), (k_thr (w_k w) ++ bytes_of_string s), (k_fs (w_k w)), (k_held (w_k w)). by destruct (w_k w).
Qed.

Section blocks.
Context (p : nat) (pid start : Z).
Implicit Types (V : Z -> list Z) (B : list Z) (Hs : gset Z).

(** A held buffer is modified, logged and released, before [k] runs. *)
Lemma tx_put fs V B Hs i b g : txn pid start fs V B ({[b]} ∪ Hs) -> b ∉ Hs -> is_buf fs i b ->
  b_data (buf_at fs i) = V b -> (length B < 29)%nat ->
  exists fs', fsr p pid [] (mod_data i g;; log_write i;; brelse i) fs tt [] fs' /\
    (forall A (k : K A) a fs2, fsr p pid [] k fs' a [] fs2 ->
       fsr p pid [] (mod_data i g;; log_write i;; brelse i;; k) fs a [] fs2) /\
    txn pid start fs' (dset V b (g (V b))) (logged B b) Hs /\
    bufs_kept Hs fs fs' /\ tx_same fs fs' /\ fs_log fs' = log_after (fs_log fs) B b.
Proof.
  intros T Hb Bi Hd HB.
  destruct (tx_log_write p pid start fs V B _ i b (g (V b)) T) as (fs2 & R2 & T2 & B2 & S2 & E2);
    [by apply elem_of_union_l, elem_of_singleton|done|done|].
  destruct (tx_brelse p pid start fs2 _ _ _ i b T2) as (fs3 & R3 & T3 & B3 & S3 & E3);
    [by apply elem_of_union_l, elem_of_singleton|by apply B2|].
  assert (fsr p pid [] (mod_data i g) fs tt [] (upd_buf i (set_b_data (g (V b))) fs)) as R1.
  { eapply fsr_eq; [apply fsr_mod_buf|]. rewrite <- Hd. apply upd_data_const; [done|].
    destruct T as [(L & I) _ _ _ _]. rewrite (bi_len _ _ _ _ _ _ I). destruct Bi. lia. }
  exists fs3. split_and!.
  - eapply fsr_bind; [exact R1|]. eapply fsr_bind; [exact R2|exact R3].
  - intros A k a fs4 Rk. eapply fsr_bind; [exact R1|]. eapply fsr_bind; [exact R2|].
    eapply fsr_bind; [exact R3|exact Rk].
  - by rewrite hold_release in T3 by done.
  - intros j x Hx Hj. by apply B3, B2.
  - by eapply tx_same_trans.
  - by rewrite E3.
Qed.

(** [bread], and [brelse] of the unmodified buffer. *)
Lemma tx_peek `{D : Disk} `{!DiskOk D} fs V B Hs b : txn pid start fs V B Hs -> b ∉ Hs ->
  (length B + size Hs < NBUF)%nat ->
  exists i fs1 fs2, fsr p pid [] (bread ROOTDEV b) fs i [] fs1 /\ is_buf fs1 i b /\ b_data (buf_at fs1 i) = V b /\
    txn pid start fs1 V B ({[b]} ∪ Hs) /\ bufs_kept Hs fs fs1 /\ tx_same fs fs1 /\ fs_log fs1 = fs_log fs /\
    fsr p pid [] (brelse i) fs1 tt [] fs2 /\ txn pid start fs2 V B Hs /\
    bufs_kept Hs fs fs2 /\ tx_same fs fs2 /\ fs_log fs2 = fs_log fs.
Proof.
  intros T Hb Hn. destruct (tx_bread p pid start fs V B Hs b T Hb Hn) as (i & fs1 & R1 & T1 & B1 & D1 & K1 & S1 & E1).
  destruct (tx_brelse p pid start fs1 _ _ _ i b T1) as (fs2 & R2 & T2 & B2 & S2 & E2);
    [by apply elem_of_union_l, elem_of_singleton|done|].
  exists i, fs1, fs2. split_and!; try done.
  - by rewrite hold_release in T2 by done.
  - intros j x Hx Hj. by apply B2, K1.
  - by eapply tx_same_trans.
  - by rewrite E2.
Qed.

Lemma bzero_ok `{D : Disk} `{!DiskOk D} fs V B Hs b : txn pid start fs V B Hs -> b ∉ Hs ->
  (length B + size Hs < NBUF)%nat -> (length B < 29)%nat ->
  exists fs', fsr p pid [] (bzero ROOTDEV b) fs tt [] fs' /\
    txn pid start fs' (dset V b zero_block) (logged B b) Hs /\
    bufs_kept Hs fs fs' /\ tx_same fs fs' /\ fs_log fs' = log_after (fs_log fs) B b.
Proof.
  intros T Hb Hn HB. destruct (tx_bread p pid start fs V B Hs b T Hb Hn) as (i & fs1 & R1 & T1 & B1 & D1 & K1 & S1 & E1).
  destruct (tx_put fs1 V B Hs i b (fun _ => zero_block) T1 Hb B1 D1 HB) as (fs2 & R2 & _ & T2 & K2 & S2 & E2).
  exists fs2. split_and!.
  - eapply fsr_bind; [exact R1|exact R2].
  - exact T2.
  - eapply bufs_kept_trans; [|exact K1|exact K2]. done.
  - by eapply tx_same_trans.
  - by rewrite E2, E1.
Qed.

(** *** The bitmap *)

Record sb_ok (sb : superblock) : Prop := {
  so_size : 0 <= sb_size sb < 2 ^ 31;
  so_bmap : 0 <= sb_bmapstart sb;
  so_end : sb_size sb / BPB + sb_bmapstart sb < 2 ^ 31
}.

Definition in_use V (sb : superblock) (b : Z) : bool := used (V (BBLOCK b sb)) (b mod BPB).

(** The contents after [balloc] of block [b] and after [bfree] of it. *)
Definition alloc_view V (sb : superblock) (b : Z) : Z -> list Z :=
  dset (dset V (BBLOCK b sb) (set_bit (b mod BPB) (V (BBLOCK b sb)))) b zero_block.
Definition free_view V (sb : superblock) (b : Z) : Z -> list Z :=
  dset V (BBLOCK b sb) (clear_bit (b mod BPB) (V (BBLOCK b sb))).

Lemma BBLOCK_add sb k bi : 0 <= bi < BPB -> BBLOCK (k * BPB + bi) sb = BBLOCK (k * BPB) sb /\ (k * BPB + bi) mod BPB = bi.
Proof. unfold BBLOCK, BPB, BSIZE. intros H. split; [do 2 f_equal; zlia|zlia]. Qed.

(** What [balloc] returns: 0 with nothing changed when every block is in
    use, and otherwise the first block that is not. *)
Definition balloc_post (sb : superblock) fs V B Hs (from r : Z) fs' : Prop :=
  bufs_kept Hs fs fs' /\ tx_same fs fs' /\
  ((forall b, from <= b < sb_size sb -> in_use V sb b = true) /\ r = 0 /\
     txn pid start fs' V B Hs /\ fs_log fs' = fs_log fs \/
   from <= r < sb_size sb /\ in_use V sb r = false /\ (forall b, from <= b < r -> in_use V sb b = true) /\
     txn pid start fs' (alloc_view V sb r) (logged (logged B (BBLOCK r sb)) r) Hs /\
     fs_log fs' = log_after (log_after (fs_log fs) B (BBLOCK r sb)) (logged B (BBLOCK r sb)) r).

Section balloc.
Context `{D : Disk} `{!DiskOk D} (sb : superblock) (V : Z -> list Z) (B : list Z) (Hs : gset Z).
Hypothesis Hfree : forall b, 0 <= b < sb_size sb -> (BBLOCK b sb ∉ Hs) /\ (in_use V sb b = false -> b ∉ Hs).
Hypothesis Hroom : (length B + size Hs + 1 < NBUF)%nat.
Hypothesis HB : (length B < 28)%nat.

Lemma balloc_loop_ok : forall fuel fs k, fs_sb fs = sb -> txn pid start fs V B Hs -> 0 <= k ->
  sb_size sb - k * BPB <= Z.of_nat fuel * BPB ->
  exists r fs', fsr p pid [] (balloc_loop fuel ROOTDEV (k * BPB)) fs r [] fs' /\
    balloc_post sb fs V B Hs (k * BPB) r fs'.
Proof.
  induction fuel as [|fuel IH]; intros fs k Esb T Hk Hf.
  all: destruct (Z.ltb_spec (k * BPB) (sb_size sb)) as [Hlt|Hge]; try lia.
  1,3: exists 0, fs; split; [cbn [balloc_loop]; eapply fsr_bind; [apply (fsr_get p pid [] fs_sb)|]; rewrite Esb, (proj2 (Z.ltb_ge _ _)) by done;
    eapply fsr_bind; [apply fsr_printf, not_elem_of_nil|apply fsr_ret]|];
    split; [by intros ??|]; split; [by apply tx_same_refl|]; left; split; [intros; lia|done].
  assert (0 <= k * BPB < sb_size sb) as Hb by (unfold BPB, BSIZE in *; lia).
  destruct (tx_peek fs V B Hs (BBLOCK (k * BPB) sb) T) as
    (i & fs1 & fs2 & R1 & B1 & D1 & T1 & K1 & S1 & E1 & R2 & T2 & K2 & S2 & E2); [exact (proj1 (Hfree _ Hb))|lia|].
  pose proof (balloc_scan_spec (V (BBLOCK (k * BPB) sb)) (k * BPB) (sb_size sb) (Z.to_nat BPB) 0) as Hsc.
  assert (forall r h fs', fsr p pid [] (match balloc_scan (Z.to_nat BPB) (V (BBLOCK (k * BPB) sb)) 0 (k * BPB) (sb_size sb) with
      | Some bi => mod_data i (set_bit bi);; log_write i;; brelse i;; bzero ROOTDEV (k * BPB + bi);; mret (k * BPB + bi)
      | None => brelse i;; balloc_loop fuel ROOTDEV (k * BPB + BPB) end) fs1 r h fs' ->
    fsr p pid [] (balloc_loop (S fuel) ROOTDEV (k * BPB)) fs r h fs') as Hrun.
  { intros r h fs' R. cbn [balloc_loop]. eapply fsr_bind; [apply (fsr_get p pid [] fs_sb)|]. rewrite Esb.
    rewrite (proj2 (Z.ltb_lt _ _)) by done. eapply fsr_bind; [exact R1|]. eapply fsr_bind; [apply fsr_get_buf|].
    rewrite D1. exact R. }
  destruct (balloc_scan _ _ _ _ _) as [bi|].
  - destruct Hsc as (Hbi & Hs' & Hu & Hall). rewrite Z2Nat.id in Hbi by done.
    destruct (BBLOCK_add sb k bi) as [EB Em]; [lia|].
    assert (in_use V sb (k * BPB + bi) = false) as Hiu by (unfold in_use; by rewrite EB, Em).
    destruct (Hfree (k * BPB + bi)) as [_ Hbf]; [lia|]. specialize (Hbf Hiu).
    destruct (tx_put fs1 V B Hs i _ (set_bit bi) T1) as (fs3 & _ & R3 & T3 & K3 & S3 & E3);
      [exact (proj1 (Hfree _ Hb))|done|done|lia|].
    pose proof (length_logged B (BBLOCK (k * BPB) sb)).
    destruct (bzero_ok fs3 _ _ Hs (k * BPB + bi) T3 Hbf) as (fs4 & R4 & T4 & K4 & S4 & E4); [lia|lia|].
    exists (k * BPB + bi), fs4. split.
    + apply Hrun, R3. eapply fsr_bind; [exact R4|apply fsr_ret].
    + split; [apply (bufs_kept_trans Hs Hs _ fs3); [done| |done]; by apply (bufs_kept_trans Hs Hs _ fs1)|].
      split; [apply (tx_same_trans _ fs3); [|done]; by apply (tx_same_trans _ fs1)|]. right. split_and!; try lia; [done| | |].
      * intros b Hb'. destruct (BBLOCK_add sb k (b - k * BPB)) as [EB' Em']; [lia|].
        replace (k * BPB + (b - k * BPB)) with b in * by lia. unfold in_use. rewrite EB', Em'. apply Hall. lia.
      * unfold alloc_view. rewrite EB, Em. exact T4.
      * by rewrite EB, E4, E3, E1.
  - destruct (IH fs2 (k + 1)) as (r & fs' & R & Kp & Sm & Hr); [by rewrite (ts_sb _ _ S2)|done|lia|lia|].
    assert (forall b, k * BPB <= b < k * BPB + BPB -> b < sb_size sb -> in_use V sb b = true) as Hall.
    { intros b Hb1 Hb2. destruct (BBLOCK_add sb k (b - k * BPB)) as [EB' Em']; [lia|].
      replace (k * BPB + (b - k * BPB)) with b in * by lia. unfold in_use. rewrite EB', Em'. apply Hsc; [|lia].
      rewrite Z2Nat.id by done. lia. }
    replace (k * BPB + BPB) with ((k + 1) * BPB) in * by lia.
    assert (forall b, k * BPB <= b -> b < (k + 1) * BPB \/ (k + 1) * BPB <= b) as Hcase by lia.
    exists r, fs'. split; [apply Hrun; eapply fsr_bind; [exact R2|exact R]|].
    split; [eapply bufs_kept_trans; [|exact K2|exact Kp]; done|]. split; [by eapply tx_same_trans|].
    destruct Hr as [(Ha & Er & Tr & El)|(Hr & Hiu & Ha & Tr & El)].
    + left. split_and!; [|done|done|by rewrite El]. intros b Hb1.
      destruct (Hcase b) as [?|?]; [lia|apply Hall; lia|apply Ha; lia].
    + right. split_and!; [unfold BPB, BSIZE in *; lia|lia|done| |done|by rewrite El, E2]. intros b Hb1.
      destruct (Hcase b) as [?|?]; [lia|apply Hall; lia|apply Ha; lia].
Qed.

Lemma balloc_ok fs : fs_sb fs = sb -> 0 <= sb_size sb -> txn pid start fs V B Hs ->
  exists r fs', fsr p pid [] (balloc ROOTDEV) fs r [] fs' /\ balloc_post sb fs V B Hs 0 r fs'.
Proof.
  intros Esb Hsz T.
  destruct (balloc_loop_ok (Z.to_nat (sb_size sb / BPB + 1)) fs 0 Esb T) as (r & fs' & R & H); [lia| |].
  { rewrite Z2Nat.id by (unfold BPB, BSIZE; zlia). unfold BPB, BSIZE. zlia. }
  exists r, fs'. split; [|exact H]. unfold balloc. eapply fsr_bind; [apply (fsr_get p pid [] fs_sb)|].
  rewrite Esb. exact R.
Qed.

(** [bfree] up to the test of the bit. *)
Lemma bfree_start fs b : fs_sb fs = sb -> txn pid start fs V B Hs -> 0 <= b < sb_size sb ->
  exists i fs1, fsr p pid [] (bread ROOTDEV (BBLOCK b sb)) fs i [] fs1 /\ is_buf fs1 i (BBLOCK b sb) /\
    b_data (buf_at fs1 i) = V (BBLOCK b sb) /\ txn pid start fs1 V B ({[BBLOCK b sb]} ∪ Hs) /\
    bufs_kept Hs fs fs1 /\ tx_same fs fs1 /\ fs_log fs1 = fs_log fs.
Proof.
  intros Esb T Hb.
  destruct (tx_peek fs V B Hs (BBLOCK b sb) T) as (i & fs1 & fs2 & R1 & B1 & D1 & T1 & K1 & S1 & E1 & _);
    [exact (proj1 (Hfree _ Hb))|lia|].
  exists i, fs1. by split_and!.
Qed.

Lemma bfree_ok fs b : fs_sb fs = sb -> txn pid start fs V B Hs -> 0 <= b < sb_size sb -> in_use V sb b = true ->
  exists fs', fsr p pid [] (bfree ROOTDEV b) fs tt [] fs' /\
    txn pid start fs' (free_view V sb b) (logged B (BBLOCK b sb)) Hs /\
    bufs_kept Hs fs fs' /\ tx_same fs fs' /\ fs_log fs' = log_after (fs_log fs) B (BBLOCK b sb).
Proof.
  intros Esb T Hb Hu. destruct (bfree_start fs b Esb T Hb) as (i & fs1 & R1 & B1 & D1 & T1 & K1 & S1 & E1).
  destruct (tx_put fs1 V B Hs i _ (clear_bit (b mod BPB)) T1) as (fs2 & R2 & _ & T2 & K2 & S2 & E2);
    [exact (proj1 (Hfree _ Hb))|done|done|lia|].
  exists fs2. split_and!; [|done|by apply (bufs_kept_trans Hs Hs _ fs1)|by apply (tx_same_trans _ fs1)|by rewrite E2, E1].
  unfold bfree. eapply fsr_bind; [apply (fsr_get p pid [] fs_sb)|]. rewrite Esb. eapply fsr_bind; [exact R1|].
  eapply fsr_bind; [apply fsr_get_buf|]. rewrite D1, bit_at_used.
  unfold in_use in Hu. rewrite Hu. cbn [negb]. exact R2.
Qed.

Lemma bfree_panics fs b w : fs_sb fs = sb -> txn pid start fs V B Hs -> 0 <= b < sb_size sb -> in_use V sb b = false ->
  ctx p pid [] (w_k w) -> k_fs (w_k w) = fs -> exists w', bfree ROOTDEV b w = Panic "freeing free block" w'.
Proof.
  intros Esb T Hb Hu Hc Hf. destruct (bfree_start fs b Esb T Hb) as (i & fs1 & R1 & B1 & D1 & _).
  destruct (R1 w Hc Hf) as (w1 & E1 & _ & Hc1 & _ & Hf1). exists w1.
  unfold bfree, get_sb. kstep. rewrite Hf, Esb. rewrite (bind_ret _ _ _ _ _ E1). unfold get_buf. kstep.
  rewrite Hf1, D1, bit_at_used. unfold in_use in Hu. rewrite Hu. done.
Qed.
End balloc.
End blocks.

(** ** The bitmap as a set of blocks *)

(** The bitmap blocks are whole blocks, and not among the blocks that can
    be allocated. *)
Record bitmap_ok (V : Z -> list Z) (sb : superblock) : Prop := {
  bo_sb : sb_ok sb;
  bo_len : forall b, 0 <= b < sb_size sb -> length (V (BBLOCK b sb)) = Z.to_nat BSIZE;
  bo_own : forall b b', 0 <= b < sb_size sb -> 0 <= b' < sb_size sb -> in_use V sb b = false -> b <> BBLOCK b' sb
}.

Lemma BBLOCK_inj sb b b' : sb_ok sb -> 0 <= b < sb_size sb -> 0 <= b' < sb_size sb ->
  BBLOCK b sb = BBLOCK b' sb -> b mod BPB = b' mod BPB -> b = b'.
Proof.
  intros [Hs Hm He] Hb Hb'. unfold BBLOCK.
  assert (forall c, 0 <= c < sb_size sb -> 0 <= c / BPB + sb_bmapstart sb < 2 ^ 32) as Hr.
  { intros c Hc. unfold BPB, BSIZE in *. change (2 ^ 32) with 4294967296. change (2 ^ 31) with 2147483648 in *. zlia. }
  rewrite !u32_small by auto. unfold BPB, BSIZE. intros. zlia.
Qed.

Lemma bit_index b : 0 <= b mod BPB < 8 * BSIZE.
Proof. unfold BPB, BSIZE. zlia. Qed.

Lemma in_use_set V sb f b b' g : sb_ok sb -> 0 <= b < sb_size sb -> 0 <= b' < sb_size sb ->
  length (V (BBLOCK b sb)) = Z.to_nat BSIZE ->
  (forall data bi bj, 0 <= bi < 8 * Z.of_nat (length data) -> 0 <= bj -> used (f bi data) bj = g (used data bj) (bi =? bj)) ->
  (forall u, g u false = u) ->
  in_use (dset V (BBLOCK b sb) (f (b mod BPB) (V (BBLOCK b sb)))) sb b' = g (in_use V sb b') (b =? b').
Proof.
  intros Hsb Hb Hb' Hl Hf Hg. unfold in_use, dset. pose proof (bit_index b). pose proof (bit_index b').
  destruct (Z.eqb_spec (BBLOCK b' sb) (BBLOCK b sb)) as [E|E].
  - rewrite Hf by (rewrite ?Hl, ?Z2Nat.id by done; lia). rewrite E. f_equal.
    destruct (Z.eqb_spec (b mod BPB) (b' mod BPB)) as [Em|Em], (Z.eqb_spec b b') as [->|Ne]; try done.
    destruct Ne. by apply (BBLOCK_inj sb).
  - destruct (Z.eqb_spec b b') as [->|Ne]; [done|]. by rewrite Hg.
Qed.

Lemma in_use_alloc V sb b b' : bitmap_ok V sb -> 0 <= b < sb_size sb -> 0 <= b' < sb_size sb ->
  in_use V sb b = false -> in_use (alloc_view V sb b) sb b' = in_use V sb b' || (b =? b').
Proof.
  intros [Hsb Hl Ho] Hb Hb' Hf.
  rewrite <- (in_use_set V sb set_bit b b' orb Hsb Hb Hb' (Hl b Hb));
    [|intros; by apply used_set_bit|by intros []].
  unfold alloc_view, in_use. by rewrite (dset_ne _ b) by (intros E; by apply (Ho b b')).
Qed.

Lemma in_use_free V sb b b' : bitmap_ok V sb -> 0 <= b < sb_size sb -> 0 <= b' < sb_size sb ->
  in_use (free_view V sb b) sb b' = in_use V sb b' && negb (b =? b').
Proof.
  intros [Hsb Hl Ho] Hb Hb'.
  apply (in_use_set V sb clear_bit b b' (fun u c => u && negb c) Hsb Hb Hb' (Hl b Hb));
    [intros; by apply used_clear_bit|by intros []].
Qed.

(** ** Theorems *)

(** [balloc] in a transaction allocates the first block that the bitmap
    does not mark as used: it returns it filled with zeros, marks exactly
    this block as used, and changes no other block; when all blocks are in
    use it returns 0 and changes nothing.  It never reports a block in use
    as free, and logs at most two blocks. *)
Theorem balloc_correct (D : Disk) p pid start fs V B Hs sb : DiskOk D ->
  txn pid start fs V B Hs -> fs_sb fs = sb -> bitmap_ok V sb ->
  (forall b, 0 <= b < sb_size sb -> (BBLOCK b sb ∉ Hs) /\ (in_use V sb b = false -> b ∉ Hs)) ->
  (length B + size Hs + 1 < NBUF)%nat -> (length B < 28)%nat ->
  exists r fs' V' B', fsr p pid [] (balloc ROOTDEV) fs r [] fs' /\
    txn pid start fs' V' B' Hs /\ (length B' <= length B + 2)%nat /\ tx_same fs fs' /\
    (r = 0 /\ V' = V /\ (forall b, 0 <= b < sb_size sb -> in_use V sb b = true) \/
     0 <= r < sb_size sb /\ in_use V sb r = false /\ (forall b, 0 <= b < r -> in_use V sb b = true) /\
     V' r = zero_block /\
     (forall b, 0 <= b < sb_size sb -> in_use V' sb b = in_use V sb b || (r =? b)) /\
     (forall b, b <> r -> b <> BBLOCK r sb -> V' b = V b)).
Proof.
  intros HD T Esb Hbm Hfree Hroom HB.
  destruct (balloc_ok p pid start sb V B Hs Hfree Hroom HB fs Esb) as (r & fs' & R & _ & S & H);
    [apply Hbm|done|].
  destruct H as [(Ha & -> & T' & _)|(Hr & Hf & Ha & T' & _)].
  - exists 0, fs', V, B. split_and!; try done; [lia|]. by left.
  - exists r, fs', (alloc_view V sb r), (logged (logged B (BBLOCK r sb)) r). split_and!; try done.
    { pose proof (length_logged B (BBLOCK r sb)). pose proof (length_logged (logged B (BBLOCK r sb)) r). lia. }
    right. split; [exact Hr|]. split_and!; [done|done|apply dset_eq| |].
    + intros b Hb. by apply in_use_alloc.
    + intros b H1 H2. unfold alloc_view. by rewrite !dset_ne.
Qed.

(** [bfree] of a block that is in use marks exactly this block as free
    and changes nothing but the bitmap; [bfree] of a block that is not in
    use panics. *)
Theorem bfree_correct (D : Disk) p pid start fs V B Hs sb b : DiskOk D ->
  txn pid start fs V B Hs -> fs_sb fs = sb -> bitmap_ok V sb -> 0 <= b < sb_size sb ->
  (forall b, 0 <= b < sb_size sb -> (BBLOCK b sb ∉ Hs) /\ (in_use V sb b = false -> b ∉ Hs)) ->
  (length B + size Hs + 1 < NBUF)%nat -> (length B < 28)%nat ->
  if in_use V sb b then
    exists fs' V', fsr p pid [] (bfree ROOTDEV b) fs tt [] fs' /\
      txn pid start fs' V' (logged B (BBLOCK b sb)) Hs /\ tx_same fs fs' /\
      (forall b', 0 <= b' < sb_size sb -> in_use V' sb b' = in_use V sb b' && negb (b =? b')) /\
      (forall b', b' <> BBLOCK b sb -> V' b' = V b')
  else
    forall w, ctx p pid [] (w_k w) -> k_fs (w_k w) = fs ->
      exists w', bfree ROOTDEV b w = Panic "freeing free block" w'.
Proof.
  intros HD T Esb Hbm Hb Hfree Hroom HB. destruct (in_use V sb b) eqn:Hu.
  - destruct (bfree_ok p pid start sb V B Hs Hfree Hroom HB fs b Esb T Hb Hu) as (fs' & R & T' & _ & S & _).
    exists fs', (free_view V sb b). split_and!; try done.
    + intros b' Hb'. by apply in_use_free.
    + intros b' Hne. by apply dset_ne.
  - intros w. by apply (bfree_panics p pid start sb V B Hs Hfree Hroom HB fs b w).
Qed.

(** ** Witnesses *)

Lemma txn_sb pid start fs V B Hs sb : txn pid start fs V B Hs -> txn pid start (set_fs_sb sb fs) V B Hs.
Proof. intros [(L & I) ? ? ? ?]. split; try done. exists L. destruct I. by split. Qed.

(** A disk of 50 blocks, all in use; block 45 is the bitmap. *)
Definition sb_example : superblock := SuperBlock FSMAGIC 50 0 0 0 0 0 45.
Definition full_view : Z -> list Z := dset (fun _ => zero_block) 45 (replicate (Z.to_nat BSIZE) 255).

Lemma example_BBLOCK b : 0 <= b < 50 -> BBLOCK b sb_example = 45.
Proof.
  intros H. unfold BBLOCK. replace (b / BPB) with 0 by (unfold BPB, BSIZE; zlia). reflexivity.
Qed.

Lemma full_in_use b : 0 <= b < 50 -> in_use full_view sb_example b = true.
Proof.
  intros H. unfold in_use. rewrite example_BBLOCK by done. unfold full_view. rewrite dset_eq. unfold used, aget.
  rewrite nth_lookup, lookup_replicate_2.
  - simpl. pose proof (bit_range (b mod BPB)). change 255 with (Z.ones 8). apply Z.ones_spec_low. lia.
  - unfold BPB, BSIZE. zlia.
Qed.

Lemma full_bitmap : bitmap_ok full_view sb_example.
Proof.
  split.
  - split; vm_compute; (split; congruence) || congruence.
  - intros b Hb. rewrite example_BBLOCK by done. unfold full_view. rewrite dset_eq. apply length_replicate.
  - intros b b' Hb _ H. by rewrite full_in_use in H.
Qed.

Lemma full_example : exists fs, txn 1 0 fs full_view [45] ∅ /\ fs_sb fs = sb_example.
Proof.
  destruct idle_example as (fs & Hid & Hd). destruct (begin_op_idle 0 1 0 fs Hid) as [_ Htx].
  destruct (fill_ok (begun fs) 45 255 (fs_disk fs) [] Htx) as (fs1 & _ & T & _); [simpl; lia|].
  exists (set_fs_sb sb_example fs1). split; [|done]. apply txn_sb. rewrite Hd in T. exact T.
Qed.

Lemma bfree_correct_witness : exists fs fs', fsr 0 1 [] (bfree (D := sync_disk) ROOTDEV 7) fs tt [] fs'.
Proof.
  destruct full_example as (fs & T & Esb).
  pose proof (bfree_correct sync_disk 0 1 0 fs full_view [45] ∅ sb_example 7 sync_disk_ok T Esb full_bitmap) as H.
  rewrite full_in_use in H by lia.
  destruct H as (fs' & V' & R & _).
  - simpl. lia.
  - intros b Hb. split; [|intros _]; apply not_elem_of_empty.
  - rewrite size_empty. unfold NBUF. simpl. lia.
  - simpl. lia.
  - exists fs, fs'. exact R.
Defined.

Lemma hole_example : exists fs V, txn 1 0 fs V [45] ∅ /\ fs_sb fs = sb_example /\ bitmap_ok V sb_example /\
  (forall b, 0 <= b < 50 -> in_use V sb_example b = negb (7 =? b)) /\ (forall b, b <> 45 -> V b = zero_block).
Proof.
  destruct full_example as (fs & T & Esb).
  assert (forall b, 0 <= b < sb_size sb_example ->
    (BBLOCK b sb_example ∉ (∅ : gset Z)) /\ (in_use full_view sb_example b = false -> b ∉ (∅ : gset Z))) as Hfree
    by (intros b Hb; split; [|intros _]; apply not_elem_of_empty).
  assert (length [45] + size (∅ : gset Z) + 1 < NBUF)%nat as Hroom by (rewrite size_empty; unfold NBUF; simpl; lia).
  destruct (bfree_ok (D := sync_disk) 0 1 0 sb_example full_view [45] ∅ Hfree Hroom ltac:(simpl; lia) fs 7 Esb T)
    as (fs' & _ & T' & _ & S & _); [simpl; lia|by apply full_in_use|].
  assert (forall b, 0 <= b < 50 -> in_use (free_view full_view sb_example 7) sb_example b = negb (7 =? b)) as Hu.
  { intros b Hb. rewrite in_use_free by (done || exact full_bitmap). by rewrite full_in_use. }
  exists fs', (free_view full_view sb_example 7). split_and!; [exact T'|by rewrite (ts_sb _ _ S)| |exact Hu|].
  2:{ intros b Hb. unfold free_view, full_view. rewrite example_BBLOCK by lia. by rewrite !dset_ne. }
  split.
  - apply full_bitmap.
  - intros b Hb. rewrite example_BBLOCK by done. reflexivity.
  - intros b b' Hb Hb' Hf. rewrite Hu in Hf by done. rewrite example_BBLOCK by done.
    destruct (Z.eqb_spec 7 b); [lia|done].
Qed.

Lemma balloc_correct_witness : exists fs fs', fsr 0 1 [] (balloc (D := sync_disk) ROOTDEV) fs 7 [] fs'.
Proof.
  destruct hole_example as (fs & V & T & Esb & Hbm & Hu & _).
  destruct (balloc_correct sync_disk 0 1 0 fs V [45] ∅ sb_example sync_disk_ok T Esb Hbm)
    as (r & fs' & V' & B' & R & _ & _ & _ & H).
  - intros b Hb. split; [|intros _]; apply not_elem_of_empty.
  - rewrite size_empty. unfold NBUF. simpl. lia.
  - simpl. lia.
  - exists fs, fs'. assert (r = 7) as <-; [|exact R].
    destruct H as [(_ & _ & Ha)|(Hr & Hf & _)].
    + assert (in_use V sb_example 7 = true) as E by (apply Ha; simpl; lia). rewrite Hu in E by lia. discriminate E.
    + rewrite Hu in Hf by exact Hr. destruct (Z.eqb_spec 7 r); [lia|discriminate Hf].
Defined.
