(* ===== verification/PathProps.v ===== *)
(** * PathProps: path names

    [skipelem] of fs.c takes a path apart one element at a time.  Applied
    until it returns null it yields the components of the path as a plain
    splitting at the slashes gives them, cut to DIRSIZ bytes. *)

From S2P Require Import Prelude.
From S2P Require Import State.
From S2P Require Import Kernel.
From S2P Require Import Console.
From S2P Require Import Fs.

(** The reference: split at every slash and drop the empty pieces. *)
Fixpoint split_slash (cur : list Z) (path : list Z) : list (list Z) :=
  match path with
  | [] => [cur]
  | c :: path' => if c =? SLASH then cur :: split_slash [] path' else split_slash (cur ++ [c]) path'
  end.
Definition components (path : list Z) : list (list Z) := filter (fun e => e <> []) (split_slash [] path).

(** The names that repeated calls of [skipelem] store. *)
Fixpoint path_names (fuel : nat) (path name : list Z) : list (list Z) :=
  match skipelem path name with
  | None => []
  | Some (path, name) => match fuel with O => [] | S f => cstr name :: path_names f path name end
  end.

Lemma components_slash path : components (SLASH :: path) = components path.
Proof. done. Qed.
Lemma components_skip path : components (skip_slashes path) = components path.
Proof.
  induction path as [|c path IH]; [done|]. cbn [skip_slashes]. destruct (Z.eqb_spec c SLASH) as [->|]; [|done].
  by rewrite components_slash.
Qed.
Lemma length_skip path : (length (skip_slashes path) <= length path)%nat.
Proof. induction path as [|c path IH]; [done|]. cbn [skip_slashes]. destruct (_ =? _); cbn; lia. Qed.
Lemma skip_slashes_hd path : hd 0 (skip_slashes path) <> SLASH.
Proof.
  induction path as [|c path IH]; [done|]. cbn [skip_slashes]. destruct (Z.eqb_spec c SLASH); [done|].
  by cbn [hd].
Qed.

Section path.
(** A C string: the terminator is the end of the list. *)
Context (nonzero := Forall (fun c : Z => c <> 0)).

Lemma skip_nonzero path : nonzero path -> nonzero (skip_slashes path).
Proof.
  induction path as [|c path IH]; [done|]. cbn [skip_slashes]. intros H. destruct (_ =? _); [|done].
  apply Forall_cons in H as [_ H]. by apply IH.
Qed.

Lemma take_elem_ok path : nonzero path -> let '(s, rest) := take_elem path in
  path = s ++ rest /\ nonzero s /\ nonzero rest /\ hd SLASH rest = SLASH /\
  forall cur, split_slash cur path = match rest with [] => [cur ++ s] | _ :: rest' => (cur ++ s) :: split_slash [] rest' end.
Proof.
  induction path as [|c path IH]; intros Hn; cbn [take_elem].
  { split_and!; [done|constructor|constructor|done|]. intros cur. by rewrite app_nil_r. }
  apply Forall_cons in Hn as [Hc Hn]. rewrite (proj2 (Z.eqb_neq c 0)) by done. rewrite orb_false_r.
  destruct (Z.eqb_spec c SLASH) as [->|Hs].
  { split_and!; [done|constructor|by constructor|done|]. intros cur. by rewrite app_nil_r. }
  specialize (IH Hn). destruct (take_elem path) as [s rest]. cbn [fst snd]. destruct IH as (-> & H1 & H2 & Hh & H3).
  split_and!; [done|by constructor|done|done|]. intros cur. cbn [split_slash app]. rewrite (proj2 (Z.eqb_neq c SLASH)) by done.
  rewrite H3. by rewrite <- !app_assoc.
Qed.

Lemma take_elem_hd path : hd 0 path <> SLASH -> nonzero path -> path <> [] -> fst (take_elem path) <> [].
Proof.
  destruct path as [|c path]; [done|]. cbn [hd take_elem]. intros Hs Hn _. apply Forall_cons in Hn as [Hc _].
  by rewrite (proj2 (Z.eqb_neq c SLASH)), (proj2 (Z.eqb_neq c 0)).
Qed.

(** The buffer after copying [d] to its start. *)
Lemma splice_app : forall d pre l, (length d <= length l)%nat ->
  splice (pre ++ l) (Z.of_nat (length pre)) d = pre ++ d ++ drop (length d) l.
Proof.
  induction d as [|x d IH]; intros pre l Hl; [done|]. destruct l as [|y l]; [cbn in Hl; lia|]. cbn [splice].
  assert (aset (pre ++ y :: l) (Z.of_nat (length pre)) x = (pre ++ [x]) ++ l) as ->.
  { unfold aset. rewrite Nat2Z.id, insert_app_r_alt, Nat.sub_diag by lia. cbn. by rewrite <- app_assoc. }
  replace (Z.of_nat (length pre) + 1) with (Z.of_nat (length (pre ++ [x]))) by (rewrite length_app; cbn; lia).
  rewrite IH by (cbn in Hl; lia). cbn. by rewrite <- app_assoc.
Qed.
Lemma splice_0 d l : (length d <= length l)%nat -> splice l 0 d = d ++ drop (length d) l.
Proof. apply (splice_app d []). Qed.

Lemma cstr_stop s l : nonzero s -> cstr (s ++ 0 :: l) = s.
Proof. induction 1 as [|c s Hc Hs IH]; [done|]. cbn. rewrite (proj2 (Z.eqb_neq c 0)) by done. by rewrite IH. Qed.
Lemma cstr_all s : nonzero s -> cstr s = s.
Proof. induction 1 as [|c s Hc Hs IH]; [done|]. cbn. rewrite (proj2 (Z.eqb_neq c 0)) by done. by rewrite IH. Qed.

(** The name stored for the element [s]. *)
Lemma name_ok s name : nonzero s -> length name = Z.to_nat DIRSIZ ->
  let len := Z.of_nat (length s) in
  let name' := if DIRSIZ <=? len then splice name 0 (take (Z.to_nat DIRSIZ) s) else aset (splice name 0 s) len 0 in
  length name' = Z.to_nat DIRSIZ /\ cstr name' = take (Z.to_nat DIRSIZ) s.
Proof.
  intros Hs Hn len name'. unfold name'. destruct (Z.leb_spec DIRSIZ len) as [Hl|Hl].
  - assert (length (take (Z.to_nat DIRSIZ) s) = Z.to_nat DIRSIZ) as Ht by (rewrite length_take; lia).
    rewrite splice_0 by lia. rewrite drop_ge, app_nil_r by lia. split; [done|]. apply cstr_all. by apply Forall_take.
  - rewrite splice_0 by lia. destruct (drop (length s) name) as [|y l] eqn:El.
    { apply (f_equal length) in El. rewrite length_drop in El. cbn in El. lia. }
    assert (aset (s ++ y :: l) len 0 = s ++ 0 :: l) as ->.
    { unfold aset, len. rewrite Nat2Z.id, insert_app_r_alt, Nat.sub_diag by lia. done. }
    rewrite cstr_stop, take_ge by (done || lia). split; [|done].
    apply (f_equal length) in El. rewrite length_drop in El. rewrite length_app. cbn in *. lia.
Qed.

(** One call of [skipelem]. *)
Lemma skipelem_ok path name : nonzero path -> length name = Z.to_nat DIRSIZ ->
  match skipelem path name with
  | None => components path = []
  | Some (rest, name') => exists e, components path = e :: components rest /\
      cstr name' = take (Z.to_nat DIRSIZ) e /\ length name' = Z.to_nat DIRSIZ /\ nonzero rest /\
      (length rest < length path)%nat /\ hd 0 rest <> SLASH
  end.
Proof.
  intros Hp Hn. unfold skipelem. pose proof (skip_nonzero path Hp) as Hp1. pose proof (length_skip path) as Hl1.
  pose proof (skip_slashes_hd path) as Hh. rewrite <- (components_skip path).
  set (p1 := skip_slashes path) in *. destruct (Z.eqb_spec (hd 0 p1) 0) as [E0|E0].
  { destruct p1 as [|c p1]; [done|]. apply Forall_cons in Hp1 as [? _]. done. }
  assert (p1 <> []) as Hne by (intros ->; done).
  pose proof (take_elem_ok p1 Hp1) as Ht. pose proof (take_elem_hd p1 Hh Hp1 Hne) as Hs.
  destruct (take_elem p1) as [s rest]. cbn [fst] in Hs. destruct Ht as (Ep & Hns & Hnr & Hhd & Hsp).
  destruct (name_ok s name Hns Hn) as [Hl Hc]. exists s. split_and!.
  - unfold components. rewrite Hsp. cbn [app]. destruct rest as [|c rest'].
    + rewrite filter_cons_True by done. done.
    + rewrite filter_cons_True by done. f_equal.
      change (components rest' = components (skip_slashes (c :: rest'))). rewrite components_skip.
      cbn [hd] in Hhd. by rewrite Hhd.
  - exact Hc.
  - exact Hl.
  - by apply skip_nonzero.
  - pose proof (length_skip rest). rewrite Ep, length_app in Hl1. destruct s; [done|]. cbn in *. lia.
  - apply skip_slashes_hd.
Qed.

Lemma path_names_ok : forall fuel path name, nonzero path -> length name = Z.to_nat DIRSIZ ->
  (length path <= fuel)%nat -> path_names fuel path name = take (Z.to_nat DIRSIZ) <$> components path.
Proof.
  induction fuel as [|fuel IH]; intros path name Hp Hn Hf; cbn [path_names];
    pose proof (skipelem_ok path name Hp Hn) as H; destruct (skipelem path name) as [[rest name']|];
    try (by rewrite H); destruct H as (e & -> & Hc & Hl & Hr & Hlt & _); [lia|].
  rewrite fmap_cons, Hc. f_equal. apply IH; (done || lia).
Qed.

(** Nothing is left after the last component. *)
Lemma skipelem_last path name rest name' : nonzero path -> length name = Z.to_nat DIRSIZ ->
  skipelem path name = Some (rest, name') -> (hd 0 rest = 0 <-> components rest = []).
Proof.
  intros Hp Hn E. pose proof (skipelem_ok path name Hp Hn) as H. rewrite E in H.
  destruct H as (e & _ & _ & _ & Hr & _ & Hh).
  destruct rest as [|c rest]; [done|]. cbn [hd] in *. apply Forall_cons in Hr as [Hc0 Hr]. split; [done|].
  intros Ec. exfalso. pose proof (take_elem_ok (c :: rest) ltac:(by constructor)) as Ht.
  pose proof (take_elem_hd (c :: rest) Hh ltac:(by constructor) ltac:(done)) as Hs.
  destruct (take_elem (c :: rest)) as [s r]. destruct Ht as (_ & _ & _ & _ & Hsp).
  unfold components in Ec. rewrite Hsp in Ec. by destruct r; rewrite filter_cons_True in Ec.
Qed.
End path.

(** Taking a path apart with [skipelem] until it returns null gives the
    non-empty pieces between the slashes, in order and cut to DIRSIZ bytes,
    whatever the name buffer held before; a path of [n] bytes is exhausted
    after at most [n] calls, the rest returned never starts with a slash,
    so the caller's test for the last element is right. *)
Theorem skipelem_components path name : Forall (fun c => c <> 0) path -> length name = Z.to_nat DIRSIZ ->
  path_names (length path) path name = take (Z.to_nat DIRSIZ) <$> components path /\
  (skipelem path name = None <-> components path = []) /\
  (forall rest name', skipelem path name = Some (rest, name') ->
     (hd 0 rest = 0 <-> length (components path) = 1%nat)).
Proof.
  intros Hp Hn. split; [by apply path_names_ok|]. pose proof (skipelem_ok path name Hp Hn) as H.
  destruct (skipelem path name) as [[rest name']|] eqn:E; [|done].
  pose proof (skipelem_last path name rest name' Hp Hn E) as Hlast. destruct H as (e & -> & _). split; [done|].
  intros rest' name'' [= <- <-]. cbn [length]. rewrite Hlast. by destruct (components rest).
Qed.

Lemma skipelem_components_witness :
  path_names 9 (bytes_of_string "//ab//c//") (replicate 14 7) = bytes_of_string <$> ["ab"; "c"]%string.
Proof.
  transitivity (take (Z.to_nat DIRSIZ) <$> components (bytes_of_string "//ab//c//")); [|reflexivity].
  apply (skipelem_components (bytes_of_string "//ab//c//") (replicate 14 7)); [|reflexivity].
  vm_compute. repeat constructor; discriminate.
Defined.
