(* ===== verification/InodeProps.v ===== *)
(** * InodeProps: inodes on disk and in memory

    The layout of [struct dinode] in its block, [iupdate] and [ilock], and
    the block map of an inode, [bmap], inside a transaction. *)

From S2P Require Import Prelude.
From S2P Require Import State.
From S2P Require Import Kernel.
From S2P Require Import Sched.
From S2P Require Import SchedInv.
From S2P Require Import SchedProps.
From S2P Require Import Bio.
From S2P Require Import FsRun.
From S2P Require Import BioProps.
From S2P Require Import Log.
From S2P Require Import LogProps.
From S2P Require Import LogCrash.
From S2P Require Import Txn.
From S2P Require Import Fs.
From S2P Require Import FsProps.

(** ** Layout *)

Section half.
Context (l : list Z) (o v : Z).
Hypothesis Ho : 0 <= o /\ o + 2 <= Z.of_nat (length l).

Lemma length_st16 : length (st16 l o v) = length l.
Proof. unfold st16. by rewrite !length_aset. Qed.
Lemma ld16_st16 : ld16 (st16 l o v) o = u16 v.
Proof.
  unfold ld16, st16. rewrite !aget_aset by (rewrite ?length_aset; lia). repeat (case_decide; try lia).
  unfold u16. change (2 ^ 16) with 65536. zlia.
Qed.
Lemma aget_st16_other b : 0 <= b -> b < o \/ o + 2 <= b -> aget 0 (st16 l o v) b = aget 0 l b.
Proof.
  intros Hb Hd. unfold st16. rewrite !aget_aset by (rewrite ?length_aset; lia). repeat (case_decide; try lia).
Qed.
End half.

Lemma aget_st32_other l o v b : 0 <= o -> o + 4 <= Z.of_nat (length l) -> 0 <= b -> b < o \/ o + 4 <= b ->
  aget 0 (st32 l o v) b = aget 0 l b.
Proof.
  intros Ho Hl Hb Hd. unfold st32. rewrite !aget_aset by (rewrite ?length_aset; lia). repeat (case_decide; try lia).
Qed.

Lemma i16_u16 v : - 2 ^ 15 <= v < 2 ^ 15 -> i16 (u16 v) = v.
Proof. unfold i16, u16. change (2 ^ 15) with 32768. change (2 ^ 16) with 65536. intros. zlia. Qed.

(** Loads depend only on the bytes they read. *)
Lemma ld16_ext l l' o : (forall b, o <= b < o + 2 -> aget 0 l' b = aget 0 l b) -> ld16 l' o = ld16 l o.
Proof. intros H. unfold ld16. by rewrite !H by lia. Qed.
Lemma ld32_ext l l' o : (forall b, o <= b < o + 4 -> aget 0 l' b = aget 0 l b) -> ld32 l' o = ld32 l o.
Proof. intros H. unfold ld32. by rewrite !H by lia. Qed.

Lemma length_put_addrs : forall a l o, length (put_addrs l o a) = length l.
Proof. induction a as [|x a IH]; intros l o; [done|]. cbn. by rewrite IH, length_st32. Qed.
Lemma put_addrs_other : forall a l o b, 0 <= o -> o + 4 * Z.of_nat (length a) <= Z.of_nat (length l) ->
  0 <= b -> b < o \/ o + 4 * Z.of_nat (length a) <= b -> aget 0 (put_addrs l o a) b = aget 0 l b.
Proof.
  induction a as [|x a IH]; intros l o b Ho Hl Hb Hd; [done|]. cbn [put_addrs length] in *.
  rewrite IH by (rewrite ?length_st32; lia). apply aget_st32_other; lia.
Qed.
Lemma put_addrs_get : forall a l o k x, 0 <= o -> o + 4 * Z.of_nat (length a) <= Z.of_nat (length l) ->
  a !! k = Some x -> 0 <= x < 2 ^ 32 -> ld32 (put_addrs l o a) (o + 4 * Z.of_nat k) = x.
Proof.
  induction a as [|y a IH]; intros l o k x Ho Hl Hk Hx; [done|]. cbn [put_addrs length] in *.
  destruct k as [|k].
  - injection Hk as ->. rewrite Z.add_0_r.
    rewrite (ld32_ext (st32 l o x)); [apply ld32_st32; (done || lia)|].
    intros b Hb. apply put_addrs_other; rewrite ?length_st32; lia.
  - replace (o + 4 * Z.of_nat (S k)) with (o + 4 + 4 * Z.of_nat k) by lia.
    apply IH; [lia|rewrite length_st32; lia|done|done].
Qed.

(** The fields of an on-disk inode fit their types. *)
Record dinode_ok (d : dinode) : Prop := {
  do_type : - 2 ^ 15 <= d_type d < 2 ^ 15;
  do_major : - 2 ^ 15 <= d_major d < 2 ^ 15;
  do_minor : - 2 ^ 15 <= d_minor d < 2 ^ 15;
  do_nlink : - 2 ^ 15 <= d_nlink d < 2 ^ 15;
  do_size : 0 <= d_size d < 2 ^ 32;
  do_len : length (d_addrs d) = 13%nat;
  do_addrs : Forall (fun a => 0 <= a < 2 ^ 32) (d_addrs d)
}.

Section dinode.
Context (d : dinode) (o : Z) (l : list Z).
Hypothesis (Hd : dinode_ok d) (Ho : 0 <= o) (Hl : o + DINODE_SIZE <= Z.of_nat (length l)).

Lemma length_put_dinode : length (put_dinode d o l) = length l.
Proof. unfold put_dinode. by rewrite length_put_addrs, length_st32, !length_st16. Qed.

(** Writing an inode changes only its own 64 bytes. *)
Lemma put_dinode_other b : 0 <= b -> b < o \/ o + DINODE_SIZE <= b -> aget 0 (put_dinode d o l) b = aget 0 l b.
Proof.
  intros Hb Hdj. pose proof (do_len _ Hd) as Hn. unfold put_dinode, DINODE_SIZE in *.
  rewrite put_addrs_other by (rewrite ?length_st32, ?length_st16; lia).
  rewrite aget_st32_other by (rewrite ?length_st16; lia).
  by rewrite !aget_st16_other by (rewrite ?length_st16; lia).
Qed.

(** What was written is read back. *)
Lemma get_put_dinode : get_dinode (put_dinode d o l) o = d.
Proof.
  pose proof Hd as [Ht Hmj Hmn Hnl Hsz Hn Ha]. unfold DINODE_SIZE in *.
  assert (forall k, 0 <= k < 12 -> aget 0 (put_dinode d o l) (o + k) =
    aget 0 (st32 (st16 (st16 (st16 (st16 l o (d_type d)) (o + 2) (d_major d)) (o + 4) (d_minor d)) (o + 6) (d_nlink d))
      (o + 8) (d_size d)) (o + k)) as Hhead.
  { intros k Hk. unfold put_dinode. apply put_addrs_other; rewrite ?length_st32, ?length_st16; lia. }
  set (l4 := st16 (st16 (st16 (st16 l o (d_type d)) (o + 2) (d_major d)) (o + 4) (d_minor d)) (o + 6) (d_nlink d)) in *.
  assert (length l4 = length l) as Hl4 by (unfold l4; by rewrite !length_st16).
  assert (forall k, 0 <= k < 8 -> aget 0 (put_dinode d o l) (o + k) = aget 0 l4 (o + k)) as H4.
  { intros k Hk. rewrite Hhead by lia. apply aget_st32_other; lia. }
  assert (ld32 (put_dinode d o l) (o + 8) = d_size d) as Esz.
  { rewrite (ld32_ext (st32 l4 (o + 8) (d_size d))); [apply ld32_st32; (done || lia)|].
    intros b Hb. replace b with (o + (b - o)) by lia. apply Hhead. lia. }
  assert (forall k v m, 0 <= k -> k + 2 <= 8 -> (forall b, k <= b < k + 2 -> aget 0 l4 (o + b) = aget 0 (st16 m (o + k) v) (o + b)) ->
    length m = length l -> ld16 (put_dinode d o l) (o + k) = u16 v) as H16.
  { intros k v m Hk1 Hk2 Hm Hlm. rewrite <- (ld16_st16 m (o + k) v) by lia. apply ld16_ext. intros b Hb.
    replace b with (o + (b - o)) by lia. rewrite H4 by lia. apply Hm. lia. }
  unfold get_dinode. rewrite Esz.
  assert (ld16 (put_dinode d o l) o = u16 (d_type d)) as E0.
  { pose proof (H16 0 (d_type d) l) as H0. rewrite Z.add_0_r in H0. apply H0; [lia|lia| |done]. intros b Hb. unfold l4.
    by rewrite !aget_st16_other by (rewrite ?length_st16; lia). }
  assert (ld16 (put_dinode d o l) (o + 2) = u16 (d_major d)) as E2.
  { apply (H16 2 _ (st16 l o (d_type d))); [lia|lia| |by rewrite length_st16]. intros b Hb. unfold l4.
    by rewrite 2!aget_st16_other by (rewrite ?length_st16; lia). }
  assert (ld16 (put_dinode d o l) (o + 4) = u16 (d_minor d)) as E4.
  { apply (H16 4 _ (st16 (st16 l o (d_type d)) (o + 2) (d_major d))); [lia|lia| |by rewrite !length_st16].
    intros b Hb. unfold l4. by rewrite aget_st16_other by (rewrite ?length_st16; lia). }
  assert (ld16 (put_dinode d o l) (o + 6) = u16 (d_nlink d)) as E6.
  { apply (H16 6 _ (st16 (st16 (st16 l o (d_type d)) (o + 2) (d_major d)) (o + 4) (d_minor d)));
      [lia|lia|done|by rewrite !length_st16]. }
  rewrite E0, E2, E4, E6, !i16_u16 by done. destruct d as [ty mj mn nl sz ad]. cbn [d_type d_major d_minor d_nlink d_size d_addrs] in *. f_equal.
  apply list_eq. intros k. rewrite list_lookup_fmap. destruct (decide (k < 13)%nat) as [Hk|Hk].
  - rewrite lookup_seq_lt by done. destruct (lookup_lt_is_Some_2 ad k) as [x Hx]; [lia|]. rewrite Hx.
    cbn [fmap option_fmap option_map]. f_equal. unfold put_dinode. cbn [d_addrs d_size d_type d_major d_minor d_nlink].
    apply put_addrs_get; [lia|rewrite length_st32, !length_st16; lia|done|]. by eapply (Forall_lookup_1 _ _ _ _ Ha).
  - rewrite lookup_seq_ge by lia. symmetry. apply lookup_ge_None. lia.
Qed.
End dinode.

(** ** Inodes in a transaction *)

(** The inode [inum] on a disk with contents [V]. *)
Definition disk_inode (V : Z -> list Z) (sb : superblock) (inum : Z) : dinode :=
  get_dinode (V (IBLOCK inum sb)) (dinode_off inum).
(** The contents after [iupdate] of inode [ip]. *)
Definition inode_view (V : Z -> list Z) (sb : superblock) (ip : inode) : Z -> list Z :=
  dset V (IBLOCK (i_inum ip) sb)
    (put_dinode (dinode_of ip) (dinode_off (i_inum ip)) (V (IBLOCK (i_inum ip) sb))).

Lemma dinode_off_range inum : 0 <= dinode_off inum /\ dinode_off inum + DINODE_SIZE <= BSIZE.
Proof. unfold dinode_off, IPB, BSIZE, DINODE_SIZE. zlia. Qed.

Lemma disk_inode_eq V sb ip : dinode_ok (dinode_of ip) -> length (V (IBLOCK (i_inum ip) sb)) = Z.to_nat BSIZE ->
  disk_inode (inode_view V sb ip) sb (i_inum ip) = dinode_of ip.
Proof.
  intros Hd Hl. unfold disk_inode, inode_view. rewrite dset_eq. pose proof (dinode_off_range (i_inum ip)).
  apply get_put_dinode; [done|lia|]. rewrite Hl, Z2Nat.id by done. lia.
Qed.

(** Of the block of inode [inum] only the bytes of the inode have changed. *)
Definition only_inode (V V' : Z -> list Z) (sb : superblock) (inum : Z) : Prop :=
  forall k, 0 <= k < BSIZE -> k < dinode_off inum \/ dinode_off inum + DINODE_SIZE <= k ->
    aget 0 (V' (IBLOCK inum sb)) k = aget 0 (V (IBLOCK inum sb)) k.

Lemma only_inode_view V V1 sb ip : dinode_ok (dinode_of ip) -> length (V1 (IBLOCK (i_inum ip) sb)) = Z.to_nat BSIZE ->
  V1 (IBLOCK (i_inum ip) sb) = V (IBLOCK (i_inum ip) sb) -> only_inode V (inode_view V1 sb ip) sb (i_inum ip).
Proof.
  intros Hd Hl E k Hk Hout. unfold inode_view. rewrite dset_eq, <- E. pose proof (dinode_off_range (i_inum ip)).
  apply put_dinode_other; [done|lia|rewrite Hl, Z2Nat.id by done; lia|lia|lia].
Qed.

Lemma only_inode_trans V V1 V2 sb inum : only_inode V V1 sb inum -> only_inode V1 V2 sb inum -> only_inode V V2 sb inum.
Proof. intros H1 H2 k Hk Ho. by rewrite (H2 k), (H1 k). Qed.

(** Dinodes of different numbers do not overlap. *)
Lemma dinode_disjoint sb inum inum' : 0 <= inum -> 0 <= inum' -> 0 <= sb_inodestart sb ->
  inum + sb_inodestart sb < 2 ^ 31 -> inum' + sb_inodestart sb < 2 ^ 31 -> inum <> inum' -> IBLOCK inum sb = IBLOCK inum' sb ->
  dinode_off inum + DINODE_SIZE <= dinode_off inum' \/ dinode_off inum' + DINODE_SIZE <= dinode_off inum.
Proof.
  intros H1 H2 H3 H4 H5 Hne E. unfold IBLOCK, dinode_off, DINODE_SIZE in *. change IPB with 16 in *.
  change (2 ^ 31) with 2147483648 in *. rewrite !u32_small in E by (change (2 ^ 32) with 4294967296; zlia). zlia.
Qed.

Lemma get_dinode_ext l l' o : (forall b, o <= b < o + DINODE_SIZE -> aget 0 l' b = aget 0 l b) -> get_dinode l' o = get_dinode l o.
Proof.
  intros Hb. unfold DINODE_SIZE in Hb. unfold get_dinode. f_equal.
  1-4: f_equal; apply ld16_ext; intros b Hb'; apply Hb; lia.
  - apply ld32_ext; intros b Hb'; apply Hb; lia.
  - apply list_fmap_ext. intros k i [-> Hk]%lookup_seq. apply ld32_ext; intros b Hb'; apply Hb; lia.
Qed.

Lemma only_inode_other V V' sb inum inum' : only_inode V V' sb inum -> 0 <= inum -> 0 <= inum' -> 0 <= sb_inodestart sb ->
  inum + sb_inodestart sb < 2 ^ 31 -> inum' + sb_inodestart sb < 2 ^ 31 -> inum' <> inum -> IBLOCK inum' sb = IBLOCK inum sb ->
  disk_inode V' sb inum' = disk_inode V sb inum'.
Proof.
  intros H H1 H2 H3 H4 H5 Hne E. unfold disk_inode. rewrite E. apply get_dinode_ext. intros b Hb. pose proof (dinode_off_range inum').
  apply H; [lia|]. destruct (dinode_disjoint sb inum' inum) as [Hd|Hd]; (done || lia).
Qed.

Lemma disk_inode_ne V sb ip inum : dinode_ok (dinode_of ip) -> length (V (IBLOCK (i_inum ip) sb)) = Z.to_nat BSIZE ->
  0 <= inum -> 0 <= i_inum ip -> 0 <= sb_inodestart sb -> inum + sb_inodestart sb < 2 ^ 31 ->
  i_inum ip + sb_inodestart sb < 2 ^ 31 -> inum <> i_inum ip ->
  disk_inode (inode_view V sb ip) sb inum = disk_inode V sb inum.
Proof.
  intros Hd Hl H1 H2 H3 H4 H5 Hne. destruct (decide (IBLOCK inum sb = IBLOCK (i_inum ip) sb)) as [E|E].
  - by apply (only_inode_other V _ sb (i_inum ip)); [apply only_inode_view|..].
  - unfold disk_inode, inode_view. by rewrite dset_ne.
Qed.

(** The inode table and its locks are not part of the transaction. *)
Lemma txn_itable pid start fs V B Hs t : txn pid start fs V B Hs -> txn pid start (set_fs_itable t fs) V B Hs.
Proof. intros [(L & I) ? ? ? ?]. split; try done. exists L. destruct I. by split. Qed.
Lemma txn_isl pid start fs V B Hs i l : txn pid start fs V B Hs -> txn pid start (upd_sl (SL_inode i) l fs) V B Hs.
Proof.
  intros [(L & I) ? ? ? ?]. split; try done. exists L. destruct I. by split.
Qed.

Section inodes.
Context (p : nat) (pid start : Z).
Implicit Types (V : Z -> list Z) (B : list Z) (Hs : gset Z).

Lemma fsr_get_inode h i fs : fsr p pid h (get_inode i) fs (inode_at fs i) h fs.
Proof. apply (fsr_get p pid h (fun fs => inode_at fs i)). Qed.
Lemma fsr_get_sb h fs : fsr p pid h get_sb fs (fs_sb fs) h fs.
Proof. apply (fsr_get p pid h fs_sb). Qed.
Lemma fsr_mod_inode h i f fs : fsr p pid h (mod_inode i f) fs tt h (upd_inode i f fs).
Proof. apply fsr_mod. Qed.

Lemma inode_at_upd fs i f j : (i < length (fs_itable fs))%nat ->
  inode_at (upd_inode i f fs) j = if decide (j = i) then f (inode_at fs i) else inode_at fs j.
Proof.
  intros Hi. unfold inode_at, upd_inode. cbn [fs_itable set_fs_itable]. rewrite !nth_lookup.
  destruct (decide (j = i)) as [->|Hne].
  - rewrite list_lookup_alter_eq. destruct (lookup_lt_is_Some_2 _ _ Hi) as [x Hx]. by rewrite Hx.
  - by rewrite list_lookup_alter_ne.
Qed.

Lemma iupdate_ok `{D : Disk} `{!DiskOk D} fs V B Hs i : let ip := inode_at fs i in
  let b := IBLOCK (i_inum ip) (fs_sb fs) in
  txn pid start fs V B Hs -> i_dev ip = ROOTDEV -> b ∉ Hs -> (length B + size Hs < NBUF)%nat -> (length B < 29)%nat ->
  exists fs', fsr p pid [] (iupdate i) fs tt [] fs' /\
    txn pid start fs' (inode_view V (fs_sb fs) ip) (logged B b) Hs /\
    bufs_kept Hs fs fs' /\ tx_same fs fs' /\ fs_log fs' = log_after (fs_log fs) B b.
Proof.
  intros ip b T Hdev Hb Hn HB.
  destruct (tx_bread p pid start fs V B Hs b T Hb Hn) as (j & fs1 & R1 & T1 & B1 & D1 & K1 & S1 & E1).
  destruct (tx_put p pid start fs1 V B Hs j b (put_dinode (dinode_of ip) (dinode_off (i_inum ip))) T1 Hb B1 D1 HB)
    as (fs2 & R2 & _ & T2 & K2 & S2 & E2).
  exists fs2. split_and!; [|done|by apply (bufs_kept_trans Hs Hs _ fs1)|by apply (tx_same_trans _ fs1)|by rewrite E2, E1].
  unfold iupdate. eapply fsr_bind; [apply fsr_get_inode|]. fold ip. eapply fsr_bind; [apply fsr_get_sb|]. fold b.
  rewrite Hdev. eapply fsr_bind; [exact R1|]. eapply fsr_bind; [apply fsr_get_inode|].
  assert (inode_at fs1 i = ip) as -> by (unfold inode_at; by rewrite (ts_itable _ _ S1)). exact R2.
Qed.

(** The inode in memory after [ilock] read [d]. *)
Definition loaded (d : dinode) (ip : inode) : inode :=
  Inode (i_dev ip) (i_inum ip) (i_ref ip) 1 (d_type d) (d_major d) (d_minor d) (d_nlink d) (d_size d) (d_addrs d).

Lemma ilock_valid fs V B Hs i : txn pid start fs V B Hs -> 1 <= i_ref (inode_at fs i) ->
  sl_locked (fs_sl fs (SL_inode i)) = 0 -> i_valid (inode_at fs i) <> 0 ->
  forall `{D : Disk}, exists fs', fsr p pid [] (ilock (Some i)) fs tt [] fs' /\ txn pid start fs' V B Hs /\
    fs' = upd_sl (SL_inode i) (SleepLock 1 pid) fs.
Proof.
  intros T Href Hsl Hv D. exists (upd_sl (SL_inode i) (SleepLock 1 pid) fs). split_and!; [|by apply txn_isl|done].
  cbn [ilock]. eapply fsr_bind; [apply fsr_get_inode|]. rewrite (proj2 (Z.ltb_ge _ 1)) by lia.
  eapply fsr_bind; [apply fsr_acquiresleep; [apply not_elem_of_nil|done]|].
  eapply fsr_bind; [apply fsr_get_inode|]. change (inode_at (upd_sl _ _ fs) i) with (inode_at fs i).
  rewrite (proj2 (Z.eqb_neq _ 0)) by done. apply fsr_ret.
Qed.

Lemma ilock_load `{D : Disk} `{!DiskOk D} fs V B Hs i : let ip := inode_at fs i in
  let d := disk_inode V (fs_sb fs) (i_inum ip) in
  txn pid start fs V B Hs -> (i < length (fs_itable fs))%nat -> i_dev ip = ROOTDEV -> 1 <= i_ref ip ->
  sl_locked (fs_sl fs (SL_inode i)) = 0 -> i_valid ip = 0 -> IBLOCK (i_inum ip) (fs_sb fs) ∉ Hs ->
  (length B + size Hs < NBUF)%nat -> d_type d <> 0 ->
  exists fs', fsr p pid [] (ilock (Some i)) fs tt [] fs' /\ txn pid start fs' V B Hs /\
    fs_itable fs' = <[i := loaded d ip]> (fs_itable fs) /\
    (forall j, fs_sl fs' (SL_inode j) = if decide (j = i) then SleepLock 1 pid else fs_sl fs (SL_inode j)) /\
    bufs_kept Hs fs fs' /\ fs_sb fs' = fs_sb fs /\ fs_log fs' = fs_log fs.
Proof.
  intros ip d T Hi Hdev Href Hsl Hv Hb Hn Hty. set (b := IBLOCK (i_inum ip) (fs_sb fs)) in *.
  set (fs1 := upd_sl (SL_inode i) (SleepLock 1 pid) fs).
  assert (txn pid start fs1 V B Hs) as T1 by (by apply txn_isl).
  destruct (tx_bread p pid start fs1 V B Hs b T1 Hb Hn) as (k & fs2 & R2 & T2 & B2 & D2 & K2 & S2 & E2).
  set (t := alter (fun x => set_i_addrs (d_addrs d) (set_i_size (d_size d) (set_i_nlink (d_nlink d) (set_i_minor (d_minor d)
    (set_i_major (d_major d) (set_i_type (d_type d) x)))))) i (fs_itable fs2)).
  set (fs3 := set_fs_itable t fs2).
  assert (txn pid start fs3 V B ({[b]} ∪ Hs)) as T3 by (by apply txn_itable).
  destruct (tx_brelse p pid start fs3 V B _ k b T3) as (fs4 & R4 & T4 & B4 & S4 & E4);
    [by apply elem_of_union_l, elem_of_singleton|exact B2|].
  rewrite hold_release in T4 by done.
  set (fs5 := upd_inode i (set_i_valid 1) fs4).
  assert (fs_itable fs2 = fs_itable fs) as Et2 by apply S2.
  assert (fs_itable fs4 = t) as Et4 by apply S4.
  assert (fs_itable fs5 = <[i := loaded d ip]> (fs_itable fs)) as Et5.
  { unfold fs5, upd_inode. cbn [fs_itable set_fs_itable]. rewrite Et4. unfold t. rewrite Et2, list_alter_alter_eq, list_insert_alter.
    apply list_alter_ext; [|done]. intros x Hx.
    assert (ip = x) as Ex by (unfold ip, inode_at; by rewrite nth_lookup, Hx).
    clearbody d ip. subst ip. by destruct x. }
  exists fs5. split_and!.
  - cbn [ilock]. eapply fsr_bind; [apply fsr_get_inode|]. fold ip. rewrite (proj2 (Z.ltb_ge _ 1)) by lia.
    eapply fsr_bind; [apply fsr_acquiresleep; [apply not_elem_of_nil|done]|]. fold fs1.
    eapply fsr_bind; [apply fsr_get_inode|]. change (inode_at fs1 i) with ip. rewrite Hv. cbn [Z.eqb].
    eapply fsr_bind; [apply fsr_get_sb|]. change (IBLOCK (i_inum ip) (fs_sb fs1)) with b. rewrite Hdev.
    eapply fsr_bind; [exact R2|]. eapply fsr_bind; [apply fsr_get_buf|]. rewrite D2.
    change (get_dinode (V b) (dinode_off (i_inum ip))) with d. cbv zeta.
    do 6 (eapply fsr_bind; [apply fsr_mod_inode|]).
    assert (upd_inode i (set_i_addrs (d_addrs d)) (upd_inode i (set_i_size (d_size d)) (upd_inode i (set_i_nlink (d_nlink d))
      (upd_inode i (set_i_minor (d_minor d)) (upd_inode i (set_i_major (d_major d)) (upd_inode i (set_i_type (d_type d)) fs2)))))
      = fs3) as ->.
    { unfold upd_inode, fs3, t. cbn [fs_itable set_fs_itable]. by rewrite !list_alter_alter_eq. }
    eapply fsr_bind; [exact R4|]. eapply fsr_bind; [apply fsr_mod_inode|]. fold fs5.
    rewrite (proj2 (Z.eqb_neq _ 0)) by done. apply fsr_ret.
  - by apply txn_itable.
  - exact Et5.
  - intros j. change (fs_sl fs5 (SL_inode j)) with (fs_sl fs4 (SL_inode j)). rewrite (ts_isl _ _ S4).
    change (fs_sl fs3 (SL_inode j)) with (fs_sl fs2 (SL_inode j)). rewrite (ts_isl _ _ S2).
    unfold fs1, upd_sl. cbn [fs_sl set_fs_sl]. destruct (decide (j = i)) as [->|Hne]; [by rewrite decide_True|].
    rewrite decide_False; [done|]. by intros [= ->].
  - intros j x Hx Hj. apply (B4 j x). by apply K2.
  - change (fs_sb fs5) with (fs_sb fs4). rewrite (ts_sb _ _ S4). exact (ts_sb _ _ S2).
  - change (fs_log fs5) with (fs_log fs4). rewrite E4. exact E2.
Qed.
End inodes.

(** ** Theorems *)

(** Inodes survive on disk.  [iupdate] in a transaction stores the
    inode so that it reads back field by field, leaves every other inode
    and every other block alone, and a later [ilock] that has to load the
    inode from these contents returns with the lock held and with exactly
    the type, device, link count, size and block addresses that were
    stored. *)
Theorem inode_persist (D : Disk) p pid start fs V B Hs i : DiskOk D ->
  let ip := inode_at fs i in let sb := fs_sb fs in let b := IBLOCK (i_inum ip) sb in
  txn pid start fs V B Hs -> i_dev ip = ROOTDEV -> dinode_ok (dinode_of ip) ->
  length (V b) = Z.to_nat BSIZE -> b ∉ Hs -> (length B + size Hs < NBUF)%nat -> (length B < 29)%nat ->
  exists fs' V', fsr p pid [] (iupdate i) fs tt [] fs' /\ txn pid start fs' V' (logged B b) Hs /\ tx_same fs fs' /\
    disk_inode V' sb (i_inum ip) = dinode_of ip /\
    (forall b', b' <> b -> V' b' = V b') /\
    (0 <= i_inum ip -> 0 <= sb_inodestart sb -> i_inum ip + sb_inodestart sb < 2 ^ 31 ->
     forall inum, 0 <= inum -> inum + sb_inodestart sb < 2 ^ 31 -> inum <> i_inum ip ->
     disk_inode V' sb inum = disk_inode V sb inum) /\
    (forall fs2 B2 j, txn pid start fs2 V' B2 Hs -> fs_sb fs2 = sb -> (length B2 + size Hs < NBUF)%nat ->
       (j < length (fs_itable fs2))%nat -> i_dev (inode_at fs2 j) = ROOTDEV -> i_inum (inode_at fs2 j) = i_inum ip ->
       1 <= i_ref (inode_at fs2 j) -> i_valid (inode_at fs2 j) = 0 -> sl_locked (fs_sl fs2 (SL_inode j)) = 0 ->
       i_type ip <> 0 ->
       exists fs3, fsr p pid [] (ilock (Some j)) fs2 tt [] fs3 /\ txn pid start fs3 V' B2 Hs /\
         dinode_of (inode_at fs3 j) = dinode_of ip /\ i_valid (inode_at fs3 j) = 1 /\
         fs_sl fs3 (SL_inode j) = SleepLock 1 pid).
Proof.
  intros HD ip sb b T Hdev Hok Hl Hb Hn HB.
  destruct (iupdate_ok p pid start fs V B Hs i T Hdev Hb Hn HB) as (fs' & R & T' & _ & S & _).
  pose proof (disk_inode_eq V sb ip Hok Hl) as Ed.
  exists fs', (inode_view V sb ip). split_and!; try done.
  - intros b' Hb'. by apply dset_ne.
  - intros H1 H2 H3 inum H4 H5 Hne. by apply disk_inode_ne.
  - intros fs2 B2 j T2 Esb Hn2 Hj Hdj Einum Href Hv Hsl Hty.
    destruct (ilock_load p pid start fs2 _ B2 Hs j T2 Hj Hdj Href Hsl Hv) as (fs3 & R3 & T3 & Et & Es & _).
    + by rewrite Einum, Esb.
    + done.
    + rewrite Einum, Esb, Ed. done.
    + assert (inode_at fs3 j = loaded (disk_inode (inode_view V sb ip) sb (i_inum ip)) (inode_at fs2 j)) as Ei.
      { unfold inode_at at 1. rewrite Et, nth_lookup, list_lookup_insert_eq by done. cbn. by rewrite Esb, Einum. }
      exists fs3. split_and!; [exact R3|exact T3| | |rewrite Es; by rewrite decide_True].
      * rewrite Ei, Ed. by destruct ip.
      * by rewrite Ei.
Qed.

(** ** Witness *)

Definition inode_example : inode := Inode ROOTDEV 3 1 1 2 0 0 1 5000 (replicate 13 41).

Lemma inode_persist_witness : exists fs fs' V', fsr 0 1 [] (iupdate (D := sync_disk) 0) fs tt [] fs' /\
  disk_inode V' sb_example 3 = dinode_of inode_example.
Proof.
  destruct full_example as (fs0 & T & Esb).
  set (fs := set_fs_itable [inode_example] fs0).
  destruct (inode_persist sync_disk 0 1 0 fs full_view [45] ∅ 0 sync_disk_ok) as (fs' & V' & R & _ & _ & Ed & _).
  - exact (txn_itable _ _ _ _ _ _ _ T).
  - reflexivity.
  - split; try reflexivity; try (split; vm_compute; congruence).
    change (Forall (fun a => 0 <= a < 2 ^ 32) (replicate 13 41)). apply Forall_replicate. lia.
  - change (fs_sb fs) with (fs_sb fs0). rewrite Esb. reflexivity.
  - apply not_elem_of_empty.
  - rewrite size_empty. unfold NBUF. simpl. lia.
  - simpl. lia.
  - exists fs, fs', V'. split; [exact R|]. change (fs_sb fs) with (fs_sb fs0) in Ed. rewrite Esb in Ed. exact Ed.
Defined.
