(* ===== verification/BmapProps.v ===== *)
(** * BmapProps: the block map of an inode

    [inode_map V ip bn] is the disk block that holds block [bn] of the file
    when the disk has the contents [V]: a direct address or an entry of the
    indirect block, 0 when there is none.  [bmap] looks it up and extends
    it with freshly allocated blocks, keeping the map well formed. *)

From S2P Require Import Prelude.
From S2P Require Import State.
From S2P Require Import Kernel.
From S2P Require Import Sched.
From S2P Require Import SchedInv.
From S2P Require Import SchedProps.
From S2P Require Import Bio.
From S2P Require Import FsRun.
From S2P Require Import BioProps.
From S2P Require Import Log.
From S2P Require Import LogProps.
From S2P Require Import LogCrash.
From S2P Require Import Txn.
From S2P Require Import Fs.
From S2P Require Import FsProps.
From S2P Require Import InodeProps.

Definition ind_of (ip : inode) : Z := aget 0 (i_addrs ip) NDIRECT.
Definition inode_map (V : Z -> list Z) (ip : inode) (bn : Z) : Z :=
  if bn <? NDIRECT then aget 0 (i_addrs ip) bn
  else if ind_of ip =? 0 then 0 else ld32 (V (ind_of ip)) (4 * (bn - NDIRECT)).

(** The blocks of the disk that belong to the file. *)
Definition owns (V : Z -> list Z) (ip : inode) (b : Z) : Prop :=
  b <> 0 /\ (b = ind_of ip \/ exists bn, 0 <= bn < MAXFILE /\ inode_map V ip bn = b).

Definition no_bitmap (sb : superblock) (b : Z) : Prop := forall b', 0 <= b' < sb_size sb -> b <> BBLOCK b' sb.

(** A consistent bitmap, in which block 0 is in use. *)
Record disk_wf (V : Z -> list Z) (sb : superblock) : Prop := {
  dw_bitmap : bitmap_ok V sb;
  dw_pos : 0 < sb_size sb;
  dw_zero : in_use V sb 0 = true
}.

(** The file's blocks are in use, whole, and pairwise different. *)
Record inode_wf (V : Z -> list Z) (sb : superblock) (ip : inode) : Prop := {
  iw_len : length (i_addrs ip) = 13%nat;
  iw_range : forall b, owns V ip b -> 0 <= b < sb_size sb;
  iw_used : forall b, owns V ip b -> in_use V sb b = true;
  iw_bitmap : forall b, owns V ip b -> no_bitmap sb b;
  iw_block : forall b, owns V ip b -> length (V b) = Z.to_nat BSIZE;
  iw_inj : forall k k', 0 <= k < MAXFILE -> 0 <= k' < MAXFILE -> inode_map V ip k <> 0 ->
    inode_map V ip k = inode_map V ip k' -> k = k';
  iw_ind : forall k, 0 <= k < MAXFILE -> inode_map V ip k <> 0 -> inode_map V ip k <> ind_of ip
}.

Lemma owns_map V ip k : 0 <= k < MAXFILE -> inode_map V ip k <> 0 -> owns V ip (inode_map V ip k).
Proof. intros Hk H. split; [done|]. right. by exists k. Qed.
Lemma owns_ind V ip : ind_of ip <> 0 -> owns V ip (ind_of ip).
Proof. intros H. split; [done|]. by left. Qed.

(** ** One allocation *)

Section alloc.
Context (V : Z -> list Z) (sb : superblock) (r : Z).
Hypothesis (HW : disk_wf V sb) (Hr : 0 <= r < sb_size sb) (Hf : in_use V sb r = false).

Lemma alloc_other b : b <> r -> no_bitmap sb b -> alloc_view V sb r b = V b.
Proof. intros H1 H2. unfold alloc_view. rewrite !dset_ne; [done|by apply H2|done]. Qed.
Lemma alloc_fresh : alloc_view V sb r r = zero_block.
Proof. apply dset_eq. Qed.
Lemma alloc_no_bitmap : no_bitmap sb r.
Proof. intros b' Hb'. by apply (bo_own _ _ (dw_bitmap _ _ HW)). Qed.
Lemma alloc_nonzero : r <> 0.
Proof. intros ->. pose proof (dw_zero _ _ HW). congruence. Qed.
Lemma alloc_in_use b : 0 <= b < sb_size sb -> in_use (alloc_view V sb r) sb b = in_use V sb b || (r =? b).
Proof. intros Hb. by apply in_use_alloc; [apply HW|..]. Qed.

Lemma alloc_wf : disk_wf (alloc_view V sb r) sb.
Proof.
  pose proof (dw_bitmap _ _ HW) as [Hsb Hl Ho]. split.
  - split; [done| |].
    + intros b Hb. unfold alloc_view. rewrite (dset_ne _ r) by (intros E; by apply (alloc_no_bitmap b)).
      unfold dset. destruct (Z.eqb_spec (BBLOCK b sb) (BBLOCK r sb)); [|by apply Hl].
      unfold set_bit. rewrite length_aset. by apply Hl.
    + intros b b' Hb Hb' Hu. rewrite alloc_in_use in Hu by done. apply orb_false_iff in Hu as [Hu _]. by apply Ho.
  - lia.
  - rewrite alloc_in_use by lia. by rewrite (dw_zero _ _ HW).
Qed.

(** A block of the file is untouched. *)
Lemma alloc_owned ip b : inode_wf V sb ip -> owns V ip b -> b <> r /\ alloc_view V sb r b = V b.
Proof.
  intros Hi Ho. assert (b <> r) as Hne by (intros ->; pose proof (iw_used _ _ _ Hi r Ho); congruence).
  split; [done|]. apply alloc_other; [done|]. by apply (iw_bitmap _ _ _ Hi).
Qed.

Lemma alloc_map ip k : inode_wf V sb ip -> inode_map (alloc_view V sb r) ip k = inode_map V ip k.
Proof.
  intros Hi. unfold inode_map. destruct (k <? NDIRECT); [done|]. destruct (Z.eqb_spec (ind_of ip) 0); [done|].
  by rewrite (proj2 (alloc_owned ip (ind_of ip) Hi (owns_ind V ip n))).
Qed.
Lemma alloc_owns ip b : inode_wf V sb ip -> owns (alloc_view V sb r) ip b <-> owns V ip b.
Proof.
  intros Hi. unfold owns. split; intros [H0 [H|(k & Hk & E)]]; (split; [done|]); [by left|right|by left|right];
    exists k; (split; [done|]); [by rewrite alloc_map in E|by rewrite alloc_map].
Qed.
Lemma alloc_inode_wf ip : inode_wf V sb ip -> inode_wf (alloc_view V sb r) sb ip.
Proof.
  intros Hi. split.
  - apply Hi.
  - intros b Ho%alloc_owns; [|done]. by apply (iw_range _ _ _ Hi).
  - intros b Ho%alloc_owns; [|done]. rewrite alloc_in_use by (by apply (iw_range _ _ _ Hi)). by rewrite (iw_used _ _ _ Hi).
  - intros b Ho%alloc_owns; [|done]. by apply (iw_bitmap _ _ _ Hi).
  - intros b Ho%alloc_owns; [|done]. rewrite (proj2 (alloc_owned ip b Hi Ho)). by apply (iw_block _ _ _ Hi).
  - intros k k' Hk Hk'. rewrite !alloc_map by done. by apply (iw_inj _ _ _ Hi).
  - intros k Hk. rewrite !alloc_map by done. by apply (iw_ind _ _ _ Hi).
Qed.
End alloc.

(** ** Extending the map *)

Definition set_addr (k v : Z) (ip : inode) : inode := set_i_addrs (aset (i_addrs ip) k v) ip.

Section extend.
Context (V : Z -> list Z) (sb : superblock) (ip : inode) (r : Z).
Hypothesis (HW : disk_wf V sb) (HI : inode_wf V sb ip).
Hypothesis (Hr : 0 <= r < sb_size sb) (Hf : in_use V sb r = false).

Lemma not_owned : ~ owns V ip r.
Proof. intros Ho. pose proof (iw_used _ _ _ HI r Ho). congruence. Qed.

(** [r] becomes the block at [bn], and nothing else changes in the file. *)
Lemma extend_wf V' ip' bn : 0 <= bn < MAXFILE -> inode_map V ip bn = 0 ->
  length (i_addrs ip') = 13%nat -> ind_of ip' = ind_of ip ->
  (forall k, 0 <= k < MAXFILE -> inode_map V' ip' k = if decide (k = bn) then r else inode_map V ip k) ->
  (forall b, b <> ind_of ip \/ ind_of ip = 0 -> V' b = alloc_view V sb r b) ->
  (ind_of ip <> 0 -> length (V' (ind_of ip)) = Z.to_nat BSIZE) ->
  disk_wf V' sb /\ inode_wf V' sb ip' /\ (forall b, 0 <= b < sb_size sb -> in_use V' sb b = in_use V sb b || (r =? b)).
Proof.
  intros Hbn H0 Hlen Hind Hmap HV Hil. pose proof (alloc_wf V sb r HW Hr Hf) as HW1.
  assert (forall b, 0 <= b < sb_size sb -> V' (BBLOCK b sb) = alloc_view V sb r (BBLOCK b sb)) as HB.
  { intros b Hb. apply HV. destruct (decide (ind_of ip = 0)) as [E|E]; [by right|left].
    intros Eb. by apply (iw_bitmap _ _ _ HI _ (owns_ind V ip E) b Hb). }
  assert (forall b, 0 <= b < sb_size sb -> in_use V' sb b = in_use V sb b || (r =? b)) as HU.
  { intros b Hb. rewrite <- alloc_in_use by done. unfold in_use. by rewrite HB. }
  assert (forall b, owns V' ip' b -> b = r \/ owns V ip b) as Hown.
  { intros b [Hb0 [->|(k & Hk & E)]].
    - right. rewrite Hind in *. by apply owns_ind.
    - rewrite Hmap in E by done. destruct (decide (k = bn)); [by left|right]. rewrite <- E in Hb0 |- *. by apply owns_map. }
  assert (forall b, owns V ip b -> b <> ind_of ip -> V' b = V b) as Hold.
  { intros b Ho Hb. rewrite HV by (by left). by apply (alloc_owned V sb r Hr Hf ip). }
  pose proof not_owned as Hno. split_and!; [| |exact HU].
  - split; [|lia|rewrite HU by lia; by rewrite (dw_zero _ _ HW)].
    destruct HW1 as [[Hsb Hl Ho] _ _]. split; [done| |].
    + intros b Hb. rewrite HB by done. by apply Hl.
    + intros b b' Hb Hb' Hu. apply Ho; [done|done|]. unfold in_use in *. by rewrite <- HB.
  - split.
    + done.
    + intros b [->|Ho]%Hown; [done|]. by apply (iw_range _ _ _ HI).
    + intros b [->|Ho]%Hown; [rewrite HU by done; by rewrite Z.eqb_refl, orb_true_r|].
      rewrite HU by (by apply (iw_range _ _ _ HI)). by rewrite (iw_used _ _ _ HI).
    + intros b [->|Ho]%Hown; [by apply (alloc_no_bitmap V)|]. by apply (iw_bitmap _ _ _ HI).
    + intros b [->|Ho]%Hown.
      * rewrite HV by (destruct (decide (ind_of ip = 0)) as [E|E]; [by right|left; intros ->; by destruct Hno; apply owns_ind]).
        by rewrite alloc_fresh.
      * destruct (decide (b = ind_of ip)) as [->|Hne]; [apply Hil, Ho|]. rewrite Hold by done.
        by apply (iw_block _ _ _ HI).
    + intros k k' Hk Hk'. rewrite !Hmap by done. destruct (decide (k = bn)) as [E1|E1], (decide (k' = bn)) as [E2|E2].
      * congruence.
      * intros _ E. destruct Hno. rewrite E. apply owns_map; [done|]. rewrite <- E. by apply (alloc_nonzero V sb).
      * intros Hn E. destruct Hno. rewrite <- E. by apply owns_map.
      * by apply (iw_inj _ _ _ HI).
    + intros k Hk. rewrite Hmap, Hind by done. destruct (decide (k = bn)) as [E1|E1].
      * intros _ E. destruct Hno. rewrite E. apply owns_ind. rewrite <- E. by apply (alloc_nonzero V sb).
      * by apply (iw_ind _ _ _ HI).
Qed.

(** A direct block. *)
Lemma extend_direct bn k : 0 <= bn < NDIRECT -> 0 <= k < MAXFILE ->
  inode_map (alloc_view V sb r) (set_addr bn r ip) k = if decide (k = bn) then r else inode_map V ip k.
Proof.
  intros Hbn Hk. pose proof (iw_len _ _ _ HI) as Hl.
  assert (ind_of (set_addr bn r ip) = ind_of ip) as Ei.
  { unfold ind_of, set_addr. cbn [i_addrs set_i_addrs]. unfold NDIRECT in *. apply aget_aset_ne; lia. }
  unfold inode_map at 1. rewrite Ei. destruct (Z.ltb_spec k NDIRECT) as [Hlt|Hge].
  - unfold set_addr. cbn [i_addrs set_i_addrs]. unfold NDIRECT in *. rewrite aget_aset by lia.
    destruct (decide (bn = k)) as [E1|E1], (decide (k = bn)) as [E2|E2]; [done|lia|lia|].
    unfold inode_map. by rewrite (proj2 (Z.ltb_lt _ _)).
  - rewrite decide_False by lia. rewrite <- (alloc_map V sb r Hr Hf ip k HI). unfold inode_map.
    by rewrite (proj2 (Z.ltb_ge _ _)).
Qed.

(** A new indirect block maps nothing yet. *)
Lemma zero_ld32 o : ld32 zero_block o = 0.
Proof.
  assert (forall i, aget 0 zero_block i = 0) as H.
  { intros i. unfold aget, zero_block. rewrite nth_lookup.
    destruct (replicate _ _ !! _) eqn:E; [|done]. by apply lookup_replicate in E as [-> _]. }
  unfold ld32. by rewrite !H.
Qed.
Lemma root_map k : ind_of ip = 0 -> 0 <= k < MAXFILE ->
  inode_map (alloc_view V sb r) (set_addr NDIRECT r ip) k = inode_map V ip k.
Proof.
  intros E Hk. pose proof (iw_len _ _ _ HI) as Hl.
  assert (ind_of (set_addr NDIRECT r ip) = r) as Ei.
  { unfold ind_of, set_addr. cbn [i_addrs set_i_addrs]. unfold NDIRECT. apply aget_aset_eq. lia. }
  unfold inode_map. rewrite Ei, E. destruct (Z.ltb_spec k NDIRECT) as [Hlt|Hge].
  - unfold set_addr. cbn [i_addrs set_i_addrs]. unfold NDIRECT in *. by rewrite aget_aset_ne by lia.
  - rewrite (proj2 (Z.eqb_neq r 0)) by (by apply (alloc_nonzero V sb)). rewrite alloc_fresh, zero_ld32. done.
Qed.
Lemma root_wf : ind_of ip = 0 -> inode_wf (alloc_view V sb r) sb (set_addr NDIRECT r ip).
Proof.
  intros E. pose proof (iw_len _ _ _ HI) as Hl. pose proof not_owned as Hno.
  assert (ind_of (set_addr NDIRECT r ip) = r) as Ei.
  { unfold ind_of, set_addr. cbn [i_addrs set_i_addrs]. unfold NDIRECT. apply aget_aset_eq. lia. }
  assert (forall b, owns (alloc_view V sb r) (set_addr NDIRECT r ip) b -> b = r \/ owns V ip b) as Hown.
  { intros b [Hb0 [Eb|(k & Hk & Ek)]]; [left; congruence|right]. rewrite root_map in Ek by done.
    subst b. by apply owns_map. }
  split.
  - cbn [set_addr i_addrs set_i_addrs]. by rewrite length_aset.
  - intros b [->|Ho]%Hown; [done|]. by apply (iw_range _ _ _ HI).
  - intros b [->|Ho]%Hown; rewrite alloc_in_use by (done || by apply (iw_range _ _ _ HI)).
    + by rewrite Z.eqb_refl, orb_true_r.
    + by rewrite (iw_used _ _ _ HI).
  - intros b [->|Ho]%Hown; [by apply (alloc_no_bitmap V)|]. by apply (iw_bitmap _ _ _ HI).
  - intros b [->|Ho]%Hown; [by rewrite alloc_fresh|]. rewrite (proj2 (alloc_owned V sb r Hr Hf ip b HI Ho)).
    by apply (iw_block _ _ _ HI).
  - intros k k' Hk Hk'. rewrite !root_map by done. by apply (iw_inj _ _ _ HI).
  - intros k Hk. rewrite root_map, Ei by done. intros Hn Er. destruct Hno. rewrite <- Er. by apply owns_map.
Qed.

(** A new entry of the indirect block. *)
Definition entry_view (bn : Z) : Z -> list Z :=
  dset (alloc_view V sb r) (ind_of ip) (st32 (alloc_view V sb r (ind_of ip)) (4 * (bn - NDIRECT)) r).
Lemma entry_map bn k : NDIRECT <= bn < MAXFILE -> 0 <= k < MAXFILE -> ind_of ip <> 0 ->
  inode_map (entry_view bn) ip k = if decide (k = bn) then r else inode_map V ip k.
Proof.
  intros Hbn Hk Hi. destruct (alloc_owned V sb r Hr Hf ip _ HI (owns_ind V ip Hi)) as [_ E].
  pose proof (iw_block _ _ _ HI _ (owns_ind V ip Hi)) as Hl.
  unfold inode_map. rewrite (proj2 (Z.eqb_neq (ind_of ip) 0)) by done.
  destruct (Z.ltb_spec k NDIRECT) as [Hlt|Hge]; [by rewrite decide_False by lia|].
  unfold entry_view. rewrite dset_eq, E. change MAXFILE with 268 in *. unfold NDIRECT, BSIZE in *.
  pose proof (so_size _ (bo_sb _ _ (dw_bitmap _ _ HW))) as Hsz. change (2 ^ 31) with 2147483648 in Hsz.
  destruct (decide (k = bn)) as [->|Hne].
  - apply ld32_st32; [rewrite Hl; lia|change (2 ^ 32) with 4294967296; lia].
  - apply ld32_st32_other; [rewrite Hl; lia|lia|lia].
Qed.
End extend.

(** ** Running bmap *)

(** What operations on an inode do not change. *)
Record tx_keep (fs fs' : fsstate) : Prop := {
  tk_sb : fs_sb fs' = fs_sb fs;
  tk_isl : forall i, fs_sl fs' (SL_inode i) = fs_sl fs (SL_inode i);
  tk_disk : same_disk fs fs';
  tk_outstanding : log_outstanding (fs_log fs') = log_outstanding (fs_log fs);
  tk_committing : log_committing (fs_log fs') = log_committing (fs_log fs)
}.
Lemma tx_keep_refl fs : tx_keep fs fs.
Proof. by split. Qed.
Lemma tx_keep_trans a b c : tx_keep a b -> tx_keep b c -> tx_keep a c.
Proof. intros [? ? [? ?] ? ?] [? ? [? ?] ? ?]. split; try congruence. split; congruence. Qed.

Lemma log_after_keep lg B b : log_outstanding (log_after lg B b) = log_outstanding lg /\
  log_committing (log_after lg B b) = log_committing lg.
Proof. unfold log_after. by case_decide. Qed.
Lemma tx_keep_same fs fs' : tx_same fs fs' -> log_outstanding (fs_log fs') = log_outstanding (fs_log fs) ->
  log_committing (fs_log fs') = log_committing (fs_log fs) -> tx_keep fs fs'.
Proof. by intros [? ? ? ?] ? ?. Qed.
Lemma tx_keep_log fs fs' : tx_same fs fs' -> fs_log fs' = fs_log fs -> tx_keep fs fs'.
Proof. intros H E. apply tx_keep_same; by rewrite ?E. Qed.
Lemma tx_keep_after fs fs' B b : tx_same fs fs' -> fs_log fs' = log_after (fs_log fs) B b -> tx_keep fs fs'.
Proof. intros H E. destruct (log_after_keep (fs_log fs) B b). apply tx_keep_same; by rewrite ?E. Qed.
Lemma tx_keep_upd fs i f : tx_keep fs (upd_inode i f fs).
Proof. by split. Qed.

(** The blocks an operation may add to the log. *)
Definition log_grows (sb : superblock) (B B' : list Z) : Prop :=
  forall b, b ∈ B' -> b ∈ B \/ 0 <= b < sb_size sb \/ exists b', 0 <= b' < sb_size sb /\ b = BBLOCK b' sb.
Lemma log_grows_refl sb B : log_grows sb B B.
Proof. intros b. by left. Qed.
Lemma log_grows_trans sb B1 B2 B3 : log_grows sb B1 B2 -> log_grows sb B2 B3 -> log_grows sb B1 B3.
Proof. intros H1 H2 b [H|H]%H2; [by apply H1|by right]. Qed.
Lemma log_grows_block sb B b : 0 <= b < sb_size sb -> log_grows sb B (logged B b).
Proof. intros Hb x [H| ->]%logged_in; [by left|by right; left]. Qed.
Lemma log_grows_bitmap sb B b : 0 <= b < sb_size sb -> log_grows sb B (logged B (BBLOCK b sb)).
Proof. intros Hb x [H| ->]%logged_in; [by left|]. right; right. by exists b. Qed.

Lemma tx_data pid start fs V B Hs i b : txn pid start fs V B Hs -> b ∈ Hs -> is_buf fs i b -> b_data (buf_at fs i) = V b.
Proof.
  intros [(L & I) _ _ _ _] Hb Hi. pose proof (bi_held _ _ _ _ _ _ I b Hb) as HP.
  destruct (bi_cached _ _ _ _ _ _ I b ltac:(lia)) as (j & Hj & Hv).
  rewrite (bi_uniq _ _ _ _ _ _ I i j b Hi Hj). by apply (bi_data _ _ _ _ _ _ I).
Qed.

Section run.
Context `{D : Disk} `{!DiskOk D} (p : nat) (pid start : Z) (sb : superblock).
Implicit Types (V : Z -> list Z) (B : list Z) (Hs : gset Z).

(** [balloc] while only blocks of files are held. *)
Lemma balloc_use fs V B Hs : txn pid start fs V B Hs -> fs_sb fs = sb -> disk_wf V sb ->
  (forall b, b ∈ Hs -> no_bitmap sb b /\ in_use V sb b = true) ->
  (length B + size Hs + 1 < NBUF)%nat -> (length B < 28)%nat ->
  exists r fs', fsr p pid [] (balloc ROOTDEV) fs r [] fs' /\ bufs_kept Hs fs fs' /\ tx_keep fs fs' /\
    fs_itable fs' = fs_itable fs /\
    (r = 0 /\ txn pid start fs' V B Hs /\ (forall b, 0 <= b < sb_size sb -> in_use V sb b = true) \/
     r <> 0 /\ 0 <= r < sb_size sb /\ in_use V sb r = false /\
     exists B', txn pid start fs' (alloc_view V sb r) B' Hs /\ (length B' <= length B + 2)%nat /\ log_grows sb B B').
Proof.
  intros T Esb HW Hh Hn HB.
  destruct (balloc_ok p pid start sb V B Hs) with (fs := fs) as (r & fs' & R & Kp & S & Hr); try done.
  { intros b Hb. split.
    - intros [Hb' _]%Hh. by apply (Hb' b Hb).
    - intros Hu [_ Hb']%Hh. congruence. }
  { apply (bo_sb _ _ (dw_bitmap _ _ HW)). }
  exists r, fs'. split; [exact R|]. split; [exact Kp|].
  destruct Hr as [(Ha & -> & T' & E)|(Hr & Hf & _ & T' & E)].
  - split; [by apply tx_keep_log|]. split; [apply S|]. by left.
  - destruct (log_after_keep (fs_log fs) B (BBLOCK r sb)) as [E1 E2].
    destruct (log_after_keep (log_after (fs_log fs) B (BBLOCK r sb)) (logged B (BBLOCK r sb)) r) as [E3 E4].
    split; [apply tx_keep_same; [done|by rewrite E, E3|by rewrite E, E4]|]. split; [apply S|]. right.
    split; [by apply (alloc_nonzero V sb)|]. split; [done|]. split; [done|].
    eexists. split; [exact T'|]. split.
    + pose proof (length_logged B (BBLOCK r sb)). pose proof (length_logged (logged B (BBLOCK r sb)) r). lia.
    + eapply log_grows_trans; [by apply log_grows_bitmap|by apply log_grows_block].
Qed.

(** The result [a] of [bmap] for block [bn], the contents and the inode
    afterwards: [bn] is mapped to [a], a block that is zeroed if it is new;
    the rest of the map is as before, and so are the blocks of other
    files. *)
Record bmap_post V B (ip : inode) (bn a : Z) V' B' (ip' : inode) (n : nat) : Prop := {
  bp_disk : disk_wf V' sb;
  bp_inode : inode_wf V' sb ip';
  bp_map : forall k, 0 <= k < MAXFILE -> inode_map V' ip' k = if decide (k = bn) then a else inode_map V ip k;
  bp_old : inode_map V ip bn <> 0 -> a = inode_map V ip bn;
  bp_fresh : inode_map V ip bn = 0 -> a <> 0 -> in_use V sb a = false /\ V' a = zero_block;
  bp_fail : a = 0 -> forall b, 0 <= b < sb_size sb -> in_use V' sb b = true;
  bp_own : forall b, owns V' ip' b -> owns V ip b \/ in_use V sb b = false;
  bp_keep : forall b, 0 <= b < sb_size sb -> in_use V sb b = true -> no_bitmap sb b -> (b = ind_of ip -> ind_of ip = 0) -> V' b = V b;
  bp_used : forall b, 0 <= b < sb_size sb -> in_use V sb b = true -> in_use V' sb b = true;
  bp_addrs : exists l, ip' = set_i_addrs l ip;
  bp_log : log_grows sb B B';
  bp_len : (length B' <= length B + n)%nat
}.

Lemma bmap_post_same V B ip bn n : disk_wf V sb -> inode_wf V sb ip ->
  (inode_map V ip bn = 0 -> forall b, 0 <= b < sb_size sb -> in_use V sb b = true) -> bmap_post V B ip bn (inode_map V ip bn) V B ip n.
Proof.
  intros HW HI Hfl. split; try done.
  - intros k Hk. by case_decide; subst.
  - intros b. by left.
  - by exists (i_addrs ip); destruct ip.
  - apply log_grows_refl.
  - lia.
Qed.

(** [bmap] after the allocation of the indirect block. *)
Lemma bmap_post_root V B B1 ip r bn a V' B' ip' : disk_wf V sb -> inode_wf V sb ip ->
  0 <= r < sb_size sb -> in_use V sb r = false -> ind_of ip = 0 -> log_grows sb B B1 -> (length B1 <= length B + 2)%nat ->
  ip' = set_addr NDIRECT r ip -> NDIRECT <= bn < MAXFILE ->
  bmap_post (alloc_view V sb r) B1 ip' bn a V' B' ip' 3 -> bmap_post V B ip bn a V' B' ip' 5.
Proof.
  intros HW HI Hr Hf E0 HG HB1 Eip Hbn [H1 H2 H3 Hold H4 Hfail Hown H5 H6 H7 H8 H9]. subst ip'.
  assert (forall b, 0 <= b < sb_size sb -> in_use V sb b = true -> in_use (alloc_view V sb r) sb b = true /\ b <> r) as HU.
  { intros b Hb Hu. split; [rewrite alloc_in_use by done; by rewrite Hu|]. intros ->. congruence. }
  assert (ind_of (set_addr NDIRECT r ip) = r) as Ein.
  { pose proof (iw_len _ _ _ HI). unfold ind_of, set_addr. cbn [i_addrs set_i_addrs]. unfold NDIRECT.
    apply aget_aset_eq. lia. }
  assert (0 <= bn < MAXFILE) as Hbn' by (unfold NDIRECT in Hbn; lia).
  split; [done|done| | | |done| | | |by eexists| |lia].
  - intros k Hk. rewrite H3 by done. case_decide; [done|]. by apply root_map.
  - intros Hm. rewrite Hold by (by rewrite root_map). by apply root_map.
  - intros Hm Ha. destruct H4 as [Hu Hz]; [by rewrite root_map|done|]. split; [|done].
    destruct (in_use V sb a) eqn:E; [|done].
    assert (0 <= a < sb_size sb) as Har.
    { apply (iw_range _ _ _ H2). pose proof (H3 bn Hbn') as E3. rewrite decide_True in E3 by done.
      rewrite <- E3. apply owns_map; [done|]. by rewrite E3. }
    destruct (HU a Har E). congruence.
  - intros b Ho. destruct (Hown b Ho) as [[Hb0 [Eb|(k & Hk & Ek)]]|Hu].
    + right. by rewrite Eb, Ein.
    + left. rewrite root_map in Ek by done. subst b. by apply owns_map.
    + destruct (in_use V sb b) eqn:E; [|by right]. destruct (HU b (iw_range _ _ _ H2 b Ho) E). congruence.
  - intros b Hb Hu Hn Hne. destruct (HU b Hb Hu) as [Hu' Hbr]. rewrite H5; [by apply alloc_other|done|done|done|].
    rewrite Ein. congruence.
  - intros b Hb Hu. apply H6; [done|]. by apply HU.
  - by eapply log_grows_trans.
Qed.

Lemma MAXFILE_eq : MAXFILE = 268.
Proof. reflexivity. Qed.

(** A new entry of the indirect block. *)
Lemma bmap_entry fs V B ip bn : txn pid start fs V B ∅ -> fs_sb fs = sb -> disk_wf V sb -> inode_wf V sb ip ->
  NDIRECT <= bn < MAXFILE -> ind_of ip <> 0 -> inode_map V ip bn = 0 -> (length B < 26)%nat ->
  exists a fs' V' B', fsr p pid []
    (bp ← bread ROOTDEV (ind_of ip);
     x ← get_buf bp;
     let addr := ld32 (b_data x) (4 * (bn - NDIRECT)) in
     addr ← (if addr =? 0 then
               addr ← balloc ROOTDEV;
               kwhen (negb (addr =? 0))
                 (mod_data bp (fun l => st32 l (4 * (bn - NDIRECT)) addr);; log_write bp);;
               mret addr
             else mret addr);
     brelse bp;;
     mret addr) fs a [] fs' /\
    txn pid start fs' V' B' ∅ /\ tx_keep fs fs' /\ fs_itable fs' = fs_itable fs /\ bmap_post V B ip bn a V' B' ip 3.
Proof.
  intros T Esb HW HI Hbn Hi Em0 HB. set (c := ind_of ip) in *.
  pose proof (owns_ind V ip Hi) as Ho. fold c in Ho. pose proof (iw_range _ _ _ HI c Ho) as Hc.
  assert (inode_map V ip bn = ld32 (V c) (4 * (bn - NDIRECT))) as Em.
  { unfold inode_map. rewrite (proj2 (Z.ltb_ge _ _)), (proj2 (Z.eqb_neq _ 0)) by (done || lia). done. }
  assert (size (∅ : gset Z) = 0%nat) as Es0 by apply size_empty.
  destruct (tx_peek p pid start fs V B ∅ c T) as (i & fs1 & fs2 & R1 & B1 & D1 & T1 & K1 & S1 & E1 & R2 & T2 & _ & S2 & E2);
    [apply not_elem_of_empty|rewrite Es0; unfold NBUF; lia|].
  assert (ld32 (V c) (4 * (bn - NDIRECT)) = 0) as E0 by (by rewrite <- Em).
  rewrite union_empty_r_L in T1.
  destruct (balloc_use fs1 V B {[c]} T1) as (r & fs3 & R3 & K3 & P3 & It3 & Hr).
  { by rewrite (ts_sb _ _ S1). }
  { done. }
  { intros b ->%elem_of_singleton. split; [by apply (iw_bitmap _ _ _ HI)|by apply (iw_used _ _ _ HI)]. }
  { rewrite size_singleton. unfold NBUF. lia. }
  { lia. }
  assert (tx_keep fs fs3) as P by (apply (tx_keep_trans _ fs1); [by apply tx_keep_log|done]).
  assert (fs_itable fs3 = fs_itable fs) as It by (rewrite It3; apply S1).
  assert (is_buf fs3 i c) as B3 by (apply K3; [by apply elem_of_singleton|done]).
  destruct Hr as [(-> & T3 & Hall)|(Hr0 & Hr & Hf & B' & T3 & HB' & HG)].
  - destruct (tx_brelse p pid start fs3 V B _ i c T3) as (fs4 & R4 & T4 & _ & S4 & E4); [by apply elem_of_singleton|done|].
    exists 0, fs4, V, B. split_and!.
    + eapply fsr_bind; [exact R1|]. eapply fsr_bind; [apply fsr_get_buf|]. rewrite D1. cbv zeta. rewrite E0. cbn [Z.eqb].
      eapply fsr_bind; [eapply fsr_bind; [exact R3|]; cbn [negb Z.eqb kwhen]; eapply fsr_bind; apply fsr_ret|].
      eapply fsr_bind; [exact R4|apply fsr_ret].
    + by rewrite difference_diag_L in T4.
    + apply (tx_keep_trans _ fs3); [exact P|by apply tx_keep_log].
    + etransitivity; [apply S4|done].
    + rewrite <- Em0 at 1. by apply bmap_post_same.
  - set (v := st32 (alloc_view V sb r c) (4 * (bn - NDIRECT)) r).
    destruct (tx_log_write p pid start fs3 _ B' {[c]} i c v T3) as (fs4 & R4 & T4 & B4 & S4 & E4);
      [by apply elem_of_singleton|done|lia|].
    destruct (tx_brelse p pid start fs4 _ _ _ i c T4) as (fs5 & R5 & T5 & _ & S5 & E5);
      [by apply elem_of_singleton|by apply B4|].
    assert (fsr p pid [] (mod_data i (fun l => st32 l (4 * (bn - NDIRECT)) r)) fs3 tt [] (upd_buf i (set_b_data v) fs3)) as Rm.
    { eapply fsr_eq; [apply fsr_mod_buf|]. unfold v.
      rewrite <- (tx_data pid start fs3 _ B' {[c]} i c T3) by (done || by apply elem_of_singleton).
      apply (upd_data_const fs3 i (buf_at fs3 i) (fun l => st32 l (4 * (bn - NDIRECT)) r)); [done|]. destruct T3 as [(L & I) _ _ _ _]. rewrite (bi_len _ _ _ _ _ _ I).
      destruct B3. lia. }
    pose proof (iw_len _ _ _ HI) as Hl13. rewrite MAXFILE_eq in Hbn.
    destruct (extend_wf V sb ip r HW HI Hr Hf (entry_view V sb ip r bn) ip bn) as (HW' & HI' & HU').
    { rewrite MAXFILE_eq. unfold NDIRECT in Hbn. lia. }
    { done. }
    { done. }
    { done. }
    { intros k Hk. apply entry_map; (done || (rewrite MAXFILE_eq; unfold NDIRECT in *; lia)). }
    { intros b Hb. unfold entry_view. apply dset_ne. destruct Hb as [Hb|Hb]; [done|]. fold c in Hb. done. }
    { intros _. unfold entry_view. fold c. rewrite dset_eq, length_st32.
      rewrite (proj2 (alloc_owned V sb r Hr Hf ip c HI Ho)). by apply (iw_block _ _ _ HI). }
    exists r, fs5, (entry_view V sb ip r bn), (logged B' c). split_and!.
    + eapply fsr_bind; [exact R1|]. eapply fsr_bind; [apply fsr_get_buf|]. rewrite D1. cbv zeta. rewrite E0. cbn [Z.eqb].
      eapply fsr_bind; [eapply fsr_bind; [exact R3|]; rewrite (proj2 (Z.eqb_neq r 0)) by done; cbn [negb kwhen];
        apply fsr_assoc; eapply fsr_bind; [exact Rm|]; eapply fsr_bind; [exact R4|apply fsr_ret]|].
      eapply fsr_bind; [exact R5|apply fsr_ret].
    + by rewrite difference_diag_L in T5.
    + apply (tx_keep_trans _ fs3); [exact P|]. apply (tx_keep_trans _ fs4); [by eapply tx_keep_after|by apply tx_keep_log].
    + etransitivity; [apply S5|]. etransitivity; [apply S4|done].
    + split; try done; try (intros ?; congruence).
      * intros k Hk. apply entry_map; (done || (rewrite MAXFILE_eq; unfold NDIRECT in *; lia)).
      * intros _ _. split; [done|]. unfold entry_view. rewrite dset_ne; [apply alloc_fresh|].
        intros ->. pose proof (iw_used _ _ _ HI c Ho) as Hu. unfold c in Hu. congruence.
      * intros b [Hb0 [->|(k & Hk & Ek)]]; [left; by apply owns_ind|].
        rewrite entry_map in Ek by (done || (rewrite MAXFILE_eq; unfold NDIRECT in *; lia)).
        case_decide; [right; congruence|left]. subst b. by apply owns_map.
      * intros b Hb Hu Hn Hne. unfold entry_view. rewrite dset_ne by (intros E; by apply Hi, Hne). apply alloc_other; [done| |done].
        intros ->. congruence.
      * intros b Hb Hu. rewrite HU' by done. by rewrite Hu.
      * by exists (i_addrs ip); destruct ip.
      * eapply log_grows_trans; [exact HG|by apply log_grows_block].
      * pose proof (length_logged B' c). lia.
Qed.

(** The inode table with [ip'] in slot [i]. *)
Definition put_inode (i : nat) (ip' : inode) (t : list inode) : list inode := <[i := ip']> t.

Lemma upd_inode_put fs i f : (i < length (fs_itable fs))%nat ->
  fs_itable (upd_inode i f fs) = put_inode i (f (inode_at fs i)) (fs_itable fs).
Proof.
  intros Hi. unfold upd_inode, put_inode, inode_at. cbn [fs_itable set_fs_itable].
  rewrite list_insert_alter. apply list_alter_ext; [|done].
  intros x Hx. by rewrite nth_lookup, Hx.
Qed.
Lemma put_inode_id fs i : (i < length (fs_itable fs))%nat ->
  put_inode i (inode_at fs i) (fs_itable fs) = fs_itable fs.
Proof.
  intros Hi. unfold put_inode, inode_at. apply list_insert_id. rewrite nth_lookup.
  destruct (lookup_lt_is_Some_2 _ _ Hi) as [x ->]. done.
Qed.

(** [bmap] of a block that is mapped only reads. *)
Lemma bmap_lookup fs V B i bn : let ip := inode_at fs i in
  txn pid start fs V B ∅ -> fs_sb fs = sb -> inode_wf V sb ip -> i_dev ip = ROOTDEV ->
  0 <= bn < MAXFILE -> inode_map V ip bn <> 0 -> (length B < NBUF)%nat ->
  exists fs', fsr p pid [] (bmap i bn) fs (inode_map V ip bn) [] fs' /\ txn pid start fs' V B ∅ /\ tx_keep fs fs' /\
    fs_itable fs' = fs_itable fs.
Proof.
  intros ip T Esb HI Hdev Hbn Hm HB. unfold inode_map in Hm |- *. destruct (Z.ltb_spec bn NDIRECT) as [Hd|Hd].
  { exists fs. split_and!; [|done|apply tx_keep_refl|done]. unfold bmap. eapply fsr_bind; [apply fsr_get_inode|]. fold ip.
    rewrite (proj2 (Z.ltb_lt _ _)) by done. cbv zeta. rewrite (proj2 (Z.eqb_neq _ 0)) by done. apply fsr_ret. }
  destruct (Z.eqb_spec (ind_of ip) 0) as [E0|E0]; [done|].
  destruct (tx_peek p pid start fs V B ∅ (ind_of ip) T) as
    (b & fs1 & fs2 & R1 & _ & D1 & _ & _ & _ & _ & R2 & T2 & _ & S2 & E2);
    [apply not_elem_of_empty|rewrite size_empty; lia|].
  exists fs2. split_and!; [|done|by apply tx_keep_log|apply S2].
  unfold bmap. eapply fsr_bind; [apply fsr_get_inode|]. fold ip.
  rewrite MAXFILE_eq in Hbn. rewrite (proj2 (Z.ltb_ge bn _)) by lia. cbv zeta.
  rewrite (proj2 (Z.ltb_lt (bn - NDIRECT) _)) by (change NINDIRECT with 256; unfold NDIRECT; lia).
  fold (ind_of ip). rewrite (proj2 (Z.eqb_neq (ind_of ip) 0)), Hdev by done.
  eapply fsr_bind; [apply fsr_ret|]. rewrite (proj2 (Z.eqb_neq (ind_of ip) 0)) by done.
  eapply fsr_bind; [exact R1|]. eapply fsr_bind; [apply fsr_get_buf|]. rewrite D1.
  rewrite (proj2 (Z.eqb_neq _ 0)) by done. eapply fsr_bind; [apply fsr_ret|].
  eapply fsr_bind; [exact R2|apply fsr_ret].
Qed.

Section new.
Context (fs : fsstate) (V : Z -> list Z) (B : list Z) (i : nat) (bn : Z).
Context (ip := inode_at fs i).
Hypothesis (T : txn pid start fs V B ∅) (Esb : fs_sb fs = sb) (HW : disk_wf V sb) (HI : inode_wf V sb ip).
Hypothesis (Hdev : i_dev ip = ROOTDEV) (Hlt : (i < length (fs_itable fs))%nat) (HB : (length B < 24)%nat).
Hypothesis (Hm : inode_map V ip bn = 0).

Let post (a : Z) fs' V' B' ip' : Prop :=
  fsr p pid [] (bmap i bn) fs a [] fs' /\ txn pid start fs' V' B' ∅ /\ tx_keep fs fs' /\
  fs_itable fs' = put_inode i ip' (fs_itable fs) /\ bmap_post V B ip bn a V' B' ip' 5.

(** The disk is full. *)
Lemma bmap_full fs1 : (forall b, 0 <= b < sb_size sb -> in_use V sb b = true) -> fsr p pid [] (bmap i bn) fs 0 [] fs1 -> txn pid start fs1 V B ∅ -> tx_keep fs fs1 ->
  fs_itable fs1 = fs_itable fs -> post 0 fs1 V B ip.
Proof.
  intros Hall R T1 P1 It1. split_and!; [done|done|done|rewrite It1; exact (eq_sym (put_inode_id fs i Hlt))|].
  rewrite <- Hm at 1. by apply bmap_post_same.
Qed.

Lemma bmap_direct : 0 <= bn < NDIRECT -> exists a fs' V' B' ip', post a fs' V' B' ip'.
Proof.
  intros Hd. pose proof (iw_len _ _ _ HI) as Hl13.
  assert (0 <= bn < MAXFILE) as Hbn by (rewrite MAXFILE_eq; unfold NDIRECT in Hd; lia).
  destruct (balloc_use fs V B ∅ T Esb HW) as (r & fs1 & R1 & _ & P1 & It1 & Hr);
    [intros b Hb; by apply elem_of_empty in Hb|rewrite size_empty; unfold NBUF; lia|lia|].
  assert (forall a fs', fsr p pid [] (addr ← balloc ROOTDEV; if addr =? 0 then mret 0 else
      mod_inode i (fun ip => set_i_addrs (aset (i_addrs ip) bn addr) ip);; mret addr) fs a [] fs' ->
    fsr p pid [] (bmap i bn) fs a [] fs') as Hrun.
  { intros a fs' R. unfold bmap. eapply fsr_bind; [apply fsr_get_inode|]. fold ip. unfold inode_map in Hm.
    rewrite (proj2 (Z.ltb_lt _ _)) in Hm |- * by lia. cbv zeta. rewrite Hm, Hdev. exact R. }
  destruct Hr as [(-> & T1 & Hall)|(Hr0 & Hr & Hf & B' & T1 & HB' & HG)].
  { exists 0, fs1, V, B, ip. apply bmap_full; [done| |done..]. apply Hrun. eapply fsr_bind; [exact R1|apply fsr_ret]. }
  set (f := fun ip => set_i_addrs (aset (i_addrs ip) bn r) ip).
  assert (inode_at fs1 i = ip) as Ei by (unfold inode_at; by rewrite It1).
  assert (forall k, 0 <= k < MAXFILE -> inode_map (alloc_view V sb r) (set_addr bn r ip) k =
    if decide (k = bn) then r else inode_map V ip k) as Hmap by (intros k Hk; apply extend_direct; (done || lia)).
  assert (ind_of (set_addr bn r ip) = ind_of ip) as Ein.
  { unfold ind_of, set_addr. cbn [i_addrs set_i_addrs]. unfold NDIRECT in *. apply aget_aset_ne; lia. }
  destruct (extend_wf V sb ip r HW HI Hr Hf (alloc_view V sb r) (set_addr bn r ip) bn) as (HW' & HI' & HU'); try done.
  { cbn [set_addr i_addrs set_i_addrs]. by rewrite length_aset. }
  { intros Hi. rewrite (proj2 (alloc_owned V sb r Hr Hf ip _ HI (owns_ind V ip Hi))).
    by apply (iw_block _ _ _ HI), owns_ind. }
  exists r, (upd_inode i f fs1), (alloc_view V sb r), B', (set_addr bn r ip). split_and!.
  - apply Hrun. eapply fsr_bind; [exact R1|]. rewrite (proj2 (Z.eqb_neq _ 0)) by done.
    eapply fsr_bind; [apply fsr_mod_inode|apply fsr_ret].
  - by apply txn_itable.
  - apply (tx_keep_trans _ fs1); [done|apply tx_keep_upd].
  - rewrite upd_inode_put by (by rewrite It1). by rewrite Ei, It1.
  - split; try done; try (intros ?; congruence); [intros _ _; split; [done|apply alloc_fresh]| | | |by eexists|lia].
    + intros b [Hb0 [->|(k & Hk & Ek)]]; [left; rewrite Ein in *; by apply owns_ind|]. rewrite Hmap in Ek by done.
      destruct (decide (k = bn)); [right; congruence|left]. rewrite <- Ek in Hb0 |- *. by apply owns_map.
    + intros b Hb Hu Hn _. apply alloc_other; [done| |done]. intros ->. congruence.
    + intros b Hb Hu. rewrite HU' by done. by rewrite Hu.
Qed.

(** The indirect half of [bmap] from its two parts: the indirect block of
    [ip1], and its entry. *)
Lemma bmap_parts ip1 fs1 a fs' : NDIRECT <= bn < MAXFILE -> fsr p pid []
  (let addr := ind_of ip in
   if addr =? 0 then addr ← balloc ROOTDEV;
     kwhen (negb (addr =? 0)) (mod_inode i (fun ip => set_i_addrs (aset (i_addrs ip) NDIRECT addr) ip));; mret addr
   else mret addr) fs (ind_of ip1) [] fs1 -> ind_of ip1 <> 0 ->
  fsr p pid [] (bp ← bread ROOTDEV (ind_of ip1);
     x ← get_buf bp;
     let addr := ld32 (b_data x) (4 * (bn - NDIRECT)) in
     addr ← (if addr =? 0 then
               addr ← balloc ROOTDEV;
               kwhen (negb (addr =? 0))
                 (mod_data bp (fun l => st32 l (4 * (bn - NDIRECT)) addr);; log_write bp);;
               mret addr
             else mret addr);
     brelse bp;;
     mret addr) fs1 a [] fs' -> fsr p pid [] (bmap i bn) fs a [] fs'.
Proof.
  intros Hbn Ra Hne Rb. rewrite MAXFILE_eq in Hbn. unfold bmap. eapply fsr_bind; [apply fsr_get_inode|]. fold ip.
  rewrite (proj2 (Z.ltb_ge bn _)) by lia. cbv zeta.
  rewrite (proj2 (Z.ltb_lt (bn - NDIRECT) _)) by (change NINDIRECT with 256; unfold NDIRECT; lia).
  rewrite Hdev. eapply fsr_bind; [exact Ra|]. rewrite (proj2 (Z.eqb_neq _ 0)) by done. exact Rb.
Qed.

Lemma bmap_indirect : NDIRECT <= bn < MAXFILE -> exists a fs' V' B' ip', post a fs' V' B' ip'.
Proof.
  intros Hbn. pose proof (iw_len _ _ _ HI) as Hl13. destruct (decide (ind_of ip = 0)) as [E0|E0].
  2:{ destruct (bmap_entry fs V B ip bn T Esb HW HI Hbn E0 Hm) as (a & fs' & V' & B' & R & T' & P & It & Hp); [lia|].
      exists a, fs', V', B', ip. split_and!; [|done|done|rewrite It; exact (eq_sym (put_inode_id fs i Hlt))|].
      - apply (bmap_parts ip fs); [done| |done|exact R]. cbv zeta. rewrite (proj2 (Z.eqb_neq _ 0)) by done. apply fsr_ret.
      - destruct Hp. split; try done. lia. }
  destruct (balloc_use fs V B ∅ T Esb HW) as (r & fs1 & R1 & _ & P1 & It1 & Hr);
    [intros b Hb; by apply elem_of_empty in Hb|rewrite size_empty; unfold NBUF; lia|lia|].
  destruct Hr as [(-> & T1 & Hall)|(Hr0 & Hr & Hf & B1 & T1 & HB1 & HG)].
  { exists 0, fs1, V, B, ip. apply bmap_full; [done| |done..].
    rewrite MAXFILE_eq in Hbn. unfold bmap. eapply fsr_bind; [apply fsr_get_inode|]. fold ip.
    rewrite (proj2 (Z.ltb_ge bn _)) by lia. cbv zeta.
    rewrite (proj2 (Z.ltb_lt (bn - NDIRECT) _)) by (change NINDIRECT with 256; unfold NDIRECT; lia).
    fold (ind_of ip). rewrite E0, Hdev. cbn [Z.eqb].
    eapply fsr_bind; [eapply fsr_bind; [exact R1|]; cbn [negb Z.eqb kwhen]; eapply fsr_bind; apply fsr_ret|]. apply fsr_ret. }
  set (ip1 := set_addr NDIRECT r ip). set (f := fun ip => set_i_addrs (aset (i_addrs ip) NDIRECT r) ip).
  set (fs2 := upd_inode i f fs1).
  assert (inode_at fs1 i = ip) as Ei by (unfold inode_at; by rewrite It1).
  assert (ind_of ip1 = r) as Ein.
  { unfold ind_of, ip1, set_addr. cbn [i_addrs set_i_addrs]. unfold NDIRECT. apply aget_aset_eq. lia. }
  destruct (bmap_entry fs2 (alloc_view V sb r) B1 ip1 bn) as (a & fs' & V' & B' & R & T' & P & It & Hp);
    [by apply txn_itable|cbn; by rewrite (tk_sb _ _ P1)|by apply alloc_wf|by apply root_wf|done|by rewrite Ein| |lia|].
  { unfold ip1. rewrite root_map by (done || (unfold NDIRECT in Hbn; lia)). done. }
  exists a, fs', V', B', ip1. split_and!.
  - apply (bmap_parts ip1 fs2); [done| |by rewrite Ein|exact R]. cbv zeta. rewrite E0, Ein. cbn [Z.eqb].
    eapply fsr_bind; [exact R1|]. rewrite (proj2 (Z.eqb_neq r 0)) by done. cbn [negb kwhen].
    eapply fsr_bind; [apply fsr_mod_inode|apply fsr_ret].
  - done.
  - apply (tx_keep_trans _ fs2); [|done]. apply (tx_keep_trans _ fs1); [done|apply tx_keep_upd].
  - rewrite It. unfold fs2. rewrite upd_inode_put by (by rewrite It1). by rewrite Ei, It1.
  - by apply (bmap_post_root V B B1 ip r).
Qed.
End new.

Lemma bmap_ok fs V B i bn : let ip := inode_at fs i in
  txn pid start fs V B ∅ -> fs_sb fs = sb -> disk_wf V sb -> inode_wf V sb ip -> i_dev ip = ROOTDEV ->
  (i < length (fs_itable fs))%nat -> 0 <= bn < MAXFILE -> (length B < 24)%nat ->
  exists a fs' V' B' ip', fsr p pid [] (bmap i bn) fs a [] fs' /\ txn pid start fs' V' B' ∅ /\ tx_keep fs fs' /\
    fs_itable fs' = put_inode i ip' (fs_itable fs) /\ bmap_post V B ip bn a V' B' ip' 5.
Proof.
  intros ip T Esb HW HI Hdev Hlt Hbn HB. destruct (decide (inode_map V ip bn = 0)) as [Hm|Hm].
  - destruct (decide (bn < NDIRECT)); [apply bmap_direct|apply bmap_indirect]; (done || lia).
  - destruct (bmap_lookup fs V B i bn T Esb HI Hdev Hbn Hm) as (fs' & R & T' & P & It); [unfold NBUF; lia|].
    exists (inode_map V ip bn), fs', V, B, ip.
    split_and!; [done|done|done|rewrite It; exact (eq_sym (put_inode_id fs i Hlt))|by apply bmap_post_same].
Qed.
End run.
