(* ===== verification/FileData.v ===== *)
(** * FileData: the contents of files

    [readi] and [writei] of fs.c with kernel buffers, as used for
    directories and program loading, against the byte string the file
    stands for.  The logic of FsRun is extended to code that also reads and
    writes kernel memory. *)

From S2P Require Import Prelude.
From S2P Require Import State.
From S2P Require Import Kernel.
From S2P Require Import Sched.
From S2P Require Import SchedInv.
From S2P Require Import SchedProps.
From S2P Require Import Mem.
From S2P Require Import Kalloc.
From S2P Require Import Bio.
From S2P Require Import FsRun.
From S2P Require Import BioProps.
From S2P Require Import Log.
From S2P Require Import LogProps.
From S2P Require Import LogCrash.
From S2P Require Import Txn.
From S2P Require Import Vm.
From S2P Require Import Fs.
From S2P Require Import FsProps.
From S2P Require Import InodeProps.
From S2P Require Import BmapProps.

(** ** Storage and memory *)

Section fsm.
Context (p : nat) (pid : Z).

(** [fsr] for code that also changes the memory from [pm] to [pm']. *)
Definition fsm {A} (m : K A) (pm : physmem) (fs : fsstate) (a : A) (pm' : physmem) (fs' : fsstate) : Prop :=
  forall w, ctx p pid [] (w_k w) -> k_fs (w_k w) = fs -> k_pm (w_k w) = pm ->
  exists w', m w = Ret a w' /\ w_env w' = w_env w /\ ctx p pid [] (w_k w') /\
    frame p (w_k w) (set_k_pm pm (w_k w')) /\ k_fs (w_k w') = fs' /\ k_pm (w_k w') = pm'.

Lemma fsm_fsr {A} (m : K A) pm fs a fs' : fsr p pid [] m fs a [] fs' -> fsm m pm fs a pm fs'.
Proof.
  intros R w Hc Hf Hp. destruct (R w Hc Hf) as (w' & E & Hv & Hc' & Hfr & Hf').
  assert (k_pm (w_k w') = pm) as Hp' by (destruct Hfr as (ps & thr & fs0 & h & -> & _); done).
  exists w'. split_and!; try done.
  by replace (set_k_pm pm (w_k w')) with (w_k w') by (rewrite <- Hp'; by destruct (w_k w')).
Qed.

Lemma fsm_ret {A} pm fs (a : A) : fsm (mret a) pm fs a pm fs.
Proof. apply fsm_fsr, fsr_ret. Qed.

Lemma fsm_bind {A B} (m : K A) (f : A -> K B) pm fs a pm1 fs1 b pm2 fs2 :
  fsm m pm fs a pm1 fs1 -> fsm (f a) pm1 fs1 b pm2 fs2 -> fsm (x ← m; f x) pm fs b pm2 fs2.
Proof.
  intros H1 H2 w Hc Hf Hp. destruct (H1 w Hc Hf Hp) as (w1 & E1 & Hv1 & Hc1 & Hfr1 & Hf1 & Hp1).
  destruct (H2 w1 Hc1 Hf1 Hp1) as (w2 & E2 & Hv2 & Hc2 & Hfr2 & Hf2 & Hp2).
  exists w2. rewrite (bind_ret _ _ _ _ _ E1). split_and!; try done; [congruence|].
  eapply frame_trans; [exact Hfr1|]. destruct Hfr2 as (ps & thr & fs0 & h & Hs & Ep). exists ps, thr, fs0, h.
  split; [|exact Ep]. apply (f_equal (set_k_pm pm)) in Hs. transitivity (set_k_pm pm (set_k_pm pm1 (w_k w2))); [by destruct (w_k w2)|].
  rewrite Hs. by destruct (w_k w1).
Qed.

Lemma fsm_copyin pm fs src n :
  fsm (either_copyin false src n) pm fs (0, bytes (pm_mem pm) src (Z.to_nat n)) pm fs.
Proof.
  intros w Hc Hf Hp. exists w. rewrite <- Hp. split_and!; try done.
  replace (set_k_pm (k_pm (w_k w)) (w_k w)) with (w_k w) by (by destruct (w_k w)). apply frame_refl.
Qed.
End fsm.

(** ** The bytes of a file *)

Definition file_byte (V : Z -> list Z) (ip : inode) (k : Z) : Z :=
  aget 0 (V (inode_map V ip (k / BSIZE))) (k mod BSIZE).
Definition file_bytes (V : Z -> list Z) (ip : inode) (off : Z) (n : nat) : list Z :=
  (fun j => file_byte V ip (off + Z.of_nat j)) <$> seq 0 n.

Lemma length_file_bytes V ip off n : length (file_bytes V ip off n) = n.
Proof. unfold file_bytes. by rewrite length_fmap, length_seq. Qed.
Lemma file_bytes_app V ip off n m :
  file_bytes V ip off (n + m) = file_bytes V ip off n ++ file_bytes V ip (off + Z.of_nat n) m.
Proof.
  unfold file_bytes. rewrite seq_app, fmap_app. f_equal. change (0 + n)%nat with n.
  rewrite <- (Nat.add_0_r n) at 1. rewrite <- fmap_add_seq, <- list_fmap_compose.
  apply list_fmap_ext. intros k x _. simpl. f_equal. lia.
Qed.
Lemma file_bytes_lookup V ip off n j : (j < n)%nat -> file_bytes V ip off n !! j = Some (file_byte V ip (off + Z.of_nat j)).
Proof. intros Hj. unfold file_bytes. by rewrite list_lookup_fmap, lookup_seq_lt. Qed.

Lemma BSIZE_eq : BSIZE = 1024.
Proof. reflexivity. Qed.

(** Positions within the block of [off]. *)
Lemma same_block off j : 0 <= off -> 0 <= j < BSIZE - off mod BSIZE ->
  (off + j) / BSIZE = off / BSIZE /\ (off + j) mod BSIZE = off mod BSIZE + j.
Proof. rewrite BSIZE_eq. intros H1 H2. split; zlia. Qed.

Lemma slice_file V ip off m : 0 <= off -> 0 <= m <= BSIZE - off mod BSIZE ->
  length (V (inode_map V ip (off / BSIZE))) = Z.to_nat BSIZE ->
  slice (V (inode_map V ip (off / BSIZE))) (off mod BSIZE) m = file_bytes V ip off (Z.to_nat m).
Proof.
  intros Ho Hm Hl. assert (0 <= off mod BSIZE < BSIZE) as Hr by (apply Z.mod_pos_bound; reflexivity).
  assert (Z.to_nat BSIZE = 1024%nat) as Eb by reflexivity. rewrite BSIZE_eq in Hr.
  unfold slice. apply list_eq. intros j. destruct (decide (j < Z.to_nat m)%nat) as [Hj|Hj].
  - rewrite lookup_take_lt, lookup_drop by done. rewrite file_bytes_lookup by done. unfold file_byte.
    destruct (same_block off (Z.of_nat j)) as [-> ->]; [done|lia|]. unfold aget.
    rewrite BSIZE_eq in *. rewrite nth_lookup.
    replace (Z.to_nat (off mod 1024 + Z.of_nat j)) with (Z.to_nat (off mod 1024) + j)%nat by lia.
    destruct (lookup_lt_is_Some_2 (V (inode_map V ip (off / 1024))) (Z.to_nat (off mod 1024) + j)) as [x ->]; [lia|done].
  - rewrite lookup_take_ge by lia. symmetry. apply lookup_ge_None. rewrite length_file_bytes. lia.
Qed.

Lemma store_bytes_app l1 : forall l2 a m,
  store_bytes (l1 ++ l2) a m = store_bytes l2 (a + Z.of_nat (length l1)) (store_bytes l1 a m).
Proof.
  induction l1 as [|x l1 IH]; intros l2 a m; cbn [app store_bytes length].
  - by rewrite Z.add_0_r.
  - rewrite IH. f_equal. lia.
Qed.

(** ** Reading *)

Section read.
Context `{D : Disk} `{!DiskOk D} (p : nat) (pid start : Z) (sb : superblock).
Context (i : nat) (ip : inode) (V : Z -> list Z) (B : list Z).
Hypothesis (HI : inode_wf V sb ip) (Hdev : i_dev ip = ROOTDEV) (HB : (length B < NBUF)%nat).

(** Bytes [off] to [off + n] of the file have blocks. *)
Definition mapped_range (off n : Z) : Prop := forall k, off <= k < off + n -> inode_map V ip (k / BSIZE) <> 0.

Lemma fsm_copyout pm fs dst l :
  fsm p pid (either_copyout false dst l) pm fs 0 (set_pm_mem (store_bytes l dst (pm_mem pm)) pm) fs.
Proof.
  intros w Hc Hf Hp. eexists. split; [done|]. cbn. split; [done|]. destruct Hc as [? ? ? ? ?].
  split; [by split|]. rewrite Hp. split_and!; [|done|done].
  exists (k_ps (w_k w)), (k_thr (w_k w)), (k_fs (w_k w)), (k_held (w_k w)). split; [rewrite <- Hp; by destruct (w_k w)|done].
Qed.

Lemma readi_loop_ok : forall fuel dst off n tot fs pm,
  txn pid start fs V B ∅ -> fs_sb fs = sb -> inode_at fs i = ip ->
  0 <= tot <= n -> (Z.to_nat (n - tot) <= fuel)%nat -> 0 <= off -> off + (n - tot) <= MAXFILE * BSIZE ->
  mapped_range off (n - tot) -> 0 <= dst -> dst + (n - tot) < 2 ^ 64 ->
  exists fs', fsm p pid (readi_loop fuel i false dst off n tot) pm fs n
      (set_pm_mem (store_bytes (file_bytes V ip off (Z.to_nat (n - tot))) dst (pm_mem pm)) pm) fs' /\
    txn pid start fs' V B ∅ /\ tx_keep fs fs' /\ fs_itable fs' = fs_itable fs.
Proof.
  induction fuel as [|fuel IH]; intros dst off n tot fs pm T Esb Ei Ht Hf Ho Hmax Hmap Hd Hd64; cbn [readi_loop].
  all: destruct (Z.ltb_spec tot n) as [Hlt|Hge]; try lia.
  1,3: assert (tot = n) as -> by lia; exists fs; rewrite Z.sub_diag;
    change (store_bytes (file_bytes V ip off (Z.to_nat 0)) dst (pm_mem pm)) with (pm_mem pm);
    split_and!; [|done|apply tx_keep_refl|done]; replace (set_pm_mem (pm_mem pm) pm) with pm by (by destruct pm); apply fsm_ret.
  set (a := inode_map V ip (off / BSIZE)). set (m := Z.min (n - tot) (BSIZE - off mod BSIZE)).
  assert (a <> 0) as Ha by (apply Hmap; lia).
  assert (0 <= off mod BSIZE < BSIZE) as Hr by (apply Z.mod_pos_bound; reflexivity).
  assert (0 <= off / BSIZE < MAXFILE) as Hbn.
  { rewrite MAXFILE_eq in *. rewrite BSIZE_eq in *. split; [apply Z.div_pos; lia|apply Z.div_lt_upper_bound; lia]. }
  assert (0 < m <= n - tot /\ m <= BSIZE - off mod BSIZE) as [Hm1 Hm2] by (unfold m; lia).
  destruct (bmap_lookup p pid start sb fs V B i (off / BSIZE) T Esb) as (fs1 & R1 & T1 & P1 & It1); rewrite ?Ei; try done.
  assert (inode_at fs1 i = ip) as Ei1 by (unfold inode_at; by rewrite It1).
  pose proof (owns_map V ip _ Hbn Ha) as Hown.
  destruct (tx_peek p pid start fs1 V B ∅ a T1) as (b & fs2 & fs3 & R2 & _ & D2 & _ & _ & _ & _ & R3 & T3 & _ & S3 & E3);
    [apply not_elem_of_empty|rewrite size_empty; lia|].
  set (l := file_bytes V ip off (Z.to_nat m)).
  set (pm1 := set_pm_mem (store_bytes l dst (pm_mem pm)) pm).
  assert (fs_itable fs3 = fs_itable fs) as It3 by (etransitivity; [apply S3|done]).
  assert (tx_keep fs fs3) as P3 by (apply (tx_keep_trans _ fs1); [done|by apply tx_keep_log]).
  assert (MAXFILE * BSIZE = 274432) as Emax by reflexivity. rewrite Emax in *.
  assert (u64 (dst + m) = dst + m) as Eu by (apply u64_small; lia).
  assert (u32 (off + m) = off + m) as Eo by (apply u32_small; change (2 ^ 32) with 4294967296; lia).
  destruct (IH (dst + m) (off + m) n (tot + m) fs3 pm1 T3) as (fs' & R & T' & P' & It').
  { by rewrite (tk_sb _ _ P3). }
  { unfold inode_at. by rewrite It3. }
  1-4: lia.
  { intros k Hk. apply Hmap. lia. }
  1-2: lia.
  exists fs'. split_and!; [|done|by apply (tx_keep_trans _ fs3)|by rewrite It'].
  eapply fsm_bind; [apply fsm_fsr; rewrite Ei in R1; exact R1|]. fold a. rewrite (proj2 (Z.eqb_neq a 0)) by done.
  eapply fsm_bind; [apply fsm_fsr, fsr_get_inode|]. rewrite Ei1, Hdev.
  eapply fsm_bind; [apply fsm_fsr; exact R2|]. cbv zeta. eapply fsm_bind; [apply fsm_fsr, fsr_get_buf|]. rewrite D2.
  fold m. eapply fsm_bind; [apply fsm_copyout|]. change (0 =? -1) with false. cbv iota.
  eapply fsm_bind; [apply fsm_fsr; exact R3|]. rewrite Eu, Eo.
  unfold a. rewrite slice_file by (done || lia || by apply (iw_block _ _ _ HI)). fold l. fold pm1.
  replace (set_pm_mem (store_bytes (file_bytes V ip off (Z.to_nat (n - tot))) dst (pm_mem pm)) pm)
    with (set_pm_mem (store_bytes (file_bytes V ip (off + m) (Z.to_nat (n - (tot + m)))) (dst + m) (pm_mem pm1)) pm1).
  { exact R. }
  unfold pm1. cbn [pm_mem set_pm_mem]. replace (Z.to_nat (n - tot)) with (Z.to_nat m + Z.to_nat (n - (tot + m)))%nat by lia.
  rewrite file_bytes_app, store_bytes_app, length_file_bytes, !Z2Nat.id by lia. by destruct pm.
Qed.
End read.

(** ** Writing *)

Lemma length_splice : forall d l o, length (splice l o d) = length l.
Proof. induction d as [|x d IH]; intros l o; [done|]. cbn. by rewrite IH, length_aset. Qed.
Lemma aget_splice : forall d l o j, 0 <= o -> o + Z.of_nat (length d) <= Z.of_nat (length l) -> 0 <= j ->
  aget 0 (splice l o d) j = if decide (o <= j < o + Z.of_nat (length d)) then aget 0 d (j - o) else aget 0 l j.
Proof.
  induction d as [|x d IH]; intros l o j Ho Hl Hj; cbn [splice length] in *.
  { by rewrite decide_False by lia. }
  rewrite IH by (rewrite ?length_aset; lia). destruct (decide (j = o)) as [->|Hne].
  - rewrite decide_False, decide_True by lia. rewrite aget_aset_eq, Z.sub_diag by lia. done.
  - rewrite aget_aset_ne by lia. destruct (decide (o + 1 <= j < o + 1 + Z.of_nat (length d))).
    + rewrite decide_True by lia. unfold aget. by replace (Z.to_nat (j - o)) with (S (Z.to_nat (j - (o + 1)))) by lia.
    + by rewrite decide_False by lia.
Qed.

(** Replacing a block that is neither part of the bitmap nor the indirect
    block of the file. *)
Section put_block.
Context (V : Z -> list Z) (sb : superblock) (ip : inode) (a : Z) (v : list Z).
Hypothesis (HW : disk_wf V sb) (HI : inode_wf V sb ip).
Hypothesis (Ha : no_bitmap sb a) (Hi : a <> ind_of ip) (Hv : length v = Z.to_nat BSIZE).

Lemma put_map k : inode_map (dset V a v) ip k = inode_map V ip k.
Proof. unfold inode_map. destruct (_ <? _); [done|]. destruct (_ =? _); [done|]. by rewrite dset_ne. Qed.
Lemma put_owns b : owns (dset V a v) ip b <-> owns V ip b.
Proof.
  unfold owns. split; intros [H0 [H|(k & Hk & E)]]; (split; [done|]); [by left|right|by left|right];
    exists k; (split; [done|]); [by rewrite put_map in E|by rewrite put_map].
Qed.
Lemma put_in_use b : 0 <= b < sb_size sb -> in_use (dset V a v) sb b = in_use V sb b.
Proof. intros Hb. unfold in_use. rewrite dset_ne; [done|]. intros E. by apply (Ha b). Qed.
Lemma put_disk_wf : disk_wf (dset V a v) sb.
Proof.
  pose proof HW as [[Hsb Hl Ho] Hp H0]. assert (forall b, 0 <= b < sb_size sb -> BBLOCK b sb <> a) as Hne
    by (intros b Hb E; by apply (Ha b)).
  split; [split; [done| |]|done|by rewrite put_in_use by lia].
  - intros b Hb. rewrite dset_ne by (by apply Hne). by apply Hl.
  - intros b b' Hb Hb' Hu. apply Ho; [done|done|]. by rewrite put_in_use in Hu.
Qed.
Lemma put_inode_wf : inode_wf (dset V a v) sb ip.
Proof.
  split.
  - apply HI.
  - intros b Ho%put_owns. by apply (iw_range _ _ _ HI).
  - intros b Ho%put_owns. rewrite put_in_use by (by apply (iw_range _ _ _ HI)). by apply (iw_used _ _ _ HI).
  - intros b Ho%put_owns. by apply (iw_bitmap _ _ _ HI).
  - intros b Ho%put_owns. unfold dset. destruct (_ =? _); [done|]. by apply (iw_block _ _ _ HI).
  - intros k k' Hk Hk'. rewrite !put_map. by apply (iw_inj _ _ _ HI).
  - intros k Hk. rewrite !put_map. by apply (iw_ind _ _ _ HI).
Qed.
End put_block.

(** The source of a write: [n] bytes of memory. *)
Definition src_byte (pm : physmem) (src k : Z) : Z := pm_mem pm (src + k).

(** What a write that stored [n] bytes from [src] at offset [off] has done
    to the contents. *)
Record write_post (sb : superblock) (pm : physmem) (src off n : Z) (V : Z -> list Z) (B : list Z) (ip : inode)
    (V' : Z -> list Z) (B' : list Z) (ip' : inode) : Prop := {
  wp_disk : disk_wf V' sb;
  wp_inode : inode_wf V' sb ip';
  wp_addrs : exists l, ip' = set_i_addrs l ip;
  wp_new : forall k, off <= k < off + n ->
    inode_map V' ip' (k / BSIZE) <> 0 /\ file_byte V' ip' k = src_byte pm src (k - off);
  wp_old : forall k, 0 <= k < MAXFILE * BSIZE -> inode_map V ip (k / BSIZE) <> 0 ->
    inode_map V' ip' (k / BSIZE) = inode_map V ip (k / BSIZE) /\
    (~ off <= k < off + n -> file_byte V' ip' k = file_byte V ip k);
  wp_keep : forall b, 0 <= b < sb_size sb -> in_use V sb b = true -> no_bitmap sb b -> ~ owns V ip b -> V' b = V b;
  wp_used : forall b, 0 <= b < sb_size sb -> in_use V sb b = true -> in_use V' sb b = true;
  wp_own : forall b, owns V' ip' b -> owns V ip b \/ in_use V sb b = false;
  wp_log : log_grows sb B B'
}.

Lemma block_index k : 0 <= k < MAXFILE * BSIZE -> 0 <= k / BSIZE < MAXFILE.
Proof. change (MAXFILE * BSIZE) with 274432. rewrite MAXFILE_eq, BSIZE_eq. intros H. zlia. Qed.

Lemma write_post_refl sb pm src off V B ip : disk_wf V sb -> inode_wf V sb ip -> write_post sb pm src off 0 V B ip V B ip.
Proof.
  intros HW HI. split; try done.
  - by exists (i_addrs ip); destruct ip.
  - intros k Hk. lia.
  - intros b. by left.
  - apply log_grows_refl.
Qed.

Lemma write_post_trans sb pm src off n m V0 B0 ip0 V1 B1 ip1 V2 B2 ip2 : 0 <= off -> 0 <= n -> 0 <= m ->
  off + n + m <= MAXFILE * BSIZE -> inode_wf V0 sb ip0 ->
  write_post sb pm src off n V0 B0 ip0 V1 B1 ip1 -> write_post sb pm (src + n) (off + n) m V1 B1 ip1 V2 B2 ip2 ->
  write_post sb pm src off (n + m) V0 B0 ip0 V2 B2 ip2.
Proof.
  intros Ho Hn Hm Hmax HI0 [A1 A2 [l1 A3] A4 A5 A6 A7 A8 A9] [C1 C2 [l2 C3] C4 C5 C6 C7 C8 C9]. split; try done.
  - exists l2. subst ip2 ip1. by destruct ip0.
  - intros k Hk. destruct (decide (k < off + n)) as [Hlt|Hge].
    + destruct (A4 k) as [M1 E1]; [lia|]. destruct (C5 k) as [M2 E2]; [lia|done|]. rewrite M2, E2 by lia. done.
    + destruct (C4 k) as [M2 E2]; [lia|]. split; [done|]. rewrite E2. unfold src_byte. f_equal. lia.
  - intros k Hk Hmp. destruct (A5 k Hk Hmp) as [M1 E1]. destruct (C5 k Hk) as [M2 E2]; [by rewrite M1|].
    split; [by rewrite M2|]. intros Hout. rewrite E2, E1 by lia. done.
  - intros b Hb Hu Hbm Hno. rewrite C6; [by apply A6|done|by apply A7|done|].
    intros [H|H]%A8; [done|congruence].
  - intros b Hb Hu. by apply C7, A7.
  - intros b Hob. destruct (C8 b Hob) as [H|H]; [by apply A8|]. destruct (in_use V0 sb b) eqn:E; [|by right].
    rewrite A7 in H; [done|by apply (iw_range _ _ _ C2)|done].
  - by eapply log_grows_trans.
Qed.

Lemma aget_bytes m a n j : 0 <= j < Z.of_nat n -> aget 0 (bytes m a n) j = m (a + j).
Proof.
  intros Hj. unfold aget, bytes. rewrite nth_lookup, list_lookup_fmap, lookup_seq_lt by lia. cbn.
  f_equal. lia.
Qed.
Lemma length_bytes m a n : length (bytes m a n) = n.
Proof. unfold bytes. by rewrite length_fmap, length_seq. Qed.

(** One iteration of the loop: [bmap] and the update of the block. *)
Lemma write_step sb pm src off m V B ip a V1 B1 ip1 n : disk_wf V sb -> inode_wf V sb ip ->
  0 <= off -> 0 < m <= BSIZE - off mod BSIZE -> off + m <= MAXFILE * BSIZE ->
  bmap_post sb V B ip (off / BSIZE) a V1 B1 ip1 n -> a <> 0 ->
  write_post sb pm src off m V B ip
    (dset V1 a (splice (V1 a) (off mod BSIZE) (bytes (pm_mem pm) src (Z.to_nat m)))) (logged B1 a) ip1.
Proof.
  intros HW HI Ho Hm Hmax [P1 P2 P3 P4 P5 P6 P7 P8 P9 P10 P11 P12] Ha. set (bn := off / BSIZE) in *.
  assert (0 <= bn < MAXFILE) as Hbn by (apply block_index; lia).
  pose proof (P3 bn Hbn) as Ea. rewrite decide_True in Ea by done.
  assert (owns V1 ip1 a) as Hown by (rewrite <- Ea; apply owns_map; [done|by rewrite Ea]).
  assert (a <> ind_of ip1) as Hai by (rewrite <- Ea; apply (iw_ind _ _ _ P2); [done|by rewrite Ea]).
  pose proof (iw_bitmap _ _ _ P2 a Hown) as Hnb. pose proof (iw_block _ _ _ P2 a Hown) as Hla.
  assert (0 <= off mod BSIZE < BSIZE) as Hr by (apply Z.mod_pos_bound; reflexivity).
  set (d := bytes (pm_mem pm) src (Z.to_nat m)). set (v := splice (V1 a) (off mod BSIZE) d).
  assert (Z.of_nat (length d) = m) as Hld by (unfold d; rewrite length_bytes; lia).
  assert (length v = Z.to_nat BSIZE) as Hlv by (unfold v; by rewrite length_splice).
  assert (forall j, 0 <= j -> aget 0 v j = if decide (off mod BSIZE <= j < off mod BSIZE + m) then aget 0 d (j - off mod BSIZE)
    else aget 0 (V1 a) j) as Hav.
  { intros j Hj. unfold v. rewrite aget_splice, Hld by (rewrite ?Hla, ?Z2Nat.id by done; lia). done. }
  assert (forall b, owns V ip b -> b <> ind_of ip -> V1 b = V b) as Hkeep.
  { intros b Hb Hbi. apply P8; [by apply (iw_range _ _ _ HI)|by apply (iw_used _ _ _ HI)|by apply (iw_bitmap _ _ _ HI)|done]. }
  split.
  - by apply put_disk_wf.
  - by apply put_inode_wf.
  - done.
  - intros k Hk. destruct (same_block off (k - off)) as [E1 E2]; [done|lia|]. replace (off + (k - off)) with k in * by lia.
    unfold file_byte. rewrite put_map by done. fold bn in E1. rewrite E1, E2, Ea, dset_eq. split; [done|].
    rewrite Hav, decide_True by lia. unfold d. rewrite aget_bytes by lia. unfold src_byte. f_equal. lia.
  - intros k Hk Hmp. pose proof (block_index k Hk) as Hkb. rewrite put_map by done.
    destruct (decide (k / BSIZE = bn)) as [Ek|Ek].
    + rewrite Ek in *. rewrite Ea. specialize (P4 Hmp). split; [done|]. intros Hout.
      unfold file_byte. rewrite put_map, Ek, Ea, dset_eq, Hav by (done || apply Z.mod_pos_bound; reflexivity).
      rewrite decide_False.
      2:{ intros Hin. apply Hout. unfold bn in Ek. rewrite BSIZE_eq in *. zlia. }
      rewrite <- P4. rewrite Hkeep; [done| |]; rewrite P4; [by apply owns_map|by apply (iw_ind _ _ _ HI)].
    + rewrite P3, decide_False by done. split; [done|]. intros _. unfold file_byte. rewrite put_map by done.
      rewrite P3, decide_False by done. rewrite dset_ne, Hkeep; [done|by apply owns_map|by apply (iw_ind _ _ _ HI)|].
      intros E. apply Ek. apply (iw_inj _ _ _ P2); [done|done|rewrite P3, decide_False by done; done|].
      rewrite Ea, <- E, P3, decide_False by done. done.
  - intros b Hb Hu Hbm Hno. rewrite dset_ne.
    + apply P8; [done|done|done|]. intros ->. destruct (decide (ind_of ip = 0)) as [|Hi0]; [done|]. destruct Hno. by apply owns_ind.
    + intros ->. destruct (P7 a Hown) as [|]; [done|congruence].
  - intros b Hb Hu. rewrite put_in_use by done. by apply P9.
  - intros b Hb%put_owns; [by apply P7|done].
  - eapply log_grows_trans; [done|]. apply log_grows_block. by apply (iw_range _ _ _ P2).
Qed.

(** The iteration that finds the disk full. *)
Lemma write_stop sb pm src off V B ip V1 B1 ip1 n : inode_wf V sb ip -> 0 <= off < MAXFILE * BSIZE ->
  bmap_post sb V B ip (off / BSIZE) 0 V1 B1 ip1 n -> write_post sb pm src off 0 V B ip V1 B1 ip1.
Proof.
  intros HI Ho [P1 P2 P3 P4 P5 P6 P7 P8 P9 P10 P11 P12]. set (bn := off / BSIZE) in *.
  split; try done.
  - intros k Hk. lia.
  - intros k Hk Hmp. pose proof (block_index k Hk) as Hkb.
    assert (k / BSIZE <> bn) as Ek by (intros Ek; rewrite Ek in Hmp; by apply Hmp, eq_sym, P4).
    unfold file_byte. rewrite !P3, decide_False by done. split; [done|]. intros _. f_equal.
    pose proof (owns_map V ip _ Hkb Hmp) as Hown.
    apply P8; [by apply (iw_range _ _ _ HI)|by apply (iw_used _ _ _ HI)|by apply (iw_bitmap _ _ _ HI)|].
    intros E. by destruct (iw_ind _ _ _ HI _ Hkb Hmp).
  - intros b Hb Hu Hbm Hno. apply P8; [done|done|done|]. intros ->.
    destruct (decide (ind_of ip = 0)) as [|Hi0]; [done|]. destruct Hno. by apply owns_ind.
Qed.

(** The blocks that the bytes [off] to [off + n] touch. *)
Definition nblocks (off n : Z) : Z := if n <=? 0 then 0 else (off + n - 1) / BSIZE - off / BSIZE + 1.

Lemma nblocks_pos off n : 0 <= off -> 0 < n -> 1 <= nblocks off n.
Proof. intros Ho Hn. unfold nblocks. rewrite (proj2 (Z.leb_gt n 0)) by done. rewrite BSIZE_eq. zlia. Qed.
Lemma nblocks_step off n : 0 <= off -> 0 < n ->
  nblocks (off + Z.min n (BSIZE - off mod BSIZE)) (n - Z.min n (BSIZE - off mod BSIZE)) + 1 <= nblocks off n.
Proof.
  intros Ho Hn. unfold nblocks. rewrite BSIZE_eq. rewrite (proj2 (Z.leb_gt n 0)) by done.
  destruct (Z.leb_spec (n - Z.min n (1024 - off mod 1024)) 0); zlia.
Qed.

Section write.
Context `{D : Disk} `{!DiskOk D} (p : nat) (pid start : Z) (sb : superblock) (i : nat).

(** Reading a block, changing it, logging it and releasing it. *)
Lemma tx_update fs V B a (f : list Z -> list Z) : txn pid start fs V B ∅ -> (length B < 29)%nat ->
  exists bp fs1 fs2 fs3 fs4, fsr p pid [] (bread ROOTDEV a) fs bp [] fs1 /\ fs_itable fs1 = fs_itable fs /\
    fsr p pid [] (mod_data bp f) fs1 tt [] fs2 /\
    fsr p pid [] (log_write bp) fs2 tt [] fs3 /\ fsr p pid [] (brelse bp) fs3 tt [] fs4 /\
    txn pid start fs4 (dset V a (f (V a))) (logged B a) ∅ /\ tx_keep fs fs4 /\ fs_itable fs4 = fs_itable fs.
Proof.
  intros T HB.
  destruct (tx_bread p pid start fs V B ∅ a T) as (bp & fs1 & R1 & T1 & B1 & D1 & _ & S1 & E1);
    [apply not_elem_of_empty|rewrite size_empty; unfold NBUF; lia|].
  rewrite union_empty_r_L in T1.
  destruct (tx_log_write p pid start fs1 V B {[a]} bp a (f (V a)) T1) as (fs3 & R3 & T3 & B3 & S3 & E3);
    [by apply elem_of_singleton|done|done|].
  destruct (tx_brelse p pid start fs3 _ _ _ bp a T3) as (fs4 & R4 & T4 & _ & S4 & E4);
    [by apply elem_of_singleton|by apply B3|].
  exists bp, fs1, (upd_buf bp (set_b_data (f (V a))) fs1), fs3, fs4. split_and!.
  - done.
  - apply S1.
  - eapply fsr_eq; [apply fsr_mod_buf|]. rewrite <- D1.
    apply (upd_data_const fs1 bp (buf_at fs1 bp) f); [done|]. destruct T1 as [(L & I) _ _ _ _].
    rewrite (bi_len _ _ _ _ _ _ I). destruct B1. lia.
  - done.
  - done.
  - by rewrite difference_diag_L in T4.
  - apply (tx_keep_trans _ fs1); [by apply tx_keep_log|]. apply (tx_keep_trans _ fs3); [by eapply tx_keep_after|by apply tx_keep_log].
  - etransitivity; [apply S4|]. etransitivity; [apply S3|apply S1].
Qed.

Lemma put_inode_at fs fs' ip' : (i < length (fs_itable fs))%nat -> fs_itable fs' = put_inode i ip' (fs_itable fs) ->
  inode_at fs' i = ip' /\ length (fs_itable fs') = length (fs_itable fs).
Proof.
  intros Hi E. unfold inode_at. rewrite E. unfold put_inode. split; [|apply length_insert].
  by rewrite nth_lookup, list_lookup_insert_eq.
Qed.

Lemma put_inode_put x y (t : list inode) : put_inode i x (put_inode i y t) = put_inode i x t.
Proof. unfold put_inode. apply list_insert_insert_eq. Qed.

(** The outcome of the loop when it stops after [m] more bytes: it has
    written them all, or the disk is full. *)
Lemma writei_loop_ok pm : forall fuel src off n tot fs V B,
  let ip := inode_at fs i in
  txn pid start fs V B ∅ -> fs_sb fs = sb -> disk_wf V sb -> inode_wf V sb ip -> i_dev ip = ROOTDEV ->
  (i < length (fs_itable fs))%nat ->
  0 <= tot <= n -> (Z.to_nat (n - tot) <= fuel)%nat -> 0 <= off -> off + (n - tot) <= MAXFILE * BSIZE ->
  0 <= src -> src + (n - tot) < 2 ^ 64 -> Z.of_nat (length B) + 6 * nblocks off (n - tot) <= 29 ->
  exists m fs' V' B' ip', fsm p pid (writei_loop fuel i false src off n tot) pm fs (tot + m, off + m) pm fs' /\
    0 <= m <= n - tot /\ txn pid start fs' V' B' ∅ /\ tx_keep fs fs' /\
    fs_itable fs' = put_inode i ip' (fs_itable fs) /\ write_post sb pm src off m V B ip V' B' ip' /\
    Z.of_nat (length B') <= Z.of_nat (length B) + 6 * nblocks off (n - tot) /\
    (m < n - tot -> (forall b, 0 <= b < sb_size sb -> in_use V' sb b = true) /\ (m = 0 \/ (off + m) mod BSIZE = 0)).
Proof.
  induction fuel as [|fuel IH]; intros src off n tot fs V B ip T Esb HW HI Hdev Hi Ht Hf Ho Hmax Hs Hs64 HB; cbn [writei_loop].
  all: destruct (Z.ltb_spec tot n) as [Hlt|Hge]; try lia.
  1,3: assert (tot = n) as -> by lia; exists 0, fs, V, B, ip; rewrite Z.sub_diag, !Z.add_0_r;
    split_and!; [apply fsm_ret|done|done|done|apply tx_keep_refl|exact (eq_sym (put_inode_id fs i Hi))|by apply write_post_refl|cbn; lia|lia].
  assert (0 <= off mod BSIZE < BSIZE) as Hr by (apply Z.mod_pos_bound; reflexivity).
  pose proof (nblocks_pos off (n - tot) Ho ltac:(lia)) as Hnb.
  pose proof (nblocks_step off (n - tot) Ho ltac:(lia)) as Hns.
  set (m := Z.min (n - tot) (BSIZE - off mod BSIZE)) in *.
  assert (0 < m <= n - tot /\ m <= BSIZE - off mod BSIZE) as [Hm1 Hm2] by (unfold m; lia).
  assert (MAXFILE * BSIZE = 274432) as Emax by reflexivity.
  destruct (bmap_ok p pid start sb fs V B i (off / BSIZE) T Esb HW HI Hdev Hi) as (a & fs1 & V1 & B1 & ip1 & R1 & T1 & P1 & It1 & Hp).
  { apply block_index. lia. }
  { lia. }
  pose proof (bp_len _ _ _ _ _ _ _ _ _ _ Hp) as Hl1. destruct (put_inode_at fs fs1 ip1 Hi It1) as [Ei1 Hi1].
  destruct (bp_addrs _ _ _ _ _ _ _ _ _ _ Hp) as [l Eip1].
  destruct (decide (a = 0)) as [->|Ha].
  { exists 0, fs1, V1, B1, ip1. rewrite !Z.add_0_r. split_and!; [|lia|lia|done|done|done|by apply (write_stop _ _ _ _ _ _ _ _ _ _ 5); [| lia|]|lia|].
    - eapply fsm_bind; [apply fsm_fsr; exact R1|]. cbn [Z.eqb]. apply fsm_ret.
    - intros _. split; [by apply (bp_fail _ _ _ _ _ _ _ _ _ _ Hp)|by left]. }
  set (d := bytes (pm_mem pm) src (Z.to_nat m)).
  destruct (tx_update fs1 V1 B1 a (fun l => splice l (off mod BSIZE) d) T1 ltac:(lia))
    as (bp & fs2 & fs3 & fs3' & fs4 & R2 & It2 & R3 & R3' & R4 & T4 & P4 & It4).
  pose proof (write_step sb pm src off m V B ip a V1 B1 ip1 5 HW HI Ho (conj (proj1 Hm1) Hm2) ltac:(lia) Hp Ha) as W1.
  fold d in W1. set (V4 := dset V1 a (splice (V1 a) (off mod BSIZE) d)) in *.
  assert (inode_at fs4 i = ip1) as Ei4 by (unfold inode_at in *; by rewrite It4).
  assert (u64 (src + m) = src + m) as Eu by (apply u64_small; lia).
  assert (u32 (off + m) = off + m) as Eo by (apply u32_small; change (2 ^ 32) with 4294967296; lia).
  pose proof (length_logged B1 a) as Hl4.
  destruct (IH (src + m) (off + m) n (tot + m) fs4 V4 (logged B1 a) T4) as (m' & fs' & V' & B' & ip' & R & Hm' & T' & P' & It' & W' & HB' & Hfull).
  { by rewrite (tk_sb _ _ P4), (tk_sb _ _ P1). }
  { apply W1. }
  { rewrite Ei4. apply W1. }
  { rewrite Ei4, Eip1. done. }
  { by rewrite It4, Hi1. }
  1-6: lia.
  { replace (n - (tot + m)) with (n - tot - m) by lia. lia. }
  rewrite Ei4 in W'. replace (n - (tot + m)) with (n - tot - m) in * by lia.
  exists (m + m'), fs', V', B', ip'. split_and!; try lia; try done.
  - eapply fsm_bind; [apply fsm_fsr; exact R1|]. rewrite (proj2 (Z.eqb_neq a 0)) by done.
    eapply fsm_bind; [apply fsm_fsr, fsr_get_inode|]. 
    replace (i_dev (inode_at fs1 i)) with ROOTDEV by (rewrite Ei1, Eip1; exact (eq_sym Hdev)).
    eapply fsm_bind; [apply fsm_fsr; exact R2|]. cbv zeta. fold m.
    eapply fsm_bind; [apply fsm_copyin|]. cbn [fst snd]. fold d.
    eapply fsm_bind; [apply fsm_fsr; exact R3|]. change (0 =? -1) with false. cbv iota.
    do 2 (eapply fsm_bind; [apply fsm_fsr; eassumption|]). rewrite Eu, Eo, !Z.add_assoc. exact R.
  - apply (tx_keep_trans _ fs4); [by apply (tx_keep_trans _ fs1)|done].
  - by rewrite It', It4, It1, put_inode_put.
  - apply (write_post_trans _ _ _ _ _ _ V B ip V4 (logged B1 a) ip1); try done; lia.
  - intros Hlt'. destruct Hfull as [Hu Hb]; [lia|]. split; [done|]. right. rewrite Z.add_assoc.
    destruct Hb as [->|Hb]; [|done]. rewrite Z.add_0_r. unfold m in *. rewrite BSIZE_eq in *. zlia.
Qed.
End write.

(** ** Files as byte strings *)

(** The inode [ip] on a disk with contents [V] is a file with bytes [bs]. *)
Record file_is (V : Z -> list Z) (ip : inode) (bs : list Z) : Prop := {
  fi_size : i_size ip = Z.of_nat (length bs);
  fi_max : i_size ip <= MAXFILE * BSIZE;
  fi_map : forall k, 0 <= k < i_size ip -> inode_map V ip (k / BSIZE) <> 0;
  fi_bytes : file_bytes V ip 0 (length bs) = bs
}.

(** The specification of reads and writes at an offset. *)
Definition read_at (off n : Z) (bs : list Z) : list Z := take (Z.to_nat n) (drop (Z.to_nat off) bs).
Definition write_at (off : Z) (d bs : list Z) : list Z :=
  take (Z.to_nat off) bs ++ d ++ drop (Z.to_nat off + length d) bs.

Lemma file_bytes_sub V ip bs off n : file_is V ip bs -> 0 <= off -> 0 <= n -> off + n <= i_size ip ->
  file_bytes V ip off (Z.to_nat n) = read_at off n bs.
Proof.
  intros [Hs _ _ Hb] Ho Hn Hle. unfold read_at. rewrite <- Hb. apply list_eq. intros j.
  destruct (decide (j < Z.to_nat n)%nat) as [Hj|Hj].
  - rewrite file_bytes_lookup by done. rewrite lookup_take_lt, lookup_drop by done.
    rewrite file_bytes_lookup by lia. do 2 f_equal. lia.
  - rewrite lookup_take_ge by lia. apply lookup_ge_None. rewrite length_file_bytes. lia.
Qed.

Lemma length_write_at off d bs : 0 <= off <= Z.of_nat (length bs) ->
  length (write_at off d bs) = Nat.max (length bs) (Z.to_nat off + length d).
Proof. intros H. unfold write_at. rewrite !length_app, length_take, length_drop. lia. Qed.

Lemma write_at_lookup off d bs j : 0 <= off <= Z.of_nat (length bs) ->
  write_at off d bs !! j = if decide (Z.to_nat off <= j < Z.to_nat off + length d)%nat then d !! (j - Z.to_nat off)%nat
    else bs !! j.
Proof.
  intros H. unfold write_at. case_decide as Hj.
  - rewrite lookup_app_r by (rewrite length_take; lia). rewrite length_take, Nat.min_l by lia.
    apply lookup_app_l. lia.
  - destruct (decide (j < Z.to_nat off)%nat).
    + rewrite lookup_app_l by (rewrite length_take; lia). by apply lookup_take_lt.
    + rewrite lookup_app_r by (rewrite length_take; lia). rewrite length_take, Nat.min_l by lia.
      rewrite lookup_app_r, lookup_drop by lia. f_equal. lia.
Qed.

(** What [write_post] says of the bytes of the file. *)
Lemma write_post_file sb pm src off m V B ip V' B' ip' bs ip2 : 0 <= off <= i_size ip -> 0 <= m ->
  off + m <= MAXFILE * BSIZE -> file_is V ip bs ->
  write_post sb pm src off m V B ip V' B' ip' -> i_addrs ip2 = i_addrs ip' -> i_size ip2 = Z.max (i_size ip) (off + m) ->
  file_is V' ip2 (write_at off (bytes (pm_mem pm) src (Z.to_nat m)) bs).
Proof.
  intros Ho Hm Hmax [F1 F2 F3 F4] [_ _ _ W4 W5 _ _ _ _] Ea Es. set (d := bytes (pm_mem pm) src (Z.to_nat m)).
  assert (length d = Z.to_nat m) as Hd by apply length_bytes.
  assert (Z.of_nat (length (write_at off d bs)) = i_size ip2) as El by (rewrite length_write_at by lia; lia).
  assert (forall k, inode_map V' ip2 k = inode_map V' ip' k) as Em by (intros k; unfold inode_map, ind_of; by rewrite Ea).
  split.
  - done.
  - lia.
  - intros k Hk. rewrite Em. destruct (decide (off <= k < off + m)) as [H|H]; [by apply W4|].
    destruct (W5 k) as [E _]; [lia|apply F3; lia|]. rewrite E. apply F3. lia.
  - apply list_eq. intros j. destruct (decide (j < length (write_at off d bs))%nat) as [Hj|Hj].
    2:{ rewrite (lookup_ge_None_2 (write_at _ _ _)) by lia. apply lookup_ge_None. rewrite length_file_bytes. lia. }
    rewrite file_bytes_lookup by done. rewrite write_at_lookup by lia. rewrite Hd.
    assert (file_byte V' ip2 (0 + Z.of_nat j) = file_byte V' ip' (Z.of_nat j)) as -> by (unfold file_byte; by rewrite Em).
    case_decide as H.
    + destruct (W4 (Z.of_nat j)) as [_ ->]; [lia|]. unfold d, bytes, src_byte.
      rewrite list_lookup_fmap, lookup_seq_lt by lia. cbn. do 2 f_equal. lia.
    + destruct (W5 (Z.of_nat j)) as [_ E]; [lia|apply F3; lia|]. rewrite E by lia.
      rewrite <- F4. by rewrite file_bytes_lookup by lia.
Qed.

Lemma length_read_at off n bs : 0 <= off <= Z.of_nat (length bs) -> 0 <= n ->
  Z.of_nat (length (read_at off n bs)) = Z.min n (Z.of_nat (length bs) - off).
Proof. intros H Hn. unfold read_at. rewrite length_take, length_drop. lia. Qed.

(** The addresses of a well-formed inode fit their 32 bits. *)
Lemma inode_wf_dinode V sb ip ip' : bitmap_ok V sb -> inode_wf V sb ip' -> dinode_ok (dinode_of ip) ->
  (exists l s, ip' = set_i_size s (set_i_addrs l ip)) -> 0 <= i_size ip' < 2 ^ 32 -> dinode_ok (dinode_of ip').
Proof.
  intros HW HI [H1 H2 H3 H4 H5 H6 H7] (l & s & E) Hs. pose proof (iw_len _ _ _ HI) as Hl.
  assert (Forall (fun a => 0 <= a < 2 ^ 32) (i_addrs ip')) as Ha.
  { apply Forall_lookup. intros k a Hk. pose proof (lookup_lt_Some _ _ _ Hk) as Hlt.
    assert (aget 0 (i_addrs ip') (Z.of_nat k) = a) as Ea by (unfold aget; by rewrite Nat2Z.id, nth_lookup, Hk).
    destruct (decide (a = 0)) as [->|Hne]; [lia|].
    assert (owns V ip' a) as Ho.
    { destruct (decide (k = 12%nat)) as [->|].
      - split; [done|]. left. by rewrite <- Ea.
      - assert (inode_map V ip' (Z.of_nat k) = a) as Em by (unfold inode_map; by rewrite (proj2 (Z.ltb_lt _ _)) by (unfold NDIRECT; lia)).
        rewrite <- Em. apply owns_map; [rewrite MAXFILE_eq; lia|by rewrite Em]. }
    pose proof (iw_range _ _ _ HI a Ho). pose proof (so_size _ (bo_sb _ _ HW)). lia. }
  subst ip'. split; done.
Qed.

(** The block of the inode table that holds the inode belongs to neither
    the bitmap nor the file. *)
Record inode_home (V : Z -> list Z) (sb : superblock) (ip : inode) : Prop := {
  ih_range : 0 < IBLOCK (i_inum ip) sb < sb_size sb;
  ih_used : in_use V sb (IBLOCK (i_inum ip) sb) = true;
  ih_bitmap : no_bitmap sb (IBLOCK (i_inum ip) sb);
  ih_free : ~ owns V ip (IBLOCK (i_inum ip) sb);
  ih_len : length (V (IBLOCK (i_inum ip) sb)) = Z.to_nat BSIZE;
  ih_fits : dinode_ok (dinode_of ip)
}.

Lemma put_file_is V ip a v bs : a <> 0 -> ~ owns V ip a -> file_is V ip bs -> file_is (dset V a v) ip bs.
Proof.
  intros Ha Hno [F1 F2 F3 F4].
  assert (a <> ind_of ip) as Hi by (intros ->; by apply Hno, owns_ind).
  assert (forall k, 0 <= k < i_size ip -> file_byte (dset V a v) ip k = file_byte V ip k) as Hb.
  { intros k Hk. unfold file_byte. rewrite put_map by done. rewrite dset_ne; [done|]. intros E. apply Hno. rewrite <- E.
    apply owns_map; [apply block_index; lia|by apply F3]. }
  split; try done.
  - intros k Hk. rewrite put_map by done. by apply F3.
  - rewrite <- F4 at 2. apply list_fmap_ext. intros j x [Hx Hj]%lookup_seq. apply Hb. lia.
Qed.

(** Another file of the disk, with its inode: it shares no block with
    [ip], and no block of the one holds the inode of the other. *)
Record other_file (V : Z -> list Z) (sb : superblock) (ip ip2 : inode) (bs2 : list Z) : Prop := {
  of_wf : inode_wf V sb ip2;
  of_home : inode_home V sb ip2;
  of_is : file_is V ip2 bs2;
  of_ne : i_inum ip2 <> i_inum ip;
  of_inum : 0 <= i_inum ip /\ 0 <= i_inum ip2 /\ 0 <= sb_inodestart sb /\
    i_inum ip + sb_inodestart sb < 2 ^ 31 /\ i_inum ip2 + sb_inodestart sb < 2 ^ 31;
  of_apart : forall b, owns V ip2 b -> ~ owns V ip b;
  of_block : ~ owns V ip (IBLOCK (i_inum ip2) sb) /\ ~ owns V ip2 (IBLOCK (i_inum ip) sb)
}.

Lemma file_is_ext V V' ip bs : (forall b, owns V ip b -> V' b = V b) -> file_is V ip bs -> file_is V' ip bs.
Proof.
  intros Ho [F1 F2 F3 F4]. assert (forall k, 0 <= k < MAXFILE -> inode_map V' ip k = inode_map V ip k) as Hm.
  { intros k Hk. unfold inode_map. destruct (_ <? _); [done|]. destruct (Z.eqb_spec (ind_of ip) 0); [done|]. by rewrite Ho by (by apply owns_ind). }
  split; [done|done| |].
  - intros k Hk. rewrite Hm by (apply block_index; lia). by apply F3.
  - rewrite <- F4 at 2. apply list_fmap_ext. intros j x [Hx Hj]%lookup_seq. unfold file_byte.
    rewrite Hm by (apply block_index; lia). rewrite Ho; [done|]. apply owns_map; [apply block_index; lia|]. apply F3. lia.
Qed.

(** A change of [ip]'s blocks, the bitmap, free blocks and the inode of [ip]
    leaves every other file as it is. *)
Lemma other_file_kept V V' sb ip ip2 bs2 :
  (forall b, 0 <= b < sb_size sb -> in_use V sb b = true -> no_bitmap sb b -> ~ owns V ip b -> b <> IBLOCK (i_inum ip) sb -> V' b = V b) ->
  only_inode V V' sb (i_inum ip) -> other_file V sb ip ip2 bs2 ->
  file_is V' ip2 bs2 /\ disk_inode V' sb (i_inum ip2) = disk_inode V sb (i_inum ip2).
Proof.
  intros Hk Ho [HI [G1 G2 G3 G4 G5 G6] HF Hne (N1 & N2 & N3 & N4 & N5) Ha [Hb1 Hb2]]. split.
  - apply (file_is_ext V); [|done]. intros b Hb. apply Hk; [by apply HI|by apply HI|by apply HI|by apply Ha|]. by intros ->.
  - destruct (decide (IBLOCK (i_inum ip2) sb = IBLOCK (i_inum ip) sb)) as [E|E].
    + by apply (only_inode_other V V' sb (i_inum ip)).
    + unfold disk_inode. rewrite Hk; (done || lia).
Qed.

(** The effect of [iupdate] on a file that has just been written. *)
Lemma write_post_home sb pm src off m V B ip V' B' ip' ip2 : bitmap_ok V' sb -> inode_home V sb ip ->
  write_post sb pm src off m V B ip V' B' ip' -> (exists s, ip2 = set_i_size s ip' /\ 0 <= s < 2 ^ 32) ->
  inode_home V' sb ip2 /\ inode_wf V' sb ip2.
Proof.
  intros HW [H1 H2 H3 H4 H5 H6] [W1 W2 [l ->] W4 W5 W6 W7 W8 W9] (s & -> & Hs).
  assert (inode_wf V' sb (set_i_size s (set_i_addrs l ip))) as HI2 by (destruct W2; by split).
  split; [|done]. split; try done.
  - apply W7; [|done]. change (i_inum (set_i_size s (set_i_addrs l ip))) with (i_inum ip). lia.
  - intros [H|H]%W8; [done|]. change (i_inum (set_i_size s (set_i_addrs l ip))) with (i_inum ip) in H. congruence.
  - change (i_inum (set_i_size s (set_i_addrs l ip))) with (i_inum ip). rewrite W6; (done || lia).
  - by apply (inode_wf_dinode V' sb ip); [| | |exists l, s|].
Qed.

(** The update of the size, as a maximum. *)
Lemma grow_ok p pid fs i s : (i < length (fs_itable fs))%nat ->
  fsr p pid [] (kwhen (i_size (inode_at fs i) <? s) (mod_inode i (set_i_size s))) fs tt []
    (upd_inode i (set_i_size (Z.max (i_size (inode_at fs i)) s)) fs).
Proof.
  intros Hi. destruct (Z.ltb_spec (i_size (inode_at fs i)) s) as [Hlt|Hge].
  - rewrite Z.max_r by lia. apply fsr_mod_inode.
  - rewrite Z.max_l by lia. set (ip := inode_at fs i).
    replace (upd_inode i (set_i_size (i_size ip)) fs) with fs; [apply fsr_ret|].
    pose proof (upd_inode_put fs i (set_i_size (i_size ip)) Hi) as Et. fold ip in Et.
    replace (set_i_size (i_size ip) ip) with (inode_at fs i) in Et by (fold ip; by destruct ip).
    rewrite put_inode_id in Et by done. unfold upd_inode in *. cbn [fs_itable set_fs_itable] in Et. rewrite Et. by destruct fs.
Qed.

(** Writing the inode's block leaves the file and the bitmap well formed. *)
Lemma home_put V sb ip bs : let ib := IBLOCK (i_inum ip) sb in let V' := inode_view V sb ip in
  disk_wf V sb -> inode_wf V sb ip -> inode_home V sb ip -> file_is V ip bs ->
  disk_wf V' sb /\ inode_wf V' sb ip /\ inode_home V' sb ip /\ file_is V' ip bs /\
  (forall b, 0 <= b < sb_size sb -> in_use V' sb b = in_use V sb b).
Proof.
  intros ib V' HW HI [G1 G2 G3 G4 G5 G6] HF. fold ib in G1, G2, G3, G4, G5.
  assert (ib <> ind_of ip) as Gi by (intros E; rewrite E in *; apply G4, owns_ind; lia).
  set (v := put_dinode (dinode_of ip) (dinode_off (i_inum ip)) (V ib)).
  assert (length v = Z.to_nat BSIZE) as Hv by (unfold v; by rewrite length_put_dinode).
  change V' with (dset V ib v). split_and!.
  - by apply put_disk_wf.
  - by apply put_inode_wf.
  - split; fold ib; try done.
    + by rewrite put_in_use by (done || lia).
    + by rewrite put_owns.
    + by rewrite dset_eq.
  - apply put_file_is; (done || lia).
  - intros b Hb. by rewrite put_in_use.
Qed.

(** ** Reading and writing *)

Lemma readi_ok (D : Disk) p pid start sb fs V B i bs pm dst off n : DiskOk D ->
  let ip := inode_at fs i in let d := if off + n <? 2 ^ 32 then read_at off n bs else [] in
  txn pid start fs V B ∅ -> fs_sb fs = sb -> inode_wf V sb ip -> file_is V ip bs -> i_dev ip = ROOTDEV ->
  (length B < NBUF)%nat -> 0 <= off < 2 ^ 32 -> 0 <= n < 2 ^ 32 -> 0 <= dst -> dst + Z.of_nat (length d) < 2 ^ 64 ->
  exists fs', fsm p pid (readi i false dst off n) pm fs (Z.of_nat (length d))
      (set_pm_mem (store_bytes d dst (pm_mem pm)) pm) fs' /\
    txn pid start fs' V B ∅ /\ tx_keep fs fs' /\ fs_itable fs' = fs_itable fs.
Proof.
  intros HD ip d T Esb HI HF Hdev HB Ho Hn Hd Hd64. pose proof HF as [F1 F2 F3 _].
  assert (MAXFILE * BSIZE = 274432) as Emax by reflexivity.
  destruct (decide (off + n < 2 ^ 32 /\ off <= i_size ip)) as [[Hov Hoff]|Hno].
  - assert (d = read_at off n bs) as Ed by (unfold d; by rewrite (proj2 (Z.ltb_lt _ _))).
    pose proof (length_read_at off n bs ltac:(lia) ltac:(lia)) as Hlen. rewrite <- Ed, <- F1 in Hlen.
    assert (file_bytes V ip off (Z.to_nat (Z.of_nat (length d) - 0)) = d) as Ef.
    { rewrite Z.sub_0_r, (file_bytes_sub V ip bs) by (done || lia). rewrite Hlen, Ed. unfold read_at.
      rewrite F1. apply list_eq. intros j. destruct (decide (j < Z.to_nat n)%nat).
      - destruct (decide (Z.to_nat off + j < length bs)%nat).
        + rewrite !lookup_take_lt by lia. done.
        + rewrite (lookup_take_lt _ (Z.to_nat n)) by done. rewrite lookup_take_ge by lia.
          rewrite lookup_drop. symmetry. apply lookup_ge_None. lia.
      - by rewrite !lookup_take_ge by lia. }
    destruct (readi_loop_ok p pid start sb i ip V B HI Hdev HB (Z.to_nat (Z.of_nat (length d))) dst off (Z.of_nat (length d)) 0 fs pm T Esb)
      as (fs' & R & T' & P & It); try done; try lia.
    { intros k Hk. apply F3. lia. }
    rewrite Ef in R. exists fs'. split_and!; try done.
    unfold readi. eapply fsm_bind; [apply fsm_fsr, fsr_get_inode|]. fold ip.
    rewrite u32_small by lia. rewrite (proj2 (Z.ltb_ge (i_size ip) off)), (proj2 (Z.ltb_ge (off + n) off)) by lia. cbn [orb].
    replace (if i_size ip <? off + n then i_size ip - off else n) with (Z.of_nat (length d)).
    2:{ destruct (Z.ltb_spec (i_size ip) (off + n)); lia. }
    eapply fsm_bind; [exact R|]. rewrite i32_small by lia. apply fsm_ret.
  - assert (d = []) as Ed.
    { unfold d, read_at. destruct (Z.ltb_spec (off + n) (2 ^ 32)); [|done]. rewrite drop_ge by lia. apply take_nil. }
    rewrite Ed. exists fs. split_and!; [|done|apply tx_keep_refl|done].
    unfold readi. eapply fsm_bind; [apply fsm_fsr, fsr_get_inode|]. fold ip.
    replace ((i_size ip <? off) || (u32 (off + n) <? off)) with true.
    2:{ symmetry. apply orb_true_iff. destruct (decide (off <= i_size ip)); [right|left]; apply Z.ltb_lt; [|lia].
      unfold u32. zlia. }
    cbn [store_bytes]. replace (set_pm_mem (pm_mem pm) pm) with pm by (by destruct pm). apply fsm_ret.
Qed.

Lemma writei_ok (D : Disk) p pid start sb fs V B i bs pm src off n : DiskOk D ->
  let ip := inode_at fs i in
  txn pid start fs V B ∅ -> fs_sb fs = sb -> disk_wf V sb -> inode_wf V sb ip -> inode_home V sb ip ->
  file_is V ip bs -> i_dev ip = ROOTDEV -> (i < length (fs_itable fs))%nat ->
  0 <= off < 2 ^ 32 -> 0 <= n < 2 ^ 32 -> 0 <= src -> src + n < 2 ^ 64 ->
  (i_size ip < off \/ 2 ^ 32 <= off + n \/ MAXFILE * BSIZE < off + n ->
   fsm p pid (writei i false src off n) pm fs (-1) pm fs) /\
  (off <= i_size ip -> off + n <= MAXFILE * BSIZE -> Z.of_nat (length B) + 6 * nblocks off n <= 28 ->
   exists m fs' V' B', let ip' := inode_at fs' i in
     fsm p pid (writei i false src off n) pm fs m pm fs' /\ 0 <= m <= n /\
     (m < n -> (forall b, 0 <= b < sb_size sb -> in_use V' sb b = true) /\ (m = 0 \/ (off + m) mod BSIZE = 0)) /\
     file_is V' ip' (write_at off (bytes (pm_mem pm) src (Z.to_nat m)) bs) /\
     disk_inode V' sb (i_inum ip) = dinode_of ip' /\
     txn pid start fs' V' B' ∅ /\ tx_keep fs fs' /\ Z.of_nat (length B') <= Z.of_nat (length B) + 6 * nblocks off n + 1 /\
     disk_wf V' sb /\ inode_wf V' sb ip' /\ inode_home V' sb ip' /\
     fs_itable fs' = put_inode i ip' (fs_itable fs) /\ (exists l, ip' = set_i_size (i_size ip') (set_i_addrs l ip)) /\
     (forall b, 0 <= b < sb_size sb -> in_use V sb b = true -> no_bitmap sb b -> ~ owns V ip b ->
        b <> IBLOCK (i_inum ip) sb -> V' b = V b) /\
     only_inode V V' sb (i_inum ip) /\
     (forall ip2 bs2, other_file V sb ip ip2 bs2 ->
        file_is V' ip2 bs2 /\ disk_inode V' sb (i_inum ip2) = disk_inode V sb (i_inum ip2))).
Proof.
  intros HD ip T Esb HW HI HH HF Hdev Hi Ho Hn Hs Hs64. assert (MAXFILE * BSIZE = 274432) as Emax by reflexivity.
  pose proof (fi_size _ _ _ HF) as F1. pose proof (fi_max _ _ _ HF) as F2. unfold writei. split.
  { intros He. eapply fsm_bind; [apply fsm_fsr, fsr_get_inode|]. fold ip.
    destruct (Z.ltb_spec (i_size ip) off) as [|Hoff]; [apply fsm_ret|]. cbn [orb].
    destruct (decide (off + n < 2 ^ 32)) as [Hlt|Hge].
    - rewrite u32_small by lia. rewrite (proj2 (Z.ltb_ge _ off)) by lia. rewrite (proj2 (Z.ltb_lt _ (off + n))) by lia. apply fsm_ret.
    - rewrite (proj2 (Z.ltb_lt (u32 (off + n)) off)) by (unfold u32; zlia). apply fsm_ret. }
  intros Hoff Hmax HB.
  destruct (writei_loop_ok p pid start sb i pm (Z.to_nat n) src off n 0 fs V B T Esb HW HI Hdev Hi)
    as (m & fs1 & V1 & B1 & ip1 & R1 & Hm & T1 & P1 & It1 & W1 & HB1 & Hfull); rewrite ?Z.sub_0_r in *; try lia.
  fold ip in W1. assert (inode_at fs i = ip) as Eip by done. clearbody ip.
  destruct (put_inode_at i fs fs1 ip1 Hi It1) as [Ei1 Hi1]. destruct (wp_addrs _ _ _ _ _ _ _ _ _ _ _ W1) as [l El].
  set (s := Z.max (i_size ip) (off + m)). set (ip2 := set_i_size s ip1).
  set (fs2 := upd_inode i (set_i_size s) fs1).
  assert (inode_at fs2 i = ip2) as Ei2 by (unfold fs2; rewrite inode_at_upd, decide_True, Ei1 by (done || lia); done).
  assert (txn pid start fs2 V1 B1 ∅) as T2 by (by apply txn_itable).
  assert (fsr p pid [] (kwhen (i_size ip <? off + m) (mod_inode i (set_i_size (off + m)))) fs1 tt [] fs2) as R2.
  { replace (i_size ip) with (i_size (inode_at fs1 i)) by (by rewrite Ei1, El). unfold fs2, s.
    replace (i_size ip) with (i_size (inode_at fs1 i)) by (by rewrite Ei1, El). apply grow_ok. lia. }
  assert (disk_wf V1 sb) as HW1 by apply W1.
  destruct (write_post_home sb pm src off m V B ip V1 B1 ip1 ip2) as [HH2 HI2]; [apply HW1|exact HH|exact W1|exists s; split; [reflexivity|unfold s; lia]|].
  assert (i_inum ip2 = i_inum ip /\ i_dev ip2 = ROOTDEV) as [En Ed2] by (unfold ip2; rewrite El; by split).
  assert (fs_sb fs2 = sb) as Esb2 by (change (fs_sb fs2) with (fs_sb fs1); by rewrite (tk_sb _ _ P1)).
  destruct (iupdate_ok p pid start fs2 V1 B1 ∅ i T2) as (fs3 & R3 & T3 & _ & S3 & E3); rewrite ?Ei2, ?Esb2; try done.
  { rewrite size_empty. unfold NBUF. lia. }
  { lia. }
  rewrite Ei2, Esb2 in T3, E3. rewrite En in T3, E3. set (V3 := inode_view V1 sb ip2) in *. set (ib := IBLOCK (i_inum ip) sb) in *.
  assert (inode_at fs3 i = ip2) as Ei3 by (rewrite <- Ei2; unfold inode_at; by rewrite (ts_itable _ _ S3)).
  assert (file_is V1 ip2 (write_at off (bytes (pm_mem pm) src (Z.to_nat m)) bs)) as HF2
    by (by apply (write_post_file sb pm src off m V B ip V1 B1 ip1); try lia).
  destruct (home_put V1 sb ip2 _ HW1 HI2 HH2 HF2) as (HW3 & HI3 & HH3 & HF3 & HU3).
  assert (only_inode V V3 sb (i_inum ip)) as Hoi.
  { rewrite <- En. apply only_inode_view; [apply HH2|apply HH2|]. rewrite En. destruct HH. apply (wp_keep _ _ _ _ _ _ _ _ _ _ _ W1); (done || lia). }
  assert (forall b, 0 <= b < sb_size sb -> in_use V sb b = true -> no_bitmap sb b -> ~ owns V ip b -> b <> IBLOCK (i_inum ip) sb -> V3 b = V b) as Hkeep.
  { intros b Hb Hu Hbm Hno Hne. unfold V3, inode_view. rewrite dset_ne by (by rewrite En). by apply (wp_keep _ _ _ _ _ _ _ _ _ _ _ W1). }
  exists m, fs3, V3, (logged B1 ib). cbv zeta. rewrite Ei3. split_and!; try done; try lia.
  - eapply fsm_bind; [apply fsm_fsr, fsr_get_inode|]. rewrite Eip.
    rewrite (proj2 (Z.ltb_ge (i_size ip) off)) by lia. rewrite u32_small by lia.
    rewrite (proj2 (Z.ltb_ge (off + n) off)), (proj2 (Z.ltb_ge _ (off + n))) by lia. cbn [orb].
    eapply fsm_bind; [exact R1|]. cbn [fst snd Z.add]. eapply fsm_bind; [apply fsm_fsr; exact R2|].
    eapply fsm_bind; [apply fsm_fsr; exact R3|]. rewrite i32_small by lia. apply fsm_ret.
  - intros Hlt. destruct (Hfull Hlt) as [Hu Hb]. split; [|done]. intros b Hr. unfold V3. rewrite HU3 by done. by apply Hu.
  - rewrite <- En. by apply disk_inode_eq; [apply HH2|apply HH2].
  - apply (tx_keep_trans _ fs1); [done|]. apply (tx_keep_trans _ fs2); [apply tx_keep_upd|by eapply tx_keep_after].
  - pose proof (length_logged B1 ib). lia.
  - rewrite (ts_itable _ _ S3). unfold fs2. rewrite upd_inode_put by lia. by rewrite Ei1, It1, put_inode_put.
  - exists l. unfold ip2. by rewrite El.
  - intros ip3 bs3 H3. by apply (other_file_kept V V3 sb ip ip3 bs3).
Qed.

(** ** Theorems *)

(** C28: reading a file.  With a kernel destination [readi] returns the
    number of bytes that the file has between [off] and [off + n], stores
    exactly those bytes at [dst], and changes no block, no inode and no log
    entry; an offset past the end and an overflowing range read nothing. *)
Theorem readi_correct (D : Disk) p pid start sb fs V B i bs pm dst off n : DiskOk D ->
  let ip := inode_at fs i in let d := if off + n <? 2 ^ 32 then read_at off n bs else [] in
  txn pid start fs V B ∅ -> fs_sb fs = sb -> inode_wf V sb ip -> file_is V ip bs -> i_dev ip = ROOTDEV ->
  (length B < NBUF)%nat -> 0 <= off < 2 ^ 32 -> 0 <= n < 2 ^ 32 -> 0 <= dst -> dst + Z.of_nat (length d) < 2 ^ 64 ->
  exists fs', fsm p pid (readi i false dst off n) pm fs (Z.of_nat (length d))
      (set_pm_mem (store_bytes d dst (pm_mem pm)) pm) fs' /\
    txn pid start fs' V B ∅ /\ tx_keep fs fs' /\ fs_itable fs' = fs_itable fs.
Proof. apply readi_ok. Qed.

(** C27: writing a file.  With a kernel source [writei] refuses, without any
    effect, an offset past the end, an overflowing range and a range beyond
    the largest file.  Otherwise it stores [m] bytes at [off], where [m] is
    [n] unless every block of the disk is in use, when it stops at the start
    of a block: the file is then the old
    byte string with these bytes written at [off], extended if necessary;
    the inode on disk is the one in memory; the block map, the bitmap and
    the file stay well formed; of the inode only the size and the addresses
    change.  No block in use that is not the file's changes, but for the
    bitmap and the bytes of this inode in its block; so every other file,
    its contents and its inode on disk, is as before. *)
Theorem writei_correct (D : Disk) p pid start sb fs V B i bs pm src off n : DiskOk D ->
  let ip := inode_at fs i in
  txn pid start fs V B ∅ -> fs_sb fs = sb -> disk_wf V sb -> inode_wf V sb ip -> inode_home V sb ip ->
  file_is V ip bs -> i_dev ip = ROOTDEV -> (i < length (fs_itable fs))%nat ->
  0 <= off < 2 ^ 32 -> 0 <= n < 2 ^ 32 -> 0 <= src -> src + n < 2 ^ 64 ->
  (i_size ip < off \/ 2 ^ 32 <= off + n \/ MAXFILE * BSIZE < off + n ->
   fsm p pid (writei i false src off n) pm fs (-1) pm fs) /\
  (off <= i_size ip -> off + n <= MAXFILE * BSIZE -> Z.of_nat (length B) + 6 * nblocks off n <= 28 ->
   exists m fs' V' B', let ip' := inode_at fs' i in
     fsm p pid (writei i false src off n) pm fs m pm fs' /\ 0 <= m <= n /\
     (m < n -> (forall b, 0 <= b < sb_size sb -> in_use V' sb b = true) /\ (m = 0 \/ (off + m) mod BSIZE = 0)) /\
     file_is V' ip' (write_at off (bytes (pm_mem pm) src (Z.to_nat m)) bs) /\
     disk_inode V' sb (i_inum ip) = dinode_of ip' /\
     txn pid start fs' V' B' ∅ /\ tx_keep fs fs' /\ Z.of_nat (length B') <= Z.of_nat (length B) + 6 * nblocks off n + 1 /\
     disk_wf V' sb /\ inode_wf V' sb ip' /\ inode_home V' sb ip' /\
     fs_itable fs' = put_inode i ip' (fs_itable fs) /\ (exists l, ip' = set_i_size (i_size ip') (set_i_addrs l ip)) /\
     (forall b, 0 <= b < sb_size sb -> in_use V sb b = true -> no_bitmap sb b -> ~ owns V ip b ->
        b <> IBLOCK (i_inum ip) sb -> V' b = V b) /\
     only_inode V V' sb (i_inum ip) /\
     (forall ip2 bs2, other_file V sb ip ip2 bs2 ->
        file_is V' ip2 bs2 /\ disk_inode V' sb (i_inum ip2) = disk_inode V sb (i_inum ip2))).
Proof. apply writei_ok. Qed.

(** ** Witnesses *)

(** A file of five bytes in block 3 of the example disk, on which only block
    7 is free. *)
Definition file_example : inode := Inode ROOTDEV 16 1 1 2 0 0 1 5 (3 :: replicate 12 0).

Lemma example_map V k : 0 <= k < MAXFILE -> inode_map V file_example k = if decide (k = 0) then 3 else 0.
Proof.
  rewrite MAXFILE_eq. intros Hk. unfold inode_map, NDIRECT. destruct (Z.ltb_spec k 12) as [H|H].
  - assert (k ∈ seqZ 0 12) as Hin by (apply elem_of_seqZ; lia). clear Hk H. revert k Hin. apply Forall_forall.
    repeat constructor.
  - by rewrite decide_False by lia.
Qed.
Lemma example_owns V b : owns V file_example b <-> b = 3.
Proof.
  split.
  - intros [H0 [H|(k & Hk & E)]]; [done|]. rewrite example_map in E by done. case_decide; [done|congruence].
  - intros ->. split; [done|]. right. exists 0. by rewrite MAXFILE_eq.
Qed.

Lemma example_file : exists fs V, txn 1 0 fs V [45] ∅ /\ fs_sb fs = sb_example /\ fs_itable fs = [file_example] /\
  disk_wf V sb_example /\ inode_wf V sb_example file_example /\ inode_home V sb_example file_example /\
  file_is V file_example (replicate 5 0).
Proof.
  destruct hole_example as (fs & V & T & Esb & Hbm & Hu & Hz).
  assert (forall b, b <> 45 -> length (V b) = Z.to_nat BSIZE) as Hl by (intros b Hb; rewrite Hz by done; apply length_replicate).
  assert (forall b, b <> 45 -> no_bitmap sb_example b) as Hn by (intros b Hb b' Hb'; by rewrite example_BBLOCK).
  exists (set_fs_itable [file_example] fs), V. split_and!.
  - by apply txn_itable.
  - done.
  - done.
  - split; [done|done|by rewrite Hu by lia].
  - split; try done.
    1-4: intros b ->%example_owns; (by rewrite Hu) || (by apply Hn) || (by apply Hl) || done.
    + intros k k' Hk Hk'. rewrite !example_map by done. repeat case_decide; congruence.
  - split; try done.
    + by rewrite Hu.
    + by apply Hn.
    + intros E%example_owns. discriminate E.
    + by apply Hl.
    + split; try done. change (Forall (fun a => 0 <= a < 2 ^ 32) (3 :: replicate 12 0)).
      constructor; [lia|]. apply Forall_replicate. lia.
  - assert (forall k, 0 <= k < 5 -> k / BSIZE = 0) as Hd by (intros k Hk; rewrite BSIZE_eq; zlia).
    split; try done.
    + intros k Hk. change (i_size file_example) with 5 in Hk. rewrite Hd by done. by rewrite example_map.
    + unfold file_bytes, file_byte. apply list_eq. intros j. rewrite list_lookup_fmap, length_replicate.
      destruct (decide (j < 5)%nat) as [Hj|Hj].
      * rewrite lookup_seq_lt, lookup_replicate_2 by done. cbn [fmap option_fmap option_map].
        rewrite Hd by lia. rewrite example_map by (by rewrite MAXFILE_eq). rewrite Hz by done. cbn [decide].
        unfold aget, zero_block. rewrite nth_lookup. f_equal.
        rewrite lookup_replicate_2; [done|]. rewrite BSIZE_eq. zlia.
      * rewrite lookup_seq_ge by lia. symmetry. apply lookup_ge_None. rewrite length_replicate. lia.
Qed.

Lemma readi_correct_witness : exists fs pm pm' fs', fsm 0 1 (readi (D := sync_disk) 0 false 100 2 10) pm fs 3 pm' fs'.
Proof.
  destruct example_file as (fs & V & T & Esb & Et & HW & HI & HH & HF).
  assert (inode_at fs 0 = file_example) as Ei by (unfold inode_at; by rewrite Et).
  destruct (readi_correct sync_disk 0 1 0 sb_example fs V [45] 0 (replicate 5 0) pm_example 100 2 10 sync_disk_ok T Esb) as (fs' & R & _).
  - by rewrite Ei.
  - by rewrite Ei.
  - by rewrite Ei.
  - unfold NBUF. simpl. lia.
  - lia.
  - lia.
  - lia.
  - simpl. lia.
  - eexists fs, _, _, fs'. exact R.
Defined.

(** An empty file whose inode is in the same block as that of the example. *)
Definition other_example : inode := Inode ROOTDEV 18 0 1 2 0 0 1 0 (replicate 13 0).
Lemma other_example_map V k : 0 <= k < MAXFILE -> inode_map V other_example k = 0.
Proof.
  rewrite MAXFILE_eq. intros Hk. unfold inode_map, NDIRECT. destruct (Z.ltb_spec k 12) as [H|H]; [|done].
  assert (k ∈ seqZ 0 12) as Hin by (apply elem_of_seqZ; lia). clear Hk H. revert k Hin. apply Forall_forall. repeat constructor.
Qed.
Lemma other_example_owns V b : ~ owns V other_example b.
Proof. intros [H0 [H|(k & Hk & H)]]; [by destruct H0|]. rewrite other_example_map in H by done. by destruct H0. Qed.

Lemma other_example_ok V ip : inode_home V sb_example ip -> i_inum ip = 16 -> (forall b, owns V ip b -> b = 3) ->
  other_file V sb_example ip other_example [].
Proof.
  intros [G1 G2 G3 G4 G5 G6] En Ho. rewrite En in *. change (IBLOCK 16 sb_example) with 1 in *. split.
  - split; try done.
    1-4: intros b Hb; by destruct (other_example_owns V b).
    all: intros; exfalso; rewrite ?other_example_map in * by done; done.
  - split; try done; change (IBLOCK (i_inum other_example) sb_example) with 1; try done; [apply other_example_owns|].
    split; cbn [dinode_of other_example d_type d_major d_minor d_nlink d_size d_addrs i_type i_major i_minor i_nlink i_size i_addrs]; [lia..|done|apply Forall_replicate; lia].
  - split; try done. intros k Hk. cbn in Hk. lia.
  - by rewrite En.
  - rewrite En. by vm_compute.
  - intros b Hb. by destruct (other_example_owns V b).
  - split; [|apply other_example_owns]. change (IBLOCK (i_inum other_example) sb_example) with 1. intros H%Ho. done.
Qed.

Lemma writei_correct_witness : exists fs pm m fs' V' bs, fsm 0 1 (writei (D := sync_disk) 0 false 100 5 2000) pm fs m pm fs' /\
  file_is V' (inode_at fs' 0) bs /\ take 5 bs = replicate 5 0 /\
  exists V, txn 1 0 fs V [45] ∅ /\ disk_inode V' sb_example 18 = disk_inode V sb_example 18.
Proof.
  destruct example_file as (fs & V & T & Esb & Et & HW & HI & HH & HF).
  assert (inode_at fs 0 = file_example) as Ei by (unfold inode_at; by rewrite Et).
  destruct (writei_correct sync_disk 0 1 0 sb_example fs V [45] 0 (replicate 5 0) pm_example 100 5 2000 sync_disk_ok T Esb HW) as [_ H];
    rewrite ?Ei, ?Et; try done; try lia.
  { simpl. lia. }
  rewrite Ei in H. destruct H as (m & fs' & V' & B' & R & _ & _ & F & _ & _ & _ & _ & _ & _ & _ & _ & _ & _ & _ & Ho); [simpl; lia|vm_compute; congruence|vm_compute; congruence|].
  eexists fs, pm_example, m, fs', V', _. split_and!; [exact R|exact F|done|].
  exists V. split; [exact T|]. apply (Ho other_example []). apply other_example_ok; [exact HH|done|intros b; apply example_owns].
Defined.
