(* ===== verification/DirProps.v ===== *)
(** * DirProps: directories

    A directory is a file of 16-byte entries.  This file gives the finite
    map from names to inode numbers that the bytes of a directory stand for
    and proves that [dirlookup] looks names up in it and [dirlink] inserts
    into it; [iget] and [iput] (without truncation) take and drop references
    in the inode table. *)

From S2P Require Import Prelude.
From S2P Require Import State.
From S2P Require Import Kernel.
From S2P Require Import Sched.
From S2P Require Import SchedInv.
From S2P Require Import SchedProps.
From S2P Require Import Mem.
From S2P Require Import Kalloc.
From S2P Require Import Bio.
From S2P Require Import FsRun.
From S2P Require Import BioProps.
From S2P Require Import Log.
From S2P Require Import LogProps.
From S2P Require Import LogCrash.
From S2P Require Import Txn.
From S2P Require Import Vm.
From S2P Require Import Fs.
From S2P Require Import FsProps.
From S2P Require Import InodeProps.
From S2P Require Import BmapProps.
From S2P Require Import FileData.

(** ** Names *)

(** The name a field of [n] bytes stands for: up to the first NUL. *)
Fixpoint cname (n : nat) (s : list Z) : list Z :=
  match n with
  | O => []
  | S n' => if hd 0 s =? 0 then [] else hd 0 s :: cname n' (tl s)
  end.
Definition dname (s : list Z) : list Z := cname (Z.to_nat DIRSIZ) s.

Lemma strncmp_cname n : forall s t, strncmp_list n s t = 0 <-> cname n s = cname n t.
Proof.
  induction n as [|n IH]; intros s t; [done|]. cbn [strncmp_list cname].
  destruct (Z.eqb_spec (hd 0 s) 0) as [E1|E1], (Z.eqb_spec (hd 0 t) 0) as [E2|E2]; cbn [negb andb].
  - rewrite E1, E2. done.
  - split; [lia|done].
  - destruct (Z.eqb_spec (hd 0 s) (hd 0 t)); [congruence|]. split; [lia|done].
  - destruct (Z.eqb_spec (hd 0 s) (hd 0 t)) as [E|E].
    + rewrite IH, E. split; [by intros ->|by intros [= ->]].
    + split; [lia|by intros [= ? _]].
Qed.
Lemma namecmp_dname s t : namecmp s t = 0 <-> dname s = dname t.
Proof. apply strncmp_cname. Qed.

Lemma length_strncpy n : forall t, length (strncpy_list n t) = n.
Proof.
  induction n as [|n IH]; intros t; [done|]. cbn [strncpy_list]. destruct (_ =? 0); [by rewrite length_replicate|].
  cbn. by rewrite IH.
Qed.
Lemma cname_strncpy n : forall t, cname n (strncpy_list n t) = cname n t.
Proof.
  induction n as [|n IH]; intros t; [done|]. cbn [strncpy_list cname].
  destruct (Z.eqb_spec (hd 0 t) 0) as [E|E]; [done|]. cbn [hd tl]. rewrite (proj2 (Z.eqb_neq _ 0)) by done. by rewrite IH.
Qed.

(** ** Entries *)

Definition NDE : nat := Z.to_nat DIRENT_SIZE.
Definition dent (bs : list Z) (k : nat) : list Z := take NDE (drop (NDE * k) bs).
Definition dents (bs : list Z) : list (list Z) := dent bs <$> seq 0 (length bs / NDE).
Definition live (e : list Z) : Prop := de_inum e <> 0.
#[export] Instance live_dec e : Decision (live e).
Proof. unfold live. apply _. Defined.

(** The map of a list of entries: the first live entry of a name counts. *)
Fixpoint dir_map (l : list (list Z)) : gmap (list Z) Z :=
  match l with
  | [] => ∅
  | e :: l' => if decide (live e) then <[dname (de_name e) := de_inum e]> (dir_map l') else dir_map l'
  end.
Definition live_names (l : list (list Z)) : list (list Z) := (fun e => dname (de_name e)) <$> filter live l.

(** The bytes of a directory whose names are those of [d]. *)
Record dir_is (bs : list Z) (d : gmap (list Z) Z) : Prop := {
  di_bytes : Forall (fun x => 0 <= x < 256) bs;
  di_len : (length bs mod NDE = 0)%nat;
  di_nodup : NoDup (live_names (dents bs));
  di_map : dir_map (dents bs) = d
}.

Lemma NDE_eq : NDE = 16%nat.
Proof. reflexivity. Qed.
Lemma dents_len (bs : list Z) : (length bs mod NDE = 0)%nat -> length bs = (NDE * (length bs / NDE))%nat.
Proof. intros H. rewrite (Nat.div_mod_eq (length bs) NDE) at 1. lia. Qed.
Lemma length_dents bs : length (dents bs) = (length bs / NDE)%nat.
Proof. unfold dents. by rewrite length_fmap, length_seq. Qed.
Lemma dents_lookup bs k : (k < length bs / NDE)%nat -> dents bs !! k = Some (dent bs k).
Proof. intros H. unfold dents. by rewrite list_lookup_fmap, lookup_seq_lt. Qed.
Lemma dents_seq bs k n : (k + n = length bs / NDE)%nat -> drop k (dents bs) = dent bs <$> seq k n.
Proof.
  intros H. unfold dents. rewrite <- H, seq_app, fmap_app. change (0 + k)%nat with k.
  rewrite drop_app_length' by (by rewrite length_fmap, length_seq). done.
Qed.

Lemma dir_map_lookup_None l name : dir_map l !! name = None <-> name ∉ live_names l.
Proof.
  induction l as [|e l IH]; cbn [dir_map].
  - split; [intros _; apply not_elem_of_nil|done].
  - unfold live_names in *. rewrite filter_cons. destruct (decide (live e)) as [H|H]; [|exact IH].
    rewrite fmap_cons, not_elem_of_cons, lookup_insert_None, IH. naive_solver.
Qed.
Lemma live_names_app l1 l2 : live_names (l1 ++ l2) = live_names l1 ++ live_names l2.
Proof. unfold live_names. by rewrite filter_app, fmap_app. Qed.
Lemma live_names_cons e l : live_names (e :: l) = (if decide (live e) then [dname (de_name e)] else []) ++ live_names l.
Proof. unfold live_names. rewrite filter_cons. by destruct (decide (live e)). Qed.

(** Filling an empty entry with a new name. *)
Lemma dir_map_fill e : forall l1 l2, live e -> dname (de_name e) ∉ live_names l1 ->
  dir_map (l1 ++ e :: l2) = <[dname (de_name e) := de_inum e]> (dir_map (l1 ++ l2)).
Proof.
  induction l1 as [|x l1 IH]; intros l2 He Hn; cbn [app dir_map].
  - by rewrite decide_True.
  - rewrite live_names_cons in Hn. destruct (decide (live x)) as [Hx|Hx].
    + apply not_elem_of_app in Hn as [Hne Hn]. rewrite not_elem_of_cons in Hne. rewrite IH by done.
      apply insert_insert_ne. naive_solver.
    + by apply IH.
Qed.
Lemma dir_map_skip e : forall l1 l2, ~ live e -> dir_map (l1 ++ e :: l2) = dir_map (l1 ++ l2).
Proof.
  induction l1 as [|x l1 IH]; intros l2 He; cbn [app dir_map].
  - by rewrite decide_False.
  - by rewrite IH.
Qed.
Lemma live_names_fill e l1 l2 : live e -> NoDup (live_names (l1 ++ l2)) -> dname (de_name e) ∉ live_names (l1 ++ l2) ->
  NoDup (live_names (l1 ++ e :: l2)).
Proof.
  intros He. rewrite !live_names_app, live_names_cons, decide_True by done. intros Hnd Hn.
  cbn [app]. rewrite <- Permutation_middle. by apply NoDup_cons.
Qed.

(** Writing one entry, in place or at the end. *)
Lemma length_dent bs k : (k < length bs / NDE)%nat -> length (dent bs k) = NDE.
Proof. intros H. unfold dent. rewrite length_take, length_drop. rewrite NDE_eq in *. pose proof (Nat.Div0.mul_div_le (length bs) 16). lia. Qed.
Lemma dent_write_eq bs k e : length e = NDE -> (NDE * k <= length bs)%nat -> dent (write_at (Z.of_nat (NDE * k)) e bs) k = e.
Proof.
  intros He Hk. unfold dent, write_at. rewrite Nat2Z.id. rewrite drop_app_length' by (rewrite length_take; lia).
  by rewrite take_app_length' by done.
Qed.
Lemma dent_write_ne bs k j e : length e = NDE -> (NDE * k <= length bs)%nat -> j <> k ->
  dent (write_at (Z.of_nat (NDE * k)) e bs) j = dent bs j.
Proof.
  intros He Hk Hj. apply list_eq. intros i. unfold dent. destruct (decide (i < NDE)%nat) as [Hi|Hi].
  - rewrite !lookup_take_lt, !lookup_drop by done. rewrite write_at_lookup by lia.
    rewrite Nat2Z.id, He. rewrite NDE_eq in *. by rewrite decide_False by lia.
  - by rewrite !lookup_take_ge by lia.
Qed.

Lemma dents_write bs k e : length e = NDE -> (length bs mod NDE = 0)%nat -> (k <= length bs / NDE)%nat ->
  let bs' := write_at (Z.of_nat (NDE * k)) e bs in
  (length bs' mod NDE = 0)%nat /\ dents bs' = take k (dents bs) ++ e :: drop (S k) (dents bs).
Proof.
  intros He Hm Hk bs'.
  pose proof (dents_len bs Hm) as Hl.
  set (n := (length bs / NDE)%nat) in *. assert (NDE * k <= length bs)%nat as Hkl by (rewrite NDE_eq in *; lia).
  assert (length bs' = NDE * Nat.max n (S k))%nat as Hl'.
  { unfold bs'. rewrite length_write_at by lia. rewrite Nat2Z.id, He. rewrite NDE_eq in *. lia. }
  assert (length bs' / NDE = Nat.max n (S k))%nat as Hd by (rewrite Hl', Nat.mul_comm; by apply Nat.div_mul).
  split; [rewrite Hl', Nat.mul_comm; apply Nat.Div0.mod_mul|]. unfold dents at 1. rewrite Hd.
  replace (Nat.max n (S k)) with (k + S (n - S k))%nat by lia. rewrite seq_app, fmap_app. cbn [seq].
  change (0 + k)%nat with k. rewrite fmap_cons. unfold bs'. rewrite dent_write_eq by done. f_equal; [|f_equal].
  - unfold dents. rewrite <- fmap_take. fold n. rewrite take_seq, Nat.min_l by done. apply list_fmap_ext.
    intros i x [-> Hx]%lookup_seq. apply dent_write_ne; [done|done|lia].
  - destruct (decide (n <= S k)%nat) as [H|H].
    + replace (n - S k)%nat with 0%nat by lia. rewrite drop_ge by (rewrite length_dents; fold n; lia). done.
    + rewrite (dents_seq bs (S k) (n - S k)) by (fold n; lia). apply list_fmap_ext.
      intros i x [-> Hx]%lookup_seq. apply dent_write_ne; [done|done|lia].
Qed.

(** Writing a live entry with a new name over an empty one, or after all
    others, inserts into the map. *)
Lemma dir_is_insert bs d k e : dir_is bs d -> length e = NDE -> Forall (fun x => 0 <= x < 256) e -> live e -> d !! dname (de_name e) = None ->
  (k <= length bs / NDE)%nat -> (k < length bs / NDE -> ~ live (dent bs k))%nat ->
  dir_is (write_at (Z.of_nat (NDE * k)) e bs) (<[dname (de_name e) := de_inum e]> d).
Proof.
  intros [D0 D1 D2 D3] He Heb Hlv Hn Hk Hdead. destruct (dents_write bs k e He D1 Hk) as [E1 E2].
  assert (dir_map (take k (dents bs) ++ drop (S k) (dents bs)) = d /\
    live_names (take k (dents bs) ++ drop (S k) (dents bs)) = live_names (dents bs)) as [Em En].
  { destruct (decide (k < length bs / NDE)%nat) as [H|H].
    - pose proof (take_drop_middle (dents bs) k _ (dents_lookup bs k H)) as Et. specialize (Hdead H).
      split.
      + rewrite <- D3. rewrite <- Et at 3. by rewrite dir_map_skip.
      + rewrite <- Et at 3. rewrite !live_names_app, live_names_cons, decide_False by done. done.
    - rewrite take_ge, drop_ge by (rewrite length_dents; lia). by rewrite app_nil_r. }
  rewrite <- D3 in Hn. apply dir_map_lookup_None in Hn. rewrite <- En in D2, Hn. split.
  - unfold write_at. apply Forall_app. split; [by apply Forall_take|]. apply Forall_app. split; [done|by apply Forall_drop].
  - done.
  - rewrite E2. by apply live_names_fill.
  - rewrite E2, dir_map_fill; [by rewrite Em|done|]. rewrite live_names_app in Hn. set_solver.
Qed.

(** ** The inode table *)

(** A slot in use for an inode. *)
Definition cached (ip : inode) (dev inum : Z) : Prop := 0 < i_ref ip /\ i_dev ip = dev /\ i_inum ip = inum.
#[export] Instance cached_dec ip dev inum : Decision (cached ip dev inum).
Proof. unfold cached. apply _. Defined.

(** At most one slot for each inode. *)
Record itable_ok (t : list inode) : Prop := {
  it_ref : forall i ip, t !! i = Some ip -> 0 <= i_ref ip < 2 ^ 31 - 1;
  it_uniq : forall i j x y dev inum, t !! i = Some x -> t !! j = Some y -> cached x dev inum -> cached y dev inum -> i = j
}.
Definition itable_room (t : list inode) (dev inum : Z) : Prop :=
  exists i ip, t !! i = Some ip /\ (cached ip dev inum \/ i_ref ip = 0).

Definition add_ref (n : Z) (ip : inode) : inode := set_i_ref (i_ref ip + n) ip.
Lemma add_ref_cancel ip : add_ref (-1) (add_ref 1 ip) = ip.
Proof.
  destruct ip as [dev inum ref v ty mj mn nl sz ad]. unfold add_ref, set_i_ref.
  cbn [i_dev i_inum i_ref i_valid i_type i_major i_minor i_nlink i_size i_addrs].
  by replace (ref + 1 + -1) with ref by lia.
Qed.
Definition claimed (dev inum : Z) (ip : inode) : inode :=
  set_i_valid 0 (set_i_ref 1 (set_i_inum inum (set_i_dev dev ip))).

(** Slot [i] of [t'] refers to the inode once more than in [t]. *)
Definition got (t : list inode) (dev inum : Z) (i : nat) (t' : list inode) : Prop :=
  exists ip, t !! i = Some ip /\
    (cached ip dev inum /\ t' = <[i := add_ref 1 ip]> t \/
     (forall j x, t !! j = Some x -> ~ cached x dev inum) /\ i_ref ip = 0 /\ t' = <[i := claimed dev inum ip]> t).

Lemma iget_scan_spec dev inum : forall l k e,
  (exists i ip, iget_scan l k dev inum e = (Some (k + i)%nat, snd (iget_scan l k dev inum e)) /\ l !! i = Some ip /\ cached ip dev inum) \/
  (forall j x, l !! j = Some x -> ~ cached x dev inum) /\ fst (iget_scan l k dev inum e) = None /\
  match e with
  | Some i => snd (iget_scan l k dev inum e) = Some i
  | None => match snd (iget_scan l k dev inum None) with
            | Some i => exists j ip, i = (k + j)%nat /\ l !! j = Some ip /\ i_ref ip = 0
            | None => forall j x, l !! j = Some x -> i_ref x <> 0
            end
  end.
Proof.
  induction l as [|ip l IH]; intros k e; cbn [iget_scan].
  - right. split; [done|]. split; [done|]. by destruct e.
  - destruct ((0 <? i_ref ip) && (i_dev ip =? dev) && (i_inum ip =? inum)) eqn:E.
    { left. exists 0%nat, ip. rewrite Nat.add_0_r. split_and!; [done|done|]. unfold cached. lia. }
    assert (~ cached ip dev inum) as Hn by (unfold cached; lia).
    destruct (IH (S k) (match e with Some x => Some x | None => if i_ref ip =? 0 then Some k else None end)) as [(i & x & E1 & E2 & E3)|(H1 & H2 & H3)].
    + left. exists (S i), x. replace (k + S i)%nat with (S k + i)%nat by lia. done.
    + right. split; [by intros [|j] x; [intros [= <-]|apply H1]|]. split; [exact H2|].
      destruct e as [i|]; [exact H3|]. destruct (Z.eqb_spec (i_ref ip) 0) as [Hz|Hz].
      * rewrite H3. exists 0%nat, ip. rewrite Nat.add_0_r. done.
      * destruct (snd _) as [i|]; [|by intros [|j] x; [intros [= <-]|apply H3]].
        destruct H3 as (j & x & -> & Hx). exists (S j), x. split; [lia|done].
Qed.

Section iget.
Context (p : nat) (pid : Z) (dev inum : Z).

Lemma iget_ok fs : itable_ok (fs_itable fs) -> itable_room (fs_itable fs) dev inum ->
  exists i t', fsr p pid [] (iget dev inum) fs i [] (set_fs_itable t' fs) /\ got (fs_itable fs) dev inum i t'.
Proof.
  intros Hok (j & y & Hy & Hroom). set (t := fs_itable fs) in *.
  assert (forall r fs', fsr p pid [L_itable] (match iget_scan t 0 dev inum None with
    | (Some i, _) => mod_inode i (fun ip => set_i_ref (i32 (i_ref ip + 1)) ip);; release L_itable;; mret i
    | (None, None) => panic "iget: no inodes"
    | (None, Some i) => mod_inode i (set_i_dev dev);; mod_inode i (set_i_inum inum);; mod_inode i (set_i_ref 1);;
        mod_inode i (set_i_valid 0);; release L_itable;; mret i
    end) fs r [] fs' -> fsr p pid [] (iget dev inum) fs r [] fs') as Hrun.
  { intros r fs' R. unfold iget. eapply fsr_bind; [apply fsr_acquire, not_elem_of_nil|].
    eapply fsr_bind; [apply (fsr_get p pid _ fs_itable)|]. fold t. exact R. }
  assert (forall i ip f, t !! i = Some ip -> alter f i t = <[i := f ip]> t) as Halt.
  { intros i ip f Hi. rewrite list_insert_alter. apply list_alter_ext; [|done]. intros x Hx. congruence. }
  destruct (iget_scan_spec dev inum t 0 None) as [(i & ip & E & Hi & Hc)|(Hno & E1 & E2)].
  - exists i, (<[i := add_ref 1 ip]> t). split; [|exists ip; naive_solver]. apply Hrun. rewrite E.
    eapply fsr_bind; [apply fsr_mod_inode|]. eapply fsr_bind; [apply fsr_release; set_solver|].
    eapply fsr_eq; [apply fsr_ret|]. unfold upd_inode. fold t. change (0 + i)%nat with i. rewrite (Halt i ip) by done.
    unfold add_ref. destruct Hc as [H0 _]. pose proof (it_ref _ Hok i ip Hi). by rewrite i32_small by lia.
  - destruct (iget_scan t 0 dev inum None) as [o e]. cbn [fst snd] in *. subst o. destruct e as [i|].
    + destruct E2 as (i' & ip & Ei & Hi & Hz). cbn [Nat.add] in Ei. subst i'.
      exists i, (<[i := claimed dev inum ip]> t). split; [|exists ip; split; [done|right; split_and!; try done; by apply Hno]].
      apply Hrun. do 4 (eapply fsr_bind; [apply fsr_mod_inode|]). eapply fsr_bind; [apply fsr_release; set_solver|].
      eapply fsr_eq; [apply fsr_ret|]. unfold upd_inode. cbn [fs_itable set_fs_itable]. fold t.
      rewrite !list_alter_alter_eq, (Halt i ip) by done. done.
    + destruct Hroom as [H|H]; [by destruct (Hno j y)|by destruct (E2 j y)].
Qed.

(** The table stays well formed. *)
Lemma got_ok t i t' : itable_ok t -> got t dev inum i t' -> (forall ip, t !! i = Some ip -> i_ref ip < 2 ^ 31 - 2) ->
  itable_ok t' /\ (exists ip, t' !! i = Some ip /\ cached ip dev inum) /\ length t' = length t /\
  (forall j, j <> i -> t' !! j = t !! j).
Proof.
  intros [H1 H2] (ip & Hi & Hg) Hr. specialize (Hr ip Hi). pose proof (H1 i ip Hi) as Hri.
  assert (exists ip', t' = <[i := ip']> t /\ cached ip' dev inum /\ 0 <= i_ref ip' < 2 ^ 31 - 1 /\
    forall j y d n, j <> i -> t !! j = Some y -> cached ip' d n -> cached y d n -> False) as (ip' & -> & Hc & Hb & Hu).
  { destruct Hg as [[Hc ->]|(Hno & Hz & ->)]; eexists; (split; [done|]).
    - split; [destruct Hc as (?&?&?); split; [simpl; lia|done]|]. split; [simpl; lia|].
      intros j y d n Hj Hy (?&?&?) Hcy. apply Hj. apply (H2 j i y ip d n); try done. destruct Hc. by split_and!.
    - split; [done|]. split; [simpl; lia|]. intros j y d n Hj Hy (_&<-&<-) Hcy. by apply (Hno j y). }
  assert (i < length t)%nat as Hlt by (by eapply lookup_lt_Some).
  split; [split|].
  - intros j y Hy. destruct (decide (j = i)) as [->|Hj].
    + rewrite list_lookup_insert_eq in Hy by done. by injection Hy as <-.
    + rewrite list_lookup_insert_ne in Hy by done. by eapply H1.
  - intros j k x y d n Hx Hy Cx Cy. destruct (decide (j = i)) as [->|Hj], (decide (k = i)) as [->|Hk]; [done| | |].
    + rewrite list_lookup_insert_eq in Hx by done. rewrite list_lookup_insert_ne in Hy by done. injection Hx as ->.
      by destruct (Hu k y d n Hk Hy).
    + rewrite list_lookup_insert_eq in Hy by done. rewrite list_lookup_insert_ne in Hx by done. injection Hy as ->.
      by destruct (Hu j x d n Hj Hx).
    + rewrite !list_lookup_insert_ne in Hx, Hy by done. by eapply H2.
  - split; [exists ip'; by rewrite list_lookup_insert_eq by done|]. split; [apply length_insert|].
    intros j Hj. by rewrite list_lookup_insert_ne.
Qed.

(** [iput] of a reference that is not the last one to an inode without
    links. *)
Lemma iput_keep `{D : Disk} fs i ip : fs_itable fs !! i = Some ip -> 1 <= i_ref ip < 2 ^ 31 ->
  ~ (i_ref ip = 1 /\ i_valid ip <> 0 /\ i_nlink ip = 0) ->
  fsr p pid [] (iput i) fs tt [] (set_fs_itable (<[i := add_ref (-1) ip]> (fs_itable fs)) fs).
Proof.
  intros Hi Hr Hn. assert (inode_at fs i = ip) as Ei by (unfold inode_at; by rewrite nth_lookup, Hi).
  unfold iput. eapply fsr_bind; [apply fsr_acquire, not_elem_of_nil|]. eapply fsr_bind; [apply fsr_get_inode|].
  rewrite Ei. replace ((i_ref ip =? 1) && negb (i_valid ip =? 0) && (i_nlink ip =? 0)) with false by lia.
  eapply fsr_bind; [apply fsr_ret|]. eapply fsr_bind; [apply fsr_mod_inode|]. eapply fsr_eq; [apply fsr_release; set_solver|].
  unfold upd_inode. f_equal. rewrite list_insert_alter. apply list_alter_ext; [|done].
  intros x Hx. assert (x = ip) as -> by congruence. unfold add_ref. rewrite i32_small by lia. do 2 f_equal.
Qed.
End iget.

(** ** Code that uses the kernel stack *)

Section fsp.
Context (p : nat) (pid : Z) (pr : proc).

(** [fsm] for the process with the structure [pr], whose kernel stack the
    code addresses. *)
Definition fsp {A} (m : K A) (pm : physmem) (fs : fsstate) (a : A) (pm' : physmem) (fs' : fsstate) : Prop :=
  forall w, ctx p pid [] (w_k w) -> proc_at (k_ps (w_k w)) p = pr -> k_fs (w_k w) = fs -> k_pm (w_k w) = pm ->
  exists w', m w = Ret a w' /\ w_env w' = w_env w /\ ctx p pid [] (w_k w') /\
    frame p (w_k w) (set_k_pm pm (w_k w')) /\ k_fs (w_k w') = fs' /\ k_pm (w_k w') = pm'.

Lemma fsp_fsm {A} (m : K A) pm fs a pm' fs' : fsm p pid m pm fs a pm' fs' -> fsp m pm fs a pm' fs'.
Proof. intros R w Hc _ Hf Hp. by apply R. Qed.
Lemma fsp_fsr {A} (m : K A) pm fs a fs' : fsr p pid [] m fs a [] fs' -> fsp m pm fs a pm fs'.
Proof. intros R. by apply fsp_fsm, fsm_fsr. Qed.
Lemma fsp_ret {A} pm fs (a : A) : fsp (mret a) pm fs a pm fs.
Proof. apply fsp_fsr, fsr_ret. Qed.

Lemma fsp_bind {A B} (m : K A) (f : A -> K B) pm fs a pm1 fs1 b pm2 fs2 :
  fsp m pm fs a pm1 fs1 -> fsp (f a) pm1 fs1 b pm2 fs2 -> fsp (x ← m; f x) pm fs b pm2 fs2.
Proof.
  intros H1 H2 w Hc Hpr Hf Hp. destruct (H1 w Hc Hpr Hf Hp) as (w1 & E1 & Hv1 & Hc1 & Hfr1 & Hf1 & Hp1).
  pose proof (frame_proc _ _ _ Hfr1) as Epr. cbn [k_ps set_k_pm] in Epr.
  destruct (H2 w1 Hc1 (eq_trans Epr Hpr) Hf1 Hp1) as (w2 & E2 & Hv2 & Hc2 & Hfr2 & Hf2 & Hp2).
  exists w2. rewrite (bind_ret _ _ _ _ _ E1). split_and!; try done; [congruence|].
  eapply frame_trans; [exact Hfr1|]. destruct Hfr2 as (ps & thr & fs0 & h & Hs & Ep). exists ps, thr, fs0, h.
  split; [|exact Ep]. apply (f_equal (set_k_pm pm)) in Hs. transitivity (set_k_pm pm (set_k_pm pm1 (w_k w2))); [by destruct (w_k w2)|].
  rewrite Hs. by destruct (w_k w1).
Qed.

Lemma fsp_get {A} (g : kst -> A) pm fs a : (forall w, proc_at (k_ps (w_k w)) p = pr -> k_fs (w_k w) = fs ->
  k_pm (w_k w) = pm -> g (w_k w) = a) -> fsp (kget g) pm fs a pm fs.
Proof.
  intros Hg w Hc Hpr Hf Hp. exists w. rewrite <- (Hg w Hpr Hf Hp). split_and!; try done. rewrite <- Hp.
  replace (set_k_pm (k_pm (w_k w)) (w_k w)) with (w_k w) by (by destruct (w_k w)). apply frame_refl.
Qed.
Lemma fsp_store pm fs dst l : fsp (kstore_bytes dst l) pm fs tt (set_pm_mem (store_bytes l dst (pm_mem pm)) pm) fs.
Proof.
  intros w Hc Hpr Hf Hp. eexists. split; [done|]. cbn. split; [done|]. destruct Hc as [? ? ? ? ?].
  split; [by split|]. rewrite Hp. split_and!; [|done|done].
  exists (k_ps (w_k w)), (k_thr (w_k w)), (k_fs (w_k w)), (k_held (w_k w)).
  split; [rewrite <- Hp; by destruct (w_k w)|done].
Qed.

Definition de_loc : Z := p_kstack pr + PGSIZE - 64.
Lemma fsp_de_addr pm fs : fsp de_addr pm fs de_loc pm fs.
Proof.
  unfold de_addr. eapply fsp_bind; [apply fsp_fsr, fsr_curproc|].
  eapply (fsp_bind (get_proc p) _ _ _ pr); [|apply fsp_ret]. apply fsp_get. by intros.
Qed.
Lemma fsp_de_bytes de pm fs : fsp (de_bytes de) pm fs (bytes (pm_mem pm) de 16) pm fs.
Proof. apply fsp_get. by intros w _ _ ->. Qed.
End fsp.

(** Memory after a change of the bytes of [de]. *)
Definition de_only (de : Z) (pm pm' : physmem) : Prop :=
  pm' = set_pm_mem (pm_mem pm') pm /\ (is_bytes (pm_mem pm) -> is_bytes (pm_mem pm')) /\
  forall a, ~ de <= a < de + 16 -> pm_mem pm' a = pm_mem pm a.
Lemma de_only_refl de pm : de_only de pm pm.
Proof. split; [by destruct pm|done]. Qed.
Lemma de_only_trans de a b c : de_only de a b -> de_only de b c -> de_only de a c.
Proof.
  intros (E1 & H1 & K1) (E2 & H2 & K2). split; [|split].
  - rewrite E2. cbn [pm_mem set_pm_mem]. rewrite E1. by destruct a.
  - intros H. by apply H2, H1.
  - intros x Hx. by rewrite K2, K1.
Qed.
Lemma de_only_store de pm o l : Forall (fun x => 0 <= x < 256) l -> de <= o -> o + Z.of_nat (length l) <= de + 16 ->
  de_only de pm (set_pm_mem (store_bytes l o (pm_mem pm)) pm).
Proof.
  intros Hl H1 H2. split; [by destruct pm|]. split; [by apply store_bytes_bytes|]. intros a Ha. cbn [pm_mem set_pm_mem].
  rewrite store_bytes_spec by done. by rewrite decide_False by lia.
Qed.
Lemma bytes_store l a m : Forall (fun x => 0 <= x < 256) l -> bytes (store_bytes l a m) a (length l) = l.
Proof.
  intros Hl. apply list_eq. intros j. unfold bytes. rewrite list_lookup_fmap.
  destruct (decide (j < length l)%nat) as [Hj|Hj].
  - rewrite lookup_seq_lt by done. cbn [fmap option_fmap option_map]. rewrite store_bytes_spec by done.
    rewrite decide_True by lia. destruct (lookup_lt_is_Some_2 l j Hj) as [x Hx]. rewrite Hx. f_equal.
    unfold aget. rewrite nth_lookup. replace (Z.to_nat (a + Z.of_nat (0 + j) - a)) with j by lia. by rewrite Hx.
  - rewrite lookup_seq_ge by lia. symmetry. apply lookup_ge_None. lia.
Qed.

(** ** Scanning a directory *)

Definition off_of (k : nat) : Z := Z.of_nat (NDE * k).
Lemma off_of_ltb j k : (off_of j <? off_of k) = bool_decide (j < k)%nat.
Proof. unfold off_of. rewrite NDE_eq. destruct (Z.ltb_spec (Z.of_nat (16 * j)) (Z.of_nat (16 * k))); case_bool_decide; lia. Qed.

Lemma dir_bound V ip bs : file_is V ip bs -> Z.of_nat (length bs) <= 274432.
Proof. intros HF. pose proof (fi_size _ _ _ HF) as H1. pose proof (fi_max _ _ _ HF) as H2. change (MAXFILE * BSIZE) with 274432 in H2. lia. Qed.

Section dir.
Context `{D : Disk} `{!DiskOk D} (p : nat) (pid : Z) (pr : proc) (start : Z) (sb : superblock).
Context (dp : nat) (ip : inode) (V : Z -> list Z) (B : list Z) (bs : list Z) (de : Z).
Hypothesis (HI : inode_wf V sb ip) (HF : file_is V ip bs) (Hdev : i_dev ip = ROOTDEV) (HB : (length B < NBUF)%nat).
Hypothesis (Hbs : Forall (fun x => 0 <= x < 256) bs) (Hlen : (length bs mod NDE = 0)%nat).
Hypothesis (Hde : 0 <= de /\ de + 16 < 2 ^ 64).
Let n : nat := (length bs / NDE)%nat.

(** Reading entry [k] into the buffer. *)
Lemma de_read fs pm k : txn pid start fs V B ∅ -> fs_sb fs = sb -> inode_at fs dp = ip -> (k < n)%nat ->
  exists pm1 fs1, fsp p pid pr (readi dp false de (off_of k) DIRENT_SIZE) pm fs DIRENT_SIZE pm1 fs1 /\
    bytes (pm_mem pm1) de 16 = dent bs k /\ de_only de pm pm1 /\
    txn pid start fs1 V B ∅ /\ tx_keep fs fs1 /\ fs_itable fs1 = fs_itable fs.
Proof.
  intros T Esb Ei Hk. pose proof (dents_len bs Hlen) as Hl; fold n in Hl. pose proof (dir_bound V ip bs HF) as Hbd. rewrite NDE_eq in *.
  assert (read_at (off_of k) DIRENT_SIZE bs = dent bs k) as Er by (unfold read_at, dent, off_of; by rewrite Nat2Z.id).
  assert (length (dent bs k) = 16%nat) as Hd by (apply length_dent; rewrite NDE_eq; done).
  assert (Forall (fun x => 0 <= x < 256) (dent bs k)) as Hdb by (by apply Forall_take, Forall_drop).
  assert (0 <= off_of k /\ off_of k + 16 < 2 ^ 32) as [Ho1 Ho2] by (unfold off_of; rewrite NDE_eq; lia).
  destruct (readi_ok D p pid start sb fs V B dp bs pm de (off_of k) DIRENT_SIZE DiskOk0 T Esb) as (fs1 & R & T1 & P1 & It1);
    rewrite ?Ei; try done; try lia.
  { rewrite (proj2 (Z.ltb_lt _ _)) by done. rewrite Er, Hd. lia. }
  rewrite (proj2 (Z.ltb_lt _ _)), Er, Hd in R by done.
  eexists _, fs1. split; [exact (fsp_fsm _ _ _ _ _ _ _ _ _ R)|]. cbn [pm_mem set_pm_mem]. split_and!; try done.
  - rewrite <- Hd at 1. by apply bytes_store.
  - apply de_only_store; [done|lia|rewrite Hd; lia].
Qed.

Definition is_entry (name : list Z) (k : nat) : Prop := live (dent bs k) /\ dname (de_name (dent bs k)) = dname name.

Lemma dirlookup_loop_ok name : forall fuel k fs pm,
  txn pid start fs V B ∅ -> fs_sb fs = sb -> inode_at fs dp = ip -> (k <= n)%nat -> (n - k <= fuel)%nat ->
  exists pm' fs1, de_only de pm pm' /\ txn pid start fs1 V B ∅ /\ tx_keep fs fs1 /\ fs_itable fs1 = fs_itable fs /\
  ((forall j, (k <= j < n)%nat -> ~ is_entry name j) /\
     fsp p pid pr (dirlookup_loop fuel dp name de (off_of k)) pm fs None pm' fs1 \/
   exists j, (k <= j < n)%nat /\ is_entry name j /\ forall i fs2,
     fsr p pid [] (iget ROOTDEV (de_inum (dent bs j))) fs1 i [] fs2 ->
     fsp p pid pr (dirlookup_loop fuel dp name de (off_of k)) pm fs (Some (i, off_of j)) pm' fs2).
Proof.
  pose proof (dents_len bs Hlen) as Hl; fold n in Hl. pose proof (dir_bound V ip bs HF) as Hbd. pose proof (fi_size _ _ _ HF) as Hs.
  induction fuel as [|fuel IH]; intros k fs pm T Esb Ei Hk Hf; cbn [dirlookup_loop].
  all: assert ((off_of k <? i_size ip) = bool_decide (k < n)%nat) as Ec
    by (rewrite Hs, Hl; apply off_of_ltb).
  all: destruct (decide (k < n)%nat) as [Hlt|Hge]; try lia.
  1,3: exists pm, fs; split_and!; [apply de_only_refl|done|apply tx_keep_refl|done|]; left; split; [intros; lia|];
    eapply fsp_bind; [apply fsp_fsr, fsr_get_inode|]; rewrite Ei, Ec, bool_decide_eq_false_2 by lia; apply fsp_ret.
  destruct (de_read fs pm k T Esb Ei Hlt) as (pm1 & fs1 & R1 & Eb & O1 & T1 & P1 & It1).
  assert (u32 (off_of k + DIRENT_SIZE) = off_of (S k)) as Eo.
  { unfold off_of, DIRENT_SIZE. rewrite NDE_eq in *. rewrite u32_small; change (2 ^ 32) with 4294967296; lia. }
  assert (inode_at fs1 dp = ip) as Ei1 by (unfold inode_at in *; by rewrite It1).
  assert (forall r pm' fs', fsp p pid pr (if de_inum (dent bs k) =? 0 then dirlookup_loop fuel dp name de (off_of (S k))
      else if namecmp name (de_name (dent bs k)) =? 0 then i ← iget ROOTDEV (de_inum (dent bs k)); mret (Some (i, off_of k))
      else dirlookup_loop fuel dp name de (off_of (S k))) pm1 fs1 r pm' fs' ->
    fsp p pid pr (dirlookup_loop (S fuel) dp name de (off_of k)) pm fs r pm' fs') as Hrun.
  { intros r pm' fs' R. cbn [dirlookup_loop]. eapply fsp_bind; [apply fsp_fsr, fsr_get_inode|].
    rewrite Ei, Ec, bool_decide_eq_true_2 by done. eapply fsp_bind; [exact R1|]. rewrite Z.eqb_refl. cbn [negb].
    eapply fsp_bind; [apply fsp_de_bytes|]. rewrite Eb, Hdev, Eo. exact R. }
  destruct (decide (is_entry name k)) as [[Hlv Hnm]|Hne].
  - exists pm1, fs1. split_and!; try done. right. exists k. split; [lia|]. split; [done|]. intros i fs2 R2.
    apply Hrun. rewrite (proj2 (Z.eqb_neq _ 0)) by done.
    rewrite (proj2 (Z.eqb_eq _ 0)) by (by apply namecmp_dname). eapply fsp_bind; [apply fsp_fsr; exact R2|apply fsp_ret].
  - destruct (IH (S k) fs1 pm1 T1) as (pm' & fs2 & O2 & T2 & P2 & It2 & Hr); [by rewrite (tk_sb _ _ P1)|done|lia|lia|].
    exists pm', fs2. split_and!; [by eapply de_only_trans|done|by eapply tx_keep_trans|by rewrite It2|].
    assert (forall r fs', fsp p pid pr (dirlookup_loop fuel dp name de (off_of (S k))) pm1 fs1 r pm' fs' ->
      fsp p pid pr (dirlookup_loop (S fuel) dp name de (off_of k)) pm fs r pm' fs') as Hstep.
    { intros r fs' R. apply Hrun. unfold is_entry, live in Hne. destruct (Z.eqb_spec (de_inum (dent bs k)) 0); [done|].
      destruct (Z.eqb_spec (namecmp name (de_name (dent bs k))) 0) as [E|E]; [|done].
      destruct Hne. split; [done|]. symmetry. by apply namecmp_dname. }
    destruct Hr as [[Hno R]|(j & Hj & He & R)].
    + left. split; [|by apply Hstep]. intros j Hj. destruct (decide (j = k)) as [->|]; [done|]. apply Hno. lia.
    + right. exists j. split; [lia|]. split; [done|]. intros i fs3 R3. by apply Hstep, R.
Qed.

(** The first empty entry. *)
Lemma dirlink_loop_ok : forall fuel k fs pm,
  txn pid start fs V B ∅ -> fs_sb fs = sb -> inode_at fs dp = ip -> (k <= n)%nat -> (n - k <= fuel)%nat ->
  exists j pm' fs1, (k <= j <= n)%nat /\ (j < n -> ~ live (dent bs j))%nat /\
    fsp p pid pr (dirlink_loop fuel dp de (off_of k)) pm fs (off_of j) pm' fs1 /\
    de_only de pm pm' /\ txn pid start fs1 V B ∅ /\ tx_keep fs fs1 /\ fs_itable fs1 = fs_itable fs.
Proof.
  pose proof (dents_len bs Hlen) as Hl; fold n in Hl. pose proof (dir_bound V ip bs HF) as Hbd. pose proof (fi_size _ _ _ HF) as Hs.
  induction fuel as [|fuel IH]; intros k fs pm T Esb Ei Hk Hf; cbn [dirlink_loop].
  all: assert ((off_of k <? i_size ip) = bool_decide (k < n)%nat) as Ec
    by (rewrite Hs, Hl; apply off_of_ltb).
  all: destruct (decide (k < n)%nat) as [Hlt|Hge]; try lia.
  1,3: exists k, pm, fs; split_and!; [lia|lia|lia| |apply de_only_refl|done|apply tx_keep_refl|done];
    eapply fsp_bind; [apply fsp_fsr, fsr_get_inode|]; rewrite Ei, Ec, bool_decide_eq_false_2 by lia; apply fsp_ret.
  destruct (de_read fs pm k T Esb Ei Hlt) as (pm1 & fs1 & R1 & Eb & O1 & T1 & P1 & It1).
  assert (inode_at fs1 dp = ip) as Ei1 by (unfold inode_at in *; by rewrite It1).
  assert (off_of k + DIRENT_SIZE = off_of (S k)) as Eo by (unfold off_of, DIRENT_SIZE; rewrite NDE_eq; lia).
  assert (forall r pm' fs', fsp p pid pr (if de_inum (dent bs k) =? 0 then mret (off_of k)
      else dirlink_loop fuel dp de (off_of (S k))) pm1 fs1 r pm' fs' ->
    fsp p pid pr (dirlink_loop (S fuel) dp de (off_of k)) pm fs r pm' fs') as Hrun.
  { intros r pm' fs' R. cbn [dirlink_loop]. eapply fsp_bind; [apply fsp_fsr, fsr_get_inode|].
    rewrite Ei, Ec, bool_decide_eq_true_2 by done. eapply fsp_bind; [exact R1|]. rewrite Z.eqb_refl. cbn [negb].
    eapply fsp_bind; [apply fsp_de_bytes|]. rewrite Eb, Eo. exact R. }
  destruct (decide (live (dent bs k))) as [Hlv|Hdead].
  - destruct (IH (S k) fs1 pm1 T1) as (j & pm' & fs2 & Hj & Hd & R & O2 & T2 & P2 & It2); [by rewrite (tk_sb _ _ P1)|done|lia|lia|].
    exists j, pm', fs2. split_and!; [lia|lia|done| |by eapply de_only_trans|done|by eapply tx_keep_trans|by rewrite It2].
    apply Hrun. by rewrite (proj2 (Z.eqb_neq _ 0)).
  - exists k, pm1, fs1. split_and!; [lia|lia|done| |done|done|done|done]. apply Hrun.
    unfold live in Hdead. rewrite (proj2 (Z.eqb_eq _ 0)) by lia. apply fsp_ret.
Qed.
End dir.

Lemma dir_map_elem l e : NoDup (live_names l) -> e ∈ l -> live e -> dir_map l !! dname (de_name e) = Some (de_inum e).
Proof.
  intros Hnd (l1 & l2 & ->)%list_elem_of_split He. rewrite live_names_app, live_names_cons, decide_True in Hnd by done.
  cbn [app] in Hnd. rewrite <- Permutation_middle, NoDup_cons in Hnd. destruct Hnd as [Hn _].
  rewrite dir_map_fill; [apply lookup_insert_eq|done|set_solver].
Qed.
Lemma dir_is_entry bs d name k : dir_is bs d -> (k < length bs / NDE)%nat -> is_entry bs name k ->
  d !! dname name = Some (de_inum (dent bs k)).
Proof.
  intros [_ _ D2 <-] Hk [Hl Hn]. rewrite <- Hn. apply dir_map_elem; [done| |done].
  eapply list_elem_of_lookup_2. by apply dents_lookup.
Qed.
Lemma dir_is_no_entry bs d name : dir_is bs d -> (forall k, (k < length bs / NDE)%nat -> ~ is_entry bs name k) ->
  d !! dname name = None.
Proof.
  intros [_ _ _ <-] Hno. apply dir_map_lookup_None. unfold live_names. intros (e & En & He)%list_elem_of_fmap.
  apply list_elem_of_filter in He as [Hl [k Hk]%list_elem_of_lookup]. pose proof (lookup_lt_Some _ _ _ Hk) as Hlt.
  rewrite length_dents in Hlt. rewrite dents_lookup in Hk by done. injection Hk as <-. by apply (Hno k).
Qed.

(** ** The new entry *)

Section entry.
Context (name : list Z).
Hypothesis Hname : Forall (fun x => 0 <= x < 256) name.

(** The entry that [dirlink] builds on its stack. *)
Definition new_entry (inum : Z) : list Z := [inum mod 256; inum / 256 mod 256] ++ strncpy_list (Z.to_nat DIRSIZ) name.

Lemma strncpy_bytes n : forall t, Forall (fun x => 0 <= x < 256) t -> Forall (fun x => 0 <= x < 256) (strncpy_list n t).
Proof.
  induction n as [|n IH]; intros t Ht; [constructor|]. cbn [strncpy_list]. destruct (Z.eqb_spec (hd 0 t) 0) as [E|E].
  - apply Forall_replicate. lia.
  - destruct Ht as [|x t Hx Ht]; [done|]. constructor; [done|by apply IH].
Qed.
Lemma new_entry_spec inum : 0 < inum < 2 ^ 16 -> let e := new_entry inum in
  length e = NDE /\ Forall (fun x => 0 <= x < 256) e /\ live e /\ de_inum e = inum /\ dname (de_name e) = dname name.
Proof.
  intros Hi e. assert (de_inum e = inum) as E.
  { change (inum mod 256 + 256 * (inum / 256 mod 256) = inum). clear - Hi. change (2 ^ 16) with 65536 in Hi. zlia. }
  split_and!.
  - unfold e, new_entry. rewrite length_app, length_strncpy. done.
  - unfold e, new_entry. apply Forall_app. split; [|by apply strncpy_bytes].
    repeat constructor; apply Z.mod_pos_bound; lia.
  - unfold live. lia.
  - done.
  - unfold e, de_name, new_entry. cbn [app drop]. apply cname_strncpy.
Qed.

Lemma store_entry p pid pr fs pm inum : let de := de_loc pr in 0 < inum < 2 ^ 16 -> exists pm',
  fsp p pid pr (kstore_bytes (de + 2) (strncpy_list (Z.to_nat DIRSIZ) name);; kstore_bytes de [inum mod 256; inum / 256 mod 256]) pm fs tt pm' fs /\
  de_only de pm pm' /\ bytes (pm_mem pm') de 16 = new_entry inum.
Proof.
  intros de Hi. destruct (new_entry_spec inum Hi) as (E1 & E2 & _). set (nm := strncpy_list (Z.to_nat DIRSIZ) name).
  assert (Forall (fun x => 0 <= x < 256) nm) as Hnm by (by apply strncpy_bytes).
  assert (length nm = 14%nat) as Hl by apply length_strncpy.
  set (hd2 := [inum mod 256; inum / 256 mod 256]).
  assert (Forall (fun x => 0 <= x < 256) hd2) as Hh by (repeat constructor; apply Z.mod_pos_bound; lia).
  set (pm1 := set_pm_mem (store_bytes nm (de + 2) (pm_mem pm)) pm).
  exists (set_pm_mem (store_bytes hd2 de (pm_mem pm1)) pm1). split_and!.
  - eapply fsp_bind; apply fsp_store.
  - apply (de_only_trans _ _ pm1); apply de_only_store; try done; rewrite ?Hl; cbn [length hd2]; lia.
  - apply list_eq. intros j. unfold bytes. rewrite list_lookup_fmap.
    destruct (decide (j < 16)%nat) as [Hj|Hj].
    + rewrite lookup_seq_lt by done. cbn [fmap option_fmap option_map pm_mem set_pm_mem pm1].
      rewrite !store_bytes_spec by done. cbn [length hd2]. rewrite Hl. unfold new_entry. fold nm hd2.
      destruct (decide (j < 2)%nat) as [H2|H2].
      * rewrite decide_True by lia. unfold aget. replace (Z.to_nat (de + Z.of_nat (0 + j) - de)) with j by lia.
        rewrite lookup_app_l by (cbn [length hd2]; lia). rewrite nth_lookup.
        destruct (lookup_lt_is_Some_2 hd2 j) as [x Hx]; [cbn [length hd2]; lia|]. by rewrite Hx.
      * rewrite decide_False, decide_True by lia. unfold aget. rewrite lookup_app_r by (cbn [length hd2]; lia). cbn [length hd2].
        replace (Z.to_nat (de + Z.of_nat (0 + j) - (de + 2))) with (j - 2)%nat by lia. rewrite nth_lookup.
        destruct (lookup_lt_is_Some_2 nm (j - 2)) as [x Hx]; [lia|]. by rewrite Hx.
    + rewrite lookup_seq_ge by lia. symmetry. apply lookup_ge_None. rewrite E1, NDE_eq. lia.
Qed.
End entry.

(** ** Lookup and insertion *)

(** A directory that the transaction of process [p] works on. *)
Record dir_ctx (pid start : Z) (sb : superblock) (fs : fsstate) (V : Z -> list Z) (B : list Z) (dp : nat)
    (bs : list Z) (d : gmap (list Z) Z) : Prop := {
  dc_txn : txn pid start fs V B ∅;
  dc_sb : fs_sb fs = sb;
  dc_wf : inode_wf V sb (inode_at fs dp);
  dc_file : file_is V (inode_at fs dp) bs;
  dc_dir : dir_is bs d;
  dc_dev : i_dev (inode_at fs dp) = ROOTDEV;
  dc_type : i_type (inode_at fs dp) = T_DIR;
  dc_table : itable_ok (fs_itable fs)
}.
Definition stack_ok (pr : proc) : Prop := 0 <= de_loc pr /\ de_loc pr + 16 < 2 ^ 64.

Lemma tx_keep_table fs t : tx_keep fs (set_fs_itable t fs).
Proof. by split. Qed.

Section ops.
Context `{D : Disk} `{!DiskOk D} (p : nat) (pid : Z) (pr : proc) (start : Z) (sb : superblock).
Context (fs : fsstate) (V : Z -> list Z) (B : list Z) (dp : nat) (bs : list Z) (d : gmap (list Z) Z) (name : list Z).
Hypothesis (HC : dir_ctx pid start sb fs V B dp bs d) (HS : stack_ok pr) (HB : (length B < NBUF)%nat).
Let de : Z := de_loc pr.

Lemma dirlookup_run pm pm1 fs1 r : fsp p pid pr (dirlookup_loop (Z.to_nat (i_size (inode_at fs dp))) dp name de 0) pm fs r pm1 fs1 ->
  fsp p pid pr (dirlookup dp name) pm fs r pm1 fs1.
Proof.
  intros R. unfold dirlookup. eapply fsp_bind; [apply fsp_fsr, fsr_get_inode|]. rewrite (dc_type _ _ _ _ _ _ _ _ _ HC), Z.eqb_refl.
  cbn [negb]. eapply fsp_bind; [apply fsp_de_addr|exact R].
Qed.

Lemma dirlookup_ok pm : exists pm1 fs1, de_only de pm pm1 /\ txn pid start fs1 V B ∅ /\ tx_keep fs fs1 /\
  match d !! dname name with
  | None => fs_itable fs1 = fs_itable fs /\ fsp p pid pr (dirlookup dp name) pm fs None pm1 fs1
  | Some inum => itable_room (fs_itable fs) ROOTDEV inum ->
      exists i k t', (k < length bs / NDE)%nat /\ is_entry bs name k /\ de_inum (dent bs k) = inum /\
        got (fs_itable fs) ROOTDEV inum i t' /\
        fsp p pid pr (dirlookup dp name) pm fs (Some (i, off_of k)) pm1 (set_fs_itable t' fs1)
  end.
Proof.
  pose proof HC as [T Esb HI HF HD Hdev Hty Hit]. pose proof HD as [D0 D1 D2 D3].
  assert (Z.to_nat (i_size (inode_at fs dp)) = length bs) as Efuel by (rewrite (fi_size _ _ _ HF); lia).
  destruct (dirlookup_loop_ok p pid pr start sb dp (inode_at fs dp) V B bs de HI HF Hdev HB D0 D1 HS name (length bs) 0 fs pm T Esb eq_refl)
    as (pm1 & fs1 & O1 & T1 & P1 & It1 & Hr); [lia|pose proof (dents_len bs D1); rewrite NDE_eq in *; lia|].
  exists pm1, fs1. split_and!; [done|done|done|]. destruct Hr as [[Hno R]|(k & Hk & He & R)].
  - rewrite (dir_is_no_entry bs d name) by (done || (intros k Hk; apply Hno; lia)). split; [done|].
    apply dirlookup_run. rewrite Efuel. exact R.
  - rewrite (dir_is_entry bs d name k) by (done || lia). intros Hroom.
    destruct (iget_ok p pid ROOTDEV (de_inum (dent bs k)) fs1) as (i & t' & Rg & Hg); [by rewrite It1..|].
    rewrite It1 in Hg. exists i, k, t'. split_and!; [lia|done|done|done|]. apply dirlookup_run. rewrite Efuel. by apply R.
Qed.

Hypothesis (HW : disk_wf V sb) (HH : inode_home V sb (inode_at fs dp)) (Hdp : (dp < length (fs_itable fs))%nat).
Hypothesis (Hname : Forall (fun x => 0 <= x < 256) name) (HB6 : Z.of_nat (length B) + 6 <= 28).

(** The name is taken: the reference is dropped again. *)
Lemma got_put t dev inum i t' : itable_ok t -> got t dev inum i t' ->
  exists ip', t' !! i = Some ip' /\ 1 <= i_ref ip' < 2 ^ 31 /\ ~ (i_ref ip' = 1 /\ i_valid ip' <> 0 /\ i_nlink ip' = 0) /\
    forall j, (1 <= i_ref (nth j t inode_zero) -> nth j (<[i := add_ref (-1) ip']> t') inode_zero = nth j t inode_zero) /\
      i_ref (nth j (<[i := add_ref (-1) ip']> t') inode_zero) = i_ref (nth j t inode_zero).
Proof.
  intros [H1 _] (ip & Hi & Hg). pose proof (H1 i ip Hi) as Hr. assert (i < length t)%nat as Hlt by (by eapply lookup_lt_Some).
  assert (forall ip' j, nth j (<[i := ip']> t) inode_zero = if decide (j = i) then ip' else nth j t inode_zero) as Hn.
  { intros ip' j. rewrite !nth_lookup. destruct (decide (j = i)) as [->|Hj].
    - by rewrite list_lookup_insert_eq.
    - by rewrite list_lookup_insert_ne. }
  assert (nth i t inode_zero = ip) as Ei by (by rewrite nth_lookup, Hi).
  destruct Hg as [[(Hc & _) ->]|(Hno & Hz & ->)]; eexists; (split; [by apply list_lookup_insert_eq|]); rewrite list_insert_insert_eq.
  - split; [simpl; lia|]. split; [simpl; lia|]. intros j. rewrite Hn. case_decide as Hj; [|done]. subst j. rewrite Ei.
    rewrite add_ref_cancel. done.
  - split; [simpl; lia|]. split; [simpl; tauto|]. intros j. rewrite Hn. case_decide as Hj; [|done]. subst j. rewrite Ei.
    split; [lia|]. simpl. lia.
Qed.

(** A taken name. *)
Lemma dirlink_exists pm inum inum' : d !! dname name = Some inum' -> itable_room (fs_itable fs) ROOTDEV inum' ->
  exists pm1 fs1, fsp p pid pr (dirlink dp name inum) pm fs (-1) pm1 fs1 /\ de_only de pm pm1 /\
    txn pid start fs1 V B ∅ /\ tx_keep fs fs1 /\
    forall j, (1 <= i_ref (inode_at fs j) -> inode_at fs1 j = inode_at fs j) /\ i_ref (inode_at fs1 j) = i_ref (inode_at fs j).
Proof.
  intros Hd Hroom. destruct (dirlookup_ok pm) as (pm1 & fs1 & O1 & T1 & P1 & Hr). rewrite Hd in Hr.
  destruct (Hr Hroom) as (i & k & t' & _ & _ & _ & Hg & R).
  destruct (got_put _ _ _ _ _ (dc_table _ _ _ _ _ _ _ _ _ HC) Hg) as (ip' & Hi & Hb & Hn & Hj).
  pose proof (iput_keep p pid (set_fs_itable t' fs1) i ip' Hi Hb Hn) as Rp.
  exists pm1, (set_fs_itable (<[i := add_ref (-1) ip']> t') fs1). split_and!.
  - unfold dirlink. eapply fsp_bind; [exact R|]. cbv iota. eapply fsp_bind; [apply fsp_fsr; exact Rp|apply fsp_ret].
  - done.
  - by apply txn_itable.
  - eapply tx_keep_trans; [exact P1|apply tx_keep_table].
  - exact Hj.
Qed.

Lemma put_itable_ok ip' : itable_ok (fs_itable fs) -> i_ref ip' = i_ref (inode_at fs dp) ->
  i_dev ip' = i_dev (inode_at fs dp) -> i_inum ip' = i_inum (inode_at fs dp) -> itable_ok (put_inode dp ip' (fs_itable fs)).
Proof.
  intros [H1 H2] E1 E2 E3. destruct (lookup_lt_is_Some_2 _ _ Hdp) as [x Hx].
  assert (inode_at fs dp = x) as Ei by (unfold inode_at; by rewrite nth_lookup, Hx). rewrite Ei in *.
  assert (forall j y, put_inode dp ip' (fs_itable fs) !! j = Some y -> exists z, fs_itable fs !! j = Some z /\
    i_ref y = i_ref z /\ i_dev y = i_dev z /\ i_inum y = i_inum z) as Hl.
  { intros j y. unfold put_inode. destruct (decide (j = dp)) as [->|Hj].
    - rewrite list_lookup_insert_eq by done. intros [= <-]. by exists x.
    - rewrite list_lookup_insert_ne by done. by exists y. }
  split.
  - intros j y Hy. destruct (Hl j y Hy) as (z & Hz & -> & _). by eapply H1.
  - intros j k y1 y2 dv n Hy1 Hy2 (?&?&?) (?&?&?). destruct (Hl j y1 Hy1) as (z1 & Hz1 & ? & ? & ?), (Hl k y2 Hy2) as (z2 & Hz2 & ? & ? & ?).
    apply (H2 j k z1 z2 dv n); [done|done|split_and!; (lia || congruence)..].
Qed.

(** A new name. *)
Lemma dirlink_new pm inum : d !! dname name = None -> 0 < inum < 2 ^ 16 ->
  exists r pm1 fs1 V1 B1 bs1 d1, let ip1 := inode_at fs1 dp in
    fsp p pid pr (dirlink dp name inum) pm fs r pm1 fs1 /\ de_only de pm pm1 /\
    (r = 0 /\ d1 = <[dname name := inum]> d /\ disk_inode V1 sb (i_inum ip1) = dinode_of ip1 \/
     r = -1 /\ d1 = d /\ bs1 = bs /\
       ((forall b, 0 <= b < sb_size sb -> in_use V1 sb b = true) \/ i_size (inode_at fs dp) = MAXFILE * BSIZE)) /\
    dir_ctx pid start sb fs1 V1 B1 dp bs1 d1 /\ tx_keep fs fs1 /\ (length B1 <= length B + 7)%nat /\
    disk_wf V1 sb /\ inode_home V1 sb ip1 /\
    fs_itable fs1 = put_inode dp ip1 (fs_itable fs) /\
    (exists l, ip1 = set_i_size (i_size ip1) (set_i_addrs l (inode_at fs dp))) /\
    (forall b, 0 <= b < sb_size sb -> in_use V sb b = true -> no_bitmap sb b -> ~ owns V (inode_at fs dp) b ->
       b <> IBLOCK (i_inum (inode_at fs dp)) sb -> V1 b = V b) /\
    only_inode V V1 sb (i_inum (inode_at fs dp)) /\
    (forall ip2 bs2, other_file V sb (inode_at fs dp) ip2 bs2 ->
       file_is V1 ip2 bs2 /\ disk_inode V1 sb (i_inum ip2) = disk_inode V sb (i_inum ip2)).
Proof.
  intros Hd Hinum. pose proof HC as [T Esb HI HF HD Hdev Hty Hit]. pose proof HD as [D0 D1 D2 D3]. pose proof HS as [S1 S2].
  pose proof (dents_len bs D1) as Hl. pose proof (dir_bound V _ bs HF) as Hbd. pose proof (fi_size _ _ _ HF) as Hsz.
  assert (MAXFILE * BSIZE = 274432) as Emax by reflexivity.
  destruct (dirlookup_ok pm) as (pm1 & fs1 & O1 & T1 & P1 & Hr). rewrite Hd in Hr. destruct Hr as [It1 R1].
  assert (inode_at fs1 dp = inode_at fs dp) as Ei1 by (unfold inode_at; by rewrite It1).
  assert (Z.to_nat (i_size (inode_at fs dp)) = length bs) as Efuel by lia.
  destruct (dirlink_loop_ok p pid pr start sb dp (inode_at fs dp) V B bs de HI HF Hdev HB D0 D1 HS (length bs) 0 fs1 pm1 T1)
    as (k & pm2 & fs2 & Hk & Hdead & R2 & O2 & T2 & P2 & It2); [by rewrite (tk_sb _ _ P1)|done|lia|rewrite NDE_eq in *; lia|].
  destruct (store_entry name Hname p pid pr fs2 pm2 inum Hinum) as (pm3 & R3 & O3 & Eb).
  destruct (new_entry_spec name Hname inum Hinum) as (N1 & N2 & N3 & N4 & N5). set (e := new_entry name inum) in *.
  assert (fs_itable fs2 = fs_itable fs) as It by (by rewrite It2).
  assert (inode_at fs2 dp = inode_at fs dp) as Ei2 by (unfold inode_at; by rewrite It).
  assert (tx_keep fs fs2) as P by (by eapply tx_keep_trans).
  assert (0 <= off_of k <= i_size (inode_at fs dp)) as [Ho1 Ho2] by (unfold off_of; rewrite NDE_eq in *; lia).
  assert (forall r fs', fsm p pid (writei dp false de (off_of k) DIRENT_SIZE) pm3 fs2 r pm3 fs' ->
    fsp p pid pr (dirlink dp name inum) pm fs (if negb (r =? DIRENT_SIZE) then -1 else 0) pm3 fs') as Hrun.
  { intros r fs' R. unfold dirlink. eapply fsp_bind; [exact R1|]. cbv iota. eapply fsp_bind; [apply fsp_fsr, fsr_get_inode|].
    rewrite Ei1, Efuel. eapply fsp_bind; [apply fsp_de_addr|]. eapply fsp_bind; [exact R2|].
    pose proof (fsp_bind p pid pr _ (fun _ : unit => r0 ← writei dp false de (off_of k) DIRENT_SIZE;
      if negb (r0 =? DIRENT_SIZE) then mret (-1) else mret 0) _ _ _ _ _ (if negb (r =? DIRENT_SIZE) then -1 else 0) pm3 fs' R3) as R4.
    intros w. specialize (R4 ltac:(eapply fsp_bind; [apply fsp_fsm; exact R|destruct (negb _); apply fsp_ret]) w).
    rewrite bind_assoc in R4. exact R4. }
  assert (de_only de pm pm3) as O by (eapply de_only_trans; [exact O1|by eapply de_only_trans]).
  assert (0 <= DIRENT_SIZE < 2 ^ 32 /\ DIRENT_SIZE = 16) as [Hn16 En] by done.
  assert (off_of k + 16 < 2 ^ 32) as Hov by (unfold off_of; rewrite NDE_eq in *; lia).
  destruct (writei_ok D p pid start sb fs2 V B dp bs pm3 de (off_of k) DIRENT_SIZE DiskOk0 T2) as [Hrefuse Hwrite];
    rewrite ?Ei2, ?It; try done; try lia.
  { by rewrite (tk_sb _ _ P). }
  rewrite Ei2 in Hrefuse, Hwrite.
  destruct (decide (off_of k + 16 <= MAXFILE * BSIZE)) as [Hfit|Hfit].
  2:{ exists (-1), pm3, fs2, V, B, bs, d. cbv zeta. rewrite Ei2. split_and!; try done; try lia.
    - apply (Hrun (-1)). apply Hrefuse. lia.
    - right. split_and!; try done. right. pose proof (fi_max _ _ _ HF). unfold off_of in *. rewrite NDE_eq in *. lia.
    - split; rewrite ?Ei2; try done; [by rewrite (tk_sb _ _ P)|by rewrite It].
    - rewrite It. exact (eq_sym (put_inode_id fs dp Hdp)).
    - exists (i_addrs (inode_at fs dp)). by destruct (inode_at fs dp).
    - intros ip3 bs3 H3. split; [exact (of_is _ _ _ _ _ H3)|done]. }
  assert (nblocks (off_of k) DIRENT_SIZE = 1) as Enb.
  { rewrite En. unfold nblocks, off_of. rewrite NDE_eq, BSIZE_eq. cbn [Z.leb Z.compare]. clear. zlia. }
  destruct Hwrite as (m & fs3 & V3 & B3 & R & Hm & Hfull & HF3 & Hd3 & T3 & P3 & HB3 & HW3 & HI3 & HH3 & It3 & Hg3 & Hkeep & Hoi & Hother);
    [done|done|rewrite Enb; lia|].
  rewrite Enb in HB3. rewrite It in It3. pose proof Hg3 as [l Eip3].
  assert (i_dev (inode_at fs3 dp) = ROOTDEV /\ i_type (inode_at fs3 dp) = T_DIR) as [Ed3 Et3] by (rewrite Eip3; done).
  assert (itable_ok (fs_itable fs3)) as Hok3 by (rewrite It3; apply put_itable_ok; [done|by rewrite Eip3..]).
  assert (tx_keep fs fs3) as PP by (by eapply tx_keep_trans).
  destruct (decide (m = 16)) as [->|Hne].
  - change (Z.to_nat 16) with 16%nat in HF3. fold de in Eb. rewrite Eb in HF3. exists 0, pm3, fs3, V3, B3, (write_at (off_of k) e bs), (<[dname name := inum]> d). cbv zeta.
    split_and!; try done; [apply (Hrun _ _ R)|left; split_and!; try done; rewrite Eip3 at 1; exact Hd3| |lia].
    split; try done; [by rewrite (tk_sb _ _ PP)|]. rewrite <- N5, <- N4. unfold off_of.
    apply dir_is_insert; [done|done|done|done|by rewrite N5|lia|done].
  - destruct Hfull as [Hu Hb]; [lia|].
    assert (m = 0) as ->.
    { destruct Hb as [|Hb]; [done|]. rewrite BSIZE_eq in Hb. unfold off_of in Hb. rewrite NDE_eq in Hb. rewrite En in Hm. clear - Hb Hm Hne. zlia. }
    assert (write_at (off_of k) (bytes (pm_mem pm3) de (Z.to_nat 0)) bs = bs) as Ew.
    { unfold write_at. change (bytes (pm_mem pm3) de (Z.to_nat 0)) with ([] : list Z). cbn [app length].
      rewrite Nat.add_0_r. apply take_drop. }
    rewrite Ew in HF3. exists (-1), pm3, fs3, V3, B3, bs, d. cbv zeta.
    split_and!; try done; [apply (Hrun _ _ R)|right; split_and!; try done; by left| |lia].
    split; try done. by rewrite (tk_sb _ _ PP).
Qed.
End ops.

(** ** Theorems *)

(** [dirlookup] is a lookup in a finite map.  Of a directory whose bytes
    stand for the map [d] from names to inode numbers, it returns the null
    pointer if the name (cut at 14 bytes or a NUL) is not in the map, and
    otherwise a reference to the inode of that number, with the offset of
    the entry; in the inode table a single slot is counted up or newly
    claimed.  Nothing changes on the disk, and of the memory only the buffer
    on the stack. *)
Theorem dirlookup_correct (D : Disk) p pid pr start sb fs V B dp bs d name pm : DiskOk D ->
  dir_ctx pid start sb fs V B dp bs d -> stack_ok pr -> (length B < NBUF)%nat ->
  exists pm1 fs1, de_only (de_loc pr) pm pm1 /\ txn pid start fs1 V B ∅ /\ tx_keep fs fs1 /\
  match d !! dname name with
  | None => fs_itable fs1 = fs_itable fs /\ fsp p pid pr (dirlookup dp name) pm fs None pm1 fs1
  | Some inum => itable_room (fs_itable fs) ROOTDEV inum ->
      exists i k t', (k < length bs / NDE)%nat /\ is_entry bs name k /\ de_inum (dent bs k) = inum /\
        got (fs_itable fs) ROOTDEV inum i t' /\
        fsp p pid pr (dirlookup dp name) pm fs (Some (i, off_of k)) pm1 (set_fs_itable t' fs1)
  end.
Proof. intros HD HC HS HB. by apply (dirlookup_ok p pid pr start sb fs V B dp bs d). Qed.

(** C24: [dirlink] inserts into the map.  A name that the directory has is
    refused with -1, and no inode in use changes.  For a new name it returns
    0 and the directory stands for the map with the name added, in the
    first empty entry or at the end; or it returns -1 with the directory
    unchanged, because every block of the disk is in use or the file has its
    largest size.  The directory, the bitmap and the inode stay well formed,
    the new entry is on disk with its inode, and no other file changes:
    no block in use outside the directory but the bitmap and, in the block
    of its inode, the bytes of that inode; so every other file has the same
    contents and the same inode on disk. *)
Theorem dirlink_correct (D : Disk) p pid pr start sb fs V B dp bs d name pm inum : DiskOk D ->
  dir_ctx pid start sb fs V B dp bs d -> stack_ok pr -> disk_wf V sb -> inode_home V sb (inode_at fs dp) ->
  (dp < length (fs_itable fs))%nat -> Forall (fun x => 0 <= x < 256) name -> Z.of_nat (length B) + 6 <= 28 ->
  0 < inum < 2 ^ 16 ->
  match d !! dname name with
  | Some inum' => itable_room (fs_itable fs) ROOTDEV inum' ->
      exists pm1 fs1, fsp p pid pr (dirlink dp name inum) pm fs (-1) pm1 fs1 /\ de_only (de_loc pr) pm pm1 /\
        txn pid start fs1 V B ∅ /\ tx_keep fs fs1 /\
        forall j, (1 <= i_ref (inode_at fs j) -> inode_at fs1 j = inode_at fs j) /\ i_ref (inode_at fs1 j) = i_ref (inode_at fs j)
  | None =>
      exists r pm1 fs1 V1 B1 bs1 d1, let ip1 := inode_at fs1 dp in
        fsp p pid pr (dirlink dp name inum) pm fs r pm1 fs1 /\ de_only (de_loc pr) pm pm1 /\
        (r = 0 /\ d1 = <[dname name := inum]> d /\ disk_inode V1 sb (i_inum ip1) = dinode_of ip1 \/
         r = -1 /\ d1 = d /\ bs1 = bs /\
           ((forall b, 0 <= b < sb_size sb -> in_use V1 sb b = true) \/ i_size (inode_at fs dp) = MAXFILE * BSIZE)) /\
        dir_ctx pid start sb fs1 V1 B1 dp bs1 d1 /\ tx_keep fs fs1 /\ (length B1 <= length B + 7)%nat /\
        disk_wf V1 sb /\ inode_home V1 sb ip1 /\
        fs_itable fs1 = put_inode dp ip1 (fs_itable fs) /\
        (exists l, ip1 = set_i_size (i_size ip1) (set_i_addrs l (inode_at fs dp))) /\
        (forall b, 0 <= b < sb_size sb -> in_use V sb b = true -> no_bitmap sb b -> ~ owns V (inode_at fs dp) b ->
           b <> IBLOCK (i_inum (inode_at fs dp)) sb -> V1 b = V b) /\
        only_inode V V1 sb (i_inum (inode_at fs dp)) /\
        (forall ip2 bs2, other_file V sb (inode_at fs dp) ip2 bs2 ->
           file_is V1 ip2 bs2 /\ disk_inode V1 sb (i_inum ip2) = disk_inode V sb (i_inum ip2))
  end.
Proof.
  intros HD HC HS HW HH Hdp Hname HB Hinum. assert (length B < NBUF)%nat as HB' by (unfold NBUF; lia).
  destruct (d !! dname name) as [inum'|] eqn:E.
  - intros Hroom. eapply dirlink_exists; eassumption.
  - by apply (dirlink_new p pid pr start sb fs V B dp bs d name).
Qed.

(** ** Witnesses *)

(** A directory of one entry, the name "a" with inode 18, in block 3 of the
    example disk. *)
Definition dir_bytes : list Z := [18; 0; 97] ++ replicate 13 0.
Definition dir_example : inode := set_i_size 16 (set_i_type T_DIR file_example).
Definition stack_example : proc := set_p_kstack (2 ^ 31) proc_zero.

Lemma dir_bytes_is : dir_is dir_bytes {[ [97] := 18 ]}.
Proof.
  split.
  - apply Forall_app. split; [repeat (apply Forall_cons; split; [lia|]); apply Forall_nil; done|apply Forall_replicate; lia].
  - reflexivity.
  - change (live_names (dents dir_bytes)) with [[97]]. apply NoDup_singleton.
  - vm_compute. reflexivity.
Qed.

Lemma example_dir : exists fs V, dir_ctx 1 0 sb_example fs V [45; 3] 0 dir_bytes {[ [97] := 18 ]} /\
  fs_itable fs = [dir_example; inode_zero] /\ disk_wf V sb_example /\ inode_home V sb_example dir_example /\
  (forall b, b <> 45 -> b <> 3 -> V b = zero_block).
Proof.
  destruct hole_example as (fs0 & V0 & T0 & Esb & Hbm & Hu & Hz).
  assert (forall b, b <> 45 -> length (V0 b) = Z.to_nat BSIZE) as Hl by (intros b Hb; rewrite Hz by done; apply length_replicate).
  assert (forall b, b <> 45 -> no_bitmap sb_example b) as Hn by (intros b Hb b' Hb'; by rewrite example_BBLOCK).
  set (fs1 := set_fs_itable [dir_example; inode_zero] fs0).
  destruct (tx_update (D := sync_disk) 0 1 0 fs1 V0 [45] 3 (fun l => splice l 0 dir_bytes) (txn_itable _ _ _ _ _ _ _ T0))
    as (_ & _ & _ & _ & fs & _ & _ & _ & _ & _ & T & P & It); [simpl; lia|].
  set (v := splice (V0 3) 0 dir_bytes) in T.
  assert (forall b, owns V0 dir_example b <-> b = 3) as Ho by exact (example_owns V0).
  assert (disk_wf V0 sb_example) as HW0 by (split; [done|done|by rewrite Hu by lia]).
  assert (inode_wf V0 sb_example dir_example) as HI0.
  { split; try done.
    1-4: intros b ->%Ho; (by rewrite Hu) || (by apply Hn) || (by apply Hl) || done.
    - intros k k' Hk Hk'. change (inode_map V0 dir_example) with (inode_map V0 file_example).
      rewrite !example_map by done. repeat case_decide; congruence. }
  assert (length v = Z.to_nat BSIZE) as Hv by (unfold v; rewrite length_splice; by apply Hl).
  assert (no_bitmap sb_example 3) as Hn3 by (by apply Hn).
  assert (inode_at fs 0 = dir_example) as Ei by (unfold inode_at; by rewrite It).
  assert (disk_wf (dset V0 3 v) sb_example) as HW by (by apply put_disk_wf).
  exists fs, (dset V0 3 v). split_and!; [|done|done| |intros b H1 H2; rewrite dset_ne by done; by apply Hz].
  - split; rewrite ?Ei; try done.
    + by rewrite (tk_sb _ _ P).
    + by apply put_inode_wf.
    + assert (forall k, 0 <= k < 16 -> k / BSIZE = 0 /\ k mod BSIZE = k) as Hd by (intros k Hk; rewrite BSIZE_eq; split; zlia).
      assert (forall k, 0 <= k < 16 -> inode_map (dset V0 3 v) dir_example (k / BSIZE) = 3) as Hm.
      { intros k Hk. rewrite (proj1 (Hd k Hk)). reflexivity. }
      split; try done.
      * intros k Hk. by rewrite Hm.
      * apply list_eq. intros j. destruct (decide (j < 16)%nat) as [Hj|Hj].
        -- rewrite file_bytes_lookup by done. unfold file_byte. destruct (Hd (0 + Z.of_nat j)) as [_ Em]; [lia|].
           rewrite Hm, Em by lia. rewrite dset_eq. unfold v.
           rewrite aget_splice; [|lia|rewrite Hl by done; vm_compute; congruence|lia].
           change (Z.of_nat (length dir_bytes)) with 16. rewrite decide_True by lia. unfold aget.
           replace (Z.to_nat (0 + Z.of_nat j - 0)) with j by lia. rewrite nth_lookup.
           destruct (lookup_lt_is_Some_2 dir_bytes j Hj) as [x Hx]. by rewrite Hx.
        -- rewrite (lookup_ge_None_2 dir_bytes) by (change (length dir_bytes) with 16%nat; lia). apply lookup_ge_None. rewrite length_file_bytes.
           change (length dir_bytes) with 16%nat. lia.
    + apply dir_bytes_is.
    + rewrite It. split.
      * intros [|[|j]] ip; [intros [= <-]; simpl; lia..|done].
      * intros [|[|i]] [|[|j]] x y dv n Hx Hy (Hx1 & _) (Hy1 & _); try done; simpl in Hx, Hy; simplify_eq; simpl in *; lia.
  - split.
    + done.
    + rewrite put_in_use by done. by rewrite Hu.
    + by apply Hn.
    + rewrite put_owns by done. intros E%Ho. discriminate E.
    + rewrite dset_ne by done. by apply Hl.
    + split; try done. change (Forall (fun a => 0 <= a < 2 ^ 32) (3 :: replicate 12 0)).
      constructor; [lia|]. apply Forall_replicate. lia.
Qed.

Lemma dirlookup_correct_witness : exists fs pm pm1 i fs1,
  fsp 0 1 stack_example (dirlookup (D := sync_disk) 0 [97]) pm fs (Some (i, 0)) pm1 fs1.
Proof.
  destruct example_dir as (fs & V & HC & Et & _).
  destruct (dirlookup_correct sync_disk 0 1 stack_example 0 sb_example fs V [45; 3] 0 dir_bytes {[ [97] := 18 ]} [97] pm_example
    sync_disk_ok HC) as (pm1 & fs1 & _ & _ & _ & H).
  - unfold stack_ok, de_loc. simpl. unfold PGSIZE. lia.
  - unfold NBUF. simpl. lia.
  - change (dname [97]) with [97] in H. rewrite lookup_singleton_eq in H.
    destruct H as (i & k & t' & Hk & _ & _ & _ & R).
    { exists 1%nat, inode_zero. rewrite Et. split; [reflexivity|]. right. reflexivity. }
    exists fs, pm_example, pm1, i, (set_fs_itable t' fs1).
    assert (k = 0%nat) as -> by (change (length dir_bytes / NDE)%nat with 1%nat in Hk; lia). exact R.
Defined.

Lemma dirlink_correct_witness : exists fs pm r pm1 fs1 V1 B1 bs1 d1,
  fsp 0 1 stack_example (dirlink (D := sync_disk) 0 [98] 6) pm fs r pm1 fs1 /\
  dir_ctx 1 0 sb_example fs1 V1 B1 0 bs1 d1 /\ (r = 0 /\ d1 = {[ [98] := 6; [97] := 18 ]} \/ r = -1 /\ d1 = {[ [97] := 18 ]}) /\
  exists V, txn 1 0 fs V [45; 3] ∅ /\ disk_inode V1 sb_example 18 = disk_inode V sb_example 18.
Proof.
  destruct example_dir as (fs & V & HC & Et & HW & HH & _).
  assert (inode_at fs 0 = dir_example) as Ei by (unfold inode_at; by rewrite Et).
  pose proof (dirlink_correct sync_disk 0 1 stack_example 0 sb_example fs V [45; 3] 0 dir_bytes {[ [97] := 18 ]} [98] pm_example 6
    sync_disk_ok HC) as H.
  change (dname [98]) with [98] in H. rewrite (lookup_singleton_ne [97] [98]) in H by done.
  destruct H as (r & pm1 & fs1 & V1 & B1 & bs1 & d1 & R & _ & Hr & HC1 & _ & _ & _ & _ & _ & _ & _ & _ & Ho).
  - unfold stack_ok, de_loc. simpl. unfold PGSIZE. lia.
  - exact HW.
  - rewrite Ei. exact HH.
  - rewrite Et. simpl. lia.
  - apply Forall_singleton. lia.
  - simpl. lia.
  - lia.
  - exists fs, pm_example, r, pm1, fs1, V1, B1, bs1, d1. split_and!; [exact R|exact HC1| |].
    + destruct Hr as [(-> & -> & _)|(-> & -> & _)]; [by left|by right].
    + exists V. split; [apply HC|]. apply (Ho other_example []). rewrite Ei. apply other_example_ok; [exact HH|done|intros b; apply (example_owns V)].
Defined.
