(* ===== verification/ItruncProps.v ===== *)
(** * ItruncProps: freeing a file

    [itrunc] gives all blocks of a file back to the bitmap, and [iput] of
    the last reference to an inode without links frees the inode as well. *)

From S2P Require Import Prelude.
From S2P Require Import State.
From S2P Require Import Kernel.
From S2P Require Import Sched.
From S2P Require Import SchedInv.
From S2P Require Import SchedProps.
From S2P Require Import Mem.
From S2P Require Import Bio.
From S2P Require Import FsRun.
From S2P Require Import BioProps.
From S2P Require Import Log.
From S2P Require Import LogProps.
From S2P Require Import LogCrash.
From S2P Require Import Txn.
From S2P Require Import Vm.
From S2P Require Import Fs.
From S2P Require Import FsProps.
From S2P Require Import InodeProps.
From S2P Require Import BmapProps.
From S2P Require Import FileData.
From S2P Require Import DirProps.

(** ** Blocks of the bitmap in the log *)

Definition bm_count (sb : superblock) : nat := Z.to_nat (sb_size sb / BPB + 1).
Definition bm_blocks (sb : superblock) : list Z := (fun k => BBLOCK (Z.of_nat k * BPB) sb) <$> seq 0 (bm_count sb).

Lemma bm_blocks_elem sb b : 0 <= b < sb_size sb -> BBLOCK b sb ∈ bm_blocks sb.
Proof.
  intros Hb. apply list_elem_of_fmap. exists (Z.to_nat (b / BPB)). unfold bm_count.
  assert (0 <= b / BPB <= sb_size sb / BPB) as Hd.
  { split; [apply Z.div_pos; [lia|reflexivity]|apply Z.div_le_mono; [reflexivity|lia]]. }
  split; [|apply elem_of_seq; lia]. rewrite Z2Nat.id by lia. unfold BBLOCK. do 2 f_equal. rewrite Z.div_mul by done. done.
Qed.

(** A log that grew by bitmap blocks only. *)
Definition bm_grows (sb : superblock) (B B' : list Z) : Prop := forall b, b ∈ B' -> b ∈ B \/ b ∈ bm_blocks sb.
Lemma bm_grows_length sb B B' : NoDup B' -> bm_grows sb B B' -> (length B' <= length B + bm_count sb)%nat.
Proof.
  intros Hnd Hg. transitivity (length (B ++ bm_blocks sb)).
  - apply submseteq_length, NoDup_submseteq; [done|]. intros b Hb%Hg. apply elem_of_app. tauto.
  - rewrite length_app. unfold bm_blocks. by rewrite length_fmap, length_seq.
Qed.

(** ** Freeing one block after another *)

Section freed.
Context (V0 : Z -> list Z) (sb : superblock) (B0 : list Z) (ip : inode).
Hypothesis (HW0 : disk_wf V0 sb) (HI : inode_wf V0 sb ip).

(** The contents and the log after freeing the blocks [S]. *)
Record freed (S : Z -> Prop) (V : Z -> list Z) (B : list Z) : Prop := {
  fr_wf : disk_wf V sb;
  fr_use : forall b, 0 <= b < sb_size sb -> in_use V sb b = true <-> in_use V0 sb b = true /\ ~ S b;
  fr_keep : forall b, no_bitmap sb b -> V b = V0 b;
  fr_log : bm_grows sb B0 B
}.

Lemma freed_none : freed (fun _ => False) V0 B0.
Proof. split; try done; [naive_solver|]. intros b Hb. by left. Qed.
Lemma freed_ext S S' V B : (forall b, S b <-> S' b) -> freed S V B -> freed S' V B.
Proof. intros HS [F1 F2 F3 F4]. split; try done. intros b Hb. rewrite F2, HS by done. done. Qed.

Lemma freed_step S V B b : freed S V B -> owns V0 ip b -> ~ S b ->
  freed (fun x => S x \/ x = b) (free_view V sb b) (logged B (BBLOCK b sb)).
Proof.
  intros [F1 F2 F3 F4] Ho Hn. pose proof (iw_range _ _ _ HI b Ho) as Hb. pose proof (dw_bitmap _ _ F1) as Hbm.
  assert (forall b', 0 <= b' < sb_size sb -> in_use (free_view V sb b) sb b' = in_use V sb b' && negb (b =? b')) as HU
    by (intros b' Hb'; by apply in_use_free).
  assert (b <> 0) as Hb0 by apply Ho. split.
  - split.
    + destruct Hbm as [Hsb Hl Hown]. split; [done| |].
      * intros b' Hb'. unfold free_view, dset. destruct (_ =? _); [|by apply Hl]. unfold clear_bit. rewrite length_aset. by apply Hl.
      * intros b1 b2 H1 H2. rewrite HU by done. destruct (Z.eqb_spec b b1) as [<-|Hne]; [intros _; by apply (iw_bitmap _ _ _ HI)|].
        rewrite andb_true_r. by apply Hown.
    + apply F1.
    + pose proof (dw_pos _ _ F1). rewrite HU, (dw_zero _ _ F1), (proj2 (Z.eqb_neq b 0)) by (done || lia). done.
  - intros b' Hb'. rewrite HU, andb_true_iff, F2, negb_true_iff, Z.eqb_neq by done. split.
    + intros [[? ?] ?]. split; [done|]. intros [?|?]; congruence.
    + intros [? H]. split; [split; [done|tauto]|]. intros ->. by apply H; right.
  - intros b' Hb'. unfold free_view. rewrite dset_ne; [by apply F3|]. by apply Hb'.
  - intros x Hx%logged_in. destruct Hx as [Hx| ->]; [by apply F4|right; by apply bm_blocks_elem].
Qed.

(** The blocks of the file up to index [k]. *)
Definition below (k : Z) (b : Z) : Prop := b <> 0 /\ exists n, 0 <= n < k /\ inode_map V0 ip n = b.

Lemma below_succ k b : 0 <= k -> inode_map V0 ip k <> 0 -> below (k + 1) b <-> below k b \/ b = inode_map V0 ip k.
Proof.
  intros Hk Hm. unfold below. split.
  - intros [H0 (n & Hn & E)]. destruct (decide (n = k)) as [->|]; [by right|left]. split; [done|]. exists n. split; [lia|done].
  - intros [[H0 (n & Hn & E)]| ->]; (split; [done|]); [exists n|exists k]; (split; [lia|done]).
Qed.
Lemma below_hole k b : 0 <= k -> inode_map V0 ip k = 0 -> below (k + 1) b <-> below k b.
Proof.
  intros Hk Hm. unfold below. split; intros [H0 (n & Hn & E)]; (split; [done|]); exists n; (split; [|done]); [|lia].
  destruct (decide (n = k)) as [->|]; [congruence|lia].
Qed.
Lemma below_not k : 0 <= k < MAXFILE -> ~ below k (inode_map V0 ip k).
Proof. intros Hk [H0 (n & Hn & E)]. assert (n = k); [|lia]. apply (iw_inj _ _ _ HI); (done || lia || congruence). Qed.
Lemma below_ind k : 0 <= k <= MAXFILE -> ~ below k (ind_of ip).
Proof. intros Hk [H0 (n & Hn & E)]. apply (iw_ind _ _ _ HI n); (done || lia || congruence). Qed.

(** The inode with its first [k] addresses cleared. *)
Definition zeroed (k : nat) : list Z := replicate k 0 ++ drop k (i_addrs ip).
Lemma zeroed_step k : (k < 13)%nat -> aset (zeroed k) (Z.of_nat k) 0 = zeroed (S k).
Proof.
  intros Hk. pose proof (iw_len _ _ _ HI) as Hl. unfold zeroed, aset. rewrite Nat2Z.id.
  destruct (lookup_lt_is_Some_2 (i_addrs ip) k) as [x Hx]; [lia|].
  rewrite (drop_S _ _ _ Hx). rewrite insert_app_r_alt by (by rewrite length_replicate). rewrite length_replicate, Nat.sub_diag.
  cbn [list_insert insert]. rewrite replicate_S_end. by rewrite <- app_assoc.
Qed.
Lemma zeroed_hole k : (k < 13)%nat -> aget 0 (i_addrs ip) (Z.of_nat k) = 0 -> zeroed k = zeroed (S k).
Proof.
  intros Hk H0. pose proof (iw_len _ _ _ HI) as Hl. unfold zeroed.
  destruct (lookup_lt_is_Some_2 (i_addrs ip) k) as [x Hx]; [lia|].
  unfold aget in H0. rewrite Nat2Z.id, nth_lookup, Hx in H0. cbn in H0. subst x.
  rewrite (drop_S _ _ _ Hx), replicate_S_end. by rewrite <- app_assoc.
Qed.
Lemma zeroed_get k : (k < 13)%nat -> aget 0 (zeroed k) (Z.of_nat k) = aget 0 (i_addrs ip) (Z.of_nat k).
Proof.
  intros Hk. unfold zeroed, aget. rewrite !Nat2Z.id, !nth_lookup. rewrite lookup_app_r by (rewrite length_replicate; lia).
  rewrite length_replicate, lookup_drop. do 2 f_equal. lia.
Qed.

Context `{D : Disk} `{!DiskOk D} (p : nat) (pid start : Z).
Hypothesis Hroom : (length B0 + bm_count sb < 28)%nat.

(** [bfree] of a block of the file that is not free yet. *)
Lemma free_one S fs V B Hs b : freed S V B -> txn pid start fs V B Hs -> fs_sb fs = sb ->
  (Hs = ∅ \/ Hs = {[ind_of ip]} /\ ind_of ip <> 0 /\ ~ S (ind_of ip)) -> owns V0 ip b -> ~ S b ->
  exists fs', fsr p pid [] (bfree ROOTDEV b) fs tt [] fs' /\
    txn pid start fs' (free_view V sb b) (logged B (BBLOCK b sb)) Hs /\ bufs_kept Hs fs fs' /\ tx_keep fs fs' /\
    fs_itable fs' = fs_itable fs.
Proof.
  intros F T Esb Hhs Ho Hn. pose proof (iw_range _ _ _ HI b Ho) as Hb.
  assert (in_use V sb b = true) as Hu by (apply (fr_use _ _ _ F); [done|split; [by apply (iw_used _ _ _ HI)|done]]).
  assert (forall b0, 0 <= b0 < sb_size sb -> (BBLOCK b0 sb ∉ Hs) /\ (in_use V sb b0 = false -> b0 ∉ Hs)) as Hfree.
  { intros b0 Hb0. destruct Hhs as [->|(-> & Hi & HiS)]; [split; [|intros _]; apply not_elem_of_empty|].
    pose proof (owns_ind V0 ip Hi) as Hoi. rewrite !not_elem_of_singleton. split.
    - intros E. by apply (iw_bitmap _ _ _ HI _ Hoi b0).
    - intros Hf ->. assert (in_use V sb (ind_of ip) = true); [|congruence].
      apply (fr_use _ _ _ F); [done|]. split; [by apply (iw_used _ _ _ HI)|done]. }
  pose proof (bm_grows_length sb B0 B (tx_nodup _ _ _ _ _ _ T) (fr_log _ _ _ F)) as HB.
  assert (size Hs <= 1)%nat as Hsz by (destruct Hhs as [->|(-> & _)]; [by rewrite size_empty; lia|by rewrite size_singleton]).
  destruct (bfree_ok p pid start sb V B Hs Hfree ltac:(unfold NBUF; lia) ltac:(lia) fs b Esb T Hb Hu) as (fs' & R & T' & K & S1 & E).
  exists fs'. split_and!; [done|done|done|by eapply tx_keep_after|apply S1].
Qed.

(** ** The two loops of [itrunc] *)

Context (i : nat) (t : list inode).
Hypothesis (Hdev : i_dev ip = ROOTDEV) (Hi : (i < length t)%nat).

Lemma put_inode_get x fs : fs_itable fs = put_inode i x t -> inode_at fs i = x /\ (i < length (fs_itable fs))%nat.
Proof.
  intros E. unfold inode_at. rewrite E. unfold put_inode. rewrite length_insert. split; [|done].
  by rewrite nth_lookup, list_lookup_insert_eq.
Qed.

Lemma direct_loop m : forall k fs V B, (k + m = 12)%nat ->
  txn pid start fs V B ∅ -> fs_sb fs = sb -> freed (below (Z.of_nat k)) V B ->
  fs_itable fs = put_inode i (set_i_addrs (zeroed k) ip) t ->
  exists fs' V' B', fsr p pid [] (kfor (seq k m) (fun n =>
      ip ← get_inode i;
      kwhen (negb (aget 0 (i_addrs ip) (Z.of_nat n) =? 0))
        (bfree (i_dev ip) (aget 0 (i_addrs ip) (Z.of_nat n));;
         mod_inode i (fun ip => set_i_addrs (aset (i_addrs ip) (Z.of_nat n) 0) ip)))) fs tt [] fs' /\
    txn pid start fs' V' B' ∅ /\ freed (below 12) V' B' /\ tx_keep fs fs' /\
    fs_itable fs' = put_inode i (set_i_addrs (zeroed 12) ip) t.
Proof.
  induction m as [|m IH]; intros k fs V B Hkm T Esb F Et.
  { assert (k = 12%nat) as -> by lia. exists fs, V, B. split_and!; [apply fsr_ret|done|done|apply tx_keep_refl|done]. }
  destruct (put_inode_get _ _ Et) as [Ei Hlt]. set (a := aget 0 (i_addrs ip) (Z.of_nat k)).
  assert (inode_map V0 ip (Z.of_nat k) = a) as Em by (unfold inode_map; by rewrite (proj2 (Z.ltb_lt _ _)) by (unfold NDIRECT; lia)).
  assert (0 <= Z.of_nat k < MAXFILE) as Hk by (rewrite MAXFILE_eq; lia).
  cbn [seq kfor]. destruct (decide (a = 0)) as [Ha|Ha].
  - destruct (IH (S k) fs V B) as (fs' & V' & B' & R & H); [lia|done|done| |rewrite Et, zeroed_hole by (done || lia); done|].
    { rewrite Nat2Z.inj_succ. eapply freed_ext; [|exact F]. intros b. symmetry. apply below_hole; [lia|congruence]. }
    exists fs', V', B'. split; [|exact H]. eapply fsr_bind; [|exact R]. eapply fsr_bind; [apply fsr_get_inode|].
    rewrite Ei. cbn [i_addrs i_dev set_i_addrs]. rewrite zeroed_get by lia. fold a. rewrite Ha. apply fsr_ret.
  - assert (owns V0 ip a) as Ho by (rewrite <- Em; apply owns_map; [done|by rewrite Em]).
    assert (~ below (Z.of_nat k) a) as Hnb by (rewrite <- Em; by apply below_not).
    destruct (free_one (below (Z.of_nat k)) fs V B ∅ a F T Esb (or_introl eq_refl) Ho Hnb) as (fs1 & R1 & T1 & _ & P1 & It1).
    set (fs2 := upd_inode i (fun ip => set_i_addrs (aset (i_addrs ip) (Z.of_nat k) 0) ip) fs1).
    assert (fs_itable fs2 = put_inode i (set_i_addrs (zeroed (S k)) ip) t) as Et2.
    { unfold fs2. rewrite upd_inode_put by (by rewrite It1). rewrite It1, Et, put_inode_put.
      assert (inode_at fs1 i = inode_at fs i) as -> by (unfold inode_at; by rewrite It1). rewrite Ei.
      cbn [i_addrs set_i_addrs]. by rewrite zeroed_step by lia. }
    destruct (IH (S k) fs2 (free_view V sb a) (logged B (BBLOCK a sb))) as (fs' & V' & B' & R & T' & F' & P' & Et').
    { lia. }
    { by apply txn_itable. }
    { change (fs_sb fs2) with (fs_sb fs1). by rewrite (tk_sb _ _ P1). }
    { rewrite Nat2Z.inj_succ. eapply freed_ext; [|by apply freed_step]. intros b. cbn beta. rewrite <- Em. symmetry.
      apply below_succ; [lia|by rewrite Em]. }
    { done. }
    exists fs', V', B'. split_and!; [|done|done| |done].
    + eapply fsr_bind; [|exact R]. eapply fsr_bind; [apply fsr_get_inode|].
      rewrite Ei. cbn [i_addrs i_dev set_i_addrs]. rewrite zeroed_get by lia. fold a. rewrite (proj2 (Z.eqb_neq a 0)), Hdev by done.
      cbn [negb kwhen]. eapply fsr_bind; [exact R1|apply fsr_mod_inode].
    + apply (tx_keep_trans _ fs1); [done|]. eapply tx_keep_trans; [apply tx_keep_upd|done].
Qed.

Lemma ind_loop bp m : let c := ind_of ip in forall j fs V B, (j + m = 256)%nat -> c <> 0 ->
  txn pid start fs V B {[c]} -> is_buf fs bp c -> fs_sb fs = sb -> freed (below (12 + Z.of_nat j)) V B ->
  exists fs' V' B', fsr p pid [] (kfor (seq j m) (fun j =>
       x ← get_buf bp;
       let a := ld32 (b_data x) (4 * Z.of_nat j) in
       kwhen (negb (a =? 0)) (bfree (i_dev ip) a))) fs tt [] fs' /\
    txn pid start fs' V' B' {[c]} /\ is_buf fs' bp c /\ freed (below MAXFILE) V' B' /\ tx_keep fs fs' /\
    fs_itable fs' = fs_itable fs.
Proof.
  intros c. induction m as [|m IH]; intros j fs V B Hjm Hc T Hb Esb F.
  { replace (12 + Z.of_nat j) with MAXFILE in F by (rewrite MAXFILE_eq; lia).
    exists fs, V, B. split_and!; [apply fsr_ret|done|done|done|apply tx_keep_refl|done]. }
  pose proof (owns_ind V0 ip Hc) as Hoc. fold c in Hoc.
  assert (b_data (buf_at fs bp) = V0 c) as Ed.
  { rewrite (tx_data pid start fs V B {[c]} bp c T) by (done || by apply elem_of_singleton).
    apply (fr_keep _ _ _ F). by apply (iw_bitmap _ _ _ HI). }
  set (a := ld32 (V0 c) (4 * Z.of_nat j)).
  assert (0 <= 12 + Z.of_nat j < MAXFILE) as Hk by (rewrite MAXFILE_eq; lia).
  assert (inode_map V0 ip (12 + Z.of_nat j) = a) as Em.
  { unfold inode_map. rewrite (proj2 (Z.ltb_ge _ _)) by (unfold NDIRECT; lia). rewrite (proj2 (Z.eqb_neq _ 0)) by done.
    unfold a, c, NDIRECT. f_equal. lia. }
  assert (forall k, 12 + Z.of_nat (S k) = 12 + Z.of_nat k + 1) as Es by (intros; lia).
  cbn [seq kfor]. destruct (decide (a = 0)) as [Ha|Ha].
  - destruct (IH (S j) fs V B) as (fs' & V' & B' & R & H); [lia|done|done|done|done| |].
    { rewrite Es. eapply freed_ext; [|exact F]. intros b. symmetry. apply below_hole; [lia|congruence]. }
    exists fs', V', B'. split; [|exact H]. eapply fsr_bind; [|exact R]. eapply fsr_bind; [apply fsr_get_buf|].
    rewrite Ed. fold a. rewrite Ha. apply fsr_ret.
  - assert (owns V0 ip a) as Ho by (rewrite <- Em; apply owns_map; [done|by rewrite Em]).
    assert (~ below (12 + Z.of_nat j) a) as Hnb by (rewrite <- Em; by apply below_not).
    assert (~ below (12 + Z.of_nat j) c) as Hnc by (apply below_ind; lia).
    destruct (free_one _ fs V B {[c]} a F T Esb (or_intror (conj eq_refl (conj Hc Hnc))) Ho Hnb) as (fs1 & R1 & T1 & K1 & P1 & It1).
    destruct (IH (S j) fs1 (free_view V sb a) (logged B (BBLOCK a sb))) as (fs' & V' & B' & R & T' & Bu' & F' & P' & Et').
    { lia. }
    { done. }
    { done. }
    { apply K1; [by apply elem_of_singleton|done]. }
    { by rewrite (tk_sb _ _ P1). }
    { rewrite Es. eapply freed_ext; [|by apply freed_step]. intros b. cbn beta. rewrite <- Em. symmetry.
      apply below_succ; [lia|by rewrite Em]. }
    exists fs', V', B'. split_and!; [|done|done|done|by eapply tx_keep_trans|by rewrite Et'].
    eapply fsr_bind; [|exact R]. eapply fsr_bind; [apply fsr_get_buf|]. rewrite Ed. fold a.
    rewrite (proj2 (Z.eqb_neq a 0)), Hdev by done. exact R1.
Qed.
End freed.

(** ** itrunc *)

(** An inode without contents. *)
Definition emptied (ip : inode) : inode := set_i_size 0 (set_i_addrs (replicate 13 0) ip).

Lemma emptied_map V ip k : inode_map V (emptied ip) k = 0.
Proof.
  assert (forall j, aget 0 (replicate 13 0) j = 0) as H.
  { intros j. unfold aget. rewrite nth_lookup. destruct (replicate 13 0 !! Z.to_nat j) eqn:E; [|done].
    by apply lookup_replicate in E as [-> _]. }
  unfold inode_map, ind_of. cbn [emptied i_addrs set_i_size set_i_addrs]. rewrite !H. by destruct (_ <? _).
Qed.
Lemma emptied_owns V ip b : ~ owns V (emptied ip) b.
Proof. intros [H0 [H|(k & _ & H)]]; [by destruct H0|]. rewrite emptied_map in H. by destruct H0. Qed.
Lemma emptied_wf V sb ip : inode_wf V sb (emptied ip).
Proof.
  split; try done.
  all: try (intros b Hb; by destruct (emptied_owns V ip b)).
  all: intros k; intros; rewrite ?emptied_map in *; done.
Qed.
Lemma emptied_file V ip : file_is V (emptied ip) [].
Proof. split; try done. intros k Hk. cbn in Hk. lia. Qed.

(** The state of the disk after the file was freed. *)
Record truncated (sb : superblock) (V : Z -> list Z) (ip : inode) (V' : Z -> list Z) (ip' : inode) : Prop := {
  tr_use : forall b, 0 <= b < sb_size sb -> in_use V' sb b = true <-> in_use V sb b = true /\ ~ owns V ip b;
  tr_keep : forall b, no_bitmap sb b -> b <> IBLOCK (i_inum ip) sb -> V' b = V b;
  tr_only : only_inode V V' sb (i_inum ip);
  tr_stored : disk_inode V' sb (i_inum ip) = dinode_of ip';
  tr_disk : disk_wf V' sb;
  tr_inode : inode_wf V' sb ip';
  tr_home : inode_home V' sb ip';
  tr_file : file_is V' ip' []
}.

Section itrunc.
Context `{D : Disk} `{!DiskOk D} (p : nat) (pid start : Z) (sb : superblock) (i : nat).

Lemma below_all V ip b : ind_of ip <> 0 -> below V ip MAXFILE b \/ b = ind_of ip <-> owns V ip b.
Proof.
  intros Hc. unfold below, owns. split.
  - intros [[H0 H]| ->]; (split; [done|]); [by right|by left].
  - intros [H0 [->|H]]; [by right|by left].
Qed.
Lemma below_direct V ip b : ind_of ip = 0 -> below V ip 12 b <-> owns V ip b.
Proof.
  intros Hc. unfold below, owns. split.
  - intros [H0 (n & Hn & E)]. split; [done|]. right. exists n. split; [rewrite MAXFILE_eq; lia|done].
  - intros [H0 [->|(n & Hn & E)]]; [done|]. split; [done|]. exists n. split; [|done]. split; [lia|].
    destruct (decide (n < 12)) as [|Hge]; [done|]. destruct H0. rewrite <- E. unfold inode_map.
    rewrite (proj2 (Z.ltb_ge _ _)) by (unfold NDIRECT; lia). by rewrite (proj2 (Z.eqb_eq _ _)).
Qed.

(** The inode block of an emptied file. *)
Lemma emptied_home V0 ip V B0 B : inode_home V0 sb ip -> freed V0 sb B0 (owns V0 ip) V B -> inode_home V sb (emptied ip).
Proof.
  intros [G1 G2 G3 G4 G5 G6] F. split; cbn [emptied i_inum set_i_size set_i_addrs]; try done.
  - apply (fr_use _ _ _ _ _ _ F); [lia|done].
  - apply emptied_owns.
  - by rewrite (fr_keep _ _ _ _ _ _ F).
  - destruct G6 as [? ? ? ? ? ? ?]. split; try done. change (Forall (fun a => 0 <= a < 2 ^ 32) (replicate 13 0)).
    apply Forall_replicate. lia.
Qed.

(** Storing it. *)
Lemma truncated_store V0 ip V B0 B : inode_home V0 sb ip -> freed V0 sb B0 (owns V0 ip) V B ->
  truncated sb V0 ip (inode_view V sb (emptied ip)) (emptied ip).
Proof.
  intros HH F. pose proof (emptied_home _ _ _ _ _ HH F) as HE. pose proof (emptied_wf V sb ip) as HI.
  destruct (home_put V sb (emptied ip) [] (fr_wf _ _ _ _ _ _ F) HI HE (emptied_file V ip)) as (W1 & W2 & W3 & W4 & W5).
  split; try done.
  - intros b Hb. rewrite W5 by done. by apply (fr_use _ _ _ _ _ _ F).
  - intros b Hb Hne. unfold inode_view. rewrite dset_ne by done. by apply (fr_keep _ _ _ _ _ _ F).
  - apply (only_inode_view V0 V sb (emptied ip)); [apply HE|apply HE|]. apply (fr_keep _ _ _ _ _ _ F), HH.
  - apply (disk_inode_eq V sb (emptied ip)); [apply HE|apply HE].
Qed.

Lemma itrunc_ok fs V B : let ip := inode_at fs i in
  txn pid start fs V B ∅ -> fs_sb fs = sb -> disk_wf V sb -> inode_wf V sb ip -> inode_home V sb ip ->
  i_dev ip = ROOTDEV -> (i < length (fs_itable fs))%nat -> (length B + bm_count sb < 28)%nat ->
  exists fs' V' B', fsr p pid [] (itrunc i) fs tt [] fs' /\ txn pid start fs' V' B' ∅ /\ tx_keep fs fs' /\
    fs_itable fs' = put_inode i (emptied ip) (fs_itable fs) /\ truncated sb V ip V' (emptied ip) /\
    (length B' <= length B + bm_count sb + 1)%nat.
Proof.
  intros ip T Esb HW HI HH Hdev Hi Hroom. pose proof (iw_len _ _ _ HI) as Hl. set (t := fs_itable fs). set (c := ind_of ip).
  assert (ip = inode_at fs i) as Eip by done. clearbody ip.
  assert (fs_itable fs = put_inode i (set_i_addrs (zeroed ip 0) ip) t) as Et0.
  { change (zeroed ip 0) with (i_addrs ip). replace (set_i_addrs (i_addrs ip) ip) with ip by (by destruct ip). rewrite Eip.
    exact (eq_sym (put_inode_id fs i Hi)). }
  assert (freed V sb B (below V ip 0) V B) as F0.
  { eapply freed_ext; [|by apply freed_none]. intros b. split; [done|]. intros [_ (n & Hn & _)]. lia. }
  destruct (direct_loop V sb B ip HI p pid start Hroom i t Hdev Hi 12 0 fs V B eq_refl T Esb F0 Et0)
    as (fs1 & V1 & B1 & R1 & T1 & F1 & P1 & Et1).
  destruct (put_inode_get i t Hi _ fs1 Et1) as [Ei1 Hi1].
  assert (aget 0 (zeroed ip 12) NDIRECT = c) as Ec by (apply (zeroed_get ip 12); lia).
  assert (exists fs2 V2 B2, fsr p pid [] (kwhen (negb (c =? 0))
    (bp ← bread (i_dev (inode_at fs1 i)) c;
     kfor (seq 0 (Z.to_nat NINDIRECT)) (fun j =>
       x ← get_buf bp;
       let a := ld32 (b_data x) (4 * Z.of_nat j) in
       kwhen (negb (a =? 0)) (bfree (i_dev (inode_at fs1 i)) a));;
     brelse bp;;
     bfree (i_dev (inode_at fs1 i)) c;;
     mod_inode i (fun ip => set_i_addrs (aset (i_addrs ip) NDIRECT 0) ip))) fs1 tt [] fs2 /\
    txn pid start fs2 V2 B2 ∅ /\ tx_keep fs1 fs2 /\ freed V sb B (owns V ip) V2 B2 /\
    fs_itable fs2 = put_inode i (set_i_addrs (replicate 13 0) ip) t) as (fs2 & V2 & B2 & R2 & T2 & P2 & F2 & Et2).
  { assert (zeroed ip 13 = replicate 13 0) as Ez by (unfold zeroed; rewrite drop_ge by lia; by rewrite app_nil_r).
    rewrite Ei1. cbn [i_dev set_i_addrs]. rewrite Hdev. destruct (decide (c = 0)) as [E0|E0].
    - exists fs1, V1, B1. rewrite E0. split_and!; [apply fsr_ret|done|apply tx_keep_refl| |].
      + eapply freed_ext; [|exact F1]. intros b. by apply below_direct.
      + rewrite Et1, (zeroed_hole V sb ip HI 12), Ez by (done || lia). done.
    - pose proof (bm_grows_length sb B B1 (tx_nodup _ _ _ _ _ _ T1) (fr_log _ _ _ _ _ _ F1)) as HB1.
      destruct (tx_bread p pid start fs1 V1 B1 ∅ c T1) as (bp & fs2 & R2 & T2 & Bu2 & _ & _ & S2 & E2);
        [apply not_elem_of_empty|rewrite size_empty; unfold NBUF; lia|].
      rewrite union_empty_r_L in T2.
      destruct (ind_loop V sb B ip HI p pid start Hroom i t Hdev Hi bp 256 0 fs2 V1 B1 eq_refl E0 T2 Bu2)
        as (fs3 & V3 & B3 & R3 & T3 & Bu3 & F3 & P3 & Et3); [rewrite (ts_sb _ _ S2); by rewrite (tk_sb _ _ P1)|exact F1|].
      destruct (tx_brelse p pid start fs3 V3 B3 {[c]} bp c T3) as (fs4 & R4 & T4 & _ & S4 & E4); [by apply elem_of_singleton|done|].
      rewrite difference_diag_L in T4.
      assert (tx_keep fs1 fs4) as P4 by (eapply tx_keep_trans; [by apply (tx_keep_log fs1 fs2)|]; eapply tx_keep_trans; [exact P3|by apply tx_keep_log]).
      destruct (free_one V sb B ip HI p pid start Hroom _ fs4 V3 B3 ∅ c F3 T4) as (fs5 & R5 & T5 & _ & P5 & It5);
        [rewrite (tk_sb _ _ P4); by rewrite (tk_sb _ _ P1)|by left|by apply owns_ind|apply (below_ind V sb ip HI); rewrite MAXFILE_eq; lia|].
      assert (fs_itable fs5 = fs_itable fs1) as It by (rewrite It5, (ts_itable _ _ S4), Et3; apply S2).
      set (fs6 := upd_inode i (fun ip => set_i_addrs (aset (i_addrs ip) NDIRECT 0) ip) fs5).
      exists fs6, (free_view V3 sb c), (logged B3 (BBLOCK c sb)). split_and!.
      + rewrite (proj2 (Z.eqb_neq c 0)) by done. cbn [negb kwhen]. eapply fsr_bind; [exact R2|].
        rewrite <- Hdev. eapply fsr_bind; [exact R3|]. rewrite Hdev. eapply fsr_bind; [exact R4|].
        eapply fsr_bind; [exact R5|apply fsr_mod_inode].
      + by apply txn_itable.
      + eapply tx_keep_trans; [exact P4|]. eapply tx_keep_trans; [exact P5|apply tx_keep_upd].
      + eapply freed_ext; [|apply (freed_step V sb B ip HI _ V3 B3 c F3); [by apply owns_ind|apply (below_ind V sb ip HI); rewrite MAXFILE_eq; lia]].
        intros b. by apply below_all.
      + unfold fs6. rewrite upd_inode_put by (by rewrite It). rewrite It, Et1, put_inode_put.
        assert (inode_at fs5 i = inode_at fs1 i) as -> by (unfold inode_at; by rewrite It). rewrite Ei1.
        cbn [i_addrs set_i_addrs]. rewrite <- Ez. rewrite <- (zeroed_step V sb ip HI 12) by lia. done. }
  destruct (put_inode_get i t Hi _ fs2 Et2) as [Ei2 Hi2].
  set (fs3 := upd_inode i (set_i_size 0) fs2).
  assert (inode_at fs3 i = emptied ip) as Ei3 by (unfold fs3; rewrite inode_at_upd, decide_True by done; by rewrite Ei2).
  pose proof (bm_grows_length sb B B2 (tx_nodup _ _ _ _ _ _ T2) (fr_log _ _ _ _ _ _ F2)) as HB2.
  assert (fs_sb fs3 = sb) as Esb3 by (change (fs_sb fs3) with (fs_sb fs2); rewrite (tk_sb _ _ P2); by rewrite (tk_sb _ _ P1)).
  destruct (iupdate_ok p pid start fs3 V2 B2 ∅ i (txn_itable _ _ _ _ _ _ _ T2)) as (fs4 & R4 & T4 & _ & S4 & E4); rewrite ?Ei3, ?Esb3 in *.
  { done. }
  { apply not_elem_of_empty. }
  { rewrite size_empty. unfold NBUF. lia. }
  { lia. }
  exists fs4, (inode_view V2 sb (emptied ip)), (logged B2 (IBLOCK (i_inum ip) sb)). split_and!.
  - unfold itrunc. eapply fsr_bind; [exact R1|]. eapply fsr_bind; [apply fsr_get_inode|].
    rewrite Ei1 in R2 |- *. cbn [i_addrs i_dev set_i_addrs] in R2 |- *. rewrite Ec. eapply fsr_bind; [exact R2|].
    eapply fsr_bind; [apply fsr_mod_inode|exact R4].
  - exact T4.
  - eapply tx_keep_trans; [exact P1|]. eapply tx_keep_trans; [exact P2|]. eapply tx_keep_trans; [apply (tx_keep_upd _ i (set_i_size 0))|].
    by eapply tx_keep_after.
  - rewrite (ts_itable _ _ S4). unfold fs3. rewrite upd_inode_put by done. by rewrite Ei2, Et2, put_inode_put.
  - by apply (truncated_store V ip V2 B B2).
  - pose proof (length_logged B2 (IBLOCK (i_inum ip) sb)). lia.
Qed.

(** ** iput *)

(** A freed inode: no contents and no type. *)
Definition unlinked (ip : inode) : inode := set_i_type 0 (emptied ip).

Lemma truncated_unlink V ip V1 : truncated sb V ip V1 (emptied ip) ->
  truncated sb V ip (inode_view V1 sb (unlinked ip)) (unlinked ip).
Proof.
  intros [A1 A2 Ao A3 A4 A5 [G1 G2 G3 G4 G5 G6] A7].
  assert (inode_wf V1 sb (unlinked ip)) as HI by (apply (emptied_wf V1 sb (set_i_type 0 ip))).
  assert (inode_home V1 sb (unlinked ip)) as HH.
  { split; try done. destruct G6 as [? ? ? ? ? ? ?]. by split. }
  destruct (home_put V1 sb (unlinked ip) [] A4 HI HH (emptied_file V1 (set_i_type 0 ip))) as (W1 & W2 & W3 & W4 & W5).
  split; try done.
  - intros b Hb. rewrite W5 by done. by apply A1.
  - intros b Hb Hne. unfold inode_view. rewrite dset_ne by done. by apply A2.
  - eapply only_inode_trans; [exact Ao|]. apply (only_inode_view V1 V1 sb (unlinked ip)); [apply HH|apply HH|done].
  - apply (disk_inode_eq V1 sb (unlinked ip)); [apply HH|apply HH].
Qed.

Lemma iput_free fs V B : let ip := inode_at fs i in
  txn pid start fs V B ∅ -> fs_sb fs = sb -> disk_wf V sb -> inode_wf V sb ip -> inode_home V sb ip ->
  i_dev ip = ROOTDEV -> (i < length (fs_itable fs))%nat -> (length B + bm_count sb + 1 < 28)%nat ->
  i_ref ip = 1 -> i_valid ip <> 0 -> i_nlink ip = 0 -> sl_locked (fs_sl fs (SL_inode i)) = 0 ->
  exists fs' V' B', fsr p pid [] (iput i) fs tt [] fs' /\ txn pid start fs' V' B' ∅ /\
    fs_itable fs' = put_inode i (set_i_ref 0 (set_i_valid 0 (unlinked ip))) (fs_itable fs) /\
    truncated sb V ip V' (unlinked ip) /\ (length B' <= length B + bm_count sb + 2)%nat /\
    fs_sb fs' = sb /\ fs_sl fs' (SL_inode i) = SleepLock 0 0 /\ same_disk fs fs'.
Proof.
  intros ip T Esb HW HI HH Hdev Hi Hroom Href Hv Hnl Hsl.
  set (fs1 := upd_sl (SL_inode i) (SleepLock 1 pid) fs).
  assert (txn pid start fs1 V B ∅) as T1 by (by apply txn_isl).
  destruct (itrunc_ok fs1 V B T1) as (fs2 & V2 & B2 & R2 & T2 & P2 & It2 & Tr2 & HB2); try done; [lia|].
  change (inode_at fs1 i) with ip in It2, Tr2. change (fs_itable fs1) with (fs_itable fs) in It2.
  destruct (put_inode_get i (fs_itable fs) Hi _ fs2 It2) as [Ei2 Hi2].
  set (fs3 := upd_inode i (set_i_type 0) fs2).
  assert (inode_at fs3 i = unlinked ip) as Ei3 by (unfold fs3; rewrite inode_at_upd, decide_True by done; by rewrite Ei2).
  assert (fs_sb fs3 = sb) as Esb3 by (change (fs_sb fs3) with (fs_sb fs2); by rewrite (tk_sb _ _ P2)).
  assert (fs_itable fs3 = put_inode i (unlinked ip) (fs_itable fs)) as It3.
  { unfold fs3. rewrite upd_inode_put by done. by rewrite Ei2, It2, put_inode_put. }
  destruct (iupdate_ok p pid start fs3 V2 B2 ∅ i (txn_itable _ _ _ _ _ _ _ T2)) as (fs4 & R4 & T4 & _ & S4 & E4); rewrite ?Ei3, ?Esb3 in *.
  { done. }
  { apply not_elem_of_empty. }
  { rewrite size_empty. unfold NBUF. lia. }
  { lia. }
  assert (fs_itable fs4 = put_inode i (unlinked ip) (fs_itable fs)) as It4 by (by rewrite (ts_itable _ _ S4)).
  set (fs5 := upd_inode i (set_i_valid 0) fs4). set (fs6 := upd_sl (SL_inode i) (SleepLock 0 0) fs5).
  set (fs7 := upd_inode i (fun x => set_i_ref (i32 (i_ref x - 1)) x) fs6).
  destruct (put_inode_get i (fs_itable fs) Hi _ fs4 It4) as [Ei4 Hi4].
  assert (fs_itable fs5 = put_inode i (set_i_valid 0 (unlinked ip)) (fs_itable fs)) as It5.
  { unfold fs5. rewrite upd_inode_put by done. by rewrite Ei4, It4, put_inode_put. }
  assert (fs_itable fs6 = fs_itable fs5) as It6 by done.
  destruct (put_inode_get i (fs_itable fs) Hi _ fs6 (eq_trans It6 It5)) as [Ei6 Hi6].
  assert (quiet []) as Hq by apply quiet_nil.
  exists fs7, (inode_view V2 sb (unlinked ip)), (logged B2 (IBLOCK (i_inum ip) sb)). split_and!.
  - unfold iput. eapply fsr_bind; [apply fsr_acquire, not_elem_of_nil|]. eapply fsr_bind; [apply fsr_get_inode|]. fold ip.
    rewrite Href, Hnl, (proj2 (Z.eqb_neq (i_valid ip) 0)) by done. cbn [Z.eqb negb andb kwhen].
    eapply fsr_bind; [|eapply fsr_bind; [apply fsr_mod_inode|apply fsr_release; set_solver]].
    eapply fsr_bind; [apply fsr_acquiresleep; [set_solver|done]|]. eapply fsr_bind; [apply fsr_release; set_solver|].
    eapply fsr_bind; [exact R2|]. eapply fsr_bind; [apply fsr_mod_inode|]. eapply fsr_bind; [exact R4|].
    eapply fsr_bind; [apply fsr_mod_inode|]. eapply fsr_bind; [apply fsr_releasesleep; [set_solver|done]|].
    apply fsr_acquire. set_solver.
  - apply txn_itable, txn_isl, txn_itable. exact T4.
  - unfold fs7. rewrite upd_inode_put by done. rewrite It6, It5, put_inode_put, Ei6. f_equal.
    cbn [i_ref set_i_valid unlinked set_i_type emptied set_i_size set_i_addrs]. rewrite Href. done.
  - by apply truncated_unlink.
  - pose proof (length_logged B2 (IBLOCK (i_inum ip) sb)). lia.
  - change (fs_sb fs7) with (fs_sb fs4). by rewrite (ts_sb _ _ S4).
  - unfold fs7, fs6, upd_inode, upd_sl. cbn [fs_sl set_fs_sl set_fs_itable]. by rewrite decide_True.
  - destruct (tk_disk _ _ P2) as [D1 D2], (ts_disk _ _ S4) as [D3 D4]. split.
    + change (fs_disk fs7) with (fs_disk fs4). rewrite D3. exact D1.
    + change (fs_writes fs7) with (fs_writes fs4). rewrite D4. exact D2.
Qed.
End itrunc.

(** ** Theorems *)

(** C26: [iput] drops a reference, and with the last one to an inode that no
    directory links to it frees the file: exactly the blocks of the file,
    direct, indirect and the indirect block itself, become free in the
    bitmap; the inode on disk has type 0, size 0 and no addresses; the slot
    of the inode table is free and its lock released.  All other blocks of
    the disk are untouched, and so are the other inodes in the block of this
    one, and the log grows by bitmap blocks and the block
    of the inode only.  In every other case only the count changes. *)
Theorem iput_correct (D : Disk) p pid start sb fs V B i : DiskOk D -> let ip := inode_at fs i in
  (i < length (fs_itable fs))%nat -> 1 <= i_ref ip < 2 ^ 31 ->
  if decide (i_ref ip = 1 /\ i_valid ip <> 0 /\ i_nlink ip = 0) then
    txn pid start fs V B ∅ -> fs_sb fs = sb -> disk_wf V sb -> inode_wf V sb ip -> inode_home V sb ip ->
    i_dev ip = ROOTDEV -> (length B + bm_count sb + 1 < 28)%nat -> sl_locked (fs_sl fs (SL_inode i)) = 0 ->
    exists fs' V' B', fsr p pid [] (iput i) fs tt [] fs' /\ txn pid start fs' V' B' ∅ /\
      fs_itable fs' = put_inode i (set_i_ref 0 (set_i_valid 0 (unlinked ip))) (fs_itable fs) /\
      truncated sb V ip V' (unlinked ip) /\ (length B' <= length B + bm_count sb + 2)%nat /\
      fs_sb fs' = sb /\ fs_sl fs' (SL_inode i) = SleepLock 0 0 /\ same_disk fs fs'
  else
    fsr p pid [] (iput i) fs tt [] (set_fs_itable (put_inode i (add_ref (-1) ip) (fs_itable fs)) fs).
Proof.
  intros HD ip Hi Hr. case_decide as Hc.
  - intros. by apply iput_free; destruct Hc as (?&?&?).
  - destruct (lookup_lt_is_Some_2 _ _ Hi) as [x Hx].
    assert (x = ip) as -> by (unfold ip, inode_at; by rewrite nth_lookup, Hx). by apply iput_keep.
Qed.

(** ** Witness *)

(** The last reference to a file of one block without links. *)
Lemma iput_correct_witness : exists fs fs' V', fsr 0 1 [] (iput (D := sync_disk) 0) fs tt [] fs' /\ in_use V' sb_example 3 = false.
Proof.
  destruct example_file as (fs0 & V & T & Esb & Et & HW & HI & HH & HF).
  set (x := set_i_nlink 0 file_example).
  set (fs := upd_sl (SL_inode 0) (SleepLock 0 0) (set_fs_itable [x] fs0)).
  assert (txn 1 0 fs V [45] ∅) as T' by (by apply txn_isl, txn_itable).
  pose proof (iput_correct sync_disk 0 1 0 sb_example fs V [45] 0 sync_disk_ok) as H. cbv zeta in H.
  change (inode_at fs 0) with x in H. rewrite decide_True in H by done.
  destruct H as (fs' & V' & B' & R & _ & _ & Tr & _).
  - simpl. lia.
  - simpl. lia.
  - exact T'.
  - exact Esb.
  - exact HW.
  - destruct HI. by split.
  - destruct HH as [? ? ? ? ? [? ? ? ? ? ? ?]]. by split.
  - reflexivity.
  - change (bm_count sb_example) with 1%nat. simpl. lia.
  - unfold fs, upd_sl. cbn [fs_sl set_fs_sl]. by rewrite decide_True.
  - exists fs, fs', V'. split; [exact R|]. apply not_true_iff_false. intros E.
    apply (tr_use _ _ _ _ _ Tr) in E as [_ E]; [|simpl; lia]. apply E. by apply (example_owns V).
Defined.
