(* ===== verification/NamexProps.v ===== *)
(** * NamexProps: path names and the directory tree

    [tree] is the directory tree that a disk stands for: a map from inode
    numbers to directories and other files.  [namei] and [nameiparent]
    follow a path in it, taking and dropping references in the inode table
    on the way. *)

From S2P Require Import Prelude.
From S2P Require Import State.
From S2P Require Import Kernel.
From S2P Require Import Sched.
From S2P Require Import SchedInv.
From S2P Require Import SchedProps.
From S2P Require Import Mem.
From S2P Require Import Kalloc.
From S2P Require Import Bio.
From S2P Require Import FsRun.
From S2P Require Import BioProps.
From S2P Require Import Log.
From S2P Require Import LogProps.
From S2P Require Import LogCrash.
From S2P Require Import Txn.
From S2P Require Import Vm.
From S2P Require Import Console.
From S2P Require Import Fs.
From S2P Require Import FsProps.
From S2P Require Import InodeProps.
From S2P Require Import BmapProps.
From S2P Require Import FileData.
From S2P Require Import DirProps.
From S2P Require Import PathProps.

(** ** The tree *)

Inductive node := NDir (d : gmap (list Z) Z) | NFile.
Abbreviation tree := (gmap Z node).

(** The inode with number [inum], as [ilock] loads it. *)
Definition inode_of (V : Z -> list Z) (sb : superblock) (inum : Z) : inode :=
  loaded (disk_inode V sb inum) (Inode ROOTDEV inum 1 0 0 0 0 0 0 []).

Definition node_ok (V : Z -> list Z) (sb : superblock) (T : tree) (inum : Z) (nd : node) : Prop :=
  d_type (disk_inode V sb inum) <> 0 /\ d_nlink (disk_inode V sb inum) <> 0 /\
  match nd with
  | NDir d => d_type (disk_inode V sb inum) = T_DIR /\ inode_wf V sb (inode_of V sb inum) /\
      (exists bs, file_is V (inode_of V sb inum) bs /\ dir_is bs d) /\
      forall name n, d !! name = Some n -> is_Some (T !! n)
  | NFile => d_type (disk_inode V sb inum) <> T_DIR
  end.
Definition tree_ok (V : Z -> list Z) (sb : superblock) (T : tree) : Prop :=
  forall inum nd, T !! inum = Some nd -> node_ok V sb T inum nd.

(** Following the names [cs] from the inode [inum]; with [parent] up to the
    directory of the last one. *)
Fixpoint resolve (parent : bool) (T : tree) (inum : Z) (cs : list (list Z)) : option Z :=
  match cs with
  | [] => if parent then None else Some inum
  | c :: cs' =>
    match T !! inum with
    | Some (NDir d) =>
      if parent && bool_decide (cs' = []) then Some inum
      else match d !! c with Some n => resolve parent T n cs' | None => None end
    | _ => None
    end
  end.

(** ** References *)

Definition refs (t : list inode) : list Z := i_ref <$> t.
Definition bump (n : Z) (i : nat) (r : list Z) : list Z := alter (Z.add n) i r.
(** Slots of the table that are not in use. *)
Definition nfree (r : list Z) : nat := length (filter (fun x => x = 0) r).

Lemma bump_undo i r : bump (-1) i (bump 1 i r) = r.
Proof.
  unfold bump. rewrite list_alter_alter_eq. apply list_alter_id. intros x. unfold compose. lia.
Qed.
Lemma bump_comm i j m n r : bump m i (bump n j r) = bump n j (bump m i r).
Proof.
  unfold bump. destruct (decide (i = j)) as [->|Hne].
  - rewrite !list_alter_alter_eq. apply list_alter_ext; [|done]. intros x _. unfold compose. lia.
  - by apply list_alter_alter_ne.
Qed.
Lemma refs_insert t i ip n : t !! i = Some ip -> refs (<[i := set_i_ref (i_ref ip + n) ip]> t) = bump n i (refs t).
Proof.
  intros Hi. unfold refs, bump. rewrite list_insert_alter. apply list_eq. intros j.
  rewrite list_lookup_fmap. destruct (decide (j = i)) as [->|Hj].
  - rewrite !list_lookup_alter_eq, list_lookup_fmap, Hi. cbn. f_equal. lia.
  - by rewrite !list_lookup_alter_ne, list_lookup_fmap by done.
Qed.

(** The same inode in a slot that is in use. *)
Definition keeps (t t' : list inode) : Prop :=
  forall j x, t !! j = Some x -> 0 < i_ref x -> exists y, t' !! j = Some y /\ i_dev y = i_dev x /\ i_inum y = i_inum x.
Lemma keeps_refl t : keeps t t.
Proof. intros j x Hx _. by exists x. Qed.

(** Wellformedness of an inode depends on its addresses only. *)
Lemma inode_wf_addrs V sb ip ip' : i_addrs ip' = i_addrs ip -> inode_wf V sb ip -> inode_wf V sb ip'.
Proof.
  intros E [H1 H2 H3 H4 H5 H6 H7].
  assert (forall k, inode_map V ip' k = inode_map V ip k) as Em by (intros k; unfold inode_map, ind_of; by rewrite E).
  assert (ind_of ip' = ind_of ip) as Ei by (unfold ind_of; by rewrite E).
  assert (forall b, owns V ip' b <-> owns V ip b) as Eo by (intros b; unfold owns; rewrite Ei; by setoid_rewrite Em).
  split; try done.
  - by rewrite E.
  - intros b Hb%Eo. by apply H2.
  - intros b Hb%Eo. by apply H3.
  - intros b Hb%Eo. by apply H4.
  - intros b Hb%Eo. by apply H5.
  - intros k k' Hk Hk'. rewrite !Em. by apply H6.
  - intros k Hk. rewrite Em, Ei. by apply H7.
Qed.
Lemma file_is_addrs V ip ip' bs : i_addrs ip' = i_addrs ip -> i_size ip' = i_size ip -> file_is V ip bs -> file_is V ip' bs.
Proof.
  intros E Es [H1 H2 H3 H4].
  assert (forall k, inode_map V ip' k = inode_map V ip k) as Em by (intros k; unfold inode_map, ind_of; by rewrite E).
  split; rewrite ?Es; try done.
  - intros k Hk. rewrite Em. by apply H3.
  - rewrite <- H4 at 2. apply list_fmap_ext. intros j x _. unfold file_byte. by rewrite Em.
Qed.

Lemma dinode_of_loaded d ip : dinode_of (loaded d ip) = d.
Proof. by destruct d. Qed.

Lemma nfree_room t dev inum : (0 < nfree (refs t))%nat -> itable_room t dev inum.
Proof.
  intros H. unfold nfree in H. destruct (filter (fun x => x = 0) (refs t)) as [|x l] eqn:E; [cbn in H; lia|].
  assert (x ∈ filter (fun x => x = 0) (refs t)) as Hx by (rewrite E; by left).
  apply list_elem_of_filter in Hx as [-> [i Hi]%list_elem_of_lookup]. unfold refs in Hi. rewrite list_lookup_fmap in Hi.
  destruct (t !! i) as [ip|] eqn:Ei; [|done]. injection Hi as Hi. exists i, ip. split; [done|by right].
Qed.
Lemma nfree_cons x r : nfree (x :: r) = (if decide (x = 0) then S (nfree r) else nfree r).
Proof. unfold nfree. rewrite filter_cons. by destruct (decide (x = 0)). Qed.
Lemma nfree_bump i r : (nfree r <= S (nfree (bump 1 i r)))%nat.
Proof.
  unfold bump. revert i. induction r as [|x r IH]; intros i; [cbn; lia|].
  destruct i as [|i]; cbn [alter list_alter].
  - rewrite !nfree_cons. repeat case_decide; lia.
  - change (alter (Z.add 1) (S i) (x :: r)) with (x :: alter (Z.add 1) i r). rewrite !nfree_cons. specialize (IH i). case_decide; lia.
Qed.

(** ** Operations on a coherent file system *)

Definition slot_is (t : list inode) (i : nat) (inum : Z) : Prop := exists ip, t !! i = Some ip /\ cached ip ROOTDEV inum.

Section walk.
Context `{D : Disk} `{!DiskOk D} (p : nat) (pid : Z) (pr : proc) (start : Z) (sb : superblock).
Context (V : Z -> list Z) (B : list Z) (T : tree) (t0 : list inode).
Hypothesis (HT : tree_ok V sb T) (HB : (length B < NBUF)%nat) (HS : stack_ok pr).

(** A slot in use agrees with the disk once it is loaded. *)
Definition slot_ok (ip : inode) : Prop :=
  i_dev ip = ROOTDEV /\ is_Some (T !! i_inum ip) /\ (i_valid ip <> 0 -> dinode_of ip = disk_inode V sb (i_inum ip)).

(** No counter below that of the table [t0]. *)
Definition covers (r : list Z) : Prop := forall j x, refs t0 !! j = Some x -> exists y, r !! j = Some y /\ x <= y < 2 ^ 31 - 1.

(** The state between two operations: [hl] is the inode whose lock the
    process holds, [r] the reference counts. *)
Record fs_ok (hl : option nat) (r : list Z) (fs : fsstate) : Prop := {
  fo_txn : txn pid start fs V B ∅;
  fo_sb : fs_sb fs = sb;
  fo_table : itable_ok (fs_itable fs);
  fo_slot : forall i ip, fs_itable fs !! i = Some ip -> 0 < i_ref ip -> slot_ok ip;
  fo_lock : forall i, if decide (hl = Some i) then fs_sl fs (SL_inode i) = SleepLock 1 pid else sl_locked (fs_sl fs (SL_inode i)) = 0;
  fo_refs : refs (fs_itable fs) = r;
  fo_keeps : keeps t0 (fs_itable fs)
}.

Lemma refs_lookup t i : refs t !! i = i_ref <$> t !! i.
Proof. apply list_lookup_fmap. Qed.

(** [iget]. *)
Lemma get_step hl r fs fs1 inum i t' : fs_ok hl r fs -> covers r -> is_Some (T !! inum) ->
  (forall x, x ∈ r -> x < 2 ^ 31 - 2) ->
  txn pid start fs1 V B ∅ -> tx_keep fs fs1 -> got (fs_itable fs) ROOTDEV inum i t' ->
  fs_ok hl (bump 1 i r) (set_fs_itable t' fs1) /\ slot_is t' i inum.
Proof.
  intros [F1 F2 F3 F4 F5 F6 F7] Hcov HTi Hsmall T1 P1 Hg. set (t := fs_itable fs) in *.
  assert (forall ip, t !! i = Some ip -> i_ref ip < 2 ^ 31 - 2) as Hb.
  { intros ip Hi. apply Hsmall. rewrite <- F6. apply (list_elem_of_lookup_2 _ i). by rewrite refs_lookup, Hi. }
  destruct (got_ok ROOTDEV inum t i t' F3 Hg Hb) as (Hok & (ip' & Hi' & Hc') & Hlen & Hother).
  destruct Hg as (ip & Hi & Hg). pose proof (lookup_lt_Some _ _ _ Hi) as Hlt.
  split; [|by exists ip']. split; cbn [fs_itable set_fs_itable].
  - by apply txn_itable.
  - by rewrite <- F2, <- (tk_sb _ _ P1).
  - done.
  - intros j x Hj Hr. destruct (decide (j = i)) as [->|Hne]; [|rewrite Hother in Hj by done; by apply (F4 j)].
    rewrite Hi' in Hj. injection Hj as <-. destruct Hc' as (_ & Ed & En).
    destruct Hg as [[Hc ->]|(_ & _ & ->)]; rewrite list_lookup_insert_eq in Hi' by done; injection Hi' as <-.
    + apply (F4 i ip Hi). apply Hc.
    + split_and!; [done|done|]. intros Hv. by destruct Hv.
  - intros j. specialize (F5 j). change (fs_sl (set_fs_itable t' fs1)) with (fs_sl fs1). by rewrite (tk_isl _ _ P1).
  - rewrite <- F6. destruct Hg as [[Hc ->]|(_ & Hz & ->)]; [by apply refs_insert|].
    rewrite <- (refs_insert t i ip 1 Hi). unfold refs. rewrite !list_fmap_insert. f_equal. cbn. lia.
  - intros j x Hj Hr. destruct (F7 j x Hj Hr) as (y & Hy & Ed & En). destruct (decide (j = i)) as [->|Hne].
    + assert (y = ip) as -> by congruence.
      destruct Hg as [[Hc ->]|(_ & Hz & ->)]; rewrite list_lookup_insert_eq by done; [by eexists|].
      exfalso. destruct (Hcov i (i_ref x)) as (y & Hyr & Hle); [by rewrite refs_lookup, Hj|].
      rewrite <- F6, refs_lookup, Hi in Hyr. injection Hyr as <-. lia.
    + exists y. by rewrite Hother.
Qed.

(** [ilock]. *)
Lemma lock_step r fs i inum : fs_ok None r fs -> slot_is (fs_itable fs) i inum ->
  exists fs', fsr p pid [] (ilock (Some i)) fs tt [] fs' /\ fs_ok (Some i) r fs' /\ slot_is (fs_itable fs') i inum /\
    i_valid (inode_at fs' i) <> 0.
Proof.
  intros HF (ip & Hi & Hr & Hd & Hn). pose proof HF as [F1 F2 F3 F4 F5 F6 F7].
  assert (inode_at fs i = ip) as Ei by (unfold inode_at; by rewrite nth_lookup, Hi).
  pose proof (lookup_lt_Some _ _ _ Hi) as Hlt. pose proof (F5 i) as Hl. rewrite decide_False in Hl by done.
  destruct (F4 i ip Hi Hr) as (_ & [nd Hnd] & Hv). destruct (decide (i_valid ip = 0)) as [Hv0|Hv1].
  - destruct (ilock_load p pid start fs V B ∅ i F1 Hlt) as (fs' & R & T' & Et & Es & _ & Esb & _); rewrite ?Ei, ?F2; try done; try lia.
    { rewrite size_empty. lia. }
    { by destruct (HT _ _ Hnd). }
    rewrite Ei, F2 in Et. set (d := disk_inode V sb (i_inum ip)) in *.
    assert (fs_itable fs' !! i = Some (loaded d ip)) as Hi' by (rewrite Et; by apply list_lookup_insert_eq).
    assert (forall j x, fs_itable fs' !! j = Some x -> exists y, fs_itable fs !! j = Some y /\ i_ref y = i_ref x /\
      i_dev y = i_dev x /\ i_inum y = i_inum x /\ (j <> i -> y = x)) as Hback.
    { intros j x. rewrite Et. destruct (decide (j = i)) as [->|Hne].
      - rewrite list_lookup_insert_eq by done. intros [= <-]. by exists ip.
      - rewrite list_lookup_insert_ne by done. intros Hx. by exists x. }
    exists fs'. split_and!; [done| |by exists (loaded d ip)|by unfold inode_at; rewrite nth_lookup, Hi'].
    split; try done.
    + by rewrite Esb.
    + destruct F3 as [G1 G2]. split.
      * intros j x Hx. destruct (Hback j x Hx) as (y & Hy & E & _). rewrite <- E. by apply (G1 j).
      * intros j k x y dv n Hx Hy (?&?&?) (?&?&?).
        destruct (Hback j x Hx) as (x' & Hx' & ? & ? & ? & _), (Hback k y Hy) as (y' & Hy' & ? & ? & ? & _).
        apply (G2 j k x' y' dv n); [done|done|split_and!; (lia || congruence)..].
    + intros j x Hx Hrx. destruct (decide (j = i)) as [->|Hne].
      * rewrite Hi' in Hx. injection Hx as <-. split_and!; [done|by exists nd|]. intros _. apply dinode_of_loaded.
      * destruct (Hback j x Hx) as (y & Hy & _ & _ & _ & E). rewrite <- E by done. apply (F4 j y Hy). by rewrite E.
    + intros j. rewrite Es. destruct (decide (Some i = Some j)) as [[= ->]|Hne]; [by rewrite decide_True|].
      rewrite decide_False by congruence. specialize (F5 j). by rewrite decide_False in F5 by done.
    + rewrite <- F6, Et. unfold refs. rewrite list_fmap_insert. apply list_insert_id. by rewrite list_lookup_fmap, Hi.
    + intros j x Hx Hrx. destruct (F7 j x Hx Hrx) as (y & Hy & E1 & E2). rewrite Et. destruct (decide (j = i)) as [->|Hne].
      * rewrite list_lookup_insert_eq by done. eexists. split; [done|]. cbn. by assert (y = ip) as -> by congruence.
      * rewrite list_lookup_insert_ne by done. by exists y.
  - destruct (ilock_valid p pid start fs V B ∅ i F1 ltac:(rewrite Ei; lia) Hl ltac:(by rewrite Ei)) as (fs' & R & T' & ->).
    eexists. split_and!; [exact R| |by exists ip|].
    + split; try done. intros j. unfold upd_sl. cbn [fs_sl set_fs_sl]. destruct (decide (Some i = Some j)) as [[= ->]|Hne].
      * by rewrite decide_True.
      * rewrite decide_False by congruence. specialize (F5 j). by rewrite decide_False in F5 by done.
    + change (inode_at (upd_sl _ _ fs) i) with (inode_at fs i). by rewrite Ei.
Qed.

(** [iunlock]. *)
Lemma unlock_step r fs i inum : fs_ok (Some i) r fs -> slot_is (fs_itable fs) i inum ->
  exists fs', fsr p pid [] (iunlock (Some i)) fs tt [] fs' /\ fs_ok None r fs' /\ fs_itable fs' = fs_itable fs.
Proof.
  intros [F1 F2 F3 F4 F5 F6 F7] (ip & Hi & Hr & Hd & Hn).
  assert (inode_at fs i = ip) as Ei by (unfold inode_at; by rewrite nth_lookup, Hi).
  pose proof (F5 i) as Hl. rewrite decide_True in Hl by done.
  exists (upd_sl (SL_inode i) (SleepLock 0 0) fs). split_and!; [| |done].
  - unfold iunlock. eapply fsr_bind; [apply fsr_holdingsleep, not_elem_of_nil|]. eapply fsr_bind; [apply fsr_get_inode|].
    rewrite Hl, Ei, Z.eqb_refl, (proj2 (Z.ltb_ge _ 1)) by lia. cbn [sl_locked sl_pid Z.eqb negb andb orb].
    apply fsr_releasesleep; [apply not_elem_of_nil|apply quiet_nil].
  - split; try done; [by apply txn_isl|]. intros j. rewrite decide_False by done. unfold upd_sl. cbn [fs_sl set_fs_sl].
    destruct (decide (SL_inode j = SL_inode i)) as [E|Hne]; [done|]. specialize (F5 j).
    rewrite decide_False in F5 by congruence. done.
Qed.

(** [iput] of a reference taken since [t0]. *)
Lemma put_step r fs i inum : fs_ok None (bump 1 i r) fs -> covers r -> slot_is (fs_itable fs) i inum ->
  exists fs', fsr p pid [] (iput i) fs tt [] fs' /\ fs_ok None r fs' /\
    (forall j n, j <> i -> slot_is (fs_itable fs) j n -> slot_is (fs_itable fs') j n) /\
    (forall x n, r !! i = Some x -> 0 < x -> slot_is (fs_itable fs) i n -> slot_is (fs_itable fs') i n).
Proof.
  intros [F1 F2 F3 F4 F5 F6 F7] Hcov (ip & Hi & Hr & Hd & Hn). pose proof (it_ref _ F3 i ip Hi) as Hb.
  pose proof (lookup_lt_Some _ _ _ Hi) as Hlt. destruct (F4 i ip Hi Hr) as (_ & [nd Hnd] & Hv).
  destruct (HT _ _ Hnd) as (_ & Hnl & _). set (t := fs_itable fs) in *.
  exists (set_fs_itable (<[i := add_ref (-1) ip]> t) fs).
  assert (forall j x, <[i := add_ref (-1) ip]> t !! j = Some x -> exists y, t !! j = Some y /\ i_dev x = i_dev y /\
    i_inum x = i_inum y /\ i_ref y - 1 <= i_ref x <= i_ref y /\ i_valid x = i_valid y /\ dinode_of x = dinode_of y) as Hback.
  { intros j x. destruct (decide (j = i)) as [->|Hne].
    - rewrite list_lookup_insert_eq by done. intros [= <-]. exists ip. split_and!; try done; cbn; lia.
    - rewrite list_lookup_insert_ne by done. intros Hx. exists x. split_and!; (done || lia). }
  split_and!.
  - apply iput_keep; [done|lia|]. intros (_ & Hv' & Hn'). apply Hnl. rewrite <- Hv by done. done.
  - split; cbn [fs_itable set_fs_itable]; try done.
    + by apply txn_itable.
    + destruct F3 as [G1 G2]. split.
      * intros j x. destruct (decide (j = i)) as [->|Hne].
        -- rewrite list_lookup_insert_eq by done. intros [= <-]. cbn. lia.
        -- rewrite list_lookup_insert_ne by done. apply G1.
      * intros j k x y dv n Hx Hy (?&?&?) (?&?&?).
        destruct (Hback j x Hx) as (x' & Hx' & ? & ? & ? & _), (Hback k y Hy) as (y' & Hy' & ? & ? & ? & _).
        apply (G2 j k x' y' dv n); [done|done|split_and!; (lia || congruence)..].
    + intros j x Hx Hrx. destruct (Hback j x Hx) as (y & Hy & E1 & E2 & E3 & E4 & E5). unfold slot_ok.
      rewrite E1, E2, E4, E5. apply (F4 j y Hy). lia.
    + rewrite <- (bump_undo i r), <- F6. apply (refs_insert t i ip (-1) Hi).
    + intros j x Hx Hrx. destruct (F7 j x Hx Hrx) as (y & Hy & E1 & E2). destruct (decide (j = i)) as [->|Hne].
      * rewrite list_lookup_insert_eq by done. eexists. split; [done|]. cbn. by assert (y = ip) as -> by congruence.
      * rewrite list_lookup_insert_ne by done. by exists y.
  - intros j n Hne (y & Hy & Hc). exists y. cbn [fs_itable set_fs_itable]. by rewrite list_lookup_insert_ne.
  - intros x n Hx Hx0 (y & Hy & Hc). assert (y = ip) as -> by congruence. exists (add_ref (-1) ip).
    cbn [fs_itable set_fs_itable]. split; [by apply list_lookup_insert_eq|].
    assert (bump 1 i r !! i = Some (i_ref ip)) as E by (rewrite <- F6; by rewrite refs_lookup, Hi).
    unfold bump in E. rewrite list_lookup_alter_eq, Hx in E. injection E as E. destruct Hc as (_ & ? & ?). split; [cbn; lia|done].
Qed.

(** The locked, loaded inode of a directory. *)
Lemma dir_step r fs i inum d : fs_ok (Some i) r fs -> slot_is (fs_itable fs) i inum -> i_valid (inode_at fs i) <> 0 ->
  T !! inum = Some (NDir d) -> exists bs, dir_ctx pid start sb fs V B i bs d.
Proof.
  intros [F1 F2 F3 F4 F5 F6 F7] (ip & Hi & Hr & Hd & Hn) Hv Hnd.
  assert (inode_at fs i = ip) as Ei by (unfold inode_at; by rewrite nth_lookup, Hi). rewrite Ei in Hv.
  destruct (F4 i ip Hi Hr) as (_ & _ & Ed). specialize (Ed Hv). rewrite Hn in Ed.
  destruct (HT _ _ Hnd) as (_ & _ & Hty & HI & (bs & HF & HD) & _).
  assert (i_addrs ip = i_addrs (inode_of V sb inum) /\ i_size ip = i_size (inode_of V sb inum) /\
    i_type ip = d_type (disk_inode V sb inum)) as (Ea & Es & Et) by (unfold inode_of; rewrite <- Ed; done).
  exists bs. split; rewrite ?Ei; try done.
  - by apply (inode_wf_addrs _ _ (inode_of V sb inum)).
  - by apply (file_is_addrs _ (inode_of V sb inum)).
  - by rewrite Et.
Qed.
Lemma type_step r fs i inum nd : fs_ok (Some i) r fs -> slot_is (fs_itable fs) i inum -> i_valid (inode_at fs i) <> 0 ->
  T !! inum = Some nd -> (i_type (inode_at fs i) =? T_DIR) = match nd with NDir _ => true | NFile => false end.
Proof.
  intros [F1 F2 F3 F4 F5 F6 F7] (ip & Hi & Hr & Hd & Hn) Hv Hnd.
  assert (inode_at fs i = ip) as Ei by (unfold inode_at; by rewrite nth_lookup, Hi). rewrite Ei in *.
  destruct (F4 i ip Hi Hr) as (_ & _ & Ed). specialize (Ed Hv). rewrite Hn in Ed.
  assert (i_type ip = d_type (disk_inode V sb inum)) as -> by (by rewrite <- Ed).
  destruct (HT _ _ Hnd) as (_ & _ & H). destruct nd as [d|]; [exact (proj2 (Z.eqb_eq _ _) (proj1 H))|by apply Z.eqb_neq].
Qed.

(** [iunlockput]. *)
Lemma unlockput_step r fs i inum : fs_ok (Some i) (bump 1 i r) fs -> covers r -> slot_is (fs_itable fs) i inum ->
  exists fs', fsr p pid [] (iunlockput i) fs tt [] fs' /\ fs_ok None r fs' /\
    (forall j n, j <> i -> slot_is (fs_itable fs) j n -> slot_is (fs_itable fs') j n) /\
    (forall x n, r !! i = Some x -> 0 < x -> slot_is (fs_itable fs) i n -> slot_is (fs_itable fs') i n).
Proof.
  intros HF Hcov Hi. destruct (unlock_step _ fs i inum HF Hi) as (fs1 & R1 & F1 & E1).
  rewrite <- E1 in Hi. destruct (put_step r fs1 i inum F1 Hcov Hi) as (fs2 & R2 & F2 & H).
  exists fs2. rewrite <- E1. split_and!; [|done|apply H|apply H]. unfold iunlockput. eapply fsr_bind; [exact R1|exact R2].
Qed.

(** ** Following a path *)

Hypothesis (Hsmall : forall x, x ∈ refs t0 -> 0 <= x < 2 ^ 31 - 4) (Hfree : (2 <= nfree (refs t0))%nat).
Let r0 : list Z := refs t0.

Lemma bump_bound i r m : (forall x, x ∈ r -> 0 <= x < m) -> forall x, x ∈ bump 1 i r -> 0 <= x < m + 1.
Proof.
  intros H x [j Hj]%list_elem_of_lookup. unfold bump in Hj. destruct (decide (j = i)) as [->|Hne].
  - rewrite list_lookup_alter_eq in Hj. destruct (r !! i) as [y|] eqn:Ey; [|done]. injection Hj as <-.
    pose proof (H y (list_elem_of_lookup_2 _ _ _ Ey)). lia.
  - rewrite list_lookup_alter_ne in Hj by done. pose proof (H x (list_elem_of_lookup_2 _ _ _ Hj)). lia.
Qed.
Lemma covers_base : covers r0.
Proof. intros j x Hx. exists x. pose proof (Hsmall x (list_elem_of_lookup_2 _ _ _ Hx)). split; [done|lia]. Qed.
Lemma covers_bump i : covers (bump 1 i r0).
Proof.
  intros j x Hx. pose proof (Hsmall x (list_elem_of_lookup_2 _ _ _ Hx)). unfold bump. destruct (decide (j = i)) as [->|Hne].
  - exists (1 + x). rewrite list_lookup_alter_eq. fold r0 in Hx. rewrite Hx. split; [done|lia].
  - exists x. rewrite list_lookup_alter_ne by done. split; [done|lia].
Qed.

(** The names of a path as [skipelem] stores them. *)
Definition names (path : list Z) : list (list Z) := take (Z.to_nat DIRSIZ) <$> components path.

Lemma cname_cstr s : cname (length s) s = cstr s.
Proof. induction s as [|c s IH]; [done|]. cbn. by rewrite IH. Qed.

Definition walked (parent : bool) (inum : Z) (cs : list (list Z)) (o : option nat) (name' : list Z) (fs' : fsstate) : Prop :=
  match resolve parent T inum cs with
  | Some n => exists i', o = Some i' /\ fs_ok None (bump 1 i' r0) fs' /\ slot_is (fs_itable fs') i' n /\
      (parent = true -> last cs = Some (dname name'))
  | None => o = None /\ fs_ok None r0 fs'
  end.

Lemma namex_loop_ok parent : forall fuel path name i inum fs pm,
  Forall (fun c => c <> 0) path -> length name = Z.to_nat DIRSIZ -> (length path <= fuel)%nat ->
  fs_ok None (bump 1 i r0) fs -> slot_is (fs_itable fs) i inum ->
  exists o name' pm' fs', fsp p pid pr (namex_loop fuel i path name parent) pm fs (o, name') pm' fs' /\
    de_only (de_loc pr) pm pm' /\ walked parent inum (names path) o name' fs'.
Proof.
  induction fuel as [|fuel IH]; intros path name i inum fs pm Hp Hn Hf HF Hi; cbn [namex_loop];
    pose proof (skipelem_ok path name Hp Hn) as Hsk; destruct (skipelem path name) as [[rest name']|] eqn:Esk.
  { destruct Hsk as (e & _ & _ & _ & _ & Hlt & _). lia. }
  1,3: unfold walked, names; rewrite Hsk; cbn [fmap list_fmap resolve]; destruct parent; cbv iota;
    [destruct (put_step r0 fs i inum HF covers_base Hi) as (fs' & R & F' & _); exists None, name, pm, fs';
     split_and!; [eapply fsp_bind; [apply fsp_fsr; exact R|apply fsp_ret]|apply de_only_refl|done|done]
    |exists (Some i), name, pm, fs; split_and!; [apply fsp_ret|apply de_only_refl|exists i; split_and!; [done|exact HF|exact Hi|done]]].
  destruct Hsk as (e & Ecs & Ename & Hn' & Hr & Hlt & Hh).
  pose proof (skipelem_last path name rest name' Hp Hn Esk) as Hlast.
  assert (dname name' = take (Z.to_nat DIRSIZ) e) as Edn by (rewrite <- Ename, <- cname_cstr, Hn'; done).
  assert (names path = dname name' :: names rest) as Enames by (unfold names; by rewrite Ecs, fmap_cons, Edn).
  destruct (lock_step (bump 1 i r0) fs i inum HF Hi) as (fs1 & R1 & F1 & Hi1 & Hv1).
  assert (is_Some (T !! inum)) as [nd Hnd].
  { destruct Hi1 as (ip & Hip & Hr0 & _ & <-). by apply (fo_slot _ _ _ F1 i ip). }
  pose proof (type_step _ fs1 i inum nd F1 Hi1 Hv1 Hnd) as Hty.
  assert ((hd 0 rest =? 0) = bool_decide (names rest = [])) as Eb.
  { unfold names. destruct (Z.eqb_spec (hd 0 rest) 0) as [E|E]; case_bool_decide as Hnil; try done.
    - destruct Hnil. apply Hlast in E. by rewrite E.
    - destruct E. apply Hlast. by apply fmap_nil_inv in Hnil. }
  assert (forall o nm pm' fs', fsp p pid pr
     (if negb (i_type (inode_at fs1 i) =? T_DIR) then iunlockput i;; mret (None, name') else
      if parent && bool_decide (names rest = []) then iunlock (Some i);; mret (Some i, name') else
      next ← dirlookup i name';
      match next with
      | None => iunlockput i;; mret (None, name')
      | Some (next, _) => iunlockput i;; namex_loop fuel next rest name' parent
      end) pm fs1 (o, nm) pm' fs' ->
    fsp p pid pr (ilock (Some i);; x ← get_inode i;
      if negb (i_type x =? T_DIR) then iunlockput i;; mret (None, name') else
      if parent && (hd 0 rest =? 0) then iunlock (Some i);; mret (Some i, name') else
      next ← dirlookup i name';
      match next with
      | None => iunlockput i;; mret (None, name')
      | Some (next, _) => iunlockput i;; namex_loop fuel next rest name' parent
      end) pm fs (o, nm) pm' fs') as Hrun.
  { intros o nm pm' fs' R. eapply fsp_bind; [apply fsp_fsr; exact R1|]. eapply fsp_bind; [apply fsp_fsr, fsr_get_inode|rewrite Eb; exact R]. }
  rewrite Hty in Hrun. unfold walked. rewrite Enames. cbn [resolve]. rewrite Hnd. destruct nd as [d|]; cbn [negb] in Hrun.
  2:{ destruct (unlockput_step r0 fs1 i inum F1 covers_base Hi1) as (fs2 & R2 & F2 & _).
      exists None, name', pm, fs2. split_and!; [|apply de_only_refl|done|done].
      apply Hrun. eapply fsp_bind; [apply fsp_fsr; exact R2|apply fsp_ret]. }
  destruct (parent && bool_decide (names rest = [])) eqn:Epar.
  { apply andb_true_iff in Epar as [-> Hnil%bool_decide_eq_true].
    destruct (unlock_step _ fs1 i inum F1 Hi1) as (fs2 & R2 & F2 & E2).
    exists (Some i), name', pm, fs2. split_and!; [|apply de_only_refl|].
    - apply Hrun. eapply fsp_bind; [apply fsp_fsr; exact R2|apply fsp_ret].
    - exists i. rewrite E2, Hnil. by split_and!. }
  destruct (dir_step _ fs1 i inum d F1 Hi1 Hv1 Hnd) as (bs & HC).
  destruct (dirlookup_ok p pid pr start sb fs1 V B i bs d name' HC HS HB pm) as (pm1 & fs2 & O1 & T2 & P2 & Hlk).
  destruct (d !! dname name') as [n|] eqn:Ed.
  - assert (i < length r0)%nat as Hir.
    { destruct Hi1 as (ip & Hip & _). apply lookup_lt_Some in Hip. pose proof (fo_refs _ _ _ F1) as E.
      apply (f_equal length) in E. unfold refs, bump in E. rewrite length_fmap, length_alter in E. lia. }
    destruct Hlk as (j & k & t' & _ & _ & _ & Hg & R2).
    { apply nfree_room. rewrite (fo_refs _ _ _ F1). pose proof (nfree_bump i r0). fold r0 in Hfree. lia. }
    destruct (HT _ _ Hnd) as (_ & _ & _ & _ & _ & Hclosed). pose proof (Hclosed _ _ Ed) as Hn0.
    destruct (get_step (Some i) (bump 1 i r0) fs1 fs2 n j t' F1 (covers_bump i) Hn0) as [F3 Hj3]; try done.
    { intros x Hx. pose proof (bump_bound i r0 _ Hsmall x Hx). lia. }
    rewrite bump_comm in F3. assert (slot_is t' i inum) as Hi3.
    { destruct Hi1 as (ip & Hip & Hc). destruct (got_ok ROOTDEV n _ _ _ (fo_table _ _ _ F1) Hg) as (_ & (y & Hy & Hcy) & _ & Hoth).
      - intros y Hy. assert (i_ref y ∈ bump 1 i r0) as Hin.
        { rewrite <- (fo_refs _ _ _ F1). apply (list_elem_of_lookup_2 _ j). by rewrite refs_lookup, Hy. }
        pose proof (bump_bound i r0 _ Hsmall _ Hin). lia.
      - destruct (decide (i = j)) as [<-|Hne]; [|exists ip; by rewrite Hoth].
        destruct Hg as (z & Hz & [[Hcz ->]|(Hno & Hz0 & ->)]); assert (z = ip) as -> by congruence.
        + exists (add_ref 1 ip). split; [apply list_lookup_insert_eq; by eapply lookup_lt_Some|].
          destruct Hc as (?&?&?). split; [cbn; lia|done].
        + destruct Hc as (?&_). lia. }
    destruct (unlockput_step (bump 1 j r0) (set_fs_itable t' fs2) i inum F3 (covers_bump j) Hi3) as (fs4 & R4 & F4 & K1 & K2).
    assert (slot_is (fs_itable fs4) j n) as Hj4.
    { destruct (decide (j = i)) as [->|Hne]; [|by apply K1].
      destruct (lookup_lt_is_Some_2 r0 i Hir) as [x Hx]. apply (K2 (1 + x) n); [|pose proof (Hsmall x (list_elem_of_lookup_2 _ _ _ Hx)); lia|done].
      unfold bump. by rewrite list_lookup_alter_eq, Hx. }
    destruct (IH rest name' j n fs4 pm1 Hr Hn' ltac:(lia) F4 Hj4) as (o & nm & pm2 & fs5 & R5 & O5 & W5).
    exists o, nm, pm2, fs5. split_and!; [|by eapply de_only_trans|].
    + apply Hrun. eapply fsp_bind; [exact R2|]. cbv iota beta. eapply fsp_bind; [apply fsp_fsr; exact R4|exact R5].
    + unfold walked in W5. destruct (resolve parent T n (names rest)) as [m|] eqn:Eres; [|done].
      destruct W5 as (i' & -> & F5 & S5 & L5). exists i'. split_and!; try done. intros Hpar. specialize (L5 Hpar).
      destruct (names rest) as [|c cs]; [done|]. exact L5.
  - destruct Hlk as [It2 R2].
    assert (fs_ok (Some i) (bump 1 i r0) fs2) as F2.
    { pose proof F1 as [G1 G2 G3 G4 G5 G6 G7]. split; rewrite ?It2; try done; [by rewrite (tk_sb _ _ P2)|].
      intros j. rewrite (tk_isl _ _ P2). apply G5. }
    rewrite <- It2 in Hi1. destruct (unlockput_step r0 fs2 i inum F2 covers_base Hi1) as (fs3 & R3 & F3 & _).
    exists None, name', pm1, fs3. split_and!; [|done|done|done].
    apply Hrun. eapply fsp_bind; [exact R2|]. cbv iota. eapply fsp_bind; [apply fsp_fsr; exact R3|apply fsp_ret].
Qed.

(** The inode where a path starts. *)
Definition starts (path : list Z) (inum : Z) : Prop :=
  if hd 0 path =? SLASH then inum = ROOTINO /\ is_Some (T !! ROOTINO)
  else exists c, p_cwd pr = Some c /\ slot_is t0 c inum.

Lemma fsp_proc {A} (m : proc -> K A) pm fs a pm' fs' : fsp p pid pr (m pr) pm fs a pm' fs' ->
  fsp p pid pr (q ← curproc; x ← get_proc q; m x) pm fs a pm' fs'.
Proof.
  intros R. eapply fsp_bind; [apply fsp_fsr, fsr_curproc|]. eapply (fsp_bind _ _ _ (get_proc p) _ _ _ pr); [|exact R].
  apply fsp_get. by intros.
Qed.

Lemma start_step fs path inum pm : fs_itable fs = t0 -> fs_ok None r0 fs -> starts path inum ->
  exists i fs', fsp p pid pr (if hd 0 path =? SLASH then iget ROOTDEV ROOTINO
      else p ← curproc; pr ← get_proc p; match p_cwd pr with Some i => idup i | None => panic "kerneltrap" end) pm fs i pm fs' /\
    fs_ok None (bump 1 i r0) fs' /\ slot_is (fs_itable fs') i inum.
Proof.
  intros Et HF Hs. assert (forall x, x ∈ r0 -> x < 2 ^ 31 - 2) as Hsm by (intros x Hx; pose proof (Hsmall x Hx); lia).
  pose proof (fo_txn _ _ _ HF) as Tx. unfold starts in Hs. destruct (hd 0 path =? SLASH).
  - destruct Hs as [-> HR]. destruct (iget_ok p pid ROOTDEV ROOTINO fs) as (i & t' & R & Hg);
      [apply HF|rewrite Et; apply nfree_room; lia|].
    exists i, (set_fs_itable t' fs). split; [apply fsp_fsr; exact R|].
    by apply (get_step None r0 fs fs ROOTINO i t' HF covers_base HR Hsm Tx (tx_keep_refl fs)).
  - destruct Hs as (c & Hc & ip & Hi & Hcc). assert (is_Some (T !! inum)) as HI.
    { rewrite <- Et in Hi. destruct Hcc as (Hr & _ & <-). by apply (fo_slot _ _ _ HF c ip). }
    assert (got (fs_itable fs) ROOTDEV inum c (<[c := add_ref 1 ip]> t0)) as Hg.
    { rewrite Et. exists ip. split; [done|]. by left. }
    destruct (get_step None r0 fs fs inum c _ HF covers_base HI Hsm Tx (tx_keep_refl fs) Hg) as [F S].
    exists c, (set_fs_itable (<[c := add_ref 1 ip]> t0) fs). split; [|done].
    apply fsp_proc. rewrite Hc. apply fsp_fsr. unfold idup. eapply fsr_bind; [apply fsr_acquire, not_elem_of_nil|].
    eapply fsr_bind; [apply fsr_mod_inode|]. eapply fsr_bind; [apply fsr_release; set_solver|]. eapply fsr_eq; [apply fsr_ret|].
    unfold upd_inode. rewrite Et. f_equal. rewrite list_insert_alter. apply list_alter_ext; [|done]. intros x Hx.
    assert (x = ip) as -> by congruence. unfold add_ref. pose proof (fo_table _ _ _ HF) as [G _]. rewrite Et in G.
    pose proof (G c ip Hi). by rewrite i32_small by lia.
Qed.

Lemma namex_ok fs path name parent inum pm : fs_itable fs = t0 -> fs_ok None r0 fs -> starts path inum ->
  Forall (fun c => c <> 0) path -> length name = Z.to_nat DIRSIZ ->
  exists o name' pm' fs', fsp p pid pr (namex path parent name) pm fs (o, name') pm' fs' /\
    de_only (de_loc pr) pm pm' /\ walked parent inum (names path) o name' fs'.
Proof.
  intros Et HF Hs Hp Hn. destruct (start_step fs path inum pm Et HF Hs) as (i & fs1 & R1 & F1 & Hi1).
  destruct (namex_loop_ok parent (length path) path name i inum fs1 pm Hp Hn (le_n _) F1 Hi1) as (o & nm & pm' & fs' & R & H).
  exists o, nm, pm', fs'. split; [|exact H]. unfold namex. eapply fsp_bind; [exact R1|exact R].
Qed.
End walk.

(** ** Theorem *)

(** C23: following a path.  On a disk whose inodes form the directory tree
    [T], [namei] (with [parent] false) and [nameiparent] return the inode
    that the components of the path, cut at 14 bytes, lead to from the root
    or the current directory, or fail when a component is missing or
    something on the way is not a directory; [nameiparent] stops one
    component earlier and leaves that component in the buffer.  All locks
    are released, and the references taken on the way are given back: the
    counts of the inode table are as before, but for one more reference to
    the inode that is returned. *)
Theorem namex_correct (D : Disk) p pid pr start sb V B (T : tree) fs path name parent inum pm : DiskOk D ->
  let t0 := fs_itable fs in
  tree_ok V sb T -> (length B < NBUF)%nat -> stack_ok pr ->
  (forall x, x ∈ refs t0 -> 0 <= x < 2 ^ 31 - 4) -> (2 <= nfree (refs t0))%nat ->
  fs_ok pid start sb V B T t0 None (refs t0) fs -> starts pr T t0 path inum ->
  Forall (fun c => c <> 0) path -> length name = Z.to_nat DIRSIZ ->
  exists o name' pm' fs', fsp p pid pr (namex path parent name) pm fs (o, name') pm' fs' /\
    de_only (de_loc pr) pm pm' /\
    match resolve parent T inum (names path) with
    | Some n => exists i, o = Some i /\ fs_ok pid start sb V B T t0 None (bump 1 i (refs t0)) fs' /\
        slot_is (fs_itable fs') i n /\ (parent = true -> last (names path) = Some (dname name'))
    | None => o = None /\ fs_ok pid start sb V B T t0 None (refs t0) fs'
    end.
Proof. intros HD t0 HT HB HS Hsm Hfr HF Hs Hp Hn. by apply (namex_ok p pid pr start sb V B T t0). Qed.

(** ** Witness *)

(** The example directory, inode 16, with the file "a", inode 18: both inodes
    are in block 1. *)
Definition file_18 : dinode := Dinode 2 0 0 1 0 (replicate 13 0).
Definition inodes_example (l : list Z) : list Z :=
  put_dinode file_18 (dinode_off 18) (put_dinode (dinode_of dir_example) (dinode_off 16) l).
Definition tree_example : tree := {[ 16 := NDir {[ [97] := 18 ]}; 18 := NFile ]}.
Definition proc_example : proc := set_p_cwd (Some 0%nat) stack_example.

Lemma file_18_node : d_type file_18 <> 0 /\ d_nlink file_18 <> 0 /\ d_type file_18 <> T_DIR.
Proof. done. Qed.
Lemma inodes_example_get : get_dinode (inodes_example zero_block) (dinode_off 16) = dinode_of dir_example /\
  get_dinode (inodes_example zero_block) (dinode_off 18) = file_18 /\ length (inodes_example zero_block) = Z.to_nat BSIZE.
Proof. split_and!; vm_compute; reflexivity. Qed.

Lemma example_tree : exists fs V, let t0 := fs_itable fs in
  tree_ok V sb_example tree_example /\ t0 = [dir_example; inode_zero; inode_zero] /\
  fs_ok 1 0 sb_example V [45; 3; 1] tree_example t0 None (refs t0) fs.
Proof.
  destruct example_dir as (fs0 & V0 & HC & Et & HW & HH & Hz).
  assert (inode_at fs0 0 = dir_example) as Ei by (unfold inode_at; by rewrite Et).
  pose proof HC as [T0 Esb HI HF HD _ _ _]. rewrite Ei in HI, HF.
  set (fs1 := set_fs_itable [dir_example; inode_zero; inode_zero] fs0).
  destruct (tx_update (D := sync_disk) 0 1 0 fs1 V0 [45; 3] 1 inodes_example (txn_itable _ _ _ _ _ _ _ T0))
    as (_ & _ & _ & _ & fs2 & _ & _ & _ & _ & _ & T2 & P & It); [simpl; lia|].
  rewrite Hz in T2 by done. set (V := dset V0 1 (inodes_example zero_block)) in T2.
  set (fs := set_fs_sl (fun s => match s with SL_inode _ => SleepLock 0 0 | SL_buf _ => fs_sl fs2 s end) fs2).
  assert (txn 1 0 fs V [45; 3; 1] ∅) as T3 by (destruct T2 as [(L & I) ? ? ? ?]; split; try done; exists L; by destruct I).
  destruct inodes_example_get as (G1 & G2 & Gl).
  assert (disk_inode V sb_example 16 = dinode_of dir_example) as E16.
  { unfold disk_inode. change (IBLOCK 16 sb_example) with 1. unfold V. by rewrite dset_eq. }
  assert (disk_inode V sb_example 18 = file_18) as E18.
  { unfold disk_inode. change (IBLOCK 18 sb_example) with 1. unfold V. by rewrite dset_eq. }
  assert (no_bitmap sb_example 1) as Hnb by (intros b Hb; by rewrite example_BBLOCK).
  assert (~ owns V0 dir_example 1) as Hno by (intros E; by apply (example_owns V0) in E).
  assert (inode_wf V sb_example dir_example) as HIV by (by apply put_inode_wf).
  assert (file_is V dir_example dir_bytes) as HFV by (by apply put_file_is).
  assert (fs_itable fs = [dir_example; inode_zero; inode_zero]) as Eft by exact It.
  assert (fs_sb fs = sb_example) as Esf by (transitivity (fs_sb fs1); [exact (tk_sb _ _ P)|exact Esb]).
  assert (forall i, fs_sl fs (SL_inode i) = SleepLock 0 0) as Esl by done.
  clear HW HH Hz HC T0 HI HF G1 G2 Gl Hnb Hno P It T2. clearbody V fs.
  exists fs, V. cbv zeta. rewrite Eft. split_and!; [|done|].
  - intros inum nd H. unfold tree_example in H. apply lookup_insert_Some in H as [[<- <-]|[_ H]].
    + unfold node_ok, inode_of. rewrite E16. split; [done|]. split; [done|]. split; [done|]. split_and!.
      * apply (inode_wf_addrs _ _ dir_example); [done|exact HIV].
      * exists dir_bytes. split; [|exact dir_bytes_is]. apply (file_is_addrs _ dir_example); [done|done|exact HFV].
      * intros name n [<- <-]%lookup_singleton_Some. by eexists.
    + apply lookup_singleton_Some in H as [<- <-]. unfold node_ok. rewrite E18. exact file_18_node.
  - split; rewrite ?Eft.
    + exact T3.
    + exact Esf.
    + split.
      * intros [|[|[|j]]] ip; [intros [= <-]; simpl; lia..|done].
      * intros [|[|[|i]]] [|[|[|j]]] x y dv n Hx Hy (Hx1 & _) (Hy1 & _); try done; simpl in Hx, Hy; simplify_eq; simpl in *; lia.
    + intros [|[|[|j]]] ip; [|intros [= <-]; simpl; lia..|done].
      intros [= <-] _. split; [done|]. split; [by eexists|]. intros _. change (i_inum dir_example) with 16. by rewrite E16.
    + intros i. rewrite decide_False by done. by rewrite Esl.
    + done.
    + apply keeps_refl.
Qed.

(** The relative path "a//" leads from inode 16 to inode 18. *)
Lemma namex_correct_witness : exists fs pm i name' pm' fs',
  fsp 0 1 proc_example (namex (D := sync_disk) [97; 47; 47] false name_zero) pm fs (Some i, name') pm' fs' /\
  slot_is (fs_itable fs') i 18.
Proof.
  destruct example_tree as (fs & V & HT & Et & HF).
  destruct (namex_correct sync_disk 0 1 proc_example 0 sb_example V [45; 3; 1] tree_example fs [97; 47; 47] name_zero false 16
    pm_example sync_disk_ok HT) as (o & name' & pm' & fs' & R & _ & H).
  - unfold NBUF. simpl. lia.
  - unfold stack_ok, de_loc. simpl. unfold PGSIZE. lia.
  - rewrite Et. intros x Hx. change (refs [dir_example; inode_zero; inode_zero]) with [1; 0; 0] in Hx. set_unfold in Hx. lia.
  - rewrite Et. vm_compute. lia.
  - exact HF.
  - exists 0%nat. split; [reflexivity|]. rewrite Et. exists dir_example. split; [reflexivity|]. split_and!; reflexivity.
  - repeat (apply Forall_cons; split; [lia|]). apply Forall_nil_2.
  - reflexivity.
  - change (names [97; 47; 47]) with [[97]] in H. 
    assert (resolve false tree_example 16 [[97]] = Some 18) as Er by (vm_compute; reflexivity). rewrite Er in H.
    destruct H as (i & -> & _ & S & _). exists fs, pm_example, i, name', pm', fs'. split; [exact R|exact S].
Defined.
