(* ===== verification/File.v ===== *)
(** * File: pipes and open files

    Models kernel/pipe.c and kernel/file.c.  A pipe lives in a page from
    kalloc and is kept in [k_pipes] under the page's address.  [devsw] is
    the table as [consoleinit] fills it. *)

From S2P Require Import Prelude.
From S2P Require Import State.
From S2P Require Import Kernel.
From S2P Require Import Sched.
From S2P Require Import Mem.
From S2P Require Import Kalloc.
From S2P Require Import Vm.
From S2P Require Import Console.
From S2P Require Import Bio.
From S2P Require Import Log.
From S2P Require Import Fs.

(** ** Access *)

Definition file_at (s : kst) (f : nat) : file := nth f (k_files s) file_zero.
Definition get_file (f : nat) : K file := kget (fun s => file_at s f).
Definition mod_file (f : nat) (g : file -> file) : K unit :=
  kmod (fun s => set_k_files (alter g f (k_files s)) s).
Definition pipe_zero : pipe := Pipe (replicate (Z.to_nat PIPESIZE) 0) 0 0 0 0.
Definition pipe_at (s : kst) (pi : Z) : pipe := default pipe_zero (k_pipes s !! pi).
Definition get_pipe (pi : Z) : K pipe := kget (fun s => pipe_at s pi).
Definition mod_pipe (pi : Z) (g : pipe -> pipe) : K unit :=
  kmod (fun s => set_k_pipes (<[pi := g (pipe_at s pi)]> (k_pipes s)) s).

(** ** pipe.c *)

Definition pipeclose (pi : Z) (writable : bool) : K unit :=
  acquire (L_pipe pi);;
  (if writable then mod_pipe pi (set_pi_writeopen 0);; wakeup (Ch_nread pi)
   else mod_pipe pi (set_pi_readopen 0);; wakeup (Ch_nwrite pi));;
  x ← get_pipe pi;
  if (pi_readopen x =? 0) && (pi_writeopen x =? 0) then
    release (L_pipe pi);;
    kmod (fun s => set_k_pipes (delete pi (k_pipes s)) s);;
    kfree pi
  else release (L_pipe pi).

(** Every iteration of the loop of [pipewrite] copies a byte or sleeps. *)
Fixpoint pipewrite_loop (fuel : nat) (pi : Z) (pr : nat) (addr i n : Z) : K Z :=
  if i <? n then
    match fuel with
    | O => hang
    | S f =>
      x ← get_pipe pi;
      stop ← (if pi_readopen x =? 0 then mret 1 else killed pr);
      if negb (stop =? 0) then release (L_pipe pi);; mret (-1) else
      if pi_nwrite x =? u32 (pi_nread x + PIPESIZE) then
        wakeup (Ch_nread pi);;
        sleep (Ch_nwrite pi) (L_pipe pi);;
        pipewrite_loop f pi pr addr i n
      else
        q ← get_proc pr;
        r ← copyin (p_pagetable q) (u64 (addr + i)) 1;
        if fst r =? -1 then
          wakeup (Ch_nread pi);; release (L_pipe pi);; mret i
        else
          mod_pipe pi (fun x => set_pi_nwrite (u32 (pi_nwrite x + 1))
            (set_pi_data (aset (pi_data x) (pi_nwrite x mod PIPESIZE) (hd 0 (snd r))) x));;
          pipewrite_loop f pi pr addr (i + 1) n
    end
  else wakeup (Ch_nread pi);; release (L_pipe pi);; mret i.
Definition pipewrite (pi addr n : Z) : K Z :=
  pr ← curproc;
  acquire (L_pipe pi);;
  with_fuel (fun e => pipewrite_loop (e + Z.to_nat n) pi pr addr 0 n).

Fixpoint piperead_wait (fuel : nat) (pi : Z) (pr : nat) : K bool :=
  x ← get_pipe pi;
  if (pi_nread x =? pi_nwrite x) && negb (pi_writeopen x =? 0) then
    kl ← killed pr;
    if negb (kl =? 0) then release (L_pipe pi);; mret false else
    match fuel with
    | O => hang
    | S f => sleep (Ch_nread pi) (L_pipe pi);; piperead_wait f pi pr
    end
  else mret true.
Fixpoint piperead_copy (k : nat) (pi : Z) (pr : nat) (addr i : Z) : K Z :=
  match k with
  | O => mret i
  | S k' =>
    x ← get_pipe pi;
    if pi_nread x =? pi_nwrite x then mret i else
    let ch := aget 0 (pi_data x) (pi_nread x mod PIPESIZE) in
    mod_pipe pi (fun x => set_pi_nread (u32 (pi_nread x + 1)) x);;
    q ← get_proc pr;
    r ← copyout (p_pagetable q) (u64 (addr + i)) [ch];
    if r =? -1 then mret i else piperead_copy k' pi pr addr (i + 1)
  end.
Definition piperead (pi addr n : Z) : K Z :=
  pr ← curproc;
  acquire (L_pipe pi);;
  ok ← with_fuel (fun e => piperead_wait e pi pr);
  if negb ok then mret (-1) else
  i ← piperead_copy (Z.to_nat n) pi pr addr 0;
  wakeup (Ch_nwrite pi);;
  release (L_pipe pi);;
  mret i.

(** ** file.c *)

Definition filealloc : K (option nat) :=
  acquire L_ftable;;
  r ← kfind (seq 0 NFILE) (fun f =>
    x ← get_file f;
    if f_ref x =? 0 then mod_file f (set_f_ref 1);; release L_ftable;; mret (Some f)
    else mret None);
  match r with
  | Some f => mret (Some f)
  | None => release L_ftable;; mret None
  end.

Definition filedup (f : nat) : K nat :=
  acquire L_ftable;;
  x ← get_file f;
  if f_ref x <? 1 then panic "filedup" else
  mod_file f (fun x => set_f_ref (i32 (f_ref x + 1)) x);;
  release L_ftable;;
  mret f.

Section files.
Context `{D : Disk}.

Definition fileclose (f : nat) : K unit :=
  acquire L_ftable;;
  x ← get_file f;
  if f_ref x <? 1 then panic "fileclose" else
  mod_file f (fun x => set_f_ref (i32 (f_ref x - 1)) x);;
  ff ← get_file f;
  if 0 <? f_ref ff then release L_ftable else
  mod_file f (fun x => set_f_type FD_NONE (set_f_ref 0 x));;
  release L_ftable;;
  match f_type ff with
  | FD_PIPE => pipeclose (f_pipe ff) (negb (f_writable ff =? 0))
  | FD_INODE | FD_DEVICE =>
    begin_op;;
    match f_ip ff with Some ip => iput ip | None => panic "kerneltrap" end;;
    end_op
  | FD_NONE => mret tt
  end.

(** [struct stat] in memory: 24 bytes, 4 of them padding that [stati] does
    not write; [pad] is what is on the stack there. *)
Fixpoint le_bytes (k : nat) (v : Z) : list Z :=
  match k with O => [] | S k' => v mod 256 :: le_bytes k' (v / 256) end.
Definition stat_bytes (st : stat) (pad : list Z) : list Z :=
  le_bytes 4 (st_dev st) ++ le_bytes 4 (st_ino st) ++ le_bytes 2 (st_type st) ++
  le_bytes 2 (st_nlink st) ++ take 4 pad ++ le_bytes 8 (st_size st).
Definition filestat (pad : list Z) (f : nat) (addr : Z) : K Z :=
  p ← curproc;
  x ← get_file f;
  match f_type x with
  | FD_INODE | FD_DEVICE =>
    ilock (f_ip x);;
    ip ← (match f_ip x with Some i => get_inode i | None => panic "kerneltrap" end);
    let st := stati ip in
    iunlock (f_ip x);;
    pr ← get_proc p;
    r ← copyout (p_pagetable pr) addr (stat_bytes st pad);
    if r <? 0 then mret (-1) else mret 0
  | _ => mret (-1)
  end.

(** [devsw[major].read] and [.write] after [consoleinit]. *)
Definition devsw_read (major : Z) : option (bool -> Z -> Z -> K Z) :=
  if major =? CONSOLE then Some consoleread else None.
Definition devsw_write (major : Z) : option (bool -> Z -> Z -> K Z) :=
  if major =? CONSOLE then Some consolewrite else None.

Definition fileread (f : nat) (addr n : Z) : K Z :=
  x ← get_file f;
  if f_readable x =? 0 then mret (-1) else
  match f_type x with
  | FD_PIPE => piperead (f_pipe x) addr n
  | FD_DEVICE =>
    if (f_major x <? 0) || (NDEV <=? f_major x) then mret (-1) else
    match devsw_read (f_major x) with
    | None => mret (-1)
    | Some read => read true addr n
    end
  | FD_INODE =>
    ilock (f_ip x);;
    match f_ip x with
    | None => panic "kerneltrap"
    | Some ip =>
      r ← readi ip true addr (f_off x) (u32 n);
      kwhen (0 <? r) (mod_file f (fun x => set_f_off (u32 (f_off x + r)) x));;
      iunlock (f_ip x);;
      mret r
    end
  | FD_NONE => panic "fileread"
  end.

(** Bytes written per transaction: 3 blocks. *)
Definition max_write : Z := (MAXOPBLOCKS - 1 - 1 - 2) / 2 * BSIZE.

(** The loop of [filewrite] returns [i]; every iteration that does not end
    it advances [i]. *)
Fixpoint filewrite_loop (fuel : nat) (f : nat) (addr i n : Z) : K Z :=
  if i <? n then
    match fuel with
    | O => hang
    | S fu =>
      let n1 := if max_write <? n - i then max_write else n - i in
      begin_op;;
      x ← get_file f;
      ilock (f_ip x);;
      match f_ip x with
      | None => panic "kerneltrap"
      | Some ip =>
        r ← writei ip true (u64 (addr + i)) (f_off x) n1;
        kwhen (0 <? r) (mod_file f (fun x => set_f_off (u32 (f_off x + r)) x));;
        iunlock (f_ip x);;
        end_op;;
        if negb (r =? n1) then mret i else filewrite_loop fu f addr (i + r) n
      end
    end
  else mret i.
Definition filewrite (f : nat) (addr n : Z) : K Z :=
  x ← get_file f;
  if f_writable x =? 0 then mret (-1) else
  match f_type x with
  | FD_PIPE => pipewrite (f_pipe x) addr n
  | FD_DEVICE =>
    if (f_major x <? 0) || (NDEV <=? f_major x) then mret (-1) else
    match devsw_write (f_major x) with
    | None => mret (-1)
    | Some write => write true addr n
    end
  | FD_INODE =>
    i ← filewrite_loop (Z.to_nat n) f addr 0 n;
    mret (if i =? n then n else -1)
  | FD_NONE => panic "filewrite"
  end.

(** pipe.c: [None] is the return value -1. *)
Definition pipealloc : K (option (nat * nat)) :=
  f0 ← filealloc;
  match f0 with
  | None => mret None
  | Some f0 =>
    f1 ← filealloc;
    match f1 with
    | None => fileclose f0;; mret None
    | Some f1 =>
      pi ← kalloc;
      if pi =? 0 then fileclose f0;; fileclose f1;; mret None else
      m ← kget (fun s => pm_mem (k_pm s));
      kmod (fun s => set_k_pipes
        (<[pi := Pipe (bytes m (pi + 24) (Z.to_nat PIPESIZE)) 0 0 1 1]> (k_pipes s)) s);;
      mod_file f0 (fun x => set_f_pipe pi (set_f_writable 0 (set_f_readable 1 (set_f_type FD_PIPE x))));;
      mod_file f1 (fun x => set_f_pipe pi (set_f_writable 1 (set_f_readable 0 (set_f_type FD_PIPE x))));;
      mret (Some (f0, f1))
    end
  end.
End files.
