(* ===== verification/PipeProps.v ===== *)
(** * PipeProps: pipes are bounded byte queues

    Theorems about [pipewrite] and [piperead] (File, kernel/pipe.c).  The
    ring buffer of a pipe, with its free-running 32-bit counters, holds the
    queue [pipe_bytes].  A reader or writer may sleep; what the other end
    does meanwhile is an action of the environment, of which only the
    rely conditions [drains] and [fills] are assumed.  They bind the
    environment only in the states in which the code may go to sleep: a
    writer that finds the buffer full and the pipe open, a reader that finds
    it empty with a writer left, and with the other end woken. *)

From S2P Require Import Prelude.
From S2P Require Import Ring.
From S2P Require Import State.
From S2P Require Import Kernel.
From S2P Require Import Mlfq.
From S2P Require Import Sched.
From S2P Require Import SchedInv.
From S2P Require Import SchedProps.
From S2P Require Import Mem.
From S2P Require Import Kalloc.
From S2P Require Import Vm.
From S2P Require Import VmProps.
From S2P Require Import File.

#[local] Opaque setupQueue enqueue removeFromQueue queue_choice.

(** ** The queue in the ring buffer *)

Definition pipe_len (x : pipe) : Z := u32 (pi_nwrite x - pi_nread x).
Definition pipe_bytes (x : pipe) : list Z :=
  ring PIPESIZE (pi_data x) (pi_nread x) (Z.to_nat (pipe_len x)).
Record pipe_ok (x : pipe) : Prop := {
  po_data : length (pi_data x) = Z.to_nat PIPESIZE;
  po_bytes : Forall (fun b => 0 <= b < 256) (pi_data x);
  po_nread : 0 <= pi_nread x < 2 ^ 32;
  po_nwrite : 0 <= pi_nwrite x < 2 ^ 32;
  po_len : pipe_len x <= PIPESIZE
}.

(** The updates of [pipewrite] and [piperead] for one byte. *)
Definition push_byte (b : Z) (x : pipe) : pipe :=
  set_pi_nwrite (u32 (pi_nwrite x + 1)) (set_pi_data (aset (pi_data x) (pi_nwrite x mod PIPESIZE) b) x).
Definition pop_byte (x : pipe) : pipe := set_pi_nread (u32 (pi_nread x + 1)) x.

Lemma length_pipe_bytes x : length (pipe_bytes x) = Z.to_nat (pipe_len x).
Proof. apply length_ring. Qed.

(** The tests of the code for a full and an empty buffer. *)
Lemma pipe_full x : pipe_ok x -> (pi_nwrite x =? u32 (pi_nread x + PIPESIZE)) = (pipe_len x =? PIPESIZE).
Proof.
  intros [_ _ Hr Hw _]. unfold pipe_len, u32, PIPESIZE in *. change (2 ^ 32) with 4294967296 in *.
  destruct (Z.eqb_spec (pi_nwrite x) ((pi_nread x + 512) mod 4294967296));
    destruct (Z.eqb_spec ((pi_nwrite x - pi_nread x) mod 4294967296) 512); zlia.
Qed.
Lemma pipe_empty x : pipe_ok x -> (pi_nread x =? pi_nwrite x) = (pipe_len x =? 0).
Proof.
  intros [_ _ Hr Hw _]. unfold pipe_len, u32 in *. change (2 ^ 32) with 4294967296 in *.
  destruct (Z.eqb_spec (pi_nread x) (pi_nwrite x));
    destruct (Z.eqb_spec ((pi_nwrite x - pi_nread x) mod 4294967296) 0); zlia.
Qed.

Lemma push_len x b : pipe_ok x -> pipe_len x < PIPESIZE -> pipe_len (push_byte b x) = pipe_len x + 1.
Proof.
  intros [_ _ Hr Hw _] Hl. unfold pipe_len, push_byte, u32, PIPESIZE in *. cbn [pi_nwrite pi_nread set_pi_nwrite set_pi_data].
  change (2 ^ 32) with 4294967296 in *. zlia.
Qed.
Lemma pop_len x : pipe_ok x -> 0 < pipe_len x -> pipe_len (pop_byte x) = pipe_len x - 1.
Proof.
  intros [_ _ Hr Hw _] Hl. unfold pipe_len, pop_byte, u32 in *. cbn [pi_nwrite pi_nread set_pi_nread].
  change (2 ^ 32) with 4294967296 in *. zlia.
Qed.

Lemma pipe_divides : (PIPESIZE | 2 ^ 32).
Proof. by apply Z.mod_divide. Qed.

(** The slot written next follows the last byte of the queue. *)
Lemma slot_next x : (pi_nread x + pipe_len x) mod PIPESIZE = pi_nwrite x mod PIPESIZE.
Proof.
  unfold pipe_len, u32. rewrite Z.add_comm, (slot_wrap_add PIPESIZE (2 ^ 32)) by (done || apply pipe_divides).
  f_equal. lia.
Qed.

Lemma push_byte_ok x b : pipe_ok x -> pipe_len x < PIPESIZE -> 0 <= b < 256 ->
  pipe_ok (push_byte b x) /\ pipe_bytes (push_byte b x) = pipe_bytes x ++ [b].
Proof.
  intros H Hl Hb. pose proof (push_len x b H Hl) as El. destruct H as [Hd Hbs Hr Hw Hle].
  assert (0 <= pipe_len x) as H0 by (apply u32_range). split.
  - split; [| |done|apply u32_range|lia]; cbn [push_byte set_pi_nwrite set_pi_data pi_data].
    + by rewrite length_aset.
    + by apply Forall_insert.
  - unfold pipe_bytes. rewrite El. replace (Z.to_nat (pipe_len x + 1)) with (S (Z.to_nat (pipe_len x))) by lia.
    cbn [push_byte set_pi_nwrite set_pi_data pi_data pi_nread]. rewrite <- slot_next.
    rewrite <- (Z2Nat.id (pipe_len x)) at 1 by done. apply ring_aset; [done|lia|done].
Qed.

Lemma pop_byte_ok x : pipe_ok x -> 0 < pipe_len x -> pipe_ok (pop_byte x) /\
  pipe_bytes x = aget 0 (pi_data x) (pi_nread x mod PIPESIZE) :: pipe_bytes (pop_byte x).
Proof.
  intros H Hl. pose proof (pop_len x H Hl) as El. destruct H as [Hd Hbs Hr Hw Hle]. split.
  - split; [done|done|apply u32_range|done|lia].
  - unfold pipe_bytes. rewrite El. replace (Z.to_nat (pipe_len x)) with (S (Z.to_nat (pipe_len x - 1))) by lia.
    rewrite ring_cons. cbn [pop_byte set_pi_nread pi_data pi_nread]. f_equal. unfold u32.
    by rewrite (ring_wrap PIPESIZE (2 ^ 32)) by (done || apply pipe_divides).
Qed.

(** ** Sleeping *)

(** The state in which a process sleeps on [c], and in which it returns
    from [sleep] with the lock [lk] again. *)
Definition asleep (p : nat) (c : chan) (s : kst) : kst :=
  set_k_held [L_proc p]
    (set_k_ps (upd_proc p (set_p_state SLEEPING) (upd_proc p (set_p_chan (Some c)) (k_ps s))) s).
Definition awake (p : nat) (lk : lockid) (s : kst) : kst :=
  set_k_held [lk] (set_k_ps (upd_proc p (set_p_chan None) (k_ps (resume p s))) (resume p s)).

Lemma sleep_eq c lk w p : k_cur (w_k w) = Some p -> k_held (w_k w) = [lk] -> lk <> L_proc p ->
  (p < NPROC)%nat -> length (ps_proc (k_ps (w_k w))) = NPROC ->
  sleep c lk w = switched w (asleep p c (w_k w)) (awake p lk).
Proof.
  intros Hc Hh Hlk Hp Hl. unfold sleep.
  rewrite (bind_ret _ _ _ _ _ (curproc_ok _ _ Hc)).
  rewrite (bind_ret (acquire (L_proc p)) _ _ _ _ (acquire_ok (L_proc p) w ltac:(rewrite Hh; set_solver))).
  rewrite Hh. set (w1 := with_k w _). set (w2 := with_k w (set_k_held [L_proc p] (w_k w))).
  assert (release lk w1 = Ret tt w2) as Er.
  { unfold release, mbind, K_bind, kget. simpl. rewrite bool_decide_eq_true_2 by set_solver. unfold kmod. simpl.
    rewrite filter_cons_True by done. rewrite filter_cons_False by naive_solver.
    rewrite filter_nil. by destruct w as [? []]. }
  rewrite (bind_ret _ _ _ _ _ Er). set (w3 := with_k w (asleep p c (w_k w))).
  set (ps1 := upd_proc p (set_p_chan (Some c)) (k_ps (w_k w))).
  rewrite (bind_ret (mod_proc p _) _ w2 tt (with_k w2 (set_k_ps ps1 (w_k w2)))) by done.
  rewrite (bind_ret (mod_proc p _) _ _ tt w3) by (by destruct w as [? []]).
  assert (sched w3 = swtch_out p w3) as Hsched.
  { apply sched_ok; [done|done|]. unfold w3, asleep. cbn [w_k with_k k_ps set_k_held set_k_ps].
    rewrite proc_at_upd, decide_True by (done || (cbn; rewrite length_insert; done)). done. }
  unfold mbind at 1, K_bind at 1. rewrite Hsched. unfold swtch_out, switched. cbn [w_env with_k w3].
  destruct (w_env w) as [|e env] eqn:Ee; [unfold w3, with_k; by rewrite Ee|].
  unfold mod_proc, mod_ps, kmod, mbind, K_bind. cbn.
  rewrite (release_ok (L_proc p) _ []) by (done || set_solver).
  rewrite acquire_ok by (simpl; set_solver). done.
Qed.

Lemma killed_ok p w : L_proc p ∉ k_held (w_k w) -> killed p w = Ret (p_killed (proc_at (k_ps (w_k w)) p)) w.
Proof.
  intros H. unfold killed. rewrite (bind_ret _ _ _ _ _ (acquire_ok _ _ H)).
  set (w1 := with_k w _). unfold get_proc. kstep.
  rewrite (bind_ret _ _ w1 _ _ (release_ok (L_proc p) w1 (k_held (w_k w)) eq_refl H)).
  by destruct w as [? []].
Qed.

(** Copying one byte. *)
Lemma copyin_byte pt F T w va : vm_inv (k_pm (w_k w)) F pt T -> user_range (k_pm (w_k w)) F T va 1 ->
  copyin pt va 1 w = Ret (0, [pm_mem (k_pm (w_k w)) (phys (k_pm (w_k w)) T va)]) w.
Proof.
  intros H Hu. unfold copyin. rewrite (copyin_loop_ok pt F T w H) by (done || lia).
  unfold user_bytes. change (Z.to_nat 1) with 1%nat. cbn [seq fmap list_fmap]. change (Z.of_nat 0) with 0.
  by rewrite Z.add_0_r.
Qed.

(** ** The caller of a pipe operation *)

Section ctx.
Context (pi : Z) (pr : nat) (addr n : Z) (U : list Z -> Prop).

(** The caller runs in a consistent process table; the [n] bytes at [addr]
    are mapped in its memory and satisfy [U]. *)
Record pipe_ctx (s : kst) : Prop := {
  pc_cur : k_cur s = Some pr;
  pc_lt : (pr < NPROC)%nat;
  pc_run : p_state (proc_at (k_ps s) pr) = RUNNING;
  pc_sched : exists Q, sched_inv (k_ps s) Q;
  pc_user : exists F T, vm_inv (k_pm s) F (p_pagetable (proc_at (k_ps s) pr)) T /\
    user_range (k_pm s) F T addr n /\ U (user_bytes (k_pm s) T addr (Z.to_nat n));
  pc_pipe : pipe_ok (pipe_at s pi)
}.

Definition queue_of (w : world) : list Z := pipe_bytes (pipe_at (w_k w) pi).

(** No process but [pr] sleeps on [c]. *)
Definition all_woken (c : chan) (s : kst) : Prop := forall i, (i < NPROC)%nat -> i <> pr ->
  ~ (p_state (proc_at (k_ps s) i) = SLEEPING /\ p_chan (proc_at (k_ps s) i) = Some c).

Lemma wakeup_ctx c w : pipe_ctx (w_k w) -> k_held (w_k w) = [L_pipe pi] -> exists ps' thr,
  wakeup c w = Ret tt (with_k w (put_ps ps' thr (w_k w))) /\ pipe_ctx (put_ps ps' thr (w_k w)) /\
  proc_at ps' pr = proc_at (k_ps (w_k w)) pr /\ all_woken c (put_ps ps' thr (w_k w)).
Proof.
  intros H Hh. destruct (pc_sched _ H) as [Q HQ].
  destruct (wakeup_loop c (seq 0 NPROC) w Q) as (ps' & thr & E & HQ' & Hp); [apply NoDup_seq| | |done|].
  { intros i Hi%elem_of_seq. lia. }
  { rewrite Hh. split; [|intros i]; intros ?%list_elem_of_singleton; done. }
  exists ps', thr. split; [exact E|]. destruct H as [Hc Hlt Hrn _ (F & T & Hv & Hu & Hb) Hok].
  assert (proc_at ps' pr = proc_at (k_ps (w_k w)) pr) as Ep.
  { rewrite Hp by done. rewrite decide_False; [done|]. intros [[Hne _] _]%list_elem_of_filter. by apply Hne. }
  split; [|split; [done|]].
  - split; cbn [put_ps k_ps set_k_ps]; rewrite ?Ep; [done|done|done|by eexists| |done]. by exists F, T.
  - intros i Hi Hne [Hsl Hch]. cbn [put_ps k_ps set_k_ps] in Hsl, Hch. rewrite Hp in Hsl, Hch by done.
    destruct (decide (i ∈ _)) as [Hin|Hnin]; [by cbn in Hsl|]. apply Hnin, list_elem_of_filter. split; [|apply elem_of_seq; lia].
    split_and!; [congruence|done|done].
Qed.

Lemma held_ctx ls s : pipe_ctx s -> pipe_ctx (set_k_held ls s).
Proof. intros []. split; done. Qed.

Lemma enter_ctx w : pipe_ctx (w_k w) -> k_held (w_k w) = [] ->
  acquire (L_pipe pi) w = Ret tt (with_k w (set_k_held [L_pipe pi] (w_k w))).
Proof. intros H Hh. rewrite acquire_ok by (rewrite Hh; apply not_elem_of_nil). by rewrite Hh. Qed.

(** The end of the call: wake the other end and release the lock. *)
Lemma leave_ctx c x w : pipe_ctx (w_k w) -> k_held (w_k w) = [L_pipe pi] -> exists ps' thr,
  let w' := with_k w (set_k_held [] (put_ps ps' thr (w_k w))) in
  (wakeup c;; release (L_pipe pi);; mret x : K Z) w = Ret x w' /\ pipe_ctx (w_k w') /\
  proc_at ps' pr = proc_at (k_ps (w_k w)) pr /\ all_woken c (w_k w').
Proof.
  intros H Hh. destruct (wakeup_ctx c w H Hh) as (ps' & thr & E & H' & Ept & Hw). exists ps', thr. intros w'.
  rewrite (bind_ret _ _ _ _ _ E).
  rewrite (bind_ret _ _ _ _ _ (release_ok (L_pipe pi) (with_k w (put_ps ps' thr (w_k w))) [] Hh (not_elem_of_nil _))).
  split; [done|]. split; [by apply held_ctx|]. by split.
Qed.

Lemma mod_pipe_ctx g w : pipe_ctx (w_k w) -> pipe_ok (g (pipe_at (w_k w) pi)) ->
  let w' := with_k w (set_k_pipes (<[pi := g (pipe_at (w_k w) pi)]> (k_pipes (w_k w))) (w_k w)) in
  mod_pipe pi g w = Ret tt w' /\ pipe_ctx (w_k w') /\ pipe_at (w_k w') pi = g (pipe_at (w_k w) pi).
Proof.
  intros [Hc Hlt Hrn Hs Hu Hp] Hg w'. assert (pipe_at (w_k w') pi = g (pipe_at (w_k w) pi)) as Ep.
  { unfold pipe_at at 1. cbn [w' with_k w_k k_pipes set_k_pipes]. by rewrite lookup_insert_eq. }
  split; [done|]. split; [|done]. split; [done|done|done|done|done|]. by rewrite Ep.
Qed.

Lemma sleep_ctx c w : pipe_ctx (w_k w) -> k_held (w_k w) = [L_pipe pi] ->
  sleep c (L_pipe pi) w = switched w (asleep pr c (w_k w)) (awake pr (L_pipe pi)).
Proof.
  intros H Hh. destruct (pc_sched _ H) as [Q HQ].
  apply sleep_eq; [apply H|exact Hh|done|apply H|apply (si_nproc _ _ HQ)].
Qed.

Lemma asleep_proc c s : pipe_ctx s ->
  p_state (proc_at (k_ps (asleep pr c s)) pr) = SLEEPING /\ p_chan (proc_at (k_ps (asleep pr c s)) pr) = Some c.
Proof.
  intros H. destruct (pc_sched _ H) as [Q HQ]. pose proof (si_nproc _ _ HQ). pose proof (pc_lt _ H).
  unfold asleep. cbn [k_ps set_k_held set_k_ps].
  rewrite proc_at_upd, decide_True by (done || (cbn; rewrite length_insert; done)).
  rewrite proc_at_upd, decide_True by done. done.
Qed.

Lemma killed_ctx w : k_held (w_k w) = [L_pipe pi] ->
  killed pr w = Ret (p_killed (proc_at (k_ps (w_k w)) pr)) w.
Proof. intros Hh. apply killed_ok. rewrite Hh. by intros ?%list_elem_of_singleton. Qed.
End ctx.

(** ** Writing *)

Section writer.
Context (pi : Z) (pr : nat) (addr n : Z) (src : list Z).

(** The bytes to write are [src]. *)
Definition writer_ctx : kst -> Prop := pipe_ctx pi pr addr n (eq src).

Definition readopen (s : kst) : Z := pi_readopen (pipe_at s pi).
Definition is_killed (s : kst) : Z := p_killed (proc_at (k_ps s) pr).

(** A writer may sleep when the buffer is full, the read end is open, it is
    not killed, and all readers are awake. *)
Record may_sleep_w (s : kst) : Prop := {
  mw_ctx : writer_ctx s;
  mw_full : pipe_len (pipe_at s pi) = PIPESIZE;
  mw_open : readopen s <> 0;
  mw_killed : is_killed s = 0;
  mw_woken : all_woken pr (Ch_nread pi) s
}.

(** While it sleeps, others take exactly [k] bytes from the front of the
    queue, and may close the pipe. *)
Definition drains (k : nat) (f : kst -> kst) : Prop := forall s, may_sleep_w s ->
  let s' := awake pr (L_pipe pi) (f (asleep pr (Ch_nwrite pi) s)) in
  writer_ctx s' /\ (k <= length (pipe_bytes (pipe_at s pi)))%nat /\ pipe_bytes (pipe_at s' pi) = drop k (pipe_bytes (pipe_at s pi)).

Let queue_of := queue_of pi.

(** What a run of the loop from byte [i] with the queue [q] may end in: [ks]
    are the numbers of bytes that readers take whenever the writer sleeps;
    it slept [m] times and [taken] are the bytes they took. *)
Definition write_result (q : list Z) (i : Z) (ks : list nat) (env : list (kst -> kst)) (r : res Z) : Prop :=
  exists j m taken w', i <= j <= n /\ (m <= length ks)%nat /\ w_env w' = drop m env /\ length taken = sum_list (take m ks) /\
  taken ++ queue_of w' = q ++ take (Z.to_nat (j - i)) (drop (Z.to_nat i) src) /\
  (r = Ret n w' /\ j = n /\ k_held (w_k w') = [] /\ writer_ctx (w_k w') /\ all_woken pr (Ch_nread pi) (w_k w') /\
     (0 < n -> readopen (w_k w') <> 0 /\ is_killed (w_k w') = 0) \/
   r = Ret (-1) w' /\ j < n /\ k_held (w_k w') = [] /\ writer_ctx (w_k w') /\ (readopen (w_k w') = 0 \/ is_killed (w_k w') <> 0) \/
   r = Blocked w' /\ j < n /\ m = length ks /\ exists s, may_sleep_w s /\ w_k w' = asleep pr (Ch_nwrite pi) s).

Lemma src_cons i j b : src !! Z.to_nat i = Some b -> 0 <= i < j ->
  take (Z.to_nat (j - i)) (drop (Z.to_nat i) src) = b :: take (Z.to_nat (j - (i + 1))) (drop (Z.to_nat (i + 1)) src).
Proof.
  intros Hb Hi. rewrite (drop_S src b) by done. replace (Z.to_nat (j - i)) with (S (Z.to_nat (j - (i + 1)))) by lia.
  by replace (Z.to_nat (i + 1)) with (S (Z.to_nat i)) by lia.
Qed.

(** One byte of the source. *)
Lemma writer_byte w i : writer_ctx (w_k w) -> 0 <= i < n -> exists b,
  copyin (p_pagetable (proc_at (k_ps (w_k w)) pr)) (u64 (addr + i)) 1 w = Ret (0, [b]) w /\
  src !! Z.to_nat i = Some b /\ 0 <= b < 256.
Proof.
  intros H Hi. destruct (pc_user _ _ _ _ _ _ H) as (F & T & Hv & Hu & Hb).
  destruct (ur_va _ _ _ _ _ Hu) as [Ha Hm]. change MAXVA with 274877906944 in Hm.
  rewrite u64_small by (change (2 ^ 64) with 18446744073709551616; lia).
  eexists. rewrite (copyin_byte _ F T w (addr + i) Hv); [|by eapply user_range_sub; [exact Hu|lia..]].
  split; [done|]. rewrite Hb. unfold user_bytes. rewrite list_lookup_fmap, lookup_seq_lt by lia.
  cbn [fmap option_fmap option_map]. split; [do 3 f_equal; lia|]. apply (ai_bytes _ _ (vi_alloc _ _ _ _ Hv)).
Qed.

(** At the end of a write of at least one byte the pipe was found open. *)
Definition end_ok (s : kst) (i : Z) : Prop := i = n -> 0 < n -> readopen s <> 0 /\ is_killed s = 0.

Section iteration.
Context (fuel : nat).
Hypothesis IH : forall w i ks, writer_ctx (w_k w) -> k_held (w_k w) = [L_pipe pi] ->
  Forall2 drains ks (w_env w) -> 0 <= i <= n -> end_ok (w_k w) i -> (length (w_env w) + Z.to_nat (n - i) <= fuel)%nat ->
  write_result (queue_of w) i ks (w_env w) (pipewrite_loop fuel pi pr addr i n w).

(** The buffer is full: the writer wakes the readers and sleeps. *)
Lemma write_full w i ks : writer_ctx (w_k w) -> k_held (w_k w) = [L_pipe pi] ->
  Forall2 drains ks (w_env w) -> 0 <= i < n -> (length (w_env w) + Z.to_nat (n - i) <= S fuel)%nat ->
  pipe_len (pipe_at (w_k w) pi) = PIPESIZE -> readopen (w_k w) <> 0 -> is_killed (w_k w) = 0 ->
  write_result (queue_of w) i ks (w_env w)
    ((wakeup (Ch_nread pi);; sleep (Ch_nwrite pi) (L_pipe pi);; pipewrite_loop fuel pi pr addr i n) w).
Proof.
  intros H Hh Henv Hi Hf Hfull Ho Hk. destruct (wakeup_ctx _ _ _ _ _ (Ch_nread pi) w H Hh) as (ps' & thr & E & H' & Ep & Hw).
  rewrite (bind_ret _ _ _ _ _ E). set (s1 := put_ps ps' thr (w_k w)) in *.
  assert (may_sleep_w s1) as Hms by (split; [done|exact Hfull|exact Ho|unfold is_killed; change (k_ps s1) with ps'; by rewrite Ep|done]).
  pose proof (sleep_ctx _ _ _ _ _ (Ch_nwrite pi) (with_k w s1) H' Hh) as Es.
  unfold switched in Es. cbn [w_env with_k w_k] in Es. unfold mbind, K_bind. rewrite Es. clear Es E.
  destruct (w_env w) as [|f env] eqn:Ee.
  - apply Forall2_nil_inv_r in Henv as ->. exists i, O, [], (World [] (asleep pr (Ch_nwrite pi) s1)).
    rewrite Z.sub_diag, app_nil_r. split; [lia|]. split_and!; [done|done|done|done|]. right. right. split_and!; [done|lia|done|]. by exists s1.
  - apply Forall2_cons_inv_r in Henv as (k & ks' & Hd & Henv & ->). destruct (Hd s1 Hms) as (H2 & Hkl & Hq).
    cbn [length] in Hf. set (s2 := awake pr (L_pipe pi) (f (asleep pr (Ch_nwrite pi) s1))) in *.
    destruct (IH (World env s2) i ks' H2 eq_refl Henv) as (j & m & taken & w' & Hj & Hm & Hw' & Ht & Hq' & Hr); [lia|intros ?; lia|cbn; lia|].
    change (queue_of (World env s2)) with (pipe_bytes (pipe_at s2 pi)) in Hq'. rewrite Hq in Hq'.
    change (pipe_bytes (pipe_at s1 pi)) with (queue_of w) in *.
    exists j, (S m), (take k (queue_of w) ++ taken), w'. split; [done|]. split; [cbn; lia|]. split; [exact Hw'|]. split.
    { rewrite length_app, length_take, Ht. cbn. lia. }
    split; [by rewrite <- app_assoc, Hq', app_assoc, take_drop|].
    destruct Hr as [Hr|[Hr|(Hr & Hj' & Hm' & Hs)]]; [by left|right; by left|]. right. right. split_and!; [done|done|cbn; lia|done].
Qed.

(** There is room: one byte is copied. *)
Lemma write_room w i ks : writer_ctx (w_k w) -> k_held (w_k w) = [L_pipe pi] ->
  Forall2 drains ks (w_env w) -> 0 <= i < n -> (length (w_env w) + Z.to_nat (n - i) <= S fuel)%nat ->
  pipe_len (pipe_at (w_k w) pi) <> PIPESIZE -> readopen (w_k w) <> 0 -> is_killed (w_k w) = 0 ->
  write_result (queue_of w) i ks (w_env w)
    ((q ← get_proc pr;
      r ← copyin (p_pagetable q) (u64 (addr + i)) 1;
      if fst r =? -1 then
        wakeup (Ch_nread pi);; release (L_pipe pi);; mret i
      else
        mod_pipe pi (fun x => set_pi_nwrite (u32 (pi_nwrite x + 1))
          (set_pi_data (aset (pi_data x) (pi_nwrite x mod PIPESIZE) (hd 0 (snd r))) x));;
        pipewrite_loop fuel pi pr addr (i + 1) n) w).
Proof.
  intros H Hh Henv Hi Hf Hroom Ho Hk. unfold get_proc. kstep.
  destruct (writer_byte w i H Hi) as (b & E & Hb & Hbr). rewrite (bind_ret _ _ _ _ _ E). cbn [fst snd hd].
  change (0 =? -1) with false. cbv iota. pose proof (po_len _ (pc_pipe _ _ _ _ _ _ H)) as Hle.
  destruct (push_byte_ok (pipe_at (w_k w) pi) b (pc_pipe _ _ _ _ _ _ H)) as [Hok Hq]; [lia|done|].
  destruct (mod_pipe_ctx _ _ _ _ _ (push_byte b) w H Hok) as (E1 & H1 & Ep). unfold push_byte in E1 at 1.
  rewrite (bind_ret _ _ _ _ _ E1). set (w1 := with_k w _) in *.
  destruct (IH w1 (i + 1) ks H1 Hh Henv) as (j & m & taken & w' & Hj & Hm & Hw' & Ht & Hq' & Hr); [lia| |change (w_env w1) with (w_env w); lia|].
  { intros _ _. unfold readopen. rewrite Ep. by split. }
  assert (queue_of w1 = queue_of w ++ [b]) as Eq by (unfold queue_of, PipeProps.queue_of; by rewrite Ep).
  rewrite Eq in Hq'. exists j, m, taken, w'. split; [lia|]. split; [exact Hm|]. split; [exact Hw'|]. split; [exact Ht|]. split; [|exact Hr].
  rewrite (src_cons i j b Hb) by lia. rewrite <- app_assoc in Hq'. exact Hq'.
Qed.
End iteration.

(** The test at the head of the loop. *)
Lemma stop_test w : k_held (w_k w) = [L_pipe pi] -> exists st,
  (if pi_readopen (pipe_at (w_k w) pi) =? 0 then mret 1 else killed pr) w = Ret st w /\
  (st <> 0 <-> readopen (w_k w) = 0 \/ is_killed (w_k w) <> 0).
Proof.
  intros Hh. unfold readopen, is_killed. destruct (Z.eqb_spec (pi_readopen (pipe_at (w_k w) pi)) 0) as [E|E].
  - exists 1. split; [done|]. split; [by intros _; left|done].
  - eexists. split; [by apply (killed_ctx pi)|]. split; [intros ?; by right|]. by intros [|].
Qed.

Lemma pipewrite_loop_ok : forall fuel w i ks, writer_ctx (w_k w) -> k_held (w_k w) = [L_pipe pi] ->
  Forall2 drains ks (w_env w) -> 0 <= i <= n -> end_ok (w_k w) i -> (length (w_env w) + Z.to_nat (n - i) <= fuel)%nat ->
  write_result (queue_of w) i ks (w_env w) (pipewrite_loop fuel pi pr addr i n w).
Proof.
  induction fuel as [|fuel IH]; intros w i ks H Hh Henv Hi He Hf; cbn [pipewrite_loop];
    (destruct (Z.ltb_spec i n) as [Hlt|Hge]; [|
      assert (i = n) as -> by lia; destruct (leave_ctx _ _ _ _ _ (Ch_nread pi) n w H Hh) as (ps' & thr & -> & H' & Ep & Hw);
      exists n, O, [], (with_k w (set_k_held [] (put_ps ps' thr (w_k w)))); rewrite Z.sub_diag, app_nil_r; split; [lia|]; split_and!; [lia|by rewrite drop_0|done|done|];
      left; split_and!; [done|done|done|exact H'|exact Hw|]; intros Hn; destruct (He eq_refl Hn) as [Ho Hk]; split; [exact Ho|];
      unfold is_killed in *; cbn [w_k with_k k_ps set_k_held put_ps set_k_ps]; by rewrite Ep]).
  { lia. }
  unfold get_pipe. kstep. destruct (stop_test w Hh) as (st & Est & Hst). rewrite (bind_ret _ _ _ _ _ Est).
  destruct (Z.eqb_spec st 0) as [->|Hne]; cbn [negb].
  2:{ rewrite (bind_ret _ _ _ _ _ (release_ok (L_pipe pi) w [] Hh (not_elem_of_nil _))).
      exists i, O, [], (with_k w (set_k_held [] (w_k w))). rewrite Z.sub_diag, app_nil_r. split; [lia|]. split_and!; [lia|by rewrite drop_0|done|done|].
      right. left. split_and!; [done|lia|done|by apply held_ctx, H|by apply Hst]. }
  assert (readopen (w_k w) <> 0 /\ is_killed (w_k w) = 0) as [Ho Hk].
  { destruct (decide (readopen (w_k w) = 0)) as [E|E]; [destruct (proj2 Hst (or_introl E)); done|]. split; [done|].
    destruct (decide (is_killed (w_k w) = 0)) as [E'|E']; [done|]. by destruct (proj2 Hst (or_intror E')). }
  rewrite pipe_full by apply H. destruct (Z.eqb_spec (pipe_len (pipe_at (w_k w) pi)) PIPESIZE) as [Hfull|Hroom].
  - apply write_full; (done || lia).
  - apply write_room; (done || lia).
Qed.
End writer.

(** ** Reading *)

Section reader.
Context (pi : Z) (pr : nat) (addr n : Z).

Definition reader_ctx : kst -> Prop := pipe_ctx pi pr addr n (fun _ => True).

Definition writeopen (s : kst) : Z := pi_writeopen (pipe_at s pi).

(** A reader may sleep when the queue is empty, the write end is open and it
    is not killed. *)
Record may_sleep_r (s : kst) : Prop := {
  mr_ctx : reader_ctx s;
  mr_empty : pipe_bytes (pipe_at s pi) = [];
  mr_open : writeopen s <> 0;
  mr_killed : is_killed pr s = 0
}.

(** While it sleeps, others append exactly the bytes [bs], and may close the
    pipe. *)
Definition fills (bs : list Z) (f : kst -> kst) : Prop := forall s, may_sleep_r s ->
  let s' := awake pr (L_pipe pi) (f (asleep pr (Ch_nread pi) s)) in reader_ctx s' /\ pipe_bytes (pipe_at s' pi) = bs.

Let queue_of := queue_of pi.

(** What the waiting loop may end in: [bss] are the bytes that writers append
    whenever the reader sleeps; it slept [m] times. *)
Definition wait_result (w : world) (bss : list (list Z)) (r : res bool) : Prop :=
  exists m w', (m <= length bss)%nat /\ w_env w' = drop m (w_env w) /\ queue_of w' = queue_of w ++ concat (take m bss) /\
  (m = 0%nat -> writeopen (w_k w') = writeopen (w_k w)) /\ (0 < m -> may_sleep_r (w_k w))%nat /\
  (r = Ret true w' /\ reader_ctx (w_k w') /\ k_held (w_k w') = [L_pipe pi] /\ (queue_of w' = [] -> writeopen (w_k w') = 0) \/
   r = Ret false w' /\ reader_ctx (w_k w') /\ k_held (w_k w') = [] /\ queue_of w' = [] /\ writeopen (w_k w') <> 0 /\ is_killed pr (w_k w') <> 0 \/
   r = Blocked w' /\ m = length bss /\ exists s, may_sleep_r s /\ w_k w' = asleep pr (Ch_nread pi) s).

Lemma queue_nil w : pipe_ok (pipe_at (w_k w) pi) -> queue_of w = [] <-> pipe_len (pipe_at (w_k w) pi) = 0.
Proof.
  intros H. rewrite <- length_zero_iff_nil. unfold queue_of, PipeProps.queue_of. rewrite length_pipe_bytes.
  pose proof (u32_range (pi_nwrite (pipe_at (w_k w) pi) - pi_nread (pipe_at (w_k w) pi))). unfold pipe_len. lia.
Qed.

Lemma piperead_wait_ok : forall fuel w bss, reader_ctx (w_k w) -> k_held (w_k w) = [L_pipe pi] ->
  Forall2 fills bss (w_env w) -> (length (w_env w) < fuel)%nat -> wait_result w bss (piperead_wait fuel pi pr w).
Proof.
  induction fuel as [|fuel IH]; intros w bss H Hh Henv Hf; [lia|]. cbn [piperead_wait].
  unfold get_pipe. kstep. rewrite pipe_empty by apply H.
  assert (forall r w', w_env w' = w_env w -> queue_of w' = queue_of w -> writeopen (w_k w') = writeopen (w_k w) ->
    (r = Ret true w' /\ reader_ctx (w_k w') /\ k_held (w_k w') = [L_pipe pi] /\ (queue_of w' = [] -> writeopen (w_k w') = 0) \/
     r = Ret false w' /\ reader_ctx (w_k w') /\ k_held (w_k w') = [] /\ queue_of w' = [] /\ writeopen (w_k w') <> 0 /\ is_killed pr (w_k w') <> 0) ->
    wait_result w bss r) as Hnow.
  { intros r w' E1 E2 E3 Hr. exists O, w'. cbn [take concat]. rewrite app_nil_r, drop_0. split; [lia|]. split; [done|]. split; [done|]. split; [done|]. split; [lia|]. tauto. }
  destruct (Z.eqb_spec (pipe_len (pipe_at (w_k w) pi)) 0) as [Hl|Hl]; cbn [andb].
  2:{ apply (Hnow _ w); try done. left. split_and!; try done. intros E. by apply queue_nil in E; [|apply H]. }
  assert (queue_of w = []) as Hq by (by apply queue_nil; [apply H|]).
  destruct (Z.eqb_spec (pi_writeopen (pipe_at (w_k w) pi)) 0) as [Ho|Ho]; cbn [negb]; [apply (Hnow _ w); try done; by left|].
  rewrite (bind_ret _ _ _ _ _ (killed_ctx pi pr w Hh)). destruct (Z.eqb_spec (p_killed (proc_at (k_ps (w_k w)) pr)) 0) as [Hk|Hk]; cbn [negb].
  2:{ rewrite (bind_ret _ _ _ _ _ (release_ok (L_pipe pi) w [] Hh (not_elem_of_nil _))).
      apply (Hnow _ (with_k w (set_k_held [] (w_k w)))); try done. right. split_and!; try done. by apply held_ctx. }
  assert (may_sleep_r (w_k w)) as Hms by (by split).
  pose proof (sleep_ctx _ _ _ _ _ (Ch_nread pi) w H Hh) as Es. unfold switched in Es.
  unfold mbind, K_bind. rewrite Es. clear Es Hnow. destruct (w_env w) as [|f env] eqn:Ee.
  - apply Forall2_nil_inv_r in Henv as ->. exists O, (World [] (asleep pr (Ch_nread pi) (w_k w))). rewrite Ee. cbn [take concat]. rewrite app_nil_r.
    split; [done|]. split; [done|]. split; [done|]. split; [done|]. split; [lia|]. right. right. split; [done|]. split; [done|]. by exists (w_k w).
  - apply Forall2_cons_inv_r in Henv as (bs & bss' & Hd & Henv & ->). destruct (Hd _ Hms) as [H2 Hq2]. cbn [length] in Hf.
    set (w2 := World env (awake pr (L_pipe pi) (f (asleep pr (Ch_nread pi) (w_k w))))) in *.
    destruct (IH w2 bss' H2 eq_refl Henv) as (m & w' & Hm & Hw' & Hqw & Hm0 & Hmp & Hr); [cbn; lia|].
    exists (S m), w'. rewrite Ee. split; [cbn; lia|]. split; [exact Hw'|]. split; [|split; [done|split; [done|]]].
    { rewrite Hqw, Hq. cbn [take concat app]. f_equal. exact Hq2. }
    destruct Hr as [Hr|[Hr|(Hr & Hm' & Hs)]]; [by left|right; by left|]. right. right. split_and!; [done|cbn; lia|done].
Qed.

(** The effect of copying the bytes [l] to the addresses from [va] on: only
    the memory they are mapped to changes. *)
Record copied (F : list Z) (pt : Z) (T : tree) (pm pm' : physmem) (va : Z) (l : list Z) : Prop := {
  cp_inv : vm_inv pm' F pt T;
  cp_mem : pm' = set_pm_mem (pm_mem pm') pm;
  cp_leaf : forall v, 0 <= v -> leaf pm' T v = leaf pm T v;
  cp_bytes : user_bytes pm' T va (length l) = l;
  cp_other : forall b, (forall k, 0 <= k < Z.of_nat (length l) -> b <> phys pm T (va + k)) ->
    pm_mem pm' b = pm_mem pm b
}.

Lemma copied_range F pt T pm pm' va l va0 n0 : copied F pt T pm pm' va l ->
  user_range pm F T va0 n0 -> user_range pm' F T va0 n0.
Proof.
  intros H Hu. rewrite (cp_mem _ _ _ _ _ _ _ H). apply user_range_mem; [|done].
  intros v Hv. rewrite <- (cp_mem _ _ _ _ _ _ _ H). by apply (cp_leaf _ _ _ _ _ _ _ H).
Qed.

Lemma copied_nil F pt T pm va : vm_inv pm F pt T -> copied F pt T pm pm va [].
Proof. intros H. split; [done|by destruct pm|done|done|done]. Qed.

Lemma copied_app F pt T pm pm1 pm2 va b l : 0 <= va ->
  user_range pm F T va (Z.of_nat (S (length l))) ->
  copied F pt T pm pm1 va [b] -> copied F pt T pm1 pm2 (va + 1) l -> copied F pt T pm pm2 va (b :: l).
Proof.
  intros Hva Hu H1 H2.
  assert (forall v, 0 <= v -> phys pm1 T v = phys pm T v) as Hph
    by (intros v Hv; unfold phys; by rewrite (cp_leaf _ _ _ _ _ _ _ H1)).
  split.
  - apply H2.
  - rewrite (cp_mem _ _ _ _ _ _ _ H2) at 1. rewrite (cp_mem _ _ _ _ _ _ _ H1). by destruct pm.
  - intros v Hv. rewrite (cp_leaf _ _ _ _ _ _ _ H2), (cp_leaf _ _ _ _ _ _ _ H1) by done. done.
  - change (length (b :: l)) with (1 + length l)%nat. rewrite user_bytes_app.
    change (Z.of_nat 1) with 1. rewrite (cp_bytes _ _ _ _ _ _ _ H2).
    pose proof (cp_bytes _ _ _ _ _ _ _ H1) as Eb. unfold user_bytes in Eb |- *.
    cbn [length seq fmap list_fmap app] in Eb |- *. change (Z.of_nat 0) with 0 in *. rewrite Z.add_0_r in *.
    injection Eb as Eb. f_equal. rewrite <- Eb.
    unfold phys at 1. rewrite (cp_leaf _ _ _ _ _ _ _ H2) by done. fold (phys pm1 T va).
    apply (cp_other _ _ _ _ _ _ _ H2). intros k Hk E. rewrite !Hph in E by lia.
    apply (phys_inj pm F T va (Z.of_nat (S (length l)))) in E; (done || lia).
  - intros a Ha. cbn [length] in Ha. rewrite (cp_other _ _ _ _ _ _ _ H2).
    + apply (cp_other _ _ _ _ _ _ _ H1). intros k Hk. cbn [length] in Hk. apply Ha. lia.
    + intros k Hk. rewrite Hph by lia. replace (va + 1 + k) with (va + (k + 1)) by lia. apply Ha. lia.
Qed.

Lemma copyout_byte F pt T va b w : vm_inv (k_pm (w_k w)) F pt T -> user_range (k_pm (w_k w)) F T va 1 ->
  0 <= b < 256 -> exists pm', copyout pt va [b] w = Ret 0 (with_k w (set_k_pm pm' (w_k w))) /\
  copied F pt T (k_pm (w_k w)) pm' va [b].
Proof.
  intros H Hu Hb. destruct (copyout_loop_ok pt F T 1 [b] va w H Hu) as (m' & E & H' & Hlf & Hin & Hout);
    [by apply Forall_singleton|cbn; lia|].
  exists (set_pm_mem m' (k_pm (w_k w))). split; [exact E|]. pose proof (ur_va _ _ _ _ _ Hu).
  split; [done|done|done| |done]. unfold user_bytes. cbn [length seq fmap list_fmap]. change (Z.of_nat 0) with 0.
  f_equal. unfold phys. rewrite Hlf by lia. fold (phys (k_pm (w_k w)) T (va + 0)). cbn [pm_mem set_pm_mem].
  rewrite Hin by (cbn; lia). done.
Qed.

(** One byte of the queue is a byte. *)
Lemma slot_byte x : pipe_ok x -> 0 <= aget 0 (pi_data x) (pi_nread x mod PIPESIZE) < 256.
Proof.
  intros H. unfold aget. apply Forall_nth; [apply H|]. rewrite (po_data _ H).
  pose proof (slot_bound PIPESIZE ltac:(done) (pi_nread x)). lia.
Qed.

Lemma piperead_copy_ok F T pt : forall k w i, p_pagetable (proc_at (k_ps (w_k w)) pr) = pt ->
  vm_inv (k_pm (w_k w)) F pt T -> user_range (k_pm (w_k w)) F T addr n -> pipe_ok (pipe_at (w_k w) pi) ->
  0 <= i -> n = i + Z.of_nat k ->
  let q := queue_of w in let r := (k `min` length q)%nat in
  exists pm' P', let w' := with_k w (set_k_pm pm' (set_k_pipes P' (w_k w))) in
  piperead_copy k pi pr addr i w = Ret (i + Z.of_nat r) w' /\
  pipe_ok (pipe_at (w_k w') pi) /\ writeopen (w_k w') = writeopen (w_k w) /\ queue_of w' = drop r q /\
  copied F pt T (k_pm (w_k w)) pm' (addr + i) (take r q).
Proof.
  assert (forall w, with_k w (set_k_pm (k_pm (w_k w)) (set_k_pipes (k_pipes (w_k w)) (w_k w))) = w) as Hid
    by (by intros [? []]).
  induction k as [|k IH]; intros w i Hpt Hv Hu Hok Hi Hn q r.
  { exists (k_pm (w_k w)), (k_pipes (w_k w)). rewrite Hid. cbn [piperead_copy]. change r with O.
    rewrite Z.add_0_r. by split_and!; try apply copied_nil. }
  cbn [piperead_copy]. unfold get_pipe. kstep. rewrite pipe_empty by done.
  destruct (Z.eqb_spec (pipe_len (pipe_at (w_k w) pi)) 0) as [Hl|Hl].
  { exists (k_pm (w_k w)), (k_pipes (w_k w)). rewrite Hid. apply queue_nil in Hl; [|done]. fold q in Hl.
    unfold r. rewrite Hl. cbn [length Nat.min take drop]. rewrite Z.add_0_r. by split_and!; try apply copied_nil. }
  set (x := pipe_at (w_k w) pi) in *. pose proof (u32_range (pi_nwrite x - pi_nread x)).
  destruct (pop_byte_ok x Hok) as [Hok' Hpop]; [unfold pipe_len in *; lia|].
  set (ch := aget 0 (pi_data x) (pi_nread x mod PIPESIZE)) in *.
  unfold mod_pipe. kstep. unfold get_proc. kstep.
  set (w1 := with_k w _). change (proc_at (k_ps (w_k w1)) pr) with (proc_at (k_ps (w_k w)) pr). rewrite Hpt.
  destruct (ur_va _ _ _ _ _ Hu) as [Ha Hm]. change MAXVA with 274877906944 in Hm.
  rewrite u64_small by (change (2 ^ 64) with 18446744073709551616; lia).
  destruct (copyout_byte F pt T (addr + i) ch w1 Hv) as (pm1 & E1 & C1).
  { eapply user_range_sub; [exact Hu|lia..]. }
  { by apply slot_byte. }
  rewrite (bind_ret _ _ _ _ _ E1). change (0 =? -1) with false. cbv iota.
  set (w2 := with_k w1 _).
  assert (pipe_at (w_k w2) pi = pop_byte x) as Ep
    by (unfold pipe_at; cbn [w2 w1 with_k w_k k_pipes set_k_pipes set_k_pm]; by rewrite lookup_insert_eq).
  destruct (IH w2 (i + 1) Hpt (cp_inv _ _ _ _ _ _ _ C1) (copied_range _ _ _ _ _ _ _ _ _ C1 Hu))
    as (pm' & P' & E & Hok2 & Ho & Hq2 & C2); [by rewrite Ep|lia|lia|].
  assert (q = ch :: queue_of w2) as Eq by (unfold queue_of, PipeProps.queue_of; rewrite Ep; exact Hpop).
  set (r2 := (k `min` length (queue_of w2))%nat) in *. assert (r = S r2) as Er by (unfold r; by rewrite Eq).
  exists pm', P'. split_and!.
  - rewrite E, Er. f_equal. lia.
  - exact Hok2.
  - etransitivity; [exact Ho|]. unfold writeopen. by rewrite Ep.
  - rewrite Er, Eq. exact Hq2.
  - rewrite Er, Eq. cbn [take]. apply (copied_app F pt T _ pm1); [lia| |exact C1|].
    + eapply user_range_sub; [exact Hu|lia|lia|]. rewrite length_take. lia.
    + replace (addr + i + 1) with (addr + (i + 1)) by lia. exact C2.
Qed.
End reader.

(** ** Theorems *)

(** C21: [pipewrite] treats the pipe as a bounded queue.  [ks] are the numbers
    of bytes that readers take at the times when the writer sleeps, which it
    does only with the buffer full, the read end open, itself not killed
    and every reader woken.  The bytes [taken] by the readers so far,
    followed by the queue, are the queue at the call followed by the first
    [j] bytes of the buffer: none is lost, repeated or reordered.  It
    returns [n] when all are appended, with the readers woken and the read
    end still open, and -1 only when the read end is closed or the process
    is killed; when that is so at the call, it returns -1 at once and
    changes nothing.  It never panics or runs out of fuel, and holds no lock
    afterwards. *)
Theorem pipewrite_correct pi pr addr n src ks w :
  writer_ctx pi pr addr n src (w_k w) -> k_held (w_k w) = [] -> 0 <= n ->
  Forall2 (drains pi pr addr n src) ks (w_env w) ->
  (0 < n -> readopen pi (w_k w) = 0 \/ is_killed pr (w_k w) <> 0 -> pipewrite pi addr n w = Ret (-1) w) /\
  exists j m taken w', 0 <= j <= n /\ (m <= length ks)%nat /\ w_env w' = drop m (w_env w) /\
    length taken = sum_list (take m ks) /\ taken ++ queue_of pi w' = queue_of pi w ++ take (Z.to_nat j) src /\
    (pipewrite pi addr n w = Ret n w' /\ j = n /\ k_held (w_k w') = [] /\ writer_ctx pi pr addr n src (w_k w') /\
       all_woken pr (Ch_nread pi) (w_k w') /\ (0 < n -> readopen pi (w_k w') <> 0 /\ is_killed pr (w_k w') = 0) \/
     pipewrite pi addr n w = Ret (-1) w' /\ j < n /\ k_held (w_k w') = [] /\ writer_ctx pi pr addr n src (w_k w') /\
       (readopen pi (w_k w') = 0 \/ is_killed pr (w_k w') <> 0) \/
     pipewrite pi addr n w = Blocked w' /\ j < n /\ m = length ks /\
       exists s, may_sleep_w pi pr addr n src s /\ w_k w' = asleep pr (Ch_nwrite pi) s).
Proof.
  intros H Hh Hn Henv. unfold pipewrite.
  rewrite (bind_ret _ _ _ _ _ (curproc_ok _ _ (pc_cur _ _ _ _ _ _ H))).
  rewrite (bind_ret _ _ _ _ _ (enter_ctx _ _ _ _ _ w H Hh)). unfold with_fuel.
  set (w1 := with_k w _). split.
  - intros Hpos Hstop. cbn [Nat.add pipewrite_loop]. rewrite (proj2 (Z.ltb_lt 0 n)) by done. unfold get_pipe. kstep.
    destruct (stop_test pi pr w1 eq_refl) as (st & Est & Hst). rewrite (bind_ret _ _ _ _ _ Est).
    rewrite (proj2 (Z.eqb_neq st 0)) by (by apply Hst). cbn [negb].
    rewrite (bind_ret _ _ _ _ _ (release_ok (L_pipe pi) w1 [] eq_refl (not_elem_of_nil _))).
    unfold w1, with_k. cbn. rewrite <- Hh. by destruct w as [? []].
  - destruct (pipewrite_loop_ok pi pr addr n src (S (length (w_env w1)) + Z.to_nat n) w1 0 ks) as (j & m & taken & w' & Hj & Hm & Hw' & Ht & Hq & Hr);
      [by apply held_ctx, H|done|done|lia|intros ?; lia|lia|].
    exists j, m, taken, w'. rewrite Z.sub_0_r, drop_0 in Hq. by split_and!; try lia.
Qed.

(** C22: [piperead] takes bytes from the front of the queue.  [bss] are the
    bytes that writers append at the times when the reader sleeps, which it
    does only with the queue empty, the write end open and itself not
    killed; [q] is the queue when it goes on, after [m] times.  It takes the
    smaller of [n] and the length of [q] from [q], stores them in order in
    the caller's buffer, wakes the writers and returns their number; [q]
    can be empty only when the write end is closed, so a result of 0 with
    [n > 0] means the end of the file, and the reader of an empty pipe whose
    write end is closed gets 0 at once.  It returns -1 only to a killed
    process with the pipe empty and open, and never panics or runs out of
    fuel. *)
Theorem piperead_correct pi pr addr n bss w :
  reader_ctx pi pr addr n (w_k w) -> k_held (w_k w) = [] -> 0 <= n -> Forall2 (fills pi pr addr n) bss (w_env w) ->
  exists m w', let q := queue_of pi w ++ concat (take m bss) in
    (m <= length bss)%nat /\ w_env w' = drop m (w_env w) /\ (0 < m -> may_sleep_r pi pr addr n (set_k_held [L_pipe pi] (w_k w)))%nat /\
    (queue_of pi w = [] -> writeopen pi (w_k w) = 0 -> m = 0%nat /\ piperead pi addr n w = Ret 0 w') /\
    ((exists F T x, piperead pi addr n w = Ret x w' /\ k_held (w_k w') = [] /\ reader_ctx pi pr addr n (w_k w') /\
        x = Z.min n (Z.of_nat (length q)) /\ queue_of pi w' = drop (Z.to_nat x) q /\ (q = [] -> writeopen pi (w_k w') = 0) /\
        vm_inv (k_pm (w_k w')) F (p_pagetable (proc_at (k_ps (w_k w')) pr)) T /\
        user_bytes (k_pm (w_k w')) T addr (Z.to_nat x) = take (Z.to_nat x) q /\ all_woken pr (Ch_nwrite pi) (w_k w')) \/
     piperead pi addr n w = Ret (-1) w' /\ k_held (w_k w') = [] /\ reader_ctx pi pr addr n (w_k w') /\
       q = [] /\ queue_of pi w' = [] /\ writeopen pi (w_k w') <> 0 /\ is_killed pr (w_k w') <> 0 \/
     piperead pi addr n w = Blocked w' /\ m = length bss /\ q = [] /\
       exists s, may_sleep_r pi pr addr n s /\ w_k w' = asleep pr (Ch_nread pi) s).
Proof.
  intros H Hh Hn Henv. unfold piperead.
  rewrite (bind_ret _ _ _ _ _ (curproc_ok _ _ (pc_cur _ _ _ _ _ _ H))).
  rewrite (bind_ret _ _ _ _ _ (enter_ctx _ _ _ _ _ w H Hh)). set (w1 := with_k w _).
  destruct (piperead_wait_ok pi pr addr n (S (length (w_env w1))) w1 bss (held_ctx _ _ _ _ _ _ _ H) eq_refl Henv
    ltac:(lia)) as (m & w2 & Hm & Ew & Hq2 & Hm0 & Hmp & Hr).
  assert (queue_of pi w = [] -> writeopen pi (w_k w) = 0 -> m = 0%nat /\ queue_of pi w2 = [] /\ writeopen pi (w_k w2) = 0) as Heof.
  { intros Hq Ho. destruct (decide (m = 0%nat)) as [->|Hne]; [|by destruct (mr_open _ _ _ _ _ (Hmp ltac:(lia)))].
    split; [done|]. split; [|by rewrite Hm0]. rewrite Hq2. cbn [take concat]. rewrite app_nil_r. exact Hq. }
  change (queue_of pi w1) with (queue_of pi w) in *.
  destruct Hr as [(Er & H2 & Hh2 & Ho2)|[(Er & H2 & Hh2 & He2 & Ho2 & Hk2)|(Er & Hm2 & s & Hs & Es)]].
  - rewrite (bind_ret (with_fuel (fun e => piperead_wait e pi pr)) _ w1 _ _ Er). cbn [negb]. destruct (pc_user _ _ _ _ _ _ H2) as (F & T & Hv & Hu & _).
    destruct (piperead_copy_ok pi pr addr n F T _ (Z.to_nat n) w2 0 eq_refl Hv Hu (pc_pipe _ _ _ _ _ _ H2))
      as (pm' & P' & E & Hok & Ho & Hq & C); [lia|lia|].
    rewrite (bind_ret _ _ _ _ _ E). set (w3 := with_k w2 _) in *.
    assert (reader_ctx pi pr addr n (w_k w3)) as H3.
    { destruct H2 as [Hc Hlt Hrn Hs _ _]. split; [done|done|done|done| |done].
      exists F, T. split; [apply C|]. split; [by eapply copied_range|done]. }
    destruct (leave_ctx _ _ _ _ _ (Ch_nwrite pi) (0 + Z.of_nat (Z.to_nat n `min` length (queue_of pi w2))) w3 H3 Hh2)
      as (ps' & thr & -> & H4 & Ept & Hwk).
    set (r := (Z.to_nat n `min` length (queue_of pi w2))%nat) in *. exists m, (with_k w3 (set_k_held [] (put_ps ps' thr (w_k w3)))). cbv zeta. rewrite <- Hq2.
    split; [exact Hm|]. split; [exact Ew|]. split; [exact Hmp|]. split.
    { intros Hq0 Ho0. destruct (Heof Hq0 Ho0) as (E1 & E2 & E3). split; [done|]. unfold r. rewrite E2. cbn [length]. rewrite Nat.min_0_r. reflexivity. }
    left. exists F, T, (0 + Z.of_nat r). assert (Z.to_nat (0 + Z.of_nat r) = r) as -> by lia. split; [reflexivity|]. split_and!.
    + done.
    + exact H4.
    + lia.
    + exact Hq.
    + intros E0. etransitivity; [exact Ho|]. by apply Ho2.
    + cbn [with_k w_k k_ps set_k_held put_ps set_k_ps]. rewrite Ept. apply C.
    + pose proof (cp_bytes _ _ _ _ _ _ _ C) as Hb. rewrite length_take, Z.add_0_r in Hb.
      replace (r `min` length (queue_of pi w2))%nat with r in Hb by lia. exact Hb.
    + exact Hwk.
  - rewrite (bind_ret (with_fuel (fun e => piperead_wait e pi pr)) _ w1 _ _ Er). cbn [negb]. exists m, w2. cbv zeta. rewrite <- Hq2. split; [exact Hm|]. split; [exact Ew|]. split; [exact Hmp|]. split.
    { intros Hq0 Ho0. by destruct (Heof Hq0 Ho0) as (_ & _ & ?). }
    right. left. by split_and!.
  - assert (forall A (k : bool -> K A), (x ← with_fuel (fun e => piperead_wait e pi pr); k x) w1 = Blocked w2) as -> by (intros A k; unfold mbind, K_bind, with_fuel; by rewrite Er). exists m, w2. cbv zeta. rewrite <- Hq2. split; [exact Hm|]. split; [exact Ew|]. split; [exact Hmp|].
    assert (queue_of pi w2 = pipe_bytes (pipe_at s pi) /\ writeopen pi (w_k w2) = writeopen pi s) as [E1 E2] by (unfold queue_of, writeopen; by rewrite Es).
    split.
    { intros Hq0 Ho0. destruct (Heof Hq0 Ho0) as (_ & _ & E3). rewrite E2 in E3. by destruct (mr_open _ _ _ _ _ Hs). }
    right. right. split; [done|]. split; [done|]. split; [rewrite E1; apply (mr_empty _ _ _ _ _ Hs)|by exists s].
Qed.

(** ** Witnesses *)

(** What others do to the pipe while a process sleeps. *)
Definition other_end (pi : Z) (g : pipe -> pipe) (s : kst) : kst := set_k_pipes (<[pi := g (pipe_at s pi)]> (k_pipes s)) s.

Lemma cycle_ctx pi pr addr n U c g s : pipe_ctx pi pr addr n U s -> pipe_ok (g (pipe_at s pi)) ->
  let s' := awake pr (L_pipe pi) (other_end pi g (asleep pr c s)) in pipe_ctx pi pr addr n U s' /\ pipe_at s' pi = g (pipe_at s pi).
Proof.
  intros [Hc Hlt Hrn [Q HQ] (F & T & Hv & Hu & Hb) Hok] Hg s'. pose proof (si_nproc _ _ HQ) as Hl. rewrite <- Hl in Hlt.
  assert (pipe_at s' pi = g (pipe_at s pi)) as Ep by (unfold pipe_at at 1; cbn [s' awake other_end asleep resume k_pipes set_k_held set_k_ps set_k_cur set_k_pipes]; by rewrite lookup_insert_eq).
  split; [|done]. set (f := fun p => set_p_chan None (set_p_state RUNNING (set_p_state SLEEPING (set_p_chan (Some c) p)))).
  assert (k_ps s' = upd_proc pr f (k_ps s)) as Eps.
  { cbn [s' awake other_end asleep resume k_ps set_k_held set_k_ps set_k_cur set_k_pipes]. rewrite !upd_upd by (cbn; rewrite ?length_insert; exact Hlt). done. }
  assert (proc_at (k_ps s') pr = f (proc_at (k_ps s) pr)) as Epr by (rewrite Eps, proc_at_upd, decide_True by (done || lia); done).
  split; [done|lia|by rewrite Epr| | |by rewrite Ep].
  - exists Q. rewrite Eps. apply upd_proc_same_inv; [done|lia|by rewrite Hrn|done].
  - exists F, T. rewrite Epr. done.
Qed.

(** Process 0 of [ex_pm] runs, with a pipe. *)
Definition ex_ps : psched := upd_proc 0 (set_p_pagetable 0x87ffd000) (ps_one RUNNING).
Definition ex_caller (x : pipe) (env : list (kst -> kst)) : world :=
  World env (set_k_pipes {[0x87ff9000 := x]} (set_k_cur (Some 0%nat) (set_k_ps ex_ps (set_k_pm ex_pm (kst_boot 0))))).

Lemma ex_caller_ctx (U : list Z -> Prop) x env : U [0; 0; 0] -> pipe_ok x -> pipe_ctx 0x87ff9000 0 100 3 U (w_k (ex_caller x env)).
Proof.
  intros HU Hx. split.
  - done.
  - unfold NPROC. lia.
  - done.
  - exists qempty. cbn [w_k ex_caller k_ps set_k_pipes set_k_cur set_k_ps].
    apply upd_proc_same_inv; [by apply ps_one_inv|unfold NPROC; lia|done..].
  - exists [0x87fff000; 0x87ffe000], ex_tree. split; [exact ex_inv|]. split; [exact ex_range|].
    assert (user_bytes (k_pm (w_k (ex_caller x env))) ex_tree 100 (Z.to_nat 3) = [0; 0; 0]) as ->; [|done].
    unfold user_bytes. change (k_pm (w_k (ex_caller x env))) with ex_pm.
    change (Z.to_nat 3) with 3%nat. unfold phys. cbn [seq fmap list_fmap].
    rewrite !ex_leaf by (unfold PGSIZE; lia). reflexivity.
  - exact Hx.
Qed.

(** A full pipe whose counters have wrapped around, and an empty one. *)
Definition full_pipe : pipe := Pipe (replicate 512 9) (2 ^ 32 - 2) 510 1 1.
Definition empty_pipe : pipe := Pipe (replicate 512 9) (2 ^ 32 - 1) (2 ^ 32 - 1) 1 1.
Lemma ex_pipes_ok : pipe_ok full_pipe /\ pipe_ok empty_pipe.
Proof. split; (split; [reflexivity|apply Forall_replicate; lia|vm_compute; split; congruence..|vm_compute; congruence]). Qed.
Definition drain_all (x : pipe) : pipe := set_pi_nread (pi_nwrite x) x.
Definition fill_two (x : pipe) : pipe := push_byte 6 (push_byte 5 x).

Lemma drain_all_ok x : pipe_ok x -> pipe_ok (drain_all x) /\ pipe_bytes (drain_all x) = [].
Proof.
  intros [H1 H2 H3 H4 H5]. assert (pipe_len (drain_all x) = 0) as E by (unfold pipe_len, drain_all; cbn [pi_nwrite pi_nread set_pi_nread]; by rewrite Z.sub_diag).
  split; [split; try done; by rewrite E|]. apply length_zero_iff_nil. rewrite length_pipe_bytes, E. done.
Qed.
Lemma drain_all_drains src : drains 0x87ff9000 0 100 3 src 512 (other_end 0x87ff9000 drain_all).
Proof.
  intros s [Hc Hf _ _ _]. destruct (drain_all_ok _ (pc_pipe _ _ _ _ _ _ Hc)) as [Hok Hq].
  destruct (cycle_ctx _ _ _ _ _ (Ch_nwrite 0x87ff9000) drain_all s Hc Hok) as [H' E']. cbv zeta. rewrite E', Hq. split; [exact H'|].
  rewrite length_pipe_bytes, Hf. split; [done|]. rewrite drop_ge by (rewrite length_pipe_bytes, Hf; done). done.
Qed.
Lemma fill_two_fills : fills 0x87ff9000 0 100 3 [5; 6] (other_end 0x87ff9000 fill_two).
Proof.
  intros s [Hc Hq _ _]. pose proof (pc_pipe _ _ _ _ _ _ Hc) as Hok. assert (pipe_len (pipe_at s 0x87ff9000) = 0) as Hl.
  { apply (f_equal length) in Hq. rewrite length_pipe_bytes in Hq. cbn [length] in Hq. pose proof (u32_range (pi_nwrite (pipe_at s 0x87ff9000) - pi_nread (pipe_at s 0x87ff9000))). unfold pipe_len in *. lia. }
  destruct (push_byte_ok (pipe_at s 0x87ff9000) 5 Hok) as [H1 E1]; [rewrite Hl; done|lia|].
  destruct (push_byte_ok _ 6 H1) as [H2 E2]; [rewrite push_len, Hl by (done || (rewrite Hl; done)); done|lia|].
  destruct (cycle_ctx _ _ _ _ _ (Ch_nread 0x87ff9000) fill_two s Hc H2) as [H' E']. cbv zeta. rewrite E'. split; [exact H'|].
  unfold fill_two. by rewrite E2, E1, Hq.
Qed.

Definition ret_val (r : res Z) : Z * nat := match r with Ret x w => (x, length (w_env w)) | _ => (0, 0%nat) end.

(** A writer of three bytes finds the pipe full, sleeps until a reader has
    taken all 512 bytes, and leaves its three bytes in the pipe. *)
Lemma pipewrite_correct_witness : exists w',
  pipewrite 0x87ff9000 100 3 (ex_caller full_pipe [other_end 0x87ff9000 drain_all]) = Ret 3 w' /\ queue_of 0x87ff9000 w' = [0; 0; 0].
Proof.
  set (w := ex_caller full_pipe [other_end 0x87ff9000 drain_all]).
  destruct (pipewrite_correct 0x87ff9000 0 100 3 [0; 0; 0] [512%nat] w) as [_ (j & m & taken & w' & Hj & Hm & He & Ht & Hq & Hr)].
  - apply ex_caller_ctx; [done|apply ex_pipes_ok].
  - reflexivity.
  - lia.
  - constructor; [apply drain_all_drains|constructor].
  - assert (ret_val (pipewrite 0x87ff9000 100 3 w) = (3, 0%nat)) as Hx by (vm_compute; reflexivity).
    destruct Hr as [(Er & -> & _)|[(Er & _)|(Er & _)]]; rewrite Er in Hx; try discriminate Hx.
    injection Hx as Hx. exists w'. split; [exact Er|]. destruct m as [|[|m]]; [by rewrite He in Hx| |cbn in Hm; lia].
    change (sum_list (take 1 [512%nat])) with 512%nat in Ht. apply (f_equal (drop 512)) in Hq.
    rewrite drop_app_length' in Hq by done. rewrite Hq. rewrite drop_app_length' by reflexivity. reflexivity.
Defined.

(** A reader finds the pipe empty and sleeps until a writer has put two
    bytes into it. *)
Lemma piperead_correct_witness : exists w',
  piperead 0x87ff9000 100 3 (ex_caller empty_pipe [other_end 0x87ff9000 fill_two]) = Ret 2 w' /\ queue_of 0x87ff9000 w' = [].
Proof.
  set (w := ex_caller empty_pipe [other_end 0x87ff9000 fill_two]).
  destruct (piperead_correct 0x87ff9000 0 100 3 [[5; 6]] w) as (m & w' & Hm & He & _ & _ & Hr).
  - apply ex_caller_ctx; [done|apply ex_pipes_ok].
  - reflexivity.
  - lia.
  - constructor; [apply fill_two_fills|constructor].
  - assert (ret_val (piperead 0x87ff9000 100 3 w) = (2, 0%nat)) as Hx by (vm_compute; reflexivity).
    destruct Hr as [(F & T & x & Er & _ & _ & Ex & Hq & _)|[(Er & _)|(Er & _)]]; rewrite Er in Hx; try discriminate Hx.
    injection Hx as -> Hx. exists w'. split; [exact Er|]. destruct m as [|[|m]]; [by rewrite He in Hx| |cbn in Hm; lia].
    rewrite Hq. reflexivity.
Defined.
