(* ===== verification/Proc.v ===== *)
(** * Proc: the life of processes

    Models the rest of kernel/proc.c of [src/XV6 Multilevel feedback
    queue/]: allocation of process slots, user address spaces, fork, exit,
    wait and the log system call. *)

From S2P Require Import Prelude.
From S2P Require Import State.
From S2P Require Import Kernel.
From S2P Require Import Sched.
From S2P Require Import Mem.
From S2P Require Import Kalloc.
From S2P Require Import Vm.
From S2P Require Import Bio.
From S2P Require Import Log.
From S2P Require Import Fs.
From S2P Require Import File.

(** ** Trapframes *)

(** The trapframe of process [i] is in the page [p->trapframe]. *)
Definition mod_tf (i : nat) (f : trapframe -> trapframe) : K unit :=
  kmod (fun s => set_k_pm
    (set_pm_tf (<[p_trapframe (proc_at (k_ps s) i) := f (trapframe_of s i)]> (pm_tf (k_pm s))) (k_pm s)) s).

(** A fresh page is filled with 5s. *)
Definition JUNK : Z := 0x0505050505050505.
Definition trapframe_junk : trapframe :=
  Trapframe JUNK JUNK JUNK JUNK JUNK JUNK JUNK JUNK JUNK JUNK JUNK JUNK JUNK JUNK JUNK JUNK JUNK JUNK
    JUNK JUNK JUNK JUNK JUNK JUNK JUNK JUNK JUNK JUNK JUNK JUNK JUNK JUNK JUNK JUNK JUNK JUNK.

(** ** Process table *)

Definition procinit : K unit :=
  kfor (seq 0 NPROC) (fun i =>
    mod_proc i (set_p_state UNUSED);;
    mod_proc i (set_p_kstack (KSTACK i))).

Definition cpuid : K Z := c ← kget k_csr; mret (i32 (csr_tp c)).

Definition proc_pagetable (i : nat) : K Z :=
  pagetable ← uvmcreate;
  if pagetable =? 0 then mret 0 else
  trampoline ← kget (fun s => pm_trampoline (k_pm s));
  r ← mappages pagetable TRAMPOLINE PGSIZE trampoline (Z.lor PTE_R PTE_X);
  if r <? 0 then uvmfree pagetable 0;; mret 0 else
  p ← get_proc i;
  r ← mappages pagetable TRAPFRAME PGSIZE (p_trapframe p) (Z.lor PTE_R PTE_W);
  if r <? 0 then
    uvmunmap pagetable TRAMPOLINE 1 false;;
    uvmfree pagetable 0;;
    mret 0
  else mret pagetable.

Definition proc_freepagetable (pagetable sz : Z) : K unit :=
  uvmunmap pagetable TRAMPOLINE 1 false;;
  uvmunmap pagetable TRAPFRAME 1 false;;
  uvmfree pagetable sz.

Definition freeproc (i : nat) : K unit :=
  p ← get_proc i;
  kwhen (negb (p_trapframe p =? 0))
    (mod_pm (fun pm => set_pm_tf (delete (p_trapframe p) (pm_tf pm)) pm);;
     kfree (p_trapframe p));;
  mod_proc i (set_p_trapframe 0);;
  kwhen (negb (p_pagetable p =? 0)) (proc_freepagetable (p_pagetable p) (p_sz p));;
  mod_proc i (set_p_pagetable 0);;
  mod_proc i (set_p_sz 0);;
  mod_proc i (set_p_pid 0);;
  mod_proc i (set_p_parent None);;
  mod_proc i (fun p => set_p_name (aset (p_name p) 0 0) p);;
  mod_proc i (set_p_chan None);;
  mod_proc i (set_p_killed 0);;
  mod_proc i (set_p_xstate 0);;
  mod_proc i (set_p_state UNUSED);;
  mod_proc i (set_p_nice 0).

Section procs.
(** The address of [forkret]. *)
Context `{D : Disk} (forkret_addr : Z).

Definition allocproc : K (option nat) :=
  r ← kfind (seq 0 NPROC) (fun i =>
    acquire (L_proc i);;
    p ← get_proc i;
    if bool_decide (p_state p = UNUSED) then mret (Some i)
    else release (L_proc i);; mret None);
  match r with
  | None => mret None
  | Some i =>
    pid ← allocpid;
    mod_proc i (set_p_pid pid);;
    mod_proc i (set_p_state USED);;
    tf ← kalloc;
    mod_proc i (set_p_trapframe tf);;
    if tf =? 0 then freeproc i;; release (L_proc i);; mret None else
    mod_pm (fun pm => set_pm_tf (<[tf := trapframe_junk]> (pm_tf pm)) pm);;
    pagetable ← proc_pagetable i;
    mod_proc i (set_p_pagetable pagetable);;
    if pagetable =? 0 then freeproc i;; release (L_proc i);; mret None else
    p ← get_proc i;
    mod_proc i (set_p_context (Context_ forkret_addr (u64 (p_kstack p + PGSIZE)) (replicate 12 0)));;
    mret (Some i)
  end.

Definition initcode : list Z := [
  0x17; 0x05; 0x00; 0x00; 0x13; 0x05; 0x45; 0x02;
  0x97; 0x05; 0x00; 0x00; 0x93; 0x85; 0x35; 0x02;
  0x93; 0x08; 0x70; 0x00; 0x73; 0x00; 0x00; 0x00;
  0x93; 0x08; 0x20; 0x00; 0x73; 0x00; 0x00; 0x00;
  0xef; 0xf0; 0x9f; 0xff; 0x2f; 0x69; 0x6e; 0x69;
  0x74; 0x00; 0x00; 0x24; 0x00; 0x00; 0x00; 0x00;
  0x00; 0x00; 0x00; 0x00].

(** [safestrcpy(dst, src, n)] on arrays of bytes. *)
Fixpoint safestrcpy_list (k : nat) (dst : list Z) (s : Z) (src : list Z) : list Z :=
  match k with
  | O => aset dst s 0
  | S k' =>
    let c := hd 0 src in
    let dst := aset dst s c in
    if c =? 0 then aset dst (s + 1) 0 else safestrcpy_list k' dst (s + 1) (tl src)
  end.
Definition set_name (src : list Z) (p : proc) : proc :=
  set_p_name (safestrcpy_list 15 (p_name p) 0 src) p.

(** [userinit] dereferences the result of [allocproc] without a check. *)
Definition userinit : K unit :=
  r ← allocproc;
  match r with
  | None => panic "kerneltrap"
  | Some i =>
    mod_ps (set_ps_initproc (Some i));;
    p ← get_proc i;
    uvmfirst (p_pagetable p) initcode;;
    mod_proc i (set_p_sz PGSIZE);;
    mod_tf i (set_tf_epc 0);;
    mod_tf i (set_tf_sp PGSIZE);;
    mod_proc i (set_name (bytes_of_string "initcode"));;
    cwd ← namei [SLASH];
    mod_proc i (set_p_cwd cwd);;
    make_runnable i;;
    release (L_proc i)
  end.

Definition growproc (n : Z) : K Z :=
  i ← curproc;
  p ← get_proc i;
  let sz := p_sz p in
  if 0 <? n then
    sz ← uvmalloc (p_pagetable p) sz (u64 (sz + n)) PTE_W;
    if sz =? 0 then mret (-1) else
    mod_proc i (set_p_sz sz);; mret 0
  else if n <? 0 then
    sz ← uvmdealloc (p_pagetable p) sz (u64 (sz + n));
    mod_proc i (set_p_sz sz);; mret 0
  else mod_proc i (set_p_sz sz);; mret 0.

Definition fork : K Z :=
  i ← curproc;
  r ← allocproc;
  match r with
  | None => mret (-1)
  | Some np =>
    p ← get_proc i;
    q ← get_proc np;
    r ← uvmcopy (p_pagetable p) (p_pagetable q) (p_sz p);
    if r <? 0 then freeproc np;; release (L_proc np);; mret (-1) else
    mod_proc np (set_p_sz (p_sz p));;
    tf ← kget (fun s => trapframe_of s i);
    mod_tf np (fun _ => tf);;
    mod_tf np (set_tf_a0 0);;
    kfor (seq 0 NOFILE) (fun fd =>
      match nth fd (p_ofile p) None with
      | Some f => f ← filedup f; mod_proc np (fun q => set_p_ofile (<[fd := Some f]> (p_ofile q)) q)
      | None => mret tt
      end);;
    cwd ← (match p_cwd p with Some c => idup c | None => panic "kerneltrap" end);
    mod_proc np (set_p_cwd (Some cwd));;
    mod_proc np (set_name (p_name p));;
    q ← get_proc np;
    let pid := p_pid q in
    release (L_proc np);;
    acquire L_wait;;
    mod_proc np (set_p_parent (Some i));;
    release L_wait;;
    acquire (L_proc np);;
    make_runnable np;;
    release (L_proc np);;
    mret pid
  end.

(** The channel of [wakeup(p)] for a process pointer. *)
Definition wakeup_proc (p : option nat) : K unit :=
  match p with Some i => wakeup (Ch_proc i) | None => mret tt end.

Definition reparent (p : nat) : K unit :=
  kfor (seq 0 NPROC) (fun i =>
    pp ← get_proc i;
    if bool_decide (p_parent pp = Some p) then
      init ← kget (fun s => ps_initproc (k_ps s));
      mod_proc i (set_p_parent init);;
      wakeup_proc init
    else mret tt).

Definition exit (status : Z) : K unit :=
  i ← curproc;
  init ← kget (fun s => ps_initproc (k_ps s));
  if bool_decide (init = Some i) then panic "init exiting" else
  kfor (seq 0 NOFILE) (fun fd =>
    p ← get_proc i;
    match nth fd (p_ofile p) None with
    | Some f => fileclose f;; mod_proc i (fun p => set_p_ofile (<[fd := None]> (p_ofile p)) p)
    | None => mret tt
    end);;
  begin_op;;
  p ← get_proc i;
  match p_cwd p with Some c => iput c | None => panic "kerneltrap" end;;
  end_op;;
  mod_proc i (set_p_cwd None);;
  acquire L_wait;;
  reparent i;;
  p ← get_proc i;
  wakeup_proc (p_parent p);;
  acquire (L_proc i);;
  mod_proc i (set_p_xstate status);;
  mod_proc i (set_p_state ZOMBIE);;
  release L_wait;;
  sched;;
  panic "zombie exit".

(** A pass of [wait] over the table: the return value if a child was
    found ZOMBIE, else whether there are children. *)
Fixpoint wait_scan (l : list nat) (p : nat) (addr : Z) (havekids : bool) : K (option Z * bool) :=
  match l with
  | [] => mret (None, havekids)
  | i :: l' =>
    pp ← get_proc i;
    if bool_decide (p_parent pp = Some p) then
      acquire (L_proc i);;
      pp ← get_proc i;
      if bool_decide (p_state pp = ZOMBIE) then
        let pid := p_pid pp in
        q ← get_proc p;
        r ← (if addr =? 0 then mret 0
             else copyout (p_pagetable q) addr (le_bytes 4 (p_xstate pp)));
        if r <? 0 then release (L_proc i);; release L_wait;; mret (Some (-1), true) else
        freeproc i;;
        release (L_proc i);;
        release L_wait;;
        mret (Some pid, true)
      else release (L_proc i);; wait_scan l' p addr true
    else wait_scan l' p addr havekids
  end.
Fixpoint wait_loop (fuel : nat) (p : nat) (addr : Z) : K Z :=
  r ← wait_scan (seq 0 NPROC) p addr false;
  match r with
  | (Some v, _) => mret v
  | (None, havekids) =>
    kl ← (if (havekids : bool) then killed p else mret 1);
    if negb (kl =? 0) then release L_wait;; mret (-1) else
    match fuel with
    | O => hang
    | S f => sleep (Ch_proc p) L_wait;; wait_loop f p addr
    end
  end.
Definition wait (addr : Z) : K Z :=
  p ← curproc;
  acquire L_wait;;
  with_fuel (fun e => wait_loop e p addr).

(** ** The scheduling log *)

Definition logentry_bytes (e : logentry) : list Z := le_bytes 4 (le_pid e) ++ le_bytes 4 (le_time e).
Definition sys_getlog : K Z :=
  userlog ← argaddr 0;
  i ← curproc;
  p ← get_proc i;
  l ← kget (fun s => ps_schedlog (k_ps s));
  r ← copyout (p_pagetable p) userlog (concat (logentry_bytes <$> l));
  if r <? 0 then mret (-1) else
  kget (fun s => ps_num_logged (k_ps s)).
End procs.
