(* ===== verification/ProcVm.v ===== *)
(** * ProcVm: the address spaces of processes

    [proc_pagetable] and [proc_freepagetable] of Proc, on top of the theorems about
    page tables: a process has its user pages from address 0, the trampoline
    page and its trapframe page at the top, and nothing else. *)

From S2P Require Import Prelude.
From S2P Require Import State.
From S2P Require Import Kernel.
From S2P Require Import Mem.
From S2P Require Import Kalloc.
From S2P Require Import Vm.
From S2P Require Import VmProps.
From S2P Require Import UvmProps.
From S2P Require Import Proc.

#[local] Opaque memset store64 load64 pte_of.

(** The address space with table [T] at [pt]: [n] user pages, trampoline
    and trapframe [tf]. *)
Record uspace (pm : physmem) (F : list Z) (pt : Z) (T : tree) (tf n : Z) : Prop := {
  us_vm : vm_inv pm F pt T;
  us_user : umapped pm F T 0 n;
  us_low : PGSIZE * n <= TRAPFRAME;
  us_none : forall va, 0 <= va < TRAPFRAME -> n <= va / PGSIZE -> has (leaf pm T va) PTE_V = false;
  us_tramp : leaf pm T TRAMPOLINE = pte_of (pm_trampoline pm) (Z.lor PTE_R PTE_X);
  us_tf : leaf pm T TRAPFRAME = pte_of tf (Z.lor PTE_R PTE_W)
}.

(** An address a page can be mapped to. *)
Definition can_map (a : Z) : Prop := 0 <= a /\ a mod PGSIZE = 0 /\ a + 2 * PGSIZE < 2 ^ 56.

Lemma valid_can_map pm F a : alloc_inv pm F -> valid_page (pm_end pm) a -> can_map a.
Proof.
  intros H [Ha [H1 H2]]. pose proof (ai_end _ _ H). unfold can_map, PHYSTOP, KERNBASE, PGSIZE in *. change (2 ^ 56) with 72057594037927936. split_and!; lia.
Qed.

(** ** An empty table *)

Definition root_tree (p : Z) : tree := fun n => if decide (n = []) then Some p else None.

Lemma root_leaf pm p va : leaf pm (root_tree p) va = 0.
Proof. done. Qed.

Lemma uvmcreate_ok w F : alloc_inv (k_pm (w_k w)) F -> L_kmem ∉ k_held (w_k w) ->
  match F with
  | [] => uvmcreate w = Ret 0 w
  | p :: F' => exists pm', uvmcreate w = Ret p (with_k w (set_k_pm pm' (w_k w))) /\ p <> 0 /\ vm_inv pm' F' p (root_tree p) /\
      same_fields (k_pm (w_k w)) pm' /\ forall b, ~ in_page p b -> pm_mem pm' b = pm_mem (k_pm (w_k w)) b
  end.
Proof.
  intros H Hl. pose proof (kalloc_ok w F H Hl) as Hk. unfold uvmcreate. destruct F as [|p F'].
  { rewrite (bind_ret _ _ _ _ _ Hk). done. }
  destruct Hk as (pm1 & Ek & Hp0 & A1 & He1 & Ht1 & M1 & Sh1). rewrite (bind_ret _ _ _ _ _ Ek). rewrite (proj2 (Z.eqb_neq p 0)) by done.
  set (pm := k_pm (w_k w)) in *. set (pm2 := set_pm_mem (memset p 0 PGSIZE (pm_mem pm1)) pm1).
  assert (forall b, pm_mem pm2 b = if decide (p <= b < p + PGSIZE) then 0 else pm_mem pm1 b) as M2 by (intros b; cbn; by rewrite memset_spec by (unfold PGSIZE; lia)).
  assert (valid_page (pm_end pm) p) as Hv by (apply (ai_valid _ _ H); set_solver).
  assert (p ∉ F') as HpF by (pose proof (ai_nodup _ _ H) as Hn; by apply NoDup_cons in Hn as [? _]).
  exists pm2. split_and!.
  - reflexivity.
  - exact Hp0.
  - split.
    + apply (alloc_inv_ext pm1 F' _ A1); [apply memset_bytes, A1|]. intros a Ha b Hb. rewrite memset_spec by (unfold PGSIZE; lia).
      rewrite decide_False; [done|]. apply (page_disjoint (pm_end pm) a p); [rewrite <- He1; by apply (ai_valid _ _ A1)|done|by intros ->|done].
    + reflexivity.
    + intros n q. unfold root_tree. case_decide; intros [= <-]. split; [|exact HpF]. cbn. rewrite He1. exact Hv.
    + intros n n' q. unfold root_tree. by repeat case_decide; intros; simplify_eq.
    + intros n i q. unfold root_tree. case_decide; [by destruct n|done].
    + intros i [q Hq]. done.
    + intros n q i. unfold root_tree. case_decide as E; intros [= <-] _ Hi. subst n. cbn [app]. rewrite decide_False by done.
      rewrite load64_zero; [done|]. intros b Hb. rewrite M2, decide_True; [done|]. unfold PGSIZE. lia.
  - assert (same_fields pm pm1) as [] by (rewrite Sh1; by split). by split.
  - intros b Hb. rewrite M2, decide_False by done. rewrite M1. by rewrite decide_False.
Qed.

(** ** Unmapping a page without freeing it *)

Lemma unmap_one w F pt T i : vm_inv (k_pm (w_k w)) F pt T -> 0 <= i -> PGSIZE * (i + 1) <= MAXVA ->
  has (leaf (k_pm (w_k w)) T (PGSIZE * i)) PTE_V = true -> PTE_FLAGS (leaf (k_pm (w_k w)) T (PGSIZE * i)) <> PTE_V ->
  exists pm', uvmunmap pt (PGSIZE * i) 1 false w = Ret tt (with_k w (set_k_pm pm' (w_k w))) /\ vm_inv pm' F pt T /\
    leaf pm' T (PGSIZE * i) = 0 /\ (forall va, 0 <= va < MAXVA -> va / PGSIZE <> i -> leaf pm' T va = leaf (k_pm (w_k w)) T va) /\
    vm_frame (k_pm (w_k w)) pm' T.
Proof.
  intros H Hi Hm Hv Hf. set (pm := k_pm (w_k w)) in *. set (a := PGSIZE * i) in *.
  assert (0 <= a < MAXVA /\ a + PGSIZE <= MAXVA) as [Ha Ha'] by (unfold a, PGSIZE in *; lia).
  assert (exists ptea, leaf_addr T a = Some ptea /\ load64 (pm_mem pm) ptea = leaf pm T a) as (ptea & Ea & El).
  { unfold leaf in *. destruct (leaf_addr T a) as [x|]; [by exists x|]. vm_compute in Hv. done. }
  destruct (vm_set_leaf pm F pt T a ptea 0 H Ha Ea) as (H2 & Lf2 & Lf2' & Fr2); [lia|]. cbv zeta in *. set (pm2 := set_mem _ pm) in *.
  exists pm2. split_and!; try done.
  - change MAXVA with 274877906944 in Ha, Ha'. unfold uvmunmap. assert (a mod PGSIZE = 0) as -> by (unfold a; rewrite Z.mul_comm; by apply Z.mod_mul).
    change (0 =? 0) with true. cbn [negb]. change (Z.to_nat 1) with 1%nat. rewrite u64_small by (unfold PGSIZE in *; change (2 ^ 64) with 18446744073709551616; lia).
    cbn [uvmunmap_loop]. rewrite (proj2 (Z.ltb_lt _ _)) by (unfold PGSIZE; lia). rewrite (bind_ret _ _ _ _ _ (walk_lookup pt a Ha w F T H)). rewrite Ea.
    unfold ld64. rewrite bind_kget. fold pm. rewrite El, Hv. cbn [negb]. rewrite (proj2 (Z.eqb_neq _ _)) by done. cbn [kwhen].
    rewrite bind_mret. unfold st64. rewrite bind_mod_pm. rewrite u64_small by (unfold PGSIZE in *; change (2 ^ 64) with 18446744073709551616; lia).
    rewrite (proj2 (Z.ltb_ge _ _)) by (unfold PGSIZE; lia). done.
  - intros va Hva Hne. apply Lf2'; [done|]. unfold a. by rewrite page_index by lia.
Qed.

(** ** Giving the tables back *)

(** [uvmfree] of a table without mappings. *)
Lemma uvmfree_empty w F pt T : vm_inv (k_pm (w_k w)) F pt T -> L_kmem ∉ k_held (w_k w) ->
  (forall va, 0 <= va < MAXVA -> has (leaf (k_pm (w_k w)) T va) PTE_V = false) ->
  exists pm' F', uvmfree pt 0 w = Ret tt (with_k w (set_k_pm pm' (w_k w))) /\ freed (k_pm (w_k w)) F (fun a => exists n, T n = Some a) pm' F'.
Proof.
  intros H Hl Hno. destruct (uvmfree_ok pt 0 w F T H Hl) as (pm' & F' & E & [A S G M]); [by vm_compute|by apply umapped_empty|intros; by apply Hno|].
  assert (forall a, in_upages (k_pm (w_k w)) T 0 ((0 + PGSIZE - 1) / PGSIZE) a -> False) as Hu by (intros a (i & Hi & _); change ((0 + PGSIZE - 1) / PGSIZE) with 0 in Hi; lia).
  exists pm', F'. split; [done|]. split; try done.
  - intros a. rewrite G. split; [intros [?|[?|?%Hu]]; [by left|by right|done]|intros [?|?]; [by left|right; by left]].
  - intros b Hb. apply M. intros a [Ha|?%Hu]; [by apply Hb|done].
Qed.

(** ** The two pages at the top *)

(** The page numbers of the trampoline and the trapframe. *)
Definition TRAMP_PAGE : Z := 0x3ffffff.
Definition TF_PAGE : Z := 0x3fffffe.
Lemma tramp_page : TRAMPOLINE = PGSIZE * TRAMP_PAGE. Proof. done. Qed.
Lemma tf_page : TRAPFRAME = PGSIZE * TF_PAGE. Proof. done. Qed.

Lemma top_pages va : 0 <= va < MAXVA -> va < TRAPFRAME \/ va / PGSIZE = TF_PAGE \/ va / PGSIZE = TRAMP_PAGE.
Proof.
  change MAXVA with 274877906944. change TRAPFRAME with 274877898752. unfold PGSIZE, TF_PAGE, TRAMP_PAGE. intros. zlia.
Qed.

Lemma pte_leaf a perm : can_map a -> 0 <= perm < 1024 -> Z.testbit perm 1 = true ->
  has (pte_of a perm) PTE_V = true /\ PTE_FLAGS (pte_of a perm) <> PTE_V /\ PTE2PA (pte_of a perm) = a.
Proof.
  intros (H1 & H2 & H3) Hp Hb. destruct (pte_of_flags a perm) as (E1 & E2 & E3); [unfold PGSIZE in H3; lia|done|done|].
  split_and!; [done| |done]. rewrite E1. intros E. apply (f_equal (fun z => Z.testbit z 1)) in E. rewrite Z.lor_spec, Hb in E. done.
Qed.

(** [proc_freepagetable] gives back the user pages and all tables, but not
    the trampoline and the trapframe. *)
Lemma proc_freepagetable_ok w F pt T tf sz : let pm := k_pm (w_k w) in let n := npages sz in
  uspace pm F pt T tf n -> L_kmem ∉ k_held (w_k w) -> 0 <= sz <= TRAPFRAME -> can_map tf -> can_map (pm_trampoline pm) ->
  exists pm' F', proc_freepagetable pt sz w = Ret tt (with_k w (set_k_pm pm' (w_k w))) /\
    freed pm F (fun a => (exists n, T n = Some a) \/ in_upages pm T 0 n a) pm' F'.
Proof.
  intros pm n [H Hu Hlow Hno Ht Hf] Hl Hsz Ctf Ctr. unfold proc_freepagetable.
  destruct (pte_leaf _ (Z.lor PTE_R PTE_X) Ctr) as (A1 & A2 & _); [by vm_compute|done|].
  destruct (pte_leaf _ (Z.lor PTE_R PTE_W) Ctf) as (B1 & B2 & _); [by vm_compute|done|].
  destruct (unmap_one w F pt T TRAMP_PAGE H) as (pm1 & E1 & H1 & Z1 & L1 & Fr1); [by vm_compute|by vm_compute|rewrite <- tramp_page; fold pm; by rewrite Ht|rewrite <- tramp_page; fold pm; by rewrite Ht|].
  rewrite <- tramp_page in E1, Z1. fold pm in L1, Fr1. rewrite (bind_ret _ _ _ _ _ E1). set (w1 := with_k w (set_k_pm pm1 (w_k w))).
  assert (leaf pm1 T TRAPFRAME = leaf pm T TRAPFRAME) as L1f by (apply L1; [by vm_compute|by vm_compute]).
  destruct (unmap_one w1 F pt T TF_PAGE H1) as (pm2 & E2 & H2 & Z2 & L2 & Fr2); [by vm_compute|by vm_compute|rewrite <- tf_page; change (k_pm (w_k w1)) with pm1; by rewrite L1f, Hf|rewrite <- tf_page; change (k_pm (w_k w1)) with pm1; by rewrite L1f, Hf|].
  rewrite <- tf_page in E2, Z2. change (k_pm (w_k w1)) with pm1 in *. rewrite (bind_ret _ _ _ _ _ E2). set (w2 := with_k w1 (set_k_pm pm2 (w_k w1))).
  assert (pm_end pm2 = pm_end pm) as He by (rewrite (vf_end _ _ _ Fr2); apply Fr1).
  assert (forall va, 0 <= va < TRAPFRAME -> leaf pm2 T va = leaf pm T va) as Lo.
  { intros va Hva. change TRAPFRAME with 274877898752 in Hva. assert (0 <= va < MAXVA /\ va / PGSIZE <> TF_PAGE /\ va / PGSIZE <> TRAMP_PAGE) as (V1 & V2 & V3).
    { change MAXVA with 274877906944. unfold PGSIZE, TF_PAGE, TRAMP_PAGE. zlia. } by rewrite L2, L1. }
  assert (forall i, 0 <= i < n -> 0 <= PGSIZE * i < TRAPFRAME) as Hin by (intros i Hi; unfold PGSIZE in *; lia).
  assert (forall i, 0 <= i < n -> upage pm2 T i = upage pm T i) as Hup by (intros i Hi; unfold upage; by rewrite Lo by auto).
  destruct (uvmfree_ok pt sz w2 F T H2 Hl) as (pm' & F' & E & [A S G M]).
  - change TRAPFRAME with 274877898752 in Hsz. change MAXVA with 274877906944. lia.
  - apply (umapped_ext pm _ F _ T); [exact Hu|exact He| | |].
    + intros i Hi. by apply Lo, Hin.
    + intros i Hi. by apply (um_page _ _ _ _ _ Hu i Hi).
    + intros i m p Hi. by apply (um_page _ _ _ _ _ Hu i Hi).
  - intros va Hva Hn. change (k_pm (w_k w2)) with pm2. destruct (top_pages va Hva) as [Hv|[Hv|Hv]].
    + rewrite Lo by lia. apply Hno; [lia|exact Hn].
    + rewrite (leaf_page pm2 T va TRAPFRAME) by (rewrite Hv; by vm_compute). by rewrite Z2.
    + rewrite (leaf_page pm2 T va TRAMPOLINE) by (rewrite Hv; by vm_compute). rewrite L2, Z1; [done|by vm_compute|by vm_compute].
  - change (k_pm (w_k w2)) with pm2 in *. fold (npages sz) in G, M. fold n in G, M.
    assert (forall a, in_upages pm2 T 0 n a <-> in_upages pm T 0 n a) as Hi by (intros a; split; intros (i & ? & ->); exists i; (split; [done|]); [by apply Hup|by rewrite Hup]).
    exists pm', F'. split; [exact E|]. split.
    + exact A.
    + etransitivity; [exact (vm_frame_fields _ _ _ Fr1)|]. etransitivity; [exact (vm_frame_fields _ _ _ Fr2)|exact S].
    + intros a. rewrite G. rewrite Hi. done.
    + intros b Hb. rewrite M by (intros a Ha; apply Hb; rewrite <- Hi; exact Ha).
      assert (~ in_tree T b) as Hbt by (intros (m & p & Hm & Hp); apply (Hb p); [left; by exists m|exact Hp]).
      by rewrite (vf_mem _ _ _ Fr2), (vf_mem _ _ _ Fr1).
Qed.

(** ** A new address space *)

(** The pages that an operation on tables may use are those it had. *)
Lemma ext_uses pm F T pm' F' T' x : vm_ext pm F T pm' F' T' -> (x ∈ F \/ (exists n, T n = Some x)) <-> (x ∈ F' \/ exists n, T' n = Some x).
Proof.
  intros [Xs Xo Xn Xu _]. split.
  - intros [Hx|[n Hn]]; [by apply Xu|right; exists n; by apply Xo].
  - intros [Hx|[n Hn]]; [left; destruct Xs as [l ->]; apply elem_of_app; by right|]. apply Xn in Hn as [Hn|Hn]; [right; by exists n|by left].
Qed.

(** [mappages] of one page at the top of an address space in which that
    page is not mapped. *)
Lemma map_top w F pt T i pa perm : vm_inv (k_pm (w_k w)) F pt T -> L_kmem ∉ k_held (w_k w) -> 0 <= i -> PGSIZE * (i + 1) <= MAXVA ->
  can_map pa -> 0 <= perm < 1024 -> has (leaf (k_pm (w_k w)) T (PGSIZE * i)) PTE_V = false ->
  exists r pm' F' T', mappages pt (PGSIZE * i) PGSIZE pa perm w = Ret r (with_k w (set_k_pm pm' (w_k w))) /\ vm_inv pm' F' pt T' /\
    vm_ext (k_pm (w_k w)) F T pm' F' T' /\ (forall va, 0 <= va < MAXVA -> va / PGSIZE <> i -> leaf pm' T' va = leaf (k_pm (w_k w)) T va) /\
    (r = 0 /\ leaf pm' T' (PGSIZE * i) = pte_of pa perm /\ (length F <= length F' + 2)%nat \/
     r = -1 /\ leaf pm' T' (PGSIZE * i) = leaf (k_pm (w_k w)) T (PGSIZE * i) /\ (length F < 2)%nat).
Proof.
  intros H Hl Hi Hm (C1 & C2 & C3) Hp Hno. set (a := PGSIZE * i) in *.
  assert (a / PGSIZE = i) as Ea by (unfold a; by apply page_index).
  assert (0 <= a < MAXVA) as Ha by (unfold a, PGSIZE in *; lia).
  destruct (mappages_ok pt a PGSIZE pa perm w F T H Hl) as (r & k & pm' & F' & T' & E & H' & X & [Mp1 Mp2] & Hr); [lia|unfold PGSIZE; lia|unfold a, PGSIZE in *; lia|done|unfold PGSIZE in *; lia|done| |].
  { intros v Hv. rewrite (leaf_page _ T v a); [done|]. rewrite Ea. unfold a, PGSIZE in *. zlia. }
  replace (Z.to_nat ((a + PGSIZE - 1) / PGSIZE - a / PGSIZE + 1)) with 1%nat in Hr by (unfold a, PGSIZE in *; zlia).
  rewrite Ea in *. assert (i * PGSIZE = a) as Ei by (unfold a; lia).
  exists r, pm', F', T'. split; [done|]. split; [done|]. split; [done|]. split.
  { intros va Hva Hne. apply Mp2; [done|]. intros j Hj. rewrite Ei, Ea. destruct Hr as [(_ & -> & _)|(_ & Hk & _)]; lia. }
  destruct Hr as [(-> & -> & Hlen)|(-> & Hk & -> & Hlen)].
  - left. split_and!; [done| |lia]. specialize (Mp1 0). rewrite Z.mul_0_r, !Z.add_0_r, Ei in Mp1. apply Mp1. lia.
  - right. split_and!; [done| |done]. apply Mp2; [done|]. intros j Hj. lia.
Qed.

(** What [proc_pagetable] does to the memory: only free pages change, and
    the pages left are free or tables of the result. *)
Record pt_made (pm : physmem) (F : list Z) (pm' : physmem) (F' : list Z) (X : Z -> Prop) : Prop := {
  pm_fields : same_fields pm pm';
  pm_balance : forall a, a ∈ F <-> a ∈ F' \/ X a;
  pm_kept : forall b, (forall a, a ∈ F -> ~ in_page a b) -> pm_mem pm' b = pm_mem pm b
}.

(** A table under construction: [T] has grown from free pages. *)
Record building (pm : physmem) (F : list Z) (pt : Z) (pm1 : physmem) (F1 : list Z) (T : tree) : Prop := {
  bd_vm : vm_inv pm1 F1 pt T;
  bd_made : pt_made pm F pm1 F1 (fun a => exists n, T n = Some a)
}.

Lemma building_frame pm F pt pm1 F1 T pm2 : building pm F pt pm1 F1 T -> vm_inv pm2 F1 pt T -> vm_frame pm1 pm2 T -> building pm F pt pm2 F1 T.
Proof.
  intros [H [S G M]] H2 Fr. split; [done|]. split; [etransitivity; [exact S|exact (vm_frame_fields _ _ _ Fr)]|done|].
  intros b Hb. rewrite (vf_mem _ _ _ Fr); [by apply M|]. intros (n & p & Hn & Hp). apply (Hb p); [|done]. apply G. right. by exists n.
Qed.

Lemma building_ext pm F pt pm1 F1 T pm2 F2 T2 : building pm F pt pm1 F1 T -> vm_inv pm2 F2 pt T2 -> vm_ext pm1 F1 T pm2 F2 T2 -> building pm F pt pm2 F2 T2.
Proof.
  intros [H [S G M]] H2 X. split; [done|]. assert (forall a, a ∈ F <-> a ∈ F2 \/ exists n, T2 n = Some a) as G2 by (intros a; rewrite G; by apply (ext_uses pm1 F1 T pm2 F2 T2)).
  split; [etransitivity; [exact S|exact (vm_frame_fields _ _ _ (ve_frame _ _ _ _ _ _ X))]|done|].
  intros b Hb. rewrite (vf_mem _ _ _ (ve_frame _ _ _ _ _ _ X)); [by apply M|]. intros (n & p & Hn & Hp). apply (Hb p); [|done]. apply G2. right. by exists n.
Qed.

(** Giving up: the table has no mappings and is freed. *)
Lemma building_free pm F pt w F1 T : building pm F pt (k_pm (w_k w)) F1 T -> L_kmem ∉ k_held (w_k w) ->
  (forall va, 0 <= va < MAXVA -> has (leaf (k_pm (w_k w)) T va) PTE_V = false) ->
  exists pm' F', (uvmfree pt 0;; mret 0) w = Ret 0 (with_k w (set_k_pm pm' (w_k w))) /\ alloc_inv pm' F' /\ pt_made pm F pm' F' (fun _ => False).
Proof.
  intros [H [S G M]] Hl Hno. destruct (uvmfree_empty w F1 pt T H Hl Hno) as (pm' & F' & E & [A S' G' M']). exists pm', F'. split; [by rewrite (bind_ret _ _ _ _ _ E)|].
  split; [done|]. split; [by etransitivity| |].
  - intros a. rewrite G', G. split; [by left|by intros [?|[]]].
  - intros b Hb. rewrite M'; [by apply M|]. intros a Ha. apply Hb, G. by right.
Qed.

Lemma no_leaf : has 0 PTE_V = false.
Proof. done. Qed.

(** [proc_pagetable] gives an address space without user pages, or returns
    0 with all pages free again; five free pages are enough. *)
Lemma proc_pagetable_ok w F i : let pm := k_pm (w_k w) in let tf := p_trapframe (proc_at (k_ps (w_k w)) i) in
  alloc_inv pm F -> L_kmem ∉ k_held (w_k w) -> can_map tf -> can_map (pm_trampoline pm) ->
  exists r pm' F', proc_pagetable i w = Ret r (with_k w (set_k_pm pm' (w_k w))) /\ alloc_inv pm' F' /\
    (r <> 0 /\ (exists T, uspace pm' F' r T tf 0 /\ pt_made pm F pm' F' (fun a => exists n, T n = Some a)) /\ (length F <= length F' + 5)%nat \/
     r = 0 /\ (length F < 5)%nat /\ pt_made pm F pm' F' (fun _ => False)).
Proof.
  intros pm tf HA Hl Ctf Ctr. pose proof (uvmcreate_ok w F HA Hl) as Hc. unfold proc_pagetable. destruct F as [|p F1].
  { exists 0, pm, []. rewrite (bind_ret _ _ _ _ _ Hc). split; [by destruct w as [? []]|]. split; [done|]. right. split; [done|]. split; [cbn; lia|]. split; [done| |done]. naive_solver. }
  destruct Hc as (pm1 & E1 & Hp0 & H1 & S1 & M1). rewrite (bind_ret _ _ _ _ _ E1). rewrite (proj2 (Z.eqb_neq p 0)) by done. set (w1 := with_k w (set_k_pm pm1 (w_k w))).
  assert (building pm (p :: F1) p pm1 F1 (root_tree p)) as B1.
  { split; [done|]. split; [done| |].
    - intros a. rewrite elem_of_cons. unfold root_tree. split.
      + intros [->|?]; [right; by exists []|by left].
      + intros [?|[n Hn]]; [by right|]. case_decide; simplify_eq. by left.
    - intros b Hb. apply M1, Hb. set_solver. }
  rewrite bind_kget. change (k_pm (w_k w1)) with pm1. rewrite (sf_trampoline _ _ S1). fold pm.
  destruct (map_top w1 F1 p (root_tree p) TRAMP_PAGE (pm_trampoline pm) (Z.lor PTE_R PTE_X) H1 Hl) as (r2 & pm2 & F2 & T2 & E2 & H2 & X2 & L2 & R2); [by vm_compute|by vm_compute|done|by vm_compute|done|].
  rewrite <- tramp_page in E2, R2. rewrite (bind_ret _ _ _ _ _ E2). change (k_pm (w_k w1)) with pm1 in *. set (w2 := with_k w1 (set_k_pm pm2 (w_k w1))).
  pose proof (building_ext _ _ _ _ _ _ _ _ _ B1 H2 X2) as B2.
  assert (forall va, leaf pm1 (root_tree p) va = 0) as L1 by (intros; done).
  destruct R2 as [(-> & R2 & N2)|(-> & R2 & N2)].
  2: { change (-1 <? 0) with true. cbv iota. destruct (building_free pm _ p w2 F2 T2 B2 Hl) as (pm' & F' & E & A & P).
    { intros va Hva. change (k_pm (w_k w2)) with pm2. destruct (top_pages va Hva) as [Hv|[Hv|Hv]].
      - rewrite L2, L1; [done|done|]. change TRAPFRAME with 274877898752 in Hv. unfold PGSIZE, TRAMP_PAGE. zlia.
      - rewrite L2, L1; [done|done|by rewrite Hv].
      - rewrite (leaf_page _ _ va TRAMPOLINE) by (rewrite Hv; by vm_compute). by rewrite R2, L1. }
    exists 0, pm', F'. split; [exact E|]. split; [done|]. right. cbn [length]. split_and!; [done|lia|done]. }
  change (0 <? 0) with false. cbv iota. unfold get_proc. rewrite bind_kget. change (p_trapframe (proc_at (k_ps (w_k w2)) i)) with tf.
  destruct (map_top w2 F2 p T2 TF_PAGE tf (Z.lor PTE_R PTE_W) H2 Hl) as (r3 & pm3 & F3 & T3 & E3 & H3 & X3 & L3 & R3); [by vm_compute|by vm_compute|done|by vm_compute| |].
  { rewrite <- tf_page. change (k_pm (w_k w2)) with pm2. by rewrite L2, L1 by by vm_compute. }
  rewrite <- tf_page in E3, R3. rewrite (bind_ret _ _ _ _ _ E3). change (k_pm (w_k w2)) with pm2 in *. set (w3 := with_k w2 (set_k_pm pm3 (w_k w2))).
  pose proof (building_ext _ _ _ _ _ _ _ _ _ B2 H3 X3) as B3.
  assert (leaf pm3 T3 TRAMPOLINE = pte_of (pm_trampoline pm) (Z.lor PTE_R PTE_X)) as Lt by (rewrite L3; [done|by vm_compute|by vm_compute]).
  assert (forall va, 0 <= va < TRAPFRAME -> leaf pm3 T3 va = 0) as Lo.
  { intros va Hva. change TRAPFRAME with 274877898752 in Hva. rewrite L3, L2, L1; [done|..]; change MAXVA with 274877906944; unfold PGSIZE, TRAMP_PAGE, TF_PAGE; zlia. }
  destruct R3 as [(-> & R3 & N3)|(-> & R3 & N3)].
  - change (0 <? 0) with false. cbv iota. exists p, pm3, F3. split; [done|]. split; [apply B3|]. left. split; [done|]. split; [|cbn [length]; lia]. exists T3. split; [|apply B3].
    split; [done|by apply umapped_empty|by vm_compute| | |done].
    + intros va Hva _. by rewrite Lo.
    + rewrite Lt. by rewrite (sf_trampoline _ _ (pm_fields _ _ _ _ _ (bd_made _ _ _ _ _ _ B3))).
  - change (-1 <? 0) with true. cbv iota. destruct (pte_leaf _ (Z.lor PTE_R PTE_X) Ctr) as (A1 & A2 & _); [by vm_compute|done|].
    destruct (unmap_one w3 F3 p T3 TRAMP_PAGE H3) as (pm4 & E4 & H4 & Z4 & L4 & Fr4); [by vm_compute|by vm_compute|rewrite <- tramp_page; change (k_pm (w_k w3)) with pm3; by rewrite Lt|rewrite <- tramp_page; change (k_pm (w_k w3)) with pm3; by rewrite Lt|].
    rewrite <- tramp_page in E4, Z4. rewrite (bind_ret _ _ _ _ _ E4). change (k_pm (w_k w3)) with pm3 in *. set (w4 := with_k w3 (set_k_pm pm4 (w_k w3))).
    pose proof (building_frame _ _ _ _ _ _ _ B3 H4 Fr4) as B4.
    destruct (building_free pm _ p w4 F3 T3 B4 Hl) as (pm' & F' & E & A & P).
    { intros va Hva. change (k_pm (w_k w4)) with pm4. destruct (top_pages va Hva) as [Hv|[Hv|Hv]].
      - change TRAPFRAME with 274877898752 in Hv. rewrite L4, Lo; [done|change TRAPFRAME with 274877898752; lia|done|]. unfold PGSIZE, TRAMP_PAGE. zlia.
      - rewrite (leaf_page _ _ va TRAPFRAME) by (rewrite Hv; by vm_compute). rewrite L4, R3, L2, L1; [done|by vm_compute..].
      - rewrite (leaf_page _ _ va TRAMPOLINE) by (rewrite Hv; by vm_compute). by rewrite Z4. }
    exists 0, pm', F'. split; [exact E|]. split; [done|]. right. cbn [length]. split_and!; [done|lia|done].
Qed.

(** ** Address spaces side by side *)

(** The pages of an address space: its tables and its user pages. *)
Definition own (pm : physmem) (T : tree) (n a : Z) : Prop := (exists m, T m = Some a) \/ in_upages pm T 0 n a.

Lemma own_valid pm F pt T tf n a : uspace pm F pt T tf n -> own pm T n a -> valid_page (pm_end pm) a /\ a ∉ F.
Proof.
  intros H [[m Hm]|(i & Hi & ->)]; [by apply (vi_page _ _ _ _ (us_vm _ _ _ _ _ _ H) m)|]. by destruct (um_page _ _ _ _ _ (us_user _ _ _ _ _ _ H) i Hi) as (? & ? & _).
Qed.

Lemma own_free pm F pt T tf n a b : uspace pm F pt T tf n -> own pm T n a -> in_page a b -> forall x, x ∈ F -> ~ in_page x b.
Proof.
  intros H Ha Hb x Hx Hxb. destruct (own_valid _ _ _ _ _ _ _ H Ha) as [Hv HF].
  apply (page_disjoint (pm_end pm) x a b); [by apply (ai_valid _ _ (vi_alloc _ _ _ _ (us_vm _ _ _ _ _ _ H)))|done|by intros ->|done|done].
Qed.

Lemma phys_own pm F pt T tf n va : uspace pm F pt T tf n -> 0 <= va < PGSIZE * n -> exists a, own pm T n a /\ in_page a (phys pm T va).
Proof.
  intros H Hva. assert (0 <= va / PGSIZE < n) as Hj by (unfold PGSIZE in *; zlia). exists (upage pm T (va / PGSIZE)). split; [right; by exists (va / PGSIZE)|].
  unfold phys, upage. rewrite (leaf_page pm T va (PGSIZE * (va / PGSIZE))) by (rewrite page_index by lia; done). unfold in_page. pose proof (Z.mod_pos_bound va PGSIZE eq_refl). lia.
Qed.

(** An address space survives what does not touch its pages. *)
Lemma uspace_kept pm F pt T tf n pm' F' : uspace pm F pt T tf n -> alloc_inv pm' F' -> pm_end pm' = pm_end pm -> pm_trampoline pm' = pm_trampoline pm ->
  (forall a, own pm T n a -> a ∉ F') -> (forall a b, own pm T n a -> in_page a b -> pm_mem pm' b = pm_mem pm b) ->
  uspace pm' F' pt T tf n /\ (forall va, leaf pm' T va = leaf pm T va) /\
  (forall va, 0 <= va < PGSIZE * n -> pm_mem pm' (phys pm T va) = pm_mem pm (phys pm T va)).
Proof.
  intros H A He Ht HF Hm. destruct (vm_inv_ext pm pm' F F' pt T (us_vm _ _ _ _ _ _ H) A He) as [H' L'].
  { intros m p Hp. apply HF. left. by exists m. }
  { intros b (m & p & Hp & Hb). apply (Hm p); [left; by exists m|exact Hb]. }
  split_and!; [|exact L'|].
  - destruct H as [H Hu Hlow Hno Htr Hf]. split; try done.
    + apply (umapped_ext pm _ F _ T); [done|done|by intros| |].
      * intros i Hi. apply HF. right. by exists i.
      * intros i m p Hi. by apply (um_page _ _ _ _ _ Hu i Hi).
    + intros va Hva Hn. rewrite L'. by apply Hno.
    + by rewrite L', Ht.
    + by rewrite L'.
  - intros va Hva. destruct (phys_own _ _ _ _ _ _ _ H Hva) as (a & Ha & Hb). by apply (Hm a).
Qed.

Lemma npages_0 : npages 0 = 0. Proof. done. Qed.

(** Page numbers and leaves below the top. *)
Lemma low_va n : 0 <= n -> PGSIZE * n <= TRAPFRAME -> n <= TF_PAGE /\ n <= TRAMP_PAGE /\ PGSIZE * n <= MAXVA.
Proof. change TRAPFRAME with 274877898752. change MAXVA with 274877906944. unfold PGSIZE, TF_PAGE, TRAMP_PAGE. lia. Qed.

(** [uvmcopy] into an address space without user pages. *)
Lemma uvmcopy_space w F old T0 tf new T tfc sz : let pm := k_pm (w_k w) in let n := npages sz in
  uspace pm F old T0 tf n -> uspace pm F new T tfc 0 -> 0 <= sz <= TRAPFRAME -> L_kmem ∉ k_held (w_k w) ->
  (forall a m, own pm T0 n a -> T m <> Some a) ->
  exists r pm' F' T', uvmcopy old new sz w = Ret r (with_k w (set_k_pm pm' (w_k w))) /\ same_fields pm pm' /\ mem_kept F T pm pm' /\
    (forall m p, T' m = Some p -> T m = Some p \/ p ∈ F) /\
    (r = 0 /\ uspace pm' F' new T' tfc n /\ (forall a, (a ∈ F \/ exists m, T m = Some a) <-> (a ∈ F' \/ own pm' T' n a)) /\
       (forall va, 0 <= va < PGSIZE * n -> pm_mem pm' (phys pm' T' va) = pm_mem pm (phys pm T0 va) /\ exists q, q ∈ F /\ leaf pm' T' va = pte_of q (PTE_FLAGS (leaf pm T0 va))) \/
     r = -1 /\ uspace pm' F' new T' tfc 0 /\ (forall a, (a ∈ F \/ exists m, T m = Some a) <-> (a ∈ F' \/ exists m, T' m = Some a)) /\ Z.of_nat (length F) < 3 * n).
Proof.
  intros pm n H0 H Hsz Hl Hd. assert (0 <= sz <= MAXVA) as Hsz' by (change TRAPFRAME with 274877898752 in Hsz; change MAXVA with 274877906944; lia).
  pose proof (npages_bound sz Hsz') as (N1 & _ & _). fold n in N1. destruct (low_va n N1 (us_low _ _ _ _ _ _ H0)) as (N2 & N3 & N4).
  assert (forall i, 0 <= i < n -> 0 <= PGSIZE * i < TRAPFRAME) as Hin by (intros i Hi; pose proof (us_low _ _ _ _ _ _ H0); unfold PGSIZE in *; lia).
  destruct (uvmcopy_run old new sz T0 pm F (us_vm _ _ _ _ _ _ H0) (us_user _ _ _ _ _ _ H0) Hsz' w T) as (r & pm' & F' & T' & E & H' & Hr).
  - done.
  - apply H.
  - done.
  - intros m m' p Hm. apply Hd. left. by exists m.
  - intros i m p Hi Hm ->. revert Hm. apply Hd. right. by exists i.
  - intros i Hi. apply (us_none _ _ _ _ _ _ H); [by apply Hin|]. rewrite page_index by lia. lia.
  - exists r, pm', F', T'. split; [exact E|].
    assert (forall pm1 T1, (forall va, 0 <= va < MAXVA -> n <= va / PGSIZE -> leaf pm1 T1 va = leaf pm T va) -> pm_trampoline pm1 = pm_trampoline pm ->
       leaf pm1 T1 TRAMPOLINE = pte_of (pm_trampoline pm1) (Z.lor PTE_R PTE_X) /\ leaf pm1 T1 TRAPFRAME = pte_of tfc (Z.lor PTE_R PTE_W)) as Htop.
    { intros pm1 T1 Hlf Ht. rewrite Ht. rewrite (Hlf TRAMPOLINE) by (exact N3 || by vm_compute). rewrite (Hlf TRAPFRAME) by (exact N2 || by vm_compute). split; [exact (us_tramp _ _ _ _ _ _ H)|exact (us_tf _ _ _ _ _ _ H)]. }
    fold n in Hr. destruct Hr as [(-> & Hf)|(-> & Hg)].
    + pose proof (fl_grown _ _ _ _ _ _ _ _ _ _ _ Hf) as [G1 G2 G3 G4]. split; [exact G1|]. split; [apply Hf|]. split; [exact G4|]. left.
      assert (forall va, 0 <= va < MAXVA -> n <= va / PGSIZE -> leaf pm' T' va = leaf pm T va) as Hlf by (intros va Hva Hn; apply (fl_leaf _ _ _ _ _ _ _ _ _ _ _ Hf); [done|by right]).
      destruct (Htop pm' T' Hlf (sf_trampoline _ _ G1)) as [Ht1 Ht2]. split_and!; [done| | |].
      * split; [done|apply Hf|apply H0| |done|done]. intros va Hva Hn. assert (0 <= va < MAXVA) as Hva' by (change TRAPFRAME with 274877898752 in Hva; change MAXVA with 274877906944; lia).
        rewrite Hlf by done. apply (us_none _ _ _ _ _ _ H); [done|]. unfold PGSIZE. apply Z.div_pos; lia.
      * intros a. pose proof (fl_uses _ _ _ _ _ _ _ _ _ _ _ Hf a) as Hu. unfold uses, own in *. tauto.
      * intros va Hva. destruct (filled_phys _ _ _ _ _ _ _ _ _ _ _ va Hf) as [Hb (q & Hq & Hlq)]; [lia|lia|].
        assert (leaf pm T0 va = leaf pm T0 (PGSIZE * (va / PGSIZE))) as El by (apply leaf_page; rewrite page_index; [done|unfold PGSIZE; apply Z.div_pos; lia]).
        split; [|exists q; split; [done|by rewrite El]]. rewrite Hb. unfold phys, upage. by rewrite El.
    + destruct Hg as [G1 G2 G3 G4 G5 G6 G7 G8]. split; [exact G1|]. split; [|split; [exact G3|right]].
      { intros b Hb HF. apply G7; [done|]. intros a [Ha|(i & Hi & _)]; [by apply HF|lia]. }
      assert (forall va, 0 <= va < MAXVA -> n <= va / PGSIZE -> leaf pm' T' va = leaf pm T va) as Hlf by (intros va Hva Hn; apply G5; [done|by right]).
      destruct (Htop pm' T' Hlf (sf_trampoline _ _ G1)) as [Ht1 Ht2]. split_and!; [done| | |lia].
      * split; [done|by apply umapped_empty|by vm_compute| |done|done]. intros va Hva Hn. assert (0 <= va < MAXVA) as Hva' by (change TRAPFRAME with 274877898752 in Hva; change MAXVA with 274877906944; lia).
        destruct (decide (n <= va / PGSIZE)) as [Hge|Hlt]; [rewrite Hlf by done; by apply (us_none _ _ _ _ _ _ H)|].
        rewrite (leaf_page pm' T' va (PGSIZE * (va / PGSIZE))) by (rewrite page_index by lia; done). apply G4. lia.
      * intros a. specialize (G6 a). unfold uses in G6. assert (~ in_upages pm T 0 0 a) as Hno by (intros (i & Hi & _); lia). tauto.
Qed.
