(* ===== verification/ProcProps.v ===== *)
(** * ProcProps: creating and discarding processes

    Theorems about freeproc, allocproc and fork of Proc: which pages, table
    slots and references a new process gets, and that a failure gives
    everything back. *)

From S2P Require Import Prelude.
From S2P Require Import State.
From S2P Require Import Kernel.
From S2P Require Import Mlfq.
From S2P Require Import Sched.
From S2P Require Import SchedInv.
From S2P Require Import SchedProps.
From S2P Require Import Mem.
From S2P Require Import Kalloc.
From S2P Require Import Vm.
From S2P Require Import VmProps.
From S2P Require Import UvmProps.
From S2P Require Import Bio.
From S2P Require Import Log.
From S2P Require Import Fs.
From S2P Require Import File.
From S2P Require Import Proc.
From S2P Require Import ProcVm.

#[local] Opaque memset store64 load64 pte_of.

(** ** Slots of the process table *)

Lemma upd_ext i f g ps : f (proc_at ps i) = g (proc_at ps i) -> upd_proc i f ps = upd_proc i g ps.
Proof. intros E. unfold upd_proc. by rewrite E. Qed.

Lemma upd_id i f ps : f (proc_at ps i) = proc_at ps i -> (i < length (ps_proc ps))%nat -> upd_proc i f ps = ps.
Proof.
  intros E Hi. unfold upd_proc. rewrite E. rewrite list_insert_id; [by destruct ps|]. unfold proc_at.
  rewrite nth_lookup. by destruct (lookup_lt_is_Some_2 _ _ Hi) as [x ->].
Qed.

Lemma mod_proc_step {B} i f (k : unit -> K B) w : (x ← mod_proc i f; k x) w = k tt (with_k w (set_k_ps (upd_proc i f (k_ps (w_k w))) (w_k w))).
Proof. done. Qed.

(** Two updates of a slot in a row. *)
Lemma mod_proc_comp {B} i f g (k : unit -> K B) w : (i < length (ps_proc (k_ps (w_k w))))%nat ->
  (mod_proc i f;; x ← mod_proc i g; k x) w = (x ← mod_proc i (fun p => g (f p)); k x) w.
Proof.
  intros Hi. rewrite !mod_proc_step. unfold with_k. cbn. rewrite upd_upd by done. by destruct (w_k w).
Qed.

Lemma length_upd i f ps : length (ps_proc (upd_proc i f ps)) = length (ps_proc ps).
Proof. unfold upd_proc. cbn. by rewrite length_insert. Qed.

Lemma proc_at_upd_eq i f ps : (i < length (ps_proc ps))%nat -> proc_at (upd_proc i f ps) i = f (proc_at ps i).
Proof. intros Hi. apply nth_lookup_Some. by apply list_lookup_insert_eq. Qed.

(** ** freeproc *)

(** The slot after [freeproc]. *)
Definition freed_proc (p : proc) : proc :=
  set_p_nice 0 (set_p_state UNUSED (set_p_xstate 0 (set_p_killed 0 (set_p_chan None
    (set_p_name (aset (p_name p) 0 0) (set_p_parent None (set_p_pid 0 (set_p_sz 0
      (set_p_pagetable 0 (set_p_trapframe 0 p)))))))))).

Lemma free_fields i w : (i < length (ps_proc (k_ps (w_k w))))%nat ->
  (mod_proc i (set_p_pagetable 0);; mod_proc i (set_p_sz 0);; mod_proc i (set_p_pid 0);; mod_proc i (set_p_parent None);;
   mod_proc i (fun p => set_p_name (aset (p_name p) 0 0) p);; mod_proc i (set_p_chan None);; mod_proc i (set_p_killed 0);;
   mod_proc i (set_p_xstate 0);; mod_proc i (set_p_state UNUSED);; mod_proc i (set_p_nice 0)) w =
  mod_proc i (fun p => set_p_nice 0 (set_p_state UNUSED (set_p_xstate 0 (set_p_killed 0 (set_p_chan None
    (set_p_name (aset (p_name p) 0 0) (set_p_parent None (set_p_pid 0 (set_p_sz 0 (set_p_pagetable 0 p)))))))))) w.
Proof.
  intros Hi. rewrite !mod_proc_comp by done. rewrite mod_proc_step. unfold mod_proc, mod_ps, kmod, with_k. cbn.
  rewrite upd_upd by done. by destruct (w_k w).
Qed.

(** The pages that a process owns: none, the trapframe, or the trapframe
    and an address space. *)
Inductive proc_mem (pm : physmem) (F : list Z) (p : proc) : (Z -> Prop) -> Prop :=
| proc_none : p_trapframe p = 0 -> p_pagetable p = 0 -> proc_mem pm F p (fun _ => False)
| proc_tf : valid_page (pm_end pm) (p_trapframe p) -> p_trapframe p ∉ F -> p_pagetable p = 0 ->
    proc_mem pm F p (fun a => a = p_trapframe p)
| proc_all T : valid_page (pm_end pm) (p_trapframe p) -> p_trapframe p ∉ F -> p_pagetable p <> 0 ->
    uspace pm F (p_pagetable p) T (p_trapframe p) (npages (p_sz p)) -> 0 <= p_sz p <= TRAPFRAME -> can_map (pm_trampoline pm) ->
    (forall n, T n <> Some (p_trapframe p)) -> ~ in_upages pm T 0 (npages (p_sz p)) (p_trapframe p) ->
    proc_mem pm F p (fun a => a = p_trapframe p \/ (exists n, T n = Some a) \/ in_upages pm T 0 (npages (p_sz p)) a).

(** The page of the trapframe goes back first. *)
Definition drop_tf (tf : Z) (pm : physmem) : physmem := if tf =? 0 then pm else set_pm_tf (delete tf (pm_tf pm)) pm.

Lemma free_tf w F tf : let pm := k_pm (w_k w) in alloc_inv pm F -> L_kmem ∉ k_held (w_k w) -> valid_page (pm_end pm) tf -> tf ∉ F ->
  exists pm1, (kwhen (negb (tf =? 0)) (mod_pm (fun pm => set_pm_tf (delete tf (pm_tf pm)) pm);; kfree tf)) w = Ret tt (with_k w (set_k_pm pm1 (w_k w))) /\
    alloc_inv pm1 (tf :: F) /\ same_fields (drop_tf tf pm) pm1 /\ (forall b, ~ in_page tf b -> pm_mem pm1 b = pm_mem pm b).
Proof.
  intros pm HA Hl Hv HF. assert (tf <> 0) as H0 by (pose proof (ai_end _ _ HA); destruct Hv as [_ Hv]; lia).
  unfold drop_tf. rewrite (proj2 (Z.eqb_neq tf 0)) by done. cbn [negb kwhen]. rewrite bind_mod_pm. set (w1 := with_k w _).
  assert (alloc_inv (k_pm (w_k w1)) F) as HA1 by (by destruct HA).
  destruct (kfree_ok tf w1 F HA1 Hl Hv HF) as (pm1 & E & A & He & Ht & M). exists pm1. split_and!; [exact E|done| |exact M].
  by apply (kfree_same tf w1).
Qed.

Lemma uspace_ext pm pm' F F' pt T tf n : uspace pm F pt T tf n -> vm_inv pm' F' pt T -> (forall va, leaf pm' T va = leaf pm T va) ->
  pm_end pm' = pm_end pm -> pm_trampoline pm' = pm_trampoline pm -> (forall i, 0 <= i < n -> upage pm T i ∉ F') -> uspace pm' F' pt T tf n.
Proof.
  intros [H Hu Hlow Hno Ht Hf] H' Hlf He Htr HF. split; try done.
  - apply (umapped_ext pm _ F _ T); [done|done|by intros|done|]. intros i m p Hi. by apply (um_page _ _ _ _ _ Hu i Hi).
  - intros va Hva Hn. rewrite Hlf. by apply Hno.
  - by rewrite Hlf, Htr.
  - by rewrite Hlf.
Qed.

Lemma freeproc_ok w i F X : let pm := k_pm (w_k w) in let p := proc_at (k_ps (w_k w)) i in
  alloc_inv pm F -> L_kmem ∉ k_held (w_k w) -> (i < length (ps_proc (k_ps (w_k w))))%nat -> proc_mem pm F p X ->
  exists pm' F', freeproc i w = Ret tt (with_k w (set_k_ps (upd_proc i freed_proc (k_ps (w_k w))) (set_k_pm pm' (w_k w)))) /\
    freed (drop_tf (p_trapframe p) pm) F X pm' F'.
Proof.
  intros pm p HA Hl Hi HX. unfold freeproc, get_proc. rewrite bind_kget. fold p.
  assert (forall pm' w', w' = with_k w (set_k_ps (upd_proc i (set_p_trapframe 0) (k_ps (w_k w))) (set_k_pm pm' (w_k w))) ->
    (mod_proc i (set_p_pagetable 0);; mod_proc i (set_p_sz 0);; mod_proc i (set_p_pid 0);; mod_proc i (set_p_parent None);;
     mod_proc i (fun p => set_p_name (aset (p_name p) 0 0) p);; mod_proc i (set_p_chan None);; mod_proc i (set_p_killed 0);;
     mod_proc i (set_p_xstate 0);; mod_proc i (set_p_state UNUSED);; mod_proc i (set_p_nice 0)) w' =
    Ret tt (with_k w (set_k_ps (upd_proc i freed_proc (k_ps (w_k w))) (set_k_pm pm' (w_k w))))) as Hend.
  { intros pm' w' ->. rewrite free_fields by (cbn; by rewrite length_insert). unfold mod_proc at 1, mod_ps, kmod, with_k. cbn. rewrite upd_upd by done. done. }
  destruct HX as [Htf Hpt|Hv HF Hpt|T Hv HF Hpt Hsp Hsz Ctr HT HU].
  - unfold drop_tf. rewrite Htf, Hpt. change (0 =? 0) with true. cbn [negb kwhen]. rewrite bind_mret, mod_proc_step, bind_mret.
    exists pm, F. split; [apply Hend; by destruct w as [? []]|]. split; [done|done|naive_solver|done].
  - destruct (free_tf w F (p_trapframe p) HA Hl Hv HF) as (pm1 & E1 & A1 & S1 & M1). rewrite (bind_ret _ _ _ _ _ E1), Hpt. change (0 =? 0) with true. cbn [negb kwhen].
    rewrite mod_proc_step, bind_mret. exists pm1, (p_trapframe p :: F). split; [by apply Hend|]. split; [done|done| |].
    + intros a. rewrite elem_of_cons. clear; tauto.
    + intros b Hb. unfold drop_tf. destruct (_ =? _); cbn; apply M1; by apply Hb.
  - destruct (free_tf w F (p_trapframe p) HA Hl Hv HF) as (pm1 & E1 & A1 & S1 & M1). rewrite (bind_ret _ _ _ _ _ E1).
    rewrite (proj2 (Z.eqb_neq (p_pagetable p) 0)) by done. cbn [negb kwhen]. rewrite mod_proc_step. set (w1 := with_k _ _).
    assert (pm_end pm1 = pm_end pm /\ pm_trampoline pm1 = pm_trampoline pm) as [He1 Htr1].
    { destruct S1 as [S11 _ _ _ S15]. rewrite S11, S15. unfold drop_tf. by destruct (_ =? _). }
    destruct (vm_inv_ext pm pm1 F (p_trapframe p :: F) (p_pagetable p) T (us_vm _ _ _ _ _ _ Hsp) A1 He1) as [H1 L1].
    { intros n q Hn. rewrite not_elem_of_cons. split; [intros ->; by apply (HT n)|by apply (vi_page _ _ _ _ (us_vm _ _ _ _ _ _ Hsp) n)]. }
    { intros b (n & q & Hn & Hq). apply M1. apply (page_disjoint (pm_end pm) q); [by apply (vi_page _ _ _ _ (us_vm _ _ _ _ _ _ Hsp) n)|done|intros ->; by apply (HT n)|done]. }
    assert (uspace pm1 (p_trapframe p :: F) (p_pagetable p) T (p_trapframe p) (npages (p_sz p))) as Hsp1.
    { apply (uspace_ext pm _ F); try done. intros j Hj. rewrite not_elem_of_cons. split; [intros E; apply HU; by exists j|by apply (um_page _ _ _ _ _ (us_user _ _ _ _ _ _ Hsp) j Hj)]. }
    destruct (proc_freepagetable_ok w1 _ _ T (p_trapframe p) (p_sz p) Hsp1) as (pm2 & F2 & E2 & [A2 S2 G2 M2]); [done|done|by apply (valid_can_map pm F)|by change (k_pm (w_k w1)) with pm1; rewrite Htr1|].
    change (k_pm (w_k w1)) with pm1 in *. rewrite (bind_ret _ _ _ _ _ E2). exists pm2, F2. split; [by apply Hend|].
    assert (forall a, in_upages pm1 T 0 (npages (p_sz p)) a <-> in_upages pm T 0 (npages (p_sz p)) a) as Hup.
    { intros a. split; intros (j & Hj & ->); exists j; (split; [done|]); unfold upage; by rewrite L1. }
    split; [done|by etransitivity| |].
    + intros a. rewrite G2, elem_of_cons, Hup. clear; tauto.
    + intros b Hb. transitivity (pm_mem pm b); [|unfold drop_tf; by destruct (_ =? _)]. rewrite M2.
      * apply M1. apply Hb. by left.
      * intros a Ha. apply Hb. rewrite Hup in Ha. by right.
Qed.

(** ** allocproc *)

(** What an unused slot has. *)
Record clean (p : proc) : Prop := {
  cl_pagetable : p_pagetable p = 0;
  cl_sz : p_sz p = 0;
  cl_ofile : p_ofile p = replicate NOFILE None
}.
Lemma clean_freed p : p_ofile p = replicate NOFILE None -> clean (freed_proc p).
Proof. by split. Qed.

Lemma find_unused n : forall a w, k_held (w_k w) = [] ->
  (exists np, (a <= np < a + n)%nat /\ p_state (proc_at (k_ps (w_k w)) np) = UNUSED /\
     (forall j, (a <= j < np)%nat -> p_state (proc_at (k_ps (w_k w)) j) <> UNUSED) /\
     kfind (seq a n) (fun i => acquire (L_proc i);; p ← get_proc i;
       if bool_decide (p_state p = UNUSED) then mret (Some i) else release (L_proc i);; mret None) w =
     Ret (Some np) (with_k w (set_k_held [L_proc np] (w_k w)))) \/
  (forall j, (a <= j < a + n)%nat -> p_state (proc_at (k_ps (w_k w)) j) <> UNUSED) /\
     kfind (seq a n) (fun i => acquire (L_proc i);; p ← get_proc i;
       if bool_decide (p_state p = UNUSED) then mret (Some i) else release (L_proc i);; mret None) w = Ret None w.
Proof.
  induction n as [|n IH]; intros a w Hh; cbn [seq kfind].
  { right. split; [intros; lia|done]. }
  rewrite bind_assoc, (bind_ret (acquire _) _ _ tt (with_k w (set_k_held [L_proc a] (w_k w)))) by (rewrite acquire_ok by (rewrite Hh; apply not_elem_of_nil); by rewrite Hh).
  unfold get_proc. rewrite bind_assoc, bind_kget. change (k_ps (w_k (with_k w _))) with (k_ps (w_k w)). case_bool_decide as Hs.
  - left. exists a. split_and!; [lia|lia|done|intros; lia|done].
  - rewrite bind_assoc. rewrite (bind_ret (release _) _ _ tt w).
    2: { rewrite (release_ok _ _ []) by (done || apply not_elem_of_nil). destruct w as [env s]. unfold with_k. cbn in *. rewrite <- Hh. by destruct s. }
    rewrite bind_mret. destruct (IH (S a) w Hh) as [(np & H1 & H2 & H3 & H4)|[H1 H2]].
    + left. exists np. split_and!; [lia|lia|done| |exact H4]. intros j Hj. destruct (decide (j = a)) as [->|]; [done|apply H3; lia].
    + right. split; [|exact H2]. intros j Hj. destruct (decide (j = a)) as [->|]; [done|apply H1; lia].
Qed.

Definition next_pid (ps : psched) : psched := set_ps_nextpid (i32 (ps_nextpid ps + 1)) ps.
Lemma allocpid_ok w : L_pid ∉ k_held (w_k w) -> allocpid w = Ret (ps_nextpid (k_ps (w_k w))) (with_k w (set_k_ps (next_pid (k_ps (w_k w))) (w_k w))).
Proof.
  intros Hl. unfold allocpid. rewrite (bind_ret _ _ _ _ _ (acquire_ok _ _ Hl)). rewrite bind_kget, bind_mod_ps.
  erewrite bind_ret by (by apply release_ok). by destruct w as [? []].
Qed.

(** The slot of a process that [allocproc] made. *)
Definition fresh_proc (pid tf pt ra : Z) (p : proc) : proc :=
  set_p_context (Context_ ra (u64 (p_kstack p + PGSIZE)) (replicate 12 0)) (set_p_pagetable pt (set_p_trapframe tf (set_p_state USED (set_p_pid pid p)))).

Definition put_tf (tf : Z) (f : trapframe) (pm : physmem) : physmem := set_pm_tf (<[tf := f]> (pm_tf pm)) pm.
Lemma alloc_inv_tf t pm F : alloc_inv pm F -> alloc_inv (set_pm_tf t pm) F.
Proof. by intros []. Qed.

(** [upd_proc] on the state where [allocproc] has taken a pid. *)
Lemma set_ps_eta (s : kst) : set_k_ps (k_ps s) s = s.
Proof. by destruct s. Qed.

Lemma allocproc_ok ra w F : let s := w_k w in let pm := k_pm s in let ps := k_ps s in
  k_held s = [] -> length (ps_proc ps) = NPROC -> alloc_inv pm F -> can_map (pm_trampoline pm) -> (forall a, a ∈ F -> pm_tf pm !! a = None) ->
  (forall j, (j < NPROC)%nat -> p_state (proc_at ps j) = UNUSED -> clean (proc_at ps j)) ->
  (forall j, (j < NPROC)%nat -> p_state (proc_at ps j) <> UNUSED) /\ allocproc ra w = Ret None w \/
  exists np pm' F', (np < NPROC)%nat /\ p_state (proc_at ps np) = UNUSED /\ (forall j, (j < np)%nat -> p_state (proc_at ps j) <> UNUSED) /\ alloc_inv pm' F' /\
    (allocproc ra w = Ret None (with_k w (set_k_ps (upd_proc np freed_proc (next_pid ps)) (set_k_pm pm' s))) /\ (length F < 6)%nat /\ pt_made pm F pm' F' (fun _ => False) \/
     exists tf pt T, allocproc ra w = Ret (Some np) (with_k w (set_k_held [L_proc np] (set_k_ps (upd_proc np (fresh_proc (ps_nextpid ps) tf pt ra) (next_pid ps)) (set_k_pm pm' s)))) /\
       tf ∈ F /\ tf ∉ F' /\ pt <> 0 /\ uspace pm' F' pt T tf 0 /\ (forall n, T n <> Some tf) /\
       pt_made (put_tf tf trapframe_junk pm) F pm' F' (fun a => a = tf \/ exists n, T n = Some a) /\ (length F <= length F' + 6)%nat).
Proof.
  intros s pm ps Hh Hlen HA Ctr Htf Hcl. unfold allocproc.
  destruct (find_unused NPROC 0 w Hh) as [(np & Hnp & Hun & Hfirst & Ef)|[Hn Ef]].
  2: { left. split; [intros j Hj; apply Hn; lia|]. by rewrite (bind_ret _ _ _ _ _ Ef). }
  right. rewrite (bind_ret _ _ _ _ _ Ef). set (w1 := with_k w _). assert (np < NPROC)%nat as Hnp' by lia. fold s ps in Hun, Hfirst.
  assert (L_pid ∉ k_held (w_k w1)) as Hlp by (unfold w1; cbn; rewrite list_elem_of_singleton; discriminate).
  pose proof (allocpid_ok w1 Hlp) as Ep. rewrite (bind_ret _ _ _ _ _ Ep). change (k_ps (w_k w1)) with ps.
  rewrite mod_proc_comp by (cbn; lia). rewrite mod_proc_step. set (g1 := fun p => set_p_state USED (set_p_pid (ps_nextpid ps) p)). set (w2 := with_k _ _).
  change (set_k_ps (next_pid ps) (w_k w1)) with (w_k (with_k w1 (set_k_ps (next_pid ps) (w_k w1)))) in w2.
  assert (w2 = with_k w (set_k_held [L_proc np] (set_k_ps (upd_proc np g1 (next_pid ps)) s))) as Ew2 by done. clearbody w2. subst w2. set (ps2 := upd_proc np g1 (next_pid ps)).
  set (w2 := with_k w (set_k_held [L_proc np] (set_k_ps ps2 s))). assert (L_kmem ∉ k_held (w_k w2)) as Hl2 by (unfold w2; cbn; rewrite list_elem_of_singleton; discriminate).
  assert (length (ps_proc ps2) = NPROC) as Hlen2 by (cbn; by rewrite length_insert).
  assert (proc_at ps2 np = g1 (proc_at ps np)) as Hp2 by (unfold ps2; rewrite proc_at_upd by done; by rewrite decide_True).
  destruct (Hcl np Hnp' Hun) as [Cpt Csz Cof].
  (* the end of the two failures *)
  assert (forall f w4 pm4 F4 X, w4 = with_k w2 (set_k_ps (upd_proc np f ps2) (set_k_pm pm4 (w_k w2))) ->
    (forall p, freed_proc (f (g1 p)) = freed_proc p) -> alloc_inv pm4 F4 -> proc_mem pm4 F4 (f (g1 (proc_at ps np))) X ->
    exists pm' F', (freeproc np;; release (L_proc np);; mret (M := K) (A := option nat) None) w4 =
      Ret None (with_k w (set_k_ps (upd_proc np freed_proc (next_pid ps)) (set_k_pm pm' s))) /\ freed (drop_tf (p_trapframe (f (g1 (proc_at ps np)))) pm4) F4 X pm' F') as Hfail.
  { intros f w4 pm4 F4 X -> Hf A4 HX. set (w4 := with_k w2 _). assert (proc_at (k_ps (w_k w4)) np = f (g1 (proc_at ps np))) as Hp4.
    { change (k_ps (w_k w4)) with (upd_proc np f ps2). rewrite proc_at_upd by done. rewrite decide_True by done. by rewrite Hp2. }
    destruct (freeproc_ok w4 np F4 X) as (pm' & F' & E & Hfr); [done|done|change (k_ps (w_k w4)) with (upd_proc np f ps2); rewrite length_upd; lia|by rewrite Hp4|].
    rewrite Hp4 in Hfr. exists pm', F'. split; [|exact Hfr]. rewrite (bind_ret _ _ _ _ _ E). erewrite bind_ret by (apply (release_ok _ _ []); [done|apply not_elem_of_nil]).
    unfold with_k. cbn. rewrite upd_upd by lia. unfold ps2. rewrite upd_upd by (cbn; lia). rewrite (upd_ext np _ freed_proc) by apply Hf.
    unfold mret, K_ret. do 2 f_equal. clear -Hh. fold s in Hh. destruct s. cbn in *. by subst. }
  pose proof (kalloc_ok w2 F HA Hl2) as Hk. destruct F as [|tf F1].
  { (* no page for the trapframe *)
    rewrite (bind_ret _ _ _ _ _ Hk), mod_proc_step. change (0 =? 0) with true. cbv iota.
    destruct (Hfail (set_p_trapframe 0) (with_k w2 (set_k_ps (upd_proc np (set_p_trapframe 0) ps2) (w_k w2))) pm [] (fun _ => False)) as (pm' & F' & E & [A S G M]).
    - unfold with_k. do 2 f_equal.
    - done.
    - done.
    - by apply proc_none.
    - exists np, pm', F'. split_and!; [done|done|intros; apply Hfirst; lia|done|]. left. split; [exact E|]. split; [cbn; lia|]. split; [done| |].
      + intros a. rewrite G. clear; tauto.
      + intros b Hb. by apply M. }
  destruct Hk as (pm3 & Ek & Htf0 & A3 & He3 & Ht3 & M3 & Sh3). change (k_pm (w_k w2)) with pm in *. rewrite (bind_ret _ _ _ _ _ Ek), mod_proc_step.
  rewrite (proj2 (Z.eqb_neq tf 0)) by done. rewrite bind_mod_pm. set (pm4 := put_tf tf trapframe_junk pm3). set (w4 := with_k _ _).
  assert (w4 = with_k w2 (set_k_ps (upd_proc np (set_p_trapframe tf) ps2) (set_k_pm pm4 (w_k w2)))) as Ew4 by done. clearbody w4.
  assert (proc_at (k_ps (w_k w4)) np = set_p_trapframe tf (g1 (proc_at ps np))) as Hp4 by (subst w4; change (proc_at (upd_proc np (set_p_trapframe tf) ps2) np = set_p_trapframe tf (g1 (proc_at ps np))); rewrite proc_at_upd by done; rewrite decide_True by done; by rewrite Hp2).
  assert (same_fields pm pm3) as S3 by (rewrite Sh3; by split). assert (tf ∈ tf :: F1) as Hin by (apply elem_of_cons; by left). assert (forall a, a ∈ F1 -> a ∈ tf :: F1) as Hsub by (intros a Ha; apply elem_of_cons; by right).
  assert (valid_page (pm_end pm) tf) as Hv by by apply (ai_valid _ _ HA).
  pose proof (ai_nodup _ _ HA) as Hnd. apply NoDup_cons in Hnd as [HtfF _].
  assert (same_fields (put_tf tf trapframe_junk pm) pm4) as S4 by (destruct S3 as [? S32 ? ? ?]; split; try done; cbn; by rewrite S32).
  assert (forall b, ~ in_page tf b -> pm_mem pm4 b = pm_mem pm b) as M4 by (intros b Hb; cbn; rewrite M3; by rewrite decide_False).
  assert (alloc_inv pm4 F1) as A4 by (by apply alloc_inv_tf).
  assert (k_pm (w_k w4) = pm4) as Epm4 by (by subst w4). assert (L_kmem ∉ k_held (w_k w4)) as Hl4 by (by subst w4).
  destruct (proc_pagetable_ok w4 F1 np) as (pt & pm5 & F5 & E5 & A5 & R5); [by rewrite Epm4|done|rewrite Hp4; by apply (valid_can_map pm (tf :: F1))|rewrite Epm4; by rewrite (sf_trampoline _ _ S4)|].
  rewrite Epm4, Hp4 in R5. cbn [p_trapframe set_p_trapframe] in R5. rewrite (bind_ret _ _ _ _ _ E5), mod_proc_step. set (w6 := with_k _ _).
  assert (forall b, (forall a, a ∈ tf :: F1 -> ~ in_page a b) -> pm_mem pm4 b = pm_mem pm b) as M4' by (intros b Hb; by apply M4, Hb).
  destruct R5 as [(Hpt & (T & Hsp & [S5 G5 M5]) & Hlen5)|(-> & Hlen5 & [S5 G5 M5])].
  - assert (np < length (ps_proc (next_pid ps)))%nat as Hn by (change (np < length (ps_proc ps))%nat; lia).
    assert (k_ps (w_k w6) = upd_proc np (fun p => set_p_pagetable pt (set_p_trapframe tf (g1 p))) (next_pid ps)) as Eps6.
    { subst w6 w4. change (k_ps (w_k (with_k _ _))) with (upd_proc np (set_p_pagetable pt) (upd_proc np (set_p_trapframe tf) ps2)). unfold ps2. by rewrite !upd_upd by (rewrite ?length_upd; exact Hn). }
    rewrite (proj2 (Z.eqb_neq pt 0)) by done. unfold get_proc. rewrite bind_kget, mod_proc_step, Eps6.
    rewrite proc_at_upd, decide_True by done. rewrite upd_upd by exact Hn.
    exists np, pm5, F5. split_and!; [done|done|intros; apply Hfirst; lia|done|]. right. exists tf, pt, T. split_and!; try done.
    + unfold w6. rewrite Ew4. etransitivity; [|apply (f_equal (fun q => Ret (Some np) (with_k w (set_k_held [L_proc np] (set_k_ps q (set_k_pm pm5 s))))))]; [reflexivity|].
      by apply upd_ext.
    + intros HF. apply HtfF. apply G5. by left.
    + intros n HTn. apply HtfF. apply G5. right. by exists n.
    + split; [by etransitivity| |].
      * intros a. rewrite elem_of_cons, G5. clear; tauto.
      * intros b Hb. rewrite M5 by (intros a Ha; by apply Hb, Hsub). by apply M4'.
    + cbn [length]. lia.
  - change (0 =? 0) with true. cbv iota.
    destruct (Hfail (fun p => set_p_pagetable 0 (set_p_trapframe tf p)) w6 pm5 F5 (fun a => a = tf)) as (pm' & F' & E & [A S G M]).
    + subst w6 w4. unfold with_k. cbn. by rewrite upd_upd by lia.
    + done.
    + done.
    + apply proc_tf; cbn; [by rewrite (sf_end _ _ S5), (sf_end _ _ S4)| |done]. intros HF. apply HtfF. apply G5. by left.
    + cbn [p_trapframe set_p_pagetable set_p_trapframe] in *. exists np, pm', F'. split_and!; [done|done|intros; apply Hfirst; lia|done|]. left. split; [exact E|]. split; [cbn; lia|].
      unfold drop_tf in *. rewrite (proj2 (Z.eqb_neq tf 0)) in * by done. split.
      * destruct S as [Q1 Q2 Q3 Q4 Q5], S5 as [P1 P2 P3 P4 P5], S4 as [O1 O2 O3 O4 O5]. cbn in *.
        split; [congruence| |congruence..]. rewrite Q2, P2, O2. by rewrite delete_insert_id by by apply Htf.
      * intros a. rewrite G, elem_of_cons, G5. clear; tauto.
      * intros b Hb. rewrite M by (intros a ->; by apply Hb). cbn. rewrite M5 by (intros a Ha; by apply Hb, Hsub). by apply M4'.
Qed.
