(* ===== verification/ForkProps.v ===== *)
(** * ForkProps: fork

    [fork] makes a runnable copy of the current process: the same memory in
    pages of its own, the same registers but for the result, the same open
    files and directory with their references counted; or it fails and
    gives everything back. *)

From S2P Require Import Prelude.
From S2P Require Import State.
From S2P Require Import Kernel.
From S2P Require Import Mlfq.
From S2P Require Import Sched.
From S2P Require Import SchedInv.
From S2P Require Import SchedProps.
From S2P Require Import Mem.
From S2P Require Import Kalloc.
From S2P Require Import Vm.
From S2P Require Import VmProps.
From S2P Require Import UvmProps.
From S2P Require Import Bio.
From S2P Require Import Log.
From S2P Require Import Fs.
From S2P Require Import File.
From S2P Require Import Proc.
From S2P Require Import ProcVm.
From S2P Require Import ProcProps.

#[local] Opaque memset store64 load64 pte_of uvmcopy freeproc allocproc.

(** ** Open files *)

Definition add_fref (n : Z) (x : file) : file := set_f_ref (f_ref x + n) x.

Lemma filedup_ok f w x : L_ftable ∉ k_held (w_k w) -> k_files (w_k w) !! f = Some x -> 1 <= f_ref x < 2 ^ 31 - 1 ->
  filedup f w = Ret f (with_k w (set_k_files (<[f := add_fref 1 x]> (k_files (w_k w))) (w_k w))).
Proof.
  intros Hl Hx Hr. unfold filedup. rewrite (bind_ret _ _ _ _ _ (acquire_ok _ _ Hl)). unfold get_file. rewrite bind_kget.
  assert (file_at (w_k w) f = x) as E by (unfold file_at; by rewrite nth_lookup, Hx).
  change (file_at (w_k (with_k w _)) f) with (file_at (w_k w) f). rewrite E. rewrite (proj2 (Z.ltb_ge _ _)) by lia. unfold mod_file. rewrite bind_kmod.
  erewrite bind_ret by (by apply release_ok). unfold mret, K_ret. f_equal. destruct w as [env s]. unfold with_k. cbn in *.
  assert (alter (fun x => set_f_ref (i32 (f_ref x + 1)) x) f (k_files s) = <[f := add_fref 1 x]> (k_files s)) as ->; [|by destruct s].
  apply list_eq. intros j. destruct (decide (j = f)) as [->|Hne].
  - rewrite list_lookup_alter_eq, Hx, list_lookup_insert_eq by (by apply lookup_lt_Some in Hx). cbn. unfold add_fref. by rewrite i32_small by lia.
  - by rewrite list_lookup_alter_ne, list_lookup_insert_ne by done.
Qed.

(** The number of descriptors that refer to file [f]. *)
Definition fd_count (f : nat) (l : list (option nat)) : Z := Z.of_nat (length (filter (fun o => o = Some f) l)).
Definition dup_files (ofs : list (option nat)) (files : list file) : list file := imap (fun f x => add_fref (fd_count f ofs) x) files.

Lemma fd_count_cons f o l : fd_count f (o :: l) = fd_count f l + (if decide (o = Some f) then 1 else 0).
Proof. unfold fd_count. rewrite filter_cons. case_decide; cbn [length]; lia. Qed.

Lemma dup_files_nil files : dup_files [] files = files.
Proof. apply list_eq. intros j. unfold dup_files. rewrite list_lookup_imap. destruct (files !! j) as [x|]; [|done]. cbn. unfold add_fref, fd_count. cbn. rewrite Z.add_0_r. by destruct x. Qed.

Lemma dup_files_none l files : dup_files (None :: l) files = dup_files l files.
Proof. apply list_eq. intros j. unfold dup_files. rewrite !list_lookup_imap. destruct (files !! j); [|done]. cbn. rewrite fd_count_cons. by rewrite decide_False, Z.add_0_r by done. Qed.

Lemma dup_files_some f l files x : files !! f = Some x -> dup_files (Some f :: l) files = dup_files l (<[f := add_fref 1 x]> files).
Proof.
  intros Hx. apply list_eq. intros j. unfold dup_files. rewrite !list_lookup_imap. destruct (decide (j = f)) as [->|Hne].
  - rewrite Hx, list_lookup_insert_eq by (by apply lookup_lt_Some in Hx). cbn. rewrite fd_count_cons, decide_True by done.
    unfold add_fref, set_f_ref. cbn. do 2 f_equal. lia.
  - rewrite list_lookup_insert_ne by done. destruct (files !! j); [|done]. cbn. rewrite fd_count_cons. rewrite decide_False by (intros [= ->]; done). by rewrite Z.add_0_r.
Qed.

(** The files of [l] are open, and the counts have room for [n] more. *)
Definition files_open (l : list (option nat)) (n : Z) (files : list file) : Prop :=
  forall f, Some f ∈ l -> exists x, files !! f = Some x /\ 1 <= f_ref x /\ f_ref x + n < 2 ^ 31.

(** The loop over the descriptors, from index [length pre]. *)
Lemma dup_loop np ofs l : forall pre w, ofs = pre ++ l -> k_held (w_k w) = [L_proc np] -> (np < length (ps_proc (k_ps (w_k w))))%nat ->
  p_ofile (proc_at (k_ps (w_k w)) np) = pre ++ replicate (length l) None -> files_open l (Z.of_nat (length l)) (k_files (w_k w)) ->
  kfor (seq (length pre) (length l)) (fun fd =>
      match nth fd ofs None with
      | Some f => f ← filedup f; mod_proc np (fun q => set_p_ofile (<[fd := Some f]> (p_ofile q)) q)
      | None => mret tt
      end) w = Ret tt (with_k w (set_k_files (dup_files l (k_files (w_k w))) (set_k_ps (upd_proc np (set_p_ofile ofs) (k_ps (w_k w))) (w_k w)))).
Proof.
  induction l as [|o l IH]; intros pre w -> Hh Hn Hof Hop.
  - cbn [length seq kfor]. rewrite dup_files_nil, upd_id; [by destruct w as [? []]| |done].
    cbn [length replicate] in Hof. rewrite <- Hof. by destruct (proc_at (k_ps (w_k w)) np).
  - cbn [length seq kfor]. assert (nth (length pre) (pre ++ o :: l) None = o) as -> by (rewrite app_nth2, Nat.sub_diag by lia; done).
    assert (pre ++ o :: l = (pre ++ [o]) ++ l) as Eof by (by rewrite <- app_assoc). assert (S (length pre) = length (pre ++ [o])) as El by (rewrite length_app; cbn; lia). rewrite El.
    destruct o as [f|].
    + destruct (Hop f) as (x & Hx & Hr1 & Hr2); [apply elem_of_cons; by left|]. cbn [length] in Hr2.
      assert (filedup f w = Ret f (with_k w (set_k_files (<[f := add_fref 1 x]> (k_files (w_k w))) (w_k w)))) as Ed.
      { apply filedup_ok; [rewrite Hh; by rewrite list_elem_of_singleton|done|lia]. }
      rewrite bind_assoc, (bind_ret _ _ _ _ _ Ed), mod_proc_step. set (w1 := with_k _ _). rewrite (IH (pre ++ [Some f]) w1).
      * unfold w1, with_k. cbn. rewrite upd_upd by done. rewrite (dup_files_some _ _ _ x) by done. done.
      * done.
      * done.
      * unfold w1. cbn. by rewrite length_insert.
      * unfold w1. change (k_ps (w_k (with_k _ _))) with (upd_proc np (fun q => set_p_ofile (<[length pre := Some f]> (p_ofile q)) q) (k_ps (w_k w))).
        rewrite proc_at_upd_eq by done. cbn [p_ofile set_p_ofile]. rewrite Hof. cbn [length replicate].
        rewrite insert_app_r_alt by lia. rewrite Nat.sub_diag. cbn. by rewrite <- app_assoc.
      * intros g Hg. unfold w1. cbn. destruct (Hop g) as (y & Hy & Hs1 & Hs2); [apply elem_of_cons; by right|]. cbn [length] in Hs2. destruct (decide (g = f)) as [->|Hne].
        -- exists (add_fref 1 x). rewrite list_lookup_insert_eq by (by apply lookup_lt_Some in Hx). assert (y = x) as -> by congruence. split; [done|]. cbn. lia.
        -- exists y. rewrite list_lookup_insert_ne by done. split; [done|]. lia.
    + rewrite bind_mret, (IH (pre ++ [None]) w); [by rewrite dup_files_none|done|done|done| |].
      * rewrite Hof. cbn [length replicate]. by rewrite <- app_assoc.
      * intros g Hg. destruct (Hop g) as (y & Hy & Hs1 & Hs2); [apply elem_of_cons; by right|]. exists y. cbn [length] in Hs2. split; [done|]. lia.
Qed.

(** ** The working directory *)

Definition dup_inode (c : nat) (fs : fsstate) : fsstate := upd_inode c (fun ip => set_i_ref (i32 (i_ref ip + 1)) ip) fs.
Lemma idup_ok c w : L_itable ∉ k_held (w_k w) -> idup c w = Ret c (with_k w (set_k_fs (dup_inode c (k_fs (w_k w))) (w_k w))).
Proof.
  intros Hl. unfold idup. rewrite (bind_ret _ _ _ _ _ (acquire_ok _ _ Hl)). unfold mod_inode. rewrite bind_mod_fs.
  erewrite bind_ret by (by apply release_ok). by destruct w as [? []].
Qed.

(** ** fork *)

(** The state in which process [i] calls [fork]: its address space is the
    tree [T0] with the free pages [F], no lock is held, the run queues are
    [Q], unused slots are clean, the trapframe has its page, and the open
    files have room for sixteen more references. *)
Record forkable (s : kst) (i : nat) (Q : queues) (F : list Z) (T0 : tree) : Prop := {
  fk_cur : k_cur s = Some i;
  fk_held : k_held s = [];
  fk_i : (i < NPROC)%nat;
  fk_used : p_state (proc_at (k_ps s) i) <> UNUSED;
  fk_sched : sched_inv (k_ps s) Q;
  fk_clean : forall j, (j < NPROC)%nat -> p_state (proc_at (k_ps s) j) = UNUSED -> clean (proc_at (k_ps s) j);
  fk_space : let P := proc_at (k_ps s) i in uspace (k_pm s) F (p_pagetable P) T0 (p_trapframe P) (npages (p_sz P));
  fk_sz : 0 <= p_sz (proc_at (k_ps s) i) <= TRAPFRAME;
  fk_tramp : can_map (pm_trampoline (k_pm s));
  fk_tf : forall a, a ∈ F -> pm_tf (k_pm s) !! a = None;
  fk_frame : is_Some (pm_tf (k_pm s) !! p_trapframe (proc_at (k_ps s) i));
  fk_ofile : length (p_ofile (proc_at (k_ps s) i)) = NOFILE;
  fk_files : files_open (p_ofile (proc_at (k_ps s) i)) (Z.of_nat NOFILE) (k_files s);
  fk_cwd : is_Some (p_cwd (proc_at (k_ps s) i))
}.

(** The slot of the child, once it is in its run queue. *)
Definition child_proc (i : nat) (P : proc) (pid tf pt ra : Z) (q : proc) : proc :=
  set_p_parent (Some i) (set_name (p_name P) (set_p_cwd (p_cwd P) (set_p_ofile (p_ofile P) (set_p_sz (p_sz P) (fresh_proc pid tf pt ra q))))).

Lemma next_pid_inv ps Q : sched_inv ps Q -> sched_inv (next_pid ps) Q.
Proof. by intros []. Qed.

(** The process table after a failure: one unused slot may have changed. *)
Record table_kept (ps ps' : psched) (Q : queues) : Prop := {
  tk_sched : sched_inv ps' Q;
  tk_used : forall j, (j < NPROC)%nat -> p_state (proc_at ps j) <> UNUSED -> proc_at ps' j = proc_at ps j;
  tk_unused : forall j, (j < NPROC)%nat -> p_state (proc_at ps j) = UNUSED -> p_state (proc_at ps' j) = UNUSED /\ clean (proc_at ps' j)
}.

Lemma table_failed ps Q np f : sched_inv ps Q -> (np < NPROC)%nat -> p_state (proc_at ps np) = UNUSED ->
  (forall j, (j < NPROC)%nat -> p_state (proc_at ps j) = UNUSED -> clean (proc_at ps j)) ->
  p_state (f (proc_at ps np)) = UNUSED -> clean (f (proc_at ps np)) -> table_kept ps (upd_proc np f (next_pid ps)) Q.
Proof.
  intros H Hn Hu Hc Hf Hcf. pose proof (next_pid_inv _ _ H) as H'. change (proc_at ps np) with (proc_at (next_pid ps) np) in Hu, Hf, Hcf. split.
  - apply upd_proc_inv; [done|done|by rewrite Hu|by rewrite Hf].
  - intros j Hj Hs. rewrite proc_at_upd by (done || apply H'). case_decide as E; [|done]. subst j. by destruct Hs.
  - intros j Hj Hs. rewrite proc_at_upd by (done || apply H'). case_decide as E; [by subst j|]. split; [done|by apply Hc].
Qed.

Section fork.
Context (ra : Z) (w : world) (i : nat) (Q : queues) (F : list Z) (T0 : tree).
Let s := w_k w.
Let ps := k_ps s.
Let pm := k_pm s.
Let P := proc_at ps i.
Let n := npages (p_sz P).
Hypothesis (H : forkable s i Q F T0).

Lemma fork_hd {B} (k : nat -> K B) : (x ← curproc; k x) w = k i w.
Proof. unfold curproc, myproc. rewrite bind_assoc, bind_kget. fold s. by rewrite (fk_cur _ _ _ _ _ H). Qed.

(** Pages of the parent are not free. *)
Lemma parent_own a : own pm T0 n a -> a ∉ F.
Proof. intros Ha. by apply (own_valid _ _ _ _ _ _ _ (fk_space _ _ _ _ _ H)). Qed.

(** The parent's address space in a later state. *)
Definition parent_kept (pm' : physmem) (F' : list Z) : Prop :=
  uspace pm' F' (p_pagetable P) T0 (p_trapframe P) n /\ (forall va, leaf pm' T0 va = leaf pm T0 va) /\
  (forall va, 0 <= va < PGSIZE * n -> pm_mem pm' (phys pm T0 va) = pm_mem pm (phys pm T0 va)).

Lemma parent_ok pm' F' : alloc_inv pm' F' -> pm_end pm' = pm_end pm -> pm_trampoline pm' = pm_trampoline pm -> (forall a, a ∈ F' -> a ∈ F) ->
  (forall b, (forall a, a ∈ F -> ~ in_page a b) -> pm_mem pm' b = pm_mem pm b) -> parent_kept pm' F'.
Proof.
  intros A He Ht HF Hm. apply (uspace_kept pm F); [apply H|done|done|done| |].
  - intros a Ha Hin. by apply (parent_own a Ha), HF.
  - intros a b Ha Hb. apply Hm. exact (own_free _ _ _ _ _ _ _ _ (fk_space _ _ _ _ _ H) Ha Hb).
Qed.

(** A failure returns -1 with all pages free again. *)
Lemma fork_failed np f pm' F' : (np < NPROC)%nat -> p_state (proc_at ps np) = UNUSED -> p_state (f (proc_at ps np)) = UNUSED -> clean (f (proc_at ps np)) ->
  alloc_inv pm' F' -> pt_made pm F pm' F' (fun _ => False) ->
  table_kept ps (upd_proc np f (next_pid ps)) Q /\ parent_kept pm' F' /\ pm_tf pm' = pm_tf pm /\ (forall a, a ∈ F' <-> a ∈ F).
Proof.
  intros Hn Hu Hf Hc A [S G M]. split_and!.
  - by apply table_failed; [apply H|..|apply H| |].
  - apply parent_ok; [done|apply S|apply S| |done]. intros a Ha. apply G. by left.
  - apply S.
  - intros a. rewrite G. tauto.
Qed.

Lemma mod_tf_step {B} j f (k : unit -> K B) w0 : (x ← mod_tf j f; k x) w0 =
  k tt (with_k w0 (set_k_pm (put_tf (p_trapframe (proc_at (k_ps (w_k w0)) j)) (f (trapframe_of (w_k w0) j)) (k_pm (w_k w0))) (w_k w0))).
Proof. done. Qed.

(** The state in the middle of [fork], with the lock of the child held. *)
Definition mid (np : nat) (f : proc -> proc) (pm' : physmem) : kst := set_k_held [L_proc np] (set_k_ps (upd_proc np f (next_pid ps)) (set_k_pm pm' s)).

(** The end of [fork], once the memory is copied. *)
Lemma fork_tail np tf pt pm2 c : let g := fresh_proc (ps_nextpid ps) tf pt ra in
  (np < NPROC)%nat -> p_state (proc_at ps np) = UNUSED -> tf <> p_trapframe P -> pm_tf pm2 = <[tf := trapframe_junk]> (pm_tf pm) -> p_cwd P = Some c ->
  let ps' := runnable_ps np (set_p_state RUNNABLE) (upd_proc np (child_proc i P (ps_nextpid ps) tf pt ra) (next_pid ps)) in
  exists thr, (mod_proc np (set_p_sz (p_sz P));;
    tfr ← kget (fun s => trapframe_of s i);
    mod_tf np (fun _ => tfr);;
    mod_tf np (set_tf_a0 0);;
    kfor (seq 0 NOFILE) (fun fd =>
      match nth fd (p_ofile P) None with
      | Some f => f ← filedup f; mod_proc np (fun q => set_p_ofile (<[fd := Some f]> (p_ofile q)) q)
      | None => mret tt
      end);;
    cwd ← (match p_cwd P with Some c => idup c | None => panic "kerneltrap" end);
    mod_proc np (set_p_cwd (Some cwd));;
    mod_proc np (set_name (p_name P));;
    q ← get_proc np;
    let pid := p_pid q in
    release (L_proc np);;
    acquire L_wait;;
    mod_proc np (set_p_parent (Some i));;
    release L_wait;;
    acquire (L_proc np);;
    make_runnable np;;
    release (L_proc np);;
    mret pid) (with_k w (mid np g pm2)) =
  Ret (ps_nextpid ps) (with_k w (put_ps ps' thr (set_k_fs (dup_inode c (k_fs s)) (set_k_files (dup_files (p_ofile P) (k_files s))
    (set_k_pm (put_tf tf (set_tf_a0 0 (trapframe_of s i)) pm2) s))))).
Proof.
  intros g Hn Hu Htf Hpt Hc ps'. assert (np < length (ps_proc (next_pid ps)))%nat as Hl by (change (np < length (ps_proc ps))%nat; pose proof (si_nproc _ _ (fk_sched _ _ _ _ _ H)) as Hx; fold s ps in Hx; lia).
  assert (i <> np) as Hne by (intros <-; by apply (fk_used _ _ _ _ _ H)).
  assert (proc_at (next_pid ps) np = proc_at ps np) as Enp by done.
  set (f5 := fun q => set_p_sz (p_sz P) (g q)). set (pm5 := put_tf tf (set_tf_a0 0 (trapframe_of s i)) pm2).
  rewrite mod_proc_step. assert (forall f f' pm', with_k (with_k w (mid np f pm')) (set_k_ps (upd_proc np f' (k_ps (mid np f pm'))) (mid np f pm')) = with_k w (mid np (fun q => f' (f q)) pm')) as Hmid.
  { intros f f' pm'. unfold mid, with_k. cbn -[upd_proc]. by rewrite upd_upd by exact Hl. }
  rewrite Hmid. fold f5. rewrite bind_kget.
  assert (forall f pm', proc_at (k_ps (mid np f pm')) i = P) as Hpi.
  { intros f pm'. change (k_ps (mid np f pm')) with (upd_proc np f (next_pid ps)). rewrite proc_at_upd; [by rewrite decide_False by done|exact (si_nproc _ _ (fk_sched _ _ _ _ _ H))|done]. }
  assert (forall f pm', proc_at (k_ps (mid np f pm')) np = f (proc_at ps np)) as Hpn by (intros f pm'; exact (proc_at_upd_eq np f (next_pid ps) Hl)).
  assert (trapframe_of (w_k (with_k w (mid np f5 pm2))) i = trapframe_of s i) as ->.
  { unfold trapframe_of. change (w_k (with_k w (mid np f5 pm2))) with (mid np f5 pm2). rewrite Hpi. change (k_pm (mid np f5 pm2)) with pm2. rewrite Hpt. by rewrite lookup_insert_ne. }
  rewrite mod_tf_step. change (w_k (with_k w (mid np f5 pm2))) with (mid np f5 pm2). rewrite Hpn. change (p_trapframe (f5 (proc_at ps np))) with tf.
  set (pm4 := put_tf tf (trapframe_of s i) (k_pm (mid np f5 pm2))). change (with_k _ (set_k_pm pm4 (mid np f5 pm2))) with (with_k w (mid np f5 pm4)).
  rewrite mod_tf_step. change (w_k (with_k w (mid np f5 pm4))) with (mid np f5 pm4). rewrite Hpn. change (p_trapframe (f5 (proc_at ps np))) with tf.
  assert (trapframe_of (mid np f5 pm4) np = trapframe_of s i) as ->.
  { unfold trapframe_of at 1. rewrite Hpn. change (pm_tf (k_pm (mid np f5 pm4)) !! p_trapframe (f5 (proc_at ps np))) with (<[tf := trapframe_of s i]> (pm_tf pm2) !! tf). by rewrite lookup_insert_eq. }
  assert (put_tf tf (set_tf_a0 0 (trapframe_of s i)) (k_pm (mid np f5 pm4)) = pm5) as -> by (unfold pm5, pm4, put_tf; cbn; by rewrite insert_insert_eq).
  change (with_k _ (set_k_pm pm5 (mid np f5 pm4))) with (with_k w (mid np f5 pm5)).
  assert (clean (proc_at ps np)) as [_ _ Hof] by by apply (fk_clean _ _ _ _ _ H).
  pose proof (dup_loop np (p_ofile P) (p_ofile P) [] (with_k w (mid np f5 pm5)) eq_refl eq_refl) as Ed. cbn [length app] in Ed.
  rewrite (fk_ofile _ _ _ _ _ H : length (p_ofile P) = NOFILE) in Ed. change (w_k (with_k w (mid np f5 pm5))) with (mid np f5 pm5) in Ed. rewrite Hpn in Ed.
  change (k_ps (mid np f5 pm5)) with (upd_proc np f5 (next_pid ps)) in Ed. rewrite length_upd, upd_upd in Ed by exact Hl.
  rewrite (bind_ret _ _ _ _ _ (Ed Hl Hof (fk_files _ _ _ _ _ H))). clear Ed. rewrite Hc. set (w6 := with_k _ _).
  assert (L_itable ∉ k_held (w_k w6)) as Hi6 by (unfold w6, mid; cbn; rewrite list_elem_of_singleton; discriminate).
  rewrite (bind_ret _ _ _ _ _ (idup_ok c w6 Hi6)).
  set (fl := dup_files (p_ofile P) (k_files s)). set (fs1 := dup_inode c (k_fs s)).
  set (st := fun held f => with_k w (set_k_fs fs1 (set_k_files fl (set_k_held held (mid np f pm5))))).
  assert (with_k w6 (set_k_fs (dup_inode c (k_fs (w_k w6))) (w_k w6)) = st [L_proc np] (fun q => set_p_ofile (p_ofile P) (f5 q))) as ->.
  { unfold st, w6, mid, with_k. cbn -[upd_proc dup_inode dup_files next_pid]. unfold fs1, fl. clear.
    generalize (dup_inode c (k_fs s)), (dup_files (p_ofile P) (k_files s)), (upd_proc np f5 (next_pid ps)), (upd_proc np (fun q => set_p_ofile (p_ofile P) (f5 q)) (next_pid ps)), pm5.
    intros x1 x2 x3 x4 x5. by destruct s. }
  assert (forall held f f' B (k : unit -> K B), (x ← mod_proc np f'; k x) (st held f) = k tt (st held (fun q => f' (f q)))) as Hst.
  { intros held f f' B k. rewrite mod_proc_step. f_equal. unfold st, mid, with_k. cbn -[upd_proc]. by rewrite upd_upd by exact Hl. }
  rewrite !Hst. unfold get_proc. rewrite bind_kget.
  assert (forall held f, proc_at (k_ps (w_k (st held f))) np = f (proc_at ps np)) as Hpst by (intros held f; exact (proc_at_upd_eq np f (next_pid ps) Hl)).
  rewrite Hpst. cbv zeta.
  assert (forall l f B (k : unit -> K B), (x ← release l; k x) (st [l] f) = k tt (st [] f)) as Hrel.
  { intros l f B k. by rewrite (bind_ret _ _ _ _ _ (release_ok l (st [l] f) [] eq_refl (not_elem_of_nil l))). }
  assert (forall l f B (k : unit -> K B), (x ← acquire l; k x) (st [] f) = k tt (st [l] f)) as Hacq.
  { intros l f B k. by rewrite (bind_ret _ _ _ _ _ (acquire_ok l (st [] f) (not_elem_of_nil l))). }
  rewrite Hrel, Hacq, Hst, Hrel, Hacq. set (w7 := st _ _).
  destruct (make_runnable_ok np w7) as [thr Em]; [unfold w7, st, mid; cbn; rewrite list_elem_of_singleton; discriminate|].
  rewrite (bind_ret _ _ _ _ _ Em). exists thr.
  erewrite bind_ret by (apply (release_ok _ _ []); [reflexivity|apply not_elem_of_nil]).
  assert (k_ps (w_k w7) = upd_proc np (child_proc i P (ps_nextpid ps) tf pt ra) (next_pid ps)) as -> by (apply upd_ext; unfold child_proc; by rewrite Hc).
  fold ps'. pose proof (fk_held _ _ _ _ _ H) as Hh. fold s in Hh. unfold mret, K_ret. apply (f_equal (Ret (ps_nextpid ps))).
  unfold w7, st, mid, with_k. cbn -[upd_proc]. f_equal. clear -Hh. generalize fs1, fl, ps', pm5. intros x1 x2 x3 x4. generalize (upd_proc np (fun q => set_p_parent (Some i) (set_name (p_name P) (set_p_cwd (Some c) (set_p_ofile (p_ofile P) (f5 q))))) (next_pid ps)).
  intros x5. clear -Hh. clearbody s. destruct s. cbn in Hh. by subst.
Qed.

(** What [fork] returns and leaves behind when it cannot make a process. *)
Definition fork_fails (r : res Z) : Prop := exists ps' pm' F', r = Ret (-1) (with_k w (set_k_ps ps' (set_k_pm pm' s))) /\
  table_kept ps ps' Q /\ parent_kept pm' F' /\ pm_tf pm' = pm_tf pm /\ (forall a, a ∈ F' <-> a ∈ F) /\
  ((forall j, (j < NPROC)%nat -> p_state (proc_at ps j) <> UNUSED) \/ Z.of_nat (length F) < 3 * n + 6).

Record forked (np : nat) (tf pt : Z) (T : tree) (ps' : psched) (pm' : physmem) (F' : list Z) : Prop := {
  fd_slot : (np < NPROC)%nat /\ p_state (proc_at ps np) = UNUSED;
  fd_child : proc_at ps' np = placed (set_p_state RUNNABLE (child_proc i P (ps_nextpid ps) tf pt ra (proc_at ps np)));
  fd_others : forall j, j <> np -> proc_at ps' j = proc_at ps j;
  fd_sched : sched_inv ps' (qpush (level (set_p_state RUNNABLE (child_proc i P (ps_nextpid ps) tf pt ra (proc_at ps np)))) np Q);
  fd_parent : parent_kept pm' F';
  fd_space : uspace pm' F' pt T tf n;
  fd_copy : forall va, 0 <= va < PGSIZE * n -> pm_mem pm' (phys pm' T va) = pm_mem pm (phys pm T0 va) /\
    exists q, q ∈ F /\ leaf pm' T va = pte_of q (PTE_FLAGS (leaf pm T0 va));
  fd_tf : pm_tf pm' = <[tf := set_tf_a0 0 (trapframe_of s i)]> (pm_tf pm);
  fd_pages : forall a, a ∈ F <-> a ∈ F' \/ a = tf \/ own pm' T n a;
  fd_fresh : tf ∈ F /\ tf ∉ F' /\ ~ own pm' T n tf
}.

(** The copy into the new address space and the rest. *)
Lemma fork_copied np pm1 F1 tf pt T : let w1 := with_k w (mid np (fresh_proc (ps_nextpid ps) tf pt ra) pm1) in
  (np < NPROC)%nat -> p_state (proc_at ps np) = UNUSED -> tf ∈ F -> tf ∉ F1 -> uspace pm1 F1 pt T tf 0 -> (forall m, T m <> Some tf) ->
  pt_made (put_tf tf trapframe_junk pm) F pm1 F1 (fun a => a = tf \/ exists m, T m = Some a) ->
  parent_kept pm1 F1 /\
  exists r pm2 F2 T2, uvmcopy (p_pagetable P) pt (p_sz P) w1 = Ret r (with_k w1 (set_k_pm pm2 (w_k w1))) /\ pm_tf pm2 = <[tf := trapframe_junk]> (pm_tf pm) /\
    same_fields pm1 pm2 /\ (forall b, (forall a, a ∈ F -> ~ in_page a b) -> pm_mem pm2 b = pm_mem pm b) /\ tf ∉ F2 /\ (forall m, T2 m <> Some tf) /\
    (r = 0 /\ uspace pm2 F2 pt T2 tf n /\ (forall a, a ∈ F <-> a ∈ F2 \/ a = tf \/ own pm2 T2 n a) /\ ~ own pm2 T2 n tf /\
       (forall va, 0 <= va < PGSIZE * n -> pm_mem pm2 (phys pm2 T2 va) = pm_mem pm (phys pm T0 va) /\ exists q, q ∈ F /\ leaf pm2 T2 va = pte_of q (PTE_FLAGS (leaf pm T0 va))) \/
     r = -1 /\ uspace pm2 F2 pt T2 tf 0 /\ (forall a, a ∈ F <-> a ∈ F2 \/ a = tf \/ exists m, T2 m = Some a) /\ Z.of_nat (length F1) < 3 * n).
Proof.
  intros w1 Hn Hu Htf Htf1 Hsp HT [S1 G1 M1]. pose proof (fk_space _ _ _ _ _ H) as HP. cbv zeta in HP. fold s ps pm P n in HP.
  assert (parent_kept pm1 F1) as HP1.
  { apply parent_ok; [apply Hsp|apply S1|apply S1| |exact M1]. intros a Ha. apply G1. by left. }
  split; [done|]. destruct HP1 as (HP1 & L1 & B1).
  destruct (uvmcopy_space w1 F1 (p_pagetable P) T0 (p_trapframe P) pt T tf (p_sz P)) as (r & pm2 & F2 & T2 & E & S2 & M2 & N2 & R); [exact HP1|exact Hsp|exact (fk_sz _ _ _ _ _ H)|cbn; rewrite list_elem_of_singleton; discriminate| |].
  { intros a m Ha Hm. assert (own pm T0 n a) as Ha'.
    { destruct Ha as [?|(j & Hj & ->)]; [by left|right; exists j]. split; [done|]. unfold upage. by rewrite L1. }
    apply (parent_own _ Ha'), G1. do 2 right. by exists m. }
  change (k_pm (w_k w1)) with pm1 in *. fold n in R. exists r, pm2, F2, T2. split; [exact E|].
  assert (tf ∉ F1 /\ forall m, T m <> Some tf) as [Q1 Q2] by done.
  assert (forall m, T2 m <> Some tf) as Q3 by (intros m Hm; apply N2 in Hm as [Hm|Hm]; [by apply (Q2 m)|done]).
  split; [by rewrite (sf_tf _ _ S2), (sf_tf _ _ S1)|]. split; [done|]. split.
  { intros b Hb. rewrite M2; [by apply M1| |].
    - intros (m & p & Hm & Hp). apply (Hb p); [|exact Hp]. apply G1. do 2 right. by exists m.
    - intros a Ha. apply Hb, G1. by left. }
  destruct R as [(-> & U2 & G2 & C2)|(-> & U2 & G2 & N)].
  - assert (tf ∉ F2 /\ ~ own pm2 T2 n tf) as [Q4 Q5].
    { split; intros Hx; (assert (tf ∈ F1 \/ exists m, T m = Some tf) as [Hy|[m Hm]] by (apply G2; tauto)); [done|by apply (Q2 m)|done|by apply (Q2 m)]. }
    split; [done|]. split; [done|]. left. split_and!; [done|done| |done|].
    + intros a. rewrite G1. pose proof (G2 a). tauto.
    + intros va Hva. destruct (C2 va Hva) as [C3 (q & Hq & C4)]. assert (phys pm1 T0 va = phys pm T0 va) as Eph by (unfold phys; by rewrite L1).
      split; [by rewrite C3, Eph, B1|]. exists q. split; [apply G1; by left|]. by rewrite C4, L1.
  - assert (tf ∉ F2) as Q4. { intros Hx. assert (tf ∈ F1 \/ exists m, T m = Some tf) as [Hy|[m Hm]] by (apply G2; tauto); [done|by apply (Q2 m)]. }
    split; [done|]. split; [done|]. right. split_and!; [done|done| |done]. intros a. rewrite G1. pose proof (G2 a). tauto.
Qed.

(** The child cannot be finished: [freeproc] gives its pages back. *)
Lemma fork_undone np tf pt pm2 F2 T2 : let g := fresh_proc (ps_nextpid ps) tf pt ra in
  (np < NPROC)%nat -> p_state (proc_at ps np) = UNUSED -> tf ∈ F -> pt <> 0 -> same_fields (put_tf tf trapframe_junk pm) pm2 ->
  uspace pm2 F2 pt T2 tf 0 -> tf ∉ F2 -> (forall m, T2 m <> Some tf) -> (forall a, a ∈ F <-> a ∈ F2 \/ a = tf \/ exists m, T2 m = Some a) ->
  (forall b, (forall a, a ∈ F -> ~ in_page a b) -> pm_mem pm2 b = pm_mem pm b) -> Z.of_nat (length F) < 3 * n + 6 ->
  fork_fails ((freeproc np;; release (L_proc np);; mret (-1)) (with_k w (mid np g pm2))).
Proof.
  intros g Hn Hu Htf Hpt S2 U2 Q1 Q2 G2 M2 Hshort. pose proof (fk_space _ _ _ _ _ H) as HP. cbv zeta in HP. fold s ps pm P n in HP.
  pose proof (si_nproc _ _ (fk_sched _ _ _ _ _ H)) as Hlen. fold s ps in Hlen.
  assert (np < length (ps_proc (next_pid ps)))%nat as Hl by (change (np < length (ps_proc ps))%nat; lia).
  assert (clean (proc_at ps np)) as [Cpt Csz Cof] by by apply (fk_clean _ _ _ _ _ H).
  assert (pm_end pm2 = pm_end pm /\ pm_trampoline pm2 = pm_trampoline pm) as [He Htr] by by destruct S2.
  assert (valid_page (pm_end pm) tf) as Hv by (by apply (ai_valid _ _ (vi_alloc _ _ _ _ (us_vm _ _ _ _ _ _ HP)))).
  set (w2 := with_k w (mid np g pm2)).
  assert (proc_at (k_ps (w_k w2)) np = g (proc_at ps np)) as Hpn2 by exact (proc_at_upd_eq np g (next_pid ps) Hl).
  set (X := fun a => a = tf \/ (exists m, T2 m = Some a) \/ in_upages pm2 T2 0 (npages (p_sz (proc_at ps np))) a).
  assert (forall a, X a <-> a = tf \/ exists m, T2 m = Some a) as HX.
  { intros a. unfold X. rewrite Csz. assert (~ in_upages pm2 T2 0 (npages 0) a) as Hx by (intros (j & Hj & _); change (npages 0) with 0 in Hj; lia). tauto. }
  assert (L_kmem ∉ k_held (w_k w2)) as Hl2 by (cbn; rewrite list_elem_of_singleton; discriminate).
  destruct (freeproc_ok w2 np F2 X) as (pm3 & F3 & E3 & Hfr).
  - apply U2.
  - exact Hl2.
  - change (k_ps (w_k w2)) with (upd_proc np g (next_pid ps)). by rewrite length_upd.
  - rewrite Hpn2. apply (proc_all pm2 F2 (g (proc_at ps np)) T2).
    + rewrite He. exact Hv.
    + exact Q1.
    + exact Hpt.
    + change (p_sz (g (proc_at ps np))) with (p_sz (proc_at ps np)). rewrite Csz. exact U2.
    + change (p_sz (g (proc_at ps np))) with (p_sz (proc_at ps np)). rewrite Csz. by vm_compute.
    + rewrite Htr. apply (fk_tramp _ _ _ _ _ H).
    + exact Q2.
    + change (p_sz (g (proc_at ps np))) with (p_sz (proc_at ps np)). rewrite Csz. intros (j & Hj & _). change (npages 0) with 0 in Hj. lia.
  - rewrite Hpn2 in Hfr. change (p_trapframe (g (proc_at ps np))) with tf in Hfr. change (k_pm (w_k w2)) with pm2 in Hfr. destruct Hfr as [A3 S3 G3 M3].
    assert (tf <> 0) as Ht0 by (pose proof (ai_end _ _ (vi_alloc _ _ _ _ (us_vm _ _ _ _ _ _ HP))) as Hx; destruct Hv as [_ Hv]; fold s pm in Hx; lia).
    unfold drop_tf in S3, M3. rewrite (proj2 (Z.eqb_neq tf 0) Ht0) in S3, M3.
    assert (pt_made pm F pm3 F3 (fun _ => False)) as Hmade3.
    { split.
      * destruct S3 as [O1 O2 O3 O4 O5], S2 as [N1 N2 N3 N4 N5]. cbn in *. split; [congruence| |congruence..].
        rewrite O2, N2. rewrite delete_insert_id; [done|]. by apply (fk_tf _ _ _ _ _ H).
      * intros a. rewrite G3, HX, G2. clear. tauto.
      * intros b Hb. rewrite M3; [by apply M2|]. intros a Ha. apply Hb, G2. right. by apply HX. }
    destruct (fork_failed np (fun q => freed_proc (g q)) pm3 F3) as (K1 & K2 & K3 & K4); try done.
    exists (upd_proc np (fun q => freed_proc (g q)) (next_pid ps)), pm3, F3. split; [|split_and!; [done..|right; lia]].
    rewrite (bind_ret _ _ _ _ _ E3). erewrite bind_ret by (apply (release_ok _ _ []); [reflexivity|apply not_elem_of_nil]).
    change (k_ps (w_k w2)) with (upd_proc np g (next_pid ps)). rewrite upd_upd by exact Hl. pose proof (fk_held _ _ _ _ _ H) as Hh. fold s in Hh.
    unfold mret, K_ret. apply (f_equal (Ret (-1))). unfold w2, mid, with_k. cbn -[upd_proc]. f_equal. clear -Hh.
    generalize (upd_proc np g (next_pid ps)), (upd_proc np (fun q => freed_proc (g q)) (next_pid ps)). intros x1 x2. clear -Hh. clearbody s. destruct s. cbn in Hh. by subst.
Qed.

Lemma fork_ok : let r := fork ra w in fork_fails r \/ exists np tf pt T ps' pm' F' thr,
  r = Ret (ps_nextpid ps) (with_k w (put_ps ps' thr (set_k_fs (dup_inode (default O (p_cwd P)) (k_fs s)) (set_k_files (dup_files (p_ofile P) (k_files s)) (set_k_pm pm' s))))) /\
  forked np tf pt T ps' pm' F'.
Proof.
  intros r. unfold r, fork. rewrite fork_hd. clear r. pose proof (fk_space _ _ _ _ _ H) as HP. cbv zeta in HP. fold s ps pm P n in HP.
  pose proof (fk_sched _ _ _ _ _ H) as HQ. fold s ps in HQ. pose proof (si_nproc _ _ HQ) as Hlen.
  destruct (allocproc_ok ra w F (fk_held _ _ _ _ _ H) Hlen (vi_alloc _ _ _ _ (us_vm _ _ _ _ _ _ HP)) (fk_tramp _ _ _ _ _ H) (fk_tf _ _ _ _ _ H) (fk_clean _ _ _ _ _ H)) as [[Hno E]|(np & pm1 & F1 & Hn & Hu & _ & A1 & Hr)].
  { left. rewrite (bind_ret _ _ _ _ _ E). exists ps, pm, F. split; [unfold ps, pm, s; by destruct w as [? []]|]. split; [|split; [|split; [done|split; [done|by left]]]].
    - split; [done|done|]. intros j Hj Hs. by destruct (Hno j Hj).
    - unfold parent_kept. done. }
  fold s ps pm in Hu, Hr. assert (clean (proc_at ps np)) as [Cpt Csz Cof] by by apply (fk_clean _ _ _ _ _ H).
  destruct Hr as [(E & Hshort & Hmade)|(tf & pt & T & E & Htf & Htf1 & Hpt & Hsp & HT & Hmade & Hlen1)].
  { left. rewrite (bind_ret _ _ _ _ _ E). exists (upd_proc np freed_proc (next_pid ps)), pm1, F1. split; [done|].
    destruct (fork_failed np freed_proc pm1 F1) as (K1 & K2 & K3 & K4); try done. split_and!; [done..|]. right. assert (0 <= n) as Hn0 by (unfold n, npages, PGSIZE; pose proof (fk_sz _ _ _ _ _ H) as [Hz _]; fold s ps P in Hz; zlia). lia. }
  rewrite (bind_ret _ _ _ _ _ E). clear E. set (g := fresh_proc (ps_nextpid ps) tf pt ra) in *. fold (mid np g pm1).
  assert (i <> np) as Hne by (intros <-; by apply (fk_used _ _ _ _ _ H)).
  assert (np < length (ps_proc (next_pid ps)))%nat as Hl by (change (np < length (ps_proc ps))%nat; fold s ps in Hlen; lia).
  unfold get_proc. rewrite !bind_kget. set (w1 := with_k w (mid np g pm1)).
  assert (proc_at (k_ps (w_k w1)) i = P) as Hpi.
  { change (k_ps (w_k w1)) with (upd_proc np g (next_pid ps)). rewrite proc_at_upd; [by rewrite decide_False by done|exact Hlen|done]. }
  assert (proc_at (k_ps (w_k w1)) np = g (proc_at ps np)) as Hpn by exact (proc_at_upd_eq np g (next_pid ps) Hl).
  rewrite Hpi, Hpn. change (p_pagetable (g (proc_at ps np))) with pt.
  destruct (fork_copied np pm1 F1 tf pt T Hn Hu Htf Htf1 Hsp HT Hmade) as (HP1 & rc & pm2 & F2 & T2 & Ec & Et & S2 & M2 & Q1 & Q2 & R). fold g w1 in Ec.
  rewrite (bind_ret _ _ _ _ _ Ec). assert (with_k w1 (set_k_pm pm2 (w_k w1)) = with_k w (mid np g pm2)) as -> by (unfold w1, mid, with_k; done).
  pose proof (pm_fields _ _ _ _ _ Hmade) as S1.
  assert (pm_end pm2 = pm_end pm /\ pm_trampoline pm2 = pm_trampoline pm) as [He Htr].
  { rewrite (sf_end _ _ S2), (sf_trampoline _ _ S2), (sf_end _ _ S1), (sf_trampoline _ _ S1). done. }
  assert (valid_page (pm_end pm) tf) as Hv by (by apply (ai_valid _ _ (vi_alloc _ _ _ _ (us_vm _ _ _ _ _ _ HP)))).
  destruct R as [(-> & U2 & G2 & O2 & C2)|(-> & U2 & G2 & Hshort)].
  - right. change (0 <? 0) with false. cbv iota. destruct (fk_cwd _ _ _ _ _ H) as [c Hc]. fold s ps P in Hc.
    assert (tf <> p_trapframe P) as Htfp.
    { intros ->. pose proof (fk_tf _ _ _ _ _ H _ Htf) as Hx. destruct (fk_frame _ _ _ _ _ H) as [y Hy]. fold s pm ps P in Hx, Hy. by rewrite Hx in Hy. }
    destruct (fork_tail np tf pt pm2 c Hn Hu Htfp Et Hc) as [thr Eq]. cbv zeta in Eq. fold g in Eq.
    set (ps' := runnable_ps _ _ _) in Eq. set (pm3 := put_tf _ _ _) in Eq. exists np, tf, pt, T2, ps', pm3, F2, thr. split; [replace (default O (p_cwd P)) with c by (by rewrite Hc); exact Eq|].
    assert (sched_inv (upd_proc np (child_proc i P (ps_nextpid ps) tf pt ra) (next_pid ps)) Q) as HQ2.
    { apply upd_proc_inv; [by apply next_pid_inv|done|change (p_state (proc_at ps np) <> RUNNABLE); by rewrite Hu|done]. }
    assert (proc_at (upd_proc np (child_proc i P (ps_nextpid ps) tf pt ra) (next_pid ps)) np = child_proc i P (ps_nextpid ps) tf pt ra (proc_at ps np)) as Hch by exact (proc_at_upd_eq np _ (next_pid ps) Hl).
    assert (alloc_inv pm3 F2) as A3 by (apply alloc_inv_tf; apply U2).
    destruct (uspace_kept _ _ _ _ _ _ pm3 F2 U2 A3) as (U3 & L3 & _); [done|done|intros a Ha; by apply (own_valid _ _ _ _ _ _ _ U2)|done|].
    split.
    + done.
    + unfold ps'. rewrite proc_at_runnable; [by rewrite decide_True, Hch by done|apply (si_nproc _ _ HQ2)|done].
    + intros j Hj. unfold ps'. rewrite proc_at_runnable; [|apply (si_nproc _ _ HQ2)|done]. rewrite decide_False by done. rewrite proc_at_upd; [by rewrite decide_False by done|exact Hlen|done].
    + unfold ps'. pose proof (runnable_ps_inv _ Q np (set_p_state RUNNABLE) HQ2 Hn) as Hx. rewrite Hch in Hx. apply Hx; [discriminate|reflexivity].
    + apply parent_ok; [done|exact He|exact Htr| |exact M2]. intros a Ha. apply G2. by left.
    + exact U3.
    + exact C2.
    + unfold pm3, put_tf. cbn. by rewrite Et, insert_insert_eq.
    + exact G2.
    + done.
  - left. change (-1 <? 0) with true. cbv iota. apply (fork_undone np tf pt pm2 F2 T2); try done; [by etransitivity|lia].
Qed.
End fork.

(** C15: [fork].  It fails, with -1, only when all 64 slots of the process
    table are in use or when fewer than [3 * n + 6] pages are free, [n]
    being the number of pages of the parent.  Then ([fork_fails]) all pages
    are free again, no process, file or inode has changed, the slot is
    unused and the parent keeps its memory.  Otherwise it returns the
    new process number, and ([forked]) a slot that was unused holds a
    RUNNABLE child, queued at its level, with the parent's size, open files,
    directory and name; an address space of its own with the
    parent's bytes and permissions at every address; the parent's trapframe
    with 0 as result; and a reference for every file and for the directory.
    The pages of the child are those that left the free list.  The parent,
    the other processes and all other parts of the kernel are unchanged, and
    no lock is held at the end. *)
Theorem fork_correct ra w i Q F T0 : forkable (w_k w) i Q F T0 -> let s := w_k w in let P := proc_at (k_ps s) i in
  fork_fails w i Q F T0 (fork ra w) \/
  exists np tf pt T ps' pm' F' thr, forked ra w i Q F T0 np tf pt T ps' pm' F' /\
    fork ra w = Ret (ps_nextpid (k_ps s))
      (with_k w (put_ps ps' thr (set_k_fs (dup_inode (default O (p_cwd P)) (k_fs s)) (set_k_files (dup_files (p_ofile P) (k_files s)) (set_k_pm pm' s))))).
Proof.
  intros H s P. destruct (fork_ok ra w i Q F T0 H) as [Hf|(np & tf & pt & T & ps' & pm' & F' & thr & E & Hk)]; [by left|right].
  by exists np, tf, pt, T, ps', pm', F', thr.
Qed.

(** ** Witness *)

(** A memory with the free pages [l]. *)
Lemma free_memory e tf tr l : 0 < e -> NoDup l -> (forall a, a ∈ l -> valid_page e a) ->
  exists pm, alloc_inv pm l /\ pm_end pm = e /\ pm_tf pm = tf /\ pm_trampoline pm = tr.
Proof.
  intros He. induction l as [|a l IH]; intros Hn Hv.
  - exists (PhysMem 0 (fun _ => 0) e tf 0 0 tr). split; [|done]. split; [intros b; cbn; lia|done|done|apply NoDup_nil_2|intros b Hb; by apply not_elem_of_nil in Hb].
  - apply NoDup_cons in Hn as [Ha Hn]. destruct IH as (pm & A & E1 & E2 & E3); [done|intros b Hb; apply Hv, elem_of_cons; by right|].
    assert (valid_page (pm_end pm) a) as Hva by (rewrite E1; apply Hv, elem_of_cons; by left). set (w := World [] (set_k_pm pm (kst_boot 0))).
    assert (L_kmem ∉ k_held (w_k w)) as Hl by apply not_elem_of_nil.
    destruct (kfree_ok a w l A Hl Hva Ha) as (pm' & E & A' & E1' & E2' & _). pose proof (kfree_same a w pm' Hl Hva E) as S.
    exists pm'. split; [done|]. change (k_pm (w_k w)) with pm in *. by rewrite E1', E2', (sf_trampoline _ _ S).
Qed.

Definition EX_TF : Z := 0x87ff0000.
Definition EX_USER : Z := 0x87fef000.
Definition fork_pages : list Z := (fun k => 0x87f00000 + PGSIZE * Z.of_nat k) <$> seq 0 20.
Definition ex_frame : gmap Z trapframe := {[ EX_TF := trapframe_zero ]}.

Lemma fork_pages_ok : NoDup fork_pages /\ (forall a, a ∈ fork_pages -> valid_page 0x80022000 a /\ a <> EX_TF /\ a <> EX_USER).
Proof.
  split; [apply (bool_decide_unpack _); by vm_compute|]. intros a (k & -> & Hk)%list_elem_of_fmap. apply elem_of_seq in Hk.
  unfold valid_page, PHYSTOP, KERNBASE, EX_TF, EX_USER, PGSIZE. split; [|lia]. split; [|lia]. rewrite Z.mul_comm. by rewrite Z.mod_add.
Qed.

Lemma ex_can_map : can_map EX_TF /\ can_map EX_USER /\ can_map 0x80007000.
Proof. unfold can_map. split_and!; by vm_compute. Qed.

(** A parent with one page of memory, and 13 free pages. *)
Lemma ex_space : exists pm F pt T, uspace pm F pt T EX_TF 1 /\ (13 <= length F)%nat /\ pm_tf pm = ex_frame /\ pm_trampoline pm = 0x80007000 /\
  (forall a, a ∈ F -> a ∈ fork_pages) /\ pm_end pm = 0x80022000 /\ pt <> 0 /\ (forall n p, T n = Some p -> p ∈ fork_pages) /\ upage pm T 0 = EX_USER.
Proof.
  destruct fork_pages_ok as [Hnd Hv]. destruct (free_memory 0x80022000 ex_frame 0x80007000 fork_pages) as (pm0 & A0 & E1 & E2 & E3); [done|done|intros a Ha; by apply Hv|].
  set (w0 := World [] (set_k_pm pm0 (set_k_ps (upd_proc 0 (set_p_trapframe EX_TF) psched_boot) (kst_boot 0)))).
  assert (L_kmem ∉ k_held (w_k w0)) as Hl by apply not_elem_of_nil.
  destruct (proc_pagetable_ok w0 fork_pages 0 A0 Hl) as (pt & pm1 & F1 & Ep & A1 & R); [apply ex_can_map|change (can_map (pm_trampoline pm0)); rewrite E3; apply ex_can_map|].
  change (k_pm (w_k w0)) with pm0 in R. change (p_trapframe (proc_at (k_ps (w_k w0)) 0)) with EX_TF in R.
  destruct R as [(Hpt & (T & Hsp & [S1 G1 M1]) & Hlen)|(_ & Hlen & _)]; [|change (length fork_pages) with 20%nat in Hlen; lia]. change (length fork_pages) with 20%nat in Hlen.
  set (w1 := with_k w0 (set_k_pm pm1 (w_k w0))). destruct Hsp as [H1 _ _ Hno Ht Hf].
  destruct (map_top w1 F1 pt T 0 EX_USER (Z.lor PTE_R (Z.lor PTE_W PTE_U)) H1 Hl) as (r & pm2 & F2 & T2 & Em & H2 & X2 & L2 & R2);
    [done|by vm_compute|apply ex_can_map|by vm_compute|by apply Hno|]. change (k_pm (w_k w1)) with pm1 in *.
  destruct R2 as [(_ & Lu & Hlen2)|(_ & _ & Hlen2)]; [|lia]. pose proof (vm_frame_fields _ _ _ (ve_frame _ _ _ _ _ _ X2)) as S2.
  assert (pm_end pm2 = 0x80022000 /\ pm_trampoline pm2 = 0x80007000 /\ pm_tf pm2 = ex_frame) as (D1 & D2 & D3).
  { rewrite (sf_end _ _ S2), (sf_trampoline _ _ S2), (sf_tf _ _ S2), (sf_end _ _ S1), (sf_trampoline _ _ S1), (sf_tf _ _ S1). done. }
  assert (forall a, a ∈ F2 -> a ∈ fork_pages) as HF2.
  { intros a Ha. apply G1. left. destruct (ve_free _ _ _ _ _ _ X2) as [l ->]. apply elem_of_app. by right. }
  assert (forall n p, T2 n = Some p -> p ∈ fork_pages) as HT2.
  { intros n p Hn. apply G1. apply (ve_new _ _ _ _ _ _ X2) in Hn as [Hn|Hn]; [right; by exists n|by left]. }
  exists pm2, F2, pt, T2. assert (upage pm2 T2 0 = EX_USER) as Eu.
  { unfold upage. rewrite Lu. destruct (pte_leaf EX_USER (Z.lor PTE_R (Z.lor PTE_W PTE_U))) as (_ & _ & E); [apply ex_can_map|by vm_compute|done|done]. }
  split; [|split_and!; (lia || done)]. split.
  - exact H2.
  - split; [done|by vm_compute|..].
    + intros j Hj. assert (j = 0) as -> by lia. rewrite Lu. destruct (pte_leaf EX_USER (Z.lor PTE_R (Z.lor PTE_W PTE_U))) as (B1 & B2 & _); [apply ex_can_map|by vm_compute|done|done].
    + intros j Hj. assert (j = 0) as -> by lia. rewrite Eu, D1. split_and!; [split; [done|by vm_compute]|intros Ha; by apply HF2, Hv in Ha as (_ & _ & ?)|].
      intros n p Hn ->. by apply HT2, Hv in Hn as (_ & _ & ?).
    + intros; lia.
  - by vm_compute.
  - intros va Hva Hn. rewrite L2; [apply Hno; [done|lia]|change TRAPFRAME with 274877898752 in Hva; change MAXVA with 274877906944; lia|lia].
  - rewrite L2; [|by vm_compute|by vm_compute]. by rewrite Ht, D2, (sf_trampoline _ _ S1), E3.
  - rewrite L2; [done|by vm_compute|by vm_compute].
Qed.

(** Process 0, running, with file 0 as standard input and inode 0 as directory. *)
Definition ex_proc (pt : Z) (p : proc) : proc :=
  set_p_cwd (Some O) (set_p_ofile (Some O :: replicate 15 None) (set_p_sz 4096 (set_p_pagetable pt (set_p_trapframe EX_TF (set_p_state RUNNING (set_p_pid 1 p)))))).
Definition ex_kst (pm : physmem) (pt : Z) : kst :=
  set_k_cur (Some O) (set_k_files (<[0%nat := set_f_ref 1 file_zero]> (replicate NFILE file_zero)) (set_k_pm pm (set_k_ps (upd_proc 0 (ex_proc pt) psched_boot) (kst_boot 0)))).

Lemma ex_procs pt j : (j < NPROC)%nat -> j <> O -> proc_at (upd_proc 0 (ex_proc pt) psched_boot) j = proc_zero.
Proof.
  intros Hj H0. rewrite proc_at_upd; [|done|unfold NPROC; lia]. rewrite decide_False by done. unfold proc_at, psched_boot. cbn [ps_proc].
  by rewrite nth_lookup, lookup_replicate_2.
Qed.

Lemma ex_forkable pm F pt T : uspace pm F pt T EX_TF 1 -> pm_tf pm = ex_frame -> pm_trampoline pm = 0x80007000 -> (forall a, a ∈ F -> a ∈ fork_pages) ->
  forkable (ex_kst pm pt) 0 qempty F T.
Proof.
  intros Hs Ht Hr HF. assert (proc_at (upd_proc 0 (ex_proc pt) psched_boot) 0 = ex_proc pt proc_zero) as E0 by done.
  split.
  - done.
  - done.
  - unfold NPROC. lia.
  - discriminate.
  - apply upd_proc_inv; [exact boot_inv|unfold NPROC; lia|discriminate|discriminate].
  - intros j Hj. change (k_ps (ex_kst pm pt)) with (upd_proc 0 (ex_proc pt) psched_boot). destruct j as [|j]; [rewrite E0; discriminate|]. by rewrite ex_procs.
  - exact Hs.
  - split; [discriminate|]. change (4096 <= TRAPFRAME). by vm_compute.
  - change (can_map (pm_trampoline pm)). rewrite Hr. apply ex_can_map.
  - intros a Ha. change (pm_tf pm !! a = None). rewrite Ht. apply lookup_singleton_ne. apply HF, fork_pages_ok in Ha as (_ & Hne & _). congruence.
  - change (is_Some (pm_tf pm !! EX_TF)). rewrite Ht. unfold ex_frame. rewrite lookup_singleton_eq. by eexists.
  - done.
  - intros f Hf. change (Some f ∈ Some O :: replicate 15 None) in Hf. apply elem_of_cons in Hf as [[= ->]|Hf].
    + exists (set_f_ref 1 file_zero). split; [done|]. by vm_compute.
    + apply elem_of_replicate in Hf as [? _]. done.
  - by eexists.
Qed.

(** With 13 free pages, forking the process with one page succeeds. *)
Lemma fork_correct_witness : exists w w', fork 0 w = Ret 1 w'.
Proof.
  destruct ex_space as (pm & F & pt & T & Hs & Hlen & Ht & Hr & HF & _).
  destruct (fork_correct 0 (World [] (ex_kst pm pt)) 0 qempty F T (ex_forkable pm F pt T Hs Ht Hr HF)) as [Hf|(np & tf & pt' & T' & ps' & pm' & F' & thr & _ & E)].
  - exfalso. destruct Hf as (ps' & pm' & F' & _ & _ & _ & _ & _ & [Hno|Hshort]).
    + apply (Hno 1%nat); [unfold NPROC; lia|]. done.
    + change (npages _) with 1 in Hshort. lia.
  - eexists _, _. exact E.
Defined.
