(* ===== verification/WaitProps.v ===== *)
(** * WaitProps: wait

    [wait] sleeps until a child is a zombie, hands out its exit status,
    frees everything the child has and returns its pid; it fails when there
    is no child, when the caller was killed, or when the status cannot be
    written.  While it sleeps, other processes run: their actions are the
    environment. *)

From S2P Require Import Prelude.
From S2P Require Import State.
From S2P Require Import Kernel.
From S2P Require Import Mlfq.
From S2P Require Import Sched.
From S2P Require Import SchedInv.
From S2P Require Import SchedProps.
From S2P Require Import Mem.
From S2P Require Import Kalloc.
From S2P Require Import Vm.
From S2P Require Import VmProps.
From S2P Require Import UvmProps.
From S2P Require Import Bio.
From S2P Require Import Log.
From S2P Require Import Fs.
From S2P Require Import File.
From S2P Require Import PipeProps.
From S2P Require Import Proc.
From S2P Require Import ProcVm.
From S2P Require Import ProcProps.
From S2P Require Import ForkProps.

#[local] Opaque memset store64 load64 pte_of freeproc.

(** ** Copying to an address that is not mapped *)

(** [addr] is too large, or not mapped for the user. *)
Definition refused (pm : physmem) (T : tree) (addr : Z) : Prop :=
  MAXVA <= addr < 2 ^ 64 \/ 0 <= addr < MAXVA /\ has (leaf pm T addr) PTE_V && has (leaf pm T addr) PTE_U = false.

Lemma copyout_refused pt F T va src w : vm_inv (k_pm (w_k w)) F pt T -> refused (k_pm (w_k w)) T va -> src <> [] ->
  copyout pt va src w = Ret (-1) w.
Proof.
  intros H Hr Hs. assert (walkaddr pt (PGROUNDDOWN va) w = Ret 0 w) as Ew.
  { destruct Hr as [Hva|[Hva Hp]].
    - unfold walkaddr. rewrite (proj2 (Z.leb_le _ _)); [done|]. change MAXVA with 274877906944 in *. rewrite PGROUNDDOWN_spec by lia. unfold PGSIZE. zlia.
    - destruct (next_page va Hva) as (_ & _ & _ & _ & Ed & Hr). rewrite (walkaddr_ok pt _ w F T H Hr). rewrite (leaf_page _ T (PGROUNDDOWN va) va) by done. cbv zeta. by rewrite Hp. }
  unfold copyout. destruct src as [|x src]; [done|]. cbn [length copyout_loop]. cbv zeta. by rewrite (bind_ret _ _ _ _ _ Ew).
Qed.

(** The memory after writing [src] at [va]. *)
Record wrote (pm : physmem) (T : tree) (va : Z) (src : list Z) (m' : mem) : Prop := {
  wr_in : forall k, 0 <= k < Z.of_nat (length src) -> m' (phys pm T (va + k)) = aget 0 src k;
  wr_out : forall b, (forall k, 0 <= k < Z.of_nat (length src) -> b <> phys pm T (va + k)) -> m' b = pm_mem pm b
}.

(** ** A change of memory outside a process *)

Lemma proc_mem_ext pm F p X m' : proc_mem pm F p X -> is_bytes m' -> alloc_inv (set_pm_mem m' pm) F ->
  (forall a b, X a -> in_page a b -> m' b = pm_mem pm b) ->
  exists X', proc_mem (set_pm_mem m' pm) F p X' /\ forall a, X' a <-> X a.
Proof.
  intros HX Hb HA Hm. destruct HX as [Htf Hpt|Hv HF Hpt|T Hv HF Hpt Hsp Hsz Ctr HT HU].
  - eexists. split; [by apply proc_none|done].
  - eexists. split; [by apply proc_tf|done].
  - destruct (vm_inv_ext pm (set_pm_mem m' pm) F F (p_pagetable p) T (us_vm _ _ _ _ _ _ Hsp) HA) as [H' L]; [done| | |].
    + intros n q Hn. by apply (vi_page _ _ _ _ (us_vm _ _ _ _ _ _ Hsp) n).
    + intros b (n & q & Hn & Hq). apply (Hm q); [right; left; by exists n|exact Hq].
    + assert (forall a, in_upages (set_pm_mem m' pm) T 0 (npages (p_sz p)) a <-> in_upages pm T 0 (npages (p_sz p)) a) as Hup.
      { intros a. split; intros (j & Hj & ->); exists j; (split; [done|]); unfold upage; by rewrite L. }
      eexists. split; [apply (proc_all _ _ _ T); try done|].
      * apply (uspace_ext pm _ F); try done. intros j Hj. by apply (um_page _ _ _ _ _ (us_user _ _ _ _ _ _ Hsp) j Hj).
      * by rewrite Hup.
      * intros a. cbn beta. by rewrite Hup.
Qed.

(** ** The table of processes *)

Definition child_of (p : nat) (ps : psched) (i : nat) : bool := bool_decide (p_parent (proc_at ps i) = Some p).
Definition zombie_of (p : nat) (ps : psched) (i : nat) : bool := child_of p ps i && bool_decide (p_state (proc_at ps i) = ZOMBIE).

Lemma lock_child (i : nat) w : k_held (w_k w) = [L_wait] -> acquire (L_proc i) w = Ret tt (with_k w (set_k_held [L_proc i; L_wait] (w_k w))).
Proof. intros Hh. rewrite acquire_ok by (rewrite Hh, list_elem_of_singleton; discriminate). by rewrite Hh. Qed.
Lemma unlock_child (i : nat) w : k_held (w_k w) = [L_wait] -> release (L_proc i) (with_k w (set_k_held [L_proc i; L_wait] (w_k w))) = Ret tt w.
Proof.
  intros Hh. rewrite (release_ok _ _ [L_wait]) by (done || rewrite list_elem_of_singleton; discriminate). destruct w as [env s]. unfold with_k. cbn in *. rewrite <- Hh. by destruct s.
Qed.

Lemma scan_pass p addr i l hk w : k_held (w_k w) = [L_wait] -> zombie_of p (k_ps (w_k w)) i = false ->
  wait_scan (i :: l) p addr hk w = wait_scan l p addr (hk || child_of p (k_ps (w_k w)) i) w.
Proof.
  intros Hh Hz. unfold zombie_of in Hz. cbn [wait_scan]. unfold get_proc. rewrite bind_kget. fold (child_of p (k_ps (w_k w)) i).
  destruct (child_of p (k_ps (w_k w)) i); cbn [andb] in *; [|by rewrite orb_false_r].
  rewrite (bind_ret _ _ _ _ _ (lock_child i w Hh)), bind_kget. change (k_ps (w_k (with_k w _))) with (k_ps (w_k w)). rewrite Hz, orb_true_r.
  by rewrite (bind_ret _ _ _ _ _ (unlock_child i w Hh)).
Qed.

(** A pass over processes none of which is a zombie child. *)
Lemma scan_none p addr l : forall hk w, k_held (w_k w) = [L_wait] -> existsb (zombie_of p (k_ps (w_k w))) l = false ->
  wait_scan l p addr hk w = Ret (None, hk || existsb (child_of p (k_ps (w_k w))) l) w.
Proof.
  induction l as [|i l IH]; intros hk w Hh Hz; cbn [existsb] in *; [cbn [wait_scan]; by rewrite orb_false_r|].
  apply orb_false_iff in Hz as [Hz Hl]. rewrite scan_pass, IH by done. by rewrite orb_assoc.
Qed.

(** What a pass does with a zombie child. *)
Definition reap (z p : nat) (addr : Z) : K (option Z * bool) :=
  pp ← get_proc z;
  q ← get_proc p;
  r ← (if addr =? 0 then mret 0 else copyout (p_pagetable q) addr (le_bytes 4 (p_xstate pp)));
  if r <? 0 then release (L_proc z);; release L_wait;; mret (Some (-1), true) else
  freeproc z;; release (L_proc z);; release L_wait;; mret (Some (p_pid pp), true).

Lemma scan_found p addr l : forall hk w z, k_held (w_k w) = [L_wait] -> find (zombie_of p (k_ps (w_k w))) l = Some z ->
  wait_scan l p addr hk w = reap z p addr (with_k w (set_k_held [L_proc z; L_wait] (w_k w))).
Proof.
  induction l as [|i l IH]; intros hk w z Hh Hz; cbn [find] in *; [done|]. destruct (zombie_of p (k_ps (w_k w)) i) eqn:E.
  - injection Hz as ->. unfold zombie_of in E. apply andb_true_iff in E as [Ec Es]. cbn [wait_scan]. unfold get_proc. rewrite bind_kget. unfold child_of in Ec. rewrite Ec.
    rewrite (bind_ret _ _ _ _ _ (lock_child z w Hh)), bind_kget. change (k_ps (w_k (with_k w _))) with (k_ps (w_k w)). by rewrite Es.
  - rewrite scan_pass by done. by apply IH.
Qed.

Lemma le_bytes_range k : forall v, Forall (fun x => 0 <= x < 256) (le_bytes k v).
Proof. induction k as [|k IH]; intros v; cbn [le_bytes]; constructor; [apply Z.mod_pos_bound; lia|done]. Qed.

(** ** Reaping a child *)

(** The memory [wait] works on: the free pages [F], the page table [T] of
    the caller if it wants the status, and what each zombie child owns. *)
Record wait_mem (p : nat) (addr : Z) (s : kst) (F : list Z) (T : tree) : Prop := {
  wm_alloc : alloc_inv (k_pm s) F;
  wm_vm : addr <> 0 -> vm_inv (k_pm s) F (p_pagetable (proc_at (k_ps s) p)) T;
  wm_addr : addr <> 0 -> user_range (k_pm s) F T addr 4 \/ refused (k_pm s) T addr;
  wm_child : forall z, (z < NPROC)%nat -> zombie_of p (k_ps s) z = true -> exists X, proc_mem (k_pm s) F (proc_at (k_ps s) z) X /\
    (addr <> 0 -> user_range (k_pm s) F T addr 4 -> forall a k, X a -> 0 <= k < 4 -> ~ in_page a (phys (k_pm s) T (addr + k)))
}.

(** All pages [X] of the child are free, its status is written, and other
    memory is as before. *)
Record reaped (addr : Z) (c : proc) (pm : physmem) (F : list Z) (T : tree) (pm' : physmem) (F' : list Z) (X : Z -> Prop) : Prop := {
  rp_owned : proc_mem pm F c X;
  rp_alloc : alloc_inv pm' F';
  rp_free : forall a, a ∈ F' <-> a ∈ F \/ X a;
  rp_fields : same_fields (drop_tf (p_trapframe c) pm) pm';
  rp_status : addr <> 0 -> forall k, 0 <= k < 4 -> pm_mem pm' (phys pm T (addr + k)) = aget 0 (le_bytes 4 (p_xstate c)) k;
  rp_mem : forall b, (forall a, X a -> ~ in_page a b) -> (addr <> 0 -> forall k, 0 <= k < 4 -> b <> phys pm T (addr + k)) -> pm_mem pm' b = pm_mem pm b
}.

(** The end of [reap] after the status is written: memory [m']. *)
Lemma reap_free z w F X c m' : let s := w_k w in let pm := k_pm s in
  k_held s = [L_wait] -> (z < length (ps_proc (k_ps s)))%nat -> c = proc_at (k_ps s) z ->
  is_bytes m' -> alloc_inv (set_pm_mem m' pm) F -> proc_mem pm F c X -> (forall a b, X a -> in_page a b -> m' b = pm_mem pm b) ->
  exists pm' F', (freeproc z;; release (L_proc z);; release L_wait;; mret (Some (p_pid c), true))
      (with_k w (set_k_held [L_proc z; L_wait] (set_k_pm (set_pm_mem m' pm) s))) =
    Ret (Some (p_pid c), true) (with_k w (set_k_held [] (set_k_ps (upd_proc z freed_proc (k_ps s)) (set_k_pm pm' s)))) /\
    alloc_inv pm' F' /\ (forall a, a ∈ F' <-> a ∈ F \/ X a) /\ same_fields (drop_tf (p_trapframe c) pm) pm' /\
    (forall b, (forall a, X a -> ~ in_page a b) -> pm_mem pm' b = m' b).
Proof.
  intros s pm Hh Hz -> Hb HA HX Hm. set (w1 := with_k w _). destruct (proc_mem_ext pm F _ X m' HX Hb HA Hm) as (X' & HX' & EX).
  destruct (freeproc_ok w1 z F X') as (pm' & F' & E & [A S G M]); [done| |done|done|].
  { unfold w1. cbn. rewrite !elem_of_cons, elem_of_nil. intros [?|[?|?]]; done. }
  change (k_pm (w_k w1)) with (set_pm_mem m' pm) in *. change (k_ps (w_k w1)) with (k_ps s) in *. exists pm', F'. split.
  { rewrite (bind_ret _ _ _ _ _ E). erewrite bind_ret by (apply (release_ok _ _ [L_wait]); [done|rewrite list_elem_of_singleton; discriminate]).
    erewrite bind_ret by (apply (release_ok _ _ []); [done|apply not_elem_of_nil]). done. }
  split; [done|]. split; [intros a; by rewrite G, EX|]. split.
  - etransitivity; [|exact S]. unfold drop_tf. destruct (_ =? _); by split.
  - intros b Hb'. rewrite M by (intros a Ha; by apply Hb', EX). unfold drop_tf. by destruct (_ =? _).
Qed.

Lemma reap_ok z p addr w F T : let s := w_k w in let c := proc_at (k_ps s) z in
  wait_mem p addr s F T -> k_held s = [L_wait] -> length (ps_proc (k_ps s)) = NPROC -> (z < NPROC)%nat -> zombie_of p (k_ps s) z = true ->
  let r := reap z p addr (with_k w (set_k_held [L_proc z; L_wait] s)) in
  (addr <> 0 /\ refused (k_pm s) T addr /\ r = Ret (Some (-1), true) (with_k w (set_k_held [] s))) \/
  (addr = 0 \/ user_range (k_pm s) F T addr 4) /\ exists pm' F' X, reaped addr c (k_pm s) F T pm' F' X /\
    r = Ret (Some (p_pid c), true) (with_k w (set_k_held [] (set_k_ps (upd_proc z freed_proc (k_ps s)) (set_k_pm pm' s)))).
Proof.
  intros s c [HA HV HU HC] Hh Hlen Hz Hzc r. destruct (HC z Hz Hzc) as (X & HX & HD). unfold r, reap, get_proc. rewrite !bind_kget.
  change (k_ps (w_k (with_k w _))) with (k_ps s). fold c. destruct (Z.eqb_spec addr 0) as [->|Ha].
  - rewrite bind_mret. change (0 <? 0) with false. cbv iota. right. split; [by left|].
    destruct (reap_free z w F X c (pm_mem (k_pm s))) as (pm' & F' & E & A & G & S & M); try done; [change (z < length (ps_proc (k_ps s)))%nat; by rewrite Hlen|apply HA|by destruct HA|].
    exists pm', F', X. split; [split; try done|].
    + intros b Hb _. by apply M.
    + etransitivity; [|exact E]. f_equal. unfold with_k. f_equal. unfold s. by destruct (w_k w) as [? ? ? []].
  - set (w1 := with_k w _). destruct (HU Ha) as [Hur|Href].
    + right. split; [by right|]. destruct (copyout_loop_ok (p_pagetable (proc_at (k_ps s) p)) F T 4 (le_bytes 4 (p_xstate c)) addr w1) as (m' & E & H' & L & Hin & Hout); [by apply HV|done|apply le_bytes_range|done|].
      change (k_pm (w_k w1)) with (k_pm s) in *. rewrite (bind_ret _ _ _ _ _ E). change (0 <? 0) with false. cbv iota.
      destruct (reap_free z w F X c m') as (pm' & F' & E2 & A & G & S & M); try done; [change (z < length (ps_proc (k_ps s)))%nat; by rewrite Hlen|apply (ai_bytes _ _ (vi_alloc _ _ _ _ H'))|apply (vi_alloc _ _ _ _ H')| |].
      { intros a b HXa Hb. apply Hout. intros k Hk ->. by apply (HD Ha Hur a k). }
      exists pm', F', X. split; [split; try done|].
      * intros _ k Hk. rewrite M; [by apply Hin|]. intros a HXa. by apply HD.
      * intros b Hb Hk. rewrite M by done. apply Hout. intros k Hk'. by apply Hk.
      * exact E2.
    + left. split; [done|]. split; [done|]. assert (le_bytes 4 (p_xstate c) <> []) as Hne by (cbn [le_bytes]; discriminate). rewrite (bind_ret _ _ _ _ _ (copyout_refused _ F T addr _ w1 (HV Ha) Href Hne)).
      change (-1 <? 0) with true. cbv iota. unfold w1. erewrite bind_ret by (apply (release_ok _ _ [L_wait]); [done|rewrite list_elem_of_singleton; discriminate]).
      erewrite bind_ret by (apply (release_ok _ _ []); [done|apply not_elem_of_nil]). done.
Qed.

(** ** Waiting *)

(** Process [p] is running, and the memory is as [wait_mem] says. *)
Record wait_ctx (p : nat) (addr : Z) (s : kst) : Prop := {
  wc_cur : k_cur s = Some p;
  wc_lt : (p < NPROC)%nat;
  wc_len : length (ps_proc (k_ps s)) = NPROC;
  wc_mem : exists F T, wait_mem p addr s F T
}.
Definition first_zombie (p : nat) (ps : psched) : option nat := find (zombie_of p ps) (seq 0 NPROC).
Definition has_child (p : nat) (ps : psched) : bool := existsb (child_of p ps) (seq 0 NPROC).
(** The caller has children, none is a zombie, and it is not killed. *)
Definition must_wait (p : nat) (s : kst) : Prop :=
  first_zombie p (k_ps s) = None /\ has_child p (k_ps s) = true /\ p_killed (proc_at (k_ps s) p) = 0.

(** What [p] finds after sleeping while another action runs. *)
Definition woken (p : nat) (f : kst -> kst) (s : kst) : kst := awake p L_wait (f (asleep p (Ch_proc p) s)).
(** The environment keeps the table and the memory well formed. *)
Definition rears (p : nat) (addr : Z) (f : kst -> kst) : Prop := forall s, wait_ctx p addr s -> must_wait p s -> wait_ctx p addr (woken p f s).
(** The state is that of the last pass over the table. *)
Inductive waits (p : nat) : world -> world -> Prop :=
| waits_now w : waits p w w
| waits_sleep w f env w' : w_env w = f :: env -> must_wait p (w_k w) -> waits p (World env (woken p f (w_k w))) w' -> waits p w w'.

(** How a call ends whose last pass sees [w]. *)
Definition wait_end (p : nat) (addr : Z) (w : world) (r : res Z) : Prop :=
  let s := w_k w in
  match first_zombie p (k_ps s) with
  | Some z => exists F T, wait_mem p addr s F T /\
     (addr <> 0 /\ refused (k_pm s) T addr /\ r = Ret (-1) (with_k w (set_k_held [] s)) \/
      (addr = 0 \/ user_range (k_pm s) F T addr 4) /\ exists pm' F' X, reaped addr (proc_at (k_ps s) z) (k_pm s) F T pm' F' X /\
        r = Ret (p_pid (proc_at (k_ps s) z)) (with_k w (set_k_held [] (set_k_ps (upd_proc z freed_proc (k_ps s)) (set_k_pm pm' s)))))
  | None =>
    if has_child p (k_ps s) && (p_killed (proc_at (k_ps s) p) =? 0)
    then w_env w = [] /\ r = Blocked (World [] (asleep p (Ch_proc p) s))
    else r = Ret (-1) (with_k w (set_k_held [] s))
  end.

Lemma existsb_find {A} (f : A -> bool) l : existsb f l = match find f l with Some _ => true | None => false end.
Proof. induction l as [|a l IH]; cbn; [done|]. by destruct (f a). Qed.

Lemma wait_loop_ok p addr : forall fuel w, wait_ctx p addr (w_k w) -> k_held (w_k w) = [L_wait] -> Forall (rears p addr) (w_env w) -> (length (w_env w) < fuel)%nat ->
  exists w1, waits p w w1 /\ wait_ctx p addr (w_k w1) /\ wait_end p addr w1 (wait_loop fuel p addr w).
Proof.
  induction fuel as [|fuel IH]; intros w H Hh He Hf; [lia|]. cbn [wait_loop]. destruct H as [Hc Hp Hlen (F & T & HM)] eqn:EH.
  destruct (first_zombie p (k_ps (w_k w))) as [z|] eqn:Ez.
  - exists w. split; [constructor|]. split; [done|]. unfold wait_end. rewrite Ez. exists F, T. split; [done|].
    pose proof (find_some _ _ Ez) as [Hin Hz]. apply in_seq in Hin.
    destruct (reap_ok z p addr w F T HM Hh Hlen ltac:(lia) Hz) as [(Ha & Hr & E)|(Hr & pm' & F' & X & Hrp & E)].
    + left. split; [done|]. split; [done|]. erewrite bind_ret by (rewrite (scan_found p addr _ false w z Hh Ez); exact E). done.
    + right. split; [done|]. exists pm', F', X. split; [done|]. erewrite bind_ret by (rewrite (scan_found p addr _ false w z Hh Ez); exact E). done.
  - assert (existsb (zombie_of p (k_ps (w_k w))) (seq 0 NPROC) = false) as Hn by (rewrite existsb_find; unfold first_zombie in Ez; by rewrite Ez).
    rewrite (bind_ret _ _ _ _ _ (scan_none p addr _ false w Hh Hn)). cbn [orb]. fold (has_child p (k_ps (w_k w))).
    assert (wait_ctx p addr (w_k w)) as H' by exact H.
    destruct (has_child p (k_ps (w_k w))) eqn:Ec.
    2: { rewrite bind_mret. change (negb (1 =? 0)) with true. cbv iota. exists w. split; [constructor|]. split; [done|]. unfold wait_end. rewrite Ez, Ec. cbn [andb].
         by rewrite (bind_ret _ _ _ _ _ (release_ok L_wait w [] Hh (not_elem_of_nil _))). }
    rewrite (bind_ret _ _ _ _ _ (killed_ok p w ltac:(rewrite Hh, list_elem_of_singleton; discriminate))).
    destruct (Z.eqb_spec (p_killed (proc_at (k_ps (w_k w)) p)) 0) as [Ek|Ek]; cbn [negb].
    2: { exists w. split; [constructor|]. split; [done|]. unfold wait_end. rewrite Ez, Ec, (proj2 (Z.eqb_neq _ _) Ek). cbn [andb].
         by rewrite (bind_ret _ _ _ _ _ (release_ok L_wait w [] Hh (not_elem_of_nil _))). }
    pose proof (sleep_eq (Ch_proc p) L_wait w p Hc Hh ltac:(discriminate) Hp Hlen) as Es. unfold switched in Es.
    destruct (w_env w) as [|f env] eqn:Ee.
    + exists w. split; [constructor|]. split; [done|]. unfold wait_end. rewrite Ez, Ec, Ek. cbn [andb]. split; [done|].
      unfold mbind, K_bind. by rewrite Es.
    + apply Forall_cons in He as [Hr He]. rewrite (bind_ret _ _ _ _ _ Es).
      destruct (IH (World env (woken p f (w_k w)))) as (w1 & W & C & R); [by apply Hr|done|done|cbn in *; lia|].
      exists w1. split; [|done]. by apply (waits_sleep p w f env).
Qed.

(** C17: [wait] by process [p], whatever other processes do while it sleeps,
    as long as the process table and the memory stay well formed: it sleeps
    only while it has children, none of them is a zombie, and it is not
    killed.  In the first pass that finds a zombie child, the first in the
    table is reaped: its status is stored at [addr] (unless that is 0), all
    its pages are free, its slot is unused, no other memory changes, and its
    pid is returned; if the status cannot be stored, the child stays and -1
    is returned.  -1 is also returned without children or when killed.  No
    lock is kept, and the loop never panics or runs out of fuel. *)
Theorem wait_correct p addr w : wait_ctx p addr (w_k w) -> k_held (w_k w) = [] -> Forall (rears p addr) (w_env w) ->
  exists w1, waits p (with_k w (set_k_held [L_wait] (w_k w))) w1 /\ wait_ctx p addr (w_k w1) /\ wait_end p addr w1 (wait addr w).
Proof.
  intros H Hh He. unfold wait. rewrite (bind_ret _ _ _ _ _ (curproc_ok w p (wc_cur _ _ _ H))).
  rewrite (bind_ret (acquire _) _ _ tt (with_k w (set_k_held [L_wait] (w_k w)))) by (rewrite acquire_ok by (rewrite Hh; apply not_elem_of_nil); by rewrite Hh).
  unfold with_fuel. apply wait_loop_ok; [|done|done|cbn; lia]. destruct H as [? ? ? (F & T & HM)]. split; try done. exists F, T. by destruct HM.
Qed.

(** ** Witness *)

(** Process 0 waits; process 1, its child, exits while it sleeps. *)
Definition wait_child (st : procstate) (pt : Z) (p : proc) : proc :=
  set_p_parent (Some O) (set_p_sz 4096 (set_p_pagetable pt (set_p_trapframe EX_TF (set_p_state st (set_p_pid 7 p))))).
Definition wait_kst (pm : physmem) (pt : Z) (st : procstate) : kst :=
  set_k_cur (Some O) (set_k_pm pm (set_k_ps (upd_proc 1 (wait_child st pt) psched_boot) (kst_boot 0))).

Lemma wait_zombie ps z : (forall j, j <> 1%nat -> p_parent (proc_at ps j) = None) -> zombie_of 0 ps z = true -> z = 1%nat.
Proof.
  intros Hps Hz. destruct (decide (z = 1%nat)) as [|Hne]; [done|]. unfold zombie_of, child_of in Hz. rewrite Hps in Hz by done. done.
Qed.

Lemma wait_child_mem pm F pt T st : uspace pm F pt T EX_TF 1 -> pm_trampoline pm = 0x80007000 -> (forall a, a ∈ F -> a ∈ fork_pages) ->
  pm_end pm = 0x80022000 -> pt <> 0 -> (forall n p, T n = Some p -> p ∈ fork_pages) -> upage pm T 0 = EX_USER ->
  exists X, proc_mem pm F (wait_child st pt proc_zero) X.
Proof.
  intros Hs Htr HF He Hpt HT Hu. destruct fork_pages_ok as [_ Hv]. eexists. apply (proc_all _ _ _ T); cbn [wait_child p_trapframe p_pagetable p_sz set_p_parent set_p_sz set_p_pagetable set_p_trapframe].
  - rewrite He. split; [done|by vm_compute].
  - intros Ha. by apply HF, Hv in Ha as (_ & ? & _).
  - exact Hpt.
  - exact Hs.
  - by vm_compute.
  - rewrite Htr. apply ex_can_map.
  - intros n Hn. by apply HT, Hv in Hn as (_ & ? & _).
  - intros (j & Hj & E). change (npages 4096) with 1 in Hj. assert (j = 0) as -> by lia. rewrite Hu in E. done.
Qed.

Lemma wait_kst_ctx s pm F pt T st : uspace pm F pt T EX_TF 1 -> pm_trampoline pm = 0x80007000 -> (forall a, a ∈ F -> a ∈ fork_pages) ->
  pm_end pm = 0x80022000 -> pt <> 0 -> (forall n p, T n = Some p -> p ∈ fork_pages) -> upage pm T 0 = EX_USER ->
  k_cur s = Some O -> k_pm s = pm -> length (ps_proc (k_ps s)) = NPROC -> (forall j, j <> 1%nat -> p_parent (proc_at (k_ps s) j) = None) ->
  proc_at (k_ps s) 1 = wait_child st pt proc_zero -> wait_ctx 0 0 s.
Proof.
  intros Hs Htr HF He Hpt HT Hu Hc Hpm Hlen Hpar H1. split; [done|unfold NPROC; lia|done|]. exists F, T. split.
  - rewrite Hpm. apply (vi_alloc _ _ _ _ (us_vm _ _ _ _ _ _ Hs)).
  - done.
  - done.
  - intros z _ ->%(wait_zombie _ _ Hpar). rewrite H1, Hpm. destruct (wait_child_mem pm F pt T st Hs Htr HF He Hpt HT Hu) as [X HX]. exists X. by split.
Qed.

Lemma nth_zero j n : p_parent (nth j (replicate n proc_zero) proc_zero) = None.
Proof. revert j. induction n as [|n IH]; intros [|j]; cbn; try done. Qed.

Definition wait_exit (pm : physmem) (pt : Z) : kst -> kst := fun _ => wait_kst pm pt ZOMBIE.

Lemma wait_ex : exists pm pt, wait_ctx 0 0 (wait_kst pm pt SLEEPING) /\ forall s, wait_ctx 0 0 (woken 0 (wait_exit pm pt) s).
Proof.
  destruct ex_space as (pm & F & pt & T & Hs & Hlen & Ht & Hr & HF & He & Hpt & HT & Hu). exists pm, pt. split.
  - apply (wait_kst_ctx _ pm F pt T SLEEPING); try done. intros [|[|j]] Hj; [done|done|]. apply (nth_zero j 62).
  - intros s. apply (wait_kst_ctx _ pm F pt T ZOMBIE); try done. intros [|[|j]] Hj; [done|done|]. apply (nth_zero j 62).
Qed.
Lemma wait_ex_first pm pt s : first_zombie 0 (k_ps (woken 0 (wait_exit pm pt) s)) = Some 1%nat.
Proof. reflexivity. Qed.
Lemma wait_ex_none pm pt : let ps := k_ps (w_k (World [wait_exit pm pt] (set_k_held [L_wait] (wait_kst pm pt SLEEPING)))) in
  first_zombie 0 ps = None /\ has_child 0 ps = true /\ p_killed (proc_at ps 0) = 0.
Proof. split_and!; reflexivity. Qed.
Lemma wait_ex_proc pm pt s : p_pid (proc_at (k_ps (woken 0 (wait_exit pm pt) s)) 1) = 7 /\ length (ps_proc (k_ps (woken 0 (wait_exit pm pt) s))) = 64%nat.
Proof. split; reflexivity. Qed.

(** The pass that ends the call is the one after the child's exit. *)
Lemma wait_ex_waits pm pt w1 : let w := World [wait_exit pm pt] (set_k_held [L_wait] (wait_kst pm pt SLEEPING)) in
  waits 0 w w1 -> w1 = w \/ w1 = World [] (woken 0 (wait_exit pm pt) (w_k w)).
Proof.
  intros w W. inversion W as [|w0 f0 env w2 Ee Hm W2]; subst; [by left|right]. injection Ee as <- <-.
  inversion W2 as [|w0 f0 env w2 Ee2 Hm2 W3]; subst; [done|discriminate].
Qed.
Lemma wait_end_blocked p addr w r : let ps := k_ps (w_k w) in
  first_zombie p ps = None /\ has_child p ps = true /\ p_killed (proc_at ps p) = 0 -> w_env w <> [] -> ~ wait_end p addr w r.
Proof. intros ps (E1 & E2 & E3) He E. unfold wait_end in E. fold ps in E. rewrite E1, E2, E3 in E. by destruct E. Qed.
Lemma wait_end_zombie p w z r : first_zombie p (k_ps (w_k w)) = Some z -> (z < length (ps_proc (k_ps (w_k w))))%nat -> wait_end p 0 w r ->
  exists w', r = Ret (p_pid (proc_at (k_ps (w_k w)) z)) w' /\ p_state (proc_at (k_ps (w_k w')) z) = UNUSED.
Proof.
  intros E1 Hz E. unfold wait_end in E. rewrite E1 in E. destruct E as (F' & T' & _ & [(Ha & _)|(_ & pm' & F2 & X & _ & ->)]); [done|].
  eexists. split; [done|]. unfold with_k. cbn [w_k k_ps set_k_held set_k_ps]. by rewrite proc_at_upd_eq.
Qed.
Lemma wait_ex_end pm pt w1 r : waits 0 (World [wait_exit pm pt] (set_k_held [L_wait] (wait_kst pm pt SLEEPING))) w1 ->
  wait_end 0 0 w1 r -> exists w', r = Ret 7 w' /\ p_state (proc_at (k_ps (w_k w')) 1) = UNUSED.
Proof.
  intros W E. destruct (wait_ex_waits pm pt w1 W) as [-> | ->].
  - exfalso. revert E. apply wait_end_blocked; [apply wait_ex_none|discriminate].
  - destruct (wait_ex_proc pm pt (set_k_held [L_wait] (wait_kst pm pt SLEEPING))) as [E7 El].
    apply (wait_end_zombie 0 _ 1) in E; [|apply wait_ex_first|cbn [w_k]; rewrite El; lia]. cbn [w_k] in E. by rewrite E7 in E.
Qed.

Lemma wait_correct_witness : exists w w', wait 0 w = Ret 7 w' /\ p_state (proc_at (k_ps (w_k w')) 1) = UNUSED.
Proof.
  destruct wait_ex as (pm & pt & H0 & Hw). exists (World [wait_exit pm pt] (wait_kst pm pt SLEEPING)).
  destruct (wait_correct 0 0 (World [wait_exit pm pt] (wait_kst pm pt SLEEPING)) H0 eq_refl) as (w1 & W & _ & E).
  - apply Forall_cons. split; [intros s _ _; apply Hw|by apply Forall_nil].
  - exact (wait_ex_end pm pt w1 _ W E).
Defined.
