(* ===== verification/Exec.v ===== *)
(** * Exec: loading programs

    Models kernel/exec.c and the string arguments of kernel/syscall.c.  The
    local structures [elf] and [ph] are in the kernel stack; [argv] is the
    list of the kernel addresses of the argument strings. *)

From S2P Require Import Prelude.
From S2P Require Import State.
From S2P Require Import Kernel.
From S2P Require Import Sched.
From S2P Require Import Mem.
From S2P Require Import Kalloc.
From S2P Require Import Vm.
From S2P Require Import Bio.
From S2P Require Import Log.
From S2P Require Import Fs.
From S2P Require Import File.
From S2P Require Import Proc.

(** ** syscall.c: strings and words from user memory *)

(** The status and the word. *)
Definition fetchaddr (addr : Z) : K (Z * Z) :=
  i ← curproc;
  p ← get_proc i;
  if (p_sz p <=? addr) || (p_sz p <? u64 (addr + 8)) then mret (-1, 0) else
  r ← copyin (p_pagetable p) addr 8;
  if negb (fst r =? 0) then mret (-1, 0) else
  mret (0, fold_right (fun b v => b + 256 * v) 0 (snd r)).

(** The length or -1, and the bytes stored in the buffer. *)
Definition fetchstr (addr max : Z) : K (Z * list Z) :=
  i ← curproc;
  p ← get_proc i;
  r ← copyinstr (p_pagetable p) addr max;
  if fst r <? 0 then mret (-1, snd r) else
  mret (Z.of_nat (length (snd r)) - 1, snd r).

Definition argstr (n max : Z) : K (Z * list Z) :=
  addr ← argaddr n;
  fetchstr addr max.

(** The string in a buffer: what precedes the NUL. *)
Definition str_of (buf : list Z) : list Z := take (length buf - 1) buf.

(** ** exec.c *)

Definition flags2perm (flags : Z) : Z :=
  let perm := if Z.land flags 1 =? 0 then 0 else PTE_X in
  if Z.land flags 2 =? 0 then perm else Z.lor perm PTE_W.

Definition ELF_MAGIC : Z := 0x464C457F.
Definition ELF_PROG_LOAD : Z := 1.
Definition ELFHDR_SIZE : Z := 64.
Definition PROGHDR_SIZE : Z := 56.

(** The fields of [struct elfhdr] and [struct proghdr] that exec reads. *)
Record elfhdr := Elfhdr { e_magic : Z; e_entry : Z; e_phoff : Z; e_phnum : Z }.
Record proghdr := Proghdr { ph_type : Z; ph_flags : Z; ph_off : Z; ph_vaddr : Z; ph_filesz : Z; ph_memsz : Z }.
Definition elfhdr_at (m : mem) (a : Z) : elfhdr :=
  Elfhdr (load32 m a) (load64 m (a + 24)) (load64 m (a + 32)) (load_le 2 m (a + 56)).
Definition proghdr_at (m : mem) (a : Z) : proghdr :=
  Proghdr (load32 m a) (load32 m (a + 4)) (load64 m (a + 8)) (load64 m (a + 16)) (load64 m (a + 32)) (load64 m (a + 40)).

Definition kmem : K mem := kget (fun s => pm_mem (k_pm s)).

Section exec.
Context `{D : Disk}.

Fixpoint loadseg_loop (fuel : nat) (pagetable va : Z) (ip : nat) (offset sz i : Z) : K Z :=
  if i <? sz then
    match fuel with
    | O => hang
    | S f =>
      pa ← walkaddr pagetable (u64 (va + i));
      if pa =? 0 then panic "loadseg: address should exist" else
      let n := if sz - i <? PGSIZE then sz - i else PGSIZE in
      r ← readi ip false pa (u32 (offset + i)) n;
      if negb (r =? n) then mret (-1) else
      loadseg_loop f pagetable va ip offset sz (i + PGSIZE)
    end
  else mret 0.
Definition loadseg (pagetable va : Z) (ip : nat) (offset sz : Z) : K Z :=
  loadseg_loop (Z.to_nat (sz / PGSIZE + 1)) pagetable va ip offset sz 0.

(** The loop over the program headers: the new size, or [None] for
    [goto bad], together with the size at that point. *)
Fixpoint exec_load (n : nat) (pagetable : Z) (ip : nat) (ph off sz : Z) : K (option Z * Z) :=
  match n with
  | O => mret (Some sz, sz)
  | S n' =>
    r ← readi ip false ph (u32 off) PROGHDR_SIZE;
    if negb (r =? PROGHDR_SIZE) then mret (None, sz) else
    m ← kmem;
    let h := proghdr_at m ph in
    if negb (ph_type h =? ELF_PROG_LOAD) then exec_load n' pagetable ip ph (i32 (off + PROGHDR_SIZE)) sz else
    if ph_memsz h <? ph_filesz h then mret (None, sz) else
    if u64 (ph_vaddr h + ph_memsz h) <? ph_vaddr h then mret (None, sz) else
    if negb (ph_vaddr h mod PGSIZE =? 0) then mret (None, sz) else
    sz1 ← uvmalloc pagetable sz (u64 (ph_vaddr h + ph_memsz h)) (flags2perm (ph_flags h));
    if sz1 =? 0 then mret (None, sz) else
    r ← loadseg pagetable (ph_vaddr h) ip (u32 (ph_off h)) (u32 (ph_filesz h));
    if r <? 0 then mret (None, sz1) else
    exec_load n' pagetable ip ph (i32 (off + PROGHDR_SIZE)) sz1
  end.

(** Pushing the argument strings: the stack pointer and [ustack], or
    [None] for [goto bad]. *)
Fixpoint exec_args (argv : list Z) (argc : nat) (pagetable sp stackbase : Z) (ustack : list Z) :
    K (option (Z * list Z)) :=
  match argv with
  | [] => mret (Some (sp, ustack))
  | a :: argv' =>
    if Nat.leb MAXARG argc then mret None else
    m ← kmem;
    match strlen (Z.to_nat PGSIZE) a m with
    | None => hang
    | Some len =>
      let sp := u64 (sp - (len + 1)) in
      let sp := sp - sp mod 16 in
      if sp <? stackbase then mret None else
      r ← copyout pagetable sp (bytes m a (Z.to_nat (len + 1)));
      if r <? 0 then mret None else
      exec_args argv' (S argc) pagetable sp stackbase (ustack ++ [sp])
    end
  end.

(** The part of the path after its last slash. *)
Fixpoint last_elem (s last : list Z) : list Z :=
  match s with
  | [] => last
  | c :: s' => last_elem s' (if c =? SLASH then s' else last)
  end.

(** [goto bad]. *)
Definition exec_bad (pagetable sz : Z) (ip : option nat) : K Z :=
  kwhen (negb (pagetable =? 0)) (proc_freepagetable pagetable sz);;
  match ip with
  | Some i => iunlockput i;; end_op
  | None => mret tt
  end;;
  mret (-1).

(** From the loaded program on: the stack, the arguments and the switch to
    the new image. *)
Definition exec_commit (i : nat) (path : list Z) (argv : list Z) (entry pagetable sz : Z) : K Z :=
  p ← get_proc i;
  let oldsz := p_sz p in
  let sz := PGROUNDUP sz in
  sz1 ← uvmalloc pagetable sz (u64 (sz + 2 * PGSIZE)) PTE_W;
  if sz1 =? 0 then exec_bad pagetable sz None else
  uvmclear pagetable (u64 (sz1 - 2 * PGSIZE));;
  let stackbase := sz1 - PGSIZE in
  r ← exec_args argv 0 pagetable sz1 stackbase [];
  match r with
  | None => exec_bad pagetable sz1 None
  | Some (sp, ustack) =>
    let argc := Z.of_nat (length ustack) in
    let ustack := ustack ++ [0] in
    let sp := u64 (sp - (argc + 1) * 8) in
    let sp := sp - sp mod 16 in
    if sp <? stackbase then exec_bad pagetable sz1 None else
    r ← copyout pagetable sp (concat (le_bytes 8 <$> ustack));
    if r <? 0 then exec_bad pagetable sz1 None else
    mod_tf i (set_tf_a1 sp);;
    mod_proc i (set_name (last_elem path path));;
    p ← get_proc i;
    let oldpagetable := p_pagetable p in
    mod_proc i (set_p_pagetable pagetable);;
    mod_proc i (set_p_sz sz1);;
    mod_tf i (set_tf_epc entry);;
    mod_tf i (set_tf_sp sp);;
    proc_freepagetable oldpagetable oldsz;;
    mret argc
  end.

Definition exec (path : list Z) (argv : list Z) : K Z :=
  i ← curproc;
  begin_op;;
  oip ← namei path;
  match oip with
  | None => end_op;; mret (-1)
  | Some ip =>
    ilock (Some ip);;
    p ← get_proc i;
    let elf := p_kstack p + PGSIZE - 512 in
    let ph := p_kstack p + PGSIZE - 576 in
    r ← readi ip false elf 0 ELFHDR_SIZE;
    if negb (r =? ELFHDR_SIZE) then exec_bad 0 0 (Some ip) else
    m ← kmem;
    let e := elfhdr_at m elf in
    if negb (e_magic e =? ELF_MAGIC) then exec_bad 0 0 (Some ip) else
    pagetable ← proc_pagetable i;
    if pagetable =? 0 then exec_bad 0 0 (Some ip) else
    r ← exec_load (Z.to_nat (e_phnum e)) pagetable ip ph (i32 (e_phoff e)) 0;
    match r with
    | (None, sz) => exec_bad pagetable sz (Some ip)
    | (Some sz, _) =>
      iunlockput ip;;
      end_op;;
      exec_commit i path argv (e_entry e) pagetable sz
    end
  end.
End exec.
