(* ===== verification/ExecProps.v ===== *)
(** * ExecProps: the new image of exec

    [exec_commit], the part of exec after the program is loaded: the guard
    page and the stack, the argument strings and the array of pointers to
    them, and the switch to the new address space, or the way back when a
    step fails. *)

From S2P Require Import Prelude.
From S2P Require Import State.
From S2P Require Import Kernel.
From S2P Require Import Mlfq.
From S2P Require Import Sched.
From S2P Require Import SchedInv.
From S2P Require Import SchedProps.
From S2P Require Import Mem.
From S2P Require Import Kalloc.
From S2P Require Import Vm.
From S2P Require Import VmProps.
From S2P Require Import UvmProps.
From S2P Require Import Bio.
From S2P Require Import Log.
From S2P Require Import Fs.
From S2P Require Import File.
From S2P Require Import Proc.
From S2P Require Import ProcVm.
From S2P Require Import ProcProps.
From S2P Require Import ForkProps.
From S2P Require Import WaitProps.
From S2P Require Import Exec.

#[local] Opaque memset store64 load64 pte_of uvmalloc proc_freepagetable.

(** ** An address space that changes in place *)

(** [T1] with [m] pages is [T] with [n] pages later: together with the free
    pages it has the same pages, nothing else has changed, and its first
    [n] pages are as they were. *)
Record image_step (pt tf n : Z) (pm : physmem) (F : list Z) (T : tree) (m : Z) (pm1 : physmem) (F1 : list Z) (T1 : tree) : Prop := {
  is_space : uspace pm1 F1 pt T1 tf m;
  is_pages : forall a, a ∈ F1 \/ own pm1 T1 m a <-> a ∈ F \/ own pm T n a;
  is_fields : same_fields pm pm1;
  is_mem : forall b, (forall a, a ∈ F \/ own pm T n a -> ~ in_page a b) -> pm_mem pm1 b = pm_mem pm b;
  is_low : forall va, 0 <= va < PGSIZE * n -> leaf pm1 T1 va = leaf pm T va /\ pm_mem pm1 (phys pm1 T1 va) = pm_mem pm (phys pm T va)
}.

Lemma image_refl pt tf n pm F T : uspace pm F pt T tf n -> image_step pt tf n pm F T n pm F T.
Proof. by split. Qed.
Lemma image_trans pt tf n pm F T m pm1 F1 T1 k pm2 F2 T2 : n <= m -> image_step pt tf n pm F T m pm1 F1 T1 -> image_step pt tf m pm1 F1 T1 k pm2 F2 T2 ->
  image_step pt tf n pm F T k pm2 F2 T2.
Proof.
  intros Hnm [A1 A2 A3 A4 A5] [B1 B2 B3 B4 B5]. split; [done| |by etransitivity| |].
  - intros a. by rewrite B2, A2.
  - intros b Hb. rewrite B4; [by apply A4|]. intros a Ha. by apply Hb, A2.
  - intros va Hva. destruct (A5 va Hva) as [L1 M1], (B5 va) as [L2 M2]; [unfold PGSIZE in *; lia|]. by rewrite L2, M2.
Qed.

Lemma npages_mul n : 0 <= n -> npages (PGSIZE * n) = n.
Proof. intros Hn. unfold npages, PGSIZE. zlia. Qed.

(** Different addresses below the limit are at different places. *)
Lemma phys_ne pm F T m v v' : umapped pm F T 0 m -> 0 <= v < PGSIZE * m -> 0 <= v' < PGSIZE * m -> v <> v' -> phys pm T v <> phys pm T v'.
Proof.
  intros H Hv Hv' Hne E. unfold phys in E. assert (0 <= v / PGSIZE < m /\ 0 <= v' / PGSIZE < m) as [H1 H2] by (unfold PGSIZE in *; zlia).
  rewrite (leaf_page pm T v (PGSIZE * (v / PGSIZE))), (leaf_page pm T v' (PGSIZE * (v' / PGSIZE))) in E by (rewrite page_index by lia; done).
  fold (upage pm T (v / PGSIZE)) (upage pm T (v' / PGSIZE)) in E. destruct (um_page _ _ _ _ _ H _ H1) as ([M1 _] & _), (um_page _ _ _ _ _ H _ H2) as ([M2 _] & _).
  assert (upage pm T (v / PGSIZE) = upage pm T (v' / PGSIZE)) as Ep by (unfold PGSIZE in *; zlia).
  apply (um_inj _ _ _ _ _ H) in Ep; [|done|done]. unfold PGSIZE in *. zlia.
Qed.

(** ** Two more pages *)

Lemma user_perm_W : 0 <= PTE_W < 1024 /\ Z.lor (Z.lor (Z.lor PTE_R PTE_U) PTE_W) PTE_V <> PTE_V.
Proof. by vm_compute. Qed.

(** The pages of the new range, with their entries. *)
Definition fresh_pages (F : list Z) (pm1 : physmem) (T1 : tree) (n m : Z) : Prop :=
  forall va, PGSIZE * n <= va < PGSIZE * m -> exists q, q ∈ F /\ leaf pm1 T1 va = pte_of q (Z.lor (Z.lor PTE_R PTE_U) PTE_W).

Lemma upages_same pm T pm1 T1 n : (forall va, 0 <= va < PGSIZE * n -> leaf pm1 T1 va = leaf pm T va) ->
  (forall i, 0 <= i < n -> upage pm1 T1 i = upage pm T i) /\ forall a, in_upages pm1 T1 0 n a <-> in_upages pm T 0 n a.
Proof.
  intros L. assert (forall i, 0 <= i < n -> upage pm1 T1 i = upage pm T i) as Hu by (intros i Hi; unfold upage; rewrite L by (unfold PGSIZE; lia); done).
  split; [done|]. intros a. split; intros (i & Hi & ->); exists i; (split; [done|]); [by apply Hu|by rewrite Hu].
Qed.

Section grow.
Context (pt tf n k : Z) (w : world) (F : list Z) (T : tree).
Let pm := k_pm (w_k w).
Hypothesis (H : uspace pm F pt T tf n) (Hl : L_kmem ∉ k_held (w_k w)) (Hn : 0 <= n) (Hk : 0 < k) (Hm : PGSIZE * (n + k) <= TRAPFRAME).

Lemma low_place va : 0 <= va < PGSIZE * n -> ~ in_tree T (phys pm T va) /\ forall a, a ∈ F -> ~ in_page a (phys pm T va).
Proof.
  intros Hva. assert (0 <= va / PGSIZE < n) as Hi by (unfold PGSIZE in *; zlia). destruct (um_page _ _ _ _ _ (us_user _ _ _ _ _ _ H) _ Hi) as (Hv & HF & HT).
  assert (in_page (upage pm T (va / PGSIZE)) (phys pm T va)) as Hp.
  { unfold phys, upage. rewrite (leaf_page pm T va (PGSIZE * (va / PGSIZE))) by (rewrite page_index by lia; done). unfold in_page. pose proof (Z.mod_pos_bound va PGSIZE eq_refl). lia. }
  split.
  - intros (m & p & Hn' & Hp'). apply (page_disjoint (pm_end pm) p (upage pm T (va / PGSIZE)) (phys pm T va)); [by apply (vi_page _ _ _ _ (us_vm _ _ _ _ _ _ H) m)|done|by apply (HT m)|done|done].
  - intros a Ha Hpa. apply (own_free pm F pt T tf n (upage pm T (va / PGSIZE)) (phys pm T va) H) with a; try done. right. by exists (va / PGSIZE).
Qed.

(** The first [n] pages are not touched by an allocation. *)
Lemma low_kept pm1 T1 : (forall va, 0 <= va < PGSIZE * n -> leaf pm1 T1 va = leaf pm T va) -> mem_kept F T pm pm1 ->
  forall va, 0 <= va < PGSIZE * n -> leaf pm1 T1 va = leaf pm T va /\ pm_mem pm1 (phys pm1 T1 va) = pm_mem pm (phys pm T va).
Proof.
  intros L M va Hva. split; [by apply L|]. unfold phys at 1. rewrite L by done. fold (phys pm T va). destruct (low_place va Hva). by apply M.
Qed.

Lemma kept_mem pm1 : mem_kept F T pm pm1 -> forall b, (forall a, a ∈ F \/ own pm T n a -> ~ in_page a b) -> pm_mem pm1 b = pm_mem pm b.
Proof.
  intros M b Hb. apply M; [|intros a Ha; apply Hb; by left]. intros (m & p & Hp & Hpb). apply (Hb p); [right; left; by exists m|exact Hpb].
Qed.

Lemma top_leaves pm1 T1 : same_fields pm pm1 -> (forall va, 0 <= va < MAXVA -> ~ PGSIZE * n <= va < PGSIZE * (n + k) -> leaf pm1 T1 va = leaf pm T va) ->
  leaf pm1 T1 TRAMPOLINE = pte_of (pm_trampoline pm1) (Z.lor PTE_R PTE_X) /\ leaf pm1 T1 TRAPFRAME = pte_of tf (Z.lor PTE_R PTE_W).
Proof.
  intros S L. rewrite !L; [|by vm_compute|change TRAPFRAME with 274877898752 in *; lia|by vm_compute|change TRAMPOLINE with 274877902848; change TRAPFRAME with 274877898752 in *; lia].
  rewrite (sf_trampoline _ _ S). split; [exact (us_tramp _ _ _ _ _ _ H)|exact (us_tf _ _ _ _ _ _ H)].
Qed.

Lemma grow_failed pm1 F1 T1 : vm_inv pm1 F1 pt T1 -> same_fields pm pm1 -> mem_kept F T pm pm1 ->
  (forall va, 0 <= va < MAXVA -> ~ PGSIZE * n <= va < PGSIZE * (n + k) -> leaf pm1 T1 va = leaf pm T va) ->
  (forall va, PGSIZE * n <= va < PGSIZE * (n + k) -> has (leaf pm1 T1 va) PTE_V = false) ->
  (forall m p, T1 m = Some p -> T m = Some p \/ p ∈ F) ->
  (forall x, uses F T (fun _ => False) x <-> uses F1 T1 (fun _ => False) x) -> image_step pt tf n pm F T n pm1 F1 T1.
Proof.
  intros H1 S M L N TN U. assert (forall va, 0 <= va < PGSIZE * n -> leaf pm1 T1 va = leaf pm T va) as L0.
  { intros va Hva. apply L; [change TRAPFRAME with 274877898752 in Hm; change MAXVA with 274877906944; unfold PGSIZE in *; lia|lia]. }
  destruct (upages_same _ _ _ _ _ L0) as [Hu Hin]. destruct (top_leaves pm1 T1 S L) as [Lt Lf].
  split; [|intros a; specialize (U a); unfold uses, own in *; rewrite Hin; tauto|done|by apply kept_mem|by apply low_kept].
  split; [done| |apply H| |done|done].
  - apply (umapped_ext pm _ F _ T); [apply H|apply S|intros i Hi; apply L0; unfold PGSIZE; lia| |].
    + intros i Hi HF. destruct (um_page _ _ _ _ _ (us_user _ _ _ _ _ _ H) i Hi) as (_ & HnF & HT). assert (uses F T (fun _ => False) (upage pm T i)) as [?|[[m Hm']|[]]] by (apply U; by left); [done|exact (HT m _ Hm' eq_refl)].
    + intros i m p Hi Hp ->. destruct (um_page _ _ _ _ _ (us_user _ _ _ _ _ _ H) i Hi) as (_ & HnF & HT). destruct (TN _ _ Hp) as [Hp'|Hp']; [by apply (HT _ _ Hp')|done].
  - intros va Hva Hge. destruct (decide (va < PGSIZE * (n + k))) as [Hlt|Hnlt].
    + apply N. unfold PGSIZE in *. zlia.
    + rewrite L; [by apply (us_none _ _ _ _ _ _ H)|change TRAPFRAME with 274877898752 in *; change MAXVA with 274877906944; lia|lia].
Qed.

Lemma grow_done pm1 F1 T1 : vm_inv pm1 F1 pt T1 -> same_fields pm pm1 -> mem_kept F T pm pm1 ->
  (forall va, 0 <= va < MAXVA -> ~ PGSIZE * n <= va < PGSIZE * (n + k) -> leaf pm1 T1 va = leaf pm T va) ->
  umapped pm1 F1 T1 n (n + k) -> fresh_pages F pm1 T1 n (n + k) ->
  (forall m p, T1 m = Some p -> T m = Some p \/ p ∈ F) ->
  (forall x, uses F T (fun _ => False) x <-> uses F1 T1 (in_upages pm1 T1 n (n + k)) x) -> image_step pt tf n pm F T (n + k) pm1 F1 T1.
Proof.
  intros H1 S M L N Fr TN U. assert (forall va, 0 <= va < PGSIZE * n -> leaf pm1 T1 va = leaf pm T va) as L0.
  { intros va Hva. apply L; [change TRAPFRAME with 274877898752 in Hm; change MAXVA with 274877906944; unfold PGSIZE in *; lia|lia]. }
  destruct (upages_same _ _ _ _ _ L0) as [Hu Hin]. destruct (top_leaves pm1 T1 S L) as [Lt Lf].
  assert (forall a, in_upages pm1 T1 0 (n + k) a <-> in_upages pm T 0 n a \/ in_upages pm1 T1 n (n + k) a) as Hsplit.
  { intros a. rewrite <- Hin. split.
    - intros (i & Hi & ->). destruct (decide (i < n)); [left|right]; exists i; (split; [lia|done]).
    - intros [(i & Hi & ->)|(i & Hi & ->)]; exists i; (split; [lia|done]). }
  assert (forall i, n <= i < n + k -> upage pm1 T1 i ∈ F) as HnewF.
  { intros i Hi. destruct (Fr (PGSIZE * i)) as (q & Hq & Eq); [unfold PGSIZE; lia|]. unfold upage. rewrite Eq.
    destruct (pte_leaf q (Z.lor (Z.lor PTE_R PTE_U) PTE_W)) as (_ & _ & ->); [|by vm_compute|done|done].
    apply (valid_can_map pm F); [apply (vi_alloc _ _ _ _ (us_vm _ _ _ _ _ _ H))|]. by apply (ai_valid _ _ (vi_alloc _ _ _ _ (us_vm _ _ _ _ _ _ H))). }
  split; [|intros a; specialize (U a); unfold uses, own in *; rewrite Hsplit; tauto|done|by apply kept_mem|by apply low_kept].
  split; [done| |done| |done|done].
  - split; [lia|change TRAPFRAME with 274877898752 in *; change MAXVA with 274877906944; lia|..].
    + intros i Hi. destruct (decide (i < n)) as [Hlt|Hge]; [|apply (um_leaf _ _ _ _ _ N); lia]. rewrite L0 by (unfold PGSIZE; lia). apply (um_leaf _ _ _ _ _ (us_user _ _ _ _ _ _ H)); lia.
    + intros i Hi. destruct (decide (i < n)) as [Hlt|Hge]; [|apply (um_page _ _ _ _ _ N); lia]. rewrite Hu by lia.
      destruct (um_page _ _ _ _ _ (us_user _ _ _ _ _ _ H) i ltac:(lia)) as (Hv & HnF & HT). rewrite (sf_end _ _ S). split; [done|]. split.
      * intros HF. assert (uses F T (fun _ => False) (upage pm T i)) as [?|[[m Hm']|[]]] by (apply U; by left); [done|exact (HT m _ Hm' eq_refl)].
      * intros m p Hp ->. destruct (TN _ _ Hp) as [Hp'|Hp']; [by apply (HT _ _ Hp')|done].
    + assert (forall i j, 0 <= i < n -> n <= j < n + k -> upage pm1 T1 i <> upage pm1 T1 j) as Hne.
      { intros i j Hi Hj E. pose proof (HnewF j Hj) as HF. rewrite <- E, Hu in HF by lia. by destruct (um_page _ _ _ _ _ (us_user _ _ _ _ _ _ H) i Hi) as (_ & HnF & _). }
      intros i j Hi Hj E. destruct (decide (i < n)) as [Hi'|Hi'], (decide (j < n)) as [Hj'|Hj'].
      * rewrite !Hu in E by lia. by apply (um_inj _ _ _ _ _ (us_user _ _ _ _ _ _ H)); [lia|lia|].
      * exfalso. apply (Hne i j); [lia|lia|done].
      * exfalso. apply (Hne j i); [lia|lia|done].
      * apply (um_inj _ _ _ _ _ N); [lia|lia|done].
  - intros va Hva Hge. rewrite L; [apply (us_none _ _ _ _ _ _ H); [done|lia]|change TRAPFRAME with 274877898752 in *; change MAXVA with 274877906944; lia|unfold PGSIZE in *; zlia].
Qed.

Lemma uvmalloc_step : exists r pm1 F1 T1, uvmalloc pt (PGSIZE * n) (PGSIZE * (n + k)) PTE_W w = Ret r (with_k w (set_k_pm pm1 (w_k w))) /\
  (r = PGSIZE * (n + k) /\ image_step pt tf n pm F T (n + k) pm1 F1 T1 /\ fresh_pages F pm1 T1 n (n + k) \/
   r = 0 /\ Z.of_nat (length F) < 3 * k /\ image_step pt tf n pm F T n pm1 F1 T1).
Proof.
  assert (PGSIZE * (n + k) <= MAXVA) as Hmax by (change TRAPFRAME with 274877898752 in *; change MAXVA with 274877906944; lia).
  destruct (uvmalloc_correct pt (PGSIZE * n) (PGSIZE * (n + k)) PTE_W w F T) as (r & pm1 & F1 & T1 & E & H1 & L & M & S & TN & R); [apply H|done|unfold PGSIZE; lia|done|by vm_compute| |].
  { rewrite !npages_mul by lia. intros va Hva. apply (us_none _ _ _ _ _ _ H); [unfold PGSIZE in *; lia|unfold PGSIZE in *; zlia]. }
  rewrite !npages_mul in * by lia. exists r, pm1, F1, T1. split; [exact E|]. destruct R as [(-> & N & U & Z0)|(-> & Hlen & U & N)].
  - left. split; [done|]. assert (fresh_pages F pm1 T1 n (n + k)) as Fr by (intros va Hva; by apply Z0). split; [|done]. by apply grow_done.
  - right. split; [done|]. split; [lia|]. by apply grow_failed.
Qed.
End grow.

(** ** Changing entries and contents of pages above [n] *)

Section change.
Context (pt tf n m : Z) (pm0 : physmem) (F0 : list Z) (T0 : tree) (pm1 : physmem) (F1 : list Z) (T1 : tree).
Hypothesis (H : image_step pt tf n pm0 F0 T0 m pm1 F1 T1) (Hn : 0 <= n <= m).

Lemma image_change m' (pm2 := set_pm_mem m' pm1) : vm_inv pm2 F1 pt T1 -> (forall i, 0 <= i < m -> upage pm2 T1 i = upage pm1 T1 i) ->
  (forall i, 0 <= i < m -> has (leaf pm2 T1 (PGSIZE * i)) PTE_V = true /\ PTE_FLAGS (leaf pm2 T1 (PGSIZE * i)) <> PTE_V) ->
  (forall va, 0 <= va < MAXVA -> ~ PGSIZE * n <= va < PGSIZE * m -> leaf pm2 T1 va = leaf pm1 T1 va) ->
  (forall b, (forall a, own pm1 T1 m a -> ~ in_page a b) -> m' b = pm_mem pm1 b) ->
  (forall va, 0 <= va < PGSIZE * n -> m' (phys pm1 T1 va) = pm_mem pm1 (phys pm1 T1 va)) ->
  image_step pt tf n pm0 F0 T0 m pm2 F1 T1.
Proof.
  intros H2 Hu Hf L M Lo. destruct H as [HS HP HF HM HL]. pose proof (us_low _ _ _ _ _ _ HS) as Hlow.
  assert (forall a, own pm2 T1 m a <-> own pm1 T1 m a) as Hown.
  { intros a. unfold own. assert (in_upages pm2 T1 0 m a <-> in_upages pm1 T1 0 m a) as ->; [|done]. split; intros (i & Hi & ->); exists i; (split; [done|]); [by apply Hu|by rewrite Hu]. }
  split.
  - split; [exact H2| |exact Hlow|..].
    + split; [done|apply (us_user _ _ _ _ _ _ HS)|exact Hf|..].
      * intros i Hi. rewrite Hu by done. by apply (um_page _ _ _ _ _ (us_user _ _ _ _ _ _ HS)).
      * intros i j Hi Hj. rewrite !Hu by done. by apply (um_inj _ _ _ _ _ (us_user _ _ _ _ _ _ HS)).
    + intros va Hva Hge. rewrite L; [by apply (us_none _ _ _ _ _ _ HS)|change TRAPFRAME with 274877898752 in *; change MAXVA with 274877906944; lia|unfold PGSIZE in *; zlia].
    + rewrite L; [apply (us_tramp _ _ _ _ _ _ HS)|by vm_compute|change TRAMPOLINE with 274877902848; change TRAPFRAME with 274877898752 in *; lia].
    + rewrite L; [apply (us_tf _ _ _ _ _ _ HS)|by vm_compute|change TRAPFRAME with 274877898752 in *; lia].
  - intros a. by rewrite Hown.
  - destruct HF. by split.
  - intros b Hb. cbn [pm_mem set_pm_mem pm2]. rewrite M; [by apply HM|]. intros a Ha. apply Hb, HP. by right.
  - intros va Hva. assert (leaf pm2 T1 va = leaf pm1 T1 va) as E by (apply L; [change TRAPFRAME with 274877898752 in *; change MAXVA with 274877906944; unfold PGSIZE in *; lia|lia]).
    destruct (HL va Hva) as [L1 M1]. split; [by rewrite E|]. rewrite <- M1, <- Lo by done. unfold phys. by rewrite E.
Qed.

(** Writing bytes at mapped addresses. *)
Lemma image_write va src w : k_pm (w_k w) = pm1 -> PGSIZE * n <= va -> va + Z.of_nat (length src) <= PGSIZE * m -> user_range pm1 F1 T1 va (Z.of_nat (length src)) ->
  Forall (fun x => 0 <= x < 256) src ->
  exists m', copyout pt va src w = Ret 0 (with_k w (set_k_pm (set_pm_mem m' pm1) (w_k w))) /\ image_step pt tf n pm0 F0 T0 m (set_pm_mem m' pm1) F1 T1 /\
    (forall v, 0 <= v -> leaf (set_pm_mem m' pm1) T1 v = leaf pm1 T1 v) /\ wrote pm1 T1 va src m'.
Proof.
  intros Epm Hva Hend HU HB. pose proof (us_vm _ _ _ _ _ _ (is_space _ _ _ _ _ _ _ _ _ _ H)) as HV. pose proof (us_user _ _ _ _ _ _ (is_space _ _ _ _ _ _ _ _ _ _ H)) as HM. rewrite <- Epm in HV, HU.
  destruct (copyout_loop_ok pt F1 T1 (length src) src va w HV HU HB (le_n _)) as (m' & E & H2 & L & In & Out). rewrite Epm in *.
  assert (forall k, 0 <= k < Z.of_nat (length src) -> exists a, own pm1 T1 m a /\ in_page a (phys pm1 T1 (va + k))) as Hown.
  { intros k Hk. apply (phys_own pm1 F1 pt T1 tf m); [apply H|unfold PGSIZE in *; lia]. }
  exists m'. split; [exact E|]. split; [|by split]. apply image_change; [exact H2|..].
  - intros i Hi. unfold upage. by rewrite L by (unfold PGSIZE; lia).
  - intros i Hi. rewrite L by (unfold PGSIZE; lia). by apply (um_leaf _ _ _ _ _ HM).
  - intros v Hv _. apply L. lia.
  - intros b Hb. apply Out. intros k Hk ->. destruct (Hown k Hk) as (a & Ha & Hp). by apply (Hb a).
  - intros v Hv. apply Out. intros k Hk E'. revert E'. apply (phys_ne _ _ _ _ _ _ HM); unfold PGSIZE in *; lia.
Qed.
End change.

(** ** The guard page *)

Lemma land_not x c : 0 <= x < 2 ^ 64 -> 0 <= c < 2 ^ 64 -> Z.land x (u64 (Z.lnot c)) = Z.ldiff x c.
Proof.
  intros Hx Hc. apply Z.bits_inj'. intros k Hk. rewrite Z.land_spec, Z.ldiff_spec. destruct (decide (k < 64)) as [Hlt|Hge].
  - unfold u64. by rewrite Z.mod_pow2_bits_low, Z.lnot_spec by lia.
  - assert (Z.testbit x k = false) as ->; [|done]. destruct (decide (x = 0)) as [->|Hx0]; [apply Z.bits_0|]. apply Z.bits_above_log2; [lia|].
    assert (Z.log2 x < 64) by (apply Z.log2_lt_pow2; lia). lia.
Qed.

Definition RW : Z := Z.lor PTE_R PTE_W.
Definition RUW : Z := Z.lor (Z.lor PTE_R PTE_U) PTE_W.
Lemma pte_of_range q perm : can_map q -> 0 <= perm < 1024 -> 0 <= pte_of q perm < 2 ^ 64.
Proof.
  intros (H1 & H2 & H3) Hp. rewrite pte_of_lor. apply pte_range; [unfold PGSIZE in *; lia|]. apply lor_1024; [done|by vm_compute].
Qed.
Lemma pte_clear q : can_map q -> Z.land (pte_of q RUW) (u64 (Z.lnot PTE_U)) = pte_of q RW.
Proof.
  intros Hq.
  rewrite land_not; [|by apply pte_of_range; [|vm_compute]|by vm_compute]. rewrite !pte_of_lor.
  assert (forall a b c, Z.ldiff (Z.lor a b) c = Z.lor (Z.ldiff a c) (Z.ldiff b c)) as Hd.
  { intros a b c. apply Z.bits_inj'. intros k Hk. rewrite Z.ldiff_spec, !Z.lor_spec, !Z.ldiff_spec. by destruct (Z.testbit a k), (Z.testbit b k), (Z.testbit c k). }
  rewrite Hd. f_equal. apply Z.bits_inj'. intros k Hk. rewrite Z.ldiff_spec. change PTE_U with (2 ^ 4). destruct (decide (k = 4)) as [->|Hne].
  - rewrite Z.pow2_bits_true by lia. rewrite andb_false_r. symmetry. unfold PA2PTE, u64. rewrite Z.mod_pow2_bits_low, Z.shiftl_spec by lia. by apply Z.testbit_neg_r.
  - rewrite Z.pow2_bits_false by lia. by rewrite andb_true_r.
Qed.

Lemma pte_user q perm : can_map q -> 0 <= perm < 1024 -> has (pte_of q perm) PTE_U = has (Z.lor perm PTE_V) PTE_U.
Proof.
  intros (H1 & H2 & H3) Hp. destruct (pte_of_flags q perm) as (E & _); [unfold PGSIZE in *; lia|exact H2|done|]. rewrite <- E. unfold has, PTE_FLAGS. by rewrite <- Z.land_assoc.
Qed.

Section guard.
Context (pt tf n : Z) (pm0 : physmem) (F0 : list Z) (T0 : tree) (w : world) (F1 : list Z) (T1 : tree).
Let pm1 := k_pm (w_k w).
Let m := n + 2.
Hypothesis (H : image_step pt tf n pm0 F0 T0 m pm1 F1 T1) (Hn : 0 <= n) (Hfr : fresh_pages F0 pm1 T1 n m) (HA : alloc_inv pm0 F0).

Lemma fresh_can q : q ∈ F0 -> can_map q.
Proof. intros Hq. apply (valid_can_map pm0 F0); [done|by apply (ai_valid _ _ HA)]. Qed.

(** The page below the stack page is not accessible to the user. *)
Lemma uvmclear_ok : exists m', uvmclear pt (PGSIZE * n) w = Ret tt (with_k w (set_k_pm (set_pm_mem m' pm1) (w_k w))) /\
  let pm2 := set_pm_mem m' pm1 in image_step pt tf n pm0 F0 T0 m pm2 F1 T1 /\ has (leaf pm2 T1 (PGSIZE * n)) PTE_U = false /\
  user_range pm2 F1 T1 (PGSIZE * (n + 1)) PGSIZE.
Proof.
  pose proof (is_space _ _ _ _ _ _ _ _ _ _ H) as HS. pose proof (us_vm _ _ _ _ _ _ HS) as HV. pose proof (us_user _ _ _ _ _ _ HS) as HM. pose proof (us_low _ _ _ _ _ _ HS) as Hlow.
  assert (0 <= PGSIZE * n < MAXVA) as Hva by (change TRAPFRAME with 274877898752 in Hlow; change MAXVA with 274877906944; unfold PGSIZE, m in *; lia).
  destruct (Hfr (PGSIZE * n)) as (q & Hq & El); [unfold PGSIZE, m; lia|]. fold RUW in El. pose proof (fresh_can q Hq) as Cq.
  destruct (pte_leaf q RW Cq) as (G1 & G2 & G3); [by vm_compute|done|]. destruct (pte_leaf q RUW Cq) as (B1 & B2 & B3); [by vm_compute|done|].
  unfold uvmclear. rewrite (bind_ret _ _ _ _ _ (walk_lookup pt _ Hva w F1 T1 HV)). destruct (leaf_addr T1 (PGSIZE * n)) as [a|] eqn:Ea.
  2: { exfalso. unfold leaf in El. rewrite Ea in El. rewrite <- El in B1. done. }
  unfold ld64. rewrite bind_kget. fold pm1. assert (load64 (pm_mem pm1) a = pte_of q RUW) as -> by (unfold leaf in El; by rewrite Ea in El). rewrite pte_clear by done.
  assert (0 <= pte_of q RW < 2 ^ 64) as Hb by (by apply pte_of_range; [|vm_compute]).
  destruct (vm_set_leaf pm1 F1 pt T1 (PGSIZE * n) a (pte_of q RW) HV Hva Ea Hb) as (H2 & L2 & Lo & Fr). set (m' := store64 (pm_mem pm1) a (pte_of q RW)).
  change (set_mem (fun m => store64 m a (pte_of q RW)) pm1) with (set_pm_mem m' pm1) in *.
  assert (forall i, 0 <= i < m -> i <> n -> leaf (set_pm_mem m' pm1) T1 (PGSIZE * i) = leaf pm1 T1 (PGSIZE * i)) as Li.
  { intros i Hi Hne. apply Lo; [change TRAPFRAME with 274877898752 in Hlow; change MAXVA with 274877906944; unfold PGSIZE, m in *; lia|rewrite !page_index by lia; done]. }
  exists m'. split; [unfold pm1, m'; by destruct w as [? []]|]. split; [|split].
  - apply (image_change pt tf n m pm0 F0 T0 pm1 F1 T1 H); [unfold m; lia|exact H2|..].
    + intros i Hi. unfold upage. destruct (decide (i = n)) as [->|Hne]; [|by rewrite Li]. rewrite L2, El. by rewrite G3, B3.
    + intros i Hi. destruct (decide (i = n)) as [->|Hne]; [by rewrite L2|]. rewrite Li by done. by apply (um_leaf _ _ _ _ _ HM).
    + intros va Hv Hout. apply Lo; [done|]. rewrite page_index by lia. unfold PGSIZE, m in *. zlia.
    + intros b Hb'. apply (vf_mem _ _ _ Fr). intros (k & p & Hk & Hp). apply (Hb' p); [left; by exists k|exact Hp].
    + intros va Hv. apply (vf_mem _ _ _ Fr). apply (low_place pt tf m w F1 T1); [exact HS|unfold PGSIZE, m in *; lia].
  - rewrite L2. by rewrite pte_user.
  - assert (PGSIZE * (n + 1) + PGSIZE = PGSIZE * m) as Em by (unfold PGSIZE, m; lia).
    assert (forall v, PGSIZE * (n + 1) <= v < PGSIZE * (n + 1) + PGSIZE -> 0 <= v < MAXVA /\ v / PGSIZE = n + 1) as Hv.
    { intros v Hv. change TRAPFRAME with 274877898752 in Hlow. change MAXVA with 274877906944. unfold PGSIZE, m in *. zlia. }
    assert (forall v, PGSIZE * (n + 1) <= v < PGSIZE * (n + 1) + PGSIZE -> exists p, p ∈ F0 /\ leaf (set_pm_mem m' pm1) T1 v = pte_of p RUW) as Hl.
    { intros v Hv'. destruct (Hv v Hv') as [Hmax Hd]. destruct (Hfr v) as (p & Hp & E); [unfold PGSIZE, m in *; lia|]. fold RUW in E. exists p. split; [done|]. rewrite <- E. apply Lo; [done|]. rewrite page_index by lia. lia. }
    split.
    + change TRAPFRAME with 274877898752 in Hlow. change MAXVA with 274877906944. unfold PGSIZE, m in *. lia.
    + intros v Hv'. destruct (Hl v Hv') as (p & Hp & ->). destruct (pte_leaf p RUW (fresh_can p Hp)) as (P1 & _ & _); [by vm_compute|done|]. split; [done|]. by rewrite pte_user by (by apply fresh_can || by vm_compute).
    + intros v Hv'. destruct (Hv v Hv') as [Hmax Hd]. rewrite (leaf_page _ T1 v (PGSIZE * (n + 1))) by (rewrite page_index by lia; done). rewrite Li by (unfold m; lia).
      apply (um_page _ _ _ _ _ HM (n + 1)). unfold m. lia.
    + intros v v' Hv1 Hv2 _. destruct (Hv v Hv1) as [_ ->], (Hv v' Hv2) as [_ ->]. done.
Qed.
End guard.

(** ** The arguments on the stack *)

(** The addresses of strings pushed one below the other, each aligned; they
    fit above [stackbase], and there are at most [MAXARG]. *)
Definition align16 (a : Z) : Z := a - a mod 16.
Fixpoint stack_args (strs : list (list Z)) (argc : nat) (sp stackbase : Z) (ustack : list Z) : option (Z * list Z) :=
  match strs with
  | [] => Some (sp, ustack)
  | str :: strs' =>
    if Nat.leb MAXARG argc then None else
    let sp := align16 (sp - (Z.of_nat (length str) + 1)) in
    if sp <? stackbase then None else stack_args strs' (S argc) sp stackbase (ustack ++ [sp])
  end.

(** [str] is at [a], with its final NUL. *)
Record cstr_at (m : mem) (a : Z) (str : list Z) : Prop := {
  ca_bytes : bytes m a (length str + 1) = str ++ [0];
  ca_chars : Forall (fun c => 0 < c < 256) str;
  ca_len : Z.of_nat (length str) < PGSIZE
}.
Lemma cstr_strlen m a str : cstr_at m a str -> strlen (Z.to_nat PGSIZE) a m = Some (Z.of_nat (length str)).
Proof.
  intros [Hb Hc Hl]. assert (forall j, (j <= length str)%nat -> m (a + Z.of_nat j) = nth j (str ++ [0]) 0) as Hj.
  { intros j Hj. rewrite <- Hb. unfold bytes. rewrite nth_lookup, list_lookup_fmap, lookup_seq_lt by lia. done. }
  apply strlen_spec; [lia| | |lia].
  - intros j Hj'. pose proof (Hj (Z.to_nat j) ltac:(lia)) as E. rewrite Z2Nat.id in E by lia. rewrite E, app_nth1 by lia.
    rewrite Forall_forall in Hc. destruct (lookup_lt_is_Some_2 str (Z.to_nat j) ltac:(lia)) as [c Hc']. rewrite nth_lookup, Hc'. cbn. pose proof (Hc c (list_elem_of_lookup_2 _ _ _ Hc')). lia.
  - rewrite Hj by lia. by rewrite app_nth2, Nat.sub_diag by lia.
Qed.

(** The strings [l] are at the addresses [us], between [lo] and [hi]. *)
Definition on_stack (pm : physmem) (T : tree) (lo hi : Z) (us : list Z) (l : list (list Z)) : Prop :=
  Forall2 (fun a s => lo <= a /\ a + Z.of_nat (length s) <= hi /\ user_bytes pm T a (length s) = s) us l.

Section stack.
Context (pt tf n : Z) (pm0 : physmem) (F0 : list Z) (T0 : tree) (w : world) (F1 : list Z) (T1 : tree).
Let m := n + 2.
Let base := PGSIZE * (n + 1).
Let top := PGSIZE * m.
Hypothesis (Hn : 0 <= n).

Definition at_mem (m' : mem) : world := with_k w (set_k_pm (set_pm_mem m' (k_pm (w_k w))) (w_k w)).
(** The image with memory [m'] and its stack page. *)
Record stack_state (m' : mem) : Prop := {
  ss_image : image_step pt tf n pm0 F0 T0 m (set_pm_mem m' (k_pm (w_k w))) F1 T1;
  ss_range : user_range (set_pm_mem m' (k_pm (w_k w))) F1 T1 base PGSIZE;
  ss_guard : has (leaf (set_pm_mem m' (k_pm (w_k w))) T1 (PGSIZE * n)) PTE_U = false
}.
Let at_pm (m' : mem) : physmem := set_pm_mem m' (k_pm (w_k w)).

Lemma push_bytes m1 va src lo us l : stack_state m1 -> base <= va -> va + Z.of_nat (length src) <= lo -> lo <= top -> Forall (fun x => 0 <= x < 256) src ->
  on_stack (at_pm m1) T1 lo top us l ->
  exists m2, copyout pt va src (at_mem m1) = Ret 0 (at_mem m2) /\ stack_state m2 /\ on_stack (at_pm m2) T1 va top us l /\ user_bytes (at_pm m2) T1 va (length src) = src.
Proof.
  intros [HI HR HG] Hva Hend Hlo HB HS. assert (base + PGSIZE = top) as Et by (unfold base, top, m, PGSIZE; lia).
  destruct (image_write pt tf n m pm0 F0 T0 (at_pm m1) F1 T1 HI ltac:(unfold m; lia) va src (at_mem m1)) as (m2 & E & HI2 & L & [In Out]); [done|unfold base, PGSIZE in *; lia|fold top; lia| |done|].
  { eapply user_range_sub; [exact HR|lia..]. }
  exists m2. assert (forall v, 0 <= v -> phys (at_pm m2) T1 v = phys (at_pm m1) T1 v) as Ep by (intros v Hv; unfold phys; change (at_pm m2) with (set_pm_mem m2 (at_pm m1)); by rewrite L).
  assert (0 <= base) as Hb0 by (unfold base, PGSIZE; lia). pose proof (us_user _ _ _ _ _ _ (is_space _ _ _ _ _ _ _ _ _ _ HI)) as HU.
  split; [exact E|]. split; [split|split].
  - exact HI2.
  - by apply (user_range_mem (at_pm m1)).
  - change (set_pm_mem m2 (k_pm (w_k w))) with (set_pm_mem m2 (at_pm m1)). rewrite L by (unfold PGSIZE; lia). exact HG.
  - unfold on_stack in *. eapply Forall2_impl; [exact HS|]. intros a s (Ha & Ha' & Hs). split; [lia|]. split; [done|]. rewrite <- Hs at 2.
    unfold user_bytes. apply list_fmap_ext. intros i k Hk. apply lookup_seq in Hk as [-> Hk]. rewrite Ep by lia. apply Out. intros j Hj.
    apply (phys_ne _ _ _ _ _ _ HU); fold top; lia.
  - unfold user_bytes. apply list_eq. intros i. rewrite list_lookup_fmap. destruct (decide (i < length src)%nat) as [Hi|Hi].
    + rewrite lookup_seq_lt by done. cbn [fmap option_fmap option_map]. change (0 + i)%nat with i. rewrite Ep by lia. change (pm_mem (at_pm m2)) with m2. rewrite In by lia. unfold aget. rewrite Nat2Z.id, nth_lookup.
      destruct (lookup_lt_is_Some_2 src i Hi) as [x Hx]. by rewrite Hx.
    + rewrite lookup_seq_ge by lia. symmetry. apply lookup_ge_None. lia.
Qed.

(** Memory that the image does not own is as at the start. *)
Lemma outside m1 a str : stack_state m1 -> (forall b, a <= b <= a + Z.of_nat (length str) -> forall p, p ∈ F0 \/ own pm0 T0 n p -> ~ in_page p b) ->
  cstr_at (pm_mem pm0) a str -> cstr_at m1 a str.
Proof.
  intros HS Ho [Hb Hc Hl]. split; [|done|done]. rewrite <- Hb. unfold bytes. apply list_fmap_ext. intros i k Hk. apply lookup_seq in Hk as [-> Hk].
  change m1 with (pm_mem (at_pm m1)). apply (is_mem _ _ _ _ _ _ _ _ _ _ (ss_image _ HS)). intros p. apply Ho. lia.
Qed.

Lemma exec_args_ok : forall argv strs m1 argc sp us l, stack_state m1 ->
  Forall2 (fun a str => cstr_at (pm_mem pm0) a str /\ forall b, a <= b <= a + Z.of_nat (length str) -> forall p, p ∈ F0 \/ own pm0 T0 n p -> ~ in_page p b) argv strs ->
  base <= sp <= top -> on_stack (at_pm m1) T1 sp top us l ->
  exists m2, stack_state m2 /\
  match stack_args strs argc sp base us with
  | None => exec_args argv argc pt sp base us (at_mem m1) = Ret None (at_mem m2)
  | Some (sp', us') => exec_args argv argc pt sp base us (at_mem m1) = Ret (Some (sp', us')) (at_mem m2) /\ base <= sp' <= sp /\
      on_stack (at_pm m2) T1 sp' top us' (l ++ ((fun s => s ++ [0]) <$> strs))
  end.
Proof.
  induction argv as [|a argv IH]; intros strs m1 argc sp us l HS Hv Hsp Hl.
  - apply Forall2_nil_inv_l in Hv as ->. cbn [stack_args exec_args fmap list_fmap]. exists m1. rewrite app_nil_r. split; [done|]. split; [reflexivity|]. split; [lia|exact Hl].
  - apply Forall2_cons_inv_l in Hv as (str & strs' & [Hstr Ho] & Hv & ->). cbn [stack_args exec_args].
    destruct (Nat.leb MAXARG argc); [by exists m1|]. unfold kmem. rewrite bind_kget. change (pm_mem (k_pm (w_k (at_mem m1)))) with m1.
    pose proof (outside m1 a str HS Ho Hstr) as Hs1. rewrite (cstr_strlen _ _ _ Hs1). cbv zeta.
    assert (base >= PGSIZE) as Hbase by (unfold base, PGSIZE; lia). pose proof (us_low _ _ _ _ _ _ (is_space _ _ _ _ _ _ _ _ _ _ (ss_image _ HS))) as Hlow. fold top in Hlow. change TRAPFRAME with 274877898752 in Hlow.
    pose proof (ca_len _ _ _ Hs1) as Hlen. rewrite u64_small by (change (2 ^ 64) with 18446744073709551616; lia). fold (align16 (sp - (Z.of_nat (length str) + 1))).
    set (sp' := align16 (sp - (Z.of_nat (length str) + 1))). assert (sp' + Z.of_nat (length str) + 1 <= sp) as Hsp' by (unfold sp', align16; zlia).
    destruct (Z.ltb_spec sp' base) as [Hlt|Hge]; [by exists m1|].
    assert (Forall (fun x => 0 <= x < 256) (str ++ [0])) as HB.
    { apply Forall_app. split; [eapply Forall_impl; [exact (ca_chars _ _ _ Hs1)|cbn; lia]|]. by apply Forall_singleton. }
    assert (bytes m1 a (Z.to_nat (Z.of_nat (length str) + 1)) = str ++ [0]) as Eb by (rewrite <- (ca_bytes _ _ _ Hs1); f_equal; lia). rewrite Eb.
    assert (length (str ++ [0]) = (length str + 1)%nat) as El by (by rewrite length_app).
    destruct (push_bytes m1 sp' (str ++ [0]) sp us l HS) as (m2 & E & HS2 & Hl2 & Hb2); [done|rewrite El; lia|lia|done|done|]. rewrite (bind_ret _ _ _ _ _ E). change (0 <? 0) with false. cbv iota.
    destruct (IH strs' m2 (S argc) sp' (us ++ [sp']) (l ++ [str ++ [0]]) HS2 Hv) as (m3 & HS3 & R); [lia| |].
    { apply Forall2_app; [exact Hl2|]. apply Forall2_cons. split; [|apply Forall2_nil_2]. split; [lia|]. rewrite El. split; [lia|]. rewrite <- El. exact Hb2. }
    exists m3. split; [done|]. destruct (stack_args strs' _ _ _ _) as [[sp3 us3]|]; [|exact R]. destruct R as (R1 & R2 & R3). split; [exact R1|]. split; [lia|].
    cbn [fmap list_fmap]. rewrite <- app_assoc in R3. exact R3.
Qed.
End stack.
(** ** Several updates of a kernel state in a row *)

Lemma with_twice w s1 s2 : with_k (with_k w s1) s2 = with_k w s2.
Proof. done. Qed.
Lemma w_k_with w s1 : w_k (with_k w s1) = s1.
Proof. done. Qed.
Lemma pm_of_pm p s1 : k_pm (set_k_pm p s1) = p.
Proof. done. Qed.
Lemma pm_of_ps q s1 : k_pm (set_k_ps q s1) = k_pm s1.
Proof. done. Qed.
Lemma ps_of_pm p s1 : k_ps (set_k_pm p s1) = k_ps s1.
Proof. done. Qed.
Lemma ps_of_ps q s1 : k_ps (set_k_ps q s1) = q.
Proof. done. Qed.
Lemma pm_twice p p' s1 : set_k_pm p (set_k_pm p' s1) = set_k_pm p s1.
Proof. done. Qed.
Lemma ps_twice q q' s1 : set_k_ps q (set_k_ps q' s1) = set_k_ps q s1.
Proof. done. Qed.
Lemma pm_ps_comm p q s1 : set_k_pm p (set_k_ps q s1) = set_k_ps q (set_k_pm p s1).
Proof. done. Qed.
Lemma put_tf_twice t f g pm : put_tf t f (put_tf t g pm) = put_tf t f pm.
Proof. unfold put_tf, set_pm_tf. cbn [pm_tf]. by rewrite insert_insert_eq. Qed.
Lemma put_tf_lookup t f pm : pm_tf (put_tf t f pm) !! t = Some f.
Proof. apply lookup_insert_eq. Qed.
#[export] Hint Rewrite with_twice w_k_with pm_of_pm pm_of_ps ps_of_pm ps_of_ps pm_twice ps_twice pm_ps_comm put_tf_twice put_tf_lookup : kst_fields.


(** ** exec_commit *)

(** The stack pointer and the argument addresses: the strings, then the
    array of pointers with a final 0. *)
Definition exec_stack (strs : list (list Z)) (base top : Z) : option (Z * list Z) :=
  match stack_args strs 0 top base [] with
  | None => None
  | Some (sp, us) => let sp := align16 (sp - (Z.of_nat (length us) + 1) * 8) in if sp <? base then None else Some (sp, us)
  end.

Lemma stack_args_count strs : forall argc sp base us sp' us', (argc <= MAXARG)%nat -> stack_args strs argc sp base us = Some (sp', us') ->
  length us' = (length us + length strs)%nat /\ (argc + length strs <= MAXARG)%nat.
Proof.
  induction strs as [|str strs IH]; intros argc sp base us sp' us' Ha; cbn [stack_args length].
  - intros [= <- <-]. lia.
  - destruct (Nat.leb_spec MAXARG argc); [done|]. destruct (_ <? _); [done|]. intros E. apply IH in E as [E1 E2]; [|lia]. rewrite length_app in E1. cbn in E1. lia.
Qed.

(** What a process has when exec has loaded a program of [sz] bytes: its old
    address space, the new one, and the argument strings in pages of the
    kernel.  There are not exactly [MAXARG] strings: the final 0 would then
    be written past [ustack]; sys_exec passes at most 31. *)
Record exec_ready (i : nat) (argv : list Z) (pt sz : Z) (F : list Z) (T T0 : tree) (strs : list (list Z)) (s : kst) : Prop := {
  er_lock : L_kmem ∉ k_held s;
  er_lt : (i < length (ps_proc (k_ps s)))%nat;
  er_new : uspace (k_pm s) F pt T (p_trapframe (proc_at (k_ps s) i)) (npages sz);
  er_pt : pt <> 0;
  er_sz : 0 <= sz /\ PGSIZE * (npages sz + 2) <= TRAPFRAME;
  er_old : uspace (k_pm s) F (p_pagetable (proc_at (k_ps s) i)) T0 (p_trapframe (proc_at (k_ps s) i)) (npages (p_sz (proc_at (k_ps s) i)));
  er_oldsz : 0 <= p_sz (proc_at (k_ps s) i) <= TRAPFRAME;
  er_apart : forall a, own (k_pm s) T (npages sz) a -> ~ own (k_pm s) T0 (npages (p_sz (proc_at (k_ps s) i))) a;
  er_tf : can_map (p_trapframe (proc_at (k_ps s) i)) /\ can_map (pm_trampoline (k_pm s));
  er_argc : length argv <> MAXARG;
  er_args : Forall2 (fun a str => cstr_at (pm_mem (k_pm s)) a str /\ forall b, a <= b <= a + Z.of_nat (length str) -> forall p, p ∈ F \/ own (k_pm s) T (npages sz) p -> ~ in_page p b) argv strs
}.

(** The way back: the new address space is free again, nothing else has
    changed. *)
Record exec_undone (n : Z) (F : list Z) (T : tree) (pm pm' : physmem) : Prop := {
  eu_alloc : exists F', alloc_inv pm' F' /\ forall a, a ∈ F' <-> a ∈ F \/ own pm T n a;
  eu_fields : same_fields pm pm';
  eu_mem : forall b, (forall a, a ∈ F \/ own pm T n a -> ~ in_page a b) -> pm_mem pm' b = pm_mem pm b
}.
Definition exec_fails (i : nat) (sz : Z) (F : list Z) (T : tree) (w : world) (r : res Z) : Prop :=
  exists pm', r = Ret (-1) (with_k w (set_k_pm pm' (w_k w))) /\ exec_undone (npages sz) F T (k_pm (w_k w)) pm'.

(** The process and its trapframe with the new image. *)
Definition new_image (path : list Z) (pt sz : Z) (p : proc) : proc := set_p_sz sz (set_p_pagetable pt (set_name (last_elem path path) p)).
Definition new_frame (entry sp : Z) (f : trapframe) : trapframe := set_tf_sp sp (set_tf_epc entry (set_tf_a1 sp f)).

(** The memory of the new image, with [n] pages of program. *)
Record exec_image (pt tf n n0 : Z) (F : list Z) (T T0 : tree) (strs : list (list Z)) (sp : Z) (us : list Z) (pm pm' : physmem) (F' : list Z) (T' : tree) : Prop := {
  ei_space : uspace pm' F' pt T' tf (n + 2);
  ei_pages : forall a, a ∈ F' \/ own pm' T' (n + 2) a <-> a ∈ F \/ own pm T n a \/ own pm T0 n0 a;
  ei_program : forall va, 0 <= va < PGSIZE * n -> leaf pm' T' va = leaf pm T va /\ pm_mem pm' (phys pm' T' va) = pm_mem pm (phys pm T va);
  ei_guard : has (leaf pm' T' (PGSIZE * n)) PTE_U = false;
  ei_stack : user_range pm' F' T' (PGSIZE * (n + 1)) PGSIZE;
  ei_sp : PGSIZE * (n + 1) <= sp /\ sp mod 16 = 0;
  ei_argv : user_bytes pm' T' sp (8 * (length us + 1)) = concat (le_bytes 8 <$> us ++ [0]);
  ei_strings : on_stack pm' T' sp (PGSIZE * (n + 2)) us ((fun s => s ++ [0]) <$> strs);
  ei_mem : forall b, (forall a, a ∈ F \/ own pm T n a \/ own pm T0 n0 a -> ~ in_page a b) -> pm_mem pm' b = pm_mem pm b
}.
Definition exec_done (i : nat) (path : list Z) (entry pt sz : Z) (F : list Z) (T T0 : tree) (strs : list (list Z)) (sp : Z) (us : list Z) (w : world) (r : res Z) : Prop :=
  let s := w_k w in let P := proc_at (k_ps s) i in let n := npages sz in
  exists pm' F' T', r = Ret (Z.of_nat (length us)) (with_k w (set_k_ps (upd_proc i (new_image path pt (PGSIZE * (n + 2))) (k_ps s)) (set_k_pm pm' s))) /\
    same_fields (put_tf (p_trapframe P) (new_frame entry sp (trapframe_of s i)) (k_pm s)) pm' /\
    exec_image pt (p_trapframe P) n (npages (p_sz P)) F T T0 strs sp us (k_pm s) pm' F' T'.

Section commit.
Context (i : nat) (path argv : list Z) (entry pt sz : Z) (F : list Z) (T T0 : tree) (strs : list (list Z)) (w : world).
Let s := w_k w.
Let pm := k_pm s.
Let P := proc_at (k_ps s) i.
Let n := npages sz.
Hypothesis (HR : exec_ready i argv pt sz F T T0 strs s).

Lemma n_pos : 0 <= n.
Proof.
  destruct (er_sz _ _ _ _ _ _ _ _ _ HR) as [Hsz _]. unfold n, npages. apply Z.div_pos; [unfold PGSIZE; lia|done].
Qed.

(** [goto bad] with an image of [m] pages. *)
Lemma bad_ok `{D : Disk} m pm1 F1 T1 : n <= m <= n + 2 -> image_step pt (p_trapframe P) n pm F T m pm1 F1 T1 ->
  exec_fails i sz F T w (exec_bad pt (PGSIZE * m) None (with_k w (set_k_pm pm1 s))).
Proof.
  intros Hm [HS HP HF HM HL]. pose proof n_pos as Hn. destruct (er_sz _ _ _ _ _ _ _ _ _ HR) as [Hsz Hmax]. fold n in Hmax. destruct (er_tf _ _ _ _ _ _ _ _ _ HR) as [Ctf Ctr].
  destruct (proc_freepagetable_ok (with_k w (set_k_pm pm1 s)) F1 pt T1 (p_trapframe P) (PGSIZE * m)) as (pm2 & F2 & E & [A2 S2 G2 M2]).
  - rewrite npages_mul by lia. exact HS.
  - exact (er_lock _ _ _ _ _ _ _ _ _ HR).
  - change TRAPFRAME with 274877898752 in *. unfold PGSIZE in *. lia.
  - exact Ctf.
  - change (can_map (pm_trampoline pm1)). rewrite (sf_trampoline _ _ HF). exact Ctr.
  - rewrite npages_mul in G2, M2 by lia. change (k_pm (w_k (with_k w (set_k_pm pm1 s)))) with pm1 in *. exists pm2. split.
    + unfold exec_bad. rewrite (proj2 (Z.eqb_neq pt 0)) by apply (er_pt _ _ _ _ _ _ _ _ _ HR). cbn [negb kwhen]. rewrite (bind_ret _ _ _ _ _ E), bind_mret. reflexivity.
    + split; [exists F2; split; [done|]|by etransitivity|].
      * intros a. rewrite G2. exact (HP a).
      * intros b Hb. rewrite M2; [by apply HM|]. intros a Ha. apply Hb, HP. by right.
Qed.

(** The old address space is still there. *)
Lemma old_kept m pm1 F1 T1 : image_step pt (p_trapframe P) n pm F T m pm1 F1 T1 -> uspace pm1 F1 (p_pagetable P) T0 (p_trapframe P) (npages (p_sz P)) /\
  (forall va, leaf pm1 T0 va = leaf pm T0 va).
Proof.
  intros [HS HP HF HM HL]. pose proof (er_old _ _ _ _ _ _ _ _ _ HR) as HO. fold P pm in HO. assert (forall a, own pm T0 (npages (p_sz P)) a -> ~ (a ∈ F \/ own pm T n a)) as Hd.
  { intros a Ha [HaF|Hown]; [by apply (own_valid _ _ _ _ _ _ _ HO) in Ha as [_ ?]|by apply (er_apart _ _ _ _ _ _ _ _ _ HR) in Hown]. }
  destruct (uspace_kept pm F (p_pagetable P) T0 (p_trapframe P) (npages (p_sz P)) pm1 F1 HO) as (H1 & L1 & _); [apply (vi_alloc _ _ _ _ (us_vm _ _ _ _ _ _ HS))|apply HF|apply HF| | |by split].
  - intros a Ha HaF. apply (Hd a Ha), HP. by left.
  - intros a b Ha Hb. apply HM. intros a' Ha' Hb'. apply (page_disjoint (pm_end pm) a' a b); [|by apply (own_valid _ _ _ _ _ _ _ HO)|intros ->; by apply (Hd a Ha)|done|done].
    destruct Ha' as [Ha'|Ha']; [by apply (ai_valid _ _ (vi_alloc _ _ _ _ (us_vm _ _ _ _ _ _ HO)))|by apply (own_valid _ _ _ _ _ _ _ (er_new _ _ _ _ _ _ _ _ _ HR))].
Qed.

(** A change of trapframes changes no address space. *)
Lemma uspace_tf t pm1 F1 pt1 T1 tf1 m : uspace pm1 F1 pt1 T1 tf1 m -> uspace (set_pm_tf t pm1) F1 pt1 T1 tf1 m.
Proof.
  intros H. eapply (uspace_kept pm1 F1); [exact H|apply alloc_inv_tf, H|done|done|intros a Ha; by apply (own_valid _ _ _ _ _ _ _ H)|done].
Qed.

(** The switch to the new image. *)
Definition exec_switch (argc sp : Z) : K Z :=
  mod_tf i (set_tf_a1 sp);;
  mod_proc i (set_name (last_elem path path));;
  p ← get_proc i;
  let oldpagetable := p_pagetable p in
  mod_proc i (set_p_pagetable pt);;
  mod_proc i (set_p_sz (PGSIZE * (n + 2)));;
  mod_tf i (set_tf_epc entry);;
  mod_tf i (set_tf_sp sp);;
  proc_freepagetable oldpagetable (p_sz P);;
  mret argc.

(** The memory after the switch: the old address space is free. *)
Record switched (pm1 : physmem) (F1 : list Z) (T1 : tree) (pm' : physmem) (F' : list Z) : Prop := {
  sw_space : uspace pm' F' pt T1 (p_trapframe P) (n + 2);
  sw_free : forall a, a ∈ F' <-> a ∈ F1 \/ own pm T0 (npages (p_sz P)) a;
  sw_leaf : forall va, leaf pm' T1 va = leaf pm1 T1 va;
  sw_low : forall va, 0 <= va < PGSIZE * (n + 2) -> pm_mem pm' (phys pm1 T1 va) = pm_mem pm1 (phys pm1 T1 va);
  sw_mem : forall b, (forall a, own pm T0 (npages (p_sz P)) a -> ~ in_page a b) -> pm_mem pm' b = pm_mem pm1 b
}.

(** The states on the way differ in the slot, the trapframe and the memory. *)
Lemma switch_frames pm1 argc sp : same_fields pm pm1 ->
  exec_switch argc sp (with_k w (set_k_pm pm1 s)) =
  (x ← proc_freepagetable (p_pagetable P) (p_sz P); mret argc)
    (with_k w (set_k_ps (upd_proc i (new_image path pt (PGSIZE * (n + 2))) (k_ps s)) (set_k_pm (put_tf (p_trapframe P) (new_frame entry sp (trapframe_of s i)) pm1) s))).
Proof.
  intros Sf. pose proof (er_lt _ _ _ _ _ _ _ _ _ HR) as Hi. unfold exec_switch. rewrite mod_tf_step, mod_proc_step. unfold get_proc at 1. rewrite bind_kget.
  rewrite !mod_proc_step, !mod_tf_step, !with_twice. rewrite !w_k_with. autorewrite with kst_fields. rewrite !upd_upd by (rewrite ?length_upd; exact Hi). rewrite !proc_at_upd_eq by (rewrite ?length_upd; exact Hi). unfold trapframe_of.
  autorewrite with kst_fields. rewrite !proc_at_upd_eq by (rewrite ?length_upd; exact Hi). cbn [p_trapframe set_p_sz set_p_pagetable set_name].
  autorewrite with kst_fields. rewrite (sf_tf _ _ Sf). reflexivity.
Qed.

Lemma new_old m pm1 F1 T1 a b : image_step pt (p_trapframe P) n pm F T m pm1 F1 T1 -> own pm1 T1 m a -> own pm T0 (npages (p_sz P)) b -> ~ in_page b a /\ a <> b.
Proof.
  intros HI Ha Hb. pose proof (er_old _ _ _ _ _ _ _ _ _ HR) as HO. fold P pm in HO. destruct (own_valid _ _ _ _ _ _ _ HO Hb) as [Vb HbF].
  assert (a <> b) as Hne.
  { intros ->. assert (b ∈ F \/ own pm T n b) as [?|Hown]; [apply (is_pages _ _ _ _ _ _ _ _ _ _ HI); by right|done|]. by apply (er_apart _ _ _ _ _ _ _ _ _ HR) in Hown. }
  split; [|done]. intros Hp. destruct (own_valid _ _ _ _ _ _ _ (is_space _ _ _ _ _ _ _ _ _ _ HI) Ha) as [Va _]. rewrite (sf_end _ _ (is_fields _ _ _ _ _ _ _ _ _ _ HI)) in Va.
  apply (page_disjoint (pm_end pm) b a a Vb Va); [done|done|]. unfold in_page. unfold PGSIZE. lia.
Qed.

(** The switch gives the process the new image and frees the old one. *)
Lemma switch_ok pm1 F1 T1 argc sp : image_step pt (p_trapframe P) n pm F T (n + 2) pm1 F1 T1 ->
  exists pm' F', exec_switch argc sp (with_k w (set_k_pm pm1 s)) =
      Ret argc (with_k w (set_k_ps (upd_proc i (new_image path pt (PGSIZE * (n + 2))) (k_ps s)) (set_k_pm pm' s))) /\
    same_fields (put_tf (p_trapframe P) (new_frame entry sp (trapframe_of s i)) pm) pm' /\ switched pm1 F1 T1 pm' F'.
Proof.
  intros HI. pose proof (is_fields _ _ _ _ _ _ _ _ _ _ HI) as Sf. rewrite (switch_frames _ _ _ Sf). destruct (old_kept _ _ _ _ HI) as [HO LO]. destruct (er_tf _ _ _ _ _ _ _ _ _ HR) as [Ctf Ctr].
  set (pmt := put_tf (p_trapframe P) (new_frame entry sp (trapframe_of s i)) pm1). set (w1 := with_k w _).
  assert (forall a, own pmt T0 (npages (p_sz P)) a <-> own pm T0 (npages (p_sz P)) a) as Hown.
  { intros a. unfold own. assert (in_upages pmt T0 0 (npages (p_sz P)) a <-> in_upages pm T0 0 (npages (p_sz P)) a) as ->; [|done].
    split; intros (j & Hj & ->); exists j; (split; [done|]); unfold upage; [symmetry|]; f_equal; symmetry; apply LO. }
  destruct (proc_freepagetable_ok w1 F1 (p_pagetable P) T0 (p_trapframe P) (p_sz P)) as (pm2 & F2 & E & [A2 S2 G2 M2]).
  - change (k_pm (w_k w1)) with pmt. by apply uspace_tf.
  - exact (er_lock _ _ _ _ _ _ _ _ _ HR).
  - exact (er_oldsz _ _ _ _ _ _ _ _ _ HR).
  - exact Ctf.
  - change (can_map (pm_trampoline pm1)). rewrite (sf_trampoline _ _ Sf). exact Ctr.
  - change (k_pm (w_k w1)) with pmt in *. fold (own pmt T0 (npages (p_sz P))) in G2, M2.
    assert (forall a, a ∈ F2 <-> a ∈ F1 \/ own pm T0 (npages (p_sz P)) a) as G by (intros a; rewrite G2, <- Hown; done).
    assert (forall b, (forall a, own pm T0 (npages (p_sz P)) a -> ~ in_page a b) -> pm_mem pm2 b = pm_mem pm1 b) as M by (intros b Hb; apply M2; intros a Ha; apply Hb, Hown, Ha).
    pose proof (is_space _ _ _ _ _ _ _ _ _ _ HI) as HS.
    destruct (uspace_kept pm1 F1 pt T1 (p_trapframe P) (n + 2) pm2 F2 HS A2) as (H' & L' & M'); [by rewrite (sf_end _ _ S2)|by rewrite (sf_trampoline _ _ S2)| | |].
    + intros a Ha [HF|Ho]%G; [by apply (own_valid _ _ _ _ _ _ _ HS) in Ha as [_ ?]|by destruct (new_old _ _ _ _ a a HI Ha Ho)].
    + intros a b Ha Hb. apply M. intros a' Ha' Hb'. destruct (own_valid _ _ _ _ _ _ _ (er_old _ _ _ _ _ _ _ _ _ HR) Ha') as [Va' _], (own_valid _ _ _ _ _ _ _ HS Ha) as [Va _]. fold s pm in Va'.
      rewrite (sf_end _ _ Sf) in Va. apply (page_disjoint (pm_end pm) a' a b); [done|done|intros ->; by destruct (new_old _ _ _ _ a a HI Ha Ha')|done|done].
    + exists pm2, F2. split; [|split; [|by split]].
      * rewrite (bind_ret _ _ _ _ _ E). unfold w1. by autorewrite with kst_fields.
      * etransitivity; [|exact S2]. destruct Sf as [? Et ? ? ?]. split; try done. unfold pmt, put_tf. cbn [pm_tf set_pm_tf]. by rewrite Et.
Qed.

(** What the memory of the stack page holds is kept by the switch. *)
Lemma switched_bytes pm1 F1 T1 pm' F' a k : switched pm1 F1 T1 pm' F' -> 0 <= a -> a + Z.of_nat k <= PGSIZE * (n + 2) -> user_bytes pm' T1 a k = user_bytes pm1 T1 a k.
Proof.
  intros HW Ha Hk. unfold user_bytes. apply list_fmap_ext. intros j x Hx. apply lookup_seq in Hx as [-> Hx].
  assert (phys pm' T1 (a + Z.of_nat (0 + j)) = phys pm1 T1 (a + Z.of_nat (0 + j))) as -> by (unfold phys; by rewrite (sw_leaf _ _ _ _ _ HW)).
  apply (sw_low _ _ _ _ _ HW). lia.
Qed.

Lemma image_done pm1 F1 T1 sp us pm' F' : switched pm1 F1 T1 pm' F' -> image_step pt (p_trapframe P) n pm F T (n + 2) pm1 F1 T1 ->
  user_range pm1 F1 T1 (PGSIZE * (n + 1)) PGSIZE -> has (leaf pm1 T1 (PGSIZE * n)) PTE_U = false -> PGSIZE * (n + 1) <= sp -> sp mod 16 = 0 ->
  sp + 8 * (Z.of_nat (length us) + 1) <= PGSIZE * (n + 2) ->
  user_bytes pm1 T1 sp (8 * (length us + 1)) = concat (le_bytes 8 <$> us ++ [0]) ->
  on_stack pm1 T1 sp (PGSIZE * (n + 2)) us ((fun s => s ++ [0]) <$> strs) ->
  exec_image pt (p_trapframe P) n (npages (p_sz P)) F T T0 strs sp us pm pm' F' T1.
Proof.
  intros HW HI HU HG Hsp Ha Hend Hv Hs. pose proof n_pos as Hn. pose proof (is_space _ _ _ _ _ _ _ _ _ _ HI) as HS.
  assert (PGSIZE * (n + 1) + PGSIZE = PGSIZE * (n + 2) /\ 0 <= PGSIZE * (n + 1)) as [Et H0] by (unfold PGSIZE; lia).
  assert (forall a, own pm' T1 (n + 2) a <-> own pm1 T1 (n + 2) a) as Hown.
  { intros a. unfold own. assert (in_upages pm' T1 0 (n + 2) a <-> in_upages pm1 T1 0 (n + 2) a) as ->; [|done].
    split; intros (j & Hj & ->); exists j; (split; [done|]); unfold upage; by rewrite (sw_leaf _ _ _ _ _ HW). }
  split.
  - exact (sw_space _ _ _ _ _ HW).
  - intros a. rewrite Hown, (sw_free _ _ _ _ _ HW). pose proof (is_pages _ _ _ _ _ _ _ _ _ _ HI a). tauto.
  - intros va Hva. destruct (is_low _ _ _ _ _ _ _ _ _ _ HI va Hva) as [L M]. assert (leaf pm' T1 va = leaf pm1 T1 va) as L' by apply (sw_leaf _ _ _ _ _ HW).
    split; [by rewrite L'|]. rewrite <- M, <- (sw_low _ _ _ _ _ HW) by (unfold PGSIZE in *; lia). unfold phys. by rewrite L'.
  - by rewrite (sw_leaf _ _ _ _ _ HW).
  - destruct HU as [U1 U2 U3 U4]. split; [done|..].
    + intros v Hv'. rewrite (sw_leaf _ _ _ _ _ HW). by apply U2.
    + intros v Hv'. rewrite (sw_leaf _ _ _ _ _ HW). destruct (U3 v Hv') as (V1 & V2 & V3). pose proof (us_user _ _ _ _ _ _ (sw_space _ _ _ _ _ HW)) as HM.
      destruct (um_page _ _ _ _ _ HM (v / PGSIZE)) as (W1 & W2 & W3); [unfold PGSIZE in *; zlia|]. unfold upage in W1, W2, W3. rewrite (sw_leaf _ _ _ _ _ HW) in W1, W2, W3.
      rewrite (leaf_page pm1 T1 v (PGSIZE * (v / PGSIZE))) by (rewrite page_index by (unfold PGSIZE in *; zlia); done). done.
    + intros v v' Hv1 Hv2. rewrite !(sw_leaf _ _ _ _ _ HW). by apply U4.
  - done.
  - rewrite (switched_bytes pm1 F1 T1 pm' F'); [done|done|lia|lia].
  - unfold on_stack in *. eapply Forall2_impl; [exact Hs|]. intros a str (A1 & A2 & A3). split; [done|]. split; [done|]. rewrite (switched_bytes pm1 F1 T1 pm' F'); [done|done|lia|lia].
  - intros b Hb. rewrite (sw_mem _ _ _ _ _ HW); [|intros a Ho; apply Hb; tauto]. apply (is_mem _ _ _ _ _ _ _ _ _ _ HI). intros a Ho. apply Hb. tauto.
Qed.

(** From the two new pages on. *)
Lemma length_words l : length (concat (le_bytes 8 <$> l)) = (8 * length l)%nat.
Proof. induction l as [|x l IH]; [done|]. rewrite fmap_cons. cbn [concat length]. rewrite length_app, IH. change (length (le_bytes 8 x)) with 8%nat. lia. Qed.
Lemma words_range l : Forall (fun x => 0 <= x < 256) (concat (le_bytes 8 <$> l)).
Proof. induction l as [|x l IH]; [constructor|]. rewrite fmap_cons. cbn [concat]. apply Forall_app. split; [apply le_bytes_range|exact IH]. Qed.

(** The strings, the array of pointers and the switch, from the two new
    pages on. *)
Definition exec_finish `{D : Disk} (top base : Z) : K Z :=
  r ← exec_args argv 0 pt top base [];
  match r with
  | None => exec_bad pt top None
  | Some (sp, us) =>
    let sp := u64 (sp - (Z.of_nat (length us) + 1) * 8) in
    let sp := sp - sp mod 16 in
    if sp <? base then exec_bad pt top None else
    r ← copyout pt sp (concat (le_bytes 8 <$> us ++ [0]));
    if r <? 0 then exec_bad pt top None else exec_switch (Z.of_nat (length us)) sp
  end.

Lemma align16_le a : align16 a <= a /\ align16 a mod 16 = 0.
Proof. unfold align16. split; zlia. Qed.

Lemma finish_ok `{D : Disk} pm1 F1 T1 (top := PGSIZE * (n + 2)) (base := PGSIZE * (n + 1)) (w1 := with_k w (set_k_pm pm1 s)) :
  stack_state pt (p_trapframe P) n pm F T w1 F1 T1 (pm_mem pm1) ->
  match exec_stack strs base top with
  | None => exec_fails i sz F T w (exec_finish top base w1)
  | Some (sp, us) => exec_done i path entry pt sz F T T0 strs sp us w (exec_finish top base w1)
  end.
Proof.
  intros HS. pose proof n_pos as Hn. assert (base + PGSIZE = top /\ PGSIZE <= base) as [Et Hb] by (unfold base, top, PGSIZE; lia).
  assert (forall m1, stack_state pt (p_trapframe P) n pm F T w1 F1 T1 m1 -> exec_fails i sz F T w (exec_bad pt top None (at_mem w1 m1))) as Hbad.
  { intros m1 H1. apply (bad_ok (n + 2) (set_pm_mem m1 pm1) F1 T1); [lia|apply (ss_image _ _ _ _ _ _ _ _ _ _ H1)]. }
  assert (w1 = at_mem w1 (pm_mem pm1)) as Ew by (unfold at_mem, w1; cbn; by destruct pm1).
  destruct (exec_args_ok pt (p_trapframe P) n pm F T w1 F1 T1 Hn argv strs (pm_mem pm1) 0 top [] [] HS) as (m2 & HS2 & R); [apply (er_args _ _ _ _ _ _ _ _ _ HR)|fold base top; unfold PGSIZE in *; lia|apply Forall2_nil_2|].
  fold base in R. rewrite <- Ew in R. unfold exec_stack, exec_finish. destruct (stack_args strs 0 top base []) as [[sp us]|] eqn:Es; [|rewrite (bind_ret _ _ _ _ _ R); by apply Hbad].
  destruct R as (R & Hsp & Hl). rewrite (bind_ret _ _ _ _ _ R). cbn [app] in Hl. cbv zeta. apply stack_args_count in Es as [Hc1 Hc2]; [|unfold MAXARG; lia]. cbn [length Nat.add] in Hc1. unfold MAXARG in Hc2.
  pose proof (us_low _ _ _ _ _ _ (is_space _ _ _ _ _ _ _ _ _ _ (ss_image _ _ _ _ _ _ _ _ _ _ HS2))) as Hlow. fold top in Hlow. change TRAPFRAME with 274877898752 in Hlow.
  rewrite u64_small by (change (2 ^ 64) with 18446744073709551616; unfold PGSIZE in *; lia). fold (align16 (sp - (Z.of_nat (length us) + 1) * 8)). destruct (align16_le (sp - (Z.of_nat (length us) + 1) * 8)) as [Ha1 Ha2].
  set (sp' := align16 _) in *. clearbody sp'. destruct (Z.ltb_spec sp' base) as [Hlt|Hge]; [by apply Hbad|].
  assert (length (concat (le_bytes 8 <$> us ++ [0])) = (8 * (length us + 1))%nat) as Elen by (by rewrite length_words, length_app).
  destruct (push_bytes pt (p_trapframe P) n pm F T w1 F1 T1 Hn m2 sp' (concat (le_bytes 8 <$> us ++ [0])) sp us ((fun str => str ++ [0]) <$> strs) HS2 Hge) as (m3 & E & HS3 & Hl3 & Hb3); [rewrite Elen; lia|apply Hsp|apply words_range|exact Hl|].
  rewrite (bind_ret _ _ _ _ _ E). change (0 <? 0) with false. cbv iota. rewrite Elen in Hb3. destruct HS3 as [HI3 HU3 HG3].
  destruct (switch_ok (set_pm_mem m3 pm1) F1 T1 (Z.of_nat (length us)) sp' HI3) as (pm' & F' & Ed & Sf & HW). exists pm', F', T1. split; [exact Ed|]. split; [exact Sf|].
  apply (image_done (set_pm_mem m3 pm1) F1 T1); try done. fold top. lia.
Qed.

(** [exec_commit] in terms of its end. *)
Lemma exec_commit_ok `{D : Disk} : let r := exec_commit i path argv entry pt sz w in
  match exec_stack strs (PGSIZE * (n + 1)) (PGSIZE * (n + 2)) with
  | None => exec_fails i sz F T w r
  | Some (sp, us) => exec_done i path entry pt sz F T T0 strs sp us w r \/ Z.of_nat (length F) < 6 /\ exec_fails i sz F T w r
  end.
Proof.
  cbv zeta. pose proof n_pos as Hn. destruct (er_sz _ _ _ _ _ _ _ _ _ HR) as [Hsz Hmax]. fold n in Hmax. change TRAPFRAME with 274877898752 in Hmax. pose proof (er_new _ _ _ _ _ _ _ _ _ HR) as HN. fold P pm n in HN.
  assert (sz <= PGSIZE * n) as Hle by (unfold n, npages, PGSIZE; zlia).
  assert (PGROUNDUP sz = PGSIZE * n) as Er by (apply PGROUNDUP_npages; change MAXVA with 274877906944; unfold PGSIZE in *; lia).
  assert (PGSIZE * n + 2 * PGSIZE = PGSIZE * (n + 2) /\ PGSIZE * (n + 2) - 2 * PGSIZE = PGSIZE * n /\ PGSIZE * (n + 2) - PGSIZE = PGSIZE * (n + 1)) as (D1 & D2 & D3) by lia.
  assert (forall x, 0 <= x <= 274877898752 -> u64 x = x) as Hu by (intros x Hx; apply u64_small; change (2 ^ 64) with 18446744073709551616; lia).
  destruct (uvmalloc_step pt (p_trapframe P) n 2 w F T HN (er_lock _ _ _ _ _ _ _ _ _ HR) Hn) as (r & pm1 & F1 & T1 & E & R); [done|change TRAPFRAME with 274877898752; lia|].
  set (w1 := with_k w (set_k_pm pm1 (w_k w))) in *. destruct R as [(-> & HI & Hfr)|(-> & Hlen & HI)].
  - destruct (uvmclear_ok pt (p_trapframe P) n pm F T w1 F1 T1 HI Hn Hfr) as (m' & E2 & HI2 & HG & HU); [apply HN|]. change (k_pm (w_k w1)) with pm1 in *.
    assert (exec_commit i path argv entry pt sz w = exec_finish (PGSIZE * (n + 2)) (PGSIZE * (n + 1)) (with_k w (set_k_pm (set_pm_mem m' pm1) s))) as ->.
    { unfold exec_commit. unfold get_proc. rewrite bind_kget. fold s P. rewrite Er, D1, Hu by (unfold PGSIZE in *; lia). rewrite (bind_ret _ _ _ _ _ E). rewrite (proj2 (Z.eqb_neq _ _)) by (unfold PGSIZE; lia).
      rewrite D2, (Hu (PGSIZE * n)) by (unfold PGSIZE in *; lia). erewrite bind_ret by exact E2. rewrite D3. reflexivity. }
    pose proof (finish_ok (set_pm_mem m' pm1) F1 T1) as HF. cbv zeta in HF. destruct (exec_stack _ _ _) as [[sp us]|]; [left|]; apply HF; by split.
  - assert (exec_commit i path argv entry pt sz w = exec_bad pt (PGSIZE * n) None w1) as ->.
    { unfold exec_commit. unfold get_proc. rewrite bind_kget. fold s P. rewrite Er, D1, Hu by (unfold PGSIZE in *; lia). rewrite (bind_ret _ _ _ _ _ E). reflexivity. }
    assert (exec_fails i sz F T w (exec_bad pt (PGSIZE * n) None w1)) by (apply (bad_ok n pm1 F1 T1); [lia|exact HI]).
    destruct (exec_stack _ _ _) as [[sp us]|]; [right; split; [lia|done]|done].
Qed.
End commit.

(** C18: [exec_commit] for a loaded program, on every branch. The process has
    its old address space and a new one with the pages of the program, and
    the kernel holds the argument strings. If the strings and the array of
    pointers do not fit the stack page, or there are more than 32, the call
    returns -1: the pages of the new address space are free again and
    nothing else has changed. Otherwise it returns the number of arguments,
    and the process has the new page table, size, name, entry point, stack
    pointer and a1. The new address space has the program unchanged, a guard
    page that the user cannot access, and a stack page with the strings and,
    at the stack pointer, the array of their addresses ending in 0; the old
    address space is free. Only with fewer than 6 free pages may this call
    return -1. *)
Theorem exec_commit_correct `{D : Disk} (i : nat) (path argv : list Z) (entry pt sz : Z) (F : list Z) (T T0 : tree) (strs : list (list Z)) (w : world) :
  exec_ready i argv pt sz F T T0 strs (w_k w) ->
  let r := exec_commit i path argv entry pt sz w in
  match exec_stack strs (PGSIZE * (npages sz + 1)) (PGSIZE * (npages sz + 2)) with
  | None => exec_fails i sz F T w r
  | Some (sp, us) => exec_done i path entry pt sz F T T0 strs sp us w r \/ Z.of_nat (length F) < 6 /\ exec_fails i sz F T w r
  end.
Proof. intros HR. by apply exec_commit_ok. Qed.

(** ** A program without pages, with one argument *)

Definition ex_arg : Z := 0x80030000.
Definition ex_str : list Z := [108; 115].
Definition put_str (pm : physmem) : physmem :=
  set_pm_mem (fun b => if (ex_arg <=? b) && (b <? ex_arg + 3) then aget 0 (ex_str ++ [0]) (b - ex_arg) else pm_mem pm b) pm.

Lemma put_str_page pm a b : a ∈ EX_USER :: fork_pages -> in_page a b -> pm_mem (put_str pm) b = pm_mem pm b.
Proof.
  intros Ha Hb. cbn [put_str pm_mem set_pm_mem]. assert (0x87f00000 <= a) as Hge.
  { apply elem_of_cons in Ha as [->|(k & -> & _)%list_elem_of_fmap]; [by vm_compute|unfold PGSIZE; lia]. }
  rewrite (proj2 (Z.ltb_ge b _)), andb_false_r; [done|]. unfold in_page, ex_arg in *. lia.
Qed.
Lemma put_str_bytes pm : is_bytes (pm_mem pm) -> is_bytes (pm_mem (put_str pm)).
Proof.
  intros H b. cbn [put_str pm_mem set_pm_mem]. destruct ((ex_arg <=? b) && (b <? ex_arg + 3)) eqn:E; [|apply H].
  assert (b - ex_arg = 0 \/ b - ex_arg = 1 \/ b - ex_arg = 2) as [->|[->| ->]] by (unfold ex_arg in *; lia); by vm_compute.
Qed.
Lemma put_str_at pm : cstr_at (pm_mem (put_str pm)) ex_arg ex_str.
Proof. split; [done|by repeat constructor|done]. Qed.

Lemma put_str_alloc pm F : alloc_inv pm F -> (forall a, a ∈ F -> a ∈ fork_pages) -> alloc_inv (put_str pm) F.
Proof.
  intros H HF. apply alloc_inv_ext; [done|apply put_str_bytes, H|]. intros a Ha b Hb. apply (put_str_page pm a); [apply elem_of_cons; right; by apply HF|exact Hb].
Qed.

Lemma ex_exec_ready : exists pm F pt T pt0 T0, exec_ready 0 [ex_arg] pt 0 F T T0 [ex_str] (ex_kst pm pt0) /\ 6 <= Z.of_nat (length F).
Proof.
  destruct ex_space as (pm0 & F0 & pt0 & T0 & H0 & Hlen & Ht & Hr & HF0 & He & Hpt0 & HT0 & HU).
  set (w0 := World [] (ex_kst pm0 pt0)). pose proof (us_vm _ _ _ _ _ _ H0) as V0. destruct (proc_pagetable_ok w0 F0 0 (vi_alloc _ _ _ _ V0)) as (pt & pm1 & F1 & _ & A1 & R);
    [apply not_elem_of_nil|apply ex_can_map|change (can_map (pm_trampoline pm0)); rewrite Hr; apply ex_can_map|]. change (k_pm (w_k w0)) with pm0 in R.
  destruct R as [(Hpt & (T & H1 & [S1 G1 M1]) & Hlen1)|(_ & Hshort & _)]; [|lia]. change (p_trapframe (proc_at (k_ps (w_k w0)) 0)) with EX_TF in H1.
  assert (forall a, own pm1 T 0 a -> a ∈ F0) as Hown1 by (intros a [[m Hm]|(j & Hj & _)]; [apply G1; right; by exists m|lia]).
  assert (forall a, own pm0 T0 1 a -> a ∈ EX_USER :: fork_pages) as Hown0.
  { intros a [[m Hm]|(j & Hj & ->)]; apply elem_of_cons; [right; by apply (HT0 m)|left]. assert (j = 0) as -> by lia. exact HU. }
  assert (forall a, a ∈ F1 -> a ∈ fork_pages) as HF1 by (intros a Ha; apply HF0, G1; by left). pose proof (put_str_alloc pm1 F1 A1 HF1) as A2.
  destruct (uspace_kept pm1 F1 pt T EX_TF 0 (put_str pm1) F1 H1 A2) as (H2 & L2 & _); [done|done|intros a Ha; by apply (own_valid _ _ _ _ _ _ _ H1)| |].
  { intros a b Ha. apply put_str_page. apply elem_of_cons. right. by apply HF0, Hown1. }
  destruct (uspace_kept pm0 F0 pt0 T0 EX_TF 1 (put_str pm1) F1 H0 A2) as (H3 & L3 & _); [apply S1|apply S1| | |].
  { intros a Ha HF. apply (own_valid _ _ _ _ _ _ _ H0) in Ha as [_ Hn]. apply Hn, G1. by left. }
  { intros a b Ha Hb. rewrite (put_str_page pm1 a b) by (by apply Hown0 || done). apply M1. intros a' Ha' Hb'. destruct (own_valid _ _ _ _ _ _ _ H0 Ha) as [Va Hn].
    apply (page_disjoint (pm_end pm0) a' a b); [by apply (ai_valid _ _ (vi_alloc _ _ _ _ V0))|done|by intros ->|done|done]. }
  exists (put_str pm1), F1, pt, T, pt0, T0. split; [|lia].
  assert (forall a, own (put_str pm1) T 0 a -> own pm1 T 0 a) as Ho1 by (intros a [?|(j & Hj & _)]; [by left|lia]).
  assert (forall a, own (put_str pm1) T0 1 a -> own pm0 T0 1 a) as Ho0 by (intros a [?|(j & Hj & ->)]; [by left|right; exists j; split; [done|]; unfold upage; by rewrite L3]).
  split; try done.
  - apply not_elem_of_nil.
  - cbn. lia.
  - intros a Ha%Ho1%Hown1 Hb%Ho0. by apply (own_valid _ _ _ _ _ _ _ H0) in Hb as [_ ?].
  - split; [apply ex_can_map|]. change (can_map (pm_trampoline pm1)). rewrite (sf_trampoline _ _ S1), Hr. apply ex_can_map.
  - apply Forall2_cons. split; [|apply Forall2_nil_2]. split; [apply put_str_at|]. intros b Hb p Hp Hpb. assert (p ∈ fork_pages) as (k & -> & _)%list_elem_of_fmap by (destruct Hp as [Hp|Hp]; [by apply HF1|by apply HF0, Hown1, Ho1]).
    change (Z.of_nat (length ex_str)) with 2 in Hb. unfold in_page, ex_arg, PGSIZE in *. lia.
Qed.

(** With one argument, "ls", and no pages of program the stack pointer is
    32 bytes below the top: the string, then its address and 0. *)
Lemma exec_commit_correct_witness : exists pm F pt T pt0 T0 sp us, us = [8176] /\ sp = 8160 /\
  exec_done 0 [47; 108; 115] 4096 pt 0 F T T0 [ex_str] sp us (World [] (ex_kst pm pt0)) (exec_commit (D := sync_disk) 0 [47; 108; 115] [ex_arg] 4096 pt 0 (World [] (ex_kst pm pt0))).
Proof.
  destruct ex_exec_ready as (pm & F & pt & T & pt0 & T0 & HR & Hlen). exists pm, F, pt, T, pt0, T0, 8160, [8176]. split; [done|]. split; [done|].
  pose proof (exec_commit_correct (D := sync_disk) 0 [47; 108; 115] [ex_arg] 4096 pt 0 F T T0 [ex_str] (World [] (ex_kst pm pt0)) HR) as H.
  cbv zeta in H. assert (exec_stack [ex_str] (PGSIZE * (npages 0 + 1)) (PGSIZE * (npages 0 + 2)) = Some (8160, [8176])) as E by (by vm_compute). rewrite E in H.
  destruct H as [H|[Hlt _]]; [exact H|exfalso; lia].
Defined.
