(* ===== verification/Sysfile.v ===== *)
(** * Sysfile: file-system calls

    Models kernel/sysfile.c. *)

From S2P Require Import Prelude.
From S2P Require Import State.
From S2P Require Import Kernel.
From S2P Require Import Sched.
From S2P Require Import Mem.
From S2P Require Import Kalloc.
From S2P Require Import Vm.
From S2P Require Import Bio.
From S2P Require Import Log.
From S2P Require Import Fs.
From S2P Require Import File.
From S2P Require Import Proc.
From S2P Require Import Exec.

Definition O_RDONLY : Z := 0.
Definition O_WRONLY : Z := 1.
Definition O_RDWR : Z := 2.
Definition O_CREATE : Z := 0x200.
Definition O_TRUNC : Z := 0x400.

(** The descriptor and the file; [None] is the return value -1. *)
Definition argfd (n : Z) : K (option (Z * nat)) :=
  fd ← argint n;
  if (fd <? 0) || (Z.of_nat NOFILE <=? fd) then mret None else
  i ← curproc;
  p ← get_proc i;
  mret (match aget None (p_ofile p) fd with Some f => Some (fd, f) | None => None end).

(** The first free descriptor of a table. *)
Fixpoint fd_scan (l : list (option nat)) (fd : Z) : option Z :=
  match l with
  | [] => None
  | None :: _ => Some fd
  | Some _ :: l' => fd_scan l' (fd + 1)
  end.
Definition set_fd (fd : Z) (f : option nat) (p : proc) : proc := set_p_ofile (aset (p_ofile p) fd f) p.
Definition fdalloc (f : nat) : K Z :=
  i ← curproc;
  p ← get_proc i;
  match fd_scan (p_ofile p) 0 with
  | Some fd => mod_proc i (set_fd fd (Some f));; mret fd
  | None => mret (-1)
  end.

Section sysfile.
Context `{D : Disk}.

Definition sys_dup : K Z :=
  r ← argfd 0;
  match r with
  | None => mret (-1)
  | Some (_, f) =>
    fd ← fdalloc f;
    if fd <? 0 then mret (-1) else
    filedup f;;
    mret fd
  end.

Definition sys_read : K Z :=
  p ← argaddr 1;
  n ← argint 2;
  r ← argfd 0;
  match r with None => mret (-1) | Some (_, f) => fileread f p n end.

Definition sys_write : K Z :=
  p ← argaddr 1;
  n ← argint 2;
  r ← argfd 0;
  match r with None => mret (-1) | Some (_, f) => filewrite f p n end.

Definition sys_close : K Z :=
  r ← argfd 0;
  match r with
  | None => mret (-1)
  | Some (fd, f) =>
    i ← curproc;
    mod_proc i (set_fd fd None);;
    fileclose f;;
    mret 0
  end.

Definition sys_fstat (pad : list Z) : K Z :=
  st ← argaddr 1;
  r ← argfd 0;
  match r with None => mret (-1) | Some (_, f) => filestat pad f st end.

Definition sys_link : K Z :=
  old ← argstr 0 MAXPATH;
  if fst old <? 0 then mret (-1) else
  new ← argstr 1 MAXPATH;
  if fst new <? 0 then mret (-1) else
  begin_op;;
  r ← namei (str_of (snd old));
  match r with
  | None => end_op;; mret (-1)
  | Some ip =>
    ilock (Some ip);;
    x ← get_inode ip;
    if i_type x =? T_DIR then iunlockput ip;; end_op;; mret (-1) else
    mod_inode ip (fun x => set_i_nlink (i16 (i_nlink x + 1)) x);;
    iupdate ip;;
    iunlock (Some ip);;
    let bad : K Z :=
      ilock (Some ip);;
      mod_inode ip (fun x => set_i_nlink (i16 (i_nlink x - 1)) x);;
      iupdate ip;;
      iunlockput ip;;
      end_op;;
      mret (-1) in
    r ← nameiparent (str_of (snd new)) name_zero;
    match r with
    | (None, _) => bad
    | (Some dp, name) =>
      ilock (Some dp);;
      d ← get_inode dp;
      x ← get_inode ip;
      ok ← (if negb (i_dev d =? i_dev x) then mret false
            else r ← dirlink dp name (i_inum x); mret (negb (r <? 0)));
      if negb ok then iunlockput dp;; bad else
      iunlockput dp;;
      iput ip;;
      end_op;;
      mret 0
    end
  end.

Fixpoint isdirempty_loop (fuel : nat) (dp : nat) (de off : Z) : K bool :=
  x ← get_inode dp;
  if off <? i_size x then
    match fuel with
    | O => hang
    | S f =>
      r ← readi dp false de off DIRENT_SIZE;
      if negb (r =? DIRENT_SIZE) then panic "isdirempty: readi" else
      l ← de_bytes de;
      if negb (de_inum l =? 0) then mret false else isdirempty_loop f dp de (off + DIRENT_SIZE)
    end
  else mret true.
Definition isdirempty (dp : nat) : K bool :=
  x ← get_inode dp;
  de ← de_addr;
  isdirempty_loop (Z.to_nat (i_size x)) dp de (2 * DIRENT_SIZE).

Definition sys_unlink : K Z :=
  path ← argstr 0 MAXPATH;
  if fst path <? 0 then mret (-1) else
  begin_op;;
  r ← nameiparent (str_of (snd path)) name_zero;
  match r with
  | (None, _) => end_op;; mret (-1)
  | (Some dp, name) =>
    ilock (Some dp);;
    let bad : K Z := iunlockput dp;; end_op;; mret (-1) in
    if (namecmp name (bytes_of_string ".") =? 0) || (namecmp name (bytes_of_string "..") =? 0) then bad else
    r ← dirlookup dp name;
    match r with
    | None => bad
    | Some (ip, off) =>
      ilock (Some ip);;
      x ← get_inode ip;
      if i_nlink x <? 1 then panic "unlink: nlink < 1" else
      nonempty ← (if i_type x =? T_DIR then e ← isdirempty ip; mret (negb e) else mret false);
      if (nonempty : bool) then iunlockput ip;; bad else
      de ← de_addr;
      kmemset de 0 DIRENT_SIZE;;
      r ← writei dp false de off DIRENT_SIZE;
      if negb (r =? DIRENT_SIZE) then panic "unlink: writei" else
      kwhen (i_type x =? T_DIR)
        (mod_inode dp (fun d => set_i_nlink (i16 (i_nlink d - 1)) d);;
         iupdate dp);;
      iunlockput dp;;
      mod_inode ip (fun x => set_i_nlink (i16 (i_nlink x - 1)) x);;
      iupdate ip;;
      iunlockput ip;;
      end_op;;
      mret 0
    end
  end.

(** [goto fail] of [create]. *)
Definition create_fail (ip dp : nat) : K (option nat) :=
  mod_inode ip (set_i_nlink 0);;
  iupdate ip;;
  iunlockput ip;;
  iunlockput dp;;
  mret None.

Definition create (path : list Z) (type major minor : Z) : K (option nat) :=
  r ← nameiparent path name_zero;
  match r with
  | (None, _) => mret None
  | (Some dp, name) =>
    ilock (Some dp);;
    r ← dirlookup dp name;
    match r with
    | Some (ip, _) =>
      iunlockput dp;;
      ilock (Some ip);;
      x ← get_inode ip;
      if (type =? T_FILE) && ((i_type x =? T_FILE) || (i_type x =? T_DEVICE)) then mret (Some ip) else
      iunlockput ip;;
      mret None
    | None =>
      d ← get_inode dp;
      r ← ialloc (i_dev d) type;
      match r with
      | None => iunlockput dp;; mret None
      | Some ip =>
        ilock (Some ip);;
        mod_inode ip (set_i_major major);;
        mod_inode ip (set_i_minor minor);;
        mod_inode ip (set_i_nlink 1);;
        iupdate ip;;
        x ← get_inode ip;
        ok ← (if type =? T_DIR then
                r ← dirlink ip (bytes_of_string ".") (i_inum x);
                if r <? 0 then mret false else
                r ← dirlink ip (bytes_of_string "..") (i_inum d);
                mret (negb (r <? 0))
              else mret true);
        if negb ok then create_fail ip dp else
        r ← dirlink dp name (i_inum x);
        if r <? 0 then create_fail ip dp else
        kwhen (type =? T_DIR)
          (mod_inode dp (fun d => set_i_nlink (i16 (i_nlink d + 1)) d);;
           iupdate dp);;
        iunlockput dp;;
        mret (Some ip)
      end
    end
  end.

(** The second half of [sys_open], with [ip] locked. *)
Definition open_file (ip : nat) (omode : Z) : K Z :=
  x ← get_inode ip;
  if (i_type x =? T_DEVICE) && ((i_major x <? 0) || (NDEV <=? i_major x)) then
    iunlockput ip;; end_op;; mret (-1)
  else
  f ← filealloc;
  match f with
  | None => iunlockput ip;; end_op;; mret (-1)
  | Some f =>
    fd ← fdalloc f;
    if fd <? 0 then fileclose f;; iunlockput ip;; end_op;; mret (-1) else
    (if i_type x =? T_DEVICE then
       mod_file f (fun y => set_f_major (i_major x) (set_f_type FD_DEVICE y))
     else mod_file f (fun y => set_f_off 0 (set_f_type FD_INODE y)));;
    mod_file f (fun y => set_f_ip (Some ip) y);;
    mod_file f (set_f_readable (b2z (Z.land omode O_WRONLY =? 0)));;
    mod_file f (set_f_writable (b2z (negb (Z.land omode O_WRONLY =? 0) || negb (Z.land omode O_RDWR =? 0))));;
    kwhen (negb (Z.land omode O_TRUNC =? 0) && (i_type x =? T_FILE)) (itrunc ip);;
    iunlock (Some ip);;
    end_op;;
    mret fd
  end.

Definition sys_open : K Z :=
  omode ← argint 1;
  path ← argstr 0 MAXPATH;
  if fst path <? 0 then mret (-1) else
  begin_op;;
  if negb (Z.land omode O_CREATE =? 0) then
    r ← create (str_of (snd path)) T_FILE 0 0;
    match r with
    | None => end_op;; mret (-1)
    | Some ip => open_file ip omode
    end
  else
    r ← namei (str_of (snd path));
    match r with
    | None => end_op;; mret (-1)
    | Some ip =>
      ilock (Some ip);;
      x ← get_inode ip;
      if (i_type x =? T_DIR) && negb (omode =? O_RDONLY) then iunlockput ip;; end_op;; mret (-1)
      else open_file ip omode
    end.

Definition sys_mkdir : K Z :=
  begin_op;;
  path ← argstr 0 MAXPATH;
  if fst path <? 0 then end_op;; mret (-1) else
  r ← create (str_of (snd path)) T_DIR 0 0;
  match r with
  | None => end_op;; mret (-1)
  | Some ip => iunlockput ip;; end_op;; mret 0
  end.

Definition sys_mknod : K Z :=
  begin_op;;
  major ← argint 1;
  minor ← argint 2;
  path ← argstr 0 MAXPATH;
  if fst path <? 0 then end_op;; mret (-1) else
  r ← create (str_of (snd path)) T_DEVICE (i16 major) (i16 minor);
  match r with
  | None => end_op;; mret (-1)
  | Some ip => iunlockput ip;; end_op;; mret 0
  end.

Definition sys_chdir : K Z :=
  i ← curproc;
  begin_op;;
  path ← argstr 0 MAXPATH;
  if fst path <? 0 then end_op;; mret (-1) else
  r ← namei (str_of (snd path));
  match r with
  | None => end_op;; mret (-1)
  | Some ip =>
    ilock (Some ip);;
    x ← get_inode ip;
    if negb (i_type x =? T_DIR) then iunlockput ip;; end_op;; mret (-1) else
    iunlock (Some ip);;
    p ← get_proc i;
    match p_cwd p with Some c => iput c | None => panic "kerneltrap" end;;
    end_op;;
    mod_proc i (set_p_cwd (Some ip));;
    mret 0
  end.

(** Fetching the argument strings of exec into fresh pages: the pages
    allocated, and whether all went well. *)
Fixpoint fetch_argv (n : nat) (uargv i : Z) (argv : list Z) : K (list Z * bool) :=
  match n with
  | O => mret (argv, false)
  | S n' =>
    r ← fetchaddr (u64 (uargv + 8 * i));
    if fst r <? 0 then mret (argv, false) else
    if snd r =? 0 then mret (argv, true) else
    page ← kalloc;
    if page =? 0 then mret (argv, false) else
    s ← fetchstr (snd r) PGSIZE;
    kstore_bytes page (snd s);;
    if fst s <? 0 then mret (argv ++ [page], false) else
    fetch_argv n' uargv (i + 1) (argv ++ [page])
  end.
Fixpoint free_pages (l : list Z) : K unit :=
  match l with [] => mret tt | a :: l' => kfree a;; free_pages l' end.

Definition sys_exec : K Z :=
  uargv ← argaddr 1;
  path ← argstr 0 MAXPATH;
  if fst path <? 0 then mret (-1) else
  r ← fetch_argv MAXARG uargv 0 [];
  if negb (snd r) then free_pages (fst r);; mret (-1) else
  ret ← exec (str_of (snd path)) (fst r);
  free_pages (fst r);;
  mret ret.

Definition sys_pipe : K Z :=
  i ← curproc;
  fdarray ← argaddr 0;
  r ← pipealloc;
  match r with
  | None => mret (-1)
  | Some (rf, wf) =>
    fd0 ← fdalloc rf;
    fd1 ← (if fd0 <? 0 then mret (-1) else fdalloc wf);
    if (fd0 <? 0) || (fd1 <? 0) then
      kwhen (0 <=? fd0) (mod_proc i (set_fd fd0 None));;
      fileclose rf;;
      fileclose wf;;
      mret (-1)
    else
      p ← get_proc i;
      r0 ← copyout (p_pagetable p) fdarray (le_bytes 4 fd0);
      r1 ← (if r0 <? 0 then mret r0 else copyout (p_pagetable p) (u64 (fdarray + 4)) (le_bytes 4 fd1));
      if (r0 <? 0) || (r1 <? 0) then
        mod_proc i (set_fd fd0 None);;
        mod_proc i (set_fd fd1 None);;
        fileclose rf;;
        fileclose wf;;
        mret (-1)
      else mret 0
  end.
End sysfile.
