(* ===== verification/SysfileProps.v ===== *)
(** * SysfileProps: the pipe system call

    [sys_pipe] makes a pipe, two open files and two descriptors, or fails
    and gives everything back. *)

From S2P Require Import Prelude.
From S2P Require Import State.
From S2P Require Import Kernel.
From S2P Require Import Mlfq.
From S2P Require Import Sched.
From S2P Require Import SchedInv.
From S2P Require Import SchedProps.
From S2P Require Import Mem.
From S2P Require Import Kalloc.
From S2P Require Import Vm.
From S2P Require Import VmProps.
From S2P Require Import UvmProps.
From S2P Require Import Bio.
From S2P Require Import Log.
From S2P Require Import Fs.
From S2P Require Import File.
From S2P Require Import PipeProps.
From S2P Require Import Proc.
From S2P Require Import ProcVm.
From S2P Require Import ProcProps.
From S2P Require Import WaitProps.
From S2P Require Import Exec.
From S2P Require Import Sysfile.

#[local] Opaque memset store64 load64 pte_of kalloc kfree wakeup.

(** ** The first elements of a filter *)

Section first.
Context {A : Type} (P P' : A -> Prop) `{!forall x, Decision (P x), !forall x, Decision (P' x)}.
Lemma filter_ext_in (l : list A) : (forall b, b ∈ l -> P' b <-> P b) -> filter P' l = filter P l.
Proof.
  induction l as [|b l IH]; intros HP; [done|]. rewrite !filter_cons.
  assert (P' b <-> P b) as Hb by (apply HP, elem_of_cons; by left). rewrite IH by (intros c Hc; apply HP, elem_of_cons; by right).
  destruct (decide (P b)), (decide (P' b)); try done; tauto.
Qed.
(** Without the first element that satisfies [P], the others are left. *)
Lemma filter_rest a (l r : list A) : NoDup l -> filter P l = a :: r -> (forall b, b ∈ l -> P' b <-> P b /\ b <> a) -> filter P' l = r.
Proof.
  induction l as [|b l IH]; intros Hn Hl HP; [done|]. apply NoDup_cons in Hn as [Hb Hn]. rewrite filter_cons in Hl. rewrite filter_cons.
  pose proof (HP b ltac:(apply elem_of_cons; by left)) as HPb. destruct (decide (P b)) as [Hy|Hno].
  - injection Hl as -> Hl. rewrite decide_False by (rewrite HPb; clear; tauto). rewrite <- Hl. apply filter_ext_in.
    intros c Hc. rewrite HP by (apply elem_of_cons; by right). split; [tauto|]. intros ?. split; [done|congruence].
  - rewrite decide_False by tauto. apply IH; [done|done|]. intros c Hc. apply HP, elem_of_cons. by right.
Qed.
End first.

(** ** The file table *)

Definition free_files (files : list file) : list nat := filter (fun f => f_ref (nth f files file_zero) = 0) (seq 0 NFILE).
Definition set_file (f : nat) (x : file) (s : kst) : kst := set_k_files (<[f := x]> (k_files s)) s.

Lemma nth_insert (files : list file) f g x : (f < length files)%nat -> nth g (<[f := x]> files) file_zero = if decide (f = g) then x else nth g files file_zero.
Proof.
  intros Hf. rewrite !nth_lookup. case_decide as E; [subst; by rewrite list_lookup_insert_eq|]. by rewrite list_lookup_insert_ne.
Qed.
Lemma mod_file_ok f g w : mod_file f g w = Ret tt (with_k w (set_file f (g (file_at (w_k w) f)) (w_k w))).
Proof.
  unfold mod_file, kmod, set_file, with_k. do 3 f_equal. apply list_eq. intros j. destruct (decide (j = f)) as [->|Hne].
  - rewrite list_lookup_alter_eq. unfold file_at. rewrite nth_lookup. destruct (k_files (w_k w) !! f) as [x|] eqn:E.
    + rewrite list_lookup_insert_eq by (by apply lookup_lt_Some in E). done.
    + cbn. symmetry. apply lookup_ge_None. rewrite length_insert. by apply lookup_ge_None.
  - by rewrite list_lookup_alter_ne, list_lookup_insert_ne by done.
Qed.

(** A free file, once it is used. *)
Lemma free_files_used files f r x : length files = NFILE -> free_files files = f :: r -> f_ref x <> 0 ->
  (f < NFILE)%nat /\ f_ref (nth f files file_zero) = 0 /\ f ∉ r /\ free_files (<[f := x]> files) = r.
Proof.
  intros Hlen E Hx. assert (f ∈ free_files files) as Hin by (rewrite E; apply elem_of_cons; by left).
  apply list_elem_of_filter in Hin as [Hf Hs]. apply elem_of_seq in Hs. split; [lia|]. split; [done|]. split.
  - assert (NoDup (free_files files)) as Hn by apply NoDup_filter, NoDup_seq. rewrite E in Hn. by apply NoDup_cons in Hn as [? _].
  - unfold free_files in *. eapply filter_rest; [apply NoDup_seq|exact E|]. intros b _. rewrite nth_insert by lia. case_decide; [subst|]; split; intros; try tauto; split; congruence.
Qed.

Lemma filealloc_ok w : L_ftable ∉ k_held (w_k w) ->
  filealloc w = match free_files (k_files (w_k w)) with
    | f :: _ => Ret (Some f) (with_k w (set_file f (set_f_ref 1 (file_at (w_k w) f)) (w_k w)))
    | [] => Ret None w
    end.
Proof.
  intros Hl. unfold filealloc. rewrite (bind_ret _ _ _ _ _ (acquire_ok _ _ Hl)). set (w1 := with_k w _).
  assert (forall l, kfind l (fun f => x ← get_file f; if f_ref x =? 0 then mod_file f (set_f_ref 1);; release L_ftable;; mret (Some f) else mret None) w1 =
    match filter (fun f => f_ref (nth f (k_files (w_k w)) file_zero) = 0) l with
    | f :: _ => Ret (Some f) (with_k w (set_file f (set_f_ref 1 (file_at (w_k w) f)) (w_k w)))
    | [] => Ret None w1
    end) as Hk.
  { induction l as [|f l IH]; [done|]. cbn [kfind]. rewrite filter_cons. unfold get_file. rewrite bind_assoc, bind_kget. change (file_at (w_k w1) f) with (nth f (k_files (w_k w)) file_zero).
    destruct (Z.eqb_spec (f_ref (nth f (k_files (w_k w)) file_zero)) 0) as [E|E].
    - rewrite decide_True by done. rewrite bind_assoc, (bind_ret _ _ _ _ _ (mod_file_ok f (set_f_ref 1) w1)). rewrite bind_assoc. erewrite bind_ret by (by apply release_ok).
      rewrite bind_mret. unfold mret, K_ret. by f_equal.
    - rewrite decide_False by done. rewrite bind_mret. apply IH. }
  specialize (Hk (seq 0 NFILE)). fold (free_files (k_files (w_k w))) in Hk. destruct (free_files (k_files (w_k w))) as [|f r].
  - rewrite (bind_ret _ _ _ _ _ Hk). erewrite bind_ret by (by apply release_ok). unfold mret, K_ret. f_equal. unfold with_k. cbn. by destruct w as [? []].
  - by rewrite (bind_ret _ _ _ _ _ Hk).
Qed.

Lemma set_file_twice f x y s : set_file f y (set_file f x s) = set_file f y s.
Proof. unfold set_file. cbn. rewrite list_insert_insert_eq. by destruct s. Qed.
Lemma file_at_set f x s : (f < length (k_files s))%nat -> file_at (set_file f x s) f = x.
Proof. intros Hf. unfold file_at, set_file. cbn [k_files set_k_files]. rewrite nth_insert by done. by rewrite decide_True. Qed.

(** A file after its last [fileclose]. *)
Definition closed (x : file) : file := set_f_type FD_NONE (set_f_ref 0 x).

Lemma fileclose_last `{D : Disk} f w x : L_ftable ∉ k_held (w_k w) -> (f < length (k_files (w_k w)))%nat -> file_at (w_k w) f = x -> f_ref x = 1 ->
  f_type x = FD_NONE \/ f_type x = FD_PIPE ->
  fileclose f w = (if decide (f_type x = FD_PIPE) then pipeclose (f_pipe x) (negb (f_writable x =? 0)) else mret tt) (with_k w (set_file f (closed x) (w_k w))).
Proof.
  intros Hl Hf Hx Hr Ht. unfold fileclose. rewrite (bind_ret _ _ _ _ _ (acquire_ok _ _ Hl)). set (w1 := with_k w _). unfold get_file. rewrite bind_kget.
  change (file_at (w_k w1) f) with (file_at (w_k w) f). rewrite Hx, Hr. change (1 <? 1) with false. cbv iota.
  rewrite (bind_ret _ _ _ _ _ (mod_file_ok f _ w1)), bind_kget. change (file_at (w_k w1) f) with (file_at (w_k w) f). rewrite Hx, Hr. change (i32 (1 - 1)) with 0.
  set (w2 := with_k w1 _). assert (file_at (w_k w2) f = set_f_ref 0 x) as E2 by (unfold w2; cbn [w_k with_k]; by rewrite file_at_set).
  rewrite E2. change (0 <? f_ref (set_f_ref 0 x)) with false. cbv iota. rewrite (bind_ret _ _ _ _ _ (mod_file_ok f _ w2)), E2. set (w3 := with_k w2 _).
  assert (k_held (w_k w3) = L_ftable :: k_held (w_k w)) as Hh by done. rewrite (bind_ret _ _ _ _ _ (release_ok L_ftable w3 (k_held (w_k w)) Hh Hl)).
  assert (with_k w3 (set_k_held (k_held (w_k w)) (w_k w3)) = with_k w (set_file f (closed x) (w_k w))) as ->.
  { unfold w3, w2, w1. cbn [w_k with_k]. rewrite set_file_twice. unfold with_k, set_file. cbn. by destruct (w_k w). }
  change (f_type (set_f_ref 0 x)) with (f_type x). change (f_pipe (set_f_ref 0 x)) with (f_pipe x). change (f_writable (set_f_ref 0 x)) with (f_writable x).
  destruct Ht as [-> | ->]; [by rewrite decide_False|by rewrite decide_True].
Qed.

(** ** Closing both ends of a new pipe *)

(** Some sleeping processes may have been woken. *)
Record woke (ps ps' : psched) : Prop := {
  wk_inv : exists Q, sched_inv ps' Q;
  wk_same : forall j, (j < NPROC)%nat -> p_state (proc_at ps j) <> SLEEPING -> proc_at ps' j = proc_at ps j
}.
Lemma woke_refl ps Q : sched_inv ps Q -> woke ps ps.
Proof. split; [by eexists|done]. Qed.
Lemma woke_trans a b c : woke a b -> woke b c -> woke a c.
Proof. intros [_ H] [HQ H']. split; [done|]. intros j Hj Hs. pose proof (H j Hj Hs) as E. rewrite H' by (done || by rewrite E). done. Qed.

Lemma wakeup_woke c w Q : quiet (k_held (w_k w)) -> sched_inv (k_ps (w_k w)) Q ->
  exists ps' thr, wakeup c w = Ret tt (with_k w (put_ps ps' thr (w_k w))) /\ woke (k_ps (w_k w)) ps'.
Proof.
  intros Hq HQ. destruct (wakeup_loop c (seq 0 NPROC) w Q) as (ps' & thr & E & HQ' & Hp); [apply NoDup_seq|intros i Hi%elem_of_seq; lia|done|done|].
  exists ps', thr. split; [exact E|]. split; [by eexists|]. intros j Hj Hs. rewrite Hp by done. rewrite decide_False; [done|].
  intros Hin. apply list_elem_of_filter in Hin as [(_ & Hsl & _) _]. done.
Qed.

Lemma quiet_pipe pi : quiet [L_pipe pi].
Proof. split; [|intros i]; rewrite list_elem_of_singleton; discriminate. Qed.

Definition close_end (writable : bool) (x : pipe) : pipe := if writable then set_pi_writeopen 0 x else set_pi_readopen 0 x.
Lemma pipeclose_ok pi wr w x Q F : let s := w_k w in k_held s = [] -> sched_inv (k_ps s) Q -> k_pipes s !! pi = Some x ->
  alloc_inv (k_pm s) F -> valid_page (pm_end (k_pm s)) pi -> pi ∉ F -> let y := close_end wr x in
  exists ps' thr, woke (k_ps s) ps' /\
  if (pi_readopen y =? 0) && (pi_writeopen y =? 0)
  then exists pm', pipeclose pi wr w = Ret tt (with_k w (put_ps ps' thr (set_k_pipes (delete pi (k_pipes s)) (set_k_pm pm' s)))) /\ alloc_inv pm' (pi :: F) /\
    same_fields (k_pm s) pm' /\ (forall b, ~ in_page pi b -> pm_mem pm' b = pm_mem (k_pm s) b)
  else pipeclose pi wr w = Ret tt (with_k w (put_ps ps' thr (set_k_pipes (<[pi := y]> (k_pipes s)) s))).
Proof.
  intros s Hh HQ Hx HA Hv HF y. assert (k_held (w_k w) = []) as Hw0 by exact Hh. unfold pipeclose. rewrite (bind_ret _ _ _ _ _ (acquire_ok (L_pipe pi) w ltac:(rewrite Hw0; apply not_elem_of_nil))). rewrite Hw0.
  set (w1 := with_k w (set_k_held [L_pipe pi] (set_k_pipes (<[pi := y]> (k_pipes s)) s))).
  assert (pipe_at s pi = x) as Ex by (unfold pipe_at; by rewrite Hx).
  destruct (wakeup_woke (if wr then Ch_nread pi else Ch_nwrite pi) w1 Q (quiet_pipe pi) HQ) as (ps' & thr & E & Hw).
  rewrite (bind_ret _ _ _ tt (with_k w1 (put_ps ps' thr (w_k w1)))).
  2: { rewrite <- E. unfold mod_pipe. destruct wr; rewrite bind_kmod; unfold y, w1, close_end, with_k; cbn [w_k w_env]; f_equal; unfold pipe_at; cbn [k_pipes set_k_held]; fold s; by rewrite Hx. }
  exists ps', thr. split; [exact Hw|]. unfold get_pipe. rewrite bind_kget. assert (pipe_at (w_k (with_k w1 (put_ps ps' thr (w_k w1)))) pi = y) as ->.
  { unfold pipe_at. cbn. by rewrite lookup_insert_eq. }
  assert (with_k (with_k w1 (put_ps ps' thr (w_k w1))) (set_k_held [] (w_k (with_k w1 (put_ps ps' thr (w_k w1))))) =
    with_k w (put_ps ps' thr (set_k_pipes (<[pi := y]> (k_pipes s)) s))) as E1.
  { unfold w1, with_k. cbn. rewrite <- Hh. unfold s. by destruct (w_k w). }
  assert (k_held (w_k (with_k w1 (put_ps ps' thr (w_k w1)))) = [L_pipe pi]) as Hh2 by done. destruct (_ && _).
  - rewrite (bind_ret _ _ _ _ _ (release_ok (L_pipe pi) _ [] Hh2 (not_elem_of_nil _))), E1, bind_kmod. set (w2 := with_k (with_k w _) _).
    destruct (kfree_ok pi w2 F HA) as (pm' & Ek & A' & He & Ht & M); [unfold w2; cbn; fold s; rewrite Hh; apply not_elem_of_nil|done|done|].
    exists pm'. split; [|split; [done|split; [|done]]].
    + rewrite Ek. unfold w2, with_k. cbn. rewrite delete_insert_eq. by destruct s.
    + apply (kfree_same pi w2); [unfold w2; cbn; fold s; rewrite Hh; apply not_elem_of_nil|done|done].
  - rewrite (release_ok (L_pipe pi) _ [] Hh2 (not_elem_of_nil _)). by rewrite E1.
Qed.

(** The two files of a new pipe. *)
Record pipe_pair (rf wf : nat) (pi : Z) (s : kst) : Prop := {
  pp_ne : rf <> wf;
  pp_r : (rf < length (k_files s))%nat /\ f_ref (file_at s rf) = 1 /\ f_type (file_at s rf) = FD_PIPE /\ f_writable (file_at s rf) = 0 /\ f_pipe (file_at s rf) = pi;
  pp_w : (wf < length (k_files s))%nat /\ f_ref (file_at s wf) = 1 /\ f_type (file_at s wf) = FD_PIPE /\ f_writable (file_at s wf) = 1 /\ f_pipe (file_at s wf) = pi;
  pp_pipe : exists x, k_pipes s !! pi = Some x /\ pi_readopen x = 1 /\ pi_writeopen x = 1
}.

Lemma close_pair `{D : Disk} rf wf pi w Q F : let s := w_k w in k_held s = [] -> sched_inv (k_ps s) Q -> pipe_pair rf wf pi s ->
  alloc_inv (k_pm s) F -> valid_page (pm_end (k_pm s)) pi -> pi ∉ F ->
  exists ps' thr pm', (fileclose rf;; fileclose wf;; mret (-1)) w =
      Ret (-1) (with_k w (put_ps ps' thr (set_k_pipes (delete pi (k_pipes s)) (set_k_pm pm' (set_file wf (closed (file_at s wf)) (set_file rf (closed (file_at s rf)) s)))))) /\
    woke (k_ps s) ps' /\ alloc_inv pm' (pi :: F) /\ same_fields (k_pm s) pm' /\ (forall b, ~ in_page pi b -> pm_mem pm' b = pm_mem (k_pm s) b).
Proof.
  intros s Hh HQ [Hne (Rl & Rr & Rt & Rw & Rp) (Wl & Wr & Wt & Ww & Wp) (x & Hx & Xr & Xw)] HA Hv HF.
  assert (L_ftable ∉ k_held (w_k w)) as Hl by (change (k_held (w_k w)) with (k_held s); rewrite Hh; apply not_elem_of_nil).
  pose proof (fileclose_last rf w (file_at s rf) Hl Rl eq_refl Rr (or_intror Rt)) as E1. rewrite Rt, Rp, Rw, decide_True in E1 by done. change (negb (0 =? 0)) with false in E1.
  set (w1 := with_k w (set_file rf (closed (file_at s rf)) (w_k w))) in *.
  destruct (pipeclose_ok pi false w1 x Q F Hh HQ Hx HA Hv HF) as (ps1 & thr1 & K1 & P1). cbn [close_end pi_readopen pi_writeopen set_pi_readopen] in P1. rewrite Xw in P1. change (_ && _) with false in P1. cbv iota in P1.
  rewrite P1 in E1. rewrite (bind_ret _ _ _ _ _ E1). set (w2 := with_k w1 _).
  assert (file_at (w_k w2) wf = file_at s wf) as Ew by (unfold file_at, w2, w1; cbn; rewrite nth_insert by done; by rewrite decide_False).
  assert (wf < length (k_files (w_k w2)))%nat as Wl2 by (unfold w2, w1; cbn; by rewrite length_insert).
  pose proof (fileclose_last wf w2 (file_at s wf) Hl Wl2 Ew Wr (or_intror Wt)) as E2. rewrite Wt, Wp, Ww, decide_True in E2 by done. change (negb (1 =? 0)) with true in E2.
  set (w3 := with_k w2 (set_file wf (closed (file_at s wf)) (w_k w2))) in *. destruct (wk_inv _ _ K1) as [Q1 HQ1].
  destruct (pipeclose_ok pi true w3 (set_pi_readopen 0 x) Q1 F Hh HQ1) as (ps2 & thr2 & K2 & P2); [by cbn; rewrite lookup_insert_eq|done|done|done|].
  cbn [close_end pi_readopen pi_writeopen set_pi_readopen set_pi_writeopen] in P2. change (_ && _) with true in P2. cbv iota in P2. destruct P2 as (pm' & P2 & A' & S' & M').
  rewrite P2 in E2. rewrite (bind_ret _ _ _ _ _ E2). exists ps2, thr2, pm'. split; [|split; [by eapply woke_trans|by split]].
  unfold mret, K_ret, w3, w2, w1, with_k, set_file. generalize (closed (file_at s wf)), (closed (file_at s rf)). intros y z. cbn. rewrite delete_insert_eq. reflexivity.
Qed.

(** ** Descriptors *)

Definition free_fds (ofs : list (option nat)) : list nat := filter (fun d => nth d ofs None = None) (seq 0 (length ofs)).

Lemma fd_scan_first l : forall a, fd_scan l (Z.of_nat a) = Z.of_nat <$> hd_error (filter (fun d => nth (d - a)%nat l None = None) (seq a (length l))).
Proof.
  induction l as [|o l IH]; intros a; [done|]. cbn [fd_scan length seq]. rewrite filter_cons. rewrite Nat.sub_diag. cbn [nth].
  destruct o as [f|]; [|by rewrite decide_True]. rewrite decide_False by done. replace (Z.of_nat a + 1) with (Z.of_nat (S a)) by lia. rewrite IH.
  do 2 f_equal. apply filter_ext_in. intros d Hd%elem_of_seq. replace (d - a)%nat with (S (d - S a)) by lia. done.
Qed.

Lemma free_fds_used ofs d r f : free_fds ofs = d :: r -> (d < length ofs)%nat /\ nth d ofs None = None /\ free_fds (<[d := Some f]> ofs) = r.
Proof.
  intros E. assert (d ∈ free_fds ofs) as Hin by (rewrite E; apply elem_of_cons; by left). apply list_elem_of_filter in Hin as [Hd Hs]. apply elem_of_seq in Hs.
  split; [lia|]. split; [done|]. unfold free_fds in *. rewrite length_insert. eapply filter_rest; [apply NoDup_seq|exact E|]. intros b _. rewrite !nth_lookup.
  destruct (decide (b = d)) as [->|Hne].
  - rewrite list_lookup_insert_eq by lia. cbn. split; [done|tauto].
  - rewrite list_lookup_insert_ne by done. tauto.
Qed.

Lemma fdalloc_ok f i w : k_cur (w_k w) = Some i ->
  fdalloc f w = match free_fds (p_ofile (proc_at (k_ps (w_k w)) i)) with
    | d :: _ => Ret (Z.of_nat d) (with_k w (set_k_ps (upd_proc i (set_fd (Z.of_nat d) (Some f)) (k_ps (w_k w))) (w_k w)))
    | [] => Ret (-1) w
    end.
Proof.
  intros Hc. unfold fdalloc. rewrite (bind_ret _ _ _ _ _ (curproc_ok w i Hc)). unfold get_proc. rewrite bind_kget.
  pose proof (fd_scan_first (p_ofile (proc_at (k_ps (w_k w)) i)) 0) as E. change (Z.of_nat 0) with 0 in E. rewrite E.
  assert (filter (fun d => nth (d - 0)%nat (p_ofile (proc_at (k_ps (w_k w)) i)) None = None) (seq 0 (length (p_ofile (proc_at (k_ps (w_k w)) i)))) = free_fds (p_ofile (proc_at (k_ps (w_k w)) i))) as ->.
  { apply filter_ext_in. intros d _. by rewrite Nat.sub_0_r. }
  by destruct (free_fds _).
Qed.

(** Setting a free descriptor and clearing it again. *)
Lemma set_fd_twice d x y p : set_fd d y (set_fd d x p) = set_fd d y p.
Proof. unfold set_fd, aset. cbn. by rewrite list_insert_insert_eq. Qed.
Lemma set_fd_comm d e x y p : 0 <= d -> 0 <= e -> d <> e -> set_fd d x (set_fd e y p) = set_fd e y (set_fd d x p).
Proof. intros Hd He Hne. unfold set_fd, aset. cbn. rewrite (list_insert_insert_ne (p_ofile p) (Z.to_nat e)); [done|lia]. Qed.
Lemma set_fd_none d p : nth d (p_ofile p) None = None -> (d < length (p_ofile p))%nat -> set_fd (Z.of_nat d) None p = p.
Proof.
  intros E Hd. assert (<[d := None]> (p_ofile p) = p_ofile p) as Ei; [|unfold set_fd, aset; rewrite Nat2Z.id, Ei; by destruct p]. apply list_insert_id. destruct (lookup_lt_is_Some_2 _ _ Hd) as [x Hx].
  rewrite nth_lookup, Hx in E. cbn in E. by subst.
Qed.

(** ** pipealloc *)

(** Files in use are as before, and as many are free. *)
Record files_kept (files files' : list file) : Prop := {
  fk_length : length files' = length files;
  fk_same : forall f, f_ref (nth f files' file_zero) = f_ref (nth f files file_zero) /\
    (f_ref (nth f files file_zero) <> 0 -> nth f files' file_zero = nth f files file_zero) /\
    (f_ref (nth f files file_zero) = 0 -> f_type (nth f files' file_zero) = FD_NONE)
}.
Definition free_none (files : list file) : Prop := forall f, f_ref (nth f files file_zero) = 0 -> f_type (nth f files file_zero) = FD_NONE.

Lemma files_kept_refl files : free_none files -> files_kept files files.
Proof. intros H. split; [done|]. intros f. split_and!; [done|done|apply H]. Qed.
Lemma files_kept_closed files files' f x : files_kept files files' -> (f < length files)%nat -> f_ref (nth f files file_zero) = 0 ->
  files_kept files (<[f := closed x]> files').
Proof.
  intros [Hl Hk] Hf Hr. split; [by rewrite length_insert|]. intros g. rewrite nth_insert by lia. case_decide as E; [subst g|apply Hk].
  split_and!; [by rewrite Hr|done|done].
Qed.

(** The two ends as [pipealloc] fills them in. *)
Definition read_end (pi : Z) (x : file) : file := set_f_pipe pi (set_f_writable 0 (set_f_readable 1 (set_f_type FD_PIPE (set_f_ref 1 x)))).
Definition write_end (pi : Z) (x : file) : file := set_f_pipe pi (set_f_writable 1 (set_f_readable 0 (set_f_type FD_PIPE (set_f_ref 1 x)))).
Definition new_pipe (m : Z -> Z) (pi : Z) : pipe := Pipe (bytes m (pi + 24) (Z.to_nat PIPESIZE)) 0 0 1 1.

Definition put_ends (rf wf : nat) (pi : Z) (s : kst) : kst := set_file wf (write_end pi (file_at s wf)) (set_file rf (read_end pi (file_at s rf)) s).

(** The state after [kalloc] took the page [pi] from [F]. *)
Record took_page (pm : physmem) (pi : Z) (F1 : list Z) (pm1 : physmem) : Prop := {
  tp_alloc : alloc_inv pm1 F1;
  tp_valid : valid_page (pm_end pm) pi;
  tp_fresh : pi ∉ F1;
  tp_fields : same_fields pm pm1;
  tp_mem : forall b, ~ in_page pi b -> pm_mem pm1 b = pm_mem pm b
}.
Lemma kalloc_took w pi F1 : alloc_inv (k_pm (w_k w)) (pi :: F1) -> L_kmem ∉ k_held (w_k w) ->
  pi <> 0 /\ exists pm1, kalloc w = Ret pi (with_k w (set_k_pm pm1 (w_k w))) /\ took_page (k_pm (w_k w)) pi F1 pm1.
Proof.
  intros HA Hl. destruct (kalloc_ok w _ HA Hl) as (pm1 & E & H0 & A1 & He & Ht & M & Sh). split; [done|]. exists pm1. split; [exact E|].
  pose proof (ai_nodup _ _ HA) as Hn. apply NoDup_cons in Hn as [Hn _]. split; [done|apply (ai_valid _ _ HA), elem_of_cons; by left|done|rewrite Sh; by split|].
  intros b Hb. rewrite M. by rewrite decide_False.
Qed.

Lemma file_at_other f g x s : f <> g -> file_at (set_file f x s) g = file_at s g.
Proof. intros Hne. unfold file_at, set_file. cbn [k_files set_k_files]. rewrite !nth_lookup. by rewrite list_lookup_insert_ne. Qed.
Lemma set_file_comm f g x y s : f <> g -> set_file f x (set_file g y s) = set_file g y (set_file f x s).
Proof. intros Hne. unfold set_file. cbn. by rewrite list_insert_insert_ne. Qed.
Lemma length_set_file f x s : length (k_files (set_file f x s)) = length (k_files s).
Proof. apply length_insert. Qed.

(** Closing a file that is not a pipe yet. *)
Lemma fileclose_none `{D : Disk} f w : L_ftable ∉ k_held (w_k w) -> (f < length (k_files (w_k w)))%nat -> f_ref (file_at (w_k w) f) = 1 ->
  f_type (file_at (w_k w) f) = FD_NONE -> fileclose f w = Ret tt (with_k w (set_file f (closed (file_at (w_k w) f)) (w_k w))).
Proof. intros Hl Hf Hr Ht. rewrite (fileclose_last f w _ Hl Hf eq_refl Hr (or_introl Ht)). by rewrite decide_False by (by rewrite Ht). Qed.

Section pipealloc.
Context `{D : Disk} (w : world).
Let s := w_k w.
Hypothesis (Hh : k_held s = []) (Hlen : length (k_files s) = NFILE) (Hfn : free_none (k_files s)).

Definition alloc_file (f : nat) (s : kst) : kst := set_file f (set_f_ref 1 (file_at s f)) s.

(** Giving back one or two new files. *)
Lemma undo_one rf : (rf < NFILE)%nat -> f_ref (file_at s rf) = 0 -> exists files', files_kept (k_files s) files' /\
  (fileclose rf;; mret (M := K) (A := option (nat * nat)) None) (with_k w (alloc_file rf s)) = Ret None (with_k w (set_k_files files' s)).
Proof.
  intros Hl H0. exists (<[rf := closed (file_at s rf)]> (k_files s)). split; [apply files_kept_closed; [by apply files_kept_refl|lia|done]|].
  set (w1 := with_k w (alloc_file rf s)). assert (file_at (w_k w1) rf = set_f_ref 1 (file_at s rf)) as E by (apply file_at_set; lia).
  rewrite (bind_ret _ _ _ _ _ (fileclose_none rf w1 ltac:(change (k_held (w_k w1)) with (k_held s); rewrite Hh; apply not_elem_of_nil)
    ltac:(unfold w1; cbn [w_k with_k]; unfold alloc_file; rewrite length_set_file; lia) ltac:(by rewrite E) ltac:(rewrite E; by apply Hfn))).
  rewrite E. unfold w1, alloc_file. cbn [w_k with_k]. by rewrite set_file_twice.
Qed.
Lemma undo_two rf wf : rf <> wf -> (rf < NFILE)%nat -> (wf < NFILE)%nat -> f_ref (file_at s rf) = 0 -> f_ref (file_at s wf) = 0 -> exists files', files_kept (k_files s) files' /\
  (fileclose rf;; fileclose wf;; mret (M := K) (A := option (nat * nat)) None) (with_k w (alloc_file wf (alloc_file rf s))) = Ret None (with_k w (set_k_files files' s)).
Proof.
  intros Hne Hr Hw R0 W0. exists (<[wf := closed (file_at s wf)]> (<[rf := closed (file_at s rf)]> (k_files s))).
  split; [apply files_kept_closed; [apply files_kept_closed; [by apply files_kept_refl|lia|done]|lia|done]|].
  set (w1 := with_k w _). assert (length (k_files (w_k w1)) = NFILE) as L1 by (unfold w1; cbn [w_k with_k]; unfold alloc_file; by rewrite !length_set_file).
  assert (file_at (w_k w1) rf = set_f_ref 1 (file_at s rf)) as E.
  { unfold w1. cbn [w_k with_k]. unfold alloc_file at 1. rewrite file_at_other by done. apply file_at_set. lia. }
  rewrite (bind_ret _ _ _ _ _ (fileclose_none rf w1 ltac:(change (k_held (w_k w1)) with (k_held s); rewrite Hh; apply not_elem_of_nil) ltac:(lia) ltac:(by rewrite E) ltac:(rewrite E; by apply Hfn))).
  set (w2 := with_k w1 _). assert (file_at (w_k w2) wf = set_f_ref 1 (file_at s wf)) as E2.
  { unfold w2. cbn [w_k with_k]. rewrite file_at_other by done. unfold w1. cbn [w_k with_k]. unfold alloc_file. rewrite file_at_set by (rewrite length_set_file; lia). by rewrite file_at_other. }
  rewrite (bind_ret _ _ _ _ _ (fileclose_none wf w2 ltac:(change (k_held (w_k w2)) with (k_held s); rewrite Hh; apply not_elem_of_nil) ltac:(unfold w2; cbn [w_k with_k]; rewrite length_set_file; lia) ltac:(by rewrite E2) ltac:(rewrite E2; by apply Hfn))).
  rewrite E2. unfold w2. rewrite E. unfold w1, alloc_file. cbn [w_k with_k]. rewrite (set_file_comm rf wf) by done. rewrite set_file_twice. by rewrite set_file_twice.
Qed.

Lemma pipealloc_ok F : alloc_inv (k_pm s) F ->
  match free_files (k_files s), F with
  | rf :: wf :: _, pi :: F1 => exists pm1, took_page (k_pm s) pi F1 pm1 /\ pi <> 0 /\
      pipealloc w = Ret (Some (rf, wf)) (with_k w (put_ends rf wf pi (set_k_pipes (<[pi := new_pipe (pm_mem pm1) pi]> (k_pipes s)) (set_k_pm pm1 s))))
  | _, _ => exists files', files_kept (k_files s) files' /\ pipealloc w = Ret None (with_k w (set_k_files files' s))
  end.
Proof.
  intros HA. assert (forall l, l ∉ k_held s) as Hl by (intros l; rewrite Hh; apply not_elem_of_nil).
  unfold pipealloc. pose proof (filealloc_ok w (Hl _)) as E1. change (w_k w) with s in E1.
  destruct (free_files (k_files s)) as [|rf r] eqn:Ef.
  { exists (k_files s). split; [by apply files_kept_refl|]. rewrite (bind_ret _ _ _ _ _ E1). unfold mret, K_ret, s, with_k. by destruct w as [? []]. }
  rewrite (bind_ret _ _ _ _ _ E1). fold (alloc_file rf s). set (w1 := with_k w (alloc_file rf s)).
  destruct (free_files_used (k_files s) rf r (set_f_ref 1 (file_at s rf)) Hlen Ef ltac:(done)) as (Hrl & Hr0 & Hrr & Ef1).
  pose proof (filealloc_ok w1 (Hl _)) as E2. change (k_files (w_k w1)) with (<[rf := set_f_ref 1 (file_at s rf)]> (k_files s)) in E2. rewrite Ef1 in E2.
  destruct r as [|wf r]; [rewrite (bind_ret _ _ _ _ _ E2); by apply undo_one|].
  rewrite (bind_ret _ _ _ _ _ E2). fold (alloc_file wf (w_k w1)). set (w2 := with_k w1 _).
  assert (rf <> wf) as Hne by (rewrite not_elem_of_cons in Hrr; tauto).
  assert (free_files (k_files s) = rf :: wf :: r) as Ef' by done.
  assert (wf ∈ free_files (k_files s)) as Hwf by (rewrite Ef', !elem_of_cons; tauto). apply list_elem_of_filter in Hwf as [Hw0 Hwl]. apply elem_of_seq in Hwl.
  destruct F as [|pi F1].
  - rewrite (bind_ret _ _ _ _ _ (kalloc_ok w2 [] HA (Hl _))). change (0 =? 0) with true. cbv iota. apply undo_two; (done || lia).
  - destruct (kalloc_took w2 pi F1 HA (Hl _)) as (Hpi & pm1 & Ek & TP). rewrite (bind_ret _ _ _ _ _ Ek). rewrite (proj2 (Z.eqb_neq pi 0)) by done.
    exists pm1. split; [exact TP|]. split; [done|]. rewrite bind_kget, bind_kmod. set (w3 := with_k _ _).
    assert (w_k w3 = alloc_file wf (alloc_file rf (set_k_pipes (<[pi := new_pipe (pm_mem pm1) pi]> (k_pipes s)) (set_k_pm pm1 s)))) as E3 by reflexivity.
    set (s0 := set_k_pipes _ (set_k_pm pm1 s)) in *. assert (length (k_files s0) = NFILE) as L0 by exact Hlen.
    rewrite (bind_ret _ _ _ _ _ (mod_file_ok rf _ w3)). set (w4 := with_k w3 _). rewrite (bind_ret _ _ _ _ _ (mod_file_ok wf _ w4)). unfold mret, K_ret. do 2 f_equal.
    unfold w4. cbn [w_k with_k]. rewrite E3. clearbody s0. clear E3 w3 w4 w2 w1 E1 E2 Ek TP. rewrite (file_at_other rf wf) by done. unfold alloc_file. rewrite !(file_at_other rf wf) by done.
    rewrite (file_at_set wf) by (rewrite length_set_file; lia). rewrite !(file_at_other wf rf) by done. rewrite (file_at_set rf) by lia.
    rewrite (set_file_comm rf wf) by done. rewrite set_file_twice, (set_file_twice rf). done.
Qed.
End pipealloc.

(** ** Writing the descriptors *)

(** A page taken from the free list leaves user memory in place. *)
Lemma took_user pm pi F1 pm1 pt T : vm_inv pm (pi :: F1) pt T -> took_page pm pi F1 pm1 ->
  vm_inv pm1 F1 pt T /\ (forall va, leaf pm1 T va = leaf pm T va) /\ (forall va n, user_range pm (pi :: F1) T va n -> user_range pm1 F1 T va n) /\
  (forall va, refused pm T va -> refused pm1 T va).
Proof.
  intros H [A V Fr S M]. destruct (vm_inv_ext pm pm1 (pi :: F1) F1 pt T H A (sf_end _ _ S)) as [H1 L].
  - intros n p Hn HF. apply (vi_page _ _ _ _ H n p Hn). apply elem_of_cons. by right.
  - intros b (n & q & Hn & Hq). apply M. destruct (vi_page _ _ _ _ H n q Hn) as [Vq Fq].
    apply (page_disjoint (pm_end pm) q); [done|done|intros ->; apply Fq, elem_of_cons; by left|done].
  - split; [done|]. split; [done|]. split.
    + intros va n [U1 U2 U3 U4]. split; [done|..].
      * intros v Hv. rewrite L. by apply U2.
      * intros v Hv. rewrite L, (sf_end _ _ S). destruct (U3 v Hv) as (? & HF & ?). rewrite not_elem_of_cons in HF. tauto.
      * intros v v' Hv Hv'. rewrite !L. by apply U4.
    + intros va [Hr|[Hr Hp]]; [by left|right; split; [done|by rewrite L]].
Qed.

Lemma refused_range pm F T va n : refused pm T va -> 0 < n -> ~ user_range pm F T va n.
Proof.
  intros [Hr|[Hr Hp]] Hn [[Hva Hva'] Hu _ _]; [lia|]. destruct (Hu va) as [E1 E2]; [lia|]. by rewrite E1, E2 in Hp.
Qed.

Section words.
Context (pt : Z) (F : list Z) (T : tree) (a : Z) (s0 s1 : list Z) (w : world).
Let pm := k_pm (w_k w).
Hypothesis (H : vm_inv pm F pt T) (L0 : length s0 = 4%nat) (L1 : length s1 = 4%nat).
Hypothesis (B0 : Forall (fun x => 0 <= x < 256) s0) (B1 : Forall (fun x => 0 <= x < 256) s1).

Definition put_mem (m' : mem) : world := with_k w (set_k_pm (set_pm_mem m' pm) (w_k w)).
Definition two_copies : K (Z * Z) :=
  r0 ← copyout pt a s0;
  r1 ← (if r0 <? 0 then mret r0 else copyout pt (u64 (a + 4)) s1);
  mret (r0, r1).

Lemma words_ok : user_range pm F T a 8 -> exists m', two_copies w = Ret (0, 0) (put_mem m') /\ vm_inv (set_pm_mem m' pm) F pt T /\ wrote pm T a (s0 ++ s1) m'.
Proof.
  intros HU. pose proof (ur_va _ _ _ _ _ HU) as Hva. assert (u64 (a + 4) = a + 4) as Ea by (apply u64_small; change MAXVA with 274877906944 in Hva; lia).
  assert (user_range pm F T a 4) as U0 by (eapply user_range_sub; [exact HU|lia..]). assert (user_range pm F T (a + 4) 4) as U1 by (eapply user_range_sub; [exact HU|lia..]).
  destruct (copyout_loop_ok pt F T 4 s0 a w H) as (m0 & E0 & H0 & Lf0 & In0 & Out0); [by rewrite L0|done|lia|]. fold pm in E0, H0, Lf0, In0, Out0.
  set (w1 := put_mem m0). destruct (copyout_loop_ok pt F T 4 s1 (a + 4) w1 H0) as (m1 & E1 & H1 & _ & In1 & Out1); [rewrite L1; apply user_range_mem; [exact Lf0|exact U1]|done|lia|].
  change (k_pm (w_k w1)) with (set_pm_mem m0 pm) in *. unfold two_copies, copyout. rewrite L0, L1, Ea. rewrite (bind_ret _ _ _ _ _ E0). change (0 <? 0) with false. cbv iota.
  unfold put_mem in w1. rewrite (bind_ret _ _ w1 _ _ E1). exists m1. split; [reflexivity|]. split; [exact H1|]. rewrite L0 in In0, Out0. rewrite L1 in In1, Out1.
  assert (forall v, 0 <= v -> phys (set_pm_mem m0 pm) T v = phys pm T v) as Ep by (intros v Hv; unfold phys; by rewrite Lf0). split.
  - intros k Hk. rewrite length_app, L0, L1 in Hk. unfold aget. destruct (Z.lt_ge_cases k 4) as [Hlt|Hge].
    + rewrite Out1. { cbn [pm_mem set_pm_mem]. rewrite In0 by lia. unfold aget. by rewrite app_nth1 by lia. }
      intros j Hj E. rewrite Ep in E by lia. apply (phys_inj _ _ _ _ _ _ _ HU) in E; lia.
    + replace (a + k) with (a + 4 + (k - 4)) by lia. rewrite <- (Ep (a + 4 + (k - 4))) by lia. rewrite In1 by lia. unfold aget. rewrite app_nth2 by lia. rewrite L0. f_equal. lia.
  - intros b Hb. rewrite length_app, L0, L1 in Hb. rewrite Out1; [cbn [pm_mem set_pm_mem]; apply Out0; intros k Hk; apply Hb; lia|].
    intros k Hk. rewrite Ep by lia. replace (a + 4 + k) with (a + (4 + k)) by lia. apply Hb. lia.
Qed.

Lemma words_refused : refused pm T a \/ user_range pm F T a 4 /\ refused pm T (u64 (a + 4)) ->
  exists r m', two_copies w = Ret r (put_mem m') /\ ((fst r <? 0) || (snd r <? 0) = true) /\ is_bytes m' /\ alloc_inv (set_pm_mem m' pm) F /\
    (forall b, (user_range pm F T a 4 -> forall k, 0 <= k < 4 -> b <> phys pm T (a + k)) -> m' b = pm_mem pm b).
Proof.
  clear B1. intros [Hr|[HU Hr]]; unfold two_copies.
  - exists (-1, -1), (pm_mem pm). assert (s0 <> []) as Hs by (intros ->; done). rewrite (bind_ret _ _ _ _ _ (copyout_refused pt F T a s0 w H Hr Hs)). split.
    { unfold put_mem, with_k, pm. by destruct w as [? [? ? ? []]]. }
    split; [done|]. pose proof (vi_alloc _ _ _ _ H) as A. split; [apply A|]. split; [|done]. by destruct A.
  - destruct (copyout_loop_ok pt F T 4 s0 a w H) as (m0 & E0 & H0 & Lf0 & In0 & Out0); [by rewrite L0|done|lia|]. fold pm in E0, H0, Lf0, In0, Out0.
    exists (0, -1), m0. assert (copyout pt a s0 w = Ret 0 (put_mem m0)) as E by (unfold copyout; rewrite L0; exact E0). rewrite (bind_ret _ _ _ _ _ E). change (0 <? 0) with false. cbv iota.
    assert (refused (k_pm (w_k (put_mem m0))) T (u64 (a + 4))) as Hr' by (destruct Hr as [Hr|[Hr Hp]]; [by left|right; split; [done|by rewrite Lf0 by lia]]).
    assert (s1 <> []) as Hs by (intros ->; done). rewrite (bind_ret _ _ _ _ _ (copyout_refused pt F T _ s1 (put_mem m0) H0 Hr' Hs)).
    split; [done|]. split; [done|]. split; [apply (ai_bytes _ _ (vi_alloc _ _ _ _ H0))|]. split; [apply (vi_alloc _ _ _ _ H0)|].
    intros b Hb. apply Out0. rewrite L0. by apply Hb.
Qed.
End words.

(** ** sys_pipe *)

(** Process [i] is running without locks; [F] are the free pages and [T]
    its page table. *)
Record pipe_ready (i : nat) (Q : queues) (F : list Z) (T : tree) (s : kst) : Prop := {
  pr_held : k_held s = [];
  pr_cur : k_cur s = Some i;
  pr_lt : (i < NPROC)%nat;
  pr_sched : sched_inv (k_ps s) Q;
  pr_vm : vm_inv (k_pm s) F (p_pagetable (proc_at (k_ps s) i)) T;
  pr_files : length (k_files s) = NFILE;
  pr_free : free_none (k_files s);
  pr_pipes : forall a, a ∈ F -> k_pipes s !! a = None
}.

(** Everything is given back: the state is as before, but that sleeping
    processes may have been woken, unused files and pages may have other
    contents, and the first descriptor may have been written. *)
Record pipe_undone (F : list Z) (T : tree) (a : Z) (s : kst) (ps' : psched) (files' : list file) (pm' : physmem) : Prop := {
  pu_woke : woke (k_ps s) ps';
  pu_files : files_kept (k_files s) files';
  pu_alloc : alloc_inv pm' F;
  pu_fields : same_fields (k_pm s) pm';
  pu_mem : forall b, (forall p, p ∈ F -> ~ in_page p b) -> (user_range (k_pm s) F T a 4 -> forall k, 0 <= k < 4 -> b <> phys (k_pm s) T (a + k)) ->
    pm_mem pm' b = pm_mem (k_pm s) b
}.
Definition pipe_failed (F : list Z) (T : tree) (a : Z) (w : world) (r : res Z) : Prop :=
  exists ps' thr files' pm', r = Ret (-1) (with_k w (put_ps ps' thr (set_k_files files' (set_k_pm pm' (w_k w))))) /\ pipe_undone F T a (w_k w) ps' files' pm'.

(** A pipe in page [pi], files [rf] and [wf], descriptors [d0] and [d1]. *)
Definition pipe_made (i rf wf d0 d1 : nat) (pi a : Z) (F1 : list Z) (T : tree) (w : world) (r : res Z) : Prop :=
  let s := w_k w in
  exists pm' x, r = Ret 0 (with_k w (set_k_ps (upd_proc i (fun p => set_fd (Z.of_nat d1) (Some wf) (set_fd (Z.of_nat d0) (Some rf) p)) (k_ps s))
      (put_ends rf wf pi (set_k_pipes (<[pi := x]> (k_pipes s)) (set_k_pm pm' s))))) /\
    pipe_ok x /\ pipe_bytes x = [] /\ pi_readopen x = 1 /\ pi_writeopen x = 1 /\
    alloc_inv pm' F1 /\ same_fields (k_pm s) pm' /\ vm_inv pm' F1 (p_pagetable (proc_at (k_ps s) i)) T /\
    (forall k, 0 <= k < 8 -> pm_mem pm' (phys (k_pm s) T (a + k)) = aget 0 (le_bytes 4 (Z.of_nat d0) ++ le_bytes 4 (Z.of_nat d1)) k) /\
    (forall b, ~ in_page pi b -> (forall k, 0 <= k < 8 -> b <> phys (k_pm s) T (a + k)) -> pm_mem pm' b = pm_mem (k_pm s) b).

Lemma le_bytes_4 v : length (le_bytes 4 v) = 4%nat.
Proof. done. Qed.

Lemma new_pipe_ok m pi : is_bytes m -> pipe_ok (new_pipe m pi) /\ pipe_bytes (new_pipe m pi) = [].
Proof.
  intros Hm. split; [|done]. split; cbn [new_pipe pi_data pi_nread pi_nwrite].
  - unfold bytes. by rewrite length_fmap, length_seq.
  - apply Forall_forall. intros b Hb. unfold bytes in Hb. apply list_elem_of_fmap in Hb as (k & -> & _). apply Hm.
  - lia.
  - lia.
  - by vm_compute.
Qed.

Section sys_pipe.
Context `{D : Disk} (i : nat) (Q : queues) (F1 : list Z) (T : tree) (a pi : Z) (rf wf : nat) (r : list nat) (w : world).
Let s := w_k w.
Let F := pi :: F1.
Hypothesis (HR : pipe_ready i Q F T s) (Hrw : free_files (k_files s) = rf :: wf :: r).

(** The state with the new pipe and memory [pm2]. *)
Definition with_ends (x : pipe) (pm2 : physmem) : kst := put_ends rf wf pi (set_k_pipes (<[pi := x]> (k_pipes s)) (set_k_pm pm2 s)).

Lemma two_files : rf <> wf /\ (rf < NFILE)%nat /\ (wf < NFILE)%nat /\ f_ref (file_at s rf) = 0 /\ f_ref (file_at s wf) = 0.
Proof.
  assert (NoDup (free_files (k_files s))) as Hn by apply NoDup_filter, NoDup_seq. rewrite Hrw in Hn. apply NoDup_cons in Hn as [Hn _]. rewrite not_elem_of_cons in Hn.
  assert (rf ∈ free_files (k_files s)) as H1 by (rewrite Hrw, !elem_of_cons; tauto). assert (wf ∈ free_files (k_files s)) as H2 by (rewrite Hrw, !elem_of_cons; tauto).
  apply list_elem_of_filter in H1 as [R0 H1%elem_of_seq]. apply list_elem_of_filter in H2 as [W0 H2%elem_of_seq]. split_and!; try lia; tauto.
Qed.

Lemma put_ends_pair x pm2 : pi_readopen x = 1 -> pi_writeopen x = 1 -> pipe_pair rf wf pi (with_ends x pm2).
Proof.
  intros Hr Hw. destruct two_files as (Hne & Hrl & Hwl & _ & _). pose proof (pr_files _ _ _ _ _ HR) as Hlen. unfold with_ends. set (s0 := set_k_pipes _ _).
  assert (length (k_files s0) = NFILE) as L0 by exact Hlen. assert (k_pipes s0 !! pi = Some x) as Hp by (cbn; by rewrite lookup_insert_eq). clearbody s0. unfold put_ends.
  split; [done|..].
  - rewrite !length_set_file, L0. split; [done|]. rewrite file_at_other by done. by rewrite file_at_set by lia.
  - rewrite !length_set_file, L0. split; [done|]. by rewrite file_at_set by (rewrite length_set_file; lia).
  - by exists x.
Qed.

Lemma undo x pm2 : pi_readopen x = 1 -> pi_writeopen x = 1 -> alloc_inv pm2 F1 -> same_fields (k_pm s) pm2 ->
  (forall b, ~ in_page pi b -> (user_range (k_pm s) F T a 4 -> forall k, 0 <= k < 4 -> b <> phys (k_pm s) T (a + k)) -> pm_mem pm2 b = pm_mem (k_pm s) b) ->
  pipe_failed F T a w ((fileclose rf;; fileclose wf;; mret (-1)) (with_k w (with_ends x pm2))).
Proof.
  intros Xr Xw A S M. destruct two_files as (Hne & Hrl & Hwl & R0 & W0). pose proof (pr_files _ _ _ _ _ HR) as Hlen.
  pose proof (vi_alloc _ _ _ _ (pr_vm _ _ _ _ _ HR)) as HA. assert (valid_page (pm_end (k_pm s)) pi) as Hv by (apply (ai_valid _ _ HA), elem_of_cons; by left).
  pose proof (ai_nodup _ _ HA) as Hnd. apply NoDup_cons in Hnd as [Hpi _].
  destruct (close_pair rf wf pi (with_k w (with_ends x pm2)) Q F1) as (ps' & thr & pm' & E & Hw & A' & S' & M').
  - apply (pr_held _ _ _ _ _ HR).
  - apply (pr_sched _ _ _ _ _ HR).
  - by apply put_ends_pair.
  - exact A.
  - change (valid_page (pm_end pm2) pi). by rewrite (sf_end _ _ S).
  - exact Hpi.
  - change (w_k (with_k w (with_ends x pm2))) with (with_ends x pm2) in *. change (k_ps (with_ends x pm2)) with (k_ps s) in Hw. change (k_pm (with_ends x pm2)) with pm2 in *.
    exists ps', thr, (<[wf := closed (file_at (with_ends x pm2) wf)]> (<[rf := closed (file_at (with_ends x pm2) rf)]> (k_files s))), pm'. split.
    + rewrite E. f_equal. unfold with_k. cbn [w_env]. f_equal. change (w_k w) with s. generalize (closed (file_at (with_ends x pm2) wf)), (closed (file_at (with_ends x pm2) rf)). intros y z.
      unfold with_ends, put_ends, set_file. cbn [k_files set_k_files set_k_pm set_k_pipes k_pipes]. rewrite delete_insert_id by (apply (pr_pipes _ _ _ _ _ HR), elem_of_cons; by left).
      rewrite (list_insert_insert_ne _ rf wf) by done. rewrite !list_insert_insert_eq. generalize dependent s. intros s0 _. by destruct s0.
    + split; [done| |done|by etransitivity|].
      * assert (length (k_files (w_k w)) = NFILE) as Hlen' by exact Hlen. apply files_kept_closed; [apply files_kept_closed; [apply files_kept_refl, (pr_free _ _ _ _ _ HR)|lia|done]|lia|done].
      * intros b Hb Hk. assert (~ in_page pi b) as Hbp by (apply Hb, elem_of_cons; by left). rewrite M' by done. by apply M.
Qed.
End sys_pipe.

Lemma copies_bind {B} pt a s0 s1 (g : Z -> Z -> K B) r w w' : two_copies pt a s0 s1 w = Ret r w' ->
  (r0 ← copyout pt a s0; r1 ← (if r0 <? 0 then mret r0 else copyout pt (u64 (a + 4)) s1); g r0 r1) w = g (fst r) (snd r) w'.
Proof.
  intros E. unfold two_copies, mbind, K_bind, mret, K_ret in *. destruct (copyout pt a s0 w) as [r0 w1|? ?|?|?]; try discriminate.
  destruct (r0 <? 0); [by injection E as <- <-|]. destruct (copyout pt (u64 (a + 4)) s1 w1) as [r1 w2|? ?|?|?]; try discriminate. by injection E as <- <-.
Qed.

Lemma sys_pipe_alloc `{D : Disk} i a w r : k_cur (w_k w) = Some i -> tf_a0 (trapframe_of (w_k w) i) = a ->
  forall w', pipealloc w = Ret r w' -> sys_pipe w = match r with
  | None => Ret (-1) w'
  | Some (rf, wf) => (fd0 ← fdalloc rf;
    fd1 ← (if fd0 <? 0 then mret (-1) else fdalloc wf);
    if (fd0 <? 0) || (fd1 <? 0) then
      kwhen (0 <=? fd0) (mod_proc i (set_fd fd0 None));;
      fileclose rf;;
      fileclose wf;;
      mret (-1)
    else
      p ← get_proc i;
      r0 ← copyout (p_pagetable p) a (le_bytes 4 fd0);
      r1 ← (if r0 <? 0 then mret r0 else copyout (p_pagetable p) (u64 (a + 4)) (le_bytes 4 fd1));
      if (r0 <? 0) || (r1 <? 0) then
        mod_proc i (set_fd fd0 None);;
        mod_proc i (set_fd fd1 None);;
        fileclose rf;;
        fileclose wf;;
        mret (-1)
      else mret 0) w'
  end.
Proof.
  intros Hc Ha w' E. unfold sys_pipe. rewrite (bind_ret _ _ _ _ _ (curproc_ok w i Hc)). unfold argaddr, argraw. rewrite bind_assoc, (bind_ret _ _ _ _ _ (curproc_ok w i Hc)).
  rewrite bind_assoc, bind_kget. change (0 =? 0) with true. cbv iota. rewrite bind_mret, Ha. rewrite (bind_ret _ _ _ _ _ E). by destruct r as [[]|].
Qed.

Section sys_pipe_ends.
Context `{D : Disk} (i : nat) (Q : queues) (F1 : list Z) (T : tree) (a pi : Z) (rf wf : nat) (r : list nat) (w : world).
Let s := w_k w.
Let F := pi :: F1.
Let ofs := p_ofile (proc_at (k_ps s) i).
Let pt := p_pagetable (proc_at (k_ps s) i).
Hypothesis (HR : pipe_ready i Q F T s) (Hrw : free_files (k_files s) = rf :: wf :: r) (Ha : tf_a0 (trapframe_of s i) = a).

Lemma sys_pipe_cases : user_range (k_pm s) F T a 8 \/ refused (k_pm s) T a \/ user_range (k_pm s) F T a 4 /\ refused (k_pm s) T (u64 (a + 4)) ->
  match free_fds ofs with
  | d0 :: d1 :: _ => user_range (k_pm s) F T a 8 /\ pipe_made i rf wf d0 d1 pi a F1 T w (sys_pipe w) \/
     (refused (k_pm s) T a \/ user_range (k_pm s) F T a 4 /\ refused (k_pm s) T (u64 (a + 4))) /\ pipe_failed F T a w (sys_pipe w)
  | _ => pipe_failed F T a w (sys_pipe w)
  end.
Proof.
  intros Hua. pose proof (vi_alloc _ _ _ _ (pr_vm _ _ _ _ _ HR)) as HA. pose proof (pr_cur _ _ _ _ _ HR) as Hc.
  pose proof (si_nproc _ _ (pr_sched _ _ _ _ _ HR)) as Hnp. pose proof (pr_lt _ _ _ _ _ HR) as Hi.
  pose proof (pipealloc_ok w (pr_held _ _ _ _ _ HR) (pr_files _ _ _ _ _ HR) (pr_free _ _ _ _ _ HR) F HA) as HP. change (w_k w) with s in HP. rewrite Hrw in HP. unfold F in HP.
  destruct HP as (pm1 & TP & Hpi & EP). set (x := new_pipe (pm_mem pm1) pi) in *.
  rewrite (sys_pipe_alloc i a w _ Hc Ha _ EP). change (put_ends rf wf pi _) with (with_ends pi rf wf w x pm1). set (w1 := with_k w (with_ends pi rf wf w x pm1)).
  destruct (took_user _ _ _ _ _ _ (pr_vm _ _ _ _ _ HR) TP) as (H1 & L1 & U1 & R1). destruct TP as [A1 V1 Fr1 S1 M1].
  pose proof (fdalloc_ok rf i w1 Hc) as E0. change (k_ps (w_k w1)) with (k_ps s) in E0. fold ofs in E0.
  destruct (free_fds ofs) as [|d0 l] eqn:Ed.
  { rewrite (bind_ret _ _ _ _ _ E0). change (-1 <? 0) with true. cbv iota. rewrite bind_mret. cbn [orb]. change (0 <=? -1) with false. cbn [kwhen]. rewrite bind_mret.
    apply (undo i Q F1 T a pi rf wf r w HR Hrw); try done. intros b Hb _. by apply M1. }
  destruct (free_fds_used ofs d0 l rf Ed) as (D0 & N0 & Ed1).
  rewrite (bind_ret _ _ _ _ _ E0). rewrite (proj2 (Z.ltb_ge (Z.of_nat d0) 0)) by lia. set (w2 := with_k w1 _).
  pose proof (fdalloc_ok wf i w2 Hc) as E1. change (k_ps (w_k w2)) with (upd_proc i (set_fd (Z.of_nat d0) (Some rf)) (k_ps s)) in E1.
  rewrite proc_at_upd_eq in E1 by lia. assert (p_ofile (set_fd (Z.of_nat d0) (Some rf) (proc_at (k_ps s) i)) = <[d0 := Some rf]> ofs) as Eo by (unfold set_fd, aset; cbn; by rewrite Nat2Z.id).
  rewrite Eo, Ed1 in E1. destruct l as [|d1 l].
  { rewrite (bind_ret _ _ _ _ _ E1). change (-1 <? 0) with true. cbn [orb]. rewrite (proj2 (Z.leb_le 0 _)) by lia. cbn [kwhen]. rewrite mod_proc_step.
    set (w3 := with_k w2 _). assert (w3 = w1) as ->.
    { unfold w3, w2, with_k. cbn [w_k w_env k_ps set_k_ps]. rewrite upd_upd by lia. rewrite upd_id; [|by rewrite set_fd_twice, set_fd_none|lia]. unfold w1, with_k, with_ends, put_ends, set_file. cbn. fold s. by destruct s. }
    apply (undo i Q F1 T a pi rf wf r w HR Hrw); try done. intros b Hb _. by apply M1. }
  destruct (free_fds_used (<[d0 := Some rf]> ofs) d1 l wf Ed1) as (D1 & N1 & _). rewrite length_insert in D1.
  assert (d0 <> d1) as Hd by (intros <-; rewrite nth_lookup, list_lookup_insert_eq in N1 by lia; done).
  assert (nth d1 ofs None = None) as N1' by (rewrite nth_lookup, list_lookup_insert_ne in N1 by done; by rewrite nth_lookup).
  rewrite (bind_ret _ _ _ _ _ E1). rewrite (proj2 (Z.ltb_ge (Z.of_nat d1) 0)) by lia. cbn [orb]. set (w3 := with_k w2 _). unfold get_proc. rewrite bind_kget.
  set (f := fun p => set_fd (Z.of_nat d1) (Some wf) (set_fd (Z.of_nat d0) (Some rf) p)).
  assert (w3 = with_k w (set_k_ps (upd_proc i f (k_ps s)) (with_ends pi rf wf w x pm1))) as E3.
  { unfold w3, w2, with_k. cbn [w_k w_env k_ps set_k_ps]. rewrite upd_upd by lia. reflexivity. }
  assert (p_pagetable (proc_at (k_ps (w_k w3)) i) = pt) as Ept by (rewrite E3; cbn [w_k with_k k_ps set_k_ps]; by rewrite proc_at_upd_eq by lia). rewrite Ept.
  assert (k_pm (w_k w3) = pm1) as Epm by by rewrite E3. assert (vm_inv (k_pm (w_k w3)) F1 pt T) as H3 by by rewrite Epm.
  assert (forall v, phys pm1 T v = phys (k_pm s) T v) as Eph by (intros v; unfold phys; by rewrite L1).
  destruct Hua as [Hu|Hr]; [left; split; [exact Hu|]|right; split; [exact Hr|]].
  - destruct (words_ok pt F1 T a (le_bytes 4 (Z.of_nat d0)) (le_bytes 4 (Z.of_nat d1)) w3 H3 (le_bytes_4 _) (le_bytes_4 _) (le_bytes_range _ _) (le_bytes_range _ _)) as (m' & Ew & Hm & [Win Wout]); [rewrite Epm; by apply U1|].
    rewrite (copies_bind _ _ _ _ _ _ _ _ Ew). change ((fst (0, 0) <? 0) || (snd (0, 0) <? 0)) with false. cbv iota. rewrite Epm in *.
    exists (set_pm_mem m' pm1), x. destruct (new_pipe_ok (pm_mem pm1) pi (ai_bytes _ _ A1)) as [Px Pb]. split; [|split; [exact Px|split; [exact Pb|split; [done|split; [done|split; [apply (vi_alloc _ _ _ _ Hm)|split; [|split; [exact Hm|split]]]]]]]].
    + unfold put_mem. rewrite Epm, E3. reflexivity.
    + destruct S1. by split.
    + intros k Hk. rewrite <- Eph. by apply Win.
    + intros b Hb Hk. cbn [pm_mem set_pm_mem]. rewrite Wout by (intros k Hk'; rewrite Eph; by apply Hk). by apply M1.
  - destruct (words_refused pt F1 T a (le_bytes 4 (Z.of_nat d0)) (le_bytes 4 (Z.of_nat d1)) w3 H3 (le_bytes_4 _) (le_bytes_4 _) (le_bytes_range _ _)) as (v & m' & Ew & Hv & Hb & Hm & Hout).
    { rewrite Epm. destruct Hr as [Hr|[Hu Hr]]; [left; by apply R1|right; split; [by apply U1|by apply R1]]. }
    rewrite (copies_bind _ _ _ _ _ _ _ _ Ew), Hv. rewrite !mod_proc_step. set (w5 := with_k (with_k _ _) _). rewrite Epm in *.
    assert (w5 = with_k w (with_ends pi rf wf w x (set_pm_mem m' pm1))) as ->.
    { unfold w5, put_mem. rewrite Epm, E3. unfold with_k. cbn [w_k w_env k_ps set_k_ps set_k_pm]. rewrite !upd_upd by (rewrite ?length_upd; lia).
      rewrite upd_id; [|unfold f; rewrite (set_fd_comm (Z.of_nat d0)) by lia; rewrite set_fd_twice, set_fd_twice|lia]; [reflexivity|].
      by rewrite (set_fd_none d0), (set_fd_none d1). }
    apply (undo i Q F1 T a pi rf wf r w HR Hrw); try done.
    + destruct S1. by split.
    + intros b Hb' Hk. cbn [pm_mem set_pm_mem]. rewrite Hout; [by apply M1|]. intros Hu k Hk'. rewrite Eph. apply Hk; [|done].
      destruct Hr as [Hr|[Hu' _]]; [|done]. exfalso. by apply (refused_range pm1 F1 T a 4 (R1 a Hr) ltac:(lia)).
Qed.
End sys_pipe_ends.

(** C16: [sys_pipe] with the user address [a], whose eight bytes can be
    written or not.  With two free files, a free page and two free
    descriptors it succeeds if the addresses can be written: the first two
    free files become the two ends of an empty pipe in the first free page,
    the first two free descriptors refer to them, their numbers are stored
    at [a] and [a + 4], and no other memory of a process or of the kernel
    changes.  In all other cases it returns -1, and files, descriptors,
    pages, pipes and page tables are as before: nothing is lost, whatever
    step failed. *)
Theorem sys_pipe_correct `{D : Disk} i Q F T a w : let s := w_k w in pipe_ready i Q F T s -> tf_a0 (trapframe_of s i) = a ->
  user_range (k_pm s) F T a 8 \/ refused (k_pm s) T a \/ user_range (k_pm s) F T a 4 /\ refused (k_pm s) T (u64 (a + 4)) ->
  match free_files (k_files s), F, free_fds (p_ofile (proc_at (k_ps s) i)) with
  | rf :: wf :: _, pi :: F1, d0 :: d1 :: _ => user_range (k_pm s) F T a 8 /\ pipe_made i rf wf d0 d1 pi a F1 T w (sys_pipe w) \/
     (refused (k_pm s) T a \/ user_range (k_pm s) F T a 4 /\ refused (k_pm s) T (u64 (a + 4))) /\ pipe_failed F T a w (sys_pipe w)
  | _, _, _ => pipe_failed F T a w (sys_pipe w)
  end.
Proof.
  intros s HR Ha Hua. assert (forall files', files_kept (k_files s) files' -> pipealloc w = Ret None (with_k w (set_k_files files' s)) -> pipe_failed F T a w (sys_pipe w)) as Hnone.
  { intros files' Hk E. pose proof (vi_alloc _ _ _ _ (pr_vm _ _ _ _ _ HR)) as HA. exists (k_ps s), (k_thr s), files', (k_pm s). split.
    - rewrite (sys_pipe_alloc i a w _ (pr_cur _ _ _ _ _ HR) Ha _ E). f_equal.
    - split; [apply (woke_refl _ Q), (pr_sched _ _ _ _ _ HR)|done|done|done|done]. }
  pose proof (pipealloc_ok w (pr_held _ _ _ _ _ HR) (pr_files _ _ _ _ _ HR) (pr_free _ _ _ _ _ HR) F (vi_alloc _ _ _ _ (pr_vm _ _ _ _ _ HR))) as HP. fold s in HP.
  destruct (free_files (k_files s)) as [|rf [|wf r]] eqn:Ef; [destruct HP as (files' & Hk & E); by apply (Hnone files')..|].
  destruct F as [|pi F1]; [destruct HP as (files' & Hk & E); by apply (Hnone files')|]. by apply (sys_pipe_cases i Q F1 T a pi rf wf r w).
Qed.

(** ** Witness *)

Definition pipe_proc (p : proc) : proc := set_p_ofile (replicate NOFILE None) (set_p_pagetable 0x87ffd000 (set_p_state RUNNING p)).
Definition pipe_kst : kst := set_k_cur (Some O) (set_k_pm ex_pm (set_k_ps (upd_proc 0 pipe_proc psched_boot) (kst_boot 0))).

Lemma pipe_range : user_range ex_pm [0x87fff000; 0x87ffe000] ex_tree 0 8.
Proof.
  split; [vm_compute; split; congruence|..].
  - intros v Hv. rewrite ex_leaf by (unfold PGSIZE; lia). by destruct (Z.ltb_spec v PGSIZE); [|unfold PGSIZE in *; lia].
  - intros v Hv. rewrite ex_leaf by (unfold PGSIZE; lia). destruct (Z.ltb_spec v PGSIZE); [|unfold PGSIZE in *; lia].
    change (PTE2PA _) with 0x87ffa000. rewrite elem_of_cons, list_elem_of_singleton. split_and!; [|lia|].
    + split; [reflexivity|vm_compute; split; congruence].
    + intros m p Hp. apply ex_pages in Hp. lia.
  - intros v v' Hv Hv' _. unfold PGSIZE. zlia.
Qed.

Lemma nth_file_zero f n : nth f (replicate n file_zero) file_zero = file_zero.
Proof. revert f. induction n as [|n IH]; intros [|f]; cbn; try done. Qed.

Lemma pipe_example : pipe_ready 0 qempty [0x87fff000; 0x87ffe000] ex_tree pipe_kst.
Proof.
  split.
  - done.
  - done.
  - unfold NPROC. lia.
  - apply upd_proc_inv; [exact boot_inv|unfold NPROC; lia|discriminate|discriminate].
  - exact ex_inv.
  - done.
  - intros f _. change (k_files pipe_kst) with (replicate NFILE file_zero). by rewrite nth_file_zero.
  - done.
Qed.

Lemma sys_pipe_correct_witness : exists w', sys_pipe (D := sync_disk) (World [] pipe_kst) = Ret 0 w' /\ k_pipes (w_k w') !! 0x87fff000 <> None.
Proof.
  pose proof (sys_pipe_correct (D := sync_disk) 0 qempty [0x87fff000; 0x87ffe000] ex_tree 0 (World [] pipe_kst) pipe_example eq_refl (or_introl pipe_range)) as H.
  change (free_files (k_files (w_k (World [] pipe_kst)))) with (seq 0 NFILE) in H.
  change (free_fds (p_ofile (proc_at (k_ps (w_k (World [] pipe_kst))) 0))) with (seq 0 NOFILE) in H.
  destruct H as [[_ (pm' & x & E & _)]|[Hr _]].
  - eexists. split; [exact E|]. cbn. by rewrite lookup_insert_eq.
  - exfalso. destruct Hr as [Hr|[_ Hr]]; [by apply (refused_range _ _ _ 0 8 Hr ltac:(lia) pipe_range)|].
    apply (refused_range _ [0x87fff000; 0x87ffe000] _ 4 4 Hr ltac:(lia)). eapply user_range_sub; [exact pipe_range|lia..].
Defined.
