(* ===== verification/Trap.v ===== *)
(** * Trap: system calls, traps and interrupts

    Models kernel/sysproc.c, the dispatch of kernel/syscall.c,
    kernel/trap.c, kernel/plic.c and forkret of kernel/proc.c.  The
    supervisor registers are [k_csr]; the pending interrupts of the PLIC are
    [dv_plic].  Returning to user space ends the model: [usertrapret] returns
    the [satp] value it passes to the trampoline. *)

From S2P Require Import Prelude.
From S2P Require Import State.
From S2P Require Import Kernel.
From S2P Require Import Sched.
From S2P Require Import Mem.
From S2P Require Import Vm.
From S2P Require Import Console.
From S2P Require Import Bio.
From S2P Require Import Log.
From S2P Require Import Fs.
From S2P Require Import File.
From S2P Require Import Proc.
From S2P Require Import Exec.
From S2P Require Import Sysfile.

(** The disk driver's interrupt handler. *)
Class DiskIntr := virtio_disk_intr : K unit.

(** ** sysproc.c *)

Definition sys_getpid : K Z := i ← curproc; p ← get_proc i; mret (p_pid p).
Definition sys_wait : K Z := p ← argaddr 0; wait p.
Definition sys_sbrk : K Z :=
  n ← argint 0;
  i ← curproc;
  p ← get_proc i;
  let addr := p_sz p in
  r ← growproc n;
  if r <? 0 then mret (-1) else mret addr.

(** [ticks - ticks0 < n] compares unsigned numbers. *)
Fixpoint sys_sleep_loop (fuel : nat) (ticks0 n : Z) : K Z :=
  ticks ← kget k_ticks;
  if u32 (ticks - ticks0) <? u32 n then
    i ← curproc;
    kl ← killed i;
    if negb (kl =? 0) then release L_ticks;; mret (-1) else
    match fuel with
    | O => hang
    | S f => sleep Ch_ticks L_ticks;; sys_sleep_loop f ticks0 n
    end
  else release L_ticks;; mret 0.
Definition sys_sleep : K Z :=
  n ← argint 0;
  acquire L_ticks;;
  ticks0 ← kget k_ticks;
  with_fuel (fun e => sys_sleep_loop e ticks0 n).

Definition sys_kill : K Z := pid ← argint 0; kill pid.
Definition sys_uptime : K Z :=
  acquire L_ticks;;
  xticks ← kget k_ticks;
  release L_ticks;;
  mret xticks.

(** ** plic.c *)

Definition plic_claim : K Z :=
  d ← kget k_dev;
  match dv_plic d with
  | irq :: l => mod_dev (set_dv_plic l);; mret irq
  | [] => mret 0
  end.
Definition plic_complete (irq : Z) : K unit := mod_dev (fun d => set_dv_completed (irq :: dv_completed d) d).

(** ** Traps *)

Section trap.
(** The addresses of [forkret], [kernelvec], [usertrap], and the offset of
    [uservec] in the trampoline page. *)
Context `{D : Disk} `{DI : DiskIntr} (forkret_addr kernelvec_addr usertrap_addr uservec_off : Z).
(** What is in the padding of the [struct stat] of [filestat]. *)
Context (pad : list Z).

Definition sys_exit : K Z := n ← argint 0; exit n;; mret 0.
Definition sys_fork : K Z := fork forkret_addr.

(** The table [syscalls]; [None] where it has no entry. *)
Definition syscalls (num : Z) : option (K Z) :=
  if num =? 1 then Some sys_fork
  else if num =? 2 then Some sys_exit
  else if num =? 3 then Some sys_wait
  else if num =? 4 then Some sys_pipe
  else if num =? 5 then Some sys_read
  else if num =? 6 then Some sys_kill
  else if num =? 7 then Some sys_exec
  else if num =? 8 then Some (sys_fstat pad)
  else if num =? 9 then Some sys_chdir
  else if num =? 10 then Some sys_dup
  else if num =? 11 then Some sys_getpid
  else if num =? 12 then Some sys_sbrk
  else if num =? 13 then Some sys_sleep
  else if num =? 14 then Some sys_uptime
  else if num =? 15 then Some sys_open
  else if num =? 16 then Some sys_write
  else if num =? 17 then Some sys_mknod
  else if num =? 18 then Some sys_unlink
  else if num =? 19 then Some sys_link
  else if num =? 20 then Some sys_mkdir
  else if num =? 21 then Some sys_close
  else if num =? 22 then Some sys_startlog
  else if num =? 23 then Some sys_getlog
  else if num =? 24 then Some sys_nice
  else None.

Definition syscall : K unit :=
  i ← curproc;
  tf ← kget (fun s => trapframe_of s i);
  let num := i32 (tf_a7 tf) in
  match syscalls num with
  | Some f => r ← f; mod_tf i (set_tf_a0 (u64 r))
  | None =>
    p ← get_proc i;
    printf (bytes_of_string "%d %s: unknown sys call %d
") [A_int (p_pid p); A_str (Some (cstr (p_name p))); A_int num];;
    mod_tf i (set_tf_a0 (u64 (-1)))
  end.

Definition SSTATUS_SPP : Z := Z.shiftl 1 8.
Definition SSTATUS_SPIE : Z := Z.shiftl 1 5.
Definition SSTATUS_SIE : Z := Z.shiftl 1 1.
Definition intr_on : K unit := mod_csr (fun c => set_csr_sstatus (Z.lor (csr_sstatus c) SSTATUS_SIE) c).
Definition intr_off : K unit :=
  mod_csr (fun c => set_csr_sstatus (Z.land (csr_sstatus c) (u64 (Z.lnot SSTATUS_SIE))) c).

Definition trapinithart : K unit := mod_csr (set_csr_stvec kernelvec_addr).

Definition clockintr : K unit :=
  acquire L_ticks;;
  kmod (fun s => set_k_ticks (u32 (k_ticks s + 1)) s);;
  wakeup Ch_ticks;;
  release L_ticks.

Definition UART0_IRQ : Z := 10.
Definition VIRTIO0_IRQ : Z := 1.

Definition devintr : K Z :=
  c ← kget k_csr;
  let scause := csr_scause c in
  if negb (Z.land scause 0x8000000000000000 =? 0) && (Z.land scause 0xff =? 9) then
    irq ← plic_claim;
    (if irq =? UART0_IRQ then uartintr
     else if irq =? VIRTIO0_IRQ then virtio_disk_intr
     else kwhen (negb (irq =? 0)) (printf (bytes_of_string "unexpected interrupt irq=%d
") [A_int irq]));;
    kwhen (negb (irq =? 0)) (plic_complete irq);;
    mret 1
  else if scause =? 0x8000000000000001 then
    id ← cpuid;
    kwhen (id =? 0) clockintr;;
    mod_csr (fun c => set_csr_sip (Z.land (csr_sip c) (u64 (Z.lnot 2))) c);;
    mret 2
  else mret 0.

Definition usertrapret : K Z :=
  i ← curproc;
  intr_off;;
  mod_csr (set_csr_stvec (TRAMPOLINE + uservec_off));;
  c ← kget k_csr;
  p ← get_proc i;
  mod_tf i (set_tf_kernel_satp (csr_satp c));;
  mod_tf i (set_tf_kernel_sp (u64 (p_kstack p + PGSIZE)));;
  mod_tf i (set_tf_kernel_trap usertrap_addr);;
  mod_tf i (set_tf_kernel_hartid (csr_tp c));;
  let x := csr_sstatus c in
  let x := Z.land x (u64 (Z.lnot SSTATUS_SPP)) in
  let x := Z.lor x SSTATUS_SPIE in
  mod_csr (set_csr_sstatus x);;
  tf ← kget (fun s => trapframe_of s i);
  mod_csr (set_csr_sepc (tf_epc tf));;
  mret (MAKE_SATP (p_pagetable p)).

(** [time++] *)
Definition tick_time : K unit := mod_ps (fun ps => set_ps_time (i32 (ps_time ps + 1)) ps).

Definition usertrap : K Z :=
  c ← kget k_csr;
  if negb (Z.land (csr_sstatus c) SSTATUS_SPP =? 0) then panic "usertrap: not from user mode" else
  mod_csr (set_csr_stvec kernelvec_addr);;
  i ← curproc;
  mod_tf i (set_tf_epc (csr_sepc c));;
  which_dev ← (if csr_scause c =? 8 then
      kl ← killed i;
      kwhen (negb (kl =? 0)) (exit (-1));;
      mod_tf i (fun tf => set_tf_epc (u64 (tf_epc tf + 4)) tf);;
      intr_on;;
      syscall;;
      mret 0
    else
      which_dev ← devintr;
      kwhen (which_dev =? 0)
        (p ← get_proc i;
         printf (bytes_of_string "usertrap(): unexpected scause %p pid=%d
") [A_ptr (csr_scause c); A_int (p_pid p)];;
         printf (bytes_of_string "            sepc=%p stval=%p
") [A_ptr (csr_sepc c); A_ptr (csr_stval c)];;
         setkilled i);;
      mret which_dev);
  kl ← killed i;
  kwhen (negb (kl =? 0)) (exit (-1));;
  kwhen (which_dev =? 2) (tick_time;; yield);;
  usertrapret.

Definition kerneltrap : K unit :=
  c ← kget k_csr;
  if Z.land (csr_sstatus c) SSTATUS_SPP =? 0 then panic "kerneltrap: not from supervisor mode" else
  if negb (Z.land (csr_sstatus c) SSTATUS_SIE =? 0) then panic "kerneltrap: interrupts enabled" else
  which_dev ← devintr;
  if which_dev =? 0 then
    printf (bytes_of_string "scause %p
") [A_ptr (csr_scause c)];;
    printf (bytes_of_string "sepc=%p stval=%p
") [A_ptr (csr_sepc c); A_ptr (csr_stval c)];;
    panic "kerneltrap"
  else
  kwhen (which_dev =? 2) tick_time;;
  me ← myproc;
  running ← (match me with
             | None => mret false
             | Some i => p ← get_proc i; mret (bool_decide (p_state p = RUNNING))
             end);
  kwhen ((which_dev =? 2) && running) yield;;
  mod_csr (set_csr_sepc (csr_sepc c));;
  mod_csr (set_csr_sstatus (csr_sstatus c)).

(** ** proc.c: the first run of a process *)

Definition forkret : K Z :=
  i ← curproc;
  release (L_proc i);;
  first ← kget (fun s => ps_first (k_ps s));
  kwhen (negb (first =? 0)) (mod_ps (set_ps_first 0);; fsinit ROOTDEV);;
  usertrapret.
End trap.
