(* ===== verification/RoundRobin.v ===== *)
(** * RoundRobin: the scheduler of the second kernel

    proc.c of [src/XV6 Scheduler/xv6-riscv/kernel]: the stock round-robin
    scheduler with a log of context switches, [yield], [sleep], [wakeup],
    [kill] and the system calls [startlog], [getlog] and [nice].  The
    kernel shares its data model and its memory code with the other one;
    the run queues of [psched] are not used here, and the globals that only
    this kernel has are in [rglob].

    The scheduler's loop gives the CPU to a process with [swtch].  What the
    process does until it comes back is an element of [rw_env]; [rw_trace]
    records, for the theorems, every switch with the process id and the
    time it happened, the latest first. *)

From Stdlib Require Import Sorting.Sorted.
From S2P Require Import Prelude.
From S2P Require Import State.
From S2P Require Import Kernel.
From S2P Require Import Sched.
From S2P Require Import SchedInv.
From S2P Require Import Vm.
From S2P Require Import File.
From S2P Require Import Proc.

(** ** State *)

Record rglob := RGlob { g_schedlog : list logentry; g_timer : Z; g_numLog : Z; g_lastProcessId : Z }.
Definition rglob_boot : rglob := RGlob (replicate (Z.to_nat LOG_SIZE) logentry_zero) 0 0 0.

Record rworld := RWorld {
  rw_env : list (nat -> rglob -> kst -> rglob * kst);
  rw_g : rglob;
  rw_trace : list (nat * logentry)
}.

(** The globals on top of the monad of kernel code. *)
Definition R (A : Type) : Type := rworld -> K (A * rworld).
#[export] Instance R_ret : MRet R := fun A a g => mret (a, g).
#[export] Instance R_bind : MBind R := fun A B f m g => r ← m g; f (fst r) (snd r).

Definition lift {A} (m : K A) : R A := fun g => a ← m; mret (a, g).
Definition gget {A} (f : rglob -> A) : R A := fun g => mret (f (rw_g g), g).
Definition gmod (f : rglob -> rglob) : R unit := fun g => mret (tt, RWorld (rw_env g) (f (rw_g g)) (rw_trace g)).
Definition rwhen (b : bool) (m : R unit) : R unit := if b then m else mret tt.
Fixpoint rfor (l : list nat) (body : nat -> R unit) : R unit :=
  match l with
  | [] => mret tt
  | i :: l' => body i;; rfor l' body
  end.

(** ** System calls *)

Definition sys_startlog : R Z :=
  n ← gget g_numLog;
  if negb (n =? 0) then mret (-1)
  else gmod (fun g => RGlob (g_schedlog g) (g_timer g) 0 (g_lastProcessId g));; mret 0.

Definition sys_getlog : R Z :=
  userlog ← lift (argaddr 0);
  i ← lift curproc;
  p ← lift (get_proc i);
  l ← gget g_schedlog;
  r ← lift (copyout (p_pagetable p) userlog (concat (logentry_bytes <$> l)));
  if r <? 0 then mret (-1) else gget g_numLog.

Definition sys_nice : R Z :=
  inc ← lift (argint 0);
  i ← lift curproc;
  (if 19 <? inc then lift (mod_proc i (fun p => set_p_nice (i32 (p_nice p + 19)) p))
   else if inc <? -20 then lift (mod_proc i (fun p => set_p_nice (i32 (p_nice p + -20)) p))
   else lift (mod_proc i (fun p => set_p_nice (i32 (p_nice p + inc)) p)));;
  p ← lift (get_proc i);
  mret (p_nice p).

(** ** Giving up the CPU *)

(** [swtch(&p->context, &mycpu()->context)] and the return from it. *)
Definition swtch_out (i : nat) : R unit := fun g =>
  match rw_env g with
  | [] => fun w => Blocked w
  | f :: env => fun w =>
    let r := f i (rw_g g) (w_k w) in
    Ret (tt, RWorld env (fst r) (rw_trace g)) (with_k w (resume i (snd r)))
  end.

Definition sched : R unit :=
  p ← lift curproc;
  h ← lift (holding (L_proc p));
  if negb h then lift (panic "sched p->lock") else
  held ← lift (kget k_held);
  if negb (Nat.eqb (length held) 1) then lift (panic "sched locks") else
  pr ← lift (get_proc p);
  if bool_decide (p_state pr = RUNNING) then lift (panic "sched running") else
  swtch_out p.

Definition yield : R unit :=
  p ← lift curproc;
  lift (acquire (L_proc p));;
  lift (mod_proc p (set_p_state RUNNABLE));;
  sched;;
  lift (release (L_proc p));;
  gmod (fun g => RGlob (g_schedlog g) (i32 (g_timer g + 1)) (g_numLog g) (g_lastProcessId g)).

Definition sleep (c : chan) (lk : lockid) : R unit :=
  p ← lift curproc;
  lift (acquire (L_proc p));;
  lift (release lk);;
  lift (mod_proc p (set_p_chan (Some c)));;
  lift (mod_proc p (set_p_state SLEEPING));;
  sched;;
  lift (mod_proc p (set_p_chan None));;
  lift (release (L_proc p));;
  lift (acquire lk).

Definition wakeup (c : chan) : K unit :=
  kfor (seq 0 NPROC) (fun i =>
    me ← myproc;
    if bool_decide (me = Some i) then mret tt else
    acquire (L_proc i);;
    p ← get_proc i;
    kwhen (bool_decide (p_state p = SLEEPING) && bool_decide (p_chan p = Some c))
      (mod_proc i (set_p_state RUNNABLE));;
    release (L_proc i)).

Definition kill (pid : Z) : K Z :=
  r ← kfind (seq 0 NPROC) (fun i =>
    acquire (L_proc i);;
    p ← get_proc i;
    if p_pid p =? pid then
      mod_proc i (set_p_killed 1);;
      kwhen (bool_decide (p_state p = SLEEPING)) (mod_proc i (set_p_state RUNNABLE));;
      release (L_proc i);;
      mret (Some 0)
    else
      release (L_proc i);;
      mret None);
  mret (default (-1) r).

(** ** The scheduler *)

(** The entry for a switch to a process, unless the log is full or the
    last logged process is the same. *)
Definition log_switch (pid : Z) (g : rglob) : rglob :=
  if (g_numLog g <? LOG_SIZE) && negb (g_lastProcessId g =? pid)
  then RGlob (aset (g_schedlog g) (g_numLog g) (LogEntry pid (g_timer g))) (g_timer g) (i32 (g_numLog g + 1)) pid
  else g.

(** [swtch(&c->context, &p->context)]: the process runs and comes back
    through [sched], which has checked that its lock is the only one held. *)
Definition swtch_in (i : nat) : R unit := fun g =>
  match rw_env g with
  | [] => fun w => Blocked w
  | f :: env => fun w =>
    let r := f i (rw_g g) (w_k w) in
    let e := LogEntry (p_pid (proc_at (k_ps (w_k w)) i)) (g_timer (rw_g g)) in
    Ret (tt, RWorld env (fst r) ((i, e) :: rw_trace g)) (with_k w (set_k_held [L_proc i] (snd r)))
  end.

(** The visit of the process table's slot [i]. *)
Definition scheduler_visit (i : nat) : R unit :=
  lift (acquire (L_proc i));;
  p ← lift (get_proc i);
  rwhen (bool_decide (p_state p = RUNNABLE))
    (lift (mod_proc i (set_p_state RUNNING));;
     lift (kmod (set_k_cur (Some i)));;
     gmod (log_switch (p_pid p));;
     swtch_in i;;
     lift (kmod (set_k_cur None)));;
  lift (release (L_proc i)).

(** [n] iterations of the endless loop. *)
Fixpoint scheduler_passes (n : nat) : R unit :=
  match n with
  | O => mret tt
  | S n' => rfor (seq 0 NPROC) scheduler_visit;; scheduler_passes n'
  end.
Definition scheduler (n : nat) : R unit := lift (kmod (set_k_cur None));; scheduler_passes n.

(** ** What a process may do

    While a process runs, the system keeps the size of the table and leaves
    the other RUNNABLE processes RUNNABLE: only the scheduler takes a
    process out of that state.  Nothing but the scheduler and [startlog]
    writes the log. *)
Definition runnable (k : kst) (i : nat) : Prop := p_state (proc_at (k_ps k) i) = RUNNABLE.
#[export] Instance runnable_dec k i : Decision (runnable k i) := procstate_eq_dec _ _.

Record process_ok (f : nat -> rglob -> kst -> rglob * kst) : Prop := {
  po_len : forall i g k, length (ps_proc (k_ps (snd (f i g k)))) = length (ps_proc (k_ps k));
  po_runnable : forall i g k j, j <> i -> runnable k j -> runnable (snd (f i g k)) j;
  po_log : forall i g k, g_schedlog (fst (f i g k)) = g_schedlog g /\ g_numLog (fst (f i g k)) = g_numLog g /\
    g_lastProcessId (fst (f i g k)) = g_lastProcessId g
}.

(** ** The log as a function of the switches *)

(** The reference: switches to the process of the previous switch are left
    out. *)
Fixpoint dedup (last : Z) (l : list logentry) : list logentry :=
  match l with
  | [] => []
  | e :: l' => if le_pid e =? last then dedup last l' else e :: dedup (le_pid e) l'
  end.
Definition last_pid (d : Z) (l : list logentry) : Z := default d (le_pid <$> last l).

Lemma last_pid_cons d e l : last_pid d (e :: l) = last_pid (le_pid e) l.
Proof.
  unfold last_pid. destruct l as [|e' l]; [done|]. rewrite last_cons_cons.
  destruct (last (e' :: l)) eqn:E; [done|]. by apply last_None in E.
Qed.
Lemma dedup_snoc l : forall d e,
  dedup d (l ++ [e]) = dedup d l ++ (if le_pid e =? last_pid d l then [] else [e]).
Proof.
  induction l as [|x l IH]; intros d e; [done|]. cbn [dedup app]. rewrite last_pid_cons.
  destruct (Z.eqb_spec (le_pid x) d) as [<-|Hne]; by rewrite IH.
Qed.
Lemma dedup_nil l : dedup 0 l = [] -> Forall (fun e => le_pid e = 0) l.
Proof.
  induction l as [|x l IH]; [done|]. cbn [dedup]. destruct (Z.eqb_spec (le_pid x) 0); [|done].
  intros H. constructor; [done|by apply IH].
Qed.

(** The log holds the first [LOG_SIZE] entries of the reference. *)
Record log_inv (g : rworld) : Prop := {
  li_len : Z.of_nat (length (g_schedlog (rw_g g))) = LOG_SIZE;
  li_log : take (Z.to_nat (g_numLog (rw_g g))) (g_schedlog (rw_g g)) = take (Z.to_nat LOG_SIZE) (dedup 0 (rev (snd <$> rw_trace g)));
  li_num : g_numLog (rw_g g) = Z.min LOG_SIZE (Z.of_nat (length (dedup 0 (rev (snd <$> rw_trace g)))));
  li_last : g_numLog (rw_g g) < LOG_SIZE -> g_lastProcessId (rw_g g) = last_pid 0 (rev (snd <$> rw_trace g))
}.

Lemma log_inv_boot env : log_inv (RWorld env rglob_boot []).
Proof. split; reflexivity. Qed.

(** A process that runs does not change the log. *)
Lemma log_inv_ext e e' g g' tr : log_inv (RWorld e g tr) -> g_schedlog g' = g_schedlog g -> g_numLog g' = g_numLog g ->
  g_lastProcessId g' = g_lastProcessId g -> log_inv (RWorld e' g' tr).
Proof. intros [H1 H2 H3 H4] E1 E2 E3. by split; cbn in *; rewrite ?E1, ?E2, ?E3. Qed.

Lemma log_switch_ok e g tr i pid : log_inv (RWorld e g tr) ->
  log_inv (RWorld e (log_switch pid g) ((i, LogEntry pid (g_timer g)) :: tr)).
Proof.
  intros [H1 H2 H3 H4]. cbn [rw_g rw_trace] in *. set (l := rev (snd <$> tr)) in *.
  assert (rev (snd <$> ((i, LogEntry pid (g_timer g)) :: tr)) = l ++ [LogEntry pid (g_timer g)]) as E by done.
  pose proof (dedup_snoc l 0 (LogEntry pid (g_timer g))) as Ed. cbn [le_pid] in Ed.
  assert (LOG_SIZE = 100) as EL by done. unfold log_switch.
  destruct (Z.ltb_spec (g_numLog g) LOG_SIZE) as [Hlt|Hge]; cbn [andb].
  - rewrite (H4 Hlt). rewrite Z.eqb_sym. destruct (Z.eqb_spec pid (last_pid 0 l)) as [Ep|Ep]; cbn [negb].
    + rewrite app_nil_r in Ed. split; cbn [rw_g rw_trace]; rewrite ?E, ?Ed; try done.
      intros _. rewrite (H4 Hlt). unfold last_pid at 2. by rewrite last_snoc.
    + assert (i32 (g_numLog g + 1) = g_numLog g + 1) as Ei by (apply i32_small; lia).
      split; cbn [rw_g rw_trace g_schedlog g_numLog g_lastProcessId]; rewrite ?E, ?Ed, ?Ei.
      * by rewrite length_aset.
      * rewrite (take_ge (_ ++ _)) by (rewrite length_app; cbn; lia). rewrite (take_ge (dedup _ _)) in H2 by lia. rewrite <- H2.
        replace (Z.to_nat (g_numLog g + 1)) with (S (Z.to_nat (g_numLog g))) by lia. unfold aset.
        rewrite (take_S_r _ _ (LogEntry pid (g_timer g))) by (apply list_lookup_insert_eq; lia).
        by rewrite take_insert_ge by lia.
      * rewrite length_app. cbn. lia.
      * intros _. unfold last_pid. by rewrite last_snoc.
  - split; cbn [rw_g rw_trace]; rewrite ?E, ?Ed; try done; try lia.
    + rewrite H2. symmetry. apply take_app_le. lia.
    + rewrite length_app. lia.
Qed.

(** ** Visits *)

Record at_loop (g : rworld) (w : world) : Prop := {
  al_held : k_held (w_k w) = [];
  al_len : length (ps_proc (k_ps (w_k w))) = NPROC;
  al_env : Forall process_ok (rw_env g)
}.

(** The result of visiting the slots [l]: the processes [tr] were run, a
    sublist of [l]; no process that stays out of it leaves RUNNABLE. *)
Record visited (l : list nat) (g : rworld) (w : world) (tr : list (nat * logentry)) (g' : rworld) (w' : world) : Prop := {
  vi_loop : at_loop g' w';
  vi_trace : rw_trace g' = rev tr ++ rw_trace g;
  vi_sub : (tr.*1) `sublist_of` l;
  vi_env : rw_env g' = drop (length tr) (rw_env g);
  vi_log : log_inv g -> log_inv g';
  vi_keep : forall j, j ∉ l -> runnable (w_k w) j -> runnable (w_k w') j;
  vi_run : NoDup l -> forall j, j ∈ l -> runnable (w_k w) j -> j ∈ tr.*1;
  vi_cur : k_cur (w_k w) = None -> k_cur (w_k w') = None
}.

Lemma kst_held_id (k : kst) : k_held k = [] -> set_k_held [] (set_k_held [] k) = k.
Proof. intros H. destruct k. cbn in *. by subst. Qed.

Lemma bind_lift {A B} (m : K A) (f : A -> R B) g w a w' : m w = Ret a w' -> (x ← lift m; f x) g w = f a g w'.
Proof. intros E. unfold lift, mbind, R_bind, mbind, K_bind. by rewrite E. Qed.

Lemma visit_idle i g w : at_loop g w -> ~ runnable (w_k w) i -> exists w', scheduler_visit i g w = Ret (tt, g) w' /\ visited [i] g w [] g w'.
Proof.
  intros A Hn. pose proof A as [Hh Hl He]. exists w. split.
  - unfold scheduler_visit. rewrite (bind_lift _ _ _ _ _ _ (acquire_ok (L_proc i) w ltac:(rewrite Hh; apply not_elem_of_nil))).
    erewrite bind_lift by reflexivity. cbn [w_k with_k k_ps set_k_held]. rewrite Hh.
    rewrite bool_decide_eq_false_2 by exact Hn. cbn [rwhen].
    unfold mbind at 1, R_bind at 1, mbind at 1, K_bind at 1. cbn.
    unfold lift, mbind, K_bind. rewrite (release_ok (L_proc i) _ []) by (done || apply not_elem_of_nil). cbn.
    unfold mret, K_ret. f_equal. destruct w as [env k]. cbn in *. unfold with_k. cbn. destruct k. cbn in *. by subst.
  - split; cbn; try done.
    + apply sublist_nil_l.
    + intros _ j ->%list_elem_of_singleton Hr. done.
Qed.

Lemma visit_run i g w : at_loop g w -> runnable (w_k w) i -> (i < NPROC)%nat -> rw_env g <> [] ->
  exists e g' w', scheduler_visit i g w = Ret (tt, g') w' /\ visited [i] g w [(i, e)] g' w'.
Proof.
  intros [Hh Hl He] Hr Hi Hne. destruct g as [[|f env] gl tr]; [done|]. cbn in He. apply Forall_cons in He as [Hf He].
  set (pid := p_pid (proc_at (k_ps (w_k w)) i)). set (k0 := w_k w) in *.
  set (k1 := set_k_cur (Some i) (set_k_ps (upd_proc i (set_p_state RUNNING) (k_ps k0)) (set_k_held [L_proc i] k0))).
  set (r := f i (log_switch pid gl) k1).
  set (k2 := set_k_held [] (set_k_cur None (set_k_held [L_proc i] (snd r)))).
  assert (p_pid (proc_at (k_ps k1) i) = pid) as Ep.
  { change (k_ps k1) with (upd_proc i (set_p_state RUNNING) (k_ps k0)). by rewrite proc_at_upd, decide_True. }
  assert (g_timer (log_switch pid gl) = g_timer gl) as Et by (unfold log_switch; by destruct (_ && _)).
  set (e := LogEntry pid (g_timer gl)).
  destruct Hf as [F1 F2 F3]. specialize (F1 i (log_switch pid gl) k1). specialize (F2 i (log_switch pid gl) k1).
  specialize (F3 i (log_switch pid gl) k1). fold r in F1, F2, F3.
  exists e, (RWorld env (fst r) ((i, e) :: tr)), (with_k w k2). split.
  - unfold scheduler_visit. rewrite (bind_lift _ _ _ _ _ _ (acquire_ok (L_proc i) w ltac:(fold k0; rewrite Hh; apply not_elem_of_nil))).
    fold k0. rewrite Hh. erewrite bind_lift by reflexivity. cbn [w_k with_k k_ps set_k_held].
    rewrite bool_decide_eq_true_2 by exact Hr. cbn [rwhen]. fold pid.
    unfold mbind at 1, R_bind at 1, mbind at 1, K_bind at 1.
    change ((lift (mod_proc i (set_p_state RUNNING));; lift (kmod (set_k_cur (Some i)));; gmod (log_switch pid);; swtch_in i;;
      lift (kmod (set_k_cur None))) (RWorld (f :: env) gl tr) (with_k w (set_k_held [L_proc i] k0)))
      with (Ret (tt, RWorld env (fst r) ((i, LogEntry (p_pid (proc_at (k_ps k1) i)) (g_timer (log_switch pid gl))) :: tr))
        (with_k w (set_k_cur None (set_k_held [L_proc i] (snd r))))).
    rewrite Ep, Et. cbv beta iota. cbn [fst snd]. unfold lift, mbind, K_bind.
    rewrite (release_ok (L_proc i) _ []) by (done || apply not_elem_of_nil). done.
  - assert (length (ps_proc (k_ps k2)) = NPROC) as Hl2.
    { change (k_ps k2) with (k_ps (snd r)). rewrite F1. cbn. by rewrite length_insert. }
    assert (forall j, j <> i -> runnable k0 j -> runnable k2 j) as Hk.
    { intros j Hj Hrj. change (runnable (snd r) j). apply F2; [done|]. unfold runnable.
      change (k_ps k1) with (upd_proc i (set_p_state RUNNING) (k_ps k0)). by rewrite proc_at_upd, decide_False. }
    split; cbn [rw_trace rw_env w_k with_k]; try done.
    + intros HL. apply (log_inv_ext _ _ _ _ _ (log_switch_ok _ _ _ i pid HL)); apply F3.
    + intros j Hj. apply Hk. intros ->. by apply Hj, list_elem_of_singleton.
Qed.

Lemma visit_ok i g w : at_loop g w -> (i < NPROC)%nat -> rw_env g <> [] ->
  exists tr g' w', scheduler_visit i g w = Ret (tt, g') w' /\ visited [i] g w tr g' w' /\ (length tr <= 1)%nat.
Proof.
  intros A Hi Hne. destruct (decide (runnable (w_k w) i)) as [Hr|Hr].
  - destruct (visit_run i g w A Hr Hi Hne) as (e & g' & w' & E & V). exists [(i, e)], g', w'. by split_and!.
  - destruct (visit_idle i g w A Hr) as (w' & E & V). exists [], g, w'. split_and!; [done|done|cbn; lia].
Qed.

Lemma visited_trans l1 l2 g w tr1 g1 w1 tr2 g2 w2 : visited l1 g w tr1 g1 w1 -> visited l2 g1 w1 tr2 g2 w2 ->
  visited (l1 ++ l2) g w (tr1 ++ tr2) g2 w2.
Proof.
  intros [A1 B1 C1 D1 E1 F1 G1 H1] [A2 B2 C2 D2 E2 F2 G2 H2]. split.
  - done.
  - by rewrite B2, B1, rev_app_distr, app_assoc.
  - rewrite fmap_app. by apply sublist_app.
  - by rewrite D2, D1, drop_drop, length_app.
  - auto.
  - intros j Hj Hr. apply not_elem_of_app in Hj as [Hj1 Hj2]. auto.
  - intros (N1 & N12 & N2)%NoDup_app j Hj Hr. rewrite fmap_app. apply elem_of_app.
    apply elem_of_app in Hj as [Hj|Hj]; [left; by apply G1|right]. apply G2; [done|done|]. apply F1; [|done].
    intros Hj1. by apply (N12 j).
  - auto.
Qed.

Lemma visits_ok : forall l g w, at_loop g w -> Forall (fun i => (i < NPROC)%nat) l -> (length l <= length (rw_env g))%nat ->
  exists tr g' w', rfor l scheduler_visit g w = Ret (tt, g') w' /\ visited l g w tr g' w' /\ (length tr <= length l)%nat.
Proof.
  induction l as [|i l IH]; intros g w A Hl Hn.
  - exists [], g, w. split_and!; [done| |done]. split; try done.
  - apply Forall_cons in Hl as [Hi Hl]. cbn [length] in Hn.
    destruct (visit_ok i g w A Hi) as (tr & g1 & w1 & E1 & V1 & L1); [by destruct (rw_env g); [cbn in Hn; lia|]|].
    destruct (IH g1 w1) as (tr2 & g2 & w2 & E2 & V2 & L2); [apply V1|done| |].
    { rewrite (vi_env _ _ _ _ _ _ V1), length_drop. lia. }
    exists (tr ++ tr2), g2, w2. split_and!.
    + cbn [rfor]. unfold mbind, R_bind, mbind, K_bind. rewrite E1. exact E2.
    + exact (visited_trans [i] l _ _ _ _ _ _ _ _ V1 V2).
    + rewrite length_app. cbn. lia.
Qed.

Lemma rfor_app l1 l2 body g w : rfor (l1 ++ l2) body g w = (rfor l1 body;; rfor l2 body) g w.
Proof.
  revert g w. induction l1 as [|i l1 IH]; intros g w; [done|]. cbn [app rfor].
  unfold mbind, R_bind, mbind, K_bind. destruct (body i g w) as [[a g'] w'| | |]; [|done..]. apply IH.
Qed.

(** The slots that [n] iterations of the scheduler's loop visit. *)
Definition slots (n : nat) : list nat := concat (replicate n (seq 0 NPROC)).
Lemma scheduler_passes_eq n g w : scheduler_passes n g w = rfor (slots n) scheduler_visit g w.
Proof.
  revert g w. induction n as [|n IH]; intros g w; [done|].
  change (slots (S n)) with (seq 0 NPROC ++ slots n). rewrite rfor_app. cbn [scheduler_passes].
  unfold mbind, R_bind, mbind, K_bind. destruct (rfor (seq 0 NPROC) scheduler_visit g w) as [[a g'] w'| | |]; [|done..]. apply IH.
Qed.
Lemma slots_ok n : Forall (fun i => (i < NPROC)%nat) (slots n).
Proof.
  unfold slots. induction n as [|n IH]; [done|]. cbn [replicate concat]. apply Forall_app. split; [|done].
  apply Forall_seq. lia.
Qed.
Lemma length_slots n : length (slots n) = (n * NPROC)%nat.
Proof. unfold slots. induction n as [|n IH]; [done|]. cbn [replicate concat]. rewrite length_app, length_seq, IH. done. Qed.

Lemma seq_sublist_sorted l n m : l `sublist_of` seq n m -> StronglySorted lt l.
Proof.
  revert l n. induction m as [|m IH]; intros l n H; cbn [seq] in H.
  - apply sublist_nil_r in H as ->. constructor.
  - apply sublist_cons_r in H as [H|(l' & -> & H)]; [by apply (IH l (S n))|]. constructor; [by apply (IH l' (S n))|].
    apply Forall_forall. intros x Hx. assert (x ∈ seq (S n) m) as Hin%elem_of_seq; [|lia].
    eapply elem_of_submseteq; [exact Hx|by apply sublist_submseteq].
Qed.

(** ** Theorems *)

(** C9: the scheduler is fair.  An iteration of its loop terminates when
    every process gives the CPU back, switches to the processes in the
    order of the table, to none of them twice, and to every process that
    was RUNNABLE when the iteration began: a RUNNABLE process waits for
    fewer than NPROC others. *)
Theorem pass_fair g w : at_loop g w -> (NPROC <= length (rw_env g))%nat ->
  exists tr g' w', scheduler_passes 1 g w = Ret (tt, g') w' /\ at_loop g' w' /\
    rw_trace g' = rev tr ++ rw_trace g /\ StronglySorted lt tr.*1 /\
    (forall i, (i < NPROC)%nat -> runnable (w_k w) i -> i ∈ tr.*1) /\
    (length tr <= NPROC)%nat /\ rw_env g' = drop (length tr) (rw_env g).
Proof.
  intros A Hn. rewrite scheduler_passes_eq. change (slots 1) with (seq 0 NPROC ++ []). rewrite app_nil_r.
  destruct (visits_ok (seq 0 NPROC) g w A) as (tr & g' & w' & E & V & L);
    [apply Forall_seq; lia|by rewrite length_seq|].
  exists tr, g', w'. split_and!; try apply V; try done.
  - exact (seq_sublist_sorted _ _ _ (vi_sub _ _ _ _ _ _ V)).
  - intros i Hi Hr. apply (vi_run _ _ _ _ _ _ V); [apply NoDup_seq|apply elem_of_seq; lia|done].
Qed.

(** The scheduling log.  From boot, [n] iterations of the scheduler's
    loop leave in the log the first LOG_SIZE entries, process and time, of
    the sequence of switches in which repeated switches to one process
    count once, and [numLog] is their number; no entry outside of the array
    is written. *)
Theorem schedlog_correct n env w : Forall process_ok env -> (n * NPROC <= length env)%nat ->
  k_held (w_k w) = [] -> length (ps_proc (k_ps (w_k w))) = NPROC ->
  exists g' w', scheduler n (RWorld env rglob_boot []) w = Ret (tt, g') w' /\
    let l := dedup 0 (rev (snd <$> rw_trace g')) in
    take (Z.to_nat (g_numLog (rw_g g'))) (g_schedlog (rw_g g')) = take (Z.to_nat LOG_SIZE) l /\
    g_numLog (rw_g g') = Z.min LOG_SIZE (Z.of_nat (length l)) /\
    Z.of_nat (length (g_schedlog (rw_g g'))) = LOG_SIZE.
Proof.
  intros He Hn Hh Hl. unfold scheduler. rewrite (bind_lift _ _ _ _ tt (with_k w (set_k_cur None (w_k w)))) by done.
  rewrite scheduler_passes_eq.
  destruct (visits_ok (slots n) (RWorld env rglob_boot []) (with_k w (set_k_cur None (w_k w)))) as (tr & g' & w' & E & V & _).
  - by split.
  - apply slots_ok.
  - by rewrite length_slots.
  - exists g', w'. destruct (vi_log _ _ _ _ _ _ V (log_inv_boot env)) as [H1 H2 H3 _]. by split_and!.
Qed.

(** C10: [startlog] never starts the log.  After any visits of the scheduler
    from boot, a process that it switches to finds the log in use already:
    its call of [startlog] returns -1 and changes nothing.  The log records
    switches from boot on, whether or not [startlog] is called. *)
Theorem startlog_never_starts l env w i pid : Forall process_ok env -> (length l <= length env)%nat ->
  Forall (fun i => (i < NPROC)%nat) l ->
  k_held (w_k w) = [] -> length (ps_proc (k_ps (w_k w))) = NPROC -> pid <> 0 ->
  exists g' w', rfor l scheduler_visit (RWorld env rglob_boot []) w = Ret (tt, g') w' /\
    let g := log_switch pid (rw_g g') in let run := (i, LogEntry pid (g_timer (rw_g g'))) :: rw_trace g' in
    0 < g_numLog g /\ forall env1 w1, sys_startlog (RWorld env1 g run) w1 = Ret (-1, RWorld env1 g run) w1.
Proof.
  intros He Hn Hs Hh Hl Hp.
  destruct (visits_ok l (RWorld env rglob_boot []) w) as (tr & g' & w' & E & V & _); [by split|done|done|].
  exists g', w'. split; [exact E|]. cbv zeta. pose proof (vi_log _ _ _ _ _ _ V (log_inv_boot env)) as HL.
  destruct g' as [env1 gl tr1]. cbn [rw_g rw_trace] in *. destruct (log_switch_ok _ _ _ i pid HL) as [_ _ H3 _].
  cbn [rw_g rw_trace] in H3. set (d := dedup _ _) in H3.
  assert (0 < g_numLog (log_switch pid gl)) as Hpos.
  { rewrite H3. assert (LOG_SIZE = 100) by done. destruct d eqn:Ed; [|cbn; lia]. exfalso.
    apply dedup_nil in Ed. rewrite Forall_forall in Ed. apply Hp. apply (Ed (LogEntry pid (g_timer gl))).
    cbn [fmap list_fmap rev]. apply elem_of_app. right. by apply list_elem_of_singleton. }
  split; [done|]. intros env2 w1. unfold sys_startlog. unfold mbind, R_bind, mbind, K_bind, gget. cbn.
  by rewrite (proj2 (Z.eqb_neq _ 0)) by lia.
Qed.

(** [nice] clamps the increment but not the sum: the value grows without
    bound by repeated calls. *)
Lemma sys_nice_adds g w i inc : k_cur (w_k w) = Some i -> (i < length (ps_proc (k_ps (w_k w))))%nat ->
  inc = i32 (tf_a0 (trapframe_of (w_k w) i)) ->
  exists w', sys_nice g w = Ret (i32 (p_nice (proc_at (k_ps (w_k w)) i) + Z.max (-20) (Z.min 19 inc)), g) w'.
Proof.
  intros Hc Hi ->. unfold sys_nice.
  assert (argint 0 w = Ret (i32 (tf_a0 (trapframe_of (w_k w) i))) w) as Ea.
  { unfold argint, argraw, curproc, myproc. repeat (kstep; rewrite ?Hc; cbn beta iota). done. }
  rewrite (bind_lift _ _ _ _ _ _ Ea). set (inc := i32 _).
  assert (curproc w = Ret i w) as Ec by (unfold curproc, myproc; kstep; by rewrite Hc).
  rewrite (bind_lift _ _ _ _ _ _ Ec).
  assert (forall n, (if 19 <? inc then 19 else if inc <? -20 then -20 else inc) = n -> n = Z.max (-20) (Z.min 19 inc)) as Hmx.
  { intros n <-. destruct (Z.ltb_spec 19 inc); [lia|]. destruct (Z.ltb_spec inc (-20)); lia. }
  assert (forall v, exists w', (lift (mod_proc i (fun p => set_p_nice (i32 (p_nice p + v)) p));;
      p ← lift (get_proc i); mret (p_nice p)) g w = Ret (i32 (p_nice (proc_at (k_ps (w_k w)) i) + v), g) w') as Hrun.
  { intros v. eexists. unfold lift, mbind, R_bind, mbind, K_bind. cbn. unfold mret, R_ret, mret, K_ret. f_equal. f_equal.
    unfold proc_at at 1, upd_proc. cbn. rewrite nth_lookup, list_lookup_insert_eq by done. done. }
  rewrite <- (Hmx _ eq_refl). destruct (19 <? inc); [apply Hrun|]. destruct (inc <? -20); apply Hrun.
Qed.

(** ** Witnesses *)

(** Two processes that yield whenever they run. *)
Definition yielding (i : nat) (g : rglob) (k : kst) : rglob * kst :=
  (RGlob (g_schedlog g) (i32 (g_timer g + 1)) (g_numLog g) (g_lastProcessId g),
   set_k_ps (upd_proc i (set_p_state RUNNABLE) (k_ps k)) k).
Lemma yielding_ok : process_ok yielding.
Proof.
  split; [intros; apply length_insert| |done]. intros i g k j Hj Hr. unfold runnable, proc_at, upd_proc in *. cbn in *.
  rewrite nth_lookup, list_lookup_insert_ne by done. by rewrite <- nth_lookup.
Qed.
Definition two_procs : kst :=
  let k := kst_boot 0x80010000 in
  set_k_ps (set_ps_proc (set_p_pid 1 (set_p_state RUNNABLE proc_zero) :: set_p_pid 2 (set_p_state RUNNABLE proc_zero)
    :: replicate 62 proc_zero) (k_ps k)) k.

Lemma pass_fair_witness : exists tr g' w', scheduler_passes 1 (RWorld (replicate 64 yielding) rglob_boot []) (World [] two_procs) = Ret (tt, g') w' /\
  0%nat ∈ tr.*1 /\ 1%nat ∈ tr.*1 /\ rw_trace g' = rev tr ++ [].
Proof.
  destruct (pass_fair (RWorld (replicate 64 yielding) rglob_boot []) (World [] two_procs)) as (tr & g' & w' & E & _ & T & _ & H & _).
  - split; [reflexivity|reflexivity|]. apply Forall_replicate. exact yielding_ok.
  - simpl. unfold NPROC. lia.
  - exists tr, g', w'. split_and!; [exact E|apply H; [unfold NPROC; lia|reflexivity]|apply H; [unfold NPROC; lia|reflexivity]|exact T].
Defined.

Lemma schedlog_correct_witness : exists g' w', scheduler 2 (RWorld (replicate 128 yielding) rglob_boot []) (World [] two_procs) = Ret (tt, g') w' /\
  Z.of_nat (length (g_schedlog (rw_g g'))) = LOG_SIZE.
Proof.
  destruct (schedlog_correct 2 (replicate 128 yielding) (World [] two_procs)) as (g' & w' & E & _ & _ & H).
  - apply Forall_replicate. exact yielding_ok.
  - simpl. lia.
  - reflexivity.
  - reflexivity.
  - exists g', w'. split; [exact E|exact H].
Defined.

Lemma startlog_never_starts_witness : exists g' w', rfor [0%nat] scheduler_visit (RWorld [yielding] rglob_boot []) (World [] two_procs) = Ret (tt, g') w' /\
  0 < g_numLog (log_switch 2 (rw_g g')).
Proof.
  destruct (startlog_never_starts [0%nat] [yielding] (World [] two_procs) 1 2) as (g' & w' & E & H & _).
  - apply Forall_singleton. exact yielding_ok.
  - simpl. lia.
  - apply Forall_singleton. unfold NPROC. lia.
  - reflexivity.
  - reflexivity.
  - lia.
  - exists g', w'. split; [exact E|exact H].
Defined.
