(* ===== verification/User.v ===== *)
(** * User: the world of a user program

    User programs (directory user) run against system calls.  The world of
    a program has the data its open files still hold, the files it can
    open, and what it wrote; how many bytes a [read] delivers at once and
    whether a [write] succeeds is left open by two lists of answers, so that
    theorems hold however the input arrives.  The program returns, exits
    with a status, or does not terminate.

    Strings are lists of bytes without a NUL, or the contents of a buffer
    read up to the first NUL ([cstr]).  [char] is unsigned on RISC-V. *)

From S2P Require Import Prelude.
From S2P Require Import Kernel.
From S2P Require Import Console.

Record uworld := UWorld {
  u_fds : gmap Z (list Z);
  u_files : gmap (list Z) (list Z);
  u_reads : list Z;
  u_writes : list Z;
  u_out : Z -> list Z
}.
Definition set_u_fds v w := UWorld v (u_files w) (u_reads w) (u_writes w) (u_out w).
Definition set_u_reads v w := UWorld (u_fds w) (u_files w) v (u_writes w) (u_out w).
Definition set_u_writes v w := UWorld (u_fds w) (u_files w) (u_reads w) v (u_out w).
Definition set_u_out v w := UWorld (u_fds w) (u_files w) (u_reads w) (u_writes w) v.

Inductive ures (A : Type) :=
| URet (a : A) (w : uworld)
| UExit (status : Z) (w : uworld)
| UHang (w : uworld).
Arguments URet {A} a w.
Arguments UExit {A} status w.
Arguments UHang {A} w.

Definition U (A : Type) : Type := uworld -> ures A.
#[export] Instance U_ret : MRet U := fun A a w => URet a w.
#[export] Instance U_bind : MBind U := fun A B f m w =>
  match m w with
  | URet a w' => f a w'
  | UExit s w' => UExit s w'
  | UHang w' => UHang w'
  end.

Definition uhang {A} : U A := fun w => UHang w.
Definition exit {A} (status : Z) : U A := fun w => UExit status w.
Definition uwhen (b : bool) (m : U unit) : U unit := if b then m else mret tt.
Fixpoint ufor {B} (l : list B) (body : B -> U unit) : U unit :=
  match l with [] => mret tt | x :: l' => body x;; ufor l' body end.

(** ** System calls *)

(** [read(fd, buf, n)]: at least one byte if there is one and there is
    room, and at most what the next answer allows. *)
Definition read (fd n : Z) : U (Z * list Z) := fun w =>
  match u_fds w !! fd with
  | None => URet (-1, []) w
  | Some l =>
    let k := Z.min n (Z.max 1 (default n (head (u_reads w)))) in
    let d := take (Z.to_nat k) l in
    URet (Z.of_nat (length d), d) (set_u_reads (tail (u_reads w)) (set_u_fds (<[fd := drop (Z.to_nat k) l]> (u_fds w)) w))
  end.

(** [write(fd, l, length l)]: all of it, or as much as the next answer
    allows; -1 for a negative answer. *)
Definition write (fd : Z) (l : list Z) : U Z := fun w =>
  match u_writes w with
  | [] => URet (Z.of_nat (length l)) (set_u_out (fun f => if f =? fd then u_out w f ++ l else u_out w f) w)
  | a :: ws =>
    if a <? 0 then URet (-1) (set_u_writes ws w) else
    let d := take (Z.to_nat a) l in
    URet (Z.of_nat (length d)) (set_u_writes ws (set_u_out (fun f => if f =? fd then u_out w f ++ d else u_out w f) w))
  end.

(** [open(path, O_RDONLY)]: the lowest unused descriptor; descriptors are
    below NOFILE. *)
Fixpoint lowest_fd (n : nat) (fd : Z) (fds : gmap Z (list Z)) : option Z :=
  match n with
  | O => None
  | S n' => match fds !! fd with None => Some fd | Some _ => lowest_fd n' (fd + 1) fds end
  end.
Definition open (path : list Z) : U Z := fun w =>
  match u_files w !! path, lowest_fd 16 0 (u_fds w) with
  | Some l, Some fd => URet fd (set_u_fds (<[fd := l]> (u_fds w)) w)
  | _, _ => URet (-1) w
  end.
Definition close (fd : Z) : U Z := fun w =>
  match u_fds w !! fd with
  | Some _ => URet 0 (set_u_fds (delete fd (u_fds w)) w)
  | None => URet (-1) w
  end.

(** ** user/printf.c *)

Definition putc (fd c : Z) : U unit := write fd [u8 c];; mret tt.
Definition puts (fd : Z) (l : list Z) : U unit := ufor l (putc fd).

(** The bytes of [printint] and [printptr], which are those of the kernel
    but for the digits' case. *)
Definition udigits : list Z := bytes_of_string "0123456789ABCDEF".
Fixpoint udigits_rev (fuel : nat) (x base : Z) : list Z :=
  match fuel with
  | O => []
  | S f => aget 0 udigits (x mod base) :: (if x / base =? 0 then [] else udigits_rev f (x / base) base)
  end.
Definition uprintint_bytes (xx base : Z) (sgn : bool) : list Z :=
  let neg := sgn && (xx <? 0) in
  let x := if neg then u32 (- xx) else u32 xx in
  rev (udigits_rev 32 x base ++ (if neg then [45] else [])).
Definition uprintptr_bytes (x : Z) : list Z :=
  48 :: 120 :: ((fun i => aget 0 udigits (Z.land (Z.shiftr x (60 - 4 * Z.of_nat i)) 15)) <$> seq 0 16).

Inductive uarg := Ua_int (z : Z) | Ua_str (s : option (list Z)).

(** What [vprintf] prints; a conversion without its argument has no defined
    meaning. *)
Fixpoint vprintf_bytes (fmt : list Z) (args : list uarg) : option (list Z) :=
  match fmt with
  | [] => Some []
  | c :: fmt' =>
    if negb (c =? 37) then (fun l => c :: l) <$> vprintf_bytes fmt' args
    else match fmt' with
         | [] => Some []
         | d :: fmt'' =>
           if d =? 100 then
             match args with Ua_int z :: args' => app (uprintint_bytes (i32 z) 10 true) <$> vprintf_bytes fmt'' args' | _ => None end
           else if d =? 108 then
             match args with Ua_int z :: args' => app (uprintint_bytes (i32 z) 10 false) <$> vprintf_bytes fmt'' args' | _ => None end
           else if d =? 120 then
             match args with Ua_int z :: args' => app (uprintint_bytes (i32 z) 16 false) <$> vprintf_bytes fmt'' args' | _ => None end
           else if d =? 112 then
             match args with Ua_int z :: args' => app (uprintptr_bytes (u64 z)) <$> vprintf_bytes fmt'' args' | _ => None end
           else if d =? 115 then
             match args with Ua_str s :: args' => app (default null_string s) <$> vprintf_bytes fmt'' args' | _ => None end
           else if d =? 99 then
             match args with Ua_int z :: args' => (fun l => u8 z :: l) <$> vprintf_bytes fmt'' args' | _ => None end
           else if d =? 37 then (fun l => 37 :: l) <$> vprintf_bytes fmt'' args
           else app [37; d] <$> vprintf_bytes fmt'' args
         end
  end.
Definition vprintf (fd : Z) (fmt : list Z) (args : list uarg) : U unit :=
  match vprintf_bytes fmt args with Some l => puts fd l | None => uhang end.
Definition fprintf (fd : Z) (fmt : string) (args : list uarg) : U unit := vprintf fd (bytes_of_string fmt) args.
Definition printf (fmt : string) (args : list uarg) : U unit := vprintf 1 (bytes_of_string fmt) args.
