(* ===== verification/Ulib.v ===== *)
(** * Ulib: the user library

    user/ulib.c over byte memory.  The loops over NUL-terminated strings
    take fuel and return [None] when it runs out; the theorems show that one
    unit per byte of the string and one more are enough. *)

From S2P Require Import Prelude.
From S2P Require Import Mem.
From S2P Require Import Kernel.
From S2P Require Import User.

Fixpoint strcpy (fuel : nat) (s t : Z) (m : mem) : option mem :=
  match fuel with
  | O => None
  | S f => let c := m t in
           let m' := mstore m s c in
           if c =? 0 then Some m' else strcpy f (s + 1) (t + 1) m'
  end.
Fixpoint strcmp (fuel : nat) (p q : Z) (m : mem) : option Z :=
  match fuel with
  | O => None
  | S f => if negb (m p =? 0) && (m p =? m q) then strcmp f (p + 1) (q + 1) m else Some (u8 (m p) - u8 (m q))
  end.
Fixpoint strlen_at (fuel : nat) (s n : Z) (m : mem) : option Z :=
  match fuel with
  | O => None
  | S f => if m (s + n) =? 0 then Some n else strlen_at f s (n + 1) m
  end.
Definition strlen (fuel : nat) (s : Z) (m : mem) : option Z := strlen_at fuel s 0 m.
Definition memset (dst c n : Z) (m : mem) : mem := memset_loop (Z.to_nat n) dst c m.
(** The address of the first [c], or 0. *)
Fixpoint strchr (fuel : nat) (s c : Z) (m : mem) : option Z :=
  match fuel with
  | O => None
  | S f => if m s =? 0 then Some 0 else if m s =? c then Some s else strchr f (s + 1) c m
  end.
Definition memmove (dst src n : Z) (m : mem) : mem :=
  if dst <? src then copy_up (Z.to_nat n) dst src m else copy_down (Z.to_nat n) (dst + n) (src + n) m.
Definition memcmp (s1 s2 n : Z) (m : mem) : Z := memcmp_loop (Z.to_nat n) s1 s2 m.
Definition memcpy (dst src n : Z) (m : mem) : mem := memmove dst src n m.

(** [atoi] of a string; the sum is a C int. *)
Fixpoint atoi_loop (n : Z) (s : list Z) : Z :=
  match s with
  | c :: s' => if (48 <=? c) && (c <=? 57) then atoi_loop (i32 (n * 10 + c - 48)) s' else n
  | [] => n
  end.
Definition atoi (s : list Z) : Z := atoi_loop 0 s.

(** [gets(buf, max)]: the bytes stored in [buf] before the NUL.  Every
    iteration stores a byte. *)
Fixpoint gets_loop (k : nat) : U (list Z) :=
  match k with
  | O => mret []
  | S k' =>
    r ← read 0 1;
    if fst r <? 1 then mret [] else
    let c := default 0 (head (snd r)) in
    if (c =? 10) || (c =? 13) then mret [c] else
    l ← gets_loop k';
    mret (c :: l)
  end.
Definition gets (max : Z) : U (list Z) := gets_loop (Z.to_nat (max - 1)).

(** ** Strings in memory *)

(** The NUL-terminated string [l] at [a]. *)
Fixpoint cstring (m : mem) (a : Z) (l : list Z) : Prop :=
  match l with
  | [] => m a = 0
  | c :: l' => m a = c /\ 0 < c < 256 /\ cstring m (a + 1) l'
  end.

Lemma cstring_ext m m' l : forall a, (forall b, a <= b <= a + Z.of_nat (length l) -> m b = m' b) -> cstring m a l -> cstring m' a l.
Proof.
  induction l as [|c l IH]; intros a H; cbn [cstring length] in *.
  - by rewrite H by lia.
  - intros (H1 & H2 & H3). split_and!; [by rewrite <- H by lia|lia|lia|]. apply IH; [|done]. intros b Hb. apply H. lia.
Qed.

Lemma strlen_at_spec l : forall fuel s n m, cstring m (s + n) l -> (length l < fuel)%nat ->
  strlen_at fuel s n m = Some (n + Z.of_nat (length l)).
Proof.
  induction l as [|c l IH]; intros fuel s n m H Hf; (destruct fuel as [|fuel]; [cbn in Hf; lia|]); cbn [strlen_at cstring length] in *.
  - rewrite H. cbn. f_equal. lia.
  - destruct H as (H1 & H2 & H3). rewrite H1, (proj2 (Z.eqb_neq c 0)) by lia.
    rewrite IH; [f_equal; lia| |lia]. by replace (s + (n + 1)) with (s + n + 1) by lia.
Qed.

Lemma strcpy_spec l : forall fuel s t m, cstring m t l -> (length l < fuel)%nat ->
  (s + Z.of_nat (length l) < t \/ t + Z.of_nat (length l) < s) ->
  exists m', strcpy fuel s t m = Some m' /\ cstring m' s l /\ cstring m' t l /\
    forall b, ~ s <= b <= s + Z.of_nat (length l) -> m' b = m b.
Proof.
  induction l as [|c l IH]; intros fuel s t m H Hf Hd; (destruct fuel as [|fuel]; [cbn in Hf; lia|]); cbn [strcpy cstring length] in *.
  - rewrite H. cbn. eexists. split; [done|]. split_and!.
    + rewrite mstore_spec, decide_True by done. done.
    + rewrite mstore_spec, decide_False by lia. done.
    + intros b Hb. rewrite mstore_spec, decide_False by lia. done.
  - destruct H as (H1 & H2 & H3). rewrite H1, (proj2 (Z.eqb_neq c 0)) by lia.
    set (m1 := mstore m s c).
    assert (forall b, b <> s -> m1 b = m b) as Hm1 by (intros b Hb; unfold m1; by rewrite mstore_spec, decide_False).
    destruct (IH fuel (s + 1) (t + 1) m1) as (m' & E & A & B & C); [|lia|lia|].
    { apply (cstring_ext m); [|done]. intros b Hb. rewrite Hm1 by lia. done. }
    exists m'. split_and!; try done; try lia.
    + rewrite C by lia. unfold m1. rewrite mstore_spec, decide_True by done. apply u8_small. lia.
    + rewrite C by lia. rewrite Hm1 by lia. done.
    + intros b Hb. rewrite C by lia. apply Hm1. lia.
Qed.

(** The order of strings as [strcmp] sees it. *)
Fixpoint str_order (l l' : list Z) : Z :=
  match l, l' with
  | c :: l1, c' :: l1' => if c =? c' then str_order l1 l1' else c - c'
  | c :: _, [] => c
  | [], c' :: _ => - c'
  | [], [] => 0
  end.
Lemma strcmp_spec l : forall fuel p q m l', cstring m p l -> cstring m q l' -> (length l < fuel)%nat ->
  strcmp fuel p q m = Some (str_order l l').
Proof.
  induction l as [|c l IH]; intros fuel p q m l' Hp Hq Hf; (destruct fuel as [|fuel]; [cbn in Hf; lia|]); cbn [strcmp cstring length] in *.
  - rewrite Hp. cbn. f_equal. destruct l' as [|c' l']; cbn in Hq; [by rewrite Hq|].
    destruct Hq as (-> & ? & _). rewrite (u8_small c') by lia. done.
  - destruct Hp as (H1 & H2 & H3). rewrite H1, (proj2 (Z.eqb_neq c 0)) by lia. cbn [negb andb str_order].
    destruct l' as [|c' l']; cbn in Hq.
    + rewrite Hq, (proj2 (Z.eqb_neq c 0)) by lia. f_equal. rewrite !u8_small by lia. lia.
    + destruct Hq as (-> & ? & Hq). destruct (c =? c'); [apply IH; (done || lia)|]. by rewrite !u8_small by lia.
Qed.
Lemma str_order_eq l : forall l', Forall (fun c => 0 < c) l -> Forall (fun c => 0 < c) l' -> (str_order l l' = 0 <-> l = l').
Proof.
  induction l as [|c l IH]; intros [|c' l'] H H'; cbn; [done|..].
  - apply Forall_cons in H' as [? _]. split; [lia|done].
  - apply Forall_cons in H as [? _]. split; [lia|done].
  - apply Forall_cons in H as [? H], H' as [? H']. destruct (Z.eqb_spec c c') as [->|Hne].
    + rewrite IH by done. split; [by intros ->|by intros [= ->]].
    + split; [lia|by intros [= ]].
Qed.

Definition is_digit (c : Z) : Prop := 48 <= c <= 57.
Lemma atoi_loop_app a : forall n b, Forall is_digit a -> atoi_loop n (a ++ b) = atoi_loop (atoi_loop n a) b.
Proof.
  induction a as [|c a IH]; intros n b H; [done|]. apply Forall_cons in H as [Hc H]. unfold is_digit in Hc.
  cbn [app atoi_loop]. rewrite (proj2 (Z.leb_le 48 c)), (proj2 (Z.leb_le c 57)) by lia. cbn [andb]. by apply IH.
Qed.
Lemma udigit10 x : 0 <= x < 10 -> aget 0 udigits x = 48 + x.
Proof.
  intros H. assert (x ∈ seqZ 0 10) as Hin by (apply elem_of_seqZ; lia). clear H. revert x Hin. apply Forall_forall.
  repeat constructor.
Qed.
Lemma udigits_rev_spec f : forall x, 0 <= x < 10 ^ Z.of_nat f -> 0 <= x < 2 ^ 31 -> (0 < f)%nat ->
  Forall is_digit (rev (udigits_rev f x 10)) /\ atoi_loop 0 (rev (udigits_rev f x 10)) = x.
Proof.
  induction f as [|f IH]; intros x Hx Hb Hf; [lia|]. cbn [udigits_rev]. pose proof (Z.mod_pos_bound x 10 ltac:(lia)) as Hm.
  rewrite udigit10 by done. set (r := if x / 10 =? 0 then [] else udigits_rev f (x / 10) 10).
  assert (Forall is_digit (rev r) /\ atoi_loop 0 (rev r) = x / 10) as [Hd Ha].
  { unfold r. destruct (Z.eqb_spec (x / 10) 0) as [E|E]; [by rewrite E|].
    apply IH.
    - split; [zlia|]. apply Z.div_lt_upper_bound; [lia|]. rewrite Nat2Z.inj_succ, Z.pow_succ_r in Hx by lia. lia.
    - zlia.
    - destruct f; [|lia]. change (10 ^ Z.of_nat 1) with 10 in Hx. zlia. }
  cbn [rev]. split.
  - apply Forall_app. split; [done|]. repeat constructor; lia.
  - rewrite atoi_loop_app, Ha by done. cbn [atoi_loop].
    rewrite (proj2 (Z.leb_le 48 _)), (proj2 (Z.leb_le _ 57)) by lia. cbn [andb]. rewrite i32_small; zlia.
Qed.

(** ** Theorems *)

(** The string functions of the user library terminate and agree on
    what a string is.  [strcpy] to a place that does not overlap stores a
    copy and changes no other byte; [strlen] of it is the length, [strcmp]
    with the original is 0, and [strcmp] of any two strings is their
    lexicographic order, 0 exactly for equal strings. *)
Theorem ustrings_correct m fuel s t q l l' : cstring m t l -> cstring m q l' ->
  (length l < fuel)%nat -> (s + Z.of_nat (length l) < t \/ t + Z.of_nat (length l) < s) ->
  (exists m', strcpy fuel s t m = Some m' /\ strlen fuel s m' = Some (Z.of_nat (length l)) /\
     strcmp fuel s t m' = Some 0 /\ forall b, ~ s <= b <= s + Z.of_nat (length l) -> m' b = m b) /\
  exists r, strcmp fuel t q m = Some r /\ (r = 0 <-> l = l').
Proof.
  intros Ht Hq Hf Hd.
  assert (forall a x, cstring m a x -> Forall (fun c => 0 < c) x) as Hpos.
  { intros a x. revert a. induction x as [|c x IH]; intros a H; constructor; cbn in H; [lia|]. eapply IH, H. }
  split.
  - destruct (strcpy_spec l fuel s t m Ht Hf Hd) as (m' & E & A & B & C). exists m'. split_and!; try done.
    + unfold strlen. rewrite (strlen_at_spec l) by (rewrite ?Z.add_0_r; done). f_equal.
    + rewrite (strcmp_spec l fuel s t m' l) by done. f_equal. by apply str_order_eq; [eapply Hpos|eapply Hpos|].
  - exists (str_order l l'). split; [by apply strcmp_spec|]. apply str_order_eq; by eapply Hpos.
Qed.

(** [atoi] reads back what [printf("%d")] prints: every non-negative
    int, whatever characters other than digits follow. *)
Theorem atoi_printint n rest : 0 <= n < 2 ^ 31 -> match rest with c :: _ => ~ is_digit c | [] => True end ->
  atoi (uprintint_bytes n 10 true ++ rest) = n.
Proof.
  intros Hn Hr. unfold uprintint_bytes. rewrite (proj2 (Z.ltb_ge n 0)) by lia. cbn [andb]. cbv zeta. rewrite u32_small by lia.
  rewrite app_nil_r. destruct (udigits_rev_spec 32 n) as [Hd Ha]; [split; [lia|]|done|lia|].
  { apply Z.lt_le_trans with (2 ^ 31); [lia|]. apply Z.leb_le. vm_compute. reflexivity. }
  unfold atoi. rewrite atoi_loop_app, Ha by done. destruct rest as [|c rest]; [done|]. cbn [atoi_loop].
  destruct ((48 <=? c) && (c <=? 57)) eqn:E; [|done]. apply andb_true_iff in E as [E1 E2].
  destruct Hr. split; lia.
Qed.

(** ** Witnesses *)

Definition str_mem : mem := store_bytes [97; 98; 0; 97; 99; 0] 100 (fun _ => 0).
Lemma ustrings_correct_witness : exists m', strcpy 3 200 100 str_mem = Some m' /\ strcmp 3 200 100 m' = Some 0.
Proof.
  destruct (ustrings_correct str_mem 3 200 100 103 [97; 98] [97; 99]) as [(m' & E & _ & C & _) _].
  - repeat split; reflexivity.
  - repeat split; reflexivity.
  - simpl. lia.
  - right. simpl. lia.
  - exists m'. split; [exact E|exact C].
Defined.
Lemma atoi_printint_witness : atoi (uprintint_bytes 1234 10 true ++ [32]) = 1234.
Proof. apply (atoi_printint 1234 [32]); [lia|]. unfold is_digit. lia. Defined.
