(* ===== verification/Tools.v ===== *)
(** * Tools: the small user programs

    user/ls.c, rm.c, ln.c, mkdir.c, kill.c and init.c, [stat] of
    user/ulib.c, and the random numbers of user/grind.c.  System calls that
    the world of User.v does not have are parameters of the section. *)

From Stdlib Require Import Znumtheory.
From S2P Require Import Prelude.
From S2P Require Import Kernel.
From S2P Require Import Mem.
From S2P Require Import Console.
From S2P Require Import User.
From S2P Require Import Ulib.

(** ** The random numbers of grind.c *)

Module Grind.
(** [do_rand(ctx)]: the result, which is also the new value of [*ctx], an
    unsigned long.  [long] arithmetic: the quotients are those of C. *)
Definition do_rand (ctx : Z) : Z :=
  let x := i64 (ctx mod 0x7ffffffe + 1) in
  let hi := Z.quot x 127773 in
  let lo := Z.rem x 127773 in
  let x := i64 (i64 (16807 * lo) - i64 (2836 * hi)) in
  let x := if x <? 0 then i64 (x + 0x7fffffff) else x in
  i64 (x - 1).
(** [rand()], with the new value of [rand_next]; the result is an int. *)
Definition rand (rand_next : Z) : Z * Z := let x := do_rand rand_next in (i32 x, u64 x).
End Grind.

(** ** ls.c: names *)

Module Ls.
Definition DIRSIZ : Z := 14.
Definition SLASH : Z := 47.
(** The loop [for(p=path+strlen(path); p >= path && *p != '/'; p--)], for
    [p = path + j - 1], and the [p++] after it: the offset of the last
    element. *)
Fixpoint last_elem (path : list Z) (j : nat) : nat :=
  match j with
  | O => O
  | S p => if nth p path 0 =? SLASH then j else last_elem path p
  end.
(** What the result of [fmtname] points to, up to its NUL; the last byte of
    [buf] is never written and is 0. *)
Definition fmtname (path : list Z) : list Z :=
  let p := drop (last_elem path (S (length path))) path in
  if DIRSIZ <=? Z.of_nat (length p) then p
  else p ++ replicate (Z.to_nat (DIRSIZ - Z.of_nat (length p))) 32.
End Ls.

Record ustat := UStat { st_dev : Z; st_ino : Z; st_type : Z; st_nlink : Z; st_size : Z }.
Definition T_DIR : Z := 1.
Definition T_FILE : Z := 2.
Definition T_DEVICE : Z := 3.

Section tools.
(** Results of [fstat], [mkdir], [kill], [mknod], [dup], [fork] and
    [wait(0)]; [exec "sh"], which returns only when it fails. *)
Context (fstat : Z -> U (option ustat)) (mkdir : list Z -> U Z) (kill : Z -> U Z).
Context (mknod : list Z -> Z -> U Z) (dup : Z -> U Z) (fork wait exec_sh : U Z).

(** [stat(n, st)] of user/ulib.c. *)
Definition stat (n : list Z) : U (option ustat) :=
  fd ← open n;
  if fd <? 0 then mret None else
  r ← fstat fd;
  close fd;;
  mret r.

(** *** ls.c *)

(** The entries of a directory; [buf] has the path with its slash. *)
Fixpoint ls_entries (fuel : nat) (fd : Z) (buf : list Z) : U unit :=
  r ← read fd 16;
  if negb (fst r =? 16) then mret tt else
  match fuel with
  | O => uhang
  | S f =>
    let inum := nth 0 (snd r) 0 + 256 * nth 1 (snd r) 0 in
    if inum =? 0 then ls_entries f fd buf else
    let name := buf ++ cstr (drop 2 (snd r)) in
    st ← stat name;
    match st with
    | None => printf "ls: cannot stat %s
" [Ua_str (Some name)];; ls_entries f fd buf
    | Some st => printf "%s %d %d %d
" [Ua_str (Some (Ls.fmtname name)); Ua_int (st_type st); Ua_int (st_ino st); Ua_int (st_size st)];;
                 ls_entries f fd buf
    end
  end.
Definition ls (path : list Z) : U unit :=
  fd ← open path;
  if fd <? 0 then fprintf 2 "ls: cannot open %s
" [Ua_str (Some path)] else
  st ← fstat fd;
  match st with
  | None => fprintf 2 "ls: cannot stat %s
" [Ua_str (Some path)];; close fd;; mret tt
  | Some st =>
    (if (st_type st =? T_DEVICE) || (st_type st =? T_FILE) then
       printf "%s %d %d %l
" [Ua_str (Some (Ls.fmtname path)); Ua_int (st_type st); Ua_int (st_ino st); Ua_int (st_size st)]
     else if st_type st =? T_DIR then
       if 512 <? Z.of_nat (length path) + 1 + Ls.DIRSIZ + 1 then printf "ls: path too long
" []
       else fun w => ls_entries (length (default [] (u_fds w !! fd))) fd (path ++ [Ls.SLASH]) w
     else mret tt);;
    close fd;; mret tt
  end.
Definition ls_main (argv : list (list Z)) : U unit :=
  match tail argv with
  | [] => ls (bytes_of_string ".");; exit 0
  | args => ufor args ls;; exit 0
  end.

(** *** rm.c, ln.c, mkdir.c, kill.c *)

Definition set_u_files v w := UWorld (u_fds w) v (u_reads w) (u_writes w) (u_out w).
(** [unlink] and [link] on the files of the world. *)
Definition unlink (path : list Z) : U Z := fun w =>
  match u_files w !! path with
  | Some _ => URet 0 (set_u_files (delete path (u_files w)) w)
  | None => URet (-1) w
  end.
Definition link (old new : list Z) : U Z := fun w =>
  match u_files w !! old, u_files w !! new with
  | Some l, None => URet 0 (set_u_files (<[new := l]> (u_files w)) w)
  | _, _ => URet (-1) w
  end.

Fixpoint rm_files (files : list (list Z)) : U unit :=
  match files with
  | [] => mret tt
  | f :: files' =>
    r ← unlink f;
    if r <? 0 then fprintf 2 "rm: %s failed to delete
" [Ua_str (Some f)] else rm_files files'
  end.
Definition rm_main (argv : list (list Z)) : U unit :=
  match tail argv with
  | [] => fprintf 2 "Usage: rm files...
" [];; exit 1
  | files => rm_files files;; exit 0
  end.

Definition ln_main (argv : list (list Z)) : U unit :=
  match argv with
  | [_; old; new] =>
    r ← link old new;
    uwhen (r <? 0) (fprintf 2 "link %s %s: failed
" [Ua_str (Some old); Ua_str (Some new)]);;
    exit 0
  | _ => fprintf 2 "Usage: ln old new
" [];; exit 1
  end.

Fixpoint mkdir_files (files : list (list Z)) : U unit :=
  match files with
  | [] => mret tt
  | f :: files' =>
    r ← mkdir f;
    if r <? 0 then fprintf 2 "mkdir: %s failed to create
" [Ua_str (Some f)] else mkdir_files files'
  end.
Definition mkdir_main (argv : list (list Z)) : U unit :=
  match tail argv with
  | [] => fprintf 2 "Usage: mkdir files...
" [];; exit 1
  | files => mkdir_files files;; exit 0
  end.

Definition kill_main (argv : list (list Z)) : U unit :=
  match tail argv with
  | [] => fprintf 2 "usage: kill pid...
" [];; exit 1
  | pids => ufor pids (fun p => kill (atoi p);; mret tt);; exit 0
  end.

(** *** init.c *)

Definition CONSOLE : Z := 1.
(** The loop of [wait] calls, and the loop that starts shells; without
    fuel the program runs on. *)
Fixpoint init_wait (fuel : nat) (pid : Z) : U unit :=
  match fuel with
  | O => uhang
  | S f =>
    wpid ← wait;
    if wpid =? pid then mret tt
    else if wpid <? 0 then printf "init: wait returned an error
" [];; exit 1
    else init_wait f pid
  end.
Fixpoint init_loop (fuel : nat) : U unit :=
  match fuel with
  | O => uhang
  | S f =>
    printf "init: starting sh
" [];;
    pid ← fork;
    if pid <? 0 then printf "init: fork failed
" [];; exit 1 else
    if pid =? 0 then exec_sh;; printf "init: exec sh failed
" [];; exit 1 else
    init_wait fuel pid;;
    init_loop f
  end.
Definition init_main (fuel : nat) : U unit :=
  fd ← open (bytes_of_string "console");
  uwhen (fd <? 0) (mknod (bytes_of_string "console") CONSOLE;; open (bytes_of_string "console");; mret tt);;
  dup 0;;
  dup 0;;
  init_loop fuel.
End tools.

(** ** Random numbers *)

Lemma schrage x : 1 <= x <= 0x7ffffffe -> let hi := x / 127773 in let lo := x mod 127773 in
  0 <= 16807 * lo < 2 ^ 31 /\ 0 <= 2836 * hi < 2 ^ 31 /\
  (let y := 16807 * lo - 2836 * hi in if y <? 0 then y + 0x7fffffff else y) = (16807 * x) mod 0x7fffffff.
Proof.
  intros Hx hi lo. pose proof (Z.div_mod x 127773 ltac:(lia)) as E. fold hi lo in E.
  assert (0 <= lo < 127773) as Hlo by (apply Z.mod_pos_bound; lia).
  assert (0 <= hi < 16808) as Hhi by (split; [apply Z.div_pos; lia|apply Z.div_lt_upper_bound; lia]).
  split; [lia|]. split; [lia|]. cbv zeta.
  assert (lo = 127772 -> hi < 16807) as Hc by lia.
  destruct (Z.ltb_spec (16807 * lo - 2836 * hi) 0).
  - apply (Z.mod_unique _ _ (hi - 1)); lia.
  - apply (Z.mod_unique _ _ hi); lia.
Qed.

(** Multiplication by 16807 has an inverse modulo 2^31 - 1. *)
Lemma times_16807_inj x y : 0 <= x < 0x7fffffff -> 0 <= y < 0x7fffffff ->
  (16807 * x) mod 0x7fffffff = (16807 * y) mod 0x7fffffff -> x = y.
Proof.
  intros Hx Hy E.
  assert (forall z, 0 <= z < 0x7fffffff -> (1407677000 * ((16807 * z) mod 0x7fffffff)) mod 0x7fffffff = z) as Hi.
  { intros z Hz. rewrite Z.mul_mod_idemp_r by lia.
    replace (1407677000 * (16807 * z)) with (z + (11017 * z) * 0x7fffffff) by ring.
    rewrite Z.mod_add by lia. by apply Z.mod_small. }
  rewrite <- (Hi x), <- (Hi y) by done. by rewrite E.
Qed.

(** 2^31 - 1 is no multiple of 16807: the product is never 0. *)
Lemma times_16807_pos x : 1 <= x <= 0x7ffffffe -> 1 <= (16807 * x) mod 0x7fffffff <= 0x7ffffffe.
Proof.
  intros Hx. pose proof (Z.mod_pos_bound (16807 * x) 0x7fffffff ltac:(lia)).
  assert ((16807 * x) mod 0x7fffffff <> 0); [|lia]. intros E0.
  assert (x = 0); [|lia]. apply times_16807_inj; [lia..|]. by rewrite E0.
Qed.

Lemma i64_small z : - 2 ^ 63 <= z < 2 ^ 63 -> i64 z = z.
Proof. intros. unfold i64. rewrite Z.mod_small; lia. Qed.

Lemma do_rand_ok s : 0 <= s < 2 ^ 64 -> Grind.do_rand s = (16807 * (s mod 0x7ffffffe + 1)) mod 0x7fffffff - 1.
Proof.
  intros Hs. unfold Grind.do_rand. pose proof (Z.mod_pos_bound s 0x7ffffffe ltac:(lia)) as Hm.
  set (x := s mod 0x7ffffffe + 1). assert (1 <= x <= 0x7ffffffe) as Hx by lia. clearbody x.
  rewrite (i64_small x) by lia. rewrite Z.quot_div_nonneg, Z.rem_mod_nonneg by lia.
  destruct (schrage x Hx) as (H1 & H2 & E). cbv zeta in *. pose proof (times_16807_pos x Hx) as Hp. rewrite <- E in *.
  rewrite (i64_small (16807 * _)), (i64_small (2836 * _)), (i64_small (_ - 2836 * _)) by lia.
  destruct (_ <? 0); rewrite ?(i64_small (_ + _)) by lia; by rewrite i64_small by lia.
Qed.

(** C38: [do_rand] is the generator of Park and Miller: with the
    state moved to 1 .. 2^31 - 2, it is multiplication by 7^5 modulo
    2^31 - 1, moved back.  Both products it computes are below 2^31, the
    result is between 0 and 0x7ffffffd (so [rand] loses nothing by
    returning an int, and the state is what it returned), and on that range
    the generator is injective: different states stay different. *)
Theorem do_rand_correct s : 0 <= s < 2 ^ 64 -> let x := s mod 0x7ffffffe + 1 in
  0 <= 16807 * (x mod 127773) < 2 ^ 31 /\ 0 <= 2836 * (x / 127773) < 2 ^ 31 /\
  Grind.do_rand s = (7 ^ 5 * x) mod (2 ^ 31 - 1) - 1 /\
  0 <= Grind.do_rand s <= 0x7ffffffd /\ Grind.rand s = (Grind.do_rand s, Grind.do_rand s) /\
  (forall s', 0 <= s <= 0x7ffffffd -> 0 <= s' <= 0x7ffffffd -> Grind.do_rand s = Grind.do_rand s' -> s = s').
Proof.
  intros Hs x. pose proof (Z.mod_pos_bound s 0x7ffffffe ltac:(lia)) as Hm.
  assert (1 <= x <= 0x7ffffffe) as Hx by (unfold x; lia). destruct (schrage x Hx) as (H1 & H2 & _).
  pose proof (times_16807_pos x Hx) as Hp. pose proof (do_rand_ok s Hs) as E. fold x in E. change (7 ^ 5) with 16807. change (2 ^ 31 - 1) with 0x7fffffff.
  split_and!; [lia..|done|lia|lia| |].
  - unfold Grind.rand. rewrite i32_small, u64_small by lia. done.
  - intros s' Hr Hr' Eq. rewrite (do_rand_ok s'), E in Eq by lia. unfold x in Eq.
    rewrite !(Z.mod_small _ 0x7ffffffe) in Eq by lia. assert (s + 1 = s' + 1); [|lia]. apply times_16807_inj; lia.
Qed.

(** ** ls *)

Lemma last_elem_ok pre p : (forall c, c ∈ p -> c <> Ls.SLASH) -> (pre = [] \/ last pre = Some Ls.SLASH) ->
  forall j, (length pre <= j <= S (length pre + length p))%nat -> Ls.last_elem (pre ++ p) j = length pre.
Proof.
  intros Hp Hpre. induction j as [|j IH]; intros Hj; cbn [Ls.last_elem]; [lia|].
  destruct (decide (length pre = S j)) as [E|E].
  - destruct Hpre as [->|Hl]; [done|]. rewrite app_nth1 by lia. rewrite last_lookup in Hl. rewrite E in Hl. cbn in Hl.
    rewrite nth_lookup, Hl. cbn. done.
  - rewrite app_nth2 by lia. destruct (Z.eqb_spec (nth (j - length pre) p 0) Ls.SLASH) as [Es|]; [|apply IH; lia].
    exfalso. rewrite nth_lookup in Es. destruct (p !! (j - length pre)%nat) as [c|] eqn:Ec; [|done].
    by apply (Hp c); [by apply list_elem_of_lookup_2 in Ec|].
Qed.

(** [fmtname] gives the last element of the path, filled up with blanks to
    the length of a directory entry. *)
Theorem fmtname_correct pre p : (forall c, c ∈ p -> c <> Ls.SLASH) -> (pre = [] \/ last pre = Some Ls.SLASH) ->
  Ls.fmtname (pre ++ p) = p ++ replicate (14 - length p) 32.
Proof.
  intros Hp Hpre. unfold Ls.fmtname. rewrite (last_elem_ok pre p) by (rewrite ?length_app; done || lia).
  rewrite drop_app_length. unfold Ls.DIRSIZ. destruct (Z.leb_spec 14 (Z.of_nat (length p))).
  - replace (14 - length p)%nat with O by lia. by rewrite app_nil_r.
  - do 2 f_equal. lia.
Qed.

(** ** rm *)

(** The files removed: up to the first that does not exist. *)
Fixpoint rm_spec (files : list (list Z)) (fs : gmap (list Z) (list Z)) : gmap (list Z) (list Z) * option (list Z) :=
  match files with
  | [] => (fs, None)
  | f :: files' => match fs !! f with Some _ => rm_spec files' (delete f fs) | None => (fs, Some f) end
  end.

(** [rm] removes its arguments up to the first that it cannot, reports that
    one, and exits with 0 in any case. *)
Theorem rm_correct files w cmd : files <> [] ->
  let r := rm_spec files (u_files w) in
  match snd r with
  | None => rm_main (cmd :: files) w = UExit 0 (set_u_files (fst r) w)
  | Some f => rm_main (cmd :: files) w =
      (fprintf 2 "rm: %s failed to delete
" [Ua_str (Some f)];; exit 0) (set_u_files (fst r) w)
  end.
Proof.
  intros Hne. unfold rm_main. cbn [tail]. destruct files as [|f0 l0]; [done|]. set (files := f0 :: l0). clearbody files. clear f0 l0 Hne. cbv zeta.
  revert w. induction files as [|f files IH]; intros w; cbn [rm_spec rm_files].
  - by destruct w.
  - unfold unlink at 1 2. destruct (u_files w !! f) as [l|] eqn:El.
    + specialize (IH (set_u_files (delete f (u_files w)) w)). cbn [u_files set_u_files] in IH.
      unfold mbind, U_bind in *. rewrite El. cbn. destruct (rm_spec files (delete f (u_files w))) as [fs [g|]]; cbn in *; exact IH.
    + cbn [fst snd]. unfold mbind, U_bind. rewrite El. cbn. by destruct w.
Qed.

(** ** Witnesses *)

Lemma do_rand_correct_witness : Grind.do_rand 1 = 33613 /\ 0 <= Grind.do_rand 1 <= 0x7ffffffd.
Proof. split; [reflexivity|]. destruct (do_rand_correct 1) as (_ & _ & _ & H & _); [split; [discriminate|reflexivity]|exact H]. Defined.

Example fmtname_example : Ls.fmtname (bytes_of_string "./README") = bytes_of_string "README        ".
Proof. reflexivity. Qed.
