(* ===== verification/Grep.v ===== *)
(** * Grep: regular expressions and grep

    user/grep.c: the matcher of Kernighan and Pike, and the program that
    prints the lines of its input that match.  The matcher is compared with
    the language of the expression, the program with a filter on lines. *)

From S2P Require Import Prelude.
From S2P Require Import Kernel.
From S2P Require Import Console.
From S2P Require Import User.

(** ** The matcher

    Strings are the lists of bytes before the NUL. *)

Definition CARET : Z := 94.
Definition STAR : Z := 42.
Definition DOLLAR : Z := 36.
Definition DOT : Z := 46.
Definition NL : Z := 10.

(** The loop of [matchstar]; [mh] is [matchhere] of the expression after
    the star. *)
Fixpoint matchstar (mh : list Z -> bool) (c : Z) (text : list Z) : bool :=
  mh text || match text with
             | t :: text' => if (t =? c) || (c =? DOT) then matchstar mh c text' else false
             | [] => false
             end.
Fixpoint matchhere (re text : list Z) : bool :=
  match re with
  | [] => true
  | c :: re1 =>
    let single :=
      if (c =? DOLLAR) && match re1 with [] => true | _ => false end then match text with [] => true | _ => false end
      else match text with
           | t :: text' => if (c =? DOT) || (c =? t) then matchhere re1 text' else false
           | [] => false
           end in
    match re1 with
    | s :: re2 => if s =? STAR then matchstar (matchhere re2) c text else single
    | [] => single
    end
  end.
(** The loop of [match]. *)
Fixpoint match_loop (re text : list Z) : bool :=
  matchhere re text || match text with _ :: text' => match_loop re text' | [] => false end.
Definition match_ (re text : list Z) : bool :=
  match re with
  | c :: re' => if c =? CARET then matchhere re' text else match_loop re text
  | [] => match_loop re text
  end.

(** ** The program *)

(** The first newline at or after [p] and before the first NUL. *)
Fixpoint strchr_nl (l : list Z) (p : nat) : option nat :=
  match l with
  | [] => None
  | c :: l' => if c =? 0 then None else if c =? NL then Some p else strchr_nl l' (S p)
  end.

Definition GREPBUF : Z := 1024.

(** The inner loop of [grep]: the lines of [buf] from [p] on.  Returns the
    buffer and the position of the first line without a newline.  There
    are at most as many lines as bytes. *)
Fixpoint grep_lines (fuel : nat) (pattern : list Z) (buf : list Z) (p : nat) : U (list Z * nat) :=
  match strchr_nl (drop p buf) p with
  | None => mret (buf, p)
  | Some q =>
    match fuel with
    | O => uhang
    | S f =>
      let buf := <[q := 0]> buf in
      (if match_ pattern (cstr (drop p buf)) then
         let buf := <[q := NL]> buf in
         write 1 (take (q + 1 - p) (drop p buf));;
         grep_lines f pattern buf (q + 1)
       else grep_lines f pattern buf (q + 1))
    end
  end.

(** [memmove(buf, p, m)] of the rest of the buffer. *)
Definition splice_at (buf : list Z) (i : nat) (d : list Z) : list Z := take i buf ++ d ++ drop (i + length d) buf.

Fixpoint grep_loop (fuel : nat) (pattern : list Z) (fd : Z) (buf : list Z) (m : Z) : U (list Z) :=
  r ← read fd (GREPBUF - m - 1);
  if 0 <? fst r then
    match fuel with
    | O => uhang
    | S f =>
      let buf := splice_at buf (Z.to_nat m) (snd r) in
      let m := m + fst r in
      let buf := <[Z.to_nat m := 0]> buf in
      s ← grep_lines (length buf) pattern buf 0;
      let '(buf, p) := s in
      if 0 <? m then
        let m := m - Z.of_nat p in
        grep_loop f pattern fd (splice_at buf 0 (take (Z.to_nat m) (drop p buf))) m
      else grep_loop f pattern fd buf m
    end
  else mret buf.

(** Every iteration reads at least one byte.  The buffer is a global
    variable, passed from call to call. *)
Definition grep (pattern : list Z) (fd : Z) (buf : list Z) : U (list Z) := fun w =>
  grep_loop (length (default [] (u_fds w !! fd))) pattern fd buf 0 w.

Fixpoint grep_files (pattern : list Z) (files : list (list Z)) (buf : list Z) : U unit :=
  match files with
  | [] => exit 0
  | f :: files' =>
    fd ← open f;
    if fd <? 0 then printf "grep: cannot open %s
" [Ua_str (Some f)];; exit 1 else
    buf ← grep pattern fd buf;
    close fd;;
    grep_files pattern files' buf
  end.
Definition main (argv : list (list Z)) : U unit :=
  let buf := replicate (Z.to_nat GREPBUF) 0 in
  match argv with
  | _ :: pattern :: files =>
    match files with
    | [] => grep pattern 0 buf;; exit 0
    | _ => grep_files pattern files buf
    end
  | _ => fprintf 2 "usage: grep pattern [file ...]
" [];; exit 1
  end.

(** ** The language of an expression *)

(** A character, a period for any, and a character with a star. *)
Inductive item := One (c : Z) | Star (c : Z).
Definition char_ok (c t : Z) : Prop := c = DOT \/ c = t.

Inductive lang : list item -> list Z -> Prop :=
| lang_nil : lang [] []
| lang_one c r t s : char_ok c t -> lang r s -> lang (One c :: r) (t :: s)
| lang_star_nil c r s : lang r s -> lang (Star c :: r) s
| lang_star_cons c r t s : char_ok c t -> lang (Star c :: r) s -> lang (Star c :: r) (t :: s).

(** The items of an expression, and whether it ends with the anchor [$]. *)
Fixpoint parse_re (re : list Z) : list item * bool :=
  match re with
  | [] => ([], false)
  | c :: re1 =>
    let single := match re1 with
                  | [] => if c =? DOLLAR then ([], true) else ([One c], false)
                  | _ => let r := parse_re re1 in (One c :: fst r, snd r)
                  end in
    match re1 with
    | s :: re2 => if s =? STAR then let r := parse_re re2 in (Star c :: fst r, snd r) else single
    | [] => single
    end
  end.

(** [text] has a part in the language of [re], at its beginning if [re]
    starts with a caret and up to its end if it ends with a dollar. *)
Definition re_here (re : list item * bool) (text : list Z) : Prop :=
  exists mid post, text = mid ++ post /\ lang (fst re) mid /\ (snd re = true -> post = []).
Definition re_matches (re text : list Z) : Prop :=
  match re with
  | c :: re' =>
    if c =? CARET then re_here (parse_re re') text
    else exists pre suf, text = pre ++ suf /\ re_here (parse_re re) suf
  | [] => True
  end.

Lemma char_okb c t : (c =? DOT) || (c =? t) = true <-> char_ok c t.
Proof. unfold char_ok. rewrite orb_true_iff, !Z.eqb_eq. done. Qed.

Lemma re_here_one c r e t text : re_here (One c :: r, e) (t :: text) <-> char_ok c t /\ re_here (r, e) text.
Proof.
  split.
  - intros (mid & post & E & L & H). inversion L; subst; cbn [fst snd] in *. simplify_eq/=. split; [done|]. by exists s, post.
  - intros (Hc & mid & post & -> & L & H). exists (t :: mid), post. split_and!; [done|by constructor|done].
Qed.
Lemma re_here_one_nil c r e : ~ re_here (One c :: r, e) [].
Proof. intros (mid & post & E & L & H). inversion L; subst. done. Qed.

Lemma re_here_star c r e text : re_here (Star c :: r, e) text <->
  re_here (r, e) text \/ exists t text', text = t :: text' /\ char_ok c t /\ re_here (Star c :: r, e) text'.
Proof.
  split.
  - intros (mid & post & -> & L & H). inversion L; subst; cbn [fst snd] in *.
    + left. by exists mid, post.
    + right. exists t, (s ++ post). split_and!; [done|done|]. by exists s, post.
  - intros [(mid & post & -> & L & H)|(t & text' & -> & Hc & mid & post & -> & L & H)].
    + exists mid, post. split_and!; [done|by constructor|done].
    + exists (t :: mid), post. split_and!; [done|by apply lang_star_cons|done].
Qed.

Lemma matchstar_spec (mh : list Z -> bool) c r e text : (forall s, mh s = true <-> re_here (r, e) s) ->
  (matchstar mh c text = true <-> re_here (Star c :: r, e) text).
Proof.
  intros Hm. induction text as [|t text IH]; cbn [matchstar]; rewrite orb_true_iff, Hm, re_here_star.
  - split; [intros [H|H]; [by left|done]|intros [H|(t & ? & ? & _)]; [by left|done]].
  - rewrite Z.eqb_sym, orb_comm. destruct ((c =? DOT) || (c =? t)) eqn:E.
    + rewrite IH. apply char_okb in E. split; [intros [H|H]; [by left|right; by exists t, text]|].
      intros [H|(t' & text' & ? & ? & ?)]; [by left|right; by simplify_eq].
    + split; [intros [H|H]; [by left|done]|]. intros [H|(t' & text' & ? & Hc & ?)]; [by left|]. simplify_eq.
      apply char_okb in Hc. congruence.
Qed.

Lemma matchhere_spec n : forall re, (length re <= n)%nat -> forall text, matchhere re text = true <-> re_here (parse_re re) text.
Proof.
  induction n as [|n IH]; intros re Hn text; (destruct re as [|c re1]; [|cbn [length] in Hn; try lia]).
  1,2: split; [intros _; exists [], text; by split_and!; [|constructor|]|done].
  cbn [matchhere parse_re]. destruct re1 as [|s re2].
  - rewrite andb_true_r. destruct (c =? DOLLAR).
    + split.
      * destruct text; [|done]. intros _. exists [], []. by split_and!; [|constructor|].
      * intros (mid & post & -> & L & H). inversion L; subst. by rewrite H.
    + destruct text as [|t text]; [split; [done|]; intros H; by apply re_here_one_nil in H|].
      rewrite re_here_one. rewrite <- char_okb. destruct (_ || _); [|split; [done|by intros []]].
      split; [intros _; split; [done|]; exists [], text; by split_and!; [|constructor|]|done].
  - destruct (s =? STAR).
    + rewrite (surjective_pairing (parse_re re2)) at 1. cbn [fst snd].
      apply matchstar_spec. intros s'. rewrite <- surjective_pairing. apply IH. cbn [length] in Hn. lia.
    + rewrite andb_false_r. destruct text as [|t text]; [split; [done|]; intros H; by apply re_here_one_nil in H|].
      rewrite re_here_one, <- char_okb, <- surjective_pairing. rewrite <- IH by (cbn [length] in *; lia).
      destruct (_ || _); [|split; [done|by intros []]]. split; [by split|by intros []].
Qed.

Lemma match_loop_spec re text : match_loop re text = true <-> exists pre suf, text = pre ++ suf /\ re_here (parse_re re) suf.
Proof.
  induction text as [|t text IH]; cbn [match_loop]; rewrite orb_true_iff, (matchhere_spec (length re)) by done.
  - split; [intros [H|H]; [by exists [], []|done]|]. intros (pre & suf & E & H). left.
    symmetry in E. apply app_eq_nil in E as [-> ->]. done.
  - rewrite IH. split.
    + intros [H|(pre & suf & -> & H)]; [by exists [], (t :: text)|by exists (t :: pre), suf].
    + intros ([|t' pre] & suf & E & H); cbn in E; [left; by subst|right]. simplify_eq. by exists pre, suf.
Qed.

(** ** Lines *)

(** The complete lines of a text, and what follows the last newline. *)
Fixpoint lines (l : list Z) : list (list Z) * list Z :=
  match l with
  | [] => ([], [])
  | c :: l' =>
    let r := lines l' in
    if c =? NL then ([] :: fst r, snd r)
    else match fst r with
         | [] => ([], c :: snd r)
         | x :: ls => ((c :: x) :: ls, snd r)
         end
  end.
Definition no_nl (l : list Z) : Prop := Forall (fun c => c <> NL) l.
Definition no_nul (l : list Z) : Prop := Forall (fun c => c <> 0) l.

Lemma lines_no_nl s : no_nl s -> lines s = ([], s).
Proof. induction 1 as [|c s Hc _ IH]; [done|]. cbn. rewrite (proj2 (Z.eqb_neq _ _) Hc), IH. done. Qed.
Lemma lines_line x s : no_nl x -> lines (x ++ NL :: s) = (x :: fst (lines s), snd (lines s)).
Proof.
  induction 1 as [|c x Hc _ IH]; [done|]. cbn [app lines]. rewrite (proj2 (Z.eqb_neq _ _) Hc), IH. done.
Qed.
Lemma lines_case s : no_nl s \/ exists x s', no_nl x /\ s = x ++ NL :: s'.
Proof.
  induction s as [|c s [IH|(x & s' & Hx & ->)]]; [by left; constructor| |].
  - destruct (Z.eq_dec c NL) as [->|Hc]; [right; exists [], s; by split; [constructor|]|left; by constructor].
  - right. destruct (Z.eq_dec c NL) as [->|Hc]; [exists [], (x ++ NL :: s'); by split; [constructor|]|].
    exists (c :: x), s'. by split; [constructor|].
Qed.
Lemma lines_rest n : forall s, (length s <= n)%nat -> no_nl (snd (lines s)).
Proof.
  induction n as [|n IH]; intros s Hn; destruct (lines_case s) as [H|(x & s' & Hx & ->)].
  - by rewrite lines_no_nl.
  - rewrite length_app in Hn. cbn in Hn. lia.
  - by rewrite lines_no_nl.
  - rewrite lines_line by done. apply IH. rewrite length_app in Hn. cbn in Hn. lia.
Qed.
Lemma lines_app n : forall a b, (length a <= n)%nat ->
  lines (a ++ b) = (fst (lines a) ++ fst (lines (snd (lines a) ++ b)), snd (lines (snd (lines a) ++ b))).
Proof.
  induction n as [|n IH]; intros a b Hn; destruct (lines_case a) as [H|(x & s' & Hx & ->)].
  - rewrite (lines_no_nl a) by done. cbn. by destruct (lines _).
  - rewrite length_app in Hn. cbn in Hn. lia.
  - rewrite (lines_no_nl a) by done. cbn. by destruct (lines _).
  - rewrite <- app_assoc. cbn [app]. rewrite !lines_line by done. cbn [fst snd app].
    rewrite IH by (rewrite length_app in Hn; cbn in Hn; lia). done.
Qed.
Lemma lines_length n : forall s, (length s <= n)%nat -> (length (snd (lines s)) + length (fst (lines s)) <= length s)%nat /\
  Forall (fun x => (length x < length s)%nat) (fst (lines s)).
Proof.
  induction n as [|n IH]; intros s Hn; destruct (lines_case s) as [H|(x & s' & Hx & ->)].
  - rewrite lines_no_nl by done. cbn. split; [lia|constructor].
  - rewrite length_app in Hn. cbn in Hn. lia.
  - rewrite lines_no_nl by done. cbn. split; [lia|constructor].
  - rewrite lines_line by done. rewrite length_app in *. cbn [fst snd length] in *.
    destruct (IH s') as [H1 H2]; [lia|]. split; [lia|]. constructor; [lia|].
    eapply Forall_impl; [exact H2|]. intros y Hy. cbn in Hy |- *. lia.
Qed.

Lemma lines_rest_nul n : forall s, (length s <= n)%nat -> no_nul s -> no_nul (snd (lines s)).
Proof.
  induction n as [|n IH]; intros s Hn Hz; destruct (lines_case s) as [H|(x & s' & Hx & ->)].
  - by rewrite lines_no_nl.
  - rewrite length_app in Hn. cbn in Hn. lia.
  - by rewrite lines_no_nl.
  - apply Forall_app in Hz as [_ [_ Hz]%Forall_cons]. rewrite lines_line by done. apply IH; [|done].
    rewrite length_app in Hn. cbn in Hn. lia.
Qed.

(** ** What grep prints *)

(** A line that fits the buffer with its newline and a NUL. *)
Definition fits (x : list Z) : bool := Z.of_nat (length x) <? GREPBUF - 1.
Fixpoint take_fit (ls : list (list Z)) : list (list Z) :=
  match ls with
  | [] => []
  | x :: ls' => if fits x then x :: take_fit ls' else []
  end.
Definition print_lines (pattern : list Z) (ls : list (list Z)) : list Z :=
  concat ((fun x => if match_ pattern x then x ++ [NL] else []) <$> ls).

Lemma take_fit_app a b : Forall (fun x => fits x = true) a -> take_fit (a ++ b) = a ++ take_fit b.
Proof. induction 1 as [|x a Hx _ IH]; [done|]. cbn. by rewrite Hx, IH. Qed.
Lemma print_lines_app pat a b : print_lines pat (a ++ b) = print_lines pat a ++ print_lines pat b.
Proof. unfold print_lines. by rewrite fmap_app, concat_app. Qed.

Lemma strchr_nl_none s junk p : no_nul s -> no_nl s -> strchr_nl (s ++ 0 :: junk) p = None.
Proof.
  intros H. revert p. induction H as [|c s Hc _ IH]; intros p Hn; [done|]. cbn.
  apply Forall_cons in Hn as [Hc' Hn]. rewrite (proj2 (Z.eqb_neq c 0)), (proj2 (Z.eqb_neq c NL)) by done. by apply IH.
Qed.
Lemma strchr_nl_some x s p : no_nul x -> no_nl x -> strchr_nl (x ++ NL :: s) p = Some (p + length x)%nat.
Proof.
  intros H. revert p. induction H as [|c x Hc _ IH]; intros p Hn; [cbn; f_equal; lia|]. cbn [app strchr_nl].
  apply Forall_cons in Hn as [Hc' Hn]. rewrite (proj2 (Z.eqb_neq c 0)), (proj2 (Z.eqb_neq c NL)) by done.
  rewrite IH by done. f_equal. cbn. lia.
Qed.
Lemma cstr_app x s : no_nul x -> cstr (x ++ 0 :: s) = x.
Proof. induction 1 as [|c x Hc _ IH]; [done|]. cbn. by rewrite (proj2 (Z.eqb_neq c 0)), IH. Qed.

(** The world after appending [l] to what was written to [fd]. *)
Definition wrote (fd : Z) (l : list Z) (w : uworld) : uworld :=
  set_u_out (fun f => if f =? fd then u_out w f ++ l else u_out w f) w.

Record quiet (w w' : uworld) (fd : Z) (l : list Z) : Prop := {
  qu_fds : u_fds w' = u_fds w;
  qu_files : u_files w' = u_files w;
  qu_reads : u_reads w' = u_reads w;
  qu_writes : u_writes w' = u_writes w;
  qu_out : forall f, u_out w' f = if f =? fd then u_out w f ++ l else u_out w f
}.
Lemma quiet_refl w fd : quiet w w fd [].
Proof. split; try done. intros f. rewrite app_nil_r. by destruct (f =? fd). Qed.
Lemma quiet_trans w1 w2 w3 fd l1 l2 : quiet w1 w2 fd l1 -> quiet w2 w3 fd l2 -> quiet w1 w3 fd (l1 ++ l2).
Proof.
  intros [A1 A2 A3 A4 A5] [B1 B2 B3 B4 B5]. split; try congruence. intros f. rewrite B5, A5.
  destruct (f =? fd); [by rewrite app_assoc|done].
Qed.
Lemma write_all fd l w : u_writes w = [] -> exists w', write fd l w = URet (Z.of_nat (length l)) w' /\ quiet w w' fd l.
Proof. intros H. unfold write. rewrite H. eexists. split; [reflexivity|]. by split. Qed.

(** One line [x] in the buffer at [p]. *)
Lemma buf_line (buf : list Z) p x s v : drop p buf = x ++ NL :: s ->
  drop p (<[(p + length x)%nat := v]> buf) = x ++ v :: s /\ drop (p + length x + 1) buf = s.
Proof.
  intros E. split.
  - rewrite drop_insert_ge by lia. rewrite E. replace (p + length x - p)%nat with (length x + 0)%nat by lia. by rewrite insert_app_r.
  - rewrite <- Nat.add_assoc, <- drop_drop, E. by rewrite drop_app_add.
Qed.

Lemma grep_lines_ok pat : forall fuel buf p s junk w, drop p buf = s ++ 0 :: junk -> no_nul s ->
  (length (fst (lines s)) <= fuel)%nat -> u_writes w = [] ->
  exists buf' p' w', grep_lines fuel pat buf p w = URet (buf', p') w' /\ length buf' = length buf /\
    drop p' buf' = snd (lines s) ++ 0 :: junk /\ (p' + length (snd (lines s)) = p + length s)%nat /\
    quiet w w' 1 (print_lines pat (fst (lines s))).
Proof.
  induction fuel as [|fuel IH]; intros buf p s junk w E Hz Hf Hw; destruct (lines_case s) as [H|(x & s' & Hx & ->)].
  1,3: rewrite lines_no_nl by done; exists buf, p, w; split_and!; [|done|done|done|apply quiet_refl];
    cbn [grep_lines]; by rewrite E, strchr_nl_none.
  - rewrite lines_line in Hf by done. cbn in Hf. lia.
  - apply Forall_app in Hz as [Hzx Hz]. apply Forall_cons in Hz as [_ Hz].
    rewrite lines_line in * by done. cbn [fst snd length] in *. rewrite <- app_assoc in E. cbn [app] in E.
    destruct (buf_line buf p x _ 0 E) as [E0 E1]. set (q := (p + length x)%nat) in *.
    assert (forall v, drop (q + 1) (<[q := v]> buf) = s' ++ 0 :: junk) as Er by (intros v; by rewrite drop_insert_lt by lia).
    cbn [grep_lines]. rewrite E, strchr_nl_some by done. fold q. cbv zeta. rewrite E0, cstr_app by done.
    unfold print_lines. cbn [fmap list_fmap concat]. fold (print_lines pat (fst (lines s'))).
    destruct (match_ pat x).
    + rewrite list_insert_insert_eq. destruct (buf_line buf p x _ NL E) as [EN _]. fold q in EN. rewrite EN.
      assert (take (q + 1 - p) (x ++ NL :: s' ++ 0 :: junk) = x ++ [NL]) as ->.
      { replace (q + 1 - p)%nat with (length (x ++ [NL])) by (rewrite length_app; cbn; lia).
        rewrite (app_assoc x [NL] (s' ++ 0 :: junk) : x ++ NL :: _ = _). apply take_app_length. }
      destruct (write_all 1 (x ++ [NL]) w Hw) as (w1 & W1 & Q1).
      destruct (IH (<[q := NL]> buf) (q + 1)%nat s' junk w1) as (buf' & p' & w' & R & L & D & P & Q); [by rewrite Er|done|lia|by rewrite (qu_writes _ _ _ _ Q1)|].
      exists buf', p', w'. split_and!; [|by rewrite L, length_insert|done|rewrite length_app; cbn; lia|by eapply quiet_trans].
      unfold mbind, U_bind. rewrite W1. exact R.
    + destruct (IH (<[q := 0]> buf) (q + 1)%nat s' junk w) as (buf' & p' & w' & R & L & D & P & Q); [by rewrite Er|done|lia|done|].
      exists buf', p', w'. split_and!; [exact R|by rewrite L, length_insert|done|rewrite length_app; cbn; lia|done].
Qed.

(** A read of the input. *)
Lemma read_ok fd n l w : u_fds w !! fd = Some l -> 0 <= n ->
  exists d l' w', read fd n w = URet (Z.of_nat (length d), d) w' /\ l = d ++ l' /\ Z.of_nat (length d) <= n /\
    (0 < n -> l <> [] -> d <> []) /\
    u_fds w' = <[fd := l']> (u_fds w) /\ u_files w' = u_files w /\ u_writes w' = u_writes w /\ u_out w' = u_out w.
Proof.
  intros E Hn. unfold read. rewrite E. set (k := Z.min n (Z.max 1 (default n (head (u_reads w))))).
  exists (take (Z.to_nat k) l), (drop (Z.to_nat k) l). eexists. split; [reflexivity|]. split_and!; try done.
  - by rewrite take_drop.
  - rewrite length_take. lia.
  - intros Hn' Hl. destruct l as [|x l]; [done|]. assert (exists j, Z.to_nat k = S j) as [j ->] by (exists (Z.to_nat k - 1)%nat; lia). done.
Qed.

(** Storing what was read after the [length r] bytes of [r], and a NUL. *)
Lemma buf_append (buf r d : list Z) : length buf = Z.to_nat GREPBUF -> take (length r) buf = r ->
  Z.of_nat (length r) + Z.of_nat (length d) <= GREPBUF - 1 ->
  exists junk, <[Z.to_nat (Z.of_nat (length r) + Z.of_nat (length d)) := 0]> (splice_at buf (Z.to_nat (Z.of_nat (length r))) d)
      = (r ++ d) ++ 0 :: junk /\ length ((r ++ d) ++ 0 :: junk) = length buf.
Proof.
  intros Hb Hr Hd. unfold splice_at. rewrite Nat2Z.id, Hr.
  assert (exists x k, drop (length r + length d) buf = x :: k) as (x & k & Ek).
  { destruct (drop (length r + length d) buf) as [|x k] eqn:E; [|by exists x, k].
    apply (f_equal length) in E. rewrite length_drop in E. cbn in E. lia. }
  rewrite Ek. exists k. split.
  - rewrite app_assoc. replace (Z.to_nat _) with (length (r ++ d) + 0)%nat by (rewrite length_app; lia). by rewrite insert_app_r.
  - apply (f_equal length) in Ek. rewrite length_drop in Ek. rewrite !length_app. cbn in *. lia.
Qed.
Lemma splice_front (buf s : list Z) : (length s <= length buf)%nat ->
  take (length s) (splice_at buf 0 s) = s /\ length (splice_at buf 0 s) = length buf.
Proof.
  intros H. change (splice_at buf 0 s) with (s ++ drop (length s) buf). split; [by rewrite take_app_length|]. rewrite length_app, length_drop. lia.
Qed.

(** The rest [r] of the last line is at the beginning of the buffer, and
    the input still holds [l]. *)
Lemma grep_loop_ok pat fd : forall fuel buf r l w,
  length buf = Z.to_nat GREPBUF -> take (length r) buf = r -> no_nl r -> no_nul r -> no_nul l -> Z.of_nat (length r) < GREPBUF ->
  u_fds w !! fd = Some l -> u_writes w = [] -> (length l <= fuel)%nat ->
  exists buf' w', grep_loop fuel pat fd buf (Z.of_nat (length r)) w = URet buf' w' /\ length buf' = length buf /\
    u_writes w' = [] /\ u_files w' = u_files w /\ dom (u_fds w') = dom (u_fds w) /\
    (forall f, f <> fd -> u_fds w' !! f = u_fds w !! f) /\
    forall f, u_out w' f = if f =? 1 then u_out w f ++ print_lines pat (take_fit (fst (lines (r ++ l)))) else u_out w f.
Proof.
  induction fuel as [|fuel IH]; intros buf r l w Hb Hr Hnl Hz Hzl Hlen E Hw Hf; cbn [grep_loop];
    (destruct (read_ok fd (GREPBUF - Z.of_nat (length r) - 1) l w E ltac:(lia)) as (d & l' & w1 & R & -> & Hd & Hne & F1 & F2 & F3 & F4));
    unfold mbind, U_bind; rewrite R; cbn [fst snd].
  - destruct d; [|cbn in Hf; lia]. destruct l'; [|cbn in Hf; lia]. cbn [length Z.of_nat Z.ltb Z.compare].
    exists buf, w1. rewrite app_nil_r, lines_no_nl by done. split_and!; try done; try congruence.
    + rewrite F1, dom_insert_L. apply elem_of_dom_2 in E. set_solver.
    + intros f Hf'. by rewrite F1, lookup_insert_ne.
    + intros f. rewrite F4. cbn. rewrite app_nil_r. by destruct (f =? 1).
  - destruct (Z.ltb_spec 0 (Z.of_nat (length d))) as [Hd0|Hd0].
    2:{ assert (d = []) as -> by (destruct d; [done|cbn in Hd0; lia]). exists buf, w1.
        assert (print_lines pat (take_fit (fst (lines (r ++ l')))) = []) as Ep.
        { destruct (decide (l' = [])) as [->|Hl]; [by rewrite app_nil_r, lines_no_nl|].
          assert (Z.of_nat (length r) = GREPBUF - 1) as El.
          { destruct (decide (0 < GREPBUF - Z.of_nat (length r) - 1)) as [H0|]; [|lia]. by destruct (Hne H0). }
          destruct (lines_case l') as [H|(x & s' & Hx & ->)].
          - rewrite lines_no_nl; [done|]. by apply Forall_app.
          - rewrite app_assoc, lines_line by (by apply Forall_app). cbn [fst take_fit].
            unfold fits. rewrite (proj2 (Z.ltb_ge _ _)); [done|]. rewrite length_app. lia. }
        cbn [app]. rewrite Ep. split_and!; try done; try congruence.
        - rewrite F1, dom_insert_L. apply elem_of_dom_2 in E. set_solver.
        - intros f Hf'. by rewrite F1, lookup_insert_ne.
        - intros f. rewrite F4, app_nil_r. by destruct (f =? 1). }
    destruct (buf_append buf r d Hb Hr ltac:(lia)) as (junk & Eb & Lb). rewrite Eb. set (buf2 := (r ++ d) ++ 0 :: junk) in *.
    apply Forall_app in Hzl as [Hzd Hzl].
    assert (no_nul (r ++ d)) as Hz2 by (by apply Forall_app).
    destruct (lines_length _ (r ++ d) (le_n _)) as [Hl1 Hl2].
    destruct (grep_lines_ok pat (length buf2) buf2 0 (r ++ d) junk w1) as (buf3 & p & w2 & R2 & L3 & D3 & P3 & Q2);
      [done|done|unfold buf2; rewrite length_app; lia|by rewrite F3|].
    rewrite R2. set (r' := snd (lines (r ++ d))) in *. rewrite length_app in P3, Hl1.
    destruct (Z.ltb_spec 0 (Z.of_nat (length r) + Z.of_nat (length d))); [|lia].
    replace (Z.of_nat (length r) + Z.of_nat (length d) - Z.of_nat p) with (Z.of_nat (length r')) by lia.
    rewrite Nat2Z.id, D3, take_app_length.
    destruct (splice_front buf3 r') as [S1 S2]; [lia|].
    assert (no_nul r') as Hz' by (by apply (lines_rest_nul (length (r ++ d)))).

    destruct (IH (splice_at buf3 0 r') r' l' w2) as (buf' & w' & R' & L' & W' & Fi & Do & Fd & O); try done.
    + rewrite S2, L3, Lb. done.
    + by apply (lines_rest (length (r ++ d))).
    + lia.
    + rewrite (qu_fds _ _ _ _ Q2), F1. apply lookup_insert_eq.
    + by rewrite (qu_writes _ _ _ _ Q2), F3.
    + rewrite length_app in Hf. destruct d; cbn in *; lia.
    + exists buf', w'. split_and!; try done.
      * rewrite L', S2, L3. by rewrite Lb.
      * by rewrite Fi, (qu_files _ _ _ _ Q2).
      * rewrite Do, (qu_fds _ _ _ _ Q2), F1, dom_insert_L. apply elem_of_dom_2 in E. set_solver.
      * intros f Hf'. rewrite Fd by done. by rewrite (qu_fds _ _ _ _ Q2), F1, lookup_insert_ne.
      * intros f. rewrite O, (qu_out _ _ _ _ Q2), F4. rewrite app_assoc, (lines_app _ (r ++ d) l' (le_n _)). cbn [fst].
        fold r'. rewrite take_fit_app, print_lines_app, app_assoc; [by destruct (f =? 1)|].
        eapply Forall_impl; [exact Hl2|]. intros x Hx. cbn in Hx. rewrite length_app in Hx. unfold fits. apply Z.ltb_lt. lia.
Qed.

Definition grep_out (pat l : list Z) : list Z := print_lines pat (take_fit (fst (lines l))).

Lemma grep_ok pat fd buf l w : length buf = Z.to_nat GREPBUF -> no_nul l -> u_fds w !! fd = Some l -> u_writes w = [] ->
  exists buf' w', grep pat fd buf w = URet buf' w' /\ length buf' = length buf /\
    u_writes w' = [] /\ u_files w' = u_files w /\ dom (u_fds w') = dom (u_fds w) /\
    (forall f, f <> fd -> u_fds w' !! f = u_fds w !! f) /\
    forall f, u_out w' f = if f =? 1 then u_out w f ++ grep_out pat l else u_out w f.
Proof.
  intros Hb Hz E Hw. unfold grep. rewrite E. apply (grep_loop_ok pat fd _ buf [] l w); (done || constructor).
Qed.

Lemma lowest_fd_none n : forall fd fds r, lowest_fd n fd fds = Some r -> fds !! r = None.
Proof.
  induction n as [|n IH]; intros fd fds r; [done|]. cbn. destruct (fds !! fd) eqn:E; [apply IH|]. by intros [= <-].
Qed.

Lemma grep_files_ok pat fd : forall files contents buf w, length buf = Z.to_nat GREPBUF -> u_writes w = [] ->
  lowest_fd 16 0 (u_fds w) = Some fd -> 0 <= fd -> Forall2 (fun f l => u_files w !! f = Some l /\ no_nul l) files contents ->
  exists w', grep_files pat files buf w = UExit 0 w' /\
    forall f, u_out w' f = if f =? 1 then u_out w f ++ concat (grep_out pat <$> contents) else u_out w f.
Proof.
  induction files as [|f files IH]; intros contents buf w Hb Hw Hfd Hpos HF; inversion HF as [|? l ? ls [Hl Hz] HF']; subst.
  - exists w. split; [done|]. intros f. cbn. rewrite app_nil_r. by destruct (f =? 1).
  - set (w1 := set_u_fds (<[fd := l]> (u_fds w)) w).
    pose proof (lowest_fd_none _ _ _ _ Hfd) as Hn.
    destruct (grep_ok pat fd buf l w1) as (buf' & w2 & R & L & W & Fi & Do & Fd & O); [done|done|apply lookup_insert_eq|done|].
    assert (is_Some (u_fds w2 !! fd)) as [x Hx].
    { apply elem_of_dom. rewrite Do. cbn. rewrite dom_insert_L. set_solver. }
    assert (delete fd (u_fds w2) = u_fds w) as Ed.
    { apply map_eq. intros f'. destruct (decide (f' = fd)) as [->|Hne]; [by rewrite lookup_delete_eq|].
      rewrite lookup_delete_ne, Fd by done. cbn. by rewrite lookup_insert_ne. }
    set (w3 := set_u_fds (delete fd (u_fds w2)) w2).
    destruct (IH ls buf' w3) as (w' & R' & O'); [by rewrite L|done|by cbn; rewrite Ed|done| |].
    { cbn. by rewrite Fi. }
    exists w'. split.
    + cbn [grep_files]. unfold mbind, U_bind, open. rewrite Hl, Hfd. fold w1.
      rewrite (proj2 (Z.ltb_ge fd 0)) by done. rewrite R. unfold close. rewrite Hx. exact R'.
    + intros f'. rewrite O'. cbn [fmap list_fmap concat]. change (u_out w3 f') with (u_out w2 f'). rewrite O.
      destruct (f' =? 1); [by rewrite app_assoc|done].
Qed.
Lemma lowest_fd_ge n : forall fd fds r, lowest_fd n fd fds = Some r -> fd <= r.
Proof.
  induction n as [|n IH]; intros fd fds r; [done|]. cbn. destruct (fds !! fd) eqn:E; [intros H%IH; lia|]. intros [= <-]. lia.
Qed.

(** ** Theorems *)

(** C39: the matcher decides the language of the expression: [match] returns
    true exactly if some part of the text is in the language, anchored at
    the beginning by a caret and at the end by a dollar.  The recursion of
    [matchhere] and [matchstar] terminates on every expression and text. *)
Theorem match_correct re text : match_ re text = true <-> re_matches re text.
Proof.
  destruct re as [|c re]; cbn [match_ re_matches].
  - by destruct text.
  - destruct (c =? CARET); [by apply (matchhere_spec (length re))|apply match_loop_spec].
Qed.

(** C40: grep prints the matching lines.  However the reads cut its input
    into pieces, [grep] with a pattern and files terminates with status 0
    and has written, file after file, every complete line that matches, up
    to the first line of a file that does not fit the buffer; nothing else
    is written. *)
Theorem grep_main_correct w name pat files contents fd : u_writes w = [] -> lowest_fd 16 0 (u_fds w) = Some fd ->
  Forall2 (fun f l => u_files w !! f = Some l /\ no_nul l) files contents -> files <> [] ->
  exists w', main (name :: pat :: files) w = UExit 0 w' /\
    forall f, u_out w' f = if f =? 1 then u_out w f ++ concat (grep_out pat <$> contents) else u_out w f.
Proof.
  intros Hw Hfd HF Hne. destruct files as [|f files]; [done|].
  apply (grep_files_ok pat fd); try done. by apply (lowest_fd_ge _ _ _ _ Hfd).
Qed.

(** ** Witness *)

Definition grep_world : uworld :=
  UWorld ∅ (<[[102] := bytes_of_string "one
two
three
rest"]> ∅) [1; 3; 2; 5] [] (fun _ => []).
Lemma grep_main_correct_witness : exists w', main [[103]; bytes_of_string "t.*e"; [102]] grep_world = UExit 0 w' /\
  u_out w' 1 = bytes_of_string "three
".
Proof.
  destruct (grep_main_correct grep_world [103] (bytes_of_string "t.*e") [[102]] [bytes_of_string "one
two
three
rest"] 0) as (w' & R & O).
  - reflexivity.
  - reflexivity.
  - repeat constructor; vm_compute; discriminate.
  - discriminate.
  - exists w'. split; [exact R|]. rewrite O. vm_compute. reflexivity.
Defined.
