(* ===== verification/Programs.v ===== *)
(** * Programs: echo, cat and wc

    user/echo.c, user/cat.c, and user/wc.c of the round-robin tree, which
    also counts vowels.  Programs read their input in pieces of any size;
    the theorems compare what they write with a function of the whole
    input. *)

From S2P Require Import Prelude.
From S2P Require Import Kernel.
From S2P Require Import Console.
From S2P Require Import User.
From S2P Require Import Ulib.
From S2P Require Import Grep.

(** ** echo.c *)

Module Echo.
Fixpoint echo_args (argv : list (list Z)) : U unit :=
  match argv with
  | [] => mret tt
  | a :: argv' =>
    write 1 a;;
    match argv' with [] => write 1 [10] | _ => write 1 [32] end;;
    echo_args argv'
  end.
Definition main (argv : list (list Z)) : U unit := echo_args (tail argv);; exit 0.
End Echo.

(** ** cat.c *)

Module Cat.
Definition CATBUF : Z := 512.
Fixpoint cat_loop (fuel : nat) (fd : Z) : U unit :=
  r ← read fd CATBUF;
  if 0 <? fst r then
    match fuel with
    | O => uhang
    | S f =>
      n ← write 1 (snd r);
      if negb (n =? fst r) then fprintf 2 "cat: write error
" [];; exit 1
      else cat_loop f fd
    end
  else if fst r <? 0 then fprintf 2 "cat: read error
" [];; exit 1
  else mret tt.
(** Every iteration reads at least one byte. *)
Definition cat (fd : Z) : U unit := fun w => cat_loop (length (default [] (u_fds w !! fd))) fd w.

Fixpoint cat_files (files : list (list Z)) : U unit :=
  match files with
  | [] => exit 0
  | f :: files' =>
    fd ← open f;
    if fd <? 0 then fprintf 2 "cat: cannot open %s
" [Ua_str (Some f)];; exit 1 else
    cat fd;;
    close fd;;
    cat_files files'
  end.
Definition main (argv : list (list Z)) : U unit :=
  match argv with
  | _ :: f :: files => cat_files (f :: files)
  | _ => cat 0;; exit 0
  end.
End Cat.

(** ** wc.c *)

Module Wc.
Definition WCBUF : Z := 512.
Definition is_vowel (c : Z) : bool :=
  (c =? 97) || (c =? 65) || (c =? 101) || (c =? 69) || (c =? 105) || (c =? 73) || (c =? 111) || (c =? 79)
  || (c =? 117) || (c =? 85).
(** [strchr] of the separators; it does not find the NUL. *)
Definition is_sep (c : Z) : bool := (c =? 32) || (c =? 13) || (c =? 9) || (c =? 10) || (c =? 11).

Record counts := Counts { c_l : Z; c_w : Z; c_c : Z; c_inword : bool; c_v : Z }.
(** The body of the inner loop. *)
Definition count_byte (s : counts) (b : Z) : counts :=
  let l := if b =? 10 then i32 (c_l s + 1) else c_l s in
  let v := if is_vowel b then i32 (c_v s + 1) else c_v s in
  let c := i32 (c_c s + 1) in
  if is_sep b then Counts l (c_w s) c false v
  else if negb (c_inword s) then Counts l (i32 (c_w s + 1)) c true v
  else Counts l (c_w s) c (c_inword s) v.

Fixpoint wc_loop (fuel : nat) (fd : Z) (s : counts) : U counts :=
  r ← read fd WCBUF;
  if 0 <? fst r then
    match fuel with
    | O => uhang
    | S f => wc_loop f fd (fold_left count_byte (snd r) s)
    end
  else if fst r <? 0 then printf "wc: read error
" [];; exit 1
  else mret s.
Definition wc (fd : Z) (name : list Z) : U unit := fun w =>
  (s ← wc_loop (length (default [] (u_fds w !! fd))) fd (Counts 0 0 0 false 0);
   printf "%d %d %d %d %s
" [Ua_int (c_l s); Ua_int (c_w s); Ua_int (c_c s); Ua_int (c_v s); Ua_str (Some name)]) w.

Fixpoint wc_files (files : list (list Z)) : U unit :=
  match files with
  | [] => exit 0
  | f :: files' =>
    fd ← open f;
    if fd <? 0 then printf "wc: cannot open %s
" [Ua_str (Some f)];; exit 1 else
    wc fd f;;
    close fd;;
    wc_files files'
  end.
Definition main (argv : list (list Z)) : U unit :=
  match argv with
  | _ :: f :: files => wc_files (f :: files)
  | _ => wc 0 [];; exit 0
  end.
End Wc.

(** ** Reading to the end *)

(** A loop that reads until the end of the input and folds over the pieces
    is a fold over the whole input. *)
Section fold_reads.
Context {A : Type} (fd size : Z) (step : A -> list Z -> A) (loop : nat -> A -> U A).
Hypothesis (Hsize : 0 < size).
Hypothesis (step_app : forall a d d', step a (d ++ d') = step (step a d) d').
Hypothesis (step_nil : forall a, step a [] = a).
Hypothesis (loop_eof : forall fuel a w w', read fd size w = URet (0, []) w' -> loop fuel a w = URet a w').
Hypothesis (loop_step : forall fuel a w w' d, read fd size w = URet (Z.of_nat (length d), d) w' -> d <> [] ->
  loop (S fuel) a w = loop fuel (step a d) w').

Lemma fold_reads : forall fuel a w l, u_fds w !! fd = Some l -> (length l <= fuel)%nat ->
  exists w', loop fuel a w = URet (step a l) w' /\ u_fds w' = <[fd := []]> (u_fds w) /\ u_files w' = u_files w /\
    u_writes w' = u_writes w /\ u_out w' = u_out w.
Proof.
  induction fuel as [|fuel IH]; intros a w l E Hf; destruct (read_ok fd size l w E ltac:(lia))
    as (d & l' & w1 & R & -> & Hd & Hne & F1 & F2 & F3 & F4).
  all: destruct (decide (d = [])) as [->|Hd0].
  1,3: assert (l' = []) as -> by (destruct (decide (l' = [])); [done|]; by destruct (Hne Hsize)); exists w1;
    cbn [app]; rewrite step_nil; by split_and!; [apply loop_eof| | | |].
  - destruct d; [done|]. cbn in Hf. lia.
  - destruct (IH (step a d) w1 l') as (w' & R' & G1 & G2 & G3 & G4).
    + rewrite F1. apply lookup_insert_eq.
    + rewrite length_app in Hf. destruct d; [done|]. cbn in Hf. lia.
    + exists w'. split_and!; [|rewrite G1, F1; apply insert_insert_eq|by rewrite G2|by rewrite G3|by rewrite G4].
      rewrite (loop_step _ _ _ w1 d) by done. by rewrite R', step_app.
Qed.
End fold_reads.

(** ** One file after the other *)

(** [w'] is [w] after reading descriptor [fd] to the end and writing [l] to
    the standard output. *)
Record consumed (fd : Z) (l : list Z) (w w' : uworld) : Prop := {
  co_dom : dom (u_fds w') = dom (u_fds w);
  co_fds : forall f, f <> fd -> u_fds w' !! f = u_fds w !! f;
  co_files : u_files w' = u_files w;
  co_writes : u_writes w' = [];
  co_out : forall f, u_out w' f = if f =? 1 then u_out w f ++ l else u_out w f
}.

(** Opening [f] and closing it after its use. *)
Lemma open_close f l fd out w : u_files w !! f = Some l -> lowest_fd 16 0 (u_fds w) = Some fd ->
  exists w1, open f w = URet fd w1 /\ u_fds w1 !! fd = Some l /\ u_writes w1 = u_writes w /\
    forall w2, consumed fd out w1 w2 -> exists w3, close fd w2 = URet 0 w3 /\ u_fds w3 = u_fds w /\ u_files w3 = u_files w /\
      u_writes w3 = [] /\ forall f', u_out w3 f' = if f' =? 1 then u_out w f' ++ out else u_out w f'.
Proof.
  intros Hl Hfd. pose proof (lowest_fd_none _ _ _ _ Hfd) as Hn. unfold open. rewrite Hl, Hfd. eexists. split; [reflexivity|].
  split; [apply lookup_insert_eq|]. split; [done|]. intros w2 [D F Fi W O]. cbn in *.
  assert (is_Some (u_fds w2 !! fd)) as [x Hx] by (apply elem_of_dom; rewrite D; set_solver).
  unfold close. rewrite Hx. eexists. split; [reflexivity|]. split_and!; try done. cbn.
  apply map_eq. intros f'. destruct (decide (f' = fd)) as [->|Hne]; [by rewrite lookup_delete_eq|].
  rewrite lookup_delete_ne, F by done. by rewrite lookup_insert_ne.
Qed.

Section files.
Context (body : list Z -> Z -> U unit) (loop : list (list Z) -> U unit) (ok : list Z -> list Z -> Prop) (out : list Z -> list Z -> list Z) (fd : Z).
Hypothesis (loop_nil : forall w, loop [] w = UExit 0 w).
Hypothesis (loop_cons : forall f files w w1 w2 w3 r, open f w = URet fd w1 -> body f fd w1 = URet tt w2 -> close fd w2 = URet r w3 ->
  loop (f :: files) w = loop files w3).
Hypothesis (body_ok : forall f l w, u_fds w !! fd = Some l -> ok f l -> u_writes w = [] ->
  exists w', body f fd w = URet tt w' /\ consumed fd (out f l) w w').

Lemma files_ok : forall files contents w, u_writes w = [] -> lowest_fd 16 0 (u_fds w) = Some fd ->
  Forall2 (fun f l => u_files w !! f = Some l /\ ok f l) files contents ->
  exists w', loop files w = UExit 0 w' /\
    forall f, u_out w' f = if f =? 1 then u_out w f ++ concat (zip_with out files contents) else u_out w f.
Proof.
  induction files as [|f files IH]; intros contents w Hw Hfd HF; inversion HF as [|? l ? ls [Hl Hok] HF']; subst.
  - exists w. split; [apply loop_nil|]. intros f. cbn. rewrite app_nil_r. by destruct (f =? 1).
  - destruct (open_close f l fd (out f l) w Hl Hfd) as (w1 & O1 & F1 & W1 & Hc).
    destruct (body_ok f l w1 F1 Hok) as (w2 & B2 & C2); [by rewrite W1|].
    destruct (Hc w2 C2) as (w3 & E3 & F3 & Fi3 & W3 & O3).
    destruct (IH ls w3 W3) as (w' & R' & O'); [by rewrite F3|by rewrite Fi3|].
    exists w'. split; [by rewrite (loop_cons f files w w1 w2 w3 0)|]. intros f'. rewrite O', O3. cbn [zip_with concat].
    destruct (f' =? 1); [by rewrite app_assoc|done].
Qed.
End files.

(** ** cat *)

Lemma cat_loop_ok fd : forall fuel l w, u_fds w !! fd = Some l -> u_writes w = [] -> (length l <= fuel)%nat ->
  exists w', Cat.cat_loop fuel fd w = URet tt w' /\ consumed fd l w w'.
Proof.
  induction fuel as [|fuel IH]; intros l w E Hw Hf;
    destruct (read_ok fd Cat.CATBUF l w E) as (d & l' & w1 & R & -> & Hd & Hne & F1 & F2 & F3 & F4); try done;
    cbn [Cat.cat_loop]; unfold mbind at 1, U_bind at 1; rewrite R; cbn [fst snd].
  all: destruct (decide (d = [])) as [->|Hd0].
  1,3: assert (l' = []) as -> by (destruct (decide (l' = [])); [done|]; by destruct (Hne ltac:(done)));
    exists w1; split; [done|]; apply elem_of_dom_2 in E as Ed; split;
    [rewrite F1, dom_insert_L; set_solver|intros f Hf'; by rewrite F1, lookup_insert_ne|done|congruence|
     intros f; rewrite F4, app_nil_r; by destruct (f =? 1)].
  - destruct d; [done|]. cbn in Hf. lia.
  - rewrite (proj2 (Z.ltb_lt 0 _)) by (destruct d; [done|]; cbn; lia).
    destruct (write_all 1 d w1) as (w2 & R2 & Q2); [by rewrite F3|].
    destruct (IH l' w2) as (w' & R' & [C1 C2 C3 C4 C5]).
    + rewrite (qu_fds _ _ _ _ Q2), F1. apply lookup_insert_eq.
    + by rewrite (qu_writes _ _ _ _ Q2), F3.
    + rewrite length_app in Hf. destruct d; [done|]. cbn in Hf. lia.
    + exists w'. unfold mbind, U_bind. rewrite R2, Z.eqb_refl. split; [exact R'|]. apply elem_of_dom_2 in E as Ed. split.
      * rewrite C1, (qu_fds _ _ _ _ Q2), F1, dom_insert_L. set_solver.
      * intros f Hf'. rewrite C2 by done. by rewrite (qu_fds _ _ _ _ Q2), F1, lookup_insert_ne.
      * by rewrite C3, (qu_files _ _ _ _ Q2).
      * done.
      * intros f. rewrite C5, (qu_out _ _ _ _ Q2), F4. destruct (f =? 1); [by rewrite app_assoc|done].
Qed.

(** ** wc *)

Import Wc.

(** The pieces of a text between separators, and its words. *)
Fixpoint pieces (l : list Z) : list Z * list (list Z) :=
  match l with
  | [] => ([], [])
  | c :: l' => let r := pieces l' in if is_sep c then ([], fst r :: snd r) else (c :: fst r, snd r)
  end.
Definition words (l : list Z) : list (list Z) := let r := pieces l in filter (fun x => x <> []) (fst r :: snd r).
Definition count (p : Z -> bool) (l : list Z) : Z := Z.of_nat (length (List.filter p l)).

(** Words that begin in [l] when a word is under way or not. *)
Definition new_words (inword : bool) (l : list Z) : Z :=
  let r := pieces l in Z.of_nat (length (filter (fun x => x <> []) (if inword then snd r else fst r :: snd r))).

Lemma count_cons p c l : count p (c :: l) = (if p c then 1 else 0) + count p l.
Proof. unfold count. cbn. destruct (p c); cbn; lia. Qed.
Lemma count_le p l : 0 <= count p l <= Z.of_nat (length l).
Proof. unfold count. pose proof (List.filter_length_le p l). lia. Qed.
Lemma new_words_cons b c l : new_words b (c :: l) = if is_sep c then new_words false l
  else (if b then 0 else 1) + new_words true l.
Proof.
  unfold new_words. cbn [pieces]. destruct (is_sep c); cbn [fst snd].
  - destruct b; [done|]. by rewrite (filter_cons_False _ []) by naive_solver.
  - destruct b; [done|]. rewrite (filter_cons_True _ (c :: _)) by done. cbn [length]. lia.
Qed.
Lemma new_words_le l : forall b, 0 <= new_words b l <= Z.of_nat (length l).
Proof.
  induction l as [|c l IH]; intros b; [destruct b; done|]. rewrite new_words_cons. cbn [length].
  pose proof (IH true). pose proof (IH false). destruct (is_sep c), b; lia.
Qed.

Lemma fold_count l : forall s, 0 <= c_l s -> 0 <= c_w s -> 0 <= c_c s -> 0 <= c_v s ->
  c_l s <= c_c s -> c_w s <= c_c s -> c_v s <= c_c s -> c_c s + Z.of_nat (length l) < 2 ^ 31 ->
  let s' := fold_left count_byte l s in
  c_l s' = c_l s + count (fun c => c =? 10) l /\ c_w s' = c_w s + new_words (c_inword s) l /\
  c_c s' = c_c s + Z.of_nat (length l) /\ c_v s' = c_v s + count is_vowel l.
Proof.
  induction l as [|b l IH]; intros s H1 H2 H3 H4 H5 H6 H7 H8; cbn [fold_left].
  - change (count _ []) with 0. assert (new_words (c_inword s) [] = 0) as -> by (by destruct (c_inword s)). cbn. lia.
  - cbn [length] in *. rewrite !count_cons, new_words_cons.
    assert (forall x, 0 <= x <= c_c s -> i32 (x + 1) = x + 1) as Hi by (intros x Hx; apply i32_small; lia).
    pose proof (IH (count_byte s b)) as IHs. unfold count_byte in *.
    rewrite !Hi in * by lia.
    destruct (is_sep b); [|destruct (c_inword s) eqn:Ei]; cbn [c_l c_w c_c c_v c_inword negb] in *;
      destruct (b =? 10), (is_vowel b); (destruct IHs as (A & B & C & D); [lia..|]); rewrite ?Ei, A, B, C, D; lia.
Qed.

(** A byte as [putc] writes it. *)
Lemma puts_ok fd l : forall w, u_writes w = [] -> exists w', puts fd l w = URet tt w' /\ quiet w w' fd (u8 <$> l).
Proof.
  induction l as [|c l IH]; intros w Hw; [exists w; split; [done|apply quiet_refl]|].
  destruct (write_all fd [u8 c] w Hw) as (w1 & R1 & Q1). destruct (IH w1) as (w2 & R2 & Q2); [by rewrite (qu_writes _ _ _ _ Q1)|].
  exists w2. split; [|exact (quiet_trans _ _ _ _ _ _ Q1 Q2)].
  unfold puts, putc in *. cbn [ufor]. unfold mbind, U_bind in *. rewrite R1. exact R2.
Qed.

Definition dec (n : Z) : list Z := uprintint_bytes n 10 true.
Definition wc_line (l w c v : Z) (name : list Z) : list Z :=
  dec l ++ [32] ++ dec w ++ [32] ++ dec c ++ [32] ++ dec v ++ [32] ++ name ++ [10].

Lemma dec_bytes n : 0 <= n < 2 ^ 31 -> u8 <$> dec n = dec n.
Proof.
  intros Hn. unfold dec, uprintint_bytes. rewrite (proj2 (Z.ltb_ge n 0)) by lia. cbn [andb]. cbv zeta. rewrite u32_small by lia.
  rewrite app_nil_r. destruct (udigits_rev_spec 32 n) as [Hd _]; [split; [lia|]|done|lia|].
  { apply Z.lt_le_trans with (2 ^ 31); [lia|]. apply Z.leb_le. vm_compute. reflexivity. }
  revert Hd. induction 1 as [|c l Hc _ IH]; [done|]. unfold is_digit in Hc. cbn. rewrite IH, u8_small by lia. done.
Qed.

Lemma wc_printf l w c v name : 0 <= l < 2 ^ 31 -> 0 <= w < 2 ^ 31 -> 0 <= c < 2 ^ 31 -> 0 <= v < 2 ^ 31 ->
  forall x, u_writes x = [] -> exists x', printf "%d %d %d %d %s
" [Ua_int l; Ua_int w; Ua_int c; Ua_int v; Ua_str (Some name)] x = URet tt x' /\ quiet x x' 1 (wc_line l w c v (u8 <$> name)).
Proof.
  intros Hl Hw Hc Hv x Hx. destruct (puts_ok 1 (wc_line l w c v name) x Hx) as (x' & R & Q). exists x'.
  split.
  - unfold printf, vprintf.
    change (vprintf_bytes _ _) with (Some (dec (i32 l) ++ 32 :: dec (i32 w) ++ 32 :: dec (i32 c) ++ 32 :: dec (i32 v) ++ 32 :: name ++ [10])).
    rewrite !i32_small by lia. exact R.
  - unfold wc_line in *. rewrite !fmap_app in Q. rewrite !dec_bytes in Q by done. exact Q.
Qed.

Definition wc_out (name l : list Z) : list Z :=
  wc_line (count (fun c => c =? 10) l) (Z.of_nat (length (words l))) (Z.of_nat (length l)) (count is_vowel l) (u8 <$> name).

Lemma wc_ok fd name l w : u_fds w !! fd = Some l -> Z.of_nat (length l) < 2 ^ 31 -> u_writes w = [] ->
  exists w', wc fd name w = URet tt w' /\ consumed fd (wc_out name l) w w'.
Proof.
  intros E Hl Hw. unfold wc. rewrite E. change (default [] (Some l)) with l.
  destruct (fold_reads fd WCBUF (fun s d => fold_left count_byte d s) (fun fuel s => wc_loop fuel fd s)) with
    (fuel := length l) (a := Counts 0 0 0 false 0) (w := w) (l := l) as (w1 & R1 & F1 & F2 & F3 & F4); try done.
  { intros a d d'. apply fold_left_app. }
  { intros fuel a w0 w0' R. destruct fuel; cbn [wc_loop]; unfold mbind, U_bind; by rewrite R. }
  { intros fuel a w0 w0' d R Hd. cbn [wc_loop]. unfold mbind at 1, U_bind at 1. rewrite R. cbn [fst snd].
    by rewrite (proj2 (Z.ltb_lt 0 _)) by (destruct d; [done|]; cbn; lia). }
  destruct (fold_count l (Counts 0 0 0 false 0)) as (A & B & C & D); try (cbn; lia).
  set (s := fold_left count_byte l (Counts 0 0 0 false 0)) in *. cbn [c_l c_w c_c c_v c_inword] in *.
  change (new_words false l) with (Z.of_nat (length (words l))) in B. rewrite Z.add_0_l in *.
  pose proof (count_le (fun c => c =? 10) l). pose proof (count_le is_vowel l). pose proof (new_words_le l false).
  change (new_words false l) with (Z.of_nat (length (words l))) in *.
  destruct (wc_printf (c_l s) (c_w s) (c_c s) (c_v s) name) with (x := w1) as (w2 & R2 & Q2); rewrite ?A, ?B, ?C, ?D; try lia; [by rewrite F3|].
  exists w2. unfold mbind, U_bind. rewrite R1. split; [exact R2|]. apply elem_of_dom_2 in E as Ed. split.
  - rewrite (qu_fds _ _ _ _ Q2), F1, dom_insert_L. set_solver.
  - intros f Hf. by rewrite (qu_fds _ _ _ _ Q2), F1, lookup_insert_ne.
  - by rewrite (qu_files _ _ _ _ Q2).
  - by rewrite (qu_writes _ _ _ _ Q2), F3.
  - intros f. rewrite (qu_out _ _ _ _ Q2), F4. unfold wc_out. by rewrite A, B, C, D.
Qed.

(** ** Theorems *)

(** Cat copies its files.  However its reads cut the input, [cat] with
    files that exist terminates with status 0 and has written their
    contents in order to the standard output, and nothing else. *)
Theorem cat_correct w name files contents fd : u_writes w = [] -> lowest_fd 16 0 (u_fds w) = Some fd -> files <> [] ->
  Forall2 (fun f l => u_files w !! f = Some l) files contents ->
  exists w', Cat.main (name :: files) w = UExit 0 w' /\
    forall f, u_out w' f = if f =? 1 then u_out w f ++ concat contents else u_out w f.
Proof.
  intros Hw Hfd Hne HF. destruct files as [|f files]; [done|]. pose proof (lowest_fd_ge _ _ _ _ Hfd) as Hpos.
  destruct (files_ok (fun _ fd => Cat.cat fd) Cat.cat_files (fun _ _ => True) (fun _ l => l) fd) with
    (files := f :: files) (contents := contents) (w := w) as (w' & R & O); try done.
  - intros f' fs w0 w1 w2 w3 r E1 E2 E3. cbn [Cat.cat_files]. unfold mbind, U_bind. by rewrite E1, (proj2 (Z.ltb_ge fd 0)), E2, E3.
  - intros f' l w0 E _ Hw0. unfold Cat.cat. rewrite E. by apply cat_loop_ok.
  - eapply Forall2_impl; [exact HF|]. by intros.
  - exists w'. split; [exact R|]. intros f'. rewrite O. replace (zip_with _ _ _) with contents; [done|].
    clear -HF. induction HF as [|? ? ? ? _ _ IH]; [done|]. cbn. by f_equal.
Qed.

(** Wc counts.  For files that exist and are smaller than 2 GB, [wc]
    terminates with status 0 and has printed for each of them its number
    of newlines, of words (non-empty pieces between separators), of bytes
    and of vowels, and its name, however the reads cut the files. *)
Theorem wc_correct w name files contents fd : u_writes w = [] -> lowest_fd 16 0 (u_fds w) = Some fd -> files <> [] ->
  Forall2 (fun f l => u_files w !! f = Some l /\ Z.of_nat (length l) < 2 ^ 31) files contents ->
  exists w', Wc.main (name :: files) w = UExit 0 w' /\
    forall f, u_out w' f = if f =? 1 then u_out w f ++ concat (zip_with wc_out files contents) else u_out w f.
Proof.
  intros Hw Hfd Hne HF. destruct files as [|f files]; [done|]. pose proof (lowest_fd_ge _ _ _ _ Hfd) as Hpos.
  apply (files_ok (fun f fd => wc fd f) Wc.wc_files (fun _ l => Z.of_nat (length l) < 2 ^ 31) wc_out fd); try done.
  - intros f' fs w0 w1 w2 w3 r E1 E2 E3. cbn [Wc.wc_files]. unfold mbind, U_bind. by rewrite E1, (proj2 (Z.ltb_ge fd 0)), E2, E3.
  - intros f' l w0 E Hl Hw0. by apply wc_ok.
Qed.

(** ** Witnesses *)

Lemma cat_correct_witness : exists w', Cat.main [[99]; [102]; [102]] grep_world = UExit 0 w' /\
  u_out w' 1 = bytes_of_string "one
two
three
restone
two
three
rest".
Proof.
  destruct (cat_correct grep_world [99] [[102]; [102]] (replicate 2 (bytes_of_string "one
two
three
rest")) 0) as (w' & R & O).
  - reflexivity.
  - reflexivity.
  - discriminate.
  - repeat constructor.
  - exists w'. split; [exact R|]. rewrite O. vm_compute. reflexivity.
Defined.
Lemma wc_correct_witness : exists w', Wc.main [[119]; [102]] grep_world = UExit 0 w' /\
  u_out w' 1 = bytes_of_string "3 4 18 6 f
".
Proof.
  destruct (wc_correct grep_world [119] [[102]] [bytes_of_string "one
two
three
rest"] 0) as (w' & R & O).
  - reflexivity.
  - reflexivity.
  - discriminate.
  - repeat constructor.
  - exists w'. split; [exact R|]. rewrite O. vm_compute. reflexivity.
Defined.
