(* ===== verification/Umalloc.v ===== *)
(** * Umalloc: the user memory allocator

    user/umalloc.c: the allocator of Kernighan and Ritchie over byte
    memory.  A block is a header of 16 bytes, the pointer to the next free
    block and the size in units of 16 bytes with the header, and the
    memory after it.  The free blocks form a circular list in the order of
    their addresses, which begins with the static header [base].

    The heap grows by [sbrk], which returns the old end of the process and
    fails beyond a limit.  The loops over the list take fuel; twice the
    number of blocks is enough. *)

From S2P Require Import Prelude.
From S2P Require Import Mem.

Definition HSIZE : Z := 16.
Definition h_ptr (m : mem) (a : Z) : Z := load64 m a.
Definition h_size (m : mem) (a : Z) : Z := load32 m (a + 8).
Definition set_ptr (a v : Z) (m : mem) : mem := store64 m a v.
Definition set_size (a v : Z) (m : mem) : mem := store32 m (a + 8) v.
(** [p + n] on pointers to headers. *)
Definition hadd (p n : Z) : Z := u64 (p + HSIZE * n).

(** The static variables, the memory, and the end of the process with its
    limit; [base] is the address of the static header. *)
Record uheap := UHeap { uh_mem : mem; uh_freep : Z; uh_brk : Z; uh_max : Z }.
Definition set_uh_mem m h := UHeap m (uh_freep h) (uh_brk h) (uh_max h).
Definition set_uh_freep p h := UHeap (uh_mem h) p (uh_brk h) (uh_max h).

Definition sbrk (n : Z) (h : uheap) : option Z * uheap :=
  if (0 <? n) && (uh_max h <? uh_brk h + n) then (None, h)
  else (Some (uh_brk h), UHeap (uh_mem h) (uh_freep h) (uh_brk h + n) (uh_max h)).

(** The end of the loop of [free]. *)
Definition free_stop (m : mem) (bp p : Z) : bool :=
  ((p <? bp) && (bp <? h_ptr m p)) || ((h_ptr m p <=? p) && ((p <? bp) || (bp <? h_ptr m p))).
Fixpoint free_find (fuel : nat) (m : mem) (bp p : Z) : option Z :=
  match fuel with
  | O => None
  | S f => if free_stop m bp p then Some p else free_find f m bp (h_ptr m p)
  end.
(** Joining the block with the following and the preceding free block. *)
Definition free_next (bp p : Z) (m : mem) : mem :=
  if hadd bp (h_size m bp) =? h_ptr m p then
    let m := set_size bp (u32 (h_size m bp + h_size m (h_ptr m p))) m in
    set_ptr bp (h_ptr m (h_ptr m p)) m
  else set_ptr bp (h_ptr m p) m.
Definition free_prev (bp p : Z) (m : mem) : mem :=
  if hadd p (h_size m p) =? bp then
    let m := set_size p (u32 (h_size m p + h_size m bp)) m in
    set_ptr p (h_ptr m bp) m
  else set_ptr p bp m.
Definition free (fuel : nat) (ap : Z) (h : uheap) : option uheap :=
  let bp := ap - HSIZE in
  p ← free_find fuel (uh_mem h) bp (uh_freep h);
  Some (set_uh_freep p (set_uh_mem (free_prev bp p (free_next bp p (uh_mem h))) h)).

(** Returns [freep], or 0 when the heap cannot grow; the argument of [sbrk]
    is an int. *)
Definition morecore (fuel : nat) (nu : Z) (h : uheap) : option (Z * uheap) :=
  let nu := if nu <? 4096 then 4096 else nu in
  match sbrk (i32 (nu * HSIZE)) h with
  | (None, h) => Some (0, h)
  | (Some hp, h) =>
    h ← free fuel (hp + HSIZE) (set_uh_mem (set_size hp nu (uh_mem h)) h);
    Some (uh_freep h, h)
  end.

(** Taking [nunits] from the block [p] after [prevp]: all of it or its
    tail. *)
Definition malloc_take (nunits prevp p : Z) (h : uheap) : Z * uheap :=
  let m := uh_mem h in
  if h_size m p =? nunits then
    (p + HSIZE, set_uh_freep prevp (set_uh_mem (set_ptr prevp (h_ptr m p) m) h))
  else
    let m := set_size p (u32 (h_size m p - nunits)) m in
    let p' := hadd p (h_size m p) in
    (p' + HSIZE, set_uh_freep prevp (set_uh_mem (set_size p' nunits m) h)).
Fixpoint malloc_loop (fuel : nat) (nunits prevp p : Z) (h : uheap) : option (Z * uheap) :=
  match fuel with
  | O => None
  | S f =>
    if nunits <=? h_size (uh_mem h) p then Some (malloc_take nunits prevp p h)
    else if p =? uh_freep h then
      r ← morecore fuel nunits h;
      if fst r =? 0 then Some (0, snd r)
      else malloc_loop f nunits (fst r) (h_ptr (uh_mem (snd r)) (fst r)) (snd r)
    else malloc_loop f nunits p (h_ptr (uh_mem h) p) h
  end.
Definition units (nbytes : Z) : Z := u32 ((nbytes + HSIZE - 1) / HSIZE + 1).
Definition malloc (base : Z) (fuel : nat) (nbytes : Z) (h : uheap) : option (Z * uheap) :=
  let h := if uh_freep h =? 0 then set_uh_freep base (set_uh_mem (set_size base 0 (set_ptr base base (uh_mem h))) h) else h in
  let prevp := uh_freep h in
  malloc_loop fuel (units nbytes) prevp (h_ptr (uh_mem h) prevp) h.

(** ** Headers *)

Lemma hadd_small p n : 0 <= p + HSIZE * n < 2 ^ 64 -> hadd p n = p + HSIZE * n.
Proof. apply u64_small. Qed.

(** Headers at different places do not interfere. *)
Definition apart (a b : Z) : Prop := a + HSIZE <= b \/ b + HSIZE <= a.

Lemma set_ptr_other a v m b : ~ a <= b < a + 8 -> set_ptr a v m b = m b.
Proof. intros H. apply store_le_other. lia. Qed.
Lemma set_size_other a v m b : ~ a + 8 <= b < a + 12 -> set_size a v m b = m b.
Proof. intros H. apply store_le_other. lia. Qed.
Lemma h_ext m m' a : (forall b, a <= b < a + HSIZE -> m' b = m b) -> h_ptr m' a = h_ptr m a /\ h_size m' a = h_size m a.
Proof. unfold HSIZE. intros H. split; apply load_le_ext; intros b Hb; apply H; lia. Qed.

Lemma h_ptr_set a v m : 0 <= v < 2 ^ 64 -> h_ptr (set_ptr a v m) a = v.
Proof. intros H. by apply load_store_le. Qed.
Lemma h_size_set a v m : 0 <= v < 2 ^ 32 -> h_size (set_size a v m) a = v.
Proof. intros H. by apply load_store_le. Qed.
Lemma h_ptr_set_size a v m : h_ptr (set_size a v m) a = h_ptr m a.
Proof. apply load_le_ext. intros b Hb. rewrite set_size_other; [done|lia]. Qed.
Lemma h_size_set_ptr a v m : h_size (set_ptr a v m) a = h_size m a.
Proof. apply load_le_ext. intros b Hb. rewrite set_ptr_other; [done|lia]. Qed.
Lemma h_set_ptr_apart a b v m : apart a b -> h_ptr (set_ptr a v m) b = h_ptr m b /\ h_size (set_ptr a v m) b = h_size m b.
Proof. intros H. apply h_ext. unfold apart, HSIZE in *. intros x Hx. apply set_ptr_other. lia. Qed.
Lemma h_set_size_apart a b v m : apart a b -> h_ptr (set_size a v m) b = h_ptr m b /\ h_size (set_size a v m) b = h_size m b.
Proof. intros H. apply h_ext. unfold apart, HSIZE in *. intros x Hx. apply set_size_other. lia. Qed.
