(* ===== verification/UmallocProps.v ===== *)
(** * UmallocProps: the allocator hands out disjoint blocks

    The invariant of umalloc.c: the circular list runs through the static
    header and free blocks of increasing addresses that are never adjacent,
    and every unit of the heap is in exactly one free or allocated block.
    [malloc] and [free] keep it and leave the memory of the program's
    blocks alone. *)

From S2P Require Import Prelude.
From S2P Require Import Mem.
From S2P Require Import Umalloc.

Abbreviation blk := (Z * Z)%type.

(** ** Lists of blocks *)

Definition hd_addr (l : list blk) (q : Z) : Z := match l with (a, _) :: _ => a | [] => q end.
(** The blocks [l] are linked in this order and the last points to [q]. *)
Fixpoint links (m : mem) (l : list blk) (q : Z) : Prop :=
  match l with
  | [] => True
  | (a, s) :: l' => h_ptr m a = hd_addr l' q /\ h_size m a = s /\ links m l' q
  end.
(** Every block begins strictly after the end of the one before. *)
Fixpoint spaced (lo : Z) (l : list blk) : Prop :=
  match l with
  | [] => True
  | (a, s) :: l' => lo < a /\ 0 < s /\ spaced (a + HSIZE * s) l'
  end.
Fixpoint end_of (lo : Z) (l : list blk) : Z := match l with [] => lo | (a, s) :: l' => end_of (a + HSIZE * s) l' end.
Fixpoint total (l : list blk) : Z := match l with [] => 0 | (_, s) :: l' => s + total l' end.

Definition disj (x y : blk) : Prop := fst x + HSIZE * snd x <= fst y \/ fst y + HSIZE * snd y <= fst x.
Fixpoint pdisj (l : list blk) : Prop := match l with [] => True | x :: l' => Forall (disj x) l' /\ pdisj l' end.

Lemma hd_addr_app l1 l2 q : hd_addr (l1 ++ l2) q = hd_addr l1 (hd_addr l2 q).
Proof. by destruct l1 as [|[] l1]. Qed.
Lemma links_app m l1 l2 q : links m (l1 ++ l2) q <-> links m l1 (hd_addr l2 q) /\ links m l2 q.
Proof.
  induction l1 as [|[a s] l1 IH]; cbn; [tauto|]. rewrite IH, hd_addr_app. tauto.
Qed.
Lemma links_ext m m' l q : (forall a s, (a, s) ∈ l -> h_ptr m' a = h_ptr m a /\ h_size m' a = h_size m a) -> links m l q -> links m' l q.
Proof.
  induction l as [|[a s] l IH]; cbn; [done|]. intros H (H1 & H2 & H3). destruct (H a s) as [-> ->]; [by left|].
  split_and!; [done|done|]. apply IH; [|done]. intros b t Hb. apply (H b t). by right.
Qed.
Lemma spaced_app l1 : forall lo l2, spaced lo (l1 ++ l2) <-> spaced lo l1 /\ spaced (end_of lo l1) l2.
Proof. induction l1 as [|[a s] l1 IH]; intros lo l2; cbn; [tauto|]. rewrite IH. tauto. Qed.
Lemma spaced_le lo lo' l : lo' <= lo -> spaced lo l -> spaced lo' l.
Proof. destruct l as [|[a s] l]; [done|]. cbn. intros ? (? & ? & ?). split_and!; [lia|done|done]. Qed.
Lemma spaced_in l : forall lo a s, spaced lo l -> (a, s) ∈ l -> lo < a /\ 0 < s.
Proof.
  induction l as [|[b t] l IH]; intros lo a s; cbn; [by intros _ ?%not_elem_of_nil|]. intros (H1 & H2 & H3) [[= -> ->]|Hin]%elem_of_cons; [done|].
  apply (IH _ _ _ H3) in Hin. unfold HSIZE in *. lia.
Qed.
Lemma end_of_ge l : forall lo, spaced lo l -> lo <= end_of lo l.
Proof. induction l as [|[b t] l IH]; intros lo; cbn; [lia|]. intros (H1 & H2 & H3). specialize (IH _ H3). unfold HSIZE in *. lia. Qed.
Lemma spaced_end l : forall lo a s, spaced lo l -> (a, s) ∈ l -> a + HSIZE * s <= end_of lo l.
Proof.
  induction l as [|[b t] l IH]; intros lo a s; cbn; [by intros _ ?%not_elem_of_nil|]. intros (H1 & H2 & H3) [[= -> ->]|Hin]%elem_of_cons.
  - by apply end_of_ge.
  - by apply IH.
Qed.
Lemma total_app l1 l2 : total (l1 ++ l2) = total l1 + total l2.
Proof. induction l1 as [|[a s] l1 IH]; cbn; lia. Qed.
Lemma disj_sym x y : disj x y -> disj y x.
Proof. unfold disj. tauto. Qed.

(** Blocks before and after [bp]. *)
Lemma split_at l : forall lo bp n, spaced lo l -> 0 < n -> Forall (disj (bp, n)) l ->
  exists l1 l2, l = l1 ++ l2 /\ Forall (fun x => fst x + HSIZE * snd x <= bp) l1 /\ Forall (fun x => bp + HSIZE * n <= fst x) l2.
Proof.
  induction l as [|[a s] l IH]; intros lo bp n Hs Hn Hd; [by exists [], []|].
  apply Forall_cons in Hd as [Ha Hd]. destruct Hs as (H1 & H2 & H3). destruct Ha as [Ha|Ha]; cbn [fst snd] in Ha.
  - exists [], ((a, s) :: l). split_and!; [done|constructor|]. constructor; [done|]. apply Forall_forall. intros [b t] Hb.
    apply (spaced_in _ _ _ _ H3) in Hb. cbn. unfold HSIZE in *. lia.
  - destruct (IH _ bp n H3 Hn Hd) as (l1 & l2 & -> & F1 & F2). exists ((a, s) :: l1), l2. split_and!; [done|by constructor|done].
Qed.

(** ** Walking the list *)

Lemma free_find_walk m bp : forall l q fuel, links m l q -> (exists a s, (a, s) ∈ l /\ free_stop m bp a = true) ->
  (length l <= fuel)%nat -> exists a s, (a, s) ∈ l /\ free_stop m bp a = true /\ free_find fuel m bp (hd_addr l q) = Some a.
Proof.
  induction l as [|[a s] l IH]; intros q fuel HL (b & t & Hin & Hst) Hf; [by apply not_elem_of_nil in Hin|].
  destruct fuel as [|fuel]; [cbn in Hf; lia|]. cbn [free_find hd_addr]. destruct HL as (H1 & H2 & H3).
  destruct (free_stop m bp a) eqn:E.
  - exists a, s. split_and!; [by left|done|done].
  - apply elem_of_cons in Hin as [[= -> ->]|Hin]; [congruence|].
    destruct (IH q fuel) as (c & u & Hc & Hsc & R); [done|by exists b, t|cbn in Hf; lia|].
    exists c, u. rewrite H1. split_and!; [by right|done|done].
Qed.

(** The list as seen from another block of it. *)
Lemma links_rotate m x a s y base : hd_addr (x ++ (a, s) :: y) base = base -> links m (x ++ (a, s) :: y) base ->
  links m ((a, s) :: y ++ x) a.
Proof.
  intros Hh [H1 H2]%links_app. cbn [links] in *. destruct H2 as (H2 & H3 & H4).
  assert (hd_addr x a = base) as Hx by (by destruct x as [|[] x]).
  split_and!; [by rewrite hd_addr_app, Hx|done|]. apply links_app. by rewrite Hx.
Qed.

Section flist.
Context (base lo : Z) (m : mem) (fl : list blk).
Hypothesis (Hbase : 0 < base) (Hlo : base + HSIZE <= lo).
Hypothesis (HL : links m ((base, 0) :: fl) base) (HS : spaced (lo - 1) fl).

(** Addresses increase along the list. *)
Lemma addr_inc u a s v b t : (base, 0) :: fl = u ++ (a, s) :: v -> (b, t) ∈ v -> a < b /\ 0 < t.
Proof.
  destruct u as [|x u]; cbn; [intros [= <- <- <-] Hin|intros [= <- E] Hin].
  - apply (spaced_in _ _ _ _ HS) in Hin. unfold HSIZE in *. lia.
  - rewrite E in HS. apply spaced_app in HS as [_ (H1 & H2 & H3)]. apply (spaced_in _ _ _ _ H3) in Hin. unfold HSIZE in *. lia.
Qed.
Lemma addr_pos a s : (a, s) ∈ (base, 0) :: fl -> base <= a.
Proof. intros [[= -> ->]|Hin]%elem_of_cons; [lia|]. apply (spaced_in _ _ _ _ HS) in Hin. unfold HSIZE in *. lia. Qed.

Lemma addr_after u a s v b t : (base, 0) :: fl = u ++ (a, s) :: v -> (b, t) ∈ (base, 0) :: fl -> a < b -> (b, t) ∈ v.
Proof.
  intros E Hin Hlt. rewrite E in Hin. apply elem_of_app in Hin as [Hin|[[= -> ->]|Hin]%elem_of_cons]; [|lia|done]. exfalso.
  apply list_elem_of_split in Hin as (u1 & u2 & ->). rewrite <- app_assoc in E. cbn in E.
  destruct (addr_inc _ _ _ _ a s E); [apply elem_of_app; right; by left|lia].
Qed.

(** The end of the search for the place of the block [bp]. *)
Lemma free_find_ok bp n freep fuel : 0 < n -> lo <= bp -> Forall (disj (bp, n)) fl ->
  (exists s, (freep, s) ∈ (base, 0) :: fl) -> (length fl < fuel)%nat ->
  exists L p ps R, (base, 0) :: fl = L ++ (p, ps) :: R /\ free_find fuel m bp freep = Some p /\
    p + HSIZE * ps <= bp /\ p < bp /\ Forall (fun x => bp + HSIZE * n <= fst x) R.
Proof.
  intros Hn Hbp HD (s & Hfp) Hf. destruct (split_at fl (lo - 1) bp n HS Hn HD) as (l1 & l2 & E & F1 & F2).
  assert (exists L p ps, (base, 0) :: l1 = L ++ [(p, ps)]) as (L & p & ps & EL).
  { destruct (exists_last (l := (base, 0) :: l1)) as (L & [p ps] & ->); [done|]. by exists L, p, ps. }
  assert ((base, 0) :: fl = L ++ (p, ps) :: l2) as E0 by (rewrite E, (cons_middle (p, ps)), app_assoc, <- EL; done).
  assert (Forall (fun x => fst x + HSIZE * snd x <= bp /\ fst x < bp) (L ++ [(p, ps)])) as FL.
  { rewrite <- EL. constructor; [cbn; unfold HSIZE in *; lia|]. rewrite Forall_forall in F1 |- *. intros [a t] Hx. specialize (F1 _ Hx).
    cbn in *. assert ((a, t) ∈ fl) as Hin by (rewrite E; apply elem_of_app; by left).
    apply (spaced_in _ _ _ _ HS) in Hin. unfold HSIZE in *. lia. }
  rewrite Forall_forall in FL, F2.
  exists L, p, ps, l2. split; [done|]. destruct (FL (p, ps)) as [P1 P2]; [apply elem_of_app; right; by left|]. cbn [fst snd] in P1, P2.
  split; [|split_and!; [done|done|by apply Forall_forall]].
  (* the block stops the search *)
  pose proof HL as HL'. rewrite E0 in HL'. apply links_app in HL' as [HL1 (Hp & _ & HL2)].
  assert (free_stop m bp p = true) as Hstop.
  { unfold free_stop. rewrite Hp, (proj2 (Z.ltb_lt p bp)) by done. destruct l2 as [|[r rs] l2]; cbn [hd_addr].
    - rewrite (proj2 (Z.leb_le base p)); [by rewrite orb_true_r|]. apply (addr_pos p ps). rewrite E0. apply elem_of_app. right. by left.
    - rewrite (proj2 (Z.ltb_lt bp r)); [done|]. specialize (F2 (r, rs)). cbn in F2. unfold HSIZE in *. assert ((r, rs) ∈ (r, rs) :: l2) by (by left). specialize (F2 H). lia. }
  (* no other does *)
  assert (forall a t, (a, t) ∈ (base, 0) :: fl -> free_stop m bp a = true -> a = p) as Huniq.
  { intros a t Hin Hst. pose proof Hin as Hin'. apply list_elem_of_split in Hin' as (u & v & Ev).
    pose proof HL as HL'. rewrite Ev in HL'. apply links_app in HL' as [_ (Ha & _ & _)].
    unfold free_stop in Hst. rewrite Ha in Hst. pose proof (addr_pos a t Hin) as Hba.
    assert (forall b w, (b, w) ∈ v -> a < b) as Hinc by (intros b w Hb; by destruct (addr_inc u a t v b w Ev Hb)).
    assert (a < bp) as Hab.
    { destruct (Z.ltb_spec a bp) as [|Hge]; [done|]. cbn in Hst. destruct v as [|[b w] v]; cbn [hd_addr] in Hst.
      - rewrite (proj2 (Z.ltb_ge bp base)) in Hst by (unfold HSIZE in *; lia). by rewrite andb_false_r in Hst.
      - rewrite (proj2 (Z.leb_gt b a)) in Hst by (apply (Hinc b w); by left). done. }
    destruct (Z.lt_total a p) as [Hlt|[Heq|Hgt]]; [exfalso|done|exfalso].
    - assert ((p, ps) ∈ v) as Hpv by (apply (addr_after u a t v); [done|rewrite E0; apply elem_of_app; right; by left|done]).
      destruct v as [|[b w] v]; [by apply not_elem_of_nil in Hpv|]. cbn [hd_addr] in Hst.
      rewrite (proj2 (Z.leb_gt b a)), orb_false_r in Hst by (apply (Hinc b w); by left).
      apply andb_true_iff in Hst as [_ Hst]. apply elem_of_cons in Hpv as [[= -> ->]|Hpv]; [lia|].
      destruct (addr_inc (u ++ [(a, t)]) b w v p ps) as [? _]; [by rewrite <- app_assoc, Ev|done|lia].
    - assert ((a, t) ∈ l2) as Hal by by apply (addr_after L p ps l2).
      specialize (F2 _ Hal). cbn in F2. unfold HSIZE in *. lia. }
  apply list_elem_of_split in Hfp as (x & y & Exy).
  assert (links m ((freep, s) :: y ++ x) freep) as Hrot.
  { apply (links_rotate m x freep s y base); [by rewrite <- Exy|by rewrite <- Exy]. }
  assert (forall z, z ∈ (base, 0) :: fl <-> z ∈ (freep, s) :: y ++ x) as Hperm.
  { intros z. rewrite Exy, elem_of_app, !elem_of_cons, elem_of_app. tauto. }
  destruct (free_find_walk m bp _ freep fuel Hrot) as (a & t & Ha & Hst & R).
  - exists p, ps. split; [|done]. apply Hperm. rewrite E0. apply elem_of_app. right. by left.
  - apply (f_equal length) in Exy. cbn in *. rewrite length_app in *. cbn in *. lia.
  - cbn [hd_addr] in R. rewrite R. f_equal. by apply (Huniq a t); [apply Hperm|].
Qed.

(** ** Joining blocks *)

Context (bp n top : Z).
Hypothesis (Hn : 0 < n) (Hbp : lo <= bp) (Hend : bp + HSIZE * n <= top) (Htop : top <= 2 ^ 36).
Hypothesis (Hends : Forall (fun x => fst x + HSIZE * snd x <= top) fl) (HD : Forall (disj (bp, n)) fl).
Hypothesis (Hsize : h_size m bp = n).

Lemma spaced_tail L p ps R : (base, 0) :: fl = L ++ (p, ps) :: R -> spaced (p + HSIZE * ps) R /\
  Forall (fun x => fst x + HSIZE * snd x <= top) R /\ 0 <= ps.
Proof.
  destruct L as [|x L]; cbn; [intros [= <- <- <-]|intros [= <- E]].
  - split_and!; [|done|lia]. apply (spaced_le (lo - 1)); [unfold HSIZE in *; lia|done].
  - rewrite E in HS, Hends. apply spaced_app in HS as [_ (H1 & H2 & H3)]. apply Forall_app in Hends as [_ [_ HR]%Forall_cons].
    split_and!; [done|done|lia].
Qed.

Lemma head_apart L p ps R : (base, 0) :: fl = L ++ (p, ps) :: R -> p + HSIZE * ps <= bp -> apart bp p.
Proof.
  intros E Hp. right. destruct L as [|x L]; cbn in E; [injection E as <- <- <-; lia|]. injection E as <- E.
  rewrite E in HS. apply spaced_app in HS as [_ (H1 & H2 & H3)]. unfold HSIZE in *. lia.
Qed.

Lemma free_next_ok L p ps R : (base, 0) :: fl = L ++ (p, ps) :: R -> p + HSIZE * ps <= bp -> p < bp ->
  Forall (fun x => bp + HSIZE * n <= fst x) R ->
  exists N R', let m1 := free_next bp p m in
    h_ptr m1 bp = hd_addr R' base /\ h_size m1 bp = N /\ spaced (bp + HSIZE * N) R' /\ 0 < N /\
    N + total R' = n + total R /\ bp + HSIZE * N <= top /\ (R' = R \/ R' = tail R) /\
    (forall b, ~ bp <= b < bp + HSIZE -> m1 b = m b) /\ links m R' base /\
    forall x, 0 < snd x -> disj x (bp, n) -> Forall (disj x) R -> disj x (bp, N).
Proof.
  intros E Hp1 Hp2 HR. pose proof HL as HL'. rewrite E in HL'. apply links_app in HL' as [_ (Hp & _ & HLR)].
  destruct (spaced_tail L p ps R E) as (HSR & HER & Hps). unfold free_next.
  assert (0 <= bp + HSIZE * n < 2 ^ 64) as Hbn by (unfold HSIZE in *; lia).
  rewrite Hsize, hadd_small, Hp by done. destruct (Z.eqb_spec (bp + HSIZE * n) (hd_addr R base)) as [Eq|Hne].
  - destruct R as [|[r rs] R]; cbn [hd_addr] in *; [unfold HSIZE in *; lia|].
    destruct HSR as (S1 & S2 & S3). apply Forall_cons in HER as [E1 HER]. cbn [fst snd] in E1.
    destruct HLR as (L1 & L2 & L3). apply Forall_cons in HR as [_ HR].
    assert (apart bp r) as Hap by (unfold apart, HSIZE in *; lia).
    rewrite L2. assert (u32 (n + rs) = n + rs) as -> by (apply u32_small; unfold HSIZE in *; lia).
    set (m1 := set_size bp (n + rs) m). assert (h_ptr m1 p = r) as Hp'.
    { rewrite <- Hp. apply h_set_size_apart. by eapply head_apart. }
    rewrite Hp'. rewrite (proj1 (h_set_size_apart bp r (n + rs) m Hap) : h_ptr m1 r = _), L1.
    assert (base <= hd_addr R base < 2 ^ 36) as Hh.
    { destruct R as [|[q qs] R]; cbn; [unfold HSIZE in *; lia|]. apply Forall_cons in HER as [? _]. cbn in *. destruct S3 as (? & ? & _). unfold HSIZE in *. lia. }
    exists (n + rs), R. cbv zeta. split_and!.
    + apply h_ptr_set. lia.
    + rewrite h_size_set_ptr. apply h_size_set. unfold HSIZE in *. lia.
    + by replace (bp + HSIZE * (n + rs)) with (r + HSIZE * rs) by lia.
    + lia.
    + cbn [total]. lia.
    + unfold HSIZE in *. lia.
    + by right.
    + intros b Hb. unfold m1. rewrite set_ptr_other, set_size_other by (unfold HSIZE in *; lia). done.
    + done.
    + intros [u k] Hk Hd1 [Hd2 _]%Forall_cons. unfold disj, HSIZE in *. cbn [fst snd] in *. lia.
  - assert (base <= hd_addr R base < 2 ^ 36) as Hh.
    { destruct R as [|[q qs] R]; cbn; [unfold HSIZE in *; lia|]. apply Forall_cons in HER as [? _]. cbn in *. destruct HSR as (? & ? & _).
      assert (base <= p) by (apply (addr_pos p ps); rewrite E; apply elem_of_app; right; by left). unfold HSIZE in *. lia. }
    exists n, R. cbv zeta. split_and!.
    + apply h_ptr_set. lia.
    + by rewrite h_size_set_ptr.
    + destruct R as [|[r rs] R]; [done|]. destruct HSR as (S1 & S2 & S3). apply Forall_cons in HR as [HR _]. cbn in *. split_and!; [lia|done|done].
    + done.
    + done.
    + done.
    + by left.
    + intros b Hb. rewrite set_ptr_other by (unfold HSIZE in *; lia). done.
    + done.
    + done.
Qed.

Lemma before_apart L p ps R a t : (base, 0) :: fl = L ++ (p, ps) :: R -> (a, t) ∈ L -> a + HSIZE <= p.
Proof.
  intros E Hin. apply list_elem_of_split in Hin as (u & v & ->). rewrite <- app_assoc in E. cbn in E.
  destruct u as [|x u]; cbn in E; [injection E as <- <- E|injection E as <- E].
  - destruct (spaced_in fl (lo - 1) p ps) as [? _]; [done|rewrite E; apply elem_of_app; right; by left|lia].
  - rewrite E in HS. apply spaced_app in HS as [_ (H1 & H2 & H3)].
    destruct (spaced_in _ _ p ps H3) as [? _]; [apply elem_of_app; right; by left|]. unfold HSIZE in *. lia.
Qed.

(** The list with the blocks after [L] exchanged. *)
Lemma relink L p ps R m' ps' M : (base, 0) :: fl = L ++ (p, ps) :: R -> (0 < ps -> 0 < ps') -> (L = [] -> ps' = 0) ->
  spaced (p + HSIZE * ps') M -> Forall (fun x => fst x + HSIZE * snd x <= top) ((p, ps') :: M) ->
  (forall b, b < p -> m' b = m b) -> links m' ((p, ps') :: M) base -> (forall a t, M = (a, t) :: tail M -> lo <= a) ->
  exists fl', (base, 0) :: fl' = L ++ (p, ps') :: M /\ links m' ((base, 0) :: fl') base /\ spaced (lo - 1) fl' /\
    Forall (fun x => fst x + HSIZE * snd x <= top) fl'.
Proof.
  intros E Hpos H0 HM HE Hfr HL1 HloM. assert (links m' L p) as HLL.
  { pose proof HL as HL'. rewrite E in HL'. apply links_app in HL' as [HL' _]. apply (links_ext m); [|done].
    intros a t Hin. apply h_ext. intros b Hb. apply Hfr. pose proof (before_apart _ _ _ _ _ _ E Hin). lia. }
  destruct L as [|x L]; cbn [app] in *; [injection E as <- <- E2|injection E as <- E2].
  - rewrite (H0 eq_refl) in *. exists M. apply Forall_cons in HE as [_ HE]. split_and!; [done|done| |done].
    destruct M as [|[a t] M]; [done|]. destruct HM as (_ & M2 & M3). split_and!; [|done|done]. specialize (HloM a t eq_refl). lia.
  - exists (L ++ (p, ps') :: M). rewrite E2 in HS, Hends. apply spaced_app in HS as [S1 (S2 & S3 & S4)].
    apply Forall_app in Hends as [En1 _].
    split_and!; [done| | |].
    + apply (links_app m' ((base, 0) :: L) ((p, ps') :: M)). by split.
    + apply spaced_app. split; [done|]. split_and!; [done|by apply Hpos|done].
    + by apply Forall_app.
Qed.

(** [free] puts the block into the list. *)
Definition inserted (p : Z) (fl' : list blk) (m' : mem) : Prop :=
  links m' ((base, 0) :: fl') base /\ spaced (lo - 1) fl' /\ Forall (fun x => fst x + HSIZE * snd x <= top) fl' /\
  total fl' = total fl + n /\ (exists s, (p, s) ∈ (base, 0) :: fl') /\ (length fl' <= S (length fl))%nat /\
  (forall x, 0 < snd x -> disj x (bp, n) -> Forall (disj x) fl -> Forall (disj x) fl') /\
  (forall b, ~ bp <= b < bp + HSIZE -> (forall a s, (a, s) ∈ (base, 0) :: fl -> ~ a <= b < a + HSIZE) -> m' b = m b) /\
  (exists x, x ∈ fl' /\ n <= snd x).

Lemma total_list L p ps R : (base, 0) :: fl = L ++ (p, ps) :: R -> total fl = total L + ps + total R.
Proof. intros E. change (total fl) with (total ((base, 0) :: fl)). rewrite E, total_app. cbn. lia. Qed.

Lemma disj_relink L p ps R fl' ps' M x : (base, 0) :: fl = L ++ (p, ps) :: R -> (base, 0) :: fl' = L ++ (p, ps') :: M ->
  (L <> [] -> disj x (p, ps) -> Forall (disj x) R -> disj x (p, ps')) -> (Forall (disj x) R -> Forall (disj x) M) ->
  Forall (disj x) fl -> Forall (disj x) fl'.
Proof.
  intros E E' Hp HM Hd. destruct L as [|y L]; cbn [app] in *.
  - injection E as _ _ ER. injection E' as _ _ ->. apply HM. by rewrite <- ER.
  - injection E as _ ER. injection E' as _ ->. rewrite ER in Hd. apply Forall_app in Hd as [Hd1 [Hd2 Hd3]%Forall_cons].
    apply Forall_app. split; [done|]. constructor; [by apply Hp|by apply HM].
Qed.

(** The last step: [p] is joined with the block or points to it. *)
Lemma free_prev_cases p ps N m1 : 0 < p -> p < bp -> h_size m1 p = ps -> h_size m1 bp = N -> apart bp p ->
  0 <= ps -> 0 < N -> p + HSIZE * ps <= bp -> bp + HSIZE * N <= top -> 0 <= h_ptr m1 bp < 2 ^ 64 ->
  let m' := free_prev bp p m1 in
  (p + HSIZE * ps = bp /\ h_ptr m' p = h_ptr m1 bp /\ h_size m' p = ps + N \/
   p + HSIZE * ps < bp /\ h_ptr m' p = bp /\ h_size m' p = ps) /\
  (forall b, ~ p <= b < p + HSIZE -> m' b = m1 b).
Proof.
  intros H0 H1 Hs HN Hap Hps HN0 Hle Htp Hptr. cbv zeta. unfold free_prev. rewrite Hs, HN, hadd_small by (unfold HSIZE in *; lia).
  assert (apart p bp) as Hap' by (unfold apart in *; lia).
  destruct (Z.eqb_spec (p + HSIZE * ps) bp) as [Eq|Hne].
  - rewrite (proj1 (h_set_size_apart p bp _ m1 Hap')). rewrite u32_small by (unfold HSIZE in *; lia). split.
    + left. split_and!; [done|by apply h_ptr_set|]. rewrite h_size_set_ptr. apply h_size_set. unfold HSIZE in *; lia.
    + intros b Hb. rewrite set_ptr_other, set_size_other by (unfold HSIZE in *; lia). done.
  - split.
    + right. split_and!; [lia|apply h_ptr_set; unfold HSIZE in *; lia|by rewrite h_size_set_ptr].
    + intros b Hb. rewrite set_ptr_other by (unfold HSIZE in *; lia). done.
Qed.

Lemma free_prev_ok L p ps R : (base, 0) :: fl = L ++ (p, ps) :: R -> p + HSIZE * ps <= bp -> p < bp ->
  Forall (fun x => bp + HSIZE * n <= fst x) R -> exists fl', inserted p fl' (free_prev bp p (free_next bp p m)).
Proof.
  intros E Hp1 Hp2 HR. destruct (free_next_ok L p ps R E Hp1 Hp2 HR) as (N & R' & A1 & A2 & A3 & A4 & A5 & A6 & A7 & A8 & A9 & A10).
  set (m1 := free_next bp p m) in *. pose proof (head_apart L p ps R E Hp1) as Hap. destruct (spaced_tail L p ps R E) as (_ & HER & Hps).
  assert ((p, ps) ∈ (base, 0) :: fl) as Hpin by (rewrite E; apply elem_of_app; right; by left).
  pose proof (addr_pos p ps Hpin) as Hbp'.
  assert (h_size m1 p = ps) as Hs1.
  { pose proof HL as HL'. rewrite E in HL'. apply links_app in HL' as [_ (_ & Hs & _)]. rewrite <- Hs. apply h_ext. intros b Hb. apply A8.
    unfold apart in Hap. lia. }
  assert (L = [] -> ps = 0 /\ p = base) as HLnil by (intros ->; by injection E as <- <- _).
  assert (Forall (fun x => fst x + HSIZE * snd x <= top) R') as HER' by (destruct A7 as [->| ->]; [done|destruct R; [done|by apply Forall_cons in HER as [_ ?]]]).
  assert (forall x, Forall (disj x) R -> Forall (disj x) R') as HdR.
  { intros x Hd. destruct A7 as [->| ->]; [done|]. destruct R; [done|by apply Forall_cons in Hd as [_ ?]]. }
  assert (length R' <= length R)%nat as Hlen by (destruct A7 as [->| ->]; [lia|destruct R; cbn; lia]).
  assert (base <= hd_addr R' base < 2 ^ 36) as Hhd.
  { destruct R' as [|[r rs] R']; cbn; [unfold HSIZE in *; lia|]. destruct A3 as (? & ? & _). apply Forall_cons in HER' as [? _]. cbn in *. unfold HSIZE in *. lia. }
  assert (n <= N) as HnN.
  { destruct A7 as [->| ->]; [lia|]. destruct R as [|[r rs] R]; cbn in *; [lia|]. destruct (spaced_tail L p ps _ E) as [(_ & ? & _) _]. lia. }
  assert (forall fl' x, x ∈ (base, 0) :: fl' -> n <= snd x -> exists x, x ∈ fl' /\ n <= snd x) as Hbig.
  { intros fl' x [-> |Hx]%elem_of_cons Hb; [cbn in Hb; lia|by exists x]. }
  destruct (free_prev_cases p ps N m1) as [HC HF]; [lia|done|done|done|done|done|done|done|done|rewrite A1; lia|].
  set (m' := free_prev bp p m1) in *. pose proof (f_equal length E) as EL. rewrite length_app in EL. cbn in EL.
  assert (forall b, b < p -> m' b = m b) as Hlow by (intros b Hb; rewrite HF, A8 by lia; done).
  assert (links m' R' base) as HLR'.
  { apply (links_ext m1); [|apply (links_ext m); [|done]]; intros a s Hin; apply h_ext; intros b Hb.
    - apply HF. destruct (spaced_in _ _ _ _ A3 Hin). unfold apart, HSIZE in *. lia.
    - apply A8. destruct (spaced_in _ _ _ _ A3 Hin). unfold HSIZE in *. lia. }
  assert (forall b, ~ bp <= b < bp + HSIZE -> (forall a s, (a, s) ∈ (base, 0) :: fl -> ~ a <= b < a + HSIZE) -> m' b = m b) as Hframe.
  { intros b Hb Hfr. rewrite HF by (by apply (Hfr p ps)). by apply A8. }
  pose proof (total_list _ _ _ _ E) as HtE. destruct HC as [(C1 & C2 & C3)|(C1 & C2 & C3)].
  - destruct (relink L p ps R m' (ps + N) R' E) as (fl' & E' & B1 & B2 & B3); [lia|intros HL0; destruct (HLnil HL0); unfold HSIZE in *; lia| | |done| | |].
    + by replace (p + HSIZE * (ps + N)) with (bp + HSIZE * N) by lia.
    + constructor; [cbn; unfold HSIZE in *; lia|done].
    + split_and!; [by rewrite C2|done|done].
    + intros a t HR'. rewrite HR' in A3. destruct A3 as (? & _). unfold HSIZE in *. lia.
    + exists fl'. pose proof (f_equal length E') as EL'. rewrite length_app in EL'. cbn in EL'.
      assert (total fl' = total L + (ps + N) + total R') as HtE'.
      { change (total fl') with (total ((base, 0) :: fl')). rewrite E', total_app. cbn. lia. }
      split_and!; [done|done|done|lia|exists (ps + N); rewrite E'; apply elem_of_app; right; by left|lia| |done|].
      2: { apply (Hbig fl' (p, ps + N)); [rewrite E'; apply elem_of_app; right; by left|cbn; lia]. }
      intros x Hx Hxb Hxf. apply (disj_relink L p ps R fl' (ps + N) R' x E E'); [|apply HdR|done].
      intros _ D1 D2. specialize (A10 x Hx Hxb D2). unfold disj, HSIZE in *. cbn in *. lia.
  - destruct (relink L p ps R m' ps ((bp, N) :: R') E) as (fl' & E' & B1 & B2 & B3); [lia|intros HL0; by destruct (HLnil HL0)| | |done| | |].
    + by split_and!.
    + constructor; [cbn; unfold HSIZE in *; lia|by constructor].
    + split_and!; [done|done|]. split_and!; [| |done].
      * rewrite <- A1. apply h_ext. intros b Hb. apply HF. unfold apart in Hap. lia.
      * rewrite <- A2. apply h_ext. intros b Hb. apply HF. unfold apart in Hap. lia.
    + intros a t [= <- <-]. done.
    + exists fl'. pose proof (f_equal length E') as EL'. rewrite length_app in EL'. cbn in EL'.
      assert (total fl' = total L + ps + (N + total R')) as HtE'.
      { change (total fl') with (total ((base, 0) :: fl')). rewrite E', total_app. cbn. lia. }
      split_and!; [done|done|done|lia|exists ps; rewrite E'; apply elem_of_app; right; by left|lia| |done|].
      2: { apply (Hbig fl' (bp, N)); [rewrite E'; apply elem_of_app; right; right; by left|done]. }
      intros x Hx Hxb Hxf. apply (disj_relink L p ps R fl' ps ((bp, N) :: R') x E E'); [done| |done].
      intros D. constructor; [by apply A10|by apply HdR].
Qed.
End flist.

(** ** The heap *)

(** The free blocks [fl], the allocated blocks [al], the static header and
    the start [lo] of the heap. *)
Record heap_ok (base lo : Z) (fl al : list blk) (h : uheap) : Prop := {
  hk_base : 0 < base /\ base + HSIZE <= lo;
  hk_brk : uh_brk h <= uh_max h <= 2 ^ 36;
  hk_links : links (uh_mem h) ((base, 0) :: fl) base;
  hk_freep : exists s, (uh_freep h, s) ∈ (base, 0) :: fl;
  hk_spaced : spaced (lo - 1) fl;
  hk_ends : Forall (fun x => fst x + HSIZE * snd x <= uh_brk h) fl;
  hk_sizes : Forall (fun x => lo <= fst x /\ 0 < snd x /\ fst x + HSIZE * snd x <= uh_brk h /\ h_size (uh_mem h) (fst x) = snd x) al;
  hk_alloc : pdisj al;
  hk_disj : Forall (fun x => Forall (disj x) fl) al;
  hk_all : HSIZE * (total fl + total al) = uh_brk h - lo }.

(** Memory outside the heap, the static header aside, and in the blocks
    [al] is the same. *)
Definition kept (base lo : Z) (al : list blk) (h h' : uheap) : Prop :=
  forall i, ~ base <= i < base + HSIZE -> (i < lo \/ exists x, x ∈ al /\ fst x <= i < fst x + HSIZE * snd x) ->
  uh_mem h' i = uh_mem h i.

Lemma kept_trans base lo al h1 h2 h3 : kept base lo al h1 h2 -> kept base lo al h2 h3 -> kept base lo al h1 h3.
Proof. intros K1 K2 i Hi Hb. rewrite K2 by done. by apply K1. Qed.

Lemma pdisj_mid l1 x l2 : pdisj (l1 ++ x :: l2) -> pdisj (l1 ++ l2) /\ Forall (disj x) (l1 ++ l2).
Proof.
  induction l1 as [|y l1 IH]; cbn; [tauto|]. intros [H1 H2]. destruct (IH H2) as [I1 I2].
  apply Forall_app in H1 as [J1 [J2 J3]%Forall_cons]. split; [split; [by apply Forall_app|done]|]. constructor; [by apply disj_sym|done].
Qed.

(** Giving a block back. *)
Lemma free_heap base lo fl l1 bp n l2 h fuel : heap_ok base lo fl (l1 ++ (bp, n) :: l2) h -> (length fl < fuel)%nat ->
  exists h' fl', free fuel (bp + HSIZE) h = Some h' /\ heap_ok base lo fl' (l1 ++ l2) h' /\ kept base lo (l1 ++ l2) h h' /\
    uh_brk h' = uh_brk h /\ uh_max h' = uh_max h /\ (length fl' <= S (length fl))%nat /\ exists x, x ∈ fl' /\ n <= snd x.
Proof.
  intros [[Hb1 Hb2] Hbrk HL Hfp HS HE Hsz Hal Hdj Htot] Hf.
  pose proof Hsz as Hsz'. apply Forall_app in Hsz' as [Hz1 [(Z1 & Z2 & Z3 & Z4) Hz2]%Forall_cons]. cbn [fst snd] in *.
  pose proof Hdj as Hdj'. apply Forall_app in Hdj' as [Hd1 [Hd Hd2]%Forall_cons].
  destruct (pdisj_mid _ _ _ Hal) as [Hal' Hbpal].
  destruct (free_find_ok base lo (uh_mem h) fl Hb2 HL HS bp n (uh_freep h) fuel Z2 Z1 Hd Hfp Hf) as (L & p & ps & R & E & EF & P1 & P2 & P3).
  destruct (free_prev_ok base lo (uh_mem h) fl Hb1 Hb2 HL HS bp n (uh_brk h) Z2 Z1 Z3 ltac:(lia) HE Z4 L p ps R E P1 P2 P3)
    as (fl' & I1 & I2 & I3 & I4 & I5 & I6 & I7 & I8 & I9).
  unfold free. replace (bp + HSIZE - HSIZE) with bp by lia. rewrite EF. cbn [mbind option_bind].
  eexists _, fl'. split; [done|]. set (m' := free_prev _ _ _) in *.
  assert (forall x i, x ∈ l1 ++ l2 -> fst x <= i < fst x + HSIZE * snd x -> m' i = uh_mem h i) as Hal_kept.
  { intros x i Hx Hi. rewrite Forall_forall in Hbpal. specialize (Hbpal x Hx).
    assert (Forall (disj x) fl) as Hxf by (rewrite Forall_forall in Hdj; apply Hdj; apply elem_of_app in Hx as [?|?]; apply elem_of_app; [by left|right; by right]).
    assert (lo <= fst x) as Hxlo by (rewrite Forall_forall in Hsz; apply Hsz; apply elem_of_app in Hx as [?|?]; apply elem_of_app; [by left|right; by right]).
    apply I8; [unfold disj, HSIZE in *; cbn [fst snd] in *; lia|]. intros a s [[= -> ->]|Ha]%elem_of_cons; [lia|].
    rewrite Forall_forall in Hxf. specialize (Hxf _ Ha). destruct (spaced_in _ _ _ _ HS Ha). unfold disj, HSIZE in *. cbn [fst snd] in *. lia. }
  split_and!; try done.
  - constructor; cbn [uh_brk uh_max uh_mem uh_freep set_uh_freep set_uh_mem]; try done.
    + assert (Forall (fun x => lo <= fst x /\ 0 < snd x /\ fst x + HSIZE * snd x <= uh_brk h /\ h_size (uh_mem h) (fst x) = snd x) (l1 ++ l2)) as Hsz12 by by apply Forall_app.
      rewrite Forall_forall in Hsz12 |- *. intros x Hx. destruct (Hsz12 x Hx) as (Y1 & Y2 & Y3 & Y4). split_and!; [done|done|done|].
      rewrite <- Y4. apply h_ext. intros i Hi. apply (Hal_kept x); [done|]. unfold HSIZE in *. lia.
    + rewrite Forall_forall. intros x Hx. rewrite Forall_forall in Hbpal. specialize (Hbpal x Hx). rewrite Forall_forall in Hdj, Hsz.
      assert (x ∈ l1 ++ (bp, n) :: l2) as Hx' by (apply elem_of_app in Hx as [?|?]; apply elem_of_app; [by left|right; by right]).
      apply I7; [by apply Hsz|by apply disj_sym|by apply Hdj].
    + rewrite I4. rewrite total_app in *. cbn [total] in Htot. lia.
  - intros i Hi [Hlow|(x & Hx & Hxi)]; [|by apply (Hal_kept x)]. cbn. apply I8; [lia|].
    intros a s [[= -> ->]|Ha]%elem_of_cons; [done|]. destruct (spaced_in _ _ _ _ HS Ha). lia.
Qed.

(** ** Growing the heap *)

Lemma total_pos fl lo : spaced lo fl -> 0 <= total fl.
Proof. revert lo. induction fl as [|[a s] fl IH]; intros lo; cbn; [lia|]. intros (_ & ? & H). specialize (IH _ H). lia. Qed.

(** The new memory is a block that [free] then puts into the list. *)
Lemma grown base lo fl al h nu : heap_ok base lo fl al h -> 0 < nu -> uh_brk h + HSIZE * nu <= uh_max h ->
  heap_ok base lo fl ((uh_brk h, nu) :: al) (UHeap (set_size (uh_brk h) nu (uh_mem h)) (uh_freep h) (uh_brk h + HSIZE * nu) (uh_max h)) /\
  kept base lo al h (UHeap (set_size (uh_brk h) nu (uh_mem h)) (uh_freep h) (uh_brk h + HSIZE * nu) (uh_max h)) /\ lo <= uh_brk h.
Proof.
  intros [[Hb1 Hb2] Hbrk HL Hfp HS HE Hsz Hal Hdj Htot] Hnu Hmax.
  assert (forall a, a + HSIZE <= uh_brk h -> h_ptr (set_size (uh_brk h) nu (uh_mem h)) a = h_ptr (uh_mem h) a /\
    h_size (set_size (uh_brk h) nu (uh_mem h)) a = h_size (uh_mem h) a) as Hapart.
  { intros a Ha. apply h_set_size_apart. unfold apart. lia. }
  assert (0 <= total al) as Htal.
  { clear - Hsz. induction al as [|[a s] al IH]; cbn; [lia|]. apply Forall_cons in Hsz as [(_ & ? & _) Hsz]. specialize (IH Hsz). cbn in *. lia. }
  assert (lo <= uh_brk h) as Hlo by (pose proof (total_pos _ _ HS); unfold HSIZE in *; lia).
  rewrite Forall_forall in HE, Hsz. split; [|split; [|done]].
  - constructor; cbn [uh_brk uh_max uh_mem uh_freep]; try done.
    + unfold HSIZE in *. lia.
    + apply (links_ext (uh_mem h)); [|done]. intros a s [[= -> ->]|Ha]%elem_of_cons; [apply Hapart; unfold HSIZE in *; lia|].
      apply Hapart. destruct (spaced_in _ _ _ _ HS Ha). specialize (HE _ Ha). cbn in HE. unfold HSIZE in *. lia.
    + rewrite Forall_forall. intros x Hx. specialize (HE x Hx). unfold HSIZE in *. lia.
    + constructor.
      * cbn [fst snd]. split_and!; [done|done|lia|]. apply h_size_set. unfold HSIZE in *. lia.
      * rewrite Forall_forall. intros x Hx. destruct (Hsz x Hx) as (Y1 & Y2 & Y3 & Y4). split_and!; [done|done|unfold HSIZE in *; lia|].
        rewrite <- Y4. apply Hapart. unfold HSIZE in *. lia.
    + split; [|done]. rewrite Forall_forall. intros x Hx. destruct (Hsz x Hx) as (Y1 & Y2 & Y3 & Y4). right. cbn. done.
    + constructor; [|done]. rewrite Forall_forall. intros x Hx. right. cbn. by apply HE.
    + cbn [total]. lia.
  - intros i Hi [Hlow|(x & Hx & Hxi)]; cbn; apply set_size_other; [lia|]. destruct (Hsz x Hx) as (Y1 & Y2 & Y3 & Y4). lia.
Qed.

Lemma morecore_ok base lo fl al h nu fuel : heap_ok base lo fl al h -> 0 < nu -> HSIZE * nu < 2 ^ 31 -> (length fl < fuel)%nat ->
  let grow := HSIZE * Z.max nu 4096 in
  if uh_max h <? uh_brk h + grow then morecore fuel nu h = Some (0, h)
  else exists h' fl', morecore fuel nu h = Some (uh_freep h', h') /\ heap_ok base lo fl' al h' /\ kept base lo al h h' /\
    uh_brk h' = uh_brk h + grow /\ uh_max h' = uh_max h /\ (length fl' <= S (length fl))%nat /\ exists x, x ∈ fl' /\ nu <= snd x.
Proof.
  intros Hok Hnu Hw Hf. cbv zeta. unfold morecore. assert ((if nu <? 4096 then 4096 else nu) = Z.max nu 4096) as -> by (destruct (Z.ltb_spec nu 4096); lia).
  rewrite (Z.mul_comm _ HSIZE), i32_small by (unfold HSIZE in *; lia). unfold sbrk.
  rewrite (proj2 (Z.ltb_lt 0 (HSIZE * Z.max nu 4096))) by (unfold HSIZE; lia). cbn [andb].
  destruct (Z.ltb_spec (uh_max h) (uh_brk h + HSIZE * Z.max nu 4096)) as [Hfull|Hroom]; [done|].
  destruct (grown base lo fl al h (Z.max nu 4096) Hok) as (G1 & G2 & G3); [lia|lia|].
  unfold set_uh_mem. cbn [uh_brk uh_mem uh_freep uh_max].
  destruct (free_heap base lo fl [] _ _ al _ fuel G1 Hf) as (h' & fl' & F1 & F2 & F3 & F4 & F5 & F6 & x & Hx & Hxn).
  rewrite F1. cbn [mbind option_bind]. exists h', fl'. split_and!; try done.
  - exact (kept_trans _ _ _ _ _ _ G2 F3).
  - exists x. split; [done|lia].
Qed.

(** ** Taking a block *)

Lemma spaced_disj l1 a s l2 lo : spaced lo (l1 ++ (a, s) :: l2) -> Forall (disj (a, s)) (l1 ++ l2).
Proof.
  intros [H1 (H2 & H3 & H4)]%spaced_app. rewrite Forall_forall. intros [b t] [Hb|Hb]%elem_of_app.
  - right. cbn. pose proof (spaced_end _ _ _ _ H1 Hb). unfold HSIZE in *. lia.
  - left. cbn. destruct (spaced_in _ _ _ _ H4 Hb). unfold HSIZE in *. lia.
Qed.

(** The place of a free block in the list, with the one before it. *)
Lemma taken_place base lo fl al h b t nunits : heap_ok base lo fl al h -> (b, t) ∈ (base, 0) :: fl -> 0 < nunits ->
  nunits <= h_size (uh_mem h) (h_ptr (uh_mem h) b) ->
  exists u a s v l1, (base, 0) :: fl = u ++ (b, t) :: (a, s) :: v /\ u ++ [(b, t)] = (base, 0) :: l1 /\ fl = l1 ++ (a, s) :: v /\
    h_ptr (uh_mem h) b = a /\ h_size (uh_mem h) a = s /\ h_ptr (uh_mem h) a = hd_addr v base /\ links (uh_mem h) v base.
Proof.
  intros [[Hb1 Hb2] Hbrk HL Hfp HS HE Hsz Hal Hdj Htot] Hin Hn Hle. apply list_elem_of_split in Hin as (u & y & E).
  pose proof HL as HL'. rewrite E in HL'. apply links_app in HL' as [_ (H1 & H2 & H3)]. destruct y as [|[a s] v]; cbn [hd_addr] in H1.
  - rewrite H1 in Hle. destruct HL as (_ & HL0 & _). lia.
  - destruct H3 as (H3 & H4 & H5). exists u, a, s, v. assert (exists l1, u ++ [(b, t)] = (base, 0) :: l1) as [l1 El].
    { destruct u as [|x u]; cbn in *; [injection E as <- <- E; by exists []|injection E as <- E; by eexists]. }
    exists l1. split_and!; try done. rewrite (cons_middle (b, t)), app_assoc, El in E. cbn in E. by injection E as E.
Qed.

(** The heap after a part of the free block [(a, s)] was taken. *)
Lemma heap_take base lo l1 a s v al h w r n m' fp : heap_ok base lo (l1 ++ (a, s) :: v) al h ->
  links m' ((base, 0) :: l1 ++ w) base -> spaced (lo - 1) (l1 ++ w) -> Forall (fun x => fst x + HSIZE * snd x <= uh_brk h) (l1 ++ w) ->
  (exists s, (fp, s) ∈ (base, 0) :: l1 ++ w) -> (forall x, disj x (a, s) -> Forall (disj x) v -> Forall (disj x) w) ->
  Forall (disj (r, n)) (l1 ++ w) -> a <= r -> r + HSIZE * n <= a + HSIZE * s -> 0 < n -> h_size m' r = n -> n + total w = s + total v ->
  (forall i, ~ base <= i < base + HSIZE -> (forall x, x ∈ l1 ++ (a, s) :: v -> ~ fst x <= i < fst x + HSIZE * snd x) -> m' i = uh_mem h i) ->
  let h' := set_uh_freep fp (set_uh_mem m' h) in heap_ok base lo (l1 ++ w) ((r, n) :: al) h' /\ kept base lo al h h'.
Proof.
  intros [[Hb1 Hb2] Hbrk HL Hfp HS HE Hsz Hal Hdj Htot] Q1 Q2 Q3 Q4 Q5 Q6 Q7 Q8 Q9 Q10 Q11 Q12. cbv zeta.
  destruct (spaced_in _ _ a s HS) as [As1 As2]; [apply elem_of_app; right; by left|].
  assert (a + HSIZE * s <= uh_brk h) as As3 by by apply Forall_app in HE as [_ [? _]%Forall_cons].
  rewrite Forall_forall in Hsz, Hdj. assert (kept base lo al h (set_uh_freep fp (set_uh_mem m' h))) as HK.
  { intros i Hi Hb. cbn. apply Q12; [done|]. intros [a' s'] Ha' Hin. cbn in Hin. destruct (spaced_in _ _ _ _ HS Ha') as [? ?].
    destruct Hb as [Hb|(x & Hx & Hxi)]; [lia|]. specialize (Hdj x Hx). rewrite Forall_forall in Hdj. specialize (Hdj _ Ha').
    unfold disj in Hdj. cbn in Hdj. lia. }
  split; [|done]. constructor; cbn [set_uh_freep set_uh_mem uh_brk uh_max uh_mem uh_freep]; try done.
  - constructor; [cbn [fst snd]; split_and!; [lia|done|lia|done]|]. rewrite Forall_forall. intros x Hx. destruct (Hsz x Hx) as (Y1 & Y2 & Y3 & Y4).
    split_and!; try done. rewrite <- Y4. apply h_ext. intros i Hi. apply HK; [lia|]. right. exists x. split; [done|]. unfold HSIZE in *. lia.
  - split; [|done]. rewrite Forall_forall. intros x Hx. specialize (Hdj x Hx). apply Forall_app in Hdj as [_ [Hd _]%Forall_cons].
    unfold disj in *. cbn [fst snd] in *. lia.
  - constructor; [done|]. rewrite Forall_forall. intros x Hx. specialize (Hdj x Hx). apply Forall_app in Hdj as [D1 [D2 D3]%Forall_cons].
    apply Forall_app. split; [done|by apply Q5].
  - rewrite total_app in *. cbn [total] in *. lia.
Qed.

(** The whole block. *)
Lemma take_whole base lo fl al h b t a s : heap_ok base lo fl al h -> (b, t) ∈ (base, 0) :: fl -> 0 < s ->
  h_ptr (uh_mem h) b = a -> h_size (uh_mem h) a = s ->
  let h' := set_uh_freep b (set_uh_mem (set_ptr b (h_ptr (uh_mem h) a) (uh_mem h)) h) in
  exists fl', heap_ok base lo fl' ((a, s) :: al) h' /\ kept base lo al h h' /\ (length fl' <= length fl)%nat.
Proof.
  intros Hok Hin Hpos Hba Has. destruct (taken_place _ _ _ _ _ _ _ _ Hok Hin Hpos) as (u & a' & s' & v & l1 & E & El & Efl & Ha & Hs & Hpa & Hv);
    [rewrite Hba; lia|]. assert (a' = a) as -> by congruence. assert (s' = s) as -> by congruence. cbv zeta. rewrite Hpa. clear Hba Has.
  pose proof Hok as [[Hb1 Hb2] Hbrk HL Hfp HS HE Hsz Hal Hdj Htot]. pose proof (addr_pos _ _ _ Hb2 HS _ _ Hin) as Hb0.
  assert (forall i, ~ b <= i < b + 8 -> set_ptr b (hd_addr v base) (uh_mem h) i = uh_mem h i) as Hfr by (intros i Hi; by apply set_ptr_other).
  set (m' := set_ptr b (hd_addr v base) (uh_mem h)) in *.
  destruct (spaced_tail base lo fl Hb2 HS (uh_brk h) HE u b t _ E) as ((T1 & T2 & T3) & [T4 T5]%Forall_cons & T6). cbn [fst snd] in T4.
  assert (b + HSIZE <= a) as Hbap.
  { apply (before_apart base lo fl Hb2 HS (u ++ [(b, t)]) a s v b t); [by rewrite <- app_assoc|apply elem_of_app; right; by left]. }
  assert (0 <= hd_addr v base < 2 ^ 64) as Hhv.
  { destruct v as [|[c w] v]; cbn; [unfold HSIZE in *; lia|]. apply Forall_cons in T5 as [? _]. destruct T3 as (? & ? & _). cbn in *. unfold HSIZE in *. lia. }
  assert (spaced (b + HSIZE * t) v) as Tv by (apply (spaced_le (a + HSIZE * s)); [unfold HSIZE in *; lia|done]).
  destruct (relink base lo (uh_mem h) fl Hb2 HL HS (uh_brk h) HE u b t _ m' t v E) as (fl' & E' & B1 & B2 & B3).
  - done.
  - intros ->. by injection E.
  - done.
  - constructor; [|done]. cbn. unfold HSIZE in *. lia.
  - intros i Hi. apply Hfr. lia.
  - split_and!; [by apply h_ptr_set| |].
    + transitivity (h_size (uh_mem h) b); [apply h_size_set_ptr|]. rewrite E in HL. by apply links_app in HL as [_ (_ & ? & _)].
    + apply (links_ext (uh_mem h)); [|done]. intros c w Hc. apply h_ext. intros i Hi. apply Hfr. destruct (spaced_in _ _ _ _ T3 Hc). unfold HSIZE in *. lia.
  - intros c w Ev. rewrite Ev in T3. destruct T3 as (? & _). assert ((a, s) ∈ fl) as Hin' by (rewrite Efl; apply elem_of_app; right; by left).
    destruct (spaced_in _ _ _ _ HS Hin'). unfold HSIZE in *. lia.
  - rewrite (cons_middle (b, t)), app_assoc, El in E'. cbn in E'. injection E' as ->. exists (l1 ++ v). rewrite Efl in *.
    destruct (heap_take base lo l1 a s v al h v a s m' b Hok) as [G1 G2]; try done.
    + exists t. apply (elem_of_app ((base, 0) :: l1) v). left. rewrite <- El. apply elem_of_app. right. by left.
    + exact (spaced_disj _ _ _ _ _ HS).
    + rewrite <- Hs. apply h_ext. intros i Hi. apply Hfr. unfold HSIZE in *. lia.
    + intros i Hi Hnot. apply Hfr. apply elem_of_cons in Hin as [[= -> ->]|Hin]; [unfold HSIZE in *; lia|].
      specialize (Hnot _ Hin). destruct (spaced_in _ _ _ _ HS Hin). unfold HSIZE in *. cbn in *. lia.
    + split_and!; [done|done|]. rewrite !length_app. cbn. lia.
Qed.

(** The tail of a larger block. *)
Lemma take_tail base lo fl al h b t a s n : heap_ok base lo fl al h -> (b, t) ∈ (base, 0) :: fl -> 0 < n -> n < s ->
  h_ptr (uh_mem h) b = a -> h_size (uh_mem h) a = s ->
  let r := a + HSIZE * (s - n) in
  let h' := set_uh_freep b (set_uh_mem (set_size r n (set_size a (s - n) (uh_mem h))) h) in
  exists fl', heap_ok base lo fl' ((r, n) :: al) h' /\ kept base lo al h h' /\ (length fl' <= length fl)%nat.
Proof.
  intros Hok Hin Hpos Hns Hba Has. destruct (taken_place _ _ _ _ _ _ _ _ Hok Hin Hpos) as (u & a' & s' & v & l1 & E & El & Efl & Ha & Hs & Hpa & Hv);
    [rewrite Hba; lia|]. assert (a' = a) as -> by congruence. assert (s' = s) as -> by congruence. cbv zeta. clear Hba Has.
  pose proof Hok as [[Hb1 Hb2] Hbrk HL Hfp HS HE Hsz Hal Hdj Htot]. pose proof (addr_pos _ _ _ Hb2 HS _ _ Hin) as Hb0.
  set (r := a + HSIZE * (s - n)) in *. set (m' := set_size r n (set_size a (s - n) (uh_mem h))).
  assert (forall i, ~ a <= i < a + HSIZE -> ~ r <= i < r + HSIZE -> m' i = uh_mem h i) as Hfr.
  { intros i Hi Hi'. unfold m'. rewrite !set_size_other by (unfold HSIZE in *; lia). done. }
  assert ((base, 0) :: fl = (u ++ [(b, t)]) ++ (a, s) :: v) as E2 by by rewrite <- app_assoc.
  destruct (spaced_tail base lo fl Hb2 HS (uh_brk h) HE u b t _ E) as ((T1 & T2 & T3) & [T4 T5]%Forall_cons & T6). cbn [fst snd] in T4.
  assert (b + HSIZE <= a) as Hbap by (apply (before_apart base lo fl Hb2 HS (u ++ [(b, t)]) a s v b t E2); apply elem_of_app; right; by left).
  assert (apart r a) as Hap by (unfold apart, r, HSIZE in *; lia).
  assert (h_ptr m' a = hd_addr v base) as Hma by (unfold m'; rewrite (proj1 (h_set_size_apart _ _ _ _ Hap)), h_ptr_set_size; done).
  assert (h_size m' a = s - n) as Hms by (unfold m'; rewrite (proj2 (h_set_size_apart _ _ _ _ Hap)); apply h_size_set; unfold HSIZE in *; lia).
  destruct (relink base lo (uh_mem h) fl Hb2 HL HS (uh_brk h) HE _ a s _ m' (s - n) v E2) as (fl' & E' & B1 & B2 & B3).
  - lia.
  - intros Hnil. by destruct u.
  - apply (spaced_le (a + HSIZE * s)); [unfold HSIZE in *; lia|done].
  - constructor; [|done]. cbn. unfold HSIZE in *. lia.
  - intros i Hi. apply Hfr; unfold r, HSIZE in *; lia.
  - split_and!; [done|done|]. apply (links_ext (uh_mem h)); [|done]. intros c w Hc. apply h_ext. intros i Hi.
    destruct (spaced_in _ _ _ _ T3 Hc). apply Hfr; unfold r, HSIZE in *; lia.
  - intros c w Ev. rewrite Ev in T3. destruct T3 as (? & _). assert ((a, s) ∈ fl) as Hin' by (rewrite Efl; apply elem_of_app; right; by left).
    destruct (spaced_in _ _ _ _ HS Hin'). unfold HSIZE in *. lia.
  - rewrite El in E'. cbn in E'. injection E' as ->. exists (l1 ++ (a, s - n) :: v). rewrite Efl in *.
    pose proof (spaced_disj _ _ _ _ _ HS) as Hsd. apply Forall_app in Hsd as [Hsd1 Hsd2].
    assert (forall x, disj (a, s) x -> disj (r, n) x) as Hsub by (intros x; unfold disj, r, HSIZE; cbn; lia).
    destruct (heap_take base lo l1 a s v al h ((a, s - n) :: v) r n m' b Hok) as [G1 G2]; try done.
    + exists t. apply (elem_of_app ((base, 0) :: l1)). left. rewrite <- El. apply elem_of_app. right. by left.
    + intros x Hx Hxv. constructor; [|done]. unfold disj, HSIZE in *. cbn in *. lia.
    + apply Forall_app. split; [|constructor]; [|unfold disj, r; cbn; lia|]; rewrite Forall_forall in *; auto.
    + unfold r, HSIZE. lia.
    + unfold r, HSIZE. lia.
    + apply h_size_set. unfold HSIZE in *. lia.
    + cbn [total]. lia.
    + intros i Hi Hnot. assert ((a, s) ∈ l1 ++ (a, s) :: v) as Hin' by (apply elem_of_app; right; by left). specialize (Hnot _ Hin'). cbn in Hnot.
      apply Hfr; unfold r, HSIZE in *; lia.
    + split_and!; [done|done|]. rewrite !length_app. cbn. lia.
Qed.

Lemma take_ok base lo fl al h b t nunits : heap_ok base lo fl al h -> (b, t) ∈ (base, 0) :: fl -> 0 < nunits ->
  nunits <= h_size (uh_mem h) (h_ptr (uh_mem h) b) ->
  exists r h' fl', malloc_take nunits b (h_ptr (uh_mem h) b) h = (r + HSIZE, h') /\ heap_ok base lo fl' ((r, nunits) :: al) h' /\
    kept base lo al h h' /\ uh_brk h' = uh_brk h /\ uh_max h' = uh_max h /\ (length fl' <= length fl)%nat.
Proof.
  intros Hok Hin Hn Hle. set (a := h_ptr (uh_mem h) b) in *. set (s := h_size (uh_mem h) a) in *. unfold malloc_take. fold s.
  destruct (Z.eqb_spec s nunits) as [Heq|Hne].
  - destruct (take_whole base lo fl al h b t a s Hok Hin ltac:(lia) eq_refl eq_refl) as (fl' & A1 & A2 & A3).
    eexists _, _, fl'. rewrite <- Heq. split; [reflexivity|]. by split_and!.
  - destruct (take_tail base lo fl al h b t a s nunits Hok Hin Hn ltac:(lia) eq_refl eq_refl) as (fl' & A1 & A2 & A3).
    destruct (taken_place _ _ _ _ _ _ _ _ Hok Hin Hn Hle) as (u & a' & s' & v & l1 & E & El & Efl & Ha & Hs & _).
    fold a in Ha. subst a'. assert (s' = s) as -> by done. clear Hs. pose proof Hok as [[Hb1 Hb2] Hbrk HL Hfp HS HE Hsz Hal Hdj Htot].
    assert ((a, s) ∈ fl) as Hina by (rewrite Efl; apply elem_of_app; right; by left). destruct (spaced_in _ _ _ _ HS Hina) as [I1 I2].
    rewrite Forall_forall in HE. specialize (HE _ Hina). cbn [fst snd] in HE. rewrite u32_small by (unfold HSIZE in *; lia).
    rewrite h_size_set by (unfold HSIZE in *; lia). rewrite hadd_small by (unfold HSIZE in *; lia).
    eexists _, _, fl'. split; [reflexivity|]. by split_and!.
Qed.

(** ** The search of [malloc] *)

Lemma malloc_walk nunits h q : forall l prevp ps fuel, links (uh_mem h) ((prevp, ps) :: l) q -> q = uh_freep h ->
  (forall a s, (a, s) ∈ l -> a <> q) -> (length l < fuel)%nat ->
  (exists b t, (b, t) ∈ (prevp, ps) :: l /\ nunits <= h_size (uh_mem h) (h_ptr (uh_mem h) b) /\
     malloc_loop fuel nunits prevp (hd_addr l q) h = Some (malloc_take nunits b (h_ptr (uh_mem h) b) h)) \/
  (Forall (fun x => snd x < nunits) l /\ h_size (uh_mem h) q < nunits /\
   malloc_loop fuel nunits prevp (hd_addr l q) h =
     (let f := (fuel - S (length l))%nat in r ← morecore (S f) nunits h; if fst r =? 0 then Some (0, snd r)
       else malloc_loop f nunits (fst r) (h_ptr (uh_mem (snd r)) (fst r)) (snd r))).
Proof.
  induction l as [|[a s] l IH]; intros prevp ps fuel HL Hq Hne Hf; (destruct fuel as [|fuel]; [cbn in Hf; lia|]); cbn [malloc_loop hd_addr].
  - destruct HL as (H1 & H2 & _). cbn [hd_addr] in H1. destruct (Z.leb_spec nunits (h_size (uh_mem h) q)) as [Hle|Hlt].
    + left. exists prevp, ps. rewrite H1. split_and!; [by left|done|done].
    + right. rewrite <- Hq, Z.eqb_refl. split_and!; [constructor|done|]. cbv zeta. cbn [length]. by replace (S fuel - 1)%nat with fuel by lia.
  - destruct HL as (H1 & H2 & H3). pose proof H3 as (H4 & H5 & _). destruct (Z.leb_spec nunits (h_size (uh_mem h) a)) as [Hle|Hlt].
    + left. exists prevp, ps. rewrite H1. split_and!; [by left|done|done].
    + rewrite <- Hq, (proj2 (Z.eqb_neq a q)), H4 by (apply (Hne a s); by left).
      destruct (IH a s fuel H3 Hq) as [(b & t & I1 & I2 & I3)|(I1 & I2 & I3)].
      * intros c w Hc. apply (Hne c w). by right.
      * cbn in Hf. lia.
      * left. exists b, t. split_and!; [by right|done|done].
      * right. split_and!; [constructor; [cbn; lia|done]|done|]. exact I3.
Qed.

(** The search begins at any block of the list. *)
Lemma malloc_search base lo fl al h nunits fuel : heap_ok base lo fl al h -> 0 < nunits -> (length fl < fuel)%nat ->
  let loop := malloc_loop fuel nunits (uh_freep h) (h_ptr (uh_mem h) (uh_freep h)) h in
  (exists b t, (b, t) ∈ (base, 0) :: fl /\ nunits <= h_size (uh_mem h) (h_ptr (uh_mem h) b) /\
     loop = Some (malloc_take nunits b (h_ptr (uh_mem h) b) h)) \/
  (Forall (fun x => snd x < nunits) fl /\
   loop = (let f := (fuel - S (length fl))%nat in r ← morecore (S f) nunits h; if fst r =? 0 then Some (0, snd r)
       else malloc_loop f nunits (fst r) (h_ptr (uh_mem (snd r)) (fst r)) (snd r))).
Proof.
  intros [[Hb1 Hb2] Hbrk HL (s & Hfp) HS HE Hsz Hal Hdj Htot] Hn Hf. cbv zeta. apply list_elem_of_split in Hfp as (x & y & Exy).
  assert (links (uh_mem h) ((uh_freep h, s) :: y ++ x) (uh_freep h)) as Hrot by (apply (links_rotate _ x _ s y base); by rewrite <- Exy).
  assert (forall z, z ∈ (base, 0) :: fl <-> z ∈ (uh_freep h, s) :: y ++ x) as Hperm.
  { intros z. rewrite Exy, elem_of_app, !elem_of_cons, elem_of_app. tauto. }
  assert (length fl = length (y ++ x)) as Hlen by (apply (f_equal length) in Exy; rewrite length_app in *; cbn in *; lia).
  rewrite (proj1 Hrot), Hlen. destruct (malloc_walk nunits h (uh_freep h) (y ++ x) (uh_freep h) s fuel Hrot eq_refl) as [(b & t & I1 & I2 & I3)|(I1 & I2 & I3)].
  - intros a w Ha ->. apply elem_of_app in Ha as [Ha|Ha].
    + pose proof (addr_inc base lo fl Hb2 HS x _ s y _ w Exy Ha). lia.
    + apply list_elem_of_split in Ha as (x1 & x2 & ->). rewrite <- app_assoc in Exy. cbn in Exy.
      destruct (addr_inc base lo fl Hb2 HS x1 _ w _ (uh_freep h) s Exy); [apply elem_of_app; right; by left|lia].
  - lia.
  - left. exists b, t. split_and!; [by apply Hperm|done|done].
  - right. split; [|done]. rewrite Forall_forall in I1 |- *. intros z Hz. assert (z ∈ (base, 0) :: fl) as Hz' by by right.
    apply Hperm in Hz' as [-> |Hz']%elem_of_cons; [|by apply I1]. destruct Hrot as (_ & <- & _). done.
Qed.

(** ** malloc and free *)

(** Before the first call, [freep] is 0 and the heap is empty. *)
Definition heap_inv (base lo : Z) (fl al : list blk) (h : uheap) : Prop :=
  (uh_freep h = 0 /\ fl = [] /\ al = [] /\ 0 < base /\ base + HSIZE <= lo /\ uh_brk h = lo /\ lo <= uh_max h <= 2 ^ 36) \/
  (uh_freep h <> 0 /\ heap_ok base lo fl al h).

Lemma heap_ok_freep base lo fl al h : heap_ok base lo fl al h -> 0 < uh_freep h.
Proof. intros [[Hb1 Hb2] _ _ (s & Hfp) HS _ _ _ _ _]. pose proof (addr_pos _ _ _ Hb2 HS _ _ Hfp). lia. Qed.
Lemma heap_ok_inv base lo fl al h : heap_ok base lo fl al h -> heap_inv base lo fl al h.
Proof. intros Hok. right. pose proof (heap_ok_freep _ _ _ _ _ Hok). split; [lia|done]. Qed.

(** The list of one block that [malloc] makes on its first call. *)
Definition malloc_init (base : Z) (h : uheap) : uheap :=
  if uh_freep h =? 0 then set_uh_freep base (set_uh_mem (set_size base 0 (set_ptr base base (uh_mem h))) h) else h.
Lemma malloc_init_ok base lo fl al h : heap_inv base lo fl al h ->
  heap_ok base lo fl al (malloc_init base h) /\ kept base lo al h (malloc_init base h) /\
  uh_brk (malloc_init base h) = uh_brk h /\ uh_max (malloc_init base h) = uh_max h.
Proof.
  unfold malloc_init. intros [(H1 & -> & -> & H2 & H3 & H4 & H5)|[H1 Hok]].
  - rewrite H1. cbn [Z.eqb]. split_and!; [|intros i Hi _; cbn [set_uh_freep set_uh_mem uh_mem]; rewrite set_size_other, set_ptr_other by (unfold HSIZE in *; lia); done|done|done].
    constructor; cbn [set_uh_freep set_uh_mem uh_mem uh_freep uh_brk uh_max]; try done; [lia| | |cbn; lia].
    + split_and!; [|apply h_size_set; lia|done]. rewrite h_ptr_set_size. apply h_ptr_set. cbn. unfold HSIZE in *. lia.
    + exists 0. by left.
  - rewrite (proj2 (Z.eqb_neq _ _) H1). by split_and!.
Qed.

Lemma units_ok nbytes : 0 <= nbytes -> nbytes + 31 < 2 ^ 31 -> 0 < units nbytes /\ nbytes <= HSIZE * (units nbytes - 1) /\ HSIZE * units nbytes < 2 ^ 31.
Proof. intros H1 H2. unfold units, HSIZE. pose proof (Z_div_mod_eq_full (nbytes + 16 - 1) 16). pose proof (Z.mod_pos_bound (nbytes + 16 - 1) 16). rewrite u32_small; lia. Qed.

(** C36: [malloc] returns 0 only when no free block is large enough and the heap cannot grow; otherwise the block it returns is as large as asked for and apart from every other block, it becomes allocated in the invariant of the list of free blocks, and in both cases every byte of the allocated blocks and outside of the heap is kept. *)
Theorem malloc_correct base lo fl al h nbytes fuel : heap_inv base lo fl al h -> 0 <= nbytes -> nbytes + 31 < 2 ^ 31 ->
  (2 * length fl + 3 <= fuel)%nat ->
  exists r h' fl', malloc base fuel nbytes h = Some (r, h') /\ kept base lo al h h' /\ (length fl' <= S (length fl))%nat /\
    (r = 0 /\ heap_inv base lo fl' al h' /\ uh_brk h' = uh_brk h /\ Forall (fun x => snd x < units nbytes) fl /\
       uh_max h < uh_brk h + HSIZE * Z.max (units nbytes) 4096 \/
     0 < r /\ heap_inv base lo fl' ((r - HSIZE, units nbytes) :: al) h' /\ nbytes <= HSIZE * (units nbytes - 1)).
Proof.
  intros Hinv Hn Hw Hf. destruct (units_ok nbytes Hn Hw) as (U1 & U2 & U3). destruct (malloc_init_ok _ _ _ _ _ Hinv) as (Hok & K0 & B0 & M0).
  unfold malloc. fold (malloc_init base h). set (h0 := malloc_init base h) in *. set (nu := units nbytes) in *.
  assert (forall h1 fl1 b t, heap_ok base lo fl1 al h1 -> (b, t) ∈ (base, 0) :: fl1 -> nu <= h_size (uh_mem h1) (h_ptr (uh_mem h1) b) ->
    kept base lo al h h1 -> (length fl1 <= S (length fl))%nat ->
    exists r h' fl', Some (malloc_take nu b (h_ptr (uh_mem h1) b) h1) = Some (r, h') /\ kept base lo al h h' /\ (length fl' <= S (length fl))%nat /\
      0 < r /\ heap_inv base lo fl' ((r - HSIZE, nu) :: al) h' /\ nbytes <= HSIZE * (nu - 1)) as Htake.
  { intros h1 fl1 b t Hok1 Hb Hle Hk Hl. destruct (take_ok _ _ _ _ _ _ _ _ Hok1 Hb U1 Hle) as (r & h' & fl' & T1 & T2 & T3 & _ & _ & T6).
    exists (r + HSIZE), h', fl'. rewrite T1. replace (r + HSIZE - HSIZE) with r by lia.
    pose proof T2 as [[? ?] _ _ _ _ _ [[? _] _]%Forall_cons _ _ _]. cbn [fst] in *.
    split_and!; [done|by eapply kept_trans|lia|unfold HSIZE in *; lia|by apply heap_ok_inv|done]. }
  destruct (malloc_search base lo fl al h0 nu fuel Hok U1) as [(b & t & S1 & S2 & ->)|(S1 & ->)]; [lia| |].
  - destruct (Htake h0 fl b t Hok S1 S2 K0) as (r & h' & fl' & T1 & T2 & T3 & T4); [lia|]. exists r, h', fl'. split_and!; [done|done|done|by right].
  - set (f := (fuel - S (length fl))%nat). cbv zeta. pose proof (morecore_ok base lo fl al h0 nu (S f) Hok U1 U3 ltac:(lia)) as HM. cbv zeta in HM.
    destruct (Z.ltb_spec (uh_max h0) (uh_brk h0 + HSIZE * Z.max nu 4096)) as [Hfull|Hroom].
    + rewrite HM. cbn [mbind option_bind fst snd Z.eqb]. exists 0, h0, fl. split_and!; [done|done|lia|]. left.
      split_and!; [done|by apply heap_ok_inv|done|done|by rewrite <- B0, <- M0].
    + destruct HM as (h1 & fl1 & -> & Hok1 & K1 & _ & _ & L1 & x & Hx & Hxn). cbn [mbind option_bind fst snd].
      pose proof (heap_ok_freep _ _ _ _ _ Hok1) as Hfp. rewrite (proj2 (Z.eqb_neq (uh_freep h1) 0)) by lia.
      destruct (malloc_search base lo fl1 al h1 nu f Hok1 U1) as [(b & t & S2 & S3 & ->)|(S2 & _)]; [lia| |].
      * destruct (Htake h1 fl1 b t Hok1 S2 S3) as (r & h' & fl' & T1 & T2 & T3 & T4); [by eapply kept_trans|done|].
        exists r, h', fl'. split_and!; [done|done|done|by right].
      * exfalso. rewrite Forall_forall in S2. specialize (S2 _ Hx). cbn in S2. lia.
Qed.

Definition heap0 : uheap := UHeap (fun _ => 0) 0 8192 (2 ^ 20).
Lemma malloc_correct_witness : heap_inv 4096 8192 [] [] heap0 /\
  exists r h' fl', malloc 4096 9 100 heap0 = Some (r, h') /\ kept 4096 8192 [] heap0 h' /\ (length fl' <= 1)%nat /\
    (r = 0 /\ heap_inv 4096 8192 fl' [] h' /\ uh_brk h' = 8192 /\ Forall (fun x : blk => snd x < units 100) [] /\
       2 ^ 20 < 8192 + HSIZE * Z.max (units 100) 4096 \/
     0 < r /\ heap_inv 4096 8192 fl' ((r - HSIZE, units 100) :: []) h' /\ 100 <= HSIZE * (units 100 - 1)).
Proof.
  assert (heap_inv 4096 8192 [] [] heap0) as H by (left; cbn; unfold HSIZE; split_and!; lia || done).
  split; [exact H|]. apply (malloc_correct 4096 8192 [] [] heap0 100 9 H); cbn; lia.
Defined.

(** C37: [free] takes an allocated block out of the allocated blocks and puts it into the list of free blocks, joined with its neighbours, so that the list stays sorted and free of adjacent blocks; no unit of the heap is lost, and every byte of the blocks that stay allocated and outside of the heap is kept. *)
Theorem free_correct base lo fl l1 bp n l2 h fuel : heap_inv base lo fl (l1 ++ (bp, n) :: l2) h -> (length fl < fuel)%nat ->
  exists h' fl', free fuel (bp + HSIZE) h = Some h' /\ heap_inv base lo fl' (l1 ++ l2) h' /\ kept base lo (l1 ++ l2) h h' /\
    uh_brk h' = uh_brk h /\ total fl' = total fl + n /\ (length fl' <= S (length fl))%nat.
Proof.
  intros [(_ & _ & Hal & _)|[_ Hok]] Hf; [by destruct l1|].
  destruct (free_heap _ _ _ _ _ _ _ _ _ Hok Hf) as (h' & fl' & F1 & F2 & F3 & F4 & F5 & F6 & _).
  exists h', fl'. split_and!; try done; [by apply heap_ok_inv|]. pose proof (hk_all _ _ _ _ _ Hok) as T1. pose proof (hk_all _ _ _ _ _ F2) as T2.
  rewrite F4 in T2. rewrite total_app in *. cbn [total] in T1. unfold HSIZE in *. lia.
Qed.

(** One block of 4096 units, the whole heap. *)
Definition heap1 : uheap :=
  UHeap (set_size 8192 4096 (set_size 4096 0 (set_ptr 4096 4096 (fun _ => 0)))) 4096 (8192 + HSIZE * 4096) (2 ^ 20).
Lemma free_correct_witness : heap_inv 4096 8192 [] ([] ++ (8192, 4096) :: []) heap1 /\
  exists h' fl', free 1 (8192 + HSIZE) heap1 = Some h' /\ heap_inv 4096 8192 fl' ([] ++ []) h' /\ kept 4096 8192 ([] ++ []) heap1 h' /\
    uh_brk h' = 8192 + HSIZE * 4096 /\ total fl' = 0 + 4096 /\ (length fl' <= 1)%nat.
Proof.
  assert (heap_inv 4096 8192 [] ([] ++ (8192, 4096) :: []) heap1) as H.
  { apply heap_ok_inv. constructor; cbn [heap1 uh_brk uh_max uh_freep].
    - unfold HSIZE. lia.
    - unfold HSIZE. lia.
    - split_and!; [vm_compute; reflexivity|vm_compute; reflexivity|done].
    - exists 0. by left.
    - done.
    - done.
    - constructor; [|done]. cbn [fst snd]. split_and!; [lia|lia|lia|vm_compute; reflexivity].
    - by split.
    - by constructor.
    - done. }
  split; [exact H|]. apply (free_correct 4096 8192 [] [] 8192 4096 [] heap1 1 H). cbn. lia.
Defined.

(** The argument of [sbrk] is an int: a request near 2^32 asks for no memory
    at all and gets a block beyond the end of the process. *)
Lemma malloc_wraps : match malloc 4096 9 (2 ^ 32 - 16) heap0 with Some (r, h') => r = 8192 + HSIZE /\ uh_brk h' = 8192 | None => False end.
Proof. vm_compute. split; reflexivity. Qed.
