(* ===== verification/Sh.v ===== *)
(** * Sh: the parser of the shell

    user/sh.c: gettoken, peek and the functions that parse a command line.
    A pointer into the line is its offset, so a word is the pair of the
    offsets of its first byte and of the byte after it; a panic ends the
    process that parses.  Memory for the nodes of commands is assumed to be
    there.

    The functions of the grammar call each other and take fuel, four for
    each token of the line and a little more.  Loops have the length of the
    line. *)

From S2P Require Import Prelude.
From S2P Require Import Kernel.

(** ** Commands *)

(** The nodes of a command with words of type [W]; argv of an EXEC node is
    the list of the arguments before the terminating 0. *)
Inductive cmd (W : Type) :=
| Exec (argv : list W)
| Redir (c : cmd W) (file : W) (mode fd : Z)
| Pipe (left right : cmd W)
| List_ (left right : cmd W)
| Back (c : cmd W).
Arguments Exec {W} argv.
Arguments Redir {W} c file mode fd.
Arguments Pipe {W} left right.
Arguments List_ {W} left right.
Arguments Back {W} c.

Fixpoint cmd_map {V W} (f : V -> W) (c : cmd V) : cmd W :=
  match c with
  | Exec argv => Exec (f <$> argv)
  | Redir c w mode fd => Redir (cmd_map f c) (f w) mode fd
  | Pipe l r => Pipe (cmd_map f l) (cmd_map f r)
  | List_ l r => List_ (cmd_map f l) (cmd_map f r)
  | Back c => Back (cmd_map f c)
  end.

(** [cmd->argv[argc] = q] on the EXEC node that [ret] points to or that is
    under the redirections of [ret]. *)
Fixpoint add_arg {W} (w : W) (ret : cmd W) : cmd W :=
  match ret with
  | Exec argv => Exec (argv ++ [w])
  | Redir c f mode fd => Redir (add_arg w c) f mode fd
  | _ => ret
  end.

Inductive pres (A : Type) := POk (a : A) | PPanic (msg : string) | PFuel.
Arguments POk {A} a.
Arguments PPanic {A} msg.
Arguments PFuel {A}.
#[export] Instance pres_ret : MRet pres := fun A a => POk a.
#[export] Instance pres_bind : MBind pres := fun A B f m =>
  match m with POk a => f a | PPanic s => PPanic s | PFuel => PFuel end.

Definition O_RDONLY : Z := 0.
Definition O_WRONLY : Z := 1.
Definition O_CREATE : Z := 512.
Definition O_TRUNC : Z := 1024.
Definition MAXARGS : nat := 10.

(** ** Tokens *)

Definition whitespace : list Z := [32; 9; 13; 10; 11].
Definition symbols : list Z := bytes_of_string "<|>&;()".
(** [strchr(l, c)] of a byte that is not 0. *)
Definition among (l : list Z) (c : Z) : bool := existsb (Z.eqb c) l.
(** [*s]; the NUL is at the end of the line. *)
Definition at_ (buf : list Z) (s : nat) : Z := default 0 (buf !! s).

(** [while(s < es && p( *s)) s++]. *)
Fixpoint skip_to (p : Z -> bool) (buf : list Z) (k s : nat) : nat :=
  match k with
  | O => s
  | S k' => if p (at_ buf s) then skip_to p buf k' (S s) else s
  end.
Definition skip (p : Z -> bool) (buf : list Z) (s : nat) : nat := skip_to p buf (length buf - s) s.
Definition word_char (c : Z) : bool := negb (among whitespace c) && negb (among symbols c).

(** The token, its bounds and the new [*ps]. *)
Definition gettoken (buf : list Z) (s : nat) : Z * (nat * nat) * nat :=
  let s := skip (among whitespace) buf s in
  let q := s in
  let c := at_ buf s in
  let '(ret, s) :=
    if c =? 0 then (c, s)
    else if among (bytes_of_string "|();&<") c then (c, S s)
    else if c =? 62 then if at_ buf (S s) =? 62 then (43, S (S s)) else (c, S s)
    else (97, skip word_char buf s) in
  (ret, (q, s), skip (among whitespace) buf s).
Definition peek (buf : list Z) (s : nat) (toks : list Z) : bool * nat :=
  let s := skip (among whitespace) buf s in
  (negb (at_ buf s =? 0) && among toks (at_ buf s), s).

(** ** The constructors and the grammar *)

Abbreviation pcmd := (cmd (nat * nat)%type).

Definition execcmd : pcmd := Exec [].
Definition redircmd (subcmd : pcmd) (file : nat * nat) (mode fd : Z) : pcmd := Redir subcmd file mode fd.
Definition pipecmd (left right : pcmd) : pcmd := Pipe left right.
Definition listcmd (left right : pcmd) : pcmd := List_ left right.
Definition backcmd (subcmd : pcmd) : pcmd := Back subcmd.

Fixpoint parseredirs (fuel : nat) (buf : list Z) (c : pcmd) (s : nat) : pres (pcmd * nat) :=
  match fuel with
  | O => PFuel
  | S f =>
    let '(b, s) := peek buf s [60; 62] in
    if b then
      let '(tok, _, s) := gettoken buf s in
      let '(tok2, q, s) := gettoken buf s in
      if negb (tok2 =? 97) then PPanic "missing file for redirection" else
      let c := if tok =? 60 then redircmd c q O_RDONLY 0
               else if tok =? 62 then redircmd c q (Z.lor O_WRONLY (Z.lor O_CREATE O_TRUNC)) 1
               else if tok =? 43 then redircmd c q (Z.lor O_WRONLY O_CREATE) 1
               else c in
      parseredirs f buf c s
    else POk (c, s)
  end.
(** The loop of [parseexec]. *)
Fixpoint parseargs (fuel : nat) (buf : list Z) (argc : nat) (ret : pcmd) (s : nat) : pres (pcmd * nat) :=
  match fuel with
  | O => PFuel
  | S f =>
    let '(b, s) := peek buf s [124; 41; 38; 59] in
    if b then POk (ret, s) else
    let '(tok, q, s) := gettoken buf s in
    if tok =? 0 then POk (ret, s) else
    if negb (tok =? 97) then PPanic "syntax" else
    let ret := add_arg q ret in
    if (MAXARGS <=? S argc)%nat then PPanic "too many args" else
    r ← parseredirs (S (length buf)) buf ret s;
    parseargs f buf (S argc) (fst r) (snd r)
  end.
(** The loop for [&] of [parseline]. *)
Fixpoint parseback (fuel : nat) (buf : list Z) (c : pcmd) (s : nat) : pres (pcmd * nat) :=
  match fuel with
  | O => PFuel
  | S f =>
    let '(b, s) := peek buf s [38] in
    if b then let '(_, _, s) := gettoken buf s in parseback f buf (backcmd c) s else POk (c, s)
  end.

Fixpoint parseline (fuel : nat) (buf : list Z) (s : nat) : pres (pcmd * nat) :=
  match fuel with
  | O => PFuel
  | S f =>
    r ← parsepipe f buf s;
    r ← parseback (S (length buf)) buf (fst r) (snd r);
    let '(b, s) := peek buf (snd r) [59] in
    if b then
      let '(_, _, s) := gettoken buf s in
      r2 ← parseline f buf s;
      POk (listcmd (fst r) (fst r2), snd r2)
    else POk (fst r, s)
  end
with parsepipe (fuel : nat) (buf : list Z) (s : nat) : pres (pcmd * nat) :=
  match fuel with
  | O => PFuel
  | S f =>
    r ← parseexec f buf s;
    let '(b, s) := peek buf (snd r) [124] in
    if b then
      let '(_, _, s) := gettoken buf s in
      r2 ← parsepipe f buf s;
      POk (pipecmd (fst r) (fst r2), snd r2)
    else POk (fst r, s)
  end
with parseexec (fuel : nat) (buf : list Z) (s : nat) : pres (pcmd * nat) :=
  match fuel with
  | O => PFuel
  | S f =>
    let '(b, s) := peek buf s [40] in
    if b then parseblock f buf s else
    r ← parseredirs (S (length buf)) buf execcmd s;
    parseargs (S (length buf)) buf 0 (fst r) (snd r)
  end
with parseblock (fuel : nat) (buf : list Z) (s : nat) : pres (pcmd * nat) :=
  match fuel with
  | O => PFuel
  | S f =>
    let '(b, s) := peek buf s [40] in
    if negb b then PPanic "parseblock" else
    let '(_, _, s) := gettoken buf s in
    r ← parseline f buf s;
    let '(b, s) := peek buf (snd r) [41] in
    if negb b then PPanic "syntax - missing )" else
    let '(_, _, s) := gettoken buf s in
    parseredirs (S (length buf)) buf (fst r) s
  end.

(** [*w.e = 0]. *)
Definition nul_at (mem : list Z) (w : nat * nat) : list Z := <[snd w := 0]> mem.
(** The line with a NUL after every word; its own NUL is its last byte. *)
Fixpoint nulterminate (c : pcmd) (mem : list Z) : list Z :=
  match c with
  | Exec argv => foldl nul_at mem argv
  | Redir c w _ _ => nul_at (nulterminate c mem) w
  | Pipe l r => nulterminate r (nulterminate l mem)
  | List_ l r => nulterminate r (nulterminate l mem)
  | Back c => nulterminate c mem
  end.

(** The command and the line after it was parsed. *)
Definition parsecmd (fuel : nat) (buf : list Z) : pres (pcmd * list Z) :=
  r ← parseline fuel buf 0;
  let '(_, s) := peek buf (snd r) [] in
  if negb (s =? length buf)%nat then PPanic "syntax"
  else POk (fst r, nulterminate (fst r) (buf ++ [0])).

Example parse_ls : match parsecmd 100 (bytes_of_string "ls -l|wc >out&") with
  | POk (c, m) => c = Back (Pipe (Exec [(0, 2); (3, 5)]%nat) (Redir (Exec [(6, 8)]%nat) (10, 13)%nat 1537 1)) | _ => False end.
Proof. vm_compute. reflexivity. Qed.
