(* ===== verification/ShProps.v ===== *)
(** * ShProps: the parser of the shell implements its grammar

    A line is a sequence of tokens with white space between them
    ([rend]); the grammar gives token sequences a meaning ([gline]).  The
    parser accepts exactly the lines of the grammar and builds the command
    that the grammar gives them, and the NULs that it stores end its
    words. *)

From S2P Require Import Prelude.
From S2P Require Import Kernel.
From S2P Require Import Console.
From S2P Require Import Sh.

(** ** Lines and tokens *)

Inductive tok := TWord (w : list Z) | TSym (c : Z) | TGtGt.
Definition tok_bytes (t : tok) : list Z := match t with TWord w => w | TSym c => [c] | TGtGt => [62; 62] end.
Definition tok_ok (t : tok) : Prop :=
  match t with TWord w => w <> [] /\ Forall (fun c => word_char c = true) w | TSym c => among symbols c = true | TGtGt => True end.
(** A token is as long as possible. *)
Definition tok_ends (t : tok) (l : list Z) : Prop :=
  match t with
  | TWord _ => forall c, head l = Some c -> word_char c = false
  | TSym c => c = 62 -> head l <> Some 62
  | TGtGt => True
  end.
Inductive rend : list tok -> list Z -> Prop :=
| rend_nil ws : Forall (fun c => among whitespace c = true) ws -> rend [] ws
| rend_cons ws t ts l : Forall (fun c => among whitespace c = true) ws -> tok_ok t -> tok_ends t l -> rend ts l ->
    rend (t :: ts) (ws ++ tok_bytes t ++ l).

(** What [gettoken] returns for a token, and its first byte. *)
Definition tok_code (t : tok) : Z := match t with TWord _ => 97 | TSym c => c | TGtGt => 43 end.
Definition tok_first (t : tok) : Z := match t with TWord w => default 0 (head w) | TSym c => c | TGtGt => 62 end.
Definition tok_among (toks : list Z) (ts : list tok) : bool := match ts with t :: _ => among toks (tok_first t) | [] => false end.

Lemma symbols_not_ws c : among symbols c = true -> among whitespace c = false.
Proof.
  unfold among, symbols, whitespace. cbn. intros H. repeat (apply orb_true_iff in H as [H|H]; [apply Z.eqb_eq in H as ->; reflexivity|]). done.
Qed.
Lemma word_char_spec c : word_char c = true -> among whitespace c = false /\ among symbols c = false.
Proof. unfold word_char. destruct (among whitespace c), (among symbols c); cbn; try done. Qed.
Lemma tok_first_spec t : tok_ok t -> among whitespace (tok_first t) = false /\ (match t with TWord _ => word_char (tok_first t) = true | _ => among symbols (tok_first t) = true end).
Proof.
  destruct t as [w|c|]; cbn [tok_ok tok_first].
  - intros [H1 H2]. destruct w as [|c w]; [done|]. apply Forall_cons in H2 as [H2 _]. cbn. split; [by apply word_char_spec|done].
  - intros H. split; [by apply symbols_not_ws|done].
  - done.
Qed.
Lemma tok_bytes_first t : tok_ok t -> exists l, tok_bytes t = tok_first t :: l.
Proof. destruct t as [w|c|]; cbn; [intros [H _]; destruct w; [done|by eexists]|by eexists|by eexists]. Qed.

(** Every line has tokens. *)
Lemma word_split l : exists w r, l = w ++ r /\ Forall (fun c => word_char c = true) w /\ (forall c, head r = Some c -> word_char c = false).
Proof.
  induction l as [|c l (w & r & -> & H1 & H2)]; [by exists [], []|]. destruct (word_char c) eqn:E.
  - exists (c :: w), r. split_and!; [done|by constructor|done].
  - exists [], (c :: w ++ r). split_and!; [done|constructor|]. cbn. by intros ? [= <-].
Qed.
Lemma ws_split l : exists w r, l = w ++ r /\ Forall (fun c => among whitespace c = true) w /\ (forall c, head r = Some c -> among whitespace c = false).
Proof.
  induction l as [|c l (w & r & -> & H1 & H2)]; [by exists [], []|]. destruct (among whitespace c) eqn:E.
  - exists (c :: w), r. split_and!; [done|by constructor|done].
  - exists [], (c :: w ++ r). split_and!; [done|constructor|]. cbn. by intros ? [= <-].
Qed.
Lemma rend_total_le n : forall l, (length l <= n)%nat -> exists ts, rend ts l.
Proof.
  induction n as [|n IH]; intros l Hl; [destruct l; [|cbn in Hl; lia]; exists []; by apply rend_nil|].
  destruct (ws_split l) as (ws & r & -> & Hws & Hr). destruct r as [|c r]; [exists []; rewrite app_nil_r; by apply rend_nil|].
  specialize (Hr c eq_refl). rewrite length_app in Hl. cbn in Hl. destruct (among symbols c) eqn:Es.
  - destruct (decide (c = 62 /\ head r = Some 62)) as [[-> Hh]|Hn].
    + destruct r as [|d r]; [done|]. injection Hh as ->. destruct (IH r) as [ts Hts]; [cbn in Hl; lia|]. exists (TGtGt :: ts). by apply (rend_cons ws TGtGt).
    + destruct (IH r) as [ts Hts]; [lia|]. exists (TSym c :: ts). apply (rend_cons ws (TSym c)); [done|done| |done]. intros Hc Hh. by apply Hn.
  - destruct (word_split r) as (w & r' & -> & Hw & Hr'). destruct (IH r') as [ts Hts]; [rewrite length_app in Hl; lia|].
    exists (TWord (c :: w) :: ts). apply (rend_cons ws (TWord (c :: w))); [done| |done|done].
    split; [done|]. constructor; [|done]. unfold word_char. by rewrite Hr, Es.
Qed.
Lemma rend_length ts l : rend ts l -> (length ts <= length l)%nat.
Proof.
  induction 1 as [|ws t ts l Hws Ht He Hr IH]; cbn; [lia|]. rewrite !length_app. destruct (tok_bytes_first t Ht) as [b ->]. cbn. lia.
Qed.

(** ** The grammar

    Redirections wrap the command so far, and words are added to the EXEC
    node inside; at most nine words fit. *)

Definition add_redir (t : tok) (w : list Z) (c : cmd (list Z)) : option (cmd (list Z)) :=
  match t with
  | TSym s => if s =? 60 then Some (Redir c w O_RDONLY 0)
              else if s =? 62 then Some (Redir c w (Z.lor O_WRONLY (Z.lor O_CREATE O_TRUNC)) 1) else None
  | TGtGt => Some (Redir c w (Z.lor O_WRONLY O_CREATE) 1)
  | TWord _ => None
  end.
Inductive gredirs : list tok -> cmd (list Z) -> cmd (list Z) -> Prop :=
| gr_nil c : gredirs [] c c
| gr_cons t w ts c c1 c2 : add_redir t w c = Some c1 -> gredirs ts c1 c2 -> gredirs (t :: TWord w :: ts) c c2.
Inductive gargs : nat -> list tok -> cmd (list Z) -> cmd (list Z) -> Prop :=
| ga_nil n c : gargs n [] c c
| ga_word n w rs ts c c1 c2 : (S n < MAXARGS)%nat -> gredirs rs (add_arg w c) c1 -> gargs (S n) ts c1 c2 ->
    gargs n (TWord w :: rs ++ ts) c c2.
Inductive gline : list tok -> cmd (list Z) -> Prop :=
| gl_one ts n c : gpipe ts c -> gline (ts ++ replicate n (TSym 38)) (Nat.iter n Back c)
| gl_list ts n c ts' c' : gpipe ts c -> gline ts' c' ->
    gline (ts ++ replicate n (TSym 38) ++ TSym 59 :: ts') (List_ (Nat.iter n Back c) c')
with gpipe : list tok -> cmd (list Z) -> Prop :=
| gp_one ts c : gexec ts c -> gpipe ts c
| gp_pipe ts c ts' c' : gexec ts c -> gpipe ts' c' -> gpipe (ts ++ TSym 124 :: ts') (Pipe c c')
with gexec : list tok -> cmd (list Z) -> Prop :=
| ge_cmd rs ts c c' : gredirs rs (Exec []) c -> gargs 0 ts c c' -> gexec (rs ++ ts) c'
| ge_block ts rs c c' : gline ts c -> gredirs rs c c' -> gexec (TSym 40 :: ts ++ TSym 41 :: rs) c'.

Scheme gline_mind := Induction for gline Sort Prop
with gpipe_mind := Induction for gpipe Sort Prop
with gexec_mind := Induction for gexec Sort Prop.
Combined Scheme grammar_ind from gline_mind, gpipe_mind, gexec_mind.

Fixpoint cmd_words {W} (c : cmd W) : list W :=
  match c with
  | Exec argv => argv
  | Redir c w _ _ => cmd_words c ++ [w]
  | Pipe l r | List_ l r => cmd_words l ++ cmd_words r
  | Back c => cmd_words c
  end.

(** ** The lexer *)

Definition slice (buf : list Z) (w : nat * nat) : list Z := take (snd w - fst w) (drop (fst w) buf).
(** A word ends at a byte that is in no word. *)
Definition in_word (buf : list Z) (i : nat) : Prop := exists c, buf !! i = Some c /\ word_char c = true.
Definition is_word (buf : list Z) (w : nat * nat) : Prop :=
  (fst w < snd w <= length buf)%nat /\ (forall i, fst w <= i < snd w -> in_word buf i)%nat /\ ~ in_word buf (snd w).

Section lexer.
Context (buf : list Z).
Hypothesis (Hbuf : Forall (fun c => c <> 0) buf).

(** The tokens from offset [s] on. *)
Definition tokens_at (s : nat) (ts : list tok) : Prop := (s <= length buf)%nat /\ rend ts (drop s buf).

Lemma at_drop s : at_ buf s = default 0 (head (drop s buf)).
Proof. unfold at_. by rewrite <- (Nat.add_0_r s), <- lookup_drop, head_lookup, Nat.add_0_r. Qed.
Lemma at_nonzero s c l : drop s buf = c :: l -> at_ buf s = c /\ c <> 0.
Proof.
  intros E. rewrite at_drop, E. split; [done|]. pose proof (Forall_drop _ s _ Hbuf) as H.
  rewrite E in H. by apply Forall_cons in H as [H _].
Qed.
Lemma drop_more s l1 l2 : drop s buf = l1 ++ l2 -> drop (s + length l1) buf = l2.
Proof. intros E. by rewrite <- drop_drop, E, drop_app_length. Qed.
Lemma drop_len s l1 l2 : (s <= length buf)%nat -> drop s buf = l1 ++ l2 -> (s + length l1 <= length buf)%nat.
Proof. intros H E. apply (f_equal length) in E. rewrite length_drop, length_app in E. lia. Qed.

Lemma skip_ok p l1 l2 s : (s <= length buf)%nat -> drop s buf = l1 ++ l2 -> Forall (fun c => p c = true) l1 ->
  (forall c, head l2 = Some c -> p c = false) -> skip p buf s = (s + length l1)%nat.
Proof.
  unfold skip. intros Hs E H1 H2. assert (length buf - s = length l1 + length l2)%nat as -> by (apply (f_equal length) in E; rewrite length_drop, length_app in E; lia).
  clear Hs. revert s E. induction H1 as [|c l1 Hc H1 IH]; intros s E; cbn [length Nat.add].
  - destruct l2 as [|d l2]; cbn; [lia|]. destruct (at_nonzero _ _ _ E) as [-> _]. rewrite (H2 d eq_refl). lia.
  - cbn [skip_to]. cbn in E. destruct (at_nonzero _ _ _ E) as [-> _]. rewrite Hc. rewrite IH; [lia|].
    apply (drop_more s [c] (l1 ++ l2)) in E. cbn in E. by rewrite Nat.add_1_r in E.
Qed.

(** White space before the next token. *)
Lemma skip_ws_ok s ts : tokens_at s ts -> let s' := skip (among whitespace) buf s in
  tokens_at s' ts /\ match ts with [] => s' = length buf | t :: ts' => exists l, drop s' buf = tok_bytes t ++ l /\ tok_ok t /\ tok_ends t l /\ rend ts' l end.
Proof.
  intros [Hs H]. cbv zeta. remember (drop s buf) as d eqn:E. destruct H as [ws Hws|ws t ts' l Hws Ht He Hr].
  - rewrite E in Hws. rewrite (skip_ok _ (drop s buf) [] s); [|done|by rewrite app_nil_r|done|done]. assert (s + length (drop s buf) = length buf)%nat as -> by (rewrite length_drop; lia).
    split; [|done]. split; [done|]. rewrite drop_all. by apply rend_nil.
  - symmetry in E. assert (forall c, head (tok_bytes t ++ l) = Some c -> among whitespace c = false) as Hh.
    { intros c. destruct (tok_bytes_first t Ht) as [b ->]. cbn. intros [= <-]. by apply tok_first_spec. }
    rewrite (skip_ok _ ws _ s Hs E Hws Hh). pose proof (drop_more _ _ _ E) as E'. split; [|exists l; by rewrite E'].
    split; [exact (drop_len _ _ _ Hs E)|]. rewrite E'. apply (rend_cons []); done.
Qed.

(** [peek] of symbols. *)
Lemma peek_ok s ts toks : tokens_at s ts -> exists s', peek buf s toks = (tok_among toks ts, s') /\ tokens_at s' ts /\ (ts = [] <-> s' = length buf).
Proof.
  intros H. destruct (skip_ws_ok s ts H) as [H1 H2]. unfold peek. set (s' := skip (among whitespace) buf s) in *. exists s'.
  destruct ts as [|t ts]; cbn [tok_among].
  - rewrite H2 in *. split; [|by split]. rewrite (at_drop (length buf)), drop_all. done.
  - destruct H2 as (l & E & Ht & He & Hr). destruct (tok_bytes_first t Ht) as [b Eb]. rewrite Eb in E. cbn in E. destruct (at_nonzero _ _ _ E) as [-> Hz].
    rewrite (proj2 (Z.eqb_neq _ _) Hz). split; [done|]. split; [done|]. split; [done|]. intros Hs'. by rewrite Hs', drop_all in E.
Qed.

Lemma word_ok s w l : (s <= length buf)%nat -> drop s buf = w ++ l -> tok_ok (TWord w) -> tok_ends (TWord w) l ->
  slice buf (s, (s + length w)%nat) = w /\ is_word buf (s, (s + length w)%nat).
Proof.
  intros Hs E [H1 H2] He. unfold slice, is_word. cbn [fst snd]. split; [|split_and!].
  - replace (s + length w - s)%nat with (length w) by lia. by rewrite E, take_app_length.
  - destruct w; [done|cbn; lia].
  - exact (drop_len _ _ _ Hs E).
  - intros i Hi. replace i with (s + (i - s))%nat by lia. rewrite Forall_forall in H2. destruct (lookup_lt_is_Some_2 w (i - s)%nat) as [c Hc]; [lia|].
    exists c. rewrite <- lookup_drop, E, lookup_app_l by lia. split; [done|]. apply H2. by eapply list_elem_of_lookup_2.
  - intros (c & Hc & Hw). rewrite <- lookup_drop, E, lookup_app_r, Nat.sub_diag in Hc by lia. rewrite <- head_lookup in Hc. rewrite (He c Hc) in Hw. done.
Qed.

Lemma gettoken_end s : tokens_at s [] -> exists q s', gettoken buf s = (0, q, s') /\ tokens_at s' [].
Proof.
  intros H. destruct (skip_ws_ok s [] H) as [H1 H2]. unfold gettoken. rewrite H2 in *. rewrite (at_drop (length buf)), drop_all. cbn [head default Z.eqb].
  destruct (skip_ws_ok _ _ H1) as [H3 H4]. by eexists _, _.
Qed.

Lemma gettoken_ok s t ts : tokens_at s (t :: ts) -> exists q s', gettoken buf s = (tok_code t, q, s') /\ tokens_at s' ts /\
  (forall w, t = TWord w -> slice buf q = w /\ is_word buf q).
Proof.
  intros H. destruct (skip_ws_ok s _ H) as [[H1 _] (l & E & Ht & He & Hr)]. unfold gettoken. set (s1 := skip (among whitespace) buf s) in *.
  destruct (tok_bytes_first t Ht) as [b Eb]. destruct (tok_first_spec t Ht) as [Hw Hc].
  assert (at_ buf s1 = tok_first t /\ tok_first t <> 0) as [-> Hz] by (apply (at_nonzero s1 _ (b ++ l)); by rewrite E, Eb).
  assert (forall k, k = (s1 + length (tok_bytes t))%nat -> tokens_at (skip (among whitespace) buf k) ts) as Hnext.
  { intros k ->. apply skip_ws_ok. split; [exact (drop_len _ _ _ H1 E)|]. by rewrite (drop_more _ _ _ E). }
  rewrite (proj2 (Z.eqb_neq _ _) Hz). destruct t as [w|c|]; cbn [tok_bytes tok_first tok_code] in *.
  - apply word_char_spec in Hc as Hcs. assert (forall d, among symbols d = true -> default 0 (head w) <> d) as Hne by (intros d Hd Ed; rewrite Ed in Hcs; destruct Hcs; congruence).
    destruct (among (bytes_of_string "|();&<") (default 0 (head w))) eqn:Ea.
    { exfalso. unfold among in Ea. cbn in Ea. repeat (apply orb_true_iff in Ea as [Ea|Ea]; [apply Z.eqb_eq in Ea; by apply (Hne _ eq_refl Ea) || (revert Ea; by apply Hne)|]). done. }
    rewrite (proj2 (Z.eqb_neq _ 62)) by (by apply Hne).
    rewrite (skip_ok word_char w l s1 H1 E (proj2 Ht) He). eexists _, _. split; [done|]. split; [by apply Hnext|].
    intros w' [= <-]. by apply (word_ok s1 w l).
  - assert (at_ buf (S s1) = default 0 (head l)) as Hat.
    { rewrite at_drop. apply (drop_more s1 [c]) in E. by rewrite Nat.add_1_r in E; rewrite E. }
    assert (forall r e, r = c -> e = S s1 -> exists q s', (r, (s1, e), skip (among whitespace) buf e) = (c, q, s') /\ tokens_at s' ts /\
      (forall w, TSym c = TWord w -> slice buf q = w /\ is_word buf q)) as Hfin.
    { intros r e -> ->. eexists _, _. split; [done|]. split; [apply Hnext; cbn; lia|done]. }
    destruct (decide (c = 62)) as [-> |Hne].
    + cbn [among existsb bytes_of_string]. rewrite Hat. assert ((default 0 (head l) =? 62) = false) as ->.
      { apply Z.eqb_neq. intros Hl. destruct l as [|d l]; cbn in Hl; [lia|subst d]. by apply He. }
      by apply Hfin.
    + assert (among (bytes_of_string "|();&<") c = true) as ->; [|by apply Hfin].
      unfold among, symbols in Ht |- *. cbn in Ht |- *. repeat (apply orb_true_iff in Ht as [Ht|Ht]; [apply Z.eqb_eq in Ht; subst c; done|]). done.
  - cbn [among existsb bytes_of_string]. assert (at_ buf (S s1) = 62) as ->.
    { rewrite at_drop. apply (drop_more s1 [62] (62 :: l)) in E. rewrite Nat.add_1_r in E. by rewrite E. }
    eexists _, _. split; [reflexivity|]. split; [apply Hnext; cbn; lia|done].
Qed.

Lemma gettoken_any s ts : tokens_at s ts -> exists q s',
  gettoken buf s = (match ts with [] => 0 | t :: _ => tok_code t end, q, s') /\ tokens_at s' (tail ts) /\
  (forall w, head ts = Some (TWord w) -> slice buf q = w /\ is_word buf q).
Proof.
  destruct ts as [|t ts]; intros H.
  - destruct (gettoken_end s H) as (q & s' & -> & H'). eexists _, _. by split_and!.
  - destruct (gettoken_ok s t ts H) as (q & s' & -> & H1 & H2). eexists _, _. split; [done|]. split; [done|]. intros w [= ->]. by apply H2.
Qed.
Lemma tokens_ok s ts : tokens_at s ts -> Forall tok_ok ts.
Proof. intros [_ H]. induction H; constructor; done. Qed.
Lemma tok_code_word t : tok_ok t -> (tok_code t =? 97) = match t with TWord _ => true | _ => false end.
Proof. destruct t as [w|c|]; cbn; [done| |done]. intros H. apply Z.eqb_neq. by intros ->. Qed.
Lemma tok_code_0 t : tok_ok t -> (tok_code t =? 0) = false.
Proof. destruct t as [w|c|]; cbn; [done| |done]. intros H. apply Z.eqb_neq. by intros ->. Qed.
(** A word does not begin with a symbol. *)
Lemma word_among toks w : tok_ok (TWord w) -> forallb (among symbols) toks = true -> among toks (tok_first (TWord w)) = false.
Proof.
  intros H Hs. destruct (tok_first_spec _ H) as [_ Hf%word_char_spec]. destruct (among toks _) eqn:E; [|done].
  apply existsb_exists in E as (x & Hx & Hq). apply Z.eqb_eq in Hq. rewrite forallb_forall in Hs. apply Hs in Hx. rewrite <- Hq in Hx.
  destruct Hf. congruence.
Qed.

(** The command [v] with its words in the line. *)
Definition okc (c : pcmd) (v : cmd (list Z)) : Prop := cmd_map (slice buf) c = v /\ Forall (is_word buf) (cmd_words c).
(** A parser that does not run out of fuel and consumes tokens of [G]. *)
Definition parsed (ts : list tok) (G : list tok -> cmd (list Z) -> Prop) (p : pres (pcmd * nat)) : Prop :=
  match p with
  | POk (c, s) => exists t1 t2 v, ts = t1 ++ t2 /\ tokens_at s t2 /\ okc c v /\ G t1 v
  | PPanic _ => True
  | PFuel => False
  end.
(** A parser that succeeds and leaves [t2]. *)
Definition parses (t2 : list tok) (v : cmd (list Z)) (p : pres (pcmd * nat)) : Prop :=
  exists c s, p = POk (c, s) /\ okc c v /\ tokens_at s t2.

Lemma okc_redir c v q w mode fd : okc c v -> slice buf q = w -> is_word buf q -> okc (Redir c q mode fd) (Redir v w mode fd).
Proof. intros [<- H] <- Hq. split; [done|]. cbn. apply Forall_app. split; [done|by constructor]. Qed.
Lemma okc_arg c v q w : okc c v -> slice buf q = w -> is_word buf q -> okc (add_arg q c) (add_arg w v).
Proof.
  intros [<- H] <- Hq. split.
  - clear H. induction c; cbn; [|by rewrite IHc|done..]. by rewrite fmap_app.
  - induction c; cbn in *; [|apply Forall_app in H as [H1 H2]; apply Forall_app; split; [by apply IHc|done]|done..].
    apply Forall_app. split; [done|by constructor].
Qed.

Lemma okc_list c1 v1 c2 v2 : okc c1 v1 -> okc c2 v2 -> okc (List_ c1 c2) (List_ v1 v2).
Proof. intros [<- H1] [<- H2]. split; [done|by apply Forall_app]. Qed.
Lemma okc_pipe c1 v1 c2 v2 : okc c1 v1 -> okc c2 v2 -> okc (Pipe c1 c2) (Pipe v1 v2).
Proof. intros [<- H1] [<- H2]. split; [done|by apply Forall_app]. Qed.

Lemma redir_step t w c v q : okc c v -> slice buf q = w -> is_word buf q -> tok_ok t -> among [60; 62] (tok_first t) = true ->
  exists v', add_redir t w v = Some v' /\
    okc (if tok_code t =? 60 then Redir c q O_RDONLY 0
         else if tok_code t =? 62 then Redir c q (Z.lor O_WRONLY (Z.lor O_CREATE O_TRUNC)) 1
         else if tok_code t =? 43 then Redir c q (Z.lor O_WRONLY O_CREATE) 1 else c) v'.
Proof.
  intros Hc Hw Hq Ht Ha. destruct t as [u|s|].
  - by rewrite (word_among [60; 62] u Ht eq_refl) in Ha.
  - cbn in *. destruct (s =? 60); [eexists; split; [done|by apply okc_redir]|]. destruct (s =? 62); [eexists; split; [done|by apply okc_redir]|done].
  - cbn. eexists. split; [done|by apply okc_redir].
Qed.
Lemma add_redir_first t w v v' : add_redir t w v = Some v' -> among [60; 62] (tok_first t) = true.
Proof. destruct t as [u|s|]; cbn; [done| |done]. destruct (s =? 60); [done|]. by destruct (s =? 62). Qed.

Lemma redirs_sound : forall fuel ts c v s, okc c v -> tokens_at s ts -> (length ts < fuel)%nat ->
  parsed ts (fun t1 => gredirs t1 v) (parseredirs fuel buf c s).
Proof.
  induction fuel as [|fuel IH]; intros ts c v s Hc Hs Hf; [lia|]. cbn [parseredirs].
  destruct (peek_ok s ts [60; 62] Hs) as (s1 & -> & H1 & _). destruct (tok_among [60; 62] ts) eqn:Ea.
  - destruct ts as [|t ts]; [done|]. destruct (gettoken_ok s1 t ts H1) as (q1 & s2 & -> & H2 & _).
    destruct (gettoken_any s2 ts H2) as (q & s3 & -> & H3 & Hq). pose proof (tokens_ok _ _ H1) as [Ht Hts]%Forall_cons.
    destruct ts as [|t2 ts]; [done|]. apply Forall_cons in Hts as [Ht2 _]. rewrite (tok_code_word t2 Ht2).
    destruct t2 as [w| |]; [|done|done]. cbn [negb]. destruct (Hq w eq_refl) as [Q1 Q2]. cbn [tail] in H3.
    destruct (redir_step t w c v q Hc Q1 Q2 Ht Ea) as (v1 & R1 & R2).
    specialize (IH ts _ v1 s3 R2 H3). cbn in Hf. unfold parsed in *. destruct (parseredirs _ _ _ _) as [[c' s']| |]; [|done|apply IH; lia].
    destruct IH as (t1 & t2 & v2 & -> & I1 & I2 & I3); [lia|]. exists (t :: TWord w :: t1), t2, v2. split_and!; [done|apply I1..|done|by eapply gr_cons].
  - exists [], ts, v. split; [done|]. split; [done|]. split; [done|constructor].
Qed.

Lemma redirs_complete t1 v v' : gredirs t1 v v' -> forall c s t2 fuel, okc c v -> tokens_at s (t1 ++ t2) -> tok_among [60; 62] t2 = false ->
  (length t1 < fuel)%nat -> parses t2 v' (parseredirs fuel buf c s).
Proof.
  induction 1 as [v|t w ts v v1 v2 Ht Hr IH]; intros c s t2 fuel Hc Hs Ha Hf; (destruct fuel as [|fuel]; [lia|]); cbn [parseredirs].
  - destruct (peek_ok s t2 [60; 62] Hs) as (s1 & -> & H1 & _). rewrite Ha. by exists c, s1.
  - destruct (peek_ok s _ [60; 62] Hs) as (s1 & -> & H1 & _). cbn [tok_among app]. rewrite (add_redir_first _ _ _ _ Ht).
    destruct (gettoken_ok s1 _ _ H1) as (q1 & s2 & -> & H2 & _). destruct (gettoken_ok s2 _ _ H2) as (q & s3 & -> & H3 & Hq).
    destruct (Hq w eq_refl) as [Q1 Q2]. cbn [tok_code Z.eqb Pos.eqb negb].
    pose proof (tokens_ok _ _ H1) as [Htk _]%Forall_cons. destruct (redir_step t w c v q Hc Q1 Q2 Htk (add_redir_first _ _ _ _ Ht)) as (v3 & R1 & R2).
    rewrite Ht in R1. injection R1 as <-. cbn in Hf. apply IH; [done|done|done|lia].
Qed.

(** *** The arguments *)

Lemma args_sound : forall fuel ts n c v s, okc c v -> tokens_at s ts -> (length ts < fuel)%nat ->
  parsed ts (fun t1 => gargs n t1 v) (parseargs fuel buf n c s).
Proof.
  induction fuel as [|fuel IH]; intros ts n c v s Hc Hs Hf; [lia|]. cbn [parseargs].
  destruct (peek_ok s ts [124; 41; 38; 59] Hs) as (s1 & -> & H1 & _). destruct (tok_among _ ts) eqn:Ea.
  { exists [], ts, v. split; [done|]. split; [done|]. split; [done|constructor]. }
  destruct (gettoken_any s1 ts H1) as (q & s2 & -> & H2 & Hq). destruct ts as [|t ts].
  { exists [], [], v. split; [done|]. split; [done|]. split; [done|constructor]. }
  pose proof (tokens_ok _ _ H1) as [Ht Hts]%Forall_cons. rewrite (tok_code_0 t Ht), (tok_code_word t Ht).
  destruct t as [w| |]; [|done|done]. cbn [negb tail] in *. destruct (Hq w eq_refl) as [Q1 Q2]. destruct (Nat.leb_spec MAXARGS (S n)) as [|Hn]; [done|].
  pose proof (okc_arg _ _ _ _ Hc Q1 Q2) as Hc1. pose proof H2 as [Hs2 Hlen%rend_length]. rewrite length_drop in Hlen.
  pose proof (redirs_sound (S (length buf)) ts _ _ s2 Hc1 H2 ltac:(lia)) as HR. unfold parsed in HR.
  destruct (parseredirs (S (length buf)) buf (add_arg q c) s2) as [[c1 s3]| |]; cbn [mbind pres_bind]; [|done|done]. cbn [fst snd].
  destruct HR as (r1 & r2 & v1 & -> & R1 & R2 & R3). rewrite length_app in *. cbn in Hf. rewrite length_app in Hf.
  specialize (IH r2 (S n) c1 v1 s3 R2 R1 ltac:(lia)). unfold parsed in *. destruct (parseargs _ _ _ _ _) as [[c' s']| |]; [|done|done].
  destruct IH as (t1 & t2 & v2 & -> & I1 & I2 & I3). exists (TWord w :: r1 ++ t1), t2, v2.
  split; [cbn; by rewrite app_assoc|]. split; [done|]. split; [done|by eapply ga_word].
Qed.

Lemma tok_among_args n ts v v' t2 toks : gargs n ts v v' -> Forall tok_ok (ts ++ t2) -> forallb (among symbols) toks = true ->
  tok_among toks t2 = false -> tok_among toks (ts ++ t2) = false.
Proof.
  intros H Hok Hs Ha. destruct H; [done|]. cbn [app tok_among]. apply Forall_cons in Hok as [Hok _]. by apply word_among.
Qed.
Lemma args_complete n t1 v v' : gargs n t1 v v' -> forall c s t2 fuel, okc c v -> tokens_at s (t1 ++ t2) -> tok_among [60; 62] t2 = false ->
  (t2 = [] \/ tok_among [124; 41; 38; 59] t2 = true) -> (length t1 < fuel)%nat -> parses t2 v' (parseargs fuel buf n c s).
Proof.
  induction 1 as [n v|n w rs ts v v1 v2 Hn Hr Hg IH]; intros c s t2 fuel Hc Hs Ha Hb Hf; (destruct fuel as [|fuel]; [lia|]); cbn [parseargs].
  - destruct (peek_ok s t2 [124; 41; 38; 59] Hs) as (s1 & -> & H1 & _). destruct Hb as [-> |Hb]; cbn [app].
    + destruct (gettoken_end s1 H1) as (q & s2 & -> & H2). by exists c, s2.
    + rewrite Hb. by exists c, s1.
  - cbn [app] in Hs. destruct (peek_ok s _ [124; 41; 38; 59] Hs) as (s1 & -> & H1 & _). pose proof (tokens_ok _ _ Hs) as [Hw Hok]%Forall_cons.
    cbn [tok_among]. rewrite (word_among _ w Hw) by done. destruct (gettoken_ok s1 _ _ H1) as (q & s2 & -> & H2 & Hq). destruct (Hq w eq_refl) as [Q1 Q2].
    cbn [tok_code Z.eqb Pos.eqb negb]. rewrite (proj2 (Nat.leb_gt MAXARGS (S n))) by done. rewrite <- app_assoc in *.
    pose proof H2 as [Hs2 Hlen%rend_length]. rewrite length_drop, length_app in Hlen. apply Forall_app in Hok as [_ Hok].
    destruct (redirs_complete _ _ _ Hr (add_arg q c) s2 (ts ++ t2) (S (length buf))) as (c1 & s3 & -> & R1 & R2).
    + by apply okc_arg.
    + done.
    + by apply (tok_among_args _ _ _ _ _ _ Hg).
    + lia.
    + cbn [mbind pres_bind fst snd]. cbn in Hf. rewrite length_app in Hf. apply IH; [done|done|done|done|lia].
Qed.

(** *** The loop for [&] *)

Lemma first_sym x t : tok_ok t -> among symbols x = true -> x <> 62 -> among [x] (tok_first t) = true -> t = TSym x.
Proof.
  intros Ht Hx Hx62 H. destruct t as [w|c|]; [rewrite (word_among [x] w Ht) in H; [done|cbn [forallb]; by rewrite Hx]| |]; unfold among in H; cbn [tok_first existsb] in H; rewrite orb_false_r in H; apply Z.eqb_eq in H; congruence.
Qed.
Lemma back_sound : forall fuel ts c v s, okc c v -> tokens_at s ts -> (length ts < fuel)%nat ->
  exists c' s' n t2, parseback fuel buf c s = POk (c', s') /\ ts = replicate n (TSym 38) ++ t2 /\ tokens_at s' t2 /\ okc c' (Nat.iter n Back v).
Proof.
  induction fuel as [|fuel IH]; intros ts c v s Hc Hs Hf; [lia|]. cbn [parseback].
  destruct (peek_ok s ts [38] Hs) as (s1 & -> & H1 & _). destruct (tok_among [38] ts) eqn:Ea.
  - destruct ts as [|t ts]; [done|]. pose proof (tokens_ok _ _ H1) as [Ht _]%Forall_cons. cbn in Ea. apply (first_sym 38 t Ht eq_refl ltac:(lia)) in Ea as ->.
    destruct (gettoken_ok s1 _ _ H1) as (q & s2 & -> & H2 & _). cbn in Hf.
    destruct (IH ts (backcmd c) (Back v) s2) as (c' & s' & n & t2 & -> & -> & I1 & I2); [by destruct Hc as [<- ?]|done|lia|].
    exists c', s', (S n), t2. split; [done|]. split; [done|]. split; [done|]. by rewrite Nat.iter_succ_r.
  - exists c, s1, 0%nat, ts. done.
Qed.
Lemma back_complete t2 n : forall c v s fuel, okc c v -> tokens_at s (replicate n (TSym 38) ++ t2) -> tok_among [38] t2 = false ->
  (n < fuel)%nat -> parses t2 (Nat.iter n Back v) (parseback fuel buf c s).
Proof.
  induction n as [|n IH]; intros c v s fuel Hc Hs Ha Hf; (destruct fuel as [|fuel]; [lia|]); cbn [parseback].
  - destruct (peek_ok s t2 [38] Hs) as (s1 & -> & H1 & _). rewrite Ha. by exists c, s1.
  - destruct (peek_ok s _ [38] Hs) as (s1 & -> & H1 & _). cbn [replicate app tok_among]. change (among [38] (tok_first (TSym 38))) with true.
    cbn iota. destruct (gettoken_ok s1 _ _ H1) as (q & s2 & -> & H2 & _). rewrite Nat.iter_succ_r. apply IH; [by destruct Hc as [<- ?]|done|done|lia].
Qed.

(** *** The functions of the grammar *)

Lemma peek_sym s ts x : tokens_at s ts -> among symbols x = true -> x <> 62 ->
  exists s', tokens_at s' ts /\ ((exists ts', ts = TSym x :: ts' /\ peek buf s [x] = (true, s')) \/
    (tok_among [x] ts = false /\ peek buf s [x] = (false, s'))).
Proof.
  intros Hs Hx Hx62. destruct (peek_ok s ts [x] Hs) as (s' & -> & H & _). exists s'. split; [done|].
  destruct (tok_among [x] ts) eqn:E; [left|by right]. destruct ts as [|t ts]; [done|]. pose proof (tokens_ok _ _ H) as [Ht _]%Forall_cons.
  exists ts. split; [|done]. f_equal. by apply (first_sym x t).
Qed.
(** A symbol is consumed. *)
Lemma sym_next s c ts : tokens_at s (TSym c :: ts) -> exists q s', gettoken buf s = (c, q, s') /\ tokens_at s' ts.
Proof. intros H. destruct (gettoken_ok s _ _ H) as (q & s' & E & H1 & _). by exists q, s'. Qed.

Lemma parsed_enough ts s : tokens_at s ts -> (length ts < S (length buf))%nat.
Proof. intros [H1 H2%rend_length]. rewrite length_drop in H2. lia. Qed.

Lemma parse_sound : forall fuel ts s, tokens_at s ts ->
  ((4 * length ts + 3 < fuel)%nat -> parsed ts gline (parseline fuel buf s)) /\
  ((4 * length ts + 2 < fuel)%nat -> parsed ts gpipe (parsepipe fuel buf s)) /\
  ((4 * length ts + 1 < fuel)%nat -> parsed ts gexec (parseexec fuel buf s)) /\
  ((4 * length ts < fuel)%nat -> parsed ts gexec (parseblock fuel buf s)).
Proof.
  induction fuel as [|fuel IH]; intros ts s Hs; [split_and!; lia|]. split_and!; intros Hf; cbn [parseline parsepipe parseexec parseblock].
  - destruct (IH ts s Hs) as (_ & IP & _). specialize (IP ltac:(lia)). destruct (parsepipe fuel buf s) as [[c s1]| |]; [|done|done].
    destruct IP as (t1 & t2 & v & -> & P1 & P2 & P3). cbn [mbind pres_bind fst snd].
    destruct (back_sound (S (length buf)) t2 c v s1 P2 P1 (parsed_enough _ _ P1)) as (c1 & s2 & n & t3 & -> & -> & B1 & B2). cbn [mbind pres_bind fst snd].
    destruct (peek_sym s2 t3 59 B1 eq_refl ltac:(lia)) as (s3 & H3 & [(t4 & -> & ->)|[_ ->]]).
    + destruct (sym_next s3 59 t4 H3) as (q & s4 & -> & H4). destruct (IH t4 s4 H4) as (IL & _). rewrite !length_app in Hf. cbn in Hf.
      specialize (IL ltac:(lia)). destruct (parseline fuel buf s4) as [[c2 s5]| |]; [|done|done].
      destruct IL as (u1 & u2 & v2 & -> & L1 & L2 & L3). cbn [mbind pres_bind fst snd].
      exists (t1 ++ replicate n (TSym 38) ++ TSym 59 :: u1), u2, (List_ (Nat.iter n Back v) v2).
      split; [by rewrite <- !app_assoc|]. split; [done|]. split; [by apply okc_list|by apply gl_list].
    + exists (t1 ++ replicate n (TSym 38)), t3, (Nat.iter n Back v). split; [by rewrite <- app_assoc|]. split; [done|]. split; [done|by apply gl_one].
  - destruct (IH ts s Hs) as (_ & _ & IE & _). specialize (IE ltac:(lia)). destruct (parseexec fuel buf s) as [[c s1]| |]; [|done|done].
    destruct IE as (t1 & t2 & v & -> & P1 & P2 & P3). cbn [mbind pres_bind fst snd].
    destruct (peek_sym s1 t2 124 P1 eq_refl ltac:(lia)) as (s3 & H3 & [(t4 & -> & ->)|[_ ->]]).
    + destruct (sym_next s3 124 t4 H3) as (q & s4 & -> & H4). destruct (IH t4 s4 H4) as (_ & IP & _). rewrite !length_app in Hf. cbn in Hf.
      specialize (IP ltac:(lia)). destruct (parsepipe fuel buf s4) as [[c2 s5]| |]; [|done|done].
      destruct IP as (u1 & u2 & v2 & -> & L1 & L2 & L3). cbn [mbind pres_bind fst snd].
      exists (t1 ++ TSym 124 :: u1), u2, (Pipe v v2).
      split; [by rewrite <- !app_assoc|]. split; [done|]. split; [by apply okc_pipe|by apply gp_pipe].
    + exists t1, t2, v. split; [done|]. split; [done|]. split; [done|by apply gp_one].
  - destruct (peek_sym s ts 40 Hs eq_refl ltac:(lia)) as (s3 & H3 & [(t4 & -> & ->)|[_ ->]]); [destruct (IH _ s3 H3) as (_ & _ & _ & IB); apply IB; lia|].
    assert (okc (Exec []) (Exec [])) as H0 by (by split; [|constructor]).
    pose proof (redirs_sound _ _ _ _ _ H0 H3 (parsed_enough _ _ H3)) as HR. unfold parsed in HR.
    destruct (parseredirs _ _ _ _) as [[c1 s4]| |]; [|done|done]. destruct HR as (t1 & t2 & v & -> & R1 & R2 & R3). cbn [mbind pres_bind fst snd].
    pose proof (args_sound _ _ 0 _ _ _ R2 R1 (parsed_enough _ _ R1)) as HA. unfold parsed in HA |- *.
    destruct (parseargs _ _ _ _ _) as [[c2 s5]| |]; [|done|done]. destruct HA as (t3 & t4 & v2 & -> & A1 & A2 & A3).
    exists (t1 ++ t3), t4, v2. split; [by rewrite app_assoc|]. split; [done|]. split; [done|by eapply ge_cmd].
  - destruct (peek_sym s ts 40 Hs eq_refl ltac:(lia)) as (s3 & H3 & [(t4 & -> & ->)|[_ ->]]); [|done]. cbn [negb].
    destruct (sym_next s3 40 t4 H3) as (q & s4 & -> & H4). destruct (IH t4 s4 H4) as (IL & _). cbn in Hf.
    specialize (IL ltac:(lia)). destruct (parseline fuel buf s4) as [[c1 s5]| |]; [|done|done]. destruct IL as (t1 & t2 & v & -> & L1 & L2 & L3).
    cbn [mbind pres_bind fst snd]. destruct (peek_sym s5 t2 41 L1 eq_refl ltac:(lia)) as (s6 & H6 & [(t5 & -> & ->)|[_ ->]]); [|done]. cbn [negb].
    destruct (sym_next s6 41 t5 H6) as (q2 & s7 & -> & H7). pose proof (redirs_sound _ _ _ _ _ L2 H7 (parsed_enough _ _ H7)) as HR.
    unfold parsed in HR |- *. destruct (parseredirs _ _ _ _) as [[c2 s8]| |]; [|done|done]. destruct HR as (t3 & t4 & v2 & -> & R1 & R2 & R3).
    exists (TSym 40 :: t1 ++ TSym 41 :: t3), t4, v2. split; [cbn; by rewrite <- app_assoc|]. split; [done|]. split; [done|by eapply ge_block].
Qed.

(** What can follow a command of the grammar. *)
Definition follow (toks : list Z) (ts : list tok) : Prop := ts = [] \/ exists c ts', ts = TSym c :: ts' /\ among toks c = true.
Lemma follow_among toks l ts : follow toks ts -> forallb (fun c => negb (among l c)) toks = true -> tok_among l ts = false.
Proof.
  intros [-> |(c & ts' & -> & H)] Hl; [done|]. cbn [tok_among tok_first]. apply existsb_exists in H as (d & Hd & E). apply Z.eqb_eq in E as ->.
  rewrite forallb_forall in Hl. apply Hl in Hd. by destruct (among l d).
Qed.
Lemma follow_weaken toks toks' ts : follow toks ts -> forallb (among toks') toks = true -> follow toks' ts.
Proof.
  intros [-> |(c & ts' & -> & H)] Hl; [by left|]. right. exists c, ts'. split; [done|]. apply existsb_exists in H as (d & Hd & E). apply Z.eqb_eq in E as ->.
  rewrite forallb_forall in Hl. by apply Hl.
Qed.
Lemma follow_sym toks c ts : among toks c = true -> follow toks (TSym c :: ts).
Proof. intros H. right. by exists c, ts. Qed.
Lemma peek_not s ts x : tokens_at s ts -> tok_among [x] ts = false -> exists s', peek buf s [x] = (false, s') /\ tokens_at s' ts.
Proof. intros Hs Hx. destruct (peek_ok s ts [x] Hs) as (s' & -> & H & _). rewrite Hx. by exists s'. Qed.
Lemma peek_yes s ts x : tokens_at s (TSym x :: ts) -> exists s' q s'', peek buf s [x] = (true, s') /\ gettoken buf s' = (x, q, s'') /\ tokens_at s'' ts.
Proof.
  intros Hs. destruct (peek_ok s _ [x] Hs) as (s' & -> & H & _). destruct (sym_next s' x ts H) as (q & s'' & E & H'). exists s', q, s''.
  split; [|done]. cbn. by rewrite Z.eqb_refl.
Qed.

Lemma line_complete ts n c fuel s t2 : (forall s t2 fuel, tokens_at s (ts ++ t2) -> follow [41; 38; 59] t2 -> (4 * length ts + 2 < fuel)%nat -> parses t2 c (parsepipe fuel buf s)) ->
  tokens_at s (ts ++ replicate n (TSym 38) ++ t2) -> (4 * length ts + 3 < fuel)%nat -> follow [41; 59] t2 ->
  exists f c1 s1, fuel = S f /\ okc c1 (Nat.iter n Back c) /\ tokens_at s1 t2 /\
    parseline fuel buf s = let '(b, s) := peek buf s1 [59] in
      if b then let '(_, _, s) := gettoken buf s in r2 ← parseline f buf s; POk (List_ c1 (fst r2), snd r2) else POk (c1, s).
Proof.
  intros HP Hs Hf Hfo. destruct fuel as [|fuel]; [lia|]. cbn [parseline].
  destruct (HP s (replicate n (TSym 38) ++ t2) fuel Hs) as (c1 & s1 & -> & P1 & P2); [|lia|].
  { destruct n; [|by apply follow_sym]. by apply (follow_weaken [41; 59]). }
  cbn [mbind pres_bind fst snd]. pose proof (parsed_enough _ _ P2) as Hn. rewrite length_app, length_replicate in Hn.
  destruct (back_complete t2 n c1 c s1 (S (length buf)) P1 P2) as (c2 & s2 & -> & B1 & B2); [by apply (follow_among [41; 59])|lia|].
  by exists fuel, c2, s2.
Qed.

Lemma parse_complete :
  (forall ts v, gline ts v -> forall s t2 fuel, tokens_at s (ts ++ t2) -> follow [41] t2 -> (4 * length ts + 3 < fuel)%nat -> parses t2 v (parseline fuel buf s)) /\
  (forall ts v, gpipe ts v -> forall s t2 fuel, tokens_at s (ts ++ t2) -> follow [41; 38; 59] t2 -> (4 * length ts + 2 < fuel)%nat -> parses t2 v (parsepipe fuel buf s)) /\
  (forall ts v, gexec ts v -> forall s t2 fuel, tokens_at s (ts ++ t2) -> follow [124; 41; 38; 59] t2 -> (4 * length ts + 1 < fuel)%nat -> parses t2 v (parseexec fuel buf s)).
Proof.
  apply grammar_ind.
  - intros ts n c _ IH s t2 fuel Hs Hfo Hf. rewrite <- app_assoc in Hs. rewrite length_app, length_replicate in Hf.
    destruct (line_complete ts n c fuel s t2 IH Hs) as (f & c1 & s1 & -> & L1 & L2 & ->); [lia|by apply (follow_weaken [41])|].
    destruct (peek_not s1 t2 59 L2) as (s2 & -> & H2); [by apply (follow_among [41])|]. by exists c1, s2.
  - intros ts n c ts' c' _ IH _ IH' s t2 fuel Hs Hfo Hf. rewrite <- !app_assoc in Hs. rewrite !length_app, length_replicate in Hf. cbn [length app] in *.
    destruct (line_complete ts n c fuel s _ IH Hs) as (f & c1 & s1 & -> & L1 & L2 & ->); [lia|by apply follow_sym|].
    destruct (peek_yes s1 _ 59 L2) as (s2 & q & s3 & -> & -> & H3). destruct (IH' s3 t2 f H3 Hfo) as (c2 & s4 & -> & R1 & R2); [lia|].
    exists (List_ c1 c2), s4. split; [done|]. split; [by apply okc_list|done].
  - intros ts c _ IH s t2 fuel Hs Hfo Hf. destruct fuel as [|fuel]; [lia|]. cbn [parsepipe].
    destruct (IH s t2 fuel Hs) as (c1 & s1 & -> & R1 & R2); [by apply (follow_weaken [41; 38; 59])|lia|]. cbn [mbind pres_bind fst snd].
    destruct (peek_not s1 t2 124 R2) as (s2 & -> & H2); [by apply (follow_among [41; 38; 59])|]. by exists c1, s2.
  - intros ts c ts' c' _ IH _ IH' s t2 fuel Hs Hfo Hf. rewrite <- app_assoc in Hs. rewrite length_app in Hf. cbn [length app] in *.
    destruct fuel as [|fuel]; [lia|]. cbn [parsepipe]. destruct (IH s _ fuel Hs) as (c1 & s1 & -> & R1 & R2); [by apply follow_sym|lia|].
    cbn [mbind pres_bind fst snd]. destruct (peek_yes s1 _ 124 R2) as (s2 & q & s3 & -> & -> & H3).
    destruct (IH' s3 t2 fuel H3 Hfo) as (c2 & s4 & -> & Q1 & Q2); [lia|]. exists (Pipe c1 c2), s4. split; [done|]. split; [by apply okc_pipe|done].
  - intros rs ts c c' Hr Ha s t2 fuel Hs Hfo Hf. destruct fuel as [|fuel]; [lia|]. cbn [parseexec]. rewrite <- app_assoc in Hs.
    pose proof (tokens_ok _ _ Hs) as Hok. apply Forall_app in Hok as [_ Hok].
    destruct (peek_not s _ 40 Hs) as (s1 & -> & H1).
    { destruct Hr as [|t w rs c0 c1 c2 Ht _]; [apply (tok_among_args _ _ _ _ _ _ Ha Hok); [done|by apply (follow_among [124; 41; 38; 59])]|].
      cbn [app tok_among]. apply add_redir_first in Ht. cbn in Ht |- *. destruct (tok_first t =? 40) eqn:E; [|done]. apply Z.eqb_eq in E. by rewrite E in Ht. }
    assert (tok_among [60; 62] t2 = false) as Ht2 by by apply (follow_among [124; 41; 38; 59]).
    destruct (redirs_complete _ _ _ Hr execcmd s1 (ts ++ t2) (S (length buf))) as (c1 & s2 & -> & R1 & R2).
    + by split; [|constructor].
    + done.
    + by apply (tok_among_args _ _ _ _ _ _ Ha).
    + pose proof (parsed_enough _ _ H1) as H. rewrite length_app in H. lia.
    + cbn [mbind pres_bind fst snd]. pose proof (parsed_enough _ _ R2) as H. rewrite length_app in H.
      apply (args_complete 0 ts c c' Ha); [done|done|done| |lia].
      destruct Hfo as [-> |(x & t3 & -> & Hx)]; [by left|by right].
  - intros ts rs c c' _ IH Hr s t2 fuel Hs Hfo Hf. cbn [app length] in *. rewrite <- app_assoc in Hs. rewrite length_app in Hf. cbn [app length] in *.
    destruct fuel as [|[|fuel]]; [lia|lia|]. cbn [parseexec parseblock].
    destruct (peek_ok s _ [40] Hs) as (s1 & -> & H1 & _). cbn [tok_among tok_first]. change (among [40] 40) with true. cbn iota.
    destruct (peek_yes s1 _ 40 H1) as (s2 & q & s3 & -> & -> & H3). cbn [negb].
    destruct (IH s3 (TSym 41 :: rs ++ t2) fuel H3) as (c1 & s4 & -> & R1 & R2); [by apply follow_sym|lia|]. cbn [mbind pres_bind fst snd].
    destruct (peek_yes s4 _ 41 R2) as (s5 & q2 & s6 & -> & -> & H6). cbn [negb]. pose proof (parsed_enough _ _ H6) as H. rewrite length_app in H.
    apply (redirs_complete rs c c' Hr); [done|done|by apply (follow_among [124; 41; 38; 59])|lia].
Qed.

(** ** The ends of the words *)

Lemma nulterminate_words c : forall m, nulterminate c m = foldl nul_at m (cmd_words c).
Proof. induction c as [|c IH|l IHl r IHr|l IHl r IHr|c IH]; intros m; cbn; [done|by rewrite foldl_app, IH|by rewrite foldl_app, IHl, IHr..|done]. Qed.
Lemma nuls_length ws : forall m, length (foldl nul_at m ws) = length m.
Proof. induction ws as [|w ws IH]; intros m; cbn; [done|]. rewrite IH. apply length_insert. Qed.
Lemma nuls_other ws i : Forall (is_word buf) ws -> in_word buf i -> forall m : list Z, foldl nul_at m ws !! i = m !! i.
Proof.
  induction 1 as [|w ws (_ & _ & Hw) Hws IH]; intros Hi m; cbn; [done|]. rewrite IH by done. unfold nul_at. apply list_lookup_insert_ne. by intros <-.
Qed.
Lemma nuls_zero ws i : forall m : list Z, m !! i = Some 0 -> foldl nul_at m ws !! i = Some 0.
Proof.
  induction ws as [|w ws IH]; intros m H; cbn; [done|]. apply IH. destruct (decide (snd w = i)) as [<-|Hne].
  - apply list_lookup_insert_eq. by apply lookup_lt_Some in H.
  - unfold nul_at. by rewrite list_lookup_insert_ne.
Qed.
Lemma nuls_end ws w : w ∈ ws -> forall m : list Z, (snd w < length m)%nat -> foldl nul_at m ws !! snd w = Some 0.
Proof.
  induction ws as [|u ws IH]; intros Hin m Hl; cbn; [by apply not_elem_of_nil in Hin|]. apply elem_of_cons in Hin as [<-|Hin].
  - apply nuls_zero. by apply list_lookup_insert_eq.
  - apply IH; [done|]. unfold nul_at. by rewrite length_insert.
Qed.

(** The string that begins at a word. *)
Definition word_string (m : list Z) (w : nat * nat) : list Z := cstr (drop (fst w) m).
Lemma word_string_ok ws w : Forall (is_word buf) ws -> w ∈ ws -> word_string (foldl nul_at (buf ++ [0]) ws) w = slice buf w.
Proof.
  intros Hws Hin. set (m := foldl _ _ _). pose proof Hws as Hw. rewrite Forall_forall in Hw. destruct (Hw w Hin) as ([H1 H2] & H3 & H4).
  assert (m !! snd w = Some 0) as Hend by (apply nuls_end; [done|rewrite length_app; cbn; lia]).
  assert (forall i, fst w <= i < snd w -> m !! i = buf !! i)%nat as Hin_w.
  { intros i Hi. destruct (H3 i Hi) as (c & Hc & Hwc). unfold m. rewrite nuls_other; [|done|by exists c].
    rewrite lookup_app_l; [done|]. lia. }
  assert (take (snd w - fst w) (drop (fst w) m) = slice buf w) as E.
  { unfold slice. apply list_eq. intros i. destruct (decide (i < snd w - fst w)%nat) as [Hi|Hi].
    - rewrite !lookup_take_lt, !lookup_drop by done. apply Hin_w. lia.
    - rewrite !lookup_take_ge by lia. done. }
  assert (drop (fst w) m = slice buf w ++ 0 :: drop (S (snd w)) m) as Ed.
  { rewrite <- E, <- (take_drop (snd w - fst w) (drop (fst w) m)) at 1. f_equal. rewrite drop_drop.
    replace (fst w + (snd w - fst w))%nat with (snd w) by lia. by apply drop_S. }
  unfold word_string. rewrite Ed. clear Ed E. assert (Forall (fun c => c <> 0) (slice buf w)) as Hnz by (by apply Forall_take, Forall_drop).
  induction Hnz as [|c l Hc Hl IH]; cbn; [done|]. by rewrite (proj2 (Z.eqb_neq _ _) Hc), IH.
Qed.
Lemma cmd_map_ext {V W} (f g : V -> W) c : (forall w, w ∈ cmd_words c -> f w = g w) -> cmd_map f c = cmd_map g c.
Proof.
  induction c as [argv|c IH w mode fd|l IHl r IHr|l IHl r IHr|c IH]; cbn; intros H.
  - f_equal. apply list_fmap_ext. intros i x Hx. apply H. by eapply list_elem_of_lookup_2.
  - f_equal; [|apply H; apply elem_of_app; right; by left]. apply IH. intros x Hx. apply H. apply elem_of_app. by left.
  - f_equal; [apply IHl|apply IHr]; intros x Hx; apply H; apply elem_of_app; first [by left|by right].
  - f_equal; [apply IHl|apply IHr]; intros x Hx; apply H; apply elem_of_app; first [by left|by right].
  - f_equal. by apply IH.
Qed.

Lemma parsecmd_ok fuel ts : rend ts buf -> (4 * length buf + 3 < fuel)%nat ->
  parsecmd fuel buf <> PFuel /\
  forall v, gline ts v <-> exists c m, parsecmd fuel buf = POk (c, m) /\ cmd_map (word_string m) c = v.
Proof.
  intros Hr Hf. assert (tokens_at 0 ts) as Hs by (split; [lia|done]). pose proof (rend_length _ _ Hr) as Hl.
  destruct (parse_sound fuel ts 0%nat Hs) as (HS & _). specialize (HS ltac:(lia)).
  assert (forall c v, okc c v -> cmd_map (word_string (nulterminate c (buf ++ [0]))) c = v) as Hview.
  { intros c v [<- Hw]. apply cmd_map_ext. intros w Hin. rewrite nulterminate_words. by apply word_string_ok. }
  unfold parsecmd. split.
  - destruct (parseline fuel buf 0) as [[c s]| |]; cbn [mbind pres_bind]; [|done|done]. destruct (peek _ _ _). by destruct (negb _).
  - intros v. split.
    + intros Hg. destruct (proj1 parse_complete ts v Hg 0%nat [] fuel) as (c & s & -> & H1 & H2); [by rewrite app_nil_r|by left|lia|].
      cbn [mbind pres_bind fst snd]. destruct (peek_ok s [] [] H2) as (s' & -> & _ & H3). rewrite (proj1 H3 eq_refl), Nat.eqb_refl. cbn [negb].
      eexists _, _. split; [done|]. by apply Hview.
    + intros (c & m & E & Ev). destruct (parseline fuel buf 0) as [[c1 s]| |]; cbn [mbind pres_bind fst snd] in E; [|done|done].
      destruct HS as (t1 & t2 & v1 & -> & H1 & H2 & H3). destruct (peek_ok s t2 [] H1) as (s' & Ep & _ & H4). rewrite Ep in E.
      destruct (Nat.eqb_spec s' (length buf)) as [Hs'|]; [|done]. cbn in E. injection E as -> <-. apply H4 in Hs' as ->.
      rewrite app_nil_r. by rewrite <- Ev, (Hview _ _ H2).
Qed.
End lexer.

(** C34: the parser of the shell always ends, with a command or a panic, and implements the grammar: every line is a sequence of tokens in exactly the sense of [rend], and the parser returns the command with the words [v] if and only if the grammar gives [v] to the tokens of the line; the words are the NUL-terminated strings that the command points to after [nulterminate]. *)
Theorem parsecmd_correct buf fuel : Forall (fun c => c <> 0) buf -> (4 * length buf + 3 < fuel)%nat ->
  parsecmd fuel buf <> PFuel /\ (exists ts, rend ts buf) /\
  forall ts, rend ts buf -> forall v, gline ts v <-> exists c m, parsecmd fuel buf = POk (c, m) /\ cmd_map (word_string m) c = v.
Proof.
  intros Hbuf Hf. destruct (rend_total_le (length buf) buf (le_n _)) as [ts Hts]. split; [by apply (parsecmd_ok buf Hbuf fuel ts)|]. split; [by exists ts|].
  intros ts' Hts'. by apply parsecmd_ok.
Qed.

Lemma parsecmd_correct_witness : Forall (fun c => c <> 0) (bytes_of_string "ls|wc") /\
  parsecmd 24 (bytes_of_string "ls|wc") <> PFuel /\ (exists ts, rend ts (bytes_of_string "ls|wc")) /\
  forall ts, rend ts (bytes_of_string "ls|wc") -> forall v, gline ts v <-> exists c m, parsecmd 24 (bytes_of_string "ls|wc") = POk (c, m) /\ cmd_map (word_string m) c = v.
Proof.
  assert (Forall (fun c => c <> 0) (bytes_of_string "ls|wc")) as H by (repeat constructor; cbn; lia).
  split; [exact H|]. apply (parsecmd_correct _ 24 H). cbn. lia.
Defined.
