(* ===== verification/ShRun.v ===== *)
(** * ShRun: running commands

    user/sh.c: runcmd, fork1, getcmd and main.  A run of a process is the
    tree of what it and its children do ([proc]): the children run
    concurrently, and their order is what [wait] enforces.  A process has a
    table of open files; [fork] copies it, and [open], [dup] and [pipe] take
    the lowest free descriptors.  Which files can be opened, which programs
    executed and which forks succeed are parameters.

    [srun] says what a command means, with a standard input, output and
    error for each process instead of a table; [runcmd] implements it. *)

From S2P Require Import Prelude.
From S2P Require Import Kernel.
From S2P Require Import User.
From S2P Require Import Ulib.
From S2P Require Import Console.
From S2P Require Import Sh.
From S2P Require Import ShProps.
From S2P Require Import Grep.

(** An open file: one that was there before, a file by its path and mode,
    or an end of a pipe. *)
Inductive fobj := FStd (n : Z) | FFile (path : list Z) (mode : Z) | FPipeR (id : list bool) | FPipeW (id : list bool).
Abbreviation fdtable := (gmap Z fobj).

(** What a process does; [PFork child rest] continues as [rest]. *)
Inductive proc (T : Type) :=
| PExec (argv : list (list Z)) (fds : T)
| PExit (status : Z)
| PMsg (msg : list Z) (rest : proc T)
| PFork (child rest : proc T)
| PWait (rest : proc T).
Arguments PExec {T} argv fds.
Arguments PExit {T} status.
Arguments PMsg {T} msg rest.
Arguments PFork {T} child rest.
Arguments PWait {T} rest.

(** ** System calls on the table *)

Definition NOFILE : nat := 16.
Fixpoint lowest (n : nat) (fd : Z) (t : fdtable) : option Z :=
  match n with
  | O => None
  | S n' => match t !! fd with None => Some fd | Some _ => lowest n' (fd + 1) t end
  end.
Definition fd_alloc (f : fobj) (t : fdtable) : option (Z * fdtable) :=
  fd ← lowest NOFILE 0 t; Some (fd, <[fd := f]> t).
Definition sys_close (fd : Z) (t : fdtable) : fdtable := delete fd t.
(** The result of [dup] is not used by the shell. *)
Definition sys_dup (fd : Z) (t : fdtable) : fdtable :=
  match t !! fd with Some f => default t (snd <$> fd_alloc f t) | None => t end.
Definition sys_pipe (id : list bool) (t : fdtable) : option (Z * Z * fdtable) :=
  r ← fd_alloc (FPipeR id) t;
  w ← fd_alloc (FPipeW id) (snd r);
  Some (fst r, fst w, snd w).

Section run.
Context (can_open : list Z -> Z -> bool) (can_exec : list Z -> bool) (can_fork : list bool -> bool).

Definition panic {T} (s : string) : proc T := PMsg (bytes_of_string s ++ [10]) (PExit 1).
(** [if(fork1() == 0) child; rest]. *)
Definition fork1 {T} (id : list bool) (child rest : proc T) : proc T :=
  if can_fork id then PFork child rest else panic "fork".
Definition exec_failed (path : list Z) : list Z := bytes_of_string "exec " ++ path ++ bytes_of_string " failed" ++ [10].
Definition open_failed (path : list Z) : list Z := bytes_of_string "open " ++ path ++ bytes_of_string " failed" ++ [10].

(** [id] names the place in the tree of processes, for new pipes. *)
Fixpoint runcmd (c : cmd (list Z)) (id : list bool) (t : fdtable) : proc fdtable :=
  match c with
  | Exec argv =>
    match argv with
    | [] => PExit 1
    | path :: _ => if can_exec path then PExec argv t else PMsg (exec_failed path) (PExit 0)
    end
  | Redir c file mode fd =>
    let t := sys_close fd t in
    match (if can_open file mode then fd_alloc (FFile file mode) t else None) with
    | None => PMsg (open_failed file) (PExit 1)
    | Some (_, t) => runcmd c id t
    end
  | List_ l r =>
    fork1 (false :: id) (runcmd l (false :: id) t) (PWait (runcmd r (true :: id) t))
  | Pipe l r =>
    match sys_pipe id t with
    | None => panic "pipe"
    | Some (p0, p1, t) =>
      fork1 (false :: id)
        (let t := sys_close p1 (sys_close p0 (sys_dup p1 (sys_close 1 t))) in runcmd l (false :: id) t)
        (fork1 (true :: id)
          (let t := sys_close p1 (sys_close p0 (sys_dup p0 (sys_close 0 t))) in runcmd r (true :: id) t)
          (let t := sys_close p1 (sys_close p0 t) in PWait (PWait (PExit 0))))
    end
  | Back c => fork1 (false :: id) (runcmd c (false :: id) t) (PExit 0)
  end.

(** ** The meaning of a command *)

Record stdio := Stdio { std_in : fobj; std_out : fobj; std_err : fobj }.
Definition set_std (fd : Z) (f : fobj) (s : stdio) : stdio :=
  if fd =? 0 then Stdio f (std_out s) (std_err s) else Stdio (std_in s) f (std_err s).
Fixpoint srun (c : cmd (list Z)) (id : list bool) (s : stdio) : proc stdio :=
  match c with
  | Exec [] => PExit 1
  | Exec (path :: args) => if can_exec path then PExec (path :: args) s else PMsg (exec_failed path) (PExit 0)
  | Redir c file mode fd =>
    if can_open file mode then srun c id (set_std fd (FFile file mode) s) else PMsg (open_failed file) (PExit 1)
  | List_ l r => fork1 (false :: id) (srun l (false :: id) s) (PWait (srun r (true :: id) s))
  | Pipe l r =>
    fork1 (false :: id) (srun l (false :: id) (Stdio (std_in s) (FPipeW id) (std_err s)))
      (fork1 (true :: id) (srun r (true :: id) (Stdio (FPipeR id) (std_out s) (std_err s))) (PWait (PWait (PExit 0))))
  | Back c => fork1 (false :: id) (srun c (false :: id) s) (PExit 0)
  end.

(** The table with the three standard files and nothing else. *)
Definition table (s : stdio) : fdtable := <[0 := std_in s]> (<[1 := std_out s]> (<[2 := std_err s]> ∅)).
Fixpoint proc_map {S T} (f : S -> T) (p : proc S) : proc T :=
  match p with
  | PExec argv s => PExec argv (f s)
  | PExit n => PExit n
  | PMsg m p => PMsg m (proc_map f p)
  | PFork c p => PFork (proc_map f c) (proc_map f p)
  | PWait p => PWait (proc_map f p)
  end.
(** The parser makes redirections of descriptors 0 and 1 only. *)
Fixpoint redir_std {W} (c : cmd W) : Prop :=
  match c with
  | Exec _ => True
  | Redir c _ _ fd => (fd = 0 \/ fd = 1) /\ redir_std c
  | Pipe l r | List_ l r => redir_std l /\ redir_std r
  | Back c => redir_std c
  end.

Lemma redir_table s fd f : fd = 0 \/ fd = 1 -> fd_alloc f (sys_close fd (table s)) = Some (fd, table (set_std fd f s)).
Proof. intros [-> | ->]; reflexivity. Qed.
Lemma pipe_table s id : sys_pipe id (table s) = Some (3, 4, <[4 := FPipeW id]> (<[3 := FPipeR id]> (table s))).
Proof. reflexivity. Qed.

Lemma fork1_map {S T} (f : S -> T) id (c r : proc S) c' r' : c' = proc_map f c -> r' = proc_map f r -> fork1 id c' r' = proc_map f (fork1 id c r).
Proof. intros -> ->. unfold fork1. by destruct (can_fork id). Qed.

Lemma runcmd_ok c : redir_std c -> forall id s, runcmd c id (table s) = proc_map table (srun c id s).
Proof.
  induction c as [argv|c IH file mode fd|l IHl r IHr|l IHl r IHr|c IH]; cbn [redir_std]; intros H id s; cbn [runcmd srun].
  - destruct argv as [|path args]; [done|]. by destruct (can_exec path).
  - destruct H as [Hfd H]. destruct (can_open file mode); [|done]. rewrite (redir_table s fd _ Hfd). by apply IH.
  - destruct H as [H1 H2]. rewrite pipe_table. apply fork1_map; [|apply fork1_map; [|reflexivity]].
    + apply (IHl H1 _ (Stdio (std_in s) (FPipeW id) (std_err s))).
    + apply (IHr H2 _ (Stdio (FPipeR id) (std_out s) (std_err s))).
  - destruct H as [H1 H2]. apply fork1_map; [by apply IHl|]. cbn [proc_map]. f_equal. by apply IHr.
  - apply fork1_map; [by apply IH|done].
Qed.
End run.

(** ** The loop of the shell

    [chdir] and [run], which forks, parses and runs a line and waits, are
    parameters. *)

Section main.
Context (chdir : list Z -> U Z) (run : list Z -> U unit).

(** The string in the buffer, or the end of the input. *)
Definition getcmd (nbuf : Z) : U (option (list Z)) :=
  write 2 (bytes_of_string "$ ");;
  l ← gets nbuf;
  mret (match cstr l with [] => None | c :: l => Some (c :: l) end).
(** The shell ensures that three descriptors are open. *)
Fixpoint open_console (fuel : nat) : U unit :=
  match fuel with
  | O => uhang
  | S f =>
    fd ← open (bytes_of_string "console");
    if fd <? 0 then mret tt
    else if 3 <=? fd then close fd;; mret tt
    else open_console f
  end.
Definition is_cd (l : list Z) : bool := (at_ l 0 =? 99) && (at_ l 1 =? 100) && (at_ l 2 =? 32).
Definition cd_path (l : list Z) : list Z := drop 3 (take (length l - 1) l).
Fixpoint sh_loop (fuel : nat) : U unit :=
  match fuel with
  | O => uhang
  | S f =>
    c ← getcmd 100;
    match c with
    | None => mret tt
    | Some l =>
      if is_cd l then
        r ← chdir (cd_path l);
        (if r <? 0 then fprintf 2 "cannot cd %s
" [Ua_str (Some (cd_path l))] else mret tt);;
        sh_loop f
      else run l;; sh_loop f
    end
  end.
Definition main (fuel : nat) : U unit := open_console 17;; sh_loop fuel;; exit 0.
End main.

(** ** Lines from the parser *)

Lemma add_redir_std t w c c' : add_redir t w c = Some c' -> redir_std c -> redir_std c'.
Proof.
  destruct t as [u|s|]; cbn; [done| |intros [= <-]; cbn; auto]. destruct (s =? 60); [intros [= <-]; cbn; auto|].
  destruct (s =? 62); [intros [= <-]; cbn; auto|done].
Qed.
Lemma add_arg_std {W} (w : W) c : redir_std c -> redir_std (add_arg w c).
Proof. induction c; cbn; tauto. Qed.
Lemma gredirs_std ts c c' : gredirs ts c c' -> redir_std c -> redir_std c'.
Proof. induction 1 as [|t w ts c c1 c2 H _ IH]; [done|]. intros Hc. apply IH. by apply (add_redir_std t w c). Qed.
Lemma gargs_std n ts c c' : gargs n ts c c' -> redir_std c -> redir_std c'.
Proof. induction 1 as [|n w rs ts c c1 c2 _ Hr _ IH]; [done|]. intros Hc. apply IH. apply (gredirs_std _ _ _ Hr). by apply add_arg_std. Qed.
Lemma back_std {W} n (c : cmd W) : redir_std c -> redir_std (Nat.iter n Back c).
Proof. intros H. by induction n. Qed.
Lemma grammar_std : (forall ts v, gline ts v -> redir_std v) /\ (forall ts v, gpipe ts v -> redir_std v) /\ (forall ts v, gexec ts v -> redir_std v).
Proof.
  apply grammar_ind; cbn [redir_std]; intros; try done.
  - by apply back_std.
  - split; [by apply back_std|done].
  - eapply gargs_std; [done|]. by eapply gredirs_std.
  - by eapply gredirs_std.
Qed.

(** C35: the shell does what a command line means: for every line with a meaning in the grammar, the process that parses and runs it behaves as [srun], in which every program of a pipeline gets the right standard input and output and no other file, the commands of a list run one after the other and a pipeline is waited for; so the closing and duplicating of descriptors loses and leaks nothing, whatever opens, executes or forks. *)
Theorem shell_line_correct can_open can_exec can_fork buf ts v fuel id s : Forall (fun c => c <> 0) buf -> rend ts buf -> gline ts v ->
  (4 * length buf + 3 < fuel)%nat ->
  exists c m, parsecmd fuel buf = POk (c, m) /\
    runcmd can_open can_exec can_fork (cmd_map (word_string m) c) id (table s) = proc_map table (srun can_open can_exec can_fork v id s).
Proof.
  intros Hbuf Hr Hg Hf. destruct (parsecmd_ok buf Hbuf fuel ts Hr Hf) as [_ HP]. destruct (proj1 (HP v) Hg) as (c & m & E & Ev).
  exists c, m. split; [done|]. rewrite Ev. apply runcmd_ok. by apply (proj1 grammar_std ts).
Qed.

Lemma shell_line_correct_witness : exists c m, parsecmd 24 (bytes_of_string "ls|wc") = POk (c, m) /\
    runcmd (fun _ _ => true) (fun _ => true) (fun _ => true) (cmd_map (word_string m) c) [] (table (Stdio (FStd 0) (FStd 1) (FStd 2))) =
    proc_map table (srun (fun _ _ => true) (fun _ => true) (fun _ => true) (Pipe (Exec [bytes_of_string "ls"]) (Exec [bytes_of_string "wc"])) []
      (Stdio (FStd 0) (FStd 1) (FStd 2))).
Proof.
  assert (forall w, gexec [TWord w] (Exec [w])) as Hw.
  { intros w. apply (ge_cmd [] [TWord w] (Exec [])); [constructor|]. apply (ga_word 0 w [] [] (Exec []) (Exec [w])); [unfold MAXARGS; lia|constructor|constructor]. }
  apply (shell_line_correct _ _ _ _ [TWord (bytes_of_string "ls"); TSym 124; TWord (bytes_of_string "wc")]).
  - repeat constructor; cbn; lia.
  - apply (rend_cons [] (TWord (bytes_of_string "ls")) _ (bytes_of_string "|wc")); [constructor|split; [done|by repeat constructor]|by intros ? [= <-]|].
    apply (rend_cons [] (TSym 124) _ (bytes_of_string "wc")); [constructor|done|done|].
    apply (rend_cons [] (TWord (bytes_of_string "wc")) [] []); [constructor|split; [done|by repeat constructor]|done|]. by apply rend_nil.
  - apply (gl_one [TWord (bytes_of_string "ls"); TSym 124; TWord (bytes_of_string "wc")] 0 (Pipe _ _)).
    apply (gp_pipe [_]); [apply Hw|]. apply (gp_one [_]). apply Hw.
  - cbn. lia.
Defined.
