(* ===== verification/Virtio.v ===== *)
(** * Virtio: the disk driver and the device

    kernel/virtio_disk.c as a transition system: any number of processes in
    [virtio_disk_rw], the interrupt handler [virtio_disk_intr], and the
    device, which reads and writes the descriptors, the two rings and the
    buffers on its own, in any order and at any time the protocol of
    virtio.h allows.

    A process is interrupted between critical sections, where it waits for
    the lock or sleeps; the stores that the device can observe (the ring
    entry, the index) are steps of their own.  [v_panic] records a panic of
    the driver or a request that the device cannot read. *)

From stdpp Require Import functions.
From S2P Require Import Prelude.

Definition NUM : nat := 8.
Definition BSIZE : Z := 1024.
Definition VRING_DESC_F_NEXT : Z := 1.
Definition VRING_DESC_F_WRITE : Z := 2.
Definition VIRTIO_BLK_T_IN : Z := 0.
Definition VIRTIO_BLK_T_OUT : Z := 1.

(** What an address in a descriptor can point to: [disk.ops[i]], the data of
    a buffer, [disk.info[i].status]. *)
Inductive vaddr := A_null | A_op (i : nat) | A_data (b : nat) | A_status (i : nat).
Record virtq_desc := VDesc { d_addr : vaddr; d_len : Z; d_flags : Z; d_next : nat }.
Record virtio_blk_req := VReq { r_type : Z; r_reserved : Z; r_sector : Z }.
Record vbuf := VBuf { vb_blockno : Z; vb_disk : bool; vb_data : list Z }.

(** The descriptors [idx] of a request. *)
Record chain := Chain { c0 : nat; c1 : nat; c2 : nat }.

(** What a process does next: [V_start] waits for the lock, [V_sleepf] sleeps
    for descriptors, [V_sleepb] for the buffer, [V_wake] waits for the lock
    again. *)
Inductive vpc :=
| V_idle
| V_start (b : nat) (w : bool) | V_alloc (b : nat) (w : bool) | V_sleepf (b : nat) (w : bool)
| V_format (b : nat) (w : bool) (c : chain) | V_ring (b : nat) (w : bool) (c : chain) | V_publish (b : nat) (w : bool) (c : chain)
| V_wait (b : nat) (w : bool) (c : chain) | V_sleepb (b : nat) (w : bool) (c : chain) | V_wake (b : nat) (w : bool) (c : chain)
| V_free (b : nat) (w : bool) (c : chain) | V_rel (b : nat) (w : bool).
(** The device: idle, about to store a ring entry, about to move the index. *)
Inductive dpc := D_idle | D_ring (h : nat) | D_idx (h : nat).
Inductive holder := H_none | H_thread (t : nat) | H_intr.

(** [struct disk], the buffers, the disk itself, and the control state. *)
Record vstate := VState {
  v_desc : nat -> virtq_desc;
  v_avail_ring : nat -> nat; v_avail_idx : Z;
  v_used_ring : nat -> nat; v_used_idx : Z;       (* disk.used->idx, the device's *)
  v_free : nat -> bool;
  v_seen : Z;                                      (* disk.used_idx, the driver's *)
  v_info_b : nat -> option nat; v_status : nat -> Z;
  v_ops : nat -> virtio_blk_req;
  v_bufs : nat -> vbuf; v_disk : Z -> list Z;
  v_lock : holder; v_thr : nat -> vpc;
  v_dev : dpc; v_dev_idx : Z; v_inflight : list nat;
  v_panic : bool
}.

Definition set_desc x s := VState x (v_avail_ring s) (v_avail_idx s) (v_used_ring s) (v_used_idx s) (v_free s) (v_seen s) (v_info_b s) (v_status s) (v_ops s) (v_bufs s) (v_disk s) (v_lock s) (v_thr s) (v_dev s) (v_dev_idx s) (v_inflight s) (v_panic s).
Definition set_avail r i s := VState (v_desc s) r i (v_used_ring s) (v_used_idx s) (v_free s) (v_seen s) (v_info_b s) (v_status s) (v_ops s) (v_bufs s) (v_disk s) (v_lock s) (v_thr s) (v_dev s) (v_dev_idx s) (v_inflight s) (v_panic s).
Definition set_used r i s := VState (v_desc s) (v_avail_ring s) (v_avail_idx s) r i (v_free s) (v_seen s) (v_info_b s) (v_status s) (v_ops s) (v_bufs s) (v_disk s) (v_lock s) (v_thr s) (v_dev s) (v_dev_idx s) (v_inflight s) (v_panic s).
Definition set_free x s := VState (v_desc s) (v_avail_ring s) (v_avail_idx s) (v_used_ring s) (v_used_idx s) x (v_seen s) (v_info_b s) (v_status s) (v_ops s) (v_bufs s) (v_disk s) (v_lock s) (v_thr s) (v_dev s) (v_dev_idx s) (v_inflight s) (v_panic s).
Definition set_seen x s := VState (v_desc s) (v_avail_ring s) (v_avail_idx s) (v_used_ring s) (v_used_idx s) (v_free s) x (v_info_b s) (v_status s) (v_ops s) (v_bufs s) (v_disk s) (v_lock s) (v_thr s) (v_dev s) (v_dev_idx s) (v_inflight s) (v_panic s).
Definition set_info b st s := VState (v_desc s) (v_avail_ring s) (v_avail_idx s) (v_used_ring s) (v_used_idx s) (v_free s) (v_seen s) b st (v_ops s) (v_bufs s) (v_disk s) (v_lock s) (v_thr s) (v_dev s) (v_dev_idx s) (v_inflight s) (v_panic s).
Definition set_ops x s := VState (v_desc s) (v_avail_ring s) (v_avail_idx s) (v_used_ring s) (v_used_idx s) (v_free s) (v_seen s) (v_info_b s) (v_status s) x (v_bufs s) (v_disk s) (v_lock s) (v_thr s) (v_dev s) (v_dev_idx s) (v_inflight s) (v_panic s).
Definition set_bufs x s := VState (v_desc s) (v_avail_ring s) (v_avail_idx s) (v_used_ring s) (v_used_idx s) (v_free s) (v_seen s) (v_info_b s) (v_status s) (v_ops s) x (v_disk s) (v_lock s) (v_thr s) (v_dev s) (v_dev_idx s) (v_inflight s) (v_panic s).
Definition set_disk x s := VState (v_desc s) (v_avail_ring s) (v_avail_idx s) (v_used_ring s) (v_used_idx s) (v_free s) (v_seen s) (v_info_b s) (v_status s) (v_ops s) (v_bufs s) x (v_lock s) (v_thr s) (v_dev s) (v_dev_idx s) (v_inflight s) (v_panic s).
Definition set_lock x s := VState (v_desc s) (v_avail_ring s) (v_avail_idx s) (v_used_ring s) (v_used_idx s) (v_free s) (v_seen s) (v_info_b s) (v_status s) (v_ops s) (v_bufs s) (v_disk s) x (v_thr s) (v_dev s) (v_dev_idx s) (v_inflight s) (v_panic s).
Definition set_thr x s := VState (v_desc s) (v_avail_ring s) (v_avail_idx s) (v_used_ring s) (v_used_idx s) (v_free s) (v_seen s) (v_info_b s) (v_status s) (v_ops s) (v_bufs s) (v_disk s) (v_lock s) x (v_dev s) (v_dev_idx s) (v_inflight s) (v_panic s).
Definition set_dev x i l s := VState (v_desc s) (v_avail_ring s) (v_avail_idx s) (v_used_ring s) (v_used_idx s) (v_free s) (v_seen s) (v_info_b s) (v_status s) (v_ops s) (v_bufs s) (v_disk s) (v_lock s) (v_thr s) x i l (v_panic s).
Definition panicked s := VState (v_desc s) (v_avail_ring s) (v_avail_idx s) (v_used_ring s) (v_used_idx s) (v_free s) (v_seen s) (v_info_b s) (v_status s) (v_ops s) (v_bufs s) (v_disk s) (v_lock s) (v_thr s) (v_dev s) (v_dev_idx s) (v_inflight s) true.
Definition put_thr (t : nat) (pc : vpc) (s : vstate) : vstate := set_thr (<[t := pc]> (v_thr s)) s.

(** ** Descriptors *)

(** [wakeup(&disk.free[0])] and [wakeup(b)]. *)
Definition wake_free (s : vstate) : vstate :=
  set_thr (fun t => match v_thr s t with V_sleepf b w => V_start b w | pc => pc end) s.
Definition wake_buf (b : nat) (s : vstate) : vstate :=
  set_thr (fun t => match v_thr s t with V_sleepb b' w c => if (b' =? b)%nat then V_wake b' w c else V_sleepb b' w c | pc => pc end) s.

Definition alloc_desc (s : vstate) : option (nat * vstate) :=
  match List.find (v_free s) (seq 0 NUM) with
  | Some i => Some (i, set_free (<[i := false]> (v_free s)) s)
  | None => None
  end.
Definition free_desc (i : nat) (s : vstate) : vstate :=
  if (NUM <=? i)%nat then panicked s
  else if v_free s i then panicked s
  else wake_free (set_free (<[i := true]> (v_free s)) (set_desc (<[i := VDesc A_null 0 0 0]> (v_desc s)) s)).
(** A chain has at most [NUM] descriptors. *)
Fixpoint free_chain (fuel : nat) (i : nat) (s : vstate) : vstate :=
  match fuel with
  | O => panicked s
  | S f =>
    let flag := d_flags (v_desc s i) in
    let nxt := d_next (v_desc s i) in
    let s := free_desc i s in
    if negb (Z.land flag VRING_DESC_F_NEXT =? 0) then free_chain f nxt s else s
  end.
(** The loop of [alloc3_desc]; the descriptors so far are given back when
    one more cannot be had. *)
Fixpoint alloc_loop (n : nat) (idx : list nat) (s : vstate) : option (list nat) * vstate :=
  match n with
  | O => (Some idx, s)
  | S n' =>
    match alloc_desc s with
    | Some (i, s) => alloc_loop n' (idx ++ [i]) s
    | None => (None, foldl (fun s i => free_desc i s) s idx)
    end
  end.
Definition alloc3_desc (s : vstate) : option (list nat) * vstate := alloc_loop 3 [] s.

(** ** virtio_disk_rw *)

Definition upd_buf (b : nat) (f : vbuf -> vbuf) (s : vstate) : vstate := set_bufs (<[b := f (v_bufs s b)]> (v_bufs s)) s.
Definition set_vb_disk (x : bool) (v : vbuf) : vbuf := VBuf (vb_blockno v) x (vb_data v).
Definition set_vb_data (x : list Z) (v : vbuf) : vbuf := VBuf (vb_blockno v) (vb_disk v) x.

(** The three descriptors, the request and the book-keeping. *)
Definition format (b : nat) (w : bool) (c : chain) (s : vstate) : vstate :=
  let sector := u32 (vb_blockno (v_bufs s b) * (BSIZE / 512)) in
  let s := set_ops (<[c0 c := VReq (if w then VIRTIO_BLK_T_OUT else VIRTIO_BLK_T_IN) 0 sector]> (v_ops s)) s in
  let s := set_desc (<[c0 c := VDesc (A_op (c0 c)) 16 VRING_DESC_F_NEXT (c1 c)]> (v_desc s)) s in
  let s := set_desc (<[c1 c := VDesc (A_data b) BSIZE (Z.lor (if w then 0 else VRING_DESC_F_WRITE) VRING_DESC_F_NEXT) (c2 c)]> (v_desc s)) s in
  let s := set_info (v_info_b s) (<[c0 c := 255]> (v_status s)) s in
  let s := set_desc (<[c2 c := VDesc (A_status (c0 c)) 1 VRING_DESC_F_WRITE 0]> (v_desc s)) s in
  let s := upd_buf b (set_vb_disk true) s in
  set_info (<[c0 c := Some b]> (v_info_b s)) (v_status s) s.

Definition slot (i : Z) : nat := Z.to_nat (i mod Z.of_nat NUM).

(** A call of [virtio_disk_rw] on buffer [b], which the caller has filled
    with block number and data.  The cache has one buffer for a block and
    lets one process use it. *)
Definition active (pc : vpc) : option nat :=
  match pc with
  | V_idle => None
  | V_start b _ | V_alloc b _ | V_sleepf b _ | V_rel b _ => Some b
  | V_format b _ _ | V_ring b _ _ | V_publish b _ _ | V_wait b _ _ | V_sleepb b _ _ | V_wake b _ _ | V_free b _ _ => Some b
  end.
Inductive vcall (t : nat) (s : vstate) : vstate -> Prop :=
| vcall_rw b w blockno data : v_thr s t = V_idle -> (forall t' b', active (v_thr s t') = Some b' -> b' <> b /\ vb_blockno (v_bufs s b') <> blockno) -> 0 <= blockno < 2 ^ 31 ->
    vcall t s (put_thr t (V_start b w) (upd_buf b (fun v => VBuf blockno (vb_disk v) data) s)).

(** One step of process [t]. *)
Definition tstep (t : nat) (s : vstate) : option vstate :=
  match v_thr s t with
  | V_idle | V_sleepf _ _ | V_sleepb _ _ _ => None
  | V_start b w => match v_lock s with H_none => Some (put_thr t (V_alloc b w) (set_lock (H_thread t) s)) | _ => None end
  | V_alloc b w =>
    match alloc3_desc s with
    | (Some [i; j; k], s) => Some (put_thr t (V_format b w (Chain i j k)) s)
    | (_, s) => Some (put_thr t (V_sleepf b w) (set_lock H_none s))
    end
  | V_format b w c => Some (put_thr t (V_ring b w c) (format b w c s))
  | V_ring b w c => Some (put_thr t (V_publish b w c) (set_avail (<[slot (v_avail_idx s) := c0 c]> (v_avail_ring s)) (v_avail_idx s) s))
  | V_publish b w c => Some (put_thr t (V_wait b w c) (set_avail (v_avail_ring s) (u16 (v_avail_idx s + 1)) s))
  | V_wait b w c =>
    if vb_disk (v_bufs s b) then Some (put_thr t (V_sleepb b w c) (set_lock H_none s)) else Some (put_thr t (V_free b w c) s)
  | V_wake b w c => match v_lock s with H_none => Some (put_thr t (V_wait b w c) (set_lock (H_thread t) s)) | _ => None end
  | V_free b w c => Some (put_thr t (V_rel b w) (free_chain NUM (c0 c) (set_info (<[c0 c := None]> (v_info_b s)) (v_status s) s)))
  | V_rel b w => Some (put_thr t V_idle (set_lock H_none s))
  end.

(** ** virtio_disk_intr *)

Definition istep (s : vstate) : option vstate :=
  match v_lock s with
  | H_none => Some (set_lock H_intr s)
  | H_thread _ => None
  | H_intr =>
    if v_seen s =? v_used_idx s then Some (set_lock H_none s) else
    let id := v_used_ring s (slot (v_seen s)) in
    if negb (v_status s id =? 0) then Some (panicked s) else
    match v_info_b s id with
    | None => Some (panicked s)
    | Some b => Some (set_seen (u16 (v_seen s + 1)) (wake_buf b (upd_buf b (set_vb_disk false) s)))
    end
  end.

(** ** The device

    It takes the heads of chains from the available ring, serves them in
    any order, reports status 0 and then puts the head into the used
    ring. *)

Inductive dchoice := D_take | D_serve (h : nat) | D_store.
Definition transfer (h : nat) (s : vstate) : vstate :=
  let d0 := v_desc s h in
  let d1 := v_desc s (d_next d0) in
  let d2 := v_desc s (d_next d1) in
  match d_addr d0, d_addr d1, d_addr d2 with
  | A_op i, A_data b, A_status j =>
    if negb (Z.land (d_flags d0) VRING_DESC_F_NEXT =? 0) && negb (Z.land (d_flags d1) VRING_DESC_F_NEXT =? 0)
       && (d_len d0 =? 16) && (d_len d1 =? BSIZE) && negb (Z.land (d_flags d2) VRING_DESC_F_WRITE =? 0) then
      let blk := r_sector (v_ops s i) / (BSIZE / 512) in
      let s' := set_info (v_info_b s) (<[j := 0]> (v_status s)) s in
      if r_type (v_ops s i) =? VIRTIO_BLK_T_OUT then set_disk (fun k => if k =? blk then vb_data (v_bufs s b) else v_disk s k) s'
      else if negb (Z.land (d_flags d1) VRING_DESC_F_WRITE =? 0) then upd_buf b (set_vb_data (v_disk s blk)) s'
      else panicked s
    else panicked s
  | _, _, _ => panicked s
  end.
Definition dstep (ch : dchoice) (s : vstate) : option vstate :=
  match ch, v_dev s with
  | D_take, D_idle =>
    if v_dev_idx s =? v_avail_idx s then None
    else Some (set_dev D_idle (u16 (v_dev_idx s + 1)) (v_inflight s ++ [v_avail_ring s (slot (v_dev_idx s))]) s)
  | D_serve h, D_idle =>
    if bool_decide (h ∈ v_inflight s) then
      Some (set_dev (D_ring h) (v_dev_idx s) (filter (fun x => x <> h) (v_inflight s)) (transfer h s))
    else None
  | D_store, D_ring h => Some (set_dev (D_idx h) (v_dev_idx s) (v_inflight s) (set_used (<[slot (v_used_idx s) := h]> (v_used_ring s)) (v_used_idx s) s))
  | D_store, D_idx h => Some (set_dev D_idle (v_dev_idx s) (v_inflight s) (set_used (v_used_ring s) (u16 (v_used_idx s + 1)) s))
  | _, _ => None
  end.

Inductive vstep (s s' : vstate) : Prop :=
| vs_call t : vcall t s s' -> vstep s s'
| vs_thread t : tstep t s = Some s' -> vstep s s'
| vs_intr : istep s = Some s' -> vstep s s'
| vs_dev ch : dstep ch s = Some s' -> vstep s s'.

(** After [virtio_disk_init]. *)
Definition vboot (bufs : nat -> vbuf) (disk : Z -> list Z) : vstate :=
  VState (fun _ => VDesc A_null 0 0 0) (fun _ => 0%nat) 0 (fun _ => 0%nat) 0 (fun _ => true) 0 (fun _ => None) (fun _ => 0)
    (fun _ => VReq 0 0 0) bufs disk H_none (fun _ => V_idle) D_idle 0 [] false.
