(* ===== verification/VirtioProps.v ===== *)
(** * VirtioProps: the disk driver implements an atomic disk

    The invariant of the driver and the device: every descriptor is free or
    in the chain of one process, the heads of the chains are in one place of
    their way through the rings, and the state of a request can be read off
    its status and its buffer.  From it: nothing panics, every step is a step
    of an atomic disk or no step of it, a process returns only after its
    transfer, and the driver never deadlocks. *)

From stdpp Require Import functions.
From S2P Require Import Prelude.
From S2P Require Import Virtio.

(** ** What the program counter of a process means *)

Definition chain_of (pc : vpc) : option chain :=
  match pc with
  | V_format _ _ c | V_ring _ _ c | V_publish _ _ c | V_wait _ _ c | V_sleepb _ _ c | V_wake _ _ c | V_free _ _ c => Some c
  | _ => None
  end.
Definition descs (c : chain) : list nat := [c0 c; c1 c; c2 c].
Definition own (pc : vpc) (i : nat) : Prop := match chain_of pc with Some c => i ∈ descs c | None => False end.
Definition holds (pc : vpc) : bool :=
  match pc with
  | V_alloc _ _ | V_format _ _ _ | V_ring _ _ _ | V_publish _ _ _ | V_wait _ _ _ | V_free _ _ _ | V_rel _ _ => true
  | _ => false
  end.
Definition asleep (pc : vpc) : bool := match pc with V_sleepf _ _ => true | _ => false end.

(** Sleeping processes that were woken. *)
Definition woken (f f' : nat -> vpc) : Prop := forall t, f' t = f t \/
  (exists b w, f t = V_sleepf b w /\ f' t = V_start b w) \/ (exists b w c, f t = V_sleepb b w c /\ f' t = V_wake b w c).
Lemma woken_refl f : woken f f.
Proof. intros t. by left. Qed.
Lemma woken_trans f g h : woken f g -> woken g h -> woken f h.
Proof.
  intros H1 H2 t. destruct (H1 t) as [E1|[(b & w & E1 & E1')|(b & w & c & E1 & E1')]], (H2 t) as [E2|[(b2 & w2 & E2 & E2')|(b2 & w2 & c2 & E2 & E2')]];
    try (rewrite E1 in *; naive_solver); naive_solver congruence.
Qed.
Lemma woken_attr f f' t : woken f f' -> chain_of (f' t) = chain_of (f t) /\ active (f' t) = active (f t) /\ holds (f' t) = holds (f t).
Proof. intros H. destruct (H t) as [->|[(b & w & -> & ->)|(b & w & c & -> & ->)]]; done. Qed.

(** ** Allocating and freeing descriptors *)

(** The parts of the state that these operations leave alone. *)
Record same_rest (s s' : vstate) : Prop := {
  sr_avail : v_avail_ring s' = v_avail_ring s /\ v_avail_idx s' = v_avail_idx s;
  sr_used : v_used_ring s' = v_used_ring s /\ v_used_idx s' = v_used_idx s /\ v_seen s' = v_seen s;
  sr_info : v_info_b s' = v_info_b s /\ v_status s' = v_status s /\ v_ops s' = v_ops s;
  sr_bufs : v_bufs s' = v_bufs s /\ v_disk s' = v_disk s;
  sr_lock : v_lock s' = v_lock s;
  sr_dev : v_dev s' = v_dev s /\ v_dev_idx s' = v_dev_idx s /\ v_inflight s' = v_inflight s;
  sr_panic : v_panic s' = v_panic s }.
Lemma same_rest_refl s : same_rest s s.
Proof. by constructor. Qed.
Lemma same_rest_trans s1 s2 s3 : same_rest s1 s2 -> same_rest s2 s3 -> same_rest s1 s3.
Proof. intros [] []. constructor; intuition congruence. Qed.

Lemma free_desc_ok i s : (i < NUM)%nat -> v_free s i = false -> let s' := free_desc i s in
  same_rest s s' /\ v_free s' = <[i := true]> (v_free s) /\ (forall j, j <> i -> v_desc s' j = v_desc s j) /\
  woken (v_thr s) (v_thr s') /\ (forall t, asleep (v_thr s' t) = false).
Proof.
  intros Hi Hf. cbv zeta. unfold free_desc. rewrite (proj2 (Nat.leb_gt NUM i)), Hf by done. split_and!.
  - by constructor.
  - done.
  - intros j Hj. cbn. by rewrite fn_lookup_insert_ne.
  - intros t. cbn. destruct (v_thr s t); (by left) || (right; left; by eexists _, _).
  - intros t. cbn. by destruct (v_thr s t).
Qed.

(** Several distinct descriptors. *)
Lemma free_list_ok l : forall s, NoDup l -> Forall (fun i => (i < NUM)%nat /\ v_free s i = false) l ->
  let s' := foldl (fun s i => free_desc i s) s l in
  same_rest s s' /\ (forall i, v_free s' i = if bool_decide (i ∈ l) then true else v_free s i) /\
  (forall j, j ∉ l -> v_desc s' j = v_desc s j) /\ woken (v_thr s) (v_thr s') /\ (l <> [] -> forall t, asleep (v_thr s' t) = false).
Proof.
  induction l as [|i l IH]; intros s Hnd Hl; cbv zeta; cbn [foldl].
  - split_and!; [apply same_rest_refl|done|done|apply woken_refl|done].
  - apply NoDup_cons in Hnd as [Hi Hnd]. apply Forall_cons in Hl as [[Hi1 Hi2] Hl].
    destruct (free_desc_ok i s Hi1 Hi2) as (F1 & F2 & F3 & F4 & F5). set (s1 := free_desc i s) in *.
    destruct (IH s1 Hnd) as (G1 & G2 & G3 & G4 & G5).
    { rewrite Forall_forall in Hl |- *. intros j Hj. rewrite F2. rewrite fn_lookup_insert_ne by (by intros ->). by apply Hl. }
    split_and!.
    + by eapply same_rest_trans.
    + intros j. rewrite G2, F2. destruct (decide (j = i)) as [->|Hj].
      * rewrite fn_lookup_insert, (bool_decide_eq_true_2 (i ∈ i :: l)) by by left. by destruct (bool_decide _).
      * rewrite fn_lookup_insert_ne by done. rewrite (bool_decide_ext (j ∈ i :: l) (j ∈ l)); [done|]. rewrite elem_of_cons. naive_solver.
    + intros j Hj. apply not_elem_of_cons in Hj as [Hj1 Hj2]. rewrite G3, F3 by done. done.
    + by eapply woken_trans.
    + intros _ t. destruct l as [|i' l]; [apply F5|by apply G5].
Qed.

Lemma alloc_desc_some s i s' : alloc_desc s = Some (i, s') -> (i < NUM)%nat /\ v_free s i = true /\ s' = set_free (<[i := false]> (v_free s)) s.
Proof.
  unfold alloc_desc. destruct (List.find (v_free s) (seq 0 NUM)) as [j|] eqn:E; [|done]. intros [= <- <-].
  apply List.find_some in E as [H1 H2]. apply in_seq in H1. split_and!; [lia|done|done].
Qed.
Lemma alloc_desc_none s : alloc_desc s = None -> forall i, (i < NUM)%nat -> v_free s i = false.
Proof.
  unfold alloc_desc. destruct (List.find (v_free s) (seq 0 NUM)) as [j|] eqn:E; [done|]. intros _ i Hi.
  apply (List.find_none _ _ E). apply in_seq. lia.
Qed.

(** Fewer than three descriptors are free. *)
Definition few (f : nat -> bool) : Prop := exists l, (length l <= 2)%nat /\ forall i, (i < NUM)%nat -> f i = true -> i ∈ l.

Lemma alloc_loop_ok n : forall idx s s0 f, s = set_free f s0 -> NoDup idx -> Forall (fun i => (i < NUM)%nat /\ v_free s0 i = true) idx ->
  (forall i, f i = if bool_decide (i ∈ idx) then false else v_free s0 i) ->
  match alloc_loop n idx s with
  | (Some l, s') => length l = (length idx + n)%nat /\ NoDup l /\ Forall (fun i => (i < NUM)%nat /\ v_free s0 i = true) l /\
      exists g, s' = set_free g s0 /\ forall i, g i = if bool_decide (i ∈ l) then false else v_free s0 i
  | (None, s') => same_rest s0 s' /\ (forall i, v_free s' i = v_free s0 i) /\ (forall j, v_free s0 j = false -> v_desc s' j = v_desc s0 j) /\
      woken (v_thr s0) (v_thr s') /\ exists l, (length l < length idx + n)%nat /\ forall i, (i < NUM)%nat -> v_free s0 i = true -> i ∈ l
  end.
Proof.
  induction n as [|n IH]; intros idx s s0 f -> Hnd Hl Hf; cbn [alloc_loop].
  - split_and!; [lia|done|done|]. by exists f.
  - destruct (alloc_desc (set_free f s0)) as [[i s1]|] eqn:E.
    + apply alloc_desc_some in E as (E1 & E2 & ->). cbn in E2. assert (i ∉ idx /\ v_free s0 i = true) as [Hi Hi'].
      { rewrite Hf in E2. destruct (bool_decide_reflect (i ∈ idx)); [done|by split]. }
      specialize (IH (idx ++ [i]) (set_free (<[i := false]> f) s0) s0 (<[i := false]> f) eq_refl).
      rewrite length_app in IH. cbn [length] in IH. replace (length idx + 1 + n)%nat with (length idx + S n)%nat in IH by lia. apply IH.
      * apply NoDup_app. split_and!; [done| |apply NoDup_singleton]. intros j Hj ->%list_elem_of_singleton. done.
      * apply Forall_app. split; [done|]. by constructor.
      * intros j. destruct (decide (j = i)) as [->|Hj].
        -- rewrite fn_lookup_insert, bool_decide_eq_true_2; [done|]. apply elem_of_app. right. by left.
        -- rewrite fn_lookup_insert_ne, Hf by done. rewrite (bool_decide_ext (j ∈ idx ++ [i]) (j ∈ idx)); [done|].
           rewrite elem_of_app, list_elem_of_singleton. naive_solver.
    + pose proof (alloc_desc_none _ E) as Hnone. cbn in Hnone.
      destruct (free_list_ok idx (set_free f s0) Hnd) as (F1 & F2 & F3 & F4 & F5).
      { rewrite Forall_forall in Hl |- *. intros j Hj. split; [by apply Hl|]. by apply Hnone, Hl. }
      set (s' := foldl _ _ _) in *. split_and!.
      * destruct F1. by constructor.
      * intros i. rewrite F2. cbn. rewrite Hf. destruct (bool_decide_reflect (i ∈ idx)) as [Hi|]; [|done].
        rewrite Forall_forall in Hl. symmetry. by apply Hl.
      * intros j Hj. rewrite F3; [done|]. intros Hin. rewrite Forall_forall in Hl. destruct (Hl j Hin). congruence.
      * done.
      * exists idx. split; [lia|]. intros i Hi Hfi. specialize (Hnone i Hi). rewrite Hf in Hnone.
        destruct (bool_decide_reflect (i ∈ idx)); [done|congruence].
Qed.

(** [alloc3_desc] takes three free descriptors or leaves things as they are
    and wakes sleepers. *)
Lemma alloc3_ok s :
  match alloc3_desc s with
  | (Some l, s') => exists i j k g, l = [i; j; k] /\ NoDup [i; j; k] /\ Forall (fun i => (i < NUM)%nat /\ v_free s i = true) [i; j; k] /\
      s' = set_free g s /\ forall x, g x = if bool_decide (x ∈ [i; j; k]) then false else v_free s x
  | (None, s') => same_rest s s' /\ (forall i, v_free s' i = v_free s i) /\ (forall j, v_free s j = false -> v_desc s' j = v_desc s j) /\
      woken (v_thr s) (v_thr s') /\ few (v_free s)
  end.
Proof.
  unfold alloc3_desc. pose proof (alloc_loop_ok 3 [] s s (v_free s)) as H.
  specialize (H ltac:(by destruct s) (NoDup_nil_2) (Forall_nil_2 _) ltac:(done)).
  destruct (alloc_loop 3 [] s) as [[l|] s'].
  - destruct H as (H1 & H2 & H3 & g & H4 & H5). destruct l as [|i [|j [|k [|]]]]; try done. exists i, j, k, g. done.
  - destruct H as (H1 & H2 & H3 & H4 & l & H5 & H6). split_and!; try done. exists l. split; [cbn in H5; lia|done].
Qed.

(** *** The chain of a request *)

Record formatted (s : vstate) (b : nat) (w : bool) (c : chain) : Prop := {
  fm_0 : v_desc s (c0 c) = VDesc (A_op (c0 c)) 16 VRING_DESC_F_NEXT (c1 c);
  fm_1 : v_desc s (c1 c) = VDesc (A_data b) BSIZE (Z.lor (if w then 0 else VRING_DESC_F_WRITE) VRING_DESC_F_NEXT) (c2 c);
  fm_2 : v_desc s (c2 c) = VDesc (A_status (c0 c)) 1 VRING_DESC_F_WRITE 0;
  fm_op : v_ops s (c0 c) = VReq (if w then VIRTIO_BLK_T_OUT else VIRTIO_BLK_T_IN) 0 (u32 (vb_blockno (v_bufs s b) * (BSIZE / 512)));
  fm_b : v_info_b s (c0 c) = Some b }.

Lemma free_chain_ok s c b w : formatted s b w c -> NoDup (descs c) -> Forall (fun i => (i < NUM)%nat /\ v_free s i = false) (descs c) -> forall f,
  let s1 := set_info f (v_status s) s in let s' := free_chain NUM (c0 c) s1 in
  same_rest s1 s' /\ (forall i, v_free s' i = if bool_decide (i ∈ descs c) then true else v_free s i) /\
  (forall j, j ∉ descs c -> v_desc s' j = v_desc s j) /\ woken (v_thr s) (v_thr s') /\ (forall t, asleep (v_thr s' t) = false).
Proof.
  intros [F0 F1 F2 _ _] Hnd Hl f. cbv zeta. set (s1 := set_info f (v_status s) s).
  assert (free_chain NUM (c0 c) s1 = foldl (fun s i => free_desc i s) s1 (descs c)) as ->.
  { unfold descs in Hnd. apply NoDup_cons in Hnd as [N0 [N1 _]%NoDup_cons].
    assert (c1 c <> c0 c /\ c2 c <> c0 c /\ c2 c <> c1 c) as (M1 & M2 & M3) by set_solver.
    unfold descs in Hl. repeat (apply Forall_cons in Hl as [? Hl]). destruct H as [L0 G0], H0 as [L1 G1], H1 as [L2 G2].
    destruct (free_desc_ok (c0 c) s1 L0 G0) as (_ & A1 & A2 & _). cbn [foldl descs].
    change (free_chain NUM (c0 c) s1) with (if negb (Z.land (d_flags (v_desc s (c0 c))) VRING_DESC_F_NEXT =? 0)
      then free_chain 7 (d_next (v_desc s (c0 c))) (free_desc (c0 c) s1) else free_desc (c0 c) s1).
    rewrite F0. cbn [d_flags d_next]. change (negb (Z.land VRING_DESC_F_NEXT VRING_DESC_F_NEXT =? 0)) with true. cbn iota.
    set (s2 := free_desc (c0 c) s1) in *. change (free_chain 7 (c1 c) s2) with (if negb (Z.land (d_flags (v_desc s2 (c1 c))) VRING_DESC_F_NEXT =? 0)
      then free_chain 6 (d_next (v_desc s2 (c1 c))) (free_desc (c1 c) s2) else free_desc (c1 c) s2).
    rewrite (A2 (c1 c) M1). change (v_desc s1) with (v_desc s). rewrite F1. cbn [d_flags d_next].
    assert (negb (Z.land (Z.lor (if w then 0 else VRING_DESC_F_WRITE) VRING_DESC_F_NEXT) VRING_DESC_F_NEXT =? 0) = true) as -> by by destruct w.
    destruct (free_desc_ok (c1 c) s2 L1) as (_ & _ & B2 & _).
    { rewrite A1, fn_lookup_insert_ne; [done|]. intros E. by apply M1. }
    set (s3 := free_desc (c1 c) s2) in *. change (free_chain 6 (c2 c) s3) with (if negb (Z.land (d_flags (v_desc s3 (c2 c))) VRING_DESC_F_NEXT =? 0)
      then free_chain 5 (d_next (v_desc s3 (c2 c))) (free_desc (c2 c) s3) else free_desc (c2 c) s3).
    rewrite (B2 (c2 c) M3), (A2 (c2 c) M2). change (v_desc s1) with (v_desc s). by rewrite F2. }
  destruct (free_list_ok (descs c) s1 Hnd Hl) as (G1 & G2 & G3 & G4 & G5). split_and!; [done|done|done|done|by apply G5].
Qed.

(** ** The invariant *)

(** Who holds the lock, owns descriptors and uses buffers. *)
Record tinv (thr : nat -> vpc) (lock : holder) (free : nat -> bool) (blk : nat -> Z) : Prop := {
  ti_lock : forall t, holds (thr t) = true <-> lock = H_thread t;
  ti_own : forall t c, chain_of (thr t) = Some c -> NoDup (descs c) /\ Forall (fun i => (i < NUM)%nat /\ free i = false) (descs c);
  ti_apart : forall t t' c c' i, chain_of (thr t) = Some c -> chain_of (thr t') = Some c' -> i ∈ descs c -> i ∈ descs c' -> t = t';
  ti_used : forall i, (i < NUM)%nat -> free i = false -> exists t c, chain_of (thr t) = Some c /\ i ∈ descs c;
  ti_sleep : forall t, asleep (thr t) = true -> few free;
  ti_buf : forall t t' b, active (thr t) = Some b -> active (thr t') = Some b -> t = t';
  ti_blk : forall t b, active (thr t) = Some b -> 0 <= blk b < 2 ^ 31;
  ti_blocks : forall t t' b b', active (thr t) = Some b -> active (thr t') = Some b' -> blk b = blk b' -> b = b' }.

Lemma tinv_put thr lock free blk t pc lock' : tinv thr lock free blk -> chain_of pc = chain_of (thr t) -> active pc = active (thr t) ->
  (asleep pc = true -> few free) -> (holds pc = true <-> lock' = H_thread t) -> (forall t', t' <> t -> lock' = H_thread t' <-> lock = H_thread t') ->
  tinv (<[t := pc]> thr) lock' free blk.
Proof.
  intros [T1 T2 T3 T4 T5 T6 T7 T8] Hc Ha Hs Hl Hl'.
  assert (forall t', chain_of (<[t := pc]> thr t') = chain_of (thr t') /\ active (<[t := pc]> thr t') = active (thr t')) as Hat.
  { intros t'. destruct (decide (t' = t)) as [->|Hne]; [by rewrite fn_lookup_insert|by rewrite fn_lookup_insert_ne]. }
  constructor.
  - intros t'. destruct (decide (t' = t)) as [->|Hne]; [by rewrite fn_lookup_insert|]. rewrite fn_lookup_insert_ne, Hl' by done. apply T1.
  - intros t' c. rewrite (proj1 (Hat t')). apply T2.
  - intros t1 t2 c c' i. rewrite (proj1 (Hat t1)), (proj1 (Hat t2)). apply T3.
  - intros i H1 H2. destruct (T4 i H1 H2) as (t' & c & E & Hi). exists t', c. by rewrite (proj1 (Hat t')).
  - intros t'. destruct (decide (t' = t)) as [->|Hne]; [rewrite fn_lookup_insert; done|]. rewrite fn_lookup_insert_ne by done. apply T5.
  - intros t1 t2 b. rewrite (proj2 (Hat t1)), (proj2 (Hat t2)). apply T6.
  - intros t' b. rewrite (proj2 (Hat t')). apply T7.
  - intros t1 t2 b b'. rewrite (proj2 (Hat t1)), (proj2 (Hat t2)). apply T8.
Qed.
Lemma tinv_woken thr thr' lock free blk : woken thr thr' -> tinv thr lock free blk -> tinv thr' lock free blk.
Proof.
  intros Hw [T1 T2 T3 T4 T5 T6 T7 T8]. constructor.
  - intros t. rewrite (proj2 (proj2 (woken_attr _ _ t Hw))). apply T1.
  - intros t c. rewrite (proj1 (woken_attr _ _ t Hw)). apply T2.
  - intros t1 t2 c c' i. rewrite (proj1 (woken_attr _ _ t1 Hw)), (proj1 (woken_attr _ _ t2 Hw)). apply T3.
  - intros i H1 H2. destruct (T4 i H1 H2) as (t & c & E & Hi). exists t, c. by rewrite (proj1 (woken_attr _ _ t Hw)).
  - intros t H. destruct (Hw t) as [E|[(b & w & E & E')|(b & w & c & E & E')]]; [|by rewrite E' in H|by rewrite E' in H]. rewrite E in H. by apply (T5 t).
  - intros t1 t2 b. rewrite (proj1 (proj2 (woken_attr _ _ t1 Hw))), (proj1 (proj2 (woken_attr _ _ t2 Hw))). apply T6.
  - intros t b. rewrite (proj1 (proj2 (woken_attr _ _ t Hw))). apply T7.
  - intros t1 t2 b b'. rewrite (proj1 (proj2 (woken_attr _ _ t1 Hw))), (proj1 (proj2 (woken_attr _ _ t2 Hw))). apply T8.
Qed.
Lemma tinv_ext thr lock free free' blk blk' : (forall i, free' i = free i) -> (forall t b, active (thr t) = Some b -> blk' b = blk b) ->
  tinv thr lock free blk -> tinv thr lock free' blk'.
Proof.
  intros Hf Hb [T1 T2 T3 T4 T5 T6 T7 T8]. constructor; try done.
  - intros t c E. destruct (T2 t c E) as [H1 H2]. split; [done|]. rewrite Forall_forall in H2 |- *. intros i Hi. rewrite Hf. by apply H2.
  - intros i H1 H2. rewrite Hf in H2. by apply T4.
  - intros t H. destruct (T5 t H) as (l & L1 & L2). exists l. split; [done|]. intros i H1 H2. rewrite Hf in H2. by apply L2.
  - intros t b H. rewrite (Hb t b H). by apply (T7 t).
  - intros t1 t2 b b' H1 H2. rewrite (Hb t1 b H1), (Hb t2 b' H2). by apply (T8 t1 t2).
Qed.

(** Where the head [c0 c] of a request that was handed to the device is:
    [Q] are the heads that wait for the device, [R] those it has served. *)
Definition waiting (s : vstate) (Q R : list nat) (b : nat) (c : chain) : Prop :=
  (c0 c ∈ Q /\ v_status s (c0 c) = 255 /\ vb_disk (v_bufs s b) = true) \/
  (c0 c ∈ R /\ v_status s (c0 c) = 0 /\ vb_disk (v_bufs s b) = true) \/
  (c0 c ∉ Q /\ c0 c ∉ R /\ v_status s (c0 c) = 0 /\ vb_disk (v_bufs s b) = false).
Definition phase (s : vstate) (Q R : list nat) (pc : vpc) : Prop :=
  match pc with
  | V_ring b w c => formatted s b w c /\ v_status s (c0 c) = 255 /\ vb_disk (v_bufs s b) = true
  | V_publish b w c => formatted s b w c /\ v_status s (c0 c) = 255 /\ vb_disk (v_bufs s b) = true /\ v_avail_ring s (slot (v_avail_idx s)) = c0 c
  | V_wait b w c | V_wake b w c => formatted s b w c /\ waiting s Q R b c
  | V_sleepb b w c => formatted s b w c /\ waiting s Q R b c /\ vb_disk (v_bufs s b) = true
  | V_free b w c => formatted s b w c /\ v_status s (c0 c) = 0
  | _ => True
  end.
(** The request of [pc] is with the device. *)
Definition handed (pc : vpc) : option chain :=
  match pc with V_wait _ _ c | V_sleepb _ _ c | V_wake _ _ c => Some c | _ => None end.

Definition seg (ring : nat -> nat) (from : Z) (l : list nat) : Prop := forall k x, l !! k = Some x -> ring (slot (from + Z.of_nat k)) = x.
Definition dev_heads (d : dpc) : list nat := match d with D_idle => [] | D_ring h | D_idx h => [h] end.

(** [pend] and [usedq] are the contents of the two rings. *)
Record vinv (s : vstate) (pend usedq : list nat) : Prop := {
  vi_panic : v_panic s = false;
  vi_thr : tinv (v_thr s) (v_lock s) (v_free s) (fun b => vb_blockno (v_bufs s b));
  vi_phase : forall t, phase s (pend ++ v_inflight s) (dev_heads (v_dev s) ++ usedq) (v_thr s t);
  vi_heads : forall h, h ∈ pend ++ v_inflight s ++ dev_heads (v_dev s) ++ usedq -> exists t c, handed (v_thr s t) = Some c /\ h = c0 c;
  vi_nodup : NoDup (pend ++ v_inflight s ++ dev_heads (v_dev s) ++ usedq);
  vi_avail : 0 <= v_dev_idx s < 2 ^ 16 /\ v_avail_idx s = u16 (v_dev_idx s + Z.of_nat (length pend)) /\ seg (v_avail_ring s) (v_dev_idx s) pend;
  vi_usedr : 0 <= v_seen s < 2 ^ 16 /\ v_used_idx s = u16 (v_seen s + Z.of_nat (length usedq)) /\ seg (v_used_ring s) (v_seen s) usedq;
  vi_idx : forall h, v_dev s = D_idx h -> v_used_ring s (slot (v_used_idx s)) = h }.

(** The parts of the state that the phase of a process depends on. *)
Lemma phase_frame s s' Q R Q' R' pc b : active pc = Some b ->
  (forall c i, chain_of pc = Some c -> i ∈ descs c -> v_desc s' i = v_desc s i) ->
  (forall c, chain_of pc = Some c -> v_ops s' (c0 c) = v_ops s (c0 c) /\ v_info_b s' (c0 c) = v_info_b s (c0 c) /\ v_status s' (c0 c) = v_status s (c0 c)) ->
  vb_blockno (v_bufs s' b) = vb_blockno (v_bufs s b) -> vb_disk (v_bufs s' b) = vb_disk (v_bufs s b) ->
  (forall c, handed pc = Some c -> (c0 c ∈ Q' <-> c0 c ∈ Q) /\ (c0 c ∈ R' <-> c0 c ∈ R)) ->
  (forall b w c, pc = V_publish b w c -> v_avail_ring s' (slot (v_avail_idx s')) = v_avail_ring s (slot (v_avail_idx s))) ->
  phase s Q R pc -> phase s' Q' R' pc.
Proof.
  intros Ha Hd Ho Hb Hk HQ Hr.
  assert (forall b' w c, active pc = Some b' -> chain_of pc = Some c -> formatted s b' w c -> formatted s' b' w c) as Hfm.
  { intros b' w c Ha' Hc [F0 F1 F2 F3 F4]. rewrite Ha in Ha'. injection Ha' as <-. destruct (Ho c Hc) as (O1 & O2 & O3).
    constructor; [rewrite (Hd c)|rewrite (Hd c)|rewrite (Hd c)|rewrite O1, Hb|rewrite O2]; try done; unfold descs; set_solver. }
  assert (forall b' c, active pc = Some b' -> chain_of pc = Some c -> handed pc = Some c -> waiting s Q R b' c -> waiting s' Q' R' b' c) as Hw.
  { intros b' c Ha' Hc Hh. rewrite Ha in Ha'. injection Ha' as <-. destruct (Ho c Hc) as (_ & _ & O3). destruct (HQ c Hh) as [Q1 Q2].
    unfold waiting. rewrite O3, Hk, Q1, Q2. done. }
  destruct pc; cbn [phase]; try done; injection Ha as ->; try (destruct (Ho _ eq_refl) as (_ & _ & O3)); rewrite ?O3, ?Hk.
  - intros [H1 H2]. split; [by apply Hfm|done].
  - intros [H1 H2]. split; [by apply Hfm|]. by rewrite (Hr _ _ _ eq_refl).
  - intros [H1 H2]. split; [by apply Hfm|by apply Hw].
  - intros (H1 & H2 & H3). split_and!; [by apply Hfm|by apply Hw|done].
  - intros [H1 H2]. split; [by apply Hfm|by apply Hw].
  - intros [H1 H2]. split; [by apply Hfm|done].
Qed.
Lemma phase_idle s Q R pc : active pc = None -> phase s Q R pc.
Proof. by destruct pc. Qed.
Lemma phase_woken s Q R pc pc' : pc' = pc \/ (exists b w, pc = V_sleepf b w /\ pc' = V_start b w) \/ (exists b w c, pc = V_sleepb b w c /\ pc' = V_wake b w c) ->
  phase s Q R pc -> phase s Q R pc'.
Proof. intros [->|[(b & w & -> & ->)|(b & w & c & -> & ->)]]; cbn; tauto. Qed.

(** ** Consequences *)

Lemma handed_chain pc c : handed pc = Some c -> chain_of pc = Some c.
Proof. by destruct pc. Qed.
Lemma nodup_bound (l : list nat) n : NoDup l -> Forall (fun i => i < n)%nat l -> (length l <= n)%nat.
Proof.
  intros H1%NoDup_ListNoDup H2. rewrite <- (length_seq n 0). apply NoDup_incl_length; [done|]. intros i Hi. apply in_seq.
  rewrite Forall_forall in H2. apply list_elem_of_In, H2 in Hi. lia.
Qed.

Section inv.
Context (s : vstate) (pend usedq : list nat).
Hypothesis (HI : vinv s pend usedq).
Abbreviation heads := (pend ++ v_inflight s ++ dev_heads (v_dev s) ++ usedq).
Abbreviation Q := (pend ++ v_inflight s).
Abbreviation R := (dev_heads (v_dev s) ++ usedq).

Lemma head_bound : Forall (fun i => i < NUM)%nat heads.
Proof.
  apply Forall_forall. intros h Hh. destruct (vi_heads _ _ _ HI h Hh) as (t & c & E & ->).
  destruct (ti_own _ _ _ _ (vi_thr _ _ _ HI) t c (handed_chain _ _ E)) as [_ H]. by apply Forall_cons in H as [[H _] _].
Qed.
(** The head of a chain that is not with the device is in no ring. *)
Lemma not_head t c : chain_of (v_thr s t) = Some c -> handed (v_thr s t) = None -> c0 c ∉ heads.
Proof.
  intros Hc Hh Hin. destruct (vi_heads _ _ _ HI _ Hin) as (t' & c' & E & Ec).
  assert (t = t') as <-; [|congruence]. apply (ti_apart _ _ _ _ (vi_thr _ _ _ HI) t t' c c' (c0 c) Hc (handed_chain _ _ E)); unfold descs; [by left|rewrite Ec; by left].
Qed.
Lemma head_room t c : chain_of (v_thr s t) = Some c -> handed (v_thr s t) = None -> (length heads < NUM)%nat.
Proof.
  intros Hc Hh. pose proof (not_head t c Hc Hh) as Hn. destruct (ti_own _ _ _ _ (vi_thr _ _ _ HI) t c Hc) as [_ H]. apply Forall_cons in H as [[H _] _].
  assert (length (c0 c :: heads) <= NUM)%nat; [|cbn in *; lia].
  apply nodup_bound; [apply NoDup_cons; split; [done|apply HI]|]. constructor; [done|apply head_bound].
Qed.
Lemma heads_QR h : h ∈ heads <-> h ∈ Q \/ h ∈ R.
Proof. rewrite !elem_of_app. tauto. Qed.
Lemma Q_not_R h : h ∈ Q -> h ∉ R.
Proof.
  pose proof (vi_nodup _ _ _ HI) as H. rewrite (app_assoc pend) in H. apply NoDup_app in H as (_ & H & _). apply H.
Qed.

(** The chains of different processes are apart. *)
Lemma other_chain t t' c c' i : t <> t' -> chain_of (v_thr s t) = Some c -> chain_of (v_thr s t') = Some c' -> i ∈ descs c -> i ∉ descs c'.
Proof. intros Hne H1 H2 Hi Hi'. by apply Hne, (ti_apart _ _ _ _ (vi_thr _ _ _ HI) t t' c c' i). Qed.

(** A step that moves processes on and touches nothing that is shared. *)
Lemma vinv_move s' : v_panic s' = false -> v_avail_ring s' = v_avail_ring s -> v_avail_idx s' = v_avail_idx s -> v_used_ring s' = v_used_ring s ->
  v_used_idx s' = v_used_idx s -> v_seen s' = v_seen s -> v_dev s' = v_dev s -> v_dev_idx s' = v_dev_idx s -> v_inflight s' = v_inflight s ->
  tinv (v_thr s') (v_lock s') (v_free s') (fun b => vb_blockno (v_bufs s' b)) -> (forall t, phase s' Q R (v_thr s' t)) ->
  (forall t c, handed (v_thr s t) = Some c -> c0 c ∈ heads -> handed (v_thr s' t) = Some c) -> vinv s' pend usedq.
Proof.
  intros E0 E1 E2 E3 E4 E5 E6 E7 E8 Ht Hp Hh. constructor; rewrite ?E1, ?E2, ?E3, ?E4, ?E5, ?E6, ?E7, ?E8; try apply HI; try done.
  intros h Hin. destruct (vi_heads _ _ _ HI h Hin) as (t & c & E & ->). exists t, c. split; [|done]. by apply Hh.
Qed.
End inv.

Lemma phase_same s s' Q R pc : v_desc s' = v_desc s -> v_ops s' = v_ops s -> v_info_b s' = v_info_b s -> v_status s' = v_status s -> v_bufs s' = v_bufs s ->
  v_avail_ring s' = v_avail_ring s -> v_avail_idx s' = v_avail_idx s -> phase s Q R pc -> phase s' Q R pc.
Proof.
  intros E1 E2 E3 E4 E5 E6 E7 H. destruct (active pc) as [b|] eqn:Ea; [|by apply phase_idle].
  apply (phase_frame s s' Q R Q R pc b Ea); try done; try (by intros; rewrite ?E1, ?E2, ?E3, ?E4, ?E5, ?E6, ?E7).
Qed.

(** Process [t] goes on as [pc]. *)
Lemma put_phase s s' Q R t pc : v_thr s' = <[t := pc]> (v_thr s) -> phase s' Q R pc -> (forall t', t' <> t -> phase s' Q R (v_thr s t')) ->
  forall t', phase s' Q R (v_thr s' t').
Proof. intros -> H1 H2 t'. destruct (decide (t' = t)) as [->|Hne]; [by rewrite fn_lookup_insert|]. rewrite fn_lookup_insert_ne by done. by apply H2. Qed.

Lemma put_handed (thr : nat -> vpc) t pc (P : chain -> Prop) : (forall c, handed (thr t) = Some c -> P c -> handed pc = Some c) ->
  forall t' c, handed (thr t') = Some c -> P c -> handed (<[t := pc]> thr t') = Some c.
Proof. intros H t' c E Hc. destruct (decide (t' = t)) as [->|Hne]; [rewrite fn_lookup_insert; by apply H|by rewrite fn_lookup_insert_ne]. Qed.

Lemma lock_take t : forall t', t' <> t -> H_thread t = H_thread t' <-> H_none = H_thread t'.
Proof. intros t' Hne. split; [intros [= ->]; done|done]. Qed.
Lemma lock_drop lock t : lock = H_thread t -> forall t', t' <> t -> H_none = H_thread t' <-> lock = H_thread t'.
Proof. intros -> t' Hne. split; [done|intros [= ->]; done]. Qed.

(** *** Steps of processes *)

Lemma step_call s p u t s' : vinv s p u -> vcall t s s' -> vinv s' p u.
Proof.
  intros HI [b w blockno data Hidle Hex Hblk]. pose proof (vi_thr _ _ _ HI) as HT.
  assert (forall t', active (v_thr s t') <> Some b) as Hnb by (intros t' E; by destruct (Hex t' b E)).
  apply (vinv_move s p u HI); try done; try apply HI.
  - cbn. destruct HT as [T1 T2 T3 T4 T5 T6 T7 T8].
    assert (forall t', chain_of (<[t := V_start b w]> (v_thr s) t') = chain_of (v_thr s t') /\ holds (<[t := V_start b w]> (v_thr s) t') = holds (v_thr s t') /\
      asleep (<[t := V_start b w]> (v_thr s) t') = asleep (v_thr s t')) as Hat.
    { intros t'. destruct (decide (t' = t)) as [->|Hne]; [by rewrite fn_lookup_insert, Hidle|by rewrite fn_lookup_insert_ne]. }
    assert (forall t' b', active (<[t := V_start b w]> (v_thr s) t') = Some b' -> t' = t /\ b' = b \/ t' <> t /\ active (v_thr s t') = Some b' /\ b' <> b /\ vb_blockno (v_bufs s b') <> blockno) as Hac.
    { intros t' b'. destruct (decide (t' = t)) as [->|Hne]; [rewrite fn_lookup_insert; cbn; intros [= <-]; by left|]. rewrite fn_lookup_insert_ne by done.
      intros E. right. destruct (Hex t' b' E). done. }
    constructor.
    + intros t'. rewrite (proj1 (proj2 (Hat t'))). apply T1.
    + intros t' c. rewrite (proj1 (Hat t')). apply T2.
    + intros t1 t2 c c' i. rewrite (proj1 (Hat t1)), (proj1 (Hat t2)). apply T3.
    + intros i H1 H2. destruct (T4 i H1 H2) as (t' & c & E & Hi). exists t', c. by rewrite (proj1 (Hat t')).
    + intros t'. rewrite (proj2 (proj2 (Hat t'))). apply T5.
    + intros t1 t2 b' [[-> ->]|(N1 & A1 & B1 & _)]%Hac [[-> E]|(N2 & A2 & B2 & _)]%Hac; try done. by apply (T6 t1 t2 b').
    + intros t' b' [[-> ->]|(N1 & A1 & B1 & _)]%Hac; [by rewrite fn_lookup_insert|]. rewrite fn_lookup_insert_ne by done. by apply (T7 t').
    + intros t1 t2 b1 b2 [[-> ->]|(N1 & A1 & B1 & C1)]%Hac [[-> E]|(N2 & A2 & B2 & C2)]%Hac; try (rewrite E); try done.
      * rewrite fn_lookup_insert, fn_lookup_insert_ne by done. cbn. congruence.
      * rewrite fn_lookup_insert, fn_lookup_insert_ne by done. cbn. congruence.
      * rewrite !fn_lookup_insert_ne by done. by apply (T8 t1 t2).
  - apply (put_phase s _ _ _ t (V_start b w)); [done|done|]. intros t' Hne. destruct (active (v_thr s t')) as [b'|] eqn:Ea; [|by apply phase_idle].
    destruct (Hex t' b' Ea) as [Hb' _]. apply (phase_frame s _ (p ++ v_inflight s) (dev_heads (v_dev s) ++ u) _ _ _ b' Ea); try done; try (cbn; by rewrite fn_lookup_insert_ne). apply HI.
  - apply (put_handed (v_thr s) t _ (fun c => c0 c ∈ _)). by rewrite Hidle.
Qed.

(** A process moves on, perhaps taking or dropping the lock. *)
Lemma step_move s p u t pc lock' : vinv s p u -> chain_of pc = chain_of (v_thr s t) -> active pc = active (v_thr s t) ->
  (asleep pc = true -> few (v_free s)) -> (holds pc = true <-> lock' = H_thread t) -> (forall t', t' <> t -> lock' = H_thread t' <-> v_lock s = H_thread t') ->
  phase s (p ++ v_inflight s) (dev_heads (v_dev s) ++ u) pc ->
  (forall c, handed (v_thr s t) = Some c -> c0 c ∈ p ++ v_inflight s ++ dev_heads (v_dev s) ++ u -> handed pc = Some c) ->
  vinv (put_thr t pc (set_lock lock' s)) p u.
Proof.
  intros HI Hc Ha Hs Hl Hl' Hp Hh. apply (vinv_move s p u HI); try done; try apply HI.
  - apply (tinv_put (v_thr s) (v_lock s)); try done. apply HI.
  - apply (put_phase s _ _ _ t pc); [done| |].
    + by apply (phase_same s).
    + intros t' _. apply (phase_same s); try done. apply HI.
  - by apply (put_handed (v_thr s) t _ (fun c => c0 c ∈ _)).
Qed.

Lemma lock_held s p u t : vinv s p u -> holds (v_thr s t) = true -> v_lock s = H_thread t.
Proof. intros HI. apply (ti_lock _ _ _ _ (vi_thr _ _ _ HI)). Qed.
Lemma step_hold s p u t pc : vinv s p u -> holds (v_thr s t) = true -> holds pc = true -> chain_of pc = chain_of (v_thr s t) -> active pc = active (v_thr s t) ->
  phase s (p ++ v_inflight s) (dev_heads (v_dev s) ++ u) pc ->
  (forall c, handed (v_thr s t) = Some c -> c0 c ∈ p ++ v_inflight s ++ dev_heads (v_dev s) ++ u -> handed pc = Some c) ->
  vinv (put_thr t pc s) p u.
Proof.
  intros HI H1 H2 Hc Ha Hp Hh. pose proof (lock_held s p u t HI H1) as El.
  replace s with (set_lock (v_lock s) s) by by destruct s. rewrite El at 1. apply step_move; try done.
  - intros Hs. by destruct pc.
  - intros t' _. by rewrite El.
Qed.

Lemma step_start s p u t b w : vinv s p u -> v_thr s t = V_start b w -> v_lock s = H_none -> vinv (put_thr t (V_alloc b w) (set_lock (H_thread t) s)) p u.
Proof. intros HI E El. apply step_move; rewrite ?E; try done. rewrite El. apply lock_take. Qed.
Lemma step_wake s p u t b w c : vinv s p u -> v_thr s t = V_wake b w c -> v_lock s = H_none -> vinv (put_thr t (V_wait b w c) (set_lock (H_thread t) s)) p u.
Proof.
  intros HI E El. apply step_move; rewrite ?E; try done; [rewrite El; apply lock_take|]. pose proof (vi_phase _ _ _ HI t) as H. by rewrite E in H.
Qed.
Lemma step_wait s p u t b w c : vinv s p u -> v_thr s t = V_wait b w c ->
  vinv (if vb_disk (v_bufs s b) then put_thr t (V_sleepb b w c) (set_lock H_none s) else put_thr t (V_free b w c) s) p u.
Proof.
  intros HI E. pose proof (vi_phase _ _ _ HI t) as H. rewrite E in H. destruct H as [Hf Hw]. destruct (vb_disk (v_bufs s b)) eqn:Ed.
  - apply step_move; rewrite ?E; try done. apply (lock_drop _ t), (lock_held s p u); [done|by rewrite E].
  - destruct Hw as [(_ & _ & ?)|[(_ & _ & ?)|(W1 & W2 & W3 & _)]]; [congruence|congruence|].
    apply step_hold; rewrite ?E; try done. intros c' [= <-] [Hin|Hin]%heads_QR; done.
Qed.
Lemma step_rel s p u t b w : vinv s p u -> v_thr s t = V_rel b w -> vinv (put_thr t V_idle (set_lock H_none s)) p u.
Proof.
  intros HI E. pose proof (lock_held s p u t HI ltac:(by rewrite E)) as El. apply (vinv_move s p u HI); try done; try apply HI.
  - destruct (vi_thr _ _ _ HI) as [T1 T2 T3 T4 T5 T6 T7 T8]. cbn.
    assert (forall t', chain_of (<[t := V_idle]> (v_thr s) t') = chain_of (v_thr s t') /\ asleep (<[t := V_idle]> (v_thr s) t') = asleep (v_thr s t') /\
      forall b', active (<[t := V_idle]> (v_thr s) t') = Some b' -> active (v_thr s t') = Some b') as Hat.
    { intros t'. destruct (decide (t' = t)) as [->|Hne]; [by rewrite fn_lookup_insert, E|by rewrite fn_lookup_insert_ne]. }
    constructor.
    + intros t'. destruct (decide (t' = t)) as [->|Hne]; [by rewrite fn_lookup_insert|]. rewrite fn_lookup_insert_ne by done.
      rewrite T1. symmetry. by apply (lock_drop _ t).
    + intros t' c. rewrite (proj1 (Hat t')). apply T2.
    + intros t1 t2 c c' i. rewrite (proj1 (Hat t1)), (proj1 (Hat t2)). apply T3.
    + intros i H1 H2. destruct (T4 i H1 H2) as (t' & c & Ec & Hi). exists t', c. by rewrite (proj1 (Hat t')).
    + intros t'. rewrite (proj1 (proj2 (Hat t'))). apply T5.
    + intros t1 t2 b' H1%Hat H2%Hat. by apply (T6 t1 t2 b').
    + intros t' b' H1%Hat. by apply (T7 t').
    + intros t1 t2 b1 b2 H1%Hat H2%Hat. by apply (T8 t1 t2).
  - apply (put_phase s _ _ _ t V_idle); [done|done|]. intros t' _. apply (phase_same s); try done. apply HI.
  - apply (put_handed (v_thr s) t _ (fun c => c0 c ∈ _)). by rewrite E.
Qed.

(** *** Descriptors change hands *)

Lemma tinv_alloc thr lock free blk t b w c g : tinv thr lock free blk -> thr t = V_alloc b w -> NoDup (descs c) ->
  Forall (fun i => (i < NUM)%nat /\ free i = true) (descs c) -> (forall x, g x = if bool_decide (x ∈ descs c) then false else free x) ->
  tinv (<[t := V_format b w c]> thr) lock g blk.
Proof.
  intros [T1 T2 T3 T4 T5 T6 T7 T8] E Hnd Hc Hg. rewrite Forall_forall in Hc.
  assert (forall t', t' <> t -> <[t := V_format b w c]> thr t' = thr t') as Hne by (intros t' H; by rewrite fn_lookup_insert_ne).
  assert (<[t := V_format b w c]> thr t = V_format b w c) as Heq by by rewrite fn_lookup_insert.
  assert (forall t' c' i, chain_of (thr t') = Some c' -> i ∈ descs c' -> i ∉ descs c) as Hap.
  { intros t' c' i E' Hi Hi'. destruct (T2 t' c' E') as [_ H]. rewrite Forall_forall in H. destruct (H i Hi), (Hc i Hi'). congruence. }
  assert (forall t' b', active (<[t := V_format b w c]> thr t') = Some b' -> active (thr t') = Some b') as Hat.
  { intros t' b'. destruct (decide (t' = t)) as [->|H]; [by rewrite Heq, E|by rewrite Hne]. }
  constructor.
  - intros t'. destruct (decide (t' = t)) as [->|H]; [rewrite Heq, <- (T1 t), E; done|by rewrite Hne].
  - intros t' c'. destruct (decide (t' = t)) as [->|H].
    + rewrite Heq. intros [= <-]. split; [done|]. apply Forall_forall. intros i Hi. split; [by apply Hc|]. by rewrite Hg, bool_decide_eq_true_2.
    + rewrite Hne by done. intros E'. destruct (T2 t' c' E') as [H1 H2]. split; [done|]. rewrite Forall_forall in H2 |- *. intros i Hi.
      destruct (H2 i Hi) as [H3 H4]. split; [done|]. rewrite Hg, H4. by destruct (bool_decide _).
  - intros t1 t2 c1' c2' i. destruct (decide (t1 = t)) as [->|H1], (decide (t2 = t)) as [->|H2]; rewrite ?Heq, ?Hne by done; try done.
    + intros [= <-] E2 Hi Hi'. by destruct (Hap t2 c2' i).
    + intros E1 [= <-] Hi Hi'. by destruct (Hap t1 c1' i).
    + apply T3.
  - intros i Hi. rewrite Hg. destruct (bool_decide_reflect (i ∈ descs c)) as [Hin|Hin].
    + intros _. exists t, c. by rewrite Heq.
    + intros Hfi. destruct (T4 i Hi Hfi) as (t' & c' & E' & Hi'). exists t', c'. rewrite Hne; [done|]. intros ->. by rewrite E in E'.
  - intros t' Hs. destruct (decide (t' = t)) as [->|H]; [by rewrite Heq in Hs|]. rewrite Hne in Hs by done. destruct (T5 t' Hs) as (l & L1 & L2).
    exists l. split; [done|]. intros i Hi Hgi. rewrite Hg in Hgi. destruct (bool_decide _); [done|by apply L2].
  - intros t1 t2 b' H1%Hat H2%Hat. by apply (T6 t1 t2 b').
  - intros t' b' H1%Hat. by apply (T7 t').
  - intros t1 t2 b1 b2 H1%Hat H2%Hat. by apply (T8 t1 t2).
Qed.

Lemma woken_not f f' t : woken f f' -> (forall b w, f t <> V_sleepf b w) -> (forall b w c, f t <> V_sleepb b w c) -> f' t = f t.
Proof. intros H H1 H2. destruct (H t) as [->|[(b & w & E & _)|(b & w & c & E & _)]]; [done|by destruct (H1 b w)|by destruct (H2 b w c)]. Qed.
Lemma woken_handed f f' t c : woken f f' -> handed (f t) = Some c -> handed (f' t) = Some c.
Proof. intros H. destruct (H t) as [->|[(b & w & -> & ->)|(b & w & c' & -> & ->)]]; done. Qed.

(** A state in which sleepers were woken and descriptors that nobody owns
    have changed. *)
Lemma phase_rest s s' Q R t : same_rest s s' -> (forall c i, chain_of (v_thr s t) = Some c -> i ∈ descs c -> v_desc s' i = v_desc s i) ->
  woken (v_thr s) (v_thr s') -> phase s Q R (v_thr s t) -> phase s' Q R (v_thr s' t).
Proof.
  intros [[A1 A2] [U1 [U2 U3]] [I1 [I2 I3]] [B1 B2] L [D1 [D2 D3]] P] Hd Hw Hp. apply (phase_woken s' Q R (v_thr s t)); [apply (Hw t)|].
  destruct (active (v_thr s t)) as [b|] eqn:Ea; [|by apply phase_idle].
  apply (phase_frame s s' Q R Q R _ b Ea); try done; intros; rewrite ?A1, ?A2, ?I1, ?I2, ?I3, ?B1; done || by apply (Hd c).
Qed.

Lemma step_alloc s p u t b w : vinv s p u -> v_thr s t = V_alloc b w -> exists s', tstep t s = Some s' /\ vinv s' p u.
Proof.
  intros HI E. unfold tstep. rewrite E. pose proof (alloc3_ok s) as HA. destruct (alloc3_desc s) as [[l|] s1].
  - destruct HA as (i & j & k & g & -> & A1 & A2 & -> & A3). eexists. split; [done|]. set (c := Chain i j k).
    apply (vinv_move s p u HI); try done; try apply HI.
    + apply (tinv_alloc _ _ (v_free s) _ t b w c); [apply HI|done|done|done|done].
    + apply (put_phase s _ _ _ t (V_format b w c)); [done|done|]. intros t' _. apply (phase_same s); try done. apply HI.
    + apply (put_handed (v_thr s) t _ (fun c => c0 c ∈ _)). by rewrite E.
  - destruct HA as (A1 & A2 & A3 & A4 & A5). eexists. split; [done|]. pose proof A1 as [[S1 S2] [S3 [S4 S5]] _ [S6 _] S7 [S8 [S9 S10]] S11].
    pose proof (lock_held s p u t HI ltac:(by rewrite E)) as El.
    assert (v_thr s1 t = v_thr s t) as Et by (apply (woken_not _ _ t A4); intros; by rewrite E).
    apply (vinv_move s p u HI); try done; [by rewrite <- (vi_panic _ _ _ HI)| | |].
    + apply (tinv_put (v_thr s1) (v_lock s)).
      * apply (tinv_ext _ _ (v_free s) _ (fun b => vb_blockno (v_bufs s b))); [done|intros; cbn; by rewrite S6|]. apply (tinv_woken (v_thr s)); [done|apply HI].
      * by rewrite Et, E.
      * by rewrite Et, E.
      * intros _. destruct A5 as (l & L1 & L2). exists l. split; [done|]. intros i Hi Hfi. apply L2; [done|]. by rewrite <- A2.
      * done.
      * by apply (lock_drop _ t).
    + apply (put_phase s1 _ _ _ t (V_sleepf b w)); [done|done|]. intros t' _. apply (phase_same s1); try done. apply (phase_rest s); [done| |done|apply HI].
      intros c i Hc Hi. apply A3. destruct (ti_own _ _ _ _ (vi_thr _ _ _ HI) t' c Hc) as [_ H]. rewrite Forall_forall in H. by apply H.
    + intros t' c Hh Hin. cbn. destruct (decide (t' = t)) as [->|Hne]; [by rewrite E in Hh|]. rewrite fn_lookup_insert_ne by done. by apply (woken_handed (v_thr s)).
Qed.

(** *** A request is made and handed over *)

Lemma step_format s p u t b w c : vinv s p u -> v_thr s t = V_format b w c -> vinv (put_thr t (V_ring b w c) (format b w c s)) p u.
Proof.
  intros HI E. pose proof (vi_thr _ _ _ HI) as HT. destruct (ti_own _ _ _ _ HT t c) as [Hnd Hc]; [by rewrite E|].
  pose proof Hnd as Hnd'. unfold descs in Hnd'. apply NoDup_cons in Hnd' as [N0 [N1 _]%NoDup_cons].
  assert (c1 c <> c0 c /\ c2 c <> c0 c /\ c2 c <> c1 c) as (M1 & M2 & M3) by set_solver.
  apply (vinv_move s p u HI); try done; try apply HI.
  - apply (tinv_put (v_thr s) (v_lock s)); try (by rewrite E); try done.
    + apply (tinv_ext _ _ (v_free s) _ (fun b => vb_blockno (v_bufs s b))); [done| |done]. intros t' b' _. cbn.
      destruct (decide (b' = b)) as [->|Hne]; [by rewrite fn_lookup_insert|by rewrite fn_lookup_insert_ne].
    + rewrite <- (ti_lock _ _ _ _ HT t). by rewrite E.
  - apply (put_phase s _ _ _ t (V_ring b w c)); [done| |].
    + cbn [phase]. split; [constructor|split]; cbn.
      * rewrite !fn_lookup_insert_ne by done. by rewrite fn_lookup_insert.
      * rewrite fn_lookup_insert_ne by done. by rewrite fn_lookup_insert.
      * by rewrite fn_lookup_insert.
      * by rewrite !fn_lookup_insert.
      * by rewrite fn_lookup_insert.
      * by rewrite fn_lookup_insert.
      * by rewrite fn_lookup_insert.
    + intros t' Hne. destruct (active (v_thr s t')) as [b'|] eqn:Ea; [|by apply phase_idle].
      assert (b' <> b) as Hb by (intros ->; apply Hne; apply (ti_buf _ _ _ _ HT t' t b Ea); by rewrite E).
      assert (forall c' i, chain_of (v_thr s t') = Some c' -> i ∈ descs c' -> i ∉ descs c) as Hap.
      { intros c' i Hc' Hi. apply (other_chain s p u HI t' t c' c i Hne Hc'); [by rewrite E|done]. }
      apply (phase_frame s _ (p ++ v_inflight s) (dev_heads (v_dev s) ++ u) _ _ _ b' Ea); try done; try (cbn; by rewrite fn_lookup_insert_ne).
      * intros c' i Hc' Hi. specialize (Hap c' i Hc' Hi). unfold descs in Hap. cbn. rewrite !fn_lookup_insert_ne by set_solver. done.
      * intros c' Hc'. specialize (Hap c' (c0 c') Hc' ltac:(by left)). unfold descs in Hap. cbn. rewrite !fn_lookup_insert_ne by set_solver. done.
      * apply HI.
  - apply (put_handed (v_thr s) t _ (fun c => c0 c ∈ _)). by rewrite E.
Qed.

Lemma slot_u16 i : slot (u16 i) = slot i.
Proof. unfold slot, u16, NUM. cbn [Z.of_nat]. f_equal. apply Z.mod_mod_divide. by exists (2 ^ 13). Qed.
Lemma slot_ne a i j : 0 <= i < 8 -> 0 <= j < 8 -> i <> j -> slot (a + i) <> slot (a + j).
Proof.
  unfold slot, NUM. intros Hi Hj Hne E. apply Hne. apply Z2Nat.inj in E; [|apply Z.mod_pos_bound; lia..]. zlia.
Qed.
(** A store after the end of the ring's contents, and the next index. *)
Lemma seg_store ring from l x : (length l < NUM)%nat -> seg ring from l -> seg (<[slot (from + Z.of_nat (length l)) := x]> ring) from l.
Proof.
  intros Hl H k y Hk. pose proof (lookup_lt_Some _ _ _ Hk) as Hlt. unfold NUM in Hl. rewrite fn_lookup_insert_ne; [by apply H|].
  apply slot_ne; lia.
Qed.
Lemma seg_snoc ring from l x : seg ring from l -> ring (slot (from + Z.of_nat (length l))) = x -> seg ring from (l ++ [x]).
Proof.
  intros H Hx k y Hk. apply lookup_snoc_Some in Hk as [[_ Hk]|[-> ->]]; [by apply H|done].
Qed.
Lemma seg_tail ring from x l : seg ring from (x :: l) -> ring (slot from) = x /\ seg ring (u16 (from + 1)) l.
Proof.
  intros H. split; [rewrite <- (Z.add_0_r from); by apply (H 0%nat)|]. intros k y Hk. rewrite <- (H (S k) y Hk).
  rewrite <- (slot_u16 (u16 _ + _)), <- (slot_u16 (from + Z.of_nat (S k))). f_equal. f_equal. unfold u16. rewrite Zplus_mod_idemp_l. f_equal. lia.
Qed.
Lemma u16_next a n : u16 (u16 (a + Z.of_nat n) + 1) = u16 (a + Z.of_nat (S n)).
Proof. unfold u16. rewrite Zplus_mod_idemp_l. f_equal. lia. Qed.

Lemma step_ring s p u t b w c : vinv s p u -> v_thr s t = V_ring b w c ->
  vinv (put_thr t (V_publish b w c) (set_avail (<[slot (v_avail_idx s) := c0 c]> (v_avail_ring s)) (v_avail_idx s) s)) p u.
Proof.
  intros HI E. pose proof (head_room s p u HI t c ltac:(by rewrite E) ltac:(by rewrite E)) as Hroom. rewrite length_app in Hroom.
  destruct (vi_avail _ _ _ HI) as (A1 & A2 & A3). pose proof (lock_held s p u t HI ltac:(by rewrite E)) as El.
  constructor; cbn [put_thr set_thr set_avail v_panic v_thr v_lock v_free v_bufs v_desc v_inflight v_dev v_dev_idx v_avail_ring v_avail_idx v_used_ring v_used_idx v_seen]; try apply HI.
  - apply (tinv_put (v_thr s) (v_lock s)); try (by rewrite E); try done. apply HI.
  - intros t'. destruct (decide (t' = t)) as [->|Hne]; [rewrite fn_lookup_insert|rewrite fn_lookup_insert_ne by done].
    + pose proof (vi_phase _ _ _ HI t) as H. rewrite E in H. destruct H as ([F0 F1 F2 F3 F4] & H1 & H2). split; [by constructor|]. split; [done|]. split; [done|]. cbn. by rewrite fn_lookup_insert.
    + destruct (active (v_thr s t')) as [b'|] eqn:Ea; [|by apply phase_idle].
      apply (phase_frame s _ (p ++ v_inflight s) (dev_heads (v_dev s) ++ u) _ _ _ b' Ea); try done; [|apply HI].
      intros b2 w2 c' E'. exfalso. apply Hne. pose proof (lock_held s p u t' HI ltac:(by rewrite E')) as El'. congruence.
  - intros h Hin. destruct (vi_heads _ _ _ HI h Hin) as (t' & c' & E' & ->). exists t', c'. split; [|done].
    apply (put_handed (v_thr s) t _ (fun _ => True)); [by rewrite E|done|done].
  - split_and!; [apply A1|apply A1|done|]. rewrite A2, slot_u16. apply seg_store; [lia|done].
Qed.

Lemma step_publish s p u t b w c : vinv s p u -> v_thr s t = V_publish b w c ->
  vinv (put_thr t (V_wait b w c) (set_avail (v_avail_ring s) (u16 (v_avail_idx s + 1)) s)) (p ++ [c0 c]) u.
Proof.
  intros HI E. pose proof (not_head s p u HI t c ltac:(by rewrite E) ltac:(by rewrite E)) as Hnot.
  destruct (vi_avail _ _ _ HI) as (A1 & A2 & A3). pose proof (lock_held s p u t HI ltac:(by rewrite E)) as El.
  pose proof (vi_phase _ _ _ HI t) as H. rewrite E in H. destruct H as ([F0 F1 F2 F3 F4] & H1 & H2 & H3).
  assert (forall h, h ∈ (p ++ [c0 c]) ++ v_inflight s ++ dev_heads (v_dev s) ++ u <-> h = c0 c \/ h ∈ p ++ v_inflight s ++ dev_heads (v_dev s) ++ u) as Hperm.
  { intros h. rewrite !elem_of_app, list_elem_of_singleton. tauto. }
  constructor; cbn [put_thr set_thr set_avail v_panic v_thr v_lock v_free v_bufs v_desc v_inflight v_dev v_dev_idx v_avail_ring v_avail_idx v_used_ring v_used_idx v_seen]; try apply HI.
  - apply (tinv_put (v_thr s) (v_lock s)); try (by rewrite E); try done. apply HI.
  - intros t'. destruct (decide (t' = t)) as [->|Hne]; [rewrite fn_lookup_insert|rewrite fn_lookup_insert_ne by done].
    + split; [by constructor|]. left. split_and!; [|done|done]. rewrite !elem_of_app. left. right. by left.
    + destruct (active (v_thr s t')) as [b'|] eqn:Ea; [|by apply phase_idle].
      apply (phase_frame s _ (p ++ v_inflight s) (dev_heads (v_dev s) ++ u) _ _ _ b' Ea); try done; [| |apply HI].
      * intros c' Hc'. split; [|done]. rewrite !elem_of_app, list_elem_of_singleton. assert (c0 c' <> c0 c) as Hcc; [|tauto].
        intros Ecc. apply (other_chain s p u HI t' t c' c (c0 c') Hne (handed_chain _ _ Hc')); [by rewrite E|by left|rewrite Ecc; by left].
      * intros b2 w2 c' E'. exfalso. apply Hne. pose proof (lock_held s p u t' HI ltac:(by rewrite E')) as El'. congruence.
  - intros h [->|Hin]%Hperm; [exists t, c; by rewrite fn_lookup_insert|]. destruct (vi_heads _ _ _ HI h Hin) as (t' & c' & E' & ->).
    exists t', c'. split; [|done]. apply (put_handed (v_thr s) t _ (fun _ => True)); [by rewrite E|done|done].
  - rewrite <- app_assoc. cbn. apply (NoDup_Permutation_proper _ (c0 c :: p ++ v_inflight s ++ dev_heads (v_dev s) ++ u)); [symmetry; apply Permutation_middle|].
    apply NoDup_cons. split; [done|apply HI].
  - split_and!; [apply A1|apply A1|rewrite A2, u16_next, length_app; do 3 f_equal; cbn; lia|]. apply seg_snoc; [done|]. by rewrite A2, slot_u16 in H3.
Qed.

(** *** The chain is given back *)

Lemma tinv_release thr lock free blk t b w c g : tinv thr lock free blk -> thr t = V_free b w c -> (forall t', asleep (thr t') = false) ->
  (forall x, g x = if bool_decide (x ∈ descs c) then true else free x) -> tinv (<[t := V_rel b w]> thr) lock g blk.
Proof.
  intros [T1 T2 T3 T4 T5 T6 T7 T8] E Hs Hg.
  assert (forall t', t' <> t -> <[t := V_rel b w]> thr t' = thr t') as Hne by (intros t' H; by rewrite fn_lookup_insert_ne).
  assert (<[t := V_rel b w]> thr t = V_rel b w) as Heq by by rewrite fn_lookup_insert.
  assert (forall t' b', active (<[t := V_rel b w]> thr t') = Some b' -> active (thr t') = Some b') as Hat.
  { intros t' b'. destruct (decide (t' = t)) as [->|H]; [by rewrite Heq, E|by rewrite Hne]. }
  assert (forall t' c', chain_of (<[t := V_rel b w]> thr t') = Some c' -> t' <> t /\ chain_of (thr t') = Some c') as Hch.
  { intros t' c'. destruct (decide (t' = t)) as [->|H]; [by rewrite Heq|by rewrite Hne]. }
  constructor.
  - intros t'. destruct (decide (t' = t)) as [->|H]; [rewrite Heq, <- (T1 t), E; done|by rewrite Hne].
  - intros t' c' [H E']%Hch. destruct (T2 t' c' E') as [H1 H2]. split; [done|]. rewrite Forall_forall in H2 |- *. intros i Hi.
    destruct (H2 i Hi) as [H3 H4]. split; [done|]. rewrite Hg, bool_decide_eq_false_2; [done|]. intros Hi'.
    apply H. apply (T3 t' t c' c i E'); [by rewrite E|done|done].
  - intros t1 t2 c1' c2' i [_ E1]%Hch [_ E2]%Hch. by apply T3.
  - intros i Hi. rewrite Hg. destruct (bool_decide_reflect (i ∈ descs c)) as [Hin|Hin]; [done|]. intros Hfi.
    destruct (T4 i Hi Hfi) as (t' & c' & E' & Hi'). exists t', c'. rewrite Hne; [done|]. intros ->. rewrite E in E'. injection E' as <-. done.
  - intros t' H. destruct (decide (t' = t)) as [->|Hn]; [by rewrite Heq in H|]. rewrite Hne, Hs in H by done. done.
  - intros t1 t2 b' H1%Hat H2%Hat. by apply (T6 t1 t2 b').
  - intros t' b' H1%Hat. by apply (T7 t').
  - intros t1 t2 b1 b2 H1%Hat H2%Hat. by apply (T8 t1 t2).
Qed.

Lemma step_free s p u t b w c : vinv s p u -> v_thr s t = V_free b w c ->
  vinv (put_thr t (V_rel b w) (free_chain NUM (c0 c) (set_info (<[c0 c := None]> (v_info_b s)) (v_status s) s))) p u.
Proof.
  intros HI E. pose proof (vi_thr _ _ _ HI) as HT. destruct (ti_own _ _ _ _ HT t c) as [Hnd Hc]; [by rewrite E|].
  pose proof (vi_phase _ _ _ HI t) as Hp. rewrite E in Hp. destruct Hp as [Hf _].
  destruct (free_chain_ok s c b w Hf Hnd Hc (<[c0 c := None]> (v_info_b s))) as (F1 & F2 & F3 & F4 & F5).
  set (s1 := set_info _ _ s) in *. set (s2 := free_chain NUM (c0 c) s1) in *.
  pose proof F1 as [[S1 S2] [S3 [S4 S5]] _ [S6 _] S7 [S8 [S9 S10]] S11].
  assert (v_thr s2 t = V_free b w c) as Et by (rewrite <- E; apply (woken_not _ _ t F4); intros; by rewrite E).
  apply (vinv_move s p u HI); try done; [by rewrite <- (vi_panic _ _ _ HI)| | |].
  - cbn [put_thr set_thr v_thr v_lock v_free v_bufs]. rewrite S7. apply (tinv_release _ _ (v_free s) _ t b w c); [|done|done|done].
    apply (tinv_ext _ _ (v_free s) _ (fun b => vb_blockno (v_bufs s b))); [done|intros; by rewrite S6|]. apply (tinv_woken (v_thr s)); [done|apply HI].
  - apply (put_phase s2 _ _ _ t (V_rel b w)); [done|done|]. intros t' Hne. apply (phase_same s2); try done. apply (phase_rest s1); [done| |done|].
    + intros c' i Hc' Hi. apply F3. apply (other_chain s p u HI t' t c' c i Hne Hc'); [by rewrite E|done].
    + destruct (active (v_thr s t')) as [b'|] eqn:Ea; [|by apply phase_idle].
      apply (phase_frame s _ (p ++ v_inflight s) (dev_heads (v_dev s) ++ u) _ _ _ b' Ea); try done; [|apply HI].
      intros c' Hc'. assert (c0 c' ∉ descs c) as Hn by (apply (other_chain s p u HI t' t c' c _ Hne Hc'); [by rewrite E|by left]).
      unfold descs in Hn. cbn. rewrite fn_lookup_insert_ne by set_solver. done.
  - intros t' c' Hh _. cbn. destruct (decide (t' = t)) as [->|Hne]; [by rewrite E in Hh|]. rewrite fn_lookup_insert_ne by done. by apply (woken_handed (v_thr s)).
Qed.

(** *** The interrupt handler *)

Lemma tinv_lock thr lock lock' free blk : tinv thr lock free blk -> (forall t, lock' = H_thread t <-> lock = H_thread t) -> tinv thr lock' free blk.
Proof. intros [T1 T2 T3 T4 T5 T6 T7 T8] H. constructor; try done. intros t. by rewrite H. Qed.
Lemma step_lock s p u lock' : vinv s p u -> (forall t, lock' = H_thread t <-> v_lock s = H_thread t) -> vinv (set_lock lock' s) p u.
Proof.
  intros HI H. apply (vinv_move s p u HI); try done; try apply HI.
  - apply (tinv_lock _ (v_lock s)); [apply HI|done].
  - intros t. apply (phase_same s); try done. apply HI.
Qed.

Lemma woken_buf b s : woken (v_thr s) (v_thr (wake_buf b s)).
Proof.
  intros t. cbn. destruct (v_thr s t); try (by left). destruct (_ =? _)%nat; [|by left]. right. right. by eexists _, _, _.
Qed.
Lemma heads_mid (l1 l2 l3 l4 : list nat) h : l1 ++ l2 ++ l3 ++ h :: l4 ≡ₚ h :: l1 ++ l2 ++ l3 ++ l4.
Proof. rewrite !(assoc_L (++)). symmetry. apply Permutation_middle. Qed.
(** A formatted chain whose buffer only changes its flag or its data. *)
Lemma formatted_ext s s' b w c : formatted s b w c -> v_desc s' = v_desc s -> v_ops s' = v_ops s -> v_info_b s' = v_info_b s ->
  vb_blockno (v_bufs s' b) = vb_blockno (v_bufs s b) -> formatted s' b w c.
Proof. intros [F0 F1 F2 F3 F4] E1 E2 E3 E4. constructor; by rewrite ?E1, ?E2, ?E3, ?E4. Qed.
Lemma upd_buf_blk b f s b' : (forall v, vb_blockno (f v) = vb_blockno v) -> vb_blockno (v_bufs (upd_buf b f s) b') = vb_blockno (v_bufs s b').
Proof. intros Hf. cbn. destruct (decide (b' = b)) as [->|Hne]; [by rewrite fn_lookup_insert, Hf|by rewrite fn_lookup_insert_ne]. Qed.

Lemma intr_done s p u t b w c : vinv s p (c0 c :: u) -> handed (v_thr s t) = Some c -> active (v_thr s t) = Some b -> formatted s b w c ->
  v_status s (c0 c) = 0 -> c0 c ∈ dev_heads (v_dev s) ++ c0 c :: u ->
  vinv (set_seen (u16 (v_seen s + 1)) (wake_buf b (upd_buf b (set_vb_disk false) s))) p u.
Proof.
  intros HI Hh Hb Hf Hst HinR. pose proof (vi_thr _ _ _ HI) as HT. set (s' := set_seen _ _).
  pose proof (vi_nodup _ _ _ HI) as Hnd. rewrite heads_mid in Hnd. apply NoDup_cons in Hnd as [Hn Hnd].
  destruct (vi_usedr _ _ _ HI) as (U1 & U2 & U3). apply seg_tail in U3 as [U3 U4].
  assert (woken (v_thr s) (v_thr s')) as Hwk by exact (woken_buf b (upd_buf b (set_vb_disk false) s)).
  assert (forall b', vb_blockno (v_bufs s' b') = vb_blockno (v_bufs s b')) as Hblk by (intros b'; by apply upd_buf_blk).
  assert (vb_disk (v_bufs s' b) = false) as Hdk by (cbn; by rewrite fn_lookup_insert).
  assert (forall h, h ∈ p ++ v_inflight s ++ dev_heads (v_dev s) ++ c0 c :: u <-> h = c0 c \/ h ∈ p ++ v_inflight s ++ dev_heads (v_dev s) ++ u) as Hperm.
  { intros h. rewrite heads_mid. apply elem_of_cons. }
  constructor; try apply HI; try done.
  - apply (tinv_woken (v_thr s)); [done|]. apply (tinv_ext _ _ (v_free s) _ (fun b => vb_blockno (v_bufs s b))); [done|done|apply HI].
  - intros t'. destruct (decide (t' = t)) as [->|Hne].
    + assert (formatted s' b w c) as Hf' by by apply (formatted_ext s).
      assert (waiting s' (p ++ v_inflight s) (dev_heads (v_dev s) ++ u) b c) as Hw.
      { right. right. rewrite heads_QR in Hn. split_and!; [tauto|tauto|done|done]. }
      destruct (v_thr s t) as [| | | | | | |b' w' c'|b' w' c'|b' w' c'| |] eqn:E; try done; injection Hh as ->; injection Hb as ->; cbn [s' set_seen wake_buf upd_buf set_bufs set_thr v_thr].
      all: rewrite E; rewrite ?Nat.eqb_refl; cbn [phase]; split; [|done]; pose proof (vi_phase _ _ _ HI t) as Hp; rewrite E in Hp; destruct Hp as [Hp _]; by apply (formatted_ext s).
    + apply (phase_woken _ _ _ (v_thr s t')); [apply (Hwk t')|]. destruct (active (v_thr s t')) as [b'|] eqn:Ea; [|by apply phase_idle].
      assert (b' <> b) as Hb' by (intros ->; apply Hne; by apply (ti_buf _ _ _ _ HT t' t b)).
      apply (phase_frame s _ (p ++ v_inflight s) (dev_heads (v_dev s) ++ c0 c :: u) _ _ _ b' Ea); try done; [| |apply HI].
      * cbn. by rewrite fn_lookup_insert_ne.
      * intros c' Hc'. split; [done|]. cbn. rewrite !elem_of_app, elem_of_cons. assert (c0 c' <> c0 c) as Hcc; [|tauto].
        intros Ecc. apply (other_chain s p _ HI t' t c' c (c0 c') Hne (handed_chain _ _ Hc') (handed_chain _ _ Hh)); [by left|rewrite Ecc; by left].
  - intros h Hin. destruct (vi_heads _ _ _ HI h) as (t' & c' & E & ->); [by apply Hperm; right|].
    exists t', c'. split; [by apply (woken_handed (v_thr s))|done].
  - cbn. split; [apply Z.mod_pos_bound; lia|]. split; [|done]. rewrite U2. cbn [length]. unfold u16. rewrite Zplus_mod_idemp_l. f_equal. lia.
Qed.

Lemma step_intr s p u s' : vinv s p u -> istep s = Some s' -> exists u', vinv s' p u'.
Proof.
  intros HI. unfold istep. destruct (v_lock s) eqn:El; [| done |].
  - intros [= <-]. exists u. apply step_lock; [done|]. by rewrite El.
  - destruct (Z.eqb_spec (v_seen s) (v_used_idx s)) as [Eq|Hne].
    + intros [= <-]. exists u. apply step_lock; [done|]. by rewrite El.
    + destruct (vi_usedr _ _ _ HI) as (U1 & U2 & U3). destruct u as [|h u].
      { cbn in U2. rewrite Z.add_0_r, u16_small in U2 by done. congruence. }
      apply seg_tail in U3 as [U3 U4]. rewrite U3.
      destruct (vi_heads _ _ _ HI h) as (t & c & Hh & ->); [rewrite !elem_of_app; right; right; right; by left|].
      pose proof (vi_nodup _ _ _ HI) as Hnd. pose proof (vi_phase _ _ _ HI t) as Hp.
      assert (exists b w, active (v_thr s t) = Some b /\ formatted s b w c /\ waiting s (p ++ v_inflight s) (dev_heads (v_dev s) ++ c0 c :: u) b c) as (b & w & Hb & Hf & Hw).
      { destruct (v_thr s t) as [| | | | | | |b w c'|b w c'|b w c'| |]; try done; injection Hh as ->; exists b, w; cbn in Hp; (split; [done|]); tauto. }
      assert (c0 c ∈ dev_heads (v_dev s) ++ c0 c :: u) as HinR by (apply elem_of_app; right; by left).
      destruct Hw as [(W1 & _)|[(_ & W2 & W3)|(_ & W2 & _)]]; [exfalso; by apply (Q_not_R s p (c0 c :: u) HI (c0 c))| |done].
      rewrite W2, (fm_b _ _ _ _ Hf). cbn [Z.eqb negb]. intros [= <-]. exists u.
      by apply (intr_done s p u t b w c).
Qed.

(** ** An atomic disk

    A request is pending until its whole block is transferred in one step,
    and returns after that. *)

Inductive apc := A_idle | A_pending (b : nat) (w : bool) | A_served (b : nat) (w : bool).
Record astate := AState { a_thr : nat -> apc; a_blk : nat -> Z; a_data : nat -> list Z; a_disk : Z -> list Z }.
Definition a_buf (pc : apc) : option nat := match pc with A_idle => None | A_pending b _ | A_served b _ => Some b end.
Definition a_set (t : nat) (pc : apc) (a : astate) : astate := AState (<[t := pc]> (a_thr a)) (a_blk a) (a_data a) (a_disk a).
Definition a_transfer (b : nat) (w : bool) (a : astate) : astate :=
  if w then AState (a_thr a) (a_blk a) (a_data a) (fun k => if k =? a_blk a b then a_data a b else a_disk a k)
  else AState (a_thr a) (a_blk a) (<[b := a_disk a (a_blk a b)]> (a_data a)) (a_disk a).

Record aeq (a a' : astate) : Prop := {
  ae_thr : forall t, a_thr a' t = a_thr a t; ae_blk : forall b, a_blk a' b = a_blk a b;
  ae_data : forall b, a_data a' b = a_data a b; ae_disk : forall k, a_disk a' k = a_disk a k }.
Inductive astep (a a' : astate) : Prop :=
| as_call t b w blk data : a_thr a t = A_idle -> (forall t' b', a_buf (a_thr a t') = Some b' -> b' <> b /\ a_blk a b' <> blk) ->
    aeq (a_set t (A_pending b w) (AState (a_thr a) (<[b := blk]> (a_blk a)) (<[b := data]> (a_data a)) (a_disk a))) a' -> astep a a'
| as_serve t b w : a_thr a t = A_pending b w -> aeq (a_set t (A_served b w) (a_transfer b w a)) a' -> astep a a'
| as_return t b w : a_thr a t = A_served b w -> aeq (a_set t A_idle a) a' -> astep a a'.

Definition abs_pc (s : vstate) (pc : vpc) : apc :=
  match pc with
  | V_idle => A_idle
  | V_start b w | V_alloc b w | V_sleepf b w | V_format b w _ => A_pending b w
  | V_ring b w c | V_publish b w c | V_wait b w c | V_sleepb b w c | V_wake b w c => if v_status s (c0 c) =? 0 then A_served b w else A_pending b w
  | V_free b w _ | V_rel b w => A_served b w
  end.
Definition abs (s : vstate) : astate :=
  AState (fun t => abs_pc s (v_thr s t)) (fun b => vb_blockno (v_bufs s b)) (fun b => vb_data (v_bufs s b)) (v_disk s).

Lemma abs_buf s pc : a_buf (abs_pc s pc) = active pc.
Proof. destruct pc; cbn; try done; by destruct (_ =? 0). Qed.
Lemma abs_status s s' pc : (forall c, chain_of pc = Some c -> v_status s' (c0 c) = v_status s (c0 c)) -> abs_pc s' pc = abs_pc s pc.
Proof. intros H. destruct pc; cbn; try done; by rewrite H. Qed.
Lemma abs_woken s pc pc' : pc' = pc \/ (exists b w, pc = V_sleepf b w /\ pc' = V_start b w) \/ (exists b w c, pc = V_sleepb b w c /\ pc' = V_wake b w c) -> abs_pc s pc' = abs_pc s pc.
Proof. by intros [->|[(b & w & -> & ->)|(b & w & c & -> & ->)]]. Qed.

(** *** The device *)

(** A step that moves heads: phases only see in which of the two groups a
    head is. *)
Lemma phase_heads s s' Q R Q' R' pc : v_desc s' = v_desc s -> v_ops s' = v_ops s -> v_info_b s' = v_info_b s -> v_status s' = v_status s -> v_bufs s' = v_bufs s ->
  v_avail_ring s' = v_avail_ring s -> v_avail_idx s' = v_avail_idx s -> (forall h, h ∈ Q' <-> h ∈ Q) -> (forall h, h ∈ R' <-> h ∈ R) ->
  phase s Q R pc -> phase s' Q' R' pc.
Proof.
  intros E1 E2 E3 E4 E5 E6 E7 H1 H2. destruct (active pc) as [b|] eqn:Ea; [|by intros; apply phase_idle].
  apply (phase_frame s s' Q R Q' R' pc b Ea); intros; rewrite ?E1, ?E2, ?E3, ?E4, ?E5, ?E6, ?E7; done.
Qed.

Lemma dev_take s p u s' : vinv s p u -> dstep D_take s = Some s' -> exists p', vinv s' p' u.
Proof.
  intros HI. unfold dstep. destruct (v_dev s) eqn:Ed; [|done..]. destruct (Z.eqb_spec (v_dev_idx s) (v_avail_idx s)) as [|Hne]; [done|]. intros [= <-].
  destruct (vi_avail _ _ _ HI) as (A1 & A2 & A3). destruct p as [|h p].
  { cbn in A2. rewrite Z.add_0_r, u16_small in A2 by done. congruence. }
  apply seg_tail in A3 as [A3 A4]. exists p. rewrite A3.
  assert (p ++ (v_inflight s ++ [h]) ++ [] ++ u ≡ₚ (h :: p) ++ v_inflight s ++ [] ++ u) as Hperm.
  { cbn. rewrite <- (app_assoc (v_inflight s)). cbn. rewrite (assoc_L (++)), <- Permutation_middle, <- (assoc_L (++)). done. }
  pose proof (vi_heads _ _ _ HI) as Hh. pose proof (vi_nodup _ _ _ HI) as Hnd. pose proof (vi_phase _ _ _ HI) as Hp. rewrite Ed in Hh, Hnd, Hp. cbn [dev_heads] in *.
  constructor; cbn [set_dev v_panic v_thr v_lock v_free v_bufs v_inflight v_dev v_dev_idx v_avail_ring v_avail_idx v_used_ring v_used_idx v_seen dev_heads]; try apply HI.
  - intros t. apply (phase_heads s _ ((h :: p) ++ v_inflight s) ([] ++ u)); try done. intros x. set_solver.
  - intros x Hx. apply Hh. by rewrite <- Hperm.
  - by rewrite Hperm.
  - split; [apply Z.mod_pos_bound; lia|]. split; [|done]. rewrite A2. cbn [length]. unfold u16. rewrite Zplus_mod_idemp_l. f_equal. lia.
  - done.
Qed.

(** The transfer of a request. *)
Lemma transfer_ok s b w c : formatted s b w c -> 0 <= vb_blockno (v_bufs s b) < 2 ^ 31 ->
  transfer (c0 c) s =
    (let s1 := set_info (v_info_b s) (<[c0 c := 0]> (v_status s)) s in
     if w then set_disk (fun k => if k =? vb_blockno (v_bufs s b) then vb_data (v_bufs s b) else v_disk s k) s1
     else upd_buf b (set_vb_data (v_disk s (vb_blockno (v_bufs s b)))) s1).
Proof.
  intros [F0 F1 F2 F3 F4] Hb. unfold transfer. rewrite F0. cbn [d_addr d_next d_flags d_len]. rewrite F1. cbn [d_addr d_next d_flags d_len].
  rewrite F2. cbn [d_addr d_next d_flags d_len]. rewrite F3. cbn [r_type r_sector].
  assert (u32 (vb_blockno (v_bufs s b) * (BSIZE / 512)) / (BSIZE / 512) = vb_blockno (v_bufs s b)) as ->.
  { change (BSIZE / 512) with 2. rewrite u32_small by lia. by apply Z.div_mul. }
  by destruct w.
Qed.

Lemma elem_of_filter_ne (h x : nat) (l : list nat) : x ∈ filter (fun y => y <> h) l <-> x <> h /\ x ∈ l.
Proof. by rewrite list_elem_of_filter. Qed.
Lemma filter_ne_perm (h : nat) (l : list nat) : NoDup l -> h ∈ l -> l ≡ₚ h :: filter (fun y => y <> h) l.
Proof.
  intros Hnd Hin. apply NoDup_Permutation; [done| |].
  - apply NoDup_cons. split; [rewrite elem_of_filter_ne; tauto|]. by apply NoDup_filter.
  - intros x. rewrite elem_of_cons, elem_of_filter_ne. destruct (decide (x = h)) as [->|]; naive_solver.
Qed.

(** The request of a head that the device has taken. *)
Lemma inflight_request s p u h : vinv s p u -> v_dev s = D_idle -> h ∈ v_inflight s ->
  exists t b w c, h = c0 c /\ handed (v_thr s t) = Some c /\ active (v_thr s t) = Some b /\ formatted s b w c /\ v_status s (c0 c) = 255 /\
    vb_disk (v_bufs s b) = true /\ abs_pc s (v_thr s t) = A_pending b w /\
    (v_thr s t = V_wait b w c \/ v_thr s t = V_sleepb b w c \/ v_thr s t = V_wake b w c).
Proof.
  intros HI Ed Hin. destruct (vi_heads _ _ _ HI h) as (t & c & Hh & ->); [rewrite !elem_of_app; by right; left|].
  pose proof (vi_phase _ _ _ HI t) as Hp.
  assert (exists b w, active (v_thr s t) = Some b /\ formatted s b w c /\ waiting s (p ++ v_inflight s) (dev_heads (v_dev s) ++ u) b c /\
    (v_thr s t = V_wait b w c \/ v_thr s t = V_sleepb b w c \/ v_thr s t = V_wake b w c)) as (b & w & Hb & Hf & Hw & Hpc).
  { destruct (v_thr s t) as [| | | | | | |b w c'|b w c'|b w c'| |]; try done; injection Hh as ->; exists b, w; cbn in Hp; (split; [done|]); tauto. }
  assert (c0 c ∈ p ++ v_inflight s) as HinQ by (apply elem_of_app; by right).
  destruct Hw as [(_ & W2 & W3)|[(W1 & _)|(W1 & _)]]; [|exfalso; by apply (Q_not_R s p u HI (c0 c))|done].
  exists t, b, w, c. split_and!; try done. destruct Hpc as [-> |[-> | ->]]; cbn; by rewrite W2.
Qed.

Lemma dev_serve s p u h s' : vinv s p u -> dstep (D_serve h) s = Some s' -> vinv s' p u.
Proof.
  intros HI. unfold dstep. destruct (v_dev s) eqn:Ed; [|done..]. case_bool_decide as Hin; [|done]. intros [= <-].
  destruct (inflight_request s p u h HI Ed Hin) as (t & b & w & c & -> & Hh & Hb & Hf & W2 & W3 & _ & Hpc).
  pose proof (vi_heads _ _ _ HI) as Hhs. pose proof (vi_nodup _ _ _ HI) as Hnd. pose proof (vi_phase _ _ _ HI) as Hp. rewrite Ed in Hhs, Hnd, Hp. cbn [dev_heads app] in Hhs, Hnd, Hp.
  pose proof (vi_thr _ _ _ HI) as HT.
  rewrite (transfer_ok s b w c Hf) by by apply (ti_blk _ _ _ _ HT t). cbv zeta.
  assert (NoDup (v_inflight s)) as Hni by (apply NoDup_app in Hnd as (_ & _ & Hnd); by apply NoDup_app in Hnd as (? & _)).
  assert (p ++ filter (fun x => x <> c0 c) (v_inflight s) ++ [c0 c] ++ u ≡ₚ p ++ v_inflight s ++ u) as Hperm.
  { f_equiv. rewrite (filter_ne_perm (c0 c) (v_inflight s) Hni Hin) at 2. cbn. by rewrite <- Permutation_middle. }
  set (s1 := set_info (v_info_b s) (<[c0 c := 0]> (v_status s)) s).
  set (s2 := if w then _ else _).
  assert (v_desc s2 = v_desc s /\ v_ops s2 = v_ops s /\ v_info_b s2 = v_info_b s /\ v_status s2 = <[c0 c := 0]> (v_status s) /\
    v_avail_ring s2 = v_avail_ring s /\ v_avail_idx s2 = v_avail_idx s /\ v_thr s2 = v_thr s /\ v_lock s2 = v_lock s /\ v_free s2 = v_free s /\
    v_used_ring s2 = v_used_ring s /\ v_used_idx s2 = v_used_idx s /\ v_seen s2 = v_seen s /\ v_panic s2 = v_panic s) as (X1 & X2 & X3 & X4 & X5 & X6 & X7 & X8 & X9 & X10 & X11 & X12 & X13)
    by (unfold s2; destruct w; done).
  assert (forall b', vb_blockno (v_bufs s2 b') = vb_blockno (v_bufs s b') /\ vb_disk (v_bufs s2 b') = vb_disk (v_bufs s b')) as Hbk.
  { intros b'. unfold s2. destruct w; [done|]. cbn. destruct (decide (b' = b)) as [->|Hne]; [by rewrite fn_lookup_insert|by rewrite fn_lookup_insert_ne]. }
  constructor; cbn [set_dev v_panic v_thr v_lock v_free v_inflight v_dev v_dev_idx v_avail_ring v_avail_idx v_used_ring v_used_idx v_seen dev_heads];
    rewrite ?X5, ?X6, ?X7, ?X8, ?X9, ?X10, ?X11, ?X12, ?X13; try apply HI.
  - apply (tinv_ext _ _ (v_free s) _ (fun b => vb_blockno (v_bufs s b))); [done|intros; apply Hbk|done].
  - intros t'. destruct (decide (t' = t)) as [->|Hne].
    + assert (formatted (set_dev (D_ring (c0 c)) (v_dev_idx s) (filter (fun x => x <> c0 c) (v_inflight s)) s2) b w c) as Hf'.
      { apply (formatted_ext s); try done. apply Hbk. }
      assert (waiting (set_dev (D_ring (c0 c)) (v_dev_idx s) (filter (fun x => x <> c0 c) (v_inflight s)) s2) (p ++ filter (fun x => x <> c0 c) (v_inflight s)) ([c0 c] ++ u) b c) as Hw.
      { right. left. cbn. split_and!; [by left|by rewrite X4, fn_lookup_insert|by rewrite (proj2 (Hbk b))]. }
      destruct Hpc as [-> |[-> | ->]]; [done| |done]. split; [done|]. split; [done|]. cbn. by rewrite (proj2 (Hbk b)).
    + destruct (active (v_thr s t')) as [b'|] eqn:Ea; [|by apply phase_idle].
      assert (forall c', chain_of (v_thr s t') = Some c' -> c0 c' <> c0 c) as Hcc.
      { intros c' Hc' Ecc. apply (other_chain s p u HI t' t c' c (c0 c') Hne Hc' (handed_chain _ _ Hh)); [by left|rewrite Ecc; by left]. }
      apply (phase_frame s _ (p ++ v_inflight s) u _ _ _ b' Ea); [| | | | | |apply Hp].
      * intros c' i _ _. cbn. by rewrite X1.
      * intros c' Hc'. cbn. rewrite X2, X3, X4. rewrite fn_lookup_insert_ne; [done|]. by apply not_eq_sym, Hcc.
      * apply Hbk.
      * apply Hbk.
      * intros c' Hc'%handed_chain. specialize (Hcc c' Hc'). rewrite !elem_of_app, elem_of_filter_ne, list_elem_of_singleton. tauto.
      * intros b2 w2 c' _. cbn. by rewrite X5, X6.
  - intros x Hx. apply Hhs. by rewrite <- Hperm.
  - by rewrite Hperm.
  - done.
Qed.

Lemma used_room s p u h : vinv s p u -> dev_heads (v_dev s) = [h] -> (length u < NUM)%nat.
Proof.
  intros HI E. pose proof (nodup_bound _ _ (vi_nodup _ _ _ HI) (head_bound s p u HI)) as H. rewrite E, !length_app in H. cbn in H. lia.
Qed.
Lemma dev_store s p u s' : vinv s p u -> dstep D_store s = Some s' -> exists u', vinv s' p u'.
Proof.
  intros HI. unfold dstep. destruct (vi_usedr _ _ _ HI) as (U1 & U2 & U3). destruct (v_dev s) as [|h|h] eqn:Ed; [done|intros [= <-]|intros [= <-]].
  - exists u. pose proof (vi_heads _ _ _ HI) as Hh. pose proof (vi_nodup _ _ _ HI) as Hnd. pose proof (vi_phase _ _ _ HI) as Hp. rewrite Ed in Hh, Hnd, Hp.
    constructor; cbn [set_dev set_used v_panic v_thr v_lock v_free v_bufs v_inflight v_dev v_dev_idx v_avail_ring v_avail_idx v_used_ring v_used_idx v_seen]; try done; try apply HI.
    + intros t. apply (phase_same s); try done.
    + split; [done|]. split; [done|]. rewrite U2, slot_u16. apply seg_store; [|done]. apply (used_room s p u h HI). by rewrite Ed.
    + intros h' [= <-]. by rewrite fn_lookup_insert.
  - exists (u ++ [h]). pose proof (vi_heads _ _ _ HI) as Hh. pose proof (vi_nodup _ _ _ HI) as Hnd. pose proof (vi_phase _ _ _ HI) as Hp. rewrite Ed in Hh, Hnd, Hp.
    cbn [dev_heads] in *.
    assert (p ++ v_inflight s ++ [] ++ u ++ [h] ≡ₚ p ++ v_inflight s ++ [h] ++ u) as Hperm by (do 2 f_equiv; cbn; by rewrite <- Permutation_cons_append).
    constructor; cbn [set_dev set_used v_panic v_thr v_lock v_free v_bufs v_inflight v_dev v_dev_idx v_avail_ring v_avail_idx v_used_ring v_used_idx v_seen dev_heads]; try done; try apply HI.
    + intros t. apply (phase_heads s _ (p ++ v_inflight s) ([h] ++ u)); try done. set_solver.
    + intros x Hx. apply Hh. by rewrite <- Hperm.
    + by rewrite Hperm.
    + split; [done|]. split; [rewrite U2, u16_next, length_app; do 3 f_equal; cbn; lia|]. apply seg_snoc; [done|].
      pose proof (vi_idx _ _ _ HI h Ed) as H. by rewrite U2, slot_u16 in H.
Qed.

Lemma vinv_step s p u s' : vinv s p u -> vstep s s' -> exists p' u', vinv s' p' u'.
Proof.
  intros HI [t Hc|t Ht|Hi|ch Hd].
  - exists p, u. by eapply step_call.
  - unfold tstep in Ht. destruct (v_thr s t) as [|b w|b w|b w|b w c|b w c|b w c|b w c|b w c|b w c|b w c|b w] eqn:E; try done.
    + destruct (v_lock s) eqn:El; [|done..]. injection Ht as <-. exists p, u. by eapply step_start.
    + destruct (step_alloc s p u t b w HI E) as (s2 & E2 & HI'). unfold tstep in E2. rewrite E, Ht in E2. injection E2 as <-. by exists p, u.
    + injection Ht as <-. exists p, u. by apply step_format.
    + injection Ht as <-. exists p, u. by apply step_ring.
    + injection Ht as <-. exists (p ++ [c0 c]), u. by apply step_publish.
    + exists p, u. pose proof (step_wait s p u t b w c HI E) as H. destruct (vb_disk (v_bufs s b)); by injection Ht as <-.
    + destruct (v_lock s) eqn:El; [|done..]. injection Ht as <-. exists p, u. by eapply step_wake.
    + injection Ht as <-. exists p, u. by apply step_free.
    + injection Ht as <-. exists p, u. by eapply step_rel.
  - exists p. by eapply step_intr.
  - destruct ch as [|h|]; [destruct (dev_take _ _ _ _ HI Hd) as [p' H]; by exists p', u|exists p, u; by eapply dev_serve|exists p; by eapply dev_store].
Qed.

Lemma vinv_boot bufs disk : vinv (vboot bufs disk) [] [].
Proof.
  assert (seg (fun _ => 0%nat) 0 []) as Hseg by (by intros k x Hk).
  constructor; try done; [intros h H; cbn in H; by apply not_elem_of_nil in H|apply NoDup_nil_2].
Qed.
Lemma vinv_reachable bufs disk n s : runs vstep n (vboot bufs disk) s -> exists p u, vinv s p u.
Proof.
  intros H. apply (runs_invariant vstep (fun s => exists p u, vinv s p u)) in H; [done| |exists [], []; apply vinv_boot].
  intros s1 s2 (p & u & HI) Hs. by eapply vinv_step.
Qed.

(** ** Steps of the atomic disk *)

(** A step that does not touch buffers, statuses and the disk. *)
Lemma abs_stutter s s' : v_status s' = v_status s -> v_bufs s' = v_bufs s -> v_disk s' = v_disk s ->
  (forall t, abs_pc s (v_thr s' t) = abs_pc s (v_thr s t)) -> aeq (abs s) (abs s').
Proof.
  intros E1 E2 E3 H. constructor; cbn; intros x; rewrite ?E2, ?E3; try done. rewrite <- H. apply abs_status. by rewrite E1.
Qed.
Lemma abs_put s t pc : abs_pc s pc = abs_pc s (v_thr s t) -> forall t', abs_pc s (<[t := pc]> (v_thr s) t') = abs_pc s (v_thr s t').
Proof. intros H t'. destruct (decide (t' = t)) as [->|Hne]; [by rewrite fn_lookup_insert|by rewrite fn_lookup_insert_ne]. Qed.

Lemma abs_call s t s' : vcall t s s' -> astep (abs s) (abs s').
Proof.
  intros [b w blockno data Hidle Hex Hblk]. apply (as_call _ _ t b w blockno data).
  - cbn. by rewrite Hidle.
  - intros t' b' H. cbn in H. rewrite abs_buf in H. by apply (Hex t').
  - constructor; cbn; intros x; try done; destruct (decide (x = t)) as [->|Hne]; try destruct (decide (x = b)) as [->|Hne']; try destruct (decide (t = b)) as [->|Hne'];
      rewrite ?fn_lookup_insert, ?fn_lookup_insert_ne by done; done.
Qed.

(** Sleepers are woken and [t] goes on. *)
Lemma abs_rest s s1 t pc : v_status s1 = v_status s -> v_bufs s1 = v_bufs s -> v_disk s1 = v_disk s -> woken (v_thr s) (v_thr s1) ->
  abs_pc s pc = abs_pc s (v_thr s t) -> aeq (abs s) (abs (put_thr t pc s1)).
Proof.
  intros E1 E2 E3 Hw Hpc. apply abs_stutter; try done. intros t'. cbn [put_thr set_thr v_thr].
  destruct (decide (t' = t)) as [->|Hne]; [by rewrite fn_lookup_insert|]. rewrite fn_lookup_insert_ne by done. by apply abs_woken.
Qed.

Lemma format_status b w c s : v_status (format b w c s) = <[c0 c := 255]> (v_status s).
Proof. reflexivity. Qed.
Lemma format_bufs b w c s : v_bufs (format b w c s) = <[b := set_vb_disk true (v_bufs s b)]> (v_bufs s).
Proof. reflexivity. Qed.
Lemma format_rest b w c s : v_thr (format b w c s) = v_thr s /\ v_disk (format b w c s) = v_disk s.
Proof. by split. Qed.
Lemma abs_format s p u t b w c : vinv s p u -> v_thr s t = V_format b w c -> aeq (abs s) (abs (put_thr t (V_ring b w c) (format b w c s))).
Proof.
  intros HI E. pose proof (format_status b w c s) as E1. pose proof (format_bufs b w c s) as E2. pose proof (format_rest b w c s) as [E3 E4].
  revert E1 E2 E3 E4. generalize (format b w c s). intros s1 E1 E2 E3 E4.
  assert (forall x, vb_blockno (v_bufs s1 x) = vb_blockno (v_bufs s x) /\ vb_data (v_bufs s1 x) = vb_data (v_bufs s x)) as Hb.
  { intros x. rewrite E2. destruct (decide (x = b)) as [->|Hne]; [by rewrite fn_lookup_insert|by rewrite fn_lookup_insert_ne]. }
  constructor; cbn [abs put_thr set_thr a_thr a_blk a_data a_disk v_thr v_bufs v_disk]; intros x; [|apply Hb|apply Hb|by rewrite E4].
  rewrite E3, (abs_status s1) by done. destruct (decide (x = t)) as [->|Hne].
  - rewrite fn_lookup_insert, E. cbn [abs_pc]. by rewrite E1, fn_lookup_insert.
  - rewrite fn_lookup_insert_ne by done. apply abs_status. intros c' Hc'. rewrite E1, fn_lookup_insert_ne; [done|]. intros Ec.
    apply (other_chain s p u HI x t c' c (c0 c') Hne Hc'); [by rewrite E|by left|rewrite <- Ec; by left].
Qed.

Lemma abs_thread s p u t s' : vinv s p u -> tstep t s = Some s' -> astep (abs s) (abs s') \/ aeq (abs s) (abs s').
Proof.
  intros HI. unfold tstep. destruct (v_thr s t) as [|b w|b w|b w|b w c|b w c|b w c|b w c|b w c|b w c|b w c|b w] eqn:E; try done.
  - destruct (v_lock s); [|done..]. intros [= <-]. right. apply abs_stutter; try done. cbn [put_thr set_thr set_lock set_avail set_free v_thr]. apply abs_put. by rewrite E.
  - pose proof (alloc3_ok s) as HA. destruct (alloc3_desc s) as [[l|] s1].
    + destruct HA as (i & j & k & g & -> & _ & _ & -> & _). intros [= <-]. right. apply abs_stutter; try done. cbn [put_thr set_thr set_lock set_avail set_free v_thr]. apply abs_put. by rewrite E.
    + destruct HA as ([_ _ [_ [A2 _]] [A4 A5] _ _ _] & _ & _ & Hw & _). intros [= <-]. right. apply (abs_rest s (set_lock H_none s1)); try done. by rewrite E.
  - intros [= <-]. right. by apply (abs_format s p u).
  - intros [= <-]. right. apply abs_stutter; try done. cbn [put_thr set_thr set_lock set_avail set_free v_thr]. apply abs_put. by rewrite E.
  - intros [= <-]. right. apply abs_stutter; try done. cbn [put_thr set_thr set_lock set_avail set_free v_thr]. apply abs_put. by rewrite E.
  - pose proof (vi_phase _ _ _ HI t) as Hp. rewrite E in Hp. destruct Hp as [_ Hw]. destruct (vb_disk (v_bufs s b)) eqn:Ed; intros [= <-]; right.
    + apply abs_stutter; try done. cbn [put_thr set_thr set_lock set_avail set_free v_thr]. apply abs_put. by rewrite E.
    + apply abs_stutter; try done. cbn [put_thr set_thr set_lock set_avail set_free v_thr]. apply abs_put. rewrite E. cbn. destruct Hw as [(_ & _ & ?)|[(_ & _ & ?)|(_ & _ & -> & _)]]; [congruence|congruence|done].
  - destruct (v_lock s); [|done..]. intros [= <-]. right. apply abs_stutter; try done. cbn [put_thr set_thr set_lock set_avail set_free v_thr]. apply abs_put. by rewrite E.
  - pose proof (vi_thr _ _ _ HI) as HT. destruct (ti_own _ _ _ _ HT t c) as [Hnd Hc]; [by rewrite E|].
    pose proof (vi_phase _ _ _ HI t) as Hp. rewrite E in Hp. destruct Hp as [Hf _].
    pose proof (free_chain_ok s c b w Hf Hnd Hc (<[c0 c := None]> (v_info_b s))) as HF. cbv zeta in HF.
    revert HF. generalize (free_chain NUM (c0 c) (set_info (<[c0 c := None]> (v_info_b s)) (v_status s) s)). intros s2 HF.
    destruct HF as ([_ _ [_ [A2 _]] [A4 A5] _ _ _] & _ & _ & F4 & _). intros [= <-]. right. apply (abs_rest s s2); try done. by rewrite E.
  - intros [= <-]. left. apply (as_return _ _ t b w); [cbn; by rewrite E|]. constructor; cbn; try done. intros t'.
    destruct (decide (t' = t)) as [->|Hne]; [by rewrite !fn_lookup_insert|rewrite !fn_lookup_insert_ne by done]. done.
Qed.

Lemma abs_intr s p u s' : vinv s p u -> istep s = Some s' -> aeq (abs s) (abs s').
Proof.
  intros HI. unfold istep. destruct (v_lock s); [intros [= <-]; by apply abs_stutter|done|].
  destruct (v_seen s =? v_used_idx s); [intros [= <-]; by apply abs_stutter|]. destruct (negb _); [intros [= <-]; by apply abs_stutter|].
  destruct (v_info_b s _) as [b|]; intros [= <-]; [|by apply abs_stutter].
  constructor; cbn; intros x; try done.
  - rewrite (abs_status s) by done. apply abs_woken. apply (woken_buf b s).
  - destruct (decide (x = b)) as [->|Hne]; [by rewrite fn_lookup_insert|by rewrite fn_lookup_insert_ne].
  - destruct (decide (x = b)) as [->|Hne]; [by rewrite fn_lookup_insert|by rewrite fn_lookup_insert_ne].
Qed.

Lemma abs_dev s p u ch s' : vinv s p u -> dstep ch s = Some s' -> astep (abs s) (abs s') \/ aeq (abs s) (abs s').
Proof.
  intros HI. unfold dstep. destruct ch as [|h|], (v_dev s) eqn:Ed; try done.
  - destruct (_ =? _); [done|]. intros [= <-]. right. by apply abs_stutter.
  - case_bool_decide as Hin; [|done]. intros [= <-]. left.
    destruct (inflight_request s p u h HI Ed Hin) as (t & b & w & c & -> & Hh & Hb & Hf & _ & _ & Ha & Hpc).
    rewrite (transfer_ok s b w c Hf) by by apply (ti_blk _ _ _ _ (vi_thr _ _ _ HI) t). cbv zeta.
    apply (as_serve (abs s) _ t b w Ha). set (s1 := set_info (v_info_b s) (<[c0 c := 0]> (v_status s)) s).
    assert (forall s2 x, v_thr s2 = v_thr s -> v_status s2 = <[c0 c := 0]> (v_status s) -> abs_pc s2 (v_thr s2 x) = <[t := A_served b w]> (fun t => abs_pc s (v_thr s t)) x) as Hthr.
    { intros s2 x E1 E2. rewrite E1. destruct (decide (x = t)) as [->|Hne].
      - rewrite fn_lookup_insert. destruct Hpc as [-> |[-> | ->]]; cbn; by rewrite E2, fn_lookup_insert.
      - rewrite fn_lookup_insert_ne by done. apply abs_status. intros c' Hc'. rewrite E2, fn_lookup_insert_ne; [done|]. intros Ec.
        apply (other_chain s p u HI x t c' c (c0 c') Hne Hc' (handed_chain _ _ Hh)); [by left|rewrite <- Ec; by left]. }
    destruct w; constructor; cbn [abs a_set a_transfer a_thr a_blk a_data a_disk]; intros x; try (by apply Hthr); try done.
    + cbn. destruct (decide (x = b)) as [->|Hne]; [by rewrite fn_lookup_insert|by rewrite fn_lookup_insert_ne].
    + cbn. destruct (decide (x = b)) as [->|Hne]; [by rewrite !fn_lookup_insert|by rewrite !fn_lookup_insert_ne].
  - intros [= <-]. right. by apply abs_stutter.
  - intros [= <-]. right. by apply abs_stutter.
Qed.

Lemma abs_step s p u s' : vinv s p u -> vstep s s' -> astep (abs s) (abs s') \/ aeq (abs s) (abs s').
Proof.
  intros HI [t Hc|t Ht|Hi|ch Hd].
  - left. by eapply abs_call.
  - by eapply abs_thread.
  - right. by eapply abs_intr.
  - by eapply abs_dev.
Qed.

(** A served request agrees with the disk. *)
Record ainv (a : astate) : Prop := {
  ai_buf : forall t t' b, a_buf (a_thr a t) = Some b -> a_buf (a_thr a t') = Some b -> t = t';
  ai_blk : forall t t' b b', a_buf (a_thr a t) = Some b -> a_buf (a_thr a t') = Some b' -> a_blk a b = a_blk a b' -> b = b';
  ai_served : forall t b w, a_thr a t = A_served b w -> a_disk a (a_blk a b) = a_data a b }.
Lemma ainv_eq a a' : aeq a a' -> ainv a -> ainv a'.
Proof.
  intros [E1 E2 E3 E4] [A1 A2 A3]. constructor.
  - intros t t' b. rewrite !E1. apply A1.
  - intros t t' b b'. rewrite !E1, !E2. apply A2.
  - intros t b w. rewrite E1, E2, E3, E4. apply A3.
Qed.
Lemma ainv_step a a' : astep a a' -> ainv a -> ainv a'.
Proof.
  intros H [A1 A2 A3]. destruct H as [t b w blk data Hidle Hex He|t b w Hp He|t b w Hs He]; apply (ainv_eq _ _ He); clear He.
  - assert (forall t' b', a_buf (<[t := A_pending b w]> (a_thr a) t') = Some b' -> t' = t /\ b' = b \/ t' <> t /\ a_buf (a_thr a t') = Some b' /\ b' <> b /\ a_blk a b' <> blk) as Hac.
    { intros t' b'. destruct (decide (t' = t)) as [->|Hne]; [rewrite fn_lookup_insert; intros [= <-]; by left|]. rewrite fn_lookup_insert_ne by done.
      intros E. right. by destruct (Hex t' b' E). }
    constructor; cbn [a_set a_thr a_blk a_data a_disk].
    + intros t1 t2 b' [[-> ->]|(N1 & B1 & C1 & _)]%Hac [[-> E]|(N2 & B2 & C2 & _)]%Hac; try done. by apply (A1 t1 t2 b').
    + intros t1 t2 b1 b2 [[-> ->]|(N1 & B1 & C1 & D1)]%Hac [[-> E]|(N2 & B2 & C2 & D2)]%Hac; rewrite ?E; try done;
        rewrite ?fn_lookup_insert, ?fn_lookup_insert_ne by done; try congruence. by apply (A2 t1 t2).
    + intros t' b' w'. destruct (decide (t' = t)) as [->|Hne]; [by rewrite fn_lookup_insert|]. rewrite fn_lookup_insert_ne by done. intros E.
      destruct (Hex t' b') as [Hb _]; [by rewrite E|]. rewrite !fn_lookup_insert_ne by done. by apply (A3 t' b' w').
  - assert (forall t', a_buf (<[t := A_served b w]> (a_thr a) t') = a_buf (a_thr a t')) as Hb.
    { intros t'. destruct (decide (t' = t)) as [->|Hne]; [by rewrite fn_lookup_insert, Hp|by rewrite fn_lookup_insert_ne]. }
    constructor.
    + intros t1 t2 b'. destruct w; cbn; rewrite !Hb; apply A1.
    + intros t1 t2 b1 b2. destruct w; cbn; rewrite !Hb; apply A2.
    + intros t' b' w'. destruct (decide (t' = t)) as [->|Hne].
      * destruct w; cbn; rewrite fn_lookup_insert; intros [= <- <-]; [by rewrite Z.eqb_refl|by rewrite fn_lookup_insert].
      * assert (forall E : a_thr a t' = A_served b' w', b' <> b /\ a_blk a b' <> a_blk a b) as Hd.
        { intros E. assert (b' <> b) as Hbb by (intros ->; apply Hne; apply (A1 t' t b); [by rewrite E|by rewrite Hp]). split; [done|].
          intros Eb. apply Hbb. apply (A2 t' t); [by rewrite E|by rewrite Hp|done]. }
        destruct w; cbn; rewrite fn_lookup_insert_ne by done; intros E; destruct (Hd E) as [D1 D2].
        -- rewrite (proj2 (Z.eqb_neq _ _)) by done. by apply (A3 t' b' w').
        -- rewrite fn_lookup_insert_ne by done. by apply (A3 t' b' w').
  - assert (forall t' b', a_buf (<[t := A_idle]> (a_thr a) t') = Some b' -> a_buf (a_thr a t') = Some b') as Hb.
    { intros t' b'. destruct (decide (t' = t)) as [->|Hne]; [by rewrite fn_lookup_insert|by rewrite fn_lookup_insert_ne]. }
    constructor; cbn [a_set a_thr a_blk a_data a_disk].
    + intros t1 t2 b' H1%Hb H2%Hb. by apply (A1 t1 t2 b').
    + intros t1 t2 b1 b2 H1%Hb H2%Hb. by apply (A2 t1 t2).
    + intros t' b' w'. destruct (decide (t' = t)) as [->|Hne]; [by rewrite fn_lookup_insert|]. rewrite fn_lookup_insert_ne by done. apply A3.
Qed.
Lemma ainv_reachable bufs disk n s : runs vstep n (vboot bufs disk) s -> ainv (abs s) /\ exists p u, vinv s p u.
Proof.
  intros H. apply (runs_invariant vstep (fun s => ainv (abs s) /\ exists p u, vinv s p u)) in H; [done| |].
  - intros s1 s2 (HA & p & u & HI) Hs. split; [|by eapply vinv_step]. destruct (abs_step _ _ _ _ HI Hs) as [H1|H1]; [by apply (ainv_step (abs s1))|by apply (ainv_eq (abs s1))].
  - split; [by constructor|]. exists [], []. apply vinv_boot.
Qed.

(** ** Progress *)

Lemma tstep_holds s t : holds (v_thr s t) = true -> is_Some (tstep t s).
Proof.
  unfold tstep. destruct (v_thr s t); try done; intros _; [|by destruct (vb_disk _)].
  destruct (alloc3_desc s) as [[[|i [|j [|k [|]]]]|] s1]; done.
Qed.
Lemma istep_intr s : v_lock s = H_intr -> is_Some (istep s).
Proof. unfold istep. intros ->. destruct (_ =? _); [done|]. destruct (negb _); [done|]. by destruct (v_info_b s _). Qed.
Lemma few_taken f : few f -> exists i, (i < NUM)%nat /\ f i = false.
Proof.
  intros (l & Hl & H). destruct (decide (Forall (fun i => f i = true) (seq 0 NUM))) as [Hall|Hn].
  - exfalso. assert (length (seq 0 NUM) <= length l)%nat; [|rewrite length_seq in *; unfold NUM in *; lia].
    apply NoDup_incl_length; [apply seq_NoDup|]. intros i Hi. rewrite Forall_forall in Hall. apply list_elem_of_In, H.
    + apply in_seq in Hi. unfold NUM in *. lia.
    + apply Hall. by apply list_elem_of_In.
  - apply not_Forall_Exists in Hn; [|intros ?; apply _]. apply Exists_exists in Hn as (i & Hi & Hf). exists i.
    apply elem_of_seq in Hi. split; [lia|]. by apply not_true_is_false.
Qed.

(** The process that everything waits for. *)
Lemma some_waiter s p u t : vinv s p u -> v_lock s = H_none -> v_thr s t <> V_idle ->
  exists t', (exists b w, v_thr s t' = V_start b w) \/ (exists b w c, v_thr s t' = V_sleepb b w c \/ v_thr s t' = V_wake b w c).
Proof.
  intros HI El Hne. pose proof (vi_thr _ _ _ HI) as HT.
  assert (forall t', holds (v_thr s t') = false) as Hh.
  { intros t'. destruct (holds (v_thr s t')) eqn:E; [|done]. apply (ti_lock _ _ _ _ HT) in E. congruence. }
  assert (forall t' c, chain_of (v_thr s t') = Some c -> exists b w c, v_thr s t' = V_sleepb b w c \/ v_thr s t' = V_wake b w c) as Hch.
  { intros t' c Hc. specialize (Hh t'). destruct (v_thr s t') as [| | | | | | |b w c'|b w c'|b w c'| |]; try done; exists b, w, c'; first [by left|by right]. }
  destruct (v_thr s t) as [|b w|b w|b w|b w c|b w c|b w c|b w c|b w c|b w c|b w c|b w] eqn:E; try done;
    try (specialize (Hh t); by rewrite E in Hh); try (exists t; right; apply (Hch t c); by rewrite E).
  - exists t. left. by exists b, w.
  - destruct (few_taken (v_free s)) as (i & Hi & Hf); [apply (ti_sleep _ _ _ _ HT t); by rewrite E|].
    destruct (ti_used _ _ _ _ HT i Hi Hf) as (t' & c & Hc & _). exists t'. right. by apply (Hch t' c).
Qed.

(** The device or the interrupt handler can move a request on. *)
Lemma request_moves s p u b c : vinv s p u -> v_lock s = H_none -> waiting s (p ++ v_inflight s) (dev_heads (v_dev s) ++ u) b c -> vb_disk (v_bufs s b) = true ->
  (exists ch, is_Some (dstep ch s)) \/ (is_Some (istep s) /\ v_seen s <> v_used_idx s).
Proof.
  intros HI El Hw Hd. pose proof (nodup_bound _ _ (vi_nodup _ _ _ HI) (head_bound s p u HI)) as Hlen. rewrite !length_app in Hlen. unfold NUM in Hlen.
  destruct (v_dev s) as [|h|h] eqn:Ed; [|left; exists D_store; unfold dstep; by rewrite Ed..].
  destruct Hw as [(Hin & _)|[(Hin & _)|(_ & _ & _ & ?)]]; [| |congruence].
  - left. apply elem_of_app in Hin as [Hin|Hin].
    + exists D_take. unfold dstep. rewrite Ed. destruct (vi_avail _ _ _ HI) as (A1 & A2 & _). destruct (Z.eqb_spec (v_dev_idx s) (v_avail_idx s)) as [Eq|]; [|done].
      exfalso. destruct p as [|h p]; [by apply not_elem_of_nil in Hin|]. cbn [length] in *. rewrite A2 in Eq. unfold u16 in Eq. zlia.
    + exists (D_serve (c0 c)). unfold dstep. rewrite Ed, bool_decide_eq_true_2 by done. done.
  - right. cbn in Hin. destruct (vi_usedr _ _ _ HI) as (U1 & U2 & _). split; [unfold istep; by rewrite El|].
    intros Eq. destruct u as [|h u]; [by apply not_elem_of_nil in Hin|]. cbn [length] in *. rewrite U2 in Eq. unfold u16 in Eq. zlia.
Qed.

(** ** Theorems *)

(** C31: the driver with the device is an atomic disk.  In every reachable state, whatever the order of processes, interrupts and device, nothing has panicked and every request handed to the device was well formed; and every step is a step of the atomic disk, where a pending request transfers its whole block in one step and only then returns, or changes nothing there. *)
Theorem virtio_refines_atomic_disk bufs disk n s : runs vstep n (vboot bufs disk) s ->
  v_panic s = false /\ forall s', vstep s s' -> astep (abs s) (abs s') \/ aeq (abs s) (abs s').
Proof.
  intros H. destruct (vinv_reachable _ _ _ _ H) as (p & u & HI). split; [apply HI|]. intros s' Hs. by eapply abs_step.
Qed.

(** When [virtio_disk_rw] is about to return, the buffer and its block on the disk are the same, and its three descriptors are free again or in use by another request. *)
Theorem virtio_disk_rw_transfers bufs disk n s t b w : runs vstep n (vboot bufs disk) s -> v_thr s t = V_rel b w ->
  v_disk s (vb_blockno (v_bufs s b)) = vb_data (v_bufs s b) /\
  forall i, (i < NUM)%nat -> v_free s i = true \/ exists t' c, t' <> t /\ chain_of (v_thr s t') = Some c /\ i ∈ descs c.
Proof.
  intros H E. destruct (ainv_reachable _ _ _ _ H) as (HA & p & u & HI). split.
  - apply (ai_served _ HA t b w). cbn. by rewrite E.
  - intros i Hi. destruct (v_free s i) eqn:Ef; [by left|right]. destruct (ti_used _ _ _ _ (vi_thr _ _ _ HI) i Hi Ef) as (t' & c & Hc & Hin).
    exists t', c. split; [|done]. intros ->. by rewrite E in Hc.
Qed.

(** C32: the driver never deadlocks: as long as a process is in [virtio_disk_rw], a process can take a step, or the device can, or the interrupt handler has something to do. *)
Theorem virtio_no_deadlock bufs disk n s t : runs vstep n (vboot bufs disk) s -> v_thr s t <> V_idle ->
  (exists t', is_Some (tstep t' s)) \/ (exists ch, is_Some (dstep ch s)) \/ (is_Some (istep s) /\ (v_lock s = H_intr \/ v_seen s <> v_used_idx s)).
Proof.
  intros H Hne. destruct (vinv_reachable _ _ _ _ H) as (p & u & HI). destruct (v_lock s) as [|t'|] eqn:El.
  - destruct (some_waiter s p u t HI El Hne) as (t' & [(b & w & E)|(b & w & c & [E|E])]).
    + left. exists t'. unfold tstep. by rewrite E, El.
    + pose proof (vi_phase _ _ _ HI t') as Hp. rewrite E in Hp. destruct Hp as (_ & Hw & Hd).
      destruct (request_moves s p u b c HI El Hw Hd) as [Hm|[Hm Hm']]; [right; by left|right; right; split; [done|by right]].
    + left. exists t'. unfold tstep. by rewrite E, El.
  - left. exists t'. apply tstep_holds. by apply (ti_lock _ _ _ _ (vi_thr _ _ _ HI)).
  - right. right. split; [by apply istep_intr|by left].
Qed.

(** *** A run *)

Inductive vact := A_t (t : nat) | A_i | A_d (ch : dchoice).
Fixpoint vexec (l : list vact) (s : vstate) : option vstate :=
  match l with
  | [] => Some s
  | a :: l' =>
    match (match a with A_t t => tstep t s | A_i => istep s | A_d ch => dstep ch s end) with
    | Some s' => vexec l' s'
    | None => None
    end
  end.
Lemma vexec_runs l : forall s s', vexec l s = Some s' -> runs vstep (length l) s s'.
Proof.
  induction l as [|a l IH]; intros s s'; cbn; [intros [= <-]; constructor|].
  destruct a as [t| |ch]; [destruct (tstep t s) eqn:E|destruct (istep s) eqn:E|destruct (dstep ch s) eqn:E]; try done; intros H;
    (apply (runs_S _ _ _ v); [|by apply IH]); [by eapply vs_thread|by apply vs_intr|by eapply vs_dev].
Qed.

(** Process 0 writes block 7 from buffer 3 until it is about to return. *)
Definition vdemo_boot : vstate := vboot (fun _ => VBuf 0 false []) (fun _ => []).
Definition vdemo_call : vstate := put_thr 0 (V_start 3 true) (upd_buf 3 (fun v => VBuf 7 (vb_disk v) [1; 2; 3]) vdemo_boot).
Definition vdemo_acts : list vact :=
  [A_t 0; A_t 0; A_t 0; A_t 0; A_t 0; A_t 0; A_d D_take; A_d (D_serve 0); A_d D_store; A_d D_store; A_i; A_i; A_i; A_t 0; A_t 0; A_t 0].
Lemma vdemo_runs : exists s, runs vstep 17 vdemo_boot s /\ v_thr s 0%nat = V_rel 3 true.
Proof.
  destruct (vexec vdemo_acts vdemo_call) as [s|] eqn:E; [|vm_compute in E; done]. exists s. split.
  - apply (runs_S vstep 16 _ vdemo_call); [|by apply vexec_runs in E]. apply (vs_call _ _ 0). by constructor.
  - assert ((fun o => match o with Some s => v_thr s 0%nat | None => V_idle end) (vexec vdemo_acts vdemo_call) = V_rel 3 true) as H by (vm_compute; reflexivity).
    by rewrite E in H.
Qed.

Lemma virtio_refines_atomic_disk_witness : exists s, runs vstep 17 vdemo_boot s /\
  (v_panic s = false /\ forall s', vstep s s' -> astep (abs s) (abs s') \/ aeq (abs s) (abs s')).
Proof. destruct vdemo_runs as (s & H & _). exists s. split; [exact H|]. exact (virtio_refines_atomic_disk _ _ 17 s H). Defined.
Lemma virtio_disk_rw_transfers_witness : exists s, runs vstep 17 vdemo_boot s /\ v_thr s 0%nat = V_rel 3 true /\
  (v_disk s (vb_blockno (v_bufs s 3%nat)) = vb_data (v_bufs s 3%nat) /\
   forall i, (i < NUM)%nat -> v_free s i = true \/ exists t' c, t' <> 0%nat /\ chain_of (v_thr s t') = Some c /\ i ∈ descs c).
Proof. destruct vdemo_runs as (s & H & E). exists s. split; [exact H|]. split; [exact E|]. exact (virtio_disk_rw_transfers _ _ 17 s 0 3 true H E). Defined.
Lemma virtio_no_deadlock_witness : exists s, runs vstep 17 vdemo_boot s /\ v_thr s 0%nat <> V_idle /\
  ((exists t', is_Some (tstep t' s)) \/ (exists ch, is_Some (dstep ch s)) \/ (is_Some (istep s) /\ (v_lock s = H_intr \/ v_seen s <> v_used_idx s))).
Proof.
  destruct vdemo_runs as (s & H & E). assert (v_thr s 0%nat <> V_idle) as Hn by (by rewrite E).
  exists s. split; [exact H|]. split; [exact Hn|]. exact (virtio_no_deadlock _ _ 17 s 0 H Hn).
Defined.
