(* ===== verification/Boot.v ===== *)
(** * Boot: machine mode, device set-up and main

    Models start.c (the machine-mode registers of a hart and its timer),
    [uartinit], [consoleinit], [plicinit], [plicinithart],
    [virtio_disk_init] and [main].  Device registers are memory mapped: the
    code runs in [K] with the list of register writes so far, and what a
    read returns is decided by the device, a function of the writes. *)

From S2P Require Import Prelude.
From S2P Require Import State.
From S2P Require Import Kernel.
From S2P Require Import Sched.
From S2P Require Import Mem.
From S2P Require Import Kalloc.
From S2P Require Import Bio.
From S2P Require Import Vm.
From S2P Require Import VmProps.
From S2P Require Import UvmProps.
From S2P Require Import Console.
From S2P Require Import Fs.
From S2P Require Import Proc.
From S2P Require Import Virtio.
From S2P Require Import Trap.

(** ** start.c *)

(** The registers of a hart that [start] uses, with its privilege level
    (0 user, 1 supervisor, 3 machine) and program counter. *)
Record hart := Hart {
  h_mstatus : Z; h_mepc : Z; h_satp : Z; h_medeleg : Z; h_mideleg : Z; h_sie : Z; h_mie : Z;
  h_pmpaddr0 : Z; h_pmpcfg0 : Z; h_mscratch : Z; h_mtvec : Z; h_tp : Z; h_mhartid : Z; h_priv : Z; h_pc : Z
}.
(** The timer of the CLINT and [timer_scratch]. *)
Record timer := Timer { t_mtime : Z; t_mtimecmp : Z -> Z; t_scratch : Z -> Z -> Z }.

Definition MSTATUS_MPP_MASK : Z := Z.shiftl 3 11.
Definition MSTATUS_MPP_S : Z := Z.shiftl 1 11.
Definition MSTATUS_MIE : Z := Z.shiftl 1 3.
Definition SIE_SEIE : Z := Z.shiftl 1 9.
Definition SIE_STIE : Z := Z.shiftl 1 5.
Definition SIE_SSIE : Z := Z.shiftl 1 1.
Definition MIE_MTIE : Z := Z.shiftl 1 7.
Definition CLINT : Z := 0x2000000.
Definition CLINT_MTIMECMP (hartid : Z) : Z := CLINT + 0x4000 + 8 * hartid.
Definition NCPU : Z := 8.

(** [timer_scratch], [timervec] and [main] are the addresses of the C
    objects. *)
Section start.
Context (timer_scratch timervec main_addr : Z).

Definition timerinit (s : hart * timer) : hart * timer :=
  let (h, t) := s in
  let id := i32 (h_mhartid h) in
  let interval := 1000000 in
  let cmp i := if i =? id then u64 (t_mtime t + interval) else t_mtimecmp t i in
  let scratch i k := if i =? id then (if k =? 3 then CLINT_MTIMECMP id else if k =? 4 then interval else t_scratch t i k) else t_scratch t i k in
  (Hart (Z.lor (h_mstatus h) MSTATUS_MIE) (h_mepc h) (h_satp h) (h_medeleg h) (h_mideleg h) (h_sie h) (Z.lor (h_mie h) MIE_MTIE)
     (h_pmpaddr0 h) (h_pmpcfg0 h) (timer_scratch + 40 * id) timervec (h_tp h) (h_mhartid h) (h_priv h) (h_pc h),
   Timer (t_mtime t) cmp scratch).

(** [start] up to the instruction [mret], and the privilege and program
    counter after it. *)
Definition start_regs (s : hart * timer) : hart * timer :=
  let (h, t) := s in
  let x := Z.lor (Z.land (h_mstatus h) (u64 (Z.lnot MSTATUS_MPP_MASK))) MSTATUS_MPP_S in
  let h := Hart x main_addr 0 0xffff 0xffff (Z.lor (h_sie h) (Z.lor SIE_SEIE (Z.lor SIE_STIE SIE_SSIE))) (h_mie h)
     0x3fffffffffffff 0xf (h_mscratch h) (h_mtvec h) (h_tp h) (h_mhartid h) (h_priv h) (h_pc h) in
  let (h, t) := timerinit (h, t) in
  (Hart (h_mstatus h) (h_mepc h) (h_satp h) (h_medeleg h) (h_mideleg h) (h_sie h) (h_mie h) (h_pmpaddr0 h) (h_pmpcfg0 h)
     (h_mscratch h) (h_mtvec h) (u64 (i32 (h_mhartid h))) (h_mhartid h) (h_priv h) (h_pc h), t).
Definition mret_to (h : hart) : hart :=
  Hart (h_mstatus h) (h_mepc h) (h_satp h) (h_medeleg h) (h_mideleg h) (h_sie h) (h_mie h) (h_pmpaddr0 h) (h_pmpcfg0 h)
    (h_mscratch h) (h_mtvec h) (h_tp h) (h_mhartid h) (Z.land (Z.shiftr (h_mstatus h) 11) 3) (h_mepc h).
Definition start (s : hart * timer) : hart * timer := let (h, t) := start_regs s in (mret_to h, t).
End start.

(** ** Memory-mapped registers *)

Definition regs : Type := list (Z * Z).   (* address and value, latest first *)
Definition B (A : Type) : Type := regs -> K (A * regs).
#[export] Instance B_ret : MRet B := fun A a l => mret (a, l).
#[export] Instance B_bind : MBind B := fun A C f m l => r ← m l; f (fst r) (snd r).

(** Kernel code without device registers, and a register write of the given width. *)
Definition bk {A} (m : K A) : B A := fun l => a ← m; mret (a, l).
Definition bpanic {A} (msg : string) : B A := fun _ => panic msg.
Definition put8 (a v : Z) : B unit := fun l => mret (tt, (a, u8 v) :: l).
Definition put32 (a v : Z) : B unit := fun l => mret (tt, (a, u32 v) :: l).

(** *** uart.c, console.c *)

Definition UART_IER : Z := 1.
Definition UART_FCR : Z := 2.
Definition UART_LCR : Z := 3.
Definition uartinit : B unit :=
  put8 (UART0 + UART_IER) 0x00;;
  put8 (UART0 + UART_LCR) (Z.shiftl 1 7);;
  put8 (UART0 + 0) 0x03;;
  put8 (UART0 + 1) 0x00;;
  put8 (UART0 + UART_LCR) (Z.shiftl 3 0);;
  put8 (UART0 + UART_FCR) (Z.lor (Z.shiftl 1 0) (Z.shiftl 3 1));;
  put8 (UART0 + UART_IER) (Z.lor (Z.shiftl 1 1) (Z.shiftl 1 0)).
(** The entries of [devsw] are in File. *)
Definition consoleinit : B unit := uartinit.

(** *** plic.c *)

Definition PLIC_SENABLE (hart : Z) : Z := PLIC + 0x2080 + hart * 0x100.
Definition PLIC_SPRIORITY (hart : Z) : Z := PLIC + 0x201000 + hart * 0x2000.
Definition plicinit : B unit :=
  put32 (PLIC + UART0_IRQ * 4) 1;;
  put32 (PLIC + VIRTIO0_IRQ * 4) 1.
Definition plicinithart : B unit :=
  hart ← bk cpuid;
  put32 (PLIC_SENABLE hart) (Z.lor (Z.shiftl 1 UART0_IRQ) (Z.shiftl 1 VIRTIO0_IRQ));;
  put32 (PLIC_SPRIORITY hart) 0.

(** *** virtio_disk.c *)

Module Mmio.
Definition MAGIC_VALUE : Z := 0x000.
Definition VERSION : Z := 0x004.
Definition DEVICE_ID : Z := 0x008.
Definition VENDOR_ID : Z := 0x00c.
Definition DEVICE_FEATURES : Z := 0x010.
Definition DRIVER_FEATURES : Z := 0x020.
Definition QUEUE_SEL : Z := 0x030.
Definition QUEUE_NUM_MAX : Z := 0x034.
Definition QUEUE_NUM : Z := 0x038.
Definition QUEUE_READY : Z := 0x044.
Definition STATUS : Z := 0x070.
Definition QUEUE_DESC_LOW : Z := 0x080.
Definition QUEUE_DESC_HIGH : Z := 0x084.
Definition DRIVER_DESC_LOW : Z := 0x090.
Definition DRIVER_DESC_HIGH : Z := 0x094.
Definition DEVICE_DESC_LOW : Z := 0x0a0.
Definition DEVICE_DESC_HIGH : Z := 0x0a4.
Definition R (r : Z) : Z := VIRTIO0 + r.
End Mmio.
Import Mmio.

Definition S_ACKNOWLEDGE : Z := 1.
Definition S_DRIVER : Z := 2.
Definition S_DRIVER_OK : Z := 4.
Definition S_FEATURES_OK : Z := 8.

(** The features that the driver does not accept. *)
Definition refused_features : list Z := [5; 7; 11; 12; 27; 29; 28].
Definition accept_features (features : Z) : Z :=
  fold_left (fun f k => Z.land f (u64 (Z.lnot (Z.shiftl 1 k)))) refused_features features.

(** The pages of the queue and [disk.free]. *)
Record vdisk := VDisk { vd_desc : Z; vd_avail : Z; vd_used : Z; vd_free : list Z }.

Section boot.
(** What the device returns for a register, after the writes so far. *)
Context (dev : regs -> Z -> Z).
Definition get32 (a : Z) : B Z := fun l => mret (u32 (dev l a), l).

(** The rest of [virtio_disk_init]: the memory of the queue. *)
Definition virtio_queue (status : Z) : B vdisk :=
  desc ← bk kalloc;
  avail ← bk kalloc;
  used ← bk kalloc;
  if (desc =? 0) || (avail =? 0) || (used =? 0) then bpanic "virtio disk kalloc" else
  bk (kmemset desc 0 PGSIZE);;
  bk (kmemset avail 0 PGSIZE);;
  bk (kmemset used 0 PGSIZE);;
  put32 (R QUEUE_NUM) (Z.of_nat NUM);;
  put32 (R QUEUE_DESC_LOW) desc;;
  put32 (R QUEUE_DESC_HIGH) (Z.shiftr desc 32);;
  put32 (R DRIVER_DESC_LOW) avail;;
  put32 (R DRIVER_DESC_HIGH) (Z.shiftr avail 32);;
  put32 (R DEVICE_DESC_LOW) used;;
  put32 (R DEVICE_DESC_HIGH) (Z.shiftr used 32);;
  put32 (R QUEUE_READY) 0x1;;
  let status := Z.lor status S_DRIVER_OK in
  put32 (R STATUS) status;;
  mret (VDisk desc avail used (replicate NUM 1)).

Definition virtio_disk_init : B vdisk :=
  magic ← get32 (R MAGIC_VALUE);
  if negb (magic =? 0x74726976) then bpanic "could not find virtio disk" else
  version ← get32 (R VERSION);
  if negb (version =? 2) then bpanic "could not find virtio disk" else
  id ← get32 (R DEVICE_ID);
  if negb (id =? 2) then bpanic "could not find virtio disk" else
  vendor ← get32 (R VENDOR_ID);
  if negb (vendor =? 0x554d4551) then bpanic "could not find virtio disk" else
  let status := 0 in
  put32 (R STATUS) status;;
  let status := Z.lor status S_ACKNOWLEDGE in
  put32 (R STATUS) status;;
  let status := Z.lor status S_DRIVER in
  put32 (R STATUS) status;;
  features ← get32 (R DEVICE_FEATURES);
  put32 (R DRIVER_FEATURES) (accept_features features);;
  let status := Z.lor status S_FEATURES_OK in
  put32 (R STATUS) status;;
  status ← get32 (R STATUS);
  if Z.land status S_FEATURES_OK =? 0 then bpanic "virtio disk FEATURES_OK unset" else
  put32 (R QUEUE_SEL) 0;;
  ready ← get32 (R QUEUE_READY);
  if negb (ready =? 0) then bpanic "virtio disk should not be ready" else
  max ← get32 (R QUEUE_NUM_MAX);
  if max =? 0 then bpanic "virtio disk has no queue 0" else
  if max <? Z.of_nat NUM then bpanic "virtio disk max queue too short" else
  virtio_queue status.

(** ** main.c *)

(** [main] of the first hart up to [started = 1], and of the others after
    it; both go on with [scheduler].  [trapinit] and [fileinit] only
    initialise locks. *)
Context `{D : Disk} (kernelvec forkret_addr : Z).
Definition main_first : B vdisk :=
  consoleinit;;
  bk printfinit;;
  bk (printf (bytes_of_string "
") []);;
  bk (printf (bytes_of_string "xv6 kernel is booting
") []);;
  bk (printf (bytes_of_string "
") []);;
  bk kinit;;
  bk kvminit;;
  bk kvminithart;;
  bk procinit;;
  bk (trapinithart kernelvec);;
  plicinit;;
  plicinithart;;
  bk binit;;
  bk iinit;;
  d ← virtio_disk_init;
  bk (userinit forkret_addr);;
  mret d.
Definition main_other : B unit :=
  hart ← bk cpuid;
  bk (printf (bytes_of_string "hart %d starting
") [A_int hart]);;
  bk kvminithart;;
  bk (trapinithart kernelvec);;
  plicinithart.
(** [main] with [n] iterations of the scheduler. *)
Definition main (n : nat) (swtch : nat -> K unit) : B unit :=
  hart ← bk cpuid;
  (if hart =? 0 then main_first;; mret tt else main_other);;
  bk (scheduler n swtch).
End boot.

(** ** Machine mode *)

Lemma testbit_mask x c k : 0 <= c < 2 ^ 64 -> 0 <= k < 64 -> Z.testbit (Z.land x (u64 (Z.lnot c))) k = Z.testbit x k && negb (Z.testbit c k).
Proof. intros Hc Hk. rewrite Z.land_spec. unfold u64. rewrite Z.mod_pow2_bits_low by lia. by rewrite Z.lnot_spec by lia. Qed.

(** [start] enters [main] in supervisor mode, without paging, with all
    traps delegated, its number in [tp], and its own timer interrupt due in
    a tenth of a second.  The timer and the scratch area of other harts, and
    all other bits of the status register, are kept. *)
Theorem start_correct scratch vec main_addr h t : let id := h_mhartid h in let r := start scratch vec main_addr (h, t) in
  0 <= id < NCPU -> 0 <= h_mstatus h < 2 ^ 64 ->
  h_priv (fst r) = 1 /\ h_pc (fst r) = main_addr /\ h_satp (fst r) = 0 /\ h_medeleg (fst r) = 0xffff /\ h_mideleg (fst r) = 0xffff /\
  h_tp (fst r) = id /\ h_mtvec (fst r) = vec /\ h_mscratch (fst r) = scratch + 40 * id /\
  (forall k, 0 <= k < 64 -> Z.testbit (h_mstatus (fst r)) k = if decide (k = 3 \/ k = 11) then true else if decide (k = 12) then false else Z.testbit (h_mstatus h) k) /\
  (forall k, 0 <= k -> Z.testbit (h_mie (fst r)) k = Z.testbit (h_mie h) k || (k =? 7)) /\
  t_mtimecmp (snd r) id = u64 (t_mtime t + 1000000) /\ t_scratch (snd r) id 3 = CLINT_MTIMECMP id /\ t_scratch (snd r) id 4 = 1000000 /\
  (forall i, i <> id -> t_mtimecmp (snd r) i = t_mtimecmp t i /\ forall k, t_scratch (snd r) i k = t_scratch t i k).
Proof.
  intros id r Hid Hst. assert (i32 id = id) as Ei by (apply i32_small; unfold NCPU in Hid; lia).
  assert (forall k, 0 <= k < 64 -> Z.testbit (h_mstatus (fst r)) k = if decide (k = 3 \/ k = 11) then true else if decide (k = 12) then false else Z.testbit (h_mstatus h) k) as Hbits.
  { intros k Hk. change (h_mstatus (fst r)) with (Z.lor (Z.lor (Z.land (h_mstatus h) (u64 (Z.lnot MSTATUS_MPP_MASK))) MSTATUS_MPP_S) MSTATUS_MIE).
    rewrite !Z.lor_spec, testbit_mask by (done || by vm_compute). unfold MSTATUS_MPP_MASK, MSTATUS_MPP_S, MSTATUS_MIE. rewrite !Z.shiftl_spec by lia.
    change 3 with (Z.ones 2) at 1. destruct (decide (k = 3)) as [->|H3]; [by rewrite decide_True by tauto; rewrite orb_true_r|].
    destruct (decide (k = 11)) as [->|H11]; [rewrite decide_True by tauto; by rewrite orb_true_r|].
    rewrite decide_False by tauto. assert (forall j, j <> 0 -> Z.testbit 1 j = false) as H1.
    { intros j Hj. destruct (Z.neg_nonneg_cases j); [by apply Z.testbit_neg_r|]. apply (Z.bits_above_log2 1 j); cbn; lia. }
    rewrite !H1, !orb_false_r by lia. destruct (decide (k = 12)) as [->|H12]; [by rewrite andb_false_r|].
    assert (Z.testbit (Z.ones 2) (k - 11) = false) as ->; [|by rewrite andb_true_r].
    destruct (Z.neg_nonneg_cases (k - 11)); [by apply Z.testbit_neg_r|]. apply Z.ones_spec_high. lia. }
  split_and!; try done.
  - change (h_priv (fst r)) with (Z.land (Z.shiftr (h_mstatus (fst r)) 11) 3). apply Z.bits_inj'. intros k Hk.
    rewrite Z.land_spec, Z.shiftr_spec by done. destruct (decide (k < 2)) as [Hs|Hs].
    + rewrite Hbits by lia. assert (k = 0 \/ k = 1) as [->| ->] by lia; done.
    + change 3 with (Z.ones 2). rewrite Z.ones_spec_high, andb_false_r by lia. symmetry. apply (Z.bits_above_log2 1 k); cbn; lia.
  - change (h_tp (fst r)) with (u64 (i32 id)). rewrite Ei. apply u64_small. unfold NCPU in Hid. lia.
  - change (h_mscratch (fst r)) with (scratch + 40 * i32 id). by rewrite Ei.
  - intros k Hk. change (h_mie (fst r)) with (Z.lor (h_mie h) (Z.shiftl 1 7)). rewrite Z.lor_spec, Z.shiftl_spec by done. f_equal.
    destruct (Z.eqb_spec k 7) as [->|Hne]; [done|]. destruct (Z.neg_nonneg_cases (k - 7)); [by apply Z.testbit_neg_r|]. apply (Z.bits_above_log2 1 (k - 7)); cbn; lia.
  - cbn. fold id. by rewrite Ei, Z.eqb_refl.
  - cbn. fold id. by rewrite Ei, Z.eqb_refl.
  - cbn. fold id. by rewrite Ei, Z.eqb_refl.
  - intros i Hi. cbn. fold id. by rewrite Ei, (proj2 (Z.eqb_neq i id)) by done.
Qed.

(** ** virtio_disk_init *)

(** The features written are the device's, without those refused. *)
Lemma accept_features_spec f k : 0 <= k < 64 ->
  Z.testbit (accept_features f) k = Z.testbit f k && bool_decide (k ∉ refused_features).
Proof.
  intros Hk. unfold accept_features. assert (forall l, Forall (fun j => 0 <= j < 32) l -> forall f, Z.testbit (fold_left (fun f j => Z.land f (u64 (Z.lnot (Z.shiftl 1 j)))) l f) k = Z.testbit f k && bool_decide (k ∉ l)) as Hf.
  { clear f. induction l as [|j l IH]; intros Hl f; cbn [fold_left].
    - rewrite bool_decide_eq_true_2 by apply not_elem_of_nil. by rewrite andb_true_r.
    - apply Forall_cons in Hl as [Hj Hl]. rewrite IH by done. rewrite testbit_mask; [|split; [apply Z.shiftl_nonneg; lia|]|done].
      2: { rewrite Z.shiftl_1_l. apply Z.pow_lt_mono_r; lia. }
      rewrite <- andb_assoc. f_equal. rewrite Z.shiftl_1_l. destruct (decide (k = j)) as [->|Hne].
      + rewrite Z.pow2_bits_true by lia. cbn. symmetry. apply bool_decide_eq_false_2. rewrite not_elem_of_cons. tauto.
      + rewrite Z.pow2_bits_false by lia. cbn. apply bool_decide_ext. rewrite not_elem_of_cons. tauto. }
  apply Hf. unfold refused_features. repeat apply Forall_cons_2; try lia. apply Forall_nil_2.
Qed.

(** What the driver reads from register [r] after the writes [l]. *)
Definition rd (dev : regs -> Z -> Z) (l : regs) (r : Z) : Z := u32 (dev l (R r)).

Section virtio_init.
Context (dev : regs -> Z -> Z) (l : regs).

Definition right_device : bool :=
  (rd dev l MAGIC_VALUE =? 0x74726976) && (rd dev l VERSION =? 2) && (rd dev l DEVICE_ID =? 2) && (rd dev l VENDOR_ID =? 0x554d4551).
(** The registers after [DRIVER], after [FEATURES_OK], and after the queue
    is selected. *)
Definition regs_driver : regs := (R STATUS, 3) :: (R STATUS, 1) :: (R STATUS, 0) :: l.
Definition regs_features : regs := (R STATUS, 11) :: (R DRIVER_FEATURES, u32 (accept_features (rd dev regs_driver DEVICE_FEATURES))) :: regs_driver.
Definition regs_queue : regs := (R QUEUE_SEL, 0) :: regs_features.
(** The registers after set-up with the pages [p], [q] and [u]. *)
Definition regs_ready (p q u : Z) : regs :=
  (R STATUS, u32 (Z.lor (rd dev regs_features STATUS) S_DRIVER_OK)) :: (R QUEUE_READY, 1) ::
  (R DEVICE_DESC_HIGH, u32 (Z.shiftr u 32)) :: (R DEVICE_DESC_LOW, u32 u) :: (R DRIVER_DESC_HIGH, u32 (Z.shiftr q 32)) :: (R DRIVER_DESC_LOW, u32 q) ::
  (R QUEUE_DESC_HIGH, u32 (Z.shiftr p 32)) :: (R QUEUE_DESC_LOW, u32 p) :: (R QUEUE_NUM, 8) :: regs_queue.


Lemma b_get {A} a (f : Z -> B A) l0 w : (x ← get32 dev a; f x) l0 w = f (u32 (dev l0 a)) l0 w.
Proof. done. Qed.
Lemma b_put {A} a v (f : unit -> B A) l0 w : (x ← put32 a v; f x) l0 w = f tt ((a, u32 v) :: l0) w.
Proof. done. Qed.
Lemma b_bk {A C} (m : K A) (f : A -> B C) l0 w a w' : m w = Ret a w' -> (x ← bk m; f x) l0 w = f a l0 w'.
Proof. intros E. unfold mbind, B_bind, bk, mbind, K_bind. by rewrite E. Qed.

(** Up to the allocations: a panic, or the selected queue. *)
Lemma virtio_negotiate w : virtio_disk_init dev l w =
  if negb right_device then Panic "could not find virtio disk" w else
  if Z.land (rd dev regs_features STATUS) S_FEATURES_OK =? 0 then Panic "virtio disk FEATURES_OK unset" w else
  if negb (rd dev regs_queue QUEUE_READY =? 0) then Panic "virtio disk should not be ready" w else
  if rd dev regs_queue QUEUE_NUM_MAX =? 0 then Panic "virtio disk has no queue 0" w else
  if rd dev regs_queue QUEUE_NUM_MAX <? 8 then Panic "virtio disk max queue too short" w else
  virtio_queue (rd dev regs_features STATUS) regs_queue w.
Proof.
  unfold right_device, rd, virtio_disk_init. rewrite b_get. destruct (_ =? 0x74726976); [|done]. cbn [negb andb].
  rewrite b_get. destruct (_ =? 2); [|done]. cbn [negb andb]. rewrite b_get. destruct (_ =? 2); [|done]. cbn [negb andb].
  rewrite b_get. destruct (_ =? 0x554d4551); [|done]. cbn [negb andb].
  rewrite !b_put, b_get, !b_put, b_get. change (u32 0) with 0. change (u32 (Z.lor 0 S_ACKNOWLEDGE)) with 1. change (u32 (Z.lor (Z.lor 0 S_ACKNOWLEDGE) S_DRIVER)) with 3.
  change (u32 (Z.lor (Z.lor (Z.lor 0 S_ACKNOWLEDGE) S_DRIVER) S_FEATURES_OK)) with 11. fold regs_driver. fold (rd dev regs_driver DEVICE_FEATURES). fold regs_features.
  destruct (_ =? 0); [done|]. rewrite b_put, b_get. change (u32 0) with 0. fold regs_queue. destruct (_ =? 0); [|done]. cbn [negb].
  rewrite b_get. destruct (_ =? 0); [done|]. change (Z.of_nat NUM) with 8. by destruct (_ <? 8).
Qed.

(** A page cleared while it is not free. *)
Lemma clear_ok p pm F : alloc_inv pm F -> valid_page (pm_end pm) p -> p ∉ F -> alloc_inv (set_mem (memset p 0 PGSIZE) pm) F.
Proof.
  intros H Hp Hn. apply (alloc_inv_ext pm F (memset p 0 PGSIZE (pm_mem pm)) H); [apply memset_bytes, H|].
  intros a Ha b Hb. rewrite memset_spec by done. rewrite decide_False; [done|].
  apply (page_disjoint (pm_end pm) a); [by apply (ai_valid _ _ H)|done|congruence|done].
Qed.

(** What the set-up does once the queue is selected. *)
Definition virtio_made (w : world) (F : list Z) (r : res (vdisk * regs)) : Prop :=
  match F with
  | p :: q :: u :: F' => exists pm', r = Ret (VDisk p q u (replicate 8 1), regs_ready p q u) (with_k w (set_k_pm pm' (w_k w))) /\
      alloc_inv pm' F' /\ same_fields (k_pm (w_k w)) pm' /\
      forall b, pm_mem pm' b = if decide (in_page p b \/ in_page q b \/ in_page u b) then 0 else pm_mem (k_pm (w_k w)) b
  | _ => exists w', r = Panic "virtio disk kalloc" w'
  end.
Lemma virtio_queue_ok w F : alloc_inv (k_pm (w_k w)) F -> L_kmem ∉ k_held (w_k w) -> virtio_made w F (virtio_queue (rd dev regs_features STATUS) regs_queue w).
Proof.
  intros H Hl. unfold virtio_queue, virtio_made. pose proof (kalloc_ok w F H Hl) as K1. destruct F as [|p F].
  { rewrite (b_bk _ _ _ _ _ _ K1), (b_bk _ _ _ _ _ _ K1), (b_bk _ _ _ _ _ _ K1). by eexists. }
  destruct K1 as (pm1 & E1 & Hp & A1 & N1 & T1 & M1 & S1). rewrite (b_bk _ _ _ _ _ _ E1). set (w1 := with_k w (set_k_pm pm1 (w_k w))).
  pose proof (kalloc_ok w1 F A1 Hl) as K2. destruct F as [|q F].
  { rewrite (b_bk _ _ _ _ _ _ K2), (b_bk _ _ _ _ _ _ K2). rewrite orb_true_r. by eexists. }
  destruct K2 as (pm2 & E2 & Hq & A2 & N2 & T2 & M2 & S2). rewrite (b_bk _ _ _ _ _ _ E2). set (w2 := with_k w1 (set_k_pm pm2 (w_k w1))).
  pose proof (kalloc_ok w2 F A2 Hl) as K3. destruct F as [|u F].
  { rewrite (b_bk _ _ _ _ _ _ K3). rewrite orb_true_r. by eexists. }
  destruct K3 as (pm3 & E3 & Hu & A3 & N3 & T3 & M3 & S3). rewrite (b_bk _ _ _ _ _ _ E3).
  rewrite !(proj2 (Z.eqb_neq _ 0)) by done. cbn [orb].
  exists (set_mem (memset u 0 PGSIZE) (set_mem (memset q 0 PGSIZE) (set_mem (memset p 0 PGSIZE) pm3))). split.
  { erewrite b_bk; [|reflexivity]. erewrite b_bk; [|reflexivity]. erewrite b_bk; [|reflexivity]. rewrite !b_put. reflexivity. }
  pose proof (ai_valid _ _ H) as Hv. pose proof (ai_nodup _ _ H) as Hn. apply NoDup_cons in Hn as [Hnp Hn]. apply NoDup_cons in Hn as [Hnq Hn]. apply NoDup_cons in Hn as [Hnu Hn].
  rewrite !not_elem_of_cons in Hnp. rewrite not_elem_of_cons in Hnq.
  assert (pm_end pm3 = pm_end (k_pm (w_k w))) as Ne by (rewrite N3; cbn; by rewrite N2).
  split; [|split].
  - repeat apply clear_ok; try tauto; cbn; rewrite ?Ne; try (apply Hv; rewrite !elem_of_cons; tauto); exact A3.
  - assert (same_fields (k_pm (w_k w)) pm3) as []; [|by split]. transitivity pm2; [transitivity pm1|]; [rewrite S1|rewrite S2|rewrite S3]; by split.
  - intros b. cbn. rewrite !memset_spec by done. rewrite M3. cbn. rewrite M2. cbn. rewrite M1. unfold in_page. repeat case_decide; try done; tauto.
Qed.

(** C25: [virtio_disk_init] on every branch: it panics when the device is not
    a version 2 disk of QEMU, when the device refuses the features, when
    queue 0 is in use, missing or shorter than [NUM], or when a page is
    missing.  Otherwise it takes the first three free pages, clears them,
    changes no other byte, marks the [NUM] descriptors free, and has written
    exactly the registers of [regs_ready], in that order: reset,
    acknowledge, driver, the accepted features, features ok, the queue with
    the addresses of the three pages, ready, and driver ok on top of the
    status the device returned. *)
Theorem virtio_disk_init_correct w F : alloc_inv (k_pm (w_k w)) F -> L_kmem ∉ k_held (w_k w) ->
  let r := virtio_disk_init dev l w in
  if negb right_device then r = Panic "could not find virtio disk" w else
  if Z.land (rd dev regs_features STATUS) S_FEATURES_OK =? 0 then r = Panic "virtio disk FEATURES_OK unset" w else
  if negb (rd dev regs_queue QUEUE_READY =? 0) then r = Panic "virtio disk should not be ready" w else
  if rd dev regs_queue QUEUE_NUM_MAX =? 0 then r = Panic "virtio disk has no queue 0" w else
  if rd dev regs_queue QUEUE_NUM_MAX <? 8 then r = Panic "virtio disk max queue too short" w else
  virtio_made w F r.
Proof.
  intros H Hl r. subst r. rewrite virtio_negotiate. repeat case_match; try done. by apply virtio_queue_ok.
Qed.
End virtio_init.

(** A device that offers every feature and gives the driver back the status
    it wrote. *)
Definition ex_dev (l : regs) (a : Z) : Z :=
  if a =? R MAGIC_VALUE then 0x74726976 else if a =? R VERSION then 2 else if a =? R DEVICE_ID then 2 else
  if a =? R VENDOR_ID then 0x554d4551 else if a =? R DEVICE_FEATURES then 0xffffffff else if a =? R QUEUE_NUM_MAX then 1024 else
  match list_find (fun x => fst x = a) l with Some (_, (_, v)) => v | None => 0 end.

Lemma virtio_disk_init_correct_witness :
  exists w' F', virtio_disk_init ex_dev [] uvm_world = Ret (VDisk 0x87fff000 0x87ffe000 0x87ff9000 (replicate 8 1), regs_ready ex_dev [] 0x87fff000 0x87ffe000 0x87ff9000) w' /\
    alloc_inv (k_pm (w_k w')) F' /\ pm_mem (k_pm (w_k w')) 0x87ff9000 = 0.
Proof.
  pose proof (virtio_disk_init_correct ex_dev [] uvm_world uvm_free uvm_alloc (not_elem_of_nil L_kmem)) as H.
  assert (right_device ex_dev [] = true) as E1 by (vm_compute; reflexivity). rewrite E1 in H.
  assert (rd ex_dev (regs_features ex_dev []) STATUS = 11) as E2 by (vm_compute; reflexivity). rewrite E2 in H.
  assert (rd ex_dev (regs_queue ex_dev []) QUEUE_READY = 0) as E3 by (vm_compute; reflexivity). rewrite E3 in H.
  assert (rd ex_dev (regs_queue ex_dev []) QUEUE_NUM_MAX = 1024) as E4 by (vm_compute; reflexivity). rewrite E4 in H.
  destruct H as (pm' & E & A & _ & M). exists (with_k uvm_world (set_k_pm pm' (w_k uvm_world))), []. split; [exact E|]. split; [exact A|].
  etransitivity; [apply M|]. rewrite decide_True; [reflexivity|]. right. right. unfold in_page, PGSIZE. lia.
Defined.
