(* ===== verification/Mkfs.v ===== *)
(** * Mkfs: building the first file system image

    mkfs/mkfs.c, the program of the host that writes fs.img.  The image is a
    sequence of sectors, [mk_img], of length [mk_size].  A run returns, ends
    by [exit] (through [die] or the usage message) or by a failed
    [assert].

    [be] says whether the host is big-endian: an integer of w bytes is
    stored with the order of its bytes reversed there ([host16],
    [host32]), which [xshort] and [xint] are meant to undo.  The host's
    files are the parameter [files]: what successive calls of [read] return
    for a name, or nothing when [open] fails.  Writing to the image is
    assumed to succeed; the messages of [printf] are not modelled. *)

From S2P Require Import Prelude.
From S2P Require Import State.
From S2P Require Import Kernel.
From S2P Require Import Sched.
From S2P Require Import Mem.
From S2P Require Import Bio.
From S2P Require Import Log.
From S2P Require Import Vm.
From S2P Require Import Fs.

Definition NINODES : Z := 200.
Definition nbitmap : Z := FSSIZE / (BSIZE * 8) + 1.
Definition ninodeblocks : Z := NINODES / IPB + 1.
Definition nlog : Z := LOGSIZE.
Definition nmeta : Z := 2 + nlog + ninodeblocks + nbitmap.
Definition nblocks : Z := FSSIZE - nmeta.

Record mkst := MkSt { mk_img : Z -> list Z; mk_size : Z; mk_sb : superblock; mk_freeinode : Z; mk_freeblock : Z }.
Definition set_img i n s := MkSt i n (mk_sb s) (mk_freeinode s) (mk_freeblock s).
Definition set_freeinode x s := MkSt (mk_img s) (mk_size s) (mk_sb s) x (mk_freeblock s).
Definition set_freeblock x s := MkSt (mk_img s) (mk_size s) (mk_sb s) (mk_freeinode s) x.

Inductive mres (A : Type) := MRet (a : A) (s : mkst) | MExit (code : Z) | MAssert.
Arguments MRet {A} a s.
Arguments MExit {A} code.
Arguments MAssert {A}.
Definition MK (A : Type) : Type := mkst -> mres A.
#[global] Instance mk_ret : base.MRet MK := fun A a s => MRet a s.
#[global] Instance mk_bind : MBind MK := fun A B f m s =>
  match m s with MRet a s' => f a s' | MExit c => MExit c | MAssert => MAssert end.
Definition mget {A} (f : mkst -> A) : MK A := fun s => MRet (f s) s.
Definition mmod (f : mkst -> mkst) : MK unit := fun s => MRet tt (f s).
Definition die {A} : MK A := fun _ => MExit 1.
Definition assert_ (b : bool) : MK unit := fun s => if b then MRet tt s else MAssert.

(** ** Sectors *)

(** Byte offset [sec * BSIZE] is a [uint].  A write past the end leaves
    zeros between. *)
Definition sector (sec : Z) : Z := u32 (sec * BSIZE) / BSIZE.
Definition wsect (sec : Z) (buf : list Z) : MK unit :=
  mmod (fun s =>
    let b := sector sec in
    if b <? mk_size s then set_img (dset (mk_img s) b buf) (mk_size s) s
    else set_img (dset (fun k => if (mk_size s <=? k) && (k <? b) then replicate (Z.to_nat BSIZE) 0 else mk_img s k) b buf) (b + 1) s).
Definition rsect (sec : Z) : MK (list Z) := fun s =>
  if sector sec <? mk_size s then MRet (mk_img s (sector sec)) s else MExit 1.

Section mkfs.
Context (be : bool).

(** ** Byte order *)

Definition host16 (x : Z) : Z := if be then x mod 256 * 256 + x / 256 else x.
Definition host32 (x : Z) : Z :=
  if be then x mod 256 * 2 ^ 24 + x / 2 ^ 8 mod 256 * 2 ^ 16 + x / 2 ^ 16 mod 256 * 2 ^ 8 + x / 2 ^ 24 else x.
(** The integer with bytes [a] in memory. *)
Definition xshort (x : Z) : Z :=
  let a0 := u8 x in let a1 := u8 (Z.shiftr x 8) in
  if be then a0 * 2 ^ 8 + a1 else a1 * 2 ^ 8 + a0.
Definition xint (x : Z) : Z :=
  let a0 := u8 x in let a1 := u8 (Z.shiftr x 8) in let a2 := u8 (Z.shiftr x 16) in let a3 := u8 (Z.shiftr x 24) in
  if be then a0 * 2 ^ 24 + a1 * 2 ^ 16 + a2 * 2 ^ 8 + a3 else a3 * 2 ^ 24 + a2 * 2 ^ 16 + a1 * 2 ^ 8 + a0.

(** ** Inodes

    [struct dinode] holds integers of the host; [mem_dinode] reads its
    bytes, or bytes of the disk, in the other order. *)
Definition mem_dinode (d : dinode) : dinode :=
  Dinode (i16 (host16 (u16 (d_type d)))) (i16 (host16 (u16 (d_major d)))) (i16 (host16 (u16 (d_minor d)))) (i16 (host16 (u16 (d_nlink d))))
    (host32 (d_size d)) (host32 <$> d_addrs d).
Definition rinode (inum : Z) : MK dinode :=
  sb ← mget mk_sb;
  buf ← rsect (IBLOCK inum sb);
  mret (mem_dinode (get_dinode buf (dinode_off inum))).
Definition winode (inum : Z) (ip : dinode) : MK unit :=
  sb ← mget mk_sb;
  buf ← rsect (IBLOCK inum sb);
  wsect (IBLOCK inum sb) (put_dinode (mem_dinode ip) (dinode_off inum) buf).

Definition ialloc (type : Z) : MK Z :=
  inum ← mget mk_freeinode;
  mmod (set_freeinode (u32 (inum + 1)));;
  winode inum (Dinode (i16 (xshort type)) 0 0 (i16 (xshort 1)) (xint 0) (replicate 13 0));;
  mret inum.

Definition balloc (used : Z) : MK unit :=
  assert_ (used <? BSIZE * 8);;
  sb ← mget mk_sb;
  wsect (sb_bmapstart sb) (foldl (fun buf i => set_bit (Z.of_nat i) buf) (replicate (Z.to_nat BSIZE) 0) (seq 0 (Z.to_nat used))).

(** [freeblock++]. *)
Definition next_block : MK Z :=
  b ← mget mk_freeblock;
  mmod (set_freeblock (u32 (b + 1)));;
  mret b.

Definition set_addr (k v : Z) (d : dinode) : dinode := Dinode (d_type d) (d_major d) (d_minor d) (d_nlink d) (d_size d) (aset (d_addrs d) k v).
(** An entry of the indirect block. *)
Definition file_entry (fbn : Z) (din : dinode) : MK (Z * dinode) :=
  let o := 4 * (fbn - NDIRECT) in
  let sec := xint (aget 0 (d_addrs din) NDIRECT) in
  indirect ← rsect sec;
  indirect ← (if host32 (ld32 indirect o) =? 0 then
                b ← next_block;
                let l := st32 indirect o (host32 (xint b)) in
                wsect sec l;;
                mret l
              else mret indirect);
  mret (xint (host32 (ld32 indirect o)), din).
(** The sector of block [fbn] of the file, allocated when there is none. *)
Definition file_block (fbn : Z) (din : dinode) : MK (Z * dinode) :=
  if fbn <? NDIRECT then
    din ← (if xint (aget 0 (d_addrs din) fbn) =? 0 then b ← next_block; mret (set_addr fbn (xint b) din) else mret din);
    mret (xint (aget 0 (d_addrs din) fbn), din)
  else
    din ← (if xint (aget 0 (d_addrs din) NDIRECT) =? 0 then b ← next_block; mret (set_addr NDIRECT (xint b) din) else mret din);
    file_entry fbn din.

(** Each round appends at least one byte of [p]. *)
Fixpoint iappend_loop (fuel : nat) (din : dinode) (off : Z) (p : list Z) : MK (dinode * Z) :=
  match p, fuel with
  | [], _ => mret (din, off)
  | _ :: _, O => die
  | _ :: _, S f =>
    let fbn := off / BSIZE in
    assert_ (fbn <? MAXFILE);;
    r ← file_block fbn din;
    let n1 := Z.min (Z.of_nat (length p)) (u32 ((fbn + 1) * BSIZE - off)) in
    buf ← rsect (fst r);
    wsect (fst r) (splice buf (off - fbn * BSIZE) (take (Z.to_nat n1) p));;
    iappend_loop f (snd r) (u32 (off + n1)) (drop (Z.to_nat n1) p)
  end.
Definition iappend (inum : Z) (p : list Z) : MK unit :=
  din ← rinode inum;
  r ← iappend_loop (length p) din (xint (d_size din)) p;
  winode inum (Dinode (d_type (fst r)) (d_major (fst r)) (d_minor (fst r)) (d_nlink (fst r)) (xint (snd r)) (d_addrs (fst r))).

(** ** main *)

(** The bytes of a [struct dirent]. *)
Definition dirent (inum : Z) (name : list Z) : list Z :=
  let x := host16 (xshort inum) in
  u8 x :: u8 (x / 256) :: take (Z.to_nat DIRSIZ) (name ++ replicate (Z.to_nat DIRSIZ) 0).

Definition USER : list Z := bytes_of_string "user/".
Definition SLASH : Z := 47.
Definition UNDERSCORE : Z := 95.
Definition without_user (arg : list Z) : list Z :=
  if bool_decide (take 5 arg = USER) then drop 5 arg else arg.
Definition without_underscore (shortname : list Z) : list Z :=
  match shortname with c :: l => if c =? UNDERSCORE then l else shortname | [] => [] end.

Fixpoint append_chunks (inum : Z) (chunks : list (list Z)) : MK unit :=
  match chunks with
  | [] => mret tt
  | c :: chunks' =>
    match c with
    | [] => mret tt
    | _ => iappend inum c;; append_chunks inum chunks'
    end
  end.

Definition add_file (files : list Z -> option (list (list Z))) (arg : list Z) : MK unit :=
  let shortname := without_user arg in
  assert_ (bool_decide (SLASH ∉ shortname));;
  match files arg with
  | None => die
  | Some chunks =>
    let shortname := without_underscore shortname in
    inum ← ialloc T_FILE;
    iappend ROOTINO (dirent inum shortname);;
    append_chunks inum chunks
  end.
Fixpoint add_files (files : list Z -> option (list (list Z))) (args : list (list Z)) : MK unit :=
  match args with [] => mret tt | a :: args' => add_file files a;; add_files files args' end.

Fixpoint zero_sectors (n : nat) : MK unit :=
  match n with O => mret tt | S n' => zero_sectors n';; wsect (Z.of_nat n') (replicate (Z.to_nat BSIZE) 0) end.

(** The bytes of the super block. *)
Definition sb_bytes (sb : superblock) : list Z :=
  put_addrs (replicate (Z.to_nat BSIZE) 0) 0
    (host32 <$> [sb_magic sb; sb_size sb; sb_nblocks sb; sb_ninodes sb; sb_nlog sb; sb_logstart sb; sb_inodestart sb; sb_bmapstart sb]).
Definition super : superblock :=
  SuperBlock FSMAGIC (xint FSSIZE) (xint nblocks) (xint NINODES) (xint nlog) (xint 2) (xint (2 + nlog)) (xint (2 + nlog + ninodeblocks)).

(** The arguments start with the name of the program and of the image;
    [creat] says whether the image could be opened. *)
Definition main (creat : bool) (files : list Z -> option (list (list Z))) (argv : list (list Z)) : mres Z :=
  match argv with
  | _ :: _ :: args =>
    if negb creat then MExit 1 else
    (zero_sectors (Z.to_nat FSSIZE);;
     wsect 1 (sb_bytes super);;
     rootino ← ialloc T_DIR;
     assert_ (rootino =? ROOTINO);;
     iappend rootino (dirent rootino (bytes_of_string "."));;
     iappend rootino (dirent rootino (bytes_of_string ".."));;
     add_files files args;;
     din ← rinode rootino;
     let off := xint (d_size din) in
     let off := u32 ((off / BSIZE + 1) * BSIZE) in
     winode rootino (Dinode (d_type din) (d_major din) (d_minor din) (d_nlink din) (xint off) (d_addrs din));;
     used ← mget mk_freeblock;
     balloc (i32 used);;
     mret 0) (MkSt (fun _ => []) 0 super 1 nmeta)
  | _ => MExit 1
  end.
End mkfs.
