(* ===== verification/MkfsProps.v ===== *)
(** * MkfsProps: the image that mkfs builds

    The image is a file system in the kernel's sense: the super block, an
    empty log, the inodes, and a bitmap that marks exactly the blocks in
    use ([disk_wf]); every file has its inode with the contents of the
    host's file ([inode_wf], [file_is], the preconditions of
    [FileData.readi_correct]), and the root directory lists them.

    The invariant of a run ([minv]) has the contents of every inode so far;
    [good] relates one inode to its bytes. *)

From S2P Require Import Prelude.
From S2P Require Import State.
From S2P Require Import Kernel.
From S2P Require Import Sched.
From S2P Require Import Mem.
From S2P Require Import Bio.
From S2P Require Import Log.
From S2P Require Import FsRun.
From S2P Require Import BioProps.
From S2P Require Import LogProps.
From S2P Require Import LogCrash.
From S2P Require Import Txn.
From S2P Require Import Vm.
From S2P Require Import Fs.
From S2P Require Import FsProps.
From S2P Require Import InodeProps.
From S2P Require Import BmapProps.
From S2P Require Import FileData.
From S2P Require Import DirProps.
From S2P Require Import Mkfs.

(** ** Little-endian hosts *)

Lemma u8_shift x k : 0 <= k -> u8 (Z.shiftr x k) = x / 2 ^ k mod 256.
Proof. intros Hk. unfold u8. by rewrite Z.shiftr_div_pow2. Qed.
Lemma xint_le x : xint false x = u32 x.
Proof.
  unfold xint. rewrite !u8_shift by lia. unfold u8, u32. change (2 ^ 8) with 256. change (2 ^ 16) with 65536. change (2 ^ 24) with 16777216. change (2 ^ 32) with 4294967296. zlia.
Qed.
Lemma xshort_le x : xshort false x = u16 x.
Proof. unfold xshort. rewrite !u8_shift by lia. unfold u8, u16. change (2 ^ 8) with 256. change (2 ^ 16) with 65536. zlia. Qed.
Lemma mem_dinode_le d : dinode_ok d -> mem_dinode false d = d.
Proof.
  intros [H1 H2 H3 H4 _ _ _]. unfold mem_dinode, host16, host32. rewrite !i16_u16 by done. destruct d as [ty mj mn nl sz ad]; cbn. f_equal.
  rewrite <- (list_fmap_id ad) at 2. by apply list_fmap_ext.
Qed.
Definition sb0 : superblock := SuperBlock FSMAGIC 2000 1954 200 30 2 32 45.
Lemma super_le : super false = sb0.
Proof. reflexivity. Qed.

(** ** Sectors *)

Lemma sector_small b : 0 <= b < FSSIZE -> sector b = b.
Proof. unfold sector, FSSIZE, BSIZE. intros H. rewrite u32_small by (change (2 ^ 32) with 4294967296; lia). by rewrite Z.div_mul. Qed.

(** The image has its final size. *)
Lemma wsect_run b l s : mk_size s = FSSIZE -> 0 <= b < FSSIZE -> wsect b l s = MRet tt (set_img (dset (mk_img s) b l) FSSIZE s).
Proof. intros E H. unfold wsect, mmod. rewrite sector_small, E by done. by rewrite (proj2 (Z.ltb_lt _ _)) by lia. Qed.
Lemma rsect_run b s : mk_size s = FSSIZE -> 0 <= b < FSSIZE -> rsect b s = MRet (mk_img s b) s.
Proof. intros E H. unfold rsect. rewrite sector_small, E by done. by rewrite (proj2 (Z.ltb_lt _ _)) by lia. Qed.

Lemma mbind_run {A B} (m : MK A) (f : A -> MK B) s a s' : m s = MRet a s' -> (m ≫= f) s = f a s'.
Proof. unfold mbind, mk_bind. by intros ->. Qed.

(** ** Inodes and their contents *)

Definition ipd (d : dinode) : inode := loaded d inode_zero.

(** The first [m] blocks of the file are mapped, all to blocks below [fb],
    and hold [bs] and zeros. *)
Record good (V : Z -> list Z) (ip : inode) (m : Z) (bs : list Z) (fb : Z) : Prop := {
  g_len : length (i_addrs ip) = 13%nat;
  g_m : 0 <= m <= MAXFILE;
  g_bs : Z.of_nat (length bs) <= m * BSIZE;
  g_map : forall bn, 0 <= bn < MAXFILE -> inode_map V ip bn <> 0 <-> bn < m;
  g_own : forall b, owns V ip b -> nmeta <= b < fb;
  g_inj : forall k k', 0 <= k < MAXFILE -> 0 <= k' < MAXFILE -> inode_map V ip k <> 0 ->
    inode_map V ip k = inode_map V ip k' -> k = k';
  g_ne : forall k, 0 <= k < MAXFILE -> inode_map V ip k <> 0 -> inode_map V ip k <> ind_of ip;
  g_byte : forall k, 0 <= k -> k / BSIZE < m -> file_byte V ip k = aget 0 bs k
}.

Lemma nmeta_eq : nmeta = 46.
Proof. reflexivity. Qed.

Lemma aget_zero j : aget 0 zero_block j = 0.
Proof.
  unfold aget, zero_block. rewrite nth_lookup. destruct (replicate (Z.to_nat BSIZE) 0 !! Z.to_nat j) eqn:E; [|done].
  by apply lookup_replicate in E as [-> _].
Qed.

(** Only the blocks of the file matter. *)
Lemma frame_map V V' ip bn : (forall b, owns V ip b -> V' b = V b) -> inode_map V' ip bn = inode_map V ip bn.
Proof.
  intros H. unfold inode_map. destruct (bn <? NDIRECT); [done|]. destruct (Z.eqb_spec (ind_of ip) 0); [done|].
  rewrite H; [done|]. by apply owns_ind.
Qed.
Lemma frame_owns V V' ip b : (forall b, owns V ip b -> V' b = V b) -> owns V' ip b <-> owns V ip b.
Proof.
  intros H. unfold owns. split; intros [H0 [E|(bn & Hb & E)]]; (split; [done|]); try (by left); right; exists bn; (split; [done|]);
    [by rewrite <- (frame_map V V')|by rewrite (frame_map V V')].
Qed.
Lemma good_frame V V' ip m bs fb fb' : good V ip m bs fb -> (forall b, owns V ip b -> V' b = V b) -> fb <= fb' -> good V' ip m bs fb'.
Proof.
  intros [G1 G2 G3 G4 G5 G6 G7 G8] H Hle. split; try done.
  - intros bn Hb. rewrite (frame_map V V') by done. by apply G4.
  - intros b Ho%(frame_owns V V'); [|done]. specialize (G5 _ Ho). lia.
  - intros k k' Hk Hk'. rewrite !(frame_map V V') by done. by apply G6.
  - intros k Hk. rewrite (frame_map V V') by done. by apply G7.
  - intros k Hk Hm. unfold file_byte. rewrite (frame_map V V') by done.
    destruct (decide (0 <= k / BSIZE < MAXFILE)) as [Hr|Hr]; [|rewrite BSIZE_eq in *; zlia].
    rewrite H; [by apply G8|]. apply owns_map; [done|]. by apply G4.
Qed.

(** Block [r] becomes the next block of the file. *)
Lemma good_extend V ip m bs fb V' ip' r : good V ip m bs fb -> nmeta <= fb -> fb <= r -> m < MAXFILE ->
  length (i_addrs ip') = 13%nat ->
  (ind_of ip' = ind_of ip \/ (ind_of ip = 0 /\ fb <= ind_of ip' /\ ind_of ip' < r)) ->
  (forall k, 0 <= k < MAXFILE -> inode_map V' ip' k = if decide (k = m) then r else inode_map V ip k) ->
  (forall k, 0 <= k < m -> V' (inode_map V ip k) = V (inode_map V ip k)) -> V' r = zero_block ->
  good V' ip' (m + 1) bs (r + 1).
Proof.
  intros [G1 G2 G3 G4 G5 G6 G7 G8] Hr Hfb Hm Hl Hind Hmap HV Hz. rewrite nmeta_eq in *. split; try done.
  - lia.
  - rewrite BSIZE_eq in *. lia.
  - intros bn Hb. rewrite Hmap by done. case_decide; [lia|]. rewrite G4 by done. lia.
  - rewrite nmeta_eq. intros b [H0 [E|(bn & Hb & E)]].
    + destruct Hind as [Ei|(_ & Ei & ?)]; [|lia]. rewrite Ei in E. specialize (G5 b). rewrite E in G5 |- *.
      assert (owns V ip (ind_of ip)) as Ho by (apply owns_ind; congruence). specialize (G5 Ho). lia.
    + rewrite Hmap in E by done. case_decide; [lia|]. assert (46 <= b < fb); [|lia]. apply G5. rewrite <- E. apply owns_map; [done|]. congruence.
  - intros k k' Hk Hk'. rewrite !Hmap by done.
    assert (forall j, 0 <= j < MAXFILE -> inode_map V ip j <> r) as Hne.
    { intros j Hj E. assert (46 <= r < fb); [|lia]. rewrite <- E. apply G5, owns_map; [done|]. lia. }
    repeat case_decide; try congruence; [intros _ E; by destruct (Hne k' Hk')|intros _ E; by destruct (Hne k Hk)|by apply G6].
  - intros k Hk. rewrite Hmap by done. case_decide.
    + intros _ E. destruct Hind as [Ei|?]; [|lia]. assert (46 <= r < fb); [|lia]. rewrite E, Ei. apply G5, owns_ind. rewrite <- Ei, <- E. lia.
    + intros H0 E. destruct Hind as [Ei|(Ei & ? & ?)]; [rewrite Ei in E; by apply (G7 k Hk)|].
      assert (46 <= ind_of ip' < fb); [|lia]. rewrite <- E. by apply G5, owns_map.
  - intros k Hk Hb. unfold file_byte. assert (0 <= k / BSIZE) as Hk0 by (rewrite BSIZE_eq; zlia). rewrite Hmap by lia. case_decide as Ed.
    + rewrite Hz. rewrite aget_zero. symmetry. unfold aget. apply nth_overflow. rewrite BSIZE_eq in *. zlia.
    + rewrite HV by lia. apply G8; lia.
Qed.

(** Bytes after the end, within the last block. *)
Lemma good_write V ip m bs fb q : let off := Z.of_nat (length bs) in let x := inode_map V ip (off / BSIZE) in
  good V ip m bs fb -> off / BSIZE < m -> Z.of_nat (length q) <= BSIZE - off mod BSIZE -> length (V x) = Z.to_nat BSIZE ->
  good (dset V x (splice (V x) (off mod BSIZE) q)) ip m (bs ++ q) fb /\
  (forall b, owns (dset V x (splice (V x) (off mod BSIZE) q)) ip b <-> owns V ip b).
Proof.
  intros off x G Hm Hq Hlx. set (V' := dset V x (splice (V x) (off mod BSIZE) q)). pose proof G as [G1 G2 G3 G4 G5 G6 G7 G8].
  assert (0 <= off / BSIZE < MAXFILE) as Hr by (unfold off; rewrite BSIZE_eq in *; zlia).
  assert (x <> 0) as Hx by (by apply G4).
  assert (forall bn, inode_map V' ip bn = inode_map V ip bn) as Hmap.
  { intros bn. unfold inode_map. destruct (bn <? NDIRECT); [done|]. destruct (Z.eqb_spec (ind_of ip) 0); [done|].
    unfold V'. rewrite dset_ne; [done|]. intros E. by apply (G7 (off / BSIZE) Hr Hx). }
  assert (forall b, owns V' ip b <-> owns V ip b) as Hown.
  { intros b. unfold owns. split; intros [H0 [E|(bn & Hb & E)]]; (split; [done|]); try (by left); right; exists bn; (split; [done|]); by rewrite ?Hmap in *. }
  split; [|done]. split; try done.
  - rewrite length_app. unfold off in *. rewrite BSIZE_eq in *. zlia.
  - intros bn. rewrite Hmap. apply G4.
  - intros b Ho%Hown. by apply G5.
  - intros k k' Hk Hk'. rewrite !Hmap. by apply G6.
  - intros k Hk. rewrite Hmap. by apply G7.
  - intros k Hk Hb. unfold file_byte. rewrite Hmap. assert (0 <= k / BSIZE < MAXFILE) as Hkr by (rewrite BSIZE_eq in *; zlia).
    unfold V', dset. destruct (Z.eqb_spec (inode_map V ip (k / BSIZE)) x) as [E|E].
    + assert (k / BSIZE = off / BSIZE) as Ek by (apply G6; try done; by rewrite E).
      assert (0 <= off mod BSIZE) by (rewrite BSIZE_eq; zlia). pose proof (Z.mod_pos_bound k BSIZE eq_refl).
      rewrite aget_splice by (rewrite ?Hlx; unfold off in *; rewrite BSIZE_eq in *; zlia).
      assert (k mod BSIZE - off mod BSIZE = k - off) as Es by (rewrite BSIZE_eq in *; zlia).
      case_decide as Ec.
      * rewrite Es. unfold aget. rewrite app_nth2 by (unfold off in *; lia). f_equal. unfold off in *. lia.
      * rewrite <- E. change (file_byte V ip k = aget 0 (bs ++ q) k). rewrite G8 by done.
        destruct (decide (k < off)) as [Hlt|Hge]; unfold aget; [by rewrite app_nth1 by (unfold off in *; lia)|].
        rewrite !nth_overflow; [done|rewrite length_app|]; unfold off in *; rewrite BSIZE_eq in *; lia.
    + change (file_byte V ip k = aget 0 (bs ++ q) k). rewrite G8 by done. unfold aget.
      destruct (decide (k < off)) as [Hlt|Hge]; [by rewrite app_nth1 by (unfold off in *; lia)|].
      assert (k / BSIZE <> off / BSIZE) by (intros Ek; apply E; by rewrite Ek).
      rewrite !nth_overflow; [done|rewrite length_app|]; unfold off in *; rewrite BSIZE_eq in *; zlia.
Qed.

(** ** Allocation *)

(** [cost len] blocks hold a file of [len] bytes. *)
Definition nblk (len : Z) : Z := (len + BSIZE - 1) / BSIZE.
Definition with_ind (m : Z) : Z := m + b2z (NDIRECT <? m).
Definition cost (len : Z) : Z := with_ind (nblk len).

Lemma cost_mono a b : 0 <= a <= b -> cost a <= cost b.
Proof.
  intros H. unfold cost, with_ind. assert (nblk a <= nblk b) by (unfold nblk; rewrite BSIZE_eq; zlia).
  destruct (Z.ltb_spec NDIRECT (nblk a)), (Z.ltb_spec NDIRECT (nblk b)); cbn; lia.
Qed.
Lemma nblk_add off n : 0 <= off -> 0 < n <= BSIZE - off mod BSIZE -> nblk (off + n) = off / BSIZE + 1.
Proof. unfold nblk. rewrite BSIZE_eq. intros. zlia. Qed.

Record img_ok (s : mkst) : Prop := {
  io_size : mk_size s = FSSIZE;
  io_sb : mk_sb s = sb0;
  io_fb : nmeta <= mk_freeblock s <= FSSIZE;
  io_len : forall b, 0 <= b < FSSIZE -> length (mk_img s b) = Z.to_nat BSIZE;
  io_zero : forall b, mk_freeblock s <= b < FSSIZE -> mk_img s b = zero_block
}.

Definition with_addrs (l : list Z) (d : dinode) : dinode := Dinode (d_type d) (d_major d) (d_minor d) (d_nlink d) (d_size d) l.

(** A step that extends the file with inode [d]. *)
Record grow (s : mkst) (d : dinode) (s' : mkst) (d' : dinode) : Prop := {
  gr_img : img_ok s';
  gr_inode : mk_freeinode s' = mk_freeinode s;
  gr_fb : mk_freeblock s <= mk_freeblock s';
  gr_fields : exists l, d' = with_addrs l d;
  gr_keep : forall b, b < mk_freeblock s -> ~ owns (mk_img s) (ipd d) b -> mk_img s' b = mk_img s b;
  gr_own : forall b, owns (mk_img s') (ipd d') b -> owns (mk_img s) (ipd d) b \/ mk_freeblock s <= b
}.
Lemma grow_refl s d : img_ok s -> grow s d s d.
Proof. intros H. split; try done. - by exists (d_addrs d); destruct d. - intros b. by left. Qed.
Lemma grow_trans s0 d0 s1 d1 s2 d2 : grow s0 d0 s1 d1 -> grow s1 d1 s2 d2 -> grow s0 d0 s2 d2.
Proof.
  intros [A1 A2 A3 [l1 A4] A5 A6] [C1 C2 C3 [l2 C4] C5 C6]. split; try done; [congruence|lia|exists l2; by rewrite C4, A4|..].
  - intros b Hb Hn. rewrite C5; [by apply A5|lia|]. intros [?|?]%A6; [done|lia].
  - intros b [Ho|Ho]%C6; [by apply A6|right; lia].
Qed.

Lemma with_addrs_ipd l d : i_addrs (ipd (with_addrs l d)) = l.
Proof. done. Qed.

(** The entries of an indirect block. *)
Lemma ld32_entry l k m r : length l = Z.to_nat BSIZE -> 0 <= k < NINDIRECT -> 0 <= m < NINDIRECT -> 0 <= r < 2 ^ 32 ->
  ld32 (st32 l (4 * m) r) (4 * k) = if decide (k = m) then r else ld32 l (4 * k).
Proof.
  intros Hl Hk Hm Hr. assert (Z.of_nat (length l) = 1024) as Hl' by (rewrite Hl; reflexivity). change NINDIRECT with 256 in *. case_decide as E.
  - rewrite E. apply ld32_st32; (done || lia).
  - apply ld32_ext. intros b Hb. apply aget_st32_other; lia.
Qed.
Lemma ld32_zero k : ld32 zero_block k = 0.
Proof. unfold ld32. by rewrite !aget_zero. Qed.

Section block.
Context (s : mkst) (d : dinode) (m : Z) (bs : list Z).
Let V := mk_img s.
Hypothesis (HS : img_ok s) (HG : good V (ipd d) m bs (mk_freeblock s)).

Lemma mapped_small b : owns V (ipd d) b -> u32 b = b.
Proof. intros Ho%(g_own _ _ _ _ _ HG). destruct (io_fb _ HS). rewrite nmeta_eq in *. unfold FSSIZE in *. apply u32_small. change (2 ^ 32) with 4294967296. lia. Qed.
Lemma mapped_sector b : owns V (ipd d) b -> 0 <= b < FSSIZE.
Proof. intros Ho%(g_own _ _ _ _ _ HG). destruct (io_fb _ HS). rewrite nmeta_eq in *. lia. Qed.

Lemma map_direct k : k < NDIRECT -> inode_map V (ipd d) k = aget 0 (d_addrs d) k.
Proof. intros H. unfold inode_map. by rewrite (proj2 (Z.ltb_lt _ _)). Qed.
Lemma map_indirect k : NDIRECT <= k -> ind_of (ipd d) <> 0 -> inode_map V (ipd d) k = ld32 (V (ind_of (ipd d))) (4 * (k - NDIRECT)).
Proof. intros H Hi. unfold inode_map. rewrite (proj2 (Z.ltb_ge _ _)) by done. by rewrite (proj2 (Z.eqb_neq _ _)). Qed.

(** The block exists. *)
Lemma file_block_old fbn : 0 <= fbn < m -> file_block false fbn d s = MRet (inode_map V (ipd d) fbn, d) s.
Proof.
  intros H. destruct (g_m _ _ _ _ _ HG) as [_ Hm]. assert (inode_map V (ipd d) fbn <> 0) as Hne by (apply (g_map _ _ _ _ _ HG); lia).
  pose proof (owns_map V (ipd d) fbn ltac:(lia) Hne) as Ho. unfold file_block. rewrite !xint_le.
  destruct (Z.ltb_spec fbn NDIRECT) as [Hd|Hd].
  - rewrite <- (map_direct fbn) by done. rewrite (mapped_small _ Ho), (proj2 (Z.eqb_neq _ _)) by done.
    rewrite (mbind_run (mret d) _ s d s) by done. rewrite xint_le, <- (map_direct fbn), (mapped_small _ Ho) by done. done.
  - assert (ind_of (ipd d) <> 0) as Hi. { intros E. apply Hne. unfold inode_map. rewrite (proj2 (Z.ltb_ge _ _)) by done. by rewrite E. }
    pose proof (owns_ind V _ Hi) as Hoi. change (aget 0 (d_addrs d) NDIRECT) with (ind_of (ipd d)).
    rewrite (mapped_small _ Hoi), (proj2 (Z.eqb_neq _ _)) by done. rewrite (mbind_run (mret d) _ s d s) by done.
    unfold file_entry. change (aget 0 (d_addrs d) NDIRECT) with (ind_of (ipd d)).
    rewrite xint_le, (mapped_small _ Hoi). rewrite (mbind_run _ _ _ _ _ (rsect_run _ s (io_size _ HS) (mapped_sector _ Hoi))). fold V.
    cbn [host32]. rewrite <- map_indirect by done. rewrite (proj2 (Z.eqb_neq _ _)) by done.
    rewrite (mbind_run (mret (V (ind_of (ipd d)))) _ s _ s) by done. rewrite <- map_indirect by done. rewrite xint_le. by rewrite (mapped_small _ Ho).
Qed.
(** The file is extended by block [r]; [V'] is the disk after that. *)
Lemma extend_grow s' l r : m < MAXFILE -> mk_freeblock s <= r -> r + 1 <= FSSIZE -> length l = 13%nat ->
  mk_size s' = FSSIZE -> mk_sb s' = mk_sb s -> mk_freeinode s' = mk_freeinode s -> mk_freeblock s' = r + 1 ->
  (ind_of (ipd (with_addrs l d)) = ind_of (ipd d) \/
    (ind_of (ipd d) = 0 /\ mk_freeblock s <= ind_of (ipd (with_addrs l d)) /\ ind_of (ipd (with_addrs l d)) < r)) ->
  (forall k, 0 <= k < MAXFILE -> inode_map (mk_img s') (ipd (with_addrs l d)) k = if decide (k = m) then r else inode_map V (ipd d) k) ->
  (forall b, 0 <= b < FSSIZE -> length (mk_img s' b) = Z.to_nat BSIZE) -> (forall b, r <= b < FSSIZE -> mk_img s' b = zero_block) ->
  (forall b, b < mk_freeblock s -> ind_of (ipd d) = 0 \/ b <> ind_of (ipd d) -> mk_img s' b = V b) ->
  grow s d s' (with_addrs l d) /\ good (mk_img s') (ipd (with_addrs l d)) (m + 1) bs (mk_freeblock s').
Proof.
  intros Hm Hr Hr1 Hl E1 E2 E3 E4 Hind Hmap Hlen Hz Hkeep. destruct (io_fb _ HS) as [Hfb _].
  assert (forall k, 0 <= k < m -> inode_map V (ipd d) k <> 0) as Hne by (intros k Hk; apply (g_map _ _ _ _ _ HG); lia).
  split.
  - split; [split; try done; [by rewrite E2; apply HS|lia|intros b Hb; apply Hz; lia]|done|lia|by exists l|..].
    + intros b Hb Hn. apply Hkeep; [done|]. destruct (decide (ind_of (ipd d) = 0)) as [|Hi]; [by left|right]. intros ->. by apply Hn, owns_ind.
    + intros b [H0 [E|(k & Hk & E)]].
      * destruct Hind as [Ei|(_ & ? & _)]; [|right; lia]. left. rewrite E, Ei. apply owns_ind. congruence.
      * rewrite Hmap in E by done. case_decide; [right; lia|]. left. rewrite <- E. apply owns_map; [done|congruence].
  - rewrite E4. apply (good_extend V (ipd d) m bs (mk_freeblock s)); try done.
    + intros k Hk. assert (0 <= k < MAXFILE) as Hk' by lia. apply Hkeep; [|right; by apply (g_ne _ _ _ _ _ HG), Hne].
      apply (g_own _ _ _ _ _ HG), owns_map; [done|]. by apply Hne.
    + apply Hz. lia.
Qed.

Lemma next_block_run (st : mkst) : mk_freeblock st < FSSIZE -> 0 <= mk_freeblock st ->
  next_block st = MRet (mk_freeblock st) (set_freeblock (mk_freeblock st + 1) st).
Proof.
  intros H H0. unfold next_block, mget, mmod, mbind, mk_bind. cbn. rewrite u32_small by (unfold FSSIZE in *; change (2 ^ 32) with 4294967296; lia). done.
Qed.
Lemma u32_block b : 0 <= b <= FSSIZE -> u32 b = b.
Proof. unfold FSSIZE. intros H. apply u32_small. change (2 ^ 32) with 4294967296. lia. Qed.

(** The first twelve blocks. *)
Lemma file_block_direct : m < NDIRECT -> mk_freeblock s + 1 <= FSSIZE ->
  exists s' d', file_block false m d s = MRet (inode_map (mk_img s') (ipd d') m, d') s' /\ grow s d s' d' /\
    good (mk_img s') (ipd d') (m + 1) bs (mk_freeblock s') /\ ind_of (ipd d') = ind_of (ipd d) /\ mk_freeblock s' = mk_freeblock s + 1.
Proof.
  intros Hm Hfb. destruct (io_fb _ HS) as [Hf _]. rewrite nmeta_eq in Hf. destruct (g_m _ _ _ _ _ HG) as [Hm0 _]. pose proof (g_len _ _ _ _ _ HG) as Hl.
  change (length (d_addrs d) = 13%nat) in Hl. assert (NDIRECT = 12) as ED by done. assert (MAXFILE = 268) as EM by done.
  set (l := aset (d_addrs d) m (mk_freeblock s)). set (s' := set_freeblock (mk_freeblock s + 1) s).
  assert (inode_map V (ipd d) m = 0) as H0. { destruct (decide (inode_map V (ipd d) m = 0)) as [|Hn]; [done|]. apply (g_map _ _ _ _ _ HG) in Hn; lia. }
  assert (ind_of (ipd (with_addrs l d)) = ind_of (ipd d)) as Hi.
  { change (aget 0 l NDIRECT = aget 0 (d_addrs d) NDIRECT). unfold l. apply aget_aset_ne; lia. }
  assert (forall k, 0 <= k < MAXFILE -> inode_map V (ipd (with_addrs l d)) k = if decide (k = m) then mk_freeblock s else inode_map V (ipd d) k) as Hmap.
  { intros k Hk. unfold inode_map. rewrite Hi. change (aget 0 (i_addrs (ipd (with_addrs l d))) k) with (aget 0 l k). change (aget 0 (i_addrs (ipd d)) k) with (aget 0 (d_addrs d) k).
    unfold l. destruct (Z.ltb_spec k NDIRECT); [|by rewrite decide_False by lia]. rewrite aget_aset by lia. repeat case_decide; (done || lia). }
  exists s', (with_addrs l d).
  destruct (extend_grow s' l (mk_freeblock s)) as [Hg Hgood]; try done; try lia; [unfold l; by rewrite length_aset|by apply HS|by apply HS|by apply HS|].
  split_and!; try done. unfold file_block. rewrite (proj2 (Z.ltb_lt _ _)) by done.
  rewrite <- (map_direct m), H0 by done. rewrite !xint_le. change (u32 0 =? 0) with true. cbv iota.
  rewrite (mbind_run _ _ s (with_addrs l d) s').
  - rewrite xint_le. change (mk_img s') with V. rewrite (Hmap m), decide_True by lia.
    change (aget 0 (d_addrs (with_addrs l d)) m) with (aget 0 l m). unfold l at 1. rewrite aget_aset_eq by lia. by rewrite u32_block by lia.
  - rewrite (mbind_run _ _ _ _ _ (next_block_run s ltac:(lia) ltac:(lia))). rewrite xint_le, u32_block by lia. done.
Qed.

(** A new entry of the indirect block [i]. *)
Lemma file_entry_new (st : mkst) (d1 : dinode) i : mk_size st = FSSIZE -> 0 <= i < FSSIZE -> 0 <= mk_freeblock st < FSSIZE ->
  aget 0 (d_addrs d1) NDIRECT = i -> NDIRECT <= m < MAXFILE -> length (mk_img st i) = Z.to_nat BSIZE -> ld32 (mk_img st i) (4 * (m - NDIRECT)) = 0 ->
  file_entry false m d1 st = MRet (mk_freeblock st, d1)
    (set_img (dset (mk_img st) i (st32 (mk_img st i) (4 * (m - NDIRECT)) (mk_freeblock st))) FSSIZE (set_freeblock (mk_freeblock st + 1) st)).
Proof.
  intros E1 Hi Hf E2 Hm Hl H0. unfold file_entry. rewrite E2, xint_le, u32_block by lia.
  rewrite (mbind_run _ _ _ _ _ (rsect_run _ st E1 Hi)). cbn [host32]. rewrite H0. change (0 =? 0) with true. cbv iota.
  set (st1 := set_freeblock (mk_freeblock st + 1) st). set (l := st32 (mk_img st i) (4 * (m - NDIRECT)) (mk_freeblock st)).
  rewrite (mbind_run _ _ st l (set_img (dset (mk_img st) i l) FSSIZE st1)).
  - unfold l at 1. rewrite ld32_entry, decide_True by (try (change (2 ^ 32) with 4294967296); unfold FSSIZE, MAXFILE in *; (done || lia)). by rewrite xint_le, u32_block by lia.
  - rewrite (mbind_run _ _ _ _ _ (next_block_run st ltac:(lia) ltac:(lia))). rewrite xint_le, u32_block by lia. fold l.
    rewrite (mbind_run _ _ _ _ _ (wsect_run i l st1 E1 Hi)). done.
Qed.

Lemma indirect_map l st r i : let ip := ipd (with_addrs l d) in
  i <> 0 -> ind_of ip = i -> NDIRECT <= m < MAXFILE -> length (mk_img st i) = Z.to_nat BSIZE -> 0 <= r < 2 ^ 32 ->
  (forall k, 0 <= k < NDIRECT -> aget 0 l k = aget 0 (d_addrs d) k) ->
  (forall k, NDIRECT <= k < MAXFILE -> ld32 (mk_img st i) (4 * (k - NDIRECT)) = inode_map V (ipd d) k) ->
  forall k, 0 <= k < MAXFILE -> inode_map (dset (mk_img st) i (st32 (mk_img st i) (4 * (m - NDIRECT)) r)) ip k = if decide (k = m) then r else inode_map V (ipd d) k.
Proof.
  intros ip H0 Hi Hm Hl Hr Hdir Hent k Hk. destruct (Z.ltb_spec k NDIRECT) as [Hd|Hd].
  - rewrite decide_False by lia. unfold inode_map. rewrite (proj2 (Z.ltb_lt _ _)) by done. apply Hdir. lia.
  - unfold inode_map at 1. rewrite (proj2 (Z.ltb_ge _ _)) by done. rewrite Hi, (proj2 (Z.eqb_neq _ _)), dset_eq by done.
    rewrite ld32_entry by (unfold MAXFILE in *; (done || lia)). rewrite Hent by lia. repeat case_decide; (done || lia).
Qed.

Lemma file_block_indirect : NDIRECT <= m < MAXFILE -> (ind_of (ipd d) <> 0 <-> NDIRECT < m) -> mk_freeblock s + 1 + b2z (m =? NDIRECT) <= FSSIZE ->
  exists s' d', file_block false m d s = MRet (inode_map (mk_img s') (ipd d') m, d') s' /\ grow s d s' d' /\
    good (mk_img s') (ipd d') (m + 1) bs (mk_freeblock s') /\ ind_of (ipd d') <> 0 /\ mk_freeblock s' = mk_freeblock s + 1 + b2z (m =? NDIRECT).
Proof.
  intros Hm Hind Hfb. destruct (io_fb _ HS) as [Hf _]. rewrite nmeta_eq in Hf. pose proof (g_len _ _ _ _ _ HG) as Hl.
  change (length (d_addrs d) = 13%nat) in Hl. assert (NDIRECT = 12) as ED by done. assert (MAXFILE = 268) as EM by done.
  assert (FSSIZE < 2 ^ 32) as HF by reflexivity.
  assert (inode_map V (ipd d) m = 0) as H0. { destruct (decide (inode_map V (ipd d) m = 0)) as [|Hn]; [done|]. apply (g_map _ _ _ _ _ HG) in Hn; lia. }
  set (fb := mk_freeblock s) in *.
  unfold file_block. rewrite (proj2 (Z.ltb_ge _ _)) by lia. rewrite !xint_le. change (aget 0 (d_addrs d) NDIRECT) with (ind_of (ipd d)).
  destruct (Z.eqb_spec m NDIRECT) as [Em|Em]; cbn [b2z] in Hfb |- *.
  - assert (ind_of (ipd d) = 0) as Ei by lia. rewrite Ei. change (u32 0 =? 0) with true. cbv iota.
    set (l := aset (d_addrs d) NDIRECT fb). set (s1 := set_freeblock (fb + 1) s).
    rewrite (mbind_run _ _ s (with_addrs l d) s1); [|rewrite (mbind_run _ _ _ _ _ (next_block_run s ltac:(lia) ltac:(lia))); rewrite xint_le, u32_block by lia; done].
    assert (aget 0 (d_addrs (with_addrs l d)) NDIRECT = fb) as Ef by (change (aget 0 l NDIRECT = fb); unfold l; apply aget_aset_eq; lia).
    assert (mk_img s1 fb = zero_block) as Hz by (apply HS; unfold fb in *; lia).
    assert (forall k, 0 <= k < MAXFILE -> inode_map (dset (mk_img s1) fb (st32 (mk_img s1 fb) (4 * (m - NDIRECT)) (fb + 1))) (ipd (with_addrs l d)) k =
      if decide (k = m) then fb + 1 else inode_map V (ipd d) k) as Hmap.
    { apply indirect_map; try done; try lia; [by rewrite Hz| |].
      - intros k Hk. unfold l. apply aget_aset_ne; lia.
      - intros k Hk. rewrite Hz, ld32_zero. unfold inode_map. rewrite (proj2 (Z.ltb_ge _ _)), Ei by lia. done. }
    rewrite (file_entry_new s1 (with_addrs l d) fb); [|by apply HS|lia|cbn; lia|done|lia|by rewrite Hz|by rewrite Hz, ld32_zero].
    change (mk_freeblock s1) with (fb + 1). match goal with |- context [MRet _ ?x] => set (s' := x) end. exists s', (with_addrs l d).
    destruct (extend_grow s' l (fb + 1)) as [Hg Hgood]; try done; try lia.
    + unfold l. by rewrite length_aset.
    + right. rewrite Ei. change (ind_of (ipd (with_addrs l d))) with (aget 0 (d_addrs (with_addrs l d)) NDIRECT). rewrite Ef. lia.
    + intros b Hb. cbn [mk_img s' set_img]. unfold dset. case_match; [unfold st32; by rewrite !length_aset, Hz|]. by apply HS.
    + intros b Hb. cbn [mk_img s' set_img]. rewrite dset_ne by lia. apply HS. unfold fb in *. lia.
    + intros b Hb _. cbn [mk_img s' set_img]. by rewrite dset_ne by lia.
    + split_and!; try done; [|change (aget 0 (d_addrs (with_addrs l d)) NDIRECT <> 0); lia].
      cbn [mk_img s' set_img]. by rewrite Hmap, decide_True by lia.
  - assert (ind_of (ipd d) <> 0) as Hi by (apply Hind; lia). pose proof (owns_ind V _ Hi) as Hoi. set (i := ind_of (ipd d)) in *.
    pose proof (mapped_sector i Hoi) as Hsec. rewrite (mapped_small i Hoi), (proj2 (Z.eqb_neq _ _)) by done.
    rewrite (mbind_run (mret d) _ s d s) by done. pose proof (g_own _ _ _ _ _ HG i Hoi) as Hir. rewrite nmeta_eq in Hir. fold fb in Hir.
    assert (with_addrs (d_addrs d) d = d) as Ed by (by destruct d).
    assert (forall k, 0 <= k < MAXFILE -> inode_map (dset V i (st32 (V i) (4 * (m - NDIRECT)) fb)) (ipd (with_addrs (d_addrs d) d)) k =
      if decide (k = m) then fb else inode_map V (ipd d) k) as Hmap.
    { apply indirect_map; try done; try lia; [by apply HS|]. intros k Hk. symmetry. apply map_indirect; [lia|done]. }
    rewrite (file_entry_new s d i); [|by apply HS|done|unfold fb in *; lia|done|lia|by apply HS|by rewrite <- map_indirect by (done || lia)].
    fold fb. match goal with |- context [MRet (fb, d) ?x] => set (s' := x) end. exists s', (with_addrs (d_addrs d) d).
    destruct (extend_grow s' (d_addrs d) fb) as [Hg Hgood]; try done; try lia.
    + by left.
    + intros b Hb. cbn [mk_img s' set_img]. unfold dset. case_match; [unfold st32; rewrite !length_aset|]; by apply HS.
    + intros b Hb. cbn [mk_img s' set_img]. rewrite dset_ne by lia. apply HS. unfold fb in *. lia.
    + intros b Hb [?|Hne]; [done|]. cbn [mk_img s' set_img]. by rewrite dset_ne.
    + split_and!; try done; [|cbn; lia]. cbn [mk_img s' set_img]. fold V. rewrite Hmap, decide_True by lia. by rewrite Ed.
Qed.
End block.

(** ** Appending *)

(** An inode with its bytes, as on disk between two calls of [iappend]. *)
Record stored (s : mkst) (d : dinode) (bs : list Z) : Prop := {
  st_good : good (mk_img s) (ipd d) (nblk (Z.of_nat (length bs))) bs (mk_freeblock s);
  st_ind : ind_of (ipd d) <> 0 <-> NDIRECT < nblk (Z.of_nat (length bs))
}.

Lemma nblk_bound len : 0 <= len <= MAXFILE * BSIZE -> 0 <= nblk len <= MAXFILE.
Proof. unfold nblk. change (MAXFILE * BSIZE) with 274432. change MAXFILE with 268. rewrite BSIZE_eq. intros. zlia. Qed.

(** The block for the next byte is there, or is allocated. *)
Lemma block_ready s d bs n : let off := Z.of_nat (length bs) in img_ok s -> stored s d bs ->
  0 < n <= BSIZE - off mod BSIZE -> off + n <= MAXFILE * BSIZE -> mk_freeblock s + cost (off + n) - cost off <= FSSIZE ->
  exists s' d', file_block false (off / BSIZE) d s = MRet (inode_map (mk_img s') (ipd d') (off / BSIZE), d') s' /\ grow s d s' d' /\
    good (mk_img s') (ipd d') (off / BSIZE + 1) bs (mk_freeblock s') /\ (ind_of (ipd d') <> 0 <-> NDIRECT < off / BSIZE + 1) /\
    mk_freeblock s' = mk_freeblock s + cost (off + n) - cost off.
Proof.
  intros off HS [HG HI] Hn Hmax Hfb. assert (0 <= off) as Ho by (unfold off; lia). pose proof (nblk_bound off ltac:(lia)) as Hb. fold off in HG, HI.
  assert (nblk (off + n) = off / BSIZE + 1) as En by (by apply nblk_add). unfold cost in *. rewrite En in *.
  assert (0 <= off / BSIZE < MAXFILE) as Hr by (pose proof (nblk_bound (off + n) ltac:(lia)); rewrite BSIZE_eq in *; zlia).
  destruct (decide (off mod BSIZE = 0)) as [E0|E0].
  - assert (nblk off = off / BSIZE) as Em by (unfold nblk; rewrite BSIZE_eq in *; zlia). rewrite Em in *. unfold with_ind in *.
    set (m := off / BSIZE) in *. destruct (Z.ltb_spec m NDIRECT) as [Hd|Hd].
    + rewrite (proj2 (Z.ltb_ge NDIRECT m)), (proj2 (Z.ltb_ge NDIRECT (m + 1))) in * by lia. cbn [b2z] in *.
      destruct (file_block_direct s d m bs HS HG) as (s' & d' & R & G & Hg & Hi & Hf); [done|lia|].
      exists s', d'. split_and!; try done; [|lia]. rewrite Hi, HI. lia.
    + rewrite (proj2 (Z.ltb_lt NDIRECT (m + 1))) in * by lia.
      destruct (file_block_indirect s d m bs HS HG) as (s' & d' & R & G & Hg & Hi & Hf); [lia|done| |].
      { destruct (Z.ltb_spec NDIRECT m), (Z.eqb_spec m NDIRECT); cbn [b2z] in *; lia. }
      exists s', d'. split_and!; try done; [by split; [lia|]|].
      destruct (Z.ltb_spec NDIRECT m), (Z.eqb_spec m NDIRECT); cbn [b2z] in *; lia.
  - assert (nblk off = off / BSIZE + 1) as Em by (unfold nblk; rewrite BSIZE_eq in *; zlia). rewrite Em in *.
    exists s, d. split_and!; try done; try lia; [|by apply grow_refl]. apply (file_block_old s d _ bs HS HG). lia.
Qed.

(** The piece of [p] that goes into that block. *)
Lemma piece_written s d bs q : let off := Z.of_nat (length bs) in let x := inode_map (mk_img s) (ipd d) (off / BSIZE) in
  let s' := set_img (dset (mk_img s) x (splice (mk_img s x) (off mod BSIZE) q)) FSSIZE s in
  img_ok s -> good (mk_img s) (ipd d) (off / BSIZE + 1) bs (mk_freeblock s) -> Z.of_nat (length q) <= BSIZE - off mod BSIZE ->
  0 <= x < FSSIZE /\ grow s d s' d /\ good (mk_img s') (ipd d) (off / BSIZE + 1) (bs ++ q) (mk_freeblock s').
Proof.
  intros off x s' HS HG Hq. assert (0 <= off / BSIZE < MAXFILE) as Hr.
  { destruct (g_m _ _ _ _ _ HG). split; [apply Z.div_pos; [unfold off; lia|reflexivity]|lia]. }
  assert (x <> 0) as Hx by (apply (g_map _ _ _ _ _ HG); lia).
  pose proof (owns_map _ _ _ Hr Hx) as Hox. fold x in Hox. pose proof (g_own _ _ _ _ _ HG x Hox) as Hxr.
  pose proof (mapped_sector s d _ bs HS HG x Hox) as Hxs. split; [done|].
  destruct (good_write (mk_img s) (ipd d) _ bs _ q HG) as [Hw Hown]; [fold off; lia|done|by apply HS|]. fold off x in Hw, Hown.
  split; [|done]. split; try done.
  - split; try done; try apply HS.
    + intros b Hb. cbn. unfold dset. case_match; [rewrite length_splice|]; by apply HS.
    + intros b Hb. cbn in *. rewrite dset_ne by lia. by apply HS.
  - by exists (d_addrs d); destruct d.
  - intros b Hb Hn. cbn. rewrite dset_ne; [done|]. intros ->. done.
  - intros b. cbn. rewrite Hown. by left.
Qed.

Lemma iappend_loop_ok fuel : forall p s d bs, let off := Z.of_nat (length bs) in let n := Z.of_nat (length p) in
  img_ok s -> stored s d bs -> off + n <= MAXFILE * BSIZE -> mk_freeblock s + cost (off + n) - cost off <= FSSIZE -> (length p <= fuel)%nat ->
  exists s' d', iappend_loop false fuel d off p s = MRet (d', off + n) s' /\ grow s d s' d' /\ stored s' d' (bs ++ p) /\
    mk_freeblock s' = mk_freeblock s + cost (off + n) - cost off.
Proof.
  induction fuel as [|f IH]; intros p s d bs off n HS HT Hmax Hfb Hfuel.
  all: destruct p as [|c p]; [|cbn in Hfuel; try lia].
  1,2: exists s, d; unfold n; cbn [length]; rewrite Z.add_0_r, app_nil_r; split_and!; try done; [by apply grow_refl|lia].
  assert (0 <= off) as Ho by (unfold off; lia). assert (0 < n) as Hn by (unfold n; cbn; lia).
  assert (MAXFILE * BSIZE = 274432) as EM by reflexivity. pose proof (Z.mod_pos_bound off BSIZE eq_refl) as Hmod.
  set (n1 := Z.min n (BSIZE - off mod BSIZE)). assert (0 < n1 <= BSIZE - off mod BSIZE /\ n1 <= n) as [Hn1 Hn1n] by lia.
  pose proof (cost_mono (off + n1) (off + n) ltac:(lia)) as Hc1.
  destruct (block_ready s d bs n1 HS HT) as (s1 & d1 & R1 & G1 & Hg1 & Hi1 & Hf1); [done|fold off; lia|fold off; lia|]. fold off in R1, Hg1, Hi1, Hf1.
  set (q := take (Z.to_nat n1) (c :: p)). assert (Z.of_nat (length q) = n1) as Hq by (unfold q; rewrite length_take; unfold n in *; lia).
  destruct (piece_written s1 d1 bs q (gr_img _ _ _ _ G1) Hg1) as (Hx & G2 & Hg2); [fold off; lia|]. fold off in Hx, G2, Hg2.
  set (x := inode_map (mk_img s1) (ipd d1) (off / BSIZE)) in *.
  set (s2 := set_img (dset (mk_img s1) x (splice (mk_img s1 x) (off mod BSIZE) q)) FSSIZE s1) in *.
  assert (Z.of_nat (length (bs ++ q)) = off + n1) as El by (rewrite length_app; unfold off; lia).
  assert (Z.of_nat (length (drop (Z.to_nat n1) (c :: p))) = n - n1) as Er by (rewrite length_drop; unfold n in *; lia).
  destruct (IH (drop (Z.to_nat n1) (c :: p)) s2 d1 (bs ++ q)) as (s' & d' & R' & G' & T' & F').
  { apply G2. }
  { split; rewrite El, nblk_add by lia; done. }
  { rewrite El, Er. lia. }
  { rewrite El, Er. replace (off + n1 + (n - n1)) with (off + n) by lia. change (mk_freeblock s2) with (mk_freeblock s1). lia. }
  { cbn [length] in *. lia. }
  rewrite El, Er in R', F'. replace (off + n1 + (n - n1)) with (off + n) in * by lia. change (mk_freeblock s2) with (mk_freeblock s1) in F'.
  exists s', d'. rewrite <- app_assoc in T'. unfold q in T'. rewrite take_drop in T'. split_and!; [|by eapply grow_trans; [exact G1|eapply grow_trans]|done|lia].
  cbn [iappend_loop]. rewrite (proj2 (Z.ltb_lt (off / BSIZE) MAXFILE)) by (change MAXFILE with 268; rewrite BSIZE_eq in *; zlia).
  rewrite (mbind_run (assert_ true) _ s tt s) by done. rewrite (mbind_run _ _ _ _ _ R1). cbn [fst snd]. fold x.
  rewrite (mbind_run _ _ _ _ _ (rsect_run x s1 (io_size _ (gr_img _ _ _ _ G1)) Hx)).
  replace (off - off / BSIZE * BSIZE) with (off mod BSIZE) by (rewrite BSIZE_eq; zlia).
  replace ((off / BSIZE + 1) * BSIZE - off) with (BSIZE - off mod BSIZE) by (rewrite BSIZE_eq; zlia).
  rewrite (u32_small (BSIZE - off mod BSIZE)) by (rewrite BSIZE_eq in *; change (2 ^ 32) with 4294967296; lia).
  change (Z.of_nat (length (c :: p))) with n. fold n1 q.
  rewrite (mbind_run _ _ _ _ _ (wsect_run x _ s1 (io_size _ (gr_img _ _ _ _ G1)) Hx)). fold s2.
  rewrite u32_small by (change (2 ^ 32) with 4294967296; lia). exact R'.
Qed.

(** ** Inodes on the image *)

Definition dino (s : mkst) (inum : Z) : dinode := disk_inode (mk_img s) sb0 inum.

Lemma iblock inum : 0 <= inum < 208 -> IBLOCK inum sb0 = inum / 16 + 32 /\ 32 <= IBLOCK inum sb0 < 45.
Proof.
  intros H. unfold IBLOCK. change IPB with 16. change (sb_inodestart sb0) with 32. rewrite u32_small by (change (2 ^ 32) with 4294967296; zlia). zlia.
Qed.

(** The inode with number [inum] and the fields of [d]. *)
Definition ipn (inum : Z) (d : dinode) : inode := Inode 0 inum 0 0 (d_type d) (d_major d) (d_minor d) (d_nlink d) (d_size d) (d_addrs d).
Lemma dinode_of_ipn inum d : dinode_of (ipn inum d) = d.
Proof. by destruct d. Qed.

Lemma rinode_run inum s : img_ok s -> 0 <= inum < 208 -> dinode_ok (dino s inum) -> rinode false inum s = MRet (dino s inum) s.
Proof.
  intros HS Hi Hd. unfold rinode. rewrite (mbind_run (mget mk_sb) _ s sb0 s) by (unfold mget; by rewrite (io_sb _ HS)).
  assert (0 <= IBLOCK inum sb0 < FSSIZE) as Hb by (destruct (iblock inum Hi); unfold FSSIZE; lia).
  rewrite (mbind_run _ _ _ _ _ (rsect_run _ s (io_size _ HS) Hb)).
  change (get_dinode _ _) with (dino s inum). by rewrite mem_dinode_le.
Qed.
Lemma winode_run inum d s : img_ok s -> 0 <= inum < 208 -> dinode_ok d ->
  winode false inum d s = MRet tt (set_img (inode_view (mk_img s) sb0 (ipn inum d)) FSSIZE s).
Proof.
  intros HS Hi Hd. unfold winode. rewrite (mbind_run (mget mk_sb) _ s sb0 s) by (unfold mget; by rewrite (io_sb _ HS)).
  assert (0 <= IBLOCK inum sb0 < FSSIZE) as Hb by (destruct (iblock inum Hi); unfold FSSIZE; lia).
  rewrite (mbind_run _ _ _ _ _ (rsect_run _ s (io_size _ HS) Hb)). rewrite mem_dinode_le by done.
  rewrite (wsect_run _ _ s (io_size _ HS) Hb). unfold inode_view. by rewrite dinode_of_ipn.
Qed.

Record inode_is (s : mkst) (d : dinode) (ty : Z) (bs : list Z) : Prop := {
  ii_ok : dinode_ok d;
  ii_type : d_type d = ty;
  ii_nlink : d_nlink d = 1;
  ii_size : d_size d = Z.of_nat (length bs);
  ii_max : Z.of_nat (length bs) <= MAXFILE * BSIZE;
  ii_stored : stored s d bs
}.

Definition total (F : list (Z * list Z)) : Z := foldr (fun x t => cost (Z.of_nat (length (snd x))) + t) 0 F.

(** The files [F], with type and bytes, have the inodes from 1 on;
    [dn] gives the inodes. *)
Record files_ok (s : mkst) (dn : nat -> dinode) (F : list (Z * list Z)) : Prop := {
  fo_inode : forall j ty bs, F !! j = Some (ty, bs) -> inode_is s (dn j) ty bs;
  fo_disj : forall j j' b, (j < length F)%nat -> (j' < length F)%nat -> j <> j' ->
    owns (mk_img s) (ipd (dn j)) b -> owns (mk_img s) (ipd (dn j')) b -> False
}.
Record minv_of (s : mkst) (dn : nat -> dinode) (F : list (Z * list Z)) : Prop := {
  mi_img : img_ok s;
  mi_n : (length F <= 199)%nat;
  mi_free : mk_freeinode s = 1 + Z.of_nat (length F);
  mi_fb : mk_freeblock s = nmeta + total F;
  mi_meta : forall b, 0 <= b < 32 \/ b = 45 -> mk_img s b = if b =? 1 then sb_bytes false sb0 else zero_block;
  mi_files : files_ok s dn F
}.
Definition dinos (s : mkst) (j : nat) : dinode := dino s (1 + Z.of_nat j).
Definition minv (s : mkst) (F : list (Z * list Z)) : Prop := minv_of s (dinos s) F.

Lemma files_frame s s' dn dn' F : files_ok s dn F -> mk_freeblock s <= mk_freeblock s' ->
  (forall j b, (j < length F)%nat -> owns (mk_img s) (ipd (dn j)) b -> mk_img s' b = mk_img s b) ->
  (forall j, (j < length F)%nat -> dn' j = dn j) -> files_ok s' dn' F.
Proof.
  intros [H1 H2] Hfb Hk Hd. split.
  - intros j ty bs E. pose proof (lookup_lt_Some _ _ _ E) as Hj. rewrite Hd by done. destruct (H1 j ty bs E) as [A1 A2 A3 A4 A5 [A6 A7]].
    split; try done. split; [|done]. apply (good_frame (mk_img s) (mk_img s') _ _ _ (mk_freeblock s)); [done| |done]. intros b Hb. by apply (Hk j).
  - intros j j' b Hj Hj' Hne. rewrite !Hd by done. rewrite (frame_owns (mk_img s) _ (ipd (dn j))), (frame_owns (mk_img s) _ (ipd (dn j'))) by eauto. by apply H2.
Qed.

(** [winode] makes the inodes on disk the ones of [dn]. *)
Lemma winode_minv s dn F j : minv_of s dn F -> (j < length F)%nat -> (forall j', (j' < length F)%nat -> j' <> j -> dn j' = dinos s j') ->
  exists s', winode false (1 + Z.of_nat j) (dn j) s = MRet tt s' /\ minv s' F.
Proof.
  intros [I1 I2 I3 I4 I5 I6] Hj Hdn. destruct (lookup_lt_is_Some_2 F j Hj) as [[ty bs] E]. destruct (fo_inode _ _ _ I6 _ _ _ E) as [A1 A2 A3 A4 A5 A6].
  set (inum := 1 + Z.of_nat j). assert (0 <= inum < 208) as Hin by lia. destruct (iblock inum Hin) as [Hb1 Hb2].
  eexists. split; [by apply winode_run|]. set (s' := set_img _ _ _).
  assert (length (mk_img s (IBLOCK inum sb0)) = Z.to_nat BSIZE) as Hl by (apply I1; unfold FSSIZE; lia).
  assert (forall b, b <> IBLOCK inum sb0 -> mk_img s' b = mk_img s b) as Hne by (intros b Hb; by apply dset_ne).
  split; try done.
  - split; try done; try apply I1.
    + intros b Hb. destruct (decide (b = IBLOCK inum sb0)) as [->|]; [|rewrite Hne by done; by apply I1]. cbn [mk_img s' set_img]. unfold inode_view. rewrite dset_eq, length_put_dinode. exact Hl.
    + intros b Hb. destruct (io_fb _ I1). rewrite nmeta_eq in *. rewrite Hne by (cbn in *; lia). by apply I1.
  - intros b Hb. rewrite Hne by lia. by apply I5.
  - apply (files_frame s s' dn); [done|done| |].
    + intros j' b Hj' Ho. apply Hne. destruct (lookup_lt_is_Some_2 F j' Hj') as [[ty' bs'] E']. destruct (fo_inode _ _ _ I6 _ _ _ E') as [_ _ _ _ _ [G _]].
      apply (g_own _ _ _ _ _ G) in Ho. rewrite nmeta_eq in Ho. lia.
    + intros j' Hj'. unfold dinos, dino. destruct (decide (j' = j)) as [->|Hjne].
      * rewrite <- (dinode_of_ipn inum (dn j)). change (mk_img s') with (inode_view (mk_img s) sb0 (ipn inum (dn j))).
        apply (disk_inode_eq (mk_img s) sb0 (ipn inum (dn j))); [by rewrite dinode_of_ipn|done].
      * rewrite Hdn by done. apply (disk_inode_ne (mk_img s) sb0 (ipn inum (dn j))); rewrite ?dinode_of_ipn; try done; cbn; unfold inum; lia.
Qed.

(** ** The operations keep the invariant *)

(** Only the addresses of an inode matter for its map. *)
Lemma stored_addrs s d d' bs : d_addrs d = d_addrs d' -> stored s d bs -> stored s d' bs.
Proof. destruct d, d'. cbn. intros ->. intros [[] ?]. by split; [split|]. Qed.
Lemma owns_addrs V d d' b : d_addrs d = d_addrs d' -> owns V (ipd d) b -> owns V (ipd d') b.
Proof. destruct d, d'. cbn. by intros ->. Qed.

Lemma good_addrs V ip m bs fb : good V ip m bs fb -> fb <= FSSIZE -> Forall (fun a => 0 <= a < 2 ^ 32) (i_addrs ip).
Proof.
  intros G Hfb. apply Forall_lookup. intros k a E. pose proof (lookup_lt_Some _ _ _ E) as Hk. rewrite (g_len _ _ _ _ _ G) in Hk.
  change (2 ^ 32) with 4294967296. destruct (decide (a = 0)) as [->|Ha]; [lia|].
  assert (aget 0 (i_addrs ip) (Z.of_nat k) = a) as Ea by (unfold aget; rewrite Nat2Z.id; by apply nth_lookup_Some).
  assert (owns V ip a) as Ho; [|apply (g_own _ _ _ _ _ G) in Ho; unfold FSSIZE in *; rewrite nmeta_eq in *; lia].
  split; [done|]. destruct (decide (k = 12%nat)) as [->|]; [by left|]. right. exists (Z.of_nat k). split; [change MAXFILE with 268; lia|].
  unfold inode_map. rewrite (proj2 (Z.ltb_lt _ _)) by (change NDIRECT with 12; lia). done.
Qed.

Lemma total_cons x F : total (x :: F) = cost (Z.of_nat (length (snd x))) + total F.
Proof. done. Qed.
Lemma total_insert F : forall j ty bs x, F !! j = Some (ty, bs) -> total (<[j:=x]> F) = total F - cost (Z.of_nat (length bs)) + cost (Z.of_nat (length (snd x))).
Proof.
  induction F as [|y F IH]; intros [|j] ty bs x E; [done..| |].
  - injection E as ->. change (<[0%nat := x]> ((ty, bs) :: F)) with (x :: F). rewrite !total_cons. cbn [snd]. lia.
  - change (<[S j := x]> (y :: F)) with (y :: <[j := x]> F). rewrite !total_cons, (IH j ty bs) by done. lia.
Qed.
Lemma total_files_app F G : total (F ++ G) = total F + total G.
Proof. induction F as [|y F IH]; [done|]. cbn [app]. rewrite !total_cons. lia. Qed.
Lemma total_nonneg F : 0 <= total F.
Proof. induction F as [|y F IH]; [done|]. rewrite total_cons. pose proof (cost_mono 0 (Z.of_nat (length (snd y)))). change (cost 0) with 0 in *. lia. Qed.

Lemma iappend_minv s F j ty bs p : minv s F -> F !! j = Some (ty, bs) -> Z.of_nat (length bs) + Z.of_nat (length p) <= MAXFILE * BSIZE ->
  nmeta + total (<[j := (ty, bs ++ p)]> F) <= FSSIZE ->
  exists s', iappend false (1 + Z.of_nat j) p s = MRet tt s' /\ minv s' (<[j := (ty, bs ++ p)]> F).
Proof.
  intros [I1 I2 I3 I4 I5 I6] E Hmax Htot. pose proof (lookup_lt_Some _ _ _ E) as Hj. destruct (fo_inode _ _ _ I6 _ _ _ E) as [A1 A2 A3 A4 A5 A6].
  set (F' := <[j := (ty, bs ++ p)]> F) in *. set (d := dinos s j) in *.
  assert (total F' = total F - cost (Z.of_nat (length bs)) + cost (Z.of_nat (length bs) + Z.of_nat (length p))) as ET.
  { unfold F'. rewrite (total_insert F j ty bs) by done. cbn [snd]. rewrite length_app, Nat2Z.inj_add. lia. }
  destruct (iappend_loop_ok (length p) p s d bs I1 A6) as (s1 & d1 & R1 & G1 & T1 & F1); [done|lia|done|].
  destruct (gr_fields _ _ _ _ G1) as [l El].
  assert (MAXFILE * BSIZE = 274432) as EM by reflexivity.
  set (d2 := Dinode (d_type d1) (d_major d1) (d_minor d1) (d_nlink d1) (Z.of_nat (length bs) + Z.of_nat (length p)) (d_addrs d1)).
  assert (stored s1 d2 (bs ++ p)) as T2 by (by apply (stored_addrs s1 d1)).
  assert (dinode_ok d2) as Hd2.
  { pose proof A1 as []. subst d1. split; try done; cbn [d_size d2]; [change (2 ^ 32) with 4294967296; lia|apply (g_len _ _ _ _ _ (st_good _ _ _ T2))|].
    apply (good_addrs _ (ipd d2) _ _ _ (st_good _ _ _ T2)). apply (gr_img _ _ _ _ G1). }
  set (dn := fun j' => if decide (j' = j) then d2 else dinos s j').
  assert (forall j' b, (j' < length F)%nat -> j' <> j -> owns (mk_img s) (ipd (dinos s j')) b -> mk_img s1 b = mk_img s b) as Hkeep.
  { intros j' b Hj' Hne Ho. apply (gr_keep _ _ _ _ G1).
    - destruct (lookup_lt_is_Some_2 F j' Hj') as [[ty' bs'] E']. apply (g_own _ _ _ _ _ (st_good _ _ _ (ii_stored _ _ _ _ (fo_inode _ _ _ I6 _ _ _ E')))). done.
    - intros Ho'. exact (fo_disj _ _ _ I6 j' j b Hj' Hj Hne Ho Ho'). }
  assert (forall j' b, (j' < length F)%nat -> j' <> j -> owns (mk_img s1) (ipd (dinos s j')) b -> owns (mk_img s1) (ipd d2) b -> False) as Hdisj.
  { intros j' b Hj' Hne Ho Ho2. rewrite (frame_owns (mk_img s)) in Ho by eauto. apply (owns_addrs _ _ d1) in Ho2; [|done].
    apply (gr_own _ _ _ _ G1) in Ho2 as [Ho2|Ho2]; [exact (fo_disj _ _ _ I6 j' j b Hj' Hj Hne Ho Ho2)|].
    destruct (lookup_lt_is_Some_2 F j' Hj') as [[ty' bs'] E']. apply (g_own _ _ _ _ _ (st_good _ _ _ (ii_stored _ _ _ _ (fo_inode _ _ _ I6 _ _ _ E')))) in Ho. lia. }
  destruct (winode_minv s1 dn F' j) as (s' & R' & I').
  { split; [apply G1|unfold F'; by rewrite length_insert|unfold F'; rewrite length_insert, (gr_inode _ _ _ _ G1); done|lia| |].
    - intros b Hb. rewrite (gr_keep _ _ _ _ G1); [by apply I5|destruct (io_fb _ I1); rewrite nmeta_eq in *; lia|].
      intros Ho. apply (g_own _ _ _ _ _ (st_good _ _ _ A6)) in Ho. rewrite nmeta_eq in Ho. lia.
    - split.
      + intros j' ty' bs' E'. unfold dn, F' in *. case_decide as Ej; [subst j'; rewrite list_lookup_insert_eq in E' by done; injection E' as <- <-|].
        * subst d1. split; try done; rewrite ?length_app, ?Nat2Z.inj_add; try done.
        * rewrite list_lookup_insert_ne in E' by done. destruct (fo_inode _ _ _ I6 _ _ _ E') as [C1 C2 C3 C4 C5 [C6 C7]]. split; try done.
          split; [|done]. apply (good_frame (mk_img s) _ _ _ _ (mk_freeblock s)); [done| |by apply G1]. intros b Hb. apply (Hkeep j'); [by eapply lookup_lt_Some|done|done].
      + unfold dn, F'. rewrite length_insert. intros j1 j2 b H1 H2 Hne. repeat case_decide; try congruence; intros O1 O2.
        * by apply (Hdisj j2 b).
        * by apply (Hdisj j1 b).
        * rewrite (frame_owns (mk_img s)) in O1, O2 by eauto. by apply (fo_disj _ _ _ I6 j1 j2 b). }
  { unfold F'. by rewrite length_insert. }
  { intros j' Hj' Hne. unfold F' in Hj'. rewrite length_insert in Hj'. unfold dn. rewrite decide_False by done. unfold dinos, dino, disk_inode. f_equal. symmetry.
    apply (gr_keep _ _ _ _ G1). 
    - destruct (io_fb _ I1), (iblock (1 + Z.of_nat j') ltac:(lia)). rewrite nmeta_eq in *. lia.
    - intros Ho. apply (g_own _ _ _ _ _ (st_good _ _ _ A6)) in Ho. rewrite nmeta_eq in Ho. destruct (iblock (1 + Z.of_nat j') ltac:(lia)). lia. }
  exists s'. split; [|done]. unfold iappend. rewrite (mbind_run _ _ _ _ _ (rinode_run (1 + Z.of_nat j) s I1 ltac:(lia) A1)).
  change (dino s (1 + Z.of_nat j)) with d. rewrite xint_le, A4, u32_small by (change (2 ^ 32) with 4294967296; lia).
  rewrite (mbind_run _ _ _ _ _ R1). cbn [fst snd]. rewrite xint_le, u32_small by (change (2 ^ 32) with 4294967296; lia).
  unfold dn in R'. rewrite decide_True in R' by done. exact R'.
Qed.

(** A fresh inode. *)
Section fresh.
Context (d : dinode).
Hypothesis (H0 : forall k, aget 0 (d_addrs d) k = 0).
Lemma fresh_map V k : inode_map V (ipd d) k = 0.
Proof. unfold inode_map. change (ind_of (ipd d)) with (aget 0 (d_addrs d) NDIRECT). rewrite !H0. by case_match. Qed.
Lemma fresh_owns V b : ~ owns V (ipd d) b.
Proof.
  intros [Hb [E|(bn & _ & E)]]; [|rewrite fresh_map in E; congruence]. change (ind_of (ipd d)) with (aget 0 (d_addrs d) NDIRECT) in E. rewrite H0 in E. congruence.
Qed.
Lemma fresh_stored s : length (d_addrs d) = 13%nat -> stored s d [].
Proof.
  intros Hl. change (length []) with 0%nat. split; change (nblk (Z.of_nat (length []))) with 0.
  - split.
    + exact Hl.
    + change MAXFILE with 268. lia.
    + done.
    + intros bn Hb. rewrite fresh_map. lia.
    + intros b Hb. by apply fresh_owns in Hb.
    + intros k k' _ _ H. by rewrite fresh_map in H.
    + intros k _ H. by rewrite fresh_map in H.
    + intros k Hk Hb. rewrite BSIZE_eq in Hb. zlia.
  - change (ind_of (ipd d)) with (aget 0 (d_addrs d) NDIRECT). rewrite H0. change NDIRECT with 12. lia.
Qed.
End fresh.

Lemma ialloc_minv s F ty : minv s F -> (length F < 199)%nat -> 0 <= ty < 2 ^ 15 ->
  exists s', ialloc false ty s = MRet (1 + Z.of_nat (length F)) s' /\ minv s' (F ++ [(ty, [])]).
Proof.
  intros [I1 I2 I3 I4 I5 I6] Hlen Hty. set (n := length F) in *. set (s1 := set_freeinode (2 + Z.of_nat n) s).
  set (d0 := Dinode ty 0 0 1 0 (replicate 13 0)). set (dn := fun j => if decide (j = n) then d0 else dinos s j).
  assert (forall k, aget 0 (d_addrs d0) k = 0) as H0.
  { intros k. unfold aget. rewrite nth_lookup. destruct (d_addrs d0 !! Z.to_nat k) eqn:E; [|done]. by apply lookup_replicate in E as [-> _]. }
  pose proof (fresh_owns d0 H0 (mk_img s1)) as Hno. change (2 ^ 15) with 32768 in Hty.
  destruct (winode_minv s1 dn (F ++ [(ty, [])]) n) as (s' & R & I').
  { split; [by destruct I1|rewrite length_app; cbn; lia|rewrite length_app; cbn; lia|rewrite total_files_app; change (total [(ty, [])]) with 0; cbn; lia|done|]. split.
    - intros j ty' bs' E. unfold dn. case_decide as Ej.
      + subst j. rewrite lookup_app_r, Nat.sub_diag in E by done. injection E as <- <-. split; try done; [|by apply fresh_stored].
        split; try done; [cbn [d_type d0]; change (2 ^ 15) with 32768; lia|]. apply Forall_replicate. change (2 ^ 32) with 4294967296. lia.
      + apply lookup_app_Some in E as [E|[Hge E]]; [destruct (fo_inode _ _ _ I6 _ _ _ E) as [? ? ? ? ? [? ?]]; by split; try done; split|]. apply lookup_lt_Some in E. cbn in E. unfold n in *. lia.
    - rewrite length_app. cbn [length]. intros j j' b Hj Hj' Hne. unfold dn. repeat case_decide; try lia; intros O1 O2; try (by eapply Hno).
      apply (fo_disj _ _ _ I6 j j' b); try done; unfold n in *; lia. }
  { rewrite length_app. cbn. unfold n. lia. }
  { intros j' Hj' Hne. unfold dn. by rewrite decide_False. }
  exists s'. split; [|done]. unfold ialloc. rewrite (mbind_run (mget mk_freeinode) _ s (1 + Z.of_nat n) s) by (unfold mget; by rewrite I3).
  rewrite u32_small by (change (2 ^ 32) with 4294967296; lia). replace (1 + Z.of_nat n + 1) with (2 + Z.of_nat n) by lia.
  rewrite (mbind_run (mmod _) _ s tt s1) by done. rewrite !xshort_le, xint_le.
  unfold dn in R. rewrite decide_True in R by done. rewrite i16_u16 by (change (2 ^ 15) with 32768; lia).
  change (i16 (u16 1)) with 1. change (u32 0) with 0. fold d0. by rewrite (mbind_run _ _ _ _ _ R).
Qed.

(** ** main *)

Fixpoint contents (chunks : list (list Z)) : list Z :=
  match chunks with c :: chunks' => match c with [] => [] | _ => c ++ contents chunks' end | [] => [] end.

Lemma append_chunks_minv chunks : forall s F j ty bs, minv s F -> F !! j = Some (ty, bs) ->
  Z.of_nat (length bs) + Z.of_nat (length (contents chunks)) <= MAXFILE * BSIZE -> nmeta + total (<[j := (ty, bs ++ contents chunks)]> F) <= FSSIZE ->
  exists s', append_chunks false (1 + Z.of_nat j) chunks s = MRet tt s' /\ minv s' (<[j := (ty, bs ++ contents chunks)]> F).
Proof.
  induction chunks as [|c chunks IH]; intros s F j ty bs I E Hmax Htot; [|destruct c as [|x c]].
  1,2: exists s; split; [done|]; cbn [contents]; by rewrite app_nil_r, list_insert_id.
  cbn [contents append_chunks] in *. set (c1 := x :: c) in *. pose proof (lookup_lt_Some _ _ _ E) as Hj. rewrite length_app in Hmax.
  destruct (iappend_minv s F j ty bs c1 I E) as (s1 & R1 & I1); [lia| |].
  { rewrite (total_insert F j ty bs) in * by done. cbn [snd] in *. rewrite !length_app in *.
    pose proof (cost_mono (Z.of_nat (length bs + length c1)) (Z.of_nat (length bs + (length c1 + length (contents chunks)))) ltac:(lia)). lia. }
  destruct (IH s1 _ j ty (bs ++ c1) I1) as (s' & R & I').
  { by apply list_lookup_insert_eq. }
  { rewrite length_app. lia. }
  { by rewrite list_insert_insert_eq, <- app_assoc. }
  exists s'. rewrite list_insert_insert_eq, <- app_assoc in I'. split; [|done]. by rewrite (mbind_run _ _ _ _ _ R1).
Qed.

(** *** The files and the entries of the root *)

Definition name_of (arg : list Z) : list Z := without_underscore (without_user arg).
Fixpoint entries (inum : Z) (args : list (list Z)) : list Z :=
  match args with [] => [] | a :: args' => dirent false inum (name_of a) ++ entries (inum + 1) args' end.
(** [c] are the bytes of the file named [arg] on the host. *)
Definition host_file (files : list Z -> option (list (list Z))) (arg c : list Z) : Prop :=
  SLASH ∉ without_user arg /\ exists chunks, files arg = Some chunks /\ contents chunks = c.
Definition tree (root : list Z) (cs : list (list Z)) : list (Z * list Z) := (T_DIR, root) :: ((fun c => (T_FILE, c)) <$> cs).

Lemma length_dirent inum name : length (dirent false inum name) = 16%nat.
Proof. unfold dirent. cbn [length]. rewrite length_take, length_app, length_replicate. change (Z.to_nat DIRSIZ) with 14%nat. lia. Qed.
Lemma length_entries args : forall inum, length (entries inum args) = (16 * length args)%nat.
Proof. induction args as [|a args IH]; intros inum; [done|]. cbn [entries length]. rewrite length_app, length_dirent, IH. lia. Qed.
Lemma total_tree_mono r r' cs cs' : (length r <= length r')%nat -> total (tree r cs) <= total (tree r' (cs ++ cs')).
Proof.
  intros H. unfold tree. rewrite fmap_app, !total_cons, total_files_app. cbn [snd].
  pose proof (cost_mono (Z.of_nat (length r)) (Z.of_nat (length r')) ltac:(lia)). pose proof (total_nonneg ((fun c => (T_FILE, c)) <$> cs')). lia.
Qed.

Lemma total_tree_snoc r cs c : total (tree r (cs ++ [c])) = total (tree r cs) + cost (Z.of_nat (length c)).
Proof. unfold tree. rewrite fmap_app, !total_cons, total_files_app. change (_ <$> [c]) with [(T_FILE, c)]. rewrite total_cons. cbn [snd]. change (total []) with 0. lia. Qed.

Lemma tree_lookup r cs j : tree r cs !! S j = (fun c => (T_FILE, c)) <$> cs !! j.
Proof. unfold tree. change ((?x :: ?l) !! S ?i) with (l !! i). apply list_lookup_fmap. Qed.

Lemma add_file_minv files s root cs arg c : let n := Z.of_nat (length cs) in let root' := root ++ dirent false (2 + n) (name_of arg) in
  minv s (tree root cs) -> host_file files arg c -> (length cs < 198)%nat -> Z.of_nat (length root') <= MAXFILE * BSIZE -> Z.of_nat (length c) <= MAXFILE * BSIZE ->
  nmeta + total (tree root' (cs ++ [c])) <= FSSIZE ->
  exists s', add_file false files arg s = MRet tt s' /\ minv s' (tree root' (cs ++ [c])).
Proof.
  intros n root' I (Hsl & chunks & Ef & <-) Hn Hr Hc Htot. set (c := contents chunks) in *.
  assert (length (tree root cs) = S (length cs)) as Hlt by (unfold tree; cbn; by rewrite length_fmap).
  destruct (ialloc_minv s _ T_FILE I) as (s1 & R1 & I1); [lia|done|].
  replace (1 + Z.of_nat (length (tree root cs))) with (2 + n) in R1 by lia.
  assert (tree root cs ++ [(T_FILE, [])] = tree root (cs ++ [[]])) as E1 by (unfold tree; by rewrite fmap_app). rewrite E1 in I1.
  destruct (iappend_minv s1 _ 0 T_DIR root (dirent false (2 + n) (name_of arg)) I1) as (s2 & R2 & I2); [done|by rewrite <- Nat2Z.inj_add, <- length_app| |].
  { change (<[0%nat := _]> _) with (tree root' (cs ++ [[]])). rewrite total_tree_snoc in *. cbn [length]. change (cost (Z.of_nat 0)) with 0.
    pose proof (cost_mono 0 (Z.of_nat (length c)) ltac:(lia)). change (cost 0) with 0 in *. lia. }
  change (<[0%nat := _]> _) with (tree root' (cs ++ [[]])) in I2.
  assert (forall x, <[S (length cs) := (T_FILE, x)]> (tree root' (cs ++ [[]])) = tree root' (cs ++ [x])) as E2.
  { intros x. unfold tree. change (<[S ?i := ?y]> (?z :: ?l)) with (z :: <[i := y]> l). f_equal. rewrite !fmap_app, insert_app_r_alt by (by rewrite length_fmap).
    by rewrite length_fmap, Nat.sub_diag. }
  destruct (append_chunks_minv chunks s2 _ (S (length cs)) T_FILE [] I2) as (s3 & R3 & I3).
  { by rewrite tree_lookup, lookup_app_r, Nat.sub_diag. }
  { cbn [length]. fold c. lia. }
  { cbn [app]. fold c. by rewrite E2. }
  cbn [app] in I3. fold c in I3. rewrite E2 in I3. exists s3. split; [|done].
  unfold add_file. rewrite bool_decide_eq_true_2 by done. rewrite (mbind_run (assert_ true) _ s tt s) by done. rewrite Ef.
  rewrite (mbind_run _ _ _ _ _ R1). change ROOTINO with (1 + Z.of_nat 0). fold (name_of arg). rewrite (mbind_run _ _ _ _ _ R2).
  replace (2 + n) with (1 + Z.of_nat (S (length cs))) by lia. exact R3.
Qed.

Lemma add_files_minv files args : forall cs' s root cs, let n := Z.of_nat (length cs) in let root' := root ++ entries (2 + n) args in
  minv s (tree root cs) -> Forall2 (host_file files) args cs' -> (length cs + length args <= 198)%nat -> Z.of_nat (length root') <= MAXFILE * BSIZE ->
  Forall (fun c => Z.of_nat (length c) <= MAXFILE * BSIZE) cs' -> nmeta + total (tree root' (cs ++ cs')) <= FSSIZE ->
  exists s', add_files false files args s = MRet tt s' /\ minv s' (tree root' (cs ++ cs')).
Proof.
  induction args as [|a args IH]; intros cs' s root cs n root' I Hf Hn Hr Hc Htot.
  - apply Forall2_nil_inv_l in Hf as ->. exists s. split; [done|]. unfold root'. cbn. by rewrite !app_nil_r.
  - apply Forall2_cons_inv_l in Hf as (c & cs1 & Ha & Hf & ->). apply Forall_cons in Hc as [Hc1 Hc]. cbn [length entries] in *.
    unfold root' in *. rewrite app_assoc in *. rewrite (cons_middle c cs cs1), app_assoc in Htot. rewrite (cons_middle c cs cs1), app_assoc.
    set (root1 := root ++ dirent false (2 + n) (name_of a)) in *.
    assert (Z.of_nat (length (cs ++ [c])) = n + 1) as El by (rewrite length_app; cbn; lia).
    destruct (add_file_minv files s root cs a c I Ha) as (s1 & R1 & I1); [lia| |done| |].
    { fold n root1. rewrite length_app in Hr. lia. }
    { fold n root1. assert (length root1 <= length (root1 ++ entries (2 + n + 1) args))%nat as Hl by (rewrite length_app; lia).
      pose proof (total_tree_mono _ _ (cs ++ [c]) cs1 Hl). lia. }
    fold n root1 in I1. destruct (IH cs1 s1 root1 (cs ++ [c]) I1 Hf) as (s' & R & I').
    { rewrite length_app. cbn [length]. lia. }
    { rewrite El. by replace (2 + (n + 1)) with (2 + n + 1) by lia. }
    { done. }
    { rewrite El. by replace (2 + (n + 1)) with (2 + n + 1) by lia. }
    rewrite El in I'. replace (2 + (n + 1)) with (2 + n + 1) in I' by lia. exists s'. split; [|done]. cbn [add_files]. by rewrite (mbind_run _ _ _ _ _ R1).
Qed.

(** *** Start and end of main *)

Lemma zero_sectors_run n s0 : mk_size s0 = 0 -> Z.of_nat n <= FSSIZE -> exists s, zero_sectors n s0 = MRet tt s /\ mk_size s = Z.of_nat n /\
  (forall b, 0 <= b < Z.of_nat n -> mk_img s b = zero_block) /\ mk_sb s = mk_sb s0 /\ mk_freeinode s = mk_freeinode s0 /\ mk_freeblock s = mk_freeblock s0.
Proof.
  intros H0. induction n as [|n IH]; intros Hn.
  - exists s0. split_and!; try done. intros b Hb. lia.
  - destruct IH as (s & R & E1 & E2 & E3); [lia|]. cbn [zero_sectors]. rewrite (mbind_run _ _ _ _ _ R).
    unfold wsect, mmod. rewrite sector_small, E1, Z.ltb_irrefl by lia. eexists. split; [done|]. split; [cbn; lia|]. split; [|done].
    intros b Hb. cbn. unfold dset. destruct (Z.eqb_spec b (Z.of_nat n)); [done|]. rewrite (proj2 (Z.leb_gt _ _)) by lia. cbn. apply E2. lia.
Qed.

Definition mk_start : mkst := MkSt (fun _ => []) 0 sb0 1 nmeta.
Lemma start_minv n : Z.of_nat n = FSSIZE -> exists s1 s, zero_sectors n mk_start = MRet tt s1 /\ wsect 1 (sb_bytes false sb0) s1 = MRet tt s /\ minv s [].
Proof.
  intros En. destruct (zero_sectors_run n mk_start) as (s & R & E1 & E2 & E3 & E4 & E5); [done|lia|]. rewrite En in E1, E2.
  exists s. eexists. split; [exact R|]. split; [apply wsect_run; [done|unfold FSSIZE; lia]|].
  assert (length (sb_bytes false sb0) = Z.to_nat BSIZE) as Hl by (unfold sb_bytes; by rewrite length_put_addrs, length_replicate).
  split.
  - split; try done.
    + cbn. rewrite E5. cbn. rewrite nmeta_eq. unfold FSSIZE. lia.
    + intros b Hb. cbn [mk_img set_img]. unfold dset. case_match; [done|]. rewrite E2 by done. unfold zero_block. by rewrite length_replicate.
    + intros b Hb. cbn [mk_img set_img mk_freeblock] in *. rewrite E5 in Hb. cbn [mk_freeblock mk_start] in Hb. rewrite nmeta_eq in Hb. rewrite dset_ne by lia. apply E2. lia.
  - cbn [length]. lia.
  - cbn. by rewrite E4.
  - cbn. by rewrite E5.
  - intros b Hb. cbn [mk_img set_img]. unfold dset. case_match; [done|]. apply E2. unfold FSSIZE. lia.
  - split; [intros j ty bs E; by rewrite lookup_nil in E|cbn; lia].
Qed.

(** The bitmap of the first [n] blocks. *)
Lemma bitmap_spec n : Z.of_nat n <= BPB -> let buf := foldl (fun buf i => set_bit (Z.of_nat i) buf) zero_block (seq 0 n) in
  length buf = Z.to_nat BSIZE /\ forall b, 0 <= b -> used buf b = (b <? Z.of_nat n).
Proof.
  change BPB with 8192. induction n as [|n IH]; intros Hn; [cbn [seq foldl]; split; [apply length_replicate|]|].
  - intros b Hb. unfold used. rewrite aget_zero, Z.bits_0. symmetry. by apply Z.ltb_ge.
  - destruct IH as [IH1 IH2]; [lia|]. rewrite seq_S, foldl_app. cbn [foldl]. rewrite Nat.add_0_l. set (buf := foldl _ _ (seq 0 n)) in *. cbv zeta.
    split; [unfold set_bit; by rewrite length_aset|]. intros b Hb. rewrite used_set_bit by (rewrite ?IH1; change (Z.of_nat (Z.to_nat BSIZE)) with 1024; lia).
    rewrite IH2 by done. destruct (Z.ltb_spec b (Z.of_nat n)), (Z.eqb_spec (Z.of_nat n) b), (Z.ltb_spec b (Z.of_nat (S n))); (done || lia).
Qed.

(** What is left of [main] when all files are there: the size of the root
    is rounded up, and the bitmap is written. *)
Lemma finish_run s F root : minv s ((T_DIR, root) :: F) -> Z.of_nat (length root) <= 4096 -> exists s',
  (din ← rinode false ROOTINO;
   winode false ROOTINO (Dinode (d_type din) (d_major din) (d_minor din) (d_nlink din) (xint false (u32 ((xint false (d_size din) / BSIZE + 1) * BSIZE))) (d_addrs din));;
   used ← mget mk_freeblock;
   balloc (i32 used);;
   mret 0) s = MRet 0 s' /\
  img_ok s' /\ mk_freeblock s' = mk_freeblock s /\ files_ok s' (dinos s) ((T_DIR, root) :: F) /\
  (forall j, (0 < j <= length F)%nat -> dinos s' j = dinos s j) /\
  (exists d, d = dinos s 0 /\ dinos s' 0 = Dinode (d_type d) (d_major d) (d_minor d) (d_nlink d) ((Z.of_nat (length root) / BSIZE + 1) * BSIZE) (d_addrs d)) /\
  (forall b, 0 <= b < 32 -> mk_img s' b = mk_img s b) /\
  forall b, 0 <= b < BPB -> used (mk_img s' 45) b = (b <? mk_freeblock s).
Proof.
  intros [I1 I2 I3 I4 I5 I6] Hroot. set (d := dinos s 0). destruct (fo_inode _ _ _ I6 0%nat T_DIR root eq_refl) as [A1 A2 A3 A4 A5 A6]. fold d in A1, A2, A3, A4, A5, A6.
  change ROOTINO with 1. rewrite (mbind_run _ _ _ _ _ (rinode_run 1 s I1 ltac:(lia) A1)). change (dino s 1) with d. rewrite A4, !xint_le.
  assert ((Z.of_nat (length root) / BSIZE + 1) * BSIZE < 2 ^ 32) as Hsz by (change (2 ^ 32) with 4294967296; rewrite BSIZE_eq; zlia).
  assert (0 <= (Z.of_nat (length root) / BSIZE + 1) * BSIZE) by (rewrite BSIZE_eq; zlia).
  rewrite (u32_small (Z.of_nat (length root))), !(u32_small (_ * BSIZE)) by (change (2 ^ 32) with 4294967296; lia).
  set (d' := Dinode _ _ _ _ _ _). assert (dinode_ok d') as Hd' by (destruct A1; by split).
  rewrite (mbind_run _ _ _ _ _ (winode_run 1 d' s I1 ltac:(lia) Hd')). set (s1 := set_img _ _ s).
  rewrite (mbind_run (mget mk_freeblock) _ s1 (mk_freeblock s) s1) by done. destruct (io_fb _ I1) as [Hf1 Hf2]. rewrite nmeta_eq in Hf1. unfold FSSIZE in Hf2.
  rewrite i32_small by (change (2 ^ 31) with 2147483648; lia).
  destruct (bitmap_spec (Z.to_nat (mk_freeblock s))) as [B1 B2]; [change BPB with 8192; lia|]. set (buf := foldl _ _ _) in *.
  destruct (iblock 1 ltac:(lia)) as [Hb1 Hb2].
  assert (length (mk_img s (IBLOCK 1 sb0)) = Z.to_nat BSIZE) as Hl by (apply I1; unfold FSSIZE; lia).
  exists (set_img (dset (mk_img s1) 45 buf) FSSIZE s1). set (s2 := set_img _ _ s1). split_and!.
  - unfold balloc. rewrite (proj2 (Z.ltb_lt _ _)) by (rewrite BSIZE_eq; lia). rewrite (mbind_run _ _ s1 tt s2); [done|].
    rewrite (mbind_run (assert_ true) _ s1 tt s1) by done. rewrite (mbind_run (mget mk_sb) _ s1 sb0 s1) by (unfold mget; cbn; by rewrite (io_sb _ I1)).
    change (replicate (Z.to_nat BSIZE) 0) with zero_block. fold buf. apply wsect_run; [done|]. cbn. unfold FSSIZE. lia.
  - split; try done; try apply I1.
    + intros b Hb. cbn [mk_img s2 s1 set_img]. unfold dset. case_match; [done|]. unfold inode_view, dset. cbn [i_inum ipn].
      case_match; [rewrite length_put_dinode; exact Hl|]. by apply I1.
    + intros b Hb. cbn [mk_img s2 s1 set_img mk_freeblock] in *. rewrite dset_ne by lia. unfold inode_view. rewrite dset_ne by (cbn [i_inum ipn]; lia). by apply I1.
  - done.
  - apply (files_frame s s2 (dinos s)); try done. intros j b Hj Ho. destruct (lookup_lt_is_Some_2 _ j Hj) as [[ty' bs'] E'].
    apply (g_own _ _ _ _ _ (st_good _ _ _ (ii_stored _ _ _ _ (fo_inode _ _ _ I6 _ _ _ E')))) in Ho. rewrite nmeta_eq in Ho.
    cbn [mk_img s2 s1 set_img]. rewrite dset_ne by lia. unfold inode_view. by rewrite dset_ne by (cbn [i_inum ipn]; lia).
  - intros j Hj. cbn [length] in *. unfold dinos, dino at 1, disk_inode. destruct (iblock (1 + Z.of_nat j) ltac:(lia)).
    cbn [mk_img s2 set_img]. rewrite dset_ne by lia. apply (disk_inode_ne (mk_img s) sb0 (ipn 1 d')); rewrite ?dinode_of_ipn; try done; cbn; lia.
  - exists d. split; [done|]. unfold dinos, dino, disk_inode. change (1 + Z.of_nat 0) with 1.
    cbn [mk_img s2 set_img]. rewrite dset_ne by lia. change d' with (dinode_of (ipn 1 d')). apply (disk_inode_eq (mk_img s) sb0 (ipn 1 d')); [by rewrite dinode_of_ipn|exact Hl].
  - intros b Hb. cbn [mk_img s2 s1 set_img]. rewrite dset_ne by lia. unfold inode_view. by rewrite dset_ne by (cbn [i_inum ipn]; lia).
  - intros b Hb. cbn [mk_img s2 set_img]. rewrite dset_eq, B2 by lia. by rewrite Z2Nat.id by lia.
Qed.

(** *** What the kernel relies on *)

Section kernel.
Context (s : mkst).
Let V := mk_img s.
Hypothesis (HS : img_ok s) (HB : forall b, 0 <= b < BPB -> used (V 45) b = (b <? mk_freeblock s)).

Lemma BBLOCK_sb0 b : 0 <= b < FSSIZE -> BBLOCK b sb0 = 45 /\ b mod BPB = b.
Proof.
  unfold FSSIZE, BBLOCK. change BPB with 8192. change (sb_bmapstart sb0) with 45. intros H. rewrite Z.div_small, Z.mod_small by lia. done.
Qed.
Lemma image_in_use b : 0 <= b < FSSIZE -> in_use V sb0 b = (b <? mk_freeblock s).
Proof. intros H. unfold in_use. destruct (BBLOCK_sb0 b H) as [-> ->]. apply HB. change BPB with 8192. unfold FSSIZE in H. lia. Qed.
Lemma image_disk_wf : disk_wf V sb0.
Proof.
  destruct (io_fb _ HS) as [Hf _]. rewrite nmeta_eq in Hf. change (sb_size sb0) with FSSIZE in *. split.
  - split.
    + split; [unfold FSSIZE; cbn; lia|cbn; lia|by vm_compute].
    + intros b Hb. destruct (BBLOCK_sb0 b Hb) as [-> _]. apply HS. unfold FSSIZE. lia.
    + intros b b' Hb Hb' Hu. destruct (BBLOCK_sb0 b' Hb') as [-> _]. rewrite image_in_use in Hu by done. apply Z.ltb_ge in Hu. lia.
  - unfold FSSIZE. cbn. lia.
  - rewrite image_in_use by (unfold FSSIZE; lia). apply Z.ltb_lt. lia.
Qed.
Lemma stored_wf d bs ip : stored s d bs -> inode_wf V sb0 (loaded d ip).
Proof.
  intros [[G1 G2 G3 G4 G5 G6 G7 G8] _]. destruct (io_fb _ HS) as [_ Hf].
  assert (forall b, owns V (ipd d) b -> 46 <= b < FSSIZE) as Hr by (intros b Hb%G5; rewrite nmeta_eq in Hb; lia).
  enough (inode_wf V sb0 (ipd d)) as [] by (by split). split; try done.
  - intros b Hb%Hr. change (sb_size sb0) with FSSIZE. lia.
  - intros b Hb. rewrite image_in_use by (apply Hr in Hb; lia). apply Z.ltb_lt. by apply G5.
  - intros b Hb b' Hb'. destruct (BBLOCK_sb0 b' Hb') as [-> _]. apply Hr in Hb. lia.
  - intros b Hb%Hr. apply HS. lia.
Qed.
(** The first [n] bytes of the blocks of a file. *)
Lemma stored_bytes d bs ip n : stored s d bs -> Z.of_nat n <= nblk (Z.of_nat (length bs)) * BSIZE ->
  file_bytes V (loaded d ip) 0 n = take n (bs ++ replicate n 0).
Proof.
  intros [G _] Hn. apply list_eq. intros j. destruct (decide (j < n)%nat) as [Hj|Hj].
  - rewrite file_bytes_lookup, lookup_take_lt by done. rewrite Z.add_0_l. change (file_byte V (loaded d ip)) with (file_byte V (ipd d)).
    rewrite (g_byte _ _ _ _ _ G) by (rewrite ?BSIZE_eq in *; zlia). unfold aget. rewrite Nat2Z.id.
    destruct (decide (j < length bs)%nat) as [Hb|Hb].
    + rewrite lookup_app_l by done. destruct (lookup_lt_is_Some_2 bs j Hb) as [x Ex]. by rewrite (nth_lookup_Some _ _ _ _ Ex).
    + rewrite nth_overflow, lookup_app_r by lia. symmetry. apply lookup_replicate. split; [done|lia].
  - rewrite lookup_take_ge by lia. apply lookup_ge_None. rewrite length_file_bytes. lia.
Qed.
Lemma stored_file d bs ip n : stored s d bs -> d_size d = Z.of_nat n -> (length bs <= n)%nat -> Z.of_nat n <= MAXFILE * BSIZE -> Z.of_nat n <= nblk (Z.of_nat (length bs)) * BSIZE ->
  file_is V (loaded d ip) (bs ++ replicate (n - length bs) 0).
Proof.
  intros T E H1 H2 H3. pose proof (st_good _ _ _ T) as G. assert (length (bs ++ replicate (n - length bs) 0) = n) as El by (rewrite length_app, length_replicate; lia).
  destruct (g_m _ _ _ _ _ G) as [_ Hm]. change (MAXFILE * BSIZE) with 274432 in H2. change MAXFILE with 268 in Hm. split.
  - by rewrite El.
  - change (d_size d <= 274432). lia.
  - intros k Hk. change (0 <= k < d_size d) in Hk. apply (g_map _ _ _ _ _ G); [change MAXFILE with 268|]; rewrite BSIZE_eq in *; zlia.
  - rewrite El, (stored_bytes d bs) by done. rewrite take_app_ge by done. f_equal. apply take_replicate_plus || by rewrite take_replicate, Nat.min_l by lia.
Qed.
End kernel.

(** ** Theorems *)

Definition root_dir (args : list (list Z)) : list Z :=
  dirent false 1 (bytes_of_string ".") ++ dirent false 1 (bytes_of_string "..") ++ entries 2 args.
Lemma length_root_dir args : length (root_dir args) = (32 + 16 * length args)%nat.
Proof. unfold root_dir. rewrite !length_app, !length_dirent, length_entries. lia. Qed.

(** The run up to the last file. *)
Lemma files_run files args cs : Forall2 (host_file files) args cs -> (length args <= 198)%nat ->
  Forall (fun c => Z.of_nat (length c) <= MAXFILE * BSIZE) cs -> nmeta + total (tree (root_dir args) cs) <= FSSIZE ->
  exists s, minv s (tree (root_dir args) cs) /\ forall B (k : Z -> MK B),
    (zero_sectors (Z.to_nat FSSIZE);;
     wsect 1 (sb_bytes false sb0);;
     rootino ← ialloc false T_DIR;
     assert_ (rootino =? ROOTINO);;
     iappend false rootino (dirent false rootino (bytes_of_string "."));;
     iappend false rootino (dirent false rootino (bytes_of_string ".."));;
     add_files false files args;;
     k rootino) mk_start = k ROOTINO s.
Proof.
  intros Hf Hn Hc Htot. pose proof (length_root_dir args) as Hlr. assert (MAXFILE * BSIZE = 274432) as EM by reflexivity.
  generalize (Z2Nat.id FSSIZE ltac:(done)). generalize (Z.to_nat FSSIZE). intros n0 En0.
  destruct (start_minv n0 En0) as (s0 & s1 & R0 & R1 & I1).
  destruct (ialloc_minv s1 [] T_DIR I1) as (s2 & R2 & I2); [cbn; lia|done|]. change (1 + Z.of_nat (length [])) with 1 in R2.
  change ([] ++ [(T_DIR, [])]) with (tree [] []) in I2. set (d1 := dirent false 1 (bytes_of_string ".")) in *. set (d2 := dirent false 1 (bytes_of_string "..")) in *.
  assert (length d1 = 16%nat /\ length d2 = 16%nat) as [L1 L2] by (split; apply length_dirent).
  assert (forall r, (length r <= 32)%nat -> nmeta + total (tree r []) <= FSSIZE) as Hsmall.
  { intros r Hr. pose proof (total_tree_mono r (root_dir args) [] cs ltac:(lia)). cbn [app] in *. lia. }
  destruct (iappend_minv s2 _ 0 T_DIR [] d1 I2) as (s3 & R3 & I3); [done|cbn [length]; lia|apply (Hsmall d1); lia|].
  change (<[0%nat := _]> _) with (tree d1 []) in I3. change (1 + Z.of_nat 0) with 1 in R3.
  destruct (iappend_minv s3 _ 0 T_DIR d1 d2 I3) as (s4 & R4 & I4); [done|lia|apply (Hsmall (d1 ++ d2)); rewrite length_app; lia|].
  change (<[0%nat := _]> _) with (tree (d1 ++ d2) []) in I4. change (1 + Z.of_nat 0) with 1 in R4.
  assert ((d1 ++ d2) ++ entries 2 args = root_dir args) as Er by (by rewrite <- app_assoc).
  destruct (add_files_minv files args cs s4 (d1 ++ d2) [] I4 Hf) as (s & R & I); change (2 + Z.of_nat (length (@nil (list Z)))) with 2 in *; rewrite ?Er in *; try done; [cbn [length]; lia..|].
  cbn [app] in I. exists s. split; [done|]. intros B k.
  rewrite (mbind_run _ _ _ _ _ R0), (mbind_run _ _ _ _ _ R1), (mbind_run _ _ _ _ _ R2). change (1 =? ROOTINO) with true.
  rewrite (mbind_run (assert_ true) _ s2 tt s2), (mbind_run _ _ _ _ _ R3), (mbind_run _ _ _ _ _ R4) by done. by rewrite (mbind_run _ _ _ _ _ R).
Qed.

(** *** The root directory as the kernel reads it *)

(** What [read] returns for the file [arg] of the host, up to the end of the
    file, are the bytes [c]. *)
Definition read_file (files : list Z -> option (list (list Z))) (arg c : list Z) : Prop :=
  exists chunks, files arg = Some chunks /\ contents chunks = c.

(** The name in the image of the program [arg]: without the directory
    "user/" and then without one underscore; no slash is left. *)
Definition user_dir : list Z := [117; 115; 101; 114; 47].
Definition prog_name (arg name : list Z) : Prop := exists dir sep, arg = dir ++ sep ++ name /\
  (dir = user_dir \/ dir = [] /\ forall rest, arg <> user_dir ++ rest) /\ (sep = [95] \/ sep = [] /\ hd 0 name <> 95) /\ 47 ∉ sep ++ name.

Lemma prog_name_spec arg name : prog_name arg name -> SLASH ∉ without_user arg /\ name_of arg = name.
Proof.
  intros (dir & sep & Ea & Hd & Hs & Hn). assert (without_user arg = sep ++ name) as E.
  { unfold without_user. change USER with user_dir. destruct Hd as [->|[-> Hno]].
    - rewrite Ea. change (take 5 (user_dir ++ sep ++ name)) with user_dir. by rewrite bool_decide_eq_true_2.
    - rewrite bool_decide_eq_false_2; [by rewrite Ea|]. intros Et. apply (Hno (drop 5 arg)). rewrite <- Et. by rewrite take_drop. }
  unfold name_of. rewrite E. split; [exact Hn|]. destruct Hs as [->|[-> Hh]]; [done|]. cbn [app]. destruct name as [|c name]; [done|].
  cbn [without_underscore hd] in *. by rewrite (proj2 (Z.eqb_neq c UNDERSCORE)).
Qed.

(** An entry: the inode number, low byte first, and the name in 14 bytes,
    filled up with NULs. *)
Definition entry_bytes (inum : Z) (name : list Z) : list Z := [inum mod 256; inum / 256] ++ take 14 (name ++ replicate 14 0).
Definition root_entries (names : list (list Z)) : list (list Z) :=
  entry_bytes 1 [46] :: entry_bytes 1 [46; 46] :: imap (fun j name => entry_bytes (2 + Z.of_nat j) name) names.
(** The map from names to inodes that the root directory stands for. *)
Definition root_map (names : list (list Z)) : gmap (list Z) Z :=
  <[[46] := 1]> (<[[46; 46] := 1]> (list_to_map (imap (fun j name => (dname name, 2 + Z.of_nat j)) names))).

Lemma dirent_entry inum name : 0 <= inum < 2 ^ 16 -> dirent false inum name = entry_bytes inum name.
Proof.
  intros Hi. unfold dirent, entry_bytes, host16. rewrite xshort_le, u16_small by done. change (Z.to_nat DIRSIZ) with 14%nat. cbn [app].
  change (2 ^ 16) with 65536 in Hi. assert (u8 inum = inum mod 256 /\ u8 (inum / 256) = inum / 256) as [-> ->] by (unfold u8; change (2 ^ 8) with 256; zlia). done.
Qed.
Lemma entries_eq args names : forall inum, Forall2 prog_name args names -> 0 <= inum -> inum + Z.of_nat (length args) < 2 ^ 16 ->
  entries inum args = concat (imap (fun j name => entry_bytes (inum + Z.of_nat j) name) names).
Proof.
  intros inum H. revert inum. induction H as [|a name args names Ha H IH]; intros inum H0 Hl; [done|]. cbn [entries length] in *.
  rewrite imap_cons. cbn [concat]. rewrite Z.add_0_r, dirent_entry by lia. destruct (prog_name_spec a name Ha) as [_ ->]. f_equal.
  rewrite IH by lia. f_equal. apply imap_ext. intros j x _. unfold compose. f_equal. lia.
Qed.
Lemma root_dir_eq args names : Forall2 prog_name args names -> (length args <= 198)%nat -> root_dir args = concat (root_entries names).
Proof.
  intros H Hl. unfold root_dir, root_entries. cbn [concat]. rewrite !dirent_entry by done. by rewrite (entries_eq args names) by (done || (change (2 ^ 16) with 65536; lia)).
Qed.

Lemma length_entry inum name : length (entry_bytes inum name) = NDE.
Proof. unfold entry_bytes. rewrite length_app, length_take, length_app, length_replicate. rewrite NDE_eq. cbn [length]. lia. Qed.
Lemma cname_padded n : forall name k, (n <= k)%nat -> cname n (take n (name ++ replicate k 0)) = cname n name.
Proof.
  induction n as [|n IH]; intros name k Hk; [done|]. destruct name as [|c name]; cbn [app].
  - destruct k as [|k]; [lia|]. done.
  - cbn [take cname hd tl]. destruct (c =? 0); [done|]. f_equal. apply IH. lia.
Qed.
Lemma entry_name inum name : dname (de_name (entry_bytes inum name)) = dname name.
Proof. unfold dname, de_name, entry_bytes. cbn [app drop]. by apply cname_padded. Qed.
Lemma entry_inum inum name : 0 <= inum < 2 ^ 16 -> de_inum (entry_bytes inum name) = inum.
Proof. intros H. change (2 ^ 16) with 65536 in H. unfold de_inum, ld16, entry_bytes, aget. cbn [app]. change (Z.to_nat (0 + 1)) with 1%nat. change (Z.to_nat 0) with 0%nat. cbn [nth]. zlia. Qed.
Lemma entry_range inum name : 0 <= inum < 2 ^ 16 -> Forall (fun x => 0 <= x < 256) name -> Forall (fun x => 0 <= x < 256) (entry_bytes inum name).
Proof.
  intros H Hn. change (2 ^ 16) with 65536 in H. unfold entry_bytes. apply Forall_app. split.
  - repeat (apply Forall_cons; split; [zlia|]). apply Forall_nil_2.
  - apply Forall_take, Forall_app. split; [done|]. apply Forall_replicate. lia.
Qed.

(** Entries one after the other. *)
Lemma length_concat_entries (l : list (list Z)) : Forall (fun e => length e = NDE) l -> length (concat l) = (NDE * length l)%nat.
Proof. induction 1 as [|e l He _ IH]; [done|]. cbn [concat length]. rewrite length_app, He, IH. lia. Qed.
Lemma dent_concat : forall l k e, Forall (fun e => length e = NDE) l -> l !! k = Some e -> dent (concat l) k = e.
Proof.
  induction l as [|x l IH]; intros k e Hl Hk; [done|]. apply Forall_cons in Hl as [Hx Hl]. cbn [concat]. unfold dent. destruct k as [|k].
  - injection Hk as ->. rewrite Nat.mul_0_r, drop_0. by rewrite take_app_length' by done.
  - replace (NDE * S k)%nat with (length x + NDE * k)%nat by lia. rewrite <- drop_drop, drop_app_length. by apply IH.
Qed.
Lemma dents_concat l : Forall (fun e => length e = NDE) l -> dents (concat l) = l.
Proof.
  intros Hl. unfold dents. assert (length (concat l) / NDE = length l)%nat as -> by (rewrite length_concat_entries, Nat.mul_comm by done; by apply Nat.div_mul).
  apply list_eq. intros k. rewrite list_lookup_fmap. destruct (decide (k < length l)%nat) as [H|H].
  - rewrite lookup_seq_lt by done. destruct (lookup_lt_is_Some_2 l k H) as [e He]. rewrite He. cbn. by rewrite (dent_concat l k e).
  - rewrite lookup_seq_ge by lia. symmetry. apply lookup_ge_None. lia.
Qed.

(** The empty entries that fill the last block. *)
Definition no_entries (k : nat) : list (list Z) := replicate k (replicate NDE 0).
Lemma concat_no_entries k : concat (no_entries k) = replicate (NDE * k) 0.
Proof. induction k as [|k IH]; [by rewrite Nat.mul_0_r|]. cbn [no_entries replicate concat]. fold (no_entries k). rewrite IH, <- replicate_add. f_equal. lia. Qed.
Lemma dead_map l k : dir_map (l ++ no_entries k) = dir_map l /\ live_names (l ++ no_entries k) = live_names l.
Proof.
  induction k as [|k [IH1 IH2]]; [by rewrite app_nil_r|]. assert (~ live (replicate NDE 0)) as Hd by (intros H; apply H; by vm_compute).
  cbn [no_entries replicate]. fold (no_entries k). split; [by rewrite dir_map_skip|].
  rewrite live_names_app in *. rewrite live_names_cons, decide_False by done. exact IH2.
Qed.

Lemma names_map names : forall b, 0 < b -> b + Z.of_nat (length names) <= 2 ^ 16 -> let l := imap (fun j name => entry_bytes (b + Z.of_nat j) name) names in
  dir_map l = list_to_map (imap (fun j name => (dname name, b + Z.of_nat j)) names) /\ live_names l = dname <$> names.
Proof.
  induction names as [|name names IH]; intros b Hb Hl; [done|]. cbn [length] in Hl. cbv zeta. rewrite !imap_cons. cbn [dir_map list_to_map foldr fst snd]. rewrite live_names_cons, Z.add_0_r.
  assert (live (entry_bytes b name)) as Hlv by (unfold live; rewrite entry_inum by lia; lia). rewrite !decide_True, entry_name, entry_inum by (done || lia).
  destruct (IH (b + 1)) as [E1 E2]; [lia|lia|]. rewrite fmap_cons.
  assert (forall A (g : Z -> list Z -> A), imap ((fun j name => g (b + Z.of_nat j) name) ∘ S) names = imap (fun j name => g (b + 1 + Z.of_nat j) name) names) as Es.
  { intros A g. apply imap_ext. intros j x _. unfold compose. f_equal. lia. }
  rewrite (Es _ (fun z name => entry_bytes z name)), (Es _ (fun z name => (dname name, z))), E1, E2. done.
Qed.

(** The kernel reads the entries as the map [root_map]. *)
Lemma root_dir_is names k : (length names <= 198)%nat -> Forall (Forall (fun x => 0 <= x < 256)) names -> NoDup ([46] :: [46; 46] :: (dname <$> names)) ->
  dir_is (concat (root_entries names) ++ replicate (NDE * k) 0) (root_map names).
Proof.
  intros Hl Hb Hnd. rewrite <- concat_no_entries, <- concat_app. set (l := root_entries names).
  destruct (names_map names 2) as [E1 E2]; [lia|change (2 ^ 16) with 65536; lia|]. destruct (dead_map l k) as [D1 D2].
  assert (Forall (fun e => length e = NDE) (l ++ no_entries k)) as Hf.
  { apply Forall_app. split; [|by apply Forall_replicate]. do 2 (apply Forall_cons; split; [apply length_entry|]).
    apply Forall_lookup. intros j e He. apply list_lookup_imap_Some in He as (x & _ & ->). apply length_entry. }
  assert (live (entry_bytes 1 [46]) /\ live (entry_bytes 1 [46; 46])) as [L1 L2] by (split; unfold live; by rewrite entry_inum).
  split.
  - apply Forall_concat, Forall_app. split; [|apply Forall_replicate, Forall_replicate; lia].
    do 2 (apply Forall_cons; split; [apply entry_range; [done|repeat constructor; lia]|]).
    apply Forall_lookup. intros j e He. apply list_lookup_imap_Some in He as (x & Hx & ->). pose proof (lookup_lt_Some _ _ _ Hx).
    apply entry_range; [change (2 ^ 16) with 65536; lia|]. by eapply Forall_lookup_1.
  - rewrite length_concat_entries, Nat.mul_comm by done. apply Nat.Div0.mod_mul.
  - rewrite dents_concat, D2 by done. unfold l, root_entries. rewrite !live_names_cons, !decide_True, !entry_name, E2 by done. exact Hnd.
  - rewrite dents_concat, D1 by done. unfold l, root_entries. cbn [dir_map]. rewrite !decide_True, !entry_name, !entry_inum, E1 by done. done.
Qed.

Lemma host_files files args names cs : Forall2 prog_name args names -> Forall2 (read_file files) args cs -> Forall2 (host_file files) args cs.
Proof.
  intros Hn Hr. revert names Hn. induction Hr as [|a c args cs Ha Hr IH]; intros names Hn; [constructor|].
  apply Forall2_cons_inv_l in Hn as (name & names' & Hname & Hn & ->). constructor; [|by apply (IH names')].
  split; [|exact Ha]. by apply (prog_name_spec a name).
Qed.

(** C29: the image.  Given programs that can be read and that fit, mkfs ends
    well on a little-endian host.  The image has the super block of the
    kernel, an empty log and a bitmap that marks exactly the blocks in use;
    the [j]th file has inode [2 + j], of type T_FILE with one link, whose
    contents are the bytes of the host's file.  The root directory has the
    entries ".", "..", both with inode 1, and for the [j]th argument its
    name, without "user/" and one underscore, with inode [2 + j], then empty
    entries to the end of the block; when the names are different (in their
    first 14 bytes) the kernel's directory of these bytes is the map from
    the names to these inodes.  No two inodes share a block. *)
Theorem mkfs_image_correct files prog img args names cs (ip : inode) : Forall2 prog_name args names -> Forall2 (read_file files) args cs -> (length args <= 198)%nat ->
  Forall (fun c => Z.of_nat (length c) <= MAXFILE * BSIZE) cs -> let root := concat (root_entries names) in let len := Z.of_nat (length root) in
  nmeta + total (tree root cs) <= FSSIZE ->
  exists s, main false true files (prog :: img :: args) = MRet 0 s /\
    let V := mk_img s in let ino inum := loaded (disk_inode V sb0 inum) ip in
    mk_size s = FSSIZE /\ sb_of (V 1) = sb0 /\ V 2 = zero_block /\ disk_wf V sb0 /\
    (forall b, 0 <= b < FSSIZE -> in_use V sb0 b = (b <? nmeta + total (tree root cs))) /\
    (forall j c, cs !! j = Some c -> let x := ino (2 + Z.of_nat j) in
      i_type x = T_FILE /\ i_nlink x = 1 /\ inode_wf V sb0 x /\ file_is V x c) /\
    (let x := ino ROOTINO in i_type x = T_DIR /\ inode_wf V sb0 x /\ i_size x = (len / BSIZE + 1) * BSIZE /\ file_bytes V x 0 (length root) = root /\
      (len mod BSIZE <> 0 -> let bs := root ++ replicate (Z.to_nat (i_size x - len)) 0 in file_is V x bs /\
         (Forall (Forall (fun b => 0 <= b < 256)) names -> NoDup ([46] :: [46; 46] :: (dname <$> names)) -> dir_is bs (root_map names)))) /\
    (forall i j b, (i <= length cs)%nat -> (j <= length cs)%nat -> i <> j ->
      owns V (ino (1 + Z.of_nat i)) b -> owns V (ino (1 + Z.of_nat j)) b -> False).
Proof.
  intros Hnm Hrd Hn Hc root len Htot. pose proof (host_files _ _ _ _ Hnm Hrd) as Hf. pose proof (root_dir_eq _ _ Hnm Hn) as Eroot. fold root in Eroot.
  pose proof (length_root_dir args) as Hlr. rewrite Eroot in Hlr. assert (length names = length args) as Hln by (symmetry; by eapply Forall2_length).
  assert (length cs = length args) as Hl by (by symmetry; eapply Forall2_length).
  destruct (files_run files args cs Hf Hn Hc) as (s0 & I & Hrun); [by rewrite Eroot|]. rewrite Eroot in I.
  destruct (finish_run s0 _ root I) as (s & R & HS & Efb & HF & Hdn & (d & Ed & Ed0) & Hmeta & HB); [lia|]. rewrite length_fmap in Hdn.
  pose proof (mi_fb _ _ _ I) as Hfb. rewrite <- Efb in HB. exists s. split.
  { unfold main. cbn [negb]. rewrite super_le. change (MkSt (fun _ => []) 0 sb0 1 nmeta) with mk_start. etransitivity; [apply (Hrun _ (fun rootino => _))|]. exact R. }
  intros V ino. assert (forall j, (0 < j <= length cs)%nat -> disk_inode V sb0 (1 + Z.of_nat j) = dinos s0 j) as Hd by (intros j Hj; by rewrite <- Hdn).
  assert (disk_inode V sb0 1 = dinos s 0) as Hd0 by done. set (sz := (len / BSIZE + 1) * BSIZE) in *.
  assert (d_addrs (disk_inode V sb0 1) = d_addrs (dinos s0 0)) as Ha0 by (by rewrite Hd0, Ed0, <- Ed).
  destruct (fo_inode _ _ _ HF 0%nat T_DIR root eq_refl) as [A1 A2 A3 A4 A5 A6]. rewrite <- Ed in A2.
  assert (stored s (disk_inode V sb0 1) root) as T0 by (by apply (stored_addrs s (dinos s0 0))).
  assert (MAXFILE * BSIZE = 274432) as EM by reflexivity. split_and!.
  - apply HS.
  - unfold V. rewrite Hmeta, (mi_meta _ _ _ I) by lia. reflexivity.
  - unfold V. by rewrite Hmeta, (mi_meta _ _ _ I) by lia.
  - by apply image_disk_wf.
  - intros b Hb. unfold V. rewrite (image_in_use s HB b Hb). by rewrite Efb, Hfb.
  - intros j c E x. pose proof (lookup_lt_Some _ _ _ E) as Hj.
    destruct (fo_inode _ _ _ HF (S j) T_FILE c) as [C1 C2 C3 C4 C5 C6]; [change (tree root cs !! S j = Some (T_FILE, c)); by rewrite tree_lookup, E|].
    unfold x, ino. replace (2 + Z.of_nat j) with (1 + Z.of_nat (S j)) by lia. rewrite Hd by lia. split_and!; try done; [by apply (stored_wf s HS HB _ c)|].
    pose proof (stored_file s (dinos s0 (S j)) c ip (length c) C6 C4) as Hfile. rewrite Nat.sub_diag, app_nil_r in Hfile.
    apply Hfile; [lia|done|]. unfold nblk. rewrite BSIZE_eq. zlia.
  - assert (i_size (ino ROOTINO) = sz) as Esz by (unfold ino, ROOTINO; by rewrite Hd0, Ed0). cbv zeta. split_and!.
    + unfold ino, ROOTINO. by rewrite Hd0, Ed0.
    + by apply (stored_wf s HS HB _ root).
    + done.
    + unfold ino, ROOTINO. rewrite (stored_bytes s _ root ip _ T0) by (unfold nblk; rewrite BSIZE_eq; zlia). by rewrite take_app_le, firstn_all by done.
    + intros Hm. assert (Z.to_nat (sz - len) = (NDE * Z.to_nat (64 * (len / 1024 + 1) - (2 + Z.of_nat (length args))))%nat) as Hk.
      { rewrite NDE_eq. unfold sz. assert (len = 16 * (2 + Z.of_nat (length args))) as -> by (unfold len; lia). rewrite BSIZE_eq. clear. zlia. }
      rewrite Esz. split; [|intros Hnb Hnd; rewrite Hk; apply root_dir_is; [lia|done|done]].
      replace (Z.to_nat (sz - len)) with (Z.to_nat sz - length root)%nat by (unfold len; lia).
      assert (Z.of_nat (Z.to_nat sz) = sz) as Ez by (unfold sz; rewrite BSIZE_eq; zlia).
      assert (len <= sz <= 274432 /\ sz <= nblk len * BSIZE) as [Hs1 Hs2] by (unfold nblk, sz; rewrite BSIZE_eq in *; unfold len in *; zlia).
      unfold ino, ROOTINO. apply (stored_file s); rewrite ?Ez; [done|by rewrite Hd0, Ed0|unfold len in *; lia|lia|done].
  - intros i j b Hi Hj Hne Oi Oj. assert (forall k, (k <= length cs)%nat -> owns V (ino (1 + Z.of_nat k)) b -> owns V (ipd (dinos s0 k)) b) as Hk.
    { intros k Hk Ho. destruct (decide (k = 0%nat)) as [->|]; [by apply (owns_addrs V (disk_inode V sb0 1))|]. unfold ino in Ho. rewrite Hd in Ho by lia. exact Ho. }
    assert (length (tree root cs) = S (length cs)) as Ht by (unfold tree; cbn; by rewrite length_fmap).
    apply (fo_disj _ _ _ HF i j b); [fold (tree root cs); lia..|done|by apply Hk|by apply Hk].
Qed.

Definition mk_example (arg : list Z) : option (list (list Z)) :=
  if bool_decide (arg = bytes_of_string "user/_cat") then Some [[1; 2; 3]; [4]] else None.
Lemma mkfs_image_correct_witness : exists s bs d, main false true mk_example [[]; []; bytes_of_string "user/_cat"] = MRet 0 s /\
  disk_wf (mk_img s) sb0 /\ file_is (mk_img s) (loaded (disk_inode (mk_img s) sb0 2) inode_zero) [1; 2; 3; 4] /\
  file_is (mk_img s) (loaded (disk_inode (mk_img s) sb0 1) inode_zero) bs /\ dir_is bs d /\ d !! [99; 97; 116] = Some 2.
Proof.
  destruct (mkfs_image_correct mk_example [] [] [bytes_of_string "user/_cat"] [[99; 97; 116]] [[1; 2; 3; 4]] inode_zero) as (s & R & _ & _ & _ & Hd & _ & Hf & (_ & _ & _ & _ & Hr) & _).
  - constructor; [|constructor]. exists user_dir, [95]. split; [reflexivity|]. split; [by left|]. split; [by left|]. apply (bool_decide_unpack _); by vm_compute.
  - constructor; [|constructor]. by exists [[1; 2; 3]; [4]].
  - cbn. lia.
  - repeat constructor. by vm_compute.
  - by vm_compute.
  - destruct Hr as [Hfile Hdir]; [by vm_compute|]. eexists s, _, _. split; [exact R|]. split; [exact Hd|]. split; [by apply (Hf 0%nat)|].
    split; [exact Hfile|]. split; [apply Hdir|reflexivity].
    + apply Forall_singleton. repeat (apply Forall_cons; split; [lia|]). apply Forall_nil_2.
    + apply (bool_decide_unpack _). by vm_compute.
Defined.

(** On a big-endian host the inodes and the bitmap go to sector 0: the
    block numbers come from the super block, which [xint] has reversed. *)
Lemma mkfs_big_endian : match main true true mk_example [[]; []] with
  | MRet _ s => mk_img s 32 = zero_block /\ mk_img s 45 = zero_block /\ take 4 (mk_img s 0) = [255; 255; 255; 255]
  | _ => False
  end.
Proof. vm_compute. auto. Qed.

(** There are inodes up to 207; the next one is in the bitmap. *)
Lemma inode_in_bitmap : IBLOCK 208 sb0 = sb_bmapstart sb0.
Proof. reflexivity. Qed.
